(* ===== verification/_CoqProject ===== *)
-Q . S2P
Prelude.v
BusType.v
Signature.v
HexDecOct.v
ParseUtil.v
Names.v
BusError.v
Utf8.v
Gvariant.v
MsgState.v
MsgWrite.v
MsgFields.v
MsgRead.v
MsgBody.v
MsgGuards.v
Marshal.v
MsgAppend.v
MsgReadback.v
MsgRoundtrip.v
MsgParse.v
MsgWire.v
MsgNew.v
MsgSafety.v
MsgCopy.v
MsgOrder.v
MsgExamples.v
Prioq.v
Siphash.v
Bus.v
Sasl.v
SaslSession.v
SaslHandshake.v
Transport.v
Call.v
Dispatch.v
CallState.v
CallKeeps.v
CallSlots.v
CallAsk.v
CallAnswer.v
CallOnce.v
CallExamples.v
TransportWrite.v
TransportSend.v
TransportRead.v
Channel.v
Blocking.v
CallWait.v
Hashmap.v
RobinHood.v
HashTable.v
HashProbe.v
HashRemove.v
HashPut.v
HashResize.v
HashCalls.v
HashIterate.v
HashFuncs.v
HashmapRun.v
MatchRule.v
MatchTree.v
MatchRun.v
MatchExamples.v
ObjTree.v
ObjTreeWf.v
ObjSlots.v
ObjRegistry.v
Introspect.v
Objects.v
ObjDispatch.v
ObjReceivers.v
ObjEmit.v
ObjExamples.v
Address.v
AddressList.v
PathCode.v
Track.v
TrackWf.v
