(* ===== verification/Prelude.v ===== *)
(** * A verification of basu, the D-Bus library ([src/])

    basu is systemd's sd-bus as a library of its own: a client and server side
    implementation of D-Bus. This library models its core in Rocq and proves it
    correct. The definitions are executable and follow the C functions whose
    names they carry.

    ** Parts of the program, and the files that model them

    - _Wire format_. [BusType] (bus-type.c), [Signature] (bus-signature.c),
      [Names] (the checks of bus-internal.c), [Utf8] (utf8.c) and [Gvariant]
      (bus-gvariant.c) are the checks and tables everything else calls.
      [HexDecOct] (hexdecoct.c, bus-label.c) and [ParseUtil] (parse-util.c,
      user-util.c) are helpers of the authentication and of paths, [BusError]
      (bus-error.c) has errors and their translation to error numbers.
    - _Messages_ (bus-message.c). [MsgState] has the object with its
      containers; [MsgWrite] the calls that append, [MsgFields] header fields,
      constructors and sealing, [MsgRead] the calls that read, [MsgParse]
      the parsing of received bytes, [MsgCopy] copying and skipping. [Marshal]
      is the specification: values and their bytes. [MsgBody], [MsgGuards],
      [MsgAppend], [MsgReadback], [MsgRoundtrip], [MsgWire], [MsgNew] and
      [MsgSafety] prove the code against it; [MsgOrder] has the byte orders,
      [MsgExamples] witnesses.
    - _Connections_ (sd-bus.c, bus-socket.c). [Bus] has the state of a
      connection, the kernel as it sees it, and the changes of its life cycle;
      [Sasl] the authentication phase, with its theory in [SaslSession] and
      [SaslHandshake]; [Transport] the write and the read queue and sending,
      with its theory in [TransportWrite], [TransportSend] and [TransportRead];
      [Channel] puts a sender, a socket and a receiver together. [Address]
      parses the addresses of a connection and tries them, with its theory in
      [AddressList]; [PathCode] has the encoding of names into object paths.
    - _Slots, calls and dispatch_ (bus-slot.c, sd-bus.c, bus-convenience.c).
      [Call] has slots with their life, method calls and replies;
      [Dispatch] what [sd_bus_process] does with a message, callbacks being
      programs over the library that call it back. [CallState] has the state
      of the outstanding calls, [CallKeeps], [CallSlots], [CallAsk],
      [CallAnswer] and [CallOnce] follow a call from the question to
      its one answer, [CallExamples] has witnesses. [Blocking] has the calls
      that wait, [CallWait] their theory.
    - _Tracking of peers_ (bus-track.c). [Track] has the objects with their
      names and the queue; [TrackWf] proves their invariant, up to the 2^32nd
      reference to one object.
    - _Match rules_ (bus-match.c). [MatchRule] parses rules, [MatchTree] is
      the tree and the dispatch along it, [MatchRun] its theory.
    - _Exported objects_ (bus-objects.c, bus-introspect.c). [ObjTree] is the tree
      of nodes with [ObjTreeWf], its invariant; [ObjSlots] has the theory of
      adding and removing objects, [ObjRegistry] that of vtables and of any
      program of such calls;
      [Objects] and [Introspect] answer a call, against the specification of
      [ObjDispatch] in [ObjReceivers]; [ObjEmit] sends the signals about
      properties and interfaces; [ObjExamples] has witnesses.
    - _Containers_. [Prioq] (prioq.c) and [Siphash] (siphash24.c); hash tables
      (hashmap.c, hash-funcs.c): [Hashmap] has the code, [RobinHood] and
      [HashTable] the specification and the invariant, [HashProbe], [HashRemove],
      [HashPut], [HashResize], [HashCalls] and [HashIterate] the operations,
      [HashFuncs] the hash functions, [HashmapRun] sequences of calls against
      a finite map, with witnesses.

    ** How state and operations correspond

    An object of the C code is a record, a field a projection of the same name;
    where two structs share a name one of them has a prefix. A function that
    returns a negative errno on failure returns [res]; one that also changes an
    object is [stm S], a state monad in which the state reached is kept on
    failure, as C keeps it. [EASSERT] stands for a failed assertion and for
    other undefined behaviour, so a theorem that a call never gives [EASSERT]
    says that neither happens. Integers are [Z] with [wrap32] and [wrap64]
    written where the code relies on the width. A C string is the list of its
    bytes without the final zero ([cstr]); NULL is [None].

    The kernel is the record [kernel] of [Bus]: what each call will answer, in
    order, with the bytes that went out and those that wait. Theorems quantify
    over it, so they hold for sockets that take and give any number of bytes. The
    answers are finitely many; after the last, a write would block, a read finds
    nothing and [ppoll] is interrupted, so waiting ends. Room that is allocated
    and not yet written holds [UNWRITTEN], which is no byte.

    ** What is shown

    - What a client writes with the append calls is the D-Bus marshalling of the
      values ([MsgRoundtrip]), survives sealing, sending and parsing
      ([MsgWire]) and is read back as the same values, in both byte orders.
    - Whatever bytes arrive, parsing them and reading them with any sequence of
      calls fails no assertion and stays inside the body ([MsgSafety]).
    - The constructors refuse exactly the invalid names ([MsgNew]); the calls
      that write, name, flag or seal a message leave sealed ones alone, and
      poisoned ones but for their flags; growing a body keeps the size limits
      ([MsgGuards]). A reading call that fails leaves the message where it was
      ([MsgSafety]).
    - A server starts a connection only for a client that was granted a
      mechanism for its own identity, however the input is cut; both sides of a
      handshake agree ([SaslSession], [SaslHandshake]).
    - Bytes leave and arrive in order, whole, without loss or repetition, and a
      fair socket delivers everything, while fewer messages are on their way than
      the receiver may queue ([TransportWrite], [TransportSend],
      [TransportRead], [Channel]).
    - The match tree calls exactly the callbacks whose rules the message
      satisfies, whatever the order and form of the rules, each on the message
      from its beginning, until one stops it or changes the tree ([MatchTree],
      [MatchRun]); what follows a change under rules on the elements of an
      argument is left open, as the code may read a freed node there. Rules are
      parsed as they are written ([MatchRule]).
    - The checks of signatures and UTF-8 decide their grammars; those of names
      accept the names of the D-Bus specification, and member names that begin
      with a digit besides ([Names]). The queue is a heap, and the incremental
      hash is SipHash.
    - A method call is answered once and not twice, by the reply, by its time
      running out or by the end of the connection ([CallOnce]). A caller
      that waits gets the first message that answers the call; the others stay
      in the queue, in order ([CallWait]). A call that could not be sent has sent
      and read nothing, but its cookie is used up.
    - Objects that track peers, their names, the matches and the queue agree
      whatever users, handlers and peers do ([TrackWf]).
    - A hash table, whatever its keys and hashes, behaves as a finite map through
      any sequence of calls, growing and shrinking included; an ordered one keeps
      the order of insertion and may lose the current entry while it is
      iterated, unless the next one has the key NULL ([HashmapRun],
      [HashIterate]).
    - What is exported stays well-formed whatever is added and removed, up to a
      vtable that is refused after some of its members were registered, which
      the code does not take back; and the manager of an object is the nearest
      one above it ([ObjRegistry]). A call
      reaches the callbacks the specification names, in its order, until one
      of them answers ([ObjReceivers]).
    - The addresses a bus is given are tried in order up to the first that
      answers, and an address written with escapes is read back ([AddressList]);
      names put into a path come out again ([PathCode]).

    ** Fuel and bounds

    Loops that are not structural take fuel, and running out of it gives
    [EASSERT]; each theorem covers this case, so the fuel given is enough. The
    scanners of signatures use the length of the string plus one; skipping and
    copying values [message_fuel], 1024 for every byte of the body; loops over
    the socket the number of answers the kernel still has, as each round uses
    one; the loop that cuts messages out of the buffer its length, as each
    message has 16 bytes or more. The loops that start over when a callback has
    changed what they iterate have no bound of their own in C: their number of
    rounds ([passes], [rounds]) is a parameter. Hash tables hold at
    most 2^26 entries, which keeps the code's unsigned products exact.

    ** What is not modelled, and why

    - Failing allocations and the growth of arrays; sizes are assumed to fit
      where the code computes them in [size_t] without a check.
    - Message bodies in memfds, SELinux labels, credentials and time stamps:
      they come from the kernel and are handed through. The texts of errors.
    - Calls from a forked child ([bus_pid_changed]), the branches for Zephyr,
      FreeBSD and big-endian machines, log messages.
    - Destroy callbacks, and the reference counts between a slot and its
      connection: no slot outlives its connection here. Tracking is modelled on
      its own: the answers of [sd_bus_add_match_async] and
      [sd_bus_get_name_creds] are arguments, and the connections of [Dispatch]
      track nothing. Opening the standard buses, which reads the environment.
    - The event loop (sd-event), busctl, bus-creds.c, the JSON and XML helpers:
      other components, which the manifest lists with the reason. *)
(** ** Libraries and scopes *)
From Stdlib Require Export ZArith Lia Ascii String Permutation.
From stdpp Require Export base list list_numbers numbers option gmap.

#[export] Set Default Goal Selector "!".
Global Open Scope Z_scope.

(** ** Error numbers and results

    A C function that returns a negative errno on failure and fills its output
    arguments otherwise returns [res A]. [EOTHER n] is any error number without a
    name of its own here. [EASSERT] is not an errno: it marks a
    failed [assert()] / [assert_not_reached()], which aborts the process. *)
Inductive errno :=
  | EPERM | ENOENT | ENXIO | E2BIG | ENOMEM | EBUSY | EEXIST | EINVAL
  | EPIPE | ERANGE | EBADMSG | EOPNOTSUPP | ENOTCONN | ENOMSG | ESTALE
  | ENODATA | EDOM | ENOTSUP | EAGAIN | ENOBUFS | EIO | ECONNRESET | ESHUTDOWN
  | ETIMEDOUT | ECONNREFUSED | EADDRNOTAVAIL | ELOOP | EBADF
  | EACCES | EADDRINUSE | EALREADY | EBADR | ECANCELED | ECONNABORTED | EDEADLK | EHOSTDOWN | EHOSTUNREACH | EINPROGRESS
  | EKEYREJECTED | EMEDIUMTYPE | ENETDOWN | ENETRESET | ENOEXEC | ENONET | ENOSPC | ENOSYS | EREMOTE | EREMOTEIO
  | ERFKILL | EROFS | ESRCH | ETIME | EUNATCH
  | EOTHER (n : Z)
  | EASSERT.

#[export] Instance errno_eq_dec : EqDecision errno.
Proof. solve_decision. Defined.

Inductive res (A : Type) :=
  | Ok (a : A)
  | Err (e : errno).
Arguments Ok {A} a.
Arguments Err {A} e.

#[export] Instance res_eq_dec `{EqDecision A} : EqDecision (res A).
Proof. solve_decision. Defined.

#[export] Instance res_ret : MRet res := fun A a => Ok a.
#[export] Instance res_bind : MBind res := fun A B f m =>
  match m with Ok a => f a | Err e => Err e end.
#[export] Instance res_fmap : FMap res := fun A B f m =>
  match m with Ok a => Ok (f a) | Err e => Err e end.

(** [require b e] is the code's [if (!b) return -e;]. *)
Definition require (b : bool) (e : errno) : res unit :=
  if b then Ok tt else Err e.

Definition is_ok {A} (r : res A) : bool :=
  match r with Ok _ => true | Err _ => false end.

Lemma res_bind_ok {A B} (m : res A) (f : A -> res B) b :
  (m ≫= f) = Ok b <-> exists a, m = Ok a /\ f a = Ok b.
Proof.
  destruct m; simpl; split; [by eauto | by intros (? & [= ->] & ?) | done |].
  by intros (? & ? & ?).
Qed.

Lemma require_ok b e u : require b e = Ok u <-> b = true.
Proof. destruct b, u; simpl; split; done. Qed.

(** [safe P r]: no assertion fails in [r], and what it returns satisfies [P]. *)
Definition safe {A} (P : A -> Prop) (r : res A) : Prop :=
  match r with Ok a => P a | Err e => e <> EASSERT end.

Lemma safe_bind {A B} (Q : A -> Prop) (P : B -> Prop) (r : res A) (f : A -> res B) :
  safe Q r -> (forall a, Q a -> safe P (f a)) -> safe P (r ≫= f).
Proof. destruct r; simpl; auto. Qed.

Lemma safe_require b e (P : unit -> Prop) :
  e <> EASSERT -> (b = true -> P tt) -> safe P (require b e).
Proof. destruct b; simpl; auto. Qed.

Lemma safe_mono {A} (Q P : A -> Prop) r : safe Q r -> (forall a, Q a -> P a) -> safe P r.
Proof. destruct r; simpl; auto. Qed.

(** ** Result and state: an operation on an object of type [S]

    The state reached is returned on failure too: the code does not roll back
    what it did before [return -errno]. *)
Definition stm (S A : Type) : Type := S -> res A * S.

#[export] Instance stm_ret {S} : MRet (stm S) := fun A a s => (Ok a, s).
#[export] Instance stm_bind {S} : MBind (stm S) := fun A B f m s =>
  match m s with
  | (Ok a, s') => f a s'
  | (Err e, s') => (Err e, s')
  end.

Definition sget {S} : stm S S := fun s => (Ok s, s).
Definition sput {S} (s : S) : stm S unit := fun _ => (Ok tt, s).
Definition smod {S} (f : S -> S) : stm S unit := fun s => (Ok tt, f s).
Definition sfail {S A} (e : errno) : stm S A := fun s => (Err e, s).
Definition slift {S A} (r : res A) : stm S A := fun s => (r, s).
Definition sreq {S} (b : bool) (e : errno) : stm S unit := slift (require b e).

Lemma stm_bind_ok {S A B} (m : stm S A) (f : A -> stm S B) s b s' :
  (m ≫= f) s = (Ok b, s') <->
  exists a s1, m s = (Ok a, s1) /\ f a s1 = (Ok b, s').
Proof.
  unfold mbind, stm_bind. destruct (m s) as [[a|e] s1]; split.
  - by eauto.
  - by intros (? & ? & [= -> ->] & ?).
  - done.
  - by intros (? & ? & ? & ?).
Qed.

Lemma stm_bind_eq {S A B} (m : stm S A) (f : A -> stm S B) s :
  (m ≫= f) s = match m s with (Ok a, s1) => f a s1 | (Err e, s1) => (Err e, s1) end.
Proof. unfold mbind, stm_bind. by destruct (m s) as [[]]. Qed.

Lemma stm_bind_run {S A B} (m : stm S A) (f : A -> stm S B) s a s1 :
  m s = (Ok a, s1) -> (m ≫= f) s = f a s1.
Proof. unfold mbind, stm_bind. by intros ->. Qed.

Lemma stm_bind_err {S A B} (m : stm S A) (f : A -> stm S B) s e s1 :
  m s = (Err e, s1) -> (m ≫= f) s = (Err e, s1).
Proof. unfold mbind, stm_bind. by intros ->. Qed.

(** The same for an operation on an object: [P] after a result, [E] after an error. *)
Definition ssafe {S A} (P : A -> S -> Prop) (E : S -> Prop) (r : res A * S) : Prop :=
  match r with
  | (Ok a, s) => P a s
  | (Err e, s) => e <> EASSERT /\ E s
  end.

Lemma ssafe_bind {S A B} (Q : A -> S -> Prop) (P : B -> S -> Prop) (E : S -> Prop)
    (f : stm S A) (g : A -> stm S B) s :
  ssafe Q E (f s) -> (forall a s', Q a s' -> ssafe P E (g a s')) -> ssafe P E ((f ≫= g) s).
Proof. unfold mbind, stm_bind. destruct (f s) as [[a|e] s']; simpl; auto. Qed.

Lemma ssafe_lift {S A} (P : A -> S -> Prop) (E : S -> Prop) (r : res A) s :
  safe (fun a => P a s) r -> E s -> ssafe P E (slift r s).
Proof. destruct r; simpl; auto. Qed.

Lemma ssafe_get {S A} (P : A -> S -> Prop) E (f : S -> stm S A) s :
  ssafe P E (f s s) -> ssafe P E ((sget ≫= f) s).
Proof. done. Qed.

Lemma ssafe_mod {S A} (P : A -> S -> Prop) E g (f : unit -> stm S A) s :
  ssafe P E (f tt (g s)) -> ssafe P E ((smod g ≫= f) s).
Proof. done. Qed.

Lemma ssafe_req {S A} (P : A -> S -> Prop) (E : S -> Prop) b e (f : unit -> stm S A) s :
  e <> EASSERT -> E s -> (b = true -> ssafe P E (f tt s)) ->
  ssafe P E ((sreq b e ≫= f) s).
Proof. intros He Hs Hf. destruct b; [by apply Hf|by split]. Qed.

(** A computation that leaves the object alone. *)
Lemma ssafe_slift {S A B} (Q : A -> Prop) (P : B -> S -> Prop) (E : S -> Prop) (r : res A)
    (f : A -> stm S B) s :
  safe Q r -> E s -> (forall a, Q a -> ssafe P E (f a s)) -> ssafe P E ((slift r ≫= f) s).
Proof. destruct r; simpl; intros H1 H2 H3; [by apply H3|by split]. Qed.

(** ** Characters and C strings

    A [char] or [uint8_t] is its unsigned value in [Z]; a C string is the list
    of its characters without the terminating NUL. A [const char*] that walks
    over a string is the remaining suffix, and reading at its end gives the
    terminating 0. *)
Abbreviation cstr := (list Z) (only parsing).

Definition ch (a : ascii) : Z := Z.of_N (N_of_ascii a).

Fixpoint bs (s : string) : list Z :=
  match s with
  | EmptyString => []
  | String a s => ch a :: bs s
  end.

(** [*p] *)
Definition deref (p : list Z) : Z := match p with [] => 0 | c :: _ => c end.

(** [p[i]] within a string, [i <= strlen(p)] *)
Definition char_at (p : list Z) (i : nat) : Z := deref (drop i p).

Definition is_byte (b : Z) : Prop := 0 <= b < 256.
Definition is_byteb (b : Z) : bool := (0 <=? b) && (b <? 256).

(** A C string holds bytes and no NUL. *)
Definition is_cstr (s : list Z) : Prop := Forall (fun c => 0 < c < 256) s.

(** [IN_SET(c, ...)], [memchr(set, c, sizeof(set))] and [switch] labels. *)
Definition in_set (c : Z) (l : list Z) : bool := existsb (Z.eqb c) l.

Lemma in_set_spec c l : in_set c l = true <-> c ∈ l.
Proof.
  unfold in_set. rewrite existsb_exists, list_elem_of_In. split.
  - by intros (x & ? & ->%Z.eqb_eq).
  - exists c. by rewrite Z.eqb_refl.
Qed.

Lemma in_set_false c l : in_set c l = false <-> c ∉ l.
Proof. rewrite <- in_set_spec. by destruct (in_set c l). Qed.

(** [streq] *)
Fixpoint streq (a b : list Z) : bool :=
  match a, b with
  | [], [] => true
  | x :: a, y :: b => (x =? y) && streq a b
  | _, _ => false
  end.

Lemma streq_spec a b : streq a b = true <-> a = b.
Proof.
  revert b; induction a as [|x a IH]; intros [|y b]; simpl; try done.
  rewrite andb_true_iff, Z.eqb_eq, IH. split; [intros [-> ->]; done | by intros [= -> ->]].
Qed.

Lemma streq_refl a : streq a a = true.
Proof. by apply streq_spec. Qed.

(** [startswith(s, prefix)]: what follows the prefix *)
Fixpoint startswith (s prefix : list Z) {struct prefix} : option (list Z) :=
  match prefix, s with
  | [], _ => Some s
  | x :: prefix, y :: s => if x =? y then startswith s prefix else None
  | _ :: _, [] => None
  end.

Lemma startswith_spec s p r : startswith s p = Some r <-> s = p ++ r.
Proof.
  revert s; induction p as [|x p IH]; intros [|y s]; simpl.
  - split; [by intros [= ->] | by intros ->].
  - split; [by intros [= ->] | by intros ->].
  - done.
  - destruct (Z.eqb_spec x y) as [->|Hne].
    + rewrite IH. split; [by intros -> | by intros [= ->]].
    + split; [done | intros [= -> ?]; done].
Qed.

Lemma startswith_app (p r : list Z) : startswith (p ++ r) p = Some r.
Proof. by apply startswith_spec. Qed.

(** ** Machine integers *)
Definition wrap (w x : Z) : Z := x mod 2 ^ w.
Abbreviation wrap8 := (wrap 8).
Abbreviation wrap16 := (wrap 16).
Abbreviation wrap32 := (wrap 32).
Abbreviation wrap64 := (wrap 64).

Definition UINT32_MAX : Z := 4294967295.
Definition SIZE_MAX : Z := 18446744073709551615.

Lemma wrap_bound w x : 0 <= w -> 0 <= wrap w x < 2 ^ w.
Proof. intros. apply Z.mod_pos_bound. by apply Z.pow_pos_nonneg. Qed.

Lemma wrap_small w x : 0 <= x < 2 ^ w -> wrap w x = x.
Proof. apply Z.mod_small. Qed.

(** [ALIGN_TO(l, ali)], [basic/macro.h], on a 64-bit [size_t] *)
Definition ALIGN_TO (l ali : Z) : Z :=
  Z.land (wrap64 (l + ali - 1)) (wrap64 (Z.lnot (ali - 1))).

(** [ALIGN8(l)] on a 64-bit [size_t]; [~7] is an [int] and sign-extends. *)
Definition ALIGN8 (l : Z) : Z :=
  Z.land (wrap64 (l + 7)) (wrap64 (Z.lnot 7)).

(** The arithmetic reading of the two macros. *)
Definition align_up (l a : Z) : Z := (l + a - 1) / a * a.

Lemma land_lnot_ones x n :
  0 <= n -> 0 <= x -> Z.land x (Z.lnot (2 ^ n - 1)) = x / 2 ^ n * 2 ^ n.
Proof.
  intros Hn Hx. rewrite <- Z.ldiff_land.
  replace (2 ^ n - 1) with (Z.ones n) by (rewrite Z.ones_equiv; lia).
  rewrite Z.ldiff_ones_r by done.
  by rewrite Z.shiftl_mul_pow2, Z.shiftr_div_pow2 by done.
Qed.

Lemma land_wrap64_lnot x m :
  0 <= x < 2 ^ 64 -> Z.land x (wrap64 m) = Z.land x m.
Proof.
  intros Hx. apply Z.bits_inj'. intros i Hi.
  rewrite !Z.land_spec. unfold wrap. destruct (decide (i < 64)).
  - by rewrite Z.mod_pow2_bits_low.
  - rewrite <- (Z.mod_small x (2 ^ 64)) by done.
    by rewrite Z.mod_pow2_bits_high by lia.
Qed.

Lemma ALIGN_TO_up_pow l n :
  0 <= n <= 16 -> 0 <= l < 2 ^ 63 -> ALIGN_TO l (2 ^ n) = align_up l (2 ^ n).
Proof.
  intros Hn Hl. unfold ALIGN_TO, align_up.
  assert (2 ^ n <= 2 ^ 16) by (apply Z.pow_le_mono_r; lia).
  assert (0 < 2 ^ n) by (apply Z.pow_pos_nonneg; lia).
  rewrite (wrap_small 64 (l + 2 ^ n - 1)) by lia.
  rewrite land_wrap64_lnot by lia.
  apply land_lnot_ones; lia.
Qed.

(** The alignments D-Bus uses *)
Definition is_align (a : Z) : Prop := a = 1 \/ a = 2 \/ a = 4 \/ a = 8.

Lemma ALIGN_TO_up l a :
  is_align a -> 0 <= l < 2 ^ 63 -> ALIGN_TO l a = align_up l a.
Proof.
  intros [->|[->|[->| ->]]] Hl.
  - apply (ALIGN_TO_up_pow l 0); lia.
  - apply (ALIGN_TO_up_pow l 1); lia.
  - apply (ALIGN_TO_up_pow l 2); lia.
  - apply (ALIGN_TO_up_pow l 3); lia.
Qed.

Lemma ALIGN8_up l : 0 <= l < 2 ^ 63 -> ALIGN8 l = align_up l 8.
Proof.
  intros. rewrite <- ALIGN_TO_up by (unfold is_align; auto).
  unfold ALIGN8, ALIGN_TO. do 2 f_equal. lia.
Qed.

Lemma align_up_spec l a :
  0 < a -> 0 <= l ->
  l <= align_up l a < l + a /\ (a | align_up l a).
Proof.
  intros Ha Hl. unfold align_up. split.
  - pose proof (Z.div_mod (l + a - 1) a ltac:(lia)).
    pose proof (Z.mod_pos_bound (l + a - 1) a ltac:(lia)). nia.
  - apply Z.divide_factor_r.
Qed.

Lemma align_up_id l a : 0 < a -> (a | l) -> align_up l a = l.
Proof.
  intros Ha [k ->]. unfold align_up.
  replace (k * a + a - 1) with (k * a + (a - 1)) by lia.
  rewrite Z.div_add_l, (Z.div_small (a - 1)) by lia. lia.
Qed.

Lemma align_up_mono l1 l2 a : 0 < a -> l1 <= l2 -> align_up l1 a <= align_up l2 a.
Proof.
  intros. unfold align_up. apply Z.mul_le_mono_nonneg_r; [lia|].
  apply Z.div_le_mono; lia.
Qed.

(** ** Little-endian words *)
Fixpoint le_bytes (n : nat) (x : Z) : list Z :=
  match n with
  | O => []
  | S n => x mod 256 :: le_bytes n (x / 256)
  end.

Fixpoint le_val (l : list Z) : Z :=
  match l with
  | [] => 0
  | b :: l => b + 256 * le_val l
  end.

Lemma le_bytes_length n x : length (le_bytes n x) = n.
Proof. revert x; induction n; intros; simpl; [done|]. by rewrite IHn. Qed.

Lemma le_bytes_is_byte n x : Forall is_byte (le_bytes n x).
Proof.
  revert x; induction n; intros; simpl; constructor; [|done].
  by apply Z.mod_pos_bound.
Qed.

Lemma le_val_le_bytes n x :
  le_val (le_bytes n x) = x mod 2 ^ (8 * Z.of_nat n).
Proof.
  revert x; induction n as [|n IH]; intros x.
  { simpl. by rewrite Z.mod_1_r. }
  cbn [le_bytes le_val]. rewrite IH.
  replace (8 * Z.of_nat (S n)) with (8 + 8 * Z.of_nat n) by lia.
  rewrite Z.pow_add_r by lia. change (2 ^ 8) with 256.
  rewrite Z.rem_mul_r by (try apply Z.pow_nonzero; lia). done.
Qed.

Lemma le_val_bound l :
  Forall is_byte l -> 0 <= le_val l < 2 ^ (8 * Z.of_nat (length l)).
Proof.
  induction 1 as [|b l Hb Hl IH]; [simpl; lia|].
  cbn [le_val length]. unfold is_byte in Hb.
  replace (8 * Z.of_nat (S (length l))) with (8 + 8 * Z.of_nat (length l)) by lia.
  rewrite Z.pow_add_r by lia. change (2 ^ 8) with 256. lia.
Qed.

Lemma le_bytes_le_val l : Forall is_byte l -> le_bytes (length l) (le_val l) = l.
Proof.
  induction 1 as [|b l Hb Hl IH]; [done|].
  cbn [le_val le_bytes length]. unfold is_byte in Hb.
  rewrite (Z.mul_comm 256), Z.mod_add, Z.mod_small by lia.
  by rewrite Z.div_add, Z.div_small, Z.add_0_l, IH by lia.
Qed.

(** [bswap_16], [bswap_32], [bswap_64] on an [n]-byte word *)
Definition bswap (n : nat) (x : Z) : Z := le_val (rev (le_bytes n x)).

Lemma bswap_involutive n x :
  0 <= x < 2 ^ (8 * Z.of_nat n) -> bswap n (bswap n x) = x.
Proof.
  intros Hx. unfold bswap.
  assert (le_bytes n (le_val (rev (le_bytes n x))) = rev (le_bytes n x)) as ->.
  { rewrite <- (le_bytes_le_val (rev (le_bytes n x))) at 2.
    - by rewrite length_rev, le_bytes_length.
    - apply Forall_rev, le_bytes_is_byte. }
  rewrite rev_involutive, le_val_le_bytes. by apply Z.mod_small.
Qed.

Lemma lor_bound n x y : 0 <= x < 2 ^ n -> 0 <= y < 2 ^ n -> 0 <= Z.lor x y < 2 ^ n.
Proof.
  intros [Hx Hx2] [Hy Hy2]. split; [by apply Z.lor_nonneg|].
  destruct (Z.eq_dec (Z.lor x y) 0) as [->|Hn]; [lia|].
  apply Z.log2_lt_pow2; [pose proof (proj2 (Z.lor_nonneg x y) (conj Hx Hy)); lia|].
  rewrite Z.log2_lor by lia. apply Z.max_lub_lt.
  - destruct (Z.eq_dec x 0) as [->|]; [|by apply Z.log2_lt_pow2; lia].
    destruct (Z.eq_dec y 0) as [->|]; [done|]. assert (0 <= Z.log2 y < n); [|simpl; lia].
    split; [apply Z.log2_nonneg|apply Z.log2_lt_pow2; lia].
  - destruct (Z.eq_dec y 0) as [->|]; [|by apply Z.log2_lt_pow2; lia].
    destruct (Z.eq_dec x 0) as [->|]; [done|]. assert (0 <= Z.log2 x < n); [|simpl; lia].
    split; [apply Z.log2_nonneg|apply Z.log2_lt_pow2; lia].
Qed.

Lemma lor_high c n x : 0 <= n -> 0 <= x < 2 ^ n -> Z.lor x (Z.shiftl c n) = x + 2 ^ n * c.
Proof.
  intros Hn Hx. rewrite Z.shiftl_mul_pow2 by done.
  assert (Z.land x (c * 2 ^ n) = 0) as Hl.
  { destruct (decide (x = 0)) as [->|Hx0]; [apply Z.land_0_l|].
    apply Z.bits_inj'. intros i Hi. rewrite Z.land_spec, Z.bits_0.
    destruct (Z_lt_dec i n).
    - rewrite Z.mul_pow2_bits_low by lia. by rewrite andb_false_r.
    - rewrite Z.bits_above_log2; [done|lia|].
      apply Z.log2_lt_pow2; [lia|]. apply Z.lt_le_trans with (2 ^ n); [lia|].
      apply Z.pow_le_mono_r; lia. }
  pose proof (Z.add_lor_land x (c * 2 ^ n)). lia.
Qed.

Lemma bswap_bound n x : 0 <= bswap n x < 2 ^ (8 * Z.of_nat n).
Proof.
  pose proof (le_val_bound (rev (le_bytes n x))
    ltac:(apply Forall_rev, le_bytes_is_byte)) as H.
  by rewrite length_rev, le_bytes_length in H.
Qed.

(** ** Lists *)
Definition zeros (n : nat) : list Z := replicate n 0.

(** [zlen]: lengths as [Z], the code's [size_t] *)
Definition zlen {A} (l : list A) : Z := Z.of_nat (length l).

Lemma zlen_app {A} (l1 l2 : list A) : zlen (l1 ++ l2) = zlen l1 + zlen l2.
Proof. unfold zlen. rewrite length_app. lia. Qed.

Lemma le_val_app l1 l2 : le_val (l1 ++ l2) = le_val l1 + 2 ^ (8 * zlen l1) * le_val l2.
Proof.
  induction l1 as [|b l1 IH].
  { cbn [app le_val]. change (8 * zlen []) with 0. rewrite Z.pow_0_r. lia. }
  cbn [app le_val]. rewrite IH.
  replace (8 * zlen (b :: l1)) with (8 + 8 * zlen l1) by (unfold zlen; cbn [length]; lia).
  rewrite Z.pow_add_r by (unfold zlen; lia). change (2 ^ 8) with 256. lia.
Qed.

Lemma zlen_nonneg {A} (l : list A) : 0 <= zlen l.
Proof. unfold zlen. lia. Qed.

Lemma forallb_Forall {A} (f : A -> bool) l :
  forallb f l = true <-> Forall (fun x => f x = true) l.
Proof. by rewrite forallb_forall, List.Forall_forall. Qed.

Lemma take_drop_middle_app {A} (pre mid post : list A) n k :
  n = length pre -> k = length mid ->
  take k (drop n (pre ++ mid ++ post)) = mid.
Proof. intros -> ->. by rewrite drop_app_length, take_app_length. Qed.

Create HintDb basu discriminated.
Lemma le_val_bytes n q : Forall is_byte q -> zlen q = n -> 0 <= le_val q < 2 ^ (8 * n).
Proof. intros H <-. by apply le_val_bound. Qed.

#[export] Hint Resolve le_bytes_is_byte zlen_nonneg streq_refl : basu.
#[export] Hint Rewrite le_bytes_length @zlen_app @length_app @length_replicate : basu.

(** Case analysis on the boolean integer tests the code's conditions become. *)
Ltac ztests :=
  repeat match goal with
  | H : (_ =? _) = true |- _ => apply Z.eqb_eq in H
  | H : (_ =? _) = false |- _ => apply Z.eqb_neq in H
  | H : (_ <? _) = true |- _ => apply Z.ltb_lt in H
  | H : (_ <? _) = false |- _ => apply Z.ltb_ge in H
  | H : (_ <=? _) = true |- _ => apply Z.leb_le in H
  | H : (_ <=? _) = false |- _ => apply Z.leb_gt in H
  | H : (_ && _) = true |- _ => apply andb_true_iff in H; destruct H
  | H : (_ || _) = false |- _ => apply orb_false_iff in H; destruct H
  | H : negb _ = true |- _ => apply negb_true_iff in H
  | H : negb _ = false |- _ => apply negb_false_iff in H
  end.

(** [CMP] of macro.h *)
Definition CMP (a b : Z) : Z := if a <? b then -1 else if b <? a then 1 else 0.

Lemma CMP_eq a b : CMP a b = 0 <-> a = b.
Proof. unfold CMP. destruct (Z.ltb_spec a b), (Z.ltb_spec b a); lia. Qed.

(** Replace character literals by their codes, for [lia]. *)
Ltac norm_ch :=
  repeat match goal with
  | |- context [ch (Ascii ?a ?b ?c ?d ?e ?f ?g ?h)] =>
      let v := eval vm_compute in (ch (Ascii a b c d e f g h)) in
      change (ch (Ascii a b c d e f g h)) with v
  | H : context [ch (Ascii ?a ?b ?c ?d ?e ?f ?g ?h)] |- _ =>
      let v := eval vm_compute in (ch (Ascii a b c d e f g h)) in
      change (ch (Ascii a b c d e f g h)) with v in H
  end.

(** Invert a successful run of a [res] computation. *)
Ltac res_inv :=
  repeat match goal with
  | H : (_ ≫= _) = Ok _ |- _ =>
      apply res_bind_ok in H; destruct H as (? & ? & H)
  | H : require _ _ = Ok _ |- _ => apply require_ok in H
  | H : Ok _ = Ok _ |- _ => injection H as H
  | H : mret _ = Ok _ |- _ => injection H as H
  | H : Err _ = Ok _ |- _ => discriminate H
  | H : Ok _ = Err _ |- _ => discriminate H
  end.
