(* ===== verification/BusType.v ===== *)
(** * D-Bus type codes ([src/libsystemd/sd-bus/bus-type.c])

    The classification of the type codes (valid, basic, trivial, container)
    and the alignment and size tables of the D-Bus 1 marshalling format. *)
From S2P Require Import Prelude.

(** The enum of [sd-bus-protocol.h]. *)
Definition SD_BUS_TYPE_BYTE : Z := Eval cbv in ch "y".
Definition SD_BUS_TYPE_BOOLEAN : Z := Eval cbv in ch "b".
Definition SD_BUS_TYPE_INT16 : Z := Eval cbv in ch "n".
Definition SD_BUS_TYPE_UINT16 : Z := Eval cbv in ch "q".
Definition SD_BUS_TYPE_INT32 : Z := Eval cbv in ch "i".
Definition SD_BUS_TYPE_UINT32 : Z := Eval cbv in ch "u".
Definition SD_BUS_TYPE_INT64 : Z := Eval cbv in ch "x".
Definition SD_BUS_TYPE_UINT64 : Z := Eval cbv in ch "t".
Definition SD_BUS_TYPE_DOUBLE : Z := Eval cbv in ch "d".
Definition SD_BUS_TYPE_STRING : Z := Eval cbv in ch "s".
Definition SD_BUS_TYPE_OBJECT_PATH : Z := Eval cbv in ch "o".
Definition SD_BUS_TYPE_SIGNATURE : Z := Eval cbv in ch "g".
Definition SD_BUS_TYPE_UNIX_FD : Z := Eval cbv in ch "h".
Definition SD_BUS_TYPE_ARRAY : Z := Eval cbv in ch "a".
Definition SD_BUS_TYPE_VARIANT : Z := Eval cbv in ch "v".
Definition SD_BUS_TYPE_STRUCT : Z := Eval cbv in ch "r".
Definition SD_BUS_TYPE_STRUCT_BEGIN : Z := Eval cbv in ch "(".
Definition SD_BUS_TYPE_STRUCT_END : Z := Eval cbv in ch ")".
Definition SD_BUS_TYPE_DICT_ENTRY : Z := Eval cbv in ch "e".
Definition SD_BUS_TYPE_DICT_ENTRY_BEGIN : Z := Eval cbv in ch "{".
Definition SD_BUS_TYPE_DICT_ENTRY_END : Z := Eval cbv in ch "}".

(** [bus_type_is_valid] *)
Definition bus_type_is_valid (c : Z) : bool :=
  in_set c
    [ SD_BUS_TYPE_BYTE; SD_BUS_TYPE_BOOLEAN; SD_BUS_TYPE_INT16;
      SD_BUS_TYPE_UINT16; SD_BUS_TYPE_INT32; SD_BUS_TYPE_UINT32;
      SD_BUS_TYPE_INT64; SD_BUS_TYPE_UINT64; SD_BUS_TYPE_DOUBLE;
      SD_BUS_TYPE_STRING; SD_BUS_TYPE_OBJECT_PATH; SD_BUS_TYPE_SIGNATURE;
      SD_BUS_TYPE_ARRAY; SD_BUS_TYPE_VARIANT; SD_BUS_TYPE_STRUCT;
      SD_BUS_TYPE_DICT_ENTRY; SD_BUS_TYPE_UNIX_FD ].

(** [bus_type_is_basic] *)
Definition bus_type_is_basic (c : Z) : bool :=
  in_set c
    [ SD_BUS_TYPE_BYTE; SD_BUS_TYPE_BOOLEAN; SD_BUS_TYPE_INT16;
      SD_BUS_TYPE_UINT16; SD_BUS_TYPE_INT32; SD_BUS_TYPE_UINT32;
      SD_BUS_TYPE_INT64; SD_BUS_TYPE_UINT64; SD_BUS_TYPE_DOUBLE;
      SD_BUS_TYPE_STRING; SD_BUS_TYPE_OBJECT_PATH; SD_BUS_TYPE_SIGNATURE;
      SD_BUS_TYPE_UNIX_FD ].

(** [bus_type_is_trivial] *)
Definition bus_type_is_trivial (c : Z) : bool :=
  in_set c
    [ SD_BUS_TYPE_BYTE; SD_BUS_TYPE_BOOLEAN; SD_BUS_TYPE_INT16;
      SD_BUS_TYPE_UINT16; SD_BUS_TYPE_INT32; SD_BUS_TYPE_UINT32;
      SD_BUS_TYPE_INT64; SD_BUS_TYPE_UINT64; SD_BUS_TYPE_DOUBLE ].

(** [bus_type_is_container] *)
Definition bus_type_is_container (c : Z) : bool :=
  in_set c
    [ SD_BUS_TYPE_ARRAY; SD_BUS_TYPE_VARIANT; SD_BUS_TYPE_STRUCT;
      SD_BUS_TYPE_DICT_ENTRY ].

(** [bus_type_get_alignment] *)
Definition bus_type_get_alignment (c : Z) : res Z :=
  if in_set c [ SD_BUS_TYPE_BYTE; SD_BUS_TYPE_SIGNATURE; SD_BUS_TYPE_VARIANT ]
  then Ok 1
  else if in_set c [ SD_BUS_TYPE_INT16; SD_BUS_TYPE_UINT16 ]
  then Ok 2
  else if in_set c
    [ SD_BUS_TYPE_BOOLEAN; SD_BUS_TYPE_INT32; SD_BUS_TYPE_UINT32;
      SD_BUS_TYPE_STRING; SD_BUS_TYPE_OBJECT_PATH; SD_BUS_TYPE_ARRAY;
      SD_BUS_TYPE_UNIX_FD ]
  then Ok 4
  else if in_set c
    [ SD_BUS_TYPE_INT64; SD_BUS_TYPE_UINT64; SD_BUS_TYPE_DOUBLE;
      SD_BUS_TYPE_STRUCT; SD_BUS_TYPE_STRUCT_BEGIN; SD_BUS_TYPE_DICT_ENTRY;
      SD_BUS_TYPE_DICT_ENTRY_BEGIN ]
  then Ok 8
  else Err EINVAL.

(** [bus_type_get_size] *)
Definition bus_type_get_size (c : Z) : res Z :=
  if in_set c [ SD_BUS_TYPE_BYTE ] then Ok 1
  else if in_set c [ SD_BUS_TYPE_INT16; SD_BUS_TYPE_UINT16 ] then Ok 2
  else if in_set c
    [ SD_BUS_TYPE_BOOLEAN; SD_BUS_TYPE_INT32; SD_BUS_TYPE_UINT32;
      SD_BUS_TYPE_UNIX_FD ]
  then Ok 4
  else if in_set c
    [ SD_BUS_TYPE_INT64; SD_BUS_TYPE_UINT64; SD_BUS_TYPE_DOUBLE ]
  then Ok 8
  else Err EINVAL.

(** ** Facts *)

(** Case analysis over the members of a concrete set of codes. *)
Ltac in_set_cases H :=
  apply in_set_spec in H;
  repeat (apply elem_of_cons in H; destruct H as [->|H]; [|]);
  try (by apply not_elem_of_nil in H).

(** Type codes whose value has a fixed size on the wire. *)
Definition is_fixed (c : Z) : bool :=
  bus_type_is_trivial c || (c =? SD_BUS_TYPE_UNIX_FD).

Lemma basic_valid c : bus_type_is_basic c = true -> bus_type_is_valid c = true.
Proof. intros H. in_set_cases H; done. Qed.

Lemma basic_alignment c :
  bus_type_is_basic c = true ->
  exists a, bus_type_get_alignment c = Ok a /\ is_align a.
Proof.
  intros H. unfold is_align. in_set_cases H; eexists; (split; [reflexivity|]); lia.
Qed.

Lemma fixed_size c :
  is_fixed c = true ->
  exists a, bus_type_get_size c = Ok a /\ bus_type_get_alignment c = Ok a /\ is_align a.
Proof.
  unfold is_fixed, is_align. intros [H|H%Z.eqb_eq]%orb_true_iff.
  - in_set_cases H; eexists; (split; [reflexivity|]); (split; [reflexivity|]); lia.
  - subst. exists 4. split; [reflexivity|]. split; [reflexivity|]. lia.
Qed.

(** A basic code is a fixed-size one or one of the three string-like ones. *)
Lemma basic_cases c :
  bus_type_is_basic c = true ->
  is_fixed c = true \/ c = SD_BUS_TYPE_STRING \/
  c = SD_BUS_TYPE_OBJECT_PATH \/ c = SD_BUS_TYPE_SIGNATURE.
Proof. intros H. in_set_cases H; vm_compute; auto. Qed.

Lemma basic_nonzero c : bus_type_is_basic c = true -> 0 < c < 256.
Proof. intros H. in_set_cases H; vm_compute; auto. Qed.

(** A code is valid exactly when it is basic or a container, never both; the
    alignment table gives every valid code 1, 2, 4 or 8, the size table is
    defined exactly on the trivial codes and UNIX_FD, and there the size is the
    alignment. *)
Theorem type_tables_consistent c :
  (bus_type_is_valid c = xorb (bus_type_is_basic c) (bus_type_is_container c)) /\
  (bus_type_is_valid c = true ->
     exists a, bus_type_get_alignment c = Ok a /\ is_align a) /\
  (is_ok (bus_type_get_size c) = is_fixed c) /\
  (forall sz, bus_type_get_size c = Ok sz -> bus_type_get_alignment c = Ok sz).
Proof.
  unfold is_align.
  destruct (bus_type_is_valid c) eqn:Hv.
  - unfold bus_type_is_valid in Hv.
    in_set_cases Hv; (split; [reflexivity|]);
      (split; [intros _; eexists; split; [reflexivity|lia] |]);
      (split; [reflexivity|]); intros sz [= <-] || intros sz [=]; reflexivity.
  - apply in_set_false in Hv.
    assert (bus_type_is_basic c = false) as Hb.
    { apply in_set_false. set_solver. }
    assert (bus_type_is_container c = false) as Hc.
    { apply in_set_false. set_solver. }
    rewrite Hb, Hc. split; [done|]. split; [done|].
    assert (is_fixed c = false) as Hf.
    { apply orb_false_iff; split; [apply in_set_false | apply Z.eqb_neq]; set_solver. }
    unfold bus_type_get_size.
    rewrite !(proj2 (in_set_false c _)) by set_solver. rewrite Hf. done.
Qed.
