(* ===== verification/Signature.v ===== *)
(** * Type signatures ([src/libsystemd/sd-bus/bus-signature.c])

    The recursive scanner that measures one complete type at the head of a
    signature, its four clients, and the grammar of complete types it decides. *)
From S2P Require Import Prelude BusType.

(** ** The scanner

    [signature_element_length_internal], with one function for each of its two
    inner loops: [struct_loop] and [dict_loop] are the [while] loops of the
    struct and the dict-entry branch, and return how far [p] moved past [s + 1]
    (the dict loop also the number [n] of members). Fuel is decreased on every
    call and iteration; [sel_fuel] below is always enough. *)
Fixpoint sel_internal (fuel : nat) (s : cstr) (allow_dict_entry : bool)
    (array_depth struct_depth : Z) {struct fuel} : res nat :=
  match fuel with
  | O => Err EASSERT
  | S fuel =>
      let c := deref s in
      if bus_type_is_basic c || (c =? SD_BUS_TYPE_VARIANT) then Ok 1%nat
      else if c =? SD_BUS_TYPE_ARRAY then
        if 32 <=? array_depth then Err EINVAL
        else
          t ← sel_internal fuel (tail s) true (array_depth + 1) struct_depth;
          Ok (t + 1)%nat
      else if c =? SD_BUS_TYPE_STRUCT_BEGIN then
        if 32 <=? struct_depth then Err EINVAL
        else
          n ← struct_loop fuel (tail s) array_depth struct_depth;
          (* p - s < 2 *)
          if bool_decide (n + 1 < 2)%nat then Err EINVAL
          else Ok (n + 1 + 1)%nat
      else if (c =? SD_BUS_TYPE_DICT_ENTRY_BEGIN) && allow_dict_entry then
        if 32 <=? struct_depth then Err EINVAL
        else
          '(l, n) ← dict_loop fuel (tail s) 0 array_depth struct_depth;
          if negb (n =? 2) then Err EINVAL
          else Ok (l + 1 + 1)%nat
      else Err EINVAL
  end
with struct_loop (fuel : nat) (p : cstr) (array_depth struct_depth : Z)
    {struct fuel} : res nat :=
  match fuel with
  | O => Err EASSERT
  | S fuel =>
      if deref p =? SD_BUS_TYPE_STRUCT_END then Ok 0%nat
      else
        t ← sel_internal fuel p false array_depth (struct_depth + 1);
        l ← struct_loop fuel (drop t p) array_depth struct_depth;
        Ok (t + l)%nat
  end
with dict_loop (fuel : nat) (p : cstr) (n : Z) (array_depth struct_depth : Z)
    {struct fuel} : res (nat * Z) :=
  match fuel with
  | O => Err EASSERT
  | S fuel =>
      if deref p =? SD_BUS_TYPE_DICT_ENTRY_END then Ok (0%nat, n)
      else if (n =? 0) && negb (bus_type_is_basic (deref p)) then Err EINVAL
      else
        t ← sel_internal fuel p false array_depth (struct_depth + 1);
        '(l, n) ← dict_loop fuel (drop t p) (n + 1) array_depth struct_depth;
        Ok ((t + l)%nat, n)
  end.

Definition sel_fuel (s : cstr) : nat := 2 * length s + 1.

Definition signature_element_length_internal (s : cstr) (allow_dict_entry : bool)
    (array_depth struct_depth : Z) : res nat :=
  sel_internal (sel_fuel s) s allow_dict_entry array_depth struct_depth.

(** [signature_element_length] *)
Definition signature_element_length (s : cstr) : res nat :=
  signature_element_length_internal s true 0 0.

(** [signature_is_single]; the model's strings are never NULL. *)
Definition signature_is_single (s : cstr) (allow_dict_entry : bool) : bool :=
  match signature_element_length_internal s allow_dict_entry 0 0 with
  | Err _ => false
  | Ok t => char_at s t =? 0
  end.

(** [signature_is_pair] *)
Definition signature_is_pair (s : cstr) : bool :=
  if negb (bus_type_is_basic (deref s)) then false
  else signature_is_single (tail s) false.

(** [signature_is_valid]: the loop over complete types, then the length check.
    [n] is [p - s]; every iteration consumes at least one character. *)
Fixpoint valid_loop (fuel : nat) (p : cstr) (allow_dict_entry : bool) (n : nat)
    : option nat :=
  match fuel with
  | O => None
  | S fuel =>
      if deref p =? 0 then Some n
      else match signature_element_length_internal p allow_dict_entry 0 0 with
           | Err _ => None
           | Ok t => valid_loop fuel (drop t p) allow_dict_entry (n + t)
           end
  end.

Definition signature_is_valid (s : cstr) (allow_dict_entry : bool) : bool :=
  match valid_loop (length s + 1) s allow_dict_entry 0 with
  | None => false
  | Some n => bool_decide (n <= 255)%nat
  end.

(** ** The grammar of complete types

    [complete_type d a s t]: [t] is one complete type inside [a] arrays and [s]
    structs or dict entries, a dict entry being allowed at its head only if [d].
    [members k a s t]: [t] is [k] complete types in a row. *)
Inductive complete_type : bool -> Z -> Z -> cstr -> Prop :=
  | ct_basic d a s c :
      bus_type_is_basic c = true -> complete_type d a s [c]
  | ct_variant d a s : complete_type d a s [SD_BUS_TYPE_VARIANT]
  | ct_array d a s t :
      a < 32 -> complete_type true (a + 1) s t ->
      complete_type d a s (SD_BUS_TYPE_ARRAY :: t)
  | ct_struct d a s k t :
      s < 32 -> members (S k) a (s + 1) t ->
      complete_type d a s
        (SD_BUS_TYPE_STRUCT_BEGIN :: t ++ [SD_BUS_TYPE_STRUCT_END])
  | ct_dict a s c t :
      s < 32 -> bus_type_is_basic c = true -> complete_type false a (s + 1) t ->
      complete_type true a s
        (SD_BUS_TYPE_DICT_ENTRY_BEGIN :: c :: t ++ [SD_BUS_TYPE_DICT_ENTRY_END])
with members : nat -> Z -> Z -> cstr -> Prop :=
  | mem_nil a s : members 0 a s []
  | mem_cons k a s t ts :
      complete_type false a s t -> members k a s ts ->
      members (S k) a s (t ++ ts).

Scheme complete_type_mut := Minimality for complete_type Sort Prop
  with members_mut := Minimality for members Sort Prop.
Combined Scheme complete_type_members_ind from complete_type_mut, members_mut.

#[export] Hint Constructors complete_type members : basu.

(** The first character of a complete type is not NUL and closes nothing. *)
Lemma complete_type_head d a s t :
  complete_type d a s t ->
  exists c t', t = c :: t' /\ c <> 0 /\
    c <> SD_BUS_TYPE_STRUCT_END /\ c <> SD_BUS_TYPE_DICT_ENTRY_END.
Proof.
  destruct 1 as [d a s c H| | | |]; try (eexists _, _; split; [reflexivity|done]).
  eexists _, _; split; [reflexivity|]. in_set_cases H; done.
Qed.

Lemma complete_type_length d a s t : complete_type d a s t -> (1 <= length t)%nat.
Proof. intros (c & t' & -> & _)%complete_type_head. simpl. lia. Qed.

Lemma complete_type_allow d a s t : complete_type d a s t -> complete_type true a s t.
Proof. destruct 1; eauto with basu. Qed.

Lemma members_length k a s t : members k a s t -> (k <= length t)%nat.
Proof.
  induction 1 as [|k a s t ts Ht%complete_type_length _ IH]; [done|].
  rewrite length_app. lia.
Qed.

(** ** Soundness: what is measured is a complete type *)
Lemma deref_cons p c : deref p = c -> c <> 0 -> p = c :: tail p.
Proof. destruct p; simpl; [lia|by intros ->]. Qed.

(** What the two loops establish, [m] members having been consumed. *)
Definition sel_sound (f : nat) : Prop :=
  (forall s d a sd n, sel_internal f s d a sd = Ok n ->
     exists t r, s = t ++ r /\ length t = n /\ complete_type d a sd t) /\
  (forall p a sd n, struct_loop f p a sd = Ok n ->
     exists t r k, p = t ++ SD_BUS_TYPE_STRUCT_END :: r /\ length t = n /\
       members k a (sd + 1) t) /\
  (forall p n0 a sd n l, 0 <= n0 -> dict_loop f p n0 a sd = Ok (l, n) ->
     exists t r k, p = t ++ SD_BUS_TYPE_DICT_ENTRY_END :: r /\ length t = l /\
       n = n0 + Z.of_nat k /\ members k a (sd + 1) t /\
       (n0 = 0 -> (0 < k)%nat -> bus_type_is_basic (deref p) = true)).

Lemma basic_single_char d a s c t :
  complete_type d a s t -> deref t = c -> bus_type_is_basic c = true -> t = [c].
Proof.
  intros Ht Hc Hb. destruct Ht; simpl in *; subst; try done.
Qed.

(** A dict entry's two members, the first one basic, have the grammar's shape. *)
Lemma members_pair a s t :
  members 2 a s t -> bus_type_is_basic (deref t) = true ->
  exists c v, t = c :: v /\ bus_type_is_basic c = true /\ complete_type false a s v.
Proof.
  intros Hm Hb. inversion Hm as [|k a' s' t1 ts Ht1 Hts]; subst.
  inversion Hts as [|k a' s' t2 ts2 Ht2 Hn]; subst. inversion Hn; subst.
  rewrite app_nil_r in *.
  destruct (complete_type_head _ _ _ _ Ht1) as (c & t1' & -> & _).
  simpl in Hb. pose proof (basic_single_char _ _ _ c _ Ht1 eq_refl Hb) as [= ->].
  simpl. by exists c, t2.
Qed.

Lemma sel_sound_sel f :
  sel_sound f ->
  forall s d a sd n, sel_internal (S f) s d a sd = Ok n ->
  exists t r, s = t ++ r /\ length t = n /\ complete_type d a sd t.
Proof.
  intros (IHs & IHl & IHd) s d a sd n. cbn [sel_internal].
  destruct (_ || _) eqn:Hb.
  { intros [= <-]. apply orb_true_iff in Hb. destruct s as [|c s].
    { simpl in Hb. by destruct Hb. }
    exists [c], s. split; [done|]. split; [done|]. simpl in Hb.
    destruct Hb as [Hb | ->%Z.eqb_eq]; by constructor. }
  destruct (deref s =? SD_BUS_TYPE_ARRAY) eqn:Ha.
  { apply Z.eqb_eq in Ha. apply deref_cons in Ha; [|done]. rewrite Ha. simpl tail.
    destruct (32 <=? a) eqn:Hd; [done|]. intros H. res_inv. ztests.
    destruct (IHs _ _ _ _ _ H0) as (t & r & Ht & <- & Hc).
    exists (SD_BUS_TYPE_ARRAY :: t), r. rewrite Ht. simpl.
    split; [done|]. split; [lia|]. constructor; [lia|done]. }
  destruct (deref s =? SD_BUS_TYPE_STRUCT_BEGIN) eqn:Hs.
  { apply Z.eqb_eq in Hs. apply deref_cons in Hs; [|done]. rewrite Hs. simpl tail.
    destruct (32 <=? sd) eqn:Hd; [done|]. intros H. res_inv. ztests.
    case_bool_decide; [done|]. injection H as H.
    destruct (IHl _ _ _ _ H0) as (t & r & k & Ht & <- & Hm).
    exists (SD_BUS_TYPE_STRUCT_BEGIN :: t ++ [SD_BUS_TYPE_STRUCT_END]), r.
    rewrite Ht. simpl. rewrite length_app, <- app_assoc. simpl.
    split; [done|]. split; [lia|].
    destruct k; [|econstructor; [lia|done]].
    inversion Hm; subst. simpl in *. lia. }
  destruct (_ && d) eqn:Hdd; [|done]. ztests. subst d.
  apply deref_cons in H; [|done]. rewrite H. simpl tail.
  destruct (32 <=? sd) eqn:Hd; [done|]. intros Hr. res_inv. destruct x as [l m].
  destruct (negb (m =? 2)) eqn:Hm2; [done|]. injection Hr as <-. ztests.
  destruct (IHd _ _ _ _ _ _ (Z.le_refl 0) H0) as (t & r & k & Ht & <- & Hk & Hm & Hfirst).
  assert (k = 2%nat) as -> by lia.
  assert (bus_type_is_basic (deref t) = true) as Hbt.
  { rewrite <- (Hfirst eq_refl ltac:(lia)), Ht.
    apply members_length in Hm. destruct t; simpl in *; [lia|done]. }
  destruct (members_pair _ _ _ Hm Hbt) as (c & v & -> & Hc & Hv).
  exists (SD_BUS_TYPE_DICT_ENTRY_BEGIN :: c :: v ++ [SD_BUS_TYPE_DICT_ENTRY_END]), r.
  rewrite Ht. simpl. rewrite length_app, <- app_assoc. simpl.
  split; [done|]. split; [lia|]. constructor; [lia|done|done].
Qed.

Lemma sel_sound_all f : sel_sound f.
Proof.
  induction f as [|f IH]; [by repeat split|].
  split; [by apply sel_sound_sel|]. destruct IH as (IHs & IHl & IHd). split.
  - intros p a sd n. cbn [struct_loop].
    destruct (deref p =? _) eqn:He.
    { intros [= <-]. ztests. apply deref_cons in He; [|done]. rewrite He.
      exists [], (tail p), 0%nat. repeat split; constructor. }
    intros H. res_inv.
    destruct (IHs _ _ _ _ _ H0) as (t & r & -> & <- & Hc).
    rewrite drop_app_length in H1.
    destruct (IHl _ _ _ _ H1) as (t' & r' & k & -> & <- & Hm).
    exists (t ++ t'), r', (S k). rewrite <- app_assoc, length_app.
    split; [done|]. split; [lia|]. by constructor.
  - intros p n0 a sd n l Hn0. cbn [dict_loop].
    destruct (deref p =? _) eqn:He.
    { intros [= <- <-]. ztests. apply deref_cons in He; [|done].
      exists [], (tail p), 0%nat. split; [done|]. split; [done|].
      split; [lia|]. split; [constructor|]. lia. }
    destruct (_ && negb _) eqn:Hfst; [done|].
    intros H. res_inv. destruct x0 as [l' n']. injection H as Hl Hn.
    destruct (IHs _ _ _ _ _ H0) as (t & r & Hp & <- & Hc).
    rewrite Hp, drop_app_length in H1.
    assert (0 <= n0 + 1) as Hz by lia.
    destruct (IHd _ _ _ _ _ _ Hz H1) as (t' & r' & k & -> & <- & Hk & Hm & _).
    exists (t ++ t'), r', (S k). rewrite <- app_assoc, length_app, Hp.
    split; [done|]. split; [lia|]. split; [lia|]. split; [by constructor|].
    intros -> _. rewrite <- Hp. destruct (bus_type_is_basic (deref p)); [done|].
    done.
Qed.

(** The dict-entry loop over a basic key and one more member. *)
Lemma dict_loop_step f p n a s t l n' :
  deref p <> SD_BUS_TYPE_DICT_ENTRY_END ->
  (n = 0 -> bus_type_is_basic (deref p) = true) ->
  sel_internal f p false a (s + 1) = Ok t ->
  dict_loop f (drop t p) (n + 1) a s = Ok (l, n') ->
  dict_loop (S f) p n a s = Ok ((t + l)%nat, n').
Proof.
  intros He Hb Hs Hd. cbn [dict_loop].
  rewrite (proj2 (Z.eqb_neq _ _) He), Hs.
  destruct (Z.eqb_spec n 0) as [->|]; [rewrite Hb by done|]; simpl; by rewrite Hd.
Qed.

Lemma dict_pair_complete n f c t r a s :
  bus_type_is_basic c = true ->
  deref (t ++ SD_BUS_TYPE_DICT_ENTRY_END :: r) <> SD_BUS_TYPE_DICT_ENTRY_END ->
  n = length t -> (2 * n + 4 <= f)%nat ->
  (forall f', (2 * n + 1 <= f')%nat ->
     sel_internal f' (t ++ SD_BUS_TYPE_DICT_ENTRY_END :: r) false a (s + 1) = Ok n) ->
  dict_loop f (c :: t ++ SD_BUS_TYPE_DICT_ENTRY_END :: r) 0 a s = Ok (S n, 2).
Proof.
  intros Hc He -> Hf IH. destruct f as [|[|[|f]]]; [lia|lia|lia|].
  apply (dict_loop_step _ _ _ _ _ 1 (length t)).
  - simpl. intros ->. done.
  - done.
  - cbn [sel_internal deref]. by rewrite Hc.
  - simpl drop. rewrite drop_0. change 2 with (0 + 1 + 1).
    rewrite (dict_loop_step _ _ _ _ _ (length t) 0 (0 + 1 + 1)).
    + do 2 f_equal. lia.
    + done.
    + done.
    + apply IH; lia.
    + rewrite drop_app_length. reflexivity.
Qed.

(** ** Completeness: enough fuel finds the complete type at the head *)
Lemma sel_complete :
  (forall d a s t, complete_type d a s t ->
     forall r f, (2 * length t + 1 <= f)%nat ->
     sel_internal f (t ++ r) d a s = Ok (length t)) /\
  (forall k a s t, members k a s t ->
     forall r f, (2 * length t + 2 <= f)%nat ->
     struct_loop f (t ++ SD_BUS_TYPE_STRUCT_END :: r) a (s - 1) = Ok (length t)).
Proof.
  apply complete_type_members_ind.
  - intros d a s c Hb r [|f] Hf; simpl in *; [lia|]. by rewrite Hb.
  - intros d a s r [|f] Hf; simpl in *; [lia|]. done.
  - intros d a s t Ha _ IH r [|f] Hf; simpl in *; [lia|].
    assert (32 <=? a = false) as -> by lia.
    rewrite IH by lia. simpl. f_equal. lia.
  - intros d a s k t Hs Hm IH r [|f] Hf; simpl in *; [lia|].
    assert (32 <=? s = false) as -> by lia.
    rewrite length_app in Hf. simpl in Hf.
    rewrite <- app_assoc. simpl.
    specialize (IH r f ltac:(lia)). replace (s + 1 - 1) with s in IH by lia.
    rewrite IH. simpl. apply members_length in Hm.
    rewrite bool_decide_false by lia. rewrite length_app. simpl. f_equal. lia.
  - intros a s c t Hs Hc Ht IH r [|f] Hf; simpl in *; [lia|].
    assert (32 <=? s = false) as -> by lia.
    rewrite length_app in *. simpl in Hf.
    rewrite <- app_assoc. simpl.
    rewrite (dict_pair_complete (length t)); [simpl; f_equal; lia|done| |done|lia|].
    + destruct (complete_type_head _ _ _ _ Ht) as (c' & t' & -> & _ & _ & Hd). done.
    + intros f' Hf'. apply IH. lia.
  - intros a s r [|f] Hf; simpl in *; [lia|]. done.
  - intros k a s t ts Ht IHt Hts IHts r [|f] Hf; [lia|].
    rewrite length_app in Hf.
    pose proof (complete_type_length _ _ _ _ Ht).
    cbn [struct_loop]. rewrite <- app_assoc.
    assert (deref (t ++ ts ++ SD_BUS_TYPE_STRUCT_END :: r)
              =? SD_BUS_TYPE_STRUCT_END = false) as ->.
    { destruct (complete_type_head _ _ _ _ Ht) as (c & t' & -> & _ & Hd & _).
      simpl. by apply Z.eqb_neq. }
    replace (s - 1 + 1) with s by lia.
    rewrite IHt by lia. simpl. rewrite drop_app_length, IHts by lia.
    simpl. by rewrite length_app.
Qed.

(** ** The fuel is enough: the scanner never runs out, its only error is EINVAL *)
Definition sel_errs (f : nat) : Prop :=
  (forall s d a sd e, (2 * length s + 1 <= f)%nat ->
     sel_internal f s d a sd = Err e -> e = EINVAL) /\
  (forall p a sd e, (2 * length p + 2 <= f)%nat ->
     struct_loop f p a sd = Err e -> e = EINVAL) /\
  (forall p n a sd e, (2 * length p + 2 <= f)%nat ->
     dict_loop f p n a sd = Err e -> e = EINVAL).

Lemma tail_shorter (s : cstr) : deref s <> 0 -> (length (tail s) < length s)%nat.
Proof. destruct s; simpl; [done|lia]. Qed.

Lemma res_bind_err {A B} (m : res A) (f : A -> res B) e :
  (m ≫= f) = Err e -> m = Err e \/ exists a, m = Ok a /\ f a = Err e.
Proof. destruct m; simpl; [by eauto | by intros [= ->]; left]. Qed.

(** A measured member is not empty, so the loops make progress. *)
Lemma sel_progress f p d a sd t :
  sel_internal f p d a sd = Ok t -> (length (drop t p) < length p)%nat.
Proof.
  intros H. destruct (sel_sound_all f) as (Hs & _).
  destruct (Hs _ _ _ _ _ H) as (w & r & -> & <- & Hw%complete_type_length).
  rewrite drop_app_length, length_app. lia.
Qed.

Lemma sel_errs_all f : sel_errs f.
Proof.
  induction f as [|f (IHs & IHl & IHd)]; [repeat split; intros; lia|].
  split; [|split].
  - intros s d a sd e Hf. cbn [sel_internal].
    destruct (_ || _); [done|].
    destruct (deref s =? SD_BUS_TYPE_ARRAY) eqn:Ha.
    { destruct (32 <=? a); [by intros [= <-]|]. ztests.
      assert (length (tail s) < length s)%nat by (apply tail_shorter; by rewrite Ha).
      intros [He|(? & _ & [=])]%res_bind_err. eapply IHs, He. lia. }
    destruct (deref s =? SD_BUS_TYPE_STRUCT_BEGIN) eqn:Hb.
    { destruct (32 <=? sd); [by intros [= <-]|]. ztests.
      assert (length (tail s) < length s)%nat by (apply tail_shorter; by rewrite Hb).
      intros [He|(n & _ & He)]%res_bind_err; [eapply IHl, He; lia|].
      case_bool_decide; [by injection He as <-|done]. }
    destruct (_ && d) eqn:Hd; [|by intros [= <-]]. ztests.
    destruct (32 <=? sd); [by intros [= <-]|].
    assert (length (tail s) < length s)%nat by (apply tail_shorter; by rewrite H).
    intros [He|([l n] & _ & He)]%res_bind_err; [eapply IHd, He; lia|].
    destruct (negb _); [by injection He as <-|done].
  - intros p a sd e Hf. cbn [struct_loop]. destruct (_ =? _); [done|].
    intros [He|(t & Ht & He)]%res_bind_err; [eapply IHs, He; lia|].
    apply sel_progress in Ht.
    apply res_bind_err in He as [He|(l & _ & [=])]. eapply IHl, He. lia.
  - intros p n a sd e Hf. cbn [dict_loop]. destruct (_ =? _); [done|].
    destruct (_ && _); [by intros [= <-]|].
    intros [He|(t & Ht & He)]%res_bind_err; [eapply IHs, He; lia|].
    apply sel_progress in Ht.
    apply res_bind_err in He as [He|([l n'] & _ & [=])]. eapply IHd, He. lia.
Qed.

(** ** The component's contract *)

(** The scanner finds a length exactly when the string starts with a complete
    type of that length; it then is the only such prefix. *)
Lemma sel_spec s d a sd n :
  signature_element_length_internal s d a sd = Ok n <->
  exists t r, s = t ++ r /\ length t = n /\ complete_type d a sd t.
Proof.
  split; [apply sel_sound_all|].
  intros (t & r & -> & <- & Ht). unfold signature_element_length_internal, sel_fuel.
  apply sel_complete; [done|]. rewrite length_app. lia.
Qed.

Lemma sel_err s d a sd e :
  signature_element_length_internal s d a sd = Err e -> e = EINVAL.
Proof. apply sel_errs_all. unfold sel_fuel. lia. Qed.

Lemma sel_prefix d a sd t r :
  complete_type d a sd t ->
  signature_element_length_internal (t ++ r) d a sd = Ok (length t).
Proof. intros. apply sel_spec. by exists t, r. Qed.

(** No complete type is a proper prefix of another. *)
Lemma complete_type_prefix_free d a s t1 r1 t2 r2 :
  complete_type d a s t1 -> complete_type d a s t2 -> t1 ++ r1 = t2 ++ r2 ->
  t1 = t2 /\ r1 = r2.
Proof.
  intros H1 H2 E. apply app_inj_1; [|done].
  pose proof (sel_prefix _ _ _ _ r1 H1) as P1. rewrite E in P1.
  rewrite (sel_prefix _ _ _ _ r2 H2) in P1. by injection P1.
Qed.

Lemma complete_type_cstr d a s t : complete_type d a s t -> is_cstr t.
Proof.
  unfold is_cstr. revert d a s t.
  enough ((forall d a s t, complete_type d a s t -> Forall (fun c => 0 < c < 256) t) /\
          (forall k a s t, members k a s t -> Forall (fun c => 0 < c < 256) t)) by naive_solver.
  apply complete_type_members_ind; intros;
    repeat first [ apply Forall_cons; split | apply Forall_app; split
                 | apply Forall_nil_2 | by apply basic_nonzero | done ].
Qed.

Lemma char_at_end s n :
  is_cstr s -> (n <= length s)%nat -> char_at s n = 0 -> n = length s.
Proof.
  unfold is_cstr, char_at. intros Hs Hn H0.
  destruct (drop n s) as [|c r] eqn:E.
  - apply (f_equal length) in E. rewrite length_drop in E. simpl in E. lia.
  - simpl in H0. subst. assert (Forall (fun c => 0 < c < 256) (drop n s)) as Hd
      by by apply Forall_drop. rewrite E in Hd. inversion Hd; lia.
Qed.

(** [signature_is_single] decides "exactly one complete type". *)
Lemma signature_is_single_spec s d :
  is_cstr s -> signature_is_single s d = true <-> complete_type d 0 0 s.
Proof.
  intros Hs. unfold signature_is_single.
  destruct (signature_element_length_internal s d 0 0) as [n|e] eqn:E.
  - rewrite Z.eqb_eq. apply sel_spec in E as (t & r & -> & <- & Ht).
    split.
    + intros H%char_at_end; [|done|rewrite length_app; lia].
      rewrite length_app in H. destruct r; [by rewrite app_nil_r|simpl in H; lia].
    + intros Hc. destruct (complete_type_prefix_free _ _ _ t r (t ++ r) [] Ht Hc)
        as [_ ->]; [by rewrite app_nil_r|].
      unfold char_at. by rewrite drop_app_length.
  - split; [done|]. intros Hc. pose proof (sel_prefix _ _ _ _ [] Hc) as P.
    rewrite app_nil_r in P. congruence.
Qed.

Lemma signature_is_pair_spec s :
  is_cstr s ->
  signature_is_pair s = true <->
  exists c t, s = c :: t /\ bus_type_is_basic c = true /\ complete_type false 0 0 t.
Proof.
  intros Hs. unfold signature_is_pair.
  destruct (bus_type_is_basic (deref s)) eqn:Hb; simpl.
  - destruct s as [|c t]; [done|]. simpl in *.
    assert (is_cstr t) as Ht by (by inversion Hs).
    rewrite (signature_is_single_spec t false Ht). naive_solver.
  - split; [done|]. intros (c & t & -> & Hc & _). simpl in Hb. congruence.
Qed.

(** What [signature_is_valid] should accept: a row of complete types, at most
    255 characters in all. *)
Definition valid_signature (d : bool) (s : cstr) : Prop :=
  exists ts, s = concat ts /\ Forall (complete_type d 0 0) ts /\ (length s <= 255)%nat.

Lemma valid_loop_sound f p d n m :
  valid_loop f p d n = Some m ->
  exists ts r, p = concat ts ++ r /\ deref r = 0 /\ Forall (complete_type d 0 0) ts /\
    m = (n + length (concat ts))%nat.
Proof.
  revert p n. induction f as [|f IH]; intros p n; [done|]. cbn [valid_loop].
  destruct (Z.eqb_spec (deref p) 0).
  { intros [= <-]. exists [], p. simpl. repeat split; [done|constructor|lia]. }
  destruct (signature_element_length_internal p d 0 0) as [t|] eqn:E; [|done].
  apply sel_spec in E as (w & r & -> & <- & Hw). rewrite drop_app_length.
  intros (ts & r' & -> & Hr & Hts & ->)%IH.
  exists (w :: ts), r'. simpl. rewrite <- app_assoc, length_app.
  split; [done|]. split; [done|]. split; [by constructor|lia].
Qed.

Lemma valid_loop_complete ts d f n :
  Forall (complete_type d 0 0) ts -> (length (concat ts) < f)%nat ->
  valid_loop f (concat ts) d n = Some (n + length (concat ts))%nat.
Proof.
  intros Hts. revert f n. induction Hts as [|t ts Ht Hts IH]; intros f n Hf;
    (destruct f as [|f]; [lia|]); cbn [valid_loop concat] in *.
  { simpl. f_equal. lia. }
  destruct (complete_type_head _ _ _ _ Ht) as (c & t' & E & Hc & _).
  assert (deref (t ++ concat ts) =? 0 = false) as ->.
  { rewrite E. simpl. by apply Z.eqb_neq. }
  rewrite (sel_prefix _ _ _ _ _ Ht), drop_app_length.
  rewrite length_app in *. pose proof (complete_type_length _ _ _ _ Ht).
  rewrite IH by lia. f_equal. lia.
Qed.

Lemma signature_is_valid_spec s d :
  is_cstr s -> signature_is_valid s d = true <-> valid_signature d s.
Proof.
  intros Hs. unfold signature_is_valid, valid_signature. split.
  - destruct (valid_loop _ s d 0) as [m|] eqn:E; [|done].
    apply valid_loop_sound in E as (ts & r & -> & Hr & Hts & ->).
    intros H%bool_decide_eq_true. exists ts.
    assert (r = []) as ->.
    { destruct r as [|c r]; [done|]. simpl in Hr. subst.
      apply Forall_app in Hs as [_ Hs]. inversion Hs; lia. }
    rewrite app_nil_r in *. auto.
  - intros (ts & -> & Hts & Hl).
    rewrite (valid_loop_complete ts) by (done || lia). by apply bool_decide_eq_true.
Qed.

(** ** Theorems *)

(** C29. [signature_element_length_internal] is a decision procedure for the
    grammar of complete types under the depth limits: on every string and at
    every depth it returns [Ok n] exactly when the string starts with a
    complete type of length [n], and [-EINVAL] otherwise; its recursion always
    terminates within the fuel [2 * strlen(s) + 1]. *)
Theorem element_length_decides_grammar s d a sd :
  (forall n, signature_element_length_internal s d a sd = Ok n <->
     exists t r, s = t ++ r /\ length t = n /\ complete_type d a sd t) /\
  (signature_element_length_internal s d a sd = Err EINVAL <->
     ~ exists t r, s = t ++ r /\ complete_type d a sd t).
Proof.
  split; [intros; apply sel_spec|]. split.
  - intros E (t & r & Hs & Ht). rewrite (proj2 (sel_spec s d a sd (length t))) in E; [done|].
    by exists t, r.
  - intros Hn. destruct (signature_element_length_internal s d a sd) as [n|e] eqn:E.
    + destruct Hn. apply sel_spec in E as (t & r & ? & _ & ?). by exists t, r.
    + by apply sel_err in E as ->.
Qed.

(** C30. The three predicates over whole signatures accept exactly the strings
    they are documented to: one complete type, a basic type followed by one
    complete type, and a row of complete types of at most 255 characters. *)
Theorem signature_predicates_spec s d :
  is_cstr s ->
  (signature_is_single s d = true <-> complete_type d 0 0 s) /\
  (signature_is_pair s = true <->
     exists c t, s = c :: t /\ bus_type_is_basic c = true /\ complete_type false 0 0 t) /\
  (signature_is_valid s d = true <-> valid_signature d s).
Proof.
  intros Hs. split; [by apply signature_is_single_spec|].
  split; [by apply signature_is_pair_spec | by apply signature_is_valid_spec].
Qed.

Lemma signature_predicates_spec_witness :
  is_cstr (bs "a{sv}") /\ signature_is_single (bs "a{sv}") false = true /\
  complete_type false 0 0 (bs "a{sv}").
Proof.
  assert (is_cstr (bs "a{sv}")) as Hs.
  { unfold is_cstr. repeat constructor; vm_compute; auto. }
  split; [done|]. split; [reflexivity|].
  apply (proj1 (signature_predicates_spec (bs "a{sv}") false Hs)). reflexivity.
Defined.
