(* ===== verification/HexDecOct.v ===== *)
(** * Hexadecimal coding ([src/basic/hexdecoct.c], [src/basic/bus-label.c])

    Digits, the hex dump and its whitespace-tolerant inverse, and the label
    escaping that maps any string to an object path element. *)
From S2P Require Import Prelude.

Definition is_digit (c : Z) : bool := (ch "0" <=? c) && (c <=? ch "9").
Definition is_lower (c : Z) : bool := (ch "a" <=? c) && (c <=? ch "z").
Definition is_upper (c : Z) : bool := (ch "A" <=? c) && (c <=? ch "Z").

(** A [char] read as a signed [int], before it is shifted. *)
Definition schar (c : Z) : Z := if c <? 128 then c else c - 256.

(** [octchar], [undecchar], [hexchar], [unhexchar] *)
Definition octchar (x : Z) : Z := ch "0" + Z.land x 7.

Definition undecchar (c : Z) : res Z :=
  if is_digit c then Ok (c - ch "0") else Err EINVAL.

Definition hexchar (x : Z) : Z := char_at (bs "0123456789abcdef") (Z.to_nat (Z.land x 15)).

Definition unhexchar (c : Z) : res Z :=
  if is_digit c then Ok (c - ch "0")
  else if (ch "a" <=? c) && (c <=? ch "f") then Ok (c - ch "a" + 10)
  else if (ch "A" <=? c) && (c <=? ch "F") then Ok (c - ch "A" + 10)
  else Err EINVAL.

(** [hexmem] *)
Fixpoint hexmem (p : list Z) : cstr :=
  match p with
  | [] => []
  | x :: p => hexchar (Z.shiftr x 4) :: hexchar (Z.land x 15) :: hexmem p
  end.

(** [strchr(WHITESPACE, c)] also finds the terminating NUL, so a NUL byte of the
    input counts as whitespace. *)
Definition strchr_whitespace (c : Z) : bool := in_set c (0 :: [32; 9; 10; 13]).

(** The two loops of [unhex_next]; the list is [*p] with [*l] characters left. *)
Fixpoint skip_whitespace (p : list Z) : list Z :=
  match p with
  | c :: p' => if strchr_whitespace c then skip_whitespace p' else p
  | [] => []
  end.

Definition unhex_next (p : list Z) : res (Z * list Z) :=
  match skip_whitespace p with
  | [] => Err EPIPE
  | c :: p' => r ← unhexchar c; Ok (r, skip_whitespace p')
  end.

(** [unhexmem], on an explicit length; at most one round per character. *)
Fixpoint unhexmem_loop (fuel : nat) (x : list Z) : res (list Z) :=
  match fuel with
  | O => Err EASSERT
  | S fuel =>
      match unhex_next x with
      | Err EPIPE => Ok []
      | Err e => Err e
      | Ok (a, x) =>
          '(b, x) ← unhex_next x;
          z ← unhexmem_loop fuel x;
          Ok (wrap8 (Z.lor (wrap8 (Z.shiftl a 4)) b) :: z)
      end
  end.

Definition unhexmem (p : list Z) : res (list Z) := unhexmem_loop (length p + 1) p.

(** The reference decoder: pairs of digits, nothing else. *)
Fixpoint unhex_pairs (p : list Z) : res (list Z) :=
  match p with
  | [] => Ok []
  | [c] => a ← unhexchar c; Err EPIPE
  | c :: d :: p =>
      a ← unhexchar c; b ← unhexchar d; z ← unhex_pairs p; Ok (16 * a + b :: z)
  end.

(** [bus_label_escape]; [first] is [f == s]. *)
Fixpoint label_escape_loop (first : bool) (f : cstr) : cstr :=
  match f with
  | [] => []
  | c :: f =>
      (if negb (is_upper c) && negb (is_lower c) && negb (negb first && is_digit c)
       then [ch "_"; hexchar (Z.shiftr (schar c) 4); hexchar (schar c)]
       else [c]) ++ label_escape_loop false f
  end.

Definition bus_label_escape (s : cstr) : cstr :=
  if deref s =? 0 then bs "_" else label_escape_loop true s.

(** [bus_label_unescape_n]: [f] holds the [l] characters. *)
Fixpoint label_unescape_loop (f : list Z) : list Z :=
  match f with
  | [] => []
  | c :: f' =>
      if c =? ch "_" then
        match f' with
        | d :: e :: f'' =>
            match unhexchar d, unhexchar e with
            | Ok a, Ok b => wrap8 (Z.lor (Z.shiftl a 4) b) :: label_unescape_loop f''
            | _, _ => ch "_" :: label_unescape_loop f'
            end
        | _ => ch "_" :: label_unescape_loop f'
        end
      else c :: label_unescape_loop f'
  end.

Definition bus_label_unescape_n (f : list Z) : list Z :=
  if (zlen f =? 1) && (deref f =? ch "_") then [] else label_unescape_loop f.

(** ** Digits *)

(** A decidable property of the numbers below [n] is checked by running through them. *)
Lemma below_ind (n : nat) (P : Z -> Prop) `{forall x, Decision (P x)} :
  forallb (fun x => bool_decide (P x)) (map Z.of_nat (seq 0 n)) = true ->
  forall x, 0 <= x < Z.of_nat n -> P x.
Proof.
  intros Hall x Hx. rewrite forallb_forall in Hall.
  apply (bool_decide_eq_true_1 (P x)), Hall, in_map_iff.
  exists (Z.to_nat x). rewrite in_seq. lia.
Qed.

Lemma unhexchar_hexchar x : unhexchar (hexchar x) = Ok (x mod 16).
Proof.
  unfold hexchar. change 15 with (Z.ones 4). rewrite Z.land_ones by lia.
  change (2 ^ 4) with 16. pose proof (Z.mod_pos_bound x 16 ltac:(lia)) as Hb.
  revert Hb. generalize (x mod 16). clear x. intros x Hx.
  apply (below_ind 16 (fun x =>
    unhexchar (char_at (bs "0123456789abcdef") (Z.to_nat x)) = Ok x)); [|done].
  vm_compute. reflexivity.
Qed.

Lemma unhexchar_range c a : unhexchar c = Ok a -> 0 <= a < 16.
Proof. unfold unhexchar, is_digit. norm_ch. repeat case_match; intros [=]; lia. Qed.

Lemma unhexchar_err c e : unhexchar c = Err e -> e = EINVAL.
Proof. unfold unhexchar. repeat case_match; congruence. Qed.

Lemma unhexchar_whitespace c : strchr_whitespace c = true -> unhexchar c = Err EINVAL.
Proof.
  unfold strchr_whitespace. intros H%in_set_spec.
  repeat (apply elem_of_cons in H; destruct H as [->|H]; [reflexivity|]).
  by apply not_elem_of_nil in H.
Qed.

(** Two digits make the byte, as the [<<] and [|] of the code compute it. *)
Lemma nibbles_byte a b :
  0 <= a < 16 -> 0 <= b < 16 -> Z.lor (Z.shiftl a 4) b = 16 * a + b.
Proof.
  intros Ha Hb. rewrite Z.shiftl_mul_pow2 by lia. change (2 ^ 4) with 16.
  rewrite (Z.mul_comm 16), <- Z.add_lor_land.
  assert (Z.land (a * 16) b = 0) as ->; [|lia].
  apply Z.bits_inj'. intros i Hi. rewrite Z.land_spec, Z.bits_0.
  destruct (decide (i < 4)).
  - change 16 with (2 ^ 4). by rewrite Z.mul_pow2_bits_low.
  - rewrite <- (Z.mod_small b (2 ^ 4)) by done.
    rewrite Z.mod_pow2_bits_high by lia. apply andb_false_r.
Qed.

Lemma nibbles_byte8 a b :
  0 <= a < 16 -> 0 <= b < 16 ->
  wrap8 (Z.lor (Z.shiftl a 4) b) = 16 * a + b /\
  wrap8 (Z.lor (wrap8 (Z.shiftl a 4)) b) = 16 * a + b.
Proof.
  intros Ha Hb.
  rewrite (wrap_small 8 (Z.shiftl a 4)) by (rewrite Z.shiftl_mul_pow2; lia).
  rewrite nibbles_byte, wrap_small by lia. done.
Qed.

(** ** The decoder against its reference *)
Definition not_space (p : list Z) : list Z :=
  base.filter (fun c => strchr_whitespace c = false) p.

Lemma skip_whitespace_filter p : not_space (skip_whitespace p) = not_space p.
Proof.
  unfold not_space. induction p as [|c p IH]; [done|]. simpl.
  destruct (strchr_whitespace c) eqn:E; [|done].
  rewrite IH, filter_cons_False; [done|congruence].
Qed.

Lemma skip_whitespace_length p : (length (skip_whitespace p) <= length p)%nat.
Proof. induction p as [|c p IH]; simpl; [done|]. case_match; simpl; lia. Qed.

Lemma skip_whitespace_nil p : skip_whitespace p = [] -> not_space p = [].
Proof. intros E. by rewrite <- skip_whitespace_filter, E. Qed.

Lemma skip_whitespace_cons p c p' :
  skip_whitespace p = c :: p' -> not_space p = c :: not_space p'.
Proof.
  intros E. rewrite <- skip_whitespace_filter, E.
  assert (strchr_whitespace c = false) as Hc.
  { revert E. induction p as [|d p IH]; simpl; [done|].
    destruct (strchr_whitespace d) eqn:Hd; [done|by intros [= <- <-]]. }
  unfold not_space. by rewrite filter_cons_True.
Qed.

(** One call of [unhex_next], in terms of the characters that matter. *)
Lemma unhex_next_spec p :
  match not_space p with
  | [] => unhex_next p = Err EPIPE
  | c :: q => exists p', not_space p' = q /\ (length p' < length p)%nat /\
      unhex_next p = (r ← unhexchar c; Ok (r, p'))
  end.
Proof.
  unfold unhex_next. pose proof (skip_whitespace_length p) as Hl.
  destruct (skip_whitespace p) as [|c p'] eqn:E.
  - by rewrite (skip_whitespace_nil _ E).
  - rewrite (skip_whitespace_cons _ _ _ E). exists (skip_whitespace p').
    split; [apply skip_whitespace_filter|]. split; [|done].
    pose proof (skip_whitespace_length p'). simpl in Hl. lia.
Qed.

Lemma unhexmem_loop_pairs f p :
  (length p < f)%nat -> unhexmem_loop f p = unhex_pairs (not_space p).
Proof.
  revert p. induction f as [|f IH]; intros p Hf; [lia|]. cbn [unhexmem_loop].
  pose proof (unhex_next_spec p) as H.
  destruct (not_space p) as [|c q] eqn:E; [by rewrite H|].
  destruct H as (p1 & E1 & Hl1 & ->).
  destruct (unhexchar c) as [a|e] eqn:Hc; simpl.
  2:{ apply unhexchar_err in Hc as He. subst e.
      destruct q; simpl; by rewrite Hc. }
  pose proof (unhex_next_spec p1) as H. rewrite E1 in H.
  destruct q as [|d q]; [rewrite H; simpl; by rewrite Hc|].
  destruct H as (p2 & E2 & Hl2 & ->). simpl. rewrite Hc. simpl.
  destruct (unhexchar d) as [b|e] eqn:Hd; simpl; [|done].
  rewrite IH, E2 by lia. destruct (unhex_pairs q); simpl; [|done].
  apply unhexchar_range in Hc, Hd.
  by rewrite (proj2 (nibbles_byte8 a b Hc Hd)).
Qed.

Lemma hexchar_not_space x : strchr_whitespace (hexchar x) = false.
Proof.
  destruct (strchr_whitespace (hexchar x)) eqn:E; [|done].
  apply unhexchar_whitespace in E. by rewrite unhexchar_hexchar in E.
Qed.

Lemma unhex_pairs_hexmem p :
  Forall is_byte p -> unhex_pairs (hexmem p) = Ok p.
Proof.
  induction 1 as [|x p Hx Hp IH]; [done|]. cbn [hexmem unhex_pairs].
  rewrite !unhexchar_hexchar. simpl. rewrite IH. simpl. do 2 f_equal.
  change 15 with (Z.ones 4). rewrite Z.land_ones, Z.shiftr_div_pow2 by lia.
  change (2 ^ 4) with 16. rewrite Z.mod_mod by lia. unfold is_byte in Hx.
  rewrite (Z.mod_small (x / 16)).
  - pose proof (Z.div_mod x 16). lia.
  - split; [apply Z.div_pos; lia | apply Z.div_lt_upper_bound; lia].
Qed.

Lemma not_space_hexmem p : not_space (hexmem p) = hexmem p.
Proof.
  unfold not_space. induction p as [|x p IH]; [done|]. cbn [hexmem].
  rewrite !filter_cons_True by apply hexchar_not_space. by rewrite IH.
Qed.

(** The hex decoder is the pairwise reference decoder on the input with its
    whitespace (and NUL bytes) dropped, error codes included, whatever the
    input; hence it inverts the encoder, also when blanks are inserted anywhere
    in the dump. *)
Theorem unhexmem_spec p :
  unhexmem p = unhex_pairs (not_space p) /\
  (forall b, Forall is_byte b -> not_space p = hexmem b -> unhexmem p = Ok b).
Proof.
  assert (unhexmem p = unhex_pairs (not_space p)) as E
    by (apply unhexmem_loop_pairs; lia).
  split; [done|]. intros b Hb Hp. rewrite E, Hp. by apply unhex_pairs_hexmem.
Qed.

Lemma unhexmem_spec_witness : unhexmem (bs "0a ff") = Ok [10; 255].
Proof.
  apply (unhexmem_spec (bs "0a ff")); [|by vm_compute].
  repeat (constructor; [unfold is_byte; lia|]). constructor.
Defined.

(** ** Labels *)
Definition is_label_char (c : Z) : bool :=
  is_digit c || is_lower c || is_upper c || (c =? ch "_").

(** The escape of one byte: what is written, and that it decodes. *)
Definition escaped (c : Z) : list Z :=
  [ch "_"; hexchar (Z.shiftr (schar c) 4); hexchar (schar c)].

Lemma escaped_chars c :
  is_byte c ->
  forallb is_label_char (escaped c) = true /\
  forall f, label_unescape_loop (escaped c ++ f) = c :: label_unescape_loop f.
Proof.
  intros Hc. split.
  - apply (below_ind 256 (fun c => forallb is_label_char (escaped c) = true)); [|done].
    vm_compute. reflexivity.
  - intros f. unfold escaped. simpl app. cbn [label_unescape_loop].
    rewrite Z.eqb_refl, !unhexchar_hexchar. f_equal.
    apply (below_ind 256 (fun c => wrap8
      (Z.lor (Z.shiftl (Z.shiftr (schar c) 4 mod 16) 4) (schar c mod 16)) = c)); [|done].
    vm_compute. reflexivity.
Qed.

Lemma label_escape_loop_spec first s :
  Forall is_byte s ->
  forallb is_label_char (label_escape_loop first s) = true /\
  label_unescape_loop (label_escape_loop first s) = s.
Proof.
  intros Hs. revert first.
  induction Hs as [|c s Hc Hs IH]; intros first; [done|]. cbn [label_escape_loop].
  destruct (IH false) as [IH1 IH2].
  destruct (negb (is_upper c) && _ && _) eqn:E.
  - destruct (escaped_chars c Hc) as [H1 H2]. fold (escaped c).
    rewrite forallb_app, H1, H2, IH1, IH2. done.
  - assert (is_digit c || is_lower c || is_upper c = true) as Ha
      by (destruct (is_digit c), (is_lower c), (is_upper c), first; done).
    rewrite forallb_app, IH1. simpl. unfold is_label_char. rewrite Ha. split; [done|].
    assert (c =? ch "_" = false) as ->.
    { destruct (Z.eqb_spec c (ch "_")) as [->|]; done. }
    by rewrite IH2.
Qed.

(** The escape is the lone underscore only for the empty string. *)
Lemma label_escape_not_underscore s : label_escape_loop true s <> [ch "_"].
Proof.
  destruct s as [|c s]; [done|]. cbn [label_escape_loop].
  destruct (_ && _) eqn:E; [by destruct s|]. simpl. intros [= -> _]. done.
Qed.

(** Label escaping produces a non-empty string over [A-Za-z0-9_] with no
    leading digit, so a valid object path element, and [bus_label_unescape_n]
    recovers the string it was made from, the empty string included. *)
Theorem label_roundtrip s :
  is_cstr s ->
  let e := bus_label_escape s in
  bus_label_unescape_n e = s /\ e <> [] /\
  forallb is_label_char e = true /\ is_digit (deref e) = false.
Proof.
  intros Hs e. subst e. unfold bus_label_escape.
  destruct s as [|c s]; [by vm_compute|].
  assert (deref (c :: s) =? 0 = false) as ->.
  { inversion Hs; subst. simpl. apply Z.eqb_neq. lia. }
  assert (Forall is_byte (c :: s)) as Hb
    by (eapply Forall_impl; [exact Hs|]; unfold is_byte; lia).
  destruct (label_escape_loop_spec true _ Hb) as [H1 H2].
  split; [|split; [|split; [done|]]].
  - unfold bus_label_unescape_n.
    destruct (_ && _) eqn:E; [|done]. exfalso.
    apply (label_escape_not_underscore (c :: s)).
    destruct (label_escape_loop true (c :: s)) as [|d [|? ?]];
      ztests; unfold zlen in *; simpl in *; [done|by subst|lia].
  - cbn [label_escape_loop]. by destruct (_ && _).
  - cbn [label_escape_loop]. destruct (_ && _) eqn:E; [done|].
    simpl in *. rewrite andb_true_r in E. unfold is_digit, is_upper, is_lower in *.
    norm_ch. lia.
Qed.

Lemma label_roundtrip_witness :
  bus_label_escape (bs "1a-B.c") = bs "_31a_2dB_2ec" /\
  bus_label_unescape_n (bus_label_escape (bs "1a-B.c")) = bs "1a-B.c".
Proof.
  split; [by vm_compute|]. apply (label_roundtrip (bs "1a-B.c")).
  by repeat (constructor; [vm_compute; done|]).
Defined.
