(* ===== verification/ParseUtil.v ===== *)
(** * Numbers and truth values from text ([src/basic/parse-util.c])

    The [safe_ato*] parsers of integers, [parse_boolean] and [parse_uid] of
    [user-util.c], over the C library's [strtoul] and [strtol] for the "C"
    locale; [long] and [long long] have 64 bits. *)
From S2P Require Import Prelude HexDecOct.

(** ** The C library *)
Definition isspace (c : Z) : bool := in_set c [32; 9; 10; 11; 12; 13].

Fixpoint drop_while (f : Z -> bool) (s : cstr) : cstr :=
  match s with
  | [] => []
  | c :: r => if f c then drop_while f r else s
  end.

Definition digit_value (c : Z) : option Z :=
  match unhexchar c with Ok v => Some v | Err _ => None end.

Definition is_digit_in (base c : Z) : bool :=
  match digit_value c with Some v => v <? base | None => false end.

(** The digits' value and what follows them. *)
Fixpoint scan_digits (base acc : Z) (s : cstr) : Z * cstr :=
  match s with
  | [] => (acc, [])
  | c :: r =>
      match digit_value c with
      | Some v => if v <? base then scan_digits base (acc * base + v) r else (acc, s)
      | None => (acc, s)
      end
  end.

(** Base 0: "0x" and "0" choose 16 and 8. A "0x" counts only before a digit. *)
Definition scan_base (base : Z) (s : cstr) : Z * cstr :=
  if (in_set base [0; 16]) && (deref s =? ch "0") && in_set (char_at s 1) [ch "x"; ch "X"] &&
     is_digit_in 16 (char_at s 2)
  then (16, drop 2 s)
  else if base =? 0 then (if deref s =? ch "0" then 8 else 10, s)
  else (base, s).

(** Sign, magnitude and rest of the number; [None] when there is none. *)
Definition scan_number (base : Z) (s : cstr) : option (bool * Z * cstr) :=
  let s := drop_while isspace s in
  let neg := deref s =? ch "-" in
  let s := if in_set (deref s) [ch "-"; ch "+"] then tail s else s in
  let '(base, s) := scan_base base s in
  if is_digit_in base (deref s) then
    let '(v, r) := scan_digits base 0 s in Some (neg, v, r)
  else None.

(** The value and [endptr]; without a number 0 and the start of the string. *)
Definition strtoul (s : cstr) (base : Z) : res (Z * cstr) :=
  match scan_number base s with
  | None => Ok (0, s)
  | Some (neg, v, r) =>
      if SIZE_MAX <? v then Err ERANGE else Ok (wrap64 (if neg then - v else v), r)
  end.

Definition strtol (s : cstr) (base : Z) : res (Z * cstr) :=
  match scan_number base s with
  | None => Ok (0, s)
  | Some (neg, v, r) =>
      let v := if neg then - v else v in
      if (v <? - 2 ^ 63) || (2 ^ 63 - 1 <? v) then Err ERANGE else Ok (v, r)
  end.

(** [%u] *)
Fixpoint dec_loop (fuel : nat) (n : Z) (acc : cstr) : cstr :=
  match fuel with
  | O => acc
  | S fuel =>
      let acc := (ch "0" + n mod 10) :: acc in
      if n / 10 =? 0 then acc else dec_loop fuel (n / 10) acc
  end.
Definition dec (n : Z) : cstr := dec_loop 20 n [].

(** ** The parsers *)

(** [s += strspn(s, WHITESPACE)] *)
Definition skip_WHITESPACE : cstr -> cstr := drop_while (fun c => in_set c [32; 9; 10; 13]).

(** [!x || x == s || *x != 0] is the error: all of [s] was a number. *)
Definition all_read (s x : cstr) : bool :=
  negb (bool_decide (length x = length s)) && bool_decide (x = []).

(** The unsigned parsers, by the type of their result: values below [limit]. *)
Definition safe_unsigned (limit : Z) (s : cstr) (base : Z) : res Z :=
  let s := skip_WHITESPACE s in
  '(l, x) ← strtoul s base;
  _ ← require (all_read s x) EINVAL;
  _ ← require (negb (deref s =? ch "-")) ERANGE;
  _ ← require (l <? limit) ERANGE;
  Ok l.

(** The signed parsers: no skipping of their own, values of [w] bits. *)
Definition safe_signed (w : Z) (s : cstr) : res Z :=
  '(l, x) ← strtol s 0;
  _ ← require (all_read s x) EINVAL;
  _ ← require ((- 2 ^ (w - 1) <=? l) && (l <? 2 ^ (w - 1))) ERANGE;
  Ok l.

Definition safe_atou_full (s : cstr) (base : Z) : res Z :=
  _ ← require (base <=? 16) EASSERT; safe_unsigned (2 ^ 32) s base.
Definition safe_atou (s : cstr) : res Z := safe_atou_full s 0.
Definition safe_atou32 : cstr -> res Z := safe_atou.
Definition safe_atollu (s : cstr) : res Z := safe_unsigned (2 ^ 64) s 0.
Definition safe_atou8 (s : cstr) : res Z := safe_unsigned (2 ^ 8) s 0.
Definition safe_atou16_full (s : cstr) (base : Z) : res Z :=
  _ ← require (base <=? 16) EASSERT; safe_unsigned (2 ^ 16) s base.
Definition safe_atoi : cstr -> res Z := safe_signed 32.
Definition safe_atolli : cstr -> res Z := safe_signed 64.
Definition safe_atoi16 : cstr -> res Z := safe_signed 16.

(** [strcaseeq] *)
Definition tolower (c : Z) : Z := if is_upper c then c + 32 else c.
Definition strcaseeq (a b : cstr) : bool := streq (map tolower a) (map tolower b).

Definition parse_boolean (v : cstr) : res bool :=
  if streq v (bs "1") || existsb (strcaseeq v) (map bs ["yes"; "y"; "true"; "t"; "on"]%string)
  then Ok true
  else if streq v (bs "0") || existsb (strcaseeq v) (map bs ["no"; "n"; "false"; "f"; "off"]%string)
  then Ok false
  else Err EINVAL.

(** [user-util.c] *)
Definition uid_is_valid (uid : Z) : bool :=
  if uid =? 0xFFFFFFFF then false
  else if uid =? 0xFFFF then false
  else true.

Definition parse_uid (s : cstr) : res Z :=
  uid ← safe_atou32 s;
  _ ← require (uid_is_valid uid) ENXIO;
  Ok uid.

(** ** Decimal numbers *)
Definition is_dec (s : cstr) : Prop := Forall (fun c => 48 <= c <= 57) s.

Lemma digit_value_dec c : 48 <= c <= 57 -> digit_value c = Some (c - 48).
Proof.
  intros H. assert (c = 48 \/ c = 49 \/ c = 50 \/ c = 51 \/ c = 52 \/ c = 53 \/ c = 54 \/ c = 55 \/ c = 56 \/ c = 57)
    as E by lia.
  repeat destruct E as [-> | E]; subst; done.
Qed.

Lemma scan_digits_dec s : forall acc r, is_dec s -> deref r = 0 ->
  scan_digits 10 acc (s ++ r) = (fold_left (fun a c => a * 10 + (c - 48)) s acc, r).
Proof.
  induction s as [|c s IH]; intros acc r Hs Hr; cbn [app scan_digits fold_left].
  - destruct r as [|c r]; [done|]. simpl in Hr. subst. done.
  - apply Forall_cons in Hs as [Hc Hs]. rewrite digit_value_dec by done.
    rewrite (proj2 (Z.ltb_lt _ _)) by lia. by apply IH.
Qed.

(** What [dec] prints: at most [fuel] digits before [acc], no leading zero. *)
Lemma dec_loop_spec fuel : forall n acc,
  0 <= n < 10 ^ Z.of_nat fuel -> (0 < fuel)%nat ->
  exists s, dec_loop fuel n acc = s ++ acc /\ is_dec s /\ s <> [] /\
    fold_left (fun a c => a * 10 + (c - 48)) s 0 = n /\ (n <> 0 -> deref s <> 48) /\
    (n = 0 -> s = [48]).
Proof.
  induction fuel as [|fuel IH]; intros n acc Hn Hf; [lia|]. cbn [dec_loop].
  pose proof (Z.div_mod n 10 ltac:(lia)). pose proof (Z.mod_pos_bound n 10 ltac:(lia)).
  change (ch "0") with 48. destruct (Z.eqb_spec (n / 10) 0) as [E|E].
  - exists [48 + n mod 10]. split; [done|]. split; [repeat constructor; lia|]. split; [done|].
    cbn [fold_left deref]. split; [lia|]. split; [lia|]. intros ->. done.
  - assert (0 <= n / 10) by (apply Z.div_pos; lia).
    assert (Hlt : n / 10 < 10 ^ Z.of_nat fuel).
    { apply Z.div_lt_upper_bound; [lia|]. rewrite Nat2Z.inj_succ, Z.pow_succ_r in Hn by lia. lia. }
    assert (0 < fuel)%nat.
    { destruct fuel; [|lia]. change (10 ^ Z.of_nat 0) with 1 in Hlt. lia. }
    destruct (IH (n / 10) ((48 + n mod 10) :: acc)) as (s & -> & Hs & Hne & Hv & Hz & _); [lia|lia|].
    exists (s ++ [48 + n mod 10]). rewrite <- app_assoc. split; [done|].
    split; [apply Forall_app; split; [done|repeat constructor; lia]|].
    split; [by intros [? ?]%app_eq_nil|]. rewrite fold_left_app, Hv. cbn [fold_left].
    split; [lia|]. split; [|lia]. destruct s as [|c s]; [done|]. simpl. intros _. by apply Hz.
Qed.

Lemma dec_spec n : 0 <= n < 10 ^ 20 ->
  is_dec (dec n) /\ dec n <> [] /\ fold_left (fun a c => a * 10 + (c - 48)) (dec n) 0 = n /\
  (n <> 0 -> deref (dec n) <> 48) /\ (n = 0 -> dec n = [48]).
Proof.
  intros Hn. destruct (dec_loop_spec 20 n [] Hn ltac:(lia)) as (s & E & H).
  unfold dec. rewrite E, app_nil_r. done.
Qed.

Lemma dec_cstr n : 0 <= n < 10 ^ 20 -> is_cstr (dec n).
Proof.
  intros Hn. destruct (dec_spec n Hn) as [H _]. eapply Forall_impl; [exact H|]. simpl. lia.
Qed.

(** Printing and parsing: [safe_unsigned] reads what [dec] writes. *)
Lemma safe_unsigned_dec limit n :
  0 <= n < limit -> limit <= 2 ^ 64 -> safe_unsigned limit (dec n) 0 = Ok n.
Proof.
  intros Hn Hl. destruct (dec_spec n ltac:(lia)) as (Hd & Hne & Hv & Hz & H0).
  assert (Hn64 : n <= SIZE_MAX) by (unfold SIZE_MAX; lia).
  destruct (decide (n = 0)) as [->|Hn0].
  { rewrite H0 by done. unfold safe_unsigned. change (0 <? limit) with (0 <? limit).
    change (strtoul (skip_WHITESPACE [48]) 0) with (Ok (0, [] : cstr)). cbn [mbind res_bind].
    change (all_read (skip_WHITESPACE [48]) []) with true. cbn [require mbind res_bind].
    change (negb (deref (skip_WHITESPACE [48]) =? ch "-")) with true. cbn [require mbind res_bind].
    rewrite (proj2 (Z.ltb_lt 0 limit)) by lia. done. }
  specialize (Hz Hn0). destruct (dec n) as [|c s] eqn:E; [done|].
  pose proof Hd as [Hc _]%Forall_cons. simpl in Hz.
  assert (Hns : forall l, Forall (fun x => x < 48) l -> in_set c l = false).
  { intros l Hf. apply in_set_false. intros Hin. rewrite Forall_forall in Hf. specialize (Hf _ Hin). lia. }
  unfold safe_unsigned, skip_WHITESPACE. cbn [drop_while]. rewrite Hns by (repeat constructor; lia).
  assert (Hsp : isspace c = false) by (unfold isspace; apply Hns; repeat constructor; lia).
  unfold strtoul, scan_number. cbn [drop_while]. rewrite Hsp. cbn [deref].
  rewrite (Hns [ch "-"; ch "+"]) by (repeat constructor; by vm_compute).
  unfold scan_base. cbn [deref]. change (ch "0") with 48. rewrite (proj2 (Z.eqb_neq c 48)) by lia.
  rewrite andb_false_r. cbn [andb]. change (0 =? 0) with true. cbn beta iota. cbn [deref].
  unfold is_digit_in at 1. rewrite digit_value_dec, (proj2 (Z.ltb_lt (c - 48) 10)) by lia.
  rewrite <- (app_nil_r (c :: s)) at 1. rewrite (scan_digits_dec (c :: s) 0 []) by done.
  rewrite Hv. rewrite (proj2 (Z.ltb_ge _ _)) by lia.
  change (ch "-") with 45. rewrite (proj2 (Z.eqb_neq c 45)) by lia.
  rewrite wrap_small by lia. cbn [mbind res_bind].
  change (all_read (c :: s) []) with true. cbn [require mbind res_bind negb].
  by rewrite (proj2 (Z.ltb_lt _ _)) by lia.
Qed.

Lemma parse_uid_dec u : 0 <= u < 2 ^ 32 -> uid_is_valid u = true -> parse_uid (dec u) = Ok u.
Proof.
  intros Hu Hv. unfold parse_uid, safe_atou32, safe_atou, safe_atou_full. cbn [require mbind res_bind Z.leb].
  change (0 <=? 16) with true. cbn [require mbind res_bind].
  rewrite (safe_unsigned_dec (2 ^ 32)) by lia. cbn [mbind res_bind]. by rewrite Hv.
Qed.
