(* ===== verification/Names.v ===== *)
(** * Names, paths and patterns ([src/libsystemd/sd-bus/bus-internal.c])

    The validity checks for object paths, interface, service and member names,
    the two prefix-pattern matchers, and the message type names. *)
From S2P Require Import Prelude HexDecOct.

(** ** Validity checks *)

(** The loop the path, interface and service checks share: [start] is the code's
    [slash] or [dot] (the previous character was the separator), [found] its
    [found_dot], [good] the character test, which may depend on [start]. [None]
    is the early [return false]. *)
Fixpoint sep_loop (sep : Z) (good : bool -> Z -> bool) (start found : bool)
    (q : cstr) : option (bool * bool) :=
  match q with
  | [] => Some (start, found)
  | c :: q =>
      if c =? sep then
        if start then None else sep_loop sep good true true q
      else if negb (good start c) then None
      else sep_loop sep good false found q
  end.

Definition is_alpha (c : Z) : bool := is_lower c || is_upper c.

(** [object_path_is_valid] *)
Definition path_good (_ : bool) (c : Z) : bool :=
  is_lower c || is_upper c || is_digit c || (c =? ch "_").

Definition object_path_is_valid (p : cstr) : bool :=
  if negb (deref p =? ch "/") then false
  else if char_at p 1 =? 0 then true
  else match sep_loop (ch "/") path_good true false (tail p) with
       | None => false
       | Some (slash, _) => negb slash
       end.

(** [interface_name_is_valid], also [error_name_is_valid] *)
Definition interface_good (dot : bool) (c : Z) : bool :=
  is_lower c || is_upper c || (negb dot && is_digit c) || (c =? ch "_").

Definition interface_name_is_valid (p : cstr) : bool :=
  if deref p =? 0 then false
  else match sep_loop (ch ".") interface_good true false p with
       | None => false
       | Some (dot, found_dot) =>
           if 255 <? zlen p then false
           else if dot then false
           else if negb found_dot then false
           else true
       end.

Definition error_name_is_valid : cstr -> bool := interface_name_is_valid.

(** [service_name_is_valid] *)
Definition service_good (unique dot : bool) (c : Z) : bool :=
  is_lower c || is_upper c || ((negb dot || unique) && is_digit c) ||
  in_set c [ch "_"; ch "-"].

Definition service_name_is_valid (p : cstr) : bool :=
  if deref p =? 0 then false
  else
    let unique := deref p =? ch ":" in
    match sep_loop (ch ".") (service_good unique) true false
            (if unique then tail p else p) with
    | None => false
    | Some (dot, found_dot) =>
        if 255 <? zlen p then false
        else if dot then false
        else if negb found_dot then false
        else true
    end.

(** [member_name_is_valid] *)
Definition member_good (c : Z) : bool :=
  is_lower c || is_upper c || is_digit c || (c =? ch "_").

Definition member_name_is_valid (p : cstr) : bool :=
  if deref p =? 0 then false
  else if negb (forallb member_good p) then false
  else if 255 <? zlen p then false
  else true.

(** [object_path_startswith]; the result is what follows the prefix in [a]. *)
Definition object_path_startswith (a b : cstr) : option cstr :=
  if negb (object_path_is_valid a) || negb (object_path_is_valid b) then None
  else if streq b (bs "/") then Some (tail a)
  else match startswith a b with
       | None => None
       | Some p =>
           if deref p =? 0 then Some p
           else if deref p =? ch "/" then Some (tail p)
           else None
       end.

(** ** Patterns *)

(** [complex_pattern_check]; [None] is a NULL pointer. *)
Fixpoint complex_loop (c : Z) (separator : bool) (a b : cstr) : bool :=
  if negb (deref a =? deref b)
  then separator && ((deref a =? 0) || (deref b =? 0))
  else match a, b with
       | x :: a, _ :: b => complex_loop c (x =? c) a b
       | _, _ => true
       end.

Definition complex_pattern_check (c : Z) (a b : option cstr) : bool :=
  match a, b with
  | None, None => true
  | Some a, Some b => complex_loop c false a b
  | _, _ => false
  end.

Definition namespace_complex_pattern := complex_pattern_check (ch ".").
Definition path_complex_pattern := complex_pattern_check (ch "/").

(** [simple_pattern_check] *)
Fixpoint simple_loop (c : Z) (separator : bool) (a b : cstr) : bool :=
  if negb (deref a =? deref b)
  then (deref a =? 0) && ((deref b =? c) || separator)
  else match a, b with
       | x :: a, _ :: b => simple_loop c (x =? c) a b
       | _, _ => true
       end.

Definition simple_pattern_check (c : Z) (a b : option cstr) : bool :=
  match a, b with
  | None, None => true
  | Some a, Some b => simple_loop c false a b
  | _, _ => false
  end.

Definition namespace_simple_pattern := simple_pattern_check (ch ".").
Definition path_simple_pattern := simple_pattern_check (ch "/").

(** ** Message types *)
Definition SD_BUS_MESSAGE_METHOD_CALL : Z := 1.
Definition SD_BUS_MESSAGE_METHOD_RETURN : Z := 2.
Definition SD_BUS_MESSAGE_METHOD_ERROR : Z := 3.
Definition SD_BUS_MESSAGE_SIGNAL : Z := 4.
Definition _SD_BUS_MESSAGE_TYPE_MAX : Z := 5.

Definition bus_message_type_from_string (s : cstr) : res Z :=
  if streq s (bs "signal") then Ok SD_BUS_MESSAGE_SIGNAL
  else if streq s (bs "method_call") then Ok SD_BUS_MESSAGE_METHOD_CALL
  else if streq s (bs "error") then Ok SD_BUS_MESSAGE_METHOD_ERROR
  else if streq s (bs "method_return") then Ok SD_BUS_MESSAGE_METHOD_RETURN
  else Err EINVAL.

Definition bus_message_type_to_string (u : Z) : option cstr :=
  if u =? SD_BUS_MESSAGE_SIGNAL then Some (bs "signal")
  else if u =? SD_BUS_MESSAGE_METHOD_CALL then Some (bs "method_call")
  else if u =? SD_BUS_MESSAGE_METHOD_ERROR then Some (bs "error")
  else if u =? SD_BUS_MESSAGE_METHOD_RETURN then Some (bs "method_return")
  else None.

(** ** Elements between separators: the reference reading of the loops *)
Fixpoint split_on (sep : Z) (s : cstr) : list cstr :=
  match s with
  | [] => [[]]
  | c :: s =>
      if c =? sep then [] :: split_on sep s
      else match split_on sep s with
           | e :: es => (c :: e) :: es
           | [] => [[c]]
           end
  end.

Fixpoint join_with (sep : Z) (es : list cstr) : cstr :=
  match es with
  | [] => []
  | [e] => e
  | e :: es => e ++ sep :: join_with sep es
  end.

Lemma split_on_nonempty sep s : split_on sep s <> [].
Proof. destruct s as [|c s]; simpl; [done|]. repeat case_match; done. Qed.

Lemma join_split sep s : join_with sep (split_on sep s) = s.
Proof.
  induction s as [|c s IH]; [done|]. simpl.
  destruct (Z.eqb_spec c sep) as [->|].
  - destruct (split_on sep s) eqn:E; [by apply split_on_nonempty in E|].
    simpl. simpl in IH. by rewrite IH.
  - destruct (split_on sep s) as [|e es] eqn:E; [by apply split_on_nonempty in E|].
    destruct es; simpl in *; by rewrite IH.
Qed.

(** A well-formed element: not empty, each character good in its position. *)
Definition element_ok (good : bool -> Z -> bool) (e : cstr) : bool :=
  match e with [] => false | c :: e => good true c && forallb (good false) e end.

(** What [sep_loop] then still has to accept, in the middle of an element or at
    the start of one. *)
Definition rest_ok (good : bool -> Z -> bool) (start : bool) (e : cstr) : bool :=
  if start then element_ok good e else forallb (good false) e.

Definition sep_accepts (r : option (bool * bool)) : bool :=
  match r with Some (start, _) => negb start | None => false end.

Lemma sep_loop_split sep good start found q :
  sep_accepts (sep_loop sep good start found q) =
  match split_on sep q with
  | e :: es => rest_ok good start e && forallb (element_ok good) es
  | [] => false
  end.
Proof.
  revert start found. induction q as [|c q IH]; intros start found; simpl.
  { by destruct start. }
  destruct (c =? sep) eqn:Hc.
  - destruct start; simpl; [done|]. rewrite IH.
    destruct (split_on sep q) eqn:E; [by apply split_on_nonempty in E|done].
  - destruct (split_on sep q) as [|e es] eqn:E; [by apply split_on_nonempty in E|].
    destruct (good start c) eqn:Hg; simpl.
    + rewrite IH. destruct start; simpl; by rewrite Hg.
    + destruct start; simpl; by rewrite Hg.
Qed.

Lemma sep_loop_found sep good start found q s f :
  sep_loop sep good start found q = Some (s, f) ->
  f = found || (1 <? zlen (split_on sep q)).
Proof.
  revert start found. induction q as [|c q IH]; intros start found; simpl.
  { intros [= -> ->]. by rewrite orb_false_r. }
  destruct (c =? sep) eqn:Hc.
  - destruct start; [done|]. intros ->%IH. simpl.
    assert (1 <? zlen ([] :: split_on sep q) = true) as ->; [|by rewrite orb_true_r].
    destruct (split_on sep q) eqn:E; [by apply split_on_nonempty in E|].
    apply Z.ltb_lt. clear IH. unfold zlen. cbn [length]. lia.
  - destruct (good start c); simpl; [|done]. intros ->%IH.
    destruct (split_on sep q) as [|e es] eqn:E; [by apply split_on_nonempty in E|].
    done.
Qed.

(** The acceptance test of the interface and service checks. *)
Lemma dotted_accepts good q :
  match sep_loop (ch ".") good true false q with
  | None => false
  | Some (dot, found) => negb dot && found
  end = (1 <? zlen (split_on (ch ".") q)) && forallb (element_ok good) (split_on (ch ".") q).
Proof.
  pose proof (sep_loop_split (ch ".") good true false q) as H.
  destruct (sep_loop _ _ _ _ q) as [[dot found]|] eqn:E; simpl in H.
  - apply sep_loop_found in E as ->. simpl. rewrite H.
    destruct (split_on _ q) as [|e es]; [done|]. simpl. by rewrite andb_comm.
  - destruct (split_on _ q) as [|e es]; [done|]. simpl in *. rewrite <- H.
    by rewrite andb_false_r.
Qed.

(** The reference definitions. *)
Definition path_ref (p : cstr) : Prop :=
  p = bs "/" \/
  exists es, es <> [] /\ Forall (fun e => e <> [] /\ forallb member_good e = true) es /\
    p = concat (map (cons (ch "/")) es).

Definition dotted_ref (good : bool -> Z -> bool) (p : cstr) : Prop :=
  (2 <= length (split_on (ch ".") p))%nat /\
  Forall (fun e => element_ok good e = true) (split_on (ch ".") p).


Lemma dotted_bool good p :
  (1 <? zlen (split_on (ch ".") p)) && forallb (element_ok good) (split_on (ch ".") p) = true
  <-> dotted_ref good p.
Proof.
  unfold dotted_ref, zlen. rewrite andb_true_iff, forallb_Forall, Z.ltb_lt.
  split; intros [? ?]; (split; [lia|done]).
Qed.

Lemma interface_name_is_valid_ref p :
  is_cstr p ->
  interface_name_is_valid p = true <->
  zlen p <= 255 /\ dotted_ref interface_good p.
Proof.
  intros Hp. rewrite <- dotted_bool, <- dotted_accepts.
  unfold interface_name_is_valid.
  destruct p as [|c p].
  { simpl. split; [done|]. by intros [_ [=]]. }
  assert (deref (c :: p) =? 0 = false) as ->
    by (inversion Hp; subst; simpl; apply Z.eqb_neq; lia).
  destruct (sep_loop _ _ _ _ _) as [[[] []]|]; simpl;
    destruct (255 <? zlen (c :: p)) eqn:E; ztests; split; try done; intros []; try done; lia.
Qed.

Lemma service_name_is_valid_ref p :
  is_cstr p ->
  service_name_is_valid p = true <->
  zlen p <= 255 /\
  ((exists q, p = ch ":" :: q /\ dotted_ref (service_good true) q) \/
   (deref p <> ch ":" /\ dotted_ref (service_good false) p)).
Proof.
  intros Hp. unfold service_name_is_valid.
  destruct p as [|c p].
  { simpl. split; [done|]. intros [_ [(q & [=] & _)|[_ [H _]]]]. simpl in H. lia. }
  assert (deref (c :: p) =? 0 = false) as ->
    by (inversion Hp; subst; simpl; apply Z.eqb_neq; lia).
  cbn [deref tail]. destruct (Z.eqb_spec c (ch ":")) as [->|Hc].
  - transitivity (zlen (ch ":" :: p) <= 255 /\ dotted_ref (service_good true) p).
    2:{ split; [intros [? ?]; split; [done|left; eauto] |].
        intros [? [(q & [= <-] & ?)|[? ?]]]; done. }
    rewrite <- dotted_bool, <- dotted_accepts.
    destruct (255 <? zlen (ch ":" :: p)) eqn:E, (sep_loop _ _ _ _ _) as [[[] []]|]; simpl;
      ztests; split; try done; intros []; try done; lia.
  - transitivity (zlen (c :: p) <= 255 /\ dotted_ref (service_good false) (c :: p)).
    2:{ split; [intros [? ?]; split; [done|right; eauto] |].
        intros [? [(q & [= -> <-] & ?)|[? ?]]]; done. }
    rewrite <- dotted_bool, <- dotted_accepts.
    destruct (255 <? zlen (c :: p)) eqn:E, (sep_loop _ _ _ _ _) as [[[] []]|]; simpl;
      ztests; split; try done; intros []; try done; lia.
Qed.

Lemma element_ok_path e :
  element_ok path_good e = true <-> e <> [] /\ forallb member_good e = true.
Proof. destruct e as [|c e]; simpl; [naive_solver|]. unfold path_good, member_good. naive_solver. Qed.

Lemma split_concat_slash es :
  es <> [] -> Forall (fun e => e <> [] /\ forallb member_good e = true) es ->
  split_on (ch "/") (tail (concat (map (cons (ch "/")) es))) = es.
Proof.
  intros Hne H. destruct es as [|e es]; [done|]. clear Hne. simpl.
  revert e H. induction es as [|e2 es IH]; intros e H; inversion H as [|? ? [_ He] Hes]; subst.
  - simpl. rewrite app_nil_r. clear H Hes. induction e as [|c e IHe]; [done|].
    simpl in *. apply andb_true_iff in He as [Hc He].
    destruct (Z.eqb_spec c (ch "/")) as [->|]; [by vm_compute in Hc|]. by rewrite IHe.
  - specialize (IH e2 Hes). simpl. clear H Hes. induction e as [|c e IHe].
    + simpl. simpl in IH. by rewrite IH.
    + simpl in *. apply andb_true_iff in He as [Hc He].
      destruct (Z.eqb_spec c (ch "/")) as [->|]; [by vm_compute in Hc|]. by rewrite IHe.
Qed.

Lemma join_with_slash es : es <> [] ->
  ch "/" :: join_with (ch "/") es = concat (map (cons (ch "/")) es).
Proof.
  intros H. destruct es as [|e es]; [done|]. clear H. revert e.
  induction es as [|e2 es IH]; intros e; simpl; [by rewrite app_nil_r|].
  simpl in IH. by rewrite IH.
Qed.

Lemma object_path_is_valid_ref p :
  is_cstr p -> object_path_is_valid p = true <-> path_ref p.
Proof.
  intros Hp. unfold object_path_is_valid, path_ref.
  destruct p as [|c p].
  { simpl. split; [done|]. intros [[=]|(es & Hne & _ & E)].
    by destruct es. }
  cbn [deref]. destruct (Z.eqb_spec c (ch "/")) as [->|Hc]; cbn [negb].
  2:{ split; [done|]. intros [[= ->]|(es & Hne & _ & E)]; [done|].
      destruct es; [done|]. simpl in E. by injection E as -> _. }
  destruct p as [|d p].
  { simpl. split; [by left|done]. }
  change (char_at (ch "/" :: d :: p) 1) with d. cbn [tail].
  assert (d =? 0 = false) as ->.
  { inversion Hp as [|? ? ? H2]; subst. inversion H2; subst. apply Z.eqb_neq. lia. }
  pose proof (sep_loop_split (ch "/") path_good true false (d :: p)) as H.
  transitivity (forallb (element_ok path_good) (split_on (ch "/") (d :: p)) = true).
  { unfold sep_accepts in H. destruct (split_on (ch "/") (d :: p)) eqn:E;
      [by apply split_on_nonempty in E|].
    cbn [forallb rest_ok] in *. rewrite <- H. by destruct (sep_loop _ _ _ _ _) as [[[] ?]|]. }
  rewrite forallb_Forall. split.
  - intros Hall. right. exists (split_on (ch "/") (d :: p)).
    split; [apply split_on_nonempty|]. split.
    + eapply Forall_impl; [exact Hall|]. intros e. apply element_ok_path.
    + rewrite <- join_with_slash by apply split_on_nonempty. by rewrite join_split.
  - intros [[=]|(es & Hne & Hes & E)].
    pose proof (split_concat_slash es Hne Hes) as Hs. rewrite <- E in Hs. simpl tail in Hs.
    rewrite Hs. eapply Forall_impl; [exact Hes|]. intros e. apply element_ok_path.
Qed.

(** ** Patterns *)

(** [ends_with sep c s]: the last character read, or [sep] if none was, makes
    the flag [separator] of the loops. *)
Definition ends_with (sep : bool) (c : Z) (s : cstr) : bool :=
  match last s with Some x => x =? c | None => sep end.

Lemma ends_with_cons sep c x s : ends_with sep c (x :: s) = ends_with (x =? c) c s.
Proof. unfold ends_with. rewrite last_cons. by destruct (last s). Qed.

Lemma is_cstr_cons x s : is_cstr (x :: s) -> 0 < x < 256 /\ is_cstr s.
Proof. intros H. by inversion H. Qed.

Lemma complex_loop_spec c sep a b :
  is_cstr a -> is_cstr b ->
  complex_loop c sep a b = true <->
  a = b \/
  (exists r, r <> [] /\ b = a ++ r /\ ends_with sep c a = true) \/
  (exists r, r <> [] /\ a = b ++ r /\ ends_with sep c b = true).
Proof.
  revert sep b. induction a as [|x a IH]; intros sep [|y b] Ha Hb.
  - split; [by left|done].
  - apply is_cstr_cons in Hb as [Hy Hb]. cbn [complex_loop deref].
    destruct (Z.eqb_spec 0 y); [lia|]. simpl. rewrite andb_true_r. split.
    + intros ->. right; left. by exists (y :: b).
    + intros [[=]|[(r & _ & _ & H)|(r & _ & [=] & _)]]. done.
  - apply is_cstr_cons in Ha as [Hx Ha]. cbn [complex_loop deref].
    destruct (Z.eqb_spec x 0); [lia|]. simpl.
    rewrite andb_true_r. split.
    + intros ->. right; right. by exists (x :: a).
    + intros [[=]|[(r & _ & [=] & _)|(r & _ & _ & H)]]. done.
  - apply is_cstr_cons in Ha as [Hx Ha]. apply is_cstr_cons in Hb as [Hy Hb].
    cbn [complex_loop deref]. destruct (Z.eqb_spec x y) as [->|Hne]; cbn [negb].
    + rewrite (IH _ _ Ha Hb), !ends_with_cons. naive_solver.
    + assert (x =? 0 = false) as -> by (apply Z.eqb_neq; lia).
      assert (y =? 0 = false) as -> by (apply Z.eqb_neq; lia).
      rewrite andb_false_r. split; [done|].
      intros [[= -> _]|[(r & _ & [= -> _] & _)|(r & _ & [= -> _] & _)]]; done.
Qed.

Lemma simple_loop_spec c sep a b :
  is_cstr a -> is_cstr b -> 0 < c < 256 ->
  simple_loop c sep a b = true <->
  exists r, b = a ++ r /\ (r = [] \/ deref r = c \/ ends_with sep c a = true).
Proof.
  intros Ha Hb Hc. revert sep b Hb.
  induction a as [|x a IH]; intros sep [|y b] Hb.
  - split; [exists []; auto|done].
  - apply is_cstr_cons in Hb as [Hy Hb]. cbn [simple_loop deref].
    destruct (Z.eqb_spec 0 y); [lia|]. simpl. rewrite orb_true_iff, Z.eqb_eq. split.
    + intros H. exists (y :: b). auto.
    + intros (r & <- & [[=]|[H|H]]); auto.
  - apply is_cstr_cons in Ha as [Hx Ha]. cbn [simple_loop deref].
    destruct (Z.eqb_spec x 0); [lia|]. simpl.
    split; [done|]. intros (r & [=] & _).
  - apply is_cstr_cons in Ha as [Hx Ha]. apply is_cstr_cons in Hb as [Hy Hb].
    cbn [simple_loop deref]. destruct (Z.eqb_spec x y) as [->|Hne]; cbn [negb].
    + rewrite (IH Ha _ _ Hb), ends_with_cons. naive_solver.
    + assert (x =? 0 = false) as -> by (apply Z.eqb_neq; lia). split; [done|].
      intros (r & [= -> _] & _). done.
Qed.

(** ** The names of the D-Bus specification

    Written down apart from the checks: the characters as they are listed in the
    specification, names as rows of elements. *)
Definition letters : cstr := bs "ABCDEFGHIJKLMNOPQRSTUVWXYZabcdefghijklmnopqrstuvwxyz".
Definition digits : cstr := bs "0123456789".

(** An element: at least one letter, digit or character of [extra]. *)
Definition word (extra e : cstr) : Prop := e <> [] /\ Forall (fun c => c ∈ letters ++ digits ++ extra) e.

Definition begins_with_digit (e : cstr) : Prop := exists c, head e = Some c /\ c ∈ digits.

Definition spec_path (p : cstr) : Prop :=
  p = bs "/" \/ exists es, es <> [] /\ Forall (word (bs "_")) es /\ p = concat (map (cons (ch "/")) es).

Definition spec_dotted (element : cstr -> Prop) (p : cstr) : Prop :=
  exists es, (2 <= length es)%nat /\ Forall element es /\ p = join_with (ch ".") es.

Definition spec_interface (p : cstr) : Prop :=
  zlen p <= 255 /\ spec_dotted (fun e => word (bs "_") e /\ ~ begins_with_digit e) p.

Definition spec_unique_name (p : cstr) : Prop :=
  zlen p <= 255 /\ exists q, p = bs ":" ++ q /\ spec_dotted (word (bs "_-")) q.

Definition spec_well_known_name (p : cstr) : Prop :=
  zlen p <= 255 /\ spec_dotted (fun e => word (bs "_-") e /\ ~ begins_with_digit e) p.

Definition spec_member (p : cstr) : Prop :=
  zlen p <= 255 /\ word (bs "_") p /\ ~ begins_with_digit p.

(** The characters of the checks and those of the specification, compared one by
    one. *)
Lemma in_chars (l : list Z) (f : Z -> bool) : (forall x, 0 <= x < 256 -> f x = bool_decide (x ∈ l)) ->
  forall c, 0 < c < 256 -> f c = true <-> c ∈ l.
Proof. intros H c Hc. by rewrite H, bool_decide_eq_true by lia. Qed.

Lemma byte_table (f g : Z -> bool) :
  forallb (fun n => eqb (f (Z.of_nat n)) (g (Z.of_nat n))) (seq 0 256) = true ->
  forall x, 0 <= x < 256 -> f x = g x.
Proof.
  intros H x Hx. apply forallb_Forall in H. rewrite Forall_forall in H.
  specialize (H (Z.to_nat x)). rewrite Z2Nat.id in H by lia. apply eqb_prop, H. apply elem_of_seq. lia.
Qed.

Ltac chars := apply in_chars; [apply byte_table; vm_compute; reflexivity].

Lemma label_chars c : 0 < c < 256 -> member_good c = true <-> c ∈ letters ++ digits ++ bs "_".
Proof. revert c. chars. Qed.
Lemma interface_chars c : 0 < c < 256 -> interface_good false c = true <-> c ∈ letters ++ digits ++ bs "_".
Proof. revert c. chars. Qed.
Lemma interface_first c : 0 < c < 256 -> interface_good true c = true <-> c ∈ letters ++ bs "_".
Proof. revert c. chars. Qed.
Lemma service_chars u c : 0 < c < 256 -> service_good u false c = true <-> c ∈ letters ++ digits ++ bs "_-".
Proof. revert c. destruct u; chars. Qed.
Lemma unique_first c : 0 < c < 256 -> service_good true true c = true <-> c ∈ letters ++ digits ++ bs "_-".
Proof. revert c. chars. Qed.
Lemma service_first c : 0 < c < 256 -> service_good false true c = true <-> c ∈ letters ++ bs "_-".
Proof. revert c. chars. Qed.

Lemma Forall_cstr_iff (f : Z -> bool) (l e : cstr) : is_cstr e -> (forall c, 0 < c < 256 -> f c = true <-> c ∈ l) ->
  forallb f e = true <-> Forall (fun c => c ∈ l) e.
Proof.
  intros He H. rewrite forallb_Forall. unfold is_cstr in He. rewrite !Forall_forall in *.
  split; intros Hf c Hc; by apply H; auto.
Qed.

(** A first character that is no digit. *)
Lemma extra_no_digit (extra : cstr) : forallb (fun d => bool_decide (d ∉ digits)) extra = true ->
  forall d, d ∈ extra -> d ∉ digits.
Proof.
  intros H%forallb_Forall d Hd. rewrite Forall_forall in H. specialize (H d Hd). by apply bool_decide_eq_true in H.
Qed.

Lemma no_digit extra c e : (forall d, d ∈ extra -> d ∉ digits) ->
  c ∈ letters ++ extra <-> c ∈ letters ++ digits ++ extra /\ ~ begins_with_digit (c :: e).
Proof.
  intros Hx. assert (forall d, d ∈ letters -> d ∉ digits) as Hl by (by apply extra_no_digit).
  unfold begins_with_digit. cbn [head]. rewrite !elem_of_app. split.
  - intros [H|H]; (split; [tauto|]); intros (d & [= <-] & Hd); [by apply (Hl c)|by apply (Hx c)].
  - intros [[?|[?|?]] Hn]; [by left| |by right]. exfalso. apply Hn. by exists c.
Qed.
(** Elements. *)
Lemma element_ok_spec good (first rest e : cstr) : is_cstr e ->
  (forall c, 0 < c < 256 -> good true c = true <-> c ∈ first) ->
  (forall c, 0 < c < 256 -> good false c = true <-> c ∈ rest) ->
  element_ok good e = true <-> exists c e', e = c :: e' /\ c ∈ first /\ Forall (fun c => c ∈ rest) e'.
Proof.
  intros He Hf Hr. destruct e as [|c e]; [split; [done|by intros (? & ? & [=] & _)]|].
  apply is_cstr_cons in He as [Hc He]. cbn [element_ok].
  rewrite andb_true_iff, (Hf c Hc), (Forall_cstr_iff _ rest e He Hr). naive_solver.
Qed.

Lemma word_cons extra c e :
  word extra (c :: e) <-> c ∈ letters ++ digits ++ extra /\ Forall (fun c => c ∈ letters ++ digits ++ extra) e.
Proof. unfold word. rewrite Forall_cons. naive_solver. Qed.

(** Elements that may begin with a digit, and those that may not. *)
Lemma any_element good extra e : is_cstr e ->
  (forall b c, 0 < c < 256 -> good b c = true <-> c ∈ letters ++ digits ++ extra) ->
  element_ok good e = true <-> word extra e.
Proof.
  intros He H. rewrite (element_ok_spec good _ _ e He (H true) (H false)).
  destruct e as [|c e]; [split; [by intros (? & ? & [=] & _)|by intros [? _]]|].
  rewrite word_cons. naive_solver.
Qed.

Lemma named_element good extra e : is_cstr e -> (forall d, d ∈ extra -> d ∉ digits) ->
  (forall c, 0 < c < 256 -> good true c = true <-> c ∈ letters ++ extra) ->
  (forall c, 0 < c < 256 -> good false c = true <-> c ∈ letters ++ digits ++ extra) ->
  element_ok good e = true <-> word extra e /\ ~ begins_with_digit e.
Proof.
  intros He Hx Hf Hr. rewrite (element_ok_spec good _ _ e He Hf Hr).
  destruct e as [|c e]; [split; [by intros (? & ? & [=] & _)|by intros [[? _] _]]|].
  pose proof (no_digit extra c e Hx) as Hn. rewrite word_cons. naive_solver.
Qed.

(** Rows of elements. *)
Lemma split_join sep es : es <> [] -> Forall (fun e => sep ∉ e) es -> split_on sep (join_with sep es) = es.
Proof.
  intros Hne Hes. induction Hes as [|e es He Hes IH]; [done|]. clear Hne.
  induction e as [|c e IHe]; [destruct es as [|e2 es]; cbn in *; [done|]; rewrite Z.eqb_refl; by rewrite IH|].
  apply not_elem_of_cons in He as [Hc He]. specialize (IHe He). destruct es as [|e2 es]; cbn in *.
  - assert (c =? sep = false) as -> by lia. by rewrite IHe.
  - assert (c =? sep = false) as -> by lia. by rewrite IHe.
Qed.

Lemma is_cstr_join sep es : is_cstr (join_with sep es) -> Forall is_cstr es.
Proof.
  induction es as [|e es IH]; [constructor|]. destruct es as [|e2 es]; cbn [join_with].
  - by repeat constructor.
  - intros [He [_ H]%is_cstr_cons]%Forall_app. constructor; [done|]. by apply IH.
Qed.

Lemma split_cstr sep q : is_cstr q -> Forall is_cstr (split_on sep q).
Proof. intros H. apply (is_cstr_join sep). by rewrite join_split. Qed.

Lemma word_no_dot extra e : ch "." ∉ extra -> word extra e -> ch "." ∉ e.
Proof.
  intros Hx [_ H] Hd. rewrite Forall_forall in H. apply H in Hd. rewrite !elem_of_app in Hd.
  destruct Hd as [Hd|[Hd|Hd]]; [| |done]; apply list_elem_of_In in Hd; vm_compute in Hd; intuition lia.
Qed.

Lemma dotted_ref_spec good (element : cstr -> Prop) q : is_cstr q ->
  (forall e, is_cstr e -> element_ok good e = true <-> element e) ->
  (forall e, element e -> ch "." ∉ e) ->
  dotted_ref good q <-> spec_dotted element q.
Proof.
  intros Hq He Hd. unfold dotted_ref, spec_dotted. split.
  - intros [Hl H]. exists (split_on (ch ".") q). split; [done|]. rewrite join_split. split; [|done].
    pose proof (split_cstr (ch ".") q Hq) as Hc. rewrite Forall_forall in *.
    intros e Hin. by apply He; [apply Hc|apply H].
  - intros (es & Hl & Hes & ->). rewrite split_join.
    + split; [done|]. apply is_cstr_join in Hq. rewrite Forall_forall in *. intros e Hin.
      by apply He; [apply Hq|apply Hes].
    + by destruct es; [cbn in Hl; lia|].
    + eapply Forall_impl; [exact Hes|]. intros e. apply Hd.
Qed.

Lemma interface_dotted q : is_cstr q ->
  dotted_ref interface_good q <-> spec_dotted (fun e => word (bs "_") e /\ ~ begins_with_digit e) q.
Proof.
  intros Hq. apply dotted_ref_spec; [done| |].
  - intros e He. apply named_element; [done|by apply extra_no_digit|apply interface_first|apply interface_chars].
  - intros e [He _]. eapply word_no_dot; [|exact He]. rewrite list_elem_of_In. vm_compute. intuition lia.
Qed.

Lemma unique_dotted q : is_cstr q -> dotted_ref (service_good true) q <-> spec_dotted (word (bs "_-")) q.
Proof.
  intros Hq. apply dotted_ref_spec; [done| |].
  - intros e He. apply any_element; [done|]. intros [|]; [apply unique_first|apply service_chars].
  - intros e. apply word_no_dot. rewrite list_elem_of_In. vm_compute. intuition lia.
Qed.

Lemma well_known_dotted q : is_cstr q ->
  dotted_ref (service_good false) q <-> spec_dotted (fun e => word (bs "_-") e /\ ~ begins_with_digit e) q.
Proof.
  intros Hq. apply dotted_ref_spec; [done| |].
  - intros e He. apply named_element; [done|by apply extra_no_digit|apply service_first|apply service_chars].
  - intros e [He _]. eapply word_no_dot; [|exact He]. rewrite list_elem_of_In. vm_compute. intuition lia.
Qed.

(** A well-known name does not begin with a colon. *)
Lemma well_known_no_colon q : spec_dotted (fun e => word (bs "_-") e /\ ~ begins_with_digit e) q -> deref q <> ch ":".
Proof.
  intros (es & Hl & Hes & ->). destruct es as [|e [|e2 es]]; [cbn in Hl; lia..|].
  inversion_clear Hes as [|?? [[Hne He] _] _]. destruct e as [|c e]; [done|]. cbn. intros ->.
  inversion_clear He as [|?? Hc _]. apply list_elem_of_In in Hc. vm_compute in Hc. intuition lia.
Qed.

Lemma label_word e : is_cstr e -> e <> [] /\ forallb member_good e = true <-> word (bs "_") e.
Proof. intros He. unfold word. by rewrite (Forall_cstr_iff _ _ e He label_chars). Qed.

Lemma is_cstr_concat_slash es : is_cstr (concat (map (cons (ch "/")) es)) -> Forall is_cstr es.
Proof.
  induction es as [|e es IH]; [constructor|]. cbn [map concat]. intros [[_ He]%is_cstr_cons H]%Forall_app.
  constructor; [done|by apply IH].
Qed.

Lemma path_spec p : is_cstr p -> path_ref p <-> spec_path p.
Proof.
  intros Hp. unfold path_ref, spec_path. split; (intros [->|(es & Hne & Hes & ->)]; [by left|right]; exists es);
    (split_and!; [done| |done]); apply is_cstr_concat_slash in Hp; rewrite Forall_forall in *; intros e He;
    apply label_word; auto.
Qed.

(** ** Theorems *)

(** C32. Which strings the four name checks accept, in terms of the names of the
    D-Bus specification: exactly the object paths, exactly the interface names,
    exactly the unique and the well-known bus names; and as member names those
    of the specification and also those that begin with a digit, which it
    forbids. *)
Theorem name_checks_ref p :
  is_cstr p ->
  (object_path_is_valid p = true <-> spec_path p) /\
  (interface_name_is_valid p = true <-> spec_interface p) /\
  (service_name_is_valid p = true <-> spec_unique_name p \/ spec_well_known_name p) /\
  (member_name_is_valid p = true <->
     spec_member p \/ (zlen p <= 255 /\ word (bs "_") p /\ begins_with_digit p)).
Proof.
  intros Hp. split; [by rewrite object_path_is_valid_ref, path_spec|]. split.
  { rewrite interface_name_is_valid_ref by done. unfold spec_interface. by rewrite interface_dotted. }
  split.
  { rewrite service_name_is_valid_ref by done. unfold spec_unique_name, spec_well_known_name.
    rewrite well_known_dotted by done. split.
    - intros [Hl [(q & -> & Hq)|[_ Hq]]]; [left|by right]. split; [done|]. exists q. split; [done|].
      apply is_cstr_cons in Hp as [_ Hp]. by apply unique_dotted.
    - intros [[Hl (q & -> & Hq)]|[Hl Hq]]; (split; [done|]); [left|right; split; [by apply well_known_no_colon|done]].
      exists q. split; [done|]. apply is_cstr_cons in Hp as [_ Hp]. by apply unique_dotted. }
  assert (member_name_is_valid p = true <-> zlen p <= 255 /\ word (bs "_") p) as ->.
  { rewrite <- label_word by done. unfold member_name_is_valid. destruct p as [|c p]; [split; [done|by intros (_ & ? & _)]|].
    apply is_cstr_cons in Hp as [Hc _]. cbn [deref]. assert (c =? 0 = false) as -> by lia.
    destruct (forallb member_good (c :: p)), (255 <? zlen (c :: p)) eqn:E; cbn [negb]; ztests; split; try done;
      intros (? & _ & ?); done || lia. }
  unfold spec_member. assert (begins_with_digit p \/ ~ begins_with_digit p) as Hd; [|tauto].
  unfold begins_with_digit. destruct (head p) as [c|]; [|right; by intros (? & [=] & _)].
  destruct (decide (c ∈ digits)); [left; eauto|right]. intros (? & [= <-] & ?). done.
Qed.

Lemma name_checks_ref_witness :
  is_cstr (bs "org.freedesktop.DBus") /\
  interface_name_is_valid (bs "org.freedesktop.DBus") = true /\
  spec_interface (bs "org.freedesktop.DBus").
Proof.
  assert (is_cstr (bs "org.freedesktop.DBus")) as Hs.
  { unfold is_cstr. repeat constructor; vm_compute; auto. }
  split; [done|]. split; [reflexivity|].
  apply (proj1 (proj1 (proj2 (name_checks_ref _ Hs))) eq_refl).
Defined.

(** A member name that the check accepts and the specification does not. *)
Lemma member_begins_with_digit :
  member_name_is_valid (bs "0x") = true /\ ~ spec_member (bs "0x").
Proof.
  split; [reflexivity|]. intros (_ & _ & H). apply H. exists (ch "0"). split; [done|].
  apply list_elem_of_In. cbn. tauto.
Qed.

(** The pattern matchers mean what their comments say. A complex match is
    equality, or one string a prefix of the other and ending with the separator;
    a simple match is equality, or the pattern a prefix of the value with a
    separator right after it or at its end. The complex match is symmetric. *)
Theorem pattern_checks_spec c a b :
  is_cstr a -> is_cstr b -> 0 < c < 256 ->
  (complex_pattern_check c (Some a) (Some b) = true <->
     a = b \/
     (exists r, b = a ++ r /\ last a = Some c) \/
     (exists r, a = b ++ r /\ last b = Some c)) /\
  (simple_pattern_check c (Some a) (Some b) = true <->
     a = b \/ (exists r, b = a ++ c :: r) \/ (exists r, b = a ++ r /\ last a = Some c)) /\
  complex_pattern_check c (Some a) (Some b) = complex_pattern_check c (Some b) (Some a).
Proof.
  intros Ha Hb Hc.
  assert (forall s, ends_with false c s = true <-> last s = Some c) as He.
  { intros s. unfold ends_with. destruct (last s); [rewrite Z.eqb_eq|]; naive_solver. }
  assert (forall a b, is_cstr a -> is_cstr b ->
    complex_loop c false a b = true <->
    a = b \/ (exists r, b = a ++ r /\ last a = Some c) \/
    (exists r, a = b ++ r /\ last b = Some c)) as Hcx.
  { clear a b Ha Hb. intros a b Ha Hb. rewrite complex_loop_spec by done. split.
    - intros [->|[(r & _ & -> & H)|(r & _ & -> & H)]]; apply He in H || idtac; eauto.
    - intros [->|[(r & -> & H)|(r & -> & H)]]; [by left| |];
        (destruct r as [|x r]; [left; by rewrite app_nil_r|]);
        apply He in H; [right; left|right; right]; by exists (x :: r). }
  split; [by apply Hcx|]. split.
  - simpl. rewrite simple_loop_spec by done. split.
    + intros (r & -> & [->|[Hr|H]]); [left; by rewrite app_nil_r| |].
      * right; left. destruct r as [|x r]; simpl in Hr; [lia|]. subst. eauto.
      * apply He in H. eauto.
    + intros [->|[(r & ->)|(r & -> & H)]].
      * exists []. rewrite app_nil_r. auto.
      * exists (c :: r). auto.
      * apply He in H. exists r. auto.
  - simpl. apply eq_true_iff_eq. rewrite !Hcx by done. naive_solver.
Qed.

Lemma pattern_checks_spec_witness :
  simple_pattern_check (ch ".") (Some (bs "com.foo")) (Some (bs "com.foo.bar")) = true /\
  complex_pattern_check (ch "/") (Some (bs "/a/")) (Some (bs "/a/b")) =
  complex_pattern_check (ch "/") (Some (bs "/a/b")) (Some (bs "/a/")).
Proof.
  split; [reflexivity|].
  apply (pattern_checks_spec (ch "/") (bs "/a/") (bs "/a/b"));
    [unfold is_cstr; repeat constructor; vm_compute; auto ..| vm_compute; auto].
Defined.

Lemma path_not_slash_end p : path_ref p -> p <> bs "/" -> last p <> Some (ch "/").
Proof.
  intros [->|(es & _ & Hes & ->)]; [done|]. intros _.
  destruct es as [|e es _] using rev_ind; [done|].
  apply Forall_app in Hes as [_ Hes]. inversion Hes as [|? ? [Hne He] _]; subst.
  rewrite map_app, concat_app. simpl. rewrite app_nil_r.
  destruct e as [|c e _] using rev_ind; [done|].
  change (ch "/" :: e ++ [c]) with ((ch "/" :: e) ++ [c]).
  rewrite app_assoc, last_snoc. intros [= ->].
  rewrite forallb_app in He. apply andb_true_iff in He as [_ He]. by vm_compute in He.
Qed.

Lemma path_ref_head p : path_ref p -> exists q, p = ch "/" :: q.
Proof.
  intros [->|([|e es] & Hne & _ & ->)]; [by eexists|done|]. simpl. by eexists.
Qed.

(** [object_path_startswith(a, b)] succeeds exactly when both are valid
    paths and [b] is the root, [a] itself or an ancestor of [a] in the path
    hierarchy (not merely a string prefix), and it returns what follows the
    ancestor and its slash. *)
Theorem object_path_startswith_spec a b r :
  is_cstr a -> is_cstr b ->
  object_path_startswith a b = Some r <->
  path_ref a /\ path_ref b /\
  ((b = bs "/" /\ a = bs "/" ++ r) \/
   (b <> bs "/" /\ ((a = b /\ r = []) \/ a = b ++ bs "/" ++ r))).
Proof.
  intros Ha Hb. unfold object_path_startswith.
  pose proof (object_path_is_valid_ref a Ha) as Hva.
  pose proof (object_path_is_valid_ref b Hb) as Hvb.
  destruct (object_path_is_valid a); [|naive_solver].
  destruct (object_path_is_valid b); [|naive_solver]. cbn [negb orb].
  assert (path_ref a) as Pa by naive_solver. assert (path_ref b) as Pb by naive_solver.
  destruct (streq b (bs "/")) eqn:Hs.
  - apply streq_spec in Hs as ->. destruct (path_ref_head a Pa) as [q ->].
    simpl. split; [intros [= <-]; auto|].
    intros (_ & _ & [[_ [= <-]]|[? _]]); done.
  - assert (b <> bs "/") as Hne by (intros ->; by rewrite streq_refl in Hs).
    destruct (startswith a b) as [p|] eqn:E.
    + apply startswith_spec in E as ->. destruct p as [|c p].
      { simpl. rewrite app_nil_r in *. split; [intros [= <-]; auto 10|].
        intros (_ & _ & [[? _]|[_ [[_ ->]|H]]]); [done|done|].
        apply (f_equal length) in H. rewrite length_app in H. simpl in H. lia. }
      apply Forall_app in Ha as [_ Ha]. apply is_cstr_cons in Ha as [Hc _]. cbn [deref tail].
      assert (c =? 0 = false) as -> by (apply Z.eqb_neq; lia).
      destruct (Z.eqb_spec c (ch "/")) as [->|Hc'].
      * split; [intros [= <-]; auto 10|].
        intros (_ & _ & [[? _]|[_ [[H _]|H]]]); [done| |].
        { apply (f_equal length) in H. rewrite length_app in H. simpl in H. lia. }
        apply app_inv_head in H. by injection H as ->.
      * split; [done|]. intros (_ & _ & [[? _]|[_ [[H _]|H]]]); [done| |].
        { apply (f_equal length) in H. rewrite length_app in H. simpl in H. lia. }
        apply app_inv_head in H. by injection H.
    + split; [done|]. intros (_ & _ & [[? _]|[_ [[-> _]| ->]]]); [done| |].
      * assert (startswith b b = Some []) as E' by (apply startswith_spec; by rewrite app_nil_r).
        congruence.
      * assert (startswith (b ++ bs "/" ++ r) b = Some (bs "/" ++ r)) as E'
          by (by apply startswith_spec). congruence.
Qed.

Lemma object_path_startswith_spec_witness :
  object_path_startswith (bs "/a/b/c") (bs "/a") = Some (bs "b/c") /\
  path_ref (bs "/a").
Proof.
  split; [reflexivity|].
  apply (object_path_startswith_spec (bs "/a/b/c") (bs "/a") (bs "b/c"));
    [unfold is_cstr; repeat constructor; vm_compute; auto ..| reflexivity].
Defined.

(** Message type names and numbers are inverse to each other. *)
Lemma message_type_roundtrip s u :
  bus_message_type_from_string s = Ok u <-> bus_message_type_to_string u = Some s.
Proof.
  split; intros H.
  - unfold bus_message_type_from_string in H.
    repeat match type of H with context [streq s ?x] =>
      destruct (streq s x) eqn:?;
      [match goal with E : streq s _ = true |- _ => apply streq_spec in E end;
       subst; by injection H as <-|] end.
    done.
  - unfold bus_message_type_to_string in H. repeat case_match; ztests; subst;
      try done; by injection H as <-.
Qed.
