(* ===== verification/BusError.v ===== *)
(** * Errors ([src/libsystemd/sd-bus/bus-error.c], [bus-common-errors.c])

    An error is a D-Bus error name with a text. The translation between names and
    error numbers goes through tables, those of the library and those that were
    registered. *)
From S2P Require Import Prelude Names.

(** ** What the C library and a generated table give

    [errno_to_name] and [errno_from_name] look error numbers up in a table that
    the build generates; [strerror] is [strerror_r], with whether the text is in
    the buffer that was passed. *)
Class ErrnoTable := {
  errno_to_name : errno -> option cstr;
  errno_from_name : cstr -> option errno;
  strerror : errno -> cstr * bool }.

Class ErrnoTableLaws `{ErrnoTable} : Prop := {
  errno_from_to e n : errno_to_name e = Some n -> errno_from_name n = Some e }.

(** ** Data *)

(** The member [_need_free]: negative for an error that is constant for a while,
    0 for a constant one, positive for one on the heap. *)
Record sd_bus_error := BusError {
  e_name : option cstr; e_message : option cstr; need_free : Z }.

#[export] Instance sd_bus_error_eq_dec : EqDecision sd_bus_error.
Proof. solve_decision. Defined.

Definition SD_BUS_ERROR_NULL : sd_bus_error := BusError None None 0.
Definition SD_BUS_ERROR_MAKE_CONST (name : cstr) (message : option cstr) : sd_bus_error :=
  BusError (Some name) message 0.

(** A table up to its end marker. *)
Definition sd_bus_error_map : Type := list (cstr * errno).

Definition bus_standard_errors : sd_bus_error_map :=
  [(bs "org.freedesktop.DBus.Error.Failed", EACCES);
   (bs "org.freedesktop.DBus.Error.NoMemory", ENOMEM);
   (bs "org.freedesktop.DBus.Error.ServiceUnknown", EHOSTUNREACH);
   (bs "org.freedesktop.DBus.Error.NameHasNoOwner", ENXIO);
   (bs "org.freedesktop.DBus.Error.NoReply", ETIMEDOUT);
   (bs "org.freedesktop.DBus.Error.IOError", EIO);
   (bs "org.freedesktop.DBus.Error.BadAddress", EADDRNOTAVAIL);
   (bs "org.freedesktop.DBus.Error.NotSupported", EOPNOTSUPP);
   (bs "org.freedesktop.DBus.Error.LimitsExceeded", ENOBUFS);
   (bs "org.freedesktop.DBus.Error.AccessDenied", EACCES);
   (bs "org.freedesktop.DBus.Error.AuthFailed", EACCES);
   (bs "org.freedesktop.DBus.Error.InteractiveAuthorizationRequired", EACCES);
   (bs "org.freedesktop.DBus.Error.NoServer", EHOSTDOWN);
   (bs "org.freedesktop.DBus.Error.Timeout", ETIMEDOUT);
   (bs "org.freedesktop.DBus.Error.NoNetwork", ENONET);
   (bs "org.freedesktop.DBus.Error.AddressInUse", EADDRINUSE);
   (bs "org.freedesktop.DBus.Error.Disconnected", ECONNRESET);
   (bs "org.freedesktop.DBus.Error.InvalidArgs", EINVAL);
   (bs "org.freedesktop.DBus.Error.FileNotFound", ENOENT);
   (bs "org.freedesktop.DBus.Error.FileExists", EEXIST);
   (bs "org.freedesktop.DBus.Error.UnknownMethod", EBADR);
   (bs "org.freedesktop.DBus.Error.UnknownObject", EBADR);
   (bs "org.freedesktop.DBus.Error.UnknownInterface", EBADR);
   (bs "org.freedesktop.DBus.Error.UnknownProperty", EBADR);
   (bs "org.freedesktop.DBus.Error.PropertyReadOnly", EROFS);
   (bs "org.freedesktop.DBus.Error.UnixProcessIdUnknown", ESRCH);
   (bs "org.freedesktop.DBus.Error.InvalidSignature", EINVAL);
   (bs "org.freedesktop.DBus.Error.InconsistentMessage", EBADMSG);
   (bs "org.freedesktop.DBus.Error.TimedOut", ETIMEDOUT);
   (bs "org.freedesktop.DBus.Error.MatchRuleInvalid", EINVAL);
   (bs "org.freedesktop.DBus.Error.InvalidFileContent", EINVAL);
   (bs "org.freedesktop.DBus.Error.MatchRuleNotFound", ENOENT);
   (bs "org.freedesktop.DBus.Error.SELinuxSecurityContextUnknown", ESRCH);
   (bs "org.freedesktop.DBus.Error.ObjectPathInUse", EBUSY)].

(** [bus-common-errors.c] *)
Definition bus_common_errors : sd_bus_error_map :=
  [(bs "org.freedesktop.systemd1.NoSuchUnit", ENOENT);
   (bs "org.freedesktop.systemd1.NoUnitForPID", ESRCH);
   (bs "org.freedesktop.systemd1.NoUnitForInvocationID", ENOENT);
   (bs "org.freedesktop.systemd1.UnitExists", EEXIST);
   (bs "org.freedesktop.systemd1.LoadFailed", EIO);
   (bs "org.freedesktop.systemd1.BadUnitSetting", ENOEXEC);
   (bs "org.freedesktop.systemd1.JobFailed", EREMOTEIO);
   (bs "org.freedesktop.systemd1.NoSuchJob", ENOENT);
   (bs "org.freedesktop.systemd1.NotSubscribed", EINVAL);
   (bs "org.freedesktop.systemd1.AlreadySubscribed", EINVAL);
   (bs "org.freedesktop.systemd1.OnlyByDependency", EINVAL);
   (bs "org.freedesktop.systemd1.TransactionJobsConflicting", EDEADLK);
   (bs "org.freedesktop.systemd1.TransactionOrderIsCyclic", EDEADLK);
   (bs "org.freedesktop.systemd1.TransactionIsDestructive", EDEADLK);
   (bs "org.freedesktop.systemd1.UnitMasked", ERFKILL);
   (bs "org.freedesktop.systemd1.UnitGenerated", EADDRNOTAVAIL);
   (bs "org.freedesktop.systemd1.UnitLinked", ELOOP);
   (bs "org.freedesktop.systemd1.JobTypeNotApplicable", EBADR);
   (bs "org.freedesktop.systemd1.NoIsolation", EPERM);
   (bs "org.freedesktop.systemd1.ShuttingDown", ECANCELED);
   (bs "org.freedesktop.systemd1.ScopeNotRunning", EHOSTDOWN);
   (bs "org.freedesktop.systemd1.NoSuchDynamicUser", ESRCH);
   (bs "org.freedesktop.systemd1.NotReferenced", EUNATCH);
   (bs "org.freedesktop.systemd1.DiskFull", ENOSPC);
   (bs "org.freedesktop.machine1.NoSuchMachine", ENXIO);
   (bs "org.freedesktop.machine1.NoSuchImage", ENOENT);
   (bs "org.freedesktop.machine1.NoMachineForPID", ENXIO);
   (bs "org.freedesktop.machine1.MachineExists", EEXIST);
   (bs "org.freedesktop.machine1.NoPrivateNetworking", ENOSYS);
   (bs "org.freedesktop.machine1.NoSuchUserMapping", ENXIO);
   (bs "org.freedesktop.machine1.NoSuchGroupMapping", ENXIO);
   (bs "org.freedesktop.portable1.NoSuchImage", ENOENT);
   (bs "org.freedesktop.portable1.BadImageType", EMEDIUMTYPE);
   (bs "org.freedesktop.login1.NoSuchSession", ENXIO);
   (bs "org.freedesktop.login1.NoSessionForPID", ENXIO);
   (bs "org.freedesktop.login1.NoSuchUser", ENXIO);
   (bs "org.freedesktop.login1.NoUserForPID", ENXIO);
   (bs "org.freedesktop.login1.NoSuchSeat", ENXIO);
   (bs "org.freedesktop.login1.SessionNotOnSeat", EINVAL);
   (bs "org.freedesktop.login1.NotInControl", EINVAL);
   (bs "org.freedesktop.login1.DeviceIsTaken", EINVAL);
   (bs "org.freedesktop.login1.DeviceNotTaken", EINVAL);
   (bs "org.freedesktop.login1.OperationInProgress", EINPROGRESS);
   (bs "org.freedesktop.login1.SleepVerbNotSupported", EOPNOTSUPP);
   (bs "org.freedesktop.login1.SessionBusy", EBUSY);
   (bs "org.freedesktop.timedate1.AutomaticTimeSyncEnabled", EALREADY);
   (bs "org.freedesktop.timedate1.NoNTPSupport", EOPNOTSUPP);
   (bs "org.freedesktop.systemd1.NoSuchProcess", ESRCH);
   (bs "org.freedesktop.resolve1.NoNameServers", ESRCH);
   (bs "org.freedesktop.resolve1.InvalidReply", EINVAL);
   (bs "org.freedesktop.resolve1.NoSuchRR", ENOENT);
   (bs "org.freedesktop.resolve1.CNameLoop", EDEADLK);
   (bs "org.freedesktop.resolve1.Aborted", ECANCELED);
   (bs "org.freedesktop.resolve1.NoSuchService", EUNATCH);
   (bs "org.freedesktop.resolve1.DnssecFailed", EHOSTUNREACH);
   (bs "org.freedesktop.resolve1.NoTrustAnchor", EHOSTUNREACH);
   (bs "org.freedesktop.resolve1.ResourceRecordTypeUnsupported", EOPNOTSUPP);
   (bs "org.freedesktop.resolve1.NoSuchLink", ENXIO);
   (bs "org.freedesktop.resolve1.LinkBusy", EBUSY);
   (bs "org.freedesktop.resolve1.NetworkDown", ENETDOWN);
   (bs "org.freedesktop.resolve1.NoSuchDnssdService", ENOENT);
   (bs "org.freedesktop.resolve1.DnssdServiceExists", EEXIST);
   (bs "org.freedesktop.resolve1.DnsError.FORMERR", EBADMSG);
   (bs "org.freedesktop.resolve1.DnsError.SERVFAIL", EHOSTDOWN);
   (bs "org.freedesktop.resolve1.DnsError.NXDOMAIN", ENXIO);
   (bs "org.freedesktop.resolve1.DnsError.NOTIMP", ENOSYS);
   (bs "org.freedesktop.resolve1.DnsError.REFUSED", EACCES);
   (bs "org.freedesktop.resolve1.DnsError.YXDOMAIN", EEXIST);
   (bs "org.freedesktop.resolve1.DnsError.YRRSET", EEXIST);
   (bs "org.freedesktop.resolve1.DnsError.NXRRSET", ENOENT);
   (bs "org.freedesktop.resolve1.DnsError.NOTAUTH", EACCES);
   (bs "org.freedesktop.resolve1.DnsError.NOTZONE", EREMOTE);
   (bs "org.freedesktop.resolve1.DnsError.BADVERS", EBADMSG);
   (bs "org.freedesktop.resolve1.DnsError.BADKEY", EKEYREJECTED);
   (bs "org.freedesktop.resolve1.DnsError.BADTIME", EBADMSG);
   (bs "org.freedesktop.resolve1.DnsError.BADMODE", EBADMSG);
   (bs "org.freedesktop.resolve1.DnsError.BADNAME", EBADMSG);
   (bs "org.freedesktop.resolve1.DnsError.BADALG", EBADMSG);
   (bs "org.freedesktop.resolve1.DnsError.BADTRUNC", EBADMSG);
   (bs "org.freedesktop.resolve1.DnsError.BADCOOKIE", EBADR);
   (bs "org.freedesktop.import1.NoSuchTransfer", ENXIO);
   (bs "org.freedesktop.import1.TransferInProgress", EBUSY);
   (bs "org.freedesktop.hostname1.NoProductUUID", EOPNOTSUPP)].

Definition SD_BUS_ERROR_FAILED : cstr := bs "org.freedesktop.DBus.Error.Failed".
Definition SD_BUS_ERROR_NO_MEMORY : cstr := bs "org.freedesktop.DBus.Error.NoMemory".
Definition SD_BUS_ERROR_NO_REPLY : cstr := bs "org.freedesktop.DBus.Error.NoReply".
Definition SD_BUS_ERROR_IO_ERROR : cstr := bs "org.freedesktop.DBus.Error.IOError".
Definition SD_BUS_ERROR_BAD_ADDRESS : cstr := bs "org.freedesktop.DBus.Error.BadAddress".
Definition SD_BUS_ERROR_NOT_SUPPORTED : cstr := bs "org.freedesktop.DBus.Error.NotSupported".
Definition SD_BUS_ERROR_LIMITS_EXCEEDED : cstr := bs "org.freedesktop.DBus.Error.LimitsExceeded".
Definition SD_BUS_ERROR_ACCESS_DENIED : cstr := bs "org.freedesktop.DBus.Error.AccessDenied".
Definition SD_BUS_ERROR_TIMEOUT : cstr := bs "org.freedesktop.DBus.Error.Timeout".
Definition SD_BUS_ERROR_ADDRESS_IN_USE : cstr := bs "org.freedesktop.DBus.Error.AddressInUse".
Definition SD_BUS_ERROR_DISCONNECTED : cstr := bs "org.freedesktop.DBus.Error.Disconnected".
Definition SD_BUS_ERROR_INVALID_ARGS : cstr := bs "org.freedesktop.DBus.Error.InvalidArgs".
Definition SD_BUS_ERROR_FILE_NOT_FOUND : cstr := bs "org.freedesktop.DBus.Error.FileNotFound".
Definition SD_BUS_ERROR_FILE_EXISTS : cstr := bs "org.freedesktop.DBus.Error.FileExists".
Definition SD_BUS_ERROR_UNKNOWN_METHOD : cstr := bs "org.freedesktop.DBus.Error.UnknownMethod".
Definition SD_BUS_ERROR_UNKNOWN_OBJECT : cstr := bs "org.freedesktop.DBus.Error.UnknownObject".
Definition SD_BUS_ERROR_UNIX_PROCESS_ID_UNKNOWN : cstr :=
  bs "org.freedesktop.DBus.Error.UnixProcessIdUnknown".
Definition SD_BUS_ERROR_INCONSISTENT_MESSAGE : cstr :=
  bs "org.freedesktop.DBus.Error.InconsistentMessage".

Definition BUS_ERROR_OOM : sd_bus_error :=
  SD_BUS_ERROR_MAKE_CONST SD_BUS_ERROR_NO_MEMORY (Some (bs "Out of memory")).
Definition BUS_ERROR_FAILED : sd_bus_error :=
  SD_BUS_ERROR_MAKE_CONST SD_BUS_ERROR_FAILED (Some (bs "Operation failed")).

(** ** From names to numbers *)
Fixpoint find_name (m : sd_bus_error_map) (name : cstr) : option errno :=
  match m with
  | [] => None
  | (n, e) :: m => if streq n name then Some e else find_name m name
  end.

Fixpoint find_in_maps (l : list sd_bus_error_map) (name : cstr) : option errno :=
  match l with
  | [] => None
  | m :: l => match find_name m name with Some e => Some e | None => find_in_maps l name end
  end.

(** [map_ok] and the identity of tables: a table is registered once. The codes
    are those of a table without the marker, all positive as [errno] has them. *)
Definition sd_bus_error_add_map (m : sd_bus_error_map) (maps : list sd_bus_error_map) :
    res bool * list sd_bus_error_map :=
  if bool_decide (m ∈ maps) then (Ok false, maps) else (Ok true, maps ++ [m]).

Section Errors.
Context `{ErrnoTable}.

(** The tables that were registered ([additional_error_maps]), in order *)
Context (additional_error_maps : list sd_bus_error_map).

Definition bus_error_name_to_errno (name : option cstr) : errno :=
  match name with
  | None => EINVAL
  | Some name =>
      match startswith name (bs "System.Error.") with
      | Some p => default EIO (errno_from_name p)
      | None =>
          default EIO (find_in_maps
            (additional_error_maps ++ [bus_standard_errors; bus_common_errors]) name)
      end
  end.

(** ** From numbers to names *)
Definition errno_to_bus_error_const (error : errno) : sd_bus_error :=
  let make n s := SD_BUS_ERROR_MAKE_CONST n (Some (bs s)) in
  match error with
  | ENOMEM => BUS_ERROR_OOM
  | EPERM | EACCES => make SD_BUS_ERROR_ACCESS_DENIED "Access denied"
  | EINVAL => make SD_BUS_ERROR_INVALID_ARGS "Invalid argument"
  | ESRCH => make SD_BUS_ERROR_UNIX_PROCESS_ID_UNKNOWN "No such process"
  | ENOENT => make SD_BUS_ERROR_FILE_NOT_FOUND "File not found"
  | EEXIST => make SD_BUS_ERROR_FILE_EXISTS "File exists"
  | ETIMEDOUT | ETIME => make SD_BUS_ERROR_TIMEOUT "Timed out"
  | EIO => make SD_BUS_ERROR_IO_ERROR "Input/output error"
  | ENETRESET | ECONNABORTED | ECONNRESET => make SD_BUS_ERROR_DISCONNECTED "Disconnected"
  | EOPNOTSUPP | ENOTSUP => make SD_BUS_ERROR_NOT_SUPPORTED "Not supported"
  | EADDRNOTAVAIL => make SD_BUS_ERROR_BAD_ADDRESS "Address not available"
  | ENOBUFS => make SD_BUS_ERROR_LIMITS_EXCEEDED "Limits exceeded"
  | EADDRINUSE => make SD_BUS_ERROR_ADDRESS_IN_USE "Address in use"
  | EBADMSG => make SD_BUS_ERROR_INCONSISTENT_MESSAGE "Inconsistent message"
  | _ => SD_BUS_ERROR_NULL
  end%string.

Definition errno_to_bus_error_name_new (error : errno) : option cstr :=
  app (bs "System.Error.") <$> errno_to_name error.

(** ** Error objects

    [None] is the NULL pointer. What the calls return is a negative number or 0. *)
Definition bus_error_is_dirty (e : option sd_bus_error) : bool :=
  match e with
  | None => false
  | Some e => bool_decide (is_Some (e_name e)) || bool_decide (is_Some (e_message e)) ||
              negb (need_free e =? 0)
  end.

Definition sd_bus_error_free : sd_bus_error -> sd_bus_error := fun _ => SD_BUS_ERROR_NULL.

Definition sd_bus_error_is_set (e : option sd_bus_error) : bool :=
  match e with None => false | Some e => bool_decide (is_Some (e_name e)) end.

Definition sd_bus_error_has_name (e : option sd_bus_error) (name : option cstr) : bool :=
  match e with None => false | Some e => bool_decide (e_name e = name) end.

(** 0 is [None]. *)
Definition sd_bus_error_get_errno (e : option sd_bus_error) : option errno :=
  match e with
  | Some (BusError (Some n) _ _) => Some (bus_error_name_to_errno (Some n))
  | _ => None
  end.

(** Setting an error that is not set yet to [v]. *)
Definition error_assign (e : option sd_bus_error) (v : sd_bus_error) (r : res unit) :
    res unit * option sd_bus_error :=
  match e with
  | None => (r, e)
  | Some _ => if bus_error_is_dirty e then (Err EINVAL, e) else (r, Some v)
  end.

Definition sd_bus_error_set (e : option sd_bus_error) (name message : option cstr) :
    res unit * option sd_bus_error :=
  match name with
  | None => (Ok tt, e)
  | Some _ => error_assign e (BusError name message 1) (Err (bus_error_name_to_errno name))
  end.

(** [sd_bus_error_setf], its text formatted *)
Definition sd_bus_error_setf := sd_bus_error_set.

Definition sd_bus_error_set_const (e : option sd_bus_error) (name message : option cstr) :
    res unit * option sd_bus_error :=
  match name with
  | None => (Ok tt, e)
  | Some n => error_assign e (SD_BUS_ERROR_MAKE_CONST n message) (Err (bus_error_name_to_errno name))
  end.

Definition sd_bus_error_copy (dest e : option sd_bus_error) : res unit * option sd_bus_error :=
  match e with
  | Some (BusError (Some n) m k) =>
      error_assign dest (BusError (Some n) m (if k =? 0 then 0 else 1))
        (Err (bus_error_name_to_errno (Some n)))
  | _ => (Ok tt, dest)
  end.

(** [dest] and [e] afterwards *)
Definition sd_bus_error_move (dest e : option sd_bus_error) :
    res unit * option sd_bus_error * option sd_bus_error :=
  match e with
  | Some (BusError (Some n) m k) =>
      (Err (bus_error_name_to_errno (Some n)), const (BusError (Some n) m k) <$> dest, Some SD_BUS_ERROR_NULL)
  | _ => (Ok tt, const SD_BUS_ERROR_NULL <$> dest, e)
  end.

(** The text of the number; the buffer's growth is not modelled. *)
Definition bus_error_strerror (e : sd_bus_error) (error : errno) : sd_bus_error :=
  let '(x, in_buffer) := strerror error in
  BusError (e_name e) (Some x) (if in_buffer : bool then 1 else need_free e).

(** The name an error number is given *)
Definition errno_error (error : errno) : sd_bus_error :=
  let c := errno_to_bus_error_const error in
  if sd_bus_error_is_set (Some c) then c
  else match errno_to_bus_error_name_new error with
       | Some n => BusError (Some n) (e_message c) 1
       | None => BUS_ERROR_FAILED
       end.

(** [error] is [None] for 0. *)
Definition sd_bus_error_set_errno (e : option sd_bus_error) (error : option errno) :
    res unit * option sd_bus_error :=
  match error with
  | None => (Ok tt, e)
  | Some error => error_assign e (bus_error_strerror (errno_error error) error) (Err error)
  end.

(** With a text; [vasprintf] gives [message]. *)
Definition sd_bus_error_set_errnofv (e : option sd_bus_error) (error : option errno) (message : option cstr) :
    res unit * option sd_bus_error :=
  match error with
  | None => (Ok tt, e)
  | Some error =>
      let v := errno_error error in
      error_assign e
        (match message with
         | Some m => BusError (e_name v) (Some m) 1
         | None => bus_error_strerror v error
         end) (Err error)
  end.

Definition bus_error_message (e : option sd_bus_error) (error : errno) : cstr :=
  match e with
  | Some e =>
      if bool_decide (e_name e = Some SD_BUS_ERROR_ACCESS_DENIED) then bs "Access denied"
      else default (fst (strerror error)) (e_message e)
  | None => fst (strerror error)
  end.

(** ** Facts *)

(** The number an error that was set from a number is translated back to. Some
    numbers share a name, and a number without one counts as a failure. *)
Definition canonical (e : errno) : errno :=
  match e with
  | EPERM => EACCES
  | ETIME => ETIMEDOUT
  | ENETRESET | ECONNABORTED => ECONNRESET
  | ENOTSUP => EOPNOTSUPP
  | _ => if sd_bus_error_is_set (Some (errno_to_bus_error_const e)) then e
         else match errno_to_name e with Some _ => e | None => EACCES end
  end.

(** Nothing that was registered hides a name of the library's own. *)
Definition maps_disjoint : Prop :=
  Forall (fun x => find_in_maps additional_error_maps (fst x) = None) bus_standard_errors.

Lemma find_in_maps_app l1 l2 n :
  find_in_maps (l1 ++ l2) n =
  match find_in_maps l1 n with Some e => Some e | None => find_in_maps l2 n end.
Proof. induction l1 as [|m l1 IH]; [done|]. simpl. by destruct (find_name m n). Qed.

Lemma standard_name n e :
  maps_disjoint -> find_name bus_standard_errors n = Some e ->
  startswith n (bs "System.Error.") = None -> bus_error_name_to_errno (Some n) = e.
Proof.
  intros Hd Hf Hs. unfold bus_error_name_to_errno. rewrite Hs, find_in_maps_app.
  assert (find_in_maps additional_error_maps n = None) as ->.
  { unfold maps_disjoint in Hd. revert Hf Hd. generalize bus_standard_errors. intros m.
    induction m as [|[k v] m IH]; [done|]. simpl. intros Hf. rewrite Forall_cons. intros [H1 H2].
    destruct (streq k n) eqn:E; [|by apply IH]. apply streq_spec in E as ->. done. }
  cbn [find_in_maps]. by rewrite Hf.
Qed.

(** C13. Error numbers survive the translation to a D-Bus error: what is set with
    [sd_bus_error_set_errno] on an error that is not set yet always has a name,
    returns the negative number, and translates back to the same number, save
    the few that share a name and those that have none; copying and moving it
    keeps the name, the text and the number. *)
Theorem errno_roundtrip `{!ErrnoTableLaws} e error :
  maps_disjoint -> bus_error_is_dirty (Some e) = false ->
  exists e', sd_bus_error_set_errno (Some e) (Some error) = (Err error, Some e') /\
    sd_bus_error_is_set (Some e') = true /\
    sd_bus_error_get_errno (Some e') = Some (canonical error) /\
    exists c, sd_bus_error_copy (Some e) (Some e') = (Err (canonical error), Some c) /\
      e_name c = e_name e' /\ e_message c = e_message e' /\
      sd_bus_error_move (Some e) (Some e') = (Err (canonical error), Some e', Some SD_BUS_ERROR_NULL).
Proof.
  intros Hd He. unfold sd_bus_error_set_errno, error_assign. rewrite He.
  set (e' := bus_error_strerror (errno_error error) error). exists e'. split; [done|].
  assert (exists n, e_name e' = Some n /\ bus_error_name_to_errno (Some n) = canonical error) as (n & Hn & Hr).
  { assert (e_name e' = e_name (errno_error error)) as ->.
    { unfold e', bus_error_strerror. by destruct (strerror error). }
    unfold errno_error, canonical, errno_to_bus_error_name_new.
    destruct error; cbn [errno_to_bus_error_const];
      try (eexists; split; [reflexivity|]; by apply standard_name);
      (destruct (errno_to_name _) as [s|] eqn:E; cbn -[bs];
        [exists (bs "System.Error." ++ s); split; [done|];
         unfold bus_error_name_to_errno; rewrite startswith_app; by rewrite (errno_from_to _ _ E)
        |eexists; split; [reflexivity|]; by apply standard_name]). }
  destruct e' as [n' m k]. cbn [e_name] in Hn. subst n'. split; [done|]. split.
  { cbn [sd_bus_error_get_errno]. by rewrite Hr. }
  eexists. split.
  { unfold sd_bus_error_copy, error_assign. rewrite He, Hr. reflexivity. }
  split; [done|]. split; [done|]. unfold sd_bus_error_move. by rewrite Hr.
Qed.

End Errors.
