(* ===== verification/Utf8.v ===== *)
(** * UTF-8 validation ([src/basic/utf8.c])

    The decoder and validator, against the encoding of Unicode code points. *)
From S2P Require Import Prelude HexDecOct.

(** [unichar_is_valid] *)
Definition unichar_is_valid (c : Z) : bool :=
  if 0x110000 <=? c then false
  else if Z.land c 0xFFFFF800 =? 0xD800 then false
  else if (0xFDD0 <=? c) && (c <=? 0xFDEF) then false
  else if Z.land c 0xFFFE =? 0xFFFE then false
  else true.

(** [utf8_encoded_expected_len] *)
Definition utf8_encoded_expected_len (str : cstr) : Z :=
  let c := deref str in
  if c <? 0x80 then 1
  else if Z.land c 0xe0 =? 0xc0 then 2
  else if Z.land c 0xf0 =? 0xe0 then 3
  else if Z.land c 0xf8 =? 0xf0 then 4
  else if Z.land c 0xfc =? 0xf8 then 5
  else if Z.land c 0xfe =? 0xfc then 6
  else 0.

(** [utf8_encoded_to_unichar]; the loop reads [str[i]] for [1 <= i < len]. *)
Fixpoint continuation_loop (n : nat) (p : cstr) (unichar : Z) : res Z :=
  match n with
  | O => Ok unichar
  | S n =>
      if negb (Z.land (deref p) 0xc0 =? 0x80) then Err EINVAL
      else continuation_loop n (tail p)
             (Z.lor (wrap32 (Z.shiftl unichar 6)) (Z.land (deref p) 0x3f))
  end.

Definition utf8_encoded_to_unichar (str : cstr) : res Z :=
  let c := deref str in
  match utf8_encoded_expected_len str with
  | 1 => Ok c
  | 2 => continuation_loop 1 (tail str) (Z.land c 0x1f)
  | 3 => continuation_loop 2 (tail str) (Z.land c 0x0f)
  | 4 => continuation_loop 3 (tail str) (Z.land c 0x07)
  | 5 => continuation_loop 4 (tail str) (Z.land c 0x03)
  | 6 => continuation_loop 5 (tail str) (Z.land c 0x01)
  | _ => Err EINVAL
  end.

(** [utf8_unichar_to_encoded_len] *)
Definition utf8_unichar_to_encoded_len (u : Z) : Z :=
  if u <? 0x80 then 1
  else if u <? 0x800 then 2
  else if u <? 0x10000 then 3
  else if u <? 0x200000 then 4
  else if u <? 0x4000000 then 5
  else 6.

(** [utf8_encoded_valid_unichar] *)
Definition utf8_encoded_valid_unichar (str : cstr) : res Z :=
  let len := utf8_encoded_expected_len str in
  if len =? 0 then Err EINVAL
  else if len =? 1 then Ok 1
  else if negb (forallb (fun i => Z.land (char_at str i) 0x80 =? 0x80)
                  (seq 0 (Z.to_nat len))) then Err EINVAL
  else
    unichar ← utf8_encoded_to_unichar str;
    if negb (utf8_unichar_to_encoded_len unichar =? len) then Err EINVAL
    else if negb (unichar_is_valid unichar) then Err EINVAL
    else Ok len.

(** [utf8_is_valid] *)
Fixpoint utf8_valid_loop (fuel : nat) (p : cstr) : bool :=
  match fuel with
  | O => false
  | S fuel =>
      if deref p =? 0 then true
      else match utf8_encoded_valid_unichar p with
           | Err _ => false
           | Ok len => utf8_valid_loop fuel (drop (Z.to_nat len) p)
           end
  end.

Definition utf8_is_valid (str : cstr) : bool := utf8_valid_loop (length str + 1) str.

(** [ascii_is_valid_n]; [str] holds the [len] bytes. *)
Definition ascii_is_valid_n (str : list Z) : bool :=
  forallb (fun c => negb ((128 <=? c) || (c =? 0))) str.

(** ** The encoding *)
Definition utf8_encode (u : Z) : list Z :=
  if u <? 0x80 then [u]
  else if u <? 0x800 then [0xc0 + u / 64; 0x80 + u mod 64]
  else if u <? 0x10000 then [0xe0 + u / 4096; 0x80 + u / 64 mod 64; 0x80 + u mod 64]
  else [0xf0 + u / 262144; 0x80 + u / 4096 mod 64; 0x80 + u / 64 mod 64; 0x80 + u mod 64].

(** The code points the library lets through: no surrogates, no noncharacters
    FDD0..FDEF nor those ending in FFFE or FFFF, not NUL. *)
Definition code_point (u : Z) : Prop :=
  0 < u < 0x110000 /\ ~ (0xD800 <= u < 0xE000) /\
  ~ (0xFDD0 <= u <= 0xFDEF) /\ u mod 65536 < 0xFFFE.

(** ** Bit tests as ranges *)
Lemma lead_tests c : is_byte c ->
  (Z.land c 0xe0 =? 0xc0) = (0xc0 <=? c) && (c <? 0xe0) /\
  (Z.land c 0xf0 =? 0xe0) = (0xe0 <=? c) && (c <? 0xf0) /\
  (Z.land c 0xf8 =? 0xf0) = (0xf0 <=? c) && (c <? 0xf8) /\
  (Z.land c 0xfc =? 0xf8) = (0xf8 <=? c) && (c <? 0xfc) /\
  (Z.land c 0xfe =? 0xfc) = (0xfc <=? c) && (c <? 0xfe) /\
  (Z.land c 0xc0 =? 0x80) = (0x80 <=? c) && (c <? 0xc0) /\
  (Z.land c 0x80 =? 0x80) = (0x80 <=? c).
Proof.
  revert c. apply (below_ind 256 (fun c =>
  (Z.land c 0xe0 =? 0xc0) = (0xc0 <=? c) && (c <? 0xe0) /\
  (Z.land c 0xf0 =? 0xe0) = (0xe0 <=? c) && (c <? 0xf0) /\
  (Z.land c 0xf8 =? 0xf0) = (0xf0 <=? c) && (c <? 0xf8) /\
  (Z.land c 0xfc =? 0xf8) = (0xf8 <=? c) && (c <? 0xfc) /\
  (Z.land c 0xfe =? 0xfc) = (0xfc <=? c) && (c <? 0xfe) /\
  (Z.land c 0xc0 =? 0x80) = (0x80 <=? c) && (c <? 0xc0) /\
  (Z.land c 0x80 =? 0x80) = (0x80 <=? c))). vm_compute. reflexivity.
Qed.

Lemma land_low x n : 0 <= n -> Z.land x (2 ^ n - 1) = x mod 2 ^ n.
Proof.
  intros. replace (2 ^ n - 1) with (Z.ones n) by (rewrite Z.ones_equiv; lia).
  by apply Z.land_ones.
Qed.

(** Appending six bits, as the loop does. *)
Lemma append_six u b :
  0 <= u < 2 ^ 26 -> Z.lor (wrap32 (Z.shiftl u 6)) (Z.land b 0x3f) = u * 64 + b mod 64.
Proof.
  intros Hu. rewrite Z.shiftl_mul_pow2 by lia. change (2 ^ 6) with 64.
  rewrite wrap_small by lia. change 63 with (2 ^ 6 - 1). rewrite land_low by lia.
  change (2 ^ 6) with 64.
  pose proof (Z.mod_pos_bound b 64 ltac:(lia)) as Hb.
  assert (Z.land (u * 64) (b mod 64) = 0) as Hd.
  { apply Z.bits_inj'. intros i Hi. rewrite Z.land_spec, Z.bits_0.
    destruct (decide (i < 6)).
    - change 64 with (2 ^ 6) at 1. by rewrite Z.mul_pow2_bits_low.
    - change 64 with (2 ^ 6) at 2. rewrite Z.mod_pow2_bits_high by lia.
      apply andb_false_r. }
  pose proof (Z.add_lor_land (u * 64) (b mod 64)). lia.
Qed.

(** The bit tests of [unichar_is_valid] are the ranges of [code_point]. *)
Lemma surrogate_test u :
  0 <= u < 0x110000 ->
  (Z.land u 0xFFFFF800 =? 0xD800) = (0xD800 <=? u) && (u <? 0xE000).
Proof.
  intros Hu.
  assert (Z.land u 0xFFFFF800 = u / 2048 * 2048) as ->.
  { transitivity (Z.land u (Z.lnot (2 ^ 11 - 1))).
    - apply Z.bits_inj'. intros i Hi. rewrite !Z.land_spec.
      destruct (decide (i < 32)).
      + f_equal. change 0xFFFFF800 with (wrap32 (Z.lnot (2 ^ 11 - 1))).
        unfold wrap. by rewrite Z.mod_pow2_bits_low.
      + rewrite <- (Z.mod_small u (2 ^ 32)) by lia.
        by rewrite Z.mod_pow2_bits_high by lia.
    - rewrite land_lnot_ones by lia. done. }
  pose proof (Z.div_mod u 2048 ltac:(lia)).
  pose proof (Z.mod_pos_bound u 2048 ltac:(lia)).
  destruct (0xD800 <=? u) eqn:E1, (u <? 0xE000) eqn:E2; simpl; ztests;
    first [apply Z.eqb_eq | apply Z.eqb_neq]; lia.
Qed.

Lemma nonchar_test u :
  0 <= u -> (Z.land u 0xFFFE =? 0xFFFE) = (0xFFFE <=? u mod 65536).
Proof.
  intros Hu.
  assert (Z.land u 0xFFFE = u mod 65536 / 2 * 2) as ->.
  { transitivity (Z.land (u mod 2 ^ 16) (Z.lnot (2 ^ 1 - 1))).
    - rewrite <- Z.land_ones, <- Z.land_assoc by lia. done.
    - rewrite land_lnot_ones; [done|lia|]. apply Z.mod_pos_bound. lia. }
  pose proof (Z.mod_pos_bound u 65536 ltac:(lia)).
  pose proof (Z.div_mod (u mod 65536) 2 ltac:(lia)).
  pose proof (Z.mod_pos_bound (u mod 65536) 2 ltac:(lia)).
  destruct (0xFFFE <=? u mod 65536) eqn:E; ztests;
    first [apply Z.eqb_eq | apply Z.eqb_neq]; lia.
Qed.

Lemma unichar_is_valid_spec u :
  0 < u -> unichar_is_valid u = true <-> code_point u.
Proof.
  intros Hu. unfold unichar_is_valid, code_point.
  destruct (0x110000 <=? u) eqn:E; ztests; [split; [done|lia]|].
  rewrite surrogate_test, nonchar_test by lia.
  destruct (_ && (u <? 0xE000)) eqn:E1; [split; [done|lia]|].
  destruct (_ && (u <=? 0xFDEF)) eqn:E2; [split; [done|lia]|].
  destruct (0xFFFE <=? u mod 65536) eqn:E3; split; try done; lia.
Qed.

(** ** One encoded character *)
Definition cont (b : Z) : Prop := 0x80 <= b < 0xc0.

Lemma continuation_step n p u v :
  Forall is_byte p -> 0 <= u < 2 ^ 26 ->
  continuation_loop (S n) p u = Ok v <->
  exists b p', p = b :: p' /\ cont b /\
    continuation_loop n p' (u * 64 + (b - 0x80)) = Ok v.
Proof.
  intros Hp Hu. cbn [continuation_loop]. destruct p as [|b p].
  { simpl. split; [done|]. intros (? & ? & [=] & _). }
  inversion Hp as [|? ? Hb Hp']; subst. cbn [deref tail].
  destruct (lead_tests b Hb) as (_ & _ & _ & _ & _ & -> & _).
  rewrite append_six by done.
  destruct (_ && _) eqn:E; simpl; ztests.
  - replace (b mod 64) with (b - 0x80).
    2:{ rewrite <- (Z.mod_add b (-2) 64) by lia. symmetry. apply Z.mod_small. lia. }
    split; [intros; exists b, p; repeat split; try done; lia|].
    by intros (? & ? & [= <- <-] & _ & ?).
  - split; [done|]. intros (? & ? & [= <- <-] & [? ?] & _). lia.
Qed.

(** The first [n] bytes of the string start a character of length [n], and the
    value they decode to. *)
Inductive encoded_as : Z -> cstr -> Z -> Prop :=
  | enc2 c b r : 0xc0 <= c < 0xe0 -> cont b ->
      encoded_as 2 (c :: b :: r) ((c - 0xc0) * 64 + (b - 0x80))
  | enc3 c b1 b2 r : 0xe0 <= c < 0xf0 -> cont b1 -> cont b2 ->
      encoded_as 3 (c :: b1 :: b2 :: r)
        (((c - 0xe0) * 64 + (b1 - 0x80)) * 64 + (b2 - 0x80))
  | enc4 c b1 b2 b3 r : 0xf0 <= c < 0xf8 -> cont b1 -> cont b2 -> cont b3 ->
      encoded_as 4 (c :: b1 :: b2 :: b3 :: r)
        ((((c - 0xf0) * 64 + (b1 - 0x80)) * 64 + (b2 - 0x80)) * 64 + (b3 - 0x80)).

Lemma expected_len_cases c p : is_byte c ->
  utf8_encoded_expected_len (c :: p) =
    if c <? 0x80 then 1 else if c <? 0xc0 then 0 else if c <? 0xe0 then 2
    else if c <? 0xf0 then 3 else if c <? 0xf8 then 4 else if c <? 0xfc then 5
    else if c <? 0xfe then 6 else 0.
Proof.
  intros Hc. unfold utf8_encoded_expected_len. cbn [deref]. unfold is_byte in Hc.
  destruct (lead_tests c Hc) as (-> & -> & -> & -> & -> & _).
  repeat case_match; try done; ztests; lia.
Qed.

Lemma lead_mask c n lo :
  0 <= n -> (2 ^ n | lo) -> lo <= c < lo + 2 ^ n -> Z.land c (2 ^ n - 1) = c - lo.
Proof.
  intros Hn [k ->] Hc. rewrite land_low by done.
  replace c with (c - k * 2 ^ n + k * 2 ^ n) at 1 by lia.
  rewrite Z.mod_add by (apply Z.pow_nonzero; lia). apply Z.mod_small. lia.
Qed.

Lemma forallb_seq_shift p n : forallb (fun i => Z.land (char_at p i) 0x80 =? 0x80) (seq 0 (S n)) =
  (Z.land (deref p) 0x80 =? 0x80) &&
  forallb (fun i => Z.land (char_at (tail p) i) 0x80 =? 0x80) (seq 0 n).
Proof.
  cbn [seq forallb]. unfold char_at at 1. rewrite drop_0. f_equal.
  rewrite <- seq_shift. induction (seq 0 n) as [|i l IH]; [done|]. simpl. rewrite IH. f_equal.
  unfold char_at. destruct p; simpl; [by rewrite drop_nil|done].
Qed.

Lemma encoded_avail n s u :
  encoded_as n s u ->
  Forall is_byte s -> 
  forallb (fun i => Z.land (char_at s i) 0x80 =? 0x80) (seq 0 (Z.to_nat n)) = true.
Proof.
  assert (forall c, is_byte c -> 0x80 <= c -> Z.land c 0x80 =? 0x80 = true) as Ht.
  { intros c Hc Hge. destruct (lead_tests c Hc) as (_ & _ & _ & _ & _ & _ & ->). lia. }
  destruct 1; intros Hs; repeat match goal with
    H : Forall is_byte (_ :: _) |- _ => inversion H; clear H; subst end;
  unfold cont in *;
  [change (Z.to_nat 2) with 2%nat|change (Z.to_nat 3) with 3%nat|change (Z.to_nat 4) with 4%nat];
  rewrite !forallb_seq_shift; cbn [deref tail]; rewrite !Ht by (done || lia); done.
Qed.

(** The decoder on a well-shaped character. *)
Lemma to_unichar_encoded n s u :
  Forall is_byte s -> encoded_as n s u ->
  utf8_encoded_expected_len s = n /\ utf8_encoded_to_unichar s = Ok u.
Proof.
  intros Hs He. assert (utf8_encoded_expected_len s = n) as Hn.
  { destruct He; inversion Hs; subst; rewrite expected_len_cases by done;
      repeat case_match; ztests; try done; lia. }
  split; [done|]. unfold utf8_encoded_to_unichar. rewrite Hn.
  destruct He; inversion Hs as [|? ? Hc Hs1]; subst; cbn [deref tail]; unfold is_byte in Hc.
  - change 0x1f with (2 ^ 5 - 1). rewrite (lead_mask c 5 0xc0); [|lia|by exists 6|lia].
    apply continuation_step; [done|lia|]. by exists b, r.
  - change 0x0f with (2 ^ 4 - 1). rewrite (lead_mask c 4 0xe0); [|lia|by exists 14|lia].
    unfold cont in *. inversion Hs1; subst.
    apply continuation_step; [done|lia|]. exists b1, (b2 :: r). split; [done|]. split; [done|].
    apply continuation_step; [done|lia|]. by exists b2, r.
  - change 0x07 with (2 ^ 3 - 1). rewrite (lead_mask c 3 0xf0); [|lia|by exists 30|lia].
    unfold cont in *. inversion Hs1 as [|? ? ? Hs2]; subst. inversion Hs2; subst.
    apply continuation_step; [done|lia|]. exists b1, (b2 :: b3 :: r). split; [done|]. split; [done|].
    apply continuation_step; [done|lia|]. exists b2, (b3 :: r). split; [done|]. split; [done|].
    apply continuation_step; [done|lia|]. by exists b3, r.
Qed.

Lemma valid_unichar_encoded n s u :
  Forall is_byte s -> encoded_as n s u ->
  utf8_encoded_valid_unichar s =
    if (utf8_unichar_to_encoded_len u =? n) && unichar_is_valid u then Ok n else Err EINVAL.
Proof.
  intros Hs He. destruct (to_unichar_encoded n s u Hs He) as [Hn Hu].
  unfold utf8_encoded_valid_unichar. rewrite Hn, Hu.
  rewrite (encoded_avail n s u He Hs).
  assert (n =? 0 = false /\ n =? 1 = false) as [-> ->] by (destruct He; done).
  simpl. destruct (_ =? n); simpl; [|done]. by destruct (unichar_is_valid u).
Qed.

Ltac continuation_inv H :=
  apply continuation_step in H; [|by eauto using Forall_inv_tail|lia];
  destruct H as (? & ? & -> & ? & H).

Lemma valid_unichar_inv c p n :
  Forall is_byte (c :: p) -> 0x80 <= c ->
  utf8_encoded_valid_unichar (c :: p) = Ok n ->
  exists u, encoded_as n (c :: p) u.
Proof.
  intros Hs Hc. inversion Hs as [|? ? Hb Hp]; subst. unfold is_byte in Hb.
  unfold utf8_encoded_valid_unichar.
  destruct (_ =? 0) eqn:E0; [done|]. destruct (_ =? 1) eqn:E1.
  { rewrite expected_len_cases in E1 by done. ztests. repeat case_match; ztests; lia. }
  destruct (negb _); [done|]. intros H. res_inv.
  destruct (negb (utf8_unichar_to_encoded_len x =? _)) eqn:El; [done|].
  destruct (negb (unichar_is_valid x)) eqn:Ev; [done|].
  injection H as <-. ztests.
  unfold unichar_is_valid in Ev. destruct (0x110000 <=? x) eqn:Eb; [done|]. ztests. clear Ev.
  unfold utf8_encoded_to_unichar in H0.
  rewrite expected_len_cases in * by done. cbn [deref tail] in H0.
  destruct (c <? 0x80) eqn:Ec0; [ztests; lia|].
  destruct (c <? 0xc0) eqn:Ec1; [done|].
  destruct (c <? 0xe0) eqn:Ec2; [|destruct (c <? 0xf0) eqn:Ec3; [|destruct (c <? 0xf8) eqn:Ec4]].
  - change 0x1f with (2 ^ 5 - 1) in H0. ztests.
    rewrite (lead_mask c 5 0xc0) in H0; [|lia|by exists 6|lia].
    continuation_inv H0. injection H0 as <-. eexists. constructor; [lia|done].
  - change 0x0f with (2 ^ 4 - 1) in H0. ztests.
    rewrite (lead_mask c 4 0xe0) in H0; [|lia|by exists 14|lia].
    continuation_inv H0. unfold cont in *.
    apply Forall_inv_tail in Hp.
    continuation_inv H0. injection H0 as <-. eexists. constructor; unfold cont; [lia|done|done].
  - change 0x07 with (2 ^ 3 - 1) in H0. ztests.
    rewrite (lead_mask c 3 0xf0) in H0; [|lia|by exists 30|lia].
    continuation_inv H0. unfold cont in *. apply Forall_inv_tail in Hp.
    continuation_inv H0. unfold cont in *. apply Forall_inv_tail in Hp.
    continuation_inv H0. injection H0 as <-. eexists. constructor; unfold cont; [lia|done..].
  - exfalso. unfold utf8_unichar_to_encoded_len in El.
    repeat case_match; ztests; simplify_eq; lia.
Qed.

(** What the decoder's value says about the encoding, and conversely. *)
Lemma encoded_as_encode n s u :
  encoded_as n s u -> utf8_unichar_to_encoded_len u = n ->
  exists r, s = utf8_encode u ++ r /\ n = zlen (utf8_encode u).
Proof.
  unfold utf8_unichar_to_encoded_len, utf8_encode, zlen, cont.
  destruct 1; intros Hl; exists r.
  - destruct (_ <? 0x80) eqn:E0; [done|]. destruct (_ <? 0x800) eqn:E1; [|repeat case_match; done].
    split; [|done]. unfold cont in *. simpl app. repeat f_equal; Z.div_mod_to_equations; lia.
  - destruct (_ <? 0x80) eqn:E0; [done|]. destruct (_ <? 0x800) eqn:E1; [done|].
    destruct (_ <? 0x10000) eqn:E2; [|repeat case_match; done].
    split; [|done]. unfold cont in *. simpl app. repeat f_equal; Z.div_mod_to_equations; lia.
  - destruct (_ <? 0x80) eqn:E0; [done|]. destruct (_ <? 0x800) eqn:E1; [done|].
    destruct (_ <? 0x10000) eqn:E2; [done|].
    split; [|done]. unfold cont in *. simpl app. repeat f_equal; Z.div_mod_to_equations; lia.
Qed.

Lemma encode_encoded_as u r :
  0x80 <= u < 0x110000 ->
  encoded_as (zlen (utf8_encode u)) (utf8_encode u ++ r) u /\
  utf8_unichar_to_encoded_len u = zlen (utf8_encode u).
Proof.
  intros Hu. unfold utf8_unichar_to_encoded_len, utf8_encode.
  destruct (u <? 0x80) eqn:E0; ztests; [lia|].
  destruct (u <? 0x800) eqn:E1; ztests; [|destruct (u <? 0x10000) eqn:E2; ztests].
  - split; [|done]. change (zlen _) with 2. simpl app.
    replace u with ((0xc0 + u / 64 - 0xc0) * 64 + (0x80 + u mod 64 - 0x80)) at 3
      by (Z.div_mod_to_equations; lia).
    constructor; unfold cont; Z.div_mod_to_equations; lia.
  - split; [|done]. change (zlen _) with 3. simpl app.
    replace u with (((0xe0 + u / 4096 - 0xe0) * 64 + (0x80 + u / 64 mod 64 - 0x80)) * 64
      + (0x80 + u mod 64 - 0x80)) at 4 by (Z.div_mod_to_equations; lia).
    constructor; unfold cont; Z.div_mod_to_equations; lia.
  - assert (u <? 0x200000 = true) as -> by lia.
    split; [|done]. change (zlen _) with 4. simpl app.
    replace u with ((((0xf0 + u / 262144 - 0xf0) * 64 + (0x80 + u / 4096 mod 64 - 0x80)) * 64
      + (0x80 + u / 64 mod 64 - 0x80)) * 64 + (0x80 + u mod 64 - 0x80)) at 5
      by (Z.div_mod_to_equations; lia).
    constructor; unfold cont; Z.div_mod_to_equations; lia.
Qed.

Lemma utf8_encode_nonempty u : 0 < u -> exists c p, utf8_encode u = c :: p /\ 0 < c.
Proof.
  intros. unfold utf8_encode. repeat case_match; ztests; eexists _, _; (split; [reflexivity|]);
    Z.div_mod_to_equations; lia.
Qed.

(** [utf8_encoded_valid_unichar] finds exactly the encoded code points. *)
Lemma valid_unichar_spec s n :
  is_cstr s -> s <> [] ->
  utf8_encoded_valid_unichar s = Ok n <->
  exists u r, code_point u /\ s = utf8_encode u ++ r /\ n = zlen (utf8_encode u).
Proof.
  intros Hs Hne. assert (Forall is_byte s) as Hb
    by (eapply Forall_impl; [exact Hs|]; unfold is_byte; lia).
  destruct s as [|c p]; [done|]. inversion Hs as [|? ? Hc _]; subst.
  destruct (decide (c < 0x80)) as [Hlt|Hge].
  - assert (utf8_encoded_valid_unichar (c :: p) = Ok 1) as ->.
    { unfold utf8_encoded_valid_unichar. rewrite expected_len_cases by (unfold is_byte; lia).
      assert (c <? 0x80 = true) as -> by lia. done. }
    assert (utf8_encode c = [c]) as Hce.
    { unfold utf8_encode. assert (c <? 0x80 = true) as -> by lia. done. }
    split.
    + intros [= <-]. exists c, p. rewrite Hce. split; [|done].
      unfold code_point. rewrite Z.mod_small by lia. lia.
    + intros (u & r & Hu & Hs' & ->). unfold code_point in Hu.
      destruct (decide (u < 0x80)).
      { unfold utf8_encode. assert (u <? 0x80 = true) as -> by lia. done. }
      destruct (encode_encoded_as u r) as [He _]; [lia|].
      rewrite <- Hs' in He. inversion He; subst; lia.
  - split.
    + intros H. destruct (valid_unichar_inv c p n Hb ltac:(lia) H) as [u Hu].
      rewrite (valid_unichar_encoded n _ u Hb Hu) in H.
      destruct (_ && _) eqn:E; [|done]. ztests.
      destruct (encoded_as_encode n _ u Hu H0) as (r & -> & ->).
      exists u, r. split; [|done]. apply unichar_is_valid_spec; [|done].
      destruct Hu; unfold cont in *; simpl in *; unfold utf8_unichar_to_encoded_len in *;
        repeat case_match; ztests; try done; lia.
    + intros (u & r & Hu & Hs' & ->).
      assert (0x80 <= u).
      { destruct (decide (u < 0x80)) as [Hl|]; [|lia]. unfold utf8_encode in Hs'.
        assert (u <? 0x80 = true) as E by lia. rewrite E in Hs'.
        injection Hs' as -> _. lia. }
      destruct (encode_encoded_as u r) as [He Hl]; [unfold code_point in Hu; lia|].
      rewrite <- Hs' in He. rewrite (valid_unichar_encoded _ _ u Hb He), Hl, Z.eqb_refl.
      rewrite (proj2 (unichar_is_valid_spec u ltac:(lia)) Hu). done.
Qed.

Lemma utf8_valid_loop_sound f p :
  is_cstr p -> utf8_valid_loop f p = true ->
  exists us, Forall code_point us /\ p = concat (map utf8_encode us).
Proof.
  revert p. induction f as [|f IH]; intros p Hp; [done|]. cbn [utf8_valid_loop].
  destruct (Z.eqb_spec (deref p) 0) as [E|E].
  { intros _. exists []. split; [constructor|]. destruct p; [done|].
    inversion Hp; subst. simpl in E. lia. }
  destruct (utf8_encoded_valid_unichar p) as [n|] eqn:Ev; [|done].
  assert (p <> []) as Hne by (by intros ->).
  apply valid_unichar_spec in Ev as (u & r & Hu & -> & ->); [|done|done].
  unfold zlen. rewrite Nat2Z.id, drop_app_length.
  apply Forall_app in Hp as [_ Hr]. intros (us & Hus & ->)%IH; [|done].
  exists (u :: us). split; [by constructor|done].
Qed.

Lemma utf8_valid_loop_complete us f :
  is_cstr (concat (map utf8_encode us)) -> Forall code_point us ->
  (length (concat (map utf8_encode us)) < f)%nat ->
  utf8_valid_loop f (concat (map utf8_encode us)) = true.
Proof.
  revert f. induction us as [|u us IH]; intros f Hs Hus Hf;
    (destruct f as [|f]; [lia|]); [done|]. cbn [utf8_valid_loop concat map] in *.
  inversion Hus as [|? ? Hu Hus']; subst.
  destruct (utf8_encode_nonempty u) as (c & q & E & Hc); [unfold code_point in Hu; lia|].
  assert (deref (utf8_encode u ++ concat (map utf8_encode us)) =? 0 = false) as ->.
  { rewrite E. simpl. apply Z.eqb_neq. lia. }
  rewrite (proj2 (valid_unichar_spec _ (zlen (utf8_encode u)) Hs ltac:(by rewrite E))).
  - unfold zlen. rewrite Nat2Z.id, drop_app_length. apply IH; [|done|].
    + by apply Forall_app in Hs as [_ ?].
    + rewrite length_app, E in Hf. simpl in Hf. lia.
  - by exists u, (concat (map utf8_encode us)).
Qed.

(** C31. [utf8_is_valid] accepts a C string exactly when it is the UTF-8 encoding
    of a sequence of code points the library allows: shortest form, at most four
    bytes, no surrogate and no noncharacter. [utf8_encoded_valid_unichar] gives
    the length of the first one. *)
Theorem utf8_is_valid_spec s :
  is_cstr s ->
  (utf8_is_valid s = true <->
   exists us, Forall code_point us /\ s = concat (map utf8_encode us)) /\
  (forall n, s <> [] ->
   utf8_encoded_valid_unichar s = Ok n <->
   exists u r, code_point u /\ s = utf8_encode u ++ r /\ n = zlen (utf8_encode u)).
Proof.
  intros Hs. split; [|intros; by apply valid_unichar_spec].
  split; [by apply utf8_valid_loop_sound|].
  intros (us & Hus & ->). apply utf8_valid_loop_complete; [done|done|lia].
Qed.

Lemma utf8_is_valid_spec_witness :
  is_cstr [0xe2; 0x82; 0xac; 0x21] /\ utf8_is_valid [0xe2; 0x82; 0xac; 0x21] = true /\
  exists us, Forall code_point us /\ [0xe2; 0x82; 0xac; 0x21] = concat (map utf8_encode us).
Proof.
  assert (is_cstr [0xe2; 0x82; 0xac; 0x21]) as Hs.
  { unfold is_cstr. repeat constructor; vm_compute; auto. }
  split; [done|]. split; [reflexivity|].
  apply (proj1 (proj1 (utf8_is_valid_spec _ Hs)) eq_refl).
Defined.
