(* ===== verification/Gvariant.v ===== *)
(** * GVariant sizes and offsets ([src/libsystemd/sd-bus/bus-gvariant.c])

    Alignment, fixed size and "is it fixed-size" of a signature in the D-Bus 2
    (GVariant) format, and the variable-width offset words. *)
From S2P Require Import Prelude BusType Signature.

(** ** The code

    The three functions walk the complete types of a signature and call
    themselves on the inside of arrays, structs and dict entries. Both the loop
    and the recursion move to a shorter string, so [length s + 1] fuel is
    enough. *)

(** [bus_gvariant_get_alignment]; [alignment] is the running maximum. *)
Fixpoint gvariant_alignment_loop (fuel : nat) (p : cstr) (alignment : Z) : res Z :=
  match fuel with
  | O => Err EASSERT
  | S fuel =>
      let c := deref p in
      if (c =? 0) || negb (alignment <? 8) then Ok alignment
      else
        n ← signature_element_length p;
        a ← (if in_set c [ SD_BUS_TYPE_BYTE; SD_BUS_TYPE_BOOLEAN; SD_BUS_TYPE_STRING;
                           SD_BUS_TYPE_OBJECT_PATH; SD_BUS_TYPE_SIGNATURE ] then Ok 1
             else if in_set c [ SD_BUS_TYPE_INT16; SD_BUS_TYPE_UINT16 ] then Ok 2
             else if in_set c [ SD_BUS_TYPE_INT32; SD_BUS_TYPE_UINT32;
                                SD_BUS_TYPE_UNIX_FD ] then Ok 4
             else if in_set c [ SD_BUS_TYPE_INT64; SD_BUS_TYPE_UINT64;
                                SD_BUS_TYPE_DOUBLE; SD_BUS_TYPE_VARIANT ] then Ok 8
             else if c =? SD_BUS_TYPE_ARRAY then
               gvariant_alignment_loop fuel (take (n - 1) (tail p)) 1
             else if in_set c [ SD_BUS_TYPE_STRUCT_BEGIN; SD_BUS_TYPE_DICT_ENTRY_BEGIN ] then
               gvariant_alignment_loop fuel (take (n - 2) (tail p)) 1
             else Err EASSERT);
        _ ← require ((0 <? a) && (a <=? 8)) EASSERT;
        gvariant_alignment_loop fuel (drop n p) (if alignment <? a then a else alignment)
  end.

Definition bus_gvariant_get_alignment (signature : cstr) : res Z :=
  gvariant_alignment_loop (length signature + 1) signature 1.

(** [bus_gvariant_is_fixed_size] *)
Fixpoint gvariant_fixed_loop (fuel : nat) (p : cstr) : res bool :=
  match fuel with
  | O => Err EASSERT
  | S fuel =>
      let c := deref p in
      if c =? 0 then Ok true
      else
        n ← signature_element_length p;
        if in_set c [ SD_BUS_TYPE_STRING; SD_BUS_TYPE_OBJECT_PATH; SD_BUS_TYPE_SIGNATURE;
                      SD_BUS_TYPE_ARRAY; SD_BUS_TYPE_VARIANT ] then Ok false
        else if in_set c [ SD_BUS_TYPE_BYTE; SD_BUS_TYPE_BOOLEAN; SD_BUS_TYPE_INT16;
                           SD_BUS_TYPE_UINT16; SD_BUS_TYPE_INT32; SD_BUS_TYPE_UINT32;
                           SD_BUS_TYPE_UNIX_FD; SD_BUS_TYPE_INT64; SD_BUS_TYPE_UINT64;
                           SD_BUS_TYPE_DOUBLE ] then gvariant_fixed_loop fuel (drop n p)
        else if in_set c [ SD_BUS_TYPE_STRUCT_BEGIN; SD_BUS_TYPE_DICT_ENTRY_BEGIN ] then
          r ← gvariant_fixed_loop fuel (take (n - 2) (tail p));
          if negb r then Ok false else gvariant_fixed_loop fuel (drop n p)
        else Err EASSERT
  end.

Definition bus_gvariant_is_fixed_size (signature : cstr) : res bool :=
  gvariant_fixed_loop (length signature + 1) signature.

(** [bus_gvariant_get_size]; [whole] is [signature], whose alignment pads the
    sum at the end, [sum] the running size. *)
Fixpoint gvariant_size_loop (fuel : nat) (whole p : cstr) (sum : Z) : res Z :=
  match fuel with
  | O => Err EASSERT
  | S fuel =>
      let c := deref p in
      if c =? 0 then
        r ← bus_gvariant_get_alignment whole; Ok (ALIGN_TO sum r)
      else
        n ← signature_element_length p;
        r ← bus_gvariant_get_alignment (take n p);
        let sum := ALIGN_TO sum r in
        k ← (if in_set c [ SD_BUS_TYPE_BOOLEAN; SD_BUS_TYPE_BYTE ] then Ok 1
             else if in_set c [ SD_BUS_TYPE_INT16; SD_BUS_TYPE_UINT16 ] then Ok 2
             else if in_set c [ SD_BUS_TYPE_INT32; SD_BUS_TYPE_UINT32;
                                SD_BUS_TYPE_UNIX_FD ] then Ok 4
             else if in_set c [ SD_BUS_TYPE_INT64; SD_BUS_TYPE_UINT64;
                                SD_BUS_TYPE_DOUBLE ] then Ok 8
             else if in_set c [ SD_BUS_TYPE_STRUCT_BEGIN; SD_BUS_TYPE_DICT_ENTRY_BEGIN ] then
               if bool_decide (n = 2%nat) then Ok 1
               else gvariant_size_loop fuel (take (n - 2) (tail p)) (take (n - 2) (tail p)) 0
             else if in_set c [ SD_BUS_TYPE_STRING; SD_BUS_TYPE_OBJECT_PATH;
                                SD_BUS_TYPE_SIGNATURE; SD_BUS_TYPE_ARRAY;
                                SD_BUS_TYPE_VARIANT ] then Err EINVAL
             else Err EASSERT);
        gvariant_size_loop fuel whole (drop n p) (sum + k)
  end.

Definition bus_gvariant_get_size (signature : cstr) : res Z :=
  gvariant_size_loop (length signature + 1) signature signature 0.

(** [bus_gvariant_determine_word_size], with the [size_t] wrap-around. *)
Definition bus_gvariant_determine_word_size (sz extra : Z) : Z :=
  if wrap64 (sz + extra) <=? 0xFF then 1
  else if wrap64 (sz + extra * 2) <=? 0xFFFF then 2
  else if wrap64 (sz + extra * 4) <=? 0xFFFFFFFF then 4
  else 8.

(** [bus_gvariant_read_word_le] on the bytes at [p] *)
Definition bus_gvariant_read_word_le (p : list Z) (sz : Z) : res Z :=
  if in_set sz [1; 2; 4; 8] then Ok (le_val (take (Z.to_nat sz) p)) else Err EASSERT.

(** [bus_gvariant_write_word_le]: the bytes stored at [p] *)
Definition bus_gvariant_write_word_le (sz value : Z) : res (list Z) :=
  _ ← require ((sz =? 8) || (value <? 2 ^ (sz * 8))) EASSERT;
  if in_set sz [1; 2; 4; 8] then Ok (le_bytes (Z.to_nat sz) value) else Err EASSERT.

(** ** Consistency of the three walks *)

(** A row of complete types, as the loops meet it. *)
Definition type_row (s : cstr) : Prop :=
  exists ts, s = concat ts /\ Forall (complete_type true 0 0) ts.

Lemma type_row_nil : type_row [].
Proof. by exists []. Qed.

Lemma type_row_step s :
  type_row s -> s <> [] ->
  exists t r, s = t ++ r /\ complete_type true 0 0 t /\ type_row r.
Proof.
  intros (ts & -> & Hts) Hne. destruct Hts as [|t ts Ht Hts]; [done|].
  exists t, (concat ts). split; [done|]. split; [done|]. by exists ts.
Qed.

(** What [signature_is_valid] accepts is such a row. *)
Lemma type_row_valid s : is_cstr s -> signature_is_valid s true = true -> type_row s.
Proof.
  intros Hs H. apply signature_is_valid_spec in H as (ts & -> & Hts & _); [|done].
  by exists ts.
Qed.

(** Nesting limits only shrink going inwards, so the inside of a container is a
    row of complete types at the outermost level again. *)
Lemma complete_type_relax :
  (forall d a s t, complete_type d a s t ->
     forall a' s', 0 <= a' <= a -> 0 <= s' <= s -> complete_type d a' s' t) /\
  (forall k a s t, members k a s t ->
     forall a' s', 0 <= a' <= a -> 0 <= s' <= s -> members k a' s' t).
Proof.
  apply complete_type_members_ind; intros; econstructor; try done; try lia;
    match goal with H : forall a' s', _ |- _ => apply H; lia end.
Qed.

Lemma members_row k a s t :
  members k a s t -> 0 <= a -> 0 <= s -> type_row t.
Proof.
  induction 1 as [|k a s t ts Ht Hts IH]; intros Ha Hs; [apply type_row_nil|].
  destruct (IH Ha Hs) as (ws & -> & Hws). exists (t :: ws). split; [done|].
  constructor; [|done]. eapply complete_type_allow, complete_type_relax; [exact Ht|lia|lia].
Qed.

(** The shapes of a complete type, with what is inside as a row. *)
Inductive type_shape : cstr -> Prop :=
  | shape_basic c : bus_type_is_basic c = true -> type_shape [c]
  | shape_variant : type_shape [SD_BUS_TYPE_VARIANT]
  | shape_array t : complete_type true 0 0 t -> type_shape (SD_BUS_TYPE_ARRAY :: t)
  | shape_nest b e t : type_row t -> t <> [] ->
      (b = SD_BUS_TYPE_STRUCT_BEGIN /\ e = SD_BUS_TYPE_STRUCT_END \/
       b = SD_BUS_TYPE_DICT_ENTRY_BEGIN /\ e = SD_BUS_TYPE_DICT_ENTRY_END) ->
      type_shape (b :: t ++ [e]).

Lemma complete_type_shape t : complete_type true 0 0 t -> type_shape t.
Proof.
  remember true as d; remember 0 as z eqn:Hz. intros H.
  assert (exists a s, a = z /\ s = z /\ complete_type d a s t) as (a & s & Ha & Hs & H')
    by eauto. clear H. subst z d.
  destruct H' as [d a s c Hc|d a s|d a s t Hlt Ht|d a s k t Hlt Hm|a s c t Hlt Hc Ht]; subst.
  - by apply shape_basic.
  - apply shape_variant.
  - apply shape_array. eapply complete_type_relax; [exact Ht|lia|lia].
  - apply shape_nest; [by eapply members_row; [exact Hm|lia|lia]| |by left].
    intros ->. apply members_length in Hm. simpl in Hm. lia.
  - change (c :: t ++ [SD_BUS_TYPE_DICT_ENTRY_END])
      with ((c :: t) ++ [SD_BUS_TYPE_DICT_ENTRY_END]).
    apply shape_nest; [|done|by right].
    exists [[c]; t]. split; [simpl; by rewrite app_nil_r|].
    constructor; [by constructor|]. constructor; [|done].
    eapply complete_type_allow, complete_type_relax; [exact Ht|lia|lia].
Qed.

Lemma element_length_row t r :
  complete_type true 0 0 t -> signature_element_length (t ++ r) = Ok (length t).
Proof. apply sel_prefix. Qed.

(** Stepping over one complete type [t] at the head of [t ++ r]. *)
Lemma take_inner (b e : Z) (t r : cstr) n :
  n = length (b :: t ++ [e]) -> take (n - 2) (tail ((b :: t ++ [e]) ++ r)) = t.
Proof.
  intros ->. simpl. rewrite length_app. simpl.
  replace (length t + 1 - 1)%nat with (length t) by lia.
  rewrite <- app_assoc. by rewrite take_app_length.
Qed.

Lemma ALIGN_TO_divide l a : is_align a -> (a | ALIGN_TO l a).
Proof.
  assert (forall n, 0 <= n <= 16 -> (2 ^ n | ALIGN_TO l (2 ^ n))) as H.
  { intros n Hn. unfold ALIGN_TO. rewrite land_wrap64_lnot by (by apply wrap_bound).
    rewrite land_lnot_ones; [apply Z.divide_factor_r|lia|]. by apply wrap_bound. }
  intros [->|[->|[->| ->]]]; [apply (H 0)|apply (H 1)|apply (H 2)|apply (H 3)]; lia.
Qed.

Lemma is_align_range a : is_align a -> 0 < a <= 8.
Proof. unfold is_align. lia. Qed.

Lemma is_align_max a b : is_align a -> is_align b -> is_align (if a <? b then b else a).
Proof. intros. by case_match. Qed.

Lemma alignment_total f s al :
  type_row s -> (length s < f)%nat -> is_align al ->
  exists a, gvariant_alignment_loop f s al = Ok a /\ is_align a.
Proof.
  revert s al. induction f as [|f IH]; intros s al Hs Hf Hal; [lia|].
  cbn [gvariant_alignment_loop].
  destruct s as [|c0 s0]; [by exists al|].
  destruct (type_row_step _ Hs) as (t & r & E & Ht & Hr); [done|]. rewrite E in *.
  clear E c0 s0.
  destruct (_ || _); [by exists al|].
  rewrite element_length_row by done. cbn [mbind res_bind].
  rewrite drop_app_length. rewrite length_app in Hf.
  assert (forall a, is_align a ->
    exists b, gvariant_alignment_loop f r (if al <? a then a else al) = Ok b /\
      is_align b) as Hk.
  { intros a Ha. apply IH; [done| |by apply is_align_max].
    apply complete_type_length in Ht. lia. }
  destruct (complete_type_shape t Ht) as [c Hc| |t Ht'|b e t Hb Hne Hbe].
  - in_set_cases Hc; simpl; apply Hk; unfold is_align; auto.
  - simpl. apply Hk. unfold is_align; auto.
  - simpl in Hf. destruct (IH t 1) as (a & Ha & Hga); [|lia|by left|].
    + exists [t]. simpl. rewrite app_nil_r. split; [done|]. by constructor.
    + simpl deref. cbn [in_set existsb]. simpl. rewrite Nat.sub_0_r, take_app_length, Ha.
      destruct Hga as [->|[->|[->| ->]]]; apply Hk; unfold is_align; auto.
  - destruct (IH t 1) as (a & Ha & Hga); [done| |by left|].
    + simpl in Hf. rewrite length_app in Hf. simpl in Hf. lia.
    + rewrite (take_inner b e t r) by done.
      destruct Hbe as [[-> ->]|[-> ->]]; simpl; rewrite Ha;
        destruct Hga as [->|[->|[->| ->]]]; apply Hk; unfold is_align; auto.
Qed.

(** The fixed-size test and the size computation agree on every row. *)
Lemma size_fixed_agree f whole s sum :
  type_row whole -> type_row s -> (length s < f)%nat ->
  (gvariant_fixed_loop f s = Ok true /\
     exists k a, gvariant_size_loop f whole s sum = Ok k /\
       bus_gvariant_get_alignment whole = Ok a /\ (a | k)) \/
  (gvariant_fixed_loop f s = Ok false /\ gvariant_size_loop f whole s sum = Err EINVAL).
Proof.
  intros Hw. revert whole s sum Hw. induction f as [|f IH]; intros whole s sum Hw Hs Hf; [lia|].
  cbn [gvariant_fixed_loop gvariant_size_loop].
  destruct s as [|c0 s0].
  { left. split; [done|]. destruct (alignment_total (length whole + 1) whole 1) as (a & Ha & Hga);
      [done|lia|by left|].
    simpl. unfold bus_gvariant_get_alignment. rewrite Ha. simpl.
    eexists _, a. split; [done|]. split; [done|]. by apply ALIGN_TO_divide. }
  destruct (type_row_step _ Hs) as (t & r & E & Ht & Hr); [done|]. rewrite E in *.
  clear E c0 s0. rewrite element_length_row by done.
  destruct (complete_type_head _ _ _ _ Ht) as (c & t' & Et & Hc0 & _).
  assert (deref (t ++ r) =? 0 = false) as ->.
  { rewrite Et. simpl. by apply Z.eqb_neq. }
  cbn [mbind res_bind]. rewrite drop_app_length, take_app_length.
  rewrite length_app in Hf. pose proof (complete_type_length _ _ _ _ Ht) as Hl.
  assert (type_row t) as Htr.
  { exists [t]. simpl. rewrite app_nil_r. split; [done|]. by constructor. }
  destruct (alignment_total (length t + 1) t 1) as (al & Hal & _); [done|lia|by left|].
  fold (bus_gvariant_get_alignment t) in Hal. rewrite Hal. cbn [mbind res_bind].
  clear Hc0 Et t' c.
  destruct (complete_type_shape t Ht) as [c Hc| |t Ht'|b e t Hb Hne Hbe].
  - in_set_cases Hc; simpl; try (right; split; reflexivity); (apply IH; [done|done|lia]).
  - right. split; reflexivity.
  - right. split; reflexivity.
  - rewrite (take_inner b e t r) by done.
    assert (length t < f)%nat as Hlt by (simpl in Hf; rewrite length_app in Hf; simpl in Hf; lia).
    rewrite bool_decide_false.
    2:{ simpl. rewrite length_app. destruct t; [done|]. simpl. lia. }
    destruct (IH t t 0 Hb Hb Hlt) as [(-> & k & a & Hk & _)|[-> Hk]];
      destruct Hbe as [[-> ->]|[-> ->]]; cbn [deref app in_set existsb]; simpl;
      rewrite Hk; simpl; try (right; split; reflexivity); (apply IH; [done|done|simpl in Hf; lia]).
Qed.

(** ** Offset words *)
Lemma word_size_cases sz extra :
  0 <= sz -> 0 <= extra -> sz + extra * 8 < 2 ^ 64 ->
  let ws := bus_gvariant_determine_word_size sz extra in
  (ws = 1 \/ ws = 2 \/ ws = 4 \/ ws = 8) /\ sz + extra * ws < 2 ^ (ws * 8).
Proof.
  intros Hs He Hb ws. subst ws. unfold bus_gvariant_determine_word_size.
  rewrite !wrap_small by lia.
  destruct (_ <=? 0xFF) eqn:E1; [|destruct (_ <=? 0xFFFF) eqn:E2; [|destruct (_ <=? 0xFFFFFFFF) eqn:E3]];
    ztests; (split; [auto|]); lia.
Qed.

(** ** Theorems *)

(** On every signature made of complete types the GVariant walks terminate
    within their fuel and agree: the alignment is 1, 2, 4 or 8; the signature is
    reported fixed-size exactly when the size computation succeeds, and then the
    size is a multiple of the alignment; otherwise the size is -EINVAL. No
    assertion is reached. *)
Theorem gvariant_walks_agree s :
  type_row s ->
  exists a, bus_gvariant_get_alignment s = Ok a /\ is_align a /\
  ((bus_gvariant_is_fixed_size s = Ok true /\
      exists k, bus_gvariant_get_size s = Ok k /\ (a | k)) \/
   (bus_gvariant_is_fixed_size s = Ok false /\ bus_gvariant_get_size s = Err EINVAL)).
Proof.
  intros Hs. destruct (alignment_total (length s + 1) s 1) as (a & Ha & Hga); [done|lia|by left|].
  exists a. split; [done|]. split; [done|].
  destruct (size_fixed_agree (length s + 1) s s 0 Hs Hs ltac:(lia))
    as [(Hf & k & a' & Hk & Ha' & Hd)|[Hf Hk]]; [left|right; done].
  split; [done|]. exists k. split; [done|].
  unfold bus_gvariant_get_alignment in Ha'. rewrite Ha in Ha'. by injection Ha' as ->.
Qed.

Lemma gvariant_walks_agree_witness :
  type_row (bs "(yt)u") /\
  exists a, bus_gvariant_get_alignment (bs "(yt)u") = Ok a /\ is_align a.
Proof.
  assert (type_row (bs "(yt)u")) as H.
  { apply type_row_valid; [|reflexivity].
    unfold is_cstr. repeat constructor; vm_compute; auto. }
  split; [done|].
  destruct (gvariant_walks_agree (bs "(yt)u") H) as (a & Ha & Hg & _). by exists a.
Defined.

(** The word size chosen for an offset table of [extra] entries after [sz]
    bytes can hold every offset into the container, its own table included, and
    a value written with that size and read back is unchanged. *)
Theorem gvariant_words_fit sz extra v :
  0 <= sz -> 0 <= extra -> sz + extra * 8 < 2 ^ 64 ->
  let ws := bus_gvariant_determine_word_size sz extra in
  0 <= v <= sz + extra * ws ->
  exists p, bus_gvariant_write_word_le ws v = Ok p /\ zlen p = ws /\
    forall q, bus_gvariant_read_word_le (p ++ q) ws = Ok v.
Proof.
  intros Hs He Hb ws Hv.
  destruct (word_size_cases sz extra Hs He Hb) as [Hws Hlt]. fold ws in Hws, Hlt.
  unfold bus_gvariant_write_word_le, bus_gvariant_read_word_le.
  assert (0 <= v < 2 ^ (ws * 8)) as Hvb by lia.
  assert (in_set ws [1; 2; 4; 8] = true) as Hin
    by (destruct Hws as [->|[->|[->| ->]]]; done).
  assert ((ws =? 8) || (v <? 2 ^ (ws * 8)) = true) as -> by (apply orb_true_iff; right; lia).
  rewrite Hin. exists (le_bytes (Z.to_nat ws) v). simpl.
  assert (0 < ws) by lia.
  split; [done|]. split; [unfold zlen; rewrite le_bytes_length; lia|].
  intros q. f_equal. rewrite take_app_length' by (by rewrite le_bytes_length).
  rewrite le_val_le_bytes. apply Z.mod_small.
  rewrite Z2Nat.id by lia. by rewrite (Z.mul_comm 8).
Qed.

Lemma gvariant_words_fit_witness :
  let ws := bus_gvariant_determine_word_size 300 2 in
  exists p, bus_gvariant_write_word_le ws 304 = Ok p /\ zlen p = ws /\
    forall q, bus_gvariant_read_word_le (p ++ q) ws = Ok 304.
Proof.
  apply (gvariant_words_fit 300 2 304); [lia|lia|reflexivity|].
  vm_compute. split; discriminate.
Defined.
