(* ===== verification/MsgState.v ===== *)
(** * The message object ([bus-message.h], [bus-message.c])

    The data of a message, assignments to its members, the access functions of
    [bus-message.h], and the primitives that grow the body and keep the length
    words of the open arrays up to date. *)
From S2P Require Import Prelude BusType Signature Gvariant.

(** ** Data *)

(** [struct bus_header], [bus-protocol.h]. The union of the two versions is
    flattened; a message uses the fields of its own version only. *)
Record bus_header := Header {
  h_endian : Z;
  h_type : Z;
  h_flags : Z;
  h_version : Z;
  h_body_size : Z;
  h_serial : Z;
  h_fields_size : Z;
  h_cookie : Z }.

(** [struct bus_body_part]: [part->data] with its [size] bytes. Parts backed by
    a memfd are not modelled. *)
Record body_part := Part {
  part_data : list Z;
  part_sealed : bool;
  part_is_zero : bool }.

(** [struct bus_container]. [array_size], a pointer to the array's length word
    in the body, is that word's position in the body. [n_offsets] is the length
    of [offsets]. *)
Record bus_container := Container {
  enclosing : Z;
  need_offsets : bool;
  index : nat;
  saved_index : nat;
  signature : option cstr;
  before : Z;
  begin : Z;
  end_ : Z;
  array_size : option nat;
  offsets : list Z;
  offset_index : nat;
  item_size : Z }.

(** [struct sd_bus_message]. [fields] are the bytes after the fixed header,
    [parts] the [n_body_parts] body parts, [fds] the [n_fds] descriptors. *)
Record message := Message {
  hdr : bus_header;
  sealed : bool;
  poisoned : bool;
  dont_send : bool;
  allow_fds : bool;
  fields : list Z;
  header_offsets : list Z;
  parts : list body_part;
  body_size : Z;
  user_body_size : Z;
  rindex : Z;
  fds : list Z;
  root_container : bus_container;
  containers : list bus_container;
  path : option cstr;
  interface : option cstr;
  member : option cstr;
  destination : option cstr;
  sender : option cstr;
  error_name : option cstr;
  reply_cookie : Z;
  enforced_reply_signature : option cstr;
  timeout : Z;
  footer : list Z }.

(** ** Assignments to single members *)
Definition set_c_index (v : nat) (c : bus_container) : bus_container :=
  {| enclosing := enclosing c; need_offsets := need_offsets c; index := v;
     saved_index := saved_index c; signature := signature c; before :=
     before c; begin := begin c; end_ := end_ c; array_size := array_size c;
     offsets := offsets c; offset_index := offset_index c; item_size :=
     item_size c |}.
Definition set_c_saved_index (v : nat) (c : bus_container) : bus_container :=
  {| enclosing := enclosing c; need_offsets := need_offsets c; index :=
     index c; saved_index := v; signature := signature c; before := before
     c; begin := begin c; end_ := end_ c; array_size := array_size c;
     offsets := offsets c; offset_index := offset_index c; item_size :=
     item_size c |}.
Definition set_c_signature (v : option cstr) (c : bus_container) : bus_container :=
  {| enclosing := enclosing c; need_offsets := need_offsets c; index :=
     index c; saved_index := saved_index c; signature := v; before := before
     c; begin := begin c; end_ := end_ c; array_size := array_size c;
     offsets := offsets c; offset_index := offset_index c; item_size :=
     item_size c |}.
Definition set_c_end_ (v : Z) (c : bus_container) : bus_container :=
  {| enclosing := enclosing c; need_offsets := need_offsets c; index :=
     index c; saved_index := saved_index c; signature := signature c; before
     := before c; begin := begin c; end_ := v; array_size := array_size c;
     offsets := offsets c; offset_index := offset_index c; item_size :=
     item_size c |}.
Definition set_c_offsets (v : list Z) (c : bus_container) : bus_container :=
  {| enclosing := enclosing c; need_offsets := need_offsets c; index :=
     index c; saved_index := saved_index c; signature := signature c; before
     := before c; begin := begin c; end_ := end_ c; array_size := array_size
     c; offsets := v; offset_index := offset_index c; item_size := item_size
     c |}.
Definition set_c_offset_index (v : nat) (c : bus_container) : bus_container :=
  {| enclosing := enclosing c; need_offsets := need_offsets c; index :=
     index c; saved_index := saved_index c; signature := signature c; before
     := before c; begin := begin c; end_ := end_ c; array_size := array_size
     c; offsets := offsets c; offset_index := v; item_size := item_size c
     |}.
Definition set_c_item_size (v : Z) (c : bus_container) : bus_container :=
  {| enclosing := enclosing c; need_offsets := need_offsets c; index :=
     index c; saved_index := saved_index c; signature := signature c; before
     := before c; begin := begin c; end_ := end_ c; array_size := array_size
     c; offsets := offsets c; offset_index := offset_index c; item_size := v
     |}.
Definition set_hdr (v : bus_header) (m : message) : message :=
  {| hdr := v; sealed := sealed m; poisoned := poisoned m; dont_send :=
     dont_send m; allow_fds := allow_fds m; fields := fields m;
     header_offsets := header_offsets m; parts := parts m; body_size :=
     body_size m; user_body_size := user_body_size m; rindex := rindex m;
     fds := fds m; root_container := root_container m; containers :=
     containers m; path := path m; interface := interface m; member :=
     member m; destination := destination m; sender := sender m; error_name
     := error_name m; reply_cookie := reply_cookie m;
     enforced_reply_signature := enforced_reply_signature m; timeout :=
     timeout m; footer := footer m |}.
Definition set_sealed (v : bool) (m : message) : message :=
  {| hdr := hdr m; sealed := v; poisoned := poisoned m; dont_send :=
     dont_send m; allow_fds := allow_fds m; fields := fields m;
     header_offsets := header_offsets m; parts := parts m; body_size :=
     body_size m; user_body_size := user_body_size m; rindex := rindex m;
     fds := fds m; root_container := root_container m; containers :=
     containers m; path := path m; interface := interface m; member :=
     member m; destination := destination m; sender := sender m; error_name
     := error_name m; reply_cookie := reply_cookie m;
     enforced_reply_signature := enforced_reply_signature m; timeout :=
     timeout m; footer := footer m |}.
Definition set_poisoned (v : bool) (m : message) : message :=
  {| hdr := hdr m; sealed := sealed m; poisoned := v; dont_send := dont_send
     m; allow_fds := allow_fds m; fields := fields m; header_offsets :=
     header_offsets m; parts := parts m; body_size := body_size m;
     user_body_size := user_body_size m; rindex := rindex m; fds := fds m;
     root_container := root_container m; containers := containers m; path :=
     path m; interface := interface m; member := member m; destination :=
     destination m; sender := sender m; error_name := error_name m;
     reply_cookie := reply_cookie m; enforced_reply_signature :=
     enforced_reply_signature m; timeout := timeout m; footer := footer m
     |}.
Definition set_dont_send (v : bool) (m : message) : message :=
  {| hdr := hdr m; sealed := sealed m; poisoned := poisoned m; dont_send :=
     v; allow_fds := allow_fds m; fields := fields m; header_offsets :=
     header_offsets m; parts := parts m; body_size := body_size m;
     user_body_size := user_body_size m; rindex := rindex m; fds := fds m;
     root_container := root_container m; containers := containers m; path :=
     path m; interface := interface m; member := member m; destination :=
     destination m; sender := sender m; error_name := error_name m;
     reply_cookie := reply_cookie m; enforced_reply_signature :=
     enforced_reply_signature m; timeout := timeout m; footer := footer m
     |}.
Definition set_allow_fds (v : bool) (m : message) : message :=
  {| hdr := hdr m; sealed := sealed m; poisoned := poisoned m; dont_send :=
     dont_send m; allow_fds := v; fields := fields m; header_offsets :=
     header_offsets m; parts := parts m; body_size := body_size m;
     user_body_size := user_body_size m; rindex := rindex m; fds := fds m;
     root_container := root_container m; containers := containers m; path :=
     path m; interface := interface m; member := member m; destination :=
     destination m; sender := sender m; error_name := error_name m;
     reply_cookie := reply_cookie m; enforced_reply_signature :=
     enforced_reply_signature m; timeout := timeout m; footer := footer m
     |}.
Definition set_fields (v : list Z) (m : message) : message :=
  {| hdr := hdr m; sealed := sealed m; poisoned := poisoned m; dont_send :=
     dont_send m; allow_fds := allow_fds m; fields := v; header_offsets :=
     header_offsets m; parts := parts m; body_size := body_size m;
     user_body_size := user_body_size m; rindex := rindex m; fds := fds m;
     root_container := root_container m; containers := containers m; path :=
     path m; interface := interface m; member := member m; destination :=
     destination m; sender := sender m; error_name := error_name m;
     reply_cookie := reply_cookie m; enforced_reply_signature :=
     enforced_reply_signature m; timeout := timeout m; footer := footer m
     |}.
Definition set_header_offsets (v : list Z) (m : message) : message :=
  {| hdr := hdr m; sealed := sealed m; poisoned := poisoned m; dont_send :=
     dont_send m; allow_fds := allow_fds m; fields := fields m;
     header_offsets := v; parts := parts m; body_size := body_size m;
     user_body_size := user_body_size m; rindex := rindex m; fds := fds m;
     root_container := root_container m; containers := containers m; path :=
     path m; interface := interface m; member := member m; destination :=
     destination m; sender := sender m; error_name := error_name m;
     reply_cookie := reply_cookie m; enforced_reply_signature :=
     enforced_reply_signature m; timeout := timeout m; footer := footer m
     |}.
Definition set_parts (v : list body_part) (m : message) : message :=
  {| hdr := hdr m; sealed := sealed m; poisoned := poisoned m; dont_send :=
     dont_send m; allow_fds := allow_fds m; fields := fields m;
     header_offsets := header_offsets m; parts := v; body_size := body_size
     m; user_body_size := user_body_size m; rindex := rindex m; fds := fds
     m; root_container := root_container m; containers := containers m; path
     := path m; interface := interface m; member := member m; destination :=
     destination m; sender := sender m; error_name := error_name m;
     reply_cookie := reply_cookie m; enforced_reply_signature :=
     enforced_reply_signature m; timeout := timeout m; footer := footer m
     |}.
Definition set_body_size (v : Z) (m : message) : message :=
  {| hdr := hdr m; sealed := sealed m; poisoned := poisoned m; dont_send :=
     dont_send m; allow_fds := allow_fds m; fields := fields m;
     header_offsets := header_offsets m; parts := parts m; body_size := v;
     user_body_size := user_body_size m; rindex := rindex m; fds := fds m;
     root_container := root_container m; containers := containers m; path :=
     path m; interface := interface m; member := member m; destination :=
     destination m; sender := sender m; error_name := error_name m;
     reply_cookie := reply_cookie m; enforced_reply_signature :=
     enforced_reply_signature m; timeout := timeout m; footer := footer m
     |}.
Definition set_user_body_size (v : Z) (m : message) : message :=
  {| hdr := hdr m; sealed := sealed m; poisoned := poisoned m; dont_send :=
     dont_send m; allow_fds := allow_fds m; fields := fields m;
     header_offsets := header_offsets m; parts := parts m; body_size :=
     body_size m; user_body_size := v; rindex := rindex m; fds := fds m;
     root_container := root_container m; containers := containers m; path :=
     path m; interface := interface m; member := member m; destination :=
     destination m; sender := sender m; error_name := error_name m;
     reply_cookie := reply_cookie m; enforced_reply_signature :=
     enforced_reply_signature m; timeout := timeout m; footer := footer m
     |}.
Definition set_rindex (v : Z) (m : message) : message :=
  {| hdr := hdr m; sealed := sealed m; poisoned := poisoned m; dont_send :=
     dont_send m; allow_fds := allow_fds m; fields := fields m;
     header_offsets := header_offsets m; parts := parts m; body_size :=
     body_size m; user_body_size := user_body_size m; rindex := v; fds :=
     fds m; root_container := root_container m; containers := containers m;
     path := path m; interface := interface m; member := member m;
     destination := destination m; sender := sender m; error_name :=
     error_name m; reply_cookie := reply_cookie m; enforced_reply_signature
     := enforced_reply_signature m; timeout := timeout m; footer := footer m
     |}.
Definition set_fds (v : list Z) (m : message) : message :=
  {| hdr := hdr m; sealed := sealed m; poisoned := poisoned m; dont_send :=
     dont_send m; allow_fds := allow_fds m; fields := fields m;
     header_offsets := header_offsets m; parts := parts m; body_size :=
     body_size m; user_body_size := user_body_size m; rindex := rindex m;
     fds := v; root_container := root_container m; containers := containers
     m; path := path m; interface := interface m; member := member m;
     destination := destination m; sender := sender m; error_name :=
     error_name m; reply_cookie := reply_cookie m; enforced_reply_signature
     := enforced_reply_signature m; timeout := timeout m; footer := footer m
     |}.
Definition set_root_container (v : bus_container) (m : message) : message :=
  {| hdr := hdr m; sealed := sealed m; poisoned := poisoned m; dont_send :=
     dont_send m; allow_fds := allow_fds m; fields := fields m;
     header_offsets := header_offsets m; parts := parts m; body_size :=
     body_size m; user_body_size := user_body_size m; rindex := rindex m;
     fds := fds m; root_container := v; containers := containers m; path :=
     path m; interface := interface m; member := member m; destination :=
     destination m; sender := sender m; error_name := error_name m;
     reply_cookie := reply_cookie m; enforced_reply_signature :=
     enforced_reply_signature m; timeout := timeout m; footer := footer m
     |}.
Definition set_containers (v : list bus_container) (m : message) : message :=
  {| hdr := hdr m; sealed := sealed m; poisoned := poisoned m; dont_send :=
     dont_send m; allow_fds := allow_fds m; fields := fields m;
     header_offsets := header_offsets m; parts := parts m; body_size :=
     body_size m; user_body_size := user_body_size m; rindex := rindex m;
     fds := fds m; root_container := root_container m; containers := v; path
     := path m; interface := interface m; member := member m; destination :=
     destination m; sender := sender m; error_name := error_name m;
     reply_cookie := reply_cookie m; enforced_reply_signature :=
     enforced_reply_signature m; timeout := timeout m; footer := footer m
     |}.
Definition set_path (v : option cstr) (m : message) : message :=
  {| hdr := hdr m; sealed := sealed m; poisoned := poisoned m; dont_send :=
     dont_send m; allow_fds := allow_fds m; fields := fields m;
     header_offsets := header_offsets m; parts := parts m; body_size :=
     body_size m; user_body_size := user_body_size m; rindex := rindex m;
     fds := fds m; root_container := root_container m; containers :=
     containers m; path := v; interface := interface m; member := member m;
     destination := destination m; sender := sender m; error_name :=
     error_name m; reply_cookie := reply_cookie m; enforced_reply_signature
     := enforced_reply_signature m; timeout := timeout m; footer := footer m
     |}.
Definition set_interface (v : option cstr) (m : message) : message :=
  {| hdr := hdr m; sealed := sealed m; poisoned := poisoned m; dont_send :=
     dont_send m; allow_fds := allow_fds m; fields := fields m;
     header_offsets := header_offsets m; parts := parts m; body_size :=
     body_size m; user_body_size := user_body_size m; rindex := rindex m;
     fds := fds m; root_container := root_container m; containers :=
     containers m; path := path m; interface := v; member := member m;
     destination := destination m; sender := sender m; error_name :=
     error_name m; reply_cookie := reply_cookie m; enforced_reply_signature
     := enforced_reply_signature m; timeout := timeout m; footer := footer m
     |}.
Definition set_member (v : option cstr) (m : message) : message :=
  {| hdr := hdr m; sealed := sealed m; poisoned := poisoned m; dont_send :=
     dont_send m; allow_fds := allow_fds m; fields := fields m;
     header_offsets := header_offsets m; parts := parts m; body_size :=
     body_size m; user_body_size := user_body_size m; rindex := rindex m;
     fds := fds m; root_container := root_container m; containers :=
     containers m; path := path m; interface := interface m; member := v;
     destination := destination m; sender := sender m; error_name :=
     error_name m; reply_cookie := reply_cookie m; enforced_reply_signature
     := enforced_reply_signature m; timeout := timeout m; footer := footer m
     |}.
Definition set_destination (v : option cstr) (m : message) : message :=
  {| hdr := hdr m; sealed := sealed m; poisoned := poisoned m; dont_send :=
     dont_send m; allow_fds := allow_fds m; fields := fields m;
     header_offsets := header_offsets m; parts := parts m; body_size :=
     body_size m; user_body_size := user_body_size m; rindex := rindex m;
     fds := fds m; root_container := root_container m; containers :=
     containers m; path := path m; interface := interface m; member :=
     member m; destination := v; sender := sender m; error_name :=
     error_name m; reply_cookie := reply_cookie m; enforced_reply_signature
     := enforced_reply_signature m; timeout := timeout m; footer := footer m
     |}.
Definition set_sender (v : option cstr) (m : message) : message :=
  {| hdr := hdr m; sealed := sealed m; poisoned := poisoned m; dont_send :=
     dont_send m; allow_fds := allow_fds m; fields := fields m;
     header_offsets := header_offsets m; parts := parts m; body_size :=
     body_size m; user_body_size := user_body_size m; rindex := rindex m;
     fds := fds m; root_container := root_container m; containers :=
     containers m; path := path m; interface := interface m; member :=
     member m; destination := destination m; sender := v; error_name :=
     error_name m; reply_cookie := reply_cookie m; enforced_reply_signature
     := enforced_reply_signature m; timeout := timeout m; footer := footer m
     |}.
Definition set_error_name (v : option cstr) (m : message) : message :=
  {| hdr := hdr m; sealed := sealed m; poisoned := poisoned m; dont_send :=
     dont_send m; allow_fds := allow_fds m; fields := fields m;
     header_offsets := header_offsets m; parts := parts m; body_size :=
     body_size m; user_body_size := user_body_size m; rindex := rindex m;
     fds := fds m; root_container := root_container m; containers :=
     containers m; path := path m; interface := interface m; member :=
     member m; destination := destination m; sender := sender m; error_name
     := v; reply_cookie := reply_cookie m; enforced_reply_signature :=
     enforced_reply_signature m; timeout := timeout m; footer := footer m
     |}.
Definition set_reply_cookie (v : Z) (m : message) : message :=
  {| hdr := hdr m; sealed := sealed m; poisoned := poisoned m; dont_send :=
     dont_send m; allow_fds := allow_fds m; fields := fields m;
     header_offsets := header_offsets m; parts := parts m; body_size :=
     body_size m; user_body_size := user_body_size m; rindex := rindex m;
     fds := fds m; root_container := root_container m; containers :=
     containers m; path := path m; interface := interface m; member :=
     member m; destination := destination m; sender := sender m; error_name
     := error_name m; reply_cookie := v; enforced_reply_signature :=
     enforced_reply_signature m; timeout := timeout m; footer := footer m
     |}.
Definition set_enforced_reply_signature (v : option cstr) (m : message) : message :=
  {| hdr := hdr m; sealed := sealed m; poisoned := poisoned m; dont_send :=
     dont_send m; allow_fds := allow_fds m; fields := fields m;
     header_offsets := header_offsets m; parts := parts m; body_size :=
     body_size m; user_body_size := user_body_size m; rindex := rindex m;
     fds := fds m; root_container := root_container m; containers :=
     containers m; path := path m; interface := interface m; member :=
     member m; destination := destination m; sender := sender m; error_name
     := error_name m; reply_cookie := reply_cookie m;
     enforced_reply_signature := v; timeout := timeout m; footer := footer m
     |}.
Definition set_timeout (v : Z) (m : message) : message :=
  {| hdr := hdr m; sealed := sealed m; poisoned := poisoned m; dont_send :=
     dont_send m; allow_fds := allow_fds m; fields := fields m;
     header_offsets := header_offsets m; parts := parts m; body_size :=
     body_size m; user_body_size := user_body_size m; rindex := rindex m;
     fds := fds m; root_container := root_container m; containers :=
     containers m; path := path m; interface := interface m; member :=
     member m; destination := destination m; sender := sender m; error_name
     := error_name m; reply_cookie := reply_cookie m;
     enforced_reply_signature := enforced_reply_signature m; timeout := v;
     footer := footer m |}.
Definition set_footer (v : list Z) (m : message) : message :=
  {| hdr := hdr m; sealed := sealed m; poisoned := poisoned m; dont_send :=
     dont_send m; allow_fds := allow_fds m; fields := fields m;
     header_offsets := header_offsets m; parts := parts m; body_size :=
     body_size m; user_body_size := user_body_size m; rindex := rindex m;
     fds := fds m; root_container := root_container m; containers :=
     containers m; path := path m; interface := interface m; member :=
     member m; destination := destination m; sender := sender m; error_name
     := error_name m; reply_cookie := reply_cookie m;
     enforced_reply_signature := enforced_reply_signature m; timeout :=
     timeout m; footer := v |}.
Definition set_h_flags (v : Z) (h : bus_header) : bus_header :=
  {| h_endian := h_endian h; h_type := h_type h; h_flags := v; h_version :=
     h_version h; h_body_size := h_body_size h; h_serial := h_serial h;
     h_fields_size := h_fields_size h; h_cookie := h_cookie h |}.
Definition set_h_body_size (v : Z) (h : bus_header) : bus_header :=
  {| h_endian := h_endian h; h_type := h_type h; h_flags := h_flags h;
     h_version := h_version h; h_body_size := v; h_serial := h_serial h;
     h_fields_size := h_fields_size h; h_cookie := h_cookie h |}.
Definition set_h_serial (v : Z) (h : bus_header) : bus_header :=
  {| h_endian := h_endian h; h_type := h_type h; h_flags := h_flags h;
     h_version := h_version h; h_body_size := h_body_size h; h_serial := v;
     h_fields_size := h_fields_size h; h_cookie := h_cookie h |}.
Definition set_h_fields_size (v : Z) (h : bus_header) : bus_header :=
  {| h_endian := h_endian h; h_type := h_type h; h_flags := h_flags h;
     h_version := h_version h; h_body_size := h_body_size h; h_serial :=
     h_serial h; h_fields_size := v; h_cookie := h_cookie h |}.
Definition set_h_cookie (v : Z) (h : bus_header) : bus_header :=
  {| h_endian := h_endian h; h_type := h_type h; h_flags := h_flags h;
     h_version := h_version h; h_body_size := h_body_size h; h_serial :=
     h_serial h; h_fields_size := h_fields_size h; h_cookie := v |}.

(** ** The state of a message *)
Definition BUS_CONTAINER_DEPTH : nat := 128.
Definition BUS_ARRAY_MAX_SIZE : Z := 67108864.
Definition MEMFD_MIN_SIZE : Z := 512 * 1024.
Definition BUS_HEADER_SIZE : Z := 16. (* sizeof(struct bus_header) *)
Definition _BUS_MESSAGE_HEADER_MAX : nat := 10.
Definition BUS_LITTLE_ENDIAN : Z := Eval cbv in ch "l".
Definition BUS_BIG_ENDIAN : Z := Eval cbv in ch "B".
Definition BUS_NATIVE_ENDIAN : Z := BUS_LITTLE_ENDIAN.

Definition part_size (p : body_part) : Z := zlen (part_data p).

(** The body's bytes, part after part. *)
Definition body (m : message) : list Z := concat (map part_data (parts m)).

Definition fields_size (m : message) : Z := zlen (fields m).

(** [BUS_MESSAGE_IS_GVARIANT], [BUS_MESSAGE_NEED_BSWAP], [BUS_MESSAGE_BSWAP*] on
    an [n]-byte word, [BUS_MESSAGE_COOKIE], [BUS_MESSAGE_SIZE] *)
Definition BUS_MESSAGE_IS_GVARIANT (m : message) : bool := h_version (hdr m) =? 2.

Definition BUS_MESSAGE_NEED_BSWAP (m : message) : bool :=
  negb (h_endian (hdr m) =? BUS_NATIVE_ENDIAN).

Definition BUS_MESSAGE_BSWAP (m : message) (n : nat) (u : Z) : Z :=
  if BUS_MESSAGE_NEED_BSWAP m then bswap n u else u.

Definition BUS_MESSAGE_COOKIE (m : message) : Z :=
  if h_version (hdr m) =? 2 then BUS_MESSAGE_BSWAP m 8 (h_cookie (hdr m))
  else BUS_MESSAGE_BSWAP m 4 (h_serial (hdr m)).

Definition BUS_MESSAGE_SIZE (m : message) : Z :=
  BUS_HEADER_SIZE + ALIGN8 (fields_size m) + body_size m.

(** [message_get_last_container]; [upd_last_container] assigns through it. *)
Definition message_get_last_container (m : message) : bus_container :=
  default (root_container m) (last (containers m)).

Fixpoint upd_last {A} (f : A -> A) (l : list A) : list A :=
  match l with
  | [] => []
  | [x] => [f x]
  | x :: l => x :: upd_last f l
  end.

Definition upd_last_container (f : bus_container -> bus_container) (m : message) : message :=
  match containers m with
  | [] => set_root_container (f (root_container m)) m
  | cs => set_containers (upd_last f cs) m
  end.

(** [c->signature && c->signature[c->index]], and that character *)
Definition sig_char (c : bus_container) : Z :=
  match signature c with None => 0 | Some s => char_at s (index c) end.

(** [strextend(&c->signature, x, NULL)] and its new length *)
Definition strextend (o : option cstr) (x : cstr) : cstr := default [] o ++ x.

(** Storing bytes at a position of the body or of the fields. *)
Definition splice (off : nat) (bytes l : list Z) : list Z :=
  take off l ++ bytes ++ drop (off + length bytes) l.

Fixpoint parts_write (off : nat) (bytes : list Z) (ps : list body_part) : list body_part :=
  match ps with
  | [] => []
  | p :: ps =>
      if bool_decide (off < length (part_data p))%nat
      then Part (splice off bytes (part_data p)) (part_sealed p) (part_is_zero p) :: ps
      else p :: parts_write (off - length (part_data p)) bytes ps
  end.

Definition body_write (off : nat) (bytes : list Z) (m : message) : message :=
  set_parts (parts_write off bytes (parts m)) m.

Definition body_read32 (off : nat) (m : message) : Z := le_val (take 4 (drop off (body m))).

(** ** Growing the body *)

(** [message_append_part] and [part_zero] / [part_make_space] on the new part *)
Definition message_append_part (p : body_part) (m : message) : message :=
  set_parts (parts m ++ [p]) m.

(** [message_add_offset] *)
Definition message_add_offset (offset : Z) (m : message) : message :=
  upd_last_container (fun c =>
    if negb (need_offsets c) then c else set_c_offsets (offsets c ++ [offset]) c) m.

(** [message_extend_containers]: every open array's length word grows. *)
Definition extend_one (expand : Z) (m : message) (c : bus_container) : message :=
  match array_size c with
  | None => m
  | Some a => body_write a (le_bytes 4 (wrap32 (body_read32 a m + expand))) m
  end.

Definition message_extend_containers (expand : Z) (m : message) : message :=
  if expand <=? 0 then m else fold_left (extend_one expand) (containers m) m.

(** Memory from [realloc] that nothing was stored into yet: no byte, so that
    whatever is proved to be a byte was stored. *)
Definition UNWRITTEN : Z := -1.
Definition room (n : Z) : list Z := replicate (Z.to_nat n) UNWRITTEN.

(** [message_extend_body]; the pointer returned is a position in the body. The
    padding is zeroed, the room for the caller is not. A NULL return, which
    every caller turns into -ENOMEM, is [Err ENOMEM]. *)
Definition add_new_part (m : message) (align padding : Z) (force_inline : bool) : bool :=
  match last (parts m) with
  | None => true
  | Some e =>
      part_sealed e ||
      negb (padding =? wrap64 (ALIGN_TO (part_size e) align - part_size e)) ||
      (force_inline && (MEMFD_MIN_SIZE <? part_size e))
  end.

Definition message_extend_body (align sz : Z) (add_offset force_inline : bool)
    : stm message nat := fun m =>
  if poisoned m then (Err ENOMEM, m)
  else
    let start_body := ALIGN_TO (body_size m) align in
    let end_body := wrap64 (start_body + sz) in
    let padding := wrap64 (start_body - body_size m) in
    let added := wrap64 (padding + sz) in
    if (UINT32_MAX <? end_body) || (end_body <? start_body)
    then (Err ENOMEM, set_poisoned true m)
    else
      let pad := zeros (Z.to_nat padding) in
      let m1 :=
        if 0 <? added then
          if add_new_part m align padding force_inline then
            message_append_part (Part (room sz) false false)
              (if 0 <? padding then message_append_part (Part pad true true) m else m)
          else
            set_parts (upd_last (fun p =>
              Part (part_data p ++ pad ++ room sz) (part_sealed p) (part_is_zero p)) (parts m)) m
        else m in
      let m2 := message_extend_containers added (set_body_size end_body m1) in
      (Ok (Z.to_nat start_body), if add_offset then message_add_offset end_body m2 else m2).

