(* ===== verification/MsgWrite.v ===== *)
(** * Writing messages ([src/libsystemd/sd-bus/bus-message.c])

    The operations that append to an unsealed message, for both wire formats:
    version 1 is the D-Bus marshalling, version 2 GVariant. *)
From S2P Require Import Prelude BusType Signature Gvariant MsgState.

(** ** Appending basic values *)

(** What the [const void] pointer [p] points to: an integer of the type's width, or a C
    string; [None] is NULL. *)
Inductive basic_value :=
  | BInt (x : Z)
  | BStr (s : cstr).

(** [strempty(p)]; reading an integer through [p], which for the numeric types
    the code does without a NULL check. *)
Definition str_or_empty (p : option basic_value) : res cstr :=
  match p with None => Ok [] | Some (BStr s) => Ok s | Some (BInt _) => Err EASSERT end.

Definition str_not_null (p : option basic_value) : res cstr :=
  match p with None => Err EINVAL | Some (BStr s) => Ok s | Some (BInt _) => Err EASSERT end.

Definition int_at (p : option basic_value) : res Z :=
  match p with Some (BInt x) => Ok x | _ => Err EASSERT end.

(** Whether [p] is set and the [int] it points to is not 0. *)
Definition bool_at (p : option basic_value) : res Z :=
  match p with
  | None => Ok 0
  | Some (BInt x) => Ok (if x =? 0 then 0 else 1)
  | Some (BStr _) => Err EASSERT
  end.

(** The alignment and the bytes the two branches of [message_append_basic]
    store; [sz] is their number. The descriptor's index is the current [n_fds]. *)
Definition gvariant_basic_bytes (type : Z) (p : option basic_value) (n_fds : Z)
    : res (Z * list Z) :=
  if in_set type [ SD_BUS_TYPE_SIGNATURE; SD_BUS_TYPE_STRING ] then
    s ← str_or_empty p; Ok (1, s ++ [0])
  else if type =? SD_BUS_TYPE_OBJECT_PATH then
    s ← str_not_null p; Ok (1, s ++ [0])
  else if type =? SD_BUS_TYPE_BOOLEAN then
    b ← bool_at p; Ok (1, [b])
  else if type =? SD_BUS_TYPE_UNIX_FD then Ok (4, le_bytes 4 n_fds)
  else
    align ← bus_gvariant_get_alignment [type];
    sz ← bus_gvariant_get_size [type];
    x ← int_at p;
    Ok (align, le_bytes (Z.to_nat sz) x).

Definition dbus1_basic_bytes (type : Z) (p : option basic_value) (n_fds : Z)
    : res (Z * list Z) :=
  if type =? SD_BUS_TYPE_STRING then
    s ← str_or_empty p; Ok (4, le_bytes 4 (zlen s) ++ s ++ [0])
  else if type =? SD_BUS_TYPE_OBJECT_PATH then
    s ← str_not_null p; Ok (4, le_bytes 4 (zlen s) ++ s ++ [0])
  else if type =? SD_BUS_TYPE_SIGNATURE then
    s ← str_or_empty p; Ok (1, le_bytes 1 (zlen s) ++ s ++ [0])
  else if type =? SD_BUS_TYPE_BOOLEAN then
    b ← bool_at p; Ok (4, le_bytes 4 b)
  else if type =? SD_BUS_TYPE_UNIX_FD then Ok (4, le_bytes 4 n_fds)
  else
    align ← bus_type_get_alignment type;
    sz ← bus_type_get_size type;
    x ← int_at p;
    Ok (align, le_bytes (Z.to_nat sz) x).

(** The signature check all appending operations start with: the container's
    next type must be [type], or it is the growing top level. *)
Definition check_or_extend_signature (type : Z) (ext : cstr) : stm message unit :=
  m ← sget;
  let c := message_get_last_container m in
  if negb (sig_char c =? 0) then sreq (sig_char c =? type) ENXIO
  else
    sreq (enclosing c =? 0) ENXIO;;
    smod (upd_last_container (fun c =>
      set_c_signature (Some (strextend (signature c) ext)) c)).

(** [if (c->enclosing != SD_BUS_TYPE_ARRAY) c->index = i] *)
Definition advance_index (f : bus_container -> nat) : stm message unit :=
  smod (upd_last_container (fun c =>
    if negb (enclosing c =? SD_BUS_TYPE_ARRAY) then set_c_index (f c) c else c)).

Section Append.
(** [fcntl(fd, F_DUPFD_CLOEXEC, 3)]: the duplicate, or the errno. *)
Variable dup_fd : Z -> res Z.

(** [message_push_fd]; the caller counts the descriptor. *)
Definition message_push_fd (fd : Z) : stm message Z :=
  m ← sget;
  sreq (negb (fd <? 0)) EINVAL;;
  sreq (allow_fds m) EOPNOTSUPP;;
  slift (dup_fd fd).

(** [message_append_basic] *)
Definition message_append_basic (type : Z) (p : option basic_value) : stm message unit :=
  m ← sget;
  sreq (negb (sealed m)) EPERM;;
  sreq (bus_type_is_basic type) EINVAL;;
  sreq (negb (poisoned m)) ESTALE;;
  check_or_extend_signature type [type];;
  copy ← (if type =? SD_BUS_TYPE_UNIX_FD then
            match p with
            | None => sfail EINVAL
            | Some _ => fd ← slift (int_at p); x ← message_push_fd fd; mret [x]
            end
          else mret []);
  '(align, bytes) ← slift
    ((if BUS_MESSAGE_IS_GVARIANT m then gvariant_basic_bytes else dbus1_basic_bytes)
       type p (zlen (fds m)));
  a ← message_extend_body align (zlen bytes) (BUS_MESSAGE_IS_GVARIANT m) false;
  smod (body_write a bytes);;
  smod (fun m => set_fds (fds m ++ copy) m);;
  advance_index (fun c => S (index c)).

Definition sd_bus_message_append_basic := message_append_basic.
End Append.

(** [sd_bus_message_append_string_space]: where the [size] characters go. The
    caller fills them in through the pointer. *)
Definition sd_bus_message_append_string_space (size : Z) : stm message nat :=
  m ← sget;
  sreq (negb (sealed m)) EPERM;;
  sreq (negb (poisoned m)) ESTALE;;
  check_or_extend_signature SD_BUS_TYPE_STRING [SD_BUS_TYPE_STRING];;
  s ← (if BUS_MESSAGE_IS_GVARIANT m then
         message_extend_body 1 (wrap64 (size + 1)) true false
       else
         a ← message_extend_body 4 (wrap64 (4 + size + 1)) false false;
         smod (body_write a (le_bytes 4 size));;
         mret (a + 4)%nat);
  smod (body_write (s + Z.to_nat size) [0]);;
  advance_index (fun c => S (index c));;
  mret s.

(** [sd_bus_message_append_string_iovec]: the segments, [None] for a NULL base,
    which stands for that many blanks. *)
Definition iovec := (option (list Z) * Z)%type.

Definition iovec_bytes (iov : list iovec) : list Z :=
  concat (map (fun '(base, len) =>
    match base with Some b => b | None => replicate (Z.to_nat len) 32 end) iov).

Definition sd_bus_message_append_string_iovec (iov : list iovec) : stm message unit :=
  m ← sget;
  sreq (negb (sealed m)) EPERM;;
  sreq (negb (poisoned m)) ESTALE;;
  p ← sd_bus_message_append_string_space (foldr (fun v n => snd v + n) 0 iov);
  smod (body_write p (iovec_bytes iov)).

(** ** Containers *)

(** [bus_message_open_array]: the new container's [array_size], [begin] and
    [need_offsets]. *)
Definition bus_message_open_array (contents : cstr)
    : stm message (option nat * Z * bool) :=
  sreq (signature_is_single contents true) EINVAL;;
  m ← sget;
  let c := message_get_last_container m in
  nindex ← (if negb (sig_char c =? 0) then
              sreq (sig_char c =? SD_BUS_TYPE_ARRAY) ENXIO;;
              sreq (bool_decide (is_Some (startswith
                (drop (index c + 1) (default [] (signature c))) contents))) ENXIO;;
              mret (index c + 1 + length contents)%nat
            else
              sreq (enclosing c =? 0) ENXIO;;
              let e := strextend (signature c) (SD_BUS_TYPE_ARRAY :: contents) in
              smod (upd_last_container (set_c_signature (Some e)));;
              mret (length e));
  r ← (if BUS_MESSAGE_IS_GVARIANT m then
         alignment ← slift (bus_gvariant_get_alignment contents);
         message_extend_body alignment 0 false false;;
         r ← slift (bus_gvariant_is_fixed_size contents);
         m ← sget;
         mret (None, body_size m, negb r)
       else
         alignment ← slift (bus_type_get_alignment (deref contents));
         a ← message_extend_body 4 4 false false;
         message_extend_body alignment 0 false false;;
         smod (body_write a (le_bytes 4 0));;
         mret (Some a, 0, false));
  advance_index (fun _ => nindex);;
  mret r.

(** [bus_message_open_variant] *)
Definition bus_message_open_variant (contents : cstr) : stm message unit :=
  sreq (signature_is_single contents false) EINVAL;;
  sreq (negb (deref contents =? SD_BUS_TYPE_DICT_ENTRY_BEGIN)) EINVAL;;
  check_or_extend_signature SD_BUS_TYPE_VARIANT [SD_BUS_TYPE_VARIANT];;
  m ← sget;
  (if BUS_MESSAGE_IS_GVARIANT m then
     message_extend_body 8 0 false false;; mret tt
   else
     a ← message_extend_body 1 (1 + zlen contents + 1) false false;
     smod (body_write a (le_bytes 1 (zlen contents) ++ contents ++ [0])));;
  advance_index (fun c => S (index c)).

(** What the struct and the dict-entry branch check against an existing
    signature: the opening bracket, the contents, the closing bracket. *)
Definition bracketed (c : bus_container) (b e : Z) (contents : cstr) : bool :=
  let s := default [] (signature c) in
  (sig_char c =? b) &&
  bool_decide (is_Some (startswith (drop (index c + 1) s) contents)) &&
  (char_at s (index c + 1 + length contents) =? e).

(** The alignment step they share, with [begin] and [need_offsets]. *)
Definition align_struct (contents : cstr) : stm message (Z * bool) :=
  m ← sget;
  if BUS_MESSAGE_IS_GVARIANT m then
    alignment ← slift (bus_gvariant_get_alignment contents);
    message_extend_body alignment 0 false false;;
    r ← slift (bus_gvariant_is_fixed_size contents);
    m ← sget;
    mret (body_size m, negb r)
  else
    message_extend_body 8 0 false false;; mret (0, false).

(** [bus_message_open_struct] *)
Definition bus_message_open_struct (contents : cstr) : stm message (Z * bool) :=
  sreq (signature_is_valid contents false) EINVAL;;
  m ← sget;
  let c := message_get_last_container m in
  nindex ← (if negb (sig_char c =? 0) then
              sreq (bracketed c SD_BUS_TYPE_STRUCT_BEGIN SD_BUS_TYPE_STRUCT_END contents)
                ENXIO;;
              mret (index c + 1 + length contents + 1)%nat
            else
              sreq (enclosing c =? 0) ENXIO;;
              let e := strextend (signature c)
                (SD_BUS_TYPE_STRUCT_BEGIN :: contents ++ [SD_BUS_TYPE_STRUCT_END]) in
              smod (upd_last_container (set_c_signature (Some e)));;
              mret (length e));
  r ← align_struct contents;
  advance_index (fun _ => nindex);;
  mret r.

(** [bus_message_open_dict_entry] *)
Definition bus_message_open_dict_entry (contents : cstr) : stm message (Z * bool) :=
  sreq (signature_is_pair contents) EINVAL;;
  m ← sget;
  let c := message_get_last_container m in
  sreq (enclosing c =? SD_BUS_TYPE_ARRAY) ENXIO;;
  sreq (negb (sig_char c =? 0)) ENXIO;;
  sreq (bracketed c SD_BUS_TYPE_DICT_ENTRY_BEGIN SD_BUS_TYPE_DICT_ENTRY_END contents) ENXIO;;
  align_struct contents.

(** [sd_bus_message_open_container] *)
Definition sd_bus_message_open_container (type : Z) (contents : cstr) : stm message unit :=
  m ← sget;
  sreq (negb (sealed m)) EPERM;;
  sreq (negb (poisoned m)) ESTALE;;
  smod (upd_last_container (fun c => set_c_saved_index (index c) c));;
  let before := body_size m in
  '(array_size, begin, need_offsets) ←
    (if type =? SD_BUS_TYPE_ARRAY then bus_message_open_array contents
     else if type =? SD_BUS_TYPE_VARIANT then
       bus_message_open_variant contents;; mret (None, 0, false)
     else if type =? SD_BUS_TYPE_STRUCT then
       '(b, n) ← bus_message_open_struct contents; mret (None, b, n)
     else if type =? SD_BUS_TYPE_DICT_ENTRY then
       '(b, n) ← bus_message_open_dict_entry contents; mret (None, b, n)
     else sfail EINVAL);
  smod (fun m => set_containers (containers m ++
    [Container type need_offsets 0 0 (Some contents) before begin 0 array_size [] 0 0]) m).

(** [bus_message_close_array] *)
Definition write_words (a : nat) (ws : Z) (vs : list Z) : stm message unit :=
  foldr (fun '(i, v) k =>
    w ← slift (bus_gvariant_write_word_le ws v);
    smod (body_write (a + i * Z.to_nat ws) w);; k)
    (mret tt) (imap pair vs).

Definition bus_message_close_array (c : bus_container) : stm message unit :=
  m ← sget;
  if negb (BUS_MESSAGE_IS_GVARIANT m) then mret tt
  else if need_offsets c then
    let n_offsets := zlen (offsets c) in
    let payload := match last (offsets c) with
                   | Some o => wrap64 (o - begin c) | None => 0 end in
    let sz := bus_gvariant_determine_word_size payload n_offsets in
    a ← message_extend_body 1 (wrap64 (sz * n_offsets)) true false;
    write_words a sz (map (fun o => wrap64 (o - begin c)) (offsets c))
  else message_extend_body 1 0 true false;; mret tt.

(** [bus_message_close_variant] *)
Definition bus_message_close_variant (c : bus_container) : stm message unit :=
  m ← sget;
  if negb (BUS_MESSAGE_IS_GVARIANT m) then mret tt
  else
    s ← slift (match signature c with Some s => Ok s | None => Err EASSERT end);
    a ← message_extend_body 1 (1 + zlen s) true false;
    smod (body_write a (0 :: s)).

(** [bus_message_close_struct]: the first loop classifies the members (variable
    size or not, and whether it is the last); the offset table holds the end of
    each variable-size member but the last, in reverse order. *)
Fixpoint member_kinds (fuel : nat) (p : cstr) : res (list (bool * bool)) :=
  match fuel with
  | O => Err EASSERT
  | S fuel =>
      if deref p =? 0 then Ok []
      else
        n ← signature_element_length p;
        r ← bus_gvariant_is_fixed_size (take n p);
        l ← member_kinds fuel (drop n p);
        Ok ((r, char_at p n =? 0) :: l)
  end.

Definition needs_offset (k : bool * bool) : bool := negb (fst k) && negb (snd k).

Definition bus_message_close_struct (c : bus_container) (add_offset : bool)
    : stm message unit :=
  m ← sget;
  if negb (BUS_MESSAGE_IS_GVARIANT m) then mret tt
  else
    let s := default [] (signature c) in
    kinds ← slift (member_kinds (length s + 1) s);
    let n_variable := zlen (List.filter needs_offset kinds) in
    let fixed_size := forallb fst kinds in
    sreq (negb (need_offsets c) || (zlen kinds =? zlen (offsets c))) EASSERT;;
    sreq (need_offsets c || (n_variable =? 0)) EASSERT;;
    if bool_decide (s = []) then
      a ← message_extend_body 1 1 add_offset false;
      smod (body_write a [0])
    else if n_variable <=? 0 then
      alignment ← (if fixed_size then slift (bus_gvariant_get_alignment s) else mret 1);
      message_extend_body alignment 0 add_offset false;; mret tt
    else
      sreq (bool_decide (last (offsets c) = Some (body_size m))) EASSERT;;
      let sz := bus_gvariant_determine_word_size (wrap64 (body_size m - begin c)) n_variable in
      a ← message_extend_body 1 (wrap64 (sz * n_variable)) add_offset false;
      let ends := map snd (List.filter (fun ko => needs_offset (fst ko))
                             (zip kinds (offsets c))) in
      write_words a sz (rev (map (fun o => wrap64 (o - begin c)) ends)).

(** [sd_bus_message_close_container] *)
Definition sd_bus_message_close_container : stm message unit :=
  m ← sget;
  sreq (negb (sealed m)) EPERM;;
  sreq (bool_decide (containers m <> [])) EINVAL;;
  sreq (negb (poisoned m)) ESTALE;;
  let c := message_get_last_container m in
  sreq ((enclosing c =? SD_BUS_TYPE_ARRAY) || (sig_char c =? 0)) EINVAL;;
  smod (set_containers (removelast (containers m)));;
  if enclosing c =? SD_BUS_TYPE_ARRAY then bus_message_close_array c
  else if enclosing c =? SD_BUS_TYPE_VARIANT then bus_message_close_variant c
  else if in_set (enclosing c) [SD_BUS_TYPE_STRUCT; SD_BUS_TYPE_DICT_ENTRY] then
    bus_message_close_struct c true
  else sfail EASSERT.

(** ** Arrays of a fixed-size type, and of strings *)

(** [sd_bus_message_append_array_space]: where the elements go; [ptr] says whether
    the caller wants to know. Storing that through a NULL pointer is undefined. *)
Definition sd_bus_message_append_array_space (type size : Z) (ptr : bool) : stm message nat :=
  m ← sget;
  sreq (negb (sealed m)) EPERM;;
  sreq (bus_type_is_trivial type && negb (type =? SD_BUS_TYPE_BOOLEAN)) EINVAL;;
  sreq (ptr || (size =? 0)) EINVAL;;
  sreq (negb (poisoned m)) ESTALE;;
  align ← slift (bus_type_get_alignment type);
  sz ← slift (bus_type_get_size type);
  sreq (size mod sz =? 0) EINVAL;;
  sd_bus_message_open_container SD_BUS_TYPE_ARRAY [type];;
  a ← message_extend_body align size false false;
  sd_bus_message_close_container;;
  sreq ptr EASSERT;;
  mret a.

(** [sd_bus_message_append_array]: [size] bytes at [p], which is [None] for NULL *)
Definition sd_bus_message_append_array (type : Z) (p : option (list Z)) (size : Z) : stm message unit :=
  m ← sget;
  sreq (negb (sealed m)) EPERM;;
  sreq (bus_type_is_trivial type) EINVAL;;
  sreq (bool_decide (p <> None) || (size =? 0)) EINVAL;;
  sreq (negb (poisoned m)) ESTALE;;
  a ← sd_bus_message_append_array_space type size true;
  sreq (size <=? zlen (default [] p)) EASSERT;;
  smod (body_write a (take (Z.to_nat size) (default [] p))).

(** [sd_bus_message_append_array_iovec]: a segment with a NULL base is zeros. *)
Definition iovec_data (v : iovec) : list Z :=
  match fst v with Some b => b | None => zeros (Z.to_nat (snd v)) end.

Definition sd_bus_message_append_array_iovec (type : Z) (iov : list iovec) : stm message unit :=
  m ← sget;
  sreq (negb (sealed m)) EPERM;;
  sreq (bus_type_is_trivial type) EINVAL;;
  sreq (negb (poisoned m)) ESTALE;;
  p ← sd_bus_message_append_array_space type (foldr (fun v n => snd v + n) 0 iov) true;
  smod (body_write p (concat (map iovec_data iov))).

Section Appendv.
Variable dup_fd : Z -> res Z.

(** [sd_bus_message_append_strv] *)
Fixpoint append_strings (l : list cstr) : stm message unit :=
  match l with
  | [] => mret tt
  | s :: l => sd_bus_message_append_basic dup_fd SD_BUS_TYPE_STRING (Some (BStr s));; append_strings l
  end.

Definition sd_bus_message_append_strv (l : list cstr) : stm message unit :=
  m ← sget;
  sreq (negb (sealed m)) EPERM;;
  sreq (negb (poisoned m)) ESTALE;;
  sd_bus_message_open_container SD_BUS_TYPE_ARRAY [SD_BUS_TYPE_STRING];;
  append_strings l;;
  sd_bus_message_close_container.

(** [sd_bus_message_appendv]. The types still to do in the container, how many
    characters they are, and how many elements an array still has:
    [UINT32_MAX] outside of an array. *)
Record type_frame := TypeFrame { ts_types : cstr; ts_n_struct : Z; ts_n_array : Z }.

(** The variable arguments: an integer, or a string that may be NULL. Reading more
    than there are is undefined. [va_arg] and the conversion that follows *)
Definition va_basic (type : Z) (x : option basic_value) : option basic_value :=
  match x with
  | Some (BInt x) =>
      Some (BInt (if type =? SD_BUS_TYPE_BYTE then wrap8 x
                  else if in_set type [SD_BUS_TYPE_INT16; SD_BUS_TYPE_UINT16] then wrap16 x else x))
  | x => x
  end.

(** [type_stack_push] *)
Definition type_stack_push (f : type_frame) (stack : list type_frame) : res (list type_frame) :=
  if bool_decide (BUS_CONTAINER_DEPTH <= length stack)%nat then Err EINVAL else Ok (f :: stack).

(** The loop, of [rounds] rounds at most: an array of empty structs takes as many
    as its caller asks for. *)
Fixpoint appendv_loop (rounds : nat) (f : type_frame) (stack : list type_frame) (ap : list (option basic_value)) :
    stm message unit :=
  match rounds with
  | O => sfail EASSERT
  | S rounds =>
      if (ts_n_array f =? 0) || ((ts_n_array f =? UINT32_MAX) && (ts_n_struct f =? 0)) then
        match stack with
        | [] => mret tt
        | f :: stack => sd_bus_message_close_container;; appendv_loop rounds f stack ap
        end
      else
        let t := ts_types f in
        let c := deref t in
        let in_array := negb (ts_n_array f =? UINT32_MAX) in
        (* what is left of this container after [k] characters of its types *)
        let after k := if in_array then TypeFrame t (ts_n_struct f) (ts_n_array f - 1)
                       else TypeFrame (drop k t) (ts_n_struct f - Z.of_nat k) (ts_n_array f) in
        if bus_type_is_basic c then
          match ap with
          | [] => sfail EASSERT
          | x :: ap =>
              sd_bus_message_append_basic dup_fd c (va_basic c x);;
              appendv_loop rounds (after 1%nat) stack ap
          end
        else if c =? SD_BUS_TYPE_ARRAY then
          k ← slift (signature_element_length (tail t));
          sd_bus_message_open_container SD_BUS_TYPE_ARRAY (take k (tail t));;
          stack ← slift (type_stack_push (after (1 + k)%nat) stack);
          match ap with
          | Some (BInt n) :: ap => appendv_loop rounds (TypeFrame (tail t) (Z.of_nat k) (wrap32 n)) stack ap
          | _ => sfail EASSERT
          end
        else if c =? SD_BUS_TYPE_VARIANT then
          match ap with
          | Some (BStr s) :: ap =>
              sd_bus_message_open_container SD_BUS_TYPE_VARIANT s;;
              stack ← slift (type_stack_push (after 1%nat) stack);
              appendv_loop rounds (TypeFrame s (zlen s) UINT32_MAX) stack ap
          | None :: _ => sfail EINVAL
          | _ => sfail EASSERT
          end
        else if in_set c [SD_BUS_TYPE_STRUCT_BEGIN; SD_BUS_TYPE_DICT_ENTRY_BEGIN] then
          k ← slift (signature_element_length t);
          sd_bus_message_open_container
            (if c =? SD_BUS_TYPE_STRUCT_BEGIN then SD_BUS_TYPE_STRUCT else SD_BUS_TYPE_DICT_ENTRY)
            (take (k - 2) (tail t));;
          stack ← slift (type_stack_push (after k) stack);
          appendv_loop rounds (TypeFrame (tail t) (Z.of_nat k - 2) UINT32_MAX) stack ap
        else sfail EINVAL
  end.

Definition sd_bus_message_appendv (rounds : nat) (types : cstr) (ap : list (option basic_value)) : stm message unit :=
  m ← sget;
  sreq (negb (sealed m)) EPERM;;
  sreq (negb (poisoned m)) ESTALE;;
  appendv_loop rounds (TypeFrame types (zlen types) UINT32_MAX) [] ap.
End Appendv.
