(* ===== verification/MsgFields.v ===== *)
(** * Message headers and sealing ([src/libsystemd/sd-bus/bus-message.c])

    The header fields of a message being built, the constructors, the flag and
    name accessors, and [sd_bus_message_seal], which fixes the header and makes
    the message readable; [bus_message_get_blob] is the wire form. *)
From S2P Require Import Prelude BusType Signature Names Gvariant MsgState MsgWrite.

(** ** Header fields *)
Definition BUS_MESSAGE_HEADER_PATH : Z := 1.
Definition BUS_MESSAGE_HEADER_INTERFACE : Z := 2.
Definition BUS_MESSAGE_HEADER_MEMBER : Z := 3.
Definition BUS_MESSAGE_HEADER_ERROR_NAME : Z := 4.
Definition BUS_MESSAGE_HEADER_REPLY_SERIAL : Z := 5.
Definition BUS_MESSAGE_HEADER_DESTINATION : Z := 6.
Definition BUS_MESSAGE_HEADER_SENDER : Z := 7.
Definition BUS_MESSAGE_HEADER_SIGNATURE : Z := 8.
Definition BUS_MESSAGE_HEADER_UNIX_FDS : Z := 9.

Definition BUS_MESSAGE_NO_REPLY_EXPECTED : Z := 1.
Definition BUS_MESSAGE_NO_AUTO_START : Z := 2.
Definition BUS_MESSAGE_ALLOW_INTERACTIVE_AUTHORIZATION : Z := 4.

(** [message_extend_fields]: where the [sz] new bytes are, relative to the start
    of the fields. *)
Definition message_extend_fields (align sz : Z) (add_offset : bool) : stm message nat :=
  fun m =>
  if poisoned m then (Err ENOMEM, m)
  else
    let old_size := BUS_HEADER_SIZE + fields_size m in
    let start := ALIGN_TO old_size align in
    let new_size := wrap64 (start + sz) in
    if (new_size <? start) || (UINT32_MAX <? new_size)
    then (Err ENOMEM, set_poisoned true m)
    else if old_size =? new_size then (Ok (length (fields m)), m)
    else
      let m := set_fields (fields m ++ zeros (Z.to_nat (start - old_size))
                             ++ room sz) m in
      if add_offset then
        if bool_decide (_BUS_MESSAGE_HEADER_MAX <= length (header_offsets m))%nat
        then (Err ENOMEM, set_poisoned true m)
        else (Ok (Z.to_nat (start - BUS_HEADER_SIZE)),
              set_header_offsets (header_offsets m ++ [new_size - BUS_HEADER_SIZE]) m)
      else (Ok (Z.to_nat (start - BUS_HEADER_SIZE)), m).

Definition fields_write (off : nat) (bytes : list Z) (m : message) : message :=
  set_fields (splice off bytes (fields m)) m.

(** [p = message_extend_fields(...)] and the stores through [p]. *)
Definition append_field_bytes (bytes : list Z) (add_offset : bool) : stm message unit :=
  p ← message_extend_fields 8 (zlen bytes) add_offset;
  smod (fields_write p bytes).

(** [message_append_field_string] *)
Definition message_append_field_string (h type : Z) (s : cstr) : stm message unit :=
  m ← sget;
  sreq (negb (0xFF <? h)) EINVAL;;
  sreq (negb (UINT32_MAX <? zlen s)) EINVAL;;
  if BUS_MESSAGE_IS_GVARIANT m then
    append_field_bytes (le_bytes 8 h ++ s ++ [0; 0; type]) true
  else
    append_field_bytes ([wrap8 h; 1; type; 0] ++ le_bytes 4 (zlen s) ++ s ++ [0]) false.

(** [message_append_field_signature] *)
Definition message_append_field_signature (h : Z) (s : cstr) : stm message unit :=
  m ← sget;
  sreq (negb (0xFF <? h)) EINVAL;;
  sreq (negb (255 <? zlen s)) EINVAL;;
  if BUS_MESSAGE_IS_GVARIANT m then message_append_field_string h (ch "g") s
  else
    append_field_bytes ([wrap8 h; 1; SD_BUS_TYPE_SIGNATURE; 0; zlen s] ++ s ++ [0]) false.

(** [message_append_field_uint32] *)
Definition message_append_field_uint32 (h x : Z) : stm message unit :=
  m ← sget;
  sreq (negb (0xFF <? h)) EINVAL;;
  if BUS_MESSAGE_IS_GVARIANT m then
    append_field_bytes (le_bytes 8 h ++ le_bytes 4 x ++ [0; ch "u"]) true
  else append_field_bytes ([wrap8 h; 1; ch "u"; 0] ++ le_bytes 4 x) false.

(** [message_append_field_uint64] *)
Definition message_append_field_uint64 (h x : Z) : stm message unit :=
  m ← sget;
  sreq (negb (0xFF <? h)) EINVAL;;
  if BUS_MESSAGE_IS_GVARIANT m then
    append_field_bytes (le_bytes 8 h ++ le_bytes 8 x ++ [0; ch "t"]) true
  else append_field_bytes ([wrap8 h; 1; ch "t"; 0; 0; 0; 0; 0] ++ le_bytes 8 x) false.

(** [message_append_reply_cookie] *)
Definition message_append_reply_cookie (cookie : Z) : stm message unit :=
  m ← sget;
  if BUS_MESSAGE_IS_GVARIANT m then
    message_append_field_uint64 BUS_MESSAGE_HEADER_REPLY_SERIAL cookie
  else
    sreq (negb (0xffffffff <? cookie)) EOPNOTSUPP;;
    message_append_field_uint32 BUS_MESSAGE_HEADER_REPLY_SERIAL (wrap32 cookie).

(** ** Constructors *)

(** What a message takes from its [sd_bus]. *)
Inductive bus_state :=
  | BUS_UNSET | BUS_OPENING | BUS_AUTHENTICATING | BUS_HELLO | BUS_RUNNING
  | BUS_CLOSING | BUS_CLOSED.

#[export] Instance bus_state_eq_dec : EqDecision bus_state.
Proof. solve_decision. Defined.

Record sd_bus := Bus {
  bus_state_of : bus_state;
  message_version : Z;
  can_fds : bool;
  allow_interactive_authorization : bool;
  unique_name : option cstr }.

Definition empty_container (enc : Z) (need : bool) : bus_container :=
  Container enc need 0 0 None 0 0 0 None [] 0 0.

(** [sd_bus_message_new] *)
Definition sd_bus_message_new (bus : sd_bus) (type : Z) : res message :=
  _ ← require (negb (bool_decide (bus_state_of bus = BUS_UNSET))) ENOTCONN;
  _ ← require (type <? _SD_BUS_MESSAGE_TYPE_MAX) EINVAL;
  let flags := if allow_interactive_authorization bus
               then BUS_MESSAGE_ALLOW_INTERACTIVE_AUTHORIZATION else 0 in
  let fds_ok := can_fds bus ||
    negb (bool_decide (bus_state_of bus = BUS_HELLO \/ bus_state_of bus = BUS_RUNNING)) in
  Ok {| hdr := Header BUS_NATIVE_ENDIAN type flags (message_version bus) 0 0 0 0;
        sealed := false; poisoned := false; dont_send := false; allow_fds := fds_ok;
        fields := []; header_offsets := []; parts := [];
        body_size := 0; user_body_size := 0; rindex := 0; fds := [];
        root_container := empty_container 0 (message_version bus =? 2);
        containers := []; path := None; interface := None; member := None;
        destination := None; sender := None; error_name := None;
        reply_cookie := 0; enforced_reply_signature := None; timeout := 0;
        footer := [] |}.

Definition or_flag (f : Z) (m : message) : message :=
  set_hdr (set_h_flags (Z.lor (h_flags (hdr m)) f) (hdr m)) m.

(** Append a string field and keep it in the quick access member [set]. *)
Definition append_string_field (h type : Z) (s : cstr)
    (set : option cstr -> message -> message) : stm message unit :=
  message_append_field_string h type s;; smod (set (Some s)).

(** Run the building steps on a fresh message; an error drops it. *)
Definition build (m : message) (f : stm message unit) : res message :=
  match f m with (Ok _, m') => Ok m' | (Err e, _) => Err e end.

(** [sd_bus_message_new_signal]; a failure of [sd_bus_message_new] is reported
    as -ENOMEM. *)
Definition or_enomem {A} (r : res A) : res A :=
  match r with Ok a => Ok a | Err _ => Err ENOMEM end.

Definition sd_bus_message_new_signal (bus : sd_bus) (p i mem : cstr) : res message :=
  _ ← require (negb (bool_decide (bus_state_of bus = BUS_UNSET))) ENOTCONN;
  _ ← require (object_path_is_valid p) EINVAL;
  _ ← require (interface_name_is_valid i) EINVAL;
  _ ← require (member_name_is_valid mem) EINVAL;
  t ← or_enomem (sd_bus_message_new bus SD_BUS_MESSAGE_SIGNAL);
  build (or_flag BUS_MESSAGE_NO_REPLY_EXPECTED t)
    (append_string_field BUS_MESSAGE_HEADER_PATH SD_BUS_TYPE_OBJECT_PATH p set_path;;
     append_string_field BUS_MESSAGE_HEADER_INTERFACE SD_BUS_TYPE_STRING i set_interface;;
     append_string_field BUS_MESSAGE_HEADER_MEMBER SD_BUS_TYPE_STRING mem set_member).

Definition opt_string_field (h : Z) (o : option cstr)
    (set : option cstr -> message -> message) : stm message unit :=
  match o with
  | Some s => append_string_field h SD_BUS_TYPE_STRING s set
  | None => mret tt
  end.

Definition opt_valid (f : cstr -> bool) (o : option cstr) : bool :=
  match o with None => true | Some s => f s end.

(** [sd_bus_message_new_method_call] *)
Definition sd_bus_message_new_method_call (bus : sd_bus) (dest : option cstr) (p : cstr)
    (i : option cstr) (mem : cstr) : res message :=
  _ ← require (negb (bool_decide (bus_state_of bus = BUS_UNSET))) ENOTCONN;
  _ ← require (opt_valid service_name_is_valid dest) EINVAL;
  _ ← require (object_path_is_valid p) EINVAL;
  _ ← require (opt_valid interface_name_is_valid i) EINVAL;
  _ ← require (member_name_is_valid mem) EINVAL;
  t ← or_enomem (sd_bus_message_new bus SD_BUS_MESSAGE_METHOD_CALL);
  build t
    (append_string_field BUS_MESSAGE_HEADER_PATH SD_BUS_TYPE_OBJECT_PATH p set_path;;
     append_string_field BUS_MESSAGE_HEADER_MEMBER SD_BUS_TYPE_STRING mem set_member;;
     opt_string_field BUS_MESSAGE_HEADER_INTERFACE i set_interface;;
     opt_string_field BUS_MESSAGE_HEADER_DESTINATION dest set_destination).

(** [message_new_reply]; [bus] is [call->bus]. *)
Definition message_new_reply (bus : sd_bus) (call : message) (type : Z) : res message :=
  _ ← require (sealed call) EPERM;
  _ ← require (h_type (hdr call) =? SD_BUS_MESSAGE_METHOD_CALL) EINVAL;
  _ ← require (negb (bool_decide (bus_state_of bus = BUS_UNSET))) ENOTCONN;
  let cookie := BUS_MESSAGE_COOKIE call in
  if cookie =? 0 then Err EOPNOTSUPP
  else
    t ← or_enomem (sd_bus_message_new bus type);
    build (set_reply_cookie cookie (or_flag BUS_MESSAGE_NO_REPLY_EXPECTED t))
      (message_append_reply_cookie cookie;;
       opt_string_field BUS_MESSAGE_HEADER_DESTINATION (sender call) set_destination;;
       smod (set_dont_send (negb
         (Z.land (h_flags (hdr call)) BUS_MESSAGE_NO_REPLY_EXPECTED =? 0)));;
       smod (set_enforced_reply_signature (enforced_reply_signature call))).

Definition sd_bus_message_new_method_return (bus : sd_bus) (call : message) : res message :=
  message_new_reply bus call SD_BUS_MESSAGE_METHOD_RETURN.

(** [sd_bus_message_new_method_error] with a set error: its name and message.
    No descriptor is appended, so [dup_fd] is not called. *)
Definition no_dup (_ : Z) : res Z := Err EASSERT.

Definition append_error (name : cstr) (msg : option cstr) : stm message unit :=
  append_string_field BUS_MESSAGE_HEADER_ERROR_NAME SD_BUS_TYPE_STRING name set_error_name;;
  match msg with
  | Some s => message_append_basic no_dup SD_BUS_TYPE_STRING (Some (BStr s))
  | None => mret tt
  end.

Definition sd_bus_message_new_method_error (bus : sd_bus) (call : message)
    (name : cstr) (msg : option cstr) : res message :=
  t ← message_new_reply bus call SD_BUS_MESSAGE_METHOD_ERROR;
  build t (append_error name msg).

(** [bus_message_new_synthetic_error], the sender set by
    [bus_message_set_sender_driver] without a header field *)
Definition bus_message_new_synthetic_error (bus : sd_bus) (cookie : Z)
    (name : cstr) (msg : option cstr) : res message :=
  t ← or_enomem (sd_bus_message_new bus SD_BUS_MESSAGE_METHOD_ERROR);
  build (set_reply_cookie cookie (or_flag BUS_MESSAGE_NO_REPLY_EXPECTED t))
    (message_append_reply_cookie cookie;;
     opt_string_field BUS_MESSAGE_HEADER_DESTINATION (unique_name bus) set_destination;;
     append_error name msg;;
     smod (set_sender (Some (bs "org.freedesktop.DBus")))).

(** ** Accessors *)
Definition sd_bus_message_get_cookie (m : message) : res Z :=
  if BUS_MESSAGE_COOKIE m =? 0 then Err ENODATA else Ok (BUS_MESSAGE_COOKIE m).

Definition sd_bus_message_get_reply_cookie (m : message) : res Z :=
  if reply_cookie m =? 0 then Err ENODATA else Ok (reply_cookie m).

Definition has_flag (f : Z) (m : message) : bool := negb (Z.land (h_flags (hdr m)) f =? 0).

Definition sd_bus_message_get_expect_reply (m : message) : bool :=
  (h_type (hdr m) =? SD_BUS_MESSAGE_METHOD_CALL) && negb (has_flag BUS_MESSAGE_NO_REPLY_EXPECTED m).

Definition sd_bus_message_get_auto_start (m : message) : bool :=
  negb (has_flag BUS_MESSAGE_NO_AUTO_START m).

Definition sd_bus_message_get_allow_interactive_authorization (m : message) : bool :=
  (h_type (hdr m) =? SD_BUS_MESSAGE_METHOD_CALL) &&
  has_flag BUS_MESSAGE_ALLOW_INTERACTIVE_AUTHORIZATION m.

(** [SET_FLAG] on the 8-bit flags *)
Definition set_flag (f : Z) (b : bool) (m : message) : message :=
  let v := h_flags (hdr m) in
  set_hdr (set_h_flags (if b then Z.lor v f else Z.land v (wrap8 (Z.lnot f))) (hdr m)) m.

Definition sd_bus_message_set_expect_reply (b : bool) : stm message unit :=
  m ← sget;
  sreq (negb (sealed m)) EPERM;;
  sreq (h_type (hdr m) =? SD_BUS_MESSAGE_METHOD_CALL) EPERM;;
  smod (set_flag BUS_MESSAGE_NO_REPLY_EXPECTED (negb b)).

Definition sd_bus_message_set_auto_start (b : bool) : stm message unit :=
  m ← sget;
  sreq (negb (sealed m)) EPERM;;
  smod (set_flag BUS_MESSAGE_NO_AUTO_START (negb b)).

Definition sd_bus_message_set_allow_interactive_authorization (b : bool) : stm message unit :=
  m ← sget;
  sreq (negb (sealed m)) EPERM;;
  smod (set_flag BUS_MESSAGE_ALLOW_INTERACTIVE_AUTHORIZATION b).

(** [a && !streq_ptr(b, a)] is the mismatch these three return 0 on. *)
Definition matches (want have : option cstr) : bool :=
  match want with None => true | Some w => bool_decide (have = Some w) end.

Definition sd_bus_message_is_signal (m : message) (i mem : option cstr) : bool :=
  (h_type (hdr m) =? SD_BUS_MESSAGE_SIGNAL) && matches i (interface m) && matches mem (member m).

Definition sd_bus_message_is_method_call (m : message) (i mem : option cstr) : bool :=
  (h_type (hdr m) =? SD_BUS_MESSAGE_METHOD_CALL) && matches i (interface m) && matches mem (member m).

Definition sd_bus_message_is_method_error (m : message) (name : option cstr) : bool :=
  (h_type (hdr m) =? SD_BUS_MESSAGE_METHOD_ERROR) && matches name (error_name m).

(** [sd_bus_message_set_destination], [sd_bus_message_set_sender] *)
Definition sd_bus_message_set_destination (d : cstr) : stm message unit :=
  sreq (service_name_is_valid d) EINVAL;;
  m ← sget;
  sreq (negb (sealed m)) EPERM;;
  sreq (bool_decide (destination m = None)) EEXIST;;
  append_string_field BUS_MESSAGE_HEADER_DESTINATION SD_BUS_TYPE_STRING d set_destination.

Definition sd_bus_message_set_sender (s : cstr) : stm message unit :=
  sreq (service_name_is_valid s) EINVAL;;
  m ← sget;
  sreq (negb (sealed m)) EPERM;;
  sreq (bool_decide (sender m = None)) EEXIST;;
  append_string_field BUS_MESSAGE_HEADER_SENDER SD_BUS_TYPE_STRING s set_sender.

(** ** Sealing *)

(** [write_words] into the fields *)
Definition fields_write_words (a : nat) (ws : Z) (vs : list Z) : stm message unit :=
  foldr (fun '(i, v) k =>
    w ← slift (bus_gvariant_write_word_le ws v);
    smod (fields_write (a + i * Z.to_nat ws) w);; k)
    (mret tt) (imap pair vs).

(** [bus_message_close_header] *)
Definition bus_message_close_header : stm message unit :=
  smod (fun m => set_user_body_size (body_size m) m);;
  m ← sget;
  if BUS_MESSAGE_IS_GVARIANT m then
    (if bool_decide (header_offsets m = []) then mret tt
     else
       sreq (bool_decide (last (header_offsets m) = Some (fields_size m))) EASSERT;;
       let sz := bus_gvariant_determine_word_size (fields_size m) (zlen (header_offsets m)) in
       a ← message_extend_fields 1 (wrap64 (sz * zlen (header_offsets m))) false;
       fields_write_words a sz (header_offsets m));;
    m ← sget;
    let s := default [] (signature (root_container m)) in
    let l := zlen s in
    let sz := bus_gvariant_determine_word_size
      (wrap64 (BUS_HEADER_SIZE + ALIGN8 (fields_size m) + body_size m + 1 + l + 2)) 1 in
    d ← message_extend_body 1 (1 + l + 2 + sz) false true;
    w ← slift (bus_gvariant_write_word_le sz (BUS_HEADER_SIZE + fields_size m));
    let bytes := [0; SD_BUS_TYPE_STRUCT_BEGIN] ++ s ++ [SD_BUS_TYPE_STRUCT_END] ++ w in
    smod (body_write d bytes);;
    smod (set_footer bytes)
  else
    smod (fun m => set_hdr (set_h_fields_size (wrap32 (fields_size m))
      (set_h_body_size (wrap32 (body_size m)) (hdr m))) m).

(** [sd_bus_message_seal]. The padding after the fields is zeroed in memory
    beyond [fields_size]; [bus_message_get_blob] writes it. Sealing of memfd parts
    does not apply: the model has none. *)
Definition sd_bus_message_seal (cookie timeout_usec : Z) : stm message unit :=
  m ← sget;
  sreq (negb (sealed m)) EPERM;;
  sreq (bool_decide (containers m = [])) EBADMSG;;
  sreq (negb (poisoned m)) ESTALE;;
  sreq (negb ((0xffffffff <? cookie) && negb (BUS_MESSAGE_IS_GVARIANT m))) EOPNOTSUPP;;
  sreq (negb ((h_type (hdr m) =? SD_BUS_MESSAGE_METHOD_RETURN) &&
    match enforced_reply_signature m with
    | None => false
    | Some e => negb (streq (default [] (signature (root_container m))) e)
    end)) ENOMSG;;
  bus_message_close_struct (root_container m) false;;
  (if negb (bool_decide (default [] (signature (root_container m)) = [])) &&
      negb (BUS_MESSAGE_IS_GVARIANT m)
   then message_append_field_signature BUS_MESSAGE_HEADER_SIGNATURE
          (default [] (signature (root_container m)))
   else mret tt);;
  (if 0 <? zlen (fds m)
   then message_append_field_uint32 BUS_MESSAGE_HEADER_UNIX_FDS (zlen (fds m))
   else mret tt);;
  bus_message_close_header;;
  smod (fun m => set_hdr
    (if BUS_MESSAGE_IS_GVARIANT m then set_h_cookie cookie (hdr m)
     else set_h_serial (wrap32 cookie) (hdr m)) m);;
  smod (fun m => set_timeout
    (if has_flag BUS_MESSAGE_NO_REPLY_EXPECTED m then 0 else timeout_usec) m);;
  smod (fun m => set_root_container
    (set_c_item_size (default 0 (head (offsets (root_container m))))
      (set_c_offset_index 0 (set_c_index 0
        (set_c_end_ (user_body_size m) (root_container m))))) m);;
  smod (set_sealed true).

(** ** The wire form *)

(** The 16 bytes of [struct bus_header]. *)
Definition header_bytes (h : bus_header) : list Z :=
  [h_endian h; h_type h; h_flags h; h_version h] ++
  (if h_version h =? 2 then le_bytes 4 0 ++ le_bytes 8 (h_cookie h)
   else le_bytes 4 (h_body_size h) ++ le_bytes 4 (h_serial h) ++ le_bytes 4 (h_fields_size h)).

(** [bus_message_get_blob]: header, fields, padding to 8, body. *)
Definition bus_message_get_blob (m : message) : list Z :=
  header_bytes (hdr m) ++ fields m ++
  zeros (Z.to_nat (ALIGN8 (fields_size m) - fields_size m)) ++ body m.
