(* ===== verification/MsgRead.v ===== *)
(** * Reading messages ([src/libsystemd/sd-bus/bus-message.c])

    Peeking into the body, reading basic values, and entering and leaving
    containers of a sealed message, for both wire formats. *)
From S2P Require Import Prelude BusType Signature Names Utf8 Gvariant MsgState MsgWrite.

(** ** Peeking *)

(** [buffer_peek] on the fields of the header *)
Definition buffer_peek (p : list Z) (rindex align nbytes : Z) : res (Z * list Z) :=
  let start := ALIGN_TO rindex align in
  let e := wrap64 (start + nbytes) in
  if zlen p <? e then Err EBADMSG
  else if negb (forallb (Z.eqb 0)
                 (take (Z.to_nat (start - rindex)) (drop (Z.to_nat rindex) p)))
  then Err EBADMSG
  else Ok (e, take (Z.to_nat nbytes) (drop (Z.to_nat start) p)).

(** [find_part]: the [sz] bytes at [index], if one part holds them all. The
    message's own first part is there even when it has no body. *)
Fixpoint find_part_loop (index sz begin : Z) (ps : list body_part) : option (list Z) :=
  match ps with
  | [] => None
  | p :: ps =>
      if index <? begin then None
      else if index + sz <=? begin + part_size p then
        Some (take (Z.to_nat sz) (drop (Z.to_nat (index - begin)) (part_data p)))
      else find_part_loop index sz (begin + part_size p) ps
  end.

Definition find_part (m : message) (index sz : Z) : option (list Z) :=
  find_part_loop index sz 0
    (match parts m with [] => [Part [] false false] | ps => ps end).

(** The search as the code does it: from the part found last, when the index is
    not before it. [k] is that part's number and [begin] its position. *)
Definition find_part_cached (m : message) (cache : option (nat * Z)) (index sz : Z)
    : option (list Z) :=
  match cache with
  | Some (k, begin) =>
      if begin <=? index then find_part_loop index sz begin (drop k (parts m))
      else find_part m index sz
  | None => find_part m index sz
  end.

(** [message_peek_body]: the new [rindex] and the bytes read. *)
Definition message_peek_body (m : message) (rindex align nbytes : Z) : res (Z * list Z) :=
  let start := ALIGN_TO rindex align in
  let padding := wrap64 (start - rindex) in
  let e := wrap64 (start + nbytes) in
  if user_body_size m <? e then Err EBADMSG
  else match find_part m rindex padding with
       | None => Err EBADMSG
       | Some q =>
           if negb (forallb (Z.eqb 0) q) then Err EBADMSG
           else match find_part m start nbytes with
                | None => Err EBADMSG
                | Some q => Ok (e, q)
                end
       end.

(** [message_end_of_signature], [message_end_of_array] *)
Definition message_end_of_signature (m : message) : bool :=
  sig_char (message_get_last_container m) =? 0.

Definition array_length (m : message) (c : bus_container) : res Z :=
  match array_size c with
  | None => Err EASSERT
  | Some a => Ok (BUS_MESSAGE_BSWAP m 4 (body_read32 a m))
  end.

Definition message_end_of_array (m : message) (i : Z) : res bool :=
  let c := message_get_last_container m in
  if negb (enclosing c =? SD_BUS_TYPE_ARRAY) then Ok false
  else if BUS_MESSAGE_IS_GVARIANT m then Ok (end_ c <=? i)
  else l ← array_length m c; Ok (begin c + l <=? i).

(** [sd_bus_message_at_end] *)
Definition sd_bus_message_at_end (m : message) (complete : bool) : res bool :=
  _ ← require (sealed m) EPERM;
  if complete && negb (bool_decide (containers m = [])) then Ok false
  else if message_end_of_signature m then Ok true
  else message_end_of_array m (rindex m).

(** ** Moving to the next item (GVariant only) *)

(** [container_next_item]: the new [rindex] and the container. *)
Definition container_next_item (m : message) (c : bus_container) (ri : Z)
    : res (Z * bus_container) :=
  let at_end := Ok (end_ c, set_c_item_size 0 c) in
  let s := default [] (signature c) in
  (* the member after [offset_index], aligned to [alignment] *)
  let next alignment :=
    match offsets c !! offset_index c, offsets c !! S (offset_index c) with
    | Some o, Some o' =>
        let ri := ALIGN_TO o alignment in
        _ ← require (ri <=? o') EASSERT;
        Ok (ri, set_c_offset_index (S (offset_index c)) (set_c_item_size (o' - ri) c))
    | _, _ => Err EASSERT
    end in
  if negb (BUS_MESSAGE_IS_GVARIANT m) then Ok (ri, c)
  else if enclosing c =? SD_BUS_TYPE_ARRAY then
    match bus_gvariant_get_size s with
    | Err _ =>
        if bool_decide (length (offsets c) <= offset_index c + 1)%nat then at_end
        else
          alignment ← bus_gvariant_get_alignment s;
          next alignment
    | Ok sz =>
        if (wrap64 (end_ c - begin c)) / sz <=? Z.of_nat (offset_index c) + 1 then at_end
        else Ok (begin c + (Z.of_nat (offset_index c) + 1) * sz,
                 set_c_offset_index (S (offset_index c)) (set_c_item_size sz c))
    end
  else if in_set (enclosing c) [0; SD_BUS_TYPE_STRUCT; SD_BUS_TYPE_DICT_ENTRY] then
    if bool_decide (length (offsets c) <= offset_index c + 1)%nat then at_end
    else
      n ← signature_element_length (drop (index c) s);
      j ← signature_element_length (drop (index c + n) s);
      alignment ← bus_gvariant_get_alignment (take j (drop (index c + n) s));
      next alignment
  else if enclosing c =? SD_BUS_TYPE_VARIANT then at_end
  else Err EASSERT.

(** ** Validation of strings; [s] holds the [l] characters and the byte after *)
Definition validate_nul (s : list Z) (l : nat) : bool :=
  forallb (fun c => negb (c =? 0)) (take l s) && (char_at s l =? 0).

Definition validate_string (s : list Z) (l : nat) : bool :=
  validate_nul s l && utf8_is_valid (take l s).

Definition validate_signature (s : list Z) (l : nat) : bool :=
  validate_nul s l && signature_is_valid (take l s) true.

Definition validate_object_path (s : list Z) (l : nat) : bool :=
  validate_nul s l && object_path_is_valid (take l s).

(** ** Basic values *)

(** The value of a fixed-size type in the bytes [q]. *)
Definition read_fixed (m : message) (type : Z) (q : list Z) : res basic_value :=
  if type =? SD_BUS_TYPE_BYTE then Ok (BInt (le_val q))
  else if type =? SD_BUS_TYPE_BOOLEAN then Ok (BInt (if le_val q =? 0 then 0 else 1))
  else if in_set type [SD_BUS_TYPE_INT16; SD_BUS_TYPE_UINT16] then
    Ok (BInt (BUS_MESSAGE_BSWAP m 2 (le_val q)))
  else if in_set type [SD_BUS_TYPE_INT32; SD_BUS_TYPE_UINT32] then
    Ok (BInt (BUS_MESSAGE_BSWAP m 4 (le_val q)))
  else if in_set type [SD_BUS_TYPE_INT64; SD_BUS_TYPE_UINT64; SD_BUS_TYPE_DOUBLE] then
    Ok (BInt (BUS_MESSAGE_BSWAP m 8 (le_val q)))
  else if type =? SD_BUS_TYPE_UNIX_FD then
    let j := BUS_MESSAGE_BSWAP m 4 (le_val q) in
    match (if zlen (fds m) <=? j then None else fds m !! Z.to_nat j) with
    | None => Err EBADMSG
    | Some fd => Ok (BInt fd)
    end
  else Err EASSERT.

(** The GVariant and the D-Bus 1 branch of [sd_bus_message_read_basic]: the
    [rindex] after the value, and the value. *)
Definition read_basic_gvariant (m : message) (c : bus_container) (type : Z)
    : res (Z * basic_value) :=
  if in_set type [SD_BUS_TYPE_STRING; SD_BUS_TYPE_OBJECT_PATH; SD_BUS_TYPE_SIGNATURE] then
    if item_size c =? 0 then Err EBADMSG
    else
      '(ri, q) ← message_peek_body m (rindex m) 1 (item_size c);
      let l := Z.to_nat (item_size c - 1) in
      let ok := if type =? SD_BUS_TYPE_STRING then validate_string q l
                else if type =? SD_BUS_TYPE_OBJECT_PATH then validate_object_path q l
                else validate_signature q l in
      _ ← require ok EBADMSG;
      Ok (ri, BStr (take l q))
  else
    sz ← bus_gvariant_get_size [type];
    if negb (sz =? item_size c) then Err EBADMSG
    else
      align ← bus_gvariant_get_alignment [type];
      '(ri, q) ← message_peek_body m (rindex m) align (item_size c);
      v ← read_fixed m type q;
      Ok (ri, v).

Definition read_basic_dbus1 (m : message) (type : Z) : res (Z * basic_value) :=
  if in_set type [SD_BUS_TYPE_STRING; SD_BUS_TYPE_OBJECT_PATH] then
    '(ri, q) ← message_peek_body m (rindex m) 4 4;
    let l := BUS_MESSAGE_BSWAP m 4 (le_val q) in
    if l =? UINT32_MAX then Err EBADMSG
    else
      '(ri, q) ← message_peek_body m ri 1 (l + 1);
      let ok := if type =? SD_BUS_TYPE_OBJECT_PATH then validate_object_path q (Z.to_nat l)
                else validate_string q (Z.to_nat l) in
      _ ← require ok EBADMSG;
      Ok (ri, BStr (take (Z.to_nat l) q))
  else if type =? SD_BUS_TYPE_SIGNATURE then
    '(ri, q) ← message_peek_body m (rindex m) 1 1;
    let l := le_val q in
    if l =? 255 then Err EBADMSG
    else
      '(ri, q) ← message_peek_body m ri 1 (l + 1);
      _ ← require (validate_signature q (Z.to_nat l)) EBADMSG;
      Ok (ri, BStr (take (Z.to_nat l) q))
  else
    align ← bus_type_get_alignment type;
    sz ← bus_type_get_size type;
    '(ri, q) ← message_peek_body m (rindex m) align sz;
    v ← read_fixed m type q;
    Ok (ri, v).

(** [sd_bus_message_read_basic]: [None] is the return value 0 at the end of an
    array, [Some v] the return value 1. *)
Definition sd_bus_message_read_basic (type : Z) : stm message (option basic_value) :=
  m ← sget;
  sreq (sealed m) EPERM;;
  sreq (bus_type_is_basic type) EINVAL;;
  sreq (negb (message_end_of_signature m)) ENXIO;;
  eoa ← slift (message_end_of_array m (rindex m));
  if eoa : bool then mret None
  else
    let c := message_get_last_container m in
    sreq (sig_char c =? type) ENXIO;;
    '(ri, v, c) ← slift
      (if BUS_MESSAGE_IS_GVARIANT m then
         '(ri, v) ← read_basic_gvariant m c type;
         '(ri, c) ← container_next_item m c ri;
         Ok (ri, v, c)
       else
         '(ri, v) ← read_basic_dbus1 m type;
         Ok (ri, v, c));
    smod (upd_last_container (fun _ => c));;
    smod (set_rindex ri);;
    advance_index (fun c => S (index c));;
    mret (Some v).

(** ** Entering containers *)

(** What entering a container finds: the new [rindex], [array_size],
    [item_size] and [offsets]. *)
Record entered := Entered {
  e_rindex : Z; e_array_size : option nat; e_item_size : Z; e_offsets : list Z }.

(** The offset table of a variable-width array: each entry at least the aligned
    previous one and inside the array. *)
Fixpoint array_offsets (q : list Z) (sz ri item_size alignment previous : Z) (n : nat)
    : res (list Z) :=
  match n with
  | O => Ok []
  | S n =>
      x ← bus_gvariant_read_word_le q sz;
      if wrap64 (item_size - sz) <? x then Err EBADMSG
      else if x <? ALIGN_TO previous alignment then Err EBADMSG
      else
        l ← array_offsets (drop (Z.to_nat sz) q) sz ri item_size alignment x n;
        Ok (ri + x :: l)
  end.

(** [bus_message_enter_array] *)
Definition bus_message_enter_array (m : message) (c : bus_container) (contents : cstr)
    : res entered :=
  let ri := rindex m in
  _ ← require (signature_is_single contents true) EINVAL;
  _ ← require (negb (sig_char c =? 0)) ENXIO;
  _ ← require (sig_char c =? SD_BUS_TYPE_ARRAY) ENXIO;
  _ ← require (bool_decide (is_Some (startswith
        (drop (index c + 1) (default [] (signature c))) contents))) ENXIO;
  if negb (BUS_MESSAGE_IS_GVARIANT m) then
    '(ri, q) ← message_peek_body m ri 4 4;
    if BUS_ARRAY_MAX_SIZE <? BUS_MESSAGE_BSWAP m 4 (le_val q) then Err EBADMSG
    else
      let a := Z.to_nat (ri - 4) in
      alignment ← bus_type_get_alignment (deref contents);
      '(ri, _) ← message_peek_body m ri alignment 0;
      Ok (Entered ri (Some a) 0 [])
  else if item_size c <=? 0 then Ok (Entered ri None 0 [])
  else if match bus_gvariant_is_fixed_size contents with Ok b => b | Err _ => true end then
    sz ← bus_gvariant_get_size contents;
    Ok (Entered ri None sz [])
  else
    let sz := bus_gvariant_determine_word_size (item_size c) 0 in
    '(_, q) ← message_peek_body m (wrap64 (ri + item_size c - sz)) 1 sz;
    framing ← bus_gvariant_read_word_le q sz;
    if wrap64 (item_size c - sz) <? framing then Err EBADMSG
    else if negb ((item_size c - framing) mod sz =? 0) then Err EBADMSG
    else
      let n_offsets := (item_size c - framing) / sz in
      '(_, q) ← message_peek_body m (wrap64 (ri + framing)) 1 (n_offsets * sz);
      alignment ← bus_gvariant_get_alignment (default [] (signature c));
      l ← array_offsets q sz ri (item_size c) alignment 0 (Z.to_nat n_offsets);
      match l with
      | [] => Err EASSERT
      | o :: _ => Ok (Entered ri None (o - ri) l)
      end.

(** [bus_message_enter_variant] *)
Definition bus_message_enter_variant (m : message) (c : bus_container) (contents : cstr)
    : res entered :=
  let ri := rindex m in
  _ ← require (signature_is_single contents false) EINVAL;
  _ ← require (negb (deref contents =? SD_BUS_TYPE_DICT_ENTRY_BEGIN)) EINVAL;
  _ ← require (negb (sig_char c =? 0)) ENXIO;
  _ ← require (sig_char c =? SD_BUS_TYPE_VARIANT) ENXIO;
  if BUS_MESSAGE_IS_GVARIANT m then
    let k := zlen contents in
    if item_size c <? 1 + k then Err EBADMSG
    else
      '(_, q) ← message_peek_body m (wrap64 (ri + item_size c - (1 + k))) 1 (1 + k);
      if negb (deref q =? 0) then Err EBADMSG
      else if negb (streq (tail q) contents) then Err ENXIO
      else Ok (Entered ri None (item_size c - (1 + k)) [])
  else
    '(ri, q) ← message_peek_body m ri 1 1;
    let l := le_val q in
    if l =? 255 then Err EBADMSG
    else
      '(ri, q) ← message_peek_body m ri 1 (l + 1);
      _ ← require (validate_signature q (Z.to_nat l)) EBADMSG;
      _ ← require (streq (take (Z.to_nat l) q) contents) ENXIO;
      Ok (Entered ri None 0 []).

(** [build_struct_offsets]: the second loop, over the members' signatures; [v]
    counts down the words of the table [q]. *)
Fixpoint struct_offsets_loop (fuel : nat) (p : cstr) (q : list Z)
    (ri size sz n_variable previous : Z) (v : nat) : res (list Z) :=
  match fuel with
  | O => Err EASSERT
  | S fuel =>
      if deref p =? 0 then (if bool_decide (v = 0%nat) then Ok [] else Err EASSERT)
      else
        n ← signature_element_length p;
        let t := take n p in
        align ← bus_gvariant_get_alignment t;
        let start := ALIGN_TO previous align in
        '(offset, v) ←
          match bus_gvariant_get_size t with
          | Ok k => Ok (start + k, v)
          | Err _ =>
              '(x, v) ←
                match v with
                | S v =>
                    x ← bus_gvariant_read_word_le (drop (v * Z.to_nat sz) q) sz;
                    if size <=? x then Err EBADMSG else Ok (x, v)
                | O => Ok (size - n_variable * sz, O)
                end;
              if ri + x <? start then Err EBADMSG else Ok (ri + x, v)
          end;
        l ← struct_offsets_loop fuel (drop n p) q ri size sz n_variable offset v;
        Ok (offset :: l)
  end.

(** The byte that stands for an empty struct is read off the message itself. *)
Definition unary_struct : stm message entered :=
  m ← sget;
  '(ri, q) ← slift (message_peek_body m (rindex m) 1 1);
  smod (set_rindex ri);;
  sreq (deref q =? 0) EBADMSG;;
  mret (Entered ri None 0 []).

Definition struct_offsets (m : message) (s : cstr) (size : Z) : res entered :=
    let ri := rindex m in
    let sz := bus_gvariant_determine_word_size size 0 in
    kinds ← member_kinds (length s + 1) s;
    let n_variable := zlen (List.filter needs_offset kinds) in
    if size <? n_variable * sz then Err EBADMSG
    else
      '(_, q) ← message_peek_body m (wrap64 (ri + size - n_variable * sz)) 1 (n_variable * sz);
      l ← struct_offsets_loop (length s + 1) s q ri size sz n_variable ri (Z.to_nat n_variable);
      match l with
      | [] => Err EASSERT
      | o :: _ => Ok (Entered ri None (o - ri) l)
      end.

Definition build_struct_offsets (s : cstr) (size : Z) : stm message entered :=
  if bool_decide (s = []) then unary_struct
  else
    m ← sget;
    slift (struct_offsets m s size).

(** [enter_struct_or_dict_entry], [bus_message_enter_struct],
    [bus_message_enter_dict_entry] *)
Definition enter_struct_or_dict_entry (c : bus_container) (contents : cstr) : stm message entered :=
  m ← sget;
  if negb (BUS_MESSAGE_IS_GVARIANT m) then
    '(ri, _) ← slift (message_peek_body m (rindex m) 8 0);
    mret (Entered ri None 0 [])
  else build_struct_offsets contents (item_size c).

Definition bus_message_enter_struct (c : bus_container) (contents : cstr) : stm message entered :=
  sreq (signature_is_valid contents false) EINVAL;;
  sreq (negb (sig_char c =? 0)) ENXIO;;
  sreq (bracketed c SD_BUS_TYPE_STRUCT_BEGIN SD_BUS_TYPE_STRUCT_END contents) ENXIO;;
  enter_struct_or_dict_entry c contents.

Definition bus_message_enter_dict_entry (c : bus_container) (contents : cstr) : stm message (option entered) :=
  sreq (signature_is_pair contents) EINVAL;;
  sreq (enclosing c =? SD_BUS_TYPE_ARRAY) ENXIO;;
  if sig_char c =? 0 then mret None
  else
    sreq (bracketed c SD_BUS_TYPE_DICT_ENTRY_BEGIN SD_BUS_TYPE_DICT_ENTRY_END contents) ENXIO;;
    e ← enter_struct_or_dict_entry c contents;
    mret (Some e).

(** The branches of [sd_bus_message_enter_container]: what was found, [None] at the
    end of an array, and how far the index of the container moves. *)
Definition enter_by_type (type : Z) (contents : cstr) : stm message (option entered * nat) :=
  m ← sget;
  let c := message_get_last_container m in
  if type =? SD_BUS_TYPE_ARRAY then
    e ← slift (bus_message_enter_array m c contents); mret (Some e, (1 + length contents)%nat)
  else if type =? SD_BUS_TYPE_VARIANT then
    e ← slift (bus_message_enter_variant m c contents); mret (Some e, 1%nat)
  else if type =? SD_BUS_TYPE_STRUCT then
    e ← bus_message_enter_struct c contents; mret (Some e, (1 + length contents + 1)%nat)
  else if type =? SD_BUS_TYPE_DICT_ENTRY then
    e ← bus_message_enter_dict_entry c contents; mret (e, (1 + length contents + 1)%nat)
  else sfail EINVAL.

(** [sd_bus_message_peek_type], with both output arguments: [None] at the end,
    else the type and the contents of a container. *)

(** The backward search for the NUL before a GVariant variant's signature. *)
Fixpoint find_nul (m : message) (c : bus_container) (k : Z) (fuel : nat) : res cstr :=
  match fuel with
  | O => Err EBADMSG
  | S fuel =>
      '(_, q) ← message_peek_body m (wrap64 (rindex m + item_size c - k)) 1 k;
      if deref q =? 0 then Ok (tail q) else find_nul m c (k + 1) fuel
  end.

Definition sd_bus_message_peek_type (m : message) : res (option (Z * option cstr)) :=
  _ ← require (sealed m) EPERM;
  if message_end_of_signature m then Ok None
  else
    eoa ← message_end_of_array m (rindex m);
    if eoa : bool then Ok None
    else
      let c := message_get_last_container m in
      let s := drop (index c) (default [] (signature c)) in
      let t := deref s in
      if bus_type_is_basic t then Ok (Some (t, None))
      else if t =? SD_BUS_TYPE_ARRAY then
        l ← signature_element_length (tail s);
        Ok (Some (SD_BUS_TYPE_ARRAY, Some (take l (tail s))))
      else if in_set t [SD_BUS_TYPE_STRUCT_BEGIN; SD_BUS_TYPE_DICT_ENTRY_BEGIN] then
        l ← signature_element_length s;
        _ ← require (bool_decide (3 <= l)%nat) EASSERT;
        Ok (Some (if t =? SD_BUS_TYPE_STRUCT_BEGIN then SD_BUS_TYPE_STRUCT
                  else SD_BUS_TYPE_DICT_ENTRY, Some (take (l - 2) (tail s))))
      else if t =? SD_BUS_TYPE_VARIANT then
        if BUS_MESSAGE_IS_GVARIANT m then
          if item_size c <? 2 then Err EBADMSG
          else
            contents ← find_nul m c 2 (Z.to_nat (item_size c - 1));
            _ ← require (signature_is_valid contents true) EBADMSG;
            Ok (Some (SD_BUS_TYPE_VARIANT, Some contents))
        else
          '(ri, q) ← message_peek_body m (rindex m) 1 1;
          let l := le_val q in
          if l =? 255 then Err EBADMSG
          else
            '(ri, q) ← message_peek_body m ri 1 (l + 1);
            _ ← require (validate_signature q (Z.to_nat l)) EBADMSG;
            Ok (Some (SD_BUS_TYPE_VARIANT, Some (take (Z.to_nat l) q)))
      else Err EINVAL.

(** [sd_bus_message_enter_container] once type and contents are known; [false]
    is the return value 0 at the end of an array. [strdup(NULL)], which the
    contents of a basic type come to, is a crash. *)
Definition enter_container_at (type : Z) (contents : option cstr) : stm message bool :=
  m ← sget;
  sreq (negb (bool_decide (BUS_CONTAINER_DEPTH <= length (containers m))%nat)) EBADMSG;;
  sreq (negb (message_end_of_signature m)) ENXIO;;
  eoa ← slift (message_end_of_array m (rindex m));
  if eoa : bool then mret false
  else
    contents ← slift (match contents with Some s => Ok s | None => Err EASSERT end);
    smod (upd_last_container (fun c => set_c_saved_index (index c) c));;
    m ← sget;
    let c := message_get_last_container m in
    let before := rindex m in
    '(oe, adv) ← enter_by_type type contents;
    match oe : option entered with
    | None => mret false
    | Some e =>
        smod (set_rindex (e_rindex e));;
        advance_index (fun c => (index c + adv)%nat);;
        let virtual := if BUS_MESSAGE_IS_GVARIANT m && (type =? SD_BUS_TYPE_STRUCT) &&
                          bool_decide (contents = []) then 0 else item_size c in
        smod (fun m => set_containers (containers m ++
          [Container type false 0 0 (Some contents) before (e_rindex e)
             (e_rindex e + virtual) (e_array_size e) (e_offsets e) 0 (e_item_size e)]) m);;
        mret true
    end.

(** [sd_bus_message_enter_container]: [type] 0 or NULL [contents] take what
    [sd_bus_message_peek_type] finds, 0 and NULL at the end. *)
Definition sd_bus_message_enter_container (type : Z) (contents : option cstr)
    : stm message bool :=
  m ← sget;
  sreq (sealed m) EPERM;;
  sreq (negb (type =? 0) || bool_decide (contents = None)) EINVAL;;
  match contents with
  | Some s => enter_container_at type (Some s)
  | None =>
      p ← slift (sd_bus_message_peek_type m);
      let '(t0, cc) := default (0, None) p in
      sreq ((type =? 0) || (type =? t0)) ENXIO;;
      enter_container_at t0 cc
  end.

(** [sd_bus_message_exit_container]; the parent's index is set back to the
    container's start while the next item is looked for. *)
Definition sd_bus_message_exit_container : stm message unit :=
  m ← sget;
  sreq (sealed m) EPERM;;
  sreq (bool_decide (containers m <> [])) ENXIO;;
  let c := message_get_last_container m in
  sreq ((enclosing c =? SD_BUS_TYPE_ARRAY) || (sig_char c =? 0)) EBUSY;;
  (if BUS_MESSAGE_IS_GVARIANT m then sreq (negb (rindex m <? end_ c)) EBUSY
   else if enclosing c =? SD_BUS_TYPE_ARRAY then
     l ← slift (array_length m c);
     sreq (begin c + l =? rindex m) EBUSY
   else mret tt);;
  smod (set_containers (removelast (containers m)));;
  m ← sget;
  let c := message_get_last_container m in
  let saved := index c in
  match container_next_item m (set_c_index (saved_index c) c) (rindex m) with
  | Err e => sfail e
  | Ok (ri, c) =>
      smod (upd_last_container (fun _ => set_c_index saved c));;
      smod (set_rindex ri)
  end.

(** [message_quit_container] *)
Definition message_quit_container : stm message unit :=
  m ← sget;
  sreq (sealed m && bool_decide (containers m <> [])) EASSERT;;
  let c := message_get_last_container m in
  sreq (before c <=? rindex m) EASSERT;;
  smod (set_rindex (before c));;
  smod (set_containers (removelast (containers m)));;
  smod (upd_last_container (fun c => set_c_index (saved_index c) c)).

(** The [fail:] label of [sd_bus_message_read_array] *)
Definition quit_and_fail {A} (e : errno) : stm message A :=
  message_quit_container;; sfail e.

(** [sd_bus_message_rewind]; the result says whether there is anything to read. *)
Definition sd_bus_message_rewind (complete : bool) : stm message bool :=
  m ← sget;
  sreq (sealed m) EPERM;;
  (if complete then
     smod (set_containers []);;
     smod (fun m => set_root_container (set_c_index 0 (root_container m)) m);;
     smod (set_rindex 0)
   else
     smod (upd_last_container (set_c_index 0));;
     m ← sget;
     smod (set_rindex (begin (message_get_last_container m))));;
  smod (upd_last_container (fun c =>
    set_c_item_size (wrap64 (default (end_ c) (head (offsets c)) - begin c))
      (set_c_offset_index 0 c)));;
  m ← sget;
  mret (negb (bool_decide (default [] (signature (message_get_last_container m)) = []))).

(** [sd_bus_message_read_array] of a trivial type: the bytes of its elements. *)
Definition sd_bus_message_read_array (type : Z) : stm message (option (list Z)) :=
  m ← sget;
  sreq (sealed m) EPERM;;
  sreq (bus_type_is_trivial type) EINVAL;;
  sreq (negb (BUS_MESSAGE_NEED_BSWAP m)) EOPNOTSUPP;;
  r ← sd_bus_message_enter_container SD_BUS_TYPE_ARRAY (Some [type]);
  if negb r then mret None
  else
    m ← sget;
    let c := message_get_last_container m in
    '(align, sz) ← slift
      (if BUS_MESSAGE_IS_GVARIANT m then
         align ← bus_gvariant_get_alignment [type]; Ok (align, wrap64 (end_ c - begin c))
       else
         align ← bus_type_get_alignment type;
         sz ← array_length m c;
         Ok (align, sz));
    p ← (if sz =? 0 then mret []
         else match message_peek_body m (rindex m) align sz with
              | Err e => quit_and_fail e
              | Ok (ri, q) => smod (set_rindex ri);; mret q
              end);
    m ← sget;
    match sd_bus_message_exit_container m with
    | (Ok _, m) => sput m;; mret (Some p)
    | (Err e, m) => sput m;; quit_and_fail e
    end.

(** [sd_bus_message_verify_type] *)
Definition sd_bus_message_verify_type (m : message) (type : Z) (contents : option cstr)
    : res bool :=
  _ ← require (sealed m) EPERM;
  _ ← require ((type =? 0) || bus_type_is_valid type) EINVAL;
  _ ← require (match contents with None => true | Some s => signature_is_valid s true end) EINVAL;
  _ ← require (negb (type =? 0) || bool_decide (contents <> None)) EINVAL;
  _ ← require (bool_decide (contents = None) || (type =? 0) || bus_type_is_container type) EINVAL;
  p ← sd_bus_message_peek_type m;
  match p with
  | None => Ok false
  | Some (t, c) =>
      Ok (((type =? 0) || (type =? t)) &&
          match contents with None => true | Some _ => bool_decide (contents = c) end)
  end.

(** [sd_bus_message_get_signature], [sd_bus_message_is_empty],
    [sd_bus_message_has_signature] *)
Definition sd_bus_message_get_signature (m : message) (complete : bool) : cstr :=
  default [] (signature (if complete then root_container m else message_get_last_container m)).

Definition sd_bus_message_is_empty (m : message) : bool :=
  bool_decide (default [] (signature (root_container m)) = []).

Definition sd_bus_message_has_signature (m : message) (s : option cstr) : bool :=
  streq (default [] (signature (root_container m))) (default [] s).
