(* ===== verification/MsgBody.v ===== *)
(** * The body of a message under construction

    While a message is built its body is one unsealed part ([flat]); under that
    invariant the primitives of [MsgState] are list functions on the body:
    growing appends zeroed padding and room to store into, and adds to the length words
    of the open arrays. *)
From S2P Require Import Prelude BusType Signature Gvariant MsgState.

(** ** Flat messages *)
Definition mk_parts (l : list Z) : list body_part :=
  if bool_decide (l = []) then [] else [Part l false false].

Definition set_body (l : list Z) (m : message) : message :=
  set_body_size (zlen l) (set_parts (mk_parts l) m).

Definition flat (m : message) : Prop :=
  parts m = mk_parts (body m) /\ body_size m = zlen (body m).

Lemma body_mk_parts l : concat (map part_data (mk_parts l)) = l.
Proof. unfold mk_parts. case_bool_decide; subst; simpl; [done|]. by rewrite app_nil_r. Qed.

Lemma body_set_body l m : body (set_body l m) = l.
Proof. unfold body, set_body. simpl. apply body_mk_parts. Qed.

Lemma flat_set_body l m : flat (set_body l m).
Proof. unfold flat. by rewrite body_set_body. Qed.

Lemma flat_eta m : flat m -> m = set_body (body m) m.
Proof.
  intros [H1 H2]. unfold set_body. rewrite <- H1, <- H2. by destruct m.
Qed.

Lemma set_body_set_body l l' m : set_body l (set_body l' m) = set_body l m.
Proof. done. Qed.

Lemma parts_mk_parts l : l <> [] -> mk_parts l = [Part l false false].
Proof. intros. unfold mk_parts. by rewrite bool_decide_eq_false_2. Qed.

(** ** Storing into the body *)
Lemma splice_length off b l :
  (off + length b <= length l)%nat -> length (splice off b l) = length l.
Proof.
  intros. unfold splice. rewrite !length_app, length_take, length_drop. lia.
Qed.

Lemma splice_mid p w b s :
  length w = length b -> splice (length p) b (p ++ w ++ s) = p ++ b ++ s.
Proof.
  intros H. unfold splice. rewrite take_app_length, <- H. do 2 f_equal.
  by rewrite <- drop_drop, drop_app_length, drop_app_length.
Qed.

Lemma splice_app_l off b l x :
  (off + length b <= length l)%nat -> splice off b (l ++ x) = splice off b l ++ x.
Proof.
  intros. unfold splice. rewrite take_app_le, drop_app_le by lia. by rewrite <- !app_assoc.
Qed.

Lemma splice_end b l z :
  length b = length z -> splice (length l) b (l ++ z) = l ++ b.
Proof. intros. pose proof (splice_mid l z b [] ltac:(done)) as E. by rewrite !app_nil_r in E. Qed.

Lemma body_write_set_body off b l m :
  (off < length l)%nat -> (off + length b <= length l)%nat ->
  body_write off b (set_body l m) = set_body (splice off b l) m.
Proof.
  intros H1 H2. unfold body_write, set_body. simpl.
  assert (l <> []) by (by intros ->; simpl in H1; lia).
  assert (splice off b l <> []).
  { intros E. pose proof (splice_length off b l H2) as L. rewrite E in L. simpl in L. lia. }
  rewrite !parts_mk_parts by done. cbn [parts_write part_data].
  rewrite bool_decide_eq_true_2 by done. unfold zlen. by rewrite splice_length.
Qed.

(** ** The length words of the open arrays *)
Definition words (m : message) : list nat := omap array_size (containers m).

Definition bump1 (n : Z) (l : list Z) (a : nat) : list Z :=
  splice a (le_bytes 4 (wrap32 (le_val (take 4 (drop a l)) + n))) l.

Definition bump (ws : list nat) (n : Z) (l : list Z) : list Z := fold_left (bump1 n) ws l.

(** Disjoint words in ascending order, from [lo] on, inside [n] bytes. *)
Fixpoint words_ok (lo : nat) (ws : list nat) (n : nat) : Prop :=
  match ws with
  | [] => (lo <= n)%nat
  | a :: ws => (lo <= a)%nat /\ words_ok (a + 4) ws n
  end.

Lemma words_ok_range lo ws n : words_ok lo ws n -> (lo <= n)%nat /\ Forall (fun a => a + 4 <= n)%nat ws.
Proof.
  revert lo; induction ws as [|a ws IH]; simpl; intros lo H; [by auto|].
  destruct H as [H1 H2]. destruct (IH _ H2) as [H3 H4]. split; [lia|]. constructor; [lia|done].
Qed.

Lemma words_ok_weaken lo lo' ws n n' :
  (lo' <= lo)%nat -> (n <= n')%nat -> words_ok lo ws n -> words_ok lo' ws n'.
Proof.
  revert lo lo'; induction ws as [|a ws IH]; simpl; intros lo lo' ?? H; [lia|].
  destruct H; split; [lia|]. by eapply (IH (a + 4)%nat); [lia| lia |].
Qed.

Lemma words_ok_snoc lo ws n a n' :
  words_ok lo ws n -> (n <= a)%nat -> (a + 4 <= n')%nat -> words_ok lo (ws ++ [a]) n'.
Proof.
  revert lo; induction ws as [|b ws IH]; simpl; intros lo H ??; [lia|].
  destruct H. split; [done|]. by apply IH.
Qed.

Lemma bump1_mid n p w s :
  length w = 4%nat ->
  bump1 n (p ++ w ++ s) (length p) = p ++ le_bytes 4 (wrap32 (le_val w + n)) ++ s.
Proof.
  intros Hw. unfold bump1.
  rewrite drop_app_length, take_app_le, firstn_all2 by lia.
  apply splice_mid. by rewrite le_bytes_length.
Qed.

Lemma word_split (l : list Z) (a : nat) :
  (a + 4 <= length l)%nat ->
  exists p w s, l = p ++ w ++ s /\ length p = a /\ length w = 4%nat.
Proof.
  intros. exists (take a l), (take 4 (drop a l)), (drop 4 (drop a l)).
  rewrite length_take, length_take, length_drop.
  split; [by rewrite (take_drop 4 (drop a l)), take_drop | lia].
Qed.

Lemma bump1_length n l a : (a + 4 <= length l)%nat -> length (bump1 n l a) = length l.
Proof. intros. apply splice_length. by rewrite le_bytes_length. Qed.

Lemma bump1_app n l x a : (a + 4 <= length l)%nat -> bump1 n (l ++ x) a = bump1 n l a ++ x.
Proof.
  intros. unfold bump1. rewrite drop_app_le, take_app_le by (rewrite ?length_drop; lia).
  apply splice_app_l. by rewrite le_bytes_length.
Qed.

Lemma bump1_add n k l a :
  (a + 4 <= length l)%nat -> bump1 n (bump1 k l a) a = bump1 (k + n) l a.
Proof.
  intros H. destruct (word_split l a H) as (p & w & s & -> & <- & Hw).
  rewrite !bump1_mid by (rewrite ?le_bytes_length; done).
  rewrite le_val_le_bytes. unfold wrap. do 3 f_equal.
  change (8 * Z.of_nat 4) with 32.
  rewrite Z.mod_mod, Zplus_mod_idemp_l by done. f_equal. lia.
Qed.

Lemma bump1_comm n k l a b :
  (a + 4 <= b)%nat -> (b + 4 <= length l)%nat ->
  bump1 n (bump1 k l b) a = bump1 k (bump1 n l a) b.
Proof.
  intros Hab Hb. destruct (word_split l a ltac:(lia)) as (p & w & s & -> & <- & Hw).
  rewrite !length_app in Hb.
  destruct (word_split s (b - length p - 4) ltac:(lia)) as (q & v & t & -> & Hq & Hv).
  assert (Eb : b = length (p ++ w ++ q)) by (rewrite !length_app; lia).
  assert (E1 : forall w', length w' = 4%nat -> bump1 k (p ++ w' ++ q ++ v ++ t) b =
            p ++ w' ++ q ++ le_bytes 4 (wrap32 (le_val v + k)) ++ t).
  { intros w' Hw'. replace b with (length (p ++ w' ++ q)) by (rewrite Eb, !length_app; lia).
    pose proof (bump1_mid k (p ++ w' ++ q) v t Hv) as E. by rewrite <- !app_assoc in E. }
  rewrite E1 by done. rewrite !bump1_mid by done. by rewrite E1 by apply le_bytes_length.
Qed.

Lemma bump1_zero l a : Forall is_byte (take 4 (drop a l)) -> (a + 4 <= length l)%nat -> bump1 0 l a = l.
Proof.
  intros Hb H. destruct (word_split l a H) as (p & w & s & -> & <- & Hw).
  rewrite bump1_mid by done. rewrite drop_app_length, take_app_le, take_ge in Hb by lia.
  pose proof (le_val_bound w Hb) as B. rewrite Hw in B.
  rewrite Z.add_0_r, wrap_small by lia.
  rewrite <- Hw at 1. by rewrite le_bytes_le_val.
Qed.

Lemma bump1_bytes n l a : Forall is_byte l -> Forall is_byte (bump1 n l a).
Proof.
  intros. unfold bump1, splice. apply Forall_app; split; [by apply Forall_take|].
  apply Forall_app; split; [apply le_bytes_is_byte | by apply Forall_drop].
Qed.

Lemma bump_bytes ws n l : Forall is_byte l -> Forall is_byte (bump ws n l).
Proof. revert l; induction ws; simpl; intros; [done|]. apply IHws. by apply bump1_bytes. Qed.

Lemma bump_length ws n l :
  Forall (fun a => a + 4 <= length l)%nat ws -> length (bump ws n l) = length l.
Proof.
  revert l; induction ws as [|a ws IH]; simpl; intros l H; [done|].
  inversion_clear H as [|?? H1 H2]. fold (bump ws n (bump1 n l a)).
  rewrite IH; rewrite bump1_length by done; done.
Qed.

Lemma bump_app_r ws n l x :
  Forall (fun a => a + 4 <= length l)%nat ws -> bump ws n (l ++ x) = bump ws n l ++ x.
Proof.
  revert l; induction ws as [|a ws IH]; simpl; intros l H; [done|].
  inversion_clear H as [|?? H1 H2]. fold (bump ws n (bump1 n (l ++ x) a)).
  rewrite bump1_app by done. apply IH. by rewrite bump1_length.
Qed.

Lemma bump1_bump ws n k l a :
  words_ok (a + 4) ws (length l) ->
  bump1 n (bump ws k l) a = bump ws k (bump1 n l a).
Proof.
  assert (G : forall lo l, (a + 4 <= lo)%nat -> words_ok lo ws (length l) ->
            bump1 n (bump ws k l) a = bump ws k (bump1 n l a)); [|intros; by eapply G].
  induction ws as [|b ws IH]; simpl; intros lo l' Hlo H; [done|]. destruct H as [H1 H2].
  destruct (words_ok_range _ _ _ H2) as [H3 _].
  fold (bump ws k (bump1 k l' b)). fold (bump ws k (bump1 k (bump1 n l' a) b)).
  rewrite (IH (b + 4)%nat); [| lia | by rewrite bump1_length by lia].
  by rewrite bump1_comm by lia.
Qed.

Lemma bump_bump ws lo n k l :
  words_ok lo ws (length l) -> bump ws n (bump ws k l) = bump ws (k + n) l.
Proof.
  revert lo l; induction ws as [|a ws IH]; simpl; intros lo l H; [done|]. destruct H as [H1 H2].
  destruct (words_ok_range _ _ _ H2) as [H3 H4].
  fold (bump ws k (bump1 k l a)). fold (bump ws (k + n) (bump1 (k + n) l a)).
  fold (bump ws n (bump1 n (bump ws k (bump1 k l a)) a)).
  assert (length (bump1 k l a) = length l) by (apply bump1_length; lia).
  rewrite bump1_bump by (by rewrite H). rewrite bump1_add by lia.
  apply (IH (a + 4)%nat). by rewrite bump1_length by lia.
Qed.

(** The length words have been stored. *)
Definition words_stored (ws : list nat) (l : list Z) : Prop :=
  Forall (fun a => Forall is_byte (take 4 (drop a l))) ws.

Lemma bytes_words_stored ws l : Forall is_byte l -> words_stored ws l.
Proof. intros H. apply Forall_forall. intros a _. by apply Forall_take, Forall_drop. Qed.

Lemma bump_zero ws l :
  words_stored ws l -> Forall (fun a => a + 4 <= length l)%nat ws -> bump ws 0 l = l.
Proof.
  induction ws as [|a ws IH]; simpl; intros Hl H; [done|].
  inversion_clear H. inversion_clear Hl. by rewrite bump1_zero, IH.
Qed.

Lemma bump_stored ws lo n l : words_ok lo ws (length l) -> words_stored ws (bump ws n l).
Proof.
  revert lo l; induction ws as [|a ws IH]; intros lo l H; [constructor|]. destruct H as [H1 H2].
  destruct (words_ok_range _ _ _ H2) as [H3 H4]. cbn [bump fold_left]. fold (bump ws n (bump1 n l a)).
  assert (Hl : length (bump1 n l a) = length l) by (apply bump1_length; lia). constructor.
  - rewrite <- bump1_bump by done. set (l' := bump ws n l).
    assert (length l' = length l) by (by apply bump_length).
    destruct (word_split l' a ltac:(lia)) as (p & w & s & -> & <- & Hw).
    rewrite bump1_mid, drop_app_length, take_app_le by (rewrite ?le_bytes_length; done).
    rewrite take_ge by (by rewrite le_bytes_length). apply le_bytes_is_byte.
  - eapply IH. by rewrite Hl.
Qed.

Lemma bump_snoc ws a n l : bump (ws ++ [a]) n l = bump1 n (bump ws n l) a.
Proof. unfold bump. by rewrite fold_left_app. Qed.

(** ** Growing a flat message *)
Lemma extend_containers_set_body cs n l m :
  Forall (fun a => a + 4 <= length l)%nat (omap array_size cs) ->
  fold_left (extend_one n) cs (set_body l m) = set_body (bump (omap array_size cs) n l) m.
Proof.
  revert l; induction cs as [|c cs IH]; cbn [fold_left omap list_omap]; intros l H; [done|].
  unfold extend_one at 2. destruct (array_size c) as [a|] eqn:Ea.
  - inversion_clear H as [|?? H1 H2].
    rewrite body_write_set_body by (rewrite ?le_bytes_length; lia).
    unfold body_read32. rewrite body_set_body.
    change (splice a _ l) with (bump1 n l a).
    rewrite IH; [done|]. by rewrite bump1_length.
  - by apply IH.
Qed.

Definition pad (pos align : Z) : Z := align_up pos align - pos.

Lemma pad_bound pos a : is_align a -> 0 <= pos -> 0 <= pad pos a < a.
Proof.
  intros Ha Hp. unfold pad. pose proof (align_up_spec pos a).
  destruct Ha as [->|[->|[->| ->]]]; lia.
Qed.

Lemma set_body_nil_eq l m : flat m -> l = body m -> m = set_body l m.
Proof. intros F ->. by apply flat_eta. Qed.

(** The parts after the room was made: one part still, holding the longer list. *)
Lemma add_new_part_flat m align p fi :
  flat m -> body m <> [] ->
  p = wrap64 (ALIGN_TO (zlen (body m)) align - zlen (body m)) ->
  (fi = true -> zlen (body m) <= MEMFD_MIN_SIZE) ->
  add_new_part m align p fi = false.
Proof.
  intros [F1 F2] Hne Hp Hfi. unfold add_new_part. rewrite F1, parts_mk_parts by done.
  cbn [last part_sealed]. unfold part_size. cbn [part_data].
  rewrite <- Hp, Z.eqb_refl. cbn [negb orb].
  destruct fi; [|done]. simpl. apply Z.ltb_ge. auto.
Qed.

Lemma grow_parts_flat m align p sz fi :
  flat m -> 0 <= p -> 0 <= sz ->
  p = wrap64 (ALIGN_TO (zlen (body m)) align - zlen (body m)) ->
  (body m = [] -> p = 0) ->
  (fi = true -> zlen (body m) <= MEMFD_MIN_SIZE) ->
  let l := body m ++ zeros (Z.to_nat p) ++ room sz in
  set_parts (mk_parts l) m =
  if 0 <? p + sz then
    if add_new_part m align p fi then
      message_append_part (Part (room sz) false false)
        (if 0 <? p then message_append_part (Part (zeros (Z.to_nat p)) true true) m else m)
    else
      set_parts (upd_last (fun q =>
        Part (part_data q ++ zeros (Z.to_nat p) ++ room sz)
          (part_sealed q) (part_is_zero q)) (parts m)) m
  else m.
Proof.
  intros F Hp0 Hs0 Hp Hnil Hfi l. pose proof F as [F1 F2].
  destruct (0 <? p + sz) eqn:Hadd; ztests.
  - assert (l <> []) as Hne.
    { intros E. apply (f_equal length) in E. revert E. unfold l, zeros, room.
      rewrite !length_app, !length_replicate. simpl. lia. }
    rewrite (parts_mk_parts l) by done.
    destruct (decide (body m = [])) as [Hb|Hb].
    + specialize (Hnil Hb).
      assert (l = room sz) as -> by (unfold l; by rewrite Hb, Hnil).
      rewrite Hnil. change (0 <? 0) with false.
      unfold add_new_part, message_append_part. rewrite F1, Hb. by destruct m.
    + rewrite add_new_part_flat by done. by rewrite F1, parts_mk_parts by done.
  - assert (p = 0 /\ sz = 0) as [-> ->] by lia. unfold l, room. cbn [zeros replicate Z.to_nat app].
    rewrite app_nil_r, <- F1. by destruct m.
Qed.

(** What [message_extend_body] does to a message whose body is flat: it refuses
    past 4 GiB and poisons the message, or the new body is the old one, its
    open arrays' lengths increased, the padding and the room. *)
Lemma extend_body_flat align sz ao fi m :
  flat m -> poisoned m = false -> words_stored (words m) (body m) ->
  words_ok 0 (words m) (length (body m)) ->
  is_align align -> 0 <= sz < 2 ^ 62 -> zlen (body m) <= UINT32_MAX ->
  (fi = true -> zlen (body m) <= MEMFD_MIN_SIZE) ->
  let start := align_up (zlen (body m)) align in
  let p := pad (zlen (body m)) align in
  message_extend_body align sz ao fi m =
  if UINT32_MAX <? start + sz then (Err ENOMEM, set_poisoned true m)
  else
    let m' := set_body (bump (words m) (p + sz) (body m) ++ zeros (Z.to_nat p)
                          ++ room sz) m in
    (Ok (Z.to_nat start), if ao then message_add_offset (start + sz) m' else m').
Proof.
  intros F Hp Hb Hw Ha Hsz Hlen Hfi start p. pose proof (zlen_nonneg (body m)).
  pose proof F as [_ Ebs].
  assert (Hst : ALIGN_TO (zlen (body m)) align = start).
  { apply ALIGN_TO_up; [done|]. unfold UINT32_MAX in Hlen. lia. }
  pose proof (pad_bound (zlen (body m)) align Ha ltac:(done)) as Hpad. fold p in Hpad.
  assert (start = zlen (body m) + p) as Es by (unfold p, pad; lia).
  assert (1 <= align <= 8) by (destruct Ha as [->|[->|[->| ->]]]; lia).
  unfold UINT32_MAX in *.
  unfold message_extend_body. rewrite Hp, Ebs, Hst.
  rewrite (wrap_small 64 (start + sz)) by lia.
  rewrite (wrap_small 64 (start - zlen (body m))) by lia.
  replace (start - zlen (body m)) with p by lia.
  rewrite (wrap_small 64 (p + sz)) by lia.
  replace (start + sz <? start) with false by (symmetry; apply Z.ltb_ge; lia).
  rewrite orb_false_r. unfold UINT32_MAX. destruct (4294967295 <? start + sz) eqn:Hover; [done|].
  destruct (words_ok_range _ _ _ Hw) as [_ Hr].
  rewrite <- grow_parts_flat; try done; try lia.
  2: { rewrite Hst. by rewrite wrap_small by lia; unfold p, pad. }
  2: { intros Hn. unfold p, pad. rewrite Hn. change (zlen []) with 0.
       rewrite align_up_id by (lia || by exists 0). lia. }
  set (l := body m ++ zeros (Z.to_nat p) ++ room sz).
  assert (Hl : zlen l = start + sz).
  { unfold l, zeros, room. rewrite !zlen_app. unfold zlen at 2 3. rewrite !length_replicate. lia. }
  rewrite <- Hl. change (set_body_size (zlen l) (set_parts (mk_parts l) m)) with (set_body l m).
  unfold message_extend_containers. destruct (p + sz <=? 0) eqn:Hz; ztests.
  - replace (p + sz) with 0 by lia. by rewrite bump_zero.
  - change (containers (set_body l m)) with (containers m).
    rewrite extend_containers_set_body; fold (words m).
    + unfold l. by rewrite bump_app_r.
    + eapply Forall_impl; [exact Hr|]. simpl. intros a Hle. unfold l. rewrite length_app. lia.
Qed.
