(* ===== verification/MsgGuards.v ===== *)
(** * Growing the body, and the guards of the writing calls

    What [message_extend_body] does, the cache of [find_part], and what a sealed
    or poisoned message answers to the calls that write, name, flag or seal it. *)
From S2P Require Import Prelude BusType Signature Names Utf8 Gvariant MsgState MsgWrite MsgFields MsgRead MsgBody.

(** C7. Growing the body: for a message whose body is in one piece, with the
    length words of its open arrays inside it, [message_extend_body] refuses
    exactly when the new body would exceed 4 GiB, with -ENOMEM, and then poisons
    the message and touches nothing else; otherwise the new room, which the
    caller has to store into, starts at the next multiple of the alignment, the
    padding before it is zero, the length word of every open array grows by the
    bytes added, padding included, and no other byte changes. *)
Theorem extend_body_spec align sz ao fi m :
  flat m -> poisoned m = false -> words_stored (words m) (body m) ->
  words_ok 0 (words m) (length (body m)) ->
  is_align align -> 0 <= sz < 2 ^ 62 -> zlen (body m) <= UINT32_MAX ->
  (fi = true -> zlen (body m) <= MEMFD_MIN_SIZE) ->
  let start := align_up (zlen (body m)) align in
  let p := pad (zlen (body m)) align in
  message_extend_body align sz ao fi m =
  if UINT32_MAX <? start + sz then (Err ENOMEM, set_poisoned true m)
  else
    let m' := set_body (bump (words m) (p + sz) (body m) ++ zeros (Z.to_nat p) ++ room sz) m in
    (Ok (Z.to_nat start), if ao then message_add_offset (start + sz) m' else m').
Proof. intros. by apply extend_body_flat. Qed.

(** An unsealed message with one array of one byte open. *)
Definition growing_message : message :=
  Message (Header BUS_LITTLE_ENDIAN 1 0 1 0 0 0 0) false false false false [] []
    [Part [1; 0; 0; 0; 7] false false] 5 0 0 [] (Container 0 false 1 0 (Some (bs "ay")) 0 0 0 None [] 0 0)
    [Container SD_BUS_TYPE_ARRAY false 0 0 (Some (bs "y")) 0 0 0 (Some 0%nat) [] 0 0]
    None None None None None None 0 None 0 [].

Lemma extend_body_spec_witness :
  body (snd (message_extend_body 4 2 false false growing_message)) =
  [6; 0; 0; 0; 7; 0; 0; 0] ++ room 2.
Proof.
  rewrite (extend_body_spec 4 2 false false growing_message); try done.
  - apply bytes_words_stored. repeat (constructor; [unfold is_byte; lia|]). constructor.
  - cbn. lia.
  - unfold is_align. lia.
Defined.

(** ** The cached search *)
Lemma find_part_loop_skip ps : forall n index sz begin,
  0 <= sz -> (n < length ps)%nat ->
  let b := begin + Z.of_nat (list_sum (map (fun p => length (part_data p)) (take n ps))) in
  b <= index ->
  find_part_loop index sz begin ps = find_part_loop index sz b (drop n ps).
Proof.
  induction ps as [|p ps IH]; intros n index sz begin Hs Hn b Hb; [simpl in Hn; lia|].
  destruct n as [|n]; [by unfold b; rewrite Z.add_0_r|].
  set (k := Z.of_nat (list_sum (map (fun p => length (part_data p)) (take n ps)))).
  assert (Eb : b = begin + part_size p + k).
  { unfold b, k, part_size, zlen. cbn [take map].
    change (list_sum (?x :: ?l)) with (x + list_sum l)%nat. lia. }
  cbn [find_part_loop drop]. assert (0 <= part_size p) by apply zlen_nonneg.
  rewrite (proj2 (Z.ltb_ge index begin)) by lia. cbn [length] in Hn.
  specialize (IH n index sz (begin + part_size p) Hs ltac:(lia)). cbn zeta in IH. fold k in IH.
  destruct (Z.leb_spec (index + sz) (begin + part_size p)) as [Hle|]; [|by rewrite Eb; apply IH; lia].
  assert (sz = 0 /\ index = b) as [-> ->] by lia. rewrite take_0.
  destruct (drop n ps) as [|q qs] eqn:Ed.
  { apply (f_equal length) in Ed. rewrite length_drop in Ed. simpl in Ed. lia. }
  cbn [find_part_loop]. assert (0 <= part_size q) by apply zlen_nonneg.
  rewrite Z.ltb_irrefl, (proj2 (Z.leb_le _ _)), take_0 by lia. done.
Qed.

(** The search that starts from the part found last finds what a search
    from the first part finds: the cache is transparent whenever it holds a
    part of the message and that part's position in the body. *)
Theorem find_part_cached_transparent m k index sz :
  (k < length (parts m))%nat -> 0 <= sz ->
  let begin := Z.of_nat (list_sum (map (fun p => length (part_data p)) (take k (parts m)))) in
  find_part_cached m (Some (k, begin)) index sz = find_part m index sz.
Proof.
  intros Hk Hs begin. unfold find_part_cached. destruct (Z.leb_spec begin index) as [Hb|]; [|done].
  unfold find_part. destruct (parts m) as [|p ps] eqn:E; [simpl in Hk; lia|].
  rewrite (find_part_loop_skip (p :: ps) k index sz 0); [|done|done|].
  - cbn zeta. rewrite Z.add_0_l. done.
  - rewrite Z.add_0_l. done.
Qed.

Definition parted_message : message :=
  set_parts [Part [1; 2] true false; Part [0] true true; Part [3; 4; 5] true false] growing_message.

Lemma find_part_cached_transparent_witness :
  find_part_cached parted_message (Some (2%nat, 3)) 4 2 = find_part parted_message 4 2 /\
  find_part parted_message 4 2 = Some [4; 5].
Proof.
  split; [|by vm_compute].
  apply (find_part_cached_transparent parted_message 2 4 2); [simpl; lia|lia].
Defined.

(** ** Guards *)

(** The public calls that change a message under construction, but for those that
    take a memfd, the one that sets a priority, which the model does not have, and
    [sd_bus_message_copy], which appends with these. *)
Inductive write_op :=
  | AppendBasic (type : Z) (p : option basic_value)
  | Append (rounds : nat) (types : cstr) (ap : list (option basic_value))
  | AppendStringSpace (size : Z)
  | AppendStringIovec (iov : list iovec)
  | AppendArraySpace (type size : Z) (ptr : bool)
  | AppendArray (type : Z) (p : option (list Z)) (size : Z)
  | AppendArrayIovec (type : Z) (iov : list iovec)
  | AppendStrv (l : list cstr)
  | OpenContainer (type : Z) (contents : cstr)
  | CloseContainer
  | SetDestination (d : cstr)
  | SetSender (s : cstr)
  | SetExpectReply (b : bool)
  | SetAutoStart (b : bool)
  | SetInteractive (b : bool)
  | Seal (cookie timeout : Z).

Section Guards.
Variable dup_fd : Z -> res Z.

Definition write_run (op : write_op) (m : message) : option errno * message :=
  let ended {A} (x : res A * message) : option errno * message :=
    match x with (Ok _, m) => (None, m) | (Err e, m) => (Some e, m) end in
  match op with
  | AppendBasic t p => ended (message_append_basic dup_fd t p m)
  | Append n t ap => ended (sd_bus_message_appendv dup_fd n t ap m)
  | AppendStringSpace n => ended (sd_bus_message_append_string_space n m)
  | AppendStringIovec iov => ended (sd_bus_message_append_string_iovec iov m)
  | AppendArraySpace t n ptr => ended (sd_bus_message_append_array_space t n ptr m)
  | AppendArray t p n => ended (sd_bus_message_append_array t p n m)
  | AppendArrayIovec t iov => ended (sd_bus_message_append_array_iovec t iov m)
  | AppendStrv l => ended (sd_bus_message_append_strv dup_fd l m)
  | OpenContainer t c => ended (sd_bus_message_open_container t c m)
  | CloseContainer => ended (sd_bus_message_close_container m)
  | SetDestination d => ended (sd_bus_message_set_destination d m)
  | SetSender s => ended (sd_bus_message_set_sender s m)
  | SetExpectReply b => ended (sd_bus_message_set_expect_reply b m)
  | SetAutoStart b => ended (sd_bus_message_set_auto_start b m)
  | SetInteractive b => ended (sd_bus_message_set_allow_interactive_authorization b m)
  | Seal c t => ended (sd_bus_message_seal c t m)
  end.

(** What a sealed message answers: -EPERM, but a name that is none is refused first. *)
Definition seal_answer (op : write_op) : errno :=
  match op with
  | SetDestination s | SetSender s => if service_name_is_valid s then EPERM else EINVAL
  | _ => EPERM
  end.

(** The calls that set a flag of the header work on a poisoned message too. *)
Definition sets_flag (op : write_op) : bool :=
  match op with
  | SetExpectReply _ | SetAutoStart _ | SetInteractive _ => true
  | _ => false
  end.

(** What a poisoned message answers to the others: -ESTALE, or -ENOMEM where a
    field of the header cannot be added, unless an argument, a member that is
    set or the nesting is refused first. *)
Definition poison_answer (op : write_op) (m : message) : errno :=
  match op with
  | AppendBasic t _ => if bus_type_is_basic t then ESTALE else EINVAL
  | AppendArraySpace t n ptr =>
      if bus_type_is_trivial t && negb (t =? SD_BUS_TYPE_BOOLEAN) && (ptr || (n =? 0)) then ESTALE else EINVAL
  | AppendArray t p n =>
      if bus_type_is_trivial t && (bool_decide (p <> None) || (n =? 0)) then ESTALE else EINVAL
  | AppendArrayIovec t _ => if bus_type_is_trivial t then ESTALE else EINVAL
  | CloseContainer => if bool_decide (containers m = []) then EINVAL else ESTALE
  | SetDestination s =>
      if negb (service_name_is_valid s) then EINVAL
      else if bool_decide (destination m = None) then ENOMEM else EEXIST
  | SetSender s =>
      if negb (service_name_is_valid s) then EINVAL
      else if bool_decide (sender m = None) then ENOMEM else EEXIST
  | Seal _ _ => if bool_decide (containers m = []) then ESTALE else EBADMSG
  | _ => ESTALE
  end.

Lemma valid_name_length s : service_name_is_valid s = true -> zlen s <= 255.
Proof.
  unfold service_name_is_valid. destruct (deref s =? 0); [done|]. destruct (sep_loop _ _ _ _ _) as [[[] []]|]; try done;
    by destruct (Z.ltb_spec 255 (zlen s)).
Qed.

(** A field with a name cannot be added to a poisoned message. *)
Lemma poisoned_field h s set m :
  poisoned m = true -> 0 <= h <= 255 -> zlen s <= UINT32_MAX ->
  append_string_field h SD_BUS_TYPE_STRING s set m = (Err ENOMEM, m).
Proof.
  intros Hp Hh Hs. unfold append_string_field, message_append_field_string, append_field_bytes, message_extend_fields.
  unfold mbind, stm_bind, sget, sreq, slift. rewrite !(proj2 (Z.ltb_ge _ _)) by lia. cbn [negb require].
  destruct (BUS_MESSAGE_IS_GVARIANT m); cbn beta; by rewrite Hp.
Qed.

Ltac guards := unfold message_append_basic, sd_bus_message_appendv, sd_bus_message_append_string_space,
  sd_bus_message_append_string_iovec, sd_bus_message_append_array_space, sd_bus_message_append_array,
  sd_bus_message_append_array_iovec, sd_bus_message_append_strv, sd_bus_message_open_container,
  sd_bus_message_close_container, sd_bus_message_set_destination, sd_bus_message_set_sender,
  sd_bus_message_set_expect_reply, sd_bus_message_set_auto_start,
  sd_bus_message_set_allow_interactive_authorization, sd_bus_message_seal;
  unfold mbind, stm_bind, sget, sreq, slift.

(** C8. A sealed message is immutable: each of the calls that change a message
    under construction is answered -EPERM, or -EINVAL where a destination or
    sender that is no name is refused first, and leaves it as it is. A poisoned
    one, of which a failed extension left the body incomplete, can have flags
    set, but can no longer be written, named or sealed: each of the other calls
    fails with the error of [poison_answer] and leaves it as it is. *)
Theorem write_guards op m :
  (sealed m = true -> write_run op m = (Some (seal_answer op), m)) /\
  (sealed m = false -> poisoned m = true -> sets_flag op = false ->
   write_run op m = (Some (poison_answer op m), m)).
Proof.
  split.
  - intros Hs. destruct op as [| | | | | | | | | |d|s| | | |]; cbn [write_run seal_answer]; guards;
      rewrite ?Hs; try done; [by destruct (service_name_is_valid d)|by destruct (service_name_is_valid s)].
  - intros Hs Hp Hw. destruct op as [t ?| | | |t n ptr|t p n|t ?| | | |d|s| | | |]; try done; cbn [write_run poison_answer];
      guards; rewrite ?Hs, ?Hp; try done.
    + by destruct (bus_type_is_basic t).
    + by destruct (bus_type_is_trivial t), (t =? SD_BUS_TYPE_BOOLEAN), ptr, (n =? 0).
    + by destruct (bus_type_is_trivial t), (bool_decide (p <> None)), (n =? 0).
    + by destruct (bus_type_is_trivial t).
    + by case_bool_decide; case_bool_decide.
    + destruct (service_name_is_valid d) eqn:E; [|done]. apply valid_name_length in E. cbn [negb require].
      case_bool_decide; [|done]. cbn [require]. rewrite poisoned_field by (done || unfold UINT32_MAX; lia). done.
    + destruct (service_name_is_valid s) eqn:E; [|done]. apply valid_name_length in E. cbn [negb require].
      case_bool_decide; [|done]. cbn [require]. rewrite poisoned_field by (done || unfold UINT32_MAX; lia). done.
    + by case_bool_decide.
Qed.
End Guards.

Lemma write_guards_witness :
  write_run no_dup (AppendBasic (ch "y") (Some (BInt 1))) (set_sealed true growing_message) =
    (Some EPERM, set_sealed true growing_message) /\
  write_run no_dup CloseContainer (set_poisoned true growing_message) =
    (Some ESTALE, set_poisoned true growing_message) /\
  write_run no_dup (SetDestination (bs "a.b")) (set_poisoned true growing_message) =
    (Some ENOMEM, set_poisoned true growing_message).
Proof.
  split; [|split].
  - by apply (write_guards no_dup (AppendBasic (ch "y") (Some (BInt 1))) (set_sealed true growing_message)).
  - by apply (write_guards no_dup CloseContainer (set_poisoned true growing_message)).
  - by apply (write_guards no_dup (SetDestination (bs "a.b")) (set_poisoned true growing_message)).
Defined.
