(* ===== verification/Marshal.v ===== *)
(** * Values and their D-Bus 1 wire form

    The abstract specification the writing and the reading functions of
    [bus-message.c] are proved against: the values a message carries, their
    types as signatures, and the marshalling of the D-Bus specification as one
    function from a value and its position to bytes, in either byte order. *)
From S2P Require Import Prelude BusType Signature Names Utf8 MsgState MsgWrite MsgBody.

(** ** Values *)
Inductive tuple_kind := TStruct | TDict.

(** [VBasic t x]: a value of the basic type [t]; [VArray el vs]: an array of
    elements of signature [el]; [VTuple]: a struct or a dict entry. *)
Inductive value :=
  | VBasic (t : Z) (x : basic_value)
  | VArray (el : cstr) (vs : list value)
  | VVariant (v : value)
  | VTuple (k : tuple_kind) (vs : list value).

Section value_ind.
Variable P : value -> Prop.
Hypothesis Hbasic : forall t x, P (VBasic t x).
Hypothesis Harray : forall el vs, Forall P vs -> P (VArray el vs).
Hypothesis Hvariant : forall v, P v -> P (VVariant v).
Hypothesis Htuple : forall k vs, Forall P vs -> P (VTuple k vs).

Fixpoint value_ind' (v : value) : P v :=
  let fix go (vs : list value) : Forall P vs :=
    match vs with
    | [] => @List.Forall_nil value P
    | v :: vs => @List.Forall_cons value P v vs (value_ind' v) (go vs)
    end in
  match v with
  | VBasic t x => Hbasic t x
  | VArray el vs => Harray el vs (go vs)
  | VVariant v => Hvariant v (value_ind' v)
  | VTuple k vs => Htuple k vs (go vs)
  end.
End value_ind.

Definition tuple_type (k : tuple_kind) : Z :=
  match k with TStruct => SD_BUS_TYPE_STRUCT | TDict => SD_BUS_TYPE_DICT_ENTRY end.

Definition tuple_begin (k : tuple_kind) : Z :=
  match k with TStruct => SD_BUS_TYPE_STRUCT_BEGIN | TDict => SD_BUS_TYPE_DICT_ENTRY_BEGIN end.

Definition tuple_end (k : tuple_kind) : Z :=
  match k with TStruct => SD_BUS_TYPE_STRUCT_END | TDict => SD_BUS_TYPE_DICT_ENTRY_END end.

(** The signature of a value. *)
Fixpoint vtype (v : value) : cstr :=
  match v with
  | VBasic t _ => [t]
  | VArray el _ => SD_BUS_TYPE_ARRAY :: el
  | VVariant _ => [SD_BUS_TYPE_VARIANT]
  | VTuple k vs => tuple_begin k :: concat (map vtype vs) ++ [tuple_end k]
  end.

Definition vtypes (vs : list value) : cstr := concat (map vtype vs).

Definition is_container_value (v : value) : bool :=
  match v with VBasic _ _ => false | _ => true end.

(** The nesting depth of the containers of a value. *)
Fixpoint vdepth (v : value) : nat :=
  match v with
  | VBasic _ _ => 0
  | VArray _ vs | VTuple _ vs => S (list_max (map vdepth vs))
  | VVariant v => S (vdepth v)
  end.

(** ** Alignment and bytes *)
Definition basic_align (t : Z) : Z :=
  if in_set t (bs "yg") then 1
  else if in_set t (bs "nq") then 2
  else if in_set t (bs "biuhso") then 4
  else 8.

Definition align_of (s : cstr) : Z :=
  let c := deref s in
  if c =? ch "a" then 4
  else if c =? ch "v" then 1
  else if in_set c (bs "({") then 8
  else basic_align c.

(** An [n]-byte word in big-endian ([be]) or little-endian order *)
Definition word (be : bool) (n : nat) (x : Z) : list Z :=
  if be then rev (le_bytes n x) else le_bytes n x.


Definition zpad (pos align : Z) : list Z := zeros (Z.to_nat (pad pos align)).

(** Items one after another, each at the position the one before ends at. *)
Definition seq_with {A} (f : Z -> A -> list Z) : Z -> list A -> list Z :=
  fix go (pos : Z) (vs : list A) : list Z :=
    match vs with
    | [] => []
    | v :: vs => f pos v ++ go (pos + zlen (f pos v)) vs
    end.

Section Marshal.
(** How a word is written; [word be] below. *)
Variable wd : nat -> Z -> list Z.

Definition basic_bytes_with (t : Z) (x : basic_value) : list Z :=
  match x with
  | BStr s => (if t =? ch "g" then wd 1%nat (zlen s) else wd 4%nat (zlen s)) ++ s ++ [0]
  | BInt n => wd (Z.to_nat (basic_align t)) n
  end.

(** The bytes of [v] at position [pos]; every value is preceded by zeros up
    to its alignment, an array by the byte length of its elements. *)
Fixpoint marshal_with (pos : Z) (v : value) : list Z :=
  match v with
  | VBasic t x => zpad pos (basic_align t) ++ basic_bytes_with t x
  | VArray el vs =>
      let p1 := align_up pos 4 + 4 in
      let b := seq_with marshal_with (align_up p1 (align_of el)) vs in
      zpad pos 4 ++ wd 4%nat (zlen b) ++ zpad p1 (align_of el) ++ b
  | VVariant v =>
      ([zlen (vtype v)] ++ vtype v ++ [0]) ++ marshal_with (pos + zlen (vtype v) + 2) v
  | VTuple k vs => zpad pos 8 ++ seq_with marshal_with (align_up pos 8) vs
  end.
End Marshal.

Definition basic_bytes (be : bool) : Z -> basic_value -> list Z := basic_bytes_with (word be).
Definition marshal (be : bool) : Z -> value -> list Z := marshal_with (word be).
Definition marshal_seq (be : bool) : Z -> list value -> list Z := seq_with (marshal be).

Lemma marshal_array be pos el vs :
  marshal be pos (VArray el vs) =
  let p1 := align_up pos 4 + 4 in
  let b := marshal_seq be (align_up p1 (align_of el)) vs in
  zpad pos 4 ++ word be 4 (zlen b) ++ zpad p1 (align_of el) ++ b.
Proof. done. Qed.

Lemma marshal_tuple be pos k vs :
  marshal be pos (VTuple k vs) = zpad pos 8 ++ marshal_seq be (align_up pos 8) vs.
Proof. done. Qed.

Lemma marshal_seq_cons be pos v vs :
  marshal_seq be pos (v :: vs) =
  marshal be pos v ++ marshal_seq be (pos + zlen (marshal be pos v)) vs.
Proof. done. Qed.

(** ** Well-formed values *)

Definition is_cstrb (s : cstr) : bool := forallb (fun c => (0 <? c) && (c <? 256)) s.

(** A string-like value is one the reader's validation accepts, an integer fits
    its type; descriptors ([h]) are left out: appending duplicates them. *)
Definition basic_ok (t : Z) (x : basic_value) : bool :=
  match x with
  | BStr s =>
      is_cstrb s &&
      (if t =? SD_BUS_TYPE_STRING then utf8_is_valid s && (zlen s <? UINT32_MAX)
       else if t =? SD_BUS_TYPE_OBJECT_PATH then object_path_is_valid s && (zlen s <? UINT32_MAX)
       else if t =? SD_BUS_TYPE_SIGNATURE then signature_is_valid s true && (zlen s <? 255)
       else false)
  | BInt n =>
      bus_type_is_trivial t && (0 <=? n) &&
      (n <? (if t =? SD_BUS_TYPE_BOOLEAN then 2 else 2 ^ (8 * basic_align t)))
  end.

Definition is_dict_entry (v : value) : bool :=
  match v with VTuple TDict _ => true | _ => false end.

Definition tuple_check (k : tuple_kind) (s : cstr) : bool :=
  match k with TStruct => signature_is_valid s false | TDict => signature_is_pair s end.

(** The signature checks the code makes when the container is opened; dict
    entries are elements of arrays only. *)
Fixpoint value_ok (v : value) : bool :=
  match v with
  | VBasic t x => basic_ok t x
  | VArray el vs =>
      is_cstrb el && signature_is_single el true &&
      forallb (fun v => bool_decide (vtype v = el) && value_ok v) vs
  | VVariant v =>
      signature_is_single (vtype v) false && (zlen (vtype v) <? 255) &&
      negb (is_dict_entry v) && value_ok v
  | VTuple k vs =>
      tuple_check k (concat (map vtype vs)) && signature_is_single (vtype v) true &&
      negb (bool_decide (vs = [])) &&
      forallb (fun v => negb (is_dict_entry v) && value_ok v) vs
  end.

(** ** Facts *)
Lemma basic_align_spec t :
  bus_type_is_basic t = true -> bus_type_get_alignment t = Ok (basic_align t).
Proof. intros H. in_set_cases H; reflexivity. Qed.

Lemma basic_align_is t : is_align (basic_align t).
Proof. unfold basic_align, is_align. repeat case_match; lia. Qed.

Lemma align_of_is s : is_align (align_of s).
Proof.
  unfold align_of. repeat case_match; unfold is_align; try lia. apply basic_align_is.
Qed.

Lemma align_of_spec d a s t :
  complete_type d a s t -> bus_type_get_alignment (deref t) = Ok (align_of t).
Proof.
  inversion 1 as [d' a' s' c Hc| | | |]; subst; try reflexivity.
  cbn [deref]. in_set_cases Hc; reflexivity.
Qed.

Lemma word_length be n x : length (word be n x) = n.
Proof. unfold word. destruct be; by rewrite ?length_rev, le_bytes_length. Qed.

Lemma word_bytes be n x : Forall is_byte (word be n x).
Proof. unfold word. destruct be; [apply Forall_rev|]; apply le_bytes_is_byte. Qed.

Lemma zpad_length pos a :
  is_align a -> 0 <= pos -> zlen (zpad pos a) = pad pos a.
Proof.
  intros Ha Hp. pose proof (pad_bound pos a Ha Hp). unfold zpad, zeros, zlen.
  rewrite length_replicate. lia.
Qed.

Lemma zeros_bytes n : Forall is_byte (zeros n).
Proof. unfold zeros. apply Forall_replicate. unfold is_byte. lia. Qed.

#[export] Hint Resolve word_bytes zeros_bytes basic_align_is align_of_is : basu.
#[export] Hint Rewrite word_length : basu.

Lemma align_up_pad pos a : align_up pos a = pos + pad pos a.
Proof. unfold pad. lia. Qed.

Lemma basic_ok_basic t x : basic_ok t x = true -> bus_type_is_basic t = true.
Proof.
  unfold basic_ok. intros H. destruct x as [n|s]; ztests.
  - match goal with H : bus_type_is_trivial t = true |- _ => in_set_cases H; reflexivity end.
  - repeat case_match; ztests; subst; done.
Qed.

Lemma byte_string s :
  is_cstrb s = true -> is_cstr s.
Proof.
  intros H%forallb_Forall. unfold is_cstr. eapply Forall_impl; [exact H|].
  simpl. intros c Hc. ztests. lia.
Qed.

Lemma cstr_bytes s : is_cstr s -> Forall is_byte s.
Proof. intros H. eapply Forall_impl; [exact H|]. unfold is_byte. lia. Qed.

Lemma value_head v :
  value_ok v = true ->
  exists t, vtype v = deref (vtype v) :: t /\ 0 < deref (vtype v) < 256 /\
    (deref (vtype v) = SD_BUS_TYPE_DICT_ENTRY_BEGIN <-> is_dict_entry v = true).
Proof.
  intros H. destruct v as [t x|el vs|v|k vs]; cbn [value_ok] in H; cbn [vtype deref is_dict_entry].
  - apply basic_ok_basic in H. exists []. split; [done|].
    split; [by apply basic_nonzero|]. split; [|done]. intros ->. done.
  - eexists. split; [done|]. split; [vm_compute; auto|done].
  - eexists. split; [done|]. split; [vm_compute; auto|done].
  - eexists. split; [done|]. destruct k; (split; [vm_compute; auto|done]).
Qed.

Lemma vtype_cstr v : value_ok v = true -> is_cstr (vtype v).
Proof.
  unfold is_cstr. induction v as [t x|el vs IH|v IH|k vs IH] using value_ind';
    cbn [value_ok vtype]; intros H.
  - apply basic_ok_basic, basic_nonzero in H. by constructor.
  - ztests. constructor; [vm_compute; auto|]. by apply byte_string.
  - constructor; [vm_compute; auto|done].
  - ztests. match goal with H : forallb _ vs = true |- _ => apply forallb_Forall in H as Hvs end.
    apply Forall_cons. split; [destruct k; vm_compute; auto|].
    apply Forall_app. split; [|constructor; [destruct k; vm_compute; auto|constructor]].
    clear - IH Hvs. induction vs as [|v vs IHvs]; [constructor|].
    apply Forall_cons in IH as [IH1 IH2], Hvs as [Hv Hvs]. ztests. simpl.
    apply Forall_app; split; auto.
Qed.

Lemma vtypes_cstr vs : Forall (fun v => value_ok v = true) vs -> is_cstr (vtypes vs).
Proof.
  unfold is_cstr, vtypes. induction 1 as [|v vs Hv Hvs IH]; simpl; [constructor|].
  apply Forall_app; split; [by apply vtype_cstr | done].
Qed.

Lemma variant_bytes_is_byte s :
  is_cstr s -> zlen s < 256 -> Forall is_byte ([zlen s] ++ s ++ [0]).
Proof.
  intros Hs Hl. pose proof (zlen_nonneg s). repeat (apply Forall_app; split).
  - repeat constructor; lia.
  - by apply cstr_bytes.
  - repeat constructor; lia.
Qed.

Lemma basic_bytes_bytes be t x : basic_ok t x = true -> Forall is_byte (basic_bytes be t x).
Proof.
  intros H. unfold basic_bytes, basic_bytes_with. destruct x as [k|s]; [apply word_bytes|].
  unfold basic_ok in H. apply andb_true_iff in H as [H _].
  apply Forall_app; split; [destruct (t =? ch "g"); apply word_bytes|].
  apply Forall_app; split; [by apply cstr_bytes, byte_string | repeat constructor; lia].
Qed.

(** The values of a well-formed list, without the dict-entry condition. *)
Lemma items_ok (f : value -> bool) vs :
  forallb (fun v => f v && value_ok v) vs = true -> Forall (fun v => value_ok v = true) vs.
Proof.
  intros H%forallb_Forall. eapply Forall_impl; [exact H|]. simpl. intros. by ztests.
Qed.

Lemma seq_with_Forall {A} (P : Z -> Prop) (f : Z -> A -> list Z) vs :
  Forall (fun v => forall p, Forall P (f p v)) vs -> forall p, Forall P (seq_with f p vs).
Proof.
  induction 1 as [|v vs Hv _ IH]; intros p; cbn [seq_with]; [constructor|].
  apply Forall_app; auto.
Qed.

Lemma marshal_bytes be v : forall pos, value_ok v = true -> Forall is_byte (marshal be pos v).
Proof.
  unfold marshal. induction v as [t x|el vs IH|v IH|k vs IH] using value_ind';
    intros pos H; cbn [marshal_with value_ok] in *; ztests.
  - apply Forall_app; split; [apply zeros_bytes | by apply basic_bytes_bytes].
  - repeat (apply Forall_app; split); [apply zeros_bytes | apply word_bytes | apply zeros_bytes |].
    apply seq_with_Forall.
    match goal with H : forallb _ vs = true |- _ => apply items_ok in H as Hvs end.
    eapply Forall_impl; [exact (proj2 (Forall_and _ _) (conj IH Hvs))|]. simpl. naive_solver.
  - apply Forall_app; split; [|by apply IH].
    apply variant_bytes_is_byte; [by apply vtype_cstr | lia].
  - apply Forall_app; split; [apply zeros_bytes|]. apply seq_with_Forall.
    match goal with H : forallb _ vs = true |- _ => apply items_ok in H as Hvs end.
    eapply Forall_impl; [exact (proj2 (Forall_and _ _) (conj IH Hvs))|]. simpl. naive_solver.
Qed.

Lemma marshal_seq_bytes be vs p :
  Forall (fun v => value_ok v = true) vs -> Forall is_byte (marshal_seq be p vs).
Proof.
  intros H. apply seq_with_Forall. eapply Forall_impl; [exact H|].
  intros v Hv q. by apply marshal_bytes.
Qed.
