(* ===== verification/MsgAppend.v ===== *)
(** * Appending values refines the reference marshalling

    [append_value] drives the public operations of [bus-message.c] the way a
    client does, and [append_value_spec] shows that it extends the body by
    exactly the bytes [Marshal.marshal] gives. *)
From S2P Require Import Prelude BusType Signature Names Utf8 Gvariant MsgState MsgWrite MsgBody Marshal.

(** ** The client: one value through the public interface *)
Definition run_each {S A} (f : A -> stm S unit) : list A -> stm S unit :=
  fix go (vs : list A) : stm S unit :=
    match vs with
    | [] => mret tt
    | v :: vs => f v;; go vs
    end.

Fixpoint append_value (v : value) : stm message unit :=
  match v with
  | VBasic t x => sd_bus_message_append_basic (fun _ => Err EASSERT) t (Some x)
  | VArray el vs =>
      sd_bus_message_open_container SD_BUS_TYPE_ARRAY el;; run_each append_value vs;;
      sd_bus_message_close_container
  | VVariant v =>
      sd_bus_message_open_container SD_BUS_TYPE_VARIANT (vtype v);; append_value v;;
      sd_bus_message_close_container
  | VTuple k vs =>
      sd_bus_message_open_container (tuple_type k) (vtypes vs);; run_each append_value vs;;
      sd_bus_message_close_container
  end.

Definition append_values : list value -> stm message unit := run_each append_value.

(** ** The effect of one value on the message *)

(** [x] more bytes in the body, counted by the open arrays. *)
Definition grow (x : list Z) (m : message) : message :=
  set_body (bump (words m) (zlen x) (body m) ++ x) m.

(** The innermost container has taken a value of type [t]. *)
Definition consume_c (cont : bool) (t : cstr) (c : bus_container) : bus_container :=
  let c' := if cont then set_c_saved_index (index c) c else c in
  let c' := if sig_char c =? 0
            then set_c_signature (Some (strextend (signature c) t)) c' else c' in
  if negb (enclosing c =? SD_BUS_TYPE_ARRAY)
  then set_c_index (index c + length t) c' else c'.

Definition consume (cont : bool) (t : cstr) : message -> message :=
  upd_last_container (consume_c cont t).

Definition consume_value (c : bus_container) (v : value) : bus_container :=
  consume_c (is_container_value v) (vtype v) c.

Definition consume_all (vs : list value) (c : bus_container) : bus_container :=
  fold_left consume_value vs c.

(** A message of the D-Bus 1 format that can be appended to. *)
Record ready (m : message) : Prop := Ready {
  r_flat : flat m;
  r_sealed : sealed m = false;
  r_poisoned : poisoned m = false;
  r_version : BUS_MESSAGE_IS_GVARIANT m = false;
  r_bytes : Forall is_byte (body m);
  r_words : words_ok 0 (words m) (length (body m)) }.

(** The container takes a value of type [t] next: its signature says so, or it is
    the top level with nothing after. Dict entries go in arrays only. *)
Definition accepts_c (c : bus_container) (t : cstr) : Prop :=
  if sig_char c =? 0 then
    enclosing c = 0 /\ index c = length (default [] (signature c)) /\
    deref t <> SD_BUS_TYPE_DICT_ENTRY_BEGIN
  else
    (exists r, drop (index c) (default [] (signature c)) = t ++ r) /\
    (deref t = SD_BUS_TYPE_DICT_ENTRY_BEGIN -> enclosing c = SD_BUS_TYPE_ARRAY).

Definition accepts (m : message) (t : cstr) : Prop :=
  accepts_c (message_get_last_container m) t.

(** ** Updating the innermost container *)
Definition push (c : bus_container) (m : message) : message :=
  set_containers (containers m ++ [c]) m.

Lemma upd_last_spec {A} (f : A -> A) l x : upd_last f (l ++ [x]) = l ++ [f x].
Proof. induction l as [|y [|z l] IH]; [done|done|]. cbn [app upd_last] in *. by rewrite IH. Qed.

Lemma upd_last_comp {A} (f g : A -> A) l : upd_last f (upd_last g l) = upd_last (f ∘ g) l.
Proof.
  induction l as [|x l _] using rev_ind; [done|]. by rewrite !upd_last_spec.
Qed.

Lemma upd_last_ext {A} (f g : A -> A) l :
  (forall x, last l = Some x -> f x = g x) -> upd_last f l = upd_last g l.
Proof.
  induction l as [|x l _] using rev_ind; [done|]. intros H. rewrite !upd_last_spec.
  by rewrite H by apply last_snoc.
Qed.

Lemma upd_last_cons_inv {A} (f : A -> A) l : upd_last f l = [] <-> l = [].
Proof. destruct l as [|x [|y l]]; done. Qed.

Lemma last_upd_last {A} (f : A -> A) l : last (upd_last f l) = f <$> last l.
Proof.
  induction l as [|x l _] using rev_ind; [done|]. rewrite upd_last_spec, !last_snoc. reflexivity.
Qed.

Lemma upd_last_containers f m : containers (upd_last_container f m) = upd_last f (containers m).
Proof. unfold upd_last_container. by destruct (containers m) eqn:E; simpl; rewrite ?E. Qed.

Lemma get_last_upd f m :
  message_get_last_container (upd_last_container f m) = f (message_get_last_container m).
Proof.
  unfold message_get_last_container. rewrite upd_last_containers, last_upd_last.
  unfold upd_last_container.
  destruct (containers m) as [|c cs] eqn:E using rev_ind; [done|].
  clear IHcs. rewrite last_snoc. done.
Qed.

Lemma upd_upd f g m :
  upd_last_container f (upd_last_container g m) = upd_last_container (f ∘ g) m.
Proof.
  unfold upd_last_container at 1. rewrite upd_last_containers.
  unfold upd_last_container. destruct (containers m) as [|c cs] eqn:E; [done|].
  destruct (upd_last g (c :: cs)) as [|c' cs'] eqn:E2.
  { by apply upd_last_cons_inv in E2. }
  rewrite <- E2, upd_last_comp. by destruct m.
Qed.

Lemma upd_ext f g m :
  f (message_get_last_container m) = g (message_get_last_container m) ->
  upd_last_container f m = upd_last_container g m.
Proof.
  unfold message_get_last_container, upd_last_container. intros H.
  destruct (containers m) as [|c cs] eqn:E; simpl in H; [by rewrite H|].
  f_equal. apply upd_last_ext. intros x Hx. by rewrite Hx in H.
Qed.

Lemma upd_id f m :
  f (message_get_last_container m) = message_get_last_container m -> upd_last_container f m = m.
Proof.
  intros H. rewrite (upd_ext f id) by done.
  unfold upd_last_container. destruct (containers m) as [|c cs] eqn:E; [by destruct m|].
  assert (upd_last id (c :: cs) = c :: cs) as ->.
  { clear. induction cs as [|c' cs IH] in c |- *; [done|]. cbn [upd_last] in *. by rewrite IH. }
  rewrite <- E. by destruct m.
Qed.

Lemma words_upd f m :
  (forall c, array_size (f c) = array_size c) -> words (upd_last_container f m) = words m.
Proof.
  intros Hf. unfold words. rewrite upd_last_containers.
  induction (containers m) as [|c cs _] using rev_ind; [done|].
  rewrite upd_last_spec, !omap_app. simpl. by rewrite Hf.
Qed.

Lemma body_upd f m : body (upd_last_container f m) = body m.
Proof. unfold upd_last_container, body. by destruct (containers m). Qed.

Lemma body_size_upd f m : body_size (upd_last_container f m) = body_size m.
Proof. unfold upd_last_container. by destruct (containers m). Qed.

Lemma upd_set_body f l m :
  upd_last_container f (set_body l m) = set_body l (upd_last_container f m).
Proof. unfold upd_last_container, set_body. cbn [containers set_body_size set_parts].
  by destruct (containers m). Qed.

Lemma upd_push f c m : upd_last_container f (push c m) = push (f c) m.
Proof.
  unfold upd_last_container, push. cbn [containers set_containers].
  destruct (containers m ++ [c]) as [|x l] eqn:E; [by destruct (containers m)|].
  rewrite <- E, upd_last_spec. done.
Qed.

Lemma get_last_push c m : message_get_last_container (push c m) = c.
Proof. unfold message_get_last_container, push. simpl. by rewrite last_snoc. Qed.

Lemma pop_push c m : set_containers (removelast (containers (push c m))) (push c m) = m.
Proof. unfold push. simpl. rewrite removelast_last. by destruct m. Qed.

Lemma words_push c m : words (push c m) = words m ++ omap array_size [c].
Proof. unfold words, push. simpl. by rewrite omap_app. Qed.

(** ** Growing *)
Lemma ready_range m : ready m -> Forall (fun a => a + 4 <= length (body m))%nat (words m).
Proof. intros R. eapply words_ok_range, R. Qed.

Lemma body_grow x m : body (grow x m) = bump (words m) (zlen x) (body m) ++ x.
Proof. apply body_set_body. Qed.

Lemma words_grow x m : words (grow x m) = words m.
Proof. done. Qed.

Lemma length_body_grow x m :
  ready m -> length (body (grow x m)) = (length (body m) + length x)%nat.
Proof. intros R. rewrite body_grow, length_app, bump_length; [done|by apply ready_range]. Qed.

Lemma zlen_body_grow x m : ready m -> zlen (body (grow x m)) = zlen (body m) + zlen x.
Proof. intros R. unfold zlen. rewrite length_body_grow by done. lia. Qed.

Lemma body_size_ready m : ready m -> body_size m = zlen (body m).
Proof. intros R. apply R. Qed.

Lemma ready_grow x m : ready m -> Forall is_byte x -> ready (grow x m).
Proof.
  intros R Hx. constructor; try apply R.
  - apply flat_set_body.
  - rewrite body_grow. apply Forall_app; split; [apply bump_bytes, R | done].
  - rewrite words_grow, length_body_grow by done.
    eapply words_ok_weaken; [| | apply R]; lia.
Qed.

Lemma body_size_grow x m :
  ready m -> body_size (grow x m) = body_size m + zlen x.
Proof.
  intros R. rewrite (body_size_ready m) by done. rewrite <- zlen_body_grow by done.
  unfold grow. by rewrite body_set_body.
Qed.

Lemma ready_upd f m :
  (forall c, array_size (f c) = array_size c) -> ready m -> ready (upd_last_container f m).
Proof.
  intros Hf R. constructor;
    rewrite ?words_upd, ?body_upd by done; try apply R.
  - unfold flat. rewrite body_upd. unfold upd_last_container.
    destruct (containers m); apply R.
  - unfold upd_last_container. destruct (containers m); apply R.
  - unfold upd_last_container. destruct (containers m); apply R.
  - unfold upd_last_container. destruct (containers m); apply R.
Qed.

Lemma ready_push c m :
  ready m ->
  (forall a, array_size c = Some a ->
     exists lo, words_ok 0 (words m) lo /\ (lo <= a)%nat /\ (a + 4 <= length (body m))%nat) ->
  ready (push c m).
Proof.
  intros R H. constructor; try apply R. rewrite words_push.
  change (body (push c m)) with (body m).
  cbn [omap list_omap]. destruct (array_size c) as [a|].
  - destruct (H a eq_refl) as (lo & ? & ? & ?). by eapply words_ok_snoc.
  - rewrite app_nil_r. apply R.
Qed.

Lemma grow_nil m : ready m -> grow [] m = m.
Proof.
  intros R. unfold grow. change (zlen []) with 0.
  rewrite bump_zero by (apply bytes_words_stored, R || by apply ready_range).
  rewrite app_nil_r. symmetry. apply flat_eta, R.
Qed.

Lemma grow_app x y m : ready m -> grow y (grow x m) = grow (x ++ y) m.
Proof.
  intros R. unfold grow at 1. rewrite words_grow, body_grow.
  unfold grow. rewrite set_body_set_body. f_equal.
  rewrite bump_app_r by (rewrite bump_length by (by apply ready_range); by apply ready_range).
  rewrite (bump_bump (words m) 0) by apply R. by rewrite zlen_app, app_assoc.
Qed.

Lemma grow_upd f x m :
  (forall c, array_size (f c) = array_size c) ->
  grow x (upd_last_container f m) = upd_last_container f (grow x m).
Proof.
  intros Hf. unfold grow. by rewrite upd_set_body, words_upd, body_upd by done.
Qed.

Lemma get_last_grow x m : message_get_last_container (grow x m) = message_get_last_container m.
Proof. done. Qed.

Lemma is_gvariant_upd f m :
  BUS_MESSAGE_IS_GVARIANT (upd_last_container f m) = BUS_MESSAGE_IS_GVARIANT m.
Proof. unfold upd_last_container, BUS_MESSAGE_IS_GVARIANT. by destruct (containers m). Qed.

(** Room for [b] at alignment [a] within the 32-bit limit. *)
Definition fits (m : message) (a n : Z) : Prop := align_up (zlen (body m)) a + n <= UINT32_MAX.

(** What growing needs of a message: its body may have room that was not stored into. *)
Record growable (m : message) : Prop := Growable {
  g_flat : flat m;
  g_poisoned : poisoned m = false;
  g_stored : words_stored (words m) (body m);
  g_words : words_ok 0 (words m) (length (body m)) }.

Lemma ready_growable m : ready m -> growable m.
Proof. intros R. constructor; try apply R. apply bytes_words_stored, R. Qed.

Lemma growable_grow x m : ready m -> growable (grow x m).
Proof.
  intros R. constructor; [apply flat_set_body|apply R| |]; rewrite words_grow, body_grow.
  - eapply Forall_impl; [|intros a Ha; exact Ha]. pose proof (bump_stored (words m) 0 (zlen x) (body m) (r_words m R)) as H.
    unfold words_stored in H. pose proof (ready_range m R) as Hr.
    rewrite Forall_forall in H, Hr |- *. intros a Ha. specialize (H a Ha). specialize (Hr a Ha).
    assert (length (bump (words m) (zlen x) (body m)) = length (body m)) by (apply bump_length; by apply ready_range).
    rewrite drop_app_le, take_app_le by (rewrite ?length_drop; lia). exact H.
  - rewrite length_app. eapply words_ok_weaken; [| |apply R]; [lia|].
    rewrite bump_length by (by apply ready_range). lia.
Qed.

Lemma room_length n : 0 <= n -> zlen (room n) = n.
Proof. intros. unfold room, zlen. rewrite length_replicate. lia. Qed.

Lemma extend_grow a n m :
  growable m -> is_align a -> 0 <= n -> fits m a n ->
  message_extend_body a n false false m =
  (Ok (Z.to_nat (align_up (zlen (body m)) a)),
   grow (zpad (zlen (body m)) a ++ room n) m).
Proof.
  intros R Ha Hn Hf. unfold fits in Hf. pose proof (zlen_nonneg (body m)).
  pose proof (pad_bound (zlen (body m)) a Ha ltac:(done)) as Hp.
  pose proof (align_up_pad (zlen (body m)) a). unfold UINT32_MAX in *.
  rewrite extend_body_flat; try apply R; try done; [|lia|unfold UINT32_MAX; lia].
  replace (UINT32_MAX <? _) with false by (symmetry; apply Z.ltb_ge; unfold UINT32_MAX; lia).
  unfold grow. rewrite zlen_app, zpad_length by done.
  by rewrite room_length.
Qed.

Lemma write_grow p w b q m :
  ready m -> b <> [] -> length w = length b ->
  body_write (length (body m) + length p) b (grow (p ++ w ++ q) m) = grow (p ++ b ++ q) m.
Proof.
  intros R Hb Hw. unfold grow.
  replace (zlen (p ++ w ++ q)) with (zlen (p ++ b ++ q)) by (unfold zlen; by rewrite !length_app, Hw).
  set (l := bump (words m) _ (body m)).
  assert (Hl : length l = length (body m)) by (apply bump_length; by apply ready_range).
  assert (length b <> 0)%nat by (destruct b; done).
  rewrite body_write_set_body by (rewrite !length_app, ?Hw; lia).
  f_equal. rewrite !(app_assoc l). rewrite <- Hl, <- length_app. by rewrite splice_mid.
Qed.

(** Extending the body, storing the bytes through the pointer, going on. *)
Lemma extend_write {A} a b m (k : stm message A) :
  ready m -> is_align a -> b <> [] -> fits m a (zlen b) ->
  (x ← message_extend_body a (zlen b) false false; smod (body_write x b);; k) m =
  k (grow (zpad (zlen (body m)) a ++ b) m).
Proof.
  intros R Ha Hb Hf. pose proof (zlen_nonneg b). pose proof (zlen_nonneg (body m)).
  erewrite stm_bind_run by (apply extend_grow; by try apply ready_growable).
  erewrite stm_bind_run by reflexivity. f_equal.
  pose proof (write_grow (zpad (zlen (body m)) a) (room (zlen b)) b [] m R Hb) as E. rewrite !app_nil_r in E.
  rewrite <- E by (pose proof (room_length (zlen b)); unfold zlen in *; lia). f_equal.
  rewrite align_up_pad, <- zpad_length by done. unfold zlen. lia.
Qed.

Lemma extend_write_last a b m :
  ready m -> is_align a -> b <> [] -> fits m a (zlen b) ->
  (x ← message_extend_body a (zlen b) false false; smod (body_write x b)) m =
  (Ok tt, grow (zpad (zlen (body m)) a ++ b) m).
Proof.
  intros R Ha Hb Hf. pose proof (extend_write a b m (mret tt) R Ha Hb Hf) as E.
  revert E. unfold mbind, stm_bind. by destruct (message_extend_body _ _ _ _ m) as [[|] ?].
Qed.

(** Extending by nothing only aligns. *)
Lemma extend_align {A} a m (k : nat -> stm message A) :
  growable m -> is_align a -> fits m a 0 ->
  (x ← message_extend_body a 0 false false; k x) m =
  k (Z.to_nat (align_up (zlen (body m)) a)) (grow (zpad (zlen (body m)) a) m).
Proof.
  intros R Ha Hf. erewrite stm_bind_run by (by apply extend_grow).
  change (room 0) with (@nil Z). by rewrite app_nil_r.
Qed.

(** ** The signature of the innermost container *)
Definition ext_sig (t : cstr) (c : bus_container) : bus_container :=
  if sig_char c =? 0 then set_c_signature (Some (strextend (signature c) t)) c else c.

Definition adv (n : nat) (c : bus_container) : bus_container :=
  if negb (enclosing c =? SD_BUS_TYPE_ARRAY) then set_c_index n c else c.

Lemma consume_c_adv cont t c :
  consume_c cont t c =
  adv (index c + length t)
    (ext_sig t (if cont then set_c_saved_index (index c) c else c)).
Proof.
  assert (E : sig_char (if cont then set_c_saved_index (index c) c else c) = sig_char c)
    by (by destruct cont).
  unfold consume_c, adv, ext_sig. rewrite E.
  destruct c, cont; simpl; repeat case_match; simpl in *; congruence.
Qed.

Lemma array_size_ext_sig t c : array_size (ext_sig t c) = array_size c.
Proof. unfold ext_sig. by case_match. Qed.

Lemma index_ext_sig t c : index (ext_sig t c) = index c.
Proof. unfold ext_sig. by case_match. Qed.

Lemma enclosing_ext_sig t c : enclosing (ext_sig t c) = enclosing c.
Proof. unfold ext_sig. by case_match. Qed.

Lemma array_size_adv n c : array_size (adv n c) = array_size c.
Proof. unfold adv. by case_match. Qed.

Lemma array_size_consume k t c : array_size (consume_c k t c) = array_size c.
Proof. rewrite consume_c_adv, array_size_adv, array_size_ext_sig. by destruct k. Qed.

Lemma ready_consume k t m : ready m -> ready (consume k t m).
Proof. apply ready_upd. intros. apply array_size_consume. Qed.

Lemma accepts_char m t :
  accepts m t -> sig_char (message_get_last_container m) <> 0 ->
  sig_char (message_get_last_container m) = deref t \/ t = [].
Proof.
  unfold accepts, accepts_c. intros H Hne. destruct (Z.eqb_spec (sig_char (message_get_last_container m)) 0);
    [done|]. destruct H as [[r Hr] _]. unfold sig_char in *.
  destruct (signature _); [|done]. simpl in Hr. unfold char_at. rewrite Hr.
  destruct t; auto.
Qed.

Lemma check_or_extend_run ty t m :
  accepts m (ty :: t) ->
  check_or_extend_signature ty (ty :: t) m = (Ok tt, upd_last_container (ext_sig (ty :: t)) m).
Proof.
  intros Ha. unfold check_or_extend_signature. erewrite stm_bind_run by reflexivity.
  unfold ext_sig. destruct (Z.eqb_spec (sig_char (message_get_last_container m)) 0) as [E|E].
  - unfold accepts, accepts_c in Ha. rewrite E in Ha. destruct Ha as (-> & _).
    cbn [negb Z.eqb]. erewrite stm_bind_run by reflexivity. unfold smod. f_equal.
    apply upd_ext. by rewrite E.
  - destruct (accepts_char _ _ Ha E) as [E2|]; [|done]. rewrite E2, Z.eqb_refl.
    cbn [negb]. unfold sreq, slift. cbn [require]. f_equal. symmetry. apply upd_id.
    by rewrite (proj2 (Z.eqb_neq _ _)).
Qed.

Lemma advance_index_run f m :
  advance_index f m = (Ok tt, upd_last_container (fun c => adv (f c) c) m).
Proof. done. Qed.

(** ** Basic values *)
Lemma dbus1_bytes_spec t x n :
  basic_ok t x = true ->
  dbus1_basic_bytes t (Some x) n = Ok (basic_align t, basic_bytes false t x).
Proof.
  intros H. destruct x as [k|s]; unfold basic_ok in H; ztests.
  - match goal with H : bus_type_is_trivial t = true |- _ => in_set_cases H; try reflexivity end.
    assert (k = 0 \/ k = 1) as [->| ->]; [|reflexivity|reflexivity].
    match goal with H : k < _ |- _ => change (k < 2) in H end. lia.
  - repeat case_match; ztests; subst; try done; try reflexivity.
Qed.

Lemma basic_bytes_nonempty be t x : basic_bytes be t x <> [].
Proof.
  intros E. apply (f_equal length) in E. revert E. unfold basic_bytes, basic_bytes_with.
  destruct x; rewrite ?length_app; simpl; [|lia]. rewrite word_length.
  pose proof (basic_align_is t) as [->|[->|[->| ->]]]; lia.
Qed.

Lemma append_basic_spec t x m dup :
  ready m -> accepts m [t] -> basic_ok t x = true ->
  zlen (body m) + zlen (marshal false (zlen (body m)) (VBasic t x)) <= UINT32_MAX ->
  message_append_basic dup t (Some x) m =
  (Ok tt, consume false [t] (grow (marshal false (zlen (body m)) (VBasic t x)) m)).
Proof.
  intros R Ha Hx Hf. pose proof (zlen_nonneg (body m)).
  assert (bus_type_is_basic t = true) as Hb by (by eapply basic_ok_basic).
  assert (t =? SD_BUS_TYPE_UNIX_FD = false) as Hh.
  { apply Z.eqb_neq. intros ->. by destruct x as [|s]; simpl in Hx; ztests. }
  unfold message_append_basic. erewrite stm_bind_run by reflexivity.
  rewrite (r_sealed m R), Hb, (r_poisoned m R). cbn [negb].
  do 3 erewrite stm_bind_run by reflexivity.
  erewrite stm_bind_run by (by apply check_or_extend_run).
  rewrite Hh. erewrite stm_bind_run by reflexivity. rewrite (r_version m R).
  erewrite stm_bind_run by (rewrite dbus1_bytes_spec by done; reflexivity).
  cbn beta iota. rewrite extend_write; rewrite ?body_upd; auto using ready_upd, array_size_ext_sig with basu.
  2: { apply basic_bytes_nonempty. }
  2: { unfold fits. rewrite body_upd, align_up_pad.
       change (marshal false) with (marshal_with (word false)) in Hf. cbn [marshal_with] in Hf.
       rewrite zlen_app, zpad_length in Hf by auto with basu. unfold basic_bytes. lia. }
  erewrite stm_bind_run by reflexivity. rewrite advance_index_run. f_equal.
  rewrite grow_upd by (intros; apply array_size_ext_sig). rewrite app_nil_r.
  match goal with |- context [set_fds (fds ?y) ?y] => replace (set_fds (fds y) y) with y by (by destruct y) end.
  unfold consume. rewrite upd_upd. apply upd_ext.
  rewrite consume_c_adv. cbn [compose length]. by rewrite Nat.add_1_r, index_ext_sig.
Qed.

(** ** Opening containers *)
Definition opened (type : Z) (contents : cstr) (pos : Z) (a : option nat) : bus_container :=
  Container type false 0 0 (Some contents) pos 0 0 a [] 0 0.

Definition save_index (c : bus_container) : bus_container := set_c_saved_index (index c) c.

Lemma accepts_save m t : accepts m t -> accepts (upd_last_container save_index m) t.
Proof. unfold accepts. by rewrite get_last_upd. Qed.

(** [consume] as the two updates the opening operations make. *)
Lemma consume_opened n t x m :
  n = (index (message_get_last_container m) + length t)%nat ->
  upd_last_container (fun c => adv n c)
    (grow x (upd_last_container (ext_sig t) (upd_last_container save_index m)))
  = consume true t (grow x m).
Proof.
  intros ->. rewrite !grow_upd by (done || intros; apply array_size_ext_sig).
  unfold consume. rewrite !upd_upd. apply upd_ext. rewrite consume_c_adv. done.
Qed.

(** The common part of the operations: what [body_size] and the index were. *)
Lemma drop_S_eq {A} i (l : list A) x t : drop i l = x :: t -> drop (i + 1) l = t.
Proof. intros H. by rewrite <- drop_drop, H. Qed.

Lemma accepts_cases m b t :
  accepts m (b :: t) -> b <> 0 ->
  let c := message_get_last_container m in
  (sig_char c = 0 /\ enclosing c = 0 /\ index c = length (default [] (signature c)) /\
     upd_last_container (ext_sig (b :: t)) m =
       upd_last_container (set_c_signature (Some (strextend (signature c) (b :: t)))) m) \/
  (sig_char c = b /\ upd_last_container (ext_sig (b :: t)) m = m /\
     exists r, drop (index c) (default [] (signature c)) = b :: t ++ r).
Proof.
  intros Ha Hb c. destruct (Z.eqb_spec (sig_char c) 0) as [E|E].
  - left. unfold accepts, accepts_c in Ha. fold c in Ha. rewrite E in Ha.
    destruct Ha as (? & ? & _). repeat split; try done.
    apply upd_ext. unfold ext_sig. fold c. by rewrite E.
  - right. pose proof (accepts_char _ _ Ha E) as [|]; [|done].
    split; [done|]. split.
    + apply upd_id. unfold ext_sig. by rewrite (proj2 (Z.eqb_neq _ _)).
    + unfold accepts, accepts_c in Ha. fold c in Ha. rewrite (proj2 (Z.eqb_neq _ _)) in Ha by done.
      apply Ha.
Qed.

Lemma bracketed_app c b e s r :
  sig_char c = b -> drop (index c) (default [] (signature c)) = b :: (s ++ [e]) ++ r ->
  bracketed c b e s = true.
Proof.
  intros E H. unfold bracketed. rewrite E, Z.eqb_refl. rewrite <- app_assoc in H.
  rewrite (drop_S_eq _ _ _ _ H), startswith_app. rewrite bool_decide_eq_true_2 by (by eexists).
  unfold char_at. rewrite <- drop_drop, (drop_S_eq _ _ _ _ H), drop_app_length.
  apply Z.eqb_refl.
Qed.

Lemma single_align s d :
  is_cstr s -> signature_is_single s d = true -> bus_type_get_alignment (deref s) = Ok (align_of s).
Proof.
  intros Hs H. eapply (align_of_spec d 0 0). by apply signature_is_single_spec.
Qed.

(** The signature steps of [bus_message_open_array] and [bus_message_open_struct]. *)
Lemma array_signature {A} el m (k : nat -> stm message A) :
  accepts m (SD_BUS_TYPE_ARRAY :: el) ->
  let c := message_get_last_container m in
  (nindex ← (if negb (sig_char c =? 0) then
              sreq (sig_char c =? SD_BUS_TYPE_ARRAY) ENXIO;;
              sreq (bool_decide (is_Some (startswith
                (drop (index c + 1) (default [] (signature c))) el))) ENXIO;;
              mret (index c + 1 + length el)%nat
            else
              sreq (enclosing c =? 0) ENXIO;;
              let e := strextend (signature c) (SD_BUS_TYPE_ARRAY :: el) in
              smod (upd_last_container (set_c_signature (Some e)));;
              mret (length e)); k nindex) m
  = k (index c + length (SD_BUS_TYPE_ARRAY :: el))%nat
      (upd_last_container (ext_sig (SD_BUS_TYPE_ARRAY :: el)) m).
Proof.
  intros Ha c. destruct (accepts_cases m _ _ Ha ltac:(done)) as [(E & E1 & E2 & ->)|(E & -> & r & Er)];
    fold c in E |- *; rewrite E; cbn [Z.eqb negb].
  - fold c in E1, E2. rewrite E1, E2. unfold strextend.
    erewrite stm_bind_run by reflexivity. by rewrite length_app.
  - fold c in Er. rewrite (drop_S_eq _ _ _ _ Er), startswith_app.
    erewrite stm_bind_run by reflexivity. f_equal. simpl. lia.
Qed.

Lemma struct_signature {A} s m (k : nat -> stm message A) :
  let t := SD_BUS_TYPE_STRUCT_BEGIN :: s ++ [SD_BUS_TYPE_STRUCT_END] in
  accepts m t ->
  let c := message_get_last_container m in
  (nindex ← (if negb (sig_char c =? 0) then
              sreq (bracketed c SD_BUS_TYPE_STRUCT_BEGIN SD_BUS_TYPE_STRUCT_END s) ENXIO;;
              mret (index c + 1 + length s + 1)%nat
            else
              sreq (enclosing c =? 0) ENXIO;;
              let e := strextend (signature c) t in
              smod (upd_last_container (set_c_signature (Some e)));;
              mret (length e)); k nindex) m
  = k (index c + length t)%nat (upd_last_container (ext_sig t) m).
Proof.
  intros t Ha c. destruct (accepts_cases m _ _ Ha ltac:(done)) as [(E & E1 & E2 & H)|(E & H & r & Er)];
    fold t in H; fold c in E, H |- *; rewrite E, H; cbn [Z.eqb negb].
  - fold c in E1, E2. rewrite E1, E2. unfold strextend.
    erewrite stm_bind_run by reflexivity. by rewrite length_app.
  - fold c in Er. rewrite bracketed_app with (r := r) by done.
    erewrite stm_bind_run by reflexivity. f_equal. unfold t. simpl. rewrite length_app. simpl. lia.
Qed.

Lemma open_array_steps el m :
  ready m -> accepts m (SD_BUS_TYPE_ARRAY :: el) -> is_cstr el -> signature_is_single el true = true ->
  let pos := zlen (body m) in
  let p1 := align_up pos 4 + 4 in
  align_up p1 (align_of el) <= UINT32_MAX ->
  bus_message_open_array el m =
  (Ok (Some (Z.to_nat (align_up pos 4)), 0, false),
   upd_last_container
     (adv (index (message_get_last_container m) + length (SD_BUS_TYPE_ARRAY :: el))%nat)
     (grow (zpad pos 4 ++ zeros 4 ++ zpad p1 (align_of el))
       (upd_last_container (ext_sig (SD_BUS_TYPE_ARRAY :: el)) m))).
Proof.
  intros R Ha Hc Hs pos p1 Hfit. assert (Hpos : 0 <= pos) by apply zlen_nonneg.
  assert (R1 := ready_upd _ _ (array_size_ext_sig (SD_BUS_TYPE_ARRAY :: el)) R).
  assert (is_align 4) by (unfold is_align; lia).
  pose proof (pad_bound pos 4 ltac:(done) Hpos). pose proof (align_up_pad pos 4).
  assert (Hp1 : 0 <= p1) by (unfold p1; lia).
  pose proof (pad_bound p1 (align_of el) (align_of_is el) Hp1).
  pose proof (align_up_pad p1 (align_of el)).
  unfold bus_message_open_array. rewrite Hs.
  do 2 erewrite stm_bind_run by reflexivity. rewrite array_signature by done.
  rewrite (r_version m R).
  erewrite (stm_bind_run _ _ _ (Some (Z.to_nat (align_up pos 4)), 0, false)); [reflexivity|].
  erewrite stm_bind_run; [|unfold slift; by rewrite (single_align el true)].
  erewrite stm_bind_run by (apply extend_grow; [by apply ready_growable | done | lia |
    unfold fits; rewrite body_upd; fold pos; unfold p1 in *; lia]).
  rewrite body_upd. fold pos.
  assert (E : zlen (zpad pos 4 ++ room 4) = pad pos 4 + 4).
  { rewrite zlen_app, zpad_length by done. done. }
  set (m1 := upd_last_container _ m) in *.
  assert (R2 : growable (grow (zpad pos 4 ++ room 4) m1)) by (by apply growable_grow).
  assert (Hb2 : zlen (body (grow (zpad pos 4 ++ room 4) m1)) = p1).
  { rewrite zlen_body_grow, E by done. unfold m1. rewrite body_upd. fold pos. unfold p1. lia. }
  rewrite extend_align; [|done|apply align_of_is|unfold fits; rewrite Hb2; lia].
  rewrite Hb2, grow_app by done. rewrite <- app_assoc.
  erewrite stm_bind_run by reflexivity. unfold mret, stm_ret. f_equal.
  replace (Z.to_nat (align_up pos 4)) with (length (body m1) + length (zpad pos 4))%nat.
  - by apply (write_grow (zpad pos 4) (room 4) (zeros 4)).
  - unfold m1. rewrite body_upd. pose proof (zpad_length pos 4 ltac:(done) Hpos) as Ez.
    unfold zlen in Ez. unfold pos in *. unfold zlen in *. lia.
Qed.

Lemma open_array_run el m :
  ready m -> accepts m (SD_BUS_TYPE_ARRAY :: el) -> is_cstr el -> signature_is_single el true = true ->
  let pos := zlen (body m) in
  let p1 := align_up pos 4 + 4 in
  align_up p1 (align_of el) <= UINT32_MAX ->
  sd_bus_message_open_container SD_BUS_TYPE_ARRAY el m =
  (Ok tt,
   push (opened SD_BUS_TYPE_ARRAY el pos (Some (Z.to_nat (align_up pos 4))))
     (consume true (SD_BUS_TYPE_ARRAY :: el)
        (grow (zpad pos 4 ++ zeros 4 ++ zpad p1 (align_of el)) m))).
Proof.
  intros R Ha Hc Hs pos p1 Hfit. assert (Hpos : 0 <= pos) by apply zlen_nonneg.
  unfold sd_bus_message_open_container.
  erewrite stm_bind_run by reflexivity. rewrite (r_sealed m R), (r_poisoned m R). cbn [negb].
  do 3 erewrite stm_bind_run by reflexivity. rewrite Z.eqb_refl. fold save_index.
  set (m1 := upd_last_container save_index m).
  assert (R1 : ready m1) by (by apply ready_upd).
  assert (A1 : accepts m1 (SD_BUS_TYPE_ARRAY :: el)) by (by apply accepts_save).
  assert (E1 : body m1 = body m) by (unfold m1; by rewrite body_upd).
  erewrite stm_bind_run by (apply open_array_steps; rewrite ?E1; done).
  cbn beta iota. rewrite E1.
  assert (index (message_get_last_container m1) = index (message_get_last_container m)) as ->
    by (unfold m1; by rewrite get_last_upd).
  unfold m1. rewrite consume_opened by done. unfold smod, push, opened. f_equal. f_equal.
  by rewrite body_size_ready.
Qed.

Lemma zpad_one pos : zpad pos 1 = [].
Proof.
  unfold zpad, pad, align_up. replace ((pos + 1 - 1) / 1 * 1 - pos) with 0; [done|].
  rewrite Z.div_1_r. lia.
Qed.

Lemma open_variant_run s m :
  ready m -> accepts m [SD_BUS_TYPE_VARIANT] -> is_cstr s ->
  signature_is_single s false = true -> zlen s < 255 ->
  deref s <> SD_BUS_TYPE_DICT_ENTRY_BEGIN ->
  zlen (body m) + zlen s + 2 <= UINT32_MAX ->
  sd_bus_message_open_container SD_BUS_TYPE_VARIANT s m =
  (Ok tt,
   push (opened SD_BUS_TYPE_VARIANT s (zlen (body m)) None)
     (consume true [SD_BUS_TYPE_VARIANT] (grow ([zlen s] ++ s ++ [0]) m))).
Proof.
  intros R Ha Hc Hs Hl Hd Hfit. pose proof (zlen_nonneg s).
  unfold sd_bus_message_open_container.
  erewrite stm_bind_run by reflexivity. rewrite (r_sealed m R), (r_poisoned m R). cbn [negb].
  do 3 erewrite stm_bind_run by reflexivity. fold save_index.
  set (m1 := upd_last_container save_index m).
  assert (R1 : ready m1) by (by apply ready_upd).
  assert (A1 : accepts m1 [SD_BUS_TYPE_VARIANT]) by (by apply accepts_save).
  assert (E1 : body m1 = body m) by (unfold m1; by rewrite body_upd).
  change (SD_BUS_TYPE_VARIANT =? SD_BUS_TYPE_ARRAY) with false. rewrite Z.eqb_refl.
  erewrite (stm_bind_run _ _ _ (None, 0, false)).
  2: { unfold bus_message_open_variant. rewrite Hs, (proj2 (Z.eqb_neq _ _) Hd). cbn [negb].
    erewrite (stm_bind_run _ _ _ tt); [reflexivity|].
    do 2 erewrite stm_bind_run by reflexivity.
    erewrite stm_bind_run by (by apply check_or_extend_run).
    erewrite stm_bind_run by reflexivity. rewrite is_gvariant_upd, (r_version m1 R1).
    erewrite (stm_bind_run _ _ _ tt).
    2: { change (le_bytes 1 (zlen s)) with [zlen s mod 256]. rewrite Z.mod_small by lia.
         replace (1 + zlen s + 1) with (zlen ([zlen s] ++ s ++ [0]))
           by (rewrite !zlen_app; change (zlen [_]) with 1; lia).
         assert (R2 := ready_upd _ _ (array_size_ext_sig [SD_BUS_TYPE_VARIANT]) R1).
         apply extend_write_last; [done | by left | done |].
         unfold fits. rewrite body_upd, E1, align_up_id by (lia || apply Z.divide_1_l).
         rewrite !zlen_app. change (zlen [_]) with 1. lia. }
    rewrite advance_index_run. reflexivity. }
  cbn beta iota. rewrite body_upd, E1, zpad_one. cbn [app].
  rewrite (upd_ext _ (adv (index (message_get_last_container m) + 1))).
  2: { rewrite get_last_grow. unfold m1. rewrite !get_last_upd, index_ext_sig. simpl.
       by rewrite Nat.add_1_r. }
  unfold m1. rewrite consume_opened by done. unfold smod, push, opened. f_equal. f_equal.
  by rewrite body_size_ready.
Qed.

Definition tuple_sig (k : tuple_kind) (s : cstr) : cstr := tuple_begin k :: s ++ [tuple_end k].

Lemma align_struct_run s m :
  ready m -> fits m 8 0 ->
  align_struct s m = (Ok (0, false), grow (zpad (zlen (body m)) 8) m).
Proof.
  intros R Hf. unfold align_struct. erewrite stm_bind_run by reflexivity.
  rewrite (r_version m R).
  by rewrite (extend_align 8 m (fun _ => mret (0, false))) by first [by apply ready_growable | done | unfold is_align; lia].
Qed.

Lemma open_tuple_steps k s m :
  ready m -> accepts m (tuple_sig k s) -> tuple_check k s = true ->
  align_up (zlen (body m)) 8 <= UINT32_MAX ->
  match k with
  | TStruct => bus_message_open_struct s
  | TDict => bus_message_open_dict_entry s
  end m =
  (Ok (0, false),
   upd_last_container
     (adv (index (message_get_last_container m) + length (tuple_sig k s))%nat)
     (grow (zpad (zlen (body m)) 8)
       (upd_last_container (ext_sig (tuple_sig k s)) m))).
Proof.
  intros R Ha Hs Hf.
  assert (R1 := ready_upd _ _ (array_size_ext_sig (tuple_sig k s)) R).
  destruct k; cbn [tuple_check] in Hs.
  - unfold bus_message_open_struct. rewrite Hs. do 2 erewrite stm_bind_run by reflexivity.
    rewrite struct_signature by done.
    erewrite stm_bind_run
      by (apply align_struct_run; [done | unfold fits; rewrite body_upd; lia]).
    by rewrite body_upd.
  - unfold bus_message_open_dict_entry. rewrite Hs. do 2 erewrite stm_bind_run by reflexivity.
    destruct (accepts_cases m _ _ Ha ltac:(done)) as [(E & E1 & E2 & H)|(E & H & r & Er)].
    { unfold accepts, accepts_c in Ha. rewrite E in Ha. destruct Ha as (_ & _ & []). done. }
    fold (tuple_sig TDict s) in H. rewrite H.
    assert (enclosing (message_get_last_container m) = SD_BUS_TYPE_ARRAY) as Henc.
    { unfold accepts, accepts_c in Ha. rewrite E in Ha. by apply Ha. }
    rewrite Henc, E, Z.eqb_refl. do 2 erewrite stm_bind_run by reflexivity.
    rewrite (bracketed_app _ _ SD_BUS_TYPE_DICT_ENTRY_END s r) by done.
    erewrite stm_bind_run by reflexivity. rewrite align_struct_run by (done || unfold fits; lia).
    rewrite upd_id; [done|]. rewrite get_last_grow. unfold adv. by rewrite Henc.
Qed.

Lemma open_tuple_run k s m :
  ready m -> accepts m (tuple_sig k s) -> tuple_check k s = true ->
  align_up (zlen (body m)) 8 <= UINT32_MAX ->
  sd_bus_message_open_container (tuple_type k) s m =
  (Ok tt,
   push (opened (tuple_type k) s (zlen (body m)) None)
     (consume true (tuple_sig k s) (grow (zpad (zlen (body m)) 8) m))).
Proof.
  intros R Ha Hs Hf. unfold sd_bus_message_open_container.
  erewrite stm_bind_run by reflexivity. rewrite (r_sealed m R), (r_poisoned m R). cbn [negb].
  do 3 erewrite stm_bind_run by reflexivity. fold save_index.
  set (m1 := upd_last_container save_index m).
  assert (R1 : ready m1) by (by apply ready_upd).
  assert (A1 : accepts m1 (tuple_sig k s)) by (by apply accepts_save).
  assert (E1 : body m1 = body m) by (unfold m1; by rewrite body_upd).
  pose proof (open_tuple_steps k s m1 R1 A1 Hs) as Hop. rewrite E1 in Hop.
  specialize (Hop Hf).
  assert (index (message_get_last_container m1) = index (message_get_last_container m)) as E2
    by (unfold m1; by rewrite get_last_upd).
  rewrite E2 in Hop. unfold m1 in Hop. rewrite consume_opened in Hop by done. fold m1 in Hop.
  rewrite <- (body_size_ready m) by done.
  destruct k; erewrite (stm_bind_run _ _ _ (None, 0, false))
    by (cbv beta iota delta [tuple_type SD_BUS_TYPE_STRUCT SD_BUS_TYPE_DICT_ENTRY
          SD_BUS_TYPE_ARRAY SD_BUS_TYPE_VARIANT Z.eqb Pos.eqb];
        erewrite stm_bind_run by exact Hop; reflexivity);
  cbn beta iota; unfold smod, push, opened; rewrite <- (body_size_ready m) by done; done.
Qed.

(** ** Closing *)
Lemma close_run c m :
  ready (push c m) ->
  (enclosing c = SD_BUS_TYPE_ARRAY \/ sig_char c = 0) ->
  In (enclosing c) [SD_BUS_TYPE_ARRAY; SD_BUS_TYPE_VARIANT; SD_BUS_TYPE_STRUCT;
                    SD_BUS_TYPE_DICT_ENTRY] ->
  sd_bus_message_close_container (push c m) = (Ok tt, m).
Proof.
  intros R Hend Henc. unfold sd_bus_message_close_container.
  erewrite stm_bind_run by reflexivity.
  rewrite (r_sealed _ R), (r_poisoned _ R), get_last_push. cbn [negb].
  erewrite stm_bind_run by reflexivity.
  assert (bool_decide (containers (push c m) <> []) = true) as ->.
  { apply bool_decide_eq_true. unfold push. simpl. by destruct (containers m). }
  do 2 erewrite stm_bind_run by reflexivity.
  assert ((enclosing c =? SD_BUS_TYPE_ARRAY) || (sig_char c =? 0) = true) as ->.
  { apply orb_true_iff. rewrite !Z.eqb_eq. done. }
  do 2 erewrite stm_bind_run by reflexivity. rewrite pop_push.
  assert (Hv : BUS_MESSAGE_IS_GVARIANT m = false) by apply (r_version _ R).
  destruct Henc as [<-|[<-|[<-|[<-|[]]]]]; rewrite ?Z.eqb_refl;
    unfold bus_message_close_array, bus_message_close_variant, bus_message_close_struct;
    cbv beta iota delta [SD_BUS_TYPE_STRUCT SD_BUS_TYPE_DICT_ENTRY SD_BUS_TYPE_ARRAY
      SD_BUS_TYPE_VARIANT Z.eqb Pos.eqb in_set existsb orb].
  all: erewrite stm_bind_run by reflexivity; by rewrite Hv.
Qed.

(** ** Sequences of values *)
Fixpoint accepts_all (c : bus_container) (vs : list value) : Prop :=
  match vs with
  | [] => True
  | v :: vs => accepts_c c (vtype v) /\ accepts_all (consume_value c v) vs
  end.

Lemma array_size_consume_all vs c : array_size (consume_all vs c) = array_size c.
Proof.
  unfold consume_all. revert c; induction vs as [|v vs IH]; intros c; simpl; [done|].
  rewrite IH. apply array_size_consume.
Qed.

Definition appends (v : value) : Prop := forall m,
  value_ok v = true -> ready m -> accepts m (vtype v) ->
  zlen (body m) + zlen (marshal false (zlen (body m)) v) <= UINT32_MAX ->
  append_value v m =
  (Ok tt, consume (is_container_value v) (vtype v)
            (grow (marshal false (zlen (body m)) v) m)).

Lemma append_seq_spec vs :
  Forall appends vs -> Forall (fun v => value_ok v = true) vs -> forall m,
  ready m -> accepts_all (message_get_last_container m) vs ->
  zlen (body m) + zlen (marshal_seq false (zlen (body m)) vs) <= UINT32_MAX ->
  run_each append_value vs m =
  (Ok tt, upd_last_container (consume_all vs)
            (grow (marshal_seq false (zlen (body m)) vs) m)).
Proof.
  induction 1 as [|v vs Hv _ IH]; intros Hok m R Ha Hf; cbn [run_each].
  - cbn [consume_all]. unfold marshal_seq. cbn [seq_with]. rewrite grow_nil, upd_id by done. done.
  - inversion_clear Hok as [|?? Hok1 Hok2]. destruct Ha as [Ha1 Ha2].
    rewrite marshal_seq_cons, zlen_app in Hf. rewrite marshal_seq_cons.
    set (b := marshal false (zlen (body m)) v) in *.
    pose proof (zlen_nonneg (marshal_seq false (zlen (body m) + zlen b) vs)).
    assert (Rb : ready (grow b m)) by (by apply ready_grow, marshal_bytes).
    assert (E : zlen (body (consume (is_container_value v) (vtype v) (grow b m)))
                = zlen (body m) + zlen b).
    { unfold consume. rewrite body_upd. by apply zlen_body_grow. }
    erewrite stm_bind_run by (apply Hv; unfold b in *; try done; lia).
    fold b. rewrite IH; rewrite ?E; try done; try lia.
    + unfold consume. rewrite grow_upd by (intros; apply array_size_consume).
      rewrite grow_app by done. by rewrite upd_upd.
    + by apply ready_consume.
    + unfold consume. by rewrite get_last_upd.
Qed.

(** A container whose signature continues with [t]. *)
Definition takes (c : bus_container) (t : cstr) : Prop :=
  (exists r, drop (index c) (default [] (signature c)) = t ++ r) /\
  (deref t = SD_BUS_TYPE_DICT_ENTRY_BEGIN -> enclosing c = SD_BUS_TYPE_ARRAY).

Fixpoint takes_all (c : bus_container) (vs : list value) : Prop :=
  match vs with
  | [] => True
  | v :: vs => takes c (vtype v) /\ takes_all (consume_value c v) vs
  end.

Lemma takes_char c t : takes c t -> deref t <> 0 -> sig_char c = deref t.
Proof.
  intros [[r Hr] _] Ht. destruct t as [|x t]; [done|]. unfold sig_char.
  destruct (signature c); simpl in Hr; [|by rewrite drop_nil in Hr].
  unfold char_at. by rewrite Hr.
Qed.

Lemma takes_accepts c v : value_ok v = true -> takes c (vtype v) -> accepts_c c (vtype v).
Proof.
  intros Hv H. destruct (value_head v Hv) as (_ & _ & Hb & _). unfold accepts_c.
  rewrite (takes_char c (vtype v)) by (done || lia).
  by rewrite (proj2 (Z.eqb_neq (deref (vtype v)) 0)) by lia.
Qed.

Lemma takes_all_accepts vs : forall c,
  Forall (fun v => value_ok v = true) vs -> takes_all c vs -> accepts_all c vs.
Proof.
  induction vs as [|v vs IH]; intros c Hvs H; [done|]. inversion_clear Hvs.
  destruct H. split; [by apply takes_accepts | by apply IH].
Qed.

(** Taking a value moves the index only, and not even that in an array. *)
Lemma consume_value_takes c v :
  value_ok v = true -> takes c (vtype v) ->
  enclosing (consume_value c v) = enclosing c /\
  signature (consume_value c v) = signature c /\
  index (consume_value c v) =
    if enclosing c =? SD_BUS_TYPE_ARRAY then index c else (index c + length (vtype v))%nat.
Proof.
  intros Hv H. destruct (value_head v Hv) as (_ & _ & Hb & _).
  unfold consume_value, consume_c. rewrite (takes_char c (vtype v)) by (done || lia).
  rewrite (proj2 (Z.eqb_neq (deref (vtype v)) 0)) by lia.
  destruct (enclosing c =? SD_BUS_TYPE_ARRAY) eqn:E, (is_container_value v); done.
Qed.

(** Inside an array every element is taken and the container stays. *)
Lemma takes_all_array el vs c :
  enclosing c = SD_BUS_TYPE_ARRAY -> index c = 0%nat -> signature c = Some el ->
  Forall (fun v => value_ok v = true /\ vtype v = el) vs ->
  takes_all c vs /\ enclosing (consume_all vs c) = SD_BUS_TYPE_ARRAY.
Proof.
  intros He Hi Hs Hvs. unfold consume_all.
  revert c He Hi Hs; induction Hvs as [|v vs [Hv Ht] _ IH]; intros c He Hi Hs; [done|].
  assert (takes c (vtype v)) as Htk.
  { split; [|done]. exists []. by rewrite Hs, Hi, Ht, app_nil_r. }
  destruct (consume_value_takes c v Hv Htk) as (He' & Hs' & Hi').
  rewrite He in Hi', He'. rewrite Hs in Hs'. rewrite Hi in Hi'.
  destruct (IH _ He' Hi' Hs') as [H1 H2]. done.
Qed.

(** Inside a struct, a dict entry or a variant the signature is used up. *)
Lemma takes_all_tuple s vs : forall c r,
  enclosing c <> SD_BUS_TYPE_ARRAY -> signature c = Some s ->
  drop (index c) s = vtypes vs ++ r ->
  Forall (fun v => value_ok v = true /\ is_dict_entry v = false) vs ->
  takes_all c vs /\ enclosing (consume_all vs c) = enclosing c /\
  signature (consume_all vs c) = Some s /\ drop (index (consume_all vs c)) s = r.
Proof.
  unfold consume_all. induction vs as [|v vs IH]; intros c r He Hs Hd Hvs; [done|].
  inversion_clear Hvs as [|?? [Hv Hnd] Hvs'].
  unfold vtypes in Hd. cbn [map concat] in Hd. rewrite <- app_assoc in Hd.
  assert (takes c (vtype v)) as Htk.
  { unfold takes. rewrite Hs. split; [by eexists|]. intros E.
    destruct (value_head v Hv) as (_ & _ & _ & Hdict). apply Hdict in E. congruence. }
  destruct (consume_value_takes c v Hv Htk) as (He' & Hs' & Hi').
  rewrite (proj2 (Z.eqb_neq _ _) He) in Hi'.
  cbn [takes_all fold_left].
  destruct (IH (consume_value c v) r) as (H1 & H2 & H3 & H4); try done.
  - by rewrite He'.
  - by rewrite Hs'.
  - rewrite Hi', <- drop_drop, Hd. apply drop_app_length.
  - by rewrite H2.
Qed.

(** ** One value *)

(** Closing an array: what its length word, zero when it was opened, has become. *)
Lemma fill_array p q b m :
  ready m -> zlen b < 2 ^ 32 ->
  let m1 := grow (p ++ zeros 4 ++ q) m in
  set_body (bump (words m ++ [(length (body m) + length p)%nat]) (zlen b) (body m1) ++ b) m1
  = grow (p ++ le_bytes 4 (zlen b) ++ q ++ b) m.
Proof.
  intros R Hb m1. pose proof (zlen_nonneg b). unfold m1. rewrite body_grow. unfold grow.
  rewrite set_body_set_body. f_equal.
  assert (Hr := ready_range m R).
  set (k := zlen (p ++ zeros 4 ++ q)).
  assert (zlen (p ++ le_bytes 4 (zlen b) ++ q ++ b) = k + zlen b) as ->.
  { unfold k. rewrite !zlen_app. change (zlen (le_bytes 4 _)) with 4. change (zlen (zeros 4)) with 4. lia. }
  rewrite bump_snoc, bump_app_r by (by rewrite bump_length).
  rewrite (bump_bump _ 0) by apply R.
  set (l := bump (words m) (k + zlen b) (body m)).
  assert (length l = length (body m)) as <- by (by apply bump_length).
  rewrite app_assoc, <- length_app, bump1_mid by done.
  change (le_val (zeros 4)) with 0. rewrite Z.add_0_l, wrap_small by lia.
  by rewrite <- !app_assoc.
Qed.

Lemma grow_push x c m :
  grow x (push c m)
  = push c (set_body (bump (words m ++ omap array_size [c]) (zlen x) (body m) ++ x) m).
Proof. unfold grow. by rewrite words_push. Qed.

Lemma words_consume k t m : words (consume k t m) = words m.
Proof. apply words_upd. intros. apply array_size_consume. Qed.

Lemma grow_push_none x c m :
  array_size c = None -> grow x (push c m) = push c (grow x m).
Proof. intros H. rewrite grow_push. simpl. rewrite H, app_nil_r. done. Qed.

Lemma append_array_spec el vs : Forall appends vs -> appends (VArray el vs).
Proof.
  intros IH m Hok R Ha Hf. cbn [value_ok] in Hok. ztests.
  match goal with H : forallb _ vs = true |- _ => rename H into Hvs end.
  assert (Hvs1 := items_ok _ _ Hvs).
  assert (Hvs2 : Forall (fun v => value_ok v = true /\ vtype v = el) vs).
  { apply forallb_Forall in Hvs. eapply Forall_impl; [exact Hvs|]. simpl. intros v Hv. ztests.
    split; [done|]. by eapply bool_decide_eq_true. }
  clear Hvs. rewrite marshal_array in *. cbv zeta in *.
  set (pos := zlen (body m)) in *. set (p1 := align_up pos 4 + 4) in *.
  set (al := align_of el) in *. set (b := marshal_seq false (align_up p1 al) vs) in *.
  assert (Hpos : 0 <= pos) by apply zlen_nonneg.
  assert (Ha4 : is_align 4) by (unfold is_align; lia).
  assert (Haal : is_align al) by apply align_of_is.
  pose proof (pad_bound pos 4 Ha4 Hpos). pose proof (align_up_pad pos 4).
  assert (Hp1 : 0 <= p1) by (unfold p1; lia).
  pose proof (pad_bound p1 al Haal Hp1). pose proof (align_up_pad p1 al).
  pose proof (zlen_nonneg b).
  rewrite !zlen_app, !zpad_length in Hf by done. change (zlen (word false 4 _)) with 4 in Hf.
  unfold UINT32_MAX in *.
  cbn [append_value vtype is_container_value]. unfold append_values.
  erewrite stm_bind_run by (apply open_array_run; [done | done | by apply byte_string | done |
    fold pos; fold p1; fold al; unfold UINT32_MAX; lia]).
  fold pos p1 al.
  set (c := opened SD_BUS_TYPE_ARRAY el pos _).
  set (m1 := grow (zpad pos 4 ++ zeros 4 ++ zpad p1 al) m).
  set (m2 := consume true (SD_BUS_TYPE_ARRAY :: el) m1).
  assert (R1 : ready m1).
  { apply ready_grow; [done|]. repeat (apply Forall_app; split); apply zeros_bytes. }
  assert (Hl1 : zlen (body m1) = align_up p1 al).
  { unfold m1. rewrite zlen_body_grow, !zlen_app, !zpad_length by done.
    change (zlen (zeros 4)) with 4. fold pos. unfold p1 in *. lia. }
  assert (Hl2 : zlen (body (push c m2)) = align_up p1 al).
  { unfold m2, consume. change (body (push c ?x)) with (body x). by rewrite body_upd. }
  assert (Ea : Z.to_nat (align_up pos 4) = (length (body m) + length (zpad pos 4))%nat).
  { pose proof (zpad_length pos 4 Ha4 Hpos) as Ez. unfold zlen in Ez. unfold pos in *.
    unfold zlen in *. lia. }
  assert (R2 : ready (push c m2)).
  { apply ready_push; [by apply ready_consume|]. intros a [= <-]. exists (length (body m)).
    unfold m2. rewrite words_consume. unfold consume. rewrite body_upd.
    split; [apply R|]. unfold m1 at 1. rewrite length_body_grow, !length_app by done.
    change (length (zeros 4)) with 4%nat. lia. }
  destruct (takes_all_array el vs c) as [Hacc Henc]; [done|done|done|done|].
  apply takes_all_accepts in Hacc; [|done].
  erewrite stm_bind_run.
  2: { apply append_seq_spec; [done|done|done|by rewrite get_last_push|].
       rewrite Hl2. fold b. unfold UINT32_MAX. lia. }
  rewrite Hl2. fold b.
  assert (R3 := ready_upd _ _ (array_size_consume_all vs) (ready_grow b _ R2 (marshal_seq_bytes _ _ _ Hvs1))).
  rewrite grow_push in R3 |- *. rewrite upd_push in R3 |- *.
  rewrite close_run; [|done|by left|rewrite Henc; simpl; auto].
  f_equal. cbn [omap list_omap array_size c opened]. unfold m2. rewrite words_consume.
  unfold consume. rewrite body_upd, <- upd_set_body. f_equal. rewrite Ea.
  apply (fill_array _ _ b m R). lia.
Qed.

(** A container other than an array holds its items' bytes, then is closed. *)
Lemma append_inside ty s pos vs m :
  In ty [SD_BUS_TYPE_VARIANT; SD_BUS_TYPE_STRUCT; SD_BUS_TYPE_DICT_ENTRY] ->
  Forall appends vs -> Forall (fun v => value_ok v = true /\ is_dict_entry v = false) vs ->
  s = vtypes vs -> ready m ->
  zlen (body m) + zlen (marshal_seq false (zlen (body m)) vs) <= UINT32_MAX ->
  (run_each append_value vs;; sd_bus_message_close_container) (push (opened ty s pos None) m)
  = (Ok tt, grow (marshal_seq false (zlen (body m)) vs) m).
Proof.
  intros Hty IH Hvs -> R Hf. set (c := opened ty _ pos None).
  assert (Hvs1 : Forall (fun v => value_ok v = true) vs).
  { eapply Forall_impl; [exact Hvs|]. by intros v [? _]. }
  assert (Hne : enclosing c <> SD_BUS_TYPE_ARRAY).
  { simpl. destruct Hty as [<-|[<-|[<-|[]]]]; done. }
  destruct (takes_all_tuple (vtypes vs) vs c []) as (Hacc & Henc & Hsig & Hend);
    [done | done | by rewrite app_nil_r | done |].
  apply takes_all_accepts in Hacc; [|done].
  assert (R2 : ready (push c m)) by (by apply ready_push).
  erewrite stm_bind_run.
  2: { apply append_seq_spec; try done. by rewrite get_last_push. }
  change (body (push c m)) with (body m).
  assert (R3 := ready_upd _ _ (array_size_consume_all vs)
                  (ready_grow (marshal_seq false (zlen (body m)) vs) _ R2 (marshal_seq_bytes _ _ _ Hvs1))).
  rewrite grow_push_none in R3 |- * by done. rewrite upd_push in R3 |- *.
  apply close_run; [done| |].
  - right. unfold sig_char. rewrite Hsig. unfold char_at. by rewrite Hend.
  - rewrite Henc. simpl. simpl in Hty. tauto.
Qed.

Lemma run_each_one {S A} (f : A -> stm S unit) x s : run_each f [x] s = f x s.
Proof. cbn [run_each]. unfold mbind, stm_bind. by destruct (f x s) as [[[]|] ?]. Qed.

Lemma stm_bind_ext {S A B} (f g : stm S A) (k : A -> stm S B) s :
  f s = g s -> (f ≫= k) s = (g ≫= k) s.
Proof. unfold mbind, stm_bind. by intros ->. Qed.

Lemma marshal_seq_one be p v : marshal_seq be p [v] = marshal be p v.
Proof. unfold marshal_seq. cbn [seq_with]. by rewrite app_nil_r. Qed.

Lemma append_variant_spec v : appends v -> appends (VVariant v).
Proof.
  intros IH m Hok R Ha Hf. cbn [value_ok] in Hok. ztests.
  pose proof (vtype_cstr v ltac:(done)) as Hs.
  change (marshal false (zlen (body m)) (VVariant v)) with
    (([zlen (vtype v)] ++ vtype v ++ [0]) ++ marshal false (zlen (body m) + zlen (vtype v) + 2) v)
    in *.
  set (s := vtype v) in *. set (pre := [zlen s] ++ s ++ [0]) in *.
  assert (Hpre : zlen pre = zlen s + 2).
  { unfold pre. rewrite !zlen_app. change (zlen [_]) with 1. lia. }
  rewrite zlen_app in Hf. pose proof (zlen_nonneg (body m)). pose proof (zlen_nonneg s).
  set (b := marshal _ _ v) in *. pose proof (zlen_nonneg b).
  cbn [append_value]. erewrite stm_bind_run.
  2: { apply open_variant_run; try done; [|unfold s in *; lia].
       destruct (value_head v) as (_ & _ & _ & Hd); [done|]. rewrite Hd.
       by match goal with H : is_dict_entry v = false |- _ => rewrite H end. }
  fold s pre. set (m2 := consume true [SD_BUS_TYPE_VARIANT] (grow pre m)).
  assert (R1 : ready (grow pre m)).
  { apply ready_grow; [done|]. apply variant_bytes_is_byte; [done|lia]. }
  assert (Hl : zlen (body m2) = zlen (body m) + zlen s + 2).
  { unfold m2, consume. rewrite body_upd, zlen_body_grow by done. lia. }
  rewrite (stm_bind_ext _ (run_each append_value [v])) by (by rewrite run_each_one).
  rewrite append_inside; rewrite ?marshal_seq_one, ?Hl; fold b; try done.
  - f_equal. unfold m2, consume. rewrite grow_upd by (intros; apply array_size_consume).
    by rewrite grow_app.
  - simpl. auto.
  - by constructor.
  - by constructor.
  - unfold vtypes. simpl. by rewrite app_nil_r.
  - by apply ready_consume.
  - lia.
Qed.

Lemma append_tuple_spec k vs : Forall appends vs -> appends (VTuple k vs).
Proof.
  intros IH m Hok R Ha Hf. cbn [value_ok] in Hok. ztests.
  match goal with H : forallb _ vs = true |- _ => rename H into Hvs end.
  assert (Hvs2 : Forall (fun v => value_ok v = true /\ is_dict_entry v = false) vs).
  { apply forallb_Forall in Hvs. eapply Forall_impl; [exact Hvs|]. simpl. intros v Hv. by ztests. }
  clear Hvs. rewrite marshal_tuple in *.
  assert (Ha8 : is_align 8) by (unfold is_align; lia).
  set (pos := zlen (body m)) in *. assert (Hpos : 0 <= pos) by apply zlen_nonneg.
  rewrite zlen_app, zpad_length in Hf by done. pose proof (align_up_pad pos 8) as Ep.
  pose proof (zlen_nonneg (marshal_seq false (align_up pos 8) vs)).
  cbn [append_value]. erewrite stm_bind_run.
  2: { apply open_tuple_run; [done | done | done | fold pos; lia]. }
  fold pos. set (m2 := consume true _ _).
  assert (R1 : ready (grow (zpad pos 8) m)) by (apply ready_grow; [done|apply zeros_bytes]).
  assert (Hl : zlen (body m2) = align_up pos 8).
  { unfold m2, consume. rewrite body_upd, zlen_body_grow, zpad_length by done. fold pos. lia. }
  rewrite (append_inside (tuple_type k)); rewrite ?Hl; try done; try lia.
  - f_equal. unfold m2, consume. rewrite grow_upd by (intros; apply array_size_consume).
    by rewrite grow_app.
  - destruct k; simpl; auto.
  - by apply ready_consume.
Qed.

Lemma append_value_appends v : appends v.
Proof.
  induction v as [t x|el vs IH|v IH|k vs IH] using value_ind'.
  - intros m Hok R Ha Hf. by apply append_basic_spec.
  - by apply append_array_spec.
  - by apply append_variant_spec.
  - by apply append_tuple_spec.
Qed.
