(* ===== verification/MsgReadback.v ===== *)
(** * Reading back the reference marshalling

    [read_value] drives the reading operations of [bus-message.c] the way a
    generic client does, guided by [sd_bus_message_peek_type]; it is shown to
    return the value whose reference marshalling the body holds. *)
From S2P Require Import Prelude BusType Signature Names Utf8 Gvariant MsgState MsgWrite MsgRead MsgBody Marshal MsgAppend.

(** ** The client *)
Definition get_res {A} (f : message -> res A) : stm message A := fun m => (f m, m).

(** One value, and the values up to the end of the innermost container. The
    contents a variant, struct or dict entry announces must be those it has. *)
Fixpoint read_value (fuel : nat) : stm message value :=
  match fuel with
  | O => sfail EASSERT
  | S fuel =>
      p ← get_res sd_bus_message_peek_type;
      match p with
      | None => sfail ENXIO
      | Some (t, None) =>
          x ← sd_bus_message_read_basic t;
          match x with None => sfail EASSERT | Some x => mret (VBasic t x) end
      | Some (t, Some contents) =>
          _ ← sd_bus_message_enter_container t (Some contents);
          vs ← read_values fuel;
          sd_bus_message_exit_container;;
          if t =? SD_BUS_TYPE_ARRAY then mret (VArray contents vs)
          else if t =? SD_BUS_TYPE_VARIANT then
            match vs with
            | [v] => if streq contents (vtype v) then mret (VVariant v) else sfail EASSERT
            | _ => sfail EASSERT
            end
          else if streq contents (vtypes vs)
          then mret (VTuple (if t =? SD_BUS_TYPE_STRUCT then TStruct else TDict) vs)
          else sfail EASSERT
      end
  end
with read_values (fuel : nat) : stm message (list value) :=
  match fuel with
  | O => sfail EASSERT
  | S fuel =>
      e ← get_res (fun m => sd_bus_message_at_end m false);
      if e : bool then mret []
      else v ← read_value fuel; vs ← read_values fuel; mret (v :: vs)
  end.

(** The fuel a value needs. *)
Fixpoint vsize (v : value) : nat :=
  match v with
  | VBasic _ _ => 1
  | VArray _ vs | VTuple _ vs => S (S (list_sum (map (fun v => S (vsize v)) vs)))
  | VVariant v => S (S (S (vsize v)))
  end.

Definition vsizes (vs : list value) : nat := S (list_sum (map (fun v => S (vsize v)) vs)).

Lemma vsizes_cons v vs : vsizes (v :: vs) = S (vsize v + vsizes vs).
Proof. unfold vsizes. simpl. lia. Qed.

Lemma vsizes_pos vs : (1 <= vsizes vs)%nat.
Proof. unfold vsizes. lia. Qed.

(** ** Readable messages *)
Definition one_part (m : message) : Prop :=
  exists s z, parts m = (if bool_decide (body m = []) then [] else [Part (body m) s z]).

Lemma flat_one_part m : flat m -> one_part m.
Proof. intros [F _]. exists false, false. exact F. Qed.

Record readable (m : message) : Prop := Readable {
  rd_part : one_part m;
  rd_sealed : sealed m = true;
  rd_version : BUS_MESSAGE_IS_GVARIANT m = false;
  rd_user : user_body_size m = zlen (body m);
  rd_limit : zlen (body m) <= BUS_ARRAY_MAX_SIZE }.

(** The message after what was read: the position and the innermost container. *)
Definition moved (n : Z) (f : bus_container -> bus_container) (m : message) : message :=
  set_rindex n (upd_last_container f m).

Lemma readable_upd f m : readable m -> readable (upd_last_container f m).
Proof.
  intros R. constructor; rewrite ?body_upd.
  1: unfold one_part; rewrite body_upd.
  all: unfold upd_last_container; destruct (containers m); apply R.
Qed.

Lemma readable_moved n f m : readable m -> readable (moved n f m).
Proof. intros R. destruct (readable_upd f m R). by constructor. Qed.

Lemma readable_push c m : readable m -> readable (push c m).
Proof. intros R. by destruct R. Qed.

Lemma readable_rindex n m : readable m -> readable (set_rindex n m).
Proof. intros R. by destruct R. Qed.

Lemma body_moved n f m : body (moved n f m) = body m.
Proof. unfold moved. change (body (set_rindex n ?x)) with (body x). apply body_upd. Qed.

(** ** Peeking *)
Lemma find_part_flat m i sz :
  one_part m -> 0 <= i -> 0 <= sz ->
  find_part m i sz =
  if i + sz <=? zlen (body m) then Some (take (Z.to_nat sz) (drop (Z.to_nat i) (body m)))
  else None.
Proof.
  intros (s & z & F) Hi Hs. unfold find_part.
  assert (exists s z, match parts m with [] => [Part [] false false] | ps => ps end
                    = [Part (body m) s z]) as (s' & z' & ->).
  { rewrite F. case_bool_decide as E; [rewrite E|]; by do 2 eexists. }
  cbn [find_part_loop part_data]. unfold part_size. cbn [part_data].
  rewrite (proj2 (Z.ltb_ge i 0)), Z.add_0_l, Z.sub_0_r by lia.
  by destruct (i + sz <=? zlen (body m)).
Qed.

Lemma drop_at {A} (pre x : list A) n : n = zlen pre -> drop (Z.to_nat n) (pre ++ x) = x.
Proof. intros ->. unfold zlen. by rewrite Nat2Z.id, drop_app_length. Qed.

Lemma take_at {A} (x post : list A) n : n = zlen x -> take (Z.to_nat n) (x ++ post) = x.
Proof. intros ->. unfold zlen. by rewrite Nat2Z.id, take_app_length. Qed.

Lemma forallb_zeros n : forallb (Z.eqb 0) (zeros n) = true.
Proof. apply forallb_Forall. unfold zeros. by apply Forall_replicate. Qed.

(** Peeking past the padding at bytes that are there. *)
Lemma peek_body_spec m pre a x post :
  readable m -> is_align a ->
  body m = pre ++ zpad (zlen pre) a ++ x ++ post ->
  message_peek_body m (zlen pre) a (zlen x) = Ok (align_up (zlen pre) a + zlen x, x).
Proof.
  intros R Ha Hb. pose proof (zlen_nonneg pre). pose proof (zlen_nonneg x).
  pose proof (zlen_nonneg post). pose proof (pad_bound (zlen pre) a Ha ltac:(done)).
  pose proof (align_up_pad (zlen pre) a).
  assert (Hl : zlen (body m) = align_up (zlen pre) a + zlen x + zlen post).
  { rewrite Hb, !zlen_app, zpad_length by done. lia. }
  pose proof (rd_limit m R). unfold BUS_ARRAY_MAX_SIZE in *.
  unfold message_peek_body. rewrite ALIGN_TO_up by (done || lia).
  rewrite !wrap_small by lia.
  rewrite (rd_user m R), (proj2 (Z.ltb_ge _ _)) by lia.
  rewrite !find_part_flat by (apply R || lia).
  rewrite (proj2 (Z.leb_le _ _)) by lia.
  rewrite Hb at 1. rewrite drop_at by done.
  rewrite take_at by (rewrite zpad_length by done; lia).
  unfold zpad at 1. rewrite forallb_zeros. cbn [negb].
  rewrite (proj2 (Z.leb_le _ _)) by lia.
  rewrite Hb, app_assoc, drop_at, take_at by (rewrite ?zlen_app, ?zpad_length by done; lia). done.
Qed.

(** ** Words in the message's byte order *)
Lemma bswap_word m n x :
  0 <= x < 2 ^ (8 * Z.of_nat n) ->
  BUS_MESSAGE_BSWAP m n (le_val (word (BUS_MESSAGE_NEED_BSWAP m) n x)) = x.
Proof.
  intros Hx. unfold BUS_MESSAGE_BSWAP, word. destruct (BUS_MESSAGE_NEED_BSWAP m).
  - unfold bswap. rewrite <- (le_bytes_length n x), <- length_rev at 1.
    rewrite le_bytes_le_val by (apply Forall_rev, le_bytes_is_byte).
    rewrite rev_involutive, le_val_le_bytes. by apply Z.mod_small.
  - rewrite le_val_le_bytes. by apply Z.mod_small.
Qed.

Lemma zlen_word4 be x : zlen (word be 4 x) = 4.
Proof. unfold zlen. by rewrite word_length. Qed.

Lemma word1 be x : 0 <= x < 256 -> word be 1 x = [x].
Proof. intros. unfold word. destruct be; simpl; by rewrite Z.mod_small. Qed.

Lemma zpad_zlen_one pre : zpad pre 1 = [].
Proof. apply zpad_one. Qed.

(** ** Basic values *)
Lemma validate_nul_cstr s : is_cstr s -> validate_nul (s ++ [0]) (length s) = true.
Proof.
  intros H. unfold validate_nul, char_at. rewrite take_app_length, drop_app_length.
  apply andb_true_iff; split; [|done]. apply forallb_Forall.
  eapply Forall_impl; [exact H|]. simpl. intros c Hc. apply negb_true_iff, Z.eqb_neq. lia.
Qed.

Lemma read_fixed_spec m t n :
  basic_ok t (BInt n) = true ->
  read_fixed m t (word (BUS_MESSAGE_NEED_BSWAP m) (Z.to_nat (basic_align t)) n) = Ok (BInt n).
Proof.
  intros H. cbn [basic_ok] in H. ztests.
  match goal with H : bus_type_is_trivial t = true |- _ => in_set_cases H end;
  match goal with H : n < ?b |- _ => let v := eval vm_compute in b in change (n < v) in H end;
  match goal with |- context [Z.to_nat ?b] =>
    let v := eval vm_compute in (Z.to_nat b) in change (Z.to_nat b) with v end.
  1: { rewrite word1 by lia. unfold read_fixed. rewrite Z.eqb_refl. cbn [le_val]. do 2 f_equal. lia. }
  1: { assert (n = 0 \/ n = 1) as [->| ->] by lia;
       destruct (BUS_MESSAGE_NEED_BSWAP m) eqn:E; unfold word; reflexivity. }
  all: apply (f_equal (fun x => Ok (BInt x))), bswap_word; lia.
Qed.

(** A length word, then the characters and the NUL. *)
Lemma peek_string m pre n s post :
  readable m -> body m = pre ++ s ++ [0] ++ post -> zlen pre = n ->
  message_peek_body m n 1 (zlen s + 1) = Ok (n + zlen s + 1, s ++ [0]).
Proof.
  intros R Hb <-. pose proof (peek_body_spec m pre 1 (s ++ [0]) post R) as P.
  rewrite zpad_one, align_up_id in P by (lia || apply Z.divide_1_l).
  rewrite zlen_app in P. change (zlen [0]) with 1 in P.
  rewrite P; [do 2 f_equal; lia | unfold is_align; lia |].
  by rewrite Hb, <- !app_assoc.
Qed.

(** What the body holds at [pre] for a basic value, and what reading it gives. *)
Definition reads_basic (t : Z) (x : basic_value) : Prop := forall m pre post,
  readable m -> rindex m = zlen pre ->
  let bytes := marshal (BUS_MESSAGE_NEED_BSWAP m) (zlen pre) (VBasic t x) in
  body m = pre ++ bytes ++ post ->
  read_basic_dbus1 m t = Ok (zlen pre + zlen bytes, x).

Lemma read_basic_int t n : basic_ok t (BInt n) = true -> reads_basic t (BInt n).
Proof.
  intros Hok m pre post R Hr bytes Hb. subst bytes.
  unfold marshal in *. cbn [marshal_with basic_bytes_with] in *.
  set (be := BUS_MESSAGE_NEED_BSWAP m) in *. pose proof (zlen_nonneg pre).
  rewrite zlen_app, zpad_length by (done || apply basic_align_is).
  rewrite <- !app_assoc in Hb.
  assert (Hwl : zlen (word be (Z.to_nat (basic_align t)) n) = basic_align t).
  { unfold zlen. rewrite word_length. destruct (basic_align_is t) as [->|[->|[->| ->]]]; done. }
  assert (bus_type_get_alignment t = Ok (basic_align t) /\ bus_type_get_size t = Ok (basic_align t)
          /\ in_set t [SD_BUS_TYPE_STRING; SD_BUS_TYPE_OBJECT_PATH] = false
          /\ t =? SD_BUS_TYPE_SIGNATURE = false) as (Ha & Hs & Hn1 & Hn2).
  { cbn [basic_ok] in Hok. ztests.
    match goal with H : bus_type_is_trivial t = true |- _ => in_set_cases H; done end. }
  unfold read_basic_dbus1. rewrite Hn1, Hn2, Ha, Hs, Hr. cbn [mbind res_bind].
  rewrite <- Hwl at 2. erewrite peek_body_spec by (done || apply basic_align_is).
  cbn [mbind res_bind]. unfold be. rewrite read_fixed_spec by done. cbn [mbind res_bind].
  pose proof (align_up_pad (zlen pre) (basic_align t)). do 2 f_equal. lia.
Qed.

Lemma read_basic_string t s :
  is_cstr s -> in_set t [SD_BUS_TYPE_STRING; SD_BUS_TYPE_OBJECT_PATH] = true ->
  (if t =? SD_BUS_TYPE_OBJECT_PATH then validate_object_path (s ++ [0]) (length s)
   else validate_string (s ++ [0]) (length s)) = true ->
  zlen s < UINT32_MAX -> reads_basic t (BStr s).
Proof.
  intros Hc Hin Hval Hlen m pre post R Hr bytes Hb. subst bytes.
  unfold marshal in *. cbn [marshal_with basic_bytes_with] in *.
  assert (t =? ch "g" = false /\ basic_align t = 4) as [Hg Hal] by (in_set_cases Hin; done).
  rewrite Hg, Hal in *. set (be := BUS_MESSAGE_NEED_BSWAP m) in *.
  pose proof (zlen_nonneg pre). pose proof (zlen_nonneg s). unfold UINT32_MAX in *.
  assert (Hz : Z.to_nat (zlen s) = length s) by (unfold zlen; lia).
  assert (H4 : is_align 4) by (unfold is_align; lia).
  pose proof (align_up_pad (zlen pre) 4). rewrite <- !app_assoc in Hb.
  unfold read_basic_dbus1. rewrite Hr, Hin.
  rewrite <- (zlen_word4 be (zlen s)) at 2.
  erewrite peek_body_spec; [|done|done|exact Hb].
  cbn [mbind res_bind]. rewrite zlen_word4.
  assert (BUS_MESSAGE_BSWAP m 4 (le_val (word be 4 (zlen s))) = zlen s) as ->
    by (apply bswap_word; simpl; lia).
  unfold UINT32_MAX. rewrite (proj2 (Z.eqb_neq _ _)) by lia.
  erewrite (peek_string m (pre ++ zpad (zlen pre) 4 ++ word be 4 (zlen s)) _ s post); [|done| |].
  - cbn [mbind res_bind]. rewrite Hz, Hval, take_app_length. cbn [require mbind res_bind].
    do 2 f_equal. rewrite !zlen_app, zlen_word4, zpad_length by done.
    change (zlen [0]) with 1. lia.
  - by rewrite Hb, <- !app_assoc.
  - rewrite !zlen_app, zlen_word4, zpad_length by done. lia.
Qed.

Lemma read_basic_signature s :
  is_cstr s -> validate_signature (s ++ [0]) (length s) = true -> zlen s < 255 ->
  reads_basic SD_BUS_TYPE_SIGNATURE (BStr s).
Proof.
  intros Hc Hval Hlen m pre post R Hr bytes Hb. subst bytes.
  unfold marshal in *. cbn [marshal_with basic_bytes_with] in *.
  change (SD_BUS_TYPE_SIGNATURE =? ch "g") with true in *.
  change (basic_align SD_BUS_TYPE_SIGNATURE) with 1 in *.
  pose proof (zlen_nonneg pre). pose proof (zlen_nonneg s).
  cbn beta iota in *. rewrite zpad_one, word1 in * by lia. cbn [app] in Hb |- *.
  assert (Hz : Z.to_nat (zlen s) = length s) by (unfold zlen; lia).
  assert (H1 : is_align 1) by (unfold is_align; lia).
  unfold read_basic_dbus1. rewrite Hr.
  change (in_set SD_BUS_TYPE_SIGNATURE _) with false. rewrite Z.eqb_refl.
  pose proof (peek_body_spec m pre 1 [zlen s] (s ++ [0] ++ post) R H1) as P.
  rewrite zpad_one, align_up_id in P by (lia || apply Z.divide_1_l).
  change (zlen [zlen s]) with 1 in P. rewrite P by (rewrite Hb; cbn [app]; by rewrite <- app_assoc).
  cbn [mbind res_bind le_val]. rewrite Z.mul_0_r, Z.add_0_r, (proj2 (Z.eqb_neq _ _)) by lia.
  erewrite (peek_string m (pre ++ [zlen s]) _ s post); [|done| |].
  - cbn [mbind res_bind]. rewrite Hz, Hval, take_app_length. cbn [require mbind res_bind].
    do 2 f_equal. change (zlen (?x :: ?l)) with (zlen ([x] ++ l)).
    rewrite !zlen_app. change (zlen [_]) with 1. lia.
  - rewrite Hb. cbn [app]. by rewrite <- !app_assoc.
  - rewrite zlen_app. done.
Qed.

Lemma read_basic_dbus1_spec t x : basic_ok t x = true -> reads_basic t x.
Proof.
  intros Hok. destruct x as [n|s]; [by apply read_basic_int|].
  cbn [basic_ok] in Hok. apply andb_true_iff in Hok as [Hc Hok]. apply byte_string in Hc.
  pose proof (validate_nul_cstr s Hc) as Hnul.
  destruct (t =? SD_BUS_TYPE_STRING) eqn:E1; ztests.
  { subst. apply read_basic_string; try done. change (_ =? _) with false.
    unfold validate_string. rewrite Hnul, take_app_length. by ztests. }
  destruct (t =? SD_BUS_TYPE_OBJECT_PATH) eqn:E2; ztests.
  { subst. apply read_basic_string; try done. rewrite Z.eqb_refl.
    unfold validate_object_path. by rewrite Hnul, take_app_length. }
  destruct (t =? SD_BUS_TYPE_SIGNATURE) eqn:E3; ztests; [subst|done].
  apply read_basic_signature; [done| |done].
  unfold validate_signature. by rewrite Hnul, take_app_length.
Qed.

(** ** Positions *)
Lemma upd_set_rindex f n m :
  upd_last_container f (set_rindex n m) = set_rindex n (upd_last_container f m).
Proof. unfold upd_last_container. simpl. by destruct (containers m). Qed.

Lemma moved_moved n1 n2 f1 f2 m : moved n2 f2 (moved n1 f1 m) = moved n2 (f2 ∘ f1) m.
Proof. unfold moved. rewrite upd_set_rindex, upd_upd. done. Qed.

Lemma rindex_moved n f m : rindex (moved n f m) = n.
Proof. done. Qed.

Lemma get_last_moved n f m :
  message_get_last_container (moved n f m) = f (message_get_last_container m).
Proof. unfold moved. change (message_get_last_container (set_rindex n ?x)) with (message_get_last_container x). apply get_last_upd. Qed.

Lemma moved_push n f c m : moved n f (push c m) = push (f c) (set_rindex n m).
Proof. unfold moved. by rewrite upd_push. Qed.

Lemma length_containers_moved n f m : length (containers (moved n f m)) = length (containers m).
Proof.
  unfold moved. cbn [containers set_rindex]. rewrite upd_last_containers.
  destruct (containers m) as [|c cs _] using rev_ind; [done|].
  by rewrite upd_last_spec, !length_app.
Qed.

Lemma need_bswap_moved n f m : BUS_MESSAGE_NEED_BSWAP (moved n f m) = BUS_MESSAGE_NEED_BSWAP m.
Proof.
  unfold BUS_MESSAGE_NEED_BSWAP, moved, upd_last_container. by destruct (containers m).
Qed.

Lemma array_length_ext m m' c c' :
  body m' = body m -> BUS_MESSAGE_NEED_BSWAP m' = BUS_MESSAGE_NEED_BSWAP m ->
  array_size c' = array_size c -> array_length m' c' = array_length m c.
Proof.
  intros Hb Hn Ha. unfold array_length, BUS_MESSAGE_BSWAP, body_read32. by rewrite Ha, Hb, Hn.
Qed.

(** Where the items of the innermost container [c] end. *)
Definition ends_at (m : message) (c : bus_container) (e : Z) : Prop :=
  enclosing c = SD_BUS_TYPE_ARRAY /\
  exists l, array_length m c = Ok l /\ begin c + l = e.

Lemma end_of_array_spec m e :
  readable m -> ends_at m (message_get_last_container m) e ->
  message_end_of_array m (rindex m) = Ok (e <=? rindex m).
Proof.
  intros R (He & l & Hl & Hb). unfold message_end_of_array.
  rewrite He, Z.eqb_refl, (rd_version m R), Hl. cbn [negb mbind res_bind]. by rewrite Hb.
Qed.

Lemma not_array_end m :
  enclosing (message_get_last_container m) <> SD_BUS_TYPE_ARRAY ->
  message_end_of_array m (rindex m) = Ok false.
Proof. intros H. unfold message_end_of_array. by rewrite (proj2 (Z.eqb_neq _ _)). Qed.

Lemma consume_value_fields c v :
  enclosing (consume_value c v) = enclosing c /\ begin (consume_value c v) = begin c /\
  array_size (consume_value c v) = array_size c.
Proof.
  unfold consume_value, consume_c. by destruct (is_container_value v); repeat case_match.
Qed.

Lemma marshal_nonempty be v : forall pos, value_ok v = true -> 1 <= zlen (marshal be pos v).
Proof.
  unfold marshal. induction v as [t x|el vs _|v _|k vs IH] using value_ind';
    intros pos H; cbn [marshal_with].
  - rewrite zlen_app. pose proof (zlen_nonneg (zpad pos (basic_align t))).
    pose proof (basic_bytes_nonempty be t x) as Hne. unfold basic_bytes in Hne.
    destruct (basic_bytes_with _ t x); [done|]. unfold zlen. simpl. lia.
  - rewrite zlen_app, zlen_app, zlen_word4.
    pose proof (zlen_nonneg (zpad pos 4)).
    match goal with |- context [zlen (?a ++ ?b)] => pose proof (zlen_nonneg (a ++ b)) end. lia.
  - rewrite !zlen_app. change (zlen [_]) with 1. pose proof (zlen_nonneg (vtype v)).
    match goal with |- context [zlen (marshal_with ?a ?b ?c)] => pose proof (zlen_nonneg (marshal_with a b c)) end. lia.
  - cbn [value_ok] in H. ztests. destruct vs as [|v vs]; [done|].
    inversion_clear IH as [|?? IHv _]. cbn [forallb] in *. ztests.
    cbn [seq_with]. rewrite !zlen_app. specialize (IHv (align_up pos 8) ltac:(done)).
    pose proof (zlen_nonneg (zpad pos 8)).
    match goal with |- context [seq_with ?a ?b ?c] => pose proof (zlen_nonneg (seq_with a b c)) end. lia.
Qed.

(** ** The next type *)
Definition next_type (v : value) : Z * option cstr :=
  match v with
  | VBasic t _ => (t, None)
  | VArray el _ => (SD_BUS_TYPE_ARRAY, Some el)
  | VVariant v => (SD_BUS_TYPE_VARIANT, Some (vtype v))
  | VTuple k vs => (tuple_type k, Some (vtypes vs))
  end.

Lemma single_length t r :
  is_cstr t -> signature_is_single t true = true ->
  signature_element_length (t ++ r) = Ok (length t).
Proof.
  intros Hc H. apply (signature_is_single_spec t true) in H; [|done].
  unfold signature_element_length. by eapply sel_prefix.
Qed.

Lemma single_valid s d :
  is_cstr s -> signature_is_single s d = true -> zlen s < 256 -> signature_is_valid s true = true.
Proof.
  intros Hc H Hl. apply signature_is_valid_spec; [done|]. exists [s].
  apply signature_is_single_spec in H; [|done].
  split; [simpl; by rewrite app_nil_r|]. split; [|unfold zlen in Hl; lia].
  constructor; [|done]. destruct d; [done|]. by eapply complete_type_allow.
Qed.

(** The signature and the NUL of a variant. *)
Lemma peek_variant m pre s post :
  readable m -> is_cstr s -> zlen s < 255 -> rindex m = zlen pre ->
  body m = pre ++ [zlen s] ++ s ++ [0] ++ post ->
  message_peek_body m (rindex m) 1 1 = Ok (zlen pre + 1, [zlen s]) /\
  message_peek_body m (zlen pre + 1) 1 (zlen s + 1) = Ok (zlen pre + zlen s + 2, s ++ [0]) /\
  (signature_is_valid s true = true -> validate_signature (s ++ [0]) (length s) = true).
Proof.
  intros R Hc Hl Hr Hb. pose proof (zlen_nonneg pre).
  assert (H1 : is_align 1) by (unfold is_align; lia).
  split; [|split].
  - pose proof (peek_body_spec m pre 1 [zlen s] (s ++ [0] ++ post) R H1) as P.
    rewrite zpad_one, align_up_id in P by (lia || apply Z.divide_1_l).
    rewrite Hr. change (zlen [zlen s]) with 1 in P. by apply P.
  - erewrite (peek_string m (pre ++ [zlen s]) _ s post); [do 2 f_equal; lia|done| |].
    + by rewrite Hb, <- !app_assoc.
    + by rewrite zlen_app.
  - intros Hv. unfold validate_signature. by rewrite validate_nul_cstr, take_app_length.
Qed.

Lemma peek_type_spec m pre v post :
  value_ok v = true -> readable m -> rindex m = zlen pre ->
  body m = pre ++ marshal (BUS_MESSAGE_NEED_BSWAP m) (zlen pre) v ++ post ->
  takes (message_get_last_container m) (vtype v) ->
  message_end_of_array m (rindex m) = Ok false ->
  sd_bus_message_peek_type m = Ok (Some (next_type v)).
Proof.
  intros Hok R Hr Hb Ht Heoa. destruct (value_head v Hok) as (_ & _ & Hpos & _).
  pose proof (takes_char _ _ Ht ltac:(lia)) as Hch. destruct Ht as [[r Hd] _].
  unfold sd_bus_message_peek_type, message_end_of_signature.
  rewrite (rd_sealed m R), Heoa, Hch, (proj2 (Z.eqb_neq _ _)) by lia.
  cbn [require mbind res_bind]. rewrite Hd.
  pose proof (vtype_cstr v Hok) as Hcs.
  destruct v as [t x|el vs|v|k vs]; cbn [vtype value_ok next_type] in *.
  - cbn [app deref]. by rewrite (basic_ok_basic t x).
  - ztests. cbn [app deref tail]. change (bus_type_is_basic SD_BUS_TYPE_ARRAY) with false.
    rewrite Z.eqb_refl, single_length by (done || by apply byte_string).
    cbn [mbind res_bind]. by rewrite take_app_length.
  - ztests. cbn [app deref tail]. change (bus_type_is_basic SD_BUS_TYPE_VARIANT) with false.
    change (in_set SD_BUS_TYPE_VARIANT _) with false.
    change (SD_BUS_TYPE_VARIANT =? SD_BUS_TYPE_ARRAY) with false.
    rewrite Z.eqb_refl, (rd_version m R).
    unfold marshal in Hb. cbn [marshal_with] in Hb. rewrite <- !app_assoc in Hb.
    pose proof (vtype_cstr v ltac:(done)) as Hv.
    destruct (peek_variant m pre (vtype v) _ R Hv ltac:(done) Hr Hb) as (P1 & P2 & P3).
    rewrite P1. cbn [mbind res_bind le_val]. rewrite Z.mul_0_r, Z.add_0_r.
    rewrite (proj2 (Z.eqb_neq _ _)) by lia. rewrite P2. cbn [mbind res_bind].
    assert (Z.to_nat (zlen (vtype v)) = length (vtype v)) as -> by (unfold zlen; lia).
    rewrite P3 by (eapply single_valid; [done|done|lia]).
    cbn [require mbind res_bind]. by rewrite take_app_length.
  - ztests. rewrite single_length by done.
    cbn [app deref tail length]. rewrite length_app, <- app_assoc. cbn [length].
    assert (1 <= length (concat (map vtype vs)))%nat.
    { destruct vs as [|v vs]; [done|]. cbn [forallb] in *. ztests.
      destruct (value_head v) as (t & Et & _); [done|]. cbn [map concat]. rewrite Et. simpl. lia. }
    destruct k; cbn [tuple_begin tuple_type];
      cbv beta iota delta [bus_type_is_basic in_set existsb SD_BUS_TYPE_STRUCT_BEGIN
        SD_BUS_TYPE_DICT_ENTRY_BEGIN SD_BUS_TYPE_ARRAY Z.eqb Pos.eqb orb
        SD_BUS_TYPE_BYTE SD_BUS_TYPE_BOOLEAN SD_BUS_TYPE_INT16 SD_BUS_TYPE_UINT16
        SD_BUS_TYPE_INT32 SD_BUS_TYPE_UINT32 SD_BUS_TYPE_INT64 SD_BUS_TYPE_UINT64
        SD_BUS_TYPE_DOUBLE SD_BUS_TYPE_STRING SD_BUS_TYPE_OBJECT_PATH SD_BUS_TYPE_SIGNATURE
        SD_BUS_TYPE_UNIX_FD];
      cbn [mbind res_bind]; rewrite bool_decide_eq_true_2 by lia; cbn [require mbind res_bind].
    all: replace (S (length (concat (map vtype vs)) + 1) - 2)%nat
      with (length (concat (map vtype vs))) by lia; by rewrite take_app_length.
Qed.

(** ** Entering and leaving *)
Definition entered_c (ty : Z) (s : cstr) (m : message) (e : entered) : bus_container :=
  Container ty false 0 0 (Some s) (rindex m) (e_rindex e)
    (e_rindex e + item_size (message_get_last_container m))
    (e_array_size e) (e_offsets e) 0 (e_item_size e).

Lemma consume_c_sig k t c :
  sig_char c <> 0 ->
  consume_c k t c = adv (index c + length t) (if k then save_index c else c).
Proof.
  intros H. rewrite consume_c_adv. unfold ext_sig. fold (save_index c).
  assert (sig_char (if k then save_index c else c) = sig_char c) as -> by (by destruct k).
  by rewrite (proj2 (Z.eqb_neq _ _)).
Qed.

Lemma enter_run ty s t m e :
  readable m -> takes (message_get_last_container m) t -> deref t <> 0 ->
  message_end_of_array m (rindex m) = Ok false ->
  (length (containers m) < BUS_CONTAINER_DEPTH)%nat ->
  (let m := upd_last_container save_index m in enter_by_type ty s m = (Ok (Some e, length t), m)) ->
  ty <> 0 ->
  sd_bus_message_enter_container ty (Some s) m =
  (Ok true, push (entered_c ty s m e) (moved (e_rindex e) (consume_c true t) m)).
Proof.
  intros R Ht Hne Heoa Hdepth Hstep Hty. pose proof (takes_char _ _ Ht Hne) as Hch.
  unfold sd_bus_message_enter_container. erewrite stm_bind_run by reflexivity.
  rewrite (rd_sealed m R), (proj2 (Z.eqb_neq _ _) Hty).
  do 2 erewrite stm_bind_run by reflexivity. unfold enter_container_at.
  erewrite stm_bind_run by reflexivity.
  rewrite (bool_decide_eq_false_2 (BUS_CONTAINER_DEPTH <= length (containers m))%nat) by lia.
  erewrite stm_bind_run by reflexivity.
  unfold message_end_of_signature at 1. rewrite Hch, (proj2 (Z.eqb_neq (deref t) 0)) by done.
  erewrite stm_bind_run by reflexivity.
  erewrite stm_bind_run by (unfold slift; rewrite Heoa; reflexivity).
  cbn beta iota. do 3 erewrite stm_bind_run by reflexivity. fold save_index.
  erewrite stm_bind_run by exact Hstep.
  cbn beta iota.
  do 3 erewrite stm_bind_run by reflexivity. unfold mret, stm_ret. f_equal.
  assert (BUS_MESSAGE_IS_GVARIANT (upd_last_container save_index m) = false) as ->.
  { rewrite is_gvariant_upd. apply R. }
  cbn [andb]. rewrite get_last_upd. unfold push, entered_c, moved.
  rewrite upd_set_rindex, upd_upd.
  rewrite (upd_ext _ (consume_c true t)).
  2: { rewrite consume_c_sig by (by rewrite Hch). done. }
  assert (rindex (upd_last_container save_index m) = rindex m) as ->; [|done].
  unfold upd_last_container. by destruct (containers m).
Qed.

Lemma exit_run c m :
  readable (push c m) ->
  ends_at (push c m) c (rindex m) \/ enclosing c <> SD_BUS_TYPE_ARRAY /\ sig_char c = 0 ->
  sd_bus_message_exit_container (push c m) = (Ok tt, m).
Proof.
  intros R Hend. unfold sd_bus_message_exit_container.
  erewrite stm_bind_run by reflexivity. rewrite (rd_sealed _ R), get_last_push.
  erewrite stm_bind_run by reflexivity.
  assert (bool_decide (containers (push c m) <> []) = true) as ->.
  { apply bool_decide_eq_true. unfold push. simpl. by destruct (containers m). }
  erewrite stm_bind_run by reflexivity. rewrite (rd_version _ R).
  assert (BUS_MESSAGE_IS_GVARIANT m = false) as Hv by apply (rd_version _ R).
  assert (Hchk : (sreq ((enclosing c =? SD_BUS_TYPE_ARRAY) || (sig_char c =? 0)) EBUSY;;
    (if enclosing c =? SD_BUS_TYPE_ARRAY then
       l ← slift (array_length (push c m) c); sreq (begin c + l =? rindex (push c m)) EBUSY
     else mret tt)) (push c m) = (Ok tt, push c m)).
  { destruct Hend as [(He & l & Hl & Hb)|[He Hs]].
    - rewrite He, Z.eqb_refl. unfold slift. do 2 erewrite stm_bind_run by (rewrite ?Hl; reflexivity).
      change (rindex (push c m)) with (rindex m). by rewrite Hb, Z.eqb_refl.
    - by rewrite (proj2 (Z.eqb_neq _ _) He), Hs. }
  apply stm_bind_ok in Hchk as (u & s1 & E1 & E2).
  erewrite stm_bind_run by exact E1. erewrite stm_bind_run by exact E2.
  do 2 erewrite stm_bind_run by reflexivity. rewrite pop_push.
  unfold container_next_item. rewrite Hv. cbn [negb].
  erewrite stm_bind_run by reflexivity.
  unfold smod. f_equal. rewrite upd_id.
  - by destruct m.
  - by destruct (message_get_last_container m).
Qed.

Lemma takes_save c t : takes c t -> takes (save_index c) t.
Proof. done. Qed.

Lemma takes_startswith c b s :
  takes c (b :: s) ->
  bool_decide (is_Some (startswith (drop (index c + 1) (default [] (signature c))) s)) = true.
Proof.
  intros [[r Hr] _]. apply bool_decide_eq_true. cbn [app] in Hr.
  rewrite (drop_S_eq _ _ _ _ Hr), startswith_app. by eexists.
Qed.

(** The parts of an array's bytes. *)
Lemma array_layout pre be el vs post :
  let pos := zlen pre in
  let p1 := align_up pos 4 + 4 in
  let p2 := align_up p1 (align_of el) in
  let b := marshal_seq be p2 vs in
  let hd := pre ++ zpad pos 4 in
  pre ++ marshal be pos (VArray el vs) ++ post
    = hd ++ word be 4 (zlen b) ++ zpad p1 (align_of el) ++ b ++ post /\
  zlen hd = align_up pos 4 /\
  zlen (hd ++ word be 4 (zlen b)) = p1 /\
  zlen (hd ++ word be 4 (zlen b) ++ zpad p1 (align_of el)) = p2 /\
  zlen (marshal be pos (VArray el vs)) = p2 + zlen b - pos.
Proof.
  intros pos p1 p2 b hd. pose proof (zlen_nonneg pre).
  assert (is_align 4) by (unfold is_align; lia).
  pose proof (pad_bound pos 4 ltac:(done) ltac:(done)). pose proof (align_up_pad pos 4).
  pose proof (align_up_pad p1 (align_of el)). pose proof (align_of_is el).
  rewrite marshal_array. fold p1 p2. cbv zeta. fold p2 b. unfold hd.
  rewrite !zlen_app, !zlen_word4, !zpad_length by (done || unfold p1; lia).
  fold pos. split; [by rewrite <- !app_assoc|]. unfold p2, p1 in *. lia.
Qed.

Lemma enter_array_step m pre el vs post :
  readable m -> value_ok (VArray el vs) = true -> rindex m = zlen pre ->
  let be := BUS_MESSAGE_NEED_BSWAP m in
  body m = pre ++ marshal be (zlen pre) (VArray el vs) ++ post ->
  let c := message_get_last_container m in
  takes c (SD_BUS_TYPE_ARRAY :: el) ->
  let p1 := align_up (zlen pre) 4 + 4 in
  let p2 := align_up p1 (align_of el) in
  bus_message_enter_array m c el =
    Ok (Entered p2 (Some (Z.to_nat (align_up (zlen pre) 4))) 0 []) /\
  le_val (take 4 (drop (Z.to_nat (align_up (zlen pre) 4)) (body m)))
    = le_val (word be 4 (zlen (marshal_seq be p2 vs))) /\
  zlen (marshal_seq be p2 vs) <= BUS_ARRAY_MAX_SIZE.
Proof.
  intros R Hok Hr be Hb c Ht p1 p2. cbn [value_ok] in Hok. ztests.
  destruct (array_layout pre be el vs post) as (E1 & E2 & E3 & E4 & _). fold p1 p2 in E1, E3, E4.
  rewrite E1 in Hb. set (b := marshal_seq be p2 vs) in *. set (hd := pre ++ zpad (zlen pre) 4) in *.
  pose proof (takes_char _ _ Ht ltac:(done)) as Hch. cbn [deref] in Hch.
  pose proof (rd_limit m R) as Hlim. pose proof (zlen_nonneg b).
  assert (zlen b <= BUS_ARRAY_MAX_SIZE) as Hbl.
  { rewrite Hb, !zlen_app in Hlim. pose proof (zlen_nonneg hd). pose proof (zlen_nonneg post).
    pose proof (zlen_nonneg (zpad p1 (align_of el))). pose proof (zlen_nonneg (word be 4 (zlen b))). lia. }
  split; [|split; [|done]].
  - unfold bus_message_enter_array. rewrite Hch, Z.eqb_refl, Hr.
    replace (signature_is_single el true) with true by done.
    rewrite (takes_startswith c SD_BUS_TYPE_ARRAY el Ht).
    cbn [require mbind res_bind]. change (SD_BUS_TYPE_ARRAY =? 0) with false.
    cbn [negb require mbind res_bind]. rewrite (rd_version m R). cbn [negb].
    assert (H4 : is_align 4) by (unfold is_align; lia).
    pose proof (peek_body_spec m pre 4 (word be 4 (zlen b)) (zpad p1 (align_of el) ++ b ++ post) R H4) as P.
    rewrite zlen_word4 in P. rewrite P by (rewrite Hb; unfold hd; by rewrite <- app_assoc).
    cbn [mbind res_bind]. unfold BUS_ARRAY_MAX_SIZE in *.
    assert (BUS_MESSAGE_BSWAP m 4 (le_val (word be 4 (zlen b))) = zlen b) as ->
      by (apply bswap_word; simpl; lia).
    unfold BUS_ARRAY_MAX_SIZE. rewrite (proj2 (Z.ltb_ge _ _)) by lia.
    rewrite (single_align el true) by (done || by apply byte_string). cbn [mbind res_bind].
    fold p1.
    pose proof (peek_body_spec m (hd ++ word be 4 (zlen b)) (align_of el) [] (b ++ post) R (align_of_is el)) as P2.
    rewrite E3 in P2. change (zlen []) with 0 in P2. cbn [app] in P2.
    rewrite P2 by (by rewrite Hb, <- !app_assoc). cbn [mbind res_bind].
    fold p2. do 2 f_equal; [lia|]. do 2 f_equal. unfold p1. lia.
  - do 2 f_equal. rewrite Hb, drop_at by (by rewrite E2). change 4%nat with (Z.to_nat 4).
    rewrite take_at; [done|]. by rewrite zlen_word4.
Qed.

Lemma enter_variant_step m pre v post :
  readable m -> value_ok (VVariant v) = true -> rindex m = zlen pre ->
  body m = pre ++ marshal (BUS_MESSAGE_NEED_BSWAP m) (zlen pre) (VVariant v) ++ post ->
  let c := message_get_last_container m in
  takes c [SD_BUS_TYPE_VARIANT] ->
  bus_message_enter_variant m c (vtype v) = Ok (Entered (zlen pre + zlen (vtype v) + 2) None 0 []).
Proof.
  intros R Hok Hr Hb c Ht. cbn [value_ok] in Hok. ztests.
  pose proof (takes_char _ _ Ht ltac:(done)) as Hch. cbn [deref] in Hch.
  pose proof (vtype_cstr v ltac:(done)) as Hv. pose proof (zlen_nonneg (vtype v)).
  unfold marshal in Hb. cbn [marshal_with] in Hb. rewrite <- !app_assoc in Hb.
  destruct (peek_variant m pre (vtype v) _ R Hv ltac:(done) Hr Hb) as (P1 & P2 & P3).
  unfold bus_message_enter_variant. rewrite Hch, Z.eqb_refl.
  replace (signature_is_single (vtype v) false) with true by done.
  destruct (value_head v) as (_ & _ & _ & Hd); [done|].
  rewrite (proj2 (Z.eqb_neq (deref (vtype v)) SD_BUS_TYPE_DICT_ENTRY_BEGIN))
    by (rewrite Hd; by match goal with H : is_dict_entry v = false |- _ => rewrite H end).
  change (SD_BUS_TYPE_VARIANT =? 0) with false. cbn [negb require mbind res_bind].
  rewrite (rd_version m R), P1. cbn [mbind res_bind le_val]. rewrite Z.mul_0_r, Z.add_0_r.
  rewrite (proj2 (Z.eqb_neq _ _)) by lia. rewrite P2. cbn [mbind res_bind].
  assert (Z.to_nat (zlen (vtype v)) = length (vtype v)) as -> by (unfold zlen; lia).
  rewrite P3 by (eapply single_valid; [done|done|lia]).
  rewrite take_app_length, streq_refl. done.
Qed.

Lemma enter_tuple_step m pre k vs post :
  readable m -> value_ok (VTuple k vs) = true -> rindex m = zlen pre ->
  body m = pre ++ marshal (BUS_MESSAGE_NEED_BSWAP m) (zlen pre) (VTuple k vs) ++ post ->
  let c := message_get_last_container m in
  takes c (tuple_sig k (vtypes vs)) ->
  let e := Entered (align_up (zlen pre) 8) None 0 [] in
  match k with
  | TStruct => bus_message_enter_struct c (vtypes vs) m = (Ok e, m)
  | TDict => bus_message_enter_dict_entry c (vtypes vs) m = (Ok (Some e), m)
  end.
Proof.
  intros R Hok Hr Hb c Ht e. cbn [value_ok] in Hok. ztests.
  assert (Hne : tuple_begin k <> 0) by (by destruct k).
  pose proof (takes_char _ _ Ht Hne) as Hch. cbn [deref] in Hch. change (deref _) with (tuple_begin k) in Hch.
  assert (He : enter_struct_or_dict_entry c (vtypes vs) m = (Ok e, m)).
  { unfold enter_struct_or_dict_entry. erewrite stm_bind_run by reflexivity. rewrite (rd_version m R), Hr. cbn [negb].
    rewrite marshal_tuple, <- app_assoc in Hb.
    pose proof (peek_body_spec m pre 8 [] _ R ltac:(unfold is_align; lia) Hb) as P.
    change (zlen []) with 0 in P. rewrite P. erewrite stm_bind_run by reflexivity. unfold e, mret, stm_ret. do 3 f_equal. lia. }
  assert (Hbr : bracketed c (tuple_begin k) (tuple_end k) (vtypes vs) = true).
  { destruct Ht as [[r Hr'] _]. by apply (bracketed_app c _ _ _ r). }
  match goal with H : tuple_check _ _ = true |- _ => rename H into Hck end.
  destruct k; cbn [tuple_check tuple_begin tuple_end] in *.
  - unfold bus_message_enter_struct. fold (vtypes vs) in Hck. rewrite Hck, Hch, Hbr.
    by do 3 erewrite stm_bind_run by reflexivity.
  - unfold bus_message_enter_dict_entry. fold (vtypes vs) in Hck. rewrite Hck, Hch, Hbr.
    destruct Ht as [_ Henc]. rewrite Henc by done. rewrite Z.eqb_refl.
    change (SD_BUS_TYPE_DICT_ENTRY_BEGIN =? 0) with false.
    do 3 erewrite stm_bind_run by reflexivity. by erewrite stm_bind_run by exact He.
Qed.

(** ** Values and sequences of values *)
Definition reads (v : value) : Prop := forall fuel m pre post,
  value_ok v = true -> readable m -> rindex m = zlen pre ->
  let bytes := marshal (BUS_MESSAGE_NEED_BSWAP m) (zlen pre) v in
  body m = pre ++ bytes ++ post ->
  takes (message_get_last_container m) (vtype v) ->
  message_end_of_array m (rindex m) = Ok false ->
  (length (containers m) + vdepth v <= BUS_CONTAINER_DEPTH)%nat ->
  (vsize v <= fuel)%nat ->
  read_value fuel m =
  (Ok v, moved (zlen pre + zlen bytes) (consume_c (is_container_value v) (vtype v)) m).

(** The items of [c] are over at [e], when all of [vs] has been taken. *)
Definition over (m : message) (c : bus_container) (vs : list value) (e : Z) : Prop :=
  ends_at m c e \/
  enclosing c <> SD_BUS_TYPE_ARRAY /\ sig_char (consume_all vs c) = 0.

Lemma at_end_run m b :
  readable m ->
  (sig_char (message_get_last_container m) = 0 /\ b = true \/
   sig_char (message_get_last_container m) <> 0 /\ message_end_of_array m (rindex m) = Ok b) ->
  get_res (fun m => sd_bus_message_at_end m false) m = (Ok b, m).
Proof.
  intros R H. unfold get_res, sd_bus_message_at_end, message_end_of_signature.
  rewrite (rd_sealed m R). cbn [andb require mbind res_bind].
  destruct H as [[-> ->]|[Hne ->]]; [done|]. by rewrite (proj2 (Z.eqb_neq _ _)).
Qed.

Lemma ends_at_moved n f m c c' e :
  enclosing c' = enclosing c -> begin c' = begin c -> array_size c' = array_size c ->
  ends_at m c e -> ends_at (moved n f m) c' e.
Proof.
  intros He Hb Ha (H & l & Hl & H2). split; [by rewrite He|]. exists l. rewrite Hb. split; [|done].
  by rewrite (array_length_ext m _ c) by (by rewrite ?body_moved, ?need_bswap_moved).
Qed.

Lemma read_seq_spec vs :
  Forall reads vs -> Forall (fun v => value_ok v = true) vs -> forall fuel m pre post,
  readable m -> rindex m = zlen pre ->
  let bytes := marshal_seq (BUS_MESSAGE_NEED_BSWAP m) (zlen pre) vs in
  body m = pre ++ bytes ++ post ->
  takes_all (message_get_last_container m) vs ->
  over m (message_get_last_container m) vs (zlen pre + zlen bytes) ->
  Forall (fun v => length (containers m) + vdepth v <= BUS_CONTAINER_DEPTH)%nat vs ->
  (vsizes vs <= fuel)%nat ->
  read_values fuel m = (Ok vs, moved (zlen pre + zlen bytes) (consume_all vs) m).
Proof.
  induction 1 as [|v vs Hv _ IH]; intros Hok fuel m pre post R Hr bytes Hb Ht Hend Hdep Hfuel;
    (destruct fuel as [|fuel]; [unfold vsizes in Hfuel; simpl in Hfuel; lia|]);
    cbn [read_values].
  - assert (Hl : zlen pre + zlen bytes = zlen pre) by (unfold bytes; change (marshal_seq _ _ []) with (@nil Z); change (zlen []) with 0; lia).
    rewrite Hl in *. erewrite stm_bind_run.
    2: { apply (at_end_run m true); [done|].
         destruct (Z.eq_dec (sig_char (message_get_last_container m)) 0); [by left|right].
         split; [done|]. destruct Hend as [Hend|[_ Hend]]; [|done].
         rewrite (end_of_array_spec _ _ R Hend), Hr. f_equal. apply Z.leb_refl. }
    unfold mret, stm_ret. f_equal. unfold moved. rewrite upd_id by done. rewrite <- Hr. by destruct m.
  - inversion_clear Hok as [|?? Hok1 Hok2]. inversion_clear Hdep as [|?? Hdep1 Hdep2].
    destruct Ht as [Ht1 Ht2]. unfold bytes in *. rewrite marshal_seq_cons, <- app_assoc in Hb.
    rewrite marshal_seq_cons, zlen_app in Hend |- *.
    set (be := BUS_MESSAGE_NEED_BSWAP m) in *. set (b1 := marshal be (zlen pre) v) in *.
    set (b2 := marshal_seq be (zlen pre + zlen b1) vs) in *.
    assert (Hb1 : 1 <= zlen b1) by (by apply marshal_nonempty).
    pose proof (zlen_nonneg b2). destruct (value_head v Hok1) as (_ & _ & Hpos & _).
    assert (Heoa : message_end_of_array m (rindex m) = Ok false).
    { destruct Hend as [Hend|[Hend _]]; [|by apply not_array_end].
      rewrite (end_of_array_spec _ _ R Hend). f_equal. apply Z.leb_gt. lia. }
    erewrite stm_bind_run.
    2: { apply (at_end_run m false); [done|]. right. split; [|done].
         rewrite (takes_char _ _ Ht1); lia. }
    cbn beta iota. rewrite vsizes_cons in Hfuel. pose proof (vsizes_pos vs).
    erewrite stm_bind_run by (apply Hv with (post := b2 ++ post); try done; lia).
    fold be b1. set (m1 := moved (zlen pre + zlen b1) _ m).
    assert (R1 : readable m1) by (by apply readable_moved).
    assert (Hbe : BUS_MESSAGE_NEED_BSWAP m1 = be) by apply need_bswap_moved.
    assert (Hc1 : message_get_last_container m1 = consume_value (message_get_last_container m) v)
      by apply get_last_moved.
    destruct (consume_value_fields (message_get_last_container m) v) as (F1 & F2 & F3).
    pose proof (IH Hok2 fuel m1 (pre ++ b1) post R1) as IH'.
    rewrite Hbe, Hc1, zlen_app in IH'. cbv zeta in IH'. fold b2 in IH'.
    erewrite stm_bind_run.
    2: { apply IH'; try done.
      - unfold m1. rewrite body_moved, Hb. by rewrite <- app_assoc.
      - destruct Hend as [Hend|[Hne Hsig]]; [left|right].
        + unfold m1. eapply ends_at_moved; try done.
          by replace (zlen pre + zlen b1 + zlen b2) with (zlen pre + (zlen b1 + zlen b2)) by lia.
        + by rewrite F1.
      - unfold m1. by rewrite length_containers_moved.
      - lia. }
    unfold mret, stm_ret. f_equal. unfold m1. rewrite moved_moved. by rewrite Z.add_assoc.
Qed.

(** Inside a container just entered: the items, then out again. *)
Lemma read_inside vs fuel c m pre post :
  Forall reads vs -> Forall (fun v => value_ok v = true) vs ->
  readable m -> rindex m = zlen pre ->
  let bytes := marshal_seq (BUS_MESSAGE_NEED_BSWAP m) (zlen pre) vs in
  body m = pre ++ bytes ++ post ->
  takes_all c vs -> over m c vs (zlen pre + zlen bytes) ->
  (length (containers m) + S (list_max (map vdepth vs)) <= BUS_CONTAINER_DEPTH)%nat ->
  (vsizes vs <= fuel)%nat ->
  read_values fuel (push c m)
    = (Ok vs, push (consume_all vs c) (set_rindex (zlen pre + zlen bytes) m)) /\
  sd_bus_message_exit_container
      (push (consume_all vs c) (set_rindex (zlen pre + zlen bytes) m))
    = (Ok tt, set_rindex (zlen pre + zlen bytes) m).
Proof.
  intros IH Hok R Hr bytes Hb Ht Hend Hdep Hfuel. assert (Rp := readable_push c m R). split.
  - rewrite (read_seq_spec vs IH Hok fuel (push c m) pre post); try done.
    + change (BUS_MESSAGE_NEED_BSWAP (push c m)) with (BUS_MESSAGE_NEED_BSWAP m). fold bytes.
      by rewrite moved_push.
    + by rewrite get_last_push.
    + change (BUS_MESSAGE_NEED_BSWAP (push c m)) with (BUS_MESSAGE_NEED_BSWAP m). fold bytes.
      rewrite get_last_push. destruct Hend as [(He & l & Hl & Hs)|Hend]; [left|by right].
      split; [done|]. exists l. split; [|done]. by rewrite (array_length_ext m _ c).
    + pose proof (list_max_le (map vdepth vs) (list_max (map vdepth vs))) as [Hmax _].
      specialize (Hmax (le_n _)). apply List.Forall_forall. intros v Hin.
      rewrite List.Forall_forall in Hmax. specialize (Hmax (vdepth v) (in_map _ _ _ Hin)).
      unfold push. cbn [containers set_containers]. rewrite length_app. simpl. lia.
  - apply exit_run; [by apply readable_push, readable_rindex|].
    assert (F : enclosing (consume_all vs c) = enclosing c /\ begin (consume_all vs c) = begin c /\
                array_size (consume_all vs c) = array_size c).
    { clear. unfold consume_all. revert c. induction vs as [|v vs IH]; intros c; [done|].
      cbn [fold_left]. destruct (IH (consume_value c v)) as (-> & -> & ->).
      apply consume_value_fields. }
    destruct F as (F1 & F2 & F3).
    destruct Hend as [(He & l & Hl & Hs)|[Hne Hs]]; [left|right; by rewrite F1].
    split; [by rewrite F1|]. exists l. rewrite F2. split; [|done].
    by rewrite (array_length_ext m _ c).
Qed.

Lemma set_rindex_moved n n' f m : set_rindex n (moved n' f m) = moved n f m.
Proof. done. Qed.

(** The part of [read_value] every container shares. *)
Lemma read_container v vs s t fuel m e pre post :
  readable m -> next_type v = (t, Some s) ->
  sd_bus_message_peek_type m = Ok (Some (next_type v)) ->
  sd_bus_message_enter_container t (Some s) m =
    (Ok true, push (entered_c t s m e) (moved (e_rindex e) (consume_c true (vtype v)) m)) ->
  Forall reads vs -> Forall (fun v => value_ok v = true) vs ->
  e_rindex e = zlen pre ->
  let bytes := marshal_seq (BUS_MESSAGE_NEED_BSWAP m) (zlen pre) vs in
  body m = pre ++ bytes ++ post ->
  takes_all (entered_c t s m e) vs -> over m (entered_c t s m e) vs (zlen pre + zlen bytes) ->
  (length (containers m) + S (list_max (map vdepth vs)) <= BUS_CONTAINER_DEPTH)%nat ->
  (vsizes vs <= fuel)%nat ->
  (if t =? SD_BUS_TYPE_ARRAY then mret (VArray s vs)
   else if t =? SD_BUS_TYPE_VARIANT then
     match vs with
     | [v] => if streq s (vtype v) then mret (VVariant v) else sfail EASSERT
     | _ => sfail EASSERT
     end
   else if streq s (vtypes vs)
   then mret (VTuple (if t =? SD_BUS_TYPE_STRUCT then TStruct else TDict) vs)
   else sfail EASSERT : stm message value)
  = mret v ->
  read_value (S fuel) m =
  (Ok v, moved (zlen pre + zlen bytes) (consume_c true (vtype v)) m).
Proof.
  intros R Hn Hp He IH Hok Hr bytes Hb Ht Hend Hdep Hfuel Hv. cbn [read_value].
  erewrite stm_bind_run by (unfold get_res; by rewrite Hp). rewrite Hn. cbn beta iota.
  erewrite stm_bind_run by exact He.
  set (m1 := moved (e_rindex e) _ m). assert (R1 : readable m1) by (by apply readable_moved).
  assert (Hbe : BUS_MESSAGE_NEED_BSWAP m1 = BUS_MESSAGE_NEED_BSWAP m) by apply need_bswap_moved.
  destruct (read_inside vs fuel (entered_c t s m e) m1 pre post) as [E1 E2];
    rewrite ?Hbe; try done.
  - unfold m1. by rewrite body_moved.
  - destruct Hend as [(Ha & l & Hl & Hs)|Hend]; [left|by right].
    split; [done|]. exists l. split; [|done]. rewrite <- Hl. apply array_length_ext; [|done|done].
    unfold m1. apply body_moved.
  - unfold m1. by rewrite length_containers_moved.
  - rewrite Hbe in E1, E2. fold bytes in E1, E2.
    erewrite stm_bind_run by exact E1. erewrite stm_bind_run by exact E2.
    unfold m1. rewrite set_rindex_moved, Hv. done.
Qed.

(** The index is saved before the container is looked at. *)
Lemma saved_facts m :
  let m1 := upd_last_container save_index m in
  (readable m -> readable m1) /\ body m1 = body m /\ rindex m1 = rindex m /\
  BUS_MESSAGE_NEED_BSWAP m1 = BUS_MESSAGE_NEED_BSWAP m /\
  message_get_last_container m1 = save_index (message_get_last_container m).
Proof.
  intros m1. split; [apply readable_upd|]. split; [apply body_upd|].
  split; [unfold m1, upd_last_container; by destruct (containers m)|].
  split; [unfold m1, upd_last_container; by destruct (containers m)|].
  apply get_last_upd.
Qed.

Lemma read_array_spec el vs : Forall reads vs -> reads (VArray el vs).
Proof.
  intros IH fuel m pre post Hok R Hr bytes Hb Ht Heoa Hdep Hfuel.
  destruct fuel as [|fuel]; [simpl in Hfuel; lia|].
  set (be := BUS_MESSAGE_NEED_BSWAP m) in *.
  set (p1 := align_up (zlen pre) 4 + 4). set (p2 := align_up p1 (align_of el)).
  set (b := marshal_seq be p2 vs).
  destruct (array_layout pre be el vs post) as (E1 & _ & _ & E4 & E5).
  fold p1 p2 b in E1, E4, E5. fold bytes in E1, E5.
  set (pre' := (pre ++ zpad (zlen pre) 4) ++ word be 4 (zlen b) ++ zpad p1 (align_of el)) in *.
  destruct (saved_facts m) as (S1 & S2 & S3 & S4 & S5).
  pose proof (enter_array_step (upd_last_container save_index m) pre el vs post (S1 R) Hok) as Hst.
  rewrite S2, S3, S4, S5 in Hst. cbv zeta in Hst. fold be p1 p2 b in Hst.
  destruct (Hst Hr Hb (takes_save _ _ Ht)) as (Henter & Hword & Hlim).
  set (e := Entered p2 (Some (Z.to_nat (align_up (zlen pre) 4))) 0 []) in *.
  pose proof Hok as Hok'. cbn [value_ok] in Hok'. ztests.
  match goal with H : forallb _ vs = true |- _ => pose proof (items_ok _ _ H) as Hvs;
    apply forallb_Forall in H as Hels end.
  destruct (takes_all_array el vs (entered_c SD_BUS_TYPE_ARRAY el m e)) as [Hta _]; try done.
  { eapply Forall_impl; [exact Hels|]. simpl. intros v Hv. ztests.
    split; [done|]. by eapply bool_decide_eq_true. }
  replace (zlen pre + zlen bytes) with (zlen pre' + zlen b) by lia.
  unfold b. rewrite <- E4.
  apply (read_container (VArray el vs) vs el SD_BUS_TYPE_ARRAY fuel m e pre' post);
    rewrite ?E4; try done.
  - by apply (peek_type_spec m pre _ post).
  - apply enter_run; try done; [simpl in Hdep; lia|]. cbv zeta. unfold enter_by_type. erewrite stm_bind_run by reflexivity.
    cbv zeta. rewrite Z.eqb_refl, S5. by erewrite stm_bind_run by (unfold slift; rewrite Henter; reflexivity).
  - rewrite Hb, E1. unfold pre'. fold be b. by rewrite <- !app_assoc.
  - left. split; [done|]. exists (zlen b). split; [|done].
    unfold array_length, entered_c, body_read32. cbn [array_size e_array_size e]. rewrite Hword.
    f_equal. apply bswap_word. pose proof (zlen_nonneg b). unfold BUS_ARRAY_MAX_SIZE in *. simpl. lia.
  - cbn [vsize] in Hfuel. unfold vsizes. lia.
Qed.

(** A variant holds one value, a struct or dict entry its members. *)
Lemma read_members v vs t s fuel m pre pre' post e :
  Forall reads vs -> Forall (fun v => value_ok v = true /\ is_dict_entry v = false) vs ->
  readable m -> next_type v = (t, Some s) -> t <> SD_BUS_TYPE_ARRAY -> s = vtypes vs ->
  sd_bus_message_peek_type m = Ok (Some (next_type v)) ->
  sd_bus_message_enter_container t (Some s) m =
    (Ok true, push (entered_c t s m e) (moved (e_rindex e) (consume_c true (vtype v)) m)) ->
  e_rindex e = zlen pre' ->
  let b := marshal_seq (BUS_MESSAGE_NEED_BSWAP m) (zlen pre') vs in
  marshal (BUS_MESSAGE_NEED_BSWAP m) (zlen pre) v = drop (length pre) pre' ++ b ->
  pre' = pre ++ drop (length pre) pre' ->
  body m = pre ++ marshal (BUS_MESSAGE_NEED_BSWAP m) (zlen pre) v ++ post ->
  (length (containers m) + S (list_max (map vdepth vs)) <= BUS_CONTAINER_DEPTH)%nat ->
  (vsizes vs <= fuel)%nat ->
  (if t =? SD_BUS_TYPE_VARIANT then
     match vs with
     | [v] => if streq s (vtype v) then mret (VVariant v) else sfail EASSERT
     | _ => sfail EASSERT
     end
   else if streq s (vtypes vs)
   then mret (VTuple (if t =? SD_BUS_TYPE_STRUCT then TStruct else TDict) vs)
   else sfail EASSERT : stm message value)
  = mret v ->
  read_value (S fuel) m =
  (Ok v, moved (zlen pre + zlen (marshal (BUS_MESSAGE_NEED_BSWAP m) (zlen pre) v))
           (consume_c true (vtype v)) m).
Proof.
  intros IH Hvs R Hn Hna -> Hp He Hr b Hm Hpre Hb Hdep Hfuel Hv.
  assert (Hvs1 : Forall (fun v => value_ok v = true) vs).
  { eapply Forall_impl; [exact Hvs|]. by intros w [? _]. }
  destruct (takes_all_tuple (vtypes vs) vs (entered_c t (vtypes vs) m e) []) as (Hta & Henc & Hsig & Hend);
    [done | done | by rewrite app_nil_r | done |].
  assert (Hl : zlen pre + zlen (marshal (BUS_MESSAGE_NEED_BSWAP m) (zlen pre) v) = zlen pre' + zlen b).
  { rewrite Hm, zlen_app. rewrite Hpre at 2. rewrite zlen_app. lia. }
  rewrite Hl. unfold b. apply (read_container v vs (vtypes vs) t fuel m e pre' post); try done.
  - rewrite Hb, Hm. rewrite Hpre at 2. by rewrite <- !app_assoc.
  - right. split; [done|]. unfold sig_char. rewrite Hsig. unfold char_at. by rewrite Hend.
  - by rewrite (proj2 (Z.eqb_neq _ _) Hna).
Qed.

Lemma read_variant_spec v : reads v -> reads (VVariant v).
Proof.
  intros IH fuel m pre post Hok R Hr bytes Hb Ht Heoa Hdep Hfuel.
  destruct fuel as [|fuel]; [simpl in Hfuel; lia|].
  pose proof Hok as Hok'. cbn [value_ok] in Hok'. ztests.
  destruct (saved_facts m) as (S1 & S2 & S3 & S4 & S5).
  pose proof (enter_variant_step (upd_last_container save_index m) pre v post (S1 R) Hok) as Hst.
  rewrite S2, S3, S4, S5 in Hst. specialize (Hst Hr Hb (takes_save _ _ Ht)).
  set (pre' := pre ++ [zlen (vtype v)] ++ vtype v ++ [0]).
  assert (Hl : zlen pre' = zlen pre + zlen (vtype v) + 2).
  { unfold pre'. rewrite !zlen_app. change (zlen [_]) with 1. lia. }
  apply (read_members (VVariant v) [v] SD_BUS_TYPE_VARIANT (vtype v) fuel m pre pre' post
           (Entered (zlen pre + zlen (vtype v) + 2) None 0 [])); try done.
  - by constructor.
  - by constructor.
  - unfold vtypes. simpl. by rewrite app_nil_r.
  - by apply (peek_type_spec m pre _ post).
  - apply enter_run; try done; [simpl in Hdep; lia|]. cbv zeta. unfold enter_by_type.
    erewrite stm_bind_run by reflexivity. cbv zeta. rewrite S5.
    change (SD_BUS_TYPE_VARIANT =? SD_BUS_TYPE_ARRAY) with false. rewrite Z.eqb_refl.
    by erewrite stm_bind_run by (unfold slift; rewrite Hst; reflexivity).
  - rewrite Hl, marshal_seq_one. unfold pre'. by rewrite drop_app_length.
  - unfold pre'. by rewrite drop_app_length.
  - simpl in *. lia.
  - cbn [vsize] in Hfuel. rewrite vsizes_cons. change (vsizes []) with 1%nat. lia.
  - by rewrite Z.eqb_refl, streq_refl.
Qed.

Lemma read_tuple_spec k vs : Forall reads vs -> reads (VTuple k vs).
Proof.
  intros IH fuel m pre post Hok R Hr bytes Hb Ht Heoa Hdep Hfuel.
  destruct fuel as [|fuel]; [simpl in Hfuel; lia|].
  pose proof Hok as Hok'. cbn [value_ok] in Hok'. ztests.
  destruct (saved_facts m) as (S1 & S2 & S3 & S4 & S5).
  pose proof (enter_tuple_step (upd_last_container save_index m) pre k vs post (S1 R) Hok) as Hst.
  rewrite S2, S3, S4, S5 in Hst. specialize (Hst Hr Hb (takes_save _ _ Ht)). cbv zeta in Hst.
  set (pre' := pre ++ zpad (zlen pre) 8). pose proof (zlen_nonneg pre).
  assert (Hl : zlen pre' = align_up (zlen pre) 8).
  { unfold pre'. rewrite zlen_app, zpad_length, align_up_pad by (done || unfold is_align; lia). done. }
  apply (read_members (VTuple k vs) vs (tuple_type k) (vtypes vs) fuel m pre pre' post
           (Entered (align_up (zlen pre) 8) None 0 [])); try done.
  - match goal with H : forallb _ vs = true |- _ => apply forallb_Forall in H as Hvs end.
    eapply Forall_impl; [exact Hvs|]. simpl. intros v Hv. by ztests.
  - by destruct k.
  - by apply (peek_type_spec m pre _ post).
  - assert (Hlen : length (vtype (VTuple k vs)) = (1 + length (vtypes vs) + 1)%nat).
    { cbn [vtype length]. rewrite length_app. simpl. unfold vtypes. lia. }
    apply enter_run; try done; [by destruct k|simpl in Hdep; lia| |by destruct k].
    cbv zeta. unfold enter_by_type. erewrite stm_bind_run by reflexivity. cbv zeta.
    rewrite S5, Hlen. destruct k; cbn [tuple_type];
    cbv beta iota delta [SD_BUS_TYPE_STRUCT SD_BUS_TYPE_DICT_ENTRY SD_BUS_TYPE_ARRAY
      SD_BUS_TYPE_VARIANT Z.eqb Pos.eqb]; by erewrite stm_bind_run by exact Hst.
  - unfold pre'. by rewrite drop_app_length, marshal_tuple, <- Hl.
  - unfold pre'. by rewrite drop_app_length.
  - cbn [vsize] in Hfuel. unfold vsizes. lia.
  - rewrite streq_refl. by destruct k.
Qed.

Lemma read_value_reads v : reads v.
Proof.
  induction v as [t x|el vs IH|v IH|k vs IH] using value_ind'.
  - intros fuel m pre post Hok R Hr bytes Hb Ht Heoa _ Hfuel.
    destruct fuel as [|fuel]; [simpl in Hfuel; lia|]. cbn [read_value].
    erewrite stm_bind_run by (unfold get_res; by erewrite peek_type_spec).
    cbn [next_type]. cbn beta iota.
    pose proof (basic_ok_basic t x Hok) as Hbas. pose proof (basic_nonzero t Hbas).
    pose proof (takes_char _ _ Ht ltac:(simpl; lia)) as Hch. cbn [deref vtype] in Hch.
    rewrite (stm_bind_run _ _ _ (Some x)
      (moved (zlen pre + zlen bytes) (consume_c false [t]) m)); [done|].
    unfold sd_bus_message_read_basic. erewrite stm_bind_run by reflexivity.
    rewrite (rd_sealed m R), Hbas. do 2 erewrite stm_bind_run by reflexivity.
    unfold message_end_of_signature at 1. rewrite Hch, (proj2 (Z.eqb_neq t 0)) by lia.
    erewrite stm_bind_run by reflexivity.
    erewrite stm_bind_run by (unfold slift; rewrite Heoa; reflexivity). cbn beta iota.
    rewrite Z.eqb_refl. erewrite stm_bind_run by reflexivity.
    rewrite (rd_version m R). unfold slift.
    pose proof (read_basic_dbus1_spec t x Hok m pre post R Hr Hb) as Hrd. fold bytes in Hrd.
    erewrite stm_bind_run by (rewrite Hrd; reflexivity). cbn beta iota.
    do 2 erewrite stm_bind_run by reflexivity.
    erewrite stm_bind_run by apply advance_index_run. unfold mret, stm_ret. f_equal.
    unfold moved. rewrite upd_set_rindex, upd_upd. f_equal. apply upd_ext.
    cbn [is_container_value]. rewrite consume_c_sig by lia. cbn [compose vtype length].
    by rewrite Nat.add_1_r.
  - by apply read_array_spec.
  - by apply read_variant_spec.
  - by apply read_tuple_spec.
Qed.
