(* ===== verification/MsgRoundtrip.v ===== *)
(** * What is written is read back

    The two refinements put together: values appended to a fresh message give
    the reference marshalling, sealing keeps it, and reading the sealed message
    gives the values again. *)
From S2P Require Import Prelude BusType Signature Names Utf8 Gvariant MsgState MsgWrite MsgFields MsgRead MsgBody Marshal MsgAppend MsgReadback.

(** ** Top level *)

(** A message of the D-Bus 1 format nothing was appended to yet. *)
Record fresh (m : message) : Prop := Fresh {
  f_sealed : sealed m = false;
  f_poisoned : poisoned m = false;
  f_version : BUS_MESSAGE_IS_GVARIANT m = false;
  f_endian : h_endian (hdr m) = BUS_NATIVE_ENDIAN;
  f_parts : parts m = [];
  f_body_size : body_size m = 0;
  f_containers : containers m = [];
  f_root : root_container m = empty_container 0 false;
  f_rindex : rindex m = 0;
  f_fds : fds m = [] }.

Definition top_ok (vs : list value) : Prop :=
  Forall (fun v => value_ok v = true /\ is_dict_entry v = false) vs.

Lemma top_ok_values vs : top_ok vs -> Forall (fun v => value_ok v = true) vs.
Proof. intros H. eapply Forall_impl; [exact H|]. by intros v [? _]. Qed.

Lemma fresh_ready m : fresh m -> ready m.
Proof.
  intros F. assert (Hb : body m = []) by (unfold body; by rewrite (f_parts m F)).
  constructor; try apply F.
  - unfold flat. rewrite Hb, (f_parts m F), (f_body_size m F). done.
  - by rewrite Hb.
  - unfold words. rewrite (f_containers m F), Hb. simpl. lia.
Qed.

(** The top level takes any values; its signature grows by their types. *)
Lemma accepts_all_top vs : forall c,
  top_ok vs -> enclosing c = 0 -> index c = length (default [] (signature c)) ->
  accepts_all c vs /\
  default [] (signature (consume_all vs c)) = default [] (signature c) ++ vtypes vs /\
  enclosing (consume_all vs c) = 0 /\
  index (consume_all vs c) = length (default [] (signature (consume_all vs c))).
Proof.
  unfold consume_all. induction vs as [|v vs IH]; intros c Hvs He Hi.
  { cbn [fold_left accepts_all]. unfold vtypes. simpl. by rewrite app_nil_r. }
  inversion_clear Hvs as [|?? [Hv Hd] Hvs']. destruct (value_head v Hv) as (t & Et & Hb & Hdict).
  assert (Hs : sig_char c = 0).
  { unfold sig_char. destruct (signature c) as [s|]; [|done]. simpl in Hi.
    unfold char_at. by rewrite Hi, drop_all. }
  assert (Hacc : accepts_c c (vtype v)).
  { unfold accepts_c. rewrite Hs, Z.eqb_refl. repeat split; try done. intros E. apply Hdict in E. congruence. }
  assert (enclosing (consume_value c v) = 0 /\
    default [] (signature (consume_value c v)) = default [] (signature c) ++ vtype v /\
    index (consume_value c v) = (index c + length (vtype v))%nat) as (He' & Hs' & Hi').
  { unfold consume_value, consume_c. rewrite Hs, He, Z.eqb_refl.
    by destruct (is_container_value v). }
  cbn [accepts_all fold_left].
  destruct (IH (consume_value c v) Hvs' He') as (H1 & H2 & H3 & H4).
  { by rewrite Hi', Hs', length_app, Hi. }
  split; [done|]. split; [|done]. rewrite H2, Hs'. unfold vtypes. simpl. by rewrite app_assoc.
Qed.

(** The message after the values were appended. *)
Definition appended (vs : list value) (m : message) : message :=
  upd_last_container (consume_all vs) (grow (marshal_seq false 0 vs) m).

Lemma append_values_fresh vs m :
  fresh m -> top_ok vs -> zlen (marshal_seq false 0 vs) <= UINT32_MAX ->
  append_values vs m = (Ok tt, appended vs m).
Proof.
  intros F Hvs Hl. assert (Hb : body m = []) by (unfold body; by rewrite (f_parts m F)).
  unfold append_values. rewrite append_seq_spec; rewrite ?Hb; try done.
  - apply List.Forall_forall. intros v _. apply append_value_appends.
  - by apply top_ok_values.
  - by apply fresh_ready.
  - unfold message_get_last_container. rewrite (f_containers m F), (f_root m F). simpl.
    by apply accepts_all_top.
Qed.

Lemma appended_facts vs m :
  fresh m -> top_ok vs ->
  let m' := appended vs m in
  body m' = marshal_seq false 0 vs /\ flat m' /\ body_size m' = zlen (body m') /\
  containers m' = [] /\ root_container m' = consume_all vs (root_container m) /\
  signature (root_container m') = (if bool_decide (vs = []) then None else Some (vtypes vs)) /\
  hdr m' = hdr m /\ fields m' = fields m /\ fds m' = fds m /\ sealed m' = false /\
  poisoned m' = false /\ rindex m' = 0 /\
  enforced_reply_signature m' = enforced_reply_signature m.
Proof.
  intros F Hvs m'. assert (R := fresh_ready m F).
  assert (Hb : body m = []) by (unfold body; by rewrite (f_parts m F)).
  assert (Hc : containers m = []) by apply F.
  assert (Hbody : body m' = marshal_seq false 0 vs).
  { unfold m', appended. rewrite body_upd, body_grow, Hb. unfold words. by rewrite Hc. }
  assert (R' : ready m').
  { apply ready_upd; [apply array_size_consume_all|]. apply ready_grow; [done|].
    apply marshal_seq_bytes. by apply top_ok_values. }
  assert (Em : m' = set_root_container (consume_all vs (root_container m)) (grow (marshal_seq false 0 vs) m)).
  { unfold m', appended, upd_last_container. unfold grow. cbn [containers set_body set_body_size set_parts].
    by rewrite Hc. }
  split; [done|]. split; [apply R'|]. split; [by apply body_size_ready|].
  rewrite Em. split; [exact Hc|]. split; [done|]. split.
  - simpl. rewrite (f_root m F). destruct vs as [|v vs]; [done|].
    rewrite bool_decide_eq_false_2 by done.
    destruct (accepts_all_top (v :: vs) (empty_container 0 false) Hvs) as (_ & H2 & _); [done|done|].
    inversion_clear Hvs as [|?? [Hv _] _]. destruct (value_head v Hv) as (t & Et & _).
    destruct (signature (consume_all _ _)); [f_equal; exact H2|].
    unfold vtypes in H2. simpl in H2. rewrite Et in H2. done.
  - repeat split; try apply F.
Qed.

(** ** Sealing *)
Lemma splice_tail a b c : length b = length c -> splice (length a) c (a ++ b) = a ++ c.
Proof. intros. by apply splice_end. Qed.

(** A header field of the D-Bus 1 format: aligned to 8 from the message's start. *)
Lemma append_field_run b m :
  poisoned m = false -> fields_size m + zlen b < 2 ^ 31 -> b <> [] ->
  append_field_bytes b false m = (Ok tt, set_fields (fields m ++ zpad (fields_size m) 8 ++ b) m).
Proof.
  intros Hp Hl Hb. pose proof (zlen_nonneg (fields m)). pose proof (zlen_nonneg b).
  assert (0 < zlen b) by (destruct b; [done|unfold zlen; simpl; lia]).
  unfold fields_size in *. assert (H8 : is_align 8) by (unfold is_align; lia).
  assert (Ha : ALIGN_TO (BUS_HEADER_SIZE + zlen (fields m)) 8 = 16 + align_up (zlen (fields m)) 8).
  { rewrite ALIGN_TO_up by (done || unfold BUS_HEADER_SIZE; lia).
    unfold align_up, BUS_HEADER_SIZE.
    replace (16 + zlen (fields m) + 8 - 1) with (2 * 8 + (zlen (fields m) + 8 - 1)) by lia.
    rewrite Z.div_add_l by lia. lia. }
  pose proof (pad_bound (zlen (fields m)) 8 H8 ltac:(done)).
  pose proof (align_up_pad (zlen (fields m)) 8).
  unfold append_field_bytes.
  assert (Hext : message_extend_fields 8 (zlen b) false m =
    (Ok (length (fields m ++ zpad (zlen (fields m)) 8)),
     set_fields ((fields m ++ zpad (zlen (fields m)) 8) ++ room (zlen b)) m)).
  { unfold message_extend_fields, fields_size. rewrite Hp, Ha, (wrap_small 64) by lia.
    unfold UINT32_MAX, BUS_HEADER_SIZE.
    rewrite (proj2 (Z.ltb_ge _ _)), (proj2 (Z.ltb_ge _ _)), (proj2 (Z.eqb_neq _ _)) by lia.
    cbn [orb]. f_equal; [f_equal|f_equal].
    - rewrite length_app. pose proof (zpad_length (zlen (fields m)) 8 H8 ltac:(done)) as E.
      unfold zlen in *. lia.
    - rewrite <- app_assoc. do 2 f_equal. unfold zpad. do 2 f_equal. lia. }
  erewrite stm_bind_run by exact Hext. unfold smod, fields_write. f_equal. cbn [fields set_fields].
  rewrite splice_tail by (unfold room; rewrite length_replicate; unfold zlen; lia).
  rewrite <- app_assoc. by destruct m.
Qed.

Definition signature_field (s : cstr) : list Z :=
  [BUS_MESSAGE_HEADER_SIGNATURE; 1; SD_BUS_TYPE_SIGNATURE; 0; zlen s] ++ s ++ [0].

Definition sealed_fields (s : cstr) (m : message) : list Z :=
  if bool_decide (s = []) then fields m
  else fields m ++ zpad (fields_size m) 8 ++ signature_field s.

(** The message [sd_bus_message_seal] makes of a D-Bus 1 message without descriptors. *)
Definition sealed_message (cookie timeout : Z) (m : message) : message :=
  let fs := sealed_fields (default [] (signature (root_container m))) m in
  set_sealed true
    (set_root_container
      (set_c_item_size (default 0 (head (offsets (root_container m))))
        (set_c_offset_index 0 (set_c_index 0 (set_c_end_ (body_size m) (root_container m)))))
      (set_timeout (if has_flag BUS_MESSAGE_NO_REPLY_EXPECTED m then 0 else timeout)
        (set_hdr (set_h_serial (wrap32 cookie)
            (set_h_fields_size (wrap32 (zlen fs)) (set_h_body_size (wrap32 (body_size m)) (hdr m))))
          (set_user_body_size (body_size m) (set_fields fs m))))).

Definition reply_signature_ok (m : message) : bool :=
  negb ((h_type (hdr m) =? SD_BUS_MESSAGE_METHOD_RETURN) &&
    match enforced_reply_signature m with
    | None => false
    | Some e => negb (streq (default [] (signature (root_container m))) e)
    end).

Lemma seal_run cookie timeout m :
  sealed m = false -> containers m = [] -> poisoned m = false ->
  BUS_MESSAGE_IS_GVARIANT m = false -> fds m = [] -> reply_signature_ok m = true ->
  cookie <= 4294967295 -> fields_size m < 2 ^ 30 ->
  zlen (default [] (signature (root_container m))) <= 255 ->
  sd_bus_message_seal cookie timeout m = (Ok tt, sealed_message cookie timeout m).
Proof.
  intros Hs Hc Hp Hv Hfd Hsig Hck Hfs Hlen.
  unfold sd_bus_message_seal. erewrite stm_bind_run by reflexivity.
  rewrite Hs, Hc, Hp, Hv, Hfd. cbn [negb]. do 3 erewrite stm_bind_run by reflexivity.
  rewrite (proj2 (Z.ltb_ge 4294967295 cookie)) by lia. erewrite stm_bind_run by reflexivity.
  fold (reply_signature_ok m). rewrite Hsig. erewrite stm_bind_run by reflexivity.
  unfold bus_message_close_struct. erewrite stm_bind_run.
  2: { erewrite stm_bind_run by reflexivity. rewrite Hv. reflexivity. }
  unfold sealed_message. set (s := default [] (signature (root_container m))) in *.
  erewrite (stm_bind_run _ _ _ tt (set_fields (sealed_fields s m) m)).
  2: { unfold sealed_fields. case_bool_decide as E; cbn [negb andb].
       - unfold mret, stm_ret. f_equal. by destruct m.
       - unfold message_append_field_signature. erewrite stm_bind_run by reflexivity.
         change (255 <? BUS_MESSAGE_HEADER_SIGNATURE) with false.
         rewrite (proj2 (Z.ltb_ge 255 (zlen s))) by lia. do 2 erewrite stm_bind_run by reflexivity.
         rewrite Hv. apply append_field_run; [done| |done].
         unfold signature_field; rewrite !zlen_app. change (zlen [0]) with 1. change (zlen [_; _; _; _; _]) with 5. lia. }
  erewrite stm_bind_run by reflexivity.
  erewrite stm_bind_run.
  2: { unfold bus_message_close_header. do 2 erewrite stm_bind_run by reflexivity.
       change (BUS_MESSAGE_IS_GVARIANT _) with (BUS_MESSAGE_IS_GVARIANT m). rewrite Hv. reflexivity. }
  do 3 erewrite stm_bind_run by reflexivity. unfold smod. f_equal.
  destruct m as [h]; destruct h. unfold BUS_MESSAGE_IS_GVARIANT in *. simpl in *. rewrite Hv. done.
Qed.

Lemma sealed_message_facts cookie timeout m :
  let m' := sealed_message cookie timeout m in
  body m' = body m /\ (flat m -> flat m') /\ sealed m' = true /\
  BUS_MESSAGE_IS_GVARIANT m' = BUS_MESSAGE_IS_GVARIANT m /\
  BUS_MESSAGE_NEED_BSWAP m' = BUS_MESSAGE_NEED_BSWAP m /\
  user_body_size m' = body_size m /\ rindex m' = rindex m /\ containers m' = containers m /\
  signature (root_container m') = signature (root_container m) /\
  enclosing (root_container m') = enclosing (root_container m) /\
  index (root_container m') = 0%nat.
Proof. done. Qed.

(** Reading marshalled values back; the theorem below says it in full. *)
Lemma read_values_run vs m :
  top_ok vs -> readable m -> containers m = [] -> rindex m = 0 ->
  enclosing (root_container m) = 0 -> index (root_container m) = 0%nat ->
  default [] (signature (root_container m)) = vtypes vs ->
  body m = marshal_seq (BUS_MESSAGE_NEED_BSWAP m) 0 vs ->
  Forall (fun v => vdepth v <= BUS_CONTAINER_DEPTH)%nat vs ->
  exists m', read_values (vsizes vs) m = (Ok vs, m') /\
    sd_bus_message_at_end m' true = Ok true /\ rindex m' = zlen (body m) /\ body m' = body m.
Proof.
  intros Hvs R Hc Hr He Hi Hs Hb Hd.
  assert (Hlast : message_get_last_container m = root_container m)
    by (unfold message_get_last_container; by rewrite Hc).
  assert (Hne : enclosing (root_container m) <> SD_BUS_TYPE_ARRAY) by (by rewrite He).
  assert (exists c, takes_all (root_container m) vs /\
            sig_char (consume_all vs (root_container m)) = 0 /\ c = 0) as (_ & Hta & Hsc & _).
  { destruct (signature (root_container m)) as [s|] eqn:Es.
    - destruct (takes_all_tuple s vs (root_container m) []) as (H1 & _ & H3 & H4); try done.
      { rewrite Hi, app_nil_r. done. }
      exists 0. split; [done|]. split; [|done]. unfold sig_char, char_at. by rewrite H3, H4.
    - simpl in Hs. destruct vs as [|v vs].
      + exists 0. split; [done|]. split; [|done]. simpl. unfold sig_char. by rewrite Es.
      + inversion_clear Hvs as [|?? [Hv _] _]. destruct (value_head v Hv) as (t & Et & _).
        unfold vtypes in Hs. simpl in Hs. by rewrite Et in Hs. }
  eexists. split; [|split; [|split]].
  - apply (read_seq_spec vs) with (pre := []) (post := []); try done.
    + apply List.Forall_forall. intros v _. apply read_value_reads.
    + by apply top_ok_values.
    + simpl. by rewrite app_nil_r.
    + by rewrite Hlast.
    + rewrite Hlast. right. done.
    + by rewrite Hc.
  - unfold sd_bus_message_at_end. rewrite (rd_sealed _ (readable_moved _ _ _ R)).
    assert (containers (moved (zlen [] + zlen (marshal_seq (BUS_MESSAGE_NEED_BSWAP m) (zlen []) vs))
              (consume_all vs) m) = []) as ->.
    { unfold moved. cbn [containers set_rindex]. by rewrite upd_last_containers, Hc. }
    cbn [require mbind res_bind andb negb]. rewrite bool_decide_eq_true_2 by done. cbn [negb].
    unfold message_end_of_signature. rewrite get_last_moved, Hlast, Hsc. done.
  - rewrite rindex_moved, Hb. done.
  - by rewrite body_moved.
Qed.

(** ** The theorems *)

(** C3. Appending values through the public interface refines the reference
    marshalling: for a fresh D-Bus 1 message and well-formed values whose bytes
    stay within 32 bits, every call succeeds, the body is exactly the
    marshalling of the values one after another, the length words of all
    arrays included, and the message's signature is that of the values. *)
Theorem append_values_marshal vs m :
  fresh m -> top_ok vs -> zlen (marshal_seq false 0 vs) <= UINT32_MAX ->
  exists m', append_values vs m = (Ok tt, m') /\
    body m' = marshal_seq false 0 vs /\ body_size m' = zlen (body m') /\
    default [] (signature (root_container m')) = vtypes vs /\
    containers m' = [] /\ poisoned m' = false /\ hdr m' = hdr m /\ fields m' = fields m.
Proof.
  intros F Hvs Hl. exists (appended vs m). split; [by apply append_values_fresh|].
  destruct (appended_facts vs m F Hvs) as
    (Hb & _ & Hbs & Hc & _ & Hsig & Hh & Hf & _ & _ & Hp & _).
  repeat (split; [done|]). split; [|done]. rewrite Hsig.
  by case_bool_decide; subst.
Qed.

(** Appending well-formed values to a fresh message and sealing it succeed. *)
Lemma append_seal_run vs m cookie timeout :
  fresh m -> top_ok vs -> zlen (marshal_seq false 0 vs) <= BUS_ARRAY_MAX_SIZE ->
  zlen (vtypes vs) <= 255 -> cookie <= 4294967295 -> fields_size m < 2 ^ 30 ->
  (h_type (hdr m) = SD_BUS_MESSAGE_METHOD_RETURN ->
     enforced_reply_signature m = None \/ enforced_reply_signature m = Some (vtypes vs)) ->
  append_values vs m = (Ok tt, appended vs m) /\
  sd_bus_message_seal cookie timeout (appended vs m)
    = (Ok tt, sealed_message cookie timeout (appended vs m)) /\
  default [] (signature (root_container (appended vs m))) = vtypes vs.
Proof.
  intros F Hvs Hl Hsl Hck Hfs Henf.
  destruct (appended_facts vs m F Hvs) as
    (Hb & _ & Hbs & Hc & Hroot & Hsig & Hh & Hf & Hfd & Hse & Hp & Hri & Hers).
  assert (Hsig' : default [] (signature (root_container (appended vs m))) = vtypes vs).
  { rewrite Hsig. by case_bool_decide; subst. }
  split; [|split; [|done]].
  - apply append_values_fresh; [done|done|]. unfold BUS_ARRAY_MAX_SIZE, UINT32_MAX in *. lia.
  - apply seal_run; try done.
    + unfold BUS_MESSAGE_IS_GVARIANT. rewrite Hh. apply F.
    + by rewrite Hfd, (f_fds m F).
    + unfold reply_signature_ok. rewrite Hh, Hers, Hsig'.
      destruct (Z.eqb_spec (h_type (hdr m)) SD_BUS_MESSAGE_METHOD_RETURN) as [E|]; [|done].
      destruct (Henf E) as [-> | ->]; [done|]. by rewrite streq_refl.
    + unfold fields_size. rewrite Hf. done.
    + by rewrite Hsig'.
Qed.

(** C4. Reading is the inverse of the reference marshalling, in either byte
    order: when the body of a sealed D-Bus 1 message holds the marshalling of
    well-formed values and its signature is theirs, the generic reader
    ([sd_bus_message_peek_type], [read_basic], [enter_container], [at_end],
    [exit_container]) returns exactly these values, and the message is at its
    end. The nesting limit and the 64 MiB array limit are the code's. *)
Theorem read_values_unmarshal vs m :
  top_ok vs -> readable m -> containers m = [] -> rindex m = 0 ->
  enclosing (root_container m) = 0 -> index (root_container m) = 0%nat ->
  default [] (signature (root_container m)) = vtypes vs ->
  body m = marshal_seq (BUS_MESSAGE_NEED_BSWAP m) 0 vs ->
  Forall (fun v => vdepth v <= BUS_CONTAINER_DEPTH)%nat vs ->
  exists m', read_values (vsizes vs) m = (Ok vs, m') /\
    sd_bus_message_at_end m' true = Ok true /\ rindex m' = zlen (body m) /\ body m' = body m.
Proof. apply read_values_run. Qed.

(** What is written is read back: well-formed values appended to a fresh
    message, which is then sealed, come out of the sealed message unchanged,
    and nothing else does. *)
Theorem message_roundtrip vs m cookie timeout :
  fresh m -> top_ok vs -> zlen (marshal_seq false 0 vs) <= BUS_ARRAY_MAX_SIZE ->
  zlen (vtypes vs) <= 255 -> Forall (fun v => vdepth v <= BUS_CONTAINER_DEPTH)%nat vs ->
  cookie <= 4294967295 -> fields_size m < 2 ^ 30 ->
  (h_type (hdr m) = SD_BUS_MESSAGE_METHOD_RETURN ->
     enforced_reply_signature m = None \/ enforced_reply_signature m = Some (vtypes vs)) ->
  exists m1 m2 m3,
    append_values vs m = (Ok tt, m1) /\
    sd_bus_message_seal cookie timeout m1 = (Ok tt, m2) /\
    read_values (vsizes vs) m2 = (Ok vs, m3) /\
    sd_bus_message_at_end m3 true = Ok true.
Proof.
  intros F Hvs Hl Hsl Hd Hck Hfs Henf.
  destruct (appended_facts vs m F Hvs) as
    (Hb & Hflat & Hbs & Hc & Hroot & Hsig & Hh & Hf & Hfd & Hse & Hp & Hri & Hers).
  assert (Hv : BUS_MESSAGE_IS_GVARIANT (appended vs m) = false).
  { unfold BUS_MESSAGE_IS_GVARIANT. rewrite Hh. apply F. }
  assert (Hsig' : default [] (signature (root_container (appended vs m))) = vtypes vs).
  { rewrite Hsig. by case_bool_decide; subst. }
  set (m1 := appended vs m) in *. set (m2 := sealed_message cookie timeout m1).
  destruct (sealed_message_facts cookie timeout m1) as
    (G1 & G2 & G3 & G4 & G5 & G6 & G7 & G8 & G9 & G10 & G11). fold m2 in G1, G2, G3, G4, G5, G6, G7, G8, G9, G10, G11.
  assert (Hbe : BUS_MESSAGE_NEED_BSWAP m2 = false).
  { rewrite G5. unfold BUS_MESSAGE_NEED_BSWAP. rewrite Hh, (f_endian m F). done. }
  destruct (read_values_run vs m2) as (m3 & Hread & Hend & _); try done.
  - constructor; [by apply flat_one_part, G2|done|by rewrite G4|by rewrite G6, G1|by rewrite G1, Hb].
  - rewrite G10, Hroot. rewrite (f_root m F).
    by destruct (accepts_all_top vs (empty_container 0 false) Hvs) as (_ & _ & ? & _).
  - by rewrite G1, Hbe.
  - exists m1, m2, m3. by destruct (append_seal_run vs m cookie timeout) as (E1 & E2 & _).
Qed.
