(* ===== verification/MsgParse.v ===== *)
(** * Messages off the wire ([src/libsystemd/sd-bus/bus-message.c])

    [bus_message_from_malloc]: the checks on the fixed header, the loop over the
    header fields ([bus_message_parse_fields]) and the skipping of the fields
    it does not know. *)
From S2P Require Import Prelude BusType Signature Names Utf8 Gvariant MsgState MsgWrite MsgFields MsgRead.

(** ** Peeking at header fields *)
Definition message_peek_fields (m : message) (ri align nbytes : Z) : res (Z * list Z) :=
  buffer_peek (fields m) ri align nbytes.

(** [message_peek_field_uint32], [message_peek_field_uint64] *)
Definition message_peek_field_uint32 (m : message) (ri item_size : Z) : res (Z * Z) :=
  _ ← require (negb (BUS_MESSAGE_IS_GVARIANT m && negb (item_size =? 4))) EBADMSG;
  '(ri, q) ← message_peek_fields m ri 4 4;
  Ok (ri, BUS_MESSAGE_BSWAP m 4 (le_val q)).

Definition message_peek_field_uint64 (m : message) (ri item_size : Z) : res (Z * Z) :=
  _ ← require (negb (BUS_MESSAGE_IS_GVARIANT m && negb (item_size =? 8))) EBADMSG;
  '(ri, q) ← message_peek_fields m ri 8 8;
  Ok (ri, BUS_MESSAGE_BSWAP m 8 (le_val q)).

(** [message_peek_field_string]; [l] is a [uint32_t]. *)
Definition message_peek_field_string (m : message) (validate : option (cstr -> bool))
    (ri item_size : Z) : res (Z * cstr) :=
  '(ri, l, q) ←
    (if BUS_MESSAGE_IS_GVARIANT m then
       _ ← require (negb (item_size <=? 0)) EBADMSG;
       '(ri, q) ← message_peek_fields m ri 1 item_size;
       Ok (ri, wrap32 (item_size - 1), q)
     else
       '(ri, l) ← message_peek_field_uint32 m ri 4;
       _ ← require (negb (l =? UINT32_MAX)) EBADMSG;
       '(ri, q) ← message_peek_fields m ri 1 (l + 1);
       Ok (ri, l, q));
  let l := Z.to_nat l in
  _ ← require (match validate with
               | Some f => validate_nul q l && f (take l q)
               | None => validate_string q l
               end) EBADMSG;
  Ok (ri, take l q).

(** [message_peek_field_signature] *)
Definition message_peek_field_signature (m : message) (ri item_size : Z) : res (Z * cstr) :=
  '(ri, l, q) ←
    (if BUS_MESSAGE_IS_GVARIANT m then
       _ ← require (negb (item_size <=? 0)) EBADMSG;
       '(ri, q) ← message_peek_fields m ri 1 item_size;
       Ok (ri, item_size - 1, q)
     else
       '(ri, q) ← message_peek_fields m ri 1 1;
       let l := le_val q in
       _ ← require (negb (l =? 255)) EBADMSG;
       '(ri, q) ← message_peek_fields m ri 1 (l + 1);
       Ok (ri, l, q));
  _ ← require (validate_signature q (Z.to_nat l)) EBADMSG;
  Ok (ri, take (Z.to_nat l) q).

(** ** Unknown fields *)

(** [message_skip_fields]: one iteration per unit of [fuel], for the loop and
    for the calls to itself; [original_index] is the loop's first [ri]. The
    results are [*ri] and [*signature]. [UINT32_MAX] is [(uint32_t) -1]. *)
Fixpoint skip_loop (fuel : nat) (m : message) (original_index ri array_size : Z)
    (signature : cstr) : res (Z * cstr) :=
  match fuel with
  | O => Err EASSERT
  | S fuel =>
      if negb (array_size =? UINT32_MAX) && (array_size <=? ri - original_index)
      then Ok (ri, signature)
      else
        let t := deref signature in
        if t =? 0 then Ok (ri, signature)
        else if t =? SD_BUS_TYPE_STRING then
          '(ri, _) ← message_peek_field_string m None ri 0;
          skip_loop fuel m original_index ri array_size (drop 1 signature)
        else if t =? SD_BUS_TYPE_OBJECT_PATH then
          '(ri, _) ← message_peek_field_string m (Some object_path_is_valid) ri 0;
          skip_loop fuel m original_index ri array_size (drop 1 signature)
        else if t =? SD_BUS_TYPE_SIGNATURE then
          '(ri, _) ← message_peek_field_signature m ri 0;
          skip_loop fuel m original_index ri array_size (drop 1 signature)
        else if bus_type_is_basic t then
          align ← bus_type_get_alignment t;
          k ← bus_type_get_size t;
          '(ri, _) ← message_peek_fields m ri align k;
          skip_loop fuel m original_index ri array_size (drop 1 signature)
        else if t =? SD_BUS_TYPE_ARRAY then
          l ← signature_element_length (drop 1 signature);
          let sig := take l (drop 1 signature) in
          alignment ← bus_type_get_alignment (deref sig);
          '(ri, nas) ← message_peek_field_uint32 m ri 0;
          if BUS_ARRAY_MAX_SIZE <? nas then Err EBADMSG
          else
            '(ri, _) ← message_peek_fields m ri alignment 0;
            '(ri, _) ← skip_loop fuel m ri ri nas sig;
            skip_loop fuel m original_index ri array_size (drop (1 + l) signature)
        else if t =? SD_BUS_TYPE_VARIANT then
          '(ri, s) ← message_peek_field_signature m ri 0;
          '(ri, _) ← skip_loop fuel m ri ri UINT32_MAX s;
          skip_loop fuel m original_index ri array_size (drop 1 signature)
        else if in_set t [SD_BUS_TYPE_STRUCT; SD_BUS_TYPE_DICT_ENTRY] then
          l ← signature_element_length signature;
          _ ← require (2 <=? l)%nat EASSERT;
          '(ri, _) ← skip_loop fuel m ri ri UINT32_MAX (take l (drop 1 signature));
          skip_loop fuel m original_index ri array_size (drop l signature)
        else Err EBADMSG
  end.

Definition skip_fuel (m : message) : nat := length (fields m) + 2.

Definition message_skip_fields (m : message) (ri array_size : Z) (signature : cstr)
    : res (Z * cstr) := skip_loop (skip_fuel m) m ri ri array_size signature.

(** ** The fixed header *)

(** The bytes of [struct bus_header] as the fields of its two versions. *)
Definition decode_header (p : list Z) : bus_header :=
  let v := char_at p 3 in
  let u32 k := le_val (take 4 (drop k p)) in
  if v =? 2 then
    Header (char_at p 0) (char_at p 1) (char_at p 2) v 0 0 0 (le_val (take 8 (drop 8 p)))
  else Header (char_at p 0) (char_at p 1) (char_at p 2) v (u32 4%nat) (u32 8%nat) (u32 12%nat) 0.

(** [bus_message_from_header]: [header] and [footer] are the accessible bytes.
    The SELinux label is not modelled. [fields] are the [fields_size] bytes
    after the fixed header. *)
Definition bus_message_from_header (header footer : list Z) (message_size : Z) (fds : list Z)
    : res message :=
  _ ← require (BUS_HEADER_SIZE <=? zlen header) EBADMSG;
  _ ← require (zlen header <=? message_size) EBADMSG;
  _ ← require (zlen footer <=? message_size) EBADMSG;
  let h := decode_header header in
  _ ← require (in_set (h_version h) [1; 2]) EBADMSG;
  _ ← require (negb (h_type h =? 0)) EBADMSG;
  _ ← require (in_set (h_endian h) [BUS_LITTLE_ENDIAN; BUS_BIG_ENDIAN]) EBADMSG;
  let mk (fields_size bsize : Z) : message :=
    {| hdr := h; sealed := true; poisoned := false; dont_send := false; allow_fds := false;
       fields := take (Z.to_nat fields_size) (drop (Z.to_nat BUS_HEADER_SIZE) header);
       header_offsets := []; parts := []; body_size := bsize; user_body_size := 0;
       rindex := 0; fds := fds; root_container := empty_container 0 false; containers := [];
       path := None; interface := None; member := None; destination := None; sender := None;
       error_name := None; reply_cookie := 0; enforced_reply_signature := None; timeout := 0;
       footer := footer |} in
  if h_version h =? 2 then
    _ ← require (negb (h_cookie h =? 0)) EBADMSG;
    let ws := bus_gvariant_determine_word_size message_size 0 in
    _ ← require (ws <=? zlen footer) EBADMSG;
    fs ← bus_gvariant_read_word_le (drop (Z.to_nat (zlen footer - ws)) footer) ws;
    _ ← require (ALIGN8 fs <=? message_size - ws) EBADMSG;
    _ ← require (BUS_HEADER_SIZE <=? fs) EBADMSG;
    let fs := fs - BUS_HEADER_SIZE in
    Ok (mk fs (wrap64 (message_size - (BUS_HEADER_SIZE + ALIGN8 fs))))
  else
    _ ← require (negb (h_serial h =? 0)) EBADMSG;
    let swap := BUS_MESSAGE_BSWAP (mk 0 0) 4 in
    let fs := swap (h_fields_size h) in
    let bsize := swap (h_body_size h) in
    _ ← require (BUS_HEADER_SIZE + ALIGN8 fs + bsize =? message_size) EBADMSG;
    Ok (mk fs bsize).

(** ** The header fields *)

(** One string field: once only, of the expected signature, and valid. *)
Definition parse_string_field (m : message) (have : option cstr) (expected signature : cstr)
    (valid : cstr -> bool) (set : option cstr -> message -> message) (ri item_size : Z)
    : res (Z * message) :=
  _ ← require (bool_decide (have = None)) EBADMSG;
  _ ← require (streq signature expected) EBADMSG;
  '(ri, s) ← message_peek_field_string m (Some valid) ri item_size;
  Ok (ri, set (Some s) m).

(** The [switch] on the field's code; [unix_fds] is [None] until it is set. *)
Definition parse_field (m : message) (unix_fds : option Z) (field_type : Z) (sig : cstr)
    (ri item_size : Z) : res (Z * message * option Z) :=
  let str have expected valid set :=
    '(ri, m) ← parse_string_field m have expected sig valid set ri item_size;
    Ok (ri, m, unix_fds) in
  if field_type =? 0 then Err EBADMSG
  else if field_type =? BUS_MESSAGE_HEADER_PATH then
    str (path m) (bs "o") object_path_is_valid set_path
  else if field_type =? BUS_MESSAGE_HEADER_INTERFACE then
    str (interface m) (bs "s") interface_name_is_valid set_interface
  else if field_type =? BUS_MESSAGE_HEADER_MEMBER then
    str (member m) (bs "s") member_name_is_valid set_member
  else if field_type =? BUS_MESSAGE_HEADER_ERROR_NAME then
    str (error_name m) (bs "s") error_name_is_valid set_error_name
  else if field_type =? BUS_MESSAGE_HEADER_DESTINATION then
    str (destination m) (bs "s") service_name_is_valid set_destination
  else if field_type =? BUS_MESSAGE_HEADER_SENDER then
    str (sender m) (bs "s") service_name_is_valid set_sender
  else if field_type =? BUS_MESSAGE_HEADER_SIGNATURE then
    _ ← require (negb (BUS_MESSAGE_IS_GVARIANT m)) EBADMSG;
    _ ← require (bool_decide (signature (root_container m) = None)) EBADMSG;
    _ ← require (streq sig (bs "g")) EBADMSG;
    '(ri, s) ← message_peek_field_signature m ri item_size;
    Ok (ri, set_root_container (set_c_signature (Some s) (root_container m)) m, unix_fds)
  else if field_type =? BUS_MESSAGE_HEADER_REPLY_SERIAL then
    _ ← require (reply_cookie m =? 0) EBADMSG;
    '(ri, c) ←
      (if BUS_MESSAGE_IS_GVARIANT m then
         _ ← require (streq sig (bs "t")) EBADMSG;
         message_peek_field_uint64 m ri item_size
       else
         _ ← require (streq sig (bs "u")) EBADMSG;
         message_peek_field_uint32 m ri item_size);
    _ ← require (negb (c =? 0)) EBADMSG;
    Ok (ri, set_reply_cookie c m, unix_fds)
  else if field_type =? BUS_MESSAGE_HEADER_UNIX_FDS then
    _ ← require (bool_decide (unix_fds = None)) EBADMSG;
    _ ← require (streq sig (bs "u")) EBADMSG;
    '(ri, n) ← match message_peek_field_uint32 m ri item_size with
               | Ok x => Ok x
               | Err _ => Err EBADMSG
               end;
    Ok (ri, m, Some n)
  else if BUS_MESSAGE_IS_GVARIANT m then Ok (ri, m, unix_fds)
  else
    '(ri, _) ← message_skip_fields m ri UINT32_MAX sig;
    Ok (ri, m, unix_fds).

(** [memrchr(q, 0, n)]: the bytes before the last NUL, and those after it. *)
Fixpoint memrchr0 (q : list Z) : option (list Z * list Z) :=
  match q with
  | [] => None
  | c :: q =>
      match memrchr0 q with
      | Some (a, b) => Some (c :: a, b)
      | None => if c =? 0 then Some ([], q) else None
      end
  end.

(** A C string within bytes: up to the first NUL. *)
Fixpoint strndup (q : list Z) : cstr :=
  match q with
  | [] => []
  | c :: q => if c =? 0 then [] else c :: strndup q
  end.

(** The code, signature and [item_size] of field [i]. *)
Definition next_field (m : message) (ri sz : Z) (offsets : list Z) (i : nat)
    : res (Z * Z * cstr * Z) :=
  if BUS_MESSAGE_IS_GVARIANT m then
    ri ← (if bool_decide (i = 0%nat) then Ok 0
          else x ← bus_gvariant_read_word_le (drop ((i - 1) * Z.to_nat sz) offsets) sz;
               Ok (ALIGN_TO x 8));
    '(ri, q) ← message_peek_fields m ri 8 8;
    let field_type := BUS_MESSAGE_BSWAP m 8 (le_val q) in
    e ← bus_gvariant_read_word_le (drop (i * Z.to_nat sz) offsets) sz;
    if e <? ri then Err EBADMSG
    else
      let ri := ALIGN_TO ri 8 in
      let item_size := wrap64 (e - ri) in
      '(_, q) ← message_peek_fields m ri 1 item_size;
      match memrchr0 q with
      | None => Err EBADMSG
      | Some (a, b) => Ok (field_type, ri, strndup b, zlen a)
      end
  else
    '(ri, q) ← message_peek_fields m ri 8 1;
    '(ri, sig) ← message_peek_field_signature m ri 0;
    Ok (le_val q, ri, sig, SIZE_MAX).

Fixpoint fields_loop (fuel : nat) (m : message) (unix_fds : option Z) (ri sz : Z)
    (offsets : list Z) (n_offsets i : nat) : res (message * option Z) :=
  match fuel with
  | O => Err EASSERT
  | S fuel =>
      if negb (ri <? fields_size m) ||
         (BUS_MESSAGE_IS_GVARIANT m && bool_decide (n_offsets <= i)%nat)
      then Ok (m, unix_fds)
      else
        '(field_type, ri, sig, item_size) ← next_field m ri sz offsets i;
        '(ri, m, unix_fds) ← parse_field m unix_fds field_type sig ri item_size;
        fields_loop fuel m unix_fds ri sz offsets n_offsets (S i)
  end.

(** What the message's type demands of the fields. *)
Definition fields_complete (m : message) : bool :=
  let set {A} (o : option A) := match o with Some _ => true | None => false end in
  let t := h_type (hdr m) in
  if t =? SD_BUS_MESSAGE_SIGNAL then
    set (path m) && set (interface m) && set (member m) && (reply_cookie m =? 0)
  else if t =? SD_BUS_MESSAGE_METHOD_CALL then
    set (path m) && set (member m) && (reply_cookie m =? 0)
  else if t =? SD_BUS_MESSAGE_METHOD_RETURN then negb (reply_cookie m =? 0)
  else if t =? SD_BUS_MESSAGE_METHOD_ERROR then
    negb (reply_cookie m =? 0) && set (error_name m)
  else true.

Definition claims_local (m : message) : bool :=
  bool_decide (path m = Some (bs "/org/freedesktop/DBus/Local")) ||
  bool_decide (interface m = Some (bs "org.freedesktop.DBus.Local")) ||
  bool_decide (sender m = Some (bs "org.freedesktop.DBus.Local")).

(** The GVariant preamble: the body's signature, which ends the footer, between
    its brackets, and what it and the offsets after it take off the body; then
    the offset table of the fields. *)
Definition gvariant_body_signature (m : message) (sz : Z) : res (cstr * Z) :=
  let f := footer m in
  match memrchr0 (take (Z.to_nat (zlen f - sz)) f) with
  | None => Err EBADMSG
  | Some (a, s) =>
      let l := zlen s in
      if (l <? 2) || negb (deref s =? SD_BUS_TYPE_STRUCT_BEGIN) ||
         negb (char_at s (length s - 1) =? SD_BUS_TYPE_STRUCT_END)
      then Err EBADMSG
      else Ok (take (length s - 2) (tail s), wrap64 (body_size m - (zlen f - zlen a)))
  end.

Definition gvariant_field_offsets (m : message) : res (Z * list Z * nat) :=
  let sz := bus_gvariant_determine_word_size (fields_size m) 0 in
  if sz <=? 0 then Ok (sz, [], 0%nat)
  else
    '(_, q) ← message_peek_fields m (wrap64 (fields_size m - sz)) 1 sz;
    framing ← bus_gvariant_read_word_le q sz;
    if wrap64 (fields_size m - sz) <=? framing then Err EBADMSG
    else if negb (wrap64 (fields_size m - framing) mod sz =? 0) then Err EBADMSG
    else
      let k := fields_size m - framing in
      '(_, offsets) ← message_peek_fields m framing 1 k;
      Ok (sz, offsets, Z.to_nat (k / sz)).

(** [bus_message_parse_fields]; reading the error message only moves the read
    position, its text is not kept in the model. *)
Definition bus_message_parse_fields (m : message) : res message :=
  '(m, sz, offsets, n_offsets) ←
    (if BUS_MESSAGE_IS_GVARIANT m then
       let sz := bus_gvariant_determine_word_size (BUS_MESSAGE_SIZE m) 0 in
       _ ← require (1 + sz <=? zlen (footer m)) EBADMSG;
       '(s, ub) ← gvariant_body_signature m sz;
       let m := set_user_body_size ub
         (set_root_container (set_c_signature (Some s) (root_container m)) m) in
       '(sz, offsets, n) ← gvariant_field_offsets m;
       Ok (m, sz, offsets, n)
     else Ok (set_user_body_size (body_size m) m, 0, [], 0%nat));
  '(m, unix_fds) ← fields_loop (length (fields m) + 1) m None 0 sz offsets n_offsets 0;
  _ ← require (zlen (fds m) =? default 0 unix_fds) EBADMSG;
  _ ← require (fields_complete m) EBADMSG;
  _ ← require (negb (claims_local m)) EBADMSG;
  let m := set_root_container (set_c_end_ (user_body_size m) (root_container m)) m in
  m ← (if BUS_MESSAGE_IS_GVARIANT m then
         match fst (build_struct_offsets (default [] (signature (root_container m)))
                 (user_body_size m) m) with
         | Ok e => Ok (set_root_container (set_c_offsets (e_offsets e)
                         (set_c_item_size (e_item_size e) (root_container m)))
                       (set_rindex (e_rindex e) m))
         | Err EINVAL => Err EBADMSG
         | Err e => Err e
         end
       else Ok m);
  Ok (if h_type (hdr m) =? SD_BUS_MESSAGE_METHOD_ERROR
      then snd (sd_bus_message_read_basic SD_BUS_TYPE_STRING m) else m).

(** [bus_message_from_malloc] *)
Definition bus_message_from_malloc (buffer : list Z) (fds : list Z) : res message :=
  m ← bus_message_from_header buffer buffer (zlen buffer) fds;
  let off := (Z.to_nat (BUS_HEADER_SIZE + ALIGN8 (fields_size m))) in
  let data := drop off buffer in
  bus_message_parse_fields
    (if 0 <? zlen data then set_parts [Part data true false] m else m).
