(* ===== verification/MsgWire.v ===== *)
(** * Over the wire: header fields and the whole message

    The header fields of the D-Bus 1 format as data, their encoding, and the
    proof that [bus_message_from_malloc] recovers from the bytes of a sealed
    message what was put into it: the fields, the signature and the values. *)
From S2P Require Import Prelude BusType Signature Names Utf8 Gvariant MsgState MsgWrite MsgFields MsgRead MsgBody Marshal MsgAppend MsgReadback MsgRoundtrip MsgParse.

(** ** Header fields as data *)
Inductive hfield :=
  | HString (h t : Z) (s : cstr)
  | HSig (s : cstr)
  | HU32 (h x : Z).

Section Encode.
Variable be : bool.

(** The code, the variant's signature and its value. *)
Definition hfield_bytes (f : hfield) : list Z :=
  match f with
  | HString h t s => [h; 1; t; 0] ++ word be 4 (zlen s) ++ s ++ [0]
  | HSig s => [BUS_MESSAGE_HEADER_SIGNATURE; 1; SD_BUS_TYPE_SIGNATURE; 0; zlen s] ++ s ++ [0]
  | HU32 h x => [h; 1; SD_BUS_TYPE_UINT32; 0] ++ word be 4 x
  end.

Definition encode_fields : Z -> list hfield -> list Z :=
  seq_with (fun pos f => zpad pos 8 ++ hfield_bytes f).
End Encode.

(** What a field sets in the message. *)
Definition apply_field (f : hfield) (m : message) : message :=
  match f with
  | HString h _ s =>
      if h =? BUS_MESSAGE_HEADER_PATH then set_path (Some s) m
      else if h =? BUS_MESSAGE_HEADER_INTERFACE then set_interface (Some s) m
      else if h =? BUS_MESSAGE_HEADER_MEMBER then set_member (Some s) m
      else if h =? BUS_MESSAGE_HEADER_ERROR_NAME then set_error_name (Some s) m
      else if h =? BUS_MESSAGE_HEADER_DESTINATION then set_destination (Some s) m
      else set_sender (Some s) m
  | HSig s => set_root_container (set_c_signature (Some s) (root_container m)) m
  | HU32 _ x => set_reply_cookie x m
  end.

Definition apply_fields (l : list hfield) (m : message) : message :=
  fold_left (fun m f => apply_field f m) l m.

(** A field the parser accepts next: not there yet, of its type, and valid. *)
Definition field_ok (m : message) (f : hfield) : Prop :=
  match f with
  | HString h t s =>
      is_cstr s /\ zlen s < UINT32_MAX /\
      ((h = BUS_MESSAGE_HEADER_PATH /\ t = SD_BUS_TYPE_OBJECT_PATH /\ path m = None /\
          object_path_is_valid s = true) \/
       (t = SD_BUS_TYPE_STRING /\
          (h = BUS_MESSAGE_HEADER_INTERFACE /\ interface m = None /\ interface_name_is_valid s = true \/
           h = BUS_MESSAGE_HEADER_MEMBER /\ member m = None /\ member_name_is_valid s = true \/
           h = BUS_MESSAGE_HEADER_ERROR_NAME /\ error_name m = None /\ error_name_is_valid s = true \/
           h = BUS_MESSAGE_HEADER_DESTINATION /\ destination m = None /\ service_name_is_valid s = true \/
           h = BUS_MESSAGE_HEADER_SENDER /\ sender m = None /\ service_name_is_valid s = true)))
  | HSig s =>
      is_cstr s /\ zlen s < 255 /\ signature_is_valid s true = true /\
      signature (root_container m) = None
  | HU32 h x => h = BUS_MESSAGE_HEADER_REPLY_SERIAL /\ 0 < x <= UINT32_MAX /\ reply_cookie m = 0
  end.

Fixpoint fields_ok (m : message) (l : list hfield) : Prop :=
  match l with
  | [] => True
  | f :: l => field_ok m f /\ fields_ok (apply_field f m) l
  end.

(** What no field touches. *)
Definition frame (m : message) :=
  (hdr m, sealed m, fields m, parts m, body_size m, user_body_size m, rindex m, fds m,
   containers m, footer m).

Lemma frame_apply f m : frame (apply_field f m) = frame m.
Proof. destruct f; simpl; repeat case_match; reflexivity. Qed.

Lemma frame_applys l m : frame (apply_fields l m) = frame m.
Proof.
  revert m. induction l as [|f l IH]; intros m; [done|]. cbn [apply_fields fold_left].
  fold (apply_fields l (apply_field f m)). by rewrite IH, frame_apply.
Qed.

(** ** Peeking at the fields *)
Lemma peek_fields_spec m pre a x post :
  is_align a -> fields m = pre ++ zpad (zlen pre) a ++ x ++ post ->
  zlen (fields m) < 2 ^ 62 ->
  message_peek_fields m (zlen pre) a (zlen x) = Ok (align_up (zlen pre) a + zlen x, x).
Proof.
  intros Ha Hf Hlim. pose proof (zlen_nonneg pre). pose proof (zlen_nonneg x).
  pose proof (zlen_nonneg post). pose proof (pad_bound (zlen pre) a Ha ltac:(done)).
  pose proof (align_up_pad (zlen pre) a).
  assert (Hl : zlen (fields m) = align_up (zlen pre) a + zlen x + zlen post).
  { rewrite Hf, !zlen_app, zpad_length by done. lia. }
  unfold message_peek_fields, buffer_peek. rewrite ALIGN_TO_up by (done || lia).
  rewrite wrap_small by lia. rewrite (proj2 (Z.ltb_ge _ _)) by lia.
  rewrite Hf at 1. rewrite drop_at by done.
  rewrite take_at by (rewrite zpad_length by done; lia).
  unfold zpad at 1. rewrite forallb_zeros. cbn [negb].
  rewrite Hf, app_assoc, drop_at, take_at by (rewrite ?zlen_app, ?zpad_length by done; lia). done.
Qed.

Lemma peek_fields_one m pre x post n :
  fields m = pre ++ x ++ post -> zlen (fields m) < 2 ^ 62 -> n = zlen pre ->
  message_peek_fields m n 1 (zlen x) = Ok (n + zlen x, x).
Proof.
  intros Hf Hl ->. pose proof (zlen_nonneg pre).
  pose proof (peek_fields_spec m pre 1 x post) as P.
  rewrite zpad_one, align_up_id in P by (lia || apply Z.divide_1_l).
  apply P; [unfold is_align; lia | done | done].
Qed.

(** A signature of one character, as every known field has. *)
Lemma peek_sig_char m pre c post n :
  BUS_MESSAGE_IS_GVARIANT m = false -> bus_type_is_basic c = true ->
  fields m = pre ++ [1; c; 0] ++ post -> zlen (fields m) < 2 ^ 62 -> n = zlen pre ->
  message_peek_field_signature m n 0 = Ok (n + 3, [c]).
Proof.
  intros Hv Hc Hf Hl ->. unfold message_peek_field_signature. rewrite Hv.
  change 1 with (zlen [1]) at 2.
  rewrite (peek_fields_one m pre [1] ([c; 0] ++ post)) by done. cbn [mbind res_bind].
  change (le_val [1]) with 1. change (negb (1 =? 255)) with true. cbn [require mbind res_bind].
  change (1 + 1) with (zlen [c; 0]).
  rewrite (peek_fields_one m (pre ++ [1]) [c; 0] post); [| |done|by rewrite zlen_app].
  - cbn [mbind res_bind].
    assert (validate_signature [c; 0] (Z.to_nat 1) = true) as ->.
    { in_set_cases Hc; reflexivity. }
    cbn [require mbind res_bind]. change (zlen [1]) with 1. change (zlen [c; 0]) with 2.
    do 2 f_equal. lia.
  - by rewrite Hf, <- app_assoc.
Qed.

(** A word and a string of the fields, at a position that is a multiple of 4. *)
Lemma peek_field_u32 m pre x post n item :
  BUS_MESSAGE_IS_GVARIANT m = false -> 0 <= x < 2 ^ 32 ->
  fields m = pre ++ word (BUS_MESSAGE_NEED_BSWAP m) 4 x ++ post ->
  zlen (fields m) < 2 ^ 62 -> n = zlen pre -> (4 | n) ->
  message_peek_field_uint32 m n item = Ok (n + 4, x).
Proof.
  intros Hv Hx Hf Hl -> H4. unfold message_peek_field_uint32. rewrite Hv.
  cbn [andb negb require mbind res_bind].
  pose proof (peek_fields_spec m pre 4 (word (BUS_MESSAGE_NEED_BSWAP m) 4 x) post) as P.
  assert (E : align_up (zlen pre) 4 = zlen pre) by (by apply align_up_id).
  assert (Ez : zpad (zlen pre) 4 = []) by (unfold zpad, pad; by rewrite E, Z.sub_diag).
  rewrite Ez, E, zlen_word4 in P. rewrite P by (done || unfold is_align; lia).
  cbn [mbind res_bind]. by rewrite bswap_word.
Qed.

Lemma peek_field_str m valid pre s post n item :
  BUS_MESSAGE_IS_GVARIANT m = false -> is_cstr s -> zlen s < UINT32_MAX -> valid s = true ->
  fields m = pre ++ word (BUS_MESSAGE_NEED_BSWAP m) 4 (zlen s) ++ s ++ [0] ++ post ->
  zlen (fields m) < 2 ^ 62 -> n = zlen pre -> (4 | n) ->
  message_peek_field_string m (Some valid) n item = Ok (n + 4 + zlen s + 1, s).
Proof.
  intros Hv Hc Hs Hval Hf Hl -> H4. pose proof (zlen_nonneg s). unfold UINT32_MAX in Hs.
  unfold message_peek_field_string. rewrite Hv.
  erewrite peek_field_u32; [|done| |exact Hf|done|done|done]; [|lia].
  cbn [mbind res_bind]. unfold UINT32_MAX. rewrite (proj2 (Z.eqb_neq _ _)) by lia.
  cbn [negb require mbind res_bind].
  replace (zlen s + 1) with (zlen (s ++ [0])) by (by rewrite zlen_app).
  rewrite (peek_fields_one m (pre ++ word (BUS_MESSAGE_NEED_BSWAP m) 4 (zlen s)) (s ++ [0]) post);
    [| |done|].
  - cbn [mbind res_bind]. replace (Z.to_nat (zlen s)) with (length s) by (unfold zlen; lia).
    rewrite validate_nul_cstr, take_app_length, Hval by done. cbn [andb require mbind res_bind].
    do 2 f_equal. rewrite zlen_app. change (zlen [0]) with 1. lia.
  - by rewrite Hf, <- !app_assoc.
  - rewrite zlen_app, zlen_word4. done.
Qed.

(** ** The loop over the fields *)
Definition hfield_code (f : hfield) : Z :=
  match f with HString h _ _ => h | HSig _ => BUS_MESSAGE_HEADER_SIGNATURE | HU32 h _ => h end.

Definition hfield_type (f : hfield) : Z :=
  match f with HString _ t _ => t | HSig _ => SD_BUS_TYPE_SIGNATURE | HU32 _ _ => SD_BUS_TYPE_UINT32 end.

Definition hfield_value (be : bool) (f : hfield) : list Z :=
  match f with
  | HString _ _ s => word be 4 (zlen s) ++ s ++ [0]
  | HSig s => [zlen s] ++ s ++ [0]
  | HU32 _ x => word be 4 x
  end.

Lemma hfield_split be f :
  hfield_bytes be f = [hfield_code f] ++ [1; hfield_type f; 0] ++ hfield_value be f.
Proof. by destruct f. Qed.

Lemma field_ok_type m f : field_ok m f -> bus_type_is_basic (hfield_type f) = true.
Proof.
  destruct f as [h t s|s|h x]; [|done|done]. intros (_ & _ & [(_ & -> & _)|(-> & _)]); done.
Qed.

Lemma next_field_spec m pre f post sz offs i :
  BUS_MESSAGE_IS_GVARIANT m = false -> field_ok m f ->
  fields m = pre ++ zpad (zlen pre) 8 ++ hfield_bytes (BUS_MESSAGE_NEED_BSWAP m) f ++ post ->
  zlen (fields m) < 2 ^ 62 ->
  next_field m (zlen pre) sz offs i =
  Ok (hfield_code f, align_up (zlen pre) 8 + 4, [hfield_type f], SIZE_MAX).
Proof.
  intros Hv Hok Hf Hl. assert (H8 : is_align 8) by (unfold is_align; lia).
  pose proof (zlen_nonneg pre). rewrite hfield_split in Hf. rewrite <- !app_assoc in Hf.
  unfold next_field. rewrite Hv.
  pose proof (peek_fields_spec m pre 8 [hfield_code f] _ H8 Hf Hl) as P.
  change (zlen [hfield_code f]) with 1 in P. rewrite P. cbn [mbind res_bind].
  rewrite (peek_sig_char m (pre ++ zpad (zlen pre) 8 ++ [hfield_code f]) (hfield_type f)
             (hfield_value (BUS_MESSAGE_NEED_BSWAP m) f ++ post)); [|done| | |done|].
  - cbn [mbind res_bind le_val]. rewrite Z.mul_0_r, Z.add_0_r.
    by replace (align_up (zlen pre) 8 + 1 + 3) with (align_up (zlen pre) 8 + 4) by lia.
  - by eapply field_ok_type.
  - by rewrite Hf, <- !app_assoc.
  - rewrite !zlen_app, zpad_length, align_up_pad by done. change (zlen [_]) with 1. lia.
Qed.

(** Select the branch of a concrete field code. *)
Ltac pick_field :=
  repeat match goal with
  | |- context [if ?a =? ?b then _ else _] =>
      let v := eval vm_compute in (a =? b) in
      match v with
      | true => change (a =? b) with true
      | false => change (a =? b) with false
      end; cbn beta iota
  end.

Lemma parse_field_spec m pre f post uf :
  BUS_MESSAGE_IS_GVARIANT m = false -> field_ok m f ->
  fields m = pre ++ zpad (zlen pre) 8 ++ hfield_bytes (BUS_MESSAGE_NEED_BSWAP m) f ++ post ->
  zlen (fields m) < 2 ^ 62 ->
  parse_field m uf (hfield_code f) [hfield_type f] (align_up (zlen pre) 8 + 4) SIZE_MAX =
  Ok (align_up (zlen pre) 8 + zlen (hfield_bytes (BUS_MESSAGE_NEED_BSWAP m) f), apply_field f m, uf).
Proof.
  intros Hv Hok Hf Hl. assert (H8 : is_align 8) by (unfold is_align; lia).
  pose proof (zlen_nonneg pre). set (be := BUS_MESSAGE_NEED_BSWAP m) in *.
  rewrite hfield_split in Hf |- *. rewrite <- !app_assoc in Hf.
  set (n := align_up (zlen pre) 8 + 4).
  set (pre' := pre ++ zpad (zlen pre) 8 ++ [hfield_code f] ++ [1; hfield_type f; 0]).
  assert (Hn : n = zlen pre').
  { unfold pre', n. rewrite !zlen_app, zpad_length, align_up_pad by done.
    change (zlen [_]) with 1. change (zlen [_; _; _]) with 3. lia. }
  assert (Hf' : fields m = pre' ++ hfield_value be f ++ post)
    by (unfold pre'; by rewrite Hf, <- !app_assoc).
  assert (H4 : (4 | n)).
  { unfold n, align_up. apply Z.divide_add_r; [|by exists 1].
    apply (Z.divide_trans _ 8); [by exists 2|apply Z.divide_factor_r]. }
  rewrite !zlen_app. change (zlen [hfield_code f]) with 1. change (zlen [_; _; _]) with 3.
  destruct f as [h t s|s|h x]; cbn [hfield_code hfield_type hfield_value field_ok] in *.
  - destruct Hok as (Hc & Hs & Hok). rewrite <- !app_assoc in Hf'.
    assert (P := fun valid Hval => peek_field_str m valid pre' s post n SIZE_MAX Hv Hc Hs Hval Hf' Hl Hn H4).
    rewrite !zlen_app, zlen_word4. change (zlen [0]) with 1.
    replace (align_up (zlen pre) 8 + (1 + (3 + (4 + (zlen s + 1))))) with (n + 4 + zlen s + 1)
      by (unfold n; lia).
    destruct Hok as [(-> & -> & Hset & Hval)|(-> & [H'|[H'|[H'|[H'|H']]]])];
      [|destruct H' as (-> & Hset & Hval) ..];
      unfold parse_field, apply_field; pick_field;
      unfold parse_string_field; rewrite Hset, bool_decide_eq_true_2 by done;
      cbn [require mbind res_bind streq Z.eqb Pos.eqb andb]; rewrite P by done; reflexivity.
  - destruct Hok as (Hc & Hs & Hval & Hset). pose proof (zlen_nonneg s).
    rewrite <- !app_assoc in Hf'. unfold parse_field. pick_field. rewrite Hv, Hset.
    rewrite bool_decide_eq_true_2 by done.
    change (streq [SD_BUS_TYPE_SIGNATURE] (bs "g")) with true. cbn [negb require mbind res_bind].
    unfold message_peek_field_signature. rewrite Hv.
    pose proof (peek_fields_one m pre' [zlen s] (s ++ [0] ++ post) n Hf' Hl Hn) as P.
    change (zlen [zlen s]) with 1 in P. rewrite P.
    cbn [mbind res_bind le_val]. rewrite Z.mul_0_r, Z.add_0_r.
    rewrite (proj2 (Z.eqb_neq (zlen s) 255)) by lia. cbn [negb require mbind res_bind].
    replace (zlen s + 1) with (zlen (s ++ [0])) by (by rewrite zlen_app).
    rewrite (peek_fields_one m (pre' ++ [zlen s]) (s ++ [0]) post);
      [|by rewrite Hf', <- !app_assoc|done|rewrite zlen_app, Hn; done].
    cbn [mbind res_bind]. unfold validate_signature.
    replace (Z.to_nat (zlen s)) with (length s) by (unfold zlen; lia).
    rewrite validate_nul_cstr, take_app_length, Hval by done.
    cbn [andb require mbind res_bind apply_field].
    match goal with |- Ok (?a, _, _) = Ok (?b, _, _) => replace a with b; [done|] end.
    rewrite !zlen_app. change (zlen [_]) with 1. unfold n. lia.
  - destruct Hok as (-> & Hx & Hset). unfold UINT32_MAX in Hx. unfold parse_field. pick_field.
    rewrite Hset, Hv. change (0 =? 0) with true.
    change (streq [SD_BUS_TYPE_UINT32] (bs "u")) with true. cbn [require mbind res_bind].
    rewrite (peek_field_u32 m pre' x post n) by (done || lia).
    cbn [mbind res_bind]. rewrite (proj2 (Z.eqb_neq x 0)) by lia.
    cbn [negb require mbind res_bind apply_field]. rewrite zlen_word4.
    match goal with |- Ok (?a, _, _) = Ok (?b, _, _) => replace a with b; [done|] end.
    unfold n. lia.
Qed.

Lemma frame_eq {A} (g : _ -> A) m m' : frame m = frame m' -> g (frame m) = g (frame m').
Proof. by intros ->. Qed.

Lemma apply_fields_facts f m :
  fields (apply_field f m) = fields m /\
  BUS_MESSAGE_IS_GVARIANT (apply_field f m) = BUS_MESSAGE_IS_GVARIANT m /\
  BUS_MESSAGE_NEED_BSWAP (apply_field f m) = BUS_MESSAGE_NEED_BSWAP m.
Proof. destruct f; simpl; repeat case_match; done. Qed.

Lemma hfield_bytes_pos be f : 4 <= zlen (hfield_bytes be f).
Proof.
  rewrite hfield_split, !zlen_app. change (zlen [hfield_code f]) with 1. change (zlen [_; _; _]) with 3.
  pose proof (zlen_nonneg (hfield_value be f)). lia.
Qed.

Lemma fields_loop_spec l : forall m pre fuel uf i,
  BUS_MESSAGE_IS_GVARIANT m = false -> fields_ok m l ->
  fields m = pre ++ encode_fields (BUS_MESSAGE_NEED_BSWAP m) (zlen pre) l ->
  zlen (fields m) < 2 ^ 62 -> (length l < fuel)%nat ->
  fields_loop fuel m uf (zlen pre) 0 [] 0 i = Ok (apply_fields l m, uf).
Proof.
  induction l as [|f l IH]; intros m pre fuel uf i Hv Hok Hf Hl Hfuel;
    (destruct fuel as [|fuel]; [simpl in Hfuel; lia|]); cbn [fields_loop].
  - unfold fields_size. rewrite Hf. cbn [encode_fields seq_with]. rewrite app_nil_r.
    by rewrite Z.ltb_irrefl.
  - destruct Hok as [Hok1 Hok2]. unfold encode_fields in Hf. cbn [seq_with] in Hf.
    set (be := BUS_MESSAGE_NEED_BSWAP m) in *. pose proof (zlen_nonneg pre).
    assert (H8 : is_align 8) by (unfold is_align; lia).
    set (b := zpad (zlen pre) 8 ++ hfield_bytes be f) in *.
    assert (Hb : zlen b = align_up (zlen pre) 8 - zlen pre + zlen (hfield_bytes be f)).
    { unfold b. rewrite zlen_app, zpad_length by done. unfold pad. lia. }
    pose proof (hfield_bytes_pos be f). pose proof (pad_bound (zlen pre) 8 H8 ltac:(done)).
    pose proof (align_up_pad (zlen pre) 8).
    rewrite (proj2 (Z.ltb_lt (zlen pre) (fields_size m))).
    2: { unfold fields_size. rewrite Hf, !zlen_app.
         match goal with |- context [seq_with ?a ?b ?c] => pose proof (zlen_nonneg (seq_with a b c)) end. lia. }
    rewrite Hv. cbn [negb orb andb].
    assert (Hf' : fields m = pre ++ zpad (zlen pre) 8 ++ hfield_bytes be f ++
                    encode_fields be (zlen pre + zlen b) l).
    { rewrite Hf at 1. unfold b at 1. by rewrite <- app_assoc. }
    rewrite (next_field_spec m pre f _ _ _ _ Hv Hok1 Hf' Hl). cbn [mbind res_bind].
    rewrite (parse_field_spec m pre f _ _ Hv Hok1 Hf' Hl). cbn [mbind res_bind].
    destruct (apply_fields_facts f m) as (F1 & F2 & F3).
    replace (align_up (zlen pre) 8 + zlen (hfield_bytes (BUS_MESSAGE_NEED_BSWAP m) f))
      with (zlen (pre ++ b)) by (rewrite zlen_app, Hb; fold be; lia).
    rewrite IH; rewrite ?F1, ?F2, ?F3; try done.
    + rewrite zlen_app. fold be. rewrite Hf at 1. by rewrite <- app_assoc.
    + simpl in Hfuel. lia.
Qed.

Lemma encode_fields_app be l1 l2 : forall p,
  encode_fields be p (l1 ++ l2) =
  encode_fields be p l1 ++ encode_fields be (p + zlen (encode_fields be p l1)) l2.
Proof.
  induction l1 as [|f l1 IH]; intros p; cbn [app].
  - change (encode_fields be p []) with (@nil Z). change (zlen []) with 0. by rewrite Z.add_0_r.
  - unfold encode_fields. cbn [seq_with]. fold (encode_fields be).
    set (b := zpad p 8 ++ hfield_bytes be f).
    rewrite IH, <- app_assoc, zlen_app. by rewrite Z.add_assoc.
Qed.

(** ** Building header fields *)

(** The fields of a message under construction are the encoding of [l], and
    its quick-access members are what [l] sets. *)
Definition members (m : message) :=
  (path m, interface m, member m, destination m, sender m, error_name m, reply_cookie m).

Definition blank (m : message) : message :=
  set_root_container (empty_container 0 false)
    (set_reply_cookie 0 (set_error_name None (set_sender None (set_destination None
      (set_member None (set_interface None (set_path None m))))))).

(** [HSig] is added by sealing only. *)
Definition not_sig (f : hfield) : Prop := match f with HSig _ => False | _ => True end.

Record built (l : list hfield) (m : message) : Prop := Built {
  b_fields : fields m = encode_fields false 0 l;
  b_members : members m = members (apply_fields l (blank m));
  b_ok : fields_ok (blank m) l;
  b_sig : Forall not_sig l }.

(** What the fields set and what their checks look at. *)
Definition view (m : message) := (members m, signature (root_container m)).

Lemma view_apply f m m' : view m = view m' -> view (apply_field f m) = view (apply_field f m').
Proof.
  unfold view, members. destruct f; simpl; intros E; injection E as E1 E2 E3 E4 E5 E6 E7 E8;
    repeat case_match; simpl; congruence.
Qed.

Lemma view_applys l : forall m m',
  view m = view m' -> view (apply_fields l m) = view (apply_fields l m').
Proof.
  induction l as [|f l IH]; intros m m' E; [done|].
  cbn [apply_fields fold_left]. by apply IH, view_apply.
Qed.

Lemma field_ok_view f m m' : view m = view m' -> field_ok m f -> field_ok m' f.
Proof.
  unfold view, members. intros E. injection E as E1 E2 E3 E4 E5 E6 E7 E8.
  destruct f; simpl; by rewrite ?E1, ?E2, ?E3, ?E4, ?E5, ?E6, ?E7, ?E8.
Qed.

Lemma fields_ok_view l : forall m m', view m = view m' -> fields_ok m l -> fields_ok m' l.
Proof.
  induction l as [|f l IH]; intros m m' E; [done|]. intros [H1 H2].
  split; [by eapply field_ok_view|]. eapply IH; [|exact H2]. by apply view_apply.
Qed.

Lemma fields_ok_app l1 l2 : forall m,
  fields_ok m (l1 ++ l2) <-> fields_ok m l1 /\ fields_ok (apply_fields l1 m) l2.
Proof.
  induction l1 as [|f l1 IH]; intros m; cbn [app fields_ok]; [by split; [|intros [_ ?]]|].
  rewrite IH. cbn [apply_fields fold_left]. tauto.
Qed.

Lemma not_sig_root l : forall m,
  Forall not_sig l -> signature (root_container (apply_fields l m)) = signature (root_container m).
Proof.
  induction l as [|f l IH]; intros m H; [done|]. inversion_clear H as [|?? H1 H2].
  cbn [apply_fields fold_left]. rewrite (IH _ H2). destruct f; simpl in *; repeat case_match; done.
Qed.

(** ** The fixed header *)
Definition header_ok (h : bus_header) : Prop :=
  h_endian h = BUS_LITTLE_ENDIAN /\ 0 < h_type h < 256 /\ 0 <= h_flags h < 256 /\
  h_version h = 1 /\ 0 <= h_body_size h < 2 ^ 32 /\ 0 < h_serial h < 2 ^ 32 /\
  0 <= h_fields_size h < 2 ^ 32 /\ h_cookie h = 0.

Lemma le_val_word4 x : 0 <= x < 2 ^ 32 -> le_val (le_bytes 4 x) = x.
Proof. intros. rewrite le_val_le_bytes. by apply Z.mod_small. Qed.

Lemma decode_header_bytes h rest :
  header_ok h -> decode_header (header_bytes h ++ rest) = h /\ zlen (header_bytes h) = 16.
Proof.
  intros (He & Ht & Hfl & Hv & Hb & Hs & Hf & Hc). unfold decode_header, header_bytes.
  rewrite Hv. change (1 =? 2) with false. cbn beta iota.
  set (w1 := le_bytes 4 (h_body_size h)). set (w2 := le_bytes 4 (h_serial h)).
  set (w3 := le_bytes 4 (h_fields_size h)).
  assert (L : forall x, exists a b c d, le_bytes 4 x = [a; b; c; d]) by (intros x; by do 4 eexists).
  destruct (L (h_body_size h)) as (a1 & b1 & c1 & d1 & E1).
  destruct (L (h_serial h)) as (a2 & b2 & c2 & d2 & E2).
  destruct (L (h_fields_size h)) as (a3 & b3 & c3 & d3 & E3).
  unfold w1, w2, w3. rewrite E1, E2, E3. unfold char_at.
  cbn [app drop take deref]. change (1 =? 2) with false. cbn beta iota.
  rewrite ?take_0, <- E1, <- E2, <- E3, !le_val_word4 by lia. split; [|done].
  destruct h; simpl in *; congruence.
Qed.

(** The message [bus_message_from_header] makes, with the body's part. *)
Definition received (h : bus_header) (fs b buffer : list Z) : message :=
  {| hdr := h; sealed := true; poisoned := false; dont_send := false; allow_fds := false;
     fields := fs; header_offsets := [];
     parts := if bool_decide (b = []) then [] else [Part b true false];
     body_size := zlen b; user_body_size := 0; rindex := 0; fds := [];
     root_container := empty_container 0 false; containers := [];
     path := None; interface := None; member := None; destination := None; sender := None;
     error_name := None; reply_cookie := 0; enforced_reply_signature := None; timeout := 0;
     footer := buffer |}.

Definition wire (h : bus_header) (fs b : list Z) : list Z :=
  header_bytes h ++ fs ++ zeros (Z.to_nat (ALIGN8 (zlen fs) - zlen fs)) ++ b.

Lemma body_received h fs b buf : body (received h fs b buf) = b.
Proof. unfold body, received. simpl. case_bool_decide; subst; simpl; by rewrite ?app_nil_r. Qed.

Lemma from_malloc_received h fs b :
  header_ok h -> h_body_size h = zlen b -> h_fields_size h = zlen fs -> zlen fs < 2 ^ 31 ->
  bus_message_from_malloc (wire h fs b) [] =
  bus_message_parse_fields (received h fs b (wire h fs b)).
Proof.
  intros Hh Hb Hf Hl. unfold bus_message_from_malloc. set (buf := wire h fs b).
  destruct (decode_header_bytes h (fs ++ zeros (Z.to_nat (ALIGN8 (zlen fs) - zlen fs)) ++ b) Hh) as [Hd Hdl].
  pose proof (zlen_nonneg fs). pose proof (zlen_nonneg b).
  assert (H8 : is_align 8) by (unfold is_align; lia).
  pose proof (pad_bound (zlen fs) 8 H8 ltac:(done)) as Hp. pose proof (align_up_pad (zlen fs) 8).
  assert (Ha : ALIGN8 (zlen fs) = align_up (zlen fs) 8) by (apply ALIGN8_up; lia).
  assert (Hbuf : zlen buf = 16 + ALIGN8 (zlen fs) + zlen b).
  { unfold buf, wire. rewrite !zlen_app, Hdl, Ha.
    change (zlen (zeros ?n)) with (Z.of_nat (length (replicate n 0))). rewrite length_replicate. lia. }
  assert (Hdec : decode_header buf = h) by exact Hd.
  assert (Hhdr : bus_message_from_header buf buf (zlen buf) [] =
                 Ok (set_parts [] (received h fs b buf))).
  { unfold bus_message_from_header, BUS_HEADER_SIZE.
    rewrite (proj2 (Z.leb_le 16 (zlen buf))), !Z.leb_refl by lia. cbn [require mbind res_bind].
    rewrite Hdec.
    destruct Hh as (He & Ht & Hfl & Hv & Hbs & Hs & Hfs & Hc).
    rewrite Hv, He, (proj2 (Z.eqb_neq (h_type h) 0)) by lia.
    change (in_set 1 [1; 2]) with true. change (in_set _ [BUS_LITTLE_ENDIAN; _]) with true.
    cbn [negb require mbind res_bind]. change (1 =? 2) with false. cbn beta iota.
    rewrite (proj2 (Z.eqb_neq (h_serial h) 0)) by lia. cbn [negb require mbind res_bind].
    assert (Hswap : forall f s u x, BUS_MESSAGE_BSWAP (Message h s false false false f [] [] u 0 0 []
      (empty_container 0 false) [] None None None None None None 0 None 0 buf) 4 x = x).
    { intros. unfold BUS_MESSAGE_BSWAP, BUS_MESSAGE_NEED_BSWAP. simpl. by rewrite He. }
    rewrite !Hswap, Hf, Hb, Hbuf, Z.eqb_refl. cbn [require mbind res_bind].
    assert (take (Z.to_nat (zlen fs)) (drop (Z.to_nat 16) buf) = fs) as ->; [|done].
    unfold buf, wire. rewrite drop_at by done. by rewrite take_at. }
  rewrite Hhdr. cbn [mbind res_bind]. f_equal.
  assert (drop (Z.to_nat (BUS_HEADER_SIZE + ALIGN8 (fields_size (set_parts [] (received h fs b buf))))) buf = b) as ->.
  { unfold fields_size, BUS_HEADER_SIZE. simpl. unfold buf, wire. rewrite !app_assoc. apply drop_at.
    rewrite !zlen_app, Hdl. change (zlen (zeros ?n)) with (Z.of_nat (length (replicate n 0))).
    rewrite length_replicate. lia. }
  unfold received, set_parts. simpl. case_bool_decide as E; [by rewrite E|].
  rewrite (proj2 (Z.ltb_lt 0 (zlen b))); [done|]. destruct b; [done|]. unfold zlen. simpl. lia.
Qed.

(** ** Parsing a received message *)
Lemma frame_fields m m' :
  frame m = frame m' ->
  hdr m = hdr m' /\ sealed m = sealed m' /\ fields m = fields m' /\ parts m = parts m' /\
  body_size m = body_size m' /\ user_body_size m = user_body_size m' /\ rindex m = rindex m' /\
  fds m = fds m' /\ containers m = containers m'.
Proof. unfold frame. intros E. injection E as ??????????. done. Qed.

Definition parsed (l : list hfield) (r : message) : message :=
  let m := apply_fields l (set_user_body_size (body_size r) r) in
  set_root_container (set_c_end_ (user_body_size m) (root_container m)) m.

Definition after_error_read (m : message) : message :=
  if h_type (hdr m) =? SD_BUS_MESSAGE_METHOD_ERROR
  then snd (sd_bus_message_read_basic SD_BUS_TYPE_STRING m) else m.

Lemma parse_fields_received l r :
  BUS_MESSAGE_IS_GVARIANT r = false -> fds r = [] -> fields_ok r l ->
  fields r = encode_fields (BUS_MESSAGE_NEED_BSWAP r) 0 l -> zlen (fields r) < 2 ^ 62 ->
  fields_complete (parsed l r) = true -> claims_local (parsed l r) = false ->
  bus_message_parse_fields r = Ok (after_error_read (parsed l r)).
Proof.
  intros Hv Hfd Hok Hf Hl Hcomp Hloc. unfold bus_message_parse_fields. rewrite Hv.
  cbn [mbind res_bind]. set (r1 := set_user_body_size (body_size r) r).
  assert (Hlen : (length l < length (fields r1) + 1)%nat).
  { change (fields r1) with (fields r). rewrite Hf. clear. generalize 0.
    induction l as [|f l IH]; intros p; [simpl; lia|]. unfold encode_fields. cbn [seq_with length].
    fold (encode_fields (BUS_MESSAGE_NEED_BSWAP r)). rewrite !length_app.
    pose proof (hfield_bytes_pos (BUS_MESSAGE_NEED_BSWAP r) f) as P. unfold zlen in P.
    match goal with |- context [encode_fields _ ?q l] => specialize (IH q) end. lia. }
  pose proof (fields_loop_spec l r1 [] (length (fields r1) + 1) None 0 Hv) as E.
  change (zlen []) with 0 in E. rewrite E; clear E; try done.
  - cbn [mbind res_bind]. destruct (frame_fields _ _ (frame_applys l r1)) as
      (F1 & _ & _ & _ & _ & F6 & _ & F8 & _).
    rewrite F8. change (fds r1) with (fds r). rewrite Hfd. cbn [default require mbind res_bind].
    change (fields_complete (apply_fields l r1)) with (fields_complete (parsed l r)).
    change (claims_local (apply_fields l r1)) with (claims_local (parsed l r)).
    rewrite Hcomp, Hloc. change (zlen [] =? 0) with true. cbn [negb require mbind res_bind].
    change (BUS_MESSAGE_IS_GVARIANT (set_root_container _ ?x)) with (BUS_MESSAGE_IS_GVARIANT x).
    assert (BUS_MESSAGE_IS_GVARIANT (apply_fields l r1) = false) as ->.
    { unfold BUS_MESSAGE_IS_GVARIANT. by rewrite F1. }
    done.
  - by eapply fields_ok_view; [|exact Hok].
Qed.

(** ** Reading the body after a rewind *)
Lemma read_basic_moves t m :
  BUS_MESSAGE_IS_GVARIANT m = false ->
  snd (sd_bus_message_read_basic t m) = m \/
  exists n, snd (sd_bus_message_read_basic t m) = moved n (fun c => adv (S (index c)) c) m.
Proof.
  intros Hv. unfold sd_bus_message_read_basic.
  unfold mbind, stm_bind, sget, sreq, slift, smod.
  destruct (require (sealed m) EPERM); [|by left].
  destruct (require (bus_type_is_basic t) EINVAL); [|by left].
  destruct (require (negb (message_end_of_signature m)) ENXIO); [|by left].
  destruct (message_end_of_array m (rindex m)) as [[|]|]; [by left| |by left].
  destruct (require (sig_char (message_get_last_container m) =? t) ENXIO); [|by left].
  rewrite Hv. destruct (read_basic_dbus1 m t) as [[ri v]|]; [|by left]. right. exists ri.
  cbn [res_bind]. unfold advance_index, smod, mret, stm_ret. cbn [snd].
  change (upd_last_container _ (set_rindex ri ?x)) with
    (upd_last_container (fun c => adv (S (index c)) c) (set_rindex ri x)).
  rewrite (upd_id (fun _ => message_get_last_container m)) by done. by rewrite upd_set_rindex.
Qed.

Lemma rewind_run m :
  sealed m = true ->
  exists b, sd_bus_message_rewind true m =
    (Ok b, set_rindex 0 (set_containers [] (set_root_container
       (set_c_item_size (wrap64 (default (end_ (root_container m)) (head (offsets (root_container m)))
           - begin (root_container m)))
         (set_c_offset_index 0 (set_c_index 0 (root_container m)))) m))).
Proof.
  intros Hs. unfold sd_bus_message_rewind. erewrite stm_bind_run by reflexivity. rewrite Hs.
  eexists. erewrite stm_bind_run by reflexivity.
  erewrite stm_bind_run by reflexivity. erewrite stm_bind_run by reflexivity.
  erewrite stm_bind_run by reflexivity. unfold mret, stm_ret. f_equal.
Qed.

(** What a client reads of a message: the identity fields and the rest. *)
Lemma after_error_read_facts m :
  BUS_MESSAGE_IS_GVARIANT m = false -> containers m = [] ->
  let m' := after_error_read m in
  members m' = members m /\ hdr m' = hdr m /\ body m' = body m /\ (readable m -> readable m') /\
  containers m' = [] /\ signature (root_container m') = signature (root_container m) /\
  enclosing (root_container m') = enclosing (root_container m).
Proof.
  intros Hv Hc m'. assert (H : m' = m \/ exists n, m' = moved n (fun c => adv (S (index c)) c) m).
  { unfold m', after_error_read. destruct (_ =? _); [by apply read_basic_moves | by left]. }
  destruct H as [-> | [n ->]]; [done|].
  assert (E : moved n (fun c => adv (S (index c)) c) m =
    set_rindex n (set_root_container (adv (S (index (root_container m))) (root_container m)) m)).
  { unfold moved, upd_last_container. by rewrite Hc. }
  split; [by rewrite E|]. split; [by rewrite E|]. split; [apply body_moved|].
  split; [apply readable_moved|]. rewrite E. split; [done|].
  simpl. unfold adv. by case_match.
Qed.

Lemma enclosing_applys l : forall m,
  enclosing (root_container m) = 0 -> enclosing (root_container (apply_fields l m)) = 0.
Proof.
  induction l as [|f l IH]; intros m Hm; [done|]. cbn [apply_fields fold_left]. apply IH.
  destruct f; simpl; repeat case_match; done.
Qed.

(** ** The sealed message's fields *)
Definition sig_fields (s : cstr) : list hfield := if bool_decide (s = []) then [] else [HSig s].

Lemma sealed_fields_encode l s m :
  fields m = encode_fields false 0 l -> sealed_fields s m = encode_fields false 0 (l ++ sig_fields s).
Proof.
  intros Hf. unfold sealed_fields, sig_fields, fields_size. rewrite Hf, encode_fields_app.
  case_bool_decide; [by rewrite app_nil_r|]. rewrite Z.add_0_l.
  unfold encode_fields at 4. cbn [seq_with hfield_bytes]. by rewrite app_nil_r.
Qed.

Lemma members_facts m m' :
  members m = members m' -> h_type (hdr m) = h_type (hdr m') ->
  fields_complete m = fields_complete m' /\ claims_local m = claims_local m'.
Proof.
  unfold members. intros E Eh. injection E as E1 E2 E3 E4 E5 E6 E7.
  unfold fields_complete, claims_local. by rewrite E1, E2, E3, E5, E6, E7, Eh.
Qed.

Lemma members_sig s m : members (apply_fields (sig_fields s) m) = members m.
Proof. unfold sig_fields. by case_bool_decide. Qed.

Lemma apply_fields_app l1 l2 m :
  apply_fields (l1 ++ l2) m = apply_fields l2 (apply_fields l1 m).
Proof. apply fold_left_app. Qed.

(** A message of the D-Bus 1 format whose header can be sealed. *)
Record sendable (l : list hfield) (m : message) : Prop := Sendable {
  s_fresh : fresh m;
  s_built : built l m;
  s_type : 0 < h_type (hdr m) < 256;
  s_flags : 0 <= h_flags (hdr m) < 256;
  s_version : h_version (hdr m) = 1;
  s_cookie : h_cookie (hdr m) = 0;
  s_size : fields_size m < 2 ^ 30;
  s_complete : fields_complete m = true;
  s_local : claims_local m = false }.

Definition values_ok (vs : list value) : Prop :=
  top_ok vs /\ zlen (marshal_seq false 0 vs) <= BUS_ARRAY_MAX_SIZE /\ zlen (vtypes vs) < 255 /\
  signature_is_valid (vtypes vs) true = true /\
  Forall (fun v => vdepth v <= BUS_CONTAINER_DEPTH)%nat vs.

Lemma top_fields_ok l vs m :
  built l m -> values_ok vs -> forall r, view r = view (blank m) ->
  fields_ok r (l ++ sig_fields (vtypes vs)).
Proof.
  intros B (Hvs & _ & Hl & Hsv & _) r Hr. apply (fields_ok_view _ (blank m)); [done|].
  apply fields_ok_app. split; [apply B|]. unfold sig_fields. case_bool_decide; [done|].
  split; [|done]. cbn [field_ok]. split; [apply vtypes_cstr; by apply top_ok_values|].
  split; [done|]. split; [done|]. rewrite not_sig_root by apply B. done.
Qed.

Lemma parsed_sig l s r :
  Forall not_sig l -> signature (root_container r) = None ->
  default [] (signature (root_container (parsed (l ++ sig_fields s) r))) = s.
Proof.
  intros Hl Hr. unfold parsed. simpl. rewrite apply_fields_app. unfold sig_fields.
  case_bool_decide; subst; cbn [apply_fields fold_left].
  - fold (apply_fields l (set_user_body_size (body_size r) r)). rewrite not_sig_root by done.
    simpl. by rewrite Hr.
  - done.
Qed.

(** What arrives: the bytes of a header, fields [l] and a body, received. *)
Lemma from_malloc_fields h l b :
  header_ok h -> h_body_size h = zlen b ->
  let fs := encode_fields false 0 l in
  h_fields_size h = zlen fs -> zlen fs < 2 ^ 31 ->
  let r := received h fs b (wire h fs b) in
  fields_ok r l -> fields_complete (parsed l r) = true -> claims_local (parsed l r) = false ->
  bus_message_from_malloc (wire h fs b) [] = Ok (after_error_read (parsed l r)).
Proof.
  intros Hh Hb fs Hf Hl r Hok Hc Hloc.
  rewrite (from_malloc_received h fs b) by done. fold r.
  assert (Hbe : BUS_MESSAGE_NEED_BSWAP r = false).
  { unfold BUS_MESSAGE_NEED_BSWAP. simpl. by rewrite (proj1 Hh). }
  apply parse_fields_received; try done.
  - unfold BUS_MESSAGE_IS_GVARIANT. simpl. destruct Hh as (_ & _ & _ & -> & _). done.
  - by rewrite Hbe.
  - simpl. lia.
Qed.

(** The received message, rewound, is one the reader's theorem is about. *)
Lemma parsed_readable h l b :
  header_ok h -> zlen b <= BUS_ARRAY_MAX_SIZE ->
  let r := received h (encode_fields false 0 l) b (wire h (encode_fields false 0 l) b) in
  let m := parsed l r in
  readable m /\ BUS_MESSAGE_NEED_BSWAP m = false /\ containers m = [] /\ body m = b /\
  hdr m = h /\ enclosing (root_container m) = 0 /\ BUS_MESSAGE_IS_GVARIANT m = false.
Proof.
  intros Hh Hb r m. destruct (frame_fields _ _ (frame_applys l (set_user_body_size (body_size r) r)))
    as (F1 & F2 & F3 & F4 & F5 & F6 & F7 & F8 & F9).
  assert (Hbody : body m = b).
  { unfold m, parsed, body. cbn [parts set_root_container]. rewrite F4.
    apply (body_received h (encode_fields false 0 l) b). }
  assert (Hv : BUS_MESSAGE_IS_GVARIANT m = false).
  { unfold BUS_MESSAGE_IS_GVARIANT, m, parsed. cbn [hdr set_root_container]. rewrite F1. simpl.
    destruct Hh as (_ & _ & _ & -> & _). done. }
  assert (He : enclosing (root_container m) = 0).
  { unfold m, parsed. cbn [root_container set_root_container set_c_end_ enclosing].
    by apply enclosing_applys. }
  split; [|split; [|split; [|split; [|split; [|split]]]]]; try done.
  - constructor.
    + exists true, false. rewrite Hbody. unfold m, parsed. cbn [parts set_root_container]. by rewrite F4.
    + unfold m, parsed. cbn [sealed set_root_container]. by rewrite F2.
    + done.
    + rewrite Hbody. unfold m, parsed. cbn [user_body_size set_root_container]. by rewrite F6.
    + by rewrite Hbody.
  - unfold BUS_MESSAGE_NEED_BSWAP, m, parsed. cbn [hdr set_root_container]. rewrite F1. simpl.
    by rewrite (proj1 Hh).
Qed.

Lemma members_appended vs m : fresh m -> members (appended vs m) = members m.
Proof.
  intros F. unfold appended, upd_last_container.
  assert (containers (grow (marshal_seq false 0 vs) m) = []) as -> by apply F. done.
Qed.

Lemma sig_fields_length s p : zlen s < 255 -> zlen (encode_fields false p (sig_fields s)) <= 7 + 5 + zlen s + 1 \/ p < 0.
Proof.
  intros Hs. destruct (Z_lt_dec p 0) as [|Hp]; [by right|left]. unfold sig_fields.
  pose proof (zlen_nonneg s). case_bool_decide; [change (zlen (encode_fields false p [])) with 0; lia|].
  unfold encode_fields. cbn [seq_with hfield_bytes]. rewrite app_nil_r.
  assert (H8 : is_align 8) by (unfold is_align; lia).
  pose proof (pad_bound p 8 H8 ltac:(lia)).
  rewrite !zlen_app, zpad_length by (done || lia). change (zlen [0]) with 1.
  change (zlen [_; _; _; _; _]) with 5. lia.
Qed.

Lemma sealed_header l vs m cookie timeout :
  sendable l m -> values_ok vs -> 0 < cookie <= 4294967295 ->
  let m2 := sealed_message cookie timeout (appended vs m) in
  header_ok (hdr m2) /\ h_body_size (hdr m2) = zlen (body m2) /\
  fields m2 = encode_fields false 0 (l ++ sig_fields (vtypes vs)) /\
  h_fields_size (hdr m2) = zlen (fields m2) /\ zlen (fields m2) < 2 ^ 31 /\
  h_type (hdr m2) = h_type (hdr m) /\ h_serial (hdr m2) = cookie /\
  body m2 = marshal_seq false 0 vs.
Proof.
  intros S (Hvs & Hl & Hsl & _) Hck m2.
  pose proof (s_fresh _ _ S) as F. pose proof (s_built _ _ S) as B. pose proof (s_size _ _ S) as Hsz.
  destruct (appended_facts vs m F Hvs) as (Hb & _ & Hbs & _ & _ & Hsig & Hh & Hf & _).
  set (m1 := appended vs m) in *. unfold BUS_ARRAY_MAX_SIZE in *.
  assert (Hs1 : default [] (signature (root_container m1)) = vtypes vs).
  { rewrite Hsig. by case_bool_decide; subst. }
  assert (Hfs : fields m2 = encode_fields false 0 (l ++ sig_fields (vtypes vs))).
  { unfold m2, sealed_message. cbn [fields set_sealed set_root_container set_timeout set_hdr
      set_user_body_size set_fields]. rewrite Hs1. apply sealed_fields_encode. rewrite Hf. apply B. }
  assert (Hlen : 0 <= zlen (fields m2) < 2 ^ 31).
  { split; [apply zlen_nonneg|]. rewrite Hfs, encode_fields_app, zlen_app, Z.add_0_l.
    unfold fields_size in Hsz. rewrite (b_fields _ _ B) in Hsz.
    pose proof (zlen_nonneg (encode_fields false 0 l)).
    destruct (sig_fields_length (vtypes vs) (zlen (encode_fields false 0 l)) Hsl); lia. }
  pose proof (zlen_nonneg (body m1)).
  assert (Hhdr : hdr m2 = set_h_serial cookie (set_h_fields_size (zlen (fields m2))
                   (set_h_body_size (zlen (body m1)) (hdr m)))).
  { unfold m2 at 1, sealed_message. cbn [hdr set_sealed set_root_container set_timeout set_hdr].
    change (zlen (sealed_fields _ m1)) with (zlen (fields m2)).
    assert (zlen (body m1) < 2 ^ 32) by (rewrite Hb; lia).
    by rewrite Hh, Hbs, (wrap_small 32 cookie), (wrap_small 32 (zlen (fields m2))),
      (wrap_small 32 (zlen (body m1))) by lia. }
  rewrite Hhdr. cbn [h_body_size h_fields_size h_type h_serial set_h_serial set_h_fields_size set_h_body_size].
  change (body m2) with (body m1). split; [|destruct Hlen; repeat (split; [done|]); done].
  unfold header_ok. cbn [h_endian h_flags h_version h_cookie h_body_size h_fields_size h_type h_serial
    set_h_serial set_h_fields_size set_h_body_size].
  pose proof (s_type _ _ S). pose proof (s_flags _ _ S).
  split; [apply F|]. split; [done|]. split; [done|]. split; [apply S|]. rewrite Hb in *.
  split; [lia|]. split; [lia|]. split; [lia|]. apply S.
Qed.

(** The message [r] that came over the wire is the one made of [m] and the values
    [vs]: the same header members, type and cookie, and reading it from the start
    returns the values, and then the end. *)
Definition arrived (m : message) (vs : list value) (cookie : Z) (r : message) : Prop :=
  members r = members m /\ h_type (hdr r) = h_type (hdr m) /\ BUS_MESSAGE_COOKIE r = cookie /\
  sd_bus_message_get_signature r true = vtypes vs /\
  exists b m4 m5,
    sd_bus_message_rewind true r = (Ok b, m4) /\
    read_values (vsizes vs) m4 = (Ok vs, m5) /\
    sd_bus_message_at_end m5 true = Ok true.

Lemma from_malloc_arrives l vs m cookie timeout :
  sendable l m -> values_ok vs -> 0 < cookie <= 4294967295 ->
  exists r, bus_message_from_malloc
    (bus_message_get_blob (sealed_message cookie timeout (appended vs m))) [] = Ok r /\
    arrived m vs cookie r.
Proof.
  intros S Hvals Hck. pose proof Hvals as (Hvs & Hl & Hsl & Hsv & Hd).
  pose proof (s_fresh _ _ S) as F. pose proof (s_built _ _ S) as B.
  destruct (sealed_header l vs m cookie timeout S Hvals Hck) as
    (Hhok & Hhb & Hfs & Hhf & Hfl & Hty & Hser & Hbody). cbv zeta in *.
  set (m1 := appended vs m) in *. set (m2 := sealed_message cookie timeout m1) in *.
  set (L := l ++ sig_fields (vtypes vs)) in *. rewrite Hfs in Hhf, Hfl.
  set (r := received (hdr m2) (encode_fields false 0 L) (body m2)
              (wire (hdr m2) (encode_fields false 0 L) (body m2))).
  set (m' := parsed L r).
  assert (Hmem : members m' = members m).
  { unfold m', parsed. change (members (set_root_container _ ?x)) with (members x).
    assert (Ev : view (set_user_body_size (body_size r) r) = view (blank m)) by done.
    pose proof (f_equal fst (view_applys L _ _ Ev)) as E. cbn [view fst] in E. rewrite E.
    unfold L. rewrite apply_fields_app, members_sig. symmetry. apply B. }
  destruct (parsed_readable (hdr m2) L (body m2) Hhok ltac:(by rewrite Hbody))
    as (R & Hbe & Hcn & Hbd & Hhd & Henc & Hgv). fold r in R, Hbe, Hcn, Hbd, Hhd, Henc, Hgv.
  fold m' in R, Hbe, Hcn, Hbd, Hhd, Henc, Hgv.
  destruct (members_facts m' m Hmem ltac:(by rewrite Hhd)) as [Hcomp Hloc].
  assert (Hparse : bus_message_from_malloc (bus_message_get_blob m2) [] = Ok (after_error_read m')).
  { unfold bus_message_get_blob, fields_size. rewrite Hfs.
    apply (from_malloc_fields (hdr m2) L (body m2)); try done.
    - by apply (top_fields_ok l vs m B Hvals).
    - fold r m'. rewrite Hcomp. apply S.
    - fold r m'. rewrite Hloc. apply S. }
  destruct (after_error_read_facts m' Hgv Hcn) as (G1 & G2 & G3 & G4 & G5 & G6 & G7).
  set (m3 := after_error_read m') in *.
  assert (Hsg : default [] (signature (root_container m3)) = vtypes vs).
  { rewrite G6. apply parsed_sig; [apply B|done]. }
  destruct (rewind_run m3) as [b Hrew]; [apply G4, R|].
  match type of Hrew with _ = (_, ?x) => set (m4 := x) in * end.
  assert (R4 : readable m4) by (destruct (G4 R); by constructor).
  destruct (read_values_run vs m4 Hvs R4) as (m5 & Hrd & Hend & _); try done.
  - by rewrite <- G7 in Henc.
  - change (body m4) with (body m3). change (BUS_MESSAGE_NEED_BSWAP m4) with (BUS_MESSAGE_NEED_BSWAP m3).
    unfold BUS_MESSAGE_NEED_BSWAP in *. rewrite G2, G3, Hbe, Hbd. done.
  - exists m3. split; [done|]. split; [by rewrite G1|]. split; [by rewrite G2, Hhd|].
    split; [|split; [done|]; exists b, m4, m5; done].
    unfold BUS_MESSAGE_COOKIE, BUS_MESSAGE_BSWAP, BUS_MESSAGE_NEED_BSWAP in *.
    rewrite G2, Hbe, Hhd. destruct Hhok as (_ & _ & _ & -> & _). done.
Qed.

(** C1. Round trip over the wire: values appended to a message under
    construction (with header fields [l], as the constructors make them), the
    message sealed, its bytes taken ([bus_message_get_blob]) and given to
    [bus_message_from_malloc], give a message with the same path, interface,
    member, destination, sender, error name and reply cookie, the same type and
    cookie and the values' signature, and reading it (from the start) returns
    exactly the values that were appended, and then the end. *)
Theorem wire_roundtrip l vs m cookie timeout :
  sendable l m -> values_ok vs -> 0 < cookie <= 4294967295 ->
  (h_type (hdr m) = SD_BUS_MESSAGE_METHOD_RETURN ->
     enforced_reply_signature m = None \/ enforced_reply_signature m = Some (vtypes vs)) ->
  exists m1 m2 m3 m4 m5 b,
    append_values vs m = (Ok tt, m1) /\
    sd_bus_message_seal cookie timeout m1 = (Ok tt, m2) /\
    bus_message_from_malloc (bus_message_get_blob m2) [] = Ok m3 /\
    members m3 = members m /\ h_type (hdr m3) = h_type (hdr m) /\
    BUS_MESSAGE_COOKIE m3 = cookie /\
    sd_bus_message_get_signature m3 true = vtypes vs /\
    sd_bus_message_rewind true m3 = (Ok b, m4) /\
    read_values (vsizes vs) m4 = (Ok vs, m5) /\
    sd_bus_message_at_end m5 true = Ok true.
Proof.
  intros S Hvals Hck Henf. pose proof Hvals as (Hvs & Hl & Hsl & _).
  destruct (append_seal_run vs m cookie timeout (s_fresh _ _ S) Hvs Hl ltac:(lia) ltac:(lia) (s_size _ _ S) Henf)
    as (Hrun1 & Hrun2 & _).
  destruct (from_malloc_arrives l vs m cookie timeout S Hvals Hck) as (m3 & Hp & H1 & H2 & H3 & H4 & b & m4 & m5 & H5 & H6 & H7).
  exists (appended vs m), (sealed_message cookie timeout (appended vs m)), m3, m4, m5, b. by split_and!.
Qed.
