(* ===== verification/MsgNew.v ===== *)
(** * The constructors make messages that can be sent

    [sd_bus_message_new_signal], [sd_bus_message_new_method_call] and the reply
    constructors: exactly on valid names they return a message whose header
    fields are those of their arguments, ready for values and for sealing. *)
From S2P Require Import Prelude BusType Signature Names Utf8 Gvariant MsgState MsgWrite MsgFields MsgRead MsgBody Marshal MsgAppend MsgReadback MsgRoundtrip MsgParse MsgWire.

(** ** One field more *)
Record growing (l : list hfield) (n : Z) (m : message) : Prop := Growing {
  g_fresh : fresh m;
  g_built : built l m;
  g_size : fields_size m <= n }.

Lemma fresh_apply f m : fresh m -> not_sig f -> fresh (apply_field f m).
Proof.
  intros F Hs. destruct F as [F1 F2 F3 F4 F5 F6 F7 F8 F9 F10].
  destruct f as [h t s|s|h x]; [|done|by constructor].
  constructor; unfold BUS_MESSAGE_IS_GVARIANT; simpl; repeat case_match; done.
Qed.

Lemma built_step l f m x :
  fresh m -> built l m -> not_sig f -> field_ok (apply_fields l (blank m)) f ->
  x = hfield_bytes false f ->
  built (l ++ [f]) (apply_field f (set_fields (fields m ++ zpad (fields_size m) 8 ++ x) m)).
Proof.
  intros F B Hs Hok ->. set (m1 := set_fields _ m).
  assert (Hf : fields (apply_field f m1) = fields m1) by apply apply_fields_facts.
  assert (Hv : view m1 = view (apply_fields l (blank m))).
  { unfold view. rewrite not_sig_root by apply B. change (members m1) with (members m).
    rewrite (b_members _ _ B). f_equal. unfold m1. simpl. by rewrite (f_root m F). }
  constructor.
  - rewrite Hf. unfold m1. cbn [fields set_fields]. unfold fields_size.
    rewrite (b_fields _ _ B), encode_fields_app, Z.add_0_l. unfold encode_fields at 4.
    cbn [seq_with]. by rewrite app_nil_r.
  - pose proof (f_equal fst (view_apply f _ _ Hv)) as E. cbn [view fst] in E. rewrite E.
    rewrite apply_fields_app.
    assert (Ew : view (apply_field f (apply_fields l (blank m))) =
                 view (apply_field f (apply_fields l (blank (apply_field f m1)))))
      by (by apply view_apply, view_applys).
    exact (f_equal fst Ew).
  - apply (fields_ok_view _ (blank m)); [done|]. apply fields_ok_app. split; [apply B|]. done.
  - apply Forall_app. split; [apply B|]. by constructor.
Qed.

(** [append_string_field] adds its field to the header. *)
Lemma append_string_step l n h t s set m :
  growing l n m -> n + zlen s + 16 < 2 ^ 30 -> 0 < h < 256 ->
  field_ok (apply_fields l (blank m)) (HString h t s) ->
  (forall m, set (Some s) m = apply_field (HString h t s) m) ->
  exists m', append_string_field h t s set m = (Ok tt, m') /\
    growing (l ++ [HString h t s]) (n + zlen s + 16) m' /\ hdr m' = hdr m /\
    enforced_reply_signature m' = enforced_reply_signature m.
Proof.
  intros [F B Hn] Hsz Hh Hok Hset. pose proof (zlen_nonneg s).
  assert (0 <= fields_size m) by apply zlen_nonneg.
  set (f := HString h t s) in *. set (x := hfield_bytes false f).
  assert (Hx : zlen x = zlen s + 9).
  { unfold x. cbn [f hfield_bytes]. rewrite !zlen_app, zlen_word4. change (zlen [0]) with 1.
    change (zlen [_; _; _; _]) with 4. lia. }
  exists (apply_field f (set_fields (fields m ++ zpad (fields_size m) 8 ++ x) m)).
  split; [|split; [|split]].
  - unfold append_string_field. erewrite stm_bind_run.
    2: { unfold message_append_field_string. erewrite stm_bind_run by reflexivity.
         rewrite (proj2 (Z.ltb_ge 255 h)), (proj2 (Z.ltb_ge UINT32_MAX (zlen s)))
           by (unfold UINT32_MAX; lia).
         do 2 erewrite stm_bind_run by reflexivity. rewrite (f_version m F).
         apply append_field_run; [apply F| |done].
         rewrite !zlen_app. change (zlen (le_bytes 4 _)) with 4. change (zlen [0]) with 1.
         change (zlen [_; _; _; _]) with 4. lia. }
    unfold smod. rewrite Hset. f_equal. fold f. do 4 f_equal. unfold x. cbn [f hfield_bytes].
    by rewrite (wrap_small 8 h) by lia.
  - constructor.
    + apply fresh_apply; [|done]. destruct F. by constructor.
    + by apply built_step.
    + unfold fields_size in *.
      rewrite (proj1 (apply_fields_facts f (set_fields (fields m ++ zpad (zlen (fields m)) 8 ++ x) m))).
      cbn [fields set_fields].
      assert (H8 : is_align 8) by (unfold is_align; lia).
      pose proof (pad_bound (zlen (fields m)) 8 H8 ltac:(done)).
      rewrite !zlen_app, zpad_length by done. lia.
  - unfold f. simpl. by repeat case_match.
  - unfold f. simpl. by repeat case_match.
Qed.

Lemma opt_string_step l n h o set m :
  growing l n m -> n + zlen (default [] o) + 16 < 2 ^ 30 -> 0 < h < 256 ->
  (forall s, o = Some s -> field_ok (apply_fields l (blank m)) (HString h SD_BUS_TYPE_STRING s)) ->
  (forall s m, set (Some s) m = apply_field (HString h SD_BUS_TYPE_STRING s) m) ->
  exists m', opt_string_field h o set m = (Ok tt, m') /\
    growing (l ++ match o with Some s => [HString h SD_BUS_TYPE_STRING s] | None => [] end)
      (n + zlen (default [] o) + 16) m' /\ hdr m' = hdr m /\
    enforced_reply_signature m' = enforced_reply_signature m.
Proof.
  intros G Hn Hh Hok Hset. destruct o as [s|]; cbn [default] in *; unfold opt_string_field.
  - apply append_string_step; auto.
  - exists m. split; [done|]. rewrite app_nil_r. split; [|done]. destruct G. constructor; [done|done|].
    change (zlen []) with 0. lia.
Qed.

(** ** A new message *)
Lemma message_new_run bus type :
  bus_state_of bus <> BUS_UNSET -> message_version bus = 1 -> type < _SD_BUS_MESSAGE_TYPE_MAX ->
  exists m, sd_bus_message_new bus type = Ok m /\ growing [] 0 m /\
    h_type (hdr m) = type /\ 0 <= h_flags (hdr m) < 8 /\ h_version (hdr m) = 1 /\
    h_cookie (hdr m) = 0 /\ enforced_reply_signature m = None /\ members m = members (blank m).
Proof.
  intros Hb Hv Ht. unfold sd_bus_message_new.
  rewrite (bool_decide_eq_false_2 (bus_state_of bus = BUS_UNSET)) by done.
  rewrite (proj2 (Z.ltb_lt _ _)) by done. cbn [negb require mbind res_bind].
  eexists. split; [reflexivity|]. split.
  - constructor.
    + constructor; try done; unfold BUS_MESSAGE_IS_GVARIANT; simpl; by rewrite Hv.
    + by constructor.
    + done.
  - simpl. repeat (split; [done|]). split; [|done]. by case_match.
Qed.

Lemma growing_or_flag l n f m : growing l n m -> growing l n (or_flag f m).
Proof.
  intros [F B Hn]. constructor; [destruct F; by constructor| |done].
  destruct B as [B1 B2 B3 B4]. constructor; [done| | |done].
  - change (members (or_flag f m)) with (members m). rewrite B2.
    exact (f_equal fst (view_applys l (blank m) (blank (or_flag f m)) eq_refl)).
  - by apply (fields_ok_view _ (blank m)).
Qed.

Lemma growing_sendable l n m :
  growing l n m -> n < 2 ^ 30 -> 0 < h_type (hdr m) < 256 -> 0 <= h_flags (hdr m) < 256 ->
  h_version (hdr m) = 1 -> h_cookie (hdr m) = 0 -> fields_complete m = true ->
  claims_local m = false -> sendable l m.
Proof. intros [F B Hn]. intros. constructor; try done. lia. Qed.

Lemma lor_flag_bound x : 0 <= x < 8 -> 0 <= Z.lor x BUS_MESSAGE_NO_REPLY_EXPECTED < 256.
Proof.
  intros Hx. assert (x = 0 \/ x = 1 \/ x = 2 \/ x = 3 \/ x = 4 \/ x = 5 \/ x = 6 \/ x = 7) as H by lia.
  destruct H as [->|[->|[->|[->|[->|[->|[->| ->]]]]]]]; done.
Qed.

Definition local_path : cstr := bs "/org/freedesktop/DBus/Local".
Definition local_interface : cstr := bs "org.freedesktop.DBus.Local".

(** [sd_bus_message_new_signal] on a bus of the D-Bus 1 protocol: -EINVAL
    exactly when a name is invalid; otherwise a signal whose header fields are
    the path, the interface and the member, in that order and nothing else, and
    which is ready to have values appended, be sealed and be parsed again by
    the receiver (unless it uses the reserved local names). *)
Theorem new_signal_spec bus p i mem :
  bus_state_of bus <> BUS_UNSET -> message_version bus = 1 ->
  is_cstr p -> is_cstr i -> is_cstr mem -> zlen p + zlen i + zlen mem < 2 ^ 29 ->
  let valid := object_path_is_valid p && interface_name_is_valid i && member_name_is_valid mem in
  (valid = false -> sd_bus_message_new_signal bus p i mem = Err EINVAL) /\
  (valid = true -> exists m,
     sd_bus_message_new_signal bus p i mem = Ok m /\
     path m = Some p /\ interface m = Some i /\ member m = Some mem /\ destination m = None /\
     sd_bus_message_is_signal m (Some i) (Some mem) = true /\
     (p <> local_path -> i <> local_interface ->
      sendable [HString BUS_MESSAGE_HEADER_PATH SD_BUS_TYPE_OBJECT_PATH p;
                HString BUS_MESSAGE_HEADER_INTERFACE SD_BUS_TYPE_STRING i;
                HString BUS_MESSAGE_HEADER_MEMBER SD_BUS_TYPE_STRING mem] m)).
Proof.
  intros Hb Hv Hp Hi Hm Hsz. pose proof (zlen_nonneg p). pose proof (zlen_nonneg i).
  pose proof (zlen_nonneg mem). cbv zeta. unfold sd_bus_message_new_signal.
  rewrite (bool_decide_eq_false_2 (bus_state_of bus = BUS_UNSET)) by done. cbn [negb require mbind res_bind].
  destruct (object_path_is_valid p) eqn:Ep; [|by split]. cbn [require mbind res_bind].
  destruct (interface_name_is_valid i) eqn:Ei; [|by split]. cbn [require mbind res_bind].
  destruct (member_name_is_valid mem) eqn:Em; [|by split]. cbn [require mbind res_bind andb].
  split; [done|]. intros _.
  destruct (message_new_run bus SD_BUS_MESSAGE_SIGNAL Hb Hv) as
    (t & -> & G0 & Ht & Hfl & Hver & Hck & _); [done|].
  cbn [or_enomem mbind res_bind]. apply (growing_or_flag _ _ BUS_MESSAGE_NO_REPLY_EXPECTED) in G0.
  set (m0 := or_flag BUS_MESSAGE_NO_REPLY_EXPECTED t) in *.
  destruct (append_string_step [] 0 BUS_MESSAGE_HEADER_PATH SD_BUS_TYPE_OBJECT_PATH p set_path m0)
    as (m1 & R1 & G1 & Hd1 & _); [done|lia|done| |done|].
  { cbn. unfold UINT32_MAX. split; [done|]. split; [lia|]. left. done. }
  destruct (append_string_step _ _ BUS_MESSAGE_HEADER_INTERFACE SD_BUS_TYPE_STRING i set_interface m1 G1)
    as (m2 & R2 & G2 & Hd2 & _); [lia|done| |done|].
  { cbn. unfold UINT32_MAX. split; [done|]. split; [lia|]. right. split; [done|]. left. done. }
  destruct (append_string_step _ _ BUS_MESSAGE_HEADER_MEMBER SD_BUS_TYPE_STRING mem set_member m2 G2)
    as (m3 & R3 & G3 & Hd3 & _); [lia|done| |done|].
  { cbn. unfold UINT32_MAX. split; [done|]. split; [lia|]. right. split; [done|]. right. left. done. }
  exists m3. split.
  { unfold build. erewrite stm_bind_run by exact R1. erewrite stm_bind_run by exact R2. by rewrite R3. }
  cbn [app] in G3. pose proof (b_members _ _ (g_built _ _ _ G3)) as Hmem. cbn in Hmem.
  unfold members in Hmem. injection Hmem as E1 E2 E3 E4 E5 E6 E7. cbn in E1, E2, E3, E4, E5, E6, E7.
  assert (Hhd : h_type (hdr m3) = SD_BUS_MESSAGE_SIGNAL) by (rewrite Hd3, Hd2, Hd1; done).
  rewrite E1, E2, E3, E4. repeat (split; [done|]). split.
  - unfold sd_bus_message_is_signal, matches. rewrite Hhd, E2, E3, Z.eqb_refl.
    by rewrite !bool_decide_eq_true_2.
  - intros Hlp Hli. apply (growing_sendable _ _ _ G3).
    + lia.
    + by rewrite Hhd.
    + rewrite Hd3, Hd2, Hd1. unfold m0, or_flag. cbn [hdr set_hdr h_flags set_h_flags].
      by apply lor_flag_bound.
    + by rewrite Hd3, Hd2, Hd1.
    + by rewrite Hd3, Hd2, Hd1.
    + unfold fields_complete. rewrite Hhd, E1, E2, E3, E7. done.
    + unfold claims_local. rewrite E1, E2, E5.
      rewrite !bool_decide_eq_false_2; [done|done| |]; intros [= ->]; done.
Qed.

Definition opt_field (h : Z) (o : option cstr) : list hfield :=
  match o with Some s => [HString h SD_BUS_TYPE_STRING s] | None => [] end.

Definition opt_cstr (o : option cstr) : Prop := match o with Some s => is_cstr s | None => True end.

(** [sd_bus_message_new_method_call]: -EINVAL exactly when a given name is
    invalid; otherwise a method call with path and member and, when given, the
    interface and the destination, ready to be filled, sealed and parsed. *)
Theorem new_method_call_spec bus dest p i mem :
  bus_state_of bus <> BUS_UNSET -> message_version bus = 1 ->
  is_cstr p -> is_cstr mem -> opt_cstr i -> opt_cstr dest ->
  zlen p + zlen (default [] i) + zlen mem + zlen (default [] dest) < 2 ^ 29 ->
  let valid := opt_valid service_name_is_valid dest && object_path_is_valid p &&
               opt_valid interface_name_is_valid i && member_name_is_valid mem in
  (valid = false -> sd_bus_message_new_method_call bus dest p i mem = Err EINVAL) /\
  (valid = true -> exists m,
     sd_bus_message_new_method_call bus dest p i mem = Ok m /\
     path m = Some p /\ interface m = i /\ member m = Some mem /\ destination m = dest /\
     sd_bus_message_is_method_call m i (Some mem) = true /\
     (p <> local_path -> i <> Some local_interface ->
      sendable ([HString BUS_MESSAGE_HEADER_PATH SD_BUS_TYPE_OBJECT_PATH p;
                 HString BUS_MESSAGE_HEADER_MEMBER SD_BUS_TYPE_STRING mem] ++
                opt_field BUS_MESSAGE_HEADER_INTERFACE i ++
                opt_field BUS_MESSAGE_HEADER_DESTINATION dest) m)).
Proof.
  intros Hb Hv Hp Hm Hi Hde Hsz. pose proof (zlen_nonneg p). pose proof (zlen_nonneg mem).
  pose proof (zlen_nonneg (default [] i)). pose proof (zlen_nonneg (default [] dest)).
  cbv zeta. unfold sd_bus_message_new_method_call.
  rewrite (bool_decide_eq_false_2 (bus_state_of bus = BUS_UNSET)) by done. cbn [negb require mbind res_bind].
  destruct (opt_valid service_name_is_valid dest) eqn:Ed; [|by split]. cbn [require mbind res_bind].
  destruct (object_path_is_valid p) eqn:Ep; [|by split]. cbn [require mbind res_bind].
  destruct (opt_valid interface_name_is_valid i) eqn:Ei; [|by split]. cbn [require mbind res_bind].
  destruct (member_name_is_valid mem) eqn:Em; [|by split]. cbn [require mbind res_bind andb].
  split; [done|]. intros _.
  destruct (message_new_run bus SD_BUS_MESSAGE_METHOD_CALL Hb Hv) as
    (t & -> & G0 & Ht & Hfl & Hver & Hck & _); [done|]. cbn [or_enomem mbind res_bind].
  destruct (append_string_step [] 0 BUS_MESSAGE_HEADER_PATH SD_BUS_TYPE_OBJECT_PATH p set_path t)
    as (m1 & R1 & G1 & Hd1 & _); [done|lia|done| |done|].
  { cbn. unfold UINT32_MAX. split; [done|]. split; [lia|]. left. done. }
  destruct (append_string_step _ _ BUS_MESSAGE_HEADER_MEMBER SD_BUS_TYPE_STRING mem set_member m1 G1)
    as (m2 & R2 & G2 & Hd2 & _); [lia|done| |done|].
  { cbn. unfold UINT32_MAX. split; [done|]. split; [lia|]. right. split; [done|]. right. left. done. }
  destruct (opt_string_step _ _ BUS_MESSAGE_HEADER_INTERFACE i set_interface m2 G2)
    as (m3 & R3 & G3 & Hd3 & _); [lia|done| |done|].
  { intros s ->. cbn in *. unfold UINT32_MAX. split; [done|]. split; [lia|]. right.
    split; [done|]. left. done. }
  destruct (opt_string_step _ _ BUS_MESSAGE_HEADER_DESTINATION dest set_destination m3 G3)
    as (m4 & R4 & G4 & Hd4 & _); [lia|done| |done|].
  { intros s ->. cbn [opt_valid opt_cstr] in Ed, Hde.
    change (default [] (Some s)) with s in Hsz. unfold field_ok, UINT32_MAX.
    split; [done|]. split; [lia|]. right. split; [done|]. do 3 right. left.
    split; [done|]. split; [by destruct i|done]. }
  exists m4. split.
  { unfold build. erewrite stm_bind_run by exact R1. erewrite stm_bind_run by exact R2.
    erewrite stm_bind_run by exact R3. by rewrite R4. }
  rewrite <- app_assoc in G4. cbn [app] in G4.
  pose proof (b_members _ _ (g_built _ _ _ G4)) as Hmem.
  assert (Hmem' : members m4 = (Some p, i, Some mem, dest, None, None, 0))
    by (rewrite Hmem; by destruct i, dest).
  unfold members in Hmem'. injection Hmem' as E1 E2 E3 E4 E5 E6 E7.
  assert (Hhd : hdr m4 = hdr t) by (by rewrite Hd4, Hd3, Hd2, Hd1).
  rewrite E1, E2, E3, E4. repeat (split; [done|]). split.
  - unfold sd_bus_message_is_method_call, matches. rewrite Hhd, Ht, E2, E3, Z.eqb_refl.
    destruct i; by rewrite ?bool_decide_eq_true_2.
  - intros Hlp Hli. apply (growing_sendable _ _ _ G4); rewrite ?Hhd, ?Ht; try done; try lia.
    + unfold fields_complete. rewrite Hhd, Ht, E1, E3, E7. done.
    + unfold claims_local. rewrite E1, E2, E5.
      rewrite !bool_decide_eq_false_2; [done|done| |]; [done|]. intros [= ->]. done.
Qed.

(** The reply cookie as a header field. *)
Lemma reply_cookie_step n m c :
  growing [] n m -> n + 32 < 2 ^ 30 -> 0 < c <= UINT32_MAX ->
  exists m', message_append_reply_cookie c (set_reply_cookie c m) = (Ok tt, m') /\
    growing [HU32 BUS_MESSAGE_HEADER_REPLY_SERIAL c] (n + 16) m' /\ hdr m' = hdr m /\
    enforced_reply_signature m' = enforced_reply_signature m.
Proof.
  intros [F B Hn] Hsz Hc. unfold UINT32_MAX in Hc.
  assert (0 <= fields_size m) by apply zlen_nonneg.
  set (f := HU32 BUS_MESSAGE_HEADER_REPLY_SERIAL c). set (x := hfield_bytes false f).
  exists (apply_field f (set_fields (fields m ++ zpad (fields_size m) 8 ++ x) m)).
  assert (Hv : BUS_MESSAGE_IS_GVARIANT (set_reply_cookie c m) = false) by apply F.
  split; [|split; [|done]].
  - unfold message_append_reply_cookie. erewrite stm_bind_run by reflexivity. rewrite Hv.
    rewrite (proj2 (Z.ltb_ge _ _)) by lia. erewrite stm_bind_run by reflexivity.
    unfold message_append_field_uint32. do 2 erewrite stm_bind_run by reflexivity. rewrite Hv.
    rewrite (wrap_small 32 c) by lia.
    rewrite append_field_run; [done|apply F| |done]. change (fields_size (set_reply_cookie c m)) with (fields_size m).
    change (zlen _) with 8. lia.
  - constructor.
    + apply fresh_apply; [|done]. destruct F. by constructor.
    + by apply (built_step [] f m x).
    + unfold fields_size in *. cbn [f apply_field fields set_reply_cookie set_fields].
      assert (H8 : is_align 8) by (unfold is_align; lia).
      pose proof (pad_bound (zlen (fields m)) 8 H8 ltac:(done)).
      rewrite !zlen_app, zpad_length by done. change (zlen x) with 8. lia.
Qed.

(** C6. [sd_bus_message_new_method_return] for a method call that was received
    (sealed, with a cookie): a method return carrying the call's cookie as its
    reply cookie and the call's sender as its destination, which is not sent
    when the call expects no reply, and is ready to be filled, sealed and
    parsed. For anything but a sealed method call it is refused. *)
Theorem new_method_return_spec bus call :
  bus_state_of bus <> BUS_UNSET -> message_version bus = 1 ->
  0 < BUS_MESSAGE_COOKIE call <= UINT32_MAX ->
  opt_cstr (sender call) -> opt_valid service_name_is_valid (sender call) = true ->
  zlen (default [] (sender call)) < 2 ^ 29 ->
  (sealed call = false -> sd_bus_message_new_method_return bus call = Err EPERM) /\
  (sealed call = true -> h_type (hdr call) <> SD_BUS_MESSAGE_METHOD_CALL ->
     sd_bus_message_new_method_return bus call = Err EINVAL) /\
  (sealed call = true -> h_type (hdr call) = SD_BUS_MESSAGE_METHOD_CALL -> exists m,
     sd_bus_message_new_method_return bus call = Ok m /\
     reply_cookie m = BUS_MESSAGE_COOKIE call /\ destination m = sender call /\
     dont_send m = negb (sd_bus_message_get_expect_reply call) /\
     enforced_reply_signature m = enforced_reply_signature call /\
     h_type (hdr m) = SD_BUS_MESSAGE_METHOD_RETURN /\
     sendable ([HU32 BUS_MESSAGE_HEADER_REPLY_SERIAL (BUS_MESSAGE_COOKIE call)] ++
               opt_field BUS_MESSAGE_HEADER_DESTINATION (sender call)) m).
Proof.
  intros Hb Hv Hc Hs Hsv Hsz. pose proof (zlen_nonneg (default [] (sender call))).
  unfold sd_bus_message_new_method_return, message_new_reply.
  split; [by intros ->|]. split; [intros -> Hty; by rewrite (proj2 (Z.eqb_neq _ _) Hty)|].
  intros -> Hty. rewrite Hty, Z.eqb_refl.
  rewrite (bool_decide_eq_false_2 (bus_state_of bus = BUS_UNSET)) by done.
  cbn [negb require mbind res_bind]. rewrite (proj2 (Z.eqb_neq _ _)) by lia.
  destruct (message_new_run bus SD_BUS_MESSAGE_METHOD_RETURN Hb Hv) as
    (t & -> & G0 & Ht & Hfl & Hver & Hck & _); [done|]. cbn [or_enomem mbind res_bind].
  apply (growing_or_flag _ _ BUS_MESSAGE_NO_REPLY_EXPECTED) in G0.
  set (m0 := or_flag BUS_MESSAGE_NO_REPLY_EXPECTED t) in *.
  destruct (reply_cookie_step 0 m0 (BUS_MESSAGE_COOKIE call) G0) as (m1 & R1 & G1 & Hd1 & _); [lia|done|].
  destruct (opt_string_step _ _ BUS_MESSAGE_HEADER_DESTINATION (sender call) set_destination m1 G1)
    as (m2 & R2 & G2 & Hd2 & _); [lia|done| |done|].
  { intros s Es. rewrite Es in *. cbn in *. unfold UINT32_MAX. split; [done|]. split; [lia|]. right.
    split; [done|]. do 3 right. left. done. }
  unfold build. erewrite stm_bind_run by exact R1. erewrite stm_bind_run by exact R2.
  cbn. eexists. split; [reflexivity|].
  pose proof (b_members _ _ (g_built _ _ _ G2)) as Hmem.
  assert (Hmem' : members m2 = (None, None, None, sender call, None, None, BUS_MESSAGE_COOKIE call))
    by (rewrite Hmem; by destruct (sender call)).
  unfold members in Hmem'. injection Hmem' as E1 E2 E3 E4 E5 E6 E7.
  assert (Hhd : hdr m2 = hdr m0) by (by rewrite Hd2, Hd1).
  assert (Hhd' : h_type (hdr m2) = SD_BUS_MESSAGE_METHOD_RETURN) by (rewrite Hhd; done).
  cbn. split; [done|]. split; [done|]. split.
  { unfold sd_bus_message_get_expect_reply, has_flag. rewrite Hty, Z.eqb_refl.
    by rewrite andb_true_l, !negb_involutive. }
  split; [done|]. split; [done|].
  destruct G2 as [F2 B2 Hn2]. constructor; cbn; try done.
  - destruct F2. by constructor.
  - destruct B2 as [B21 B22 B23 B24]. constructor; [done| | |done].
    + change (members (set_enforced_reply_signature _ (set_dont_send _ m2))) with (members m2).
      rewrite B22.
      match goal with |- _ = members (apply_fields ?fs (blank ?x)) =>
        exact (f_equal fst (view_applys fs (blank m2) (blank x) eq_refl)) end.
    + by apply (fields_ok_view _ (blank m2)).
  - by rewrite Hhd'.
  - rewrite Hhd. unfold m0, or_flag. cbn [hdr set_hdr h_flags set_h_flags]. by apply lor_flag_bound.
  - by rewrite Hhd.
  - by rewrite Hhd.
  - unfold fields_size in *. cbn. lia.
  - unfold fields_complete. cbn. rewrite Hhd', E7. cbn. by rewrite (proj2 (Z.eqb_neq _ _)) by lia.
  - unfold claims_local. cbn. rewrite E1, E2, E5. done.
Qed.
