(* ===== verification/MsgSafety.v ===== *)
(** * Untrusted messages

    Parsing the bytes of a D-Bus 1 message and reading its body with whatever
    calls a client makes never fails an assertion, never leaves the body and
    never changes anything but the read position and the open containers. *)
From S2P Require Import Prelude BusType Signature Names Utf8 Gvariant MsgState MsgWrite MsgFields MsgRead MsgBody Marshal MsgAppend MsgReadback MsgRoundtrip MsgParse MsgWire.

(** ** Words *)
Lemma BSWAP_bound m n x :
  0 <= x < 2 ^ (8 * Z.of_nat n) -> 0 <= BUS_MESSAGE_BSWAP m n x < 2 ^ (8 * Z.of_nat n).
Proof. intros. unfold BUS_MESSAGE_BSWAP. by case_match; [apply bswap_bound|]. Qed.

Lemma word_bound m (n : nat) q :
  Forall is_byte q -> zlen q = Z.of_nat n ->
  0 <= BUS_MESSAGE_BSWAP m n (le_val q) < 2 ^ (8 * Z.of_nat n).
Proof. intros. apply BSWAP_bound. by apply le_val_bytes. Qed.

Lemma zlen_take_drop {A} (l : list A) i n :
  0 <= i -> 0 <= n -> i + n <= zlen l -> zlen (take (Z.to_nat n) (drop (Z.to_nat i) l)) = n.
Proof. intros. unfold zlen in *. rewrite length_take, length_drop. lia. Qed.

Lemma bytes_take_drop (l : list Z) i n : Forall is_byte l -> Forall is_byte (take n (drop i l)).
Proof. intros. by apply Forall_take, Forall_drop. Qed.

(** ** The header *)
Record header_input (m : message) : Prop := HeaderInput {
  hi_bytes : Forall is_byte (fields m);
  hi_limit : zlen (fields m) < 2 ^ 33;
  hi_version : BUS_MESSAGE_IS_GVARIANT m = false }.

(** What a peek returns: the position after it and its bytes. *)
Definition peeked (ri n hi : Z) (x : Z * list Z) : Prop :=
  ri + n <= fst x <= hi /\ zlen (snd x) = n /\ Forall is_byte (snd x).

Lemma peek_fields_safe m ri a n :
  header_input m -> is_align a -> 0 <= ri <= zlen (fields m) -> 0 <= n <= 2 ^ 33 ->
  safe (peeked ri n (zlen (fields m))) (message_peek_fields m ri a n).
Proof.
  intros H Ha Hri Hn. unfold message_peek_fields, buffer_peek.
  pose proof (hi_limit m H). pose proof (pad_bound ri a Ha ltac:(lia)) as Hp. unfold pad in Hp.
  assert (1 <= a <= 8) by (destruct Ha as [->|[->|[->| ->]]]; lia).
  rewrite ALIGN_TO_up by (done || lia). rewrite wrap_small by lia.
  destruct (Z.ltb_spec (zlen (fields m)) (align_up ri a + n)); [done|].
  case_match; [done|]. cbn [safe]. split; [|split]; simpl.
  - lia.
  - apply zlen_take_drop; lia.
  - apply bytes_take_drop. apply H.
Qed.

Lemma is_align1 : is_align 1. Proof. unfold is_align; lia. Qed.
Lemma is_align4 : is_align 4. Proof. unfold is_align; lia. Qed.
Lemma is_align8 : is_align 8. Proof. unfold is_align; lia. Qed.
#[local] Hint Resolve is_align1 is_align4 is_align8 : core.

(** A position in the fields, not before [ri]. *)
Definition after (m : message) (ri : Z) (x : Z) : Prop := ri <= x <= zlen (fields m).

Lemma peek_field_uint32_safe m ri k :
  header_input m -> 0 <= ri <= zlen (fields m) ->
  safe (fun x => after m (ri + 4) (fst x) /\ 0 <= snd x < 2 ^ 32) (message_peek_field_uint32 m ri k).
Proof.
  intros H Hri. unfold message_peek_field_uint32. rewrite (hi_version m H). cbn [andb negb require mbind res_bind].
  eapply safe_bind; [apply (peek_fields_safe m ri 4 4 H); auto; lia|].
  intros [e q] (He & Hq & Hb); simpl in *. split; [done|]. by apply (word_bound m 4).
Qed.

Lemma peek_field_string_safe m v ri k :
  header_input m -> 0 <= ri <= zlen (fields m) ->
  safe (fun x => after m (ri + 5) (fst x)) (message_peek_field_string m v ri k).
Proof.
  intros H Hri. unfold message_peek_field_string. rewrite (hi_version m H).
  eapply (safe_bind (fun x => after m (ri + 5) (fst (fst x)))).
  - eapply safe_bind; [by apply peek_field_uint32_safe|]. intros [e l] [He Hl]; cbn [fst snd] in *.
    unfold after in *.
    destruct (Z.eqb_spec l UINT32_MAX); [done|]. cbn [negb require mbind res_bind].
    eapply safe_bind; [apply (peek_fields_safe m e 1 (l + 1) H); auto; lia|].
    intros [e' q] (He' & _); simpl in *. lia.
  - intros [[e l] q] He; simpl in *. eapply safe_bind; [by apply (safe_require _ _ (fun _ => True))|].
    done.
Qed.

Lemma peek_field_signature_safe m ri k :
  header_input m -> 0 <= ri <= zlen (fields m) ->
  safe (fun x => after m (ri + 2) (fst x)) (message_peek_field_signature m ri k).
Proof.
  intros H Hri. unfold message_peek_field_signature. rewrite (hi_version m H).
  eapply (safe_bind (fun x => after m (ri + 2) (fst (fst x)))).
  - eapply safe_bind; [apply (peek_fields_safe m ri 1 1 H); auto; lia|].
    intros [e q] (He & Hq & Hb); cbn [fst snd] in *. pose proof (le_val_bytes 1 q Hb Hq).
    destruct (Z.eqb_spec (le_val q) 255); [done|]. cbn [negb require mbind res_bind].
    eapply safe_bind; [apply (peek_fields_safe m e 1 (le_val q + 1) H); auto; lia|].
    intros [e' q'] (He' & _); simpl in *. unfold after. lia.
  - intros [[e l] q] He; simpl in *. eapply safe_bind; [by apply (safe_require _ _ (fun _ => True))|].
    done.
Qed.

Lemma alignment_safe c : safe is_align (bus_type_get_alignment c).
Proof. unfold bus_type_get_alignment. repeat case_match; simpl; unfold is_align; auto. Qed.

Lemma element_length_safe s : safe (fun _ => True) (signature_element_length s).
Proof.
  destruct (signature_element_length s) as [l|e] eqn:E; [done|]. by apply sel_err in E as ->.
Qed.

(** The codes [SD_BUS_TYPE_STRUCT] and [SD_BUS_TYPE_DICT_ENTRY] start no type. *)
Lemma element_length_alien s :
  deref s = SD_BUS_TYPE_STRUCT \/ deref s = SD_BUS_TYPE_DICT_ENTRY ->
  signature_element_length s = Err EINVAL.
Proof.
  intros Hd. unfold signature_element_length.
  destruct (signature_element_length_internal s true 0 0) as [n|e] eqn:E.
  - apply sel_spec in E as (t & r & -> & _ & Ht). exfalso.
    destruct Ht as [d a s c Hb| | | |]; simpl in Hd; try (by destruct Hd).
    destruct Hd; subst; done.
  - by apply sel_err in E as ->.
Qed.

(** The fuel of [message_skip_fields] is enough: every step reads a byte. *)
Lemma skip_loop_safe m : header_input m -> forall fuel oi ri n s,
  0 <= oi <= ri -> ri <= zlen (fields m) -> zlen (fields m) - ri < Z.of_nat fuel ->
  safe (fun x => after m ri (fst x)) (skip_loop fuel m oi ri n s).
Proof.
  intros H. induction fuel as [|fuel IH]; intros oi ri n s Hoi Hri Hf; [lia|].
  pose proof (zlen_nonneg (fields m)).
  assert (Hend : safe (fun x => after m ri (fst x)) (Ok (ri, s))) by (simpl; unfold after; lia).
  assert (Hmono : forall ri' (r : res (Z * cstr)), ri <= ri' ->
    safe (fun x => after m ri' (fst x)) r -> safe (fun x => after m ri (fst x)) r).
  { intros ri' r Hle Hs. eapply safe_mono; [exact Hs|]. unfold after. intros; lia. }
  assert (Hnext : forall ri' s', ri < ri' <= zlen (fields m) ->
    safe (fun x => after m ri (fst x)) (skip_loop fuel m oi ri' n s')).
  { intros ri' s' Hr. apply (Hmono ri'); [lia|]. apply IH; lia. }
  assert (Hin : forall ri' n' s', ri < ri' <= zlen (fields m) ->
    safe (fun x => after m ri' (fst x)) (skip_loop fuel m ri' ri' n' s')).
  { intros ri' n' s' Hr. apply IH; lia. }
  cbn [skip_loop]. destruct (_ && _); [done|]. cbv zeta.
  destruct (_ =? 0); [done|].
  assert (Hstep : forall r : res (Z * cstr), safe (fun x => after m (ri + 2) (fst x)) r ->
    safe (fun x => after m ri (fst x))
      (r ≫= fun '(ri, _) => skip_loop fuel m oi ri n (drop 1 s))).
  { intros r Hr. eapply safe_bind; [exact Hr|]. intros [e q] He. apply Hnext. unfold after in He. simpl in He. lia. }
  assert (H5 : forall v, safe (fun x => after m (ri + 2) (fst x)) (message_peek_field_string m v ri 0)).
  { intros v. eapply safe_mono; [by apply peek_field_string_safe; [done|lia]|]. unfold after. intros; lia. }
  destruct (_ =? SD_BUS_TYPE_STRING) eqn:Es; [by apply Hstep|].
  destruct (_ =? SD_BUS_TYPE_OBJECT_PATH) eqn:Eo; [by apply Hstep|].
  destruct (_ =? SD_BUS_TYPE_SIGNATURE) eqn:Eg; [apply Hstep; by apply peek_field_signature_safe; [done|lia]|].
  destruct (bus_type_is_basic (deref s)) eqn:Eb.
  { destruct (basic_cases _ Eb) as [Hfx|[E|[E|E]]]; [|by rewrite E in *..].
    destruct (fixed_size _ Hfx) as (a & -> & -> & Ha). cbn [mbind res_bind].
    assert (1 <= a <= 8) by (destruct Ha as [->|[->|[->| ->]]]; lia).
    eapply safe_bind; [apply peek_fields_safe; try done; lia|].
    intros [e q] (He & _). simpl in He. apply Hnext. lia. }
  destruct (_ =? SD_BUS_TYPE_ARRAY).
  { eapply safe_bind; [by apply element_length_safe|]. intros l _.
    eapply safe_bind; [by apply alignment_safe|]. intros a Ha.
    assert (1 <= a <= 8) by (destruct Ha as [->|[->|[->| ->]]]; lia).
    eapply safe_bind; [by apply peek_field_uint32_safe; [done|lia]|].
    intros [e nas] [He _]. unfold after in He. simpl in He.
    destruct (BUS_ARRAY_MAX_SIZE <? nas); [done|].
    eapply safe_bind; [apply (peek_fields_safe m e a 0 H Ha); lia|].
    intros [e' q] (He' & _). simpl in He'.
    eapply safe_bind; [apply Hin; lia|]. intros [e2 s2] He2. unfold after in He2. simpl in He2.
    apply Hnext. lia. }
  destruct (_ =? SD_BUS_TYPE_VARIANT).
  { eapply safe_bind; [by apply peek_field_signature_safe; [done|lia]|].
    intros [e sg] He. unfold after in He. simpl in He.
    eapply safe_bind; [apply Hin; lia|]. intros [e2 s2] He2. unfold after in He2. simpl in He2.
    apply Hnext. lia. }
  destruct (in_set (deref s) _) eqn:Est; [|done].
  rewrite element_length_alien; [done|]. in_set_cases Est; auto.
Qed.

Lemma skip_fields_safe m ri s :
  header_input m -> 0 <= ri <= zlen (fields m) ->
  safe (fun x => after m ri (fst x)) (message_skip_fields m ri UINT32_MAX s).
Proof.
  intros H Hri. apply skip_loop_safe; [done|lia|lia|]. unfold skip_fuel, zlen in *. lia.
Qed.

(** What parsing the fields keeps: everything but the quick-access members and
    the body's signature. *)
Definition root_ok (c : bus_container) : Prop := enclosing c = 0 /\ begin c = 0.

Definition kept (m m' : message) : Prop :=
  frame m' = frame m /\ (root_ok (root_container m) -> root_ok (root_container m')).

Lemma kept_refl m : kept m m.
Proof. by split. Qed.

Lemma kept_trans m1 m2 m3 : kept m1 m2 -> kept m2 m3 -> kept m1 m3.
Proof. intros [E1 H1] [E2 H2]. split; [congruence|auto]. Qed.

Lemma kept_fields m m' : kept m m' -> fields m' = fields m /\ hdr m' = hdr m.
Proof. intros [E _]. apply frame_fields in E as (? & ? & ? & _). done. Qed.

Lemma kept_input m m' : kept m m' -> header_input m -> header_input m'.
Proof.
  intros K [H1 H2 H3]. apply kept_fields in K as [Kf Kh].
  constructor; unfold BUS_MESSAGE_IS_GVARIANT in *; by rewrite ?Kf, ?Kh.
Qed.

(** Result of a field: the position moved on, the message kept. *)
Definition field_done (m : message) (ri : Z) (x : Z * message * option Z) : Prop :=
  let '(ri', m', _) := x in after m ri ri' /\ kept m m'.

Lemma parse_string_field_safe m have expected sig valid (set : option cstr -> message -> message) ri k :
  header_input m -> 0 <= ri <= zlen (fields m) -> (forall s, kept m (set (Some s) m)) ->
  safe (fun x => after m ri (fst x) /\ kept m (snd x))
    (parse_string_field m have expected sig valid set ri k).
Proof.
  intros H Hri Hset. unfold parse_string_field.
  do 2 (eapply safe_bind; [by apply (safe_require _ _ (fun _ => True))|]; intros [] _).
  eapply safe_bind; [by apply peek_field_string_safe|]. intros [e s] He. unfold after in *. simpl in *.
  split; [lia|done].
Qed.

Lemma parse_field_safe m u t sig ri k :
  header_input m -> 0 <= ri <= zlen (fields m) ->
  safe (field_done m ri) (parse_field m u t sig ri k).
Proof.
  intros H Hri. unfold parse_field. cbv zeta.
  assert (Hstr : forall have expected valid (set : option cstr -> message -> message),
    (forall s, kept m (set (Some s) m)) ->
    safe (field_done m ri)
      ('(ri, m) ← parse_string_field m have expected sig valid set ri k; Ok (ri, m, u))).
  { intros have expected valid set Hset. eapply safe_bind; [by apply parse_string_field_safe|].
    by intros [e m'] [He Hk]. }
  assert (Hreq : forall b (f : unit -> res (Z * message * option Z)),
    (b = true -> safe (field_done m ri) (f tt)) -> safe (field_done m ri) (require b EBADMSG ≫= f)).
  { intros b f Hf. destruct b; [by apply Hf|done]. }
  destruct (t =? 0); [done|].
  do 6 (destruct (t =? _); [by apply Hstr; intros s; split|]).
  destruct (t =? BUS_MESSAGE_HEADER_SIGNATURE).
  { do 3 (apply Hreq; intros _). eapply safe_bind; [by apply peek_field_signature_safe|].
    intros [e s] He. unfold after in He. simpl in He. split; [unfold after; lia|by split]. }
  destruct (t =? BUS_MESSAGE_HEADER_REPLY_SERIAL).
  { apply Hreq; intros _. rewrite (hi_version m H).
    eapply (safe_bind (fun x : Z * Z => after m ri (fst x))).
    { destruct (streq sig (bs "u")); [|done]. cbn [require mbind res_bind].
      eapply safe_mono; [by apply peek_field_uint32_safe|]. unfold after. intros [e x] [He _]. simpl in *. lia. }
    intros [e c] He. apply Hreq; intros _. split; [done|by split]. }
  destruct (t =? BUS_MESSAGE_HEADER_UNIX_FDS).
  { do 2 (apply Hreq; intros _).
    eapply (safe_bind (fun x : Z * Z => after m ri (fst x))).
    { pose proof (peek_field_uint32_safe m ri k H Hri) as P.
      destruct (message_peek_field_uint32 m ri k) as [[e x]|]; [|done].
      destruct P as [P _]. unfold after in *. simpl in *. lia. }
    intros [e c] He. split; [done|apply kept_refl]. }
  rewrite (hi_version m H). eapply safe_bind; [by apply skip_fields_safe|].
  intros [e s] He. split; [done|apply kept_refl].
Qed.

Lemma next_field_safe m ri sz offs i :
  header_input m -> 0 <= ri <= zlen (fields m) ->
  safe (fun x => after m (ri + 3) (snd (fst (fst x)))) (next_field m ri sz offs i).
Proof.
  intros H Hri. unfold next_field. rewrite (hi_version m H).
  eapply safe_bind; [apply (peek_fields_safe m ri 8 1 H); auto; lia|].
  intros [e q] (He & _). simpl in He.
  eapply safe_bind; [apply peek_field_signature_safe; [done|lia]|].
  intros [e' s] He'. unfold after in *. simpl in *. lia.
Qed.

(** Neither does the loop over the fields run out of its fuel. *)
Lemma fields_loop_safe : forall fuel m u ri sz offs n i,
  header_input m -> 0 <= ri <= zlen (fields m) -> zlen (fields m) - ri < Z.of_nat fuel ->
  safe (fun x => kept m (fst x)) (fields_loop fuel m u ri sz offs n i).
Proof.
  induction fuel as [|fuel IH]; intros m u ri sz offs n i H Hri Hf; [lia|].
  cbn [fields_loop]. destruct (_ || _); [apply kept_refl|].
  eapply safe_bind; [by apply next_field_safe|]. intros [[[t e] s] k] He. simpl in He.
  unfold after in He.
  eapply safe_bind; [apply parse_field_safe; [done|lia]|].
  intros [[e' m'] u'] [He' Hk]. unfold after in He'.
  pose proof (proj1 (kept_fields _ _ Hk)) as Ef.
  eapply safe_mono; [apply IH; [by eapply kept_input|rewrite Ef; lia|rewrite Ef; lia]|].
  intros x Hx. by eapply kept_trans.
Qed.

(** ** The message while it is read *)

(** The positions the open containers were entered at, in order. *)
Fixpoint befores_ok (lo hi : Z) (cs : list bus_container) : Prop :=
  match cs with
  | [] => lo <= hi
  | c :: cs => lo <= before c /\ befores_ok (before c) hi cs
  end.

Lemma befores_ok_le cs : forall lo hi, befores_ok lo hi cs -> lo <= hi.
Proof. induction cs as [|c cs IH]; simpl; intros lo hi H; [done|]. destruct H as [? ?%IH]. lia. Qed.

Lemma befores_ok_mono cs : forall lo hi hi', befores_ok lo hi cs -> hi <= hi' -> befores_ok lo hi' cs.
Proof. induction cs as [|c cs IH]; simpl; intros lo hi hi' H ?; [lia|]. naive_solver. Qed.

Lemma befores_ok_snoc cs c : forall lo hi,
  befores_ok lo hi (cs ++ [c]) <-> befores_ok lo (before c) cs /\ before c <= hi.
Proof. induction cs as [|d cs IH]; simpl; intros lo hi; [tauto|]. rewrite IH. tauto. Qed.

(** An open array knows where its length word is. *)
Definition array_ok (n : nat) (c : bus_container) : Prop :=
  enclosing c = SD_BUS_TYPE_ARRAY -> exists a, array_size c = Some a /\ (a + 4 <= n)%nat.

Record reading (m : message) : Prop := Reading {
  r_part : one_part m;
  r_sealed : sealed m = true;
  r_version : BUS_MESSAGE_IS_GVARIANT m = false;
  r_user : user_body_size m = zlen (body m);
  r_limit : zlen (body m) <= UINT32_MAX;
  r_bytes : Forall is_byte (body m);
  r_rindex : 0 <= rindex m <= zlen (body m);
  r_root : root_ok (root_container m);
  r_begins : Forall (fun c => before c <= begin c <= zlen (body m)) (containers m);
  r_arrays : Forall (array_ok (length (body m))) (containers m);
  r_befores : befores_ok 0 (rindex m) (containers m) }.

(** [bus_message_from_header] and the body's part. *)
Lemma decode_bounds p :
  Forall is_byte p -> 16 <= zlen p -> char_at p 3 <> 2 ->
  let h := decode_header p in
  h_version h = char_at p 3 /\ 0 <= h_fields_size h < 2 ^ 32 /\ 0 <= h_body_size h < 2 ^ 32.
Proof.
  intros Hp Hl Hv. unfold decode_header. apply Z.eqb_neq in Hv. rewrite Hv. cbn [h_version h_fields_size h_body_size].
  assert (H : forall k, (k + 4 <= 16)%nat -> 0 <= le_val (take 4 (drop k p)) < 2 ^ 32).
  { intros k Hk. apply (le_val_bytes 4); [by apply bytes_take_drop|].
    unfold zlen in *. rewrite length_take, length_drop. lia. }
  split; [done|]. split; apply H; lia.
Qed.

Lemma from_header_safe buf fds :
  Forall is_byte buf -> char_at buf 3 <> 2 ->
  safe (fun m =>
    sealed m = true /\ BUS_MESSAGE_IS_GVARIANT m = false /\ header_input m /\ parts m = [] /\
    zlen buf = BUS_HEADER_SIZE + ALIGN8 (fields_size m) + body_size m /\
    0 <= body_size m <= UINT32_MAX /\ rindex m = 0 /\ containers m = [] /\
    root_ok (root_container m) /\ 0 <= ALIGN8 (fields_size m))
    (bus_message_from_header buf buf (zlen buf) fds).
Proof.
  intros Hb Hv. unfold bus_message_from_header.
  assert (Hreq : forall b (P : message -> Prop) (f : unit -> res message),
    (b = true -> safe P (f tt)) -> safe P (require b EBADMSG ≫= f)).
  { intros b P f Hf. destruct b; [by apply Hf|done]. }
  apply Hreq; intros Hl%Z.leb_le. unfold BUS_HEADER_SIZE in *.
  do 2 (apply Hreq; intros _). cbv zeta.
  destruct (decode_bounds buf Hb Hl Hv) as (Eh & Hf & Hbs). cbv zeta in *.
  set (h := decode_header buf) in *.
  do 3 (apply Hreq; intros _). rewrite Eh, (proj2 (Z.eqb_neq (char_at buf 3) 2)) by done.
  apply Hreq; intros _. set (M := BUS_MESSAGE_BSWAP _ 4).
  assert (HM : forall x, 0 <= x < 2 ^ 32 -> 0 <= M x < 2 ^ 32) by (intros x; apply (BSWAP_bound _ 4)).
  set (fs := M (h_fields_size h)). set (bsz := M (h_body_size h)).
  assert (0 <= fs < 2 ^ 32) by (apply HM; done). assert (0 <= bsz < 2 ^ 32) by (apply HM; done).
  apply Hreq; intros Hsz%Z.eqb_eq.
  assert (Ha : ALIGN8 fs = align_up fs 8) by (apply ALIGN8_up; lia).
  pose proof (pad_bound fs 8 is_align8 ltac:(lia)) as Hp. unfold pad in Hp.
  assert (Hfl : zlen (take (Z.to_nat fs) (drop (Z.to_nat 16) buf)) = fs) by (apply zlen_take_drop; lia).
  unfold BUS_MESSAGE_IS_GVARIANT, fields_size, UINT32_MAX.
  cbn [safe sealed hdr parts fields body_size rindex containers root_container empty_container enclosing].
  rewrite Eh, Hfl. split; [done|]. split; [by apply Z.eqb_neq|]. split; [|repeat (split; [done || lia|]); lia].
  constructor.
  - by apply bytes_take_drop.
  - cbn [fields]. rewrite Hfl. lia.
  - unfold BUS_MESSAGE_IS_GVARIANT. cbn [hdr]. rewrite Eh. by apply Z.eqb_neq.
Qed.

Lemma parse_fields_safe m :
  header_input m -> root_ok (root_container m) ->
  safe (fun m' => exists m0, m' = after_error_read m0 /\
      frame m0 = frame (set_user_body_size (body_size m) m) /\ root_ok (root_container m0))
    (bus_message_parse_fields m).
Proof.
  intros H He. unfold bus_message_parse_fields. rewrite (hi_version m H). cbn [mbind res_bind].
  set (m1 := set_user_body_size (body_size m) m).
  assert (H1 : header_input m1) by (destruct H; by constructor).
  eapply safe_bind.
  { apply (fields_loop_safe _ m1); [done|pose proof (zlen_nonneg (fields m1)); lia|unfold zlen; lia]. }
  intros [m2 u] Hk. cbn [fst] in Hk.
  do 3 (eapply safe_bind; [by apply (safe_require _ _ (fun _ => True))|]; intros [] _).
  assert (BUS_MESSAGE_IS_GVARIANT m2 = false) as Hv by apply (kept_input _ _ Hk H1).
  change (BUS_MESSAGE_IS_GVARIANT (set_root_container _ ?x)) with (BUS_MESSAGE_IS_GVARIANT x).
  rewrite Hv. cbn [mbind res_bind safe]. destruct Hk as [Hf Henc].
  eexists. split; [reflexivity|]. split; [exact Hf|]. by apply Henc.
Qed.

(** ** Reading basic values *)
Lemma peek_body_safe m ri a n :
  reading m -> is_align a -> 0 <= ri <= zlen (body m) -> 0 <= n <= 2 ^ 33 ->
  safe (peeked ri n (zlen (body m))) (message_peek_body m ri a n).
Proof.
  intros R Ha Hri Hn. pose proof (r_limit m R). unfold UINT32_MAX in *.
  pose proof (pad_bound ri a Ha ltac:(lia)) as Hp. unfold pad in Hp.
  assert (1 <= a <= 8) by (destruct Ha as [->|[->|[->| ->]]]; lia).
  unfold message_peek_body. rewrite (r_user m R), ALIGN_TO_up by (done || lia).
  rewrite !wrap_small by lia.
  destruct (Z.ltb_spec (zlen (body m)) (align_up ri a + n)); [done|].
  rewrite !find_part_flat by (apply R || lia).
  rewrite !(proj2 (Z.leb_le _ _)) by lia.
  case_match; [done|]. split; [|split]; cbn [fst snd].
  - lia.
  - apply zlen_take_drop; lia.
  - apply bytes_take_drop, R.
Qed.

(** A position in the body, not before [ri]. *)
Definition within (m : message) (ri : Z) (x : Z) : Prop := ri <= x <= zlen (body m).

Lemma read_fixed_safe m t q : is_fixed t = true -> safe (fun _ => True) (read_fixed m t q).
Proof.
  intros Ht. unfold is_fixed in Ht. apply orb_true_iff in Ht as [Ht|Ht%Z.eqb_eq].
  - in_set_cases Ht; exact I.
  - subst. cbn -[Z.to_nat]. by repeat case_match.
Qed.

Lemma read_basic_dbus1_safe m t :
  reading m -> bus_type_is_basic t = true ->
  safe (fun x => within m (rindex m + 1) (fst x)) (read_basic_dbus1 m t).
Proof.
  intros R Hb. pose proof (r_rindex m R) as Hri. unfold read_basic_dbus1.
  destruct (in_set t _) eqn:Es.
  { eapply safe_bind; [by apply peek_body_safe; auto|]. intros [e q] (He & Hq & Hqb); cbn [fst snd] in *.
    pose proof (word_bound m 4 q Hqb Hq) as Hl. change (8 * Z.of_nat 4) with 32 in Hl.
    set (l := BUS_MESSAGE_BSWAP m 4 (le_val q)) in *. unfold UINT32_MAX.
    destruct (Z.eqb_spec l 4294967295); [done|].
    eapply safe_bind; [apply (peek_body_safe m e 1 (l + 1) R); auto; lia|].
    intros [e' q'] (He' & _); cbn [fst snd] in *.
    eapply safe_bind; [by apply (safe_require _ _ (fun _ => True))|]. intros [] _. unfold within. simpl. lia. }
  destruct (t =? SD_BUS_TYPE_SIGNATURE) eqn:Eg.
  { eapply safe_bind; [by apply peek_body_safe; auto|]. intros [e q] (He & Hq & Hqb); cbn [fst snd] in *.
    pose proof (le_val_bytes 1 q Hqb Hq). destruct (Z.eqb_spec (le_val q) 255); [done|].
    eapply safe_bind; [apply (peek_body_safe m e 1 (le_val q + 1) R); auto; lia|].
    intros [e' q'] (He' & _); cbn [fst snd] in *.
    eapply safe_bind; [by apply (safe_require _ _ (fun _ => True))|]. intros [] _. unfold within. simpl. lia. }
  assert (is_fixed t = true) as Hfx.
  { destruct (basic_cases _ Hb) as [Hfx|[E|[E|E]]]; [done| | |];
      subst t; vm_compute in Es, Eg; congruence. }
  destruct (fixed_size _ Hfx) as (a & -> & -> & Ha). cbn [mbind res_bind].
  assert (1 <= a <= 8) by (destruct Ha as [->|[->|[->| ->]]]; lia).
  eapply safe_bind; [apply peek_body_safe; auto; lia|]. intros [e q] (He & _); cbn [fst snd] in *.
  eapply safe_bind; [by apply read_fixed_safe|]. intros v _. unfold within. simpl. lia.
Qed.

Lemma last_array_ok m : reading m -> array_ok (length (body m)) (message_get_last_container m).
Proof.
  intros R. unfold message_get_last_container.
  destruct (last (containers m)) as [c|] eqn:El; cbn [default].
  - apply last_Some_elem_of in El. pose proof (r_arrays m R) as Hc. rewrite Forall_forall in Hc.
    by apply Hc.
  - intros E. destruct (r_root m R) as [Hr _]. rewrite Hr in E. done.
Qed.

Lemma array_length_safe m c :
  reading m -> array_ok (length (body m)) c -> enclosing c = SD_BUS_TYPE_ARRAY ->
  safe (fun l => 0 <= l < 2 ^ 32) (array_length m c).
Proof.
  intros R H E. destruct (H E) as (a & Ea & Hl). unfold array_length. rewrite Ea. cbn [safe].
  unfold body_read32. apply (word_bound m 4); [apply bytes_take_drop, R|].
  unfold zlen. rewrite length_take, length_drop. lia.
Qed.

Lemma end_of_array_safe m i : reading m -> safe (fun _ => True) (message_end_of_array m i).
Proof.
  intros R. unfold message_end_of_array. rewrite (r_version m R).
  destruct (Z.eqb_spec (enclosing (message_get_last_container m)) SD_BUS_TYPE_ARRAY) as [E|]; [|done].
  cbn [negb]. eapply safe_bind; [by apply array_length_safe; [|apply last_array_ok|]|done].
Qed.

(** ** The calls *)

(** What no reading call changes. *)
Definition same (m m' : message) : Prop :=
  hdr m' = hdr m /\ fields m' = fields m /\ body m' = body m /\ fds m' = fds m /\
  signature (root_container m') = signature (root_container m).

Lemma same_refl m : same m m.
Proof. repeat split. Qed.

(** Still at the same position in the same containers. *)
Definition put_back (m m' : message) : Prop :=
  reading m' /\ same m m' /\ rindex m' = rindex m /\
  map before (containers m') = map before (containers m).

(** The message but for the note that entering makes in the innermost container,
    the index to go back to, which nothing reads before the next note. *)
Definition forget (m : message) : message := upd_last_container (set_c_saved_index 0) m.

(** An error leaves the message as it was, but for that note. *)
Definition restored (m m' : message) : Prop := reading m' /\ forget m' = forget m.

Lemma restored_refl m : reading m -> restored m m.
Proof. done. Qed.

(** A change of the innermost container that keeps what the invariant needs. *)
Definition tame (f : bus_container -> bus_container) : Prop := forall c,
  enclosing (f c) = enclosing c /\ array_size (f c) = array_size c /\
  before (f c) = before c /\ signature (f c) = signature c /\ begin (f c) = begin c.

Lemma map_upd_last {A B} (g : A -> B) f l :
  (forall x, g (f x) = g x) -> map g (upd_last f l) = map g l.
Proof.
  intros H. induction l as [|x [|y l] IH]; [done| |].
  - simpl. by rewrite H.
  - change (g x :: map g (upd_last f (y :: l)) = map g (x :: y :: l)). by rewrite IH.
Qed.

Lemma upd_tame f m :
  tame f -> let m' := upd_last_container f m in
  same m m' /\ rindex m' = rindex m /\ map before (containers m') = map before (containers m) /\
  enclosing (root_container m') = enclosing (root_container m) /\
  begin (root_container m') = begin (root_container m) /\
  map begin (containers m') = map begin (containers m) /\
  map enclosing (containers m') = map enclosing (containers m) /\
  map array_size (containers m') = map array_size (containers m) /\
  sealed m' = sealed m /\ parts m' = parts m /\ user_body_size m' = user_body_size m.
Proof.
  intros Hf m'. unfold m', upd_last_container.
  destruct (containers m) as [|c cs] eqn:E.
  - cbn. rewrite ?E. repeat split; apply Hf.
  - cbn [containers set_containers rindex root_container sealed parts user_body_size].
    repeat (split; [first [reflexivity | apply map_upd_last; intros x; by apply Hf | by repeat split]|]).
    reflexivity.
Qed.

Lemma arrays_map n cs cs' :
  map enclosing cs' = map enclosing cs -> map array_size cs' = map array_size cs ->
  Forall (array_ok n) cs -> Forall (array_ok n) cs'.
Proof.
  revert cs'. induction cs as [|c cs IH]; intros [|c' cs'] E1 E2 H; try done.
  injection E1 as E1 E1'. injection E2 as E2 E2'. inversion_clear H as [|?? Hc Hcs].
  constructor; [|by apply IH]. unfold array_ok in *. by rewrite E1, E2.
Qed.

Lemma begins_map cs cs' n :
  map before cs' = map before cs -> map begin cs' = map begin cs ->
  Forall (fun c => before c <= begin c <= n) cs -> Forall (fun c => before c <= begin c <= n) cs'.
Proof.
  revert cs'. induction cs as [|c cs IH]; intros [|c' cs'] E1 E2 H; try done.
  injection E1 as E1 E1'. injection E2 as E2 E2'. inversion_clear H as [|?? Hc Hcs].
  constructor; [|by apply IH]. by rewrite E1, E2.
Qed.

Lemma befores_map cs cs' lo hi :
  map before cs' = map before cs -> befores_ok lo hi cs -> befores_ok lo hi cs'.
Proof.
  revert cs' lo. induction cs as [|c cs IH]; intros [|c' cs'] lo E H; try done.
  injection E as E E'. destruct H as [H1 H2]. simpl. rewrite E. split; [done|]. by apply IH.
Qed.

Lemma reading_upd f m : tame f -> reading m -> reading (upd_last_container f m).
Proof.
  intros Hf R. destruct (upd_tame f m Hf) as
    ((Eh & Ef & Eb & Efd & Es) & Er & Eb4 & Een & Ebg & Ebs & Ecs & Ear & Ese & Epa & Eu).
  constructor.
  - destruct (r_part m R) as (s & z & Hp). exists s, z. by rewrite Epa, Eb.
  - rewrite Ese. apply R.
  - unfold BUS_MESSAGE_IS_GVARIANT. rewrite Eh. apply R.
  - rewrite Eu, Eb. apply R.
  - rewrite Eb. apply R.
  - rewrite Eb. apply R.
  - rewrite Er, Eb. apply R.
  - unfold root_ok. rewrite Een, Ebg. apply R.
  - rewrite Eb. eapply begins_map; [exact Eb4|exact Ebs|apply R].
  - rewrite Eb. eapply arrays_map; [exact Ecs|exact Ear|apply R].
  - rewrite Er. eapply befores_map; [exact Eb4|apply R].
Qed.

Lemma reading_rindex n m : reading m -> rindex m <= n <= zlen (body m) -> reading (set_rindex n m).
Proof.
  intros R Hn. pose proof (r_rindex m R). constructor; try apply R; cbn [rindex set_rindex].
  - change (body (set_rindex n m)) with (body m). lia.
  - eapply befores_ok_mono; [apply R|lia].
Qed.

Lemma same_trans m1 m2 m3 : same m1 m2 -> same m2 m3 -> same m1 m3.
Proof. unfold same. intros (?&?&?&?&?) (?&?&?&?&?). repeat split; congruence. Qed.

(** A call that went well: the message is the same, the position moved on by at
    least [k]. *)
Definition moved_on (k : Z) (m m' : message) : Prop :=
  reading m' /\ same m m' /\ rindex m + k <= rindex m'.

Lemma advance_tame f : tame (fun c => if negb (enclosing c =? SD_BUS_TYPE_ARRAY) then set_c_index (f c) c else c).
Proof. intros c. by case_match. Qed.

Lemma save_tame : tame (fun c => set_c_saved_index (index c) c).
Proof. by intros c. Qed.

Lemma put_back_upd f m : tame f -> reading m -> put_back m (upd_last_container f m).
Proof.
  intros Hf R. destruct (upd_tame f m Hf) as (Hs & Er & Eb & _).
  split; [by apply reading_upd|]. done.
Qed.

Lemma restored_put_back m m' : restored m m' -> put_back m m'.
Proof.
  intros [R E]. assert (T : tame (set_c_saved_index 0)) by done.
  destruct (upd_tame _ m T) as ((H1 & H2 & H3 & H4 & H5) & Er & Eb & _).
  destruct (upd_tame _ m' T) as ((H1' & H2' & H3' & H4' & H5') & Er' & Eb' & _).
  change (upd_last_container (set_c_saved_index 0)) with forget in *. rewrite E in *.
  split; [done|]. split; [repeat split; congruence|]. split; congruence.
Qed.

Lemma restored_save m : reading m -> restored m (upd_last_container (fun c => set_c_saved_index (index c) c) m).
Proof.
  intros R. split; [by apply reading_upd; [by intros c|]|]. unfold forget. rewrite upd_upd. by apply upd_ext.
Qed.

Lemma read_basic_safe t m :
  reading m ->
  ssafe (fun v m' => match v with Some _ => moved_on 1 m m' | None => m' = m end) (restored m)
    (sd_bus_message_read_basic t m).
Proof.
  intros R. pose proof (restored_refl m R) as E0. unfold sd_bus_message_read_basic.
  apply ssafe_get. apply ssafe_req; [done..|intros _]. apply ssafe_req; [done..|intros Hb].
  apply ssafe_req; [done..|intros _].
  eapply ssafe_slift; [by apply end_of_array_safe|done|]. intros [|] _; [done|].
  apply ssafe_req; [done..|intros _]. rewrite (r_version m R).
  eapply (ssafe_slift (fun x => within m (rindex m + 1) (fst (fst x)) /\
      snd x = message_get_last_container m)); [|done|].
  { eapply safe_bind; [by apply read_basic_dbus1_safe|]. by intros [ri v] H. }
  intros [[ri v] c] (Hri & Hc). cbn [fst snd] in *. subst c.
  unfold advance_index, smod, mret, stm_ret, mbind, stm_bind. cbn [ssafe].
  rewrite (upd_id (fun _ => message_get_last_container m)) by done.
  assert (R1 : reading (set_rindex ri m)) by (apply reading_rindex; [done|unfold within in Hri; lia]).
  match goal with |- moved_on 1 m (upd_last_container ?f _) =>
    destruct (put_back_upd f (set_rindex ri m) ltac:(apply advance_tame) R1) as (R2 & S2 & E2 & _) end.
  split; [done|]. split; [eapply same_trans; [|exact S2]; by repeat split|].
  rewrite E2. unfold within in Hri. cbn [rindex set_rindex]. lia.
Qed.

Lemma peek_chars_safe m ri q :
  reading m -> 0 <= ri <= zlen (body m) -> zlen q = 1 -> Forall is_byte q ->
  safe (fun x => within m ri (fst x)) (message_peek_body m ri 1 (le_val q + 1)).
Proof.
  intros R Hri Hq Hqb. pose proof (le_val_bytes 1 q Hqb Hq).
  eapply safe_mono; [apply (peek_body_safe m ri 1 _ R); auto; lia|].
  intros [e q'] (He & _). unfold within. simpl in *. lia.
Qed.

Lemma bracket_type_length d a s t :
  complete_type d a s t ->
  deref t = SD_BUS_TYPE_STRUCT_BEGIN \/ deref t = SD_BUS_TYPE_DICT_ENTRY_BEGIN ->
  (3 <= length t)%nat.
Proof.
  intros Ht Hd. destruct Ht as [d a s c Hb|d a s|d a s t Ha Ht|d a s k t Hs Hm|a s c t Hs Hc Ht];
    simpl in *; try (by destruct Hd).
  - by destruct Hd; subst.
  - apply members_length in Hm. rewrite length_app. simpl. lia.
  - apply complete_type_length in Ht. rewrite length_app. simpl. lia.
Qed.

Lemma basic_not_container c : bus_type_is_basic c = true -> bus_type_is_container c = false.
Proof. intros H. in_set_cases H; done. Qed.

Lemma peek_type_safe m :
  reading m ->
  safe (fun p => match p with
                 | Some (t, c) => bus_type_is_container t = true -> exists s, c = Some s
                 | None => True end) (sd_bus_message_peek_type m).
Proof.
  intros R. pose proof (r_rindex m R). unfold sd_bus_message_peek_type.
  eapply safe_bind; [by apply (safe_require _ _ (fun _ => True))|]. intros [] _.
  destruct (message_end_of_signature m); [done|].
  eapply safe_bind; [by apply end_of_array_safe|]. intros [|] _; [done|]. cbv zeta.
  set (s := drop _ _). destruct (bus_type_is_basic (deref s)) eqn:Eb.
  { simpl. intros Hc. apply basic_not_container in Eb. congruence. }
  destruct (deref s =? SD_BUS_TYPE_ARRAY).
  { eapply safe_bind; [by apply element_length_safe|]. intros l _. simpl. eauto. }
  destruct (in_set (deref s) _) eqn:Est.
  { destruct (signature_element_length s) as [l|e] eqn:El; [|by apply sel_err in El as ->].
    cbn [mbind res_bind]. assert (3 <= l)%nat as Hl.
    { apply sel_spec in El as (t & r & E & <- & Ht). apply (bracket_type_length _ _ _ _ Ht).
      pose proof (complete_type_length _ _ _ _ Ht). rewrite E in Est.
      destruct t as [|x t]; [simpl in *; lia|]. simpl in Est |- *.
      destruct (Z.eqb_spec x SD_BUS_TYPE_STRUCT_BEGIN); [by left|].
      destruct (Z.eqb_spec x SD_BUS_TYPE_DICT_ENTRY_BEGIN); [by right|done]. }
    rewrite bool_decide_eq_true_2 by done. cbn [require mbind res_bind safe]. eauto. }
  destruct (deref s =? SD_BUS_TYPE_VARIANT); [|done]. rewrite (r_version m R).
  eapply safe_bind; [by apply (peek_body_safe m (rindex m) 1 1 R); auto|].
  intros [e q] (He & Hq & Hqb); cbn [fst snd] in *.
  destruct (Z.eqb_spec (le_val q) 255); [done|].
  eapply safe_bind; [apply (peek_chars_safe m e q R); [lia|done..]|]. intros [e' q'] _.
  eapply safe_bind; [by apply (safe_require _ _ (fun _ => True))|]. intros [] _. simpl. eauto.
Qed.

(** ** Entering, leaving, abandoning *)

(** What entering finds is in the body, and an array's length word with it. *)
Definition entered_ok (m : message) (type : Z) (e : entered) : Prop :=
  within m (rindex m) (e_rindex e) /\
  (type = SD_BUS_TYPE_ARRAY ->
   exists a, e_array_size e = Some a /\ (a + 4 <= length (body m))%nat).

Lemma enter_array_safe m c s :
  reading m -> safe (entered_ok m SD_BUS_TYPE_ARRAY) (bus_message_enter_array m c s).
Proof.
  intros R. pose proof (r_rindex m R). unfold bus_message_enter_array.
  do 4 (eapply safe_bind; [by apply (safe_require _ _ (fun _ => True))|]; intros [] _).
  rewrite (r_version m R). cbn [negb].
  eapply safe_bind; [by apply (peek_body_safe m (rindex m) 4 4 R); auto|].
  intros [e q] (He & Hq & Hqb); cbn [fst snd] in *. destruct (_ <? _); [done|].
  eapply safe_bind; [by apply alignment_safe|]. intros a Ha.
  assert (1 <= a <= 8) by (destruct Ha as [->|[->|[->| ->]]]; lia).
  eapply safe_bind; [by apply (peek_body_safe m e a 0 R); [done|lia|lia]|].
  intros [e' q'] (He' & _); cbn [fst snd] in *. split; [unfold within; cbn; lia|].
  intros _. exists (Z.to_nat (e - 4)). cbn [e_array_size]. split; [done|]. unfold zlen in *. lia.
Qed.

Lemma enter_variant_safe m c s :
  reading m -> safe (entered_ok m SD_BUS_TYPE_VARIANT) (bus_message_enter_variant m c s).
Proof.
  intros R. pose proof (r_rindex m R). unfold bus_message_enter_variant.
  do 4 (eapply safe_bind; [by apply (safe_require _ _ (fun _ => True))|]; intros [] _).
  rewrite (r_version m R).
  eapply safe_bind; [by apply (peek_body_safe m (rindex m) 1 1 R); auto|].
  intros [e q] (He & Hq & Hqb); cbn [fst snd] in *. cbv zeta.
  destruct (le_val q =? 255); [done|].
  eapply safe_bind; [apply (peek_chars_safe m e q R); [lia|done..]|]. intros [e' q'] He'.
  do 2 (eapply safe_bind; [by apply (safe_require _ _ (fun _ => True))|]; intros [] _).
  unfold within in *. simpl in *. split; [unfold within; cbn; lia|done].
Qed.

Lemma enter_tuple_safe m c s t :
  reading m -> t <> SD_BUS_TYPE_ARRAY ->
  ssafe (fun e m' => m' = m /\ entered_ok m t e) (eq m) (enter_struct_or_dict_entry c s m).
Proof.
  intros R Ht. pose proof (r_rindex m R). unfold enter_struct_or_dict_entry. apply ssafe_get. rewrite (r_version m R).
  cbn [negb]. eapply ssafe_slift; [by apply (peek_body_safe m (rindex m) 8 0 R); auto|done|].
  intros [e q] (He & _). simpl in He. split; [done|]. split; [unfold within; cbn; lia|done].
Qed.

Lemma enter_by_type_safe m type s :
  reading m ->
  ssafe (fun x m' => m' = m /\ match fst x with Some e => entered_ok m type e | None => True end) (eq m)
    (enter_by_type type s m).
Proof.
  intros R. unfold enter_by_type. apply ssafe_get. set (c := message_get_last_container m).
  destruct (Z.eqb_spec type SD_BUS_TYPE_ARRAY) as [->|Hna].
  { by eapply ssafe_slift; [by apply enter_array_safe|done|]. }
  destruct (Z.eqb_spec type SD_BUS_TYPE_VARIANT) as [->|_].
  { by eapply ssafe_slift; [by apply enter_variant_safe|done|]. }
  destruct (Z.eqb_spec type SD_BUS_TYPE_STRUCT) as [->|_].
  { eapply ssafe_bind; [|by intros a m' H; exact H]. unfold bus_message_enter_struct.
    do 3 (apply ssafe_req; [done..|intros _]). by apply enter_tuple_safe. }
  destruct (Z.eqb_spec type SD_BUS_TYPE_DICT_ENTRY) as [->|_]; [|done].
  eapply (ssafe_bind (fun e m' => m' = m /\ match e with Some e => entered_ok m SD_BUS_TYPE_DICT_ENTRY e | None => True end));
    [|by intros a m' H]. unfold bus_message_enter_dict_entry.
  do 2 (apply ssafe_req; [done..|intros _]). destruct (_ =? 0); [done|]. apply ssafe_req; [done..|intros _].
  eapply ssafe_bind; [by apply enter_tuple_safe|]. by intros a m' H.
Qed.

Lemma reading_push m c :
  reading m -> befores_ok 0 (before c) (containers m) -> before c <= rindex m ->
  before c <= begin c <= zlen (body m) -> array_ok (length (body m)) c -> reading (push c m).
Proof.
  intros R Hbs Hb Hbg Ha. constructor; try apply R; cbn [containers rindex push set_containers].
  - apply Forall_app. split; [apply R|]. by constructor.
  - apply Forall_app. split; [apply R|]. by constructor.
  - by apply befores_ok_snoc.
Qed.

Lemma reading_pop m cs c n :
  reading m -> containers m = cs ++ [c] -> before c <= n <= zlen (body m) ->
  reading (set_rindex n (set_containers cs m)).
Proof.
  intros R E Hn. pose proof (r_befores m R) as Hb. rewrite E in Hb. apply befores_ok_snoc in Hb as [Hb _].
  pose proof (befores_ok_le _ _ _ Hb).
  constructor; try apply R; cbn [containers rindex set_containers set_rindex].
  - change (body (set_rindex n (set_containers cs m))) with (body m). lia.
  - pose proof (r_begins m R) as Ha. rewrite E in Ha. by apply Forall_app in Ha as [? _].
  - pose proof (r_arrays m R) as Ha. rewrite E in Ha. by apply Forall_app in Ha as [? _].
  - eapply befores_ok_mono; [exact Hb|lia].
Qed.

(** What [message_quit_container] makes of a message. *)
Definition quitted (m : message) : message :=
  upd_last_container (fun c => set_c_index (saved_index c) c)
    (set_rindex (before (message_get_last_container m)) (set_containers (removelast (containers m)) m)).

(** In a container of [m0] that was entered at its position: quitting it gets back to [m0]. *)
Definition inside (m0 m : message) : Prop :=
  containers m <> [] /\ before (message_get_last_container m) = rindex m0 /\ forget (quitted m) = forget m0.

Lemma inside_rindex m0 m n : inside m0 m -> inside m0 (set_rindex n m).
Proof. done. Qed.

(** A container was opened here. *)
Definition opened (type : Z) (m m' : message) : Prop :=
  moved_on 0 m m' /\ map before (containers m') = map before (containers m) ++ [rindex m] /\
  enclosing (message_get_last_container m') = type /\ inside m m'.

(** Noting the index, moving on and pushing a container, seen from the inside *)
Lemma inside_push m e f c :
  before c = rindex m -> inside m (push c (upd_last_container
    (fun c => if negb (enclosing c =? SD_BUS_TYPE_ARRAY) then set_c_index (f c) c else c)
    (set_rindex e (upd_last_container (fun c => set_c_saved_index (index c) c) m)))).
Proof.
  intros Hc. split; [cbn; by intros [_ [=]]%app_eq_nil|]. rewrite get_last_push. split; [done|].
  unfold quitted. rewrite get_last_push, Hc. set (m3 := upd_last_container _ (set_rindex e _)).
  assert (set_rindex (rindex m) (set_containers (removelast (containers (push c m3))) (push c m3))
    = upd_last_container (fun c => if negb (enclosing c =? SD_BUS_TYPE_ARRAY) then set_c_index (f c) c else c)
        (upd_last_container (fun c => set_c_saved_index (index c) c) m)) as ->.
  { cbn [push containers set_containers]. rewrite removelast_last.
    change (set_containers (containers m3) (push c m3)) with (set_containers (containers m3) m3).
    replace (set_containers (containers m3) m3) with m3 by (by destruct m3).
    unfold m3. rewrite !upd_set_rindex. cbn [set_rindex]. rewrite <- !upd_set_rindex.
    by replace (set_rindex (rindex m) m) with m by (by destruct m). }
  unfold forget. rewrite !upd_upd. apply upd_ext. cbn. by case_match.
Qed.

Lemma enter_at_safe type contents m :
  reading m -> contents <> None ->
  ssafe (fun b m' => if b : bool then opened type m m' else restored m m') (restored m)
    (enter_container_at type contents m).
Proof.
  intros R Hc. pose proof (restored_refl m R) as E0. unfold enter_container_at.
  apply ssafe_get. do 2 (apply ssafe_req; [done..|intros _]).
  eapply ssafe_slift; [by apply end_of_array_safe|done|]. intros [|] _; [done|].
  destruct contents as [s|]; [|done]. eapply ssafe_slift; [by instantiate (1 := fun x => x = s)|done|].
  intros ? ->. apply ssafe_mod, ssafe_get. set (m1 := upd_last_container _ m).
  destruct (put_back_upd (fun c => set_c_saved_index (index c) c) m save_tame R) as (R1 & S1 & Er1 & Eb1).
  fold m1 in R1, S1, Er1, Eb1.
  set (c := message_get_last_container m1).
  assert (E1 : restored m m1) by (by apply restored_save).
  eapply ssafe_bind.
  { pose proof (enter_by_type_safe m1 type s R1) as Hs. destruct (enter_by_type type s m1) as [[x|e] m'].
    - exact Hs.
    - destruct Hs as [He <-]. by split. }
  intros [oe adv] ? [-> He]. cbn [fst] in He.
  destruct oe as [e|]; [|exact E1].
  destruct He as [Hri Harr]. unfold within in Hri. pose proof (r_rindex m1 R1).
  apply ssafe_mod. unfold advance_index. apply ssafe_mod.
  set (m2 := set_rindex (e_rindex e) m1).
  assert (R2 : reading m2) by (by apply reading_rindex).
  match goal with |- context [upd_last_container ?f m2] =>
    destruct (put_back_upd f m2 ltac:(apply advance_tame) R2) as (R3 & S3 & Er3 & Eb3);
    set (m3 := upd_last_container f m2) in * end.
  apply ssafe_mod. cbn [ssafe mret stm_ret].
  match goal with |- opened type m (set_containers (_ ++ [?d]) m3) => set (c' := d) end.
  change (set_containers _ m3) with (push c' m3).
  assert (reading (push c' m3)) as R4.
  { apply reading_push; [done| | | |].
    - cbn [before c']. eapply befores_map; [exact Eb3|]. cbn [containers m2 set_rindex]. apply R1.
    - cbn [before c']. rewrite Er3. cbn [rindex m2 set_rindex]. lia.
    - destruct S3 as (_ & _ & -> & _). cbn [before begin c'].
      change (body m2) with (body m1). lia.
    - destruct S3 as (_ & _ & -> & _). intros Ht. cbn [enclosing c' array_size] in *. by apply Harr. }
  split; [split; [done|split]|].
  - eapply same_trans; [exact S1|]. eapply (same_trans _ m2); [by repeat split|]. exact S3.
  - change (rindex (push c' m3)) with (rindex m3). rewrite Er3, <- Er1. cbn [rindex m2 set_rindex]. lia.
  - cbn [push containers set_containers]. rewrite map_app, Eb3.
    cbn [m2 containers set_rindex]. split; [by rewrite Eb1, <- Er1|]. split.
    + unfold message_get_last_container. cbn [push containers set_containers]. by rewrite last_snoc.
    + apply inside_push. exact Er1.
Qed.

(** Entering by type alone asks for a container type: at a basic value the code
    would duplicate a NULL signature. *)
Lemma enter_safe type contents m :
  reading m -> (contents = None -> bus_type_is_container type = true) ->
  ssafe (fun b m' => if b : bool then opened type m m' else restored m m') (restored m)
    (sd_bus_message_enter_container type contents m).
Proof.
  intros R Hc. pose proof (restored_refl m R) as E0. unfold sd_bus_message_enter_container.
  apply ssafe_get. do 2 (apply ssafe_req; [done..|intros _]).
  destruct contents as [s|]; [by apply enter_at_safe|]. specialize (Hc eq_refl).
  eapply ssafe_slift; [by apply peek_type_safe|done|]. intros p Hp.
  destruct p as [[t0 cc]|]; cbn [default].
  - apply ssafe_req; [done..|]. intros [H|H]%orb_true_iff; apply Z.eqb_eq in H.
    + by rewrite H in Hc.
    + subst t0. destruct (Hp Hc) as [s ->]. by apply enter_at_safe.
  - apply ssafe_req; [done..|]. intros [H|H]%orb_true_iff; apply Z.eqb_eq in H; by rewrite H in Hc.
Qed.

Lemma containers_snoc m :
  containers m <> [] -> exists cs, containers m = cs ++ [message_get_last_container m] /\
    removelast (containers m) = cs.
Proof.
  unfold message_get_last_container. intros H.
  destruct (containers m) as [|c cs _] using rev_ind; [done|].
  exists cs. rewrite last_snoc, removelast_last. done.
Qed.

Definition closed (m m' : message) : Prop :=
  moved_on 0 m m' /\ exists n, map before (containers m) = map before (containers m') ++ [n].

Lemma exit_safe m :
  reading m -> ssafe (fun _ m' => closed m m') (eq m) (sd_bus_message_exit_container m).
Proof.
  intros R. pose proof (eq_refl m) as E0. unfold sd_bus_message_exit_container.
  apply ssafe_get. apply ssafe_req; [done..|intros _]. apply ssafe_req; [done..|intros Hne%bool_decide_eq_true].
  apply ssafe_req; [done..|intros _]. rewrite (r_version m R).
  set (c := message_get_last_container m).
  eapply (ssafe_bind (fun _ m' => m' = m)).
  { destruct (Z.eqb_spec (enclosing c) SD_BUS_TYPE_ARRAY) as [E|]; [|done].
    eapply ssafe_slift; [by apply array_length_safe; [|apply last_array_ok|]|done|]. intros l _.
    destruct (begin c + l =? rindex m); [done|by split]. }
  intros _ ? ->. apply ssafe_mod, ssafe_get.
  destruct (containers_snoc m Hne) as (cs & Ecs & Erl). rewrite Erl.
  assert (R1 : reading (set_containers cs m)).
  { replace (set_containers cs m) with (set_rindex (rindex m) (set_containers cs m)) by (by destruct m).
    eapply reading_pop; [exact R|exact Ecs|].
    pose proof (r_befores _ R) as Hb. rewrite Ecs in Hb. apply befores_ok_snoc in Hb as [_ ?].
    pose proof (r_rindex _ R). lia. }
  set (m1 := set_containers cs m) in *.
  unfold container_next_item. change (BUS_MESSAGE_IS_GVARIANT m1) with (BUS_MESSAGE_IS_GVARIANT m).
  rewrite (r_version m R). cbn [negb].
  apply ssafe_mod. unfold smod. cbn [ssafe].
  rewrite (upd_id (fun _ => _)) by (by destruct (message_get_last_container m1)).
  split; [|exists (before c); cbn [containers m1 set_rindex set_containers]; by rewrite Ecs, map_app].
  split; [|split; [by repeat split|simpl; lia]].
  apply reading_rindex; [done|]. pose proof (r_rindex m1 R1). simpl in *. lia.
Qed.

Lemma quit_safe m0 m :
  reading m0 -> reading m -> rindex m0 <= rindex m -> inside m0 m ->
  ssafe (fun _ m' => restored m0 m') (fun _ => False) (message_quit_container m).
Proof.
  intros R0 R Hr (Hne & Eb & Eq). unfold message_quit_container. apply ssafe_get.
  destruct (containers_snoc m Hne) as (cs & Ecs & Erl).
  rewrite (r_sealed m R), bool_decide_eq_true_2, (proj2 (Z.leb_le _ _)) by (done || lia).
  do 2 (rewrite (stm_bind_run _ _ _ tt m) by done). do 2 apply ssafe_mod. unfold smod. cbn [ssafe].
  split; [|exact Eq].
  cbn [containers set_rindex]. rewrite Erl. pose proof (r_rindex m0 R0). pose proof (r_rindex m R).
  apply reading_upd; [by intros c|]. change (set_containers cs (set_rindex ?n m)) with (set_rindex n (set_containers cs m)).
  eapply reading_pop; [exact R|exact Ecs|lia].
Qed.

Lemma at_end_safe b m : reading m -> safe (fun _ => True) (sd_bus_message_at_end m b).
Proof.
  intros R. unfold sd_bus_message_at_end.
  eapply safe_bind; [by apply (safe_require _ _ (fun _ => True))|]. intros [] _.
  repeat case_match; try done. by apply end_of_array_safe.
Qed.

Lemma quit_and_fail_safe {A} m0 m e (P : A -> message -> Prop) :
  reading m0 -> reading m -> rindex m0 <= rindex m -> inside m0 m -> e <> EASSERT ->
  ssafe P (restored m0) (quit_and_fail e m).
Proof.
  intros R0 R Hr I He. pose proof (quit_safe m0 m R0 R Hr I) as Q.
  unfold quit_and_fail, mbind, stm_bind. destruct (message_quit_container m) as [[u|e'] m'].
  - by split.
  - by destruct Q.
Qed.

(** The bytes of an array of a fixed-size type; on failure the array is left. *)
Lemma read_array_safe t m :
  reading m ->
  ssafe (fun v m' => match v with Some _ => moved_on 0 m m' /\
                       map before (containers m') = map before (containers m)
                     | None => restored m m' end) (restored m)
    (sd_bus_message_read_array t m).
Proof.
  intros R. pose proof (restored_refl m R) as E0. unfold sd_bus_message_read_array.
  apply ssafe_get. apply ssafe_req; [done..|intros _]. apply ssafe_req; [done..|intros Htr].
  apply ssafe_req; [done..|intros _].
  eapply ssafe_bind; [by apply (enter_safe SD_BUS_TYPE_ARRAY (Some [t]) m R)|].
  intros [|] m1 H1; [|done]. destruct H1 as [(R1 & S1 & Er1) (Eb1 & Ety & I1)]. cbn [negb]. apply ssafe_get.
  rewrite (r_version m1 R1). set (c := message_get_last_container m1) in *.
  assert (Hquit : forall (A : Type) (P : A -> message -> Prop) e m2, reading m2 -> rindex m1 <= rindex m2 ->
    inside m m2 -> e <> EASSERT -> ssafe P (restored m) (quit_and_fail e m2)).
  { intros A P e m2 R2 Hr2 I2 He. apply quit_and_fail_safe; try done. lia. }
  assert (exists a, bus_type_get_alignment t = Ok a /\ is_align a) as (a & Ea & Ha).
  { apply basic_alignment. in_set_cases Htr; done. }
  destruct (last_array_ok m1 R1 Ety) as (w & Ew & Hw). fold c in Ew.
  pose proof (array_length_safe m1 c R1 (last_array_ok m1 R1) Ety) as Hl.
  unfold array_length in *. rewrite Ew in *. cbn [safe] in Hl. set (sz := BUS_MESSAGE_BSWAP m1 4 _) in *.
  rewrite Ea. cbn [mbind res_bind]. erewrite stm_bind_run by reflexivity.
  pose proof (r_rindex m1 R1).
  eapply (ssafe_bind (fun _ m2 => moved_on 0 m1 m2 /\ map before (containers m2) = map before (containers m1) /\
    inside m m2)).
  { destruct (sz =? 0).
    { split; [|done]. split; [done|]. split; [apply same_refl|lia]. }
    pose proof (peek_body_safe m1 (rindex m1) a sz R1 Ha ltac:(lia) ltac:(lia)) as Hp.
    destruct (message_peek_body m1 (rindex m1) a sz) as [[e q]|e]; [|by apply Hquit; try lia].
    destruct Hp as (He & _). cbn [fst] in He. split; [|done].
    split; [apply reading_rindex; [done|lia]|]. split; [by repeat split|simpl; lia]. }
  intros q m2 ((R2 & S2 & Er2) & Eb2 & I2). apply ssafe_get.
  pose proof (exit_safe m2 R2) as Hx. destruct (sd_bus_message_exit_container m2) as [[u|e] m3].
  - destruct Hx as ((R3 & S3 & Er3) & n & Eb3). rewrite Eb2, Eb1 in Eb3. apply app_inj_2 in Eb3 as [Eb3 _]; [|done].
    unfold sput, mret, stm_ret, mbind, stm_bind. cbn [ssafe]. split; [|done]. split; [done|].
    split; [eapply same_trans; [exact S1|]; by eapply same_trans|lia].
  - destruct Hx as (He & <-). unfold sput at 1. unfold mbind, stm_bind. apply Hquit; try done. lia.
Qed.

(** After a rewind the message is the same, at a position inside it. *)
Definition rewound (m m' : message) : Prop := reading m' /\ same m m'.

Lemma rewind_safe b m :
  reading m -> ssafe (fun _ m' => rewound m m') (restored m) (sd_bus_message_rewind b m).
Proof.
  intros R. unfold sd_bus_message_rewind. apply ssafe_get.
  apply ssafe_req; [done|by apply restored_refl|intros _]. pose proof (r_rindex m R).
  eapply (ssafe_bind (fun _ m' => rewound m m')).
  - destruct b.
    + do 2 apply ssafe_mod. unfold smod. cbn [ssafe]. split; [|by repeat split].
      constructor; try apply R; cbn [containers rindex set_rindex set_root_container set_containers];
        [pose proof (zlen_nonneg (body m)); done|constructor|constructor|done].
    + apply ssafe_mod, ssafe_get. unfold smod. cbn [ssafe].
      destruct (put_back_upd (set_c_index 0) m ltac:(by intros c) R) as (R1 & S1 & Er1 & Eb1).
      set (m1 := upd_last_container (set_c_index 0) m) in *.
      split; [|eapply same_trans; [exact S1|by repeat split]].
      assert (Hin : 0 <= begin (message_get_last_container m1) <= zlen (body m1) /\
                    befores_ok 0 (begin (message_get_last_container m1)) (containers m1)).
      { pose proof (r_befores m1 R1) as Hb. pose proof (r_begins m1 R1) as Hg. pose proof (r_root m1 R1) as [_ Hr].
        unfold message_get_last_container.
        destruct (containers m1) as [|c cs _] using rev_ind; cbn [default last].
        - rewrite Hr. pose proof (zlen_nonneg (body m1)). simpl. lia.
        - rewrite last_snoc. cbn [default]. apply Forall_app in Hg as [_ Hg]. inversion_clear Hg as [|?? Hg' _].
          apply befores_ok_snoc in Hb as [Hb _]. pose proof (befores_ok_le _ _ _ Hb).
          unfold id. split; [lia|]. apply befores_ok_snoc. split; [done|lia]. }
      destruct R1. constructor; try done; cbn [rindex set_rindex containers]; apply Hin.
  - intros _ m1 [R1 S1]. apply ssafe_mod, ssafe_get. cbn [ssafe mret stm_ret].
    match goal with |- rewound m (upd_last_container ?f m1) =>
      destruct (put_back_upd f m1 ltac:(by intros c) R1) as (R2 & S2 & _) end.
    split; [done|by eapply same_trans].
Qed.

Lemma verify_safe t c m : reading m -> safe (fun _ => True) (sd_bus_message_verify_type m t c).
Proof.
  intros R. unfold sd_bus_message_verify_type.
  do 5 (eapply safe_bind; [by apply (safe_require _ _ (fun _ => True))|]; intros [] _).
  eapply safe_bind; [by apply peek_type_safe|]. intros [[t0 cc]|] _; done.
Qed.

(** ** A client *)

(** The calls a client makes to read a message. *)
Inductive read_op :=
  | ReadBasic (type : Z)
  | PeekType
  | AtEnd (complete : bool)
  | EnterContainer (type : Z) (contents : option cstr)
  | ExitContainer
  | Rewind (complete : bool)
  | ReadArray (type : Z)
  | VerifyType (type : Z) (contents : option cstr).

(** The error a call ended with, and the message after it. *)
Definition ended {A} (x : res A * message) : option errno * message :=
  match x with (Ok _, m) => (None, m) | (Err e, m) => (Some e, m) end.

Definition run_op (op : read_op) (m : message) : option errno * message :=
  match op with
  | ReadBasic t => ended (sd_bus_message_read_basic t m)
  | PeekType => ended (slift (sd_bus_message_peek_type m) m)
  | AtEnd b => ended (slift (sd_bus_message_at_end m b) m)
  | EnterContainer t c => ended (sd_bus_message_enter_container t c m)
  | ExitContainer => ended (sd_bus_message_exit_container m)
  | Rewind b => ended (sd_bus_message_rewind b m)
  | ReadArray t => ended (sd_bus_message_read_array t m)
  | VerifyType t c => ended (slift (sd_bus_message_verify_type m t c) m)
  end.

(** The calls one after another, whatever they return: the errors and the message. *)
Fixpoint run_ops (ops : list read_op) (m : message) : list (option errno) * message :=
  match ops with
  | [] => ([], m)
  | op :: ops =>
      let '(e, m) := run_op op m in
      let '(es, m) := run_ops ops m in
      (e :: es, m)
  end.

(** Entering without giving the contents names a container type. *)
Definition op_ok (op : read_op) : Prop :=
  match op with
  | EnterContainer t None => bus_type_is_container t = true
  | _ => True
  end.

Lemma op_safe op m :
  reading m -> op_ok op ->
  let '(e, m') := run_op op m in
  e <> Some EASSERT /\ reading m' /\ same m m' /\ (is_Some e -> forget m' = forget m).
Proof.
  intros R Hop.
  assert (Hss : forall A (P : A -> message -> Prop) (x : res A * message),
    ssafe P (restored m) x -> (forall a m', P a m' -> reading m' /\ same m m') ->
    let '(e, m') := ended x in
    e <> Some EASSERT /\ reading m' /\ same m m' /\ (is_Some e -> forget m' = forget m)).
  { intros A P [[a|e] m'] H HP; cbn [ssafe ended] in *.
    - destruct (HP a m' H). split; [done|]. split; [done|]. split; [done|]. by intros [? [=]].
    - destruct H as (He & H). destruct (restored_put_back _ _ H) as (R' & S & _). split; [congruence|]. by destruct H. }
  assert (Hlift : forall A (r : res A), safe (fun _ => True) r -> ssafe (fun _ m' => m' = m) (restored m) (slift r m)).
  { intros A r Hr. apply ssafe_lift; [|by apply restored_refl]. by eapply safe_mono. }
  assert (Hm : forall m', m' = m -> reading m' /\ same m m') by (intros ? ->; split; [done|apply same_refl]).
  destruct op; cbn [run_op].
  - eapply Hss; [by apply read_basic_safe|]. intros [v|] m' H; [by destruct H as (? & ? & _)|by apply Hm].
  - eapply Hss; [apply Hlift; by eapply safe_mono; [apply peek_type_safe|]|]. intros a m'. apply Hm.
  - eapply Hss; [apply Hlift; by apply at_end_safe|]. intros a m'. apply Hm.
  - eapply Hss; [apply enter_safe; [done|by intros ->]|]. intros [|] m' H; [by destruct H as [(? & ? & _) _]|].
    by destruct (restored_put_back _ _ H) as (? & ? & _).
  - apply (Hss _ (fun _ m' => closed m m')); [|by intros a m' [(? & ? & _) _]]. pose proof (exit_safe m R) as Hx.
    destruct (sd_bus_message_exit_container m) as [[u|e] m']; [done|]. by destruct Hx as (? & <-).
  - eapply Hss; [by apply rewind_safe|]. by intros a m' [? ?].
  - eapply Hss; [by apply read_array_safe|]. intros [v|] m' H; [by destruct H as [(? & ? & _) _]|].
    by destruct (restored_put_back _ _ H) as (? & ? & _).
  - eapply Hss; [apply Hlift; by apply verify_safe|]. intros a m'. apply Hm.
Qed.

Lemma ops_safe ops : forall m,
  reading m -> Forall op_ok ops ->
  let '(es, m') := run_ops ops m in
  Forall (fun e => e <> Some EASSERT) es /\ reading m' /\ same m m'.
Proof.
  induction ops as [|op ops IH]; intros m R Hops; [split; [done|split; [done|apply same_refl]]|].
  inversion_clear Hops as [|?? H1 H2]. cbn [run_ops].
  pose proof (op_safe op m R H1) as H. destruct (run_op op m) as [e m1]. destruct H as (He & R1 & S1 & _).
  pose proof (IH m1 R1 H2) as H. destruct (run_ops ops m1) as [es m2]. destruct H as (Hes & R2 & S2).
  split; [by constructor|]. split; [done|by eapply same_trans].
Qed.

(** ** From the wire *)
Lemma after_error_read_reading m : reading m -> reading (after_error_read m).
Proof.
  intros R. unfold after_error_read. destruct (h_type _ =? _); [|done].
  pose proof (read_basic_safe SD_BUS_TYPE_STRING m R) as H.
  destruct (sd_bus_message_read_basic SD_BUS_TYPE_STRING m) as [[[v|]|e] m'].
  - by destruct H as (? & _).
  - by rewrite H.
  - by destruct H as (_ & ? & _).
Qed.

Lemma from_malloc_safe buf fds :
  Forall is_byte buf -> char_at buf 3 <> 2 ->
  safe (fun m => reading m /\ exists n, body m = drop n buf) (bus_message_from_malloc buf fds).
Proof.
  intros Hb Hv. unfold bus_message_from_malloc.
  eapply safe_bind; [by apply from_header_safe|].
  intros m (H1 & H2 & H3 & H4 & H5 & H6 & H7 & H8 & H9 & H10). cbv zeta.
  set (n := Z.to_nat (BUS_HEADER_SIZE + ALIGN8 (fields_size m))). set (data := drop n buf).
  assert (Hd : zlen data = body_size m).
  { unfold data, n, zlen, BUS_HEADER_SIZE in *. rewrite length_drop. lia. }
  set (m1 := if 0 <? zlen data then _ else m).
  assert (Hbody : body m1 = data /\ one_part m1).
  { unfold m1, one_part. destruct (Z.ltb_spec 0 (zlen data)).
    - unfold body. cbn. rewrite app_nil_r. split; [done|]. exists true, false.
      rewrite bool_decide_eq_false_2; [done|]. intros E. by rewrite E in *.
    - assert (data = []) as -> by (destruct data; [done|unfold zlen in *; simpl in *; lia]).
      unfold body. rewrite H4. split; [done|]. by exists true, false. }
  destruct Hbody as [Hbody Hpart].
  assert (Hm1 : header_input m1 /\ root_ok (root_container m1) /\ body_size m1 = body_size m /\
                frame (set_parts (parts m1) m) = frame m1).
  { unfold m1. case_match; [|by destruct m]. destruct H3. split; [by constructor|done]. }
  destruct Hm1 as (Hi & Hr & Hbs & Hfr).
  eapply safe_mono; [by apply parse_fields_safe|].
  intros m' (m0 & -> & Hf & Hr0). apply frame_fields in Hf as (F1 & F2 & F3 & F4 & F5 & F6 & F7 & F8 & F9).
  apply frame_fields in Hfr as (G1 & G2 & G3 & G4 & G5 & G6 & G7 & G8 & G9).
  cbn in F1, F2, F3, F4, F5, F6, F7, F8, F9, G1, G2, G3, G4, G5, G6, G7, G8, G9.
  assert (Hb0 : body m0 = data) by (unfold body; rewrite F4; exact Hbody).
  assert (R : reading m0).
  { constructor; rewrite ?Hb0; try done.
    - destruct Hpart as (s & z & E). exists s, z. by rewrite Hb0, F4, <- Hbody.
    - by rewrite F2, <- G2.
    - unfold BUS_MESSAGE_IS_GVARIANT in *. by rewrite F1, <- G1.
    - by rewrite F6, Hbs.
    - rewrite Hd. apply H6.
    - by apply Forall_drop.
    - rewrite F7, <- G7, H7. pose proof (zlen_nonneg data). done.
    - rewrite F9, <- G9, H8. constructor.
    - rewrite F9, <- G9, H8. constructor.
    - rewrite F9, <- G9, H8, F7, <- G7, H7. done. }
  split; [by apply after_error_read_reading|]. exists n. fold data. rewrite <- Hb0.
  unfold after_error_read. destruct (h_type _ =? _); [|done].
  pose proof (read_basic_safe SD_BUS_TYPE_STRING m0 R) as H.
  destruct (sd_bus_message_read_basic SD_BUS_TYPE_STRING m0) as [[[v|]|e] m'].
  - by destruct H as (_ & (_ & _ & ? & _) & _).
  - by rewrite H.
  - destruct H as [_ H%restored_put_back]. by destruct H as (_ & (_ & _ & ? & _) & _).
Qed.

(** ** The theorems *)

(** C2. Parsing and reading untrusted bytes is safe. Whatever bytes arrive as a
    D-Bus 1 message (the version byte is not that of GVariant) and whatever
    sequence of reading calls a client then makes, in any order and with any
    arguments but entering a basic value as a container: the parser accepts the
    message or reports an error without failing an assertion, and so does every
    call; the body is a piece of the bytes that arrived, no call changes it or
    the header, and the read position stays inside it. *)
Theorem untrusted_message_safe buf fds ops :
  Forall is_byte buf -> char_at buf 3 <> 2 -> Forall op_ok ops ->
  match bus_message_from_malloc buf fds with
  | Err e => e <> EASSERT
  | Ok m =>
      let '(es, m') := run_ops ops m in
      Forall (fun e => e <> Some EASSERT) es /\
      (exists n, body m = drop n buf) /\
      hdr m' = hdr m /\ fields m' = fields m /\ body m' = body m /\
      0 <= rindex m' <= zlen (body m')
  end.
Proof.
  intros Hb Hv Hops. pose proof (from_malloc_safe buf fds Hb Hv) as H.
  destruct (bus_message_from_malloc buf fds) as [m|e]; [|done]. destruct H as (R & n & En).
  pose proof (ops_safe ops m R Hops) as Ho. destruct (run_ops ops m) as [es m'].
  destruct Ho as (Hes & R' & Eh & Ef & Eb & _). split; [done|]. split; [by exists n|].
  do 3 (split; [done|]). apply R'.
Qed.

