(* ===== verification/MsgCopy.v ===== *)
(** * Copying, skipping and argument access ([src/libsystemd/sd-bus/bus-message.c])

    [sd_bus_message_copy] and [bus_message_remarshal], [sd_bus_message_skip],
    [sd_bus_message_read_strv] and the access to leading string arguments that
    match rules use. Copying is shown to append exactly the values read. *)
From S2P Require Import Prelude BusType Signature Names Utf8 Gvariant MsgState MsgWrite MsgFields MsgRead MsgBody Marshal MsgAppend MsgReadback MsgRoundtrip.

(** ** Skipping *)

(** [sd_bus_message_skip] with [types] given; the result 0 is [false]. One call
    per unit of fuel, the loop over an array's elements included. *)
Fixpoint skip_types (fuel : nat) (types : cstr) : stm message bool :=
  match fuel with
  | O => sfail EASSERT
  | S fuel =>
      let t := deref types in
      if t =? 0 then mret false
      else if in_set t (bs "ybnqiuxtdsogh") then
        r ← sd_bus_message_read_basic t;
        if bool_decide (r = None) then mret false
        else skip_types fuel (tail types);; mret true
      else if t =? SD_BUS_TYPE_ARRAY then
        k ← slift (signature_element_length (tail types));
        let s := take k (tail types) in
        r ← sd_bus_message_enter_container SD_BUS_TYPE_ARRAY (Some s);
        if negb r then mret false
        else
          skip_elements fuel s;;
          sd_bus_message_exit_container;;
          skip_types fuel (drop k (tail types));; mret true
      else if t =? SD_BUS_TYPE_VARIANT then
        p ← get_res sd_bus_message_peek_type;
        match p with
        | None => mret false
        | Some (x, contents) =>
            sreq (x =? SD_BUS_TYPE_VARIANT) ENXIO;;
            r ← sd_bus_message_enter_container SD_BUS_TYPE_VARIANT contents;
            if negb r then mret false
            else
              r ← skip_types fuel (default [] contents);
              sreq r EASSERT;;
              sd_bus_message_exit_container;;
              skip_types fuel (tail types);; mret true
        end
      else if in_set t [SD_BUS_TYPE_STRUCT_BEGIN; SD_BUS_TYPE_DICT_ENTRY_BEGIN] then
        k ← slift (signature_element_length types);
        let s := take (k - 2) (tail types) in
        r ← sd_bus_message_enter_container
              (if t =? SD_BUS_TYPE_STRUCT_BEGIN then SD_BUS_TYPE_STRUCT else SD_BUS_TYPE_DICT_ENTRY)
              (Some s);
        if negb r then mret false
        else
          skip_types fuel s;;
          sd_bus_message_exit_container;;
          skip_types fuel (drop k types);; mret true
      else sfail EINVAL
  end
with skip_elements (fuel : nat) (s : cstr) : stm message unit :=
  match fuel with
  | O => sfail EASSERT
  | S fuel => r ← skip_types fuel s; if r : bool then skip_elements fuel s else mret tt
  end.

(** A value needs a few calls per byte and level of nesting
    ([vsizes_fuel] below). *)
Definition message_fuel (m : message) : nat := 1024 * (length (body m) + 1).

(** [sd_bus_message_skip]; without [types] one element. *)
Definition sd_bus_message_skip (types : option cstr) : stm message bool :=
  m ← sget;
  sreq (sealed m) EPERM;;
  match types with
  | Some s => skip_types (message_fuel m) s
  | None =>
      sreq (negb (message_end_of_signature m)) ENXIO;;
      eoa ← slift (message_end_of_array m (rindex m));
      if eoa : bool then mret false
      else
        let c := message_get_last_container m in
        let s := drop (index c) (default [] (signature c)) in
        l ← slift (signature_element_length s);
        skip_types (message_fuel m) (take l s)
  end.

(** ** Arrays of strings and the leading arguments *)

(** The loop of [bus_message_read_strv_extend] *)
Fixpoint read_strv_loop (fuel : nat) (l : list cstr) : stm message (list cstr) :=
  match fuel with
  | O => sfail EASSERT
  | S fuel =>
      r ← sd_bus_message_read_basic SD_BUS_TYPE_STRING;
      match r with
      | Some (BStr s) => read_strv_loop fuel (l ++ [s])
      | Some _ => sfail EASSERT
      | None => mret l
      end
  end.

(** [None] is the return value 0. *)
Definition bus_message_read_strv_extend (l : list cstr) : stm message (option (list cstr)) :=
  r ← sd_bus_message_enter_container SD_BUS_TYPE_ARRAY (Some (bs "s"));
  if negb r then mret None
  else
    m ← sget;
    l ← read_strv_loop (message_fuel m) l;
    sd_bus_message_exit_container;;
    mret (Some l).

Definition sd_bus_message_read_strv : stm message (option (list cstr)) :=
  m ← sget;
  sreq (sealed m) EPERM;;
  bus_message_read_strv_extend [].

Definition is_string_type (t : Z) : bool :=
  in_set t [SD_BUS_TYPE_STRING; SD_BUS_TYPE_OBJECT_PATH; SD_BUS_TYPE_SIGNATURE].
Definition is_string_signature (s : option cstr) : bool :=
  match s with Some s => existsb (streq s) [bs "s"; bs "o"; bs "g"] | None => false end.

(** The loop of [bus_message_get_arg_skip], [i - j] arguments to go. *)
Fixpoint get_arg_skip_loop (n : nat) : stm message (Z * option cstr) :=
  p ← get_res sd_bus_message_peek_type;
  match p with
  | None => sfail ENXIO
  | Some (t, contents) =>
      sreq (is_string_type t || (t =? SD_BUS_TYPE_ARRAY) && is_string_signature contents) ENXIO;;
      match n with
      | O => mret (t, contents)
      | S n => sd_bus_message_skip None;; get_arg_skip_loop n
      end
  end.

Definition bus_message_get_arg_skip (i : nat) : stm message (Z * option cstr) :=
  sd_bus_message_rewind true;; get_arg_skip_loop i.

Definition bus_message_get_arg (i : nat) : stm message (option basic_value) :=
  '(t, _) ← bus_message_get_arg_skip i;
  sreq (is_string_type t) ENXIO;;
  sd_bus_message_read_basic t.

Definition bus_message_get_arg_strv (i : nat) : stm message (option (list cstr)) :=
  '(t, contents) ← bus_message_get_arg_skip i;
  sreq (t =? SD_BUS_TYPE_ARRAY) ENXIO;;
  sreq (is_string_signature contents) ENXIO;;
  sd_bus_message_read_strv.

(** ** Copying *)

(** The message written to and the one read from. *)
Definition on_dest {A} (f : stm message A) : stm (message * message) A :=
  fun '(m, src) => let '(r, m) := f m in (r, (m, src)).
Definition on_source {A} (f : stm message A) : stm (message * message) A :=
  fun '(m, src) => let '(r, src) := f src in (r, (m, src)).

Section Copy.
(** [fcntl(fd, F_DUPFD_CLOEXEC, 3)], as for appending *)
Variable dup_fd : Z -> res Z.

(** The loop of [sd_bus_message_copy]; the result is [done_something]. *)
Fixpoint copy_loop (fuel : nat) (all : bool) : stm (message * message) bool :=
  match fuel with
  | O => sfail EASSERT
  | S fuel =>
      p ← on_source (get_res sd_bus_message_peek_type);
      match p with
      | None => mret false
      | Some (type, contents) =>
          (if bus_type_is_container type then
             on_source (sd_bus_message_enter_container type contents);;
             s ← slift (match contents with Some s => Ok s | None => Err EINVAL end);
             on_dest (sd_bus_message_open_container type s);;
             copy_loop fuel true;;
             on_dest sd_bus_message_close_container;;
             on_source sd_bus_message_exit_container
           else
             x ← on_source (sd_bus_message_read_basic type);
             sreq (negb (bool_decide (x = None))) EASSERT;;
             on_dest (sd_bus_message_append_basic dup_fd type x));;
          (if all then copy_loop fuel all;; mret true else mret true)
      end
  end.

Definition sd_bus_message_copy (all : bool) : stm (message * message) bool :=
  '(m, src) ← sget;
  sreq (negb (sealed m)) EPERM;;
  sreq (sealed src) EPERM;;
  copy_loop (message_fuel src) all.

(** [bus_message_remarshal] up to the seal: the copy in the bus's own version
    and byte order. [n->error.message] receives the error's name; the model has
    no member for it, and [error_name] stays unset as in the code. *)
Definition remarshal_header (bus : sd_bus) (m : message) : res message :=
  let t := h_type (hdr m) in
  let str {A} (o : option cstr) (k : cstr -> res A) :=
    match o with Some s => k s | None => Err EINVAL end in
  n ← (if t =? SD_BUS_MESSAGE_SIGNAL then
         str (path m) (fun p => str (interface m) (fun i => str (member m) (fun mem =>
           sd_bus_message_new_signal bus p i mem)))
       else if t =? SD_BUS_MESSAGE_METHOD_CALL then
         str (path m) (fun p => str (member m) (fun mem =>
           sd_bus_message_new_method_call bus (destination m) p (interface m) mem))
       else if in_set t [SD_BUS_MESSAGE_METHOD_RETURN; SD_BUS_MESSAGE_METHOD_ERROR] then
         n ← or_enomem (sd_bus_message_new bus t);
         build (set_reply_cookie (reply_cookie m) n)
           (message_append_reply_cookie (reply_cookie m);;
            match error_name m with
            | Some e =>
                if t =? SD_BUS_MESSAGE_METHOD_ERROR then
                  message_append_field_string BUS_MESSAGE_HEADER_ERROR_NAME SD_BUS_TYPE_STRING e
                else mret tt
            | None => mret tt
            end)
       else Err EINVAL);
  build n
    ((if bool_decide (destination n = None)
      then opt_string_field BUS_MESSAGE_HEADER_DESTINATION (destination m) set_destination
      else mret tt);;
     (if bool_decide (sender n = None)
      then opt_string_field BUS_MESSAGE_HEADER_SENDER (sender m) set_sender
      else mret tt);;
     smod (or_flag (Z.land (h_flags (hdr m))
       (Z.lor BUS_MESSAGE_NO_REPLY_EXPECTED BUS_MESSAGE_NO_AUTO_START)))).

(** [timeout_usec] is [sd_bus_get_method_call_timeout]'s answer. *)
Definition bus_message_remarshal (bus : sd_bus) (timeout_usec : Z) (m : message) : res message :=
  n ← remarshal_header bus m;
  match sd_bus_message_copy true (n, m) with
  | (Err e, _) => Err e
  | (Ok _, (n, _)) =>
      let t := if (timeout m =? 0) && negb (has_flag BUS_MESSAGE_NO_REPLY_EXPECTED m)
               then timeout_usec else timeout m in
      build n (sd_bus_message_seal (BUS_MESSAGE_COOKIE m) t)
  end.

End Copy.

(** ** Enough fuel *)
Lemma list_sum_le {A} (f g : A -> nat) l :
  Forall (fun x => f x <= g x)%nat l -> (list_sum (map f l) <= list_sum (map g l))%nat.
Proof. induction 1; simpl; lia. Qed.

Lemma marshal_seq_vsize be d vs :
  Forall (fun v => forall p, S (vsize v) <= (4 * d + 1) * length (marshal be p v))%nat vs -> forall p,
  (list_sum (map (fun v => S (vsize v)) vs) <= (4 * d + 1) * length (marshal_seq be p vs))%nat.
Proof.
  induction 1 as [|v vs Hv _ IH]; intros p; cbn [map list_sum foldr]; [lia|].
  rewrite marshal_seq_cons, length_app. specialize (Hv p). specialize (IH (p + zlen (marshal be p v))).
  unfold list_sum in *. lia.
Qed.

Lemma marshal_seq_nonempty be p vs :
  Forall (fun v => value_ok v = true) vs -> vs <> [] -> (1 <= length (marshal_seq be p vs))%nat.
Proof.
  intros H Hn. destruct vs as [|v vs]; [done|]. inversion_clear H as [|?? H1 _].
  rewrite marshal_seq_cons, length_app. pose proof (marshal_nonempty be v p H1). unfold zlen in *. lia.
Qed.

Lemma vsize_members be d vs :
  Forall (fun v => value_ok v = true -> forall p,
    vsize v <= 4 * S (vdepth v) * length (marshal be p v))%nat vs ->
  Forall (fun v => value_ok v = true) vs -> (list_max (map vdepth vs) <= d)%nat ->
  forall p, (list_sum (map (fun v => S (vsize v)) vs) <= (4 * S d + 1) * length (marshal_seq be p vs))%nat.
Proof.
  intros IH Hok Hd p. apply marshal_seq_vsize. apply list_max_le in Hd. apply Forall_map in Hd.
  rewrite Forall_forall in IH, Hok, Hd |- *. intros v Hin q.
  specialize (IH v Hin (Hok v Hin) q). specialize (Hd v Hin). simpl in Hd.
  pose proof (marshal_nonempty be v q (Hok v Hin)) as Hn. unfold zlen in Hn.
  assert (4 * S (vdepth v) * length (marshal be q v) <= 4 * S d * length (marshal be q v))%nat
    by (apply Nat.mul_le_mono_r; lia). lia.
Qed.

Lemma vsize_bound be v : forall p, value_ok v = true ->
  (vsize v <= 4 * S (vdepth v) * length (marshal be p v))%nat.
Proof.
  induction v as [t x|el vs IH|v IH|k vs IH] using value_ind'; intros p Hok;
    pose proof (marshal_nonempty be _ p Hok) as Hn; unfold zlen in Hn.
  - cbn [vsize vdepth]. lia.
  - rewrite marshal_array in Hn |- *. cbv zeta in *. set (p2 := align_up _ _) in *.
    cbn [vsize vdepth]. rewrite !length_app in *. cbn [value_ok] in Hok. ztests.
    match goal with H : forallb _ vs = true |- _ => pose proof (items_ok _ _ H) as Hvs end.
    assert (HM := vsize_members be (list_max (map vdepth vs)) vs).
    specialize (HM ltac:(eapply Forall_impl; [exact IH|]; simpl; auto) Hvs ltac:(done) p2).
    rewrite word_length. set (d := list_max _) in *. set (b := length (marshal_seq be p2 vs)) in *. nia.
  - unfold marshal in *. cbn [marshal_with vsize vdepth value_ok] in *. fold (marshal be) in *. ztests.
    specialize (IH (p + zlen (vtype v) + 2) ltac:(done)). rewrite !length_app in *. cbn [length] in *.
    set (b := length (marshal be _ v)) in *. set (d := vdepth v) in *. nia.
  - rewrite marshal_tuple in Hn |- *. cbn [vsize vdepth value_ok] in *. rewrite length_app in *. ztests.
    match goal with H : forallb _ vs = true |- _ => apply forallb_Forall in H as Hvs end.
    assert (Hvs1 : Forall (fun v => value_ok v = true) vs).
    { eapply Forall_impl; [exact Hvs|]. simpl. intros v Hv. by ztests. }
    assert (HM := vsize_members be (list_max (map vdepth vs)) vs).
    specialize (HM ltac:(eapply Forall_impl; [exact IH|]; simpl; auto) Hvs1 ltac:(done) (align_up p 8)).
    assert (vs <> []) as Hne.
    { match goal with G : negb (bool_decide (vs = [])) = true |- _ => by apply negb_true_iff, bool_decide_eq_false in G
      | _ => by intros -> end. }
    pose proof (marshal_seq_nonempty be (align_up p 8) vs Hvs1 Hne).
    set (d := list_max _) in *. set (b := length (marshal_seq be _ vs)) in *. nia.
Qed.

Lemma vsizes_fuel be vs p n :
  Forall (fun v => value_ok v = true) vs -> Forall (fun v => vdepth v <= BUS_CONTAINER_DEPTH)%nat vs ->
  length (marshal_seq be p vs) = n -> (vsizes vs < 1024 * (n + 1))%nat.
Proof.
  intros Hok Hd <-. assert (HM := vsize_members be BUS_CONTAINER_DEPTH vs).
  specialize (HM ltac:(apply Forall_forall; intros v _ Hv q; by apply vsize_bound) Hok
    ltac:(apply list_max_le, Forall_map; exact Hd) p).
  unfold vsizes. change BUS_CONTAINER_DEPTH with 128%nat in HM. lia.
Qed.

(** ** Copying is reading and appending *)
Lemma peek_kind m t c :
  sd_bus_message_peek_type m = Ok (Some (t, c)) ->
  bus_type_is_container t = match c with Some _ => true | None => false end.
Proof.
  unfold sd_bus_message_peek_type.
  destruct (sealed m); cbn [require mbind res_bind]; [|done].
  destruct (message_end_of_signature m); [done|].
  destruct (message_end_of_array m _) as [[|]|]; cbn [mbind res_bind]; [done| |done].
  set (s := drop _ _). destruct (bus_type_is_basic (deref s)) eqn:Eb.
  { intros [= <- <-]. unfold bus_type_is_basic in Eb. unfold bus_type_is_container. by in_set_cases Eb. }
  destruct (_ =? SD_BUS_TYPE_ARRAY).
  { destruct (signature_element_length _); cbn [mbind res_bind]; [|done]. by intros [= <- <-]. }
  destruct (in_set _ _).
  { destruct (signature_element_length _); cbn [mbind res_bind]; [|done].
    destruct (require _ _); cbn [mbind res_bind]; [|done]. intros [= <- <-]. by case_match. }
  destruct (_ =? SD_BUS_TYPE_VARIANT); [|done].
  destruct (BUS_MESSAGE_IS_GVARIANT m).
  { destruct (_ <? 2); [done|]. destruct (find_nul _ _ _ _); cbn [mbind res_bind]; [|done].
    destruct (require _ _); cbn [mbind res_bind]; [|done]. by intros [= <- <-]. }
  destruct (message_peek_body _ _ _ _) as [[ri q]|]; cbn [mbind res_bind]; [|done].
  destruct (_ =? 255); [done|].
  destruct (message_peek_body _ _ _ _) as [[ri' q']|]; cbn [mbind res_bind]; [|done].
  destruct (require _ _); cbn [mbind res_bind]; [|done]. by intros [= <- <-].
Qed.

Lemma at_end_peek m :
  sd_bus_message_at_end m false = Ok true -> sd_bus_message_peek_type m = Ok None.
Proof.
  unfold sd_bus_message_at_end, sd_bus_message_peek_type.
  destruct (sealed m); cbn [require mbind res_bind andb]; [|done].
  destruct (message_end_of_signature m); [done|]. by intros ->.
Qed.

Lemma append_basic_dup dup t x m m' :
  sd_bus_message_append_basic (fun _ => Err EASSERT) t (Some x) m = (Ok tt, m') ->
  sd_bus_message_append_basic dup t (Some x) m = (Ok tt, m').
Proof.
  unfold sd_bus_message_append_basic, message_append_basic.
  destruct (t =? SD_BUS_TYPE_UNIX_FD) eqn:E; [|done]. intros H. exfalso.
  do 5 apply stm_bind_ok in H as (? & ? & _ & H). apply stm_bind_ok in H as (? & ? & H & _).
  apply stm_bind_ok in H as (? & ? & _ & H). apply stm_bind_ok in H as (? & ? & H & _).
  unfold message_push_fd in H. do 3 apply stm_bind_ok in H as (? & ? & _ & H). done.
Qed.

Lemma on_dest_run {A} (f : stm message A) m src a m' :
  f m = (Ok a, m') -> on_dest f (m, src) = (Ok a, (m', src)).
Proof. unfold on_dest. by intros ->. Qed.

Lemma on_source_run {A} (f : stm message A) m src a src' :
  f src = (Ok a, src') -> on_source f (m, src) = (Ok a, (m, src')).
Proof. unfold on_source. by intros ->. Qed.

Section CopyProof.
Variable dup_fd : Z -> res Z.

Definition copies (fuel : nat) : Prop := forall v src src',
  read_value fuel src = (Ok v, src') -> forall m m', append_value v m = (Ok tt, m') ->
  forall n all, (fuel <= S n)%nat ->
  copy_loop dup_fd (S n) all (m, src) =
  ((if all then copy_loop dup_fd n all;; mret true else mret true) : stm _ _) (m', src').

Definition copies_all (fuel : nat) : Prop := forall vs src src',
  read_values fuel src = (Ok vs, src') -> forall m m', append_values vs m = (Ok tt, m') ->
  forall n, (fuel <= n)%nat ->
  copy_loop dup_fd n true (m, src) = (Ok (negb (bool_decide (vs = []))), (m', src')).

(** The container whose items are [vs], opened on both sides. *)
Lemma copy_container fuel t s vs src src1 src2 src3 m m1 m2 m3 n b all :
  copies_all fuel -> sd_bus_message_peek_type src = Ok (Some (t, Some s)) ->
  sd_bus_message_enter_container t (Some s) src = (Ok b, src1) ->
  read_values fuel src1 = (Ok vs, src2) -> sd_bus_message_exit_container src2 = (Ok tt, src3) ->
  sd_bus_message_open_container t s m = (Ok tt, m1) -> append_values vs m1 = (Ok tt, m2) ->
  sd_bus_message_close_container m2 = (Ok tt, m3) -> (fuel <= n)%nat ->
  copy_loop dup_fd (S n) all (m, src) =
  ((if all then copy_loop dup_fd n all;; mret true else mret true) : stm _ _) (m3, src3).
Proof.
  intros IH Hp Hen Hrd Hex Hop Hap Hcl Hn. cbn [copy_loop].
  erewrite stm_bind_run by (apply on_source_run; unfold get_res; by rewrite Hp).
  cbn beta iota. rewrite (peek_kind _ _ _ Hp).
  erewrite stm_bind_run; [done|]. erewrite stm_bind_run by (by apply on_source_run).
  erewrite stm_bind_run by reflexivity. erewrite stm_bind_run by (by apply on_dest_run).
  erewrite stm_bind_run by (by eapply IH). erewrite stm_bind_run by (by apply on_dest_run).
  by apply on_source_run.
Qed.

Lemma copy_step fuel : copies_all fuel -> copies (S fuel).
Proof.
  intros IH v src src' Hr m m' Ha n all Hn. cbn [read_value] in Hr.
  apply stm_bind_ok in Hr as (p & s1 & Hp & Hr). unfold get_res in Hp. injection Hp as Hp <-.
  destruct p as [[t [s|]]|]; [| |done].
  - apply stm_bind_ok in Hr as (b & s2 & Hen & Hr). apply stm_bind_ok in Hr as (vs & s3 & Hrd & Hr).
    apply stm_bind_ok in Hr as ([] & s4 & Hex & Hr).
    assert (Hcop : forall m1 m2 m3, sd_bus_message_open_container t s m = (Ok tt, m1) ->
      append_values vs m1 = (Ok tt, m2) -> sd_bus_message_close_container m2 = (Ok tt, m3) ->
      copy_loop dup_fd (S n) all (m, src) =
      ((if all then copy_loop dup_fd n all;; mret true else mret true) : stm _ _) (m3, s4)).
    { intros. eapply copy_container; try done. lia. }
    assert (Hopen : forall s', s = s' ->
      (sd_bus_message_open_container t s';; append_values vs;; sd_bus_message_close_container) m = (Ok tt, m') ->
      copy_loop dup_fd (S n) all (m, src) =
      ((if all then copy_loop dup_fd n all;; mret true else mret true) : stm _ _) (m', s4)).
    { intros s' <- H. apply stm_bind_ok in H as ([] & m1 & H1 & H).
      apply stm_bind_ok in H as ([] & m2 & H2 & H3). by eapply Hcop. }
    destruct (Z.eqb_spec t SD_BUS_TYPE_ARRAY) as [->|Hna].
    { injection Hr as <- <-. by apply (Hopen s). }
    destruct (Z.eqb_spec t SD_BUS_TYPE_VARIANT) as [->|Hnv].
    { destruct vs as [|w [|]]; try done. destruct (streq s (vtype w)) eqn:Es; [|done].
      apply streq_spec in Es. injection Hr as <- <-. apply (Hopen _ Es). cbn [append_value] in Ha.
      apply stm_bind_ok in Ha as ([] & m1 & H1 & Ha). apply stm_bind_ok in Ha as ([] & m2 & H2 & H3).
      erewrite stm_bind_run by exact H1. erewrite stm_bind_run; [exact H3|].
      unfold append_values. by rewrite run_each_one. }
    destruct (streq s (vtypes vs)) eqn:Es; [|done]. apply streq_spec in Es. injection Hr as <- <-.
    assert (Et : t = tuple_type (if t =? SD_BUS_TYPE_STRUCT then TStruct else TDict)).
    { pose proof (peek_kind _ _ _ Hp) as Hk. unfold bus_type_is_container in Hk.
      in_set_cases Hk; try done. }
    cbn [append_value] in Ha. rewrite <- Et in Ha. by apply (Hopen _ Es).
  - apply stm_bind_ok in Hr as ([x|] & s2 & Hrd & Hr); [|done]. injection Hr as <- <-.
    cbn [append_value] in Ha. apply (append_basic_dup dup_fd) in Ha. cbn [copy_loop].
    erewrite stm_bind_run by (apply on_source_run; unfold get_res; by rewrite Hp).
    cbn beta iota. rewrite (peek_kind _ _ _ Hp).
    erewrite stm_bind_run; [done|]. erewrite stm_bind_run by (by apply on_source_run).
    erewrite stm_bind_run by reflexivity. by apply on_dest_run.
Qed.

Lemma copy_read fuel : (forall k, (k <= fuel)%nat -> copies k) /\ (forall k, (k <= fuel)%nat -> copies_all k).
Proof.
  induction fuel as [|fuel [IH1 IH2]].
  - split; intros k Hk; (destruct k; [|lia]); [by intros v src src' H|by intros vs src src' H].
  - assert (H1 : forall k, (k <= S fuel)%nat -> copies k).
    { intros k Hk. destruct k as [|k]; [by intros v src src' H|]. apply copy_step, IH2. lia. }
    split; [done|]. intros k Hk. destruct k as [|k]; [by intros vs src src' H|].
    intros vs src src' Hr m m' Ha n Hn. destruct n as [|n]; [lia|]. cbn [read_values] in Hr.
    apply stm_bind_ok in Hr as (e & s1 & He & Hr). unfold get_res in He. injection He as He <-.
    destruct e.
    + injection Hr as <- <-. injection Ha as <-. cbn [copy_loop].
      erewrite stm_bind_run by (apply on_source_run; unfold get_res; by rewrite (at_end_peek _ He)).
      done.
    + apply stm_bind_ok in Hr as (v & s1 & Hv & Hr). apply stm_bind_ok in Hr as (vs' & s2 & Hvs & Hr).
      injection Hr as <- <-. cbn in Ha. fold (run_each append_value) in Ha.
      apply stm_bind_ok in Ha as ([] & m1 & Ha1 & Ha2).
      rewrite (IH1 k ltac:(lia) v src s1 Hv m m1 Ha1 n true ltac:(lia)).
      erewrite stm_bind_run by (eapply (IH2 k); [lia|done|exact Ha2|lia]). done.
Qed.

(** C26. [sd_bus_message_copy] copies the values: from a sealed D-Bus 1 message
    that holds the marshalling of well-formed values, in either byte order, into
    a fresh message it has the effect of appending these values, so that the
    new body is their marshalling in the native byte order; the source is read
    to its end, and the result says whether there was anything to copy. *)
Theorem message_copy_spec vs m src :
  fresh m -> top_ok vs -> zlen (marshal_seq false 0 vs) <= UINT32_MAX ->
  readable src -> containers src = [] -> rindex src = 0 ->
  enclosing (root_container src) = 0 -> index (root_container src) = 0%nat ->
  default [] (signature (root_container src)) = vtypes vs ->
  body src = marshal_seq (BUS_MESSAGE_NEED_BSWAP src) 0 vs ->
  Forall (fun v => vdepth v <= BUS_CONTAINER_DEPTH)%nat vs ->
  exists m' src',
    sd_bus_message_copy dup_fd true (m, src) = (Ok (negb (bool_decide (vs = []))), (m', src')) /\
    append_values vs m = (Ok tt, m') /\ body m' = marshal_seq false 0 vs /\
    sd_bus_message_at_end src' true = Ok true /\ body src' = body src.
Proof.
  intros F Hvs Hl R Hc Hr He Hi Hs Hb Hd.
  destruct (read_values_run vs src) as (src' & Hrd & Hend & _ & Hb'); try done.
  pose proof (append_values_fresh vs m F Hvs Hl) as Ha.
  destruct (appended_facts vs m F Hvs) as (Hbody & _).
  exists (appended vs m), src'. split; [|done]. unfold sd_bus_message_copy.
  erewrite stm_bind_run by reflexivity. cbn beta iota. rewrite (f_sealed m F), (rd_sealed src R).
  do 2 erewrite stm_bind_run by reflexivity.
  eapply (proj2 (copy_read (vsizes vs))); [done|exact Hrd|exact Ha|].
  unfold message_fuel. apply Nat.lt_le_incl.
  eapply vsizes_fuel; [by apply top_ok_values|done|]. by rewrite Hb.
Qed.
End CopyProof.
