(* ===== verification/MsgOrder.v ===== *)
(** * The byte order and the version of a message under construction

    Whatever is appended to a message, its header keeps them; so a message that is
    marshalled again keeps its cookie. *)
From S2P Require Import Prelude BusType Signature Names Gvariant MsgState MsgWrite MsgFields MsgRead MsgParse MsgCopy.

Definition order (m : message) : Z * Z := (h_endian (hdr m), h_version (hdr m)).

Definition same_order {A} (f : stm message A) : Prop := forall m, order (f m).2 = order m.

Create HintDb order discriminated.

(** ** Combinators *)
Lemma order_bind {A B} (f : stm message A) (g : A -> stm message B) :
  same_order f -> (forall a, same_order (g a)) -> same_order (f ≫= g).
Proof.
  intros Hf Hg m. rewrite stm_bind_eq. specialize (Hf m). destruct (f m) as [[a|e] m1]; cbn in *; [|done].
  by rewrite Hg.
Qed.
Lemma order_ret {A} (a : A) : same_order (mret a).
Proof. done. Qed.
Lemma order_fail {A} e : same_order (sfail e : stm message A).
Proof. done. Qed.
Lemma order_lift {A} (x : res A) : same_order (slift x).
Proof. done. Qed.
Lemma order_req b e : same_order (sreq b e).
Proof. done. Qed.
Lemma order_get : same_order sget.
Proof. done. Qed.
#[export] Hint Resolve order_ret order_fail order_lift order_req order_get : order.

Ltac order_step :=
  match goal with
  | |- same_order (_ ≫= _) => apply order_bind
  | |- forall _, _ => intros ?
  | |- same_order (let '(_, _) := ?x in _) => destruct x
  | |- same_order (match ?x with _ => _ end) => destruct x
  | |- same_order (smod _) => solve [auto with order | by intros ?]
  | |- _ => solve [auto with order]
  end.
Ltac order := repeat order_step.

(** ** Growing *)
Lemma order_upd f m : order (upd_last_container f m) = order m.
Proof. unfold upd_last_container. by destruct (containers m). Qed.

Lemma order_mod_upd f : same_order (smod (upd_last_container f)).
Proof. intros m. apply order_upd. Qed.
#[export] Hint Resolve order_mod_upd : order.

Lemma order_part p m : order (message_append_part p m) = order m.
Proof. done. Qed.

Lemma order_containers n m : order (message_extend_containers n m) = order m.
Proof.
  unfold message_extend_containers. destruct (n <=? 0); [done|].
  generalize (containers m). intros cs. revert m. induction cs as [|c cs IH]; intros m; [done|].
  cbn [fold_left]. rewrite IH. unfold extend_one. repeat case_match; done.
Qed.

Lemma order_add_offset o m : order (message_add_offset o m) = order m.
Proof. unfold message_add_offset. repeat case_match; try done; apply order_upd. Qed.

Lemma order_extend_body a sz o fi : same_order (message_extend_body a sz o fi).
Proof.
  intros m. unfold message_extend_body. destruct (poisoned m); [done|]. destruct (orb _ _); [done|]. cbv zeta.
  destruct o; cbn [snd]; rewrite ?order_add_offset, order_containers; repeat case_match; done.
Qed.

Lemma order_extend_fields a sz o : same_order (message_extend_fields a sz o).
Proof.
  intros m. unfold message_extend_fields. destruct (poisoned m); [done|]. cbv zeta.
  repeat case_match; done.
Qed.
#[export] Hint Resolve order_extend_body order_extend_fields : order.

(** ** The header fields *)
Lemma order_field_bytes l o : same_order (append_field_bytes l o).
Proof. unfold append_field_bytes. order. Qed.
#[export] Hint Resolve order_field_bytes : order.

Lemma order_field_string h t s : same_order (message_append_field_string h t s).
Proof. unfold message_append_field_string. order. Qed.
#[export] Hint Resolve order_field_string : order.

Lemma order_field_signature h s : same_order (message_append_field_signature h s).
Proof. unfold message_append_field_signature. order. Qed.
Lemma order_field_uint32 h x : same_order (message_append_field_uint32 h x).
Proof. unfold message_append_field_uint32. order. Qed.
Lemma order_field_uint64 h x : same_order (message_append_field_uint64 h x).
Proof. unfold message_append_field_uint64. order. Qed.
#[export] Hint Resolve order_field_signature order_field_uint32 order_field_uint64 : order.

Lemma order_reply_cookie c : same_order (message_append_reply_cookie c).
Proof. unfold message_append_reply_cookie. order. Qed.

Definition keeps_order (set : option cstr -> message -> message) : Prop :=
  forall o m, order (set o m) = order m.

Lemma order_append_string h t s set : keeps_order set -> same_order (append_string_field h t s set).
Proof. intros H. unfold append_string_field. order. intros m. apply H. Qed.

Lemma order_opt_string h o set : keeps_order set -> same_order (opt_string_field h o set).
Proof. intros H. unfold opt_string_field. destruct o; [by apply order_append_string|done]. Qed.
#[export] Hint Resolve order_reply_cookie order_append_string order_opt_string : order.
#[export] Hint Extern 1 (keeps_order _) => by intros ?? : order.

(** ** The body *)
Lemma order_check_signature t e : same_order (check_or_extend_signature t e).
Proof. unfold check_or_extend_signature. order. Qed.
Lemma order_advance f : same_order (advance_index f).
Proof. unfold advance_index. order. Qed.
Lemma order_align_struct c : same_order (align_struct c).
Proof. unfold align_struct. order. Qed.
#[export] Hint Resolve order_check_signature order_advance order_align_struct : order.

Lemma order_append_basic dup t p : same_order (message_append_basic dup t p).
Proof. unfold message_append_basic, message_push_fd. order. Qed.

Lemma order_open_array c : same_order (bus_message_open_array c).
Proof. unfold bus_message_open_array. order. Qed.
Lemma order_open_variant c : same_order (bus_message_open_variant c).
Proof. unfold bus_message_open_variant. order. Qed.
Lemma order_open_struct c : same_order (bus_message_open_struct c).
Proof. unfold bus_message_open_struct. order. Qed.
Lemma order_open_entry c : same_order (bus_message_open_dict_entry c).
Proof. unfold bus_message_open_dict_entry. order. Qed.
#[export] Hint Resolve order_append_basic order_open_array order_open_variant order_open_struct order_open_entry : order.

Lemma order_open t c : same_order (sd_bus_message_open_container t c).
Proof. unfold sd_bus_message_open_container. order. Qed.

Lemma order_foldr {A} (f : A -> stm message unit -> stm message unit) l :
  (forall a k, same_order k -> same_order (f a k)) -> same_order (foldr f (mret tt) l).
Proof. intros H. induction l as [|a l IH]; cbn [foldr]; [done|]. by apply H. Qed.

Lemma order_write_words a n l : same_order (write_words a n l).
Proof. apply order_foldr. intros [i v] k Hk. order. Qed.
Lemma order_fields_words a n l : same_order (fields_write_words a n l).
Proof. apply order_foldr. intros [i v] k Hk. order. Qed.
#[export] Hint Resolve order_write_words order_fields_words : order.

Lemma order_close_array c : same_order (bus_message_close_array c).
Proof. unfold bus_message_close_array. order. Qed.
Lemma order_close_variant c : same_order (bus_message_close_variant c).
Proof. unfold bus_message_close_variant. order. Qed.
Lemma order_close_struct c o : same_order (bus_message_close_struct c o).
Proof. unfold bus_message_close_struct. order. Qed.
#[export] Hint Resolve order_open order_close_array order_close_variant order_close_struct : order.

Lemma order_close : same_order sd_bus_message_close_container.
Proof. unfold sd_bus_message_close_container. order. Qed.
Lemma order_close_header : same_order bus_message_close_header.
Proof. unfold bus_message_close_header. order. Qed.
#[export] Hint Resolve order_close order_close_header : order.

(** ** Constructors *)
Definition native (r : res message) : Prop := forall m, r = Ok m -> (order m).1 = BUS_NATIVE_ENDIAN.

Lemma native_bind {A} (x : res A) (k : A -> res message) : (forall a, native (k a)) -> native (x ≫= k).
Proof. intros H m. destruct x as [a|e]; cbn; [apply H|done]. Qed.

Lemma native_then r k :
  native r -> (forall m, (order m).1 = BUS_NATIVE_ENDIAN -> native (k m)) -> native (m ← r; k m).
Proof. intros Hr Hk m. destruct r as [m0|e]; cbn; [|done]. apply Hk. by apply Hr. Qed.

Lemma native_build m f : (order m).1 = BUS_NATIVE_ENDIAN -> same_order f -> native (build m f).
Proof.
  intros Hm Hf m'. unfold build. specialize (Hf m). destruct (f m) as [[]  m1]; [|done].
  intros [= <-]. cbn in Hf. by rewrite Hf.
Qed.

Lemma native_new bus t : native (or_enomem (sd_bus_message_new bus t)).
Proof.
  unfold sd_bus_message_new, require. intros m. repeat case_match; cbn; by intros [= <-].
Qed.

Lemma order_or_flag f : same_order (smod (or_flag f)).
Proof. done. Qed.
#[export] Hint Resolve native_new order_or_flag : order.

Ltac native :=
  repeat match goal with
  | |- native (_ ← require _ _; _) => apply native_bind; intros ?
  | |- native (_ ← or_enomem _; _) => apply native_then; [auto with order|intros ? ?]
  | |- native (build _ _) => apply native_build; [done|order]
  end.

Lemma native_signal bus p i mem : native (sd_bus_message_new_signal bus p i mem).
Proof. unfold sd_bus_message_new_signal. native. Qed.
Lemma native_method_call bus d p i mem : native (sd_bus_message_new_method_call bus d p i mem).
Proof. unfold sd_bus_message_new_method_call. native. Qed.
#[export] Hint Resolve native_signal native_method_call : order.

Lemma native_header bus m : native (remarshal_header bus m).
Proof.
  unfold remarshal_header. apply native_then; [|intros n Hn; native].
  destruct (_ =? SD_BUS_MESSAGE_SIGNAL); [repeat case_match; solve [done|auto with order]|].
  destruct (_ =? SD_BUS_MESSAGE_METHOD_CALL); [repeat case_match; solve [done|auto with order]|].
  destruct (in_set _ _); [|done]. native.
Qed.

(** ** Copying and sealing *)
Definition dest_order {A} (f : stm (message * message) A) : Prop :=
  forall x, order (f x).2.1 = order x.1.

Lemma dest_bind {A B} (f : stm (message * message) A) (g : A -> stm (message * message) B) :
  dest_order f -> (forall a, dest_order (g a)) -> dest_order (f ≫= g).
Proof.
  intros Hf Hg x. rewrite stm_bind_eq. specialize (Hf x). destruct (f x) as [[a|e] y]; cbn in *; [|done].
  by rewrite Hg.
Qed.
Lemma dest_source {A} (f : stm message A) : dest_order (on_source f).
Proof. intros [m src]. unfold on_source. by destruct (f src). Qed.
Lemma dest_dest {A} (f : stm message A) : same_order f -> dest_order (on_dest f).
Proof. intros H [m src]. unfold on_dest. specialize (H m). by destruct (f m). Qed.

Lemma dest_copy dup fuel all : dest_order (copy_loop dup fuel all).
Proof.
  revert all. induction fuel as [|fuel IH]; intros all; cbn [copy_loop]; [by intros ?|].
  repeat match goal with
  | |- dest_order (_ ≫= _) => apply dest_bind
  | |- dest_order (on_source _) => apply dest_source
  | |- dest_order (on_dest _) => apply dest_dest; auto with order
  | |- dest_order (copy_loop _ _ _) => apply IH
  | |- forall _, _ => intros ?
  | |- dest_order (match ?x with _ => _ end) => destruct x
  | |- _ => by intros ?
  end.
Qed.

Lemma seal_sealed c t m m' : sd_bus_message_seal c t m = (Ok tt, m') -> sealed m' = true.
Proof.
  intros H. unfold sd_bus_message_seal in H.
  repeat match goal with H : (_ ≫= _) _ = (Ok _, _) |- _ => apply stm_bind_ok in H as (? & ? & _ & H) end.
  by injection H as <-.
Qed.

Lemma seal_cookie c t : 0 <= c -> forall m m', (order m).1 = BUS_NATIVE_ENDIAN ->
  sd_bus_message_seal c t m = (Ok tt, m') -> BUS_MESSAGE_COOKIE m' = c /\ sealed m' = true.
Proof.
  intros Hc m m' Ho H. unfold sd_bus_message_seal in H.
  apply stm_bind_ok in H as (m0 & m1 & [= <- <-] & H).
  do 3 (apply stm_bind_ok in H as ([] & ? & [= _ <-] & H)).
  apply stm_bind_ok in H as ([] & ? & [= Hr <-] & H).
  apply stm_bind_ok in H as ([] & ? & [= _ <-] & H).
  assert (Hm : forall m2, order m2 = order m ->
    BUS_MESSAGE_COOKIE (set_hdr (if BUS_MESSAGE_IS_GVARIANT m2 then set_h_cookie c (hdr m2)
      else set_h_serial (wrap32 c) (hdr m2)) m2) = c).
  { intros m2 [= E1 E2]. unfold BUS_MESSAGE_COOKIE, BUS_MESSAGE_BSWAP, BUS_MESSAGE_NEED_BSWAP, BUS_MESSAGE_IS_GVARIANT in *.
    cbn in Ho. rewrite E2. destruct (h_version (hdr m) =? 2) eqn:Ev; cbn; rewrite ?E1, ?E2, Ho, Ev, Z.eqb_refl; [done|].
    unfold require in Hr. destruct (Z.ltb_spec 0xffffffff c); [done|]. apply wrap_small. lia. }
  do 4 (apply stm_bind_ok in H as ([] & ?m & ?E & H)).
  do 3 (apply stm_bind_ok in H as ([] & ? & [= <-] & H)). injection H as <-.
  split; [|done]. apply Hm.
  assert (forall (f : stm message unit) x y, same_order f -> f x = (Ok tt, y) -> order y = order x) as Hk.
  { intros f x y Hf E'. specialize (Hf x). by rewrite E' in Hf. }
  etrans; [eapply Hk; [|eassumption]; order|]. etrans; [eapply Hk; [|eassumption]; order|].
  etrans; [eapply Hk; [|eassumption]; order|]. eapply Hk; [|eassumption]; order.
Qed.

(** Marshalling again keeps the cookie. *)
Lemma remarshal_cookie dup bus t m n :
  0 <= BUS_MESSAGE_COOKIE m -> bus_message_remarshal dup bus t m = Ok n ->
  BUS_MESSAGE_COOKIE n = BUS_MESSAGE_COOKIE m /\ sealed n = true.
Proof.
  intros Hc H. unfold bus_message_remarshal in H. destruct (remarshal_header bus m) as [n0|] eqn:E0; [|done]. cbn in H.
  apply native_header in E0. pose proof (dest_copy dup (message_fuel m) true) as Hd.
  assert (order (sd_bus_message_copy dup true (n0, m)).2.1 = order n0) as Ho.
  { unfold sd_bus_message_copy. rewrite stm_bind_eq. cbn. do 2 (rewrite stm_bind_eq; unfold sreq, slift; destruct (require _ _); [|done]).
    apply (Hd (n0, m)). }
  destruct (sd_bus_message_copy dup true (n0, m)) as [[d|] [n1 m1]]; [|done]. unfold build in H. cbn in Ho.
  destruct (sd_bus_message_seal _ _ n1) as [[[]|] n2] eqn:Es; [|done]. injection H as <-.
  apply seal_cookie in Es; [done|done|]. by rewrite Ho.
Qed.

(** ** What is received is sealed *)
Ltac peel := repeat match goal with
  | H : (_ ≫= _) = Ok _ |- _ => apply res_bind_ok in H as (? & ? & H)
  | H : (let '(_, _) := ?x in _) = Ok _ |- _ => destruct x
  | H : Err _ = Ok _ |- _ => done
  end.

Lemma parse_string_sealed m have e s v set ri sz ri' m' :
  (forall o, sealed (set o m) = sealed m) ->
  parse_string_field m have e s v set ri sz = Ok (ri', m') -> sealed m' = sealed m.
Proof. intros Hs H. unfold parse_string_field in H. peel. by injection H as _ <-. Qed.

Lemma parse_field_sealed m u t s ri sz ri' m' u' :
  parse_field m u t s ri sz = Ok (ri', m', u') -> sealed m' = sealed m.
Proof.
  intros H. unfold parse_field in H.
  repeat match goal with H : (if ?c then _ else _) = _ |- _ => destruct c end; peel;
    injection H as _ <- _; try done; by eapply parse_string_sealed; [|eassumption].
Qed.

Lemma fields_loop_sealed fuel : forall m u ri sz offs n i m' u',
  fields_loop fuel m u ri sz offs n i = Ok (m', u') -> sealed m' = sealed m.
Proof.
  induction fuel as [|fuel IH]; intros m u ri sz offs n i m' u' H; cbn [fields_loop] in H; [done|].
  destruct (orb _ _); [by injection H as <- _|]. peel. apply IH in H. rewrite H. by eapply parse_field_sealed.
Qed.

Lemma sealed_upd f m : sealed (upd_last_container f m) = sealed m.
Proof. unfold upd_last_container. by destruct (containers m). Qed.

Lemma read_basic_sealed t m : sealed (sd_bus_message_read_basic t m).2 = sealed m.
Proof.
  unfold sd_bus_message_read_basic. rewrite stm_bind_eq. cbn [sget].
  do 3 (rewrite stm_bind_eq; unfold sreq, slift; destruct (require _ _); [|done]).
  rewrite stm_bind_eq. destruct (message_end_of_array m (rindex m)) as [[]|]; [done| |done].
  rewrite stm_bind_eq. destruct (require _ _); [|done]. rewrite stm_bind_eq.
  match goal with |- context [match ?x with Ok _ => _ | Err _ => _ end] => destruct x as [[[ri v] c]|]; [|done] end.
  do 2 (rewrite stm_bind_eq; unfold smod). rewrite stm_bind_eq. unfold advance_index, smod. cbn [snd mret stm_ret].
  rewrite sealed_upd. change (sealed (set_rindex ri ?x)) with (sealed x). apply sealed_upd.
Qed.

Lemma from_malloc_sealed buf fds m : bus_message_from_malloc buf fds = Ok m -> sealed m = true.
Proof.
  intros H. unfold bus_message_from_malloc in H. apply res_bind_ok in H as (m0 & H0 & H).
  assert (sealed m0 = true) as Hs.
  { unfold bus_message_from_header in H0. destruct (h_version _ =? 2) in H0; peel; by injection H0 as <-. }
  set (m1 := if 0 <? _ then _ else m0) in H. assert (sealed m1 = true) as Hs1 by (unfold m1; by case_match).
  clearbody m1. unfold bus_message_parse_fields in H.
  apply res_bind_ok in H as ([[[m2 sz] offs] n] & E2 & H).
  assert (sealed m2 = true) as Hs2.
  { destruct (BUS_MESSAGE_IS_GVARIANT m1); peel; injection E2 as <- _ _ _; done. }
  apply res_bind_ok in H as ([m3 u] & E3 & H). apply fields_loop_sealed in E3. rewrite Hs2 in E3.
  do 3 (apply res_bind_ok in H as ([] & _ & H)). cbv zeta in H. apply res_bind_ok in H as (m4 & E4 & H).
  assert (sealed m4 = true) as Hs4.
  { destruct (BUS_MESSAGE_IS_GVARIANT _) in E4; [|by simplify_eq].
    destruct (fst (build_struct_offsets _ _ _)) as [e|[]] in E4; by simplify_eq. }
  injection H as <-. destruct (h_type _ =? _); [|done].
  change (snd ?x) with (x.2). by rewrite read_basic_sealed.
Qed.
