(* ===== verification/MsgExamples.v ===== *)
(** * The message theorems at concrete messages

    A signal carrying a string, an integer and a dictionary of variants: the
    theorems about writing, sealing, parsing and reading messages applied to it. *)
From S2P Require Import Prelude BusType Signature Names Utf8 Gvariant MsgState MsgWrite MsgFields MsgRead MsgBody Marshal MsgAppend MsgReadback MsgRoundtrip MsgParse MsgWire MsgNew MsgSafety MsgCopy.

Definition sample_bus : sd_bus := Bus BUS_RUNNING 1 true false None.

Definition sample_path : cstr := Eval cbv in bs "/org/example/Obj".
Definition sample_interface : cstr := Eval cbv in bs "org.example.Iface".
Definition sample_member : cstr := Eval cbv in bs "Changed".

(** The message a constructor made, or [d]. *)
Definition made (r : res message) (d : message) : message :=
  match r with Ok m => m | Err _ => d end.

Definition no_message : message :=
  Message (Header 0 0 0 0 0 0 0 0) true true true true [] [] [] 0 0 0 []
    (empty_container 0 false) [] None None None None None None 0 None 0 [].

Definition sample_signal : message :=
  Eval vm_compute in
    made (sd_bus_message_new_signal sample_bus sample_path sample_interface sample_member) no_message.

(** ["s" "u" "a{sv}"]: a string, a number, and a dictionary with a struct. *)
Definition sample_values : list value :=
  Eval vm_compute in
  [ VBasic SD_BUS_TYPE_STRING (BStr (bs "hello"));
    VBasic SD_BUS_TYPE_UINT32 (BInt 7);
    VArray (bs "{sv}")
      [ VTuple TDict
          [ VBasic SD_BUS_TYPE_STRING (BStr (bs "key"));
            VVariant (VTuple TStruct [ VBasic SD_BUS_TYPE_BYTE (BInt 9);
                                       VBasic SD_BUS_TYPE_UINT64 (BInt 10) ]) ] ] ].

Definition sample_fields : list hfield :=
  [ HString BUS_MESSAGE_HEADER_PATH SD_BUS_TYPE_OBJECT_PATH sample_path;
    HString BUS_MESSAGE_HEADER_INTERFACE SD_BUS_TYPE_STRING sample_interface;
    HString BUS_MESSAGE_HEADER_MEMBER SD_BUS_TYPE_STRING sample_member ].

Lemma sample_top : top_ok sample_values.
Proof. repeat (constructor; [by vm_compute|]). constructor. Qed.

Lemma sample_depth : Forall (fun v => vdepth v <= BUS_CONTAINER_DEPTH)%nat sample_values.
Proof. repeat (constructor; [apply Nat.leb_le; by vm_compute|]). constructor. Qed.

Lemma sample_values_ok : values_ok sample_values.
Proof.
  split; [exact sample_top|]. split; [apply Z.leb_le; by vm_compute|].
  split; [by vm_compute|]. split; [by vm_compute|]. exact sample_depth.
Qed.

Lemma sample_fresh : fresh sample_signal.
Proof. by constructor; vm_compute. Qed.

Lemma sample_cstr : is_cstr sample_path /\ is_cstr sample_interface /\ is_cstr sample_member.
Proof. split; [|split]; repeat (constructor; [lia|]); constructor. Qed.

Lemma sample_sendable : sendable sample_fields sample_signal.
Proof.
  destruct sample_cstr as (H1 & H2 & H3).
  constructor; [exact sample_fresh| |by vm_compute..].
  constructor; [by vm_compute|by vm_compute| |by repeat constructor].
  cbn [fields_ok field_ok sample_fields].
  split; [|split; [|split; [|done]]].
  - split; [exact H1|]. split; [by vm_compute|]. left. repeat (split; [reflexivity|]). by vm_compute.
  - split; [exact H2|]. split; [by vm_compute|]. right. split; [reflexivity|]. left.
    repeat (split; [reflexivity|]). by vm_compute.
  - split; [exact H3|]. split; [by vm_compute|]. right. split; [reflexivity|]. right. left.
    repeat (split; [reflexivity|]). by vm_compute.
Qed.

(** ** Witnesses *)
Lemma append_values_marshal_witness :
  exists m', append_values sample_values sample_signal = (Ok tt, m') /\
    body m' = marshal_seq false 0 sample_values /\ body_size m' = zlen (body m') /\
    default [] (signature (root_container m')) = vtypes sample_values /\
    containers m' = [] /\ poisoned m' = false /\ hdr m' = hdr sample_signal /\
    fields m' = fields sample_signal.
Proof.
  apply (append_values_marshal sample_values sample_signal).
  - exact sample_fresh.
  - exact sample_top.
  - apply Z.leb_le. by vm_compute.
Defined.

(** The sealed message, to read. *)
Definition sample_sealed : message :=
  Eval vm_compute in
  snd (sd_bus_message_seal 5 0 (snd (append_values sample_values sample_signal))).

Lemma sample_readable : readable sample_sealed.
Proof.
  constructor; try (by vm_compute). exists false, false. by vm_compute.
Qed.

Lemma read_values_unmarshal_witness :
  exists m', read_values (vsizes sample_values) sample_sealed = (Ok sample_values, m') /\
    sd_bus_message_at_end m' true = Ok true /\ rindex m' = zlen (body sample_sealed) /\
    body m' = body sample_sealed.
Proof.
  apply (read_values_unmarshal sample_values sample_sealed).
  - exact sample_top.
  - exact sample_readable.
  - by vm_compute.
  - by vm_compute.
  - by vm_compute.
  - by vm_compute.
  - by vm_compute.
  - by vm_compute.
  - exact sample_depth.
Defined.

Lemma message_roundtrip_witness :
  exists m1 m2 m3,
    append_values sample_values sample_signal = (Ok tt, m1) /\
    sd_bus_message_seal 5 0 m1 = (Ok tt, m2) /\
    read_values (vsizes sample_values) m2 = (Ok sample_values, m3) /\
    sd_bus_message_at_end m3 true = Ok true.
Proof.
  apply (message_roundtrip sample_values sample_signal 5 0).
  - exact sample_fresh.
  - exact sample_top.
  - apply Z.leb_le. by vm_compute.
  - apply Z.leb_le. by vm_compute.
  - exact sample_depth.
  - lia.
  - by vm_compute.
  - by vm_compute.
Defined.

Lemma wire_roundtrip_witness :
  exists m1 m2 m3 m4 m5 b,
    append_values sample_values sample_signal = (Ok tt, m1) /\
    sd_bus_message_seal 5 0 m1 = (Ok tt, m2) /\
    bus_message_from_malloc (bus_message_get_blob m2) [] = Ok m3 /\
    members m3 = members sample_signal /\ h_type (hdr m3) = h_type (hdr sample_signal) /\
    BUS_MESSAGE_COOKIE m3 = 5 /\
    sd_bus_message_get_signature m3 true = vtypes sample_values /\
    sd_bus_message_rewind true m3 = (Ok b, m4) /\
    read_values (vsizes sample_values) m4 = (Ok sample_values, m5) /\
    sd_bus_message_at_end m5 true = Ok true.
Proof.
  apply (wire_roundtrip sample_fields sample_values sample_signal 5 0).
  - exact sample_sendable.
  - exact sample_values_ok.
  - lia.
  - by vm_compute.
Defined.

Lemma new_signal_spec_witness :
  exists m,
    sd_bus_message_new_signal sample_bus sample_path sample_interface sample_member = Ok m /\
    sendable sample_fields m.
Proof.
  destruct sample_cstr as (H1 & H2 & H3).
  destruct (new_signal_spec sample_bus sample_path sample_interface sample_member)
    as [_ H]; [done|done|done|done|done|by vm_compute|].
  destruct H as (m & E & _ & _ & _ & _ & _ & S); [by vm_compute|].
  exists m. split; [exact E|]. by apply S.
Defined.

Lemma new_method_call_spec_witness :
  sd_bus_message_new_method_call sample_bus None sample_path None (bs "no.dots.here") = Err EINVAL /\
  exists m,
    sd_bus_message_new_method_call sample_bus (Some (bs "org.example")) sample_path
      (Some sample_interface) sample_member = Ok m /\
    destination m = Some (bs "org.example").
Proof.
  destruct sample_cstr as (H1 & H2 & H3). split.
  - apply (new_method_call_spec sample_bus None sample_path None (bs "no.dots.here"));
      try done; by repeat (constructor; [vm_compute; done|]).
  - destruct (new_method_call_spec sample_bus (Some (bs "org.example")) sample_path
      (Some sample_interface) sample_member) as [_ H]; try done.
    { by repeat (constructor; [vm_compute; done|]). }
    destruct H as (m & E & _ & _ & _ & D & _); [by vm_compute|].
    exists m. split; [exact E|exact D].
Defined.

(** A method call as the receiver has it: sealed, with cookie 3. *)
Definition sample_call : message :=
  Eval vm_compute in
  match sd_bus_message_new_method_call sample_bus (Some (bs "org.example")) sample_path
          (Some sample_interface) sample_member with
  | Ok m => set_sender (Some (bs ":1.7")) (snd (sd_bus_message_seal 3 0 m))
  | Err _ => no_message
  end.

Lemma new_method_return_spec_witness :
  exists m, sd_bus_message_new_method_return sample_bus sample_call = Ok m /\
    reply_cookie m = 3 /\ destination m = Some (bs ":1.7") /\ dont_send m = false.
Proof.
  destruct (new_method_return_spec sample_bus sample_call) as (_ & _ & H); try done.
  { by repeat (constructor; [vm_compute; done|]). }
  destruct H as (m & E & H1 & H2 & H3 & _); [done|done|].
  exists m. split; [exact E|]. split; [exact H1|]. split; [exact H2|]. exact H3.
Defined.

(** ** Untrusted input *)

(** The sealed signal's bytes, and a client that reads some of it wrongly. *)
Definition sample_blob : list Z := Eval vm_compute in bus_message_get_blob sample_sealed.

Definition sample_ops : list read_op :=
  [ ReadBasic SD_BUS_TYPE_UINT32; ReadBasic SD_BUS_TYPE_STRING; ExitContainer;
    ReadBasic SD_BUS_TYPE_UINT32; EnterContainer SD_BUS_TYPE_ARRAY None;
    ReadArray SD_BUS_TYPE_BYTE; Rewind true; AtEnd false ].

Lemma bytes_check l : forallb is_byteb l = true -> Forall is_byte l.
Proof.
  intros H. apply forallb_Forall in H. eapply Forall_impl; [exact H|].
  unfold is_byteb, is_byte. intros x Hx. lia.
Qed.

Lemma sample_blob_bytes : Forall is_byte sample_blob.
Proof. apply bytes_check. by vm_compute. Qed.

Lemma untrusted_message_safe_witness :
  match bus_message_from_malloc sample_blob [] with
  | Err e => e <> EASSERT
  | Ok m =>
      let '(es, m') := run_ops sample_ops m in
      Forall (fun e => e <> Some EASSERT) es /\
      (exists n, body m = drop n sample_blob) /\
      hdr m' = hdr m /\ fields m' = fields m /\ body m' = body m /\
      0 <= rindex m' <= zlen (body m')
  end.
Proof.
  apply (untrusted_message_safe sample_blob [] sample_ops).
  - exact sample_blob_bytes.
  - by vm_compute.
  - by repeat constructor.
Defined.



(** A message from a machine of the other byte order, read from its blob;
    copying it into a fresh signal converts the values. *)
Definition big_endian_body : list Z := Eval vm_compute in marshal_seq true 0 sample_values.

Definition big_endian_message : message :=
  Eval vm_compute in
    let h := hdr sample_sealed in
    set_hdr (Header BUS_BIG_ENDIAN (h_type h) (h_flags h) (h_version h)
               (bswap 4 (h_body_size h)) (bswap 4 (h_serial h)) (bswap 4 (h_fields_size h)) (h_cookie h))
      (set_parts [Part big_endian_body true false] sample_sealed).

Lemma big_endian_readable : readable big_endian_message.
Proof. split; [exists true, false; by vm_compute|by vm_compute..|apply Z.leb_le; by vm_compute]. Qed.

Lemma message_copy_spec_witness :
  exists m' src',
    sd_bus_message_copy (fun fd => Ok fd) true (sample_signal, big_endian_message) = (Ok true, (m', src')) /\
    body m' = marshal_seq false 0 sample_values /\ body src' = big_endian_body /\
    body m' <> body src'.
Proof.
  destruct (message_copy_spec (fun fd => Ok fd) sample_values sample_signal big_endian_message)
    as (m' & src' & E & _ & Hb & _ & Hs).
  - exact sample_fresh.
  - exact sample_top.
  - apply Z.leb_le. by vm_compute.
  - exact big_endian_readable.
  - by vm_compute.
  - by vm_compute.
  - by vm_compute.
  - by vm_compute.
  - by vm_compute.
  - by vm_compute.
  - exact sample_depth.
  - exists m', src'. split; [exact E|]. rewrite Hb, Hs. split; [done|]. split; [by vm_compute|].
    by vm_compute.
Defined.

(** ** What the code does at some corners *)

(** Entering whatever comes next, when that is a basic value, duplicates a NULL
    signature. *)
Lemma enter_basic_null : fst (sd_bus_message_enter_container 0 None sample_sealed) = Err EASSERT.
Proof. by vm_compute. Qed.

Definition with_fields (fs : list Z) : message := set_fields fs sample_sealed.

(** An array of two numbers in a header field that is not known: skipping it
    stops after the first element. *)
Lemma skip_array_stops_early :
  message_skip_fields (with_fields [8; 0; 0; 0; 1; 0; 0; 0; 2; 0; 0; 0]) 0 UINT32_MAX (bs "au") =
  Ok (8, []).
Proof. by vm_compute. Qed.

(** A struct in a header field that is not known is refused. *)
Lemma skip_struct_refused :
  signature_is_valid (bs "(y)") true = true /\
  message_skip_fields (with_fields [1]) 0 UINT32_MAX (bs "(y)") = Err EBADMSG.
Proof. split; by vm_compute. Qed.

(** A signature of 255 characters is valid and can be appended, but not read. *)
Lemma long_signature_unreadable :
  let s := replicate 255 (ch "y") in
  signature_is_valid s true = true /\
  let m1 := snd (append_value (VBasic SD_BUS_TYPE_SIGNATURE (BStr s)) sample_signal) in
  body m1 = 255 :: s ++ [0] /\
  fst (sd_bus_message_read_basic SD_BUS_TYPE_SIGNATURE (snd (sd_bus_message_seal 5 0 m1)))
    = Err EBADMSG.
Proof. split; [by vm_compute|]. split; by vm_compute. Qed.

(** The same values through the variable arguments of [sd_bus_message_appendv] *)
Example appendv_values :
  sd_bus_message_appendv no_dup 100 (bs "sua{sv}")
    [Some (BStr (bs "hello")); Some (BInt 7); Some (BInt 1); Some (BStr (bs "key")); Some (BStr (bs "(yt)"));
     Some (BInt 265); Some (BInt 10)] sample_signal = append_values sample_values sample_signal.
Proof. vm_compute. reflexivity. Qed.

(** Nothing to write and nowhere to tell the place: the call is not refused, and in
    the end stores through the NULL pointer. *)
Example array_space_null :
  (sd_bus_message_append_array_space SD_BUS_TYPE_BYTE 0 false sample_signal).1 = Err EASSERT.
Proof. vm_compute. reflexivity. Qed.

(** Two segments of an array, and an array of strings *)
Example array_calls :
  (sd_bus_message_append_array_iovec SD_BUS_TYPE_UINT16 [(Some [1; 2], 2); (None, 4)];;
   sd_bus_message_append_strv no_dup [bs "a"; bs "bc"]) sample_signal =
  append_values [VArray [SD_BUS_TYPE_UINT16] (map (fun x => VBasic SD_BUS_TYPE_UINT16 (BInt x)) [513; 0; 0]);
    VArray [SD_BUS_TYPE_STRING] (map (fun s => VBasic SD_BUS_TYPE_STRING (BStr s)) [bs "a"; bs "bc"])] sample_signal.
Proof. vm_compute. reflexivity. Qed.
