(* ===== verification/Prioq.v ===== *)
(** * Priority queues ([src/basic/prioq.c])

    A binary heap in an array. Every item may carry a pointer to a cell in which
    the queue keeps the item's current index; the cells are the memory [cells].
    The data are the pointers the caller put in; [compare_func] compares what
    they point to, which does not change while they are queued. Growing the
    array is not modelled. The calls on a NULL queue are those on an empty one. *)
From Stdlib Require Import Sorted.
From S2P Require Import Prelude.

(** What a comparison function must be: a total preorder by its sign. *)
Class Comparison {D : Type} (cmp : D -> D -> Z) : Prop := {
  cmp_total x y : cmp x y < 0 \/ cmp y x <= 0;
  cmp_trans x y z : cmp x y <= 0 -> cmp y z <= 0 -> cmp x z <= 0 }.

Record prioq_item (D : Type) := Item { data : D; idx : option nat }.
Arguments Item {D} data idx.
Arguments data {D} p.
Arguments idx {D} p.

Record Prioq (D : Type) := Queue { items : list (prioq_item D); cells : gmap nat Z }.
Arguments Queue {D} items cells.
Arguments items {D} p.
Arguments cells {D} p.

Definition PRIOQ_IDX_NULL : Z := UINT32_MAX.

(** Arithmetic on [unsigned] indices. *)
Definition u32 (x : Z) : nat := Z.to_nat (wrap32 x).

Lemma u32_nat n : Z.of_nat n < 2 ^ 32 -> u32 (Z.of_nat n) = n.
Proof. intros. unfold u32. rewrite wrap_small by lia. lia. Qed.

Section Prioq.
Context {D : Type} `{EqDecision D} (compare_func : D -> D -> Z).

Abbreviation item := (prioq_item D).
Abbreviation queue := (Prioq D).

(** [!i->idx || *i->idx == j], and [if (i->idx) *i->idx = j] *)
Definition idx_is (mem : gmap nat Z) (i : item) (j : nat) : bool :=
  match idx i with
  | None => true
  | Some p => bool_decide (mem !! p = Some (Z.of_nat j))
  end.

Definition set_idx (i : item) (j : nat) (mem : gmap nat Z) : gmap nat Z :=
  match idx i with None => mem | Some p => <[p := Z.of_nat j]> mem end.

(** [q->items[i]] below [n_items]; the access beyond is undefined. *)
Definition item_at (q : queue) (i : nat) : res item :=
  match items q !! i with Some x => Ok x | None => Err EASSERT end.

Definition swap (q : queue) (j k : nat) : res queue :=
  a ← item_at q j;
  b ← item_at q k;
  _ ← require (idx_is (cells q) a j) EASSERT;
  _ ← require (idx_is (cells q) b k) EASSERT;
  Ok (Queue (<[k := a]> (<[j := b]> (items q))) (set_idx a k (set_idx b j (cells q)))).

(** The loops, one iteration per unit of fuel. *)
Fixpoint up_loop (fuel : nat) (q : queue) (i : nat) : res queue :=
  match fuel with
  | O => Err EASSERT
  | S fuel =>
      if bool_decide (i = 0)%nat then Ok q
      else
        let k := ((i - 1) / 2)%nat in
        a ← item_at q k;
        b ← item_at q i;
        if compare_func (data a) (data b) <=? 0 then Ok q
        else
          q ← swap q i k;
          up_loop fuel q k
  end.

Definition shuffle_up (q : queue) (i : nat) : res queue :=
  _ ← require (bool_decide (i < length (items q))%nat) EASSERT;
  up_loop (i + 1) q i.

Fixpoint down_loop (fuel : nat) (q : queue) (i : nat) : res (queue * nat) :=
  match fuel with
  | O => Err EASSERT
  | S fuel =>
      let k := u32 ((Z.of_nat i + 1) * 2) in
      let j := u32 (Z.of_nat k - 1) in
      if bool_decide (length (items q) <= j)%nat then Ok (q, i)
      else
        a ← item_at q i;
        b ← item_at q j;
        let s := if compare_func (data b) (data a) <? 0 then j else i in
        s ← (if bool_decide (k < length (items q))%nat then
               c ← item_at q k;
               d ← item_at q s;
               Ok (if compare_func (data c) (data d) <? 0 then k else s)
             else Ok s);
        if bool_decide (s = i) then Ok (q, i)
        else
          q ← swap q i s;
          down_loop fuel q s
  end.

Definition shuffle_down (q : queue) (i : nat) : res (queue * nat) :=
  down_loop (length (items q) + 1) q i.

Definition prioq_put (q : queue) (d : D) (p : option nat) : res queue :=
  let k := length (items q) in
  let i := Item d p in
  shuffle_up (Queue (items q ++ [i]) (set_idx i k (cells q))) k.

(** [remove_item], the item given by its index *)
Definition remove_item (q : queue) (i : nat) : res queue :=
  let l := (length (items q) - 1)%nat in
  if bool_decide (i = l) then Ok (Queue (take l (items q)) (cells q))
  else
    x ← item_at q l;
    '(q, k) ← shuffle_down
      (Queue (take l (<[i := x]> (items q))) (set_idx x i (cells q))) i;
    shuffle_up q k.

Definition find_item (q : queue) (d : D) (p : option nat) : res (option nat) :=
  if bool_decide (items q = []) then Ok None
  else
    match p with
    | Some p =>
        match cells q !! p with
        | None => Err EASSERT
        | Some v =>
            if (v =? PRIOQ_IDX_NULL) || (Z.of_nat (length (items q)) <=? v) then Ok None
            else
              x ← item_at q (Z.to_nat v);
              Ok (if decide (data x = d) then Some (Z.to_nat v) else None)
        end
    | None => Ok (fst <$> list_find (fun x => data x = d) (items q))
    end.

Definition prioq_remove (q : queue) (d : D) (p : option nat) : res (bool * queue) :=
  i ← find_item q d p;
  match i with
  | None => Ok (false, q)
  | Some i => q ← remove_item q i; Ok (true, q)
  end.

Definition prioq_peek (q : queue) : option D := data <$> head (items q).

Definition prioq_pop (q : queue) : res (option D * queue) :=
  match items q with
  | [] => Ok (None, q)
  | x :: _ => q ← remove_item q 0; Ok (Some (data x), q)
  end.

(** ** The invariant *)

(** The item at [i] does not come after the one at [j]. *)
Definition before_at (l : list item) (i j : nat) : Prop :=
  forall a b, l !! i = Some a -> l !! j = Some b -> compare_func (data a) (data b) <= 0.

Definition parent (k : nat) : nat := ((k - 1) / 2)%nat.

Definition heap (l : list item) : Prop := forall k, (0 < k)%nat -> before_at l (parent k) k.

(** The cell of every queued item holds its index. *)
Definition indexed (q : queue) : Prop := forall i x p,
  items q !! i = Some x -> idx x = Some p -> cells q !! p = Some (Z.of_nat i).

Record wf (q : queue) : Prop := Wf {
  wf_heap : heap (items q);
  wf_idx : indexed q;
  wf_size : Z.of_nat (length (items q)) < 2 ^ 31 }.

(** ** Swapping two items *)
Definition swapped (j k x : nat) : nat :=
  if decide (x = j) then k else if decide (x = k) then j else x.

Lemma lookup_swapped (l : list item) j k a b x :
  l !! j = Some a -> l !! k = Some b ->
  <[k := a]> (<[j := b]> l) !! x = l !! swapped j k x.
Proof.
  intros Ha Hb. apply lookup_lt_Some in Ha as Hj. apply lookup_lt_Some in Hb as Hk.
  unfold swapped. destruct (decide (x = j)) as [->|Hxj].
  - destruct (decide (j = k)) as [->|].
    + rewrite list_lookup_insert_eq by (by rewrite length_insert). congruence.
    + by rewrite list_lookup_insert_ne, list_lookup_insert_eq by done.
  - destruct (decide (x = k)) as [->|].
    + by rewrite list_lookup_insert_eq by (by rewrite length_insert).
    + by rewrite !list_lookup_insert_ne by done.
Qed.

Lemma before_swapped (l : list item) j k a b x y :
  l !! j = Some a -> l !! k = Some b ->
  before_at l (swapped j k x) (swapped j k y) -> before_at (<[k := a]> (<[j := b]> l)) x y.
Proof. intros Ha Hb H c d. rewrite !(lookup_swapped l j k a b) by done. apply H. Qed.

(** What a swap does to a queue whose cells are right. *)
Definition swaps (j k : nat) (q q' : queue) : Prop :=
  exists a b, items q !! j = Some a /\ items q !! k = Some b /\
    items q' = <[k := a]> (<[j := b]> (items q)).

Lemma idx_is_indexed q i x : indexed q -> items q !! i = Some x -> idx_is (cells q) x i = true.
Proof.
  intros H E. unfold idx_is. destruct (idx x) as [p|] eqn:Ep; [|done].
  apply bool_decide_eq_true. by eapply H.
Qed.

Lemma lookup_set_idx (x : item) i mem p :
  idx x <> Some p -> set_idx x i mem !! p = mem !! p.
Proof.
  intros Hp. unfold set_idx. destruct (idx x) as [p'|]; [|done]. by rewrite lookup_insert_ne by congruence.
Qed.

Lemma lookup_set_idx_eq (x : item) i mem p :
  idx x = Some p -> set_idx x i mem !! p = Some (Z.of_nat i).
Proof. intros Hp. unfold set_idx. by rewrite Hp, lookup_insert_eq. Qed.

Lemma indexed_inj q i j x y p :
  indexed q -> items q !! i = Some x -> items q !! j = Some y -> idx x = Some p -> idx y = Some p ->
  i = j.
Proof. intros H Hx Hy Ex Ey. pose proof (H i x p Hx Ex). pose proof (H j y p Hy Ey). naive_solver lia. Qed.

Lemma swap_run q j k :
  indexed q -> (j < length (items q))%nat -> (k < length (items q))%nat -> j <> k ->
  exists q', swap q j k = Ok q' /\ swaps j k q q' /\ indexed q'.
Proof.
  intros H Hj Hk Hne.
  destruct (lookup_lt_is_Some_2 _ _ Hj) as [a Ha]. destruct (lookup_lt_is_Some_2 _ _ Hk) as [b Hb].
  unfold swap, item_at. rewrite Ha, Hb. cbn [mbind res_bind].
  rewrite (idx_is_indexed q j a), (idx_is_indexed q k b) by done. cbn [require mbind res_bind].
  eexists. split; [reflexivity|]. split; [by exists a, b|].
  intros x it p Hx Hp. cbn [items cells] in *. rewrite (lookup_swapped _ j k a b) in Hx by done.
  unfold swapped in Hx. destruct (decide (x = k)) as [->|Hxk].
  - destruct (decide (k = j)); [congruence|]. assert (it = a) as -> by congruence.
    by apply lookup_set_idx_eq.
  - destruct (decide (x = j)) as [->|Hxj].
    + assert (it = b) as -> by congruence. rewrite lookup_set_idx.
      * by apply lookup_set_idx_eq.
      * intros Ea. apply Hne. by eapply indexed_inj.
    + rewrite !lookup_set_idx; [by eapply H|..].
      * intros Eb. apply Hxk. by eapply indexed_inj.
      * intros Ea. apply Hxj. by eapply indexed_inj.
Qed.

Lemma swaps_perm j k q q' : swaps j k q q' -> items q' ≡ₚ items q.
Proof. intros (a & b & Ha & Hb & ->). by apply Permutation_insert_swap. Qed.

Lemma swaps_length j k q q' : swaps j k q q' -> length (items q') = length (items q).
Proof. intros (a & b & Ha & Hb & ->). by rewrite !length_insert. Qed.

Lemma swaps_before j k q q' x y :
  swaps j k q q' -> before_at (items q) (swapped j k x) (swapped j k y) -> before_at (items q') x y.
Proof. intros (a & b & Ha & Hb & ->). by apply before_swapped. Qed.

(** ** Parents *)
Lemma parent_lt k : (0 < k)%nat -> (parent k < k)%nat.
Proof. intros. unfold parent. pose proof (Nat.div_mod_eq (k - 1) 2). lia. Qed.

Lemma parent_child k i : (0 < k)%nat -> parent k = i <-> k = (2 * i + 1)%nat \/ k = (2 * i + 2)%nat.
Proof.
  intros Hk. unfold parent. pose proof (Nat.div_mod_eq (k - 1) 2).
  pose proof (Nat.mod_upper_bound (k - 1) 2 ltac:(lia)). lia.
Qed.

(** ** The loops *)
Context `{Hcmp : !Comparison compare_func}.

Lemma before_trans (l : list item) i j k :
  before_at l i j -> before_at l j k -> (j < length l)%nat -> before_at l i k.
Proof.
  intros H1 H2 Hj a c Ha Hc. destruct (lookup_lt_is_Some_2 _ _ Hj) as [b Hb].
  eapply cmp_trans; [by apply H1|by apply H2].
Qed.

Lemma before_refl (l : list item) i : before_at l i i.
Proof.
  intros a b Ha Hb. assert (b = a) as -> by congruence.
  destruct (cmp_total (data a) (data a)); [lia|done].
Qed.

(** The heap but for the edge from [i] to its parent. *)
Definition up_ok (l : list item) (i : nat) : Prop :=
  (forall k, (0 < k)%nat -> k <> i -> before_at l (parent k) k) /\
  (forall c, (0 < i)%nat -> (0 < c)%nat -> parent c = i -> before_at l (parent i) c).

(** The heap but for the edges at [i]. *)
Definition down_ok (l : list item) (i : nat) : Prop :=
  (forall k, (0 < k)%nat -> k <> i -> parent k <> i -> before_at l (parent k) k) /\
  (forall c, (0 < i)%nat -> (0 < c)%nat -> parent c = i -> before_at l (parent i) c).

Lemma up_step q q' i :
  up_ok (items q) i -> (0 < i < length (items q))%nat -> swaps i (parent i) q q' ->
  before_at (items q) i (parent i) -> up_ok (items q') (parent i).
Proof.
  intros [H1 H2] Hi S Hb. pose proof (parent_lt i ltac:(lia)) as Hp.
  assert (Hsw : forall x, x <> i -> x <> parent i -> swapped i (parent i) x = x).
  { intros x ? ?. unfold swapped. by rewrite !decide_False by done. }
  assert (Hs1 : swapped i (parent i) i = parent i) by (unfold swapped; by rewrite decide_True).
  assert (Hs2 : swapped i (parent i) (parent i) = i).
  { unfold swapped. by rewrite decide_False, decide_True by (done || lia). }
  split.
  - intros k Hk Hkp. apply (swaps_before _ _ _ _ _ _ S).
    destruct (decide (k = i)) as [->|Hki]; [by rewrite Hs1, Hs2|].
    rewrite (Hsw k) by done. destruct (decide (parent k = i)) as [E|Hpi].
    { rewrite E, Hs1. apply H2; lia || done. }
    destruct (decide (parent k = parent i)) as [E|Hpp].
    { rewrite E, Hs2. eapply before_trans; [exact Hb| |lia]. rewrite <- E. by apply H1. }
    rewrite Hsw by done. by apply H1.
  - intros c Hpi Hc E. apply (swaps_before _ _ _ _ _ _ S).
    pose proof (parent_lt (parent i) Hpi). rewrite (Hsw (parent (parent i))) by lia.
    assert (before_at (items q) (parent (parent i)) (parent i)) as Hg by (apply H1; lia).
    destruct (decide (c = i)) as [->|Hci]; [by rewrite Hs1|].
    pose proof (parent_lt c Hc). rewrite Hsw by lia.
    eapply before_trans; [exact Hg| |lia]. rewrite <- E. by apply H1.
Qed.

Lemma up_loop_spec : forall fuel q i,
  indexed q -> (i < length (items q))%nat -> up_ok (items q) i -> (i < fuel)%nat ->
  exists q', up_loop fuel q i = Ok q' /\ heap (items q') /\ indexed q' /\ items q' ≡ₚ items q.
Proof.
  induction fuel as [|fuel IH]; intros q i Hx Hi Hu Hf; [lia|]. cbn [up_loop].
  destruct (decide (i = 0%nat)) as [->|Hi0].
  { rewrite bool_decide_eq_true_2 by done. exists q. split; [done|]. split; [|done].
    intros k Hk. apply Hu; lia. }
  rewrite bool_decide_eq_false_2 by done. fold (parent i). pose proof (parent_lt i ltac:(lia)).
  destruct (lookup_lt_is_Some_2 (items q) (parent i) ltac:(lia)) as [a Ha].
  destruct (lookup_lt_is_Some_2 (items q) i ltac:(lia)) as [b Hb].
  unfold item_at. rewrite Ha, Hb. cbn [mbind res_bind].
  destruct (Z.leb_spec (compare_func (data a) (data b)) 0) as [Hle|Hgt].
  { exists q. split; [done|]. split; [|done]. intros k Hk.
    destruct (decide (k = i)) as [->|]; [|by apply Hu].
    intros a' b' Ha' Hb'. by assert (a' = a) as -> by congruence; assert (b' = b) as -> by congruence. }
  destruct (swap_run q i (parent i) Hx) as (q1 & -> & S & Hx1); [lia..|]. cbn [mbind res_bind].
  pose proof (swaps_length _ _ _ _ S) as Hl.
  destruct (IH q1 (parent i) Hx1) as (q' & Eq & Hh & Hx' & Hp); [lia| |lia|].
  - apply (up_step q q1 i); [done|lia|done|]. intros b' a' Hb' Ha'.
    assert (a' = a) as -> by congruence. assert (b' = b) as -> by congruence.
    destruct (cmp_total (data b) (data a)); lia.
  - exists q'. split; [done|]. split; [done|]. split; [done|]. by rewrite Hp, (swaps_perm _ _ _ _ S).
Qed.

(** One step down, to the smaller child [s]. *)
Lemma down_step q q' i s :
  down_ok (items q) i -> (i < length (items q))%nat -> (0 < s < length (items q))%nat ->
  parent s = i -> swaps i s q q' ->
  before_at (items q) s i -> (forall c, (0 < c)%nat -> parent c = i -> before_at (items q) s c) ->
  down_ok (items q') s /\ before_at (items q') i s /\
  ((0 < i)%nat -> before_at (items q') (parent i) i).
Proof.
  intros [H1 H2] Hi Hs Ep S Hb Hmin. pose proof (parent_lt s ltac:(lia)) as Hp.
  assert (Hsw : forall x, x <> i -> x <> s -> swapped i s x = x).
  { intros x ? ?. unfold swapped. by rewrite !decide_False by done. }
  assert (Hs1 : swapped i s i = s) by (unfold swapped; by rewrite decide_True).
  assert (Hs2 : swapped i s s = i) by (unfold swapped; by rewrite decide_False, decide_True by (done || lia)).
  assert (Hup : (0 < i)%nat -> before_at (items q') (parent i) i).
  { intros Hi0. apply (swaps_before _ _ _ _ _ _ S). pose proof (parent_lt i Hi0).
    rewrite Hs1, Hsw by lia. apply H2; [done|lia|done]. }
  assert (His : before_at (items q') i s).
  { apply (swaps_before _ _ _ _ _ _ S). by rewrite Hs1, Hs2. }
  split; [split|by split].
  - intros k Hk Hks Hps. destruct (decide (k = i)) as [->|Hki]; [by apply Hup|].
    apply (swaps_before _ _ _ _ _ _ S). rewrite (Hsw k) by done.
    destruct (decide (parent k = i)) as [E|Hpi]; [rewrite E, Hs1; by apply Hmin|].
    rewrite Hsw by done. by apply H1.
  - intros c _ Hc E. rewrite Ep. apply (swaps_before _ _ _ _ _ _ S).
    pose proof (parent_lt c Hc). rewrite Hs1, Hsw by lia. rewrite <- E. apply H1; lia.
Qed.
Lemma down_done (l : list item) i :
  down_ok l i -> (forall c, (0 < c)%nat -> parent c = i -> before_at l i c) -> up_ok l i.
Proof.
  intros [H1 H2] Hc. split; [|done]. intros k Hk Hki.
  destruct (decide (parent k = i)) as [E|]; [rewrite E; by apply Hc|by apply H1].
Qed.

Lemma children_out (l : list item) i c :
  (length l <= 2 * i + 1)%nat -> (0 < c)%nat -> parent c = i -> before_at l i c.
Proof.
  intros Hl Hc E a b _ Hb. apply lookup_lt_Some in Hb.
  pose proof (proj1 (parent_child c i Hc) E). lia.
Qed.

Lemma item_at_run q i x : items q !! i = Some x -> item_at q i = Ok x.
Proof. unfold item_at. by intros ->. Qed.

(** The smallest of an item and its children, as the loop picks it. *)
Lemma smallest_spec q i :
  (2 * i + 1 < length (items q))%nat -> Z.of_nat (length (items q)) < 2 ^ 31 ->
  exists s,
    (a ← item_at q i;
     b ← item_at q (2 * i + 1)%nat;
     let s := if compare_func (data b) (data a) <? 0 then (2 * i + 1)%nat else i in
     if bool_decide (2 * i + 2 < length (items q))%nat then
       c ← item_at q (2 * i + 2)%nat;
       d ← item_at q s;
       Ok (if compare_func (data c) (data d) <? 0 then (2 * i + 2)%nat else s)
     else Ok s) = Ok s /\
    (s = i \/ (s = 2 * i + 1)%nat \/ (s = 2 * i + 2)%nat) /\ (s < length (items q))%nat /\
    before_at (items q) s i /\
    (forall c, (0 < c)%nat -> parent c = i -> before_at (items q) s c).
Proof.
  intros Hj Hsz.
  destruct (lookup_lt_is_Some_2 (items q) i ltac:(lia)) as [a Ha].
  destruct (lookup_lt_is_Some_2 (items q) (2 * i + 1) Hj) as [b Hb].
  rewrite (item_at_run q i a Ha), (item_at_run q _ b Hb). cbn [mbind res_bind].
  set (s := if compare_func (data b) (data a) <? 0 then (2 * i + 1)%nat else i).
  assert (Hs : (s = i \/ s = 2 * i + 1)%nat /\ before_at (items q) s i /\ before_at (items q) s (2 * i + 1)).
  { unfold s. destruct (Z.ltb_spec (compare_func (data b) (data a)) 0).
    - split; [by right|]. split; [|by apply before_refl].
      intros x y Hx Hy. assert (x = b) as -> by congruence. assert (y = a) as -> by congruence. lia.
    - split; [by left|]. split; [by apply before_refl|].
      intros x y Hx Hy. assert (x = a) as -> by congruence. assert (y = b) as -> by congruence.
      destruct (cmp_total (data b) (data a)); lia. }
  clearbody s. destruct Hs as (Hs & Hsi & Hsj). assert (s < length (items q))%nat as Hsl by lia.
  case_bool_decide as Hk.
  - destruct (lookup_lt_is_Some_2 (items q) (2 * i + 2) Hk) as [c Hc].
    destruct (lookup_lt_is_Some_2 (items q) s Hsl) as [d Hd].
    rewrite (item_at_run q _ c Hc), (item_at_run q s d Hd). cbn [mbind res_bind].
    destruct (Z.ltb_spec (compare_func (data c) (data d)) 0) as [Hlt|Hge].
    + assert (Hks : before_at (items q) (2 * i + 2) s).
      { intros x y Hx Hy. assert (x = c) as -> by congruence. assert (y = d) as -> by congruence. lia. }
      exists (2 * i + 2)%nat. split; [done|]. split; [by right; right|]. split; [done|].
      split; [by eapply before_trans|]. intros k Hk0 E.
      destruct (proj1 (parent_child k i Hk0) E) as [-> | ->]; [by eapply before_trans|apply before_refl].
    + exists s. split; [done|]. split; [tauto|]. split; [done|]. split; [done|]. intros k Hk0 E.
      destruct (proj1 (parent_child k i Hk0) E) as [-> | ->]; [done|].
      intros x y Hx Hy. assert (x = d) as -> by congruence. assert (y = c) as -> by congruence.
      destruct (cmp_total (data c) (data d)); lia.
  - exists s. split; [done|]. split; [tauto|]. split; [done|]. split; [done|]. intros k Hk0 E.
    destruct (proj1 (parent_child k i Hk0) E) as [-> | ->]; [done|].
    intros x y Hx Hy. apply lookup_lt_Some in Hy. lia.
Qed.

Lemma down_loop_spec : forall fuel q i,
  indexed q -> (i < length (items q))%nat -> Z.of_nat (length (items q)) < 2 ^ 31 ->
  down_ok (items q) i -> (length (items q) < fuel + i)%nat ->
  exists q' i', down_loop fuel q i = Ok (q', i') /\ up_ok (items q') i' /\
    (i' < length (items q'))%nat /\ indexed q' /\ items q' ≡ₚ items q.
Proof.
  induction fuel as [|fuel IH]; intros q i Hx Hi Hsz Hd Hf; [lia|]. cbn [down_loop].
  replace (u32 ((Z.of_nat i + 1) * 2)) with (2 * i + 2)%nat.
  2: { replace ((Z.of_nat i + 1) * 2) with (Z.of_nat (2 * i + 2)) by lia. by rewrite u32_nat by lia. }
  replace (u32 (Z.of_nat (2 * i + 2) - 1)) with (2 * i + 1)%nat.
  2: { replace (Z.of_nat (2 * i + 2) - 1) with (Z.of_nat (2 * i + 1)) by lia. by rewrite u32_nat by lia. }
  case_bool_decide as Hj.
  { exists q, i. split; [done|]. split; [|done]. apply down_done; [done|].
    intros c. by apply children_out. }
  destruct (smallest_spec q i) as (s & Es & Hs & Hsl & Hsi & Hsc); [lia|done|].
  destruct (item_at q i) as [a|]; [|done]. destruct (item_at q (2 * i + 1)) as [b|]; [|done].
  cbn [mbind res_bind] in Es |- *. cbv zeta in Es |- *. rewrite Es. cbn [mbind res_bind]. clear Es.
  case_bool_decide as Hsi'.
  { subst s. exists q, i. split; [done|]. split; [|done]. by apply down_done. }
  destruct (swap_run q i s Hx) as (q1 & -> & S & Hx1); [done|done|done|]. cbn [res_bind].
  pose proof (swaps_length _ _ _ _ S) as Hl.
  destruct (IH q1 s Hx1) as (q' & i' & Eq & Hu & Hi' & Hx' & Hp); [lia|lia| |lia|].
  - eapply down_step; [exact Hd|done|lia| |exact S|done|done].
    apply parent_child; [lia|]. tauto.
  - exists q', i'. split; [done|]. split; [done|]. split; [done|]. split; [done|].
    by rewrite Hp, (swaps_perm _ _ _ _ S).
Qed.
(** ** The operations *)
Lemma heap_up_ok (l : list item) x :
  heap l -> up_ok (l ++ [x]) (length l).
Proof.
  intros H. split.
  - intros k Hk Hne a b Ha Hb. pose proof (parent_lt k Hk).
    assert (k < length l)%nat as Hkl.
    { apply lookup_lt_Some in Hb. rewrite length_app in Hb. simpl in Hb. lia. }
    rewrite lookup_app_l in Ha by lia. rewrite lookup_app_l in Hb by done. by apply (H k).
  - intros c _ Hc E a b _ Hb. pose proof (parent_lt c Hc).
    apply lookup_lt_Some in Hb. rewrite length_app in Hb. simpl in Hb. lia.
Qed.

Lemma shuffle_up_spec q i :
  indexed q -> (i < length (items q))%nat -> up_ok (items q) i ->
  exists q', shuffle_up q i = Ok q' /\ heap (items q') /\ indexed q' /\ items q' ≡ₚ items q.
Proof.
  intros Hx Hi Hu. unfold shuffle_up. rewrite bool_decide_eq_true_2 by done.
  cbn [require mbind res_bind]. apply up_loop_spec; [done|done|done|lia].
Qed.

(** The index cell given with a new item belongs to no item in the queue. *)
Definition cell_free (q : queue) (p : option nat) : Prop :=
  forall x, x ∈ items q -> idx x <> None -> idx x <> p.

Lemma put_run q d p :
  wf q -> Z.of_nat (length (items q)) + 1 < 2 ^ 31 -> cell_free q p ->
  exists q', prioq_put q d p = Ok q' /\ wf q' /\ items q' ≡ₚ Item d p :: items q.
Proof.
  intros [Hh Hx Hs] Hs1 Hp. unfold prioq_put. set (it := Item d p).
  set (q1 := Queue (items q ++ [it]) (set_idx it (length (items q)) (cells q))).
  assert (Hx1 : indexed q1).
  { intros i x c Hi Hc. cbn [items cells q1] in *.
    apply lookup_app_Some in Hi as [Hi|[Hi E]].
    - rewrite lookup_set_idx; [by eapply Hx|]. intros E. apply list_elem_of_lookup_2 in Hi.
      eapply Hp; [exact Hi|by rewrite Hc|]. rewrite Hc. done.
    - apply list_lookup_singleton_Some in E as [E <-].
      assert (i = length (items q)) as -> by lia. by apply lookup_set_idx_eq. }
  destruct (shuffle_up_spec q1 (length (items q)) Hx1) as (q' & E & Hh' & Hx' & Hp').
  - cbn [items q1]. rewrite length_app. simpl. lia.
  - by apply heap_up_ok.
  - exists q'. split; [done|].
    assert (items q' ≡ₚ it :: items q) as Hperm by (rewrite Hp'; symmetry; apply Permutation_cons_append).
    split; [|done]. constructor; [done|done|].
    apply Permutation_length in Hperm. simpl in Hperm. lia.
Qed.

(** Putting the last item into the place of the removed one. *)
Lemma replaced_down_ok (l : list item) i x :
  heap l -> (i < length l - 1)%nat -> l !! (length l - 1)%nat = Some x ->
  down_ok (take (length l - 1) (<[i := x]> l)) i.
Proof.
  intros H Hi Hx. set (l' := take _ _).
  assert (Hl : forall k, k <> i -> (k < length l - 1)%nat -> l' !! k = l !! k).
  { intros k Hk Hlt. unfold l'. rewrite lookup_take_lt by done. by rewrite list_lookup_insert_ne. }
  assert (Hlen : length l' = (length l - 1)%nat).
  { unfold l'. rewrite length_take, length_insert. lia. }
  split.
  - intros k Hk Hki Hpi a b Ha Hb. pose proof (parent_lt k Hk).
    pose proof (lookup_lt_Some _ _ _ Hb). rewrite Hl in Ha, Hb by lia. by apply (H k).
  - intros c Hi0 Hc E a b Ha Hb. pose proof (parent_lt c Hc). pose proof (parent_lt i Hi0).
    pose proof (lookup_lt_Some _ _ _ Hb). rewrite Hl in Ha, Hb by lia.
    refine (before_trans l (parent i) i c _ _ _ a b Ha Hb); [by apply H| |lia].
    rewrite <- E. by apply H.
Qed.

Lemma remove_item_spec q i x :
  wf q -> items q !! i = Some x ->
  exists q', remove_item q i = Ok q' /\ wf q' /\ items q ≡ₚ x :: items q'.
Proof.
  intros [Hh Hx Hs] Hi. pose proof (lookup_lt_Some _ _ _ Hi) as Hlt.
  unfold remove_item. set (n := (length (items q) - 1)%nat). case_bool_decide as Hn.
  - exists (Queue (take n (items q)) (cells q)). split; [done|].
    assert (Hp : items q ≡ₚ x :: take n (items q)).
    { rewrite <- (take_drop_middle (items q) i x Hi) at 1. rewrite drop_ge by lia. subst i.
      symmetry. apply Permutation_cons_append. }
    split; [|done]. constructor; cbn [items].
    + intros k Hk a b Ha Hb. apply lookup_take_Some in Ha as [Ha _]. apply lookup_take_Some in Hb as [Hb _].
      by apply (Hh k).
    + intros k y c Hy Hc. cbn [items] in Hy. apply lookup_take_Some in Hy as [Hy _]. by eapply Hx.
    + rewrite length_take. lia.
  - destruct (lookup_lt_is_Some_2 (items q) n ltac:(lia)) as [y Hy].
    rewrite (item_at_run q n y Hy). cbn [mbind res_bind].
    set (q1 := Queue (take n (<[i := y]> (items q))) (set_idx y i (cells q))).
    assert (Hl1 : length (items q1) = n).
    { cbn [items q1]. rewrite length_take, length_insert. lia. }
    assert (Hp1 : items q ≡ₚ x :: items q1).
    { pose proof (Permutation_insert_swap (items q) i n x y Hi Hy) as Hsw. rewrite <- Hsw.
      set (l' := <[n := x]> (<[i := y]> (items q))).
      assert (l' !! n = Some x) as Hn'.
      { unfold l'. rewrite list_lookup_insert_eq; [done|]. rewrite length_insert. lia. }
      rewrite <- (take_drop_middle l' n x Hn') at 1. rewrite drop_ge.
      2: { unfold l'. rewrite !length_insert. lia. }
      rewrite <- Permutation_cons_append. apply Permutation_cons; [done|].
      cbn [items q1]. unfold l'. by rewrite take_insert_ge by lia. }
    assert (Hx1 : indexed q1).
    { intros k z c Hz Hc. cbn [items cells q1] in *. apply lookup_take_Some in Hz as [Hz Hkn].
      destruct (decide (k = i)) as [->|Hki].
      - rewrite list_lookup_insert_eq in Hz by lia. injection Hz as <-. by apply lookup_set_idx_eq.
      - rewrite list_lookup_insert_ne in Hz by done. rewrite lookup_set_idx; [by eapply Hx|].
        intros E. assert (k = n) by (by eapply indexed_inj). lia. }
    destruct (down_loop_spec (length (items q1) + 1) q1 i) as (q2 & i2 & E2 & Hu2 & Hi2 & Hx2 & Hp2);
      [done|lia|lia| |lia|].
    { apply replaced_down_ok; [done|lia|done]. }
    unfold shuffle_down. rewrite E2. cbn [mbind res_bind].
    destruct (shuffle_up_spec q2 i2 Hx2 Hi2 Hu2) as (q3 & E3 & Hh3 & Hx3 & Hp3).
    exists q3. split; [done|]. split; [|by rewrite Hp3, Hp2].
    constructor; [done|done|]. rewrite Hp3, Hp2. lia.
Qed.

(** Removing by the index cell of a queued item removes that item. *)
Lemma remove_by_cell q d c :
  wf q -> Item d (Some c) ∈ items q ->
  exists q', prioq_remove q d (Some c) = Ok (true, q') /\ wf q' /\ items q ≡ₚ Item d (Some c) :: items q'.
Proof.
  intros W [i Hi]%list_elem_of_lookup. pose proof (wf_idx _ W i _ c Hi eq_refl) as Hc.
  pose proof (lookup_lt_Some _ _ _ Hi) as Hlt. pose proof (wf_size _ W).
  unfold prioq_remove, find_item. rewrite bool_decide_eq_false_2 by (by intros E; rewrite E in Hi).
  rewrite Hc. rewrite (proj2 (Z.eqb_neq _ _)) by (unfold PRIOQ_IDX_NULL, UINT32_MAX; lia).
  rewrite (proj2 (Z.leb_gt _ _)) by lia. cbn [orb]. rewrite Nat2Z.id, (item_at_run q i _ Hi).
  cbn [mbind res_bind data]. rewrite decide_True by done.
  destruct (remove_item_spec q i _ W Hi) as (q' & E & W' & Hp). cbn [mbind res_bind]. rewrite E.
  by exists q'.
Qed.

Lemma heap_root (l : list item) : heap l -> forall k, before_at l 0 k.
Proof.
  intros H k. induction k as [k IH] using lt_wf_ind. destruct (decide (k = 0%nat)) as [->|Hk].
  { apply before_refl. }
  pose proof (parent_lt k ltac:(lia)). intros a b Ha Hb.
  refine (before_trans l 0 (parent k) k (IH _ _) (H k ltac:(lia)) _ a b Ha Hb); [done|].
  apply lookup_lt_Some in Hb. lia.
Qed.
(** Popping until the queue is empty. *)
Fixpoint drain (fuel : nat) (q : queue) : res (list D) :=
  match fuel with
  | O => Ok []
  | S fuel =>
      '(d, q) ← prioq_pop q;
      match d with
      | None => Ok []
      | Some d => l ← drain fuel q; Ok (d :: l)
      end
  end.

Lemma pop_run q :
  wf q ->
  match items q with
  | [] => prioq_pop q = Ok (None, q)
  | x :: _ => exists q', prioq_pop q = Ok (Some (data x), q') /\ wf q' /\
                items q ≡ₚ x :: items q' /\
                Forall (fun y => compare_func (data x) (data y) <= 0) (items q)
  end.
Proof.
  intros W. unfold prioq_pop. destruct (items q) as [|x l] eqn:E; [done|].
  assert (items q !! 0%nat = Some x) as Hx by (by rewrite E).
  destruct (remove_item_spec q 0 x W Hx) as (q' & -> & W' & Hp). cbn [mbind res_bind].
  exists q'. rewrite <- E. split; [done|]. split; [done|]. split; [done|].
  apply Forall_lookup. intros k y Hy. pose proof (wf_heap _ W) as Hh.
  by apply (heap_root (items q) Hh k).
Qed.

(** C33. [prioq_put]: with room below 2^31 items and an index cell no queued item
    uses, putting never fails an assertion, adds exactly the new item, and keeps
    the invariant: no item comes before its parent, and every item's cell holds
    its current index. *)
Theorem prioq_put_spec q d p :
  wf q -> Z.of_nat (length (items q)) + 1 < 2 ^ 31 -> cell_free q p ->
  exists q', prioq_put q d p = Ok q' /\ wf q' /\ items q' ≡ₚ Item d p :: items q.
Proof. apply put_run. Qed.

(** [prioq_pop] takes one item out, and it is one that no queued item comes
    before; on the empty queue it returns nothing. [prioq_peek] says which. *)
Theorem prioq_pop_spec q :
  wf q ->
  match prioq_peek q with
  | None => items q = [] /\ prioq_pop q = Ok (None, q)
  | Some d => exists x q', data x = d /\ prioq_pop q = Ok (Some d, q') /\ wf q' /\
      items q ≡ₚ x :: items q' /\
      Forall (fun y => compare_func d (data y) <= 0) (items q)
  end.
Proof.
  intros W. pose proof (pop_run q W) as H. unfold prioq_peek.
  destruct (items q) as [|x l]; cbn [head fmap option_fmap option_map]; [by split|].
  destruct H as (q' & E & W' & Hp & Hf). by exists x, q'.
Qed.

(** [prioq_remove] by index cell or, without one, by search: it removes one
    item with the given data and keeps the invariant, or, when there is none (or
    the cell's index is not the one of such an item), leaves the queue alone. *)
Theorem prioq_remove_spec q d p :
  wf q -> (forall c, p = Some c -> exists v, cells q !! c = Some v /\ 0 <= v) ->
  exists r q', prioq_remove q d p = Ok (r, q') /\ wf q' /\
    (if r : bool then exists x, data x = d /\ items q ≡ₚ x :: items q' /\
                        (p <> None -> exists i, items q !! i = Some x)
     else q' = q /\ (p = None -> Forall (fun x => data x <> d) (items q)) /\
          (forall c x, p = Some c -> x ∈ items q -> idx x = Some c -> data x <> d)).
Proof.
  intros W Hc. unfold prioq_remove, find_item. case_bool_decide as Hn.
  { exists false, q. rewrite Hn. split; [done|]. split; [done|]. split; [done|].
    split; [done|]. by intros c x _ ?%elem_of_nil. }
  destruct p as [c|].
  - destruct (Hc c eq_refl) as (v & Hv & Hv0). rewrite Hv.
    destruct (_ || _) eqn:Eo.
    { exists false, q. split; [done|]. split; [done|]. split; [done|]. split; [done|].
      intros c' x [= <-] [i Hi]%list_elem_of_lookup Ex _. pose proof (wf_idx _ W i x c Hi Ex) as Hci.
      assert (v = Z.of_nat i) as -> by congruence. apply lookup_lt_Some in Hi.
      pose proof (wf_size _ W). unfold PRIOQ_IDX_NULL, UINT32_MAX in Eo. ztests. lia. }
    apply orb_false_iff in Eo as [_ Eo]. ztests.
    destruct (lookup_lt_is_Some_2 (items q) (Z.to_nat v) ltac:(lia)) as [x Hx].
    rewrite (item_at_run q _ x Hx). cbn [mbind res_bind]. destruct (decide (data x = d)) as [Ed|Ed].
    + destruct (remove_item_spec q _ x W Hx) as (q' & -> & W' & Hp). cbn [mbind res_bind].
      exists true, q'. split; [done|]. split; [done|]. exists x. split; [done|]. split; [done|]. eauto.
    + exists false, q. split; [done|]. split; [done|]. split; [done|]. split; [done|].
      intros c' y [= <-] [i Hi]%list_elem_of_lookup Ey. pose proof (wf_idx _ W i y c Hi Ey).
      assert (v = Z.of_nat i) as -> by congruence. rewrite Nat2Z.id in Hx. congruence.
  - cbn [mbind res_bind]. destruct (list_find _ (items q)) as [[i x]|] eqn:Ef; cbn [fmap option_fmap option_map fst].
    + apply list_find_Some in Ef as (Hx & Ed & _).
      destruct (remove_item_spec q i x W Hx) as (q' & -> & W' & Hp). cbn [mbind res_bind].
      exists true, q'. split; [done|]. split; [done|]. exists x. done.
    + apply list_find_None in Ef. exists false, q. split; [done|]. split; [done|]. split; [done|].
      split; [done|]. by intros.
Qed.

(** Popping everything terminates and sorts: the data come out as a
    permutation of what was put in, in an order in which none comes before an
    earlier one. *)
Theorem prioq_drain_sorted n : forall q,
  wf q -> length (items q) = n ->
  exists l, drain (n + 1) q = Ok l /\ l ≡ₚ map data (items q) /\
    StronglySorted (fun x y => compare_func x y <= 0) l.
Proof.
  induction n as [|n IH]; intros q W Hl; cbn [drain Nat.add]; pose proof (pop_run q W) as H;
    destruct (items q) as [|x l] eqn:E; try done.
  - rewrite H. exists []. split; [done|]. split; [done|]. constructor.
  - destruct H as (q' & -> & W' & Hp & Hf). cbn [mbind res_bind].
    destruct (IH q' W') as (l' & -> & Hp' & Hs).
    { apply Permutation_length in Hp. simpl in Hp, Hl. lia. }
    cbn [mbind res_bind]. exists (data x :: l'). split; [done|].
    assert (Hpd : map data (x :: l) ≡ₚ data x :: map data (items q')) by (by rewrite Hp).
    split; [by rewrite Hpd, Hp'|]. constructor; [done|].
    rewrite Hp'. apply Forall_fmap. rewrite Hp in Hf. by apply Forall_cons in Hf as [_ Hf].
Qed.
End Prioq.

(** Only how the data in the queue compare matters. *)
Lemma wf_cmp_ext {D} (cmp cmp' : D -> D -> Z) (q : Prioq D) :
  (forall x y, x ∈ items q -> y ∈ items q -> cmp (data x) (data y) <= 0 -> cmp' (data x) (data y) <= 0) ->
  wf cmp q -> wf cmp' q.
Proof.
  intros H [Hh Hx Hs]. constructor; [|done|done]. intros k Hk a b Ha Hb.
  apply H; [by eapply list_elem_of_lookup_2|by eapply list_elem_of_lookup_2|]. by apply (Hh k Hk a b).
Qed.

(** ** The queue of reply timeouts

    [struct reply_callback] and [timeout_compare] of [sd-bus.c]: timeouts in
    order, 0 (none) last. *)
Record reply_callback := ReplyCallback { cookie : Z; timeout_usec : Z }.

#[export] Instance reply_callback_eq_dec : EqDecision reply_callback.
Proof. solve_decision. Defined.

Definition timeout_compare (x y : reply_callback) : Z :=
  if negb (timeout_usec x =? 0) && (timeout_usec y =? 0) then -1
  else if (timeout_usec x =? 0) && negb (timeout_usec y =? 0) then 1
  else CMP (timeout_usec x) (timeout_usec y).

#[export] Instance timeout_comparison : Comparison timeout_compare.
Proof.
  split; intros *; unfold timeout_compare, CMP;
    repeat match goal with |- context [?a =? 0] => destruct (Z.eqb_spec a 0) end;
    cbn [negb andb];
    repeat match goal with |- context [?a <? ?b] => destruct (Z.ltb_spec a b) end; lia.
Qed.

(** Three replies awaited, two of them with a timeout. *)
Definition sample_queue : Prioq reply_callback :=
  Queue [ Item (ReplyCallback 2 100) (Some 1%nat); Item (ReplyCallback 1 0) (Some 0%nat);
          Item (ReplyCallback 3 200) (Some 2%nat) ]
        {[ 0%nat := 1; 1%nat := 0; 2%nat := 2 ]}.

Lemma sample_queue_wf : wf timeout_compare sample_queue.
Proof.
  constructor; [| |done].
  - intros k Hk a b Ha Hb. destruct k as [|[|[|k]]]; [lia|..]; cbn in Ha, Hb;
      simplify_eq; vm_compute; done.
  - intros i x p Hi Hp. destruct i as [|[|[|i]]]; cbn in Hi; simplify_eq; cbn in Hp; simplify_eq; done.
Qed.

Lemma prioq_put_spec_witness :
  exists q', prioq_put timeout_compare sample_queue (ReplyCallback 4 50) (Some 3%nat) = Ok q' /\
    wf timeout_compare q' /\
    items q' ≡ₚ Item (ReplyCallback 4 50) (Some 3%nat) :: items sample_queue.
Proof.
  apply (prioq_put_spec timeout_compare sample_queue (ReplyCallback 4 50) (Some 3%nat)).
  - exact sample_queue_wf.
  - by vm_compute.
  - intros x Hx _. repeat (apply elem_of_cons in Hx as [->|Hx]; [done|]). by apply elem_of_nil in Hx.
Defined.

Lemma prioq_pop_spec_witness :
  exists x q', data x = ReplyCallback 2 100 /\
    prioq_pop timeout_compare sample_queue = Ok (Some (ReplyCallback 2 100), q') /\
    wf timeout_compare q' /\ items sample_queue ≡ₚ x :: items q' /\
    Forall (fun y => timeout_compare (ReplyCallback 2 100) (data y) <= 0) (items sample_queue).
Proof. exact (prioq_pop_spec timeout_compare sample_queue sample_queue_wf). Defined.

Lemma prioq_remove_spec_witness :
  exists r q', prioq_remove timeout_compare sample_queue (ReplyCallback 3 200) (Some 2%nat) = Ok (r, q') /\
    wf timeout_compare q'.
Proof.
  destruct (prioq_remove_spec timeout_compare sample_queue (ReplyCallback 3 200) (Some 2%nat) sample_queue_wf)
    as (r & q' & E & W & _).
  - intros c [= <-]. by exists 2.
  - exists r, q'. split; [exact E|exact W].
Defined.

Lemma prioq_drain_sorted_witness :
  exists l, drain timeout_compare 4 sample_queue = Ok l /\ l ≡ₚ map data (items sample_queue) /\
    StronglySorted (fun x y => timeout_compare x y <= 0) l.
Proof. exact (prioq_drain_sorted timeout_compare 3 sample_queue sample_queue_wf eq_refl). Defined.
