(* ===== verification/Siphash.v ===== *)
(** * SipHash-2-4 ([src/basic/siphash24.c])

    The keyed hash behind the hash tables, as an incremental state, against the
    reference that hashes a whole string at once. *)
From S2P Require Import Prelude.

Record siphash := Sip {
  v0 : Z; v1 : Z; v2 : Z; v3 : Z; padding : Z; inlen : Z }.

Definition rotate_left (x b : Z) : Z := wrap64 (Z.lor (Z.shiftl x b) (Z.shiftr x (64 - b))).

(** The four words a round works on. *)
Definition sipround_words (w : Z * Z * Z * Z) : Z * Z * Z * Z :=
  let '(a0, a1, a2, a3) := w in
  let a0 := wrap64 (a0 + a1) in
  let a1 := Z.lxor (rotate_left a1 13) a0 in
  let a0 := rotate_left a0 32 in
  let a2 := wrap64 (a2 + a3) in
  let a3 := Z.lxor (rotate_left a3 16) a2 in
  let a0 := wrap64 (a0 + a3) in
  let a3 := Z.lxor (rotate_left a3 21) a0 in
  let a2 := wrap64 (a2 + a1) in
  let a1 := Z.lxor (rotate_left a1 17) a2 in
  let a2 := rotate_left a2 32 in
  (a0, a1, a2, a3).

Definition on_words (f : Z * Z * Z * Z -> Z * Z * Z * Z) (s : siphash) : siphash :=
  let '(a0, a1, a2, a3) := f (v0 s, v1 s, v2 s, v3 s) in
  Sip a0 a1 a2 a3 (padding s) (inlen s).

Definition sipround (s : siphash) : siphash := on_words sipround_words s.

(** [unaligned_read_le64(k)], [unaligned_read_le64(k + 8)] *)
Definition siphash24_init (k : list Z) : siphash :=
  let k0 := le_val (take 8 k) in
  let k1 := le_val (take 8 (drop 8 k)) in
  Sip (Z.lxor 0x736f6d6570736575 k0) (Z.lxor 0x646f72616e646f6d k1)
      (Z.lxor 0x6c7967656e657261 k0) (Z.lxor 0x7465646279746573 k1) 0 0.

Definition set_padding (p : Z) (s : siphash) : siphash :=
  Sip (v0 s) (v1 s) (v2 s) (v3 s) p (inlen s).

Definition set_inlen (n : Z) (s : siphash) : siphash :=
  Sip (v0 s) (v1 s) (v2 s) (v3 s) (padding s) n.

(** [v3 ^= m], two rounds, [v0 ^= m] *)
Definition xor_v3 (m : Z) (s : siphash) : siphash :=
  Sip (v0 s) (v1 s) (v2 s) (Z.lxor (v3 s) m) (padding s) (inlen s).

Definition xor_v0 (m : Z) (s : siphash) : siphash :=
  Sip (Z.lxor (v0 s) m) (v1 s) (v2 s) (v3 s) (padding s) (inlen s).

Definition sip_word (m : Z) (s : siphash) : siphash :=
  xor_v0 m (sipround (sipround (xor_v3 m s))).

(** The loop that fills the padding: the input left, [left], the padding. *)
Fixpoint fill (inp : list Z) (left p : Z) : list Z * Z * Z :=
  match inp with
  | [] => ([], left, p)
  | c :: r =>
      if left <? 8 then fill r (left + 1) (Z.lor p (wrap64 (Z.shiftl c (left * 8))))
      else (inp, left, p)
  end.

(** The loop over whole words: [n] of them. *)
Fixpoint word_loop (n : nat) (inp : list Z) (s : siphash) : list Z * siphash :=
  match n with
  | O => (inp, s)
  | S n => word_loop n (drop 8 inp) (sip_word (le_val (take 8 inp)) s)
  end.

(** The [switch]: the bytes [in[left - 1]] down to [in[0]] *)
Fixpoint tail_bytes (inp : list Z) (i : nat) (p : Z) : Z :=
  match i with
  | O => p
  | S i => tail_bytes inp i (Z.lor p (wrap64 (Z.shiftl (char_at inp i) (8 * Z.of_nat i))))
  end.

(** The part after the padding is filled: [end -= inlen % 8], the loop over
    the words, the [switch]. *)
Definition compress_words (inp : list Z) (s : siphash) : siphash :=
  let n := Z.to_nat ((zlen inp - inlen s mod 8 + 7) / 8) in
  let '(inp, s) := word_loop n inp s in
  set_padding (tail_bytes inp (Z.to_nat (Z.land (inlen s) 7)) (padding s)) s.

Definition siphash24_compress (inp : list Z) (s : siphash) : siphash :=
  let nleft := Z.land (inlen s) 7 in
  let s := set_inlen (wrap64 (inlen s + zlen inp)) s in
  if 0 <? nleft then
    let '(inp, nleft, p) := fill inp nleft (padding s) in
    if bool_decide (inp = []) && (nleft <? 8) then set_padding p s
    else compress_words inp (set_padding 0 (sip_word p (set_padding p s)))
  else compress_words inp s.

Definition siphash24_finalize (s : siphash) : Z :=
  let b := Z.lor (padding s) (wrap64 (Z.shiftl (inlen s) 56)) in
  let s := sip_word b s in
  let s := Sip (v0 s) (v1 s) (Z.lxor (v2 s) 0xff) (v3 s) (padding s) (inlen s) in
  let s := sipround (sipround (sipround (sipround s))) in
  Z.lxor (Z.lxor (Z.lxor (v0 s) (v1 s)) (v2 s)) (v3 s).

(** The vector of the SipHash paper: key 00..0f, input 00..0e. *)
Definition count (n : nat) : list Z := map Z.of_nat (seq 0 n).

Example siphash24_paper_vector :
  siphash24_finalize (siphash24_compress (count 15) (siphash24_init (count 16)))
  = 0xa129ca6149be45e5.
Proof. vm_compute. reflexivity. Qed.

(** ** The reference: the whole string at once *)

(** The [i]th word of [bs]. *)
Definition nth_word (bs : list Z) (i : nat) : Z := le_val (take 8 (drop (8 * i) bs)).

(** All whole words of [bs] mixed into the initial state. *)
Definition absorb (n : nat) (bs : list Z) (s : siphash) : siphash :=
  fold_left (fun s i => sip_word (nth_word bs i) s) (seq 0 n) s.

Definition whole (bs : list Z) : nat := (length bs / 8)%nat.

(** The state after hashing [bs] under key [k]: the words mixed in, the bytes
    of the last, incomplete word as the padding, and the length. *)
Definition sip_state (k bs : list Z) : siphash :=
  set_inlen (wrap64 (zlen bs))
    (set_padding (le_val (drop (8 * whole bs) bs))
      (absorb (whole bs) bs (siphash24_init k))).

Definition siphash24_ref (k bs : list Z) : Z := siphash24_finalize (sip_state k bs).

(** ** Little-endian accumulation *)
Lemma shifted_byte c n : is_byte c -> 0 <= n <= 7 -> wrap64 (Z.shiftl c (n * 8)) = Z.shiftl c (n * 8).
Proof.
  intros Hc Hn. unfold is_byte in Hc. apply wrap_small. rewrite Z.shiftl_mul_pow2 by lia.
  assert (2 ^ (n * 8) <= 2 ^ 56) by (apply Z.pow_le_mono_r; lia).
  assert (0 < 2 ^ (n * 8)) by (apply Z.pow_pos_nonneg; lia). change (2 ^ 56) with 72057594037927936 in *.
  change (2 ^ 64) with (256 * 72057594037927936). set (X := 2 ^ (n * 8)) in *. nia.
Qed.

Lemma fill_spec : forall inp r,
  Forall is_byte r -> Forall is_byte inp -> (length r <= 8)%nat ->
  fill inp (zlen r) (le_val r) =
  (drop (8 - length r) inp, Z.min 8 (zlen r + zlen inp), le_val (r ++ take (8 - length r) inp)).
Proof.
  induction inp as [|c inp IH]; intros r Hr Hi Hl; cbn [fill].
  { rewrite drop_nil, take_nil, app_nil_r. do 2 f_equal. unfold zlen. simpl. lia. }
  inversion_clear Hi as [|?? Hc Hi']. destruct (Z.ltb_spec (zlen r) 8) as [H8|H8].
  - rewrite shifted_byte by (done || unfold zlen in *; lia).
    rewrite lor_high.
    2: { unfold zlen. lia. }
    2: { replace (zlen r * 8) with (8 * Z.of_nat (length r)) by (unfold zlen; lia). by apply le_val_bound. }
    replace (zlen r + 1) with (zlen (r ++ [c])) by (rewrite zlen_app; done).
    replace (le_val r + 2 ^ (zlen r * 8) * c) with (le_val (r ++ [c])).
    2: { rewrite le_val_app. cbn [le_val]. rewrite (Z.mul_comm 8). lia. }
    rewrite IH.
    + rewrite length_app. cbn [length]. unfold zlen in *.
      replace (8 - length r)%nat with (S (8 - (length r + 1))) by lia. cbn [drop take].
      rewrite <- app_assoc. cbn [app]. do 2 f_equal. rewrite length_app. cbn [length]. lia.
    + apply Forall_app. by split; [|constructor].
    + done.
    + rewrite length_app. unfold zlen in H8. simpl. lia.
  - assert (length r = 8)%nat as -> by (unfold zlen in H8; lia). cbn [Nat.sub drop take].
    rewrite app_nil_r. do 2 f_equal. unfold zlen in *. simpl. lia.
Qed.

Lemma tail_bytes_spec inp i : forall p,
  Forall is_byte inp -> (i <= length inp)%nat -> (i <= 7)%nat -> (2 ^ (8 * Z.of_nat i) | p) -> 0 <= p ->
  tail_bytes inp i p = p + le_val (take i inp).
Proof.
  induction i as [|i IH]; intros p Hi Hl H7 Hd Hp; [cbn [tail_bytes]; rewrite take_0; cbn [le_val]; lia|]. cbn [tail_bytes].
  destruct (lookup_lt_is_Some_2 inp i ltac:(lia)) as [c Hc].
  assert (is_byte c) as Hb by (rewrite Forall_lookup in Hi; by eapply Hi).
  assert (char_at inp i = c) as ->.
  { unfold char_at. by rewrite (drop_S inp c i Hc). }
  rewrite (Z.mul_comm 8), shifted_byte by (done || lia).
  destruct Hd as [q ->].
  assert (Hpow : 2 ^ (8 * Z.of_nat (S i)) = 256 * 2 ^ (Z.of_nat i * 8)).
  { replace (8 * Z.of_nat (S i)) with (8 + Z.of_nat i * 8) by lia. by rewrite Z.pow_add_r by lia. }
  assert (0 < 2 ^ (Z.of_nat i * 8)) by (apply Z.pow_pos_nonneg; lia).
  replace (Z.lor (q * 2 ^ (8 * Z.of_nat (S i))) (Z.shiftl c (Z.of_nat i * 8)))
    with ((q * 256 + c) * 2 ^ (Z.of_nat i * 8)).
  2: { rewrite Hpow. replace (q * (256 * 2 ^ (Z.of_nat i * 8))) with (Z.shiftl (q * 256) (Z.of_nat i * 8)).
       2: { rewrite Z.shiftl_mul_pow2 by lia. lia. }
       rewrite <- Z.shiftl_lor, Z.shiftl_mul_pow2 by lia. f_equal.
       replace (q * 256) with (Z.shiftl q 8) by (rewrite Z.shiftl_mul_pow2 by lia; done).
       rewrite Z.lor_comm, lor_high by (lia || exact Hb). rewrite Z.shiftl_mul_pow2 by lia.
       change (2 ^ 8) with 256. lia. }
  rewrite IH; [|done|lia|lia| |].
  - rewrite (take_S_r inp i c Hc), le_val_app. cbn [le_val].
    assert (zlen (take i inp) = Z.of_nat i) as -> by (unfold zlen; rewrite length_take; lia).
    rewrite Hpow. rewrite (Z.mul_comm 8 (Z.of_nat i)). lia.
  - rewrite (Z.mul_comm 8). apply Z.divide_factor_r.
  - unfold is_byte in Hb. nia.
Qed.

(** ** Whole words *)
Lemma on_words_padding f p s : on_words f (set_padding p s) = set_padding p (on_words f s).
Proof. unfold on_words. cbn. by destruct (f _) as [[[??] ?] ?]. Qed.

Lemma on_words_inlen f n s : on_words f (set_inlen n s) = set_inlen n (on_words f s).
Proof. unfold on_words. cbn. by destruct (f _) as [[[??] ?] ?]. Qed.

Lemma xor_v3_padding m p s : xor_v3 m (set_padding p s) = set_padding p (xor_v3 m s).
Proof. done. Qed.

Lemma xor_v3_inlen m n s : xor_v3 m (set_inlen n s) = set_inlen n (xor_v3 m s).
Proof. done. Qed.

Lemma xor_v0_padding m p s : xor_v0 m (set_padding p s) = set_padding p (xor_v0 m s).
Proof. done. Qed.

Lemma xor_v0_inlen m n s : xor_v0 m (set_inlen n s) = set_inlen n (xor_v0 m s).
Proof. done. Qed.

Lemma sip_word_padding m p s : sip_word m (set_padding p s) = set_padding p (sip_word m s).
Proof.
  unfold sip_word, sipround. generalize sipround_words. intros f.
  rewrite xor_v3_padding, !on_words_padding. exact (xor_v0_padding _ _ _).
Qed.

Lemma sip_word_inlen m n s : sip_word m (set_inlen n s) = set_inlen n (sip_word m s).
Proof.
  unfold sip_word, sipround. generalize sipround_words. intros f.
  rewrite xor_v3_inlen, !on_words_inlen. exact (xor_v0_inlen _ _ _).
Qed.

#[local] Opaque sip_word.

Lemma nth_word_app bs a i : (8 * i + 8 <= length bs)%nat -> nth_word (bs ++ a) i = nth_word bs i.
Proof.
  intros H. unfold nth_word. f_equal. rewrite drop_app_le by lia. rewrite take_app_le; [done|].
  rewrite length_drop. lia.
Qed.

Lemma nth_word_drop bs n i : nth_word (drop (8 * n) bs) i = nth_word bs (n + i).
Proof. unfold nth_word. rewrite drop_drop. do 3 f_equal. lia. Qed.

Lemma fold_left_commute {A B} (F : A -> B -> A) (g : A -> A) l :
  (forall s i, F (g s) i = g (F s i)) -> forall s, fold_left F l (g s) = g (fold_left F l s).
Proof. intros H. induction l as [|i l IH]; intros s; [done|]. cbn [fold_left]. by rewrite H, IH. Qed.

Lemma absorb_inlen n bs l s : absorb n bs (set_inlen l s) = set_inlen l (absorb n bs s).
Proof. unfold absorb. apply fold_left_commute. intros s' i. apply sip_word_inlen. Qed.

Lemma absorb_padding n bs p s : absorb n bs (set_padding p s) = set_padding p (absorb n bs s).
Proof. unfold absorb. apply fold_left_commute. intros s' i. apply sip_word_padding. Qed.

Lemma absorb_S n bs s : absorb (S n) bs s = sip_word (nth_word bs n) (absorb n bs s).
Proof. unfold absorb. rewrite seq_S, fold_left_app. exact eq_refl. Qed.

Lemma fold_left_ext_in {A B} (F G : A -> B -> A) l :
  (forall s i, i ∈ l -> F s i = G s i) -> forall s, fold_left F l s = fold_left G l s.
Proof.
  induction l as [|i l IH]; intros H s; [done|]. cbn [fold_left]. rewrite H by (left || constructor).
  apply IH. intros s' j Hj. apply H. by right.
Qed.

Lemma absorb_app n bs a s : (8 * n <= length bs)%nat -> absorb n (bs ++ a) s = absorb n bs s.
Proof.
  intros H. unfold absorb. apply fold_left_ext_in. intros s' i Hi. apply elem_of_seq in Hi.
  by rewrite nth_word_app by lia.
Qed.

Lemma absorb_add n m bs s : absorb (n + m) bs s = absorb m (drop (8 * n) bs) (absorb n bs s).
Proof.
  induction m as [|m IH]; [by rewrite Nat.add_0_r|].
  rewrite Nat.add_succ_r, !absorb_S, IH, nth_word_drop. exact eq_refl.
Qed.

Lemma word_loop_absorb n : forall inp s, word_loop n inp s = (drop (8 * n) inp, absorb n inp s).
Proof.
  induction n as [|n IH]; intros inp s; [done|]. cbn [word_loop]. rewrite IH, drop_drop.
  f_equal; [f_equal; lia|]. change (S n) with (1 + n)%nat. rewrite absorb_add, absorb_S. exact eq_refl.
Qed.

Lemma land7 x : Z.land (wrap64 x) 7 = x mod 8 /\ (wrap64 x) mod 8 = x mod 8.
Proof.
  assert ((wrap64 x) mod 8 = x mod 8) as E.
  { unfold wrap. change (2 ^ 64) with (8 * 2 ^ 61). rewrite Z.rem_mul_r by lia.
    rewrite Z.mul_comm, Z.mod_add, Z.mod_mod by lia. done. }
  split; [|done]. change 7 with (Z.ones 3). by rewrite Z.land_ones.
Qed.

(** The bytes after the whole words. *)
Definition leftover (bs : list Z) : list Z := drop (8 * whole bs) bs.

Lemma leftover_length bs : Z.of_nat (length (leftover bs)) = zlen bs mod 8 /\ (length (leftover bs) < 8)%nat.
Proof.
  unfold leftover, whole, zlen. rewrite length_drop. pose proof (Nat.div_mod_eq (length bs) 8).
  pose proof (Nat.mod_upper_bound (length bs) 8 ltac:(lia)).
  assert (Z.of_nat (length bs) mod 8 = Z.of_nat (length bs mod 8)) by (by rewrite Nat2Z.inj_mod). lia.
Qed.

(** Where the words of [bs ++ a] end when [bs] ends at a word. *)
Lemma whole_app bs a : leftover bs = [] -> whole (bs ++ a) = (whole bs + whole a)%nat /\
  leftover (bs ++ a) = leftover a /\ (8 * whole bs = length bs)%nat.
Proof.
  intros H. apply (f_equal length) in H. unfold leftover in *. rewrite length_drop in H. cbn [length] in H.
  unfold whole in *. pose proof (Nat.div_mod_eq (length bs) 8).
  assert (length bs = 8 * (length bs / 8))%nat as E by lia.
  assert ((length (bs ++ a) / 8 = length bs / 8 + length a / 8)%nat) as Ew.
  { rewrite length_app. rewrite E at 1. rewrite Nat.add_comm, (Nat.mul_comm 8), Nat.div_add by lia. lia. }
  split; [done|]. split; [|lia]. rewrite Ew. rewrite Nat.mul_add_distr_l, <- drop_drop.
  by rewrite <- E, drop_app_length.
Qed.

Lemma whole_leftover bs : (length bs = 8 * whole bs + length (leftover bs))%nat.
Proof.
  unfold leftover, whole. rewrite length_drop. pose proof (Nat.div_mod_eq (length bs) 8). lia.
Qed.

Lemma leftover_app_short bs a :
  (length (leftover bs) + length a < 8)%nat ->
  whole (bs ++ a) = whole bs /\ leftover (bs ++ a) = leftover bs ++ a.
Proof.
  intros H. pose proof (whole_leftover bs). assert (whole (bs ++ a) = whole bs) as E.
  { unfold whole at 1. rewrite length_app. symmetry.
    apply (Nat.div_unique _ _ _ (length (leftover bs) + length a)); lia. }
  split; [done|]. unfold leftover. rewrite E, drop_app_le by lia. done.
Qed.

(** Enough bytes to complete the word. *)
Lemma leftover_app_full bs a :
  (length (leftover bs) + length a = 8)%nat ->
  whole (bs ++ a) = S (whole bs) /\ leftover (bs ++ a) = [] /\
  nth_word (bs ++ a) (whole bs) = le_val (leftover bs ++ a).
Proof.
  intros H. pose proof (whole_leftover bs). assert (whole (bs ++ a) = S (whole bs)) as E.
  { unfold whole at 1. rewrite length_app. symmetry. apply (Nat.div_unique _ _ _ 0); lia. }
  split; [done|]. split.
  - apply length_zero_iff_nil. pose proof (whole_leftover (bs ++ a)) as W. rewrite E, length_app in W. lia.
  - unfold nth_word. rewrite drop_app_le by lia. fold (leftover bs). by rewrite take_ge by (rewrite length_app; lia).
Qed.

Lemma absorb_init_padding n bs k :
  set_padding 0 (absorb n bs (siphash24_init k)) = absorb n bs (siphash24_init k).
Proof. by rewrite <- absorb_padding. Qed.

(** From a state at the end of a word, what is left of the input is mixed in. *)
Lemma compress_words_spec k bs a :
  Forall is_byte a -> leftover bs = [] ->
  compress_words a (set_inlen (wrap64 (zlen bs + zlen a)) (absorb (whole bs) bs (siphash24_init k)))
  = sip_state k (bs ++ a).
Proof.
  intros Ha Hl. destruct (whole_app bs a Hl) as (Ew & Elo & E8).
  pose proof (leftover_length a) as [Hla Hla8]. pose proof (whole_leftover a) as Hwa.
  destruct (land7 (zlen bs + zlen a)) as [L7 M8].
  assert (zlen bs = 8 * Z.of_nat (whole bs)) as Eb by (unfold zlen; lia).
  assert ((zlen bs + zlen a) mod 8 = Z.of_nat (length (leftover a))) as Em.
  { rewrite Hla, Eb, Z.add_comm, Z.mul_comm, Z.mod_add by lia. done. }
  unfold compress_words. cbn [inlen set_inlen]. rewrite M8, Em.
  replace (Z.to_nat _) with (whole a).
  2: { replace (zlen a - _ + 7) with (7 + Z.of_nat (whole a) * 8) by (unfold zlen; lia).
       rewrite Z.div_add by lia. change (7 / 8) with 0. lia. }
  rewrite word_loop_absorb, absorb_inlen. cbn [inlen set_inlen padding]. fold (leftover a).
  rewrite L7, Em, Nat2Z.id.
  assert (padding (absorb (whole a) a (absorb (whole bs) bs (siphash24_init k))) = 0) as ->.
  { by rewrite <- absorb_init_padding, absorb_padding. }
  rewrite tail_bytes_spec; [|by apply Forall_drop|done|lia|apply Z.divide_0_r|done].
  rewrite Z.add_0_l, take_ge by done. unfold sip_state. fold (leftover (bs ++ a)).
  rewrite Elo, Ew, absorb_add, E8, drop_app_length, absorb_app, zlen_app by lia. done.
Qed.

Lemma sip_state_word k bs : leftover bs = [] ->
  sip_state k bs = set_inlen (wrap64 (zlen bs)) (absorb (whole bs) bs (siphash24_init k)).
Proof.
  intros H. unfold sip_state. fold (leftover bs). rewrite H. cbn [le_val]. by rewrite absorb_init_padding.
Qed.

Lemma siphash24_compress_app k bs a :
  Forall is_byte bs -> Forall is_byte a ->
  siphash24_compress a (sip_state k bs) = sip_state k (bs ++ a).
Proof.
  intros Hb Ha. pose proof (leftover_length bs) as [Hl Hl8]. destruct (land7 (zlen bs)) as [L7 M8].
  assert (wrap64 (wrap64 (zlen bs) + zlen a) = wrap64 (zlen bs + zlen a)) as Ei.
  { unfold wrap. by rewrite Z.add_mod_idemp_l by lia. }
  unfold siphash24_compress. cbn [inlen sip_state set_inlen padding]. unfold sip_state at 1.
  cbn [inlen set_inlen padding set_padding]. rewrite L7, <- Hl, Ei. fold (leftover bs).
  destruct (leftover bs) as [|c r] eqn:El.
  { cbn. rewrite (sip_state_word k bs El). by apply compress_words_spec. }
  set (l := c :: r) in *. assert (0 <? Z.of_nat (length l) = true) as -> by (apply Z.ltb_lt; unfold l; cbn [length]; lia).
  change (Z.of_nat (length l)) with (zlen l). rewrite fill_spec; [|rewrite <- El; by apply Forall_drop|done|lia].
  destruct (decide (length l + length a < 8)%nat) as [Hs|Hs].
  - rewrite drop_ge, take_ge, bool_decide_true by (done || lia).
    replace (Z.min 8 _ <? 8) with true by (unfold zlen; lia). cbn [andb].
    destruct (leftover_app_short bs a) as [E1 E2]; [by rewrite El|].
    unfold sip_state. fold (leftover (bs ++ a)) (leftover bs). rewrite E1, E2, El, absorb_app, zlen_app; [done|].
    pose proof (whole_leftover bs). lia.
  - assert (Hm : (bool_decide (drop (8 - length l) a = []) && (Z.min 8 (zlen l + zlen a) <? 8)) = false).
    { apply andb_false_iff. right. unfold zlen. lia. }
    rewrite Hm. set (a1 := take (8 - length l) a). set (a2 := drop (8 - length l) a).
    destruct (leftover_app_full bs a1) as (E1 & E2 & E3).
    { rewrite El. unfold a1. rewrite length_take. lia. }
    rewrite <- El, <- E3. rewrite <- (take_drop (8 - length l) a) at 2. fold a1 a2. rewrite app_assoc.
    rewrite <- compress_words_spec by (done || by apply Forall_drop). rewrite E1, absorb_S, absorb_app.
    2: { pose proof (whole_leftover bs). lia. }
    replace (zlen (bs ++ a1) + zlen a2) with (zlen bs + zlen a).
    2: { unfold a1, a2. rewrite <- (take_drop (8 - length l) a) at 1. rewrite !zlen_app. lia. }
    f_equal. unfold sip_state.
    rewrite <- sip_word_padding, <- sip_word_inlen. f_equal.
    rewrite <- (absorb_init_padding _ _ k) at 2. exact eq_refl.
Qed.

(** Hashing the chunks one after the other. *)
Lemma siphash24_compress_chunks k chunks : forall bs,
  Forall is_byte bs -> Forall (Forall is_byte) chunks ->
  fold_left (fun s c => siphash24_compress c s) chunks (sip_state k bs) = sip_state k (bs ++ concat chunks).
Proof.
  induction chunks as [|c chunks IH]; intros bs Hb Hc.
  { cbn [fold_left concat]. by rewrite app_nil_r. }
  inversion_clear Hc. cbn [fold_left concat]. rewrite siphash24_compress_app by done.
  rewrite IH, <- app_assoc; [done| |done]. by apply Forall_app.
Qed.

(** C36. SipHash is incremental: feeding the input to [siphash24_compress] in
    chunks of any lengths, from [siphash24_init], gives the state, and so the
    hash, of feeding their concatenation to the whole-string reference. *)
Theorem siphash24_incremental k chunks :
  Forall (Forall is_byte) chunks ->
  let s := fold_left (fun s c => siphash24_compress c s) chunks (siphash24_init k) in
  s = sip_state k (concat chunks) /\
  siphash24_finalize s = siphash24_ref k (concat chunks).
Proof.
  intros H. cbn zeta.
  assert (fold_left (fun s c => siphash24_compress c s) chunks (siphash24_init k) = sip_state k (concat chunks)) as E.
  { exact (siphash24_compress_chunks k chunks [] ltac:(constructor) H). }
  split; [exact E|]. rewrite E. exact eq_refl.
Qed.

(** The paper's string in pieces of 1, 9, 0 and 5 bytes. *)
Definition pieces : list (list Z) :=
  [take 1 (count 15); take 9 (drop 1 (count 15)); []; drop 10 (count 15)].

Lemma siphash24_incremental_witness :
  siphash24_finalize (fold_left (fun s c => siphash24_compress c s) pieces (siphash24_init (count 16)))
  = 0xa129ca6149be45e5.
Proof.
  assert (Forall (Forall is_byte) pieces) as H.
  { unfold pieces, count. cbn [map seq take drop]. repeat constructor; done. }
  destruct (siphash24_incremental (count 16) pieces H) as [_ E].
  rewrite E. vm_compute. reflexivity.
Defined.
