(* ===== verification/Bus.v ===== *)
(** * Connections: state and life cycle ([src/libsystemd/sd-bus/sd-bus.c])

    [struct sd_bus] with the members the other parts use, what a connection sees
    of the kernel and the system, the settings, the changes of state, the
    messages a connection makes itself, and the start of normal operation.

    The members a message takes from its bus are the record [sd_bus] of
    MsgFields; [connection] has the others. Slots, which the code links, are
    kept in [slots] under a number, which stands for the pointer; a number that
    is not there is a pointer to freed memory. *)
From S2P Require Import Prelude BusType Names MsgState MsgFields MsgCopy Prioq.

(** ** Data *)
Inductive bus_auth := BUS_AUTH_INVALID | BUS_AUTH_EXTERNAL | BUS_AUTH_ANONYMOUS.

#[export] Instance bus_auth_eq_dec : EqDecision bus_auth.
Proof. solve_decision. Defined.

(** [union sockaddr_union]; for AF_UNIX the bytes of [sun_path] that
    [sockaddr_size] counts, for the Internet what [getaddrinfo] gave. *)
Inductive sockaddr_union :=
  | SockUnix (sun_path : list Z)
  | SockInet (addr : list Z).

(** What a slot calls: the reply to Hello(), or a handler of the user. *)
Inductive handler := hello_callback | UserHandler (id : nat).

#[export] Instance handler_eq_dec : EqDecision handler.
Proof. solve_decision. Defined.

(** What a slot is for: the types whose callbacks this library runs. The index
    in the queue is the queue's cell of the slot's number. *)
Inductive slot_data :=
  | BUS_REPLY_CALLBACK (c : reply_callback) (callback : option handler)
  | BUS_FILTER_CALLBACK (callback : handler) (last_iteration : Z)
  | BUS_SLOT_INVALID.

(** [struct sd_bus_slot]; [attached] is [slot->bus != NULL]. *)
Record sd_bus_slot := Slot {
  n_ref : Z;
  attached : bool;
  floating : bool;
  slot_body : slot_data }.

(** [struct sd_bus]. An unset [last_connect_error] is [None]. *)
Record connection := Connection {
  bus : sd_bus;
  message_endian : Z;
  input_fd : Z;
  output_fd : Z;
  bus_client : bool;
  is_server : bool;
  anonymous_auth : bool;
  is_monitor : bool;
  accept_fd : bool;
  connected_signal : bool;
  send_null_byte : bool;
  trusted : bool;
  is_local : bool;
  watch_bind : bool;
  patch_sender : option cstr;
  method_call_timeout : Z;
  ucred_valid : bool;
  ucred_uid : Z;
  rbuffer : list Z;
  rqueue : list message;
  wqueue : list message;
  windex : Z;
  bus_fds : list Z;
  bus_cookie : Z;
  slots : gmap nat sd_bus_slot;
  next_slot : nat;
  reply_callbacks : list nat;
  reply_callbacks_prioq : Prioq nat;
  filter_callbacks : list nat;
  filter_callbacks_modified : bool;
  manual_peer_interface : bool;
  iteration_counter : Z;
  current_message : option message;
  current_slot : option nat;
  exit_on_disconnect : bool;
  exit_triggered : bool;
  exited : bool;
  address : option cstr;
  address_index : nat;
  sockaddr : option sockaddr_union;
  server_id : list Z;
  last_connect_error : option errno;
  auth : bus_auth;
  auth_rbegin : nat;
  auth_iovec : list (list Z);
  auth_index : nat;
  auth_timeout : Z }.

(** ** Assignments to single members *)
Definition set_bus (v : sd_bus) (b : connection) : connection :=
  {| bus := v; message_endian := message_endian b; input_fd := input_fd b; output_fd :=
     output_fd b; bus_client := bus_client b; is_server := is_server b; anonymous_auth :=
     anonymous_auth b; is_monitor := is_monitor b; accept_fd := accept_fd b;
     connected_signal := connected_signal b; send_null_byte := send_null_byte b; trusted
     := trusted b; is_local := is_local b; watch_bind := watch_bind b; patch_sender :=
     patch_sender b; method_call_timeout := method_call_timeout b; ucred_valid :=
     ucred_valid b; ucred_uid := ucred_uid b; rbuffer := rbuffer b; rqueue := rqueue b;
     wqueue := wqueue b; windex := windex b; bus_fds := bus_fds b; bus_cookie :=
     bus_cookie b; slots := slots b; next_slot := next_slot b; reply_callbacks :=
     reply_callbacks b; reply_callbacks_prioq := reply_callbacks_prioq b; filter_callbacks
     := filter_callbacks b; filter_callbacks_modified := filter_callbacks_modified b;
     manual_peer_interface := manual_peer_interface b; iteration_counter :=
     iteration_counter b; current_message := current_message b; current_slot :=
     current_slot b; exit_on_disconnect := exit_on_disconnect b; exit_triggered :=
     exit_triggered b; exited := exited b; address := address b; address_index :=
     address_index b; sockaddr := sockaddr b; server_id := server_id b; last_connect_error
     := last_connect_error b; auth := auth b; auth_rbegin := auth_rbegin b; auth_iovec :=
     auth_iovec b; auth_index := auth_index b; auth_timeout := auth_timeout b |}.
Definition set_message_endian (v : Z) (b : connection) : connection :=
  {| bus := bus b; message_endian := v; input_fd := input_fd b; output_fd := output_fd b;
     bus_client := bus_client b; is_server := is_server b; anonymous_auth :=
     anonymous_auth b; is_monitor := is_monitor b; accept_fd := accept_fd b;
     connected_signal := connected_signal b; send_null_byte := send_null_byte b; trusted
     := trusted b; is_local := is_local b; watch_bind := watch_bind b; patch_sender :=
     patch_sender b; method_call_timeout := method_call_timeout b; ucred_valid :=
     ucred_valid b; ucred_uid := ucred_uid b; rbuffer := rbuffer b; rqueue := rqueue b;
     wqueue := wqueue b; windex := windex b; bus_fds := bus_fds b; bus_cookie :=
     bus_cookie b; slots := slots b; next_slot := next_slot b; reply_callbacks :=
     reply_callbacks b; reply_callbacks_prioq := reply_callbacks_prioq b; filter_callbacks
     := filter_callbacks b; filter_callbacks_modified := filter_callbacks_modified b;
     manual_peer_interface := manual_peer_interface b; iteration_counter :=
     iteration_counter b; current_message := current_message b; current_slot :=
     current_slot b; exit_on_disconnect := exit_on_disconnect b; exit_triggered :=
     exit_triggered b; exited := exited b; address := address b; address_index :=
     address_index b; sockaddr := sockaddr b; server_id := server_id b; last_connect_error
     := last_connect_error b; auth := auth b; auth_rbegin := auth_rbegin b; auth_iovec :=
     auth_iovec b; auth_index := auth_index b; auth_timeout := auth_timeout b |}.
Definition set_input_fd (v : Z) (b : connection) : connection :=
  {| bus := bus b; message_endian := message_endian b; input_fd := v; output_fd :=
     output_fd b; bus_client := bus_client b; is_server := is_server b; anonymous_auth :=
     anonymous_auth b; is_monitor := is_monitor b; accept_fd := accept_fd b;
     connected_signal := connected_signal b; send_null_byte := send_null_byte b; trusted
     := trusted b; is_local := is_local b; watch_bind := watch_bind b; patch_sender :=
     patch_sender b; method_call_timeout := method_call_timeout b; ucred_valid :=
     ucred_valid b; ucred_uid := ucred_uid b; rbuffer := rbuffer b; rqueue := rqueue b;
     wqueue := wqueue b; windex := windex b; bus_fds := bus_fds b; bus_cookie :=
     bus_cookie b; slots := slots b; next_slot := next_slot b; reply_callbacks :=
     reply_callbacks b; reply_callbacks_prioq := reply_callbacks_prioq b; filter_callbacks
     := filter_callbacks b; filter_callbacks_modified := filter_callbacks_modified b;
     manual_peer_interface := manual_peer_interface b; iteration_counter :=
     iteration_counter b; current_message := current_message b; current_slot :=
     current_slot b; exit_on_disconnect := exit_on_disconnect b; exit_triggered :=
     exit_triggered b; exited := exited b; address := address b; address_index :=
     address_index b; sockaddr := sockaddr b; server_id := server_id b; last_connect_error
     := last_connect_error b; auth := auth b; auth_rbegin := auth_rbegin b; auth_iovec :=
     auth_iovec b; auth_index := auth_index b; auth_timeout := auth_timeout b |}.
Definition set_output_fd (v : Z) (b : connection) : connection :=
  {| bus := bus b; message_endian := message_endian b; input_fd := input_fd b; output_fd
     := v; bus_client := bus_client b; is_server := is_server b; anonymous_auth :=
     anonymous_auth b; is_monitor := is_monitor b; accept_fd := accept_fd b;
     connected_signal := connected_signal b; send_null_byte := send_null_byte b; trusted
     := trusted b; is_local := is_local b; watch_bind := watch_bind b; patch_sender :=
     patch_sender b; method_call_timeout := method_call_timeout b; ucred_valid :=
     ucred_valid b; ucred_uid := ucred_uid b; rbuffer := rbuffer b; rqueue := rqueue b;
     wqueue := wqueue b; windex := windex b; bus_fds := bus_fds b; bus_cookie :=
     bus_cookie b; slots := slots b; next_slot := next_slot b; reply_callbacks :=
     reply_callbacks b; reply_callbacks_prioq := reply_callbacks_prioq b; filter_callbacks
     := filter_callbacks b; filter_callbacks_modified := filter_callbacks_modified b;
     manual_peer_interface := manual_peer_interface b; iteration_counter :=
     iteration_counter b; current_message := current_message b; current_slot :=
     current_slot b; exit_on_disconnect := exit_on_disconnect b; exit_triggered :=
     exit_triggered b; exited := exited b; address := address b; address_index :=
     address_index b; sockaddr := sockaddr b; server_id := server_id b; last_connect_error
     := last_connect_error b; auth := auth b; auth_rbegin := auth_rbegin b; auth_iovec :=
     auth_iovec b; auth_index := auth_index b; auth_timeout := auth_timeout b |}.
Definition set_bus_client (v : bool) (b : connection) : connection :=
  {| bus := bus b; message_endian := message_endian b; input_fd := input_fd b; output_fd
     := output_fd b; bus_client := v; is_server := is_server b; anonymous_auth :=
     anonymous_auth b; is_monitor := is_monitor b; accept_fd := accept_fd b;
     connected_signal := connected_signal b; send_null_byte := send_null_byte b; trusted
     := trusted b; is_local := is_local b; watch_bind := watch_bind b; patch_sender :=
     patch_sender b; method_call_timeout := method_call_timeout b; ucred_valid :=
     ucred_valid b; ucred_uid := ucred_uid b; rbuffer := rbuffer b; rqueue := rqueue b;
     wqueue := wqueue b; windex := windex b; bus_fds := bus_fds b; bus_cookie :=
     bus_cookie b; slots := slots b; next_slot := next_slot b; reply_callbacks :=
     reply_callbacks b; reply_callbacks_prioq := reply_callbacks_prioq b; filter_callbacks
     := filter_callbacks b; filter_callbacks_modified := filter_callbacks_modified b;
     manual_peer_interface := manual_peer_interface b; iteration_counter :=
     iteration_counter b; current_message := current_message b; current_slot :=
     current_slot b; exit_on_disconnect := exit_on_disconnect b; exit_triggered :=
     exit_triggered b; exited := exited b; address := address b; address_index :=
     address_index b; sockaddr := sockaddr b; server_id := server_id b; last_connect_error
     := last_connect_error b; auth := auth b; auth_rbegin := auth_rbegin b; auth_iovec :=
     auth_iovec b; auth_index := auth_index b; auth_timeout := auth_timeout b |}.
Definition set_is_server (v : bool) (b : connection) : connection :=
  {| bus := bus b; message_endian := message_endian b; input_fd := input_fd b; output_fd
     := output_fd b; bus_client := bus_client b; is_server := v; anonymous_auth :=
     anonymous_auth b; is_monitor := is_monitor b; accept_fd := accept_fd b;
     connected_signal := connected_signal b; send_null_byte := send_null_byte b; trusted
     := trusted b; is_local := is_local b; watch_bind := watch_bind b; patch_sender :=
     patch_sender b; method_call_timeout := method_call_timeout b; ucred_valid :=
     ucred_valid b; ucred_uid := ucred_uid b; rbuffer := rbuffer b; rqueue := rqueue b;
     wqueue := wqueue b; windex := windex b; bus_fds := bus_fds b; bus_cookie :=
     bus_cookie b; slots := slots b; next_slot := next_slot b; reply_callbacks :=
     reply_callbacks b; reply_callbacks_prioq := reply_callbacks_prioq b; filter_callbacks
     := filter_callbacks b; filter_callbacks_modified := filter_callbacks_modified b;
     manual_peer_interface := manual_peer_interface b; iteration_counter :=
     iteration_counter b; current_message := current_message b; current_slot :=
     current_slot b; exit_on_disconnect := exit_on_disconnect b; exit_triggered :=
     exit_triggered b; exited := exited b; address := address b; address_index :=
     address_index b; sockaddr := sockaddr b; server_id := server_id b; last_connect_error
     := last_connect_error b; auth := auth b; auth_rbegin := auth_rbegin b; auth_iovec :=
     auth_iovec b; auth_index := auth_index b; auth_timeout := auth_timeout b |}.
Definition set_anonymous_auth (v : bool) (b : connection) : connection :=
  {| bus := bus b; message_endian := message_endian b; input_fd := input_fd b; output_fd
     := output_fd b; bus_client := bus_client b; is_server := is_server b; anonymous_auth
     := v; is_monitor := is_monitor b; accept_fd := accept_fd b; connected_signal :=
     connected_signal b; send_null_byte := send_null_byte b; trusted := trusted b;
     is_local := is_local b; watch_bind := watch_bind b; patch_sender := patch_sender b;
     method_call_timeout := method_call_timeout b; ucred_valid := ucred_valid b; ucred_uid
     := ucred_uid b; rbuffer := rbuffer b; rqueue := rqueue b; wqueue := wqueue b; windex
     := windex b; bus_fds := bus_fds b; bus_cookie := bus_cookie b; slots := slots b;
     next_slot := next_slot b; reply_callbacks := reply_callbacks b; reply_callbacks_prioq
     := reply_callbacks_prioq b; filter_callbacks := filter_callbacks b;
     filter_callbacks_modified := filter_callbacks_modified b; manual_peer_interface :=
     manual_peer_interface b; iteration_counter := iteration_counter b; current_message :=
     current_message b; current_slot := current_slot b; exit_on_disconnect :=
     exit_on_disconnect b; exit_triggered := exit_triggered b; exited := exited b; address
     := address b; address_index := address_index b; sockaddr := sockaddr b; server_id :=
     server_id b; last_connect_error := last_connect_error b; auth := auth b; auth_rbegin
     := auth_rbegin b; auth_iovec := auth_iovec b; auth_index := auth_index b;
     auth_timeout := auth_timeout b |}.
Definition set_is_monitor (v : bool) (b : connection) : connection :=
  {| bus := bus b; message_endian := message_endian b; input_fd := input_fd b; output_fd
     := output_fd b; bus_client := bus_client b; is_server := is_server b; anonymous_auth
     := anonymous_auth b; is_monitor := v; accept_fd := accept_fd b; connected_signal :=
     connected_signal b; send_null_byte := send_null_byte b; trusted := trusted b;
     is_local := is_local b; watch_bind := watch_bind b; patch_sender := patch_sender b;
     method_call_timeout := method_call_timeout b; ucred_valid := ucred_valid b; ucred_uid
     := ucred_uid b; rbuffer := rbuffer b; rqueue := rqueue b; wqueue := wqueue b; windex
     := windex b; bus_fds := bus_fds b; bus_cookie := bus_cookie b; slots := slots b;
     next_slot := next_slot b; reply_callbacks := reply_callbacks b; reply_callbacks_prioq
     := reply_callbacks_prioq b; filter_callbacks := filter_callbacks b;
     filter_callbacks_modified := filter_callbacks_modified b; manual_peer_interface :=
     manual_peer_interface b; iteration_counter := iteration_counter b; current_message :=
     current_message b; current_slot := current_slot b; exit_on_disconnect :=
     exit_on_disconnect b; exit_triggered := exit_triggered b; exited := exited b; address
     := address b; address_index := address_index b; sockaddr := sockaddr b; server_id :=
     server_id b; last_connect_error := last_connect_error b; auth := auth b; auth_rbegin
     := auth_rbegin b; auth_iovec := auth_iovec b; auth_index := auth_index b;
     auth_timeout := auth_timeout b |}.
Definition set_accept_fd (v : bool) (b : connection) : connection :=
  {| bus := bus b; message_endian := message_endian b; input_fd := input_fd b; output_fd
     := output_fd b; bus_client := bus_client b; is_server := is_server b; anonymous_auth
     := anonymous_auth b; is_monitor := is_monitor b; accept_fd := v; connected_signal :=
     connected_signal b; send_null_byte := send_null_byte b; trusted := trusted b;
     is_local := is_local b; watch_bind := watch_bind b; patch_sender := patch_sender b;
     method_call_timeout := method_call_timeout b; ucred_valid := ucred_valid b; ucred_uid
     := ucred_uid b; rbuffer := rbuffer b; rqueue := rqueue b; wqueue := wqueue b; windex
     := windex b; bus_fds := bus_fds b; bus_cookie := bus_cookie b; slots := slots b;
     next_slot := next_slot b; reply_callbacks := reply_callbacks b; reply_callbacks_prioq
     := reply_callbacks_prioq b; filter_callbacks := filter_callbacks b;
     filter_callbacks_modified := filter_callbacks_modified b; manual_peer_interface :=
     manual_peer_interface b; iteration_counter := iteration_counter b; current_message :=
     current_message b; current_slot := current_slot b; exit_on_disconnect :=
     exit_on_disconnect b; exit_triggered := exit_triggered b; exited := exited b; address
     := address b; address_index := address_index b; sockaddr := sockaddr b; server_id :=
     server_id b; last_connect_error := last_connect_error b; auth := auth b; auth_rbegin
     := auth_rbegin b; auth_iovec := auth_iovec b; auth_index := auth_index b;
     auth_timeout := auth_timeout b |}.
Definition set_connected_signal (v : bool) (b : connection) : connection :=
  {| bus := bus b; message_endian := message_endian b; input_fd := input_fd b; output_fd
     := output_fd b; bus_client := bus_client b; is_server := is_server b; anonymous_auth
     := anonymous_auth b; is_monitor := is_monitor b; accept_fd := accept_fd b;
     connected_signal := v; send_null_byte := send_null_byte b; trusted := trusted b;
     is_local := is_local b; watch_bind := watch_bind b; patch_sender := patch_sender b;
     method_call_timeout := method_call_timeout b; ucred_valid := ucred_valid b; ucred_uid
     := ucred_uid b; rbuffer := rbuffer b; rqueue := rqueue b; wqueue := wqueue b; windex
     := windex b; bus_fds := bus_fds b; bus_cookie := bus_cookie b; slots := slots b;
     next_slot := next_slot b; reply_callbacks := reply_callbacks b; reply_callbacks_prioq
     := reply_callbacks_prioq b; filter_callbacks := filter_callbacks b;
     filter_callbacks_modified := filter_callbacks_modified b; manual_peer_interface :=
     manual_peer_interface b; iteration_counter := iteration_counter b; current_message :=
     current_message b; current_slot := current_slot b; exit_on_disconnect :=
     exit_on_disconnect b; exit_triggered := exit_triggered b; exited := exited b; address
     := address b; address_index := address_index b; sockaddr := sockaddr b; server_id :=
     server_id b; last_connect_error := last_connect_error b; auth := auth b; auth_rbegin
     := auth_rbegin b; auth_iovec := auth_iovec b; auth_index := auth_index b;
     auth_timeout := auth_timeout b |}.
Definition set_send_null_byte (v : bool) (b : connection) : connection :=
  {| bus := bus b; message_endian := message_endian b; input_fd := input_fd b; output_fd
     := output_fd b; bus_client := bus_client b; is_server := is_server b; anonymous_auth
     := anonymous_auth b; is_monitor := is_monitor b; accept_fd := accept_fd b;
     connected_signal := connected_signal b; send_null_byte := v; trusted := trusted b;
     is_local := is_local b; watch_bind := watch_bind b; patch_sender := patch_sender b;
     method_call_timeout := method_call_timeout b; ucred_valid := ucred_valid b; ucred_uid
     := ucred_uid b; rbuffer := rbuffer b; rqueue := rqueue b; wqueue := wqueue b; windex
     := windex b; bus_fds := bus_fds b; bus_cookie := bus_cookie b; slots := slots b;
     next_slot := next_slot b; reply_callbacks := reply_callbacks b; reply_callbacks_prioq
     := reply_callbacks_prioq b; filter_callbacks := filter_callbacks b;
     filter_callbacks_modified := filter_callbacks_modified b; manual_peer_interface :=
     manual_peer_interface b; iteration_counter := iteration_counter b; current_message :=
     current_message b; current_slot := current_slot b; exit_on_disconnect :=
     exit_on_disconnect b; exit_triggered := exit_triggered b; exited := exited b; address
     := address b; address_index := address_index b; sockaddr := sockaddr b; server_id :=
     server_id b; last_connect_error := last_connect_error b; auth := auth b; auth_rbegin
     := auth_rbegin b; auth_iovec := auth_iovec b; auth_index := auth_index b;
     auth_timeout := auth_timeout b |}.
Definition set_trusted (v : bool) (b : connection) : connection :=
  {| bus := bus b; message_endian := message_endian b; input_fd := input_fd b; output_fd
     := output_fd b; bus_client := bus_client b; is_server := is_server b; anonymous_auth
     := anonymous_auth b; is_monitor := is_monitor b; accept_fd := accept_fd b;
     connected_signal := connected_signal b; send_null_byte := send_null_byte b; trusted
     := v; is_local := is_local b; watch_bind := watch_bind b; patch_sender :=
     patch_sender b; method_call_timeout := method_call_timeout b; ucred_valid :=
     ucred_valid b; ucred_uid := ucred_uid b; rbuffer := rbuffer b; rqueue := rqueue b;
     wqueue := wqueue b; windex := windex b; bus_fds := bus_fds b; bus_cookie :=
     bus_cookie b; slots := slots b; next_slot := next_slot b; reply_callbacks :=
     reply_callbacks b; reply_callbacks_prioq := reply_callbacks_prioq b; filter_callbacks
     := filter_callbacks b; filter_callbacks_modified := filter_callbacks_modified b;
     manual_peer_interface := manual_peer_interface b; iteration_counter :=
     iteration_counter b; current_message := current_message b; current_slot :=
     current_slot b; exit_on_disconnect := exit_on_disconnect b; exit_triggered :=
     exit_triggered b; exited := exited b; address := address b; address_index :=
     address_index b; sockaddr := sockaddr b; server_id := server_id b; last_connect_error
     := last_connect_error b; auth := auth b; auth_rbegin := auth_rbegin b; auth_iovec :=
     auth_iovec b; auth_index := auth_index b; auth_timeout := auth_timeout b |}.
Definition set_is_local (v : bool) (b : connection) : connection :=
  {| bus := bus b; message_endian := message_endian b; input_fd := input_fd b; output_fd
     := output_fd b; bus_client := bus_client b; is_server := is_server b; anonymous_auth
     := anonymous_auth b; is_monitor := is_monitor b; accept_fd := accept_fd b;
     connected_signal := connected_signal b; send_null_byte := send_null_byte b; trusted
     := trusted b; is_local := v; watch_bind := watch_bind b; patch_sender := patch_sender
     b; method_call_timeout := method_call_timeout b; ucred_valid := ucred_valid b;
     ucred_uid := ucred_uid b; rbuffer := rbuffer b; rqueue := rqueue b; wqueue := wqueue
     b; windex := windex b; bus_fds := bus_fds b; bus_cookie := bus_cookie b; slots :=
     slots b; next_slot := next_slot b; reply_callbacks := reply_callbacks b;
     reply_callbacks_prioq := reply_callbacks_prioq b; filter_callbacks :=
     filter_callbacks b; filter_callbacks_modified := filter_callbacks_modified b;
     manual_peer_interface := manual_peer_interface b; iteration_counter :=
     iteration_counter b; current_message := current_message b; current_slot :=
     current_slot b; exit_on_disconnect := exit_on_disconnect b; exit_triggered :=
     exit_triggered b; exited := exited b; address := address b; address_index :=
     address_index b; sockaddr := sockaddr b; server_id := server_id b; last_connect_error
     := last_connect_error b; auth := auth b; auth_rbegin := auth_rbegin b; auth_iovec :=
     auth_iovec b; auth_index := auth_index b; auth_timeout := auth_timeout b |}.
Definition set_watch_bind (v : bool) (b : connection) : connection :=
  {| bus := bus b; message_endian := message_endian b; input_fd := input_fd b; output_fd
     := output_fd b; bus_client := bus_client b; is_server := is_server b; anonymous_auth
     := anonymous_auth b; is_monitor := is_monitor b; accept_fd := accept_fd b;
     connected_signal := connected_signal b; send_null_byte := send_null_byte b; trusted
     := trusted b; is_local := is_local b; watch_bind := v; patch_sender := patch_sender
     b; method_call_timeout := method_call_timeout b; ucred_valid := ucred_valid b;
     ucred_uid := ucred_uid b; rbuffer := rbuffer b; rqueue := rqueue b; wqueue := wqueue
     b; windex := windex b; bus_fds := bus_fds b; bus_cookie := bus_cookie b; slots :=
     slots b; next_slot := next_slot b; reply_callbacks := reply_callbacks b;
     reply_callbacks_prioq := reply_callbacks_prioq b; filter_callbacks :=
     filter_callbacks b; filter_callbacks_modified := filter_callbacks_modified b;
     manual_peer_interface := manual_peer_interface b; iteration_counter :=
     iteration_counter b; current_message := current_message b; current_slot :=
     current_slot b; exit_on_disconnect := exit_on_disconnect b; exit_triggered :=
     exit_triggered b; exited := exited b; address := address b; address_index :=
     address_index b; sockaddr := sockaddr b; server_id := server_id b; last_connect_error
     := last_connect_error b; auth := auth b; auth_rbegin := auth_rbegin b; auth_iovec :=
     auth_iovec b; auth_index := auth_index b; auth_timeout := auth_timeout b |}.
Definition set_patch_sender (v : option cstr) (b : connection) : connection :=
  {| bus := bus b; message_endian := message_endian b; input_fd := input_fd b; output_fd
     := output_fd b; bus_client := bus_client b; is_server := is_server b; anonymous_auth
     := anonymous_auth b; is_monitor := is_monitor b; accept_fd := accept_fd b;
     connected_signal := connected_signal b; send_null_byte := send_null_byte b; trusted
     := trusted b; is_local := is_local b; watch_bind := watch_bind b; patch_sender := v;
     method_call_timeout := method_call_timeout b; ucred_valid := ucred_valid b; ucred_uid
     := ucred_uid b; rbuffer := rbuffer b; rqueue := rqueue b; wqueue := wqueue b; windex
     := windex b; bus_fds := bus_fds b; bus_cookie := bus_cookie b; slots := slots b;
     next_slot := next_slot b; reply_callbacks := reply_callbacks b; reply_callbacks_prioq
     := reply_callbacks_prioq b; filter_callbacks := filter_callbacks b;
     filter_callbacks_modified := filter_callbacks_modified b; manual_peer_interface :=
     manual_peer_interface b; iteration_counter := iteration_counter b; current_message :=
     current_message b; current_slot := current_slot b; exit_on_disconnect :=
     exit_on_disconnect b; exit_triggered := exit_triggered b; exited := exited b; address
     := address b; address_index := address_index b; sockaddr := sockaddr b; server_id :=
     server_id b; last_connect_error := last_connect_error b; auth := auth b; auth_rbegin
     := auth_rbegin b; auth_iovec := auth_iovec b; auth_index := auth_index b;
     auth_timeout := auth_timeout b |}.
Definition set_method_call_timeout (v : Z) (b : connection) : connection :=
  {| bus := bus b; message_endian := message_endian b; input_fd := input_fd b; output_fd
     := output_fd b; bus_client := bus_client b; is_server := is_server b; anonymous_auth
     := anonymous_auth b; is_monitor := is_monitor b; accept_fd := accept_fd b;
     connected_signal := connected_signal b; send_null_byte := send_null_byte b; trusted
     := trusted b; is_local := is_local b; watch_bind := watch_bind b; patch_sender :=
     patch_sender b; method_call_timeout := v; ucred_valid := ucred_valid b; ucred_uid :=
     ucred_uid b; rbuffer := rbuffer b; rqueue := rqueue b; wqueue := wqueue b; windex :=
     windex b; bus_fds := bus_fds b; bus_cookie := bus_cookie b; slots := slots b;
     next_slot := next_slot b; reply_callbacks := reply_callbacks b; reply_callbacks_prioq
     := reply_callbacks_prioq b; filter_callbacks := filter_callbacks b;
     filter_callbacks_modified := filter_callbacks_modified b; manual_peer_interface :=
     manual_peer_interface b; iteration_counter := iteration_counter b; current_message :=
     current_message b; current_slot := current_slot b; exit_on_disconnect :=
     exit_on_disconnect b; exit_triggered := exit_triggered b; exited := exited b; address
     := address b; address_index := address_index b; sockaddr := sockaddr b; server_id :=
     server_id b; last_connect_error := last_connect_error b; auth := auth b; auth_rbegin
     := auth_rbegin b; auth_iovec := auth_iovec b; auth_index := auth_index b;
     auth_timeout := auth_timeout b |}.
Definition set_ucred_valid (v : bool) (b : connection) : connection :=
  {| bus := bus b; message_endian := message_endian b; input_fd := input_fd b; output_fd
     := output_fd b; bus_client := bus_client b; is_server := is_server b; anonymous_auth
     := anonymous_auth b; is_monitor := is_monitor b; accept_fd := accept_fd b;
     connected_signal := connected_signal b; send_null_byte := send_null_byte b; trusted
     := trusted b; is_local := is_local b; watch_bind := watch_bind b; patch_sender :=
     patch_sender b; method_call_timeout := method_call_timeout b; ucred_valid := v;
     ucred_uid := ucred_uid b; rbuffer := rbuffer b; rqueue := rqueue b; wqueue := wqueue
     b; windex := windex b; bus_fds := bus_fds b; bus_cookie := bus_cookie b; slots :=
     slots b; next_slot := next_slot b; reply_callbacks := reply_callbacks b;
     reply_callbacks_prioq := reply_callbacks_prioq b; filter_callbacks :=
     filter_callbacks b; filter_callbacks_modified := filter_callbacks_modified b;
     manual_peer_interface := manual_peer_interface b; iteration_counter :=
     iteration_counter b; current_message := current_message b; current_slot :=
     current_slot b; exit_on_disconnect := exit_on_disconnect b; exit_triggered :=
     exit_triggered b; exited := exited b; address := address b; address_index :=
     address_index b; sockaddr := sockaddr b; server_id := server_id b; last_connect_error
     := last_connect_error b; auth := auth b; auth_rbegin := auth_rbegin b; auth_iovec :=
     auth_iovec b; auth_index := auth_index b; auth_timeout := auth_timeout b |}.
Definition set_ucred_uid (v : Z) (b : connection) : connection :=
  {| bus := bus b; message_endian := message_endian b; input_fd := input_fd b; output_fd
     := output_fd b; bus_client := bus_client b; is_server := is_server b; anonymous_auth
     := anonymous_auth b; is_monitor := is_monitor b; accept_fd := accept_fd b;
     connected_signal := connected_signal b; send_null_byte := send_null_byte b; trusted
     := trusted b; is_local := is_local b; watch_bind := watch_bind b; patch_sender :=
     patch_sender b; method_call_timeout := method_call_timeout b; ucred_valid :=
     ucred_valid b; ucred_uid := v; rbuffer := rbuffer b; rqueue := rqueue b; wqueue :=
     wqueue b; windex := windex b; bus_fds := bus_fds b; bus_cookie := bus_cookie b; slots
     := slots b; next_slot := next_slot b; reply_callbacks := reply_callbacks b;
     reply_callbacks_prioq := reply_callbacks_prioq b; filter_callbacks :=
     filter_callbacks b; filter_callbacks_modified := filter_callbacks_modified b;
     manual_peer_interface := manual_peer_interface b; iteration_counter :=
     iteration_counter b; current_message := current_message b; current_slot :=
     current_slot b; exit_on_disconnect := exit_on_disconnect b; exit_triggered :=
     exit_triggered b; exited := exited b; address := address b; address_index :=
     address_index b; sockaddr := sockaddr b; server_id := server_id b; last_connect_error
     := last_connect_error b; auth := auth b; auth_rbegin := auth_rbegin b; auth_iovec :=
     auth_iovec b; auth_index := auth_index b; auth_timeout := auth_timeout b |}.
Definition set_rbuffer (v : list Z) (b : connection) : connection :=
  {| bus := bus b; message_endian := message_endian b; input_fd := input_fd b; output_fd
     := output_fd b; bus_client := bus_client b; is_server := is_server b; anonymous_auth
     := anonymous_auth b; is_monitor := is_monitor b; accept_fd := accept_fd b;
     connected_signal := connected_signal b; send_null_byte := send_null_byte b; trusted
     := trusted b; is_local := is_local b; watch_bind := watch_bind b; patch_sender :=
     patch_sender b; method_call_timeout := method_call_timeout b; ucred_valid :=
     ucred_valid b; ucred_uid := ucred_uid b; rbuffer := v; rqueue := rqueue b; wqueue :=
     wqueue b; windex := windex b; bus_fds := bus_fds b; bus_cookie := bus_cookie b; slots
     := slots b; next_slot := next_slot b; reply_callbacks := reply_callbacks b;
     reply_callbacks_prioq := reply_callbacks_prioq b; filter_callbacks :=
     filter_callbacks b; filter_callbacks_modified := filter_callbacks_modified b;
     manual_peer_interface := manual_peer_interface b; iteration_counter :=
     iteration_counter b; current_message := current_message b; current_slot :=
     current_slot b; exit_on_disconnect := exit_on_disconnect b; exit_triggered :=
     exit_triggered b; exited := exited b; address := address b; address_index :=
     address_index b; sockaddr := sockaddr b; server_id := server_id b; last_connect_error
     := last_connect_error b; auth := auth b; auth_rbegin := auth_rbegin b; auth_iovec :=
     auth_iovec b; auth_index := auth_index b; auth_timeout := auth_timeout b |}.
Definition set_rqueue (v : list message) (b : connection) : connection :=
  {| bus := bus b; message_endian := message_endian b; input_fd := input_fd b; output_fd
     := output_fd b; bus_client := bus_client b; is_server := is_server b; anonymous_auth
     := anonymous_auth b; is_monitor := is_monitor b; accept_fd := accept_fd b;
     connected_signal := connected_signal b; send_null_byte := send_null_byte b; trusted
     := trusted b; is_local := is_local b; watch_bind := watch_bind b; patch_sender :=
     patch_sender b; method_call_timeout := method_call_timeout b; ucred_valid :=
     ucred_valid b; ucred_uid := ucred_uid b; rbuffer := rbuffer b; rqueue := v; wqueue :=
     wqueue b; windex := windex b; bus_fds := bus_fds b; bus_cookie := bus_cookie b; slots
     := slots b; next_slot := next_slot b; reply_callbacks := reply_callbacks b;
     reply_callbacks_prioq := reply_callbacks_prioq b; filter_callbacks :=
     filter_callbacks b; filter_callbacks_modified := filter_callbacks_modified b;
     manual_peer_interface := manual_peer_interface b; iteration_counter :=
     iteration_counter b; current_message := current_message b; current_slot :=
     current_slot b; exit_on_disconnect := exit_on_disconnect b; exit_triggered :=
     exit_triggered b; exited := exited b; address := address b; address_index :=
     address_index b; sockaddr := sockaddr b; server_id := server_id b; last_connect_error
     := last_connect_error b; auth := auth b; auth_rbegin := auth_rbegin b; auth_iovec :=
     auth_iovec b; auth_index := auth_index b; auth_timeout := auth_timeout b |}.
Definition set_wqueue (v : list message) (b : connection) : connection :=
  {| bus := bus b; message_endian := message_endian b; input_fd := input_fd b; output_fd
     := output_fd b; bus_client := bus_client b; is_server := is_server b; anonymous_auth
     := anonymous_auth b; is_monitor := is_monitor b; accept_fd := accept_fd b;
     connected_signal := connected_signal b; send_null_byte := send_null_byte b; trusted
     := trusted b; is_local := is_local b; watch_bind := watch_bind b; patch_sender :=
     patch_sender b; method_call_timeout := method_call_timeout b; ucred_valid :=
     ucred_valid b; ucred_uid := ucred_uid b; rbuffer := rbuffer b; rqueue := rqueue b;
     wqueue := v; windex := windex b; bus_fds := bus_fds b; bus_cookie := bus_cookie b;
     slots := slots b; next_slot := next_slot b; reply_callbacks := reply_callbacks b;
     reply_callbacks_prioq := reply_callbacks_prioq b; filter_callbacks :=
     filter_callbacks b; filter_callbacks_modified := filter_callbacks_modified b;
     manual_peer_interface := manual_peer_interface b; iteration_counter :=
     iteration_counter b; current_message := current_message b; current_slot :=
     current_slot b; exit_on_disconnect := exit_on_disconnect b; exit_triggered :=
     exit_triggered b; exited := exited b; address := address b; address_index :=
     address_index b; sockaddr := sockaddr b; server_id := server_id b; last_connect_error
     := last_connect_error b; auth := auth b; auth_rbegin := auth_rbegin b; auth_iovec :=
     auth_iovec b; auth_index := auth_index b; auth_timeout := auth_timeout b |}.
Definition set_windex (v : Z) (b : connection) : connection :=
  {| bus := bus b; message_endian := message_endian b; input_fd := input_fd b; output_fd
     := output_fd b; bus_client := bus_client b; is_server := is_server b; anonymous_auth
     := anonymous_auth b; is_monitor := is_monitor b; accept_fd := accept_fd b;
     connected_signal := connected_signal b; send_null_byte := send_null_byte b; trusted
     := trusted b; is_local := is_local b; watch_bind := watch_bind b; patch_sender :=
     patch_sender b; method_call_timeout := method_call_timeout b; ucred_valid :=
     ucred_valid b; ucred_uid := ucred_uid b; rbuffer := rbuffer b; rqueue := rqueue b;
     wqueue := wqueue b; windex := v; bus_fds := bus_fds b; bus_cookie := bus_cookie b;
     slots := slots b; next_slot := next_slot b; reply_callbacks := reply_callbacks b;
     reply_callbacks_prioq := reply_callbacks_prioq b; filter_callbacks :=
     filter_callbacks b; filter_callbacks_modified := filter_callbacks_modified b;
     manual_peer_interface := manual_peer_interface b; iteration_counter :=
     iteration_counter b; current_message := current_message b; current_slot :=
     current_slot b; exit_on_disconnect := exit_on_disconnect b; exit_triggered :=
     exit_triggered b; exited := exited b; address := address b; address_index :=
     address_index b; sockaddr := sockaddr b; server_id := server_id b; last_connect_error
     := last_connect_error b; auth := auth b; auth_rbegin := auth_rbegin b; auth_iovec :=
     auth_iovec b; auth_index := auth_index b; auth_timeout := auth_timeout b |}.
Definition set_bus_fds (v : list Z) (b : connection) : connection :=
  {| bus := bus b; message_endian := message_endian b; input_fd := input_fd b; output_fd
     := output_fd b; bus_client := bus_client b; is_server := is_server b; anonymous_auth
     := anonymous_auth b; is_monitor := is_monitor b; accept_fd := accept_fd b;
     connected_signal := connected_signal b; send_null_byte := send_null_byte b; trusted
     := trusted b; is_local := is_local b; watch_bind := watch_bind b; patch_sender :=
     patch_sender b; method_call_timeout := method_call_timeout b; ucred_valid :=
     ucred_valid b; ucred_uid := ucred_uid b; rbuffer := rbuffer b; rqueue := rqueue b;
     wqueue := wqueue b; windex := windex b; bus_fds := v; bus_cookie := bus_cookie b;
     slots := slots b; next_slot := next_slot b; reply_callbacks := reply_callbacks b;
     reply_callbacks_prioq := reply_callbacks_prioq b; filter_callbacks :=
     filter_callbacks b; filter_callbacks_modified := filter_callbacks_modified b;
     manual_peer_interface := manual_peer_interface b; iteration_counter :=
     iteration_counter b; current_message := current_message b; current_slot :=
     current_slot b; exit_on_disconnect := exit_on_disconnect b; exit_triggered :=
     exit_triggered b; exited := exited b; address := address b; address_index :=
     address_index b; sockaddr := sockaddr b; server_id := server_id b; last_connect_error
     := last_connect_error b; auth := auth b; auth_rbegin := auth_rbegin b; auth_iovec :=
     auth_iovec b; auth_index := auth_index b; auth_timeout := auth_timeout b |}.
Definition set_bus_cookie (v : Z) (b : connection) : connection :=
  {| bus := bus b; message_endian := message_endian b; input_fd := input_fd b; output_fd
     := output_fd b; bus_client := bus_client b; is_server := is_server b; anonymous_auth
     := anonymous_auth b; is_monitor := is_monitor b; accept_fd := accept_fd b;
     connected_signal := connected_signal b; send_null_byte := send_null_byte b; trusted
     := trusted b; is_local := is_local b; watch_bind := watch_bind b; patch_sender :=
     patch_sender b; method_call_timeout := method_call_timeout b; ucred_valid :=
     ucred_valid b; ucred_uid := ucred_uid b; rbuffer := rbuffer b; rqueue := rqueue b;
     wqueue := wqueue b; windex := windex b; bus_fds := bus_fds b; bus_cookie := v; slots
     := slots b; next_slot := next_slot b; reply_callbacks := reply_callbacks b;
     reply_callbacks_prioq := reply_callbacks_prioq b; filter_callbacks :=
     filter_callbacks b; filter_callbacks_modified := filter_callbacks_modified b;
     manual_peer_interface := manual_peer_interface b; iteration_counter :=
     iteration_counter b; current_message := current_message b; current_slot :=
     current_slot b; exit_on_disconnect := exit_on_disconnect b; exit_triggered :=
     exit_triggered b; exited := exited b; address := address b; address_index :=
     address_index b; sockaddr := sockaddr b; server_id := server_id b; last_connect_error
     := last_connect_error b; auth := auth b; auth_rbegin := auth_rbegin b; auth_iovec :=
     auth_iovec b; auth_index := auth_index b; auth_timeout := auth_timeout b |}.
Definition set_slots (v : gmap nat sd_bus_slot) (b : connection) : connection :=
  {| bus := bus b; message_endian := message_endian b; input_fd := input_fd b; output_fd
     := output_fd b; bus_client := bus_client b; is_server := is_server b; anonymous_auth
     := anonymous_auth b; is_monitor := is_monitor b; accept_fd := accept_fd b;
     connected_signal := connected_signal b; send_null_byte := send_null_byte b; trusted
     := trusted b; is_local := is_local b; watch_bind := watch_bind b; patch_sender :=
     patch_sender b; method_call_timeout := method_call_timeout b; ucred_valid :=
     ucred_valid b; ucred_uid := ucred_uid b; rbuffer := rbuffer b; rqueue := rqueue b;
     wqueue := wqueue b; windex := windex b; bus_fds := bus_fds b; bus_cookie :=
     bus_cookie b; slots := v; next_slot := next_slot b; reply_callbacks :=
     reply_callbacks b; reply_callbacks_prioq := reply_callbacks_prioq b; filter_callbacks
     := filter_callbacks b; filter_callbacks_modified := filter_callbacks_modified b;
     manual_peer_interface := manual_peer_interface b; iteration_counter :=
     iteration_counter b; current_message := current_message b; current_slot :=
     current_slot b; exit_on_disconnect := exit_on_disconnect b; exit_triggered :=
     exit_triggered b; exited := exited b; address := address b; address_index :=
     address_index b; sockaddr := sockaddr b; server_id := server_id b; last_connect_error
     := last_connect_error b; auth := auth b; auth_rbegin := auth_rbegin b; auth_iovec :=
     auth_iovec b; auth_index := auth_index b; auth_timeout := auth_timeout b |}.
Definition set_next_slot (v : nat) (b : connection) : connection :=
  {| bus := bus b; message_endian := message_endian b; input_fd := input_fd b; output_fd
     := output_fd b; bus_client := bus_client b; is_server := is_server b; anonymous_auth
     := anonymous_auth b; is_monitor := is_monitor b; accept_fd := accept_fd b;
     connected_signal := connected_signal b; send_null_byte := send_null_byte b; trusted
     := trusted b; is_local := is_local b; watch_bind := watch_bind b; patch_sender :=
     patch_sender b; method_call_timeout := method_call_timeout b; ucred_valid :=
     ucred_valid b; ucred_uid := ucred_uid b; rbuffer := rbuffer b; rqueue := rqueue b;
     wqueue := wqueue b; windex := windex b; bus_fds := bus_fds b; bus_cookie :=
     bus_cookie b; slots := slots b; next_slot := v; reply_callbacks := reply_callbacks b;
     reply_callbacks_prioq := reply_callbacks_prioq b; filter_callbacks :=
     filter_callbacks b; filter_callbacks_modified := filter_callbacks_modified b;
     manual_peer_interface := manual_peer_interface b; iteration_counter :=
     iteration_counter b; current_message := current_message b; current_slot :=
     current_slot b; exit_on_disconnect := exit_on_disconnect b; exit_triggered :=
     exit_triggered b; exited := exited b; address := address b; address_index :=
     address_index b; sockaddr := sockaddr b; server_id := server_id b; last_connect_error
     := last_connect_error b; auth := auth b; auth_rbegin := auth_rbegin b; auth_iovec :=
     auth_iovec b; auth_index := auth_index b; auth_timeout := auth_timeout b |}.
Definition set_reply_callbacks (v : list nat) (b : connection) : connection :=
  {| bus := bus b; message_endian := message_endian b; input_fd := input_fd b; output_fd
     := output_fd b; bus_client := bus_client b; is_server := is_server b; anonymous_auth
     := anonymous_auth b; is_monitor := is_monitor b; accept_fd := accept_fd b;
     connected_signal := connected_signal b; send_null_byte := send_null_byte b; trusted
     := trusted b; is_local := is_local b; watch_bind := watch_bind b; patch_sender :=
     patch_sender b; method_call_timeout := method_call_timeout b; ucred_valid :=
     ucred_valid b; ucred_uid := ucred_uid b; rbuffer := rbuffer b; rqueue := rqueue b;
     wqueue := wqueue b; windex := windex b; bus_fds := bus_fds b; bus_cookie :=
     bus_cookie b; slots := slots b; next_slot := next_slot b; reply_callbacks := v;
     reply_callbacks_prioq := reply_callbacks_prioq b; filter_callbacks :=
     filter_callbacks b; filter_callbacks_modified := filter_callbacks_modified b;
     manual_peer_interface := manual_peer_interface b; iteration_counter :=
     iteration_counter b; current_message := current_message b; current_slot :=
     current_slot b; exit_on_disconnect := exit_on_disconnect b; exit_triggered :=
     exit_triggered b; exited := exited b; address := address b; address_index :=
     address_index b; sockaddr := sockaddr b; server_id := server_id b; last_connect_error
     := last_connect_error b; auth := auth b; auth_rbegin := auth_rbegin b; auth_iovec :=
     auth_iovec b; auth_index := auth_index b; auth_timeout := auth_timeout b |}.
Definition set_reply_callbacks_prioq (v : Prioq nat) (b : connection) : connection :=
  {| bus := bus b; message_endian := message_endian b; input_fd := input_fd b; output_fd
     := output_fd b; bus_client := bus_client b; is_server := is_server b; anonymous_auth
     := anonymous_auth b; is_monitor := is_monitor b; accept_fd := accept_fd b;
     connected_signal := connected_signal b; send_null_byte := send_null_byte b; trusted
     := trusted b; is_local := is_local b; watch_bind := watch_bind b; patch_sender :=
     patch_sender b; method_call_timeout := method_call_timeout b; ucred_valid :=
     ucred_valid b; ucred_uid := ucred_uid b; rbuffer := rbuffer b; rqueue := rqueue b;
     wqueue := wqueue b; windex := windex b; bus_fds := bus_fds b; bus_cookie :=
     bus_cookie b; slots := slots b; next_slot := next_slot b; reply_callbacks :=
     reply_callbacks b; reply_callbacks_prioq := v; filter_callbacks := filter_callbacks
     b; filter_callbacks_modified := filter_callbacks_modified b; manual_peer_interface :=
     manual_peer_interface b; iteration_counter := iteration_counter b; current_message :=
     current_message b; current_slot := current_slot b; exit_on_disconnect :=
     exit_on_disconnect b; exit_triggered := exit_triggered b; exited := exited b; address
     := address b; address_index := address_index b; sockaddr := sockaddr b; server_id :=
     server_id b; last_connect_error := last_connect_error b; auth := auth b; auth_rbegin
     := auth_rbegin b; auth_iovec := auth_iovec b; auth_index := auth_index b;
     auth_timeout := auth_timeout b |}.
Definition set_filter_callbacks (v : list nat) (b : connection) : connection :=
  {| bus := bus b; message_endian := message_endian b; input_fd := input_fd b; output_fd
     := output_fd b; bus_client := bus_client b; is_server := is_server b; anonymous_auth
     := anonymous_auth b; is_monitor := is_monitor b; accept_fd := accept_fd b;
     connected_signal := connected_signal b; send_null_byte := send_null_byte b; trusted
     := trusted b; is_local := is_local b; watch_bind := watch_bind b; patch_sender :=
     patch_sender b; method_call_timeout := method_call_timeout b; ucred_valid :=
     ucred_valid b; ucred_uid := ucred_uid b; rbuffer := rbuffer b; rqueue := rqueue b;
     wqueue := wqueue b; windex := windex b; bus_fds := bus_fds b; bus_cookie :=
     bus_cookie b; slots := slots b; next_slot := next_slot b; reply_callbacks :=
     reply_callbacks b; reply_callbacks_prioq := reply_callbacks_prioq b; filter_callbacks
     := v; filter_callbacks_modified := filter_callbacks_modified b; manual_peer_interface
     := manual_peer_interface b; iteration_counter := iteration_counter b; current_message
     := current_message b; current_slot := current_slot b; exit_on_disconnect :=
     exit_on_disconnect b; exit_triggered := exit_triggered b; exited := exited b; address
     := address b; address_index := address_index b; sockaddr := sockaddr b; server_id :=
     server_id b; last_connect_error := last_connect_error b; auth := auth b; auth_rbegin
     := auth_rbegin b; auth_iovec := auth_iovec b; auth_index := auth_index b;
     auth_timeout := auth_timeout b |}.
Definition set_filter_callbacks_modified (v : bool) (b : connection) : connection :=
  {| bus := bus b; message_endian := message_endian b; input_fd := input_fd b; output_fd
     := output_fd b; bus_client := bus_client b; is_server := is_server b; anonymous_auth
     := anonymous_auth b; is_monitor := is_monitor b; accept_fd := accept_fd b;
     connected_signal := connected_signal b; send_null_byte := send_null_byte b; trusted
     := trusted b; is_local := is_local b; watch_bind := watch_bind b; patch_sender :=
     patch_sender b; method_call_timeout := method_call_timeout b; ucred_valid :=
     ucred_valid b; ucred_uid := ucred_uid b; rbuffer := rbuffer b; rqueue := rqueue b;
     wqueue := wqueue b; windex := windex b; bus_fds := bus_fds b; bus_cookie :=
     bus_cookie b; slots := slots b; next_slot := next_slot b; reply_callbacks :=
     reply_callbacks b; reply_callbacks_prioq := reply_callbacks_prioq b; filter_callbacks
     := filter_callbacks b; filter_callbacks_modified := v; manual_peer_interface :=
     manual_peer_interface b; iteration_counter := iteration_counter b; current_message :=
     current_message b; current_slot := current_slot b; exit_on_disconnect :=
     exit_on_disconnect b; exit_triggered := exit_triggered b; exited := exited b; address
     := address b; address_index := address_index b; sockaddr := sockaddr b; server_id :=
     server_id b; last_connect_error := last_connect_error b; auth := auth b; auth_rbegin
     := auth_rbegin b; auth_iovec := auth_iovec b; auth_index := auth_index b;
     auth_timeout := auth_timeout b |}.
Definition set_manual_peer_interface (v : bool) (b : connection) : connection :=
  {| bus := bus b; message_endian := message_endian b; input_fd := input_fd b; output_fd
     := output_fd b; bus_client := bus_client b; is_server := is_server b; anonymous_auth
     := anonymous_auth b; is_monitor := is_monitor b; accept_fd := accept_fd b;
     connected_signal := connected_signal b; send_null_byte := send_null_byte b; trusted
     := trusted b; is_local := is_local b; watch_bind := watch_bind b; patch_sender :=
     patch_sender b; method_call_timeout := method_call_timeout b; ucred_valid :=
     ucred_valid b; ucred_uid := ucred_uid b; rbuffer := rbuffer b; rqueue := rqueue b;
     wqueue := wqueue b; windex := windex b; bus_fds := bus_fds b; bus_cookie :=
     bus_cookie b; slots := slots b; next_slot := next_slot b; reply_callbacks :=
     reply_callbacks b; reply_callbacks_prioq := reply_callbacks_prioq b; filter_callbacks
     := filter_callbacks b; filter_callbacks_modified := filter_callbacks_modified b;
     manual_peer_interface := v; iteration_counter := iteration_counter b; current_message
     := current_message b; current_slot := current_slot b; exit_on_disconnect :=
     exit_on_disconnect b; exit_triggered := exit_triggered b; exited := exited b; address
     := address b; address_index := address_index b; sockaddr := sockaddr b; server_id :=
     server_id b; last_connect_error := last_connect_error b; auth := auth b; auth_rbegin
     := auth_rbegin b; auth_iovec := auth_iovec b; auth_index := auth_index b;
     auth_timeout := auth_timeout b |}.
Definition set_iteration_counter (v : Z) (b : connection) : connection :=
  {| bus := bus b; message_endian := message_endian b; input_fd := input_fd b; output_fd
     := output_fd b; bus_client := bus_client b; is_server := is_server b; anonymous_auth
     := anonymous_auth b; is_monitor := is_monitor b; accept_fd := accept_fd b;
     connected_signal := connected_signal b; send_null_byte := send_null_byte b; trusted
     := trusted b; is_local := is_local b; watch_bind := watch_bind b; patch_sender :=
     patch_sender b; method_call_timeout := method_call_timeout b; ucred_valid :=
     ucred_valid b; ucred_uid := ucred_uid b; rbuffer := rbuffer b; rqueue := rqueue b;
     wqueue := wqueue b; windex := windex b; bus_fds := bus_fds b; bus_cookie :=
     bus_cookie b; slots := slots b; next_slot := next_slot b; reply_callbacks :=
     reply_callbacks b; reply_callbacks_prioq := reply_callbacks_prioq b; filter_callbacks
     := filter_callbacks b; filter_callbacks_modified := filter_callbacks_modified b;
     manual_peer_interface := manual_peer_interface b; iteration_counter := v;
     current_message := current_message b; current_slot := current_slot b;
     exit_on_disconnect := exit_on_disconnect b; exit_triggered := exit_triggered b;
     exited := exited b; address := address b; address_index := address_index b; sockaddr
     := sockaddr b; server_id := server_id b; last_connect_error := last_connect_error b;
     auth := auth b; auth_rbegin := auth_rbegin b; auth_iovec := auth_iovec b; auth_index
     := auth_index b; auth_timeout := auth_timeout b |}.
Definition set_current_message (v : option message) (b : connection) : connection :=
  {| bus := bus b; message_endian := message_endian b; input_fd := input_fd b; output_fd
     := output_fd b; bus_client := bus_client b; is_server := is_server b; anonymous_auth
     := anonymous_auth b; is_monitor := is_monitor b; accept_fd := accept_fd b;
     connected_signal := connected_signal b; send_null_byte := send_null_byte b; trusted
     := trusted b; is_local := is_local b; watch_bind := watch_bind b; patch_sender :=
     patch_sender b; method_call_timeout := method_call_timeout b; ucred_valid :=
     ucred_valid b; ucred_uid := ucred_uid b; rbuffer := rbuffer b; rqueue := rqueue b;
     wqueue := wqueue b; windex := windex b; bus_fds := bus_fds b; bus_cookie :=
     bus_cookie b; slots := slots b; next_slot := next_slot b; reply_callbacks :=
     reply_callbacks b; reply_callbacks_prioq := reply_callbacks_prioq b; filter_callbacks
     := filter_callbacks b; filter_callbacks_modified := filter_callbacks_modified b;
     manual_peer_interface := manual_peer_interface b; iteration_counter :=
     iteration_counter b; current_message := v; current_slot := current_slot b;
     exit_on_disconnect := exit_on_disconnect b; exit_triggered := exit_triggered b;
     exited := exited b; address := address b; address_index := address_index b; sockaddr
     := sockaddr b; server_id := server_id b; last_connect_error := last_connect_error b;
     auth := auth b; auth_rbegin := auth_rbegin b; auth_iovec := auth_iovec b; auth_index
     := auth_index b; auth_timeout := auth_timeout b |}.
Definition set_current_slot (v : option nat) (b : connection) : connection :=
  {| bus := bus b; message_endian := message_endian b; input_fd := input_fd b; output_fd
     := output_fd b; bus_client := bus_client b; is_server := is_server b; anonymous_auth
     := anonymous_auth b; is_monitor := is_monitor b; accept_fd := accept_fd b;
     connected_signal := connected_signal b; send_null_byte := send_null_byte b; trusted
     := trusted b; is_local := is_local b; watch_bind := watch_bind b; patch_sender :=
     patch_sender b; method_call_timeout := method_call_timeout b; ucred_valid :=
     ucred_valid b; ucred_uid := ucred_uid b; rbuffer := rbuffer b; rqueue := rqueue b;
     wqueue := wqueue b; windex := windex b; bus_fds := bus_fds b; bus_cookie :=
     bus_cookie b; slots := slots b; next_slot := next_slot b; reply_callbacks :=
     reply_callbacks b; reply_callbacks_prioq := reply_callbacks_prioq b; filter_callbacks
     := filter_callbacks b; filter_callbacks_modified := filter_callbacks_modified b;
     manual_peer_interface := manual_peer_interface b; iteration_counter :=
     iteration_counter b; current_message := current_message b; current_slot := v;
     exit_on_disconnect := exit_on_disconnect b; exit_triggered := exit_triggered b;
     exited := exited b; address := address b; address_index := address_index b; sockaddr
     := sockaddr b; server_id := server_id b; last_connect_error := last_connect_error b;
     auth := auth b; auth_rbegin := auth_rbegin b; auth_iovec := auth_iovec b; auth_index
     := auth_index b; auth_timeout := auth_timeout b |}.
Definition set_exit_on_disconnect (v : bool) (b : connection) : connection :=
  {| bus := bus b; message_endian := message_endian b; input_fd := input_fd b; output_fd
     := output_fd b; bus_client := bus_client b; is_server := is_server b; anonymous_auth
     := anonymous_auth b; is_monitor := is_monitor b; accept_fd := accept_fd b;
     connected_signal := connected_signal b; send_null_byte := send_null_byte b; trusted
     := trusted b; is_local := is_local b; watch_bind := watch_bind b; patch_sender :=
     patch_sender b; method_call_timeout := method_call_timeout b; ucred_valid :=
     ucred_valid b; ucred_uid := ucred_uid b; rbuffer := rbuffer b; rqueue := rqueue b;
     wqueue := wqueue b; windex := windex b; bus_fds := bus_fds b; bus_cookie :=
     bus_cookie b; slots := slots b; next_slot := next_slot b; reply_callbacks :=
     reply_callbacks b; reply_callbacks_prioq := reply_callbacks_prioq b; filter_callbacks
     := filter_callbacks b; filter_callbacks_modified := filter_callbacks_modified b;
     manual_peer_interface := manual_peer_interface b; iteration_counter :=
     iteration_counter b; current_message := current_message b; current_slot :=
     current_slot b; exit_on_disconnect := v; exit_triggered := exit_triggered b; exited
     := exited b; address := address b; address_index := address_index b; sockaddr :=
     sockaddr b; server_id := server_id b; last_connect_error := last_connect_error b;
     auth := auth b; auth_rbegin := auth_rbegin b; auth_iovec := auth_iovec b; auth_index
     := auth_index b; auth_timeout := auth_timeout b |}.
Definition set_exit_triggered (v : bool) (b : connection) : connection :=
  {| bus := bus b; message_endian := message_endian b; input_fd := input_fd b; output_fd
     := output_fd b; bus_client := bus_client b; is_server := is_server b; anonymous_auth
     := anonymous_auth b; is_monitor := is_monitor b; accept_fd := accept_fd b;
     connected_signal := connected_signal b; send_null_byte := send_null_byte b; trusted
     := trusted b; is_local := is_local b; watch_bind := watch_bind b; patch_sender :=
     patch_sender b; method_call_timeout := method_call_timeout b; ucred_valid :=
     ucred_valid b; ucred_uid := ucred_uid b; rbuffer := rbuffer b; rqueue := rqueue b;
     wqueue := wqueue b; windex := windex b; bus_fds := bus_fds b; bus_cookie :=
     bus_cookie b; slots := slots b; next_slot := next_slot b; reply_callbacks :=
     reply_callbacks b; reply_callbacks_prioq := reply_callbacks_prioq b; filter_callbacks
     := filter_callbacks b; filter_callbacks_modified := filter_callbacks_modified b;
     manual_peer_interface := manual_peer_interface b; iteration_counter :=
     iteration_counter b; current_message := current_message b; current_slot :=
     current_slot b; exit_on_disconnect := exit_on_disconnect b; exit_triggered := v;
     exited := exited b; address := address b; address_index := address_index b; sockaddr
     := sockaddr b; server_id := server_id b; last_connect_error := last_connect_error b;
     auth := auth b; auth_rbegin := auth_rbegin b; auth_iovec := auth_iovec b; auth_index
     := auth_index b; auth_timeout := auth_timeout b |}.
Definition set_exited (v : bool) (b : connection) : connection :=
  {| bus := bus b; message_endian := message_endian b; input_fd := input_fd b; output_fd
     := output_fd b; bus_client := bus_client b; is_server := is_server b; anonymous_auth
     := anonymous_auth b; is_monitor := is_monitor b; accept_fd := accept_fd b;
     connected_signal := connected_signal b; send_null_byte := send_null_byte b; trusted
     := trusted b; is_local := is_local b; watch_bind := watch_bind b; patch_sender :=
     patch_sender b; method_call_timeout := method_call_timeout b; ucred_valid :=
     ucred_valid b; ucred_uid := ucred_uid b; rbuffer := rbuffer b; rqueue := rqueue b;
     wqueue := wqueue b; windex := windex b; bus_fds := bus_fds b; bus_cookie :=
     bus_cookie b; slots := slots b; next_slot := next_slot b; reply_callbacks :=
     reply_callbacks b; reply_callbacks_prioq := reply_callbacks_prioq b; filter_callbacks
     := filter_callbacks b; filter_callbacks_modified := filter_callbacks_modified b;
     manual_peer_interface := manual_peer_interface b; iteration_counter :=
     iteration_counter b; current_message := current_message b; current_slot :=
     current_slot b; exit_on_disconnect := exit_on_disconnect b; exit_triggered :=
     exit_triggered b; exited := v; address := address b; address_index := address_index
     b; sockaddr := sockaddr b; server_id := server_id b; last_connect_error :=
     last_connect_error b; auth := auth b; auth_rbegin := auth_rbegin b; auth_iovec :=
     auth_iovec b; auth_index := auth_index b; auth_timeout := auth_timeout b |}.
Definition set_address (v : option cstr) (b : connection) : connection :=
  {| bus := bus b; message_endian := message_endian b; input_fd := input_fd b; output_fd
     := output_fd b; bus_client := bus_client b; is_server := is_server b; anonymous_auth
     := anonymous_auth b; is_monitor := is_monitor b; accept_fd := accept_fd b;
     connected_signal := connected_signal b; send_null_byte := send_null_byte b; trusted
     := trusted b; is_local := is_local b; watch_bind := watch_bind b; patch_sender :=
     patch_sender b; method_call_timeout := method_call_timeout b; ucred_valid :=
     ucred_valid b; ucred_uid := ucred_uid b; rbuffer := rbuffer b; rqueue := rqueue b;
     wqueue := wqueue b; windex := windex b; bus_fds := bus_fds b; bus_cookie :=
     bus_cookie b; slots := slots b; next_slot := next_slot b; reply_callbacks :=
     reply_callbacks b; reply_callbacks_prioq := reply_callbacks_prioq b; filter_callbacks
     := filter_callbacks b; filter_callbacks_modified := filter_callbacks_modified b;
     manual_peer_interface := manual_peer_interface b; iteration_counter :=
     iteration_counter b; current_message := current_message b; current_slot :=
     current_slot b; exit_on_disconnect := exit_on_disconnect b; exit_triggered :=
     exit_triggered b; exited := exited b; address := v; address_index := address_index b;
     sockaddr := sockaddr b; server_id := server_id b; last_connect_error :=
     last_connect_error b; auth := auth b; auth_rbegin := auth_rbegin b; auth_iovec :=
     auth_iovec b; auth_index := auth_index b; auth_timeout := auth_timeout b |}.
Definition set_address_index (v : nat) (b : connection) : connection :=
  {| bus := bus b; message_endian := message_endian b; input_fd := input_fd b; output_fd
     := output_fd b; bus_client := bus_client b; is_server := is_server b; anonymous_auth
     := anonymous_auth b; is_monitor := is_monitor b; accept_fd := accept_fd b;
     connected_signal := connected_signal b; send_null_byte := send_null_byte b; trusted
     := trusted b; is_local := is_local b; watch_bind := watch_bind b; patch_sender :=
     patch_sender b; method_call_timeout := method_call_timeout b; ucred_valid :=
     ucred_valid b; ucred_uid := ucred_uid b; rbuffer := rbuffer b; rqueue := rqueue b;
     wqueue := wqueue b; windex := windex b; bus_fds := bus_fds b; bus_cookie :=
     bus_cookie b; slots := slots b; next_slot := next_slot b; reply_callbacks :=
     reply_callbacks b; reply_callbacks_prioq := reply_callbacks_prioq b; filter_callbacks
     := filter_callbacks b; filter_callbacks_modified := filter_callbacks_modified b;
     manual_peer_interface := manual_peer_interface b; iteration_counter :=
     iteration_counter b; current_message := current_message b; current_slot :=
     current_slot b; exit_on_disconnect := exit_on_disconnect b; exit_triggered :=
     exit_triggered b; exited := exited b; address := address b; address_index := v;
     sockaddr := sockaddr b; server_id := server_id b; last_connect_error :=
     last_connect_error b; auth := auth b; auth_rbegin := auth_rbegin b; auth_iovec :=
     auth_iovec b; auth_index := auth_index b; auth_timeout := auth_timeout b |}.
Definition set_sockaddr (v : option sockaddr_union) (b : connection) : connection :=
  {| bus := bus b; message_endian := message_endian b; input_fd := input_fd b; output_fd
     := output_fd b; bus_client := bus_client b; is_server := is_server b; anonymous_auth
     := anonymous_auth b; is_monitor := is_monitor b; accept_fd := accept_fd b;
     connected_signal := connected_signal b; send_null_byte := send_null_byte b; trusted
     := trusted b; is_local := is_local b; watch_bind := watch_bind b; patch_sender :=
     patch_sender b; method_call_timeout := method_call_timeout b; ucred_valid :=
     ucred_valid b; ucred_uid := ucred_uid b; rbuffer := rbuffer b; rqueue := rqueue b;
     wqueue := wqueue b; windex := windex b; bus_fds := bus_fds b; bus_cookie :=
     bus_cookie b; slots := slots b; next_slot := next_slot b; reply_callbacks :=
     reply_callbacks b; reply_callbacks_prioq := reply_callbacks_prioq b; filter_callbacks
     := filter_callbacks b; filter_callbacks_modified := filter_callbacks_modified b;
     manual_peer_interface := manual_peer_interface b; iteration_counter :=
     iteration_counter b; current_message := current_message b; current_slot :=
     current_slot b; exit_on_disconnect := exit_on_disconnect b; exit_triggered :=
     exit_triggered b; exited := exited b; address := address b; address_index :=
     address_index b; sockaddr := v; server_id := server_id b; last_connect_error :=
     last_connect_error b; auth := auth b; auth_rbegin := auth_rbegin b; auth_iovec :=
     auth_iovec b; auth_index := auth_index b; auth_timeout := auth_timeout b |}.
Definition set_server_id (v : list Z) (b : connection) : connection :=
  {| bus := bus b; message_endian := message_endian b; input_fd := input_fd b; output_fd
     := output_fd b; bus_client := bus_client b; is_server := is_server b; anonymous_auth
     := anonymous_auth b; is_monitor := is_monitor b; accept_fd := accept_fd b;
     connected_signal := connected_signal b; send_null_byte := send_null_byte b; trusted
     := trusted b; is_local := is_local b; watch_bind := watch_bind b; patch_sender :=
     patch_sender b; method_call_timeout := method_call_timeout b; ucred_valid :=
     ucred_valid b; ucred_uid := ucred_uid b; rbuffer := rbuffer b; rqueue := rqueue b;
     wqueue := wqueue b; windex := windex b; bus_fds := bus_fds b; bus_cookie :=
     bus_cookie b; slots := slots b; next_slot := next_slot b; reply_callbacks :=
     reply_callbacks b; reply_callbacks_prioq := reply_callbacks_prioq b; filter_callbacks
     := filter_callbacks b; filter_callbacks_modified := filter_callbacks_modified b;
     manual_peer_interface := manual_peer_interface b; iteration_counter :=
     iteration_counter b; current_message := current_message b; current_slot :=
     current_slot b; exit_on_disconnect := exit_on_disconnect b; exit_triggered :=
     exit_triggered b; exited := exited b; address := address b; address_index :=
     address_index b; sockaddr := sockaddr b; server_id := v; last_connect_error :=
     last_connect_error b; auth := auth b; auth_rbegin := auth_rbegin b; auth_iovec :=
     auth_iovec b; auth_index := auth_index b; auth_timeout := auth_timeout b |}.
Definition set_last_connect_error (v : option errno) (b : connection) : connection :=
  {| bus := bus b; message_endian := message_endian b; input_fd := input_fd b; output_fd
     := output_fd b; bus_client := bus_client b; is_server := is_server b; anonymous_auth
     := anonymous_auth b; is_monitor := is_monitor b; accept_fd := accept_fd b;
     connected_signal := connected_signal b; send_null_byte := send_null_byte b; trusted
     := trusted b; is_local := is_local b; watch_bind := watch_bind b; patch_sender :=
     patch_sender b; method_call_timeout := method_call_timeout b; ucred_valid :=
     ucred_valid b; ucred_uid := ucred_uid b; rbuffer := rbuffer b; rqueue := rqueue b;
     wqueue := wqueue b; windex := windex b; bus_fds := bus_fds b; bus_cookie :=
     bus_cookie b; slots := slots b; next_slot := next_slot b; reply_callbacks :=
     reply_callbacks b; reply_callbacks_prioq := reply_callbacks_prioq b; filter_callbacks
     := filter_callbacks b; filter_callbacks_modified := filter_callbacks_modified b;
     manual_peer_interface := manual_peer_interface b; iteration_counter :=
     iteration_counter b; current_message := current_message b; current_slot :=
     current_slot b; exit_on_disconnect := exit_on_disconnect b; exit_triggered :=
     exit_triggered b; exited := exited b; address := address b; address_index :=
     address_index b; sockaddr := sockaddr b; server_id := server_id b; last_connect_error
     := v; auth := auth b; auth_rbegin := auth_rbegin b; auth_iovec := auth_iovec b;
     auth_index := auth_index b; auth_timeout := auth_timeout b |}.
Definition set_auth (v : bus_auth) (b : connection) : connection :=
  {| bus := bus b; message_endian := message_endian b; input_fd := input_fd b; output_fd
     := output_fd b; bus_client := bus_client b; is_server := is_server b; anonymous_auth
     := anonymous_auth b; is_monitor := is_monitor b; accept_fd := accept_fd b;
     connected_signal := connected_signal b; send_null_byte := send_null_byte b; trusted
     := trusted b; is_local := is_local b; watch_bind := watch_bind b; patch_sender :=
     patch_sender b; method_call_timeout := method_call_timeout b; ucred_valid :=
     ucred_valid b; ucred_uid := ucred_uid b; rbuffer := rbuffer b; rqueue := rqueue b;
     wqueue := wqueue b; windex := windex b; bus_fds := bus_fds b; bus_cookie :=
     bus_cookie b; slots := slots b; next_slot := next_slot b; reply_callbacks :=
     reply_callbacks b; reply_callbacks_prioq := reply_callbacks_prioq b; filter_callbacks
     := filter_callbacks b; filter_callbacks_modified := filter_callbacks_modified b;
     manual_peer_interface := manual_peer_interface b; iteration_counter :=
     iteration_counter b; current_message := current_message b; current_slot :=
     current_slot b; exit_on_disconnect := exit_on_disconnect b; exit_triggered :=
     exit_triggered b; exited := exited b; address := address b; address_index :=
     address_index b; sockaddr := sockaddr b; server_id := server_id b; last_connect_error
     := last_connect_error b; auth := v; auth_rbegin := auth_rbegin b; auth_iovec :=
     auth_iovec b; auth_index := auth_index b; auth_timeout := auth_timeout b |}.
Definition set_auth_rbegin (v : nat) (b : connection) : connection :=
  {| bus := bus b; message_endian := message_endian b; input_fd := input_fd b; output_fd
     := output_fd b; bus_client := bus_client b; is_server := is_server b; anonymous_auth
     := anonymous_auth b; is_monitor := is_monitor b; accept_fd := accept_fd b;
     connected_signal := connected_signal b; send_null_byte := send_null_byte b; trusted
     := trusted b; is_local := is_local b; watch_bind := watch_bind b; patch_sender :=
     patch_sender b; method_call_timeout := method_call_timeout b; ucred_valid :=
     ucred_valid b; ucred_uid := ucred_uid b; rbuffer := rbuffer b; rqueue := rqueue b;
     wqueue := wqueue b; windex := windex b; bus_fds := bus_fds b; bus_cookie :=
     bus_cookie b; slots := slots b; next_slot := next_slot b; reply_callbacks :=
     reply_callbacks b; reply_callbacks_prioq := reply_callbacks_prioq b; filter_callbacks
     := filter_callbacks b; filter_callbacks_modified := filter_callbacks_modified b;
     manual_peer_interface := manual_peer_interface b; iteration_counter :=
     iteration_counter b; current_message := current_message b; current_slot :=
     current_slot b; exit_on_disconnect := exit_on_disconnect b; exit_triggered :=
     exit_triggered b; exited := exited b; address := address b; address_index :=
     address_index b; sockaddr := sockaddr b; server_id := server_id b; last_connect_error
     := last_connect_error b; auth := auth b; auth_rbegin := v; auth_iovec := auth_iovec
     b; auth_index := auth_index b; auth_timeout := auth_timeout b |}.
Definition set_auth_iovec (v : list (list Z)) (b : connection) : connection :=
  {| bus := bus b; message_endian := message_endian b; input_fd := input_fd b; output_fd
     := output_fd b; bus_client := bus_client b; is_server := is_server b; anonymous_auth
     := anonymous_auth b; is_monitor := is_monitor b; accept_fd := accept_fd b;
     connected_signal := connected_signal b; send_null_byte := send_null_byte b; trusted
     := trusted b; is_local := is_local b; watch_bind := watch_bind b; patch_sender :=
     patch_sender b; method_call_timeout := method_call_timeout b; ucred_valid :=
     ucred_valid b; ucred_uid := ucred_uid b; rbuffer := rbuffer b; rqueue := rqueue b;
     wqueue := wqueue b; windex := windex b; bus_fds := bus_fds b; bus_cookie :=
     bus_cookie b; slots := slots b; next_slot := next_slot b; reply_callbacks :=
     reply_callbacks b; reply_callbacks_prioq := reply_callbacks_prioq b; filter_callbacks
     := filter_callbacks b; filter_callbacks_modified := filter_callbacks_modified b;
     manual_peer_interface := manual_peer_interface b; iteration_counter :=
     iteration_counter b; current_message := current_message b; current_slot :=
     current_slot b; exit_on_disconnect := exit_on_disconnect b; exit_triggered :=
     exit_triggered b; exited := exited b; address := address b; address_index :=
     address_index b; sockaddr := sockaddr b; server_id := server_id b; last_connect_error
     := last_connect_error b; auth := auth b; auth_rbegin := auth_rbegin b; auth_iovec :=
     v; auth_index := auth_index b; auth_timeout := auth_timeout b |}.
Definition set_auth_index (v : nat) (b : connection) : connection :=
  {| bus := bus b; message_endian := message_endian b; input_fd := input_fd b; output_fd
     := output_fd b; bus_client := bus_client b; is_server := is_server b; anonymous_auth
     := anonymous_auth b; is_monitor := is_monitor b; accept_fd := accept_fd b;
     connected_signal := connected_signal b; send_null_byte := send_null_byte b; trusted
     := trusted b; is_local := is_local b; watch_bind := watch_bind b; patch_sender :=
     patch_sender b; method_call_timeout := method_call_timeout b; ucred_valid :=
     ucred_valid b; ucred_uid := ucred_uid b; rbuffer := rbuffer b; rqueue := rqueue b;
     wqueue := wqueue b; windex := windex b; bus_fds := bus_fds b; bus_cookie :=
     bus_cookie b; slots := slots b; next_slot := next_slot b; reply_callbacks :=
     reply_callbacks b; reply_callbacks_prioq := reply_callbacks_prioq b; filter_callbacks
     := filter_callbacks b; filter_callbacks_modified := filter_callbacks_modified b;
     manual_peer_interface := manual_peer_interface b; iteration_counter :=
     iteration_counter b; current_message := current_message b; current_slot :=
     current_slot b; exit_on_disconnect := exit_on_disconnect b; exit_triggered :=
     exit_triggered b; exited := exited b; address := address b; address_index :=
     address_index b; sockaddr := sockaddr b; server_id := server_id b; last_connect_error
     := last_connect_error b; auth := auth b; auth_rbegin := auth_rbegin b; auth_iovec :=
     auth_iovec b; auth_index := v; auth_timeout := auth_timeout b |}.
Definition set_auth_timeout (v : Z) (b : connection) : connection :=
  {| bus := bus b; message_endian := message_endian b; input_fd := input_fd b; output_fd
     := output_fd b; bus_client := bus_client b; is_server := is_server b; anonymous_auth
     := anonymous_auth b; is_monitor := is_monitor b; accept_fd := accept_fd b;
     connected_signal := connected_signal b; send_null_byte := send_null_byte b; trusted
     := trusted b; is_local := is_local b; watch_bind := watch_bind b; patch_sender :=
     patch_sender b; method_call_timeout := method_call_timeout b; ucred_valid :=
     ucred_valid b; ucred_uid := ucred_uid b; rbuffer := rbuffer b; rqueue := rqueue b;
     wqueue := wqueue b; windex := windex b; bus_fds := bus_fds b; bus_cookie :=
     bus_cookie b; slots := slots b; next_slot := next_slot b; reply_callbacks :=
     reply_callbacks b; reply_callbacks_prioq := reply_callbacks_prioq b; filter_callbacks
     := filter_callbacks b; filter_callbacks_modified := filter_callbacks_modified b;
     manual_peer_interface := manual_peer_interface b; iteration_counter :=
     iteration_counter b; current_message := current_message b; current_slot :=
     current_slot b; exit_on_disconnect := exit_on_disconnect b; exit_triggered :=
     exit_triggered b; exited := exited b; address := address b; address_index :=
     address_index b; sockaddr := sockaddr b; server_id := server_id b; last_connect_error
     := last_connect_error b; auth := auth b; auth_rbegin := auth_rbegin b; auth_iovec :=
     auth_iovec b; auth_index := auth_index b; auth_timeout := v |}.

(** *** The members a message sees *)
Definition set_sd_state (v : bus_state) (b : sd_bus) : sd_bus :=
  Bus v (message_version b) (can_fds b) (allow_interactive_authorization b) (unique_name b).
Definition set_sd_can_fds (v : bool) (b : sd_bus) : sd_bus :=
  Bus (bus_state_of b) (message_version b) v (allow_interactive_authorization b) (unique_name b).
Definition set_sd_allow (v : bool) (b : sd_bus) : sd_bus :=
  Bus (bus_state_of b) (message_version b) (can_fds b) v (unique_name b).
Definition set_sd_unique_name (v : option cstr) (b : sd_bus) : sd_bus :=
  Bus (bus_state_of b) (message_version b) (can_fds b) (allow_interactive_authorization b) v.

Definition state (b : connection) : bus_state := bus_state_of (bus b).
Definition set_state (v : bus_state) (b : connection) : connection :=
  set_bus (set_sd_state v (bus b)) b.
Definition set_can_fds (v : bool) (b : connection) : connection :=
  set_bus (set_sd_can_fds v (bus b)) b.

(** ** The kernel and the system

    What system calls will answer, in order, and what went over the socket. Once
    the answers are used up, a non-blocking call fails with EAGAIN. *)
Inductive cmsg :=
  | ScmRights (fds : list Z)
  | ScmCredentials (uid : Z)
  | ScmOther.

Inductive recv_answer :=
  | RecvErr (e : errno)
  | Recv (n : Z) (control : list cmsg).

(** What the user asks for, and how the library comes back to the user. *)
Inductive happening :=
  | Asked (slot : nat)
  | Answered (slot : nat) (h : handler) (m : message)
  | Released (slot : nat)
  | Filtered (slot : nat) (m : message)
  | Polled (fds : list (Z * Z)) (timeout : option Z).

Record kernel := Kernel {
  sends : list (res Z);          (** room for so many bytes, or an errno *)
  sent : list Z;                 (** the bytes accepted so far *)
  sent_fds : list Z;
  recvs : list recv_answer;
  inbound : list Z;              (** the bytes that wait to be received *)
  clock : Z;                     (** CLOCK_MONOTONIC *)
  ticks : list Z;                (** the time that passes before each reading of the clock *)
  euid : Z;
  is_unix_socket : Z -> bool;    (** [sd_is_socket(fd, AF_UNIX, 0, 0) > 0] *)
  peer_uid : option Z;           (** SO_PEERCRED *)
  env_timeout : option Z;        (** $SYSTEMD_BUS_TIMEOUT, as [parse_sec] reads it *)
  polls : list (res bool);       (** what [ppoll] answers: whether something is ready *)
  happened : list happening }.   (** what passed between the library and its user *)

Record world := World { conn : connection; kern : kernel }.

Definition bget : stm world connection := fun w => (Ok (conn w), w).
Definition bmod (f : connection -> connection) : stm world unit :=
  fun w => (Ok tt, World (f (conn w)) (kern w)).
Definition kget : stm world kernel := fun w => (Ok (kern w), w).

(** An operation that needs the connection alone. *)
Definition on_bus {A} (f : stm connection A) : stm world A :=
  fun w => let '(r, b) := f (conn w) in (r, World b (kern w)).

(** [sendmsg(fd, data, MSG_DONTWAIT)]: a prefix of the data is taken, at least
    one byte of it; descriptors go with the first. *)
Definition sendmsg (data : list Z) (fds : list Z) : stm world Z := fun w =>
  let k := kern w in
  match sends k with
  | [] => (Err EAGAIN, w)
  | Err e :: l =>
      (Err e, World (conn w) (Kernel l (sent k) (sent_fds k) (recvs k) (inbound k) (clock k)
         (ticks k) (euid k) (is_unix_socket k) (peer_uid k) (env_timeout k) (polls k) (happened k)))
  | Ok n :: l =>
      let n := Z.max 1 (Z.min n (zlen data)) in
      (Ok n, World (conn w) (Kernel l (sent k ++ take (Z.to_nat n) data) (sent_fds k ++ fds)
         (recvs k) (inbound k) (clock k) (ticks k) (euid k) (is_unix_socket k) (peer_uid k)
         (env_timeout k) (polls k) (happened k)))
  end.

(** [recvmsg(fd, len, MSG_DONTWAIT)]: what waits, up to [len] bytes; nothing
    when the peer has closed the socket. *)
Definition recvmsg (len : Z) : stm world (list Z * list cmsg) := fun w =>
  let k := kern w in
  match recvs k with
  | [] => (Err EAGAIN, w)
  | RecvErr e :: l =>
      (Err e, World (conn w) (Kernel (sends k) (sent k) (sent_fds k) l (inbound k) (clock k)
         (ticks k) (euid k) (is_unix_socket k) (peer_uid k) (env_timeout k) (polls k) (happened k)))
  | Recv n control :: l =>
      let n := Z.to_nat (Z.max 1 (Z.min n len)) in
      (Ok (take n (inbound k), control),
       World (conn w) (Kernel (sends k) (sent k) (sent_fds k) l (drop n (inbound k)) (clock k)
         (ticks k) (euid k) (is_unix_socket k) (peer_uid k) (env_timeout k) (polls k) (happened k)))
  end.

(** [now(CLOCK_MONOTONIC)] *)
Definition now : stm world Z := fun w =>
  let k := kern w in
  let t := clock k + default 0 (head (ticks k)) in
  (Ok t, World (conn w) (Kernel (sends k) (sent k) (sent_fds k) (recvs k) (inbound k) t
     (tail (ticks k)) (euid k) (is_unix_socket k) (peer_uid k) (env_timeout k) (polls k) (happened k))).

(** ** Construction and settings *)
Definition SD_ID128_NULL : list Z := zeros 16.

Definition sd_bus_new : connection :=
  {| bus := Bus BUS_UNSET 1 false false None; message_endian := 0; input_fd := -1; output_fd := -1;
     bus_client := false; is_server := false; anonymous_auth := false; is_monitor := false;
     accept_fd := true; connected_signal := false; send_null_byte := false; trusted := false;
     is_local := false; watch_bind := false; patch_sender := None; method_call_timeout := 0;
     ucred_valid := false; ucred_uid := 0; rbuffer := []; rqueue := []; wqueue := []; windex := 0;
     bus_fds := []; bus_cookie := 0; slots := empty; next_slot := 0; reply_callbacks := [];
     reply_callbacks_prioq := Queue [] empty; filter_callbacks := []; filter_callbacks_modified := false;
     manual_peer_interface := false; iteration_counter := 0; current_message := None; current_slot := None;
     exit_on_disconnect := false; exit_triggered := false; exited := false; address := None; address_index := 0; sockaddr := None;
     server_id := SD_ID128_NULL; last_connect_error := None; auth := BUS_AUTH_INVALID;
     auth_rbegin := 0; auth_iovec := [[]; []; []]; auth_index := 0; auth_timeout := 0 |}.

(** The settings that are refused once the connection was started. *)
Definition when_unset (f : connection -> connection) : stm connection unit :=
  b ← sget;
  sreq (bool_decide (state b = BUS_UNSET)) EPERM;;
  smod f.

Definition sd_bus_set_address (a : cstr) : stm connection unit := when_unset (set_address (Some a)).
Definition sd_bus_set_fd (i o : Z) : stm connection unit :=
  b ← sget;
  sreq (bool_decide (state b = BUS_UNSET)) EPERM;;
  sreq (0 <=? i) EBADF;; sreq (0 <=? o) EBADF;;
  smod (fun b => set_output_fd o (set_input_fd i b)).
Definition sd_bus_set_bus_client (v : bool) : stm connection unit :=
  b ← sget;
  sreq (bool_decide (state b = BUS_UNSET)) EPERM;;
  sreq (bool_decide (patch_sender b = None)) EPERM;;
  smod (set_bus_client v).
Definition sd_bus_set_monitor (v : bool) : stm connection unit := when_unset (set_is_monitor v).
Definition sd_bus_negotiate_fds (v : bool) : stm connection unit := when_unset (set_accept_fd v).
Definition sd_bus_set_server (v : bool) (id : list Z) : stm connection unit :=
  sreq (v || bool_decide (id = SD_ID128_NULL)) EINVAL;;
  when_unset (fun b => set_server_id id (set_is_server v b)).
Definition sd_bus_set_anonymous (v : bool) : stm connection unit := when_unset (set_anonymous_auth v).
Definition sd_bus_set_trusted (v : bool) : stm connection unit := when_unset (set_trusted v).
Definition sd_bus_set_watch_bind (v : bool) : stm connection unit := when_unset (set_watch_bind v).
Definition sd_bus_set_connected_signal (v : bool) : stm connection unit :=
  when_unset (set_connected_signal v).
Definition sd_bus_set_allow_interactive_authorization (v : bool) : stm connection unit :=
  smod (fun b => set_bus (set_sd_allow v (bus b)) b).

(** ** State *)
Definition bus_set_state (s : bus_state) : stm connection unit := smod (set_state s).

Definition BUS_IS_OPEN (s : bus_state) : bool :=
  match s with
  | BUS_OPENING | BUS_AUTHENTICATING | BUS_HELLO | BUS_RUNNING => true
  | _ => false
  end.

Definition sd_bus_is_open (b : connection) : bool := BUS_IS_OPEN (state b).
Definition sd_bus_is_ready (b : connection) : bool := bool_decide (state b = BUS_RUNNING).

Definition bus_close_io_fds : stm connection unit :=
  smod (fun b => set_output_fd (-1) (set_input_fd (-1) b)).

Definition bus_reset_queues : stm connection unit :=
  smod (fun b => set_wqueue [] (set_rqueue [] b)).

Definition sd_bus_close : stm connection unit :=
  b ← sget;
  if bool_decide (state b = BUS_CLOSED) then mret tt
  else bus_set_state BUS_CLOSED;; bus_reset_queues;; bus_close_io_fds.

Definition bus_enter_closing : stm connection unit :=
  b ← sget;
  if BUS_IS_OPEN (state b) then bus_set_state BUS_CLOSING else mret tt.

(** ** Queues and messages of the connection's own *)
Definition BUS_RQUEUE_MAX : Z := 192 * 1024.
Definition BUS_WQUEUE_MAX : Z := 192 * 1024.

(** The array's growth is not modelled. *)
Definition bus_rqueue_make_room : stm connection unit :=
  b ← sget;
  sreq (negb (BUS_RQUEUE_MAX <=? zlen (rqueue b))) ENOBUFS.

(** Timestamps are not modelled. *)
Definition bus_seal_synthetic_message : stm message unit := sd_bus_message_seal 0xFFFFFFFF 0.

Definition bus_message_set_sender_local : message -> message :=
  set_sender (Some (bs "org.freedesktop.DBus.Local")).

(** A signal of the connection itself, sealed. *)
Definition local_signal (b : sd_bus) (mem : cstr) : res message :=
  m ← sd_bus_message_new_signal b (bs "/org/freedesktop/DBus/Local") (bs "org.freedesktop.DBus.Local") mem;
  build (bus_message_set_sender_local m) bus_seal_synthetic_message.

Definition synthesize_connected_signal : stm connection unit :=
  b ← sget;
  if negb (connected_signal b) then mret tt
  else
    m ← slift (local_signal (bus b) (bs "Connected"));
    bus_rqueue_make_room;;
    smod (fun b => set_rqueue (m :: rqueue b) b).

(** ** The start of normal operation *)
Definition usec_infinity : Z := SIZE_MAX.

Definition usec_add (a b : Z) : Z :=
  let c := wrap64 (a + b) in
  if (c <? a) || (c <? b) then usec_infinity else c.

(** One callback's relative timeout becomes an absolute one. *)
Definition start_timeout (n : Z) (s : sd_bus_slot) : sd_bus_slot :=
  match slot_body s with
  | BUS_REPLY_CALLBACK c h =>
      if timeout_usec c =? 0 then s
      else Slot (n_ref s) (attached s) (floating s)
             (BUS_REPLY_CALLBACK (ReplyCallback (cookie c) (usec_add n (timeout_usec c))) h)
  | _ => s
  end.

Definition before_hello (s : bus_state) : bool :=
  match s with BUS_UNSET | BUS_OPENING | BUS_AUTHENTICATING => true | _ => false end.

Definition bus_start_running : stm world unit :=
  b ← bget;
  sreq (before_hello (state b)) EASSERT;;
  n ← now;
  bmod (fun b => set_slots
    (foldr (fun i m => alter (start_timeout n) i m) (slots b) (reply_callbacks b)) b);;
  if bus_client b then bmod (set_state BUS_HELLO)
  else bmod (set_state BUS_RUNNING);; on_bus synthesize_connected_signal.

(** ** Timeouts of method calls *)
Definition USEC_PER_SEC : Z := 1000000.
Definition BUS_DEFAULT_TIMEOUT : Z := 25 * USEC_PER_SEC.
Definition BUS_AUTH_TIMEOUT : Z := 90 * USEC_PER_SEC.

Definition sd_bus_get_method_call_timeout : stm world Z :=
  b ← bget;
  if negb (method_call_timeout b =? 0) then mret (method_call_timeout b)
  else
    k ← kget;
    let t := match env_timeout k with
             | Some u => if u =? 0 then BUS_DEFAULT_TIMEOUT else u
             | None => BUS_DEFAULT_TIMEOUT
             end in
    bmod (set_method_call_timeout t);;
    mret t.

(** ** Facts *)
Lemma synthesize_run b :
  synthesize_connected_signal b =
  if negb (connected_signal b) then (Ok tt, b)
  else match local_signal (bus b) (bs "Connected") with
       | Err e => (Err e, b)
       | Ok m => if BUS_RQUEUE_MAX <=? zlen (rqueue b) then (Err ENOBUFS, b)
                 else (Ok tt, set_rqueue (m :: rqueue b) b)
       end.
Proof.
  unfold synthesize_connected_signal. erewrite stm_bind_run by reflexivity.
  destruct (connected_signal b); cbn [negb]; [|done].
  destruct (local_signal _ _) as [m|e]; [|done]. erewrite stm_bind_run by reflexivity.
  unfold bus_rqueue_make_room, sreq, slift. destruct (BUS_RQUEUE_MAX <=? zlen (rqueue b)) eqn:E.
  - apply stm_bind_err. erewrite stm_bind_run by reflexivity. by rewrite E.
  - erewrite stm_bind_run; [done|]. erewrite stm_bind_run by reflexivity. by rewrite E.
Qed.
