(* ===== verification/Sasl.v ===== *)
(** * The authentication phase ([src/libsystemd/sd-bus/bus-socket.c])

    The SASL exchange of D-Bus, both sides: the client sends all its lines at
    once and checks the answers when they are there, the server answers line by
    line. Input arrives in pieces of any size, output leaves in pieces of any
    size. The code for Linux is modelled. *)
From S2P Require Import Prelude BusType HexDecOct ParseUtil Utf8 MsgState MsgFields Bus.

(** ** Output *)

(** [iovec_advance]; going past the last element is undefined. *)
Fixpoint iovec_advance (fuel : nat) (iov : list (list Z)) (idx : nat) (size : Z)
    : res (list (list Z) * nat) :=
  if size <=? 0 then Ok (iov, idx)
  else
    match fuel, iov !! idx with
    | S fuel, Some i =>
        if size <? zlen i then Ok (<[idx := drop (Z.to_nat size) i]> iov, idx)
        else iovec_advance fuel (<[idx := []]> iov) (S idx) (size - zlen i)
    | _, _ => Err EASSERT
    end.

Definition bus_socket_auth_needs_write (b : connection) : bool :=
  existsb (fun j => negb (bool_decide (j = []))) (drop (auth_index b) (auth_iovec b)).

(** [errno == EAGAIN ? 0 : -errno] *)
Definition unless_again {A} (f : stm world A) : stm world (option A) := fun w =>
  match f w with
  | (Ok a, w) => (Ok (Some a), w)
  | (Err EAGAIN, w) => (Ok None, w)
  | (Err e, w) => (Err e, w)
  end.

Definition bus_socket_write_null_byte : stm world bool :=
  k ← unless_again (sendmsg [0] []);
  if bool_decide (k = None) then mret false
  else bmod (set_send_null_byte false);; mret true.

Definition bus_socket_write_auth : stm world bool :=
  b ← bget;
  sreq (bool_decide (state b = BUS_AUTHENTICATING)) EASSERT;;
  if negb (bus_socket_auth_needs_write b) then mret false
  else if send_null_byte b then bus_socket_write_null_byte
  else
    k ← unless_again (sendmsg (concat (drop (auth_index b) (auth_iovec b))) []);
    match k with
    | None => mret false
    | Some k =>
        '(iov, idx) ← slift (iovec_advance (length (auth_iovec b)) (auth_iovec b) (auth_index b) k);
        bmod (fun b => set_auth_index idx (set_auth_iovec iov b));;
        mret true
    end.

(** ** Lines *)
Definition crlf : list Z := [13; 10].

(** [memmem(s, n, "\r\n", 2)], as an index *)
Fixpoint find_crlf (s : list Z) : option nat :=
  match s with
  | [] => None
  | c :: r => if (c =? 13) && (deref r =? 10) then Some 0%nat else S <$> find_crlf r
  end.

Definition line_equals (s line : cstr) : bool := streq s line.

Definition line_begins (s word : cstr) : bool :=
  match startswith s word with
  | None => false
  | Some p => bool_decide (p = []) || (deref p =? ch " ")
  end.

(** ** The client *)

(** The loop over the 32 hexadecimal digits of the server's id. *)
Fixpoint parse_peer (n : nat) (p : list Z) : res (list Z) :=
  match n with
  | O => Ok []
  | S n =>
      match unhexchar (char_at p 0), unhexchar (char_at p 1) with
      | Ok x, Ok y =>
          r ← parse_peer n (drop 2 p);
          Ok (wrap8 (Z.lor (wrap8 (Z.shiftl x 4)) y) :: r)
      | _, _ => Err EINVAL
      end
  end.

Definition bus_socket_auth_verify_client : stm world bool :=
  b ← bget;
  let buf := rbuffer b in
  match find_crlf buf with
  | None => mret false
  | Some e =>
      let second := drop (e + 2) buf in
      match (if accept_fd b then Some <$> find_crlf second else Some None) with
      | None => mret false
      | Some f =>
          sreq (bool_decide (e = 3 + 32)%nat) EPERM;;
          sreq (streq (take 3 buf) (bs "OK ")) EPERM;;
          bmod (set_auth (if anonymous_auth b then BUS_AUTH_ANONYMOUS else BUS_AUTH_EXTERNAL));;
          peer ← slift (parse_peer 16 (drop 3 buf));
          sreq (bool_decide (server_id b = SD_ID128_NULL) || bool_decide (server_id b = peer)) EPERM;;
          bmod (set_server_id peer);;
          match f with
          | Some f =>
              bmod (set_can_fds (streq (take f second) (bs "AGREE_UNIX_FD")));;
              bmod (set_rbuffer (drop (f + 2) second))
          | None => bmod (set_rbuffer second)
          end;;
          bus_start_running;;
          mret true
      end
  end.

(** ** The server *)

(** The bytes a token's hexadecimal digits stand for, up to the checks both
    mechanisms make; [p] is the rest of the line, after the command. *)
Definition token_bytes (p : list Z) : res (option (list Z)) :=
  _ ← require (deref p =? ch " ") EASSERT;
  let p := tail p in
  if negb (bool_decide (Nat.even (length p))) then Ok None
  else match unhexmem p with
       | Err _ => Ok None
       | Ok token => Ok (if in_set 0 token then None else Some token)
       end.

Definition verify_anonymous_token (b : connection) (p : list Z) : res bool :=
  if negb (anonymous_auth b) then Ok false
  else if bool_decide (p = []) then Ok true
  else
    t ← token_bytes p;
    Ok (match t with None => false | Some token => utf8_is_valid token end).

Definition verify_external_token (b : connection) (p : list Z) : res bool :=
  if negb (anonymous_auth b) && negb (ucred_valid b) then Ok false
  else if bool_decide (p = []) then Ok true
  else
    t ← token_bytes p;
    Ok (match t with
        | None => false
        | Some token =>
            match parse_uid token with
            | Err _ => false
            | Ok u => anonymous_auth b || (u =? ucred_uid b)
            end
        end).

Definition bus_socket_auth_write (t : cstr) : stm world unit :=
  b ← bget;
  sreq (bool_decide (auth_index b <= 1)%nat) EASSERT;;
  bmod (fun b => set_auth_index 0
    (set_auth_iovec (alter (fun i => i ++ t) 0%nat (auth_iovec b)) b)).

Definition bus_socket_auth_write_ok : stm world unit :=
  b ← bget;
  bus_socket_auth_write (bs "OK " ++ hexmem (server_id b) ++ crlf).

Definition reject (t : cstr) : stm world unit := bus_socket_auth_write (t ++ crlf).

(** The tail of a command that starts an exchange *)
Definition auth_mechanism (ok : res bool) (mechanism : bus_auth) : stm world unit :=
  r ← slift ok;
  if r : bool then bmod (set_auth mechanism);; bus_socket_auth_write_ok
  else reject (bs "REJECTED").

(** One line of the loop of [bus_socket_auth_verify_server]; [Some r] is a
    [return r], [n] the length of the buffer up to the next line. *)
Definition auth_line (line : cstr) (n : nat) : stm world (option bool) :=
  b ← bget;
  let go (f : stm world unit) : stm world (option bool) := f;; mret None in
  if line_begins line (bs "AUTH ANONYMOUS") then
    go (auth_mechanism (verify_anonymous_token b (drop 14 line)) BUS_AUTH_ANONYMOUS)
  else if line_begins line (bs "AUTH EXTERNAL") then
    go (auth_mechanism (verify_external_token b (drop 13 line)) BUS_AUTH_EXTERNAL)
  else if line_begins line (bs "AUTH") then go (reject (bs "REJECTED EXTERNAL ANONYMOUS"))
  else if line_equals line (bs "CANCEL") || line_begins line (bs "ERROR") then
    go (bmod (set_auth BUS_AUTH_INVALID);; reject (bs "REJECTED"))
  else if line_equals line (bs "BEGIN") then
    if bool_decide (auth b = BUS_AUTH_INVALID) then go (reject (bs "ERROR"))
    else if bus_socket_auth_needs_write b then mret (Some true)
    else
      bmod (fun b => set_rbuffer (drop n (rbuffer b)) b);;
      bus_start_running;;
      mret (Some true)
  else if line_begins line (bs "DATA") then
    if bool_decide (auth b = BUS_AUTH_INVALID) then go (reject (bs "ERROR"))
    else
      go (r ← slift (if bool_decide (auth b = BUS_AUTH_ANONYMOUS)
                     then verify_anonymous_token b (drop 4 line)
                     else verify_external_token b (drop 4 line));
          if r : bool then bus_socket_auth_write_ok
          else bmod (set_auth BUS_AUTH_INVALID);; reject (bs "REJECTED"))
  else if line_equals line (bs "NEGOTIATE_UNIX_FD") then
    if bool_decide (auth b = BUS_AUTH_INVALID) || negb (accept_fd b) then go (reject (bs "ERROR"))
    else go (bmod (set_can_fds true);; reject (bs "AGREE_UNIX_FD"))
  else go (reject (bs "ERROR")).

Fixpoint server_loop (fuel : nat) (processed : bool) : stm world bool :=
  match fuel with
  | O => sfail EASSERT
  | S fuel =>
      b ← bget;
      let line := drop (auth_rbegin b) (rbuffer b) in
      match find_crlf line with
      | None => mret processed
      | Some l =>
          let next := (auth_rbegin b + l + 2)%nat in
          r ← auth_line (take l line) next;
          match r with
          | Some r => mret r
          | None => bmod (set_auth_rbegin next);; server_loop fuel true
          end
      end
  end.

Definition bus_socket_auth_verify_server : stm world bool :=
  b ← bget;
  if bool_decide (length (rbuffer b) < 1)%nat then mret false
  else
    sreq (deref (rbuffer b) =? 0) EIO;;
    if bool_decide (length (rbuffer b) < 3)%nat then mret false
    else
      (if bool_decide (auth_rbegin b = 0)%nat then bmod (set_auth_rbegin 1) else mret tt);;
      server_loop (length (rbuffer b) + 1) false.

Definition bus_socket_auth_verify : stm world bool :=
  b ← bget;
  if is_server b then bus_socket_auth_verify_server else bus_socket_auth_verify_client.

(** ** Input *)
Definition BUS_AUTH_SIZE_MAX : Z := 64 * 1024.

(** The control messages that came along; [bus_socket_process_creds] *)
Fixpoint auth_control (l : list cmsg) : stm world unit :=
  match l with
  | [] => mret tt
  | ScmRights _ :: _ => sfail EIO
  | ScmCredentials uid :: l =>
      bmod (fun b => set_ucred_valid true (set_ucred_uid uid b));; auth_control l
  | ScmOther :: l => auth_control l
  end.

Definition bus_socket_read_auth : stm world bool :=
  b ← bget;
  sreq (bool_decide (state b = BUS_AUTHENTICATING)) EASSERT;;
  r ← bus_socket_auth_verify;
  if r : bool then mret true
  else
    b ← bget;
    let size := zlen (rbuffer b) in
    let n := Z.min (Z.max 256 (size * 2)) BUS_AUTH_SIZE_MAX in
    sreq (size <? n) ENOBUFS;;
    k ← unless_again (recvmsg (n - size));
    match k with
    | None => mret false
    | Some (data, control) =>
        sreq (negb (bool_decide (data = []))) ECONNRESET;;
        bmod (fun b => set_rbuffer (rbuffer b ++ data) b);;
        auth_control control;;
        bus_socket_auth_verify;;
        mret true
    end.

(** ** Starting *)
Definition bus_socket_setup : stm world unit :=
  bmod (fun b => set_message_endian 0 (set_bus
    (Bus (bus_state_of (bus b)) 1 (can_fds (bus b)) (allow_interactive_authorization (bus b))
       (unique_name (bus b))) b)).

(** The peer's label and groups are not modelled. *)
Definition bus_get_peercred : stm world unit :=
  b ← bget;
  sreq (negb (ucred_valid b)) EASSERT;;
  k ← kget;
  bmod (match peer_uid k with
        | Some u => fun b => set_ucred_valid true (set_ucred_uid u b)
        | None => set_ucred_valid false
        end).

Definition auth_prefix (b : connection) : cstr :=
  if anonymous_auth b then bs "AUTH ANONYMOUS " else bs "AUTH EXTERNAL ".
Definition auth_token (b : connection) (uid : Z) : cstr :=
  hexmem (if anonymous_auth b then bs "anonymous" else dec uid).
Definition auth_suffix (b : connection) : cstr :=
  if accept_fd b then crlf ++ bs "NEGOTIATE_UNIX_FD" ++ crlf ++ bs "BEGIN" ++ crlf
  else crlf ++ bs "BEGIN" ++ crlf.

Definition bus_socket_start_auth_client : stm world bool :=
  k ← kget;
  bmod (fun b => set_auth_iovec [auth_prefix b; auth_token b (euid k); auth_suffix b]
                   (set_send_null_byte true b));;
  bus_socket_write_auth.

Definition bus_socket_start_auth : stm world bool :=
  bus_get_peercred;;
  bmod (set_state BUS_AUTHENTICATING);;
  t ← now;
  bmod (set_auth_timeout (wrap64 (t + BUS_AUTH_TIMEOUT)));;
  k ← kget;
  bmod (fun b => if is_unix_socket k (input_fd b) then b else set_accept_fd false b);;
  bmod (fun b => if (output_fd b =? input_fd b) || is_unix_socket k (output_fd b) then b
                 else set_accept_fd false b);;
  b ← bget;
  if is_server b then bus_socket_read_auth else bus_socket_start_auth_client.

Definition bus_socket_take_fd : stm world bool := bus_socket_setup;; bus_socket_start_auth.

Definition bus_socket_process_authenticating : stm world bool :=
  b ← bget;
  sreq (bool_decide (state b = BUS_AUTHENTICATING)) EASSERT;;
  t ← now;
  sreq (negb (auth_timeout b <=? t)) ETIMEDOUT;;
  r ← bus_socket_write_auth;
  if r : bool then mret true else bus_socket_read_auth.

(** ** Facts about output *)
Lemma iovec_advance_spec fuel : forall iov idx k,
  0 <= k <= zlen (concat (drop idx iov)) -> (length iov <= idx + fuel)%nat ->
  exists iov' idx', iovec_advance fuel iov idx k = Ok (iov', idx') /\
    concat (drop idx' iov') = drop (Z.to_nat k) (concat (drop idx iov)) /\
    concat (take idx' iov') = concat (take idx iov) /\
    length iov' = length iov /\ (idx <= idx' <= Nat.max idx (length iov))%nat.
Proof.
  induction fuel as [|fuel IH]; intros iov idx k Hk Hf; cbn [iovec_advance].
  - assert (E : drop idx iov = []) by (apply drop_ge; lia). rewrite E in Hk.
    change (zlen (concat [])) with 0 in Hk. rewrite (proj2 (Z.leb_le k 0)) by lia. exists iov, idx.
    rewrite E. cbn [concat]. rewrite drop_nil. split_and!; (done || lia).
  - destruct (Z.leb_spec k 0).
    { exists iov, idx. replace (Z.to_nat k) with 0%nat by lia. rewrite drop_0.
      split_and!; (done || lia). }
    destruct (iov !! idx) as [i|] eqn:Ei.
    2: { apply lookup_ge_None in Ei. rewrite drop_ge in Hk by done. change (zlen (concat [])) with 0 in Hk. lia. }
    pose proof (lookup_lt_Some _ _ _ Ei) as Hlt.
    rewrite (drop_S _ _ _ Ei) in Hk |- *. cbn [concat] in Hk |- *. rewrite zlen_app in Hk.
    destruct (Z.ltb_spec k (zlen i)) as [Hki|Hki].
    + eexists _, idx. split; [done|]. split.
      * rewrite (drop_S _ (drop (Z.to_nat k) i) idx) by (by apply list_lookup_insert_eq).
        cbn [concat]. rewrite drop_insert_lt by lia. rewrite drop_app_le by (unfold zlen in *; lia). done.
      * rewrite take_insert_ge by lia. split; [done|]. split; [by rewrite length_insert|lia].
    + destruct (IH (<[idx:=[]]> iov) (S idx) (k - zlen i)) as (iov' & idx' & E1 & E2 & E0 & E3 & E4).
      * rewrite drop_insert_lt by lia. lia.
      * rewrite length_insert. lia.
      * exists iov', idx'. split; [done|]. rewrite E2, drop_insert_lt by lia.
        rewrite E3, length_insert in *. split; [|split; [|split; [done|lia]]].
        -- rewrite drop_app_ge by (unfold zlen in *; lia). f_equal. unfold zlen. lia.
        -- rewrite E0, (take_S_r _ _ []) by (by apply list_lookup_insert_eq).
           rewrite take_insert_ge, concat_app by lia. by rewrite app_nil_r.
Qed.

Lemma sendmsg_spec data fds w r w' :
  sendmsg data fds w = (r, w') -> data <> [] ->
  conn w' = conn w /\ inbound (kern w') = inbound (kern w) /\ recvs (kern w') = recvs (kern w) /\
  (exists l, sends (kern w) = l ++ sends (kern w') /\ (length l <= 1)%nat) /\
  match r with
  | Ok n => 1 <= n <= zlen data /\ sent (kern w') = sent (kern w) ++ take (Z.to_nat n) data /\
            (length (sends (kern w')) < length (sends (kern w)))%nat /\
            sent_fds (kern w') = sent_fds (kern w) ++ fds
  | Err e => sent (kern w') = sent (kern w) /\ sent_fds (kern w') = sent_fds (kern w) /\
             (e = EAGAIN /\ sends (kern w) = [] \/ Err e ∈ sends (kern w))
  end.
Proof.
  intros H Hd. unfold sendmsg in H.
  assert (1 <= zlen data) by (destruct data; [done|unfold zlen; simpl; lia]).
  destruct (sends (kern w)) as [|[n|e] l] eqn:E; injection H as <- <-;
    cbn [conn kern inbound recvs sends sent sent_fds]; rewrite ?E; simpl;
    split_and!; try (done || lia || by left).
  - exists []. simpl. split; [done|lia].
  - exists [Ok n]. simpl. split; [done|lia].
  - exists [Err e]. simpl. split; [done|lia].
  - right. left.
Qed.

Lemma unless_again_spec {A} (f : stm world A) w r w' :
  unless_again f w = (r, w') ->
  exists r0, f w = (r0, w') /\
    match r with Ok (Some a) => r0 = Ok a | Ok None => r0 = Err EAGAIN | Err e => r0 = Err e /\ e <> EAGAIN end.
Proof.
  unfold unless_again. destruct (f w) as [[a|e] w1]; intros H.
  - injection H as <- <-. by eexists.
  - eexists. destruct e; injection H as <- <-; done.
Qed.
