(* ===== verification/SaslSession.v ===== *)
(** * Authentication sessions

    The server's line loop does not depend on how the input is cut into pieces,
    it starts the connection only for a client it has accepted, and the two
    sides, each fed what the other sends, agree. *)
From S2P Require Import Prelude BusType HexDecOct ParseUtil Utf8 MsgState MsgFields Bus Sasl.

(** ** Lines *)
Lemma find_crlf_app s y k :
  find_crlf s = Some k -> find_crlf (s ++ y) = Some k /\ (k + 2 <= length s)%nat.
Proof.
  revert k. induction s as [|c s IH]; intros k; [done|]. cbn [find_crlf app].
  destruct ((c =? 13) && (deref s =? 10)) eqn:E.
  - intros [= <-]. apply andb_true_iff in E as [E1 E2]. destruct s as [|d s]; [done|]. simpl in E2 |- *.
    rewrite E1, E2. split; [done|lia].
  - destruct (find_crlf s) as [k'|]; [|done]. intros [= <-]. destruct (IH k' eq_refl) as [-> Hl].
    assert ((c =? 13) && (deref (s ++ y) =? 10) = false) as ->.
    { destruct s as [|d s]; [simpl in Hl; lia|done]. }
    split; [done|]. simpl. lia.
Qed.

Lemma find_crlf_first a r : 13 ∉ a -> find_crlf (a ++ crlf ++ r) = Some (length a).
Proof.
  induction a as [|c a IH]; intros H; [done|]. apply not_elem_of_cons in H as [Hc H].
  cbn [app find_crlf length]. rewrite (proj2 (Z.eqb_neq c 13)) by congruence. cbn [andb].
  by rewrite IH.
Qed.

Lemma find_crlf_none a : 13 ∉ a -> find_crlf a = None.
Proof.
  induction a as [|c a IH]; intros H; [done|]. apply not_elem_of_cons in H as [Hc H].
  cbn [find_crlf]. rewrite (proj2 (Z.eqb_neq c 13)) by congruence. cbn [andb]. by rewrite IH.
Qed.

(** ** More input *)
Definition ext (y : list Z) (b : connection) : connection := set_rbuffer (rbuffer b ++ y) b.
Definition feed (y : list Z) (w : world) : world := World (ext y (conn w)) (kern w).

Lemma feed_nil w : feed [] w = w.
Proof. unfold feed, ext. rewrite app_nil_r. by destruct w as [[] k]. Qed.

Lemma feed_feed x y w : feed y (feed x w) = feed (x ++ y) w.
Proof. unfold feed, ext. cbn [conn kern]. cbn [rbuffer set_rbuffer]. by rewrite <- app_assoc. Qed.

(** At [w], [f] does the same with [y] behind the input. *)
Definition blind_at {A} (y : list Z) (f : stm world A) (w : world) : Prop :=
  f (feed y w) = (let '(r, w') := f w in (r, feed y w')).

Section Blind.
Context {A B : Type} (y : list Z).

Lemma blind_bind (f : stm world A) (g : A -> stm world B) w :
  blind_at y f w -> (forall a w', f w = (Ok a, w') -> blind_at y (g a) w') ->
  blind_at y (f ≫= g) w.
Proof.
  unfold blind_at, mbind, stm_bind. intros Hf Hg. rewrite Hf.
  destruct (f w) as [[a|e] w'] eqn:E; [|done]. by apply Hg.
Qed.

Lemma blind_ret (a : A) w : blind_at y (mret a) w.
Proof. done. Qed.

Lemma blind_fail e w : blind_at (A := A) y (sfail e) w.
Proof. done. Qed.

Lemma blind_slift (r : res A) w : blind_at y (slift r) w.
Proof. done. Qed.

Lemma blind_get (f : connection -> stm world A) w :
  f (ext y (conn w)) = f (conn w) -> blind_at y (f (conn w)) w -> blind_at y (bget ≫= f) w.
Proof.
  intros Hf H. unfold blind_at. rewrite (stm_bind_run bget f (feed y w) _ _ eq_refl).
  rewrite (stm_bind_run bget f w _ _ eq_refl). cbn [conn feed]. rewrite Hf. exact H.
Qed.
End Blind.

Lemma blind_mod y g w : g (ext y (conn w)) = ext y (g (conn w)) -> blind_at y (bmod g) w.
Proof. intros H. unfold blind_at, bmod, feed. cbn [conn kern]. by rewrite H. Qed.

Lemma blind_now y w : blind_at y now w.
Proof. done. Qed.

Ltac blind := repeat first
  [ apply blind_ret | apply blind_fail | apply blind_slift | apply blind_now
  | apply blind_mod; reflexivity
  | apply blind_get; [reflexivity|]
  | apply blind_bind; [|intros ? ? _]
  | case_match ].

Lemma blind_synthesize y w : blind_at y (on_bus synthesize_connected_signal) w.
Proof.
  unfold blind_at, on_bus. rewrite !synthesize_run. cbn [conn kern feed].
  change (connected_signal (ext y ?b)) with (connected_signal b).
  change (bus (ext y ?b)) with (bus b). change (rqueue (ext y ?b)) with (rqueue b).
  destruct (connected_signal (conn w)); [|done]. destruct (local_signal _ _); [|done].
  by destruct (BUS_RQUEUE_MAX <=? zlen (rqueue (conn w))).
Qed.

Lemma blind_start_running y w : blind_at y bus_start_running w.
Proof. unfold bus_start_running. apply blind_get; [reflexivity|]. blind. apply blind_synthesize. Qed.

Lemma blind_write y t w : blind_at y (bus_socket_auth_write t) w.
Proof. unfold bus_socket_auth_write. blind. Qed.

Lemma blind_write_ok y w : blind_at y bus_socket_auth_write_ok w.
Proof. unfold bus_socket_auth_write_ok. apply blind_get; [reflexivity|]. apply blind_write. Qed.

Lemma blind_mechanism y ok m w : blind_at y (auth_mechanism ok m) w.
Proof.
  unfold auth_mechanism. apply blind_bind; [done|]. intros [|] w' _; [|apply blind_write].
  apply blind_bind; [by apply blind_mod|]. intros [] w'' _. apply blind_write_ok.
Qed.

Lemma blind_go y (f : stm world unit) w : blind_at y f w -> blind_at y (f;; mret (None : option bool)) w.
Proof. intros H. apply blind_bind; [done|]. intros [] w' _. apply blind_ret. Qed.

Lemma blind_then y g f w :
  (forall b, g (ext y b) = ext y (g b)) -> (forall w, blind_at y f w) ->
  blind_at y ((bmod g;; f) : stm world unit) w.
Proof. intros Hg Hf. apply blind_bind; [by apply blind_mod|]. intros [] w' _. apply Hf. Qed.

Lemma blind_line y line n w :
  (n <= length (rbuffer (conn w)))%nat -> blind_at y (auth_line line n) w.
Proof.
  intros Hn. unfold auth_line. apply blind_get; [reflexivity|]. cbv zeta.
  destruct (line_begins line (bs "AUTH ANONYMOUS")); [apply blind_go, blind_mechanism|].
  destruct (line_begins line (bs "AUTH EXTERNAL")); [apply blind_go, blind_mechanism|].
  destruct (line_begins line (bs "AUTH")); [apply blind_go, blind_write|].
  destruct (_ || _); [apply blind_go, blind_then; [done|intros; apply blind_write]|].
  destruct (line_equals line (bs "BEGIN")).
  { destruct (bool_decide _); [apply blind_go, blind_write|].
    destruct (bus_socket_auth_needs_write _); [done|].
    apply blind_bind; [|intros [] w' _; apply blind_bind; [apply blind_start_running|done]].
    apply blind_mod. unfold ext. cbn [rbuffer set_rbuffer]. by rewrite drop_app_le. }
  destruct (line_begins line (bs "DATA")).
  { destruct (bool_decide _); [apply blind_go, blind_write|]. apply blind_go.
    apply blind_bind; [done|]. intros [|] w' _; [apply blind_write_ok|].
    apply blind_then; [done|intros; apply blind_write]. }
  destruct (line_equals line (bs "NEGOTIATE_UNIX_FD")); [|apply blind_go, blind_write].
  destruct (_ || _); [apply blind_go, blind_write|].
  apply blind_go, blind_then; [done|intros; apply blind_write].
Qed.

(** ** What a line changes *)

(** The connection but for the members the exchange itself is about. *)
Definition erase (b : connection) : connection :=
  set_auth BUS_AUTH_INVALID (set_auth_iovec [] (set_auth_index 0 (set_can_fds false b))).

Definition keeps {A} (f : stm world A) : Prop := forall w r w',
  f w = (r, w') -> erase (conn w') = erase (conn w) /\ kern w' = kern w.

Lemma keeps_bind {A B} (f : stm world A) (g : A -> stm world B) :
  keeps f -> (forall a, keeps (g a)) -> keeps (f ≫= g).
Proof.
  intros Hf Hg w r w'. unfold mbind, stm_bind. destruct (f w) as [[a|e] w1] eqn:E.
  - intros H. destruct (Hf _ _ _ E) as [H1 H2]. destruct (Hg _ _ _ _ H) as [H3 H4]. by rewrite H3, H4.
  - intros [= <- <-]. by apply (Hf _ _ _ E).
Qed.

Lemma keeps_ret {A} (a : A) : keeps (mret a).
Proof. by intros w r w' [= <- <-]. Qed.

Lemma keeps_slift {A} (r : res A) : keeps (slift r).
Proof. by intros w r' w' [= <- <-]. Qed.

Lemma keeps_get {A} (f : connection -> stm world A) : (forall b, keeps (f b)) -> keeps (bget ≫= f).
Proof. intros H. apply keeps_bind; [by intros w r w' [= <- <-]|done]. Qed.

Lemma keeps_mod g : (forall b, erase (g b) = erase b) -> keeps (bmod g).
Proof. intros H w r w' [= <- <-]. cbn [conn kern]. by rewrite H. Qed.

Lemma keeps_write t : keeps (bus_socket_auth_write t).
Proof.
  apply keeps_get. intros b. apply keeps_bind; [apply keeps_slift|]. intros _. by apply keeps_mod.
Qed.

Lemma keeps_write_ok : keeps bus_socket_auth_write_ok.
Proof. apply keeps_get. intros b. apply keeps_write. Qed.

Lemma keeps_then g f : (forall b, erase (g b) = erase b) -> keeps f -> keeps ((bmod g;; f) : stm world unit).
Proof. intros Hg Hf. apply keeps_bind; [by apply keeps_mod|done]. Qed.

Lemma keeps_mechanism ok m : keeps (auth_mechanism ok m).
Proof.
  apply keeps_bind; [apply keeps_slift|]. intros [|]; [|apply keeps_write].
  apply keeps_then; [done|apply keeps_write_ok].
Qed.

(** A line is answered, or it is an accepted BEGIN. *)
Definition begins (b : connection) (line : cstr) : bool :=
  line_equals line (bs "BEGIN") && negb (bool_decide (auth b = BUS_AUTH_INVALID)).

Lemma auth_line_cases line n w :
  (begins (conn w) line = false /\
     exists f : stm world unit, keeps f /\ auth_line line n w = (f;; mret None) w) \/
  (begins (conn w) line = true /\
     auth_line line n w =
     (if bus_socket_auth_needs_write (conn w) then (Ok (Some true), w)
      else (bmod (fun b => set_rbuffer (drop n (rbuffer b)) b);; bus_start_running;;
            mret (Some true)) w)).
Proof.
  unfold auth_line. rewrite (stm_bind_run bget _ w _ _ eq_refl). cbv zeta. unfold begins.
  destruct (line_equals line (bs "BEGIN")) eqn:Eb.
  { unfold line_equals in Eb. apply streq_spec in Eb. subst line.
    change (line_begins (bs "BEGIN") (bs "AUTH ANONYMOUS")) with false.
    change (line_begins (bs "BEGIN") (bs "AUTH EXTERNAL")) with false.
    change (line_begins (bs "BEGIN") (bs "AUTH")) with false.
    change (line_equals (bs "BEGIN") (bs "CANCEL") || line_begins (bs "BEGIN") (bs "ERROR")) with false.
    cbn beta iota. destruct (bool_decide _) eqn:Ea; cbn [negb andb].
    - left. split; [done|]. eexists. split; [apply keeps_write|done].
    - right. split; [done|]. by destruct (bus_socket_auth_needs_write _). }
  left. cbn [andb]. split; [done|].
  destruct (line_begins line (bs "AUTH ANONYMOUS")); [by eexists; split; [apply keeps_mechanism|]|].
  destruct (line_begins line (bs "AUTH EXTERNAL")); [by eexists; split; [apply keeps_mechanism|]|].
  destruct (line_begins line (bs "AUTH")); [by eexists; split; [apply keeps_write|]|].
  destruct (_ || _).
  { eexists. split; [|reflexivity]. apply keeps_then; [done|apply keeps_write]. }
  destruct (line_begins line (bs "DATA")).
  { destruct (bool_decide _); [by eexists; split; [apply keeps_write|]|].
    eexists. split; [|reflexivity]. apply keeps_bind; [apply keeps_slift|].
    intros [|]; [apply keeps_write_ok|]. apply keeps_then; [done|apply keeps_write]. }
  destruct (line_equals line (bs "NEGOTIATE_UNIX_FD")); [|by eexists; split; [apply keeps_write|]].
  destruct (_ || _); [by eexists; split; [apply keeps_write|]|].
  eexists. split; [|reflexivity]. apply keeps_then; [done|apply keeps_write].
Qed.

Lemma erase_facts b b' : erase b = erase b' ->
  rbuffer b = rbuffer b' /\ auth_rbegin b = auth_rbegin b' /\ state b = state b' /\
  anonymous_auth b = anonymous_auth b' /\ ucred_valid b = ucred_valid b' /\ ucred_uid b = ucred_uid b' /\
  accept_fd b = accept_fd b' /\ server_id b = server_id b' /\ bus_client b = bus_client b'.
Proof.
  intros H. split; [exact (f_equal rbuffer H)|]. split; [exact (f_equal auth_rbegin H)|].
  split; [exact (f_equal state H)|]. split; [exact (f_equal anonymous_auth H)|].
  split; [exact (f_equal ucred_valid H)|]. split; [exact (f_equal ucred_uid H)|].
  split; [exact (f_equal accept_fd H)|]. split; [exact (f_equal server_id H)|].
  exact (f_equal bus_client H).
Qed.

(** Starting leaves the authentication phase. *)
Lemma start_running_state w r w' :
  bus_start_running w = (r, w') -> before_hello (state (conn w)) = true ->
  state (conn w') = (if bus_client (conn w) then BUS_HELLO else BUS_RUNNING) /\
  rbuffer (conn w') = rbuffer (conn w) /\ auth (conn w') = auth (conn w) /\
  can_fds (bus (conn w')) = can_fds (bus (conn w)) /\ server_id (conn w') = server_id (conn w).
Proof.
  unfold bus_start_running. rewrite (stm_bind_run bget _ w _ _ eq_refl). intros H Hs.
  rewrite Hs in H. rewrite (stm_bind_run (sreq true EASSERT) _ w tt w eq_refl) in H.
  erewrite stm_bind_run in H by reflexivity. erewrite stm_bind_run in H by reflexivity.
  destruct (bus_client (conn w)).
  - injection H as <- <-. done.
  - erewrite stm_bind_run in H by reflexivity. unfold on_bus in H. rewrite synthesize_run in H.
    cbn [conn kern] in H. repeat case_match; simplify_eq; done.
Qed.

(** ** The loop *)

(** The same world; the results agree up to [processed]. *)
Definition agree (x y : res bool * world) : Prop :=
  x.2 = y.2 /\ (x.1 = y.1 \/ is_ok x.1 = true /\ is_ok y.1 = true).

(** The input not looked at yet. *)
Definition unread (w : world) : list Z := drop (auth_rbegin (conn w)) (rbuffer (conn w)).

Lemma server_loop_unfold fuel p w :
  server_loop (S fuel) p w =
  match find_crlf (unread w) with
  | None => (Ok p, w)
  | Some l =>
      let next := (auth_rbegin (conn w) + l + 2)%nat in
      match auth_line (take l (unread w)) next w with
      | (Ok (Some r), w') => (Ok r, w')
      | (Ok None, w') =>
          server_loop fuel true (World (set_auth_rbegin next (conn w')) (kern w'))
      | (Err e, w') => (Err e, w')
      end
  end.
Proof.
  cbn [server_loop]. rewrite (stm_bind_run bget _ w _ _ eq_refl). fold (unread w).
  destruct (find_crlf (unread w)) as [l|]; [|done]. cbv zeta.
  unfold mbind, stm_bind at 1. destruct (auth_line _ _ w) as [[[r|]|e] w']; done.
Qed.

(** A step to the next line. *)
Lemma line_step w l w' :
  find_crlf (unread w) = Some l ->
  auth_line (take l (unread w)) (auth_rbegin (conn w) + l + 2) w = (Ok None, w') ->
  let w1 := World (set_auth_rbegin (auth_rbegin (conn w) + l + 2) (conn w')) (kern w') in
  rbuffer (conn w1) = rbuffer (conn w) /\ state (conn w1) = state (conn w) /\
  (length (unread w1) < length (unread w))%nat.
Proof.
  intros Hl Ha w1. destruct (find_crlf_app _ [] _ Hl) as [_ Hlen].
  destruct (auth_line_cases (take l (unread w)) (auth_rbegin (conn w) + l + 2) w)
    as [(_ & f & Hk & E)|[_ E]]; rewrite Ha in E.
  - assert (erase (conn w') = erase (conn w)) as He.
    { symmetry in E. apply stm_bind_ok in E as (u & w2 & E1 & E2). injection E2 as <-.
      by apply (Hk _ _ _ E1). }
    destruct (erase_facts _ _ He) as (H1 & H2 & H3 & _).
    split; [exact H1|]. split; [exact H3|]. unfold unread in *. cbn [conn w1] in *.
    change (auth_rbegin (set_auth_rbegin ?x _)) with x. change (rbuffer (set_auth_rbegin _ ?b)) with (rbuffer b).
    rewrite H1. rewrite length_drop in Hlen. rewrite !length_drop. lia.
  - destruct (bus_socket_auth_needs_write (conn w)); [done|].
    symmetry in E. apply stm_bind_ok in E as (? & ? & _ & E). by apply stm_bind_ok in E as (? & ? & _ & E).
Qed.

Lemma loop_fuel f : forall g p q w,
  (length (unread w) < f)%nat -> (length (unread w) < g)%nat ->
  agree (server_loop f p w) (server_loop g q w).
Proof.
  induction f as [|f IH]; intros g p q w Hf Hg; [lia|]. destruct g as [|g]; [lia|].
  rewrite !server_loop_unfold. destruct (find_crlf (unread w)) as [l|] eqn:El; [|by split; [|right]].
  cbv zeta. destruct (auth_line _ _ w) as [[[r|]|e] w'] eqn:Ea; [by split; [|left]| |by split; [|left]].
  destruct (line_step w l w' El Ea) as (_ & _ & Hlt). apply IH; lia.
Qed.

Lemma unread_feed y w :
  (auth_rbegin (conn w) <= length (rbuffer (conn w)))%nat -> unread (feed y w) = unread w ++ y.
Proof.
  intros H. unfold unread, feed, ext. cbn [conn]. change (auth_rbegin (set_rbuffer _ ?b)) with (auth_rbegin b).
  change (rbuffer (set_rbuffer ?x _)) with x. by rewrite drop_app_le.
Qed.

(** A line at which the loop returns, the phase not over: a BEGIN that waits. *)
Lemma line_returns line n w r w' :
  auth_line line n w = (Ok (Some r), w') -> state (conn w) = BUS_AUTHENTICATING ->
  state (conn w') = BUS_AUTHENTICATING -> w' = w.
Proof.
  intros Ea Hs Hs1. destruct (auth_line_cases line n w) as [(_ & h & Hk & E)|[_ E]]; rewrite Ea in E.
  { symmetry in E. by apply stm_bind_ok in E as (? & ? & _ & ?). }
  destruct (bus_socket_auth_needs_write (conn w)); [by injection E as _ ->|].
  symmetry in E. apply stm_bind_ok in E as ([] & w2 & E1 & E2). injection E1 as <-.
  apply stm_bind_ok in E2 as ([] & w3 & E3 & E4). injection E4 as <- <-.
  apply start_running_state in E3 as [E3 _].
  - rewrite Hs1 in E3. by case_match.
  - cbn [conn]. change (state (set_rbuffer _ ?b)) with (state b). by rewrite Hs.
Qed.

(** One more piece of input: what the lines before it did stays done. *)
Lemma loop_more f : forall p w q w1 y,
  (auth_rbegin (conn w) <= length (rbuffer (conn w)))%nat ->
  state (conn w) = BUS_AUTHENTICATING ->
  server_loop f p w = (Ok q, w1) -> state (conn w1) = BUS_AUTHENTICATING ->
  forall g g' p1 p2, (length (unread (feed y w)) < g)%nat -> (length (unread (feed y w1)) < g')%nat ->
  agree (server_loop g p1 (feed y w)) (server_loop g' p2 (feed y w1)).
Proof.
  induction f as [|f IH]; intros p w q w1 y Hb Hs Hr Hs1 g g' p1 p2 Hg Hg'; [done|].
  rewrite server_loop_unfold in Hr. destruct (find_crlf (unread w)) as [l|] eqn:El.
  2: { injection Hr as <- <-. by apply loop_fuel. }
  cbv zeta in Hr. set (n := (auth_rbegin (conn w) + l + 2)%nat) in *. set (line := take l (unread w)) in *.
  destruct (find_crlf_app _ y _ El) as [El' Hlen].
  assert (Hn : (n <= length (rbuffer (conn w)))%nat).
  { unfold unread in Hlen. rewrite length_drop in Hlen. lia. }
  destruct (auth_line line n w) as [[[r|]|e] w'] eqn:Ea; [| |done].
  - injection Hr as <- <-. rewrite (line_returns _ _ _ _ _ Ea Hs Hs1) in Hg' |- *. by apply loop_fuel.
  - destruct (line_step w l w' El Ea) as (L1 & L2 & L3). fold n in L1, L2, L3.
    set (w2 := World (set_auth_rbegin n (conn w')) (kern w')) in *.
    destruct g as [|g]; [lia|]. rewrite server_loop_unfold, unread_feed in * by done. rewrite El'. cbv zeta.
    change (auth_rbegin (conn (feed y w))) with (auth_rbegin (conn w)). fold n.
    rewrite take_app_le by lia. fold line. rewrite (blind_line y line n w Hn), Ea.
    change (World (set_auth_rbegin n (conn (feed y w'))) (kern (feed y w'))) with (feed y w2).
    assert (Hb2 : (auth_rbegin (conn w2) <= length (rbuffer (conn w2)))%nat) by (by rewrite L1).
    apply (IH true w2 q w1); try done; [by rewrite L2|].
    rewrite unread_feed by done. rewrite !length_app in *. lia.
Qed.

(** While the phase lasts the loop only moves forward. *)
Lemma loop_keeps f : forall p w q w1,
  state (conn w) = BUS_AUTHENTICATING -> server_loop f p w = (Ok q, w1) ->
  state (conn w1) = BUS_AUTHENTICATING ->
  rbuffer (conn w1) = rbuffer (conn w) /\ (auth_rbegin (conn w) <= auth_rbegin (conn w1))%nat.
Proof.
  induction f as [|f IH]; intros p w q w1 Hs Hr Hs1; [done|].
  rewrite server_loop_unfold in Hr. destruct (find_crlf (unread w)) as [l|] eqn:El.
  2: { by injection Hr as <- <-. }
  cbv zeta in Hr. destruct (auth_line _ _ w) as [[[r|]|e] w'] eqn:Ea; [| |done].
  - injection Hr as <- <-. by rewrite (line_returns _ _ _ _ _ Ea Hs Hs1).
  - destruct (line_step w l w' El Ea) as (L1 & L2 & _). apply IH in Hr; [|by rewrite L2|done].
    destruct Hr as [-> Hr]. split; [done|]. cbn [conn] in Hr.
    change (auth_rbegin (set_auth_rbegin ?x _)) with x in Hr. lia.
Qed.

(** C25. The server's side of the authentication does not depend on how the
    input is cut into pieces: looking at the buffer when [x] has arrived and
    again when [y] has, while the phase lasts, leaves the same connection and the
    same output as looking once at both, and gives the same errors. *)
Theorem server_incremental w x y q w1 :
  state (conn w) = BUS_AUTHENTICATING ->
  (auth_rbegin (conn w) <= length (rbuffer (conn w)))%nat ->
  bus_socket_auth_verify_server (feed x w) = (Ok q, w1) ->
  state (conn w1) = BUS_AUTHENTICATING ->
  agree (bus_socket_auth_verify_server (feed (x ++ y) w))
        (bus_socket_auth_verify_server (feed y w1)).
Proof.
  intros Hs Hb. rewrite <- feed_feed. set (v := feed x w).
  assert (Hv : (auth_rbegin (conn v) <= length (rbuffer (conn v)))%nat).
  { unfold v, feed, ext. cbn [conn]. change (auth_rbegin (set_rbuffer _ ?b)) with (auth_rbegin b).
    change (rbuffer (set_rbuffer ?x _)) with x. rewrite length_app. lia. }
  assert (Hvs : state (conn v) = BUS_AUTHENTICATING) by done. clearbody v. clear w x Hs Hb.
  unfold bus_socket_auth_verify_server at 1. rewrite (stm_bind_run bget _ v _ _ eq_refl). intros Hr Hs1.
  case_bool_decide as H1; [by injection Hr as <- <-; split; [|left]|].
  destruct (deref (rbuffer (conn v)) =? 0) eqn:Ed; [|done].
  rewrite (stm_bind_run (sreq true EIO) _ v tt v eq_refl) in Hr.
  case_bool_decide as H3; [by injection Hr as <- <-; split; [|left]|].
  set (v1 := World (set_auth_rbegin (if bool_decide (auth_rbegin (conn v) = 0)%nat then 1%nat
                                     else auth_rbegin (conn v)) (conn v)) (kern v)).
  erewrite (stm_bind_run _ _ v tt v1) in Hr.
  2: { unfold v1. case_bool_decide; [done|]. destruct v as [b k]. by destruct b. }
  assert (Hrun : forall u, (3 <= length (rbuffer (conn u)))%nat -> deref (rbuffer (conn u)) = 0 ->
    bus_socket_auth_verify_server u =
    server_loop (length (rbuffer (conn u)) + 1) false
      (World (set_auth_rbegin (if bool_decide (auth_rbegin (conn u) = 0)%nat then 1%nat
                               else auth_rbegin (conn u)) (conn u)) (kern u))).
  { intros u Hu Hd. unfold bus_socket_auth_verify_server. rewrite (stm_bind_run bget _ u _ _ eq_refl).
    rewrite bool_decide_eq_false_2 by lia. rewrite Hd, Z.eqb_refl.
    rewrite (stm_bind_run (sreq true EIO) _ u tt u eq_refl). rewrite bool_decide_eq_false_2 by lia.
    erewrite stm_bind_run; [reflexivity|]. case_bool_decide; [done|]. destruct u as [b k]. by destruct b. }
  assert (Hd : deref (rbuffer (conn v)) = 0) by lia.
  assert (H1s : state (conn v1) = BUS_AUTHENTICATING) by done.
  assert (Hb1 : (auth_rbegin (conn v1) <= length (rbuffer (conn v1)))%nat).
  { unfold v1. cbn [conn]. change (auth_rbegin (set_auth_rbegin ?x _)) with x.
    change (rbuffer (set_auth_rbegin _ ?b)) with (rbuffer b). case_bool_decide; lia. }
  assert (Hk : rbuffer (conn w1) = rbuffer (conn v) /\ auth_rbegin (conn w1) <> 0%nat).
  { apply (loop_keeps _ _ _ _ _ H1s) in Hr; [|done]. destruct Hr as [-> Hr]. split; [done|].
    assert (auth_rbegin (conn v1) <> 0%nat); [|lia]. unfold v1. cbn [conn].
    change (auth_rbegin (set_auth_rbegin ?x _)) with x. by case_bool_decide. }
  destruct Hk as [Hk1 Hk2].
  assert (Hf : forall u, (3 <= length (rbuffer (conn u)))%nat ->
    (3 <= length (rbuffer (conn (feed y u))))%nat).
  { intros u Hu. unfold feed, ext. cbn [conn]. change (rbuffer (set_rbuffer ?x _)) with x.
    rewrite length_app. lia. }
  assert (Hdf : forall u, (3 <= length (rbuffer (conn u)))%nat ->
    deref (rbuffer (conn (feed y u))) = deref (rbuffer (conn u))).
  { intros u Hu. unfold feed, ext. cbn [conn]. change (rbuffer (set_rbuffer ?x _)) with x.
    destruct (rbuffer (conn u)); [simpl in Hu; lia|done]. }
  rewrite (Hrun (feed y v)), (Hrun (feed y w1)) by (rewrite ?Hdf; try apply Hf; rewrite ?Hk1; lia).
  match goal with |- agree _ (server_loop _ _ ?u) => replace u with (feed y w1) end.
  2: { change (auth_rbegin (conn (feed y w1))) with (auth_rbegin (conn w1)).
       rewrite bool_decide_eq_false_2 by done. destruct w1 as [b k]. by destruct b. }
  change (World _ (kern (feed y v))) with (feed y v1).
  eapply (loop_more _ false v1 q w1); try done; unfold unread; rewrite length_drop.
  - change (rbuffer (conn (feed y v1))) with (rbuffer (conn (feed y v))). lia.
  - lia.
Qed.

(** ** Who gets in *)

(** [line] is among what was read. *)
Definition has_line (seen line : list Z) : Prop := exists x y, seen = x ++ line ++ crlf ++ y.

(** What follows AUTH EXTERNAL claims no identity but the peer's own. *)
Definition own_identity (b : connection) (p : list Z) : Prop :=
  p = [] \/ exists token, token_bytes p = Ok (Some token) /\ parse_uid token = Ok (ucred_uid b).

(** The mechanism in force was asked for in [seen], what was read of the peer,
    and granted: ANONYMOUS needs the permission, EXTERNAL that or credentials of
    the peer that are those it claims; descriptors pass only when they may. *)
Definition granted (seen : list Z) (b : connection) : Prop :=
  match auth b with
  | BUS_AUTH_INVALID => True
  | BUS_AUTH_ANONYMOUS => anonymous_auth b = true /\
      exists line, has_line seen line /\ line_begins line (bs "AUTH ANONYMOUS") = true
  | BUS_AUTH_EXTERNAL =>
      exists line, has_line seen line /\ line_begins line (bs "AUTH EXTERNAL") = true /\
        (anonymous_auth b = true \/ ucred_valid b = true /\ own_identity b (drop 13 line))
  end /\ (can_fds (bus b) = true -> accept_fd b = true).

Lemma granted_more seen more b : granted seen b -> granted (seen ++ more) b.
Proof.
  assert (Hl : forall line, has_line seen line -> has_line (seen ++ more) line).
  { intros line (x & y & ->). exists x, (y ++ more). by rewrite <- !app_assoc. }
  intros [H Hf]. split; [|done]. destruct (auth b); [done| |].
  - destruct H as (line & H & H'). exists line. by split; [apply Hl|].
  - destruct H as (Ha & line & H & H'). split; [done|]. exists line. by split; [apply Hl|].
Qed.

Section Granted.
Context (seen : list Z).
Abbreviation granted := (granted seen).

Definition preserves {A} (f : stm world A) : Prop := forall w r w',
  f w = (r, w') -> granted (conn w) -> granted (conn w').

Lemma preserves_bind {A B} (f : stm world A) (g : A -> stm world B) :
  preserves f -> (forall a, preserves (g a)) -> preserves (f ≫= g).
Proof.
  intros Hf Hg w r w'. unfold mbind, stm_bind. destruct (f w) as [[a|e] w1] eqn:E.
  - intros H Hw. eapply Hg; [exact H|]. by eapply Hf.
  - intros [= <- <-]. by apply (Hf _ _ _ E).
Qed.

Lemma preserves_pure {A} (r : res A) : preserves (slift r).
Proof. by intros w r' w' [= <- <-]. Qed.

Lemma preserves_mod g : (forall b, granted b -> granted (g b)) -> preserves (bmod g).
Proof. intros H w r w' [= <- <-]. apply H. Qed.

Lemma preserves_write t : preserves (bus_socket_auth_write t).
Proof.
  apply preserves_bind; [by intros w r w' [= <- <-]|]. intros b.
  apply preserves_bind; [apply preserves_pure|]. intros _. by apply preserves_mod.
Qed.

Lemma preserves_write_ok : preserves bus_socket_auth_write_ok.
Proof. apply preserves_bind; [by intros w r w' [= <- <-]|]. intros b. apply preserves_write. Qed.

Lemma preserves_go (f : stm world unit) : preserves f -> preserves (f;; mret (None : option bool)).
Proof. intros H. apply preserves_bind; [done|]. intros _. apply (preserves_pure (Ok None)). Qed.

Lemma preserves_set_auth (f : stm world unit) :
  preserves f -> preserves (bmod (set_auth BUS_AUTH_INVALID);; f).
Proof.
  intros H. apply preserves_bind; [|done]. apply preserves_mod. intros b [_ Hf]. by split.
Qed.

(** A token is accepted only where the mechanism is permitted, and for the
    identity of the peer. *)
Lemma anonymous_permitted b p : verify_anonymous_token b p = Ok true -> anonymous_auth b = true.
Proof. unfold verify_anonymous_token. by destruct (anonymous_auth b). Qed.

Lemma external_permitted b p :
  verify_external_token b p = Ok true ->
  anonymous_auth b = true \/ ucred_valid b = true /\ own_identity b p.
Proof.
  unfold verify_external_token. intros H. destruct (anonymous_auth b); [by left|].
  destruct (ucred_valid b); [|done]. cbn [negb andb orb] in H. right. split; [done|].
  case_bool_decide; [by left|]. right.
  destruct (token_bytes p) as [[token|]|e]; cbn [mbind res_bind] in H; [|done|done]. exists token. split; [done|].
  destruct (parse_uid token) as [u|e]; [|done]. injection H as H%Z.eqb_eq. by subst u.
Qed.

Lemma mechanism_granted ok m w r w' :
  auth_mechanism ok m w = (r, w') -> granted (conn w) ->
  (ok = Ok true -> granted (set_auth m (conn w))) -> granted (conn w').
Proof.
  intros H Hw Hok. unfold auth_mechanism in H. destruct ok as [[|]|e].
  - rewrite (stm_bind_run (slift (Ok true)) _ w true w eq_refl) in H.
    erewrite stm_bind_run in H by reflexivity. eapply preserves_write_ok; [exact H|]. by apply Hok.
  - rewrite (stm_bind_run (slift (Ok false)) _ w false w eq_refl) in H. by eapply preserves_write.
  - by injection H as _ <-.
Qed.

Lemma go_granted (f : stm world unit) w r w' :
  (f;; mret (None : option bool)) w = (r, w') ->
  (forall r1 w1, f w = (r1, w1) -> granted (conn w1)) -> granted (conn w').
Proof.
  unfold mbind, stm_bind. destruct (f w) as [[[]|e] w1]; intros [= <- <-] H; by eapply H.
Qed.

Lemma start_running_granted w r w' :
  bus_start_running w = (r, w') -> granted (conn w) -> granted (conn w').
Proof.
  intros H. revert w r w' H. apply preserves_bind; [by intros w r w' [= <- <-]|]. intros b.
  apply preserves_bind; [apply preserves_pure|]. intros _.
  apply preserves_bind; [by intros w r w' [= <- <-]|]. intros n.
  apply preserves_bind; [by apply preserves_mod|]. intros _.
  destruct (bus_client b); [by apply preserves_mod|].
  apply preserves_bind; [by apply preserves_mod|]. intros _ w r w'. unfold on_bus.
  rewrite synthesize_run. intros H. repeat case_match; simplify_eq; done.
Qed.

Lemma line_granted line n : has_line seen line -> preserves (auth_line line n).
Proof.
  intros Hl w r w' H Hg. unfold auth_line in H. rewrite (stm_bind_run bget _ w _ _ eq_refl) in H. cbv zeta in H.
  assert (Hw : forall t, preserves (reject t)) by (intros t; apply preserves_write).
  destruct (line_begins line (bs "AUTH ANONYMOUS")) eqn:Ha.
  { eapply go_granted; [exact H|]. intros r1 w1 E. eapply mechanism_granted; [exact E|done|].
    intros Hok%anonymous_permitted. split; [split; [done|by exists line]|apply Hg]. }
  destruct (line_begins line (bs "AUTH EXTERNAL")) eqn:He.
  { eapply go_granted; [exact H|]. intros r1 w1 E. eapply mechanism_granted; [exact E|done|].
    intros Hok%external_permitted. split; [by exists line|apply Hg]. }
  destruct (line_begins line (bs "AUTH")); [eapply preserves_go; [apply Hw|exact H|done]|].
  destruct (_ || _); [eapply preserves_go; [apply preserves_set_auth, Hw|exact H|done]|].
  destruct (line_equals line (bs "BEGIN")).
  { destruct (bool_decide _); [eapply preserves_go; [apply Hw|exact H|done]|].
    destruct (bus_socket_auth_needs_write _); [by injection H as _ <-|].
    erewrite stm_bind_run in H by reflexivity.
    eapply (preserves_bind bus_start_running); [exact start_running_granted| |exact H|done].
    intros a. exact (preserves_pure (Ok (Some true))). }
  destruct (line_begins line (bs "DATA")).
  { destruct (bool_decide _); [eapply preserves_go; [apply Hw|exact H|done]|].
    eapply preserves_go; [|exact H|done]. apply preserves_bind; [apply preserves_pure|].
    intros [|]; [apply preserves_write_ok|apply preserves_set_auth, Hw]. }
  destruct (line_equals line (bs "NEGOTIATE_UNIX_FD")).
  2: { eapply preserves_go; [apply Hw|exact H|done]. }
  destruct (bool_decide _ || _) eqn:E; [eapply preserves_go; [apply Hw|exact H|done]|].
  apply orb_false_iff in E as [_ E%negb_false_iff].
  eapply go_granted; [exact H|]. intros r1 w1 E1. erewrite stm_bind_run in E1 by reflexivity.
  eapply Hw; [exact E1|]. destruct Hg as [Hg _]. split; [exact Hg|done].
Qed.

End Granted.

Lemma line_leaves line n w r w' :
  auth_line line n w = (r, w') -> state (conn w) = BUS_AUTHENTICATING ->
  state (conn w') <> BUS_AUTHENTICATING ->
  line = bs "BEGIN" /\ auth (conn w') <> BUS_AUTH_INVALID /\
  bus_socket_auth_needs_write (conn w) = false /\ rbuffer (conn w') = drop n (rbuffer (conn w)).
Proof.
  intros H Hs Hs1. destruct (auth_line_cases line n w) as [(_ & f & Hk & E)|[Hb E]]; rewrite H in E.
  { exfalso. apply Hs1. unfold mbind, stm_bind in E. destruct (f w) as [[u|e] w1] eqn:Ef;
      destruct (Hk _ _ _ Ef) as [He _]; injection E as _ ->;
      by rewrite (proj1 (proj2 (proj2 (erase_facts _ _ He)))). }
  unfold begins in Hb. apply andb_true_iff in Hb as [Hl Ha].
  unfold line_equals in Hl. apply streq_spec in Hl. apply negb_true_iff, bool_decide_eq_false in Ha.
  destruct (bus_socket_auth_needs_write (conn w)); [by injection E as _ ->|].
  erewrite stm_bind_run in E by reflexivity.
  assert (exists r1, bus_start_running (World (set_rbuffer (drop n (rbuffer (conn w))) (conn w)) (kern w)) = (r1, w'))
    as [r1 E1].
  { unfold mbind, stm_bind in E. destruct (bus_start_running _) as [[u|e] w1]; injection E as _ ->; by eexists. }
  apply start_running_state in E1 as (_ & E2 & E3 & _);
    [|cbn [conn]; change (state (set_rbuffer _ ?b)) with (state b); by rewrite Hs].
  split; [done|]. rewrite E3. split; [exact Ha|]. split; [done|]. exact E2.
Qed.

Lemma find_crlf_split s k : find_crlf s = Some k -> s = take k s ++ crlf ++ drop (k + 2) s.
Proof.
  revert k. induction s as [|c s IH]; intros k; [done|]. cbn [find_crlf].
  destruct ((c =? 13) && (deref s =? 10)) eqn:E.
  - intros [= <-]. apply andb_true_iff in E as [->%Z.eqb_eq E]. destruct s as [|d s]; [done|].
    simpl in E. apply Z.eqb_eq in E as ->. done.
  - destruct (find_crlf s) as [k'|]; [|done]. intros [= <-].
    cbn [take drop app Nat.add]. f_equal. by apply IH.
Qed.

(** The phase ended with BEGIN, after lines in which a mechanism was granted;
    what follows is kept for the connection. *)
Definition left_phase (buf : list Z) (b : connection) : Prop :=
  auth b <> BUS_AUTH_INVALID /\
  exists before, let read := before ++ bs "BEGIN" ++ crlf in
    buf = read ++ rbuffer b /\ granted read b.

(** The mechanism in force was granted in the lines that were processed. *)
Definition processed (b : connection) : list Z := take (auth_rbegin b) (rbuffer b).

Lemma loop_granted f : forall p w r w',
  server_loop f p w = (r, w') -> state (conn w) = BUS_AUTHENTICATING ->
  granted (processed (conn w)) (conn w) ->
  granted (rbuffer (conn w)) (conn w') /\
  (is_ok r = true -> state (conn w') = BUS_AUTHENTICATING -> granted (processed (conn w')) (conn w')) /\
  (state (conn w') <> BUS_AUTHENTICATING -> left_phase (rbuffer (conn w)) (conn w')).
Proof.
  assert (Hall : forall b b', granted (processed b) b' -> granted (rbuffer b) b').
  { intros b b' H. rewrite <- (take_drop (auth_rbegin b) (rbuffer b)). by apply granted_more. }
  induction f as [|f IH]; intros p w r w' H Hs Hg; [injection H as <- <-; by split; [apply Hall|]|].
  rewrite server_loop_unfold in H. destruct (find_crlf (unread w)) as [l|] eqn:El.
  2: { injection H as _ <-. by split; [apply Hall|]. }
  cbv zeta in H. set (n := (auth_rbegin (conn w) + l + 2)%nat) in *. set (line := take l (unread w)) in *.
  assert (Hn : take n (rbuffer (conn w)) = processed (conn w) ++ line ++ crlf).
  { unfold n, processed. rewrite <- Nat.add_assoc, <- take_take_drop. fold (unread w).
    f_equal. rewrite (find_crlf_split _ _ El) at 1. fold line. destruct (find_crlf_app _ [] _ El) as [_ Hlen].
    rewrite app_assoc, take_app_length'; [done|]. unfold line. rewrite length_app, length_take. simpl. lia. }
  assert (Hsplit : rbuffer (conn w) = (processed (conn w) ++ line ++ crlf) ++ drop n (rbuffer (conn w))).
  { by rewrite <- Hn, take_drop. }
  destruct (auth_line line n w) as [o w1] eqn:Ea.
  assert (Hg1 : granted (processed (conn w) ++ line ++ crlf) (conn w1)).
  { eapply line_granted; [|exact Ea|by apply granted_more]. by exists (processed (conn w)), []. }
  assert (Hend : state (conn w1) <> BUS_AUTHENTICATING -> left_phase (rbuffer (conn w)) (conn w1)).
  { intros Hs1. destruct (line_leaves line n w o w1 Ea Hs Hs1) as (H1 & H2 & _ & H3). split; [done|].
    exists (processed (conn w)). cbv zeta. rewrite <- H1, H3. by split. }
  destruct o as [[r1|]|e].
  - injection H as <- <-. split; [|split; [|done]].
    + rewrite Hsplit. by apply granted_more.
    + intros _ Hs1. by rewrite (line_returns _ _ _ _ _ Ea Hs Hs1).
  - destruct (line_step w l w1 El Ea) as (L1 & L2 & _). fold n in L1, L2.
    apply IH in H; [|by rewrite L2|].
    + destruct H as (H1 & H2 & H3). by rewrite <- L1.
    + unfold processed. rewrite L1. change (auth_rbegin _) with n. by rewrite Hn.
  - injection H as <- <-. split; [rewrite Hsplit; by apply granted_more|]. by split; [|exact Hend].
Qed.

(** C24. Nobody starts a connection unauthenticated: whatever bytes a client
    sends, the mechanism in force was asked for in a line that was read and was
    granted for good reason ([granted]: EXTERNAL, where anonymous clients are not
    accepted, only for the identity the kernel reports for the peer); this stays
    true of the lines that were processed, and when the phase ends they end with
    BEGIN and what follows is kept for the connection. *)
Theorem server_authenticates w r w' :
  state (conn w) = BUS_AUTHENTICATING -> granted (processed (conn w)) (conn w) ->
  bus_socket_auth_verify_server w = (r, w') ->
  granted (rbuffer (conn w)) (conn w') /\
  (is_ok r = true -> state (conn w') = BUS_AUTHENTICATING -> granted (processed (conn w')) (conn w')) /\
  (state (conn w') <> BUS_AUTHENTICATING -> left_phase (rbuffer (conn w)) (conn w')).
Proof.
  intros Hs Hg H. assert (Hr : granted (rbuffer (conn w)) (conn w)).
  { rewrite <- (take_drop (auth_rbegin (conn w)) (rbuffer (conn w))). by apply granted_more. }
  unfold bus_socket_auth_verify_server in H.
  rewrite (stm_bind_run bget _ w _ _ eq_refl) in H. case_bool_decide; [by injection H as _ <-|].
  destruct (deref (rbuffer (conn w)) =? 0); [|by injection H as <- <-].
  rewrite (stm_bind_run (sreq true EIO) _ w tt w eq_refl) in H.
  case_bool_decide; [by injection H as _ <-|].
  destruct (bool_decide_reflect (auth_rbegin (conn w) = 0%nat)) as [Hb0|Hb0].
  - erewrite stm_bind_run in H by reflexivity. apply (loop_granted _ _ _ _ _ H); [done|].
    unfold processed in Hg. rewrite Hb0 in Hg. exact (granted_more [] (take 1 (rbuffer (conn w))) _ Hg).
  - erewrite stm_bind_run in H by reflexivity. by apply (loop_granted _ _ _ _ _ H).
Qed.
