(* ===== verification/SaslHandshake.v ===== *)
(** * Both sides of the handshake

    The bytes the client queues leave it complete and in order however the
    socket takes them, and the server and the client, each given what the other
    one sends, end the phase and agree on the server's id and on descriptors. *)
From S2P Require Import Prelude BusType HexDecOct ParseUtil Utf8 MsgState MsgFields Bus Sasl SaslSession.

(** ** Output in pieces *)
(** What the phase has yet to send. *)
Definition auth_output (b : connection) : list Z :=
  (if send_null_byte b then [0] else []) ++ concat (drop (auth_index b) (auth_iovec b)).

Lemma needs_write_output b :
  bus_socket_auth_needs_write b = negb (bool_decide (concat (drop (auth_index b) (auth_iovec b)) = [])).
Proof.
  unfold bus_socket_auth_needs_write. induction (drop _ _) as [|i l IH]; [done|].
  cbn [existsb concat]. rewrite IH. destruct i; [done|]. by rewrite bool_decide_eq_false_2.
Qed.

(** Nothing of the phase's output is lost, doubled or reordered: one call of
    [bus_socket_write_auth], whatever the socket accepts, moves a prefix of what
    is to be sent, the leading NUL byte included, to the socket, a nonempty one
    when it says so; with an error or the answer 0 nothing moves. No assertion
    fails. *)
Theorem write_auth_stream w r w' :
  state (conn w) = BUS_AUTHENTICATING -> Err EASSERT ∉ sends (kern w) ->
  bus_socket_write_auth w = (r, w') ->
  sent (kern w') ++ auth_output (conn w') = sent (kern w) ++ auth_output (conn w) /\
  (if decide (r = Ok true) then (length (sent (kern w)) < length (sent (kern w')))%nat
   else sent (kern w') = sent (kern w)) /\
  r <> Err EASSERT.
Proof.
  intros Hs Hna H. unfold bus_socket_write_auth in H. rewrite (stm_bind_run bget _ w _ _ eq_refl) in H.
  rewrite bool_decide_eq_true_2 in H by done.
  rewrite (stm_bind_run (sreq true EASSERT) _ w tt w eq_refl) in H.
  rewrite needs_write_output in H. set (out := concat (drop (auth_index (conn w)) (auth_iovec (conn w)))) in *.
  case_bool_decide as Hout; cbn [negb] in H; [by injection H as <- <-|].
  assert (Hlen : forall a b c : list Z, b = a ++ c -> c <> [] -> (length a < length b)%nat).
  { intros a b c -> Hc. rewrite length_app. destruct c; [done|simpl; lia]. }
  destruct (send_null_byte (conn w)) eqn:En.
  - unfold bus_socket_write_null_byte, mbind, stm_bind in H.
    destruct (unless_again _ w) as [[k|e] w1] eqn:E; apply unless_again_spec in E as (r0 & E & Hr0);
      pose proof (sendmsg_spec _ _ _ _ _ E ltac:(done)) as (H1 & _ & _ & _ & H2).
    + destruct k as [n|]; subst r0; rewrite ?bool_decide_eq_false_2, ?bool_decide_eq_true_2 in H by done;
        injection H as <- <-; cbn [conn kern].
      * destruct H2 as (Hn & H2 & _ & _). change (zlen [0]) with 1 in Hn. replace (Z.to_nat n) with 1%nat in H2 by lia.
        rewrite H2, H1. unfold auth_output. rewrite En. change (send_null_byte (set_send_null_byte ?x _)) with x.
        split; [by rewrite <- app_assoc|]. split; [|done]. rewrite length_app. simpl. lia.
      * destruct H2 as (H2 & _). rewrite H2, H1. by split.
    + injection H as <- <-. destruct Hr0 as [-> _]. destruct H2 as (H2 & _ & H3). rewrite H2, H1. split; [done|].
      split; [by case_decide|]. intros [= ->]. by destruct H3 as [[? _]|].
  - unfold mbind, stm_bind in H.
    destruct (unless_again _ w) as [[k|e] w1] eqn:E; apply unless_again_spec in E as (r0 & E & Hr0);
      pose proof (sendmsg_spec _ _ _ _ _ E Hout) as (H1 & _ & _ & _ & H2).
    + destruct k as [n|]; subst r0.
      * destruct H2 as (Hn & H2 & _ & _).
        destruct (iovec_advance_spec (length (auth_iovec (conn w))) (auth_iovec (conn w)) (auth_index (conn w)) n)
          as (iov & idx & E1 & E2 & _); [fold out; lia|lia|]. unfold slift in H. rewrite E1 in H.
        injection H as <- <-. cbn [conn kern]. rewrite H2, H1. unfold auth_output.
        change (send_null_byte (set_auth_index _ (set_auth_iovec _ ?b))) with (send_null_byte b).
        change (auth_index (set_auth_index ?x _)) with x.
        change (auth_iovec (set_auth_index _ (set_auth_iovec ?x _))) with x.
        rewrite En, E2. fold out. cbn [app]. rewrite <- app_assoc, take_drop. split; [done|]. split; [|done].
        rewrite length_app, length_take. unfold zlen in Hn. simpl. lia.
      * injection H as <- <-. destruct H2 as (H2 & _). rewrite H2, H1. by split.
    + injection H as <- <-. destruct Hr0 as [-> _]. destruct H2 as (H2 & _ & H3). rewrite H2, H1. split; [done|].
      split; [by case_decide|]. intros [= ->]. by destruct H3 as [[? _]|].
Qed.

(** ** The lines of the exchange *)
Definition client_bytes (b : connection) (uid : Z) : list Z :=
  [0] ++ auth_prefix b ++ auth_token b uid ++ auth_suffix b.

Lemma hexmem_chars p : 13 ∉ hexmem p /\ Nat.even (length (hexmem p)) = true.
Proof.
  induction p as [|x p [IH1 IH2]]; [split; [apply not_elem_of_nil|done]|]. cbn [hexmem length Nat.even].
  split; [|done]. assert (H : forall y, 13 <> hexchar y).
  { intros y E. pose proof (hexchar_not_space y) as Hs. by rewrite <- E in Hs. }
  rewrite !not_elem_of_cons. done.
Qed.

Lemma hexmem_length p : length (hexmem p) = (2 * length p)%nat.
Proof. induction p as [|x p IH]; [done|]. cbn [hexmem length]. lia. Qed.

Lemma token_hexmem p :
  Forall is_byte p -> in_set 0 p = false -> token_bytes (ch " " :: hexmem p) = Ok (Some p).
Proof.
  intros Hb H0. unfold token_bytes. cbn [deref tail]. rewrite Z.eqb_refl. cbn [require mbind res_bind].
  destruct (hexmem_chars p) as [_ ->]. rewrite bool_decide_eq_true_2 by done. cbn [negb].
  unfold unhexmem. rewrite unhexmem_loop_pairs by lia. rewrite not_space_hexmem, unhex_pairs_hexmem by done.
  by rewrite H0.
Qed.

(** The server lets this client in. *)
Definition admits (s c : connection) (uid : Z) : Prop :=
  if anonymous_auth c then anonymous_auth s = true
  else 0 <= uid < 2 ^ 32 /\ uid_is_valid uid = true /\
       (anonymous_auth s = true \/ ucred_valid s = true /\ ucred_uid s = uid).

Definition mechanism (c : connection) : bus_auth :=
  if anonymous_auth c then BUS_AUTH_ANONYMOUS else BUS_AUTH_EXTERNAL.

Definition answer (t : cstr) (b : connection) : connection :=
  set_auth_index 0 (set_auth_iovec (alter (fun i => i ++ t) 0%nat (auth_iovec b)) b).

Lemma write_run t w :
  (auth_index (conn w) <= 1)%nat ->
  bus_socket_auth_write t w = (Ok tt, World (answer t (conn w)) (kern w)).
Proof.
  intros H. unfold bus_socket_auth_write. rewrite (stm_bind_run bget _ w _ _ eq_refl).
  by rewrite bool_decide_eq_true_2.
Qed.

Lemma mechanism_run m w :
  (auth_index (conn w) <= 1)%nat ->
  auth_mechanism (Ok true) m w =
  (Ok tt, World (answer (bs "OK " ++ hexmem (server_id (conn w)) ++ crlf) (set_auth m (conn w))) (kern w)).
Proof.
  intros H. unfold auth_mechanism. rewrite (stm_bind_run (slift (Ok true)) _ w true w eq_refl).
  erewrite stm_bind_run by reflexivity. unfold bus_socket_auth_write_ok.
  erewrite stm_bind_run by reflexivity. by rewrite write_run.
Qed.

Lemma auth_command_run s c uid n :
  admits (conn s) c uid -> (auth_index (conn s) <= 1)%nat ->
  auth_line (auth_prefix c ++ auth_token c uid) n s =
  (Ok None, World (answer (bs "OK " ++ hexmem (server_id (conn s)) ++ crlf)
                     (set_auth (mechanism c) (conn s))) (kern s)).
Proof.
  intros Ha Hi. unfold auth_line. rewrite (stm_bind_run bget _ s _ _ eq_refl). cbv zeta.
  unfold admits, auth_prefix, auth_token, mechanism in *. destruct (anonymous_auth c).
  - change (line_begins _ (bs "AUTH ANONYMOUS")) with true. cbn beta iota.
    change (drop 14 _) with (ch " " :: hexmem (bs "anonymous")).
    assert (verify_anonymous_token (conn s) (ch " " :: hexmem (bs "anonymous")) = Ok true) as ->.
    { unfold verify_anonymous_token. rewrite Ha. by vm_compute. }
    erewrite stm_bind_run; [done|]. by apply mechanism_run.
  - set (t := hexmem (dec uid)). destruct Ha as (Hu & Hv & Ha).
    change (line_begins _ (bs "AUTH ANONYMOUS")) with false.
    change (line_begins _ (bs "AUTH EXTERNAL")) with true. cbn beta iota.
    change (drop 13 _) with (ch " " :: t).
    assert (verify_external_token (conn s) (ch " " :: t) = Ok true) as ->.
    { unfold verify_external_token.
      assert (negb (anonymous_auth (conn s)) && negb (ucred_valid (conn s)) = false) as ->.
      { destruct Ha as [-> | [-> _]]; [done|]. by rewrite andb_false_r. }
      cbn [bool_decide decide]. rewrite bool_decide_eq_false_2 by done.
      pose proof (dec_cstr uid ltac:(lia)) as Hd. unfold t.
      rewrite token_hexmem.
      - cbn [mbind res_bind]. rewrite parse_uid_dec by done. f_equal.
        destruct Ha as [-> | [_ ->]]; [done|]. by rewrite Z.eqb_refl, orb_true_r.
      - eapply Forall_impl; [exact Hd|]. unfold is_byte. simpl. lia.
      - apply in_set_false. intros H0. unfold is_cstr in Hd. rewrite Forall_forall in Hd. specialize (Hd _ H0). simpl in Hd. lia. }
    erewrite stm_bind_run; [done|]. by apply mechanism_run.
Qed.

Lemma negotiate_run s n :
  auth (conn s) <> BUS_AUTH_INVALID -> (auth_index (conn s) <= 1)%nat ->
  auth_line (bs "NEGOTIATE_UNIX_FD") n s =
  (Ok None, World (if accept_fd (conn s)
                   then answer (bs "AGREE_UNIX_FD" ++ crlf) (set_can_fds true (conn s))
                   else answer (bs "ERROR" ++ crlf) (conn s)) (kern s)).
Proof.
  intros Ha Hi. unfold auth_line. rewrite (stm_bind_run bget _ s _ _ eq_refl).
  cbv zeta. set (line := bs "NEGOTIATE_UNIX_FD").
  change (line_begins line (bs "AUTH ANONYMOUS")) with false.
  change (line_begins line (bs "AUTH EXTERNAL")) with false.
  change (line_begins line (bs "AUTH")) with false.
  change (line_equals line (bs "CANCEL") || line_begins line (bs "ERROR")) with false.
  change (line_equals line (bs "BEGIN")) with false. change (line_begins line (bs "DATA")) with false.
  change (line_equals line line) with true. cbn beta iota.
  rewrite bool_decide_eq_false_2 by done. unfold reject.
  destruct (accept_fd (conn s)); cbn [orb negb].
  - erewrite stm_bind_run; [done|]. erewrite stm_bind_run by reflexivity. by rewrite write_run.
  - erewrite stm_bind_run; [done|]. by rewrite write_run.
Qed.

Lemma begin_run s n :
  auth (conn s) <> BUS_AUTH_INVALID ->
  auth_line (bs "BEGIN") n s =
  (if bus_socket_auth_needs_write (conn s) then (Ok (Some true), s)
   else (bmod (fun b => set_rbuffer (drop n (rbuffer b)) b);; bus_start_running;;
         mret (Some true)) s).
Proof.
  intros Ha. destruct (auth_line_cases (bs "BEGIN") n s) as [[Hb _]|[_ E]]; [|done].
  unfold begins in Hb. by rewrite bool_decide_eq_false_2 in Hb.
Qed.

(** One line of the loop. *)
Lemma loop_line fuel p line rest w o w1 :
  unread w = line ++ crlf ++ rest -> 13 ∉ line ->
  auth_line line (auth_rbegin (conn w) + length line + 2) w = (o, w1) ->
  server_loop (S fuel) p w =
  match o with
  | Ok (Some r) => (Ok r, w1)
  | Ok None => server_loop fuel true
      (World (set_auth_rbegin (auth_rbegin (conn w) + length line + 2) (conn w1)) (kern w1))
  | Err e => (Err e, w1)
  end.
Proof.
  intros Hu Hl Ha. rewrite server_loop_unfold, Hu, find_crlf_first by done. cbv zeta.
  rewrite take_app_length, Ha. by destruct o as [[?|]|?].
Qed.

Lemma unread_next w w1 line rest :
  unread w = line ++ crlf ++ rest -> rbuffer (conn w1) = rbuffer (conn w) ->
  unread (World (set_auth_rbegin (auth_rbegin (conn w) + length line + 2) (conn w1)) (kern w1)) = rest.
Proof.
  intros Hu Hr. unfold unread in *. cbn [conn].
  change (auth_rbegin (set_auth_rbegin ?x _)) with x. change (rbuffer (set_auth_rbegin _ ?b)) with (rbuffer b).
  rewrite Hr, <- Nat.add_assoc, <- drop_drop, Hu, app_assoc.
  replace (length line + 2)%nat with (length (line ++ crlf)) by (rewrite length_app; done).
  by rewrite drop_app_length.
Qed.

(** ** The handshake *)

(** A side before its first byte. *)
Record ready_side (b : connection) : Prop := ReadySide {
  rs_state : state b = BUS_AUTHENTICATING;
  rs_input : rbuffer b = [];
  rs_signal : connected_signal b = false;
  rs_fds : can_fds (bus b) = false }.

Record ready_server (b : connection) : Prop := ReadyServer {
  rv_side : ready_side b;
  rv_auth : auth b = BUS_AUTH_INVALID;
  rv_begin : auth_rbegin b = 0%nat;
  rv_iovec : auth_iovec b = [[]; []; []];
  rv_index : auth_index b = 0%nat }.

(** The server once all it had to say was written. *)
Definition flushed (w : world) : world :=
  World (set_auth_index 1 (set_auth_iovec [[]; []; []] (conn w))) (kern w).

(** The state a side is in after the phase. *)
Definition started (b : connection) : bus_state := if bus_client b then BUS_HELLO else BUS_RUNNING.

Lemma start_run w :
  before_hello (state (conn w)) = true -> connected_signal (conn w) = false ->
  exists w', bus_start_running w = (Ok tt, w') /\
    state (conn w') = started (conn w) /\ rbuffer (conn w') = rbuffer (conn w) /\
    can_fds (bus (conn w')) = can_fds (bus (conn w)) /\ server_id (conn w') = server_id (conn w).
Proof.
  intros Hs Hc. destruct (bus_start_running w) as [r w'] eqn:E. exists w'.
  destruct (start_running_state w r w' E Hs) as (H1 & H2 & _ & H3 & H4).
  split; [|done]. f_equal. unfold bus_start_running in E.
  rewrite (stm_bind_run bget _ w _ _ eq_refl), Hs in E.
  rewrite (stm_bind_run (sreq true EASSERT) _ w tt w eq_refl) in E.
  do 2 erewrite stm_bind_run in E by reflexivity. destruct (bus_client (conn w)); [by injection E as <- _|].
  erewrite stm_bind_run in E by reflexivity. unfold on_bus in E. rewrite synthesize_run in E.
  change (connected_signal (conn ?x)) with (connected_signal (conn w)) in E. rewrite Hc in E.
  by injection E as <- _.
Qed.

(** What the server answers to the client's lines. *)
Definition server_answer (s c : connection) : list Z :=
  bs "OK " ++ hexmem (server_id s) ++ crlf ++
  (if accept_fd c then (if accept_fd s then bs "AGREE_UNIX_FD" else bs "ERROR") ++ crlf else []).

(** The server waits for its answers to be written, BEGIN read but not passed. *)
Record waiting (s c : connection) (w : world) : Prop := Waiting {
  wt_state : state (conn w) = BUS_AUTHENTICATING;
  wt_buffer : exists line, rbuffer (conn w) = 0 :: line /\ (3 <= length (0%Z :: line))%nat;
  wt_rbegin : auth_rbegin (conn w) <> 0%nat;
  wt_unread : unread w = bs "BEGIN" ++ crlf;
  wt_auth : auth (conn w) <> BUS_AUTH_INVALID;
  wt_iovec : auth_iovec (conn w) = [server_answer s c; []; []];
  wt_index : auth_index (conn w) = 0%nat;
  wt_fds : can_fds (bus (conn w)) = accept_fd c && accept_fd s;
  wt_id : server_id (conn w) = server_id s;
  wt_signal : connected_signal (conn w) = false;
  wt_client : bus_client (conn w) = bus_client s }.

Lemma verify_server_run w line :
  rbuffer (conn w) = 0 :: line -> (3 <= length (0%Z :: line))%nat ->
  bus_socket_auth_verify_server w =
  server_loop (length (rbuffer (conn w)) + 1) false
    (if bool_decide (auth_rbegin (conn w) = 0)%nat
     then World (set_auth_rbegin 1 (conn w)) (kern w) else w).
Proof.
  intros Hr Hl. unfold bus_socket_auth_verify_server. rewrite (stm_bind_run bget _ w _ _ eq_refl).
  rewrite Hr. rewrite bool_decide_eq_false_2 by lia. cbn [deref].
  rewrite (stm_bind_run (sreq (0 =? 0) EIO) _ w tt w eq_refl). rewrite bool_decide_eq_false_2 by lia.
  rewrite <- Hr. case_bool_decide; by erewrite stm_bind_run by reflexivity.
Qed.

Ltac no_cr := apply (bool_decide_unpack _); vm_compute; exact I.

Lemma begin_blocked fuel p w s c : waiting s c w -> server_loop (S fuel) p w = (Ok true, w).
Proof.
  intros W. assert (Hn : bus_socket_auth_needs_write (conn w) = true).
  { unfold bus_socket_auth_needs_write. by rewrite (wt_iovec _ _ _ W), (wt_index _ _ _ W). }
  rewrite (loop_line fuel p (bs "BEGIN") [] w (Ok (Some true)) w); [done| | |].
  - by rewrite (wt_unread _ _ _ W).
  - no_cr.
  - rewrite begin_run by apply W. by rewrite Hn.
Qed.

Lemma prefix_chars c uid :
  13 ∉ auth_prefix c ++ auth_token c uid.
Proof.
  intros [H|H]%elem_of_app; [|by apply hexmem_chars in H].
  revert H. unfold auth_prefix. case_match; no_cr.
Qed.

(** The server after it has answered AUTH; [rest] is what it has yet to read. *)
Record after_ok (s : connection) (rest : list Z) (w : world) : Prop := AfterOk {
  ao_state : state (conn w) = BUS_AUTHENTICATING;
  ao_buffer : exists line, rbuffer (conn w) = 0 :: line /\ (3 <= length (0%Z :: line))%nat;
  ao_unread : unread w = rest;
  ao_auth : auth (conn w) <> BUS_AUTH_INVALID;
  ao_iovec : auth_iovec (conn w) = [bs "OK " ++ hexmem (server_id s) ++ crlf; []; []];
  ao_index : auth_index (conn w) = 0%nat;
  ao_rbegin : auth_rbegin (conn w) <> 0%nat;
  ao_fds : can_fds (bus (conn w)) = false;
  ao_accept : accept_fd (conn w) = accept_fd s;
  ao_id : server_id (conn w) = server_id s;
  ao_signal : connected_signal (conn w) = false;
  ao_client : bus_client (conn w) = bus_client s }.

Lemma after_ok_waiting s c w :
  accept_fd c = false -> after_ok s (bs "BEGIN" ++ crlf) w -> waiting s c w.
Proof.
  intros Ec A. constructor; try apply A.
  - rewrite (ao_iovec _ _ _ A). unfold server_answer. by rewrite Ec, app_nil_r.
  - rewrite (ao_fds _ _ _ A). by rewrite Ec.
Qed.

Lemma negotiate_step s c fuel p w :
  accept_fd c = true -> after_ok s (bs "NEGOTIATE_UNIX_FD" ++ crlf ++ bs "BEGIN" ++ crlf) w ->
  exists w', server_loop (S fuel) p w = server_loop fuel true w' /\ waiting s c w' /\ kern w' = kern w.
Proof.
  intros Ec A. set (line := bs "NEGOTIATE_UNIX_FD").
  pose proof (negotiate_run w (auth_rbegin (conn w) + length line + 2) (ao_auth _ _ _ A)
    ltac:(rewrite (ao_index _ _ _ A); lia)) as Hneg. fold line in Hneg.
  rewrite (ao_accept _ _ _ A) in Hneg. set (b := if accept_fd s then _ else _) in Hneg.
  assert (Hb : rbuffer b = rbuffer (conn w)) by (unfold b; by destruct (accept_fd s)).
  eexists. split.
  { exact (loop_line fuel p line _ w _ _ (ao_unread _ _ _ A) ltac:(no_cr) Hneg). }
  split; [|done]. pose proof (unread_next w (World b (kern w)) line _ (ao_unread _ _ _ A) Hb) as Hu.
  cbn [conn kern] in Hu |- *. set (n := (auth_rbegin (conn w) + length line + 2)%nat) in *.
  constructor; cbn [conn].
  - change (state (set_auth_rbegin n b)) with (state b). rewrite <- (ao_state _ _ _ A).
    unfold b. by destruct (accept_fd s).
  - change (rbuffer (set_auth_rbegin n b)) with (rbuffer b). rewrite Hb. apply A.
  - change (auth_rbegin (set_auth_rbegin n b)) with n. unfold n. lia.
  - exact Hu.
  - change (auth (set_auth_rbegin n b)) with (auth b).
    assert (auth b = auth (conn w)) as -> by (unfold b; by destruct (accept_fd s)). apply A.
  - change (auth_iovec (set_auth_rbegin n b)) with (auth_iovec b).
    assert (auth_iovec b = alter (fun i => i ++ (if accept_fd s then bs "AGREE_UNIX_FD" else bs "ERROR") ++ crlf)
      0%nat (auth_iovec (conn w))) as -> by (unfold b; by destruct (accept_fd s)).
    rewrite (ao_iovec _ _ _ A). unfold server_answer. rewrite Ec. cbn [alter list_alter].
    by rewrite <- !app_assoc.
  - change (auth_index (set_auth_rbegin n b)) with (auth_index b). unfold b. by destruct (accept_fd s).
  - change (bus (set_auth_rbegin n b)) with (bus b). rewrite Ec. unfold b.
    destruct (accept_fd s); [done|]. exact (ao_fds _ _ _ A).
  - change (server_id (set_auth_rbegin n b)) with (server_id b). rewrite <- (ao_id _ _ _ A).
    unfold b. by destruct (accept_fd s).
  - change (connected_signal (set_auth_rbegin n b)) with (connected_signal b).
    rewrite <- (ao_signal _ _ _ A). unfold b. by destruct (accept_fd s).
  - change (bus_client (set_auth_rbegin n b)) with (bus_client b).
    rewrite <- (ao_client _ _ _ A). unfold b. by destruct (accept_fd s).
Qed.

Lemma auth_step s c uid fuel p w rest :
  ready_server s -> admits s c uid ->
  conn w = set_auth_rbegin 1 (set_rbuffer (0 :: ((auth_prefix c ++ auth_token c uid) ++ crlf ++ rest)) s) ->
  exists w', server_loop (S fuel) p w = server_loop fuel true w' /\ after_ok s rest w' /\ kern w' = kern w.
Proof.
  intros [[R1 R2 R3 R4] R5 R6 R7 R8] Ha Hw. set (line := auth_prefix c ++ auth_token c uid) in *.
  pose proof (auth_command_run w c uid (auth_rbegin (conn w) + length line + 2)) as Hcmd.
  specialize (Hcmd ltac:(by rewrite Hw) ltac:(rewrite Hw; change (auth_index _) with (auth_index s); lia)).
  fold line in Hcmd. set (b := answer _ _) in Hcmd.
  assert (Hu : unread w = line ++ crlf ++ rest) by (unfold unread; by rewrite Hw).
  assert (Hb : rbuffer b = rbuffer (conn w)) by done.
  eexists. split.
  { exact (loop_line fuel p line _ w _ _ Hu (prefix_chars c uid) Hcmd). }
  split; [|done]. pose proof (unread_next w (World b (kern w)) line _ Hu Hb) as Hu2.
  cbn [conn kern] in Hu2 |- *. set (n := (auth_rbegin (conn w) + length line + 2)%nat) in *.
  constructor; cbn [conn].
  - change (state (set_auth_rbegin n b)) with (state (conn w)). by rewrite Hw.
  - change (rbuffer (set_auth_rbegin n b)) with (rbuffer (conn w)). rewrite Hw. eexists. split; [done|].
    cbn [length]. rewrite !length_app. simpl. lia.
  - exact Hu2.
  - change (auth (set_auth_rbegin n b)) with (mechanism c). unfold mechanism. by case_match.
  - change (auth_iovec (set_auth_rbegin n b)) with
      (alter (fun i => i ++ bs "OK " ++ hexmem (server_id (conn w)) ++ crlf) 0%nat (auth_iovec (conn w))).
    rewrite Hw. change (auth_iovec (set_auth_rbegin _ _)) with (auth_iovec s). by rewrite R7.
  - done.
  - change (auth_rbegin (set_auth_rbegin n b)) with n. unfold n. lia.
  - change (bus (set_auth_rbegin n b)) with (bus (conn w)). by rewrite Hw.
  - change (accept_fd (set_auth_rbegin n b)) with (accept_fd (conn w)). by rewrite Hw.
  - change (server_id (set_auth_rbegin n b)) with (server_id (conn w)). by rewrite Hw.
  - change (connected_signal (set_auth_rbegin n b)) with (connected_signal (conn w)). by rewrite Hw.
  - change (bus_client (set_auth_rbegin n b)) with (bus_client (conn w)). by rewrite Hw.
Qed.

Lemma server_first s c uid :
  ready_server (conn s) -> admits (conn s) c uid ->
  exists s1, bus_socket_auth_verify_server (feed (client_bytes c uid) s) = (Ok true, s1) /\
    waiting (conn s) c s1 /\ kern s1 = kern s.
Proof.
  intros R Ha. set (v := feed (client_bytes c uid) s).
  set (rest := (if accept_fd c then bs "NEGOTIATE_UNIX_FD" ++ crlf else []) ++ bs "BEGIN" ++ crlf).
  set (line := auth_prefix c ++ auth_token c uid).
  assert (Hcv : conn v = set_rbuffer (0 :: (line ++ crlf ++ rest)) (conn s)).
  { unfold v, feed, ext. cbn [conn]. rewrite (rs_input _ (rv_side _ R)). f_equal.
    unfold client_bytes, line, rest, auth_suffix. cbn [app]. rewrite <- !app_assoc.
    by destruct (accept_fd c). }
  assert (Hv : rbuffer (conn v) = 0 :: (line ++ crlf ++ rest)) by (by rewrite Hcv).
  assert (Hlen : (6 <= length (0%Z :: (line ++ crlf ++ rest)))%nat).
  { cbn [length]. rewrite !length_app. unfold rest. rewrite length_app. simpl. lia. }
  rewrite (verify_server_run v _ Hv) by lia.
  rewrite bool_decide_eq_true_2 by (rewrite Hcv; exact (rv_begin _ R)).
  rewrite Hv. replace (length _ + 1)%nat with (S (S (S (length (0%Z :: (line ++ crlf ++ rest)) - 2)))) by lia.
  set (k := (length (0%Z :: (line ++ crlf ++ rest)) - 2)%nat).
  destruct (auth_step (conn s) c uid (S (S k)) false (World (set_auth_rbegin 1 (conn v)) (kern v)) rest R Ha)
    as (w & -> & A & Hk); [cbn [conn]; by rewrite Hcv|]. change (kern s) with (kern v). cbn [kern] in Hk.
  unfold rest in A. destruct (accept_fd c) eqn:Ec.
  - rewrite <- app_assoc in A. destruct (negotiate_step _ c (S k) true w Ec A) as (w' & -> & W & Hk').
    exists w'. split; [by apply (begin_blocked _ _ _ (conn s) c)|]. split; [done|congruence].
  - assert (W : waiting (conn s) c w) by (by apply after_ok_waiting).
    exists w. split; [by apply (begin_blocked _ _ _ (conn s) c)|]. done.
Qed.

Lemma server_second s c w :
  waiting s c w ->
  exists w', bus_socket_auth_verify_server (flushed w) = (Ok true, w') /\
    state (conn w') = started s /\ rbuffer (conn w') = [] /\
    can_fds (bus (conn w')) = accept_fd c && accept_fd s /\ server_id (conn w') = server_id s.
Proof.
  intros W. set (v := flushed w). destruct (wt_buffer _ _ _ W) as (line & Hr & Hl).
  rewrite (verify_server_run v line Hr Hl). change (auth_rbegin (conn v)) with (auth_rbegin (conn w)).
  rewrite bool_decide_eq_false_2 by apply W. rewrite Nat.add_1_r.
  set (n := (auth_rbegin (conn w) + length (bs "BEGIN") + 2)%nat).
  pose proof (begin_run v n (wt_auth _ _ _ W)) as Hbeg. change (bus_socket_auth_needs_write (conn v)) with false in Hbeg.
  cbn beta iota in Hbeg. erewrite stm_bind_run in Hbeg by reflexivity.
  set (v1 := World (set_rbuffer (drop n (rbuffer (conn v))) (conn v)) (kern v)) in Hbeg.
  destruct (start_run v1) as (w' & E & H1 & H2 & H3 & H4).
  { change (state (conn v1)) with (state (conn w)). by rewrite (wt_state _ _ _ W). }
  { exact (wt_signal _ _ _ W). }
  erewrite stm_bind_run in Hbeg by exact E. exists w'. split.
  { apply (loop_line _ false (bs "BEGIN") [] v (Ok (Some true)) w'); [exact (wt_unread _ _ _ W)|no_cr|exact Hbeg]. }
  split; [|split; [|split]].
  - rewrite H1. unfold started. change (bus_client (conn v1)) with (bus_client (conn w)). by rewrite (wt_client _ _ _ W).
  - rewrite H2. change (rbuffer (conn v1)) with (drop n (rbuffer (conn w))).
    pose proof (wt_unread _ _ _ W) as Hu. unfold unread in Hu. unfold n.
    by rewrite <- Nat.add_assoc, <- drop_drop, Hu.
  - rewrite H3. exact (wt_fds _ _ _ W).
  - rewrite H4. exact (wt_id _ _ _ W).
Qed.

Lemma parse_peer_hexmem id r :
  Forall is_byte id -> parse_peer (length id) (hexmem id ++ r) = Ok id.
Proof.
  induction 1 as [|x id Hx _ IH]; [done|]. cbn [hexmem length parse_peer app].
  unfold char_at. cbn [drop deref]. rewrite !unhexchar_hexchar. cbn beta iota. change (drop 0 ?l) with l.
  rewrite IH. cbn [mbind res_bind]. do 2 f_equal. unfold is_byte in Hx.
  change 15 with (Z.ones 4). rewrite Z.land_ones, Z.shiftr_div_pow2 by lia. change (2 ^ 4) with 16.
  pose proof (Z.mod_pos_bound x 16 ltac:(lia)). pose proof (Z.div_mod x 16 ltac:(lia)).
  assert (0 <= x / 16 < 16) by (split; [apply Z.div_pos; lia|apply Z.div_lt_upper_bound; lia]).
  rewrite (Z.mod_small (x / 16)), Z.mod_mod by lia.
  rewrite (proj2 (nibbles_byte8 (x / 16) (x mod 16) ltac:(lia) ltac:(lia))). lia.
Qed.

Lemma client_run s c :
  ready_side (conn c) -> Forall is_byte (server_id s) -> length (server_id s) = 16%nat ->
  (server_id (conn c) = SD_ID128_NULL \/ server_id (conn c) = server_id s) ->
  exists c1, bus_socket_auth_verify_client (feed (server_answer s (conn c)) c) = (Ok true, c1) /\
    state (conn c1) = started (conn c) /\ rbuffer (conn c1) = [] /\
    can_fds (bus (conn c1)) = accept_fd (conn c) && accept_fd s /\ server_id (conn c1) = server_id s.
Proof.
  intros [R1 R2 R3 R4] Hb Hl Hid. set (v := feed (server_answer s (conn c)) c).
  unfold bus_socket_auth_verify_client. rewrite (stm_bind_run bget _ v _ _ eq_refl). cbv zeta.
  set (line := bs "OK " ++ hexmem (server_id s)).
  set (second := if accept_fd (conn c) then (if accept_fd s then bs "AGREE_UNIX_FD" else bs "ERROR") ++ crlf else []).
  assert (Hv : rbuffer (conn v) = line ++ crlf ++ second).
  { unfold v, feed, ext. cbn [conn]. change (rbuffer (set_rbuffer ?x _)) with x. rewrite R2.
    unfold server_answer, line. cbn [app]. by rewrite <- !app_assoc. }
  assert (Hll : length line = 35%nat).
  { unfold line. rewrite length_app, hexmem_length, Hl. done. }
  rewrite Hv, find_crlf_first.
  2: { unfold line. intros [H|H]%elem_of_app; [revert H; no_cr|by apply hexmem_chars in H]. }
  assert (Hd : drop (length line + 2) (line ++ crlf ++ second) = second).
  { rewrite app_assoc. replace (length line + 2)%nat with (length (line ++ crlf)) by (rewrite length_app; done).
    by rewrite drop_app_length. }
  rewrite Hd. change (accept_fd (conn v)) with (accept_fd (conn c)).
  set (agreed := if accept_fd s then bs "AGREE_UNIX_FD" else bs "ERROR") in *.
  assert (Hf : (if accept_fd (conn c) then Some <$> find_crlf second else Some None) =
               Some (if accept_fd (conn c) then Some (length agreed) else None)).
  { unfold second. destruct (accept_fd (conn c)); [|done].
    rewrite <- (app_nil_r crlf), find_crlf_first; [done|].
    unfold agreed. case_match; no_cr. }
  rewrite Hf, Hll, (bool_decide_eq_true_2 (35%nat = (3 + 32)%nat)) by done.
  rewrite (stm_bind_run (sreq true EPERM) _ v tt v eq_refl).
  change (take 3 (line ++ crlf ++ second)) with (bs "OK "). rewrite streq_refl.
  rewrite (stm_bind_run (sreq true EPERM) _ v tt v eq_refl).
  erewrite stm_bind_run by reflexivity.
  assert (parse_peer 16 (drop 3 (line ++ crlf ++ second)) = Ok (server_id s)) as ->.
  { change (drop 3 (line ++ crlf ++ second)) with (hexmem (server_id s) ++ crlf ++ second). rewrite <- Hl.
    by apply parse_peer_hexmem. }
  erewrite stm_bind_run by reflexivity. change (server_id (conn v)) with (server_id (conn c)).
  rewrite (proj2 (orb_true_iff _ _)).
  2: { destruct Hid as [-> | ->]; [left|right]; by apply bool_decide_eq_true. }
  erewrite stm_bind_run by reflexivity. erewrite stm_bind_run by reflexivity. cbn [conn kern].
  set (b1 := set_server_id (server_id s) _).
  assert (Hstep : exists b2,
    (match (if accept_fd (conn c) then Some (length agreed) else None) with
     | Some f => bmod (set_can_fds (streq (take f second) (bs "AGREE_UNIX_FD")));;
                 bmod (set_rbuffer (drop (f + 2) second))
     | None => bmod (set_rbuffer second)
     end : stm world unit) (World b1 (kern v)) = (Ok tt, World b2 (kern v)) /\
    state b2 = BUS_AUTHENTICATING /\ rbuffer b2 = [] /\ connected_signal b2 = false /\
    bus_client b2 = bus_client (conn c) /\ server_id b2 = server_id s /\
    can_fds (bus b2) = accept_fd (conn c) && accept_fd s).
  { destruct (accept_fd (conn c)) eqn:Ea.
    - eexists. split; [reflexivity|]. split; [exact R1|].
      assert (second = agreed ++ crlf) as E by done. rewrite E, take_app_length, drop_app_ge by lia.
      replace (length agreed + 2 - length agreed)%nat with 2%nat by lia.
      split; [done|]. split; [exact R3|]. split; [done|]. split; [done|]. unfold agreed.
      by destruct (accept_fd s).
    - eexists. split; [reflexivity|]. split; [exact R1|]. split; [done|]. split; [exact R3|].
      split; [done|]. split; [done|]. exact R4. }
  destruct Hstep as (b2 & E2 & S1 & S2 & S3 & S4 & S5 & S6). erewrite stm_bind_run by exact E2.
  destruct (start_run (World b2 (kern v))) as (c1 & E & H1 & H2 & H3 & H4); [cbn [conn]; by rewrite S1|done|].
  cbn [conn] in H1, H2, H3, H4. erewrite stm_bind_run by exact E. exists c1. split; [done|].
  rewrite H1, H2, H3, H4. unfold started. by rewrite S4.
Qed.

(** C23. The handshake: a fresh server given what an admissible client sends
    answers it, and once the answers are written ends the phase; the client,
    given these answers, ends it too; both sides then agree on the server's id
    and on whether descriptors may be passed, which is when both accept them,
    and no byte is left over. [server_incremental] and [write_auth_stream]
    extend this to input and output in pieces. *)
Theorem handshake_agrees s c uid :
  ready_server (conn s) -> ready_side (conn c) -> admits (conn s) (conn c) uid ->
  Forall is_byte (server_id (conn s)) -> length (server_id (conn s)) = 16%nat ->
  (server_id (conn c) = SD_ID128_NULL \/ server_id (conn c) = server_id (conn s)) ->
  exists s1 s2 c1,
    bus_socket_auth_verify_server (feed (client_bytes (conn c) uid) s) = (Ok true, s1) /\
    state (conn s1) = BUS_AUTHENTICATING /\
    bus_socket_auth_verify_server (flushed s1) = (Ok true, s2) /\
    bus_socket_auth_verify_client (feed (concat (auth_iovec (conn s1))) c) = (Ok true, c1) /\
    state (conn s2) = started (conn s) /\ state (conn c1) = started (conn c) /\
    can_fds (bus (conn s2)) = accept_fd (conn c) && accept_fd (conn s) /\
    can_fds (bus (conn c1)) = can_fds (bus (conn s2)) /\
    server_id (conn c1) = server_id (conn s) /\ rbuffer (conn s2) = [] /\ rbuffer (conn c1) = [].
Proof.
  intros Rs Rc Ha Hb Hl Hid. destruct (server_first s (conn c) uid Rs Ha) as (s1 & E1 & W & _).
  destruct (server_second _ _ _ W) as (s2 & E2 & A1 & A2 & A3 & A4).
  destruct (client_run (conn s) c Rc Hb Hl Hid) as (c1 & E3 & B1 & B2 & B3 & B4).
  exists s1, s2, c1. split; [done|]. split; [apply W|]. split; [done|]. split.
  { rewrite (wt_iovec _ _ _ W). cbn [concat]. by rewrite !app_nil_r. }
  by rewrite A3, B3.
Qed.

(** ** A server and a client of this library *)
Definition sample_kernel : kernel :=
  Kernel [] [] [] [] [] 1000 [] 1000 (fun _ => true) (Some 1000) None [] [].

Definition server_guid : list Z := Eval cbv in map Z.of_nat (seq 17 16).

(** A server that knows its client's credentials, not started yet. *)
Definition sample_server : world :=
  World (set_ucred_valid true (set_ucred_uid 1000 (set_server_id server_guid (set_is_server true
          (set_state BUS_AUTHENTICATING sd_bus_new))))) sample_kernel.

Definition sample_client : world :=
  World (set_bus_client true (set_state BUS_AUTHENTICATING sd_bus_new)) sample_kernel.

Lemma sample_ready_server : ready_server (conn sample_server).
Proof. by constructor. Qed.

Lemma sample_ready_client : ready_side (conn sample_client).
Proof. by constructor. Qed.

Lemma sample_admits : admits (conn sample_server) (conn sample_client) 1000.
Proof. split; [lia|]. split; [done|]. by right. Qed.

Lemma server_guid_bytes : Forall is_byte server_guid.
Proof. repeat (constructor; [unfold is_byte; lia|]). constructor. Qed.

Lemma handshake_agrees_witness :
  exists s1 s2 c1,
    bus_socket_auth_verify_server (feed (client_bytes (conn sample_client) 1000) sample_server) = (Ok true, s1) /\
    bus_socket_auth_verify_server (flushed s1) = (Ok true, s2) /\
    bus_socket_auth_verify_client (feed (concat (auth_iovec (conn s1))) sample_client) = (Ok true, c1) /\
    state (conn s2) = BUS_RUNNING /\ state (conn c1) = BUS_HELLO /\ can_fds (bus (conn c1)) = true.
Proof.
  destruct (handshake_agrees sample_server sample_client 1000 sample_ready_server sample_ready_client
              sample_admits server_guid_bytes eq_refl (or_introl eq_refl))
    as (s1 & s2 & c1 & E1 & _ & E2 & E3 & A1 & A2 & A3 & A4 & _).
  exists s1, s2, c1. split; [exact E1|]. split; [exact E2|]. split; [exact E3|].
  split; [exact A1|]. split; [exact A2|]. by rewrite A4, A3.
Defined.

(** The first part of what the client sends, cut in the middle of a line. *)
Definition first_part : list Z := Eval vm_compute in take 30 (client_bytes (conn sample_client) 1000).
Definition second_part : list Z := Eval vm_compute in drop 30 (client_bytes (conn sample_client) 1000).

Lemma server_incremental_witness :
  agree (bus_socket_auth_verify_server (feed (first_part ++ second_part) sample_server))
        (bus_socket_auth_verify_server
          (feed second_part (snd (bus_socket_auth_verify_server (feed first_part sample_server))))).
Proof.
  apply (server_incremental sample_server first_part second_part true).
  - reflexivity.
  - apply Nat.leb_le. reflexivity.
  - by vm_compute.
  - by vm_compute.
Defined.

Lemma server_authenticates_witness :
  granted first_part (conn (snd (bus_socket_auth_verify_server (feed first_part sample_server)))) /\
  auth (conn (snd (bus_socket_auth_verify_server (feed first_part sample_server)))) = BUS_AUTH_EXTERNAL.
Proof.
  split; [|by vm_compute].
  refine (proj1 (server_authenticates (feed first_part sample_server) _ _ _ _ (surjective_pairing _))).
  - reflexivity.
  - vm_compute. done.
Defined.

(** The server's answers, and a socket that takes five bytes. *)
Definition slow_server : world :=
  let w := snd (bus_socket_auth_verify_server (feed first_part sample_server)) in
  World (conn w)
    (Kernel [Ok 5] [] [] [] [] 1000 [] 1000 (fun _ => true) (Some 1000) None [] []).

Lemma write_auth_stream_witness :
  sent (kern (snd (bus_socket_write_auth slow_server))) ++
    auth_output (conn (snd (bus_socket_write_auth slow_server))) =
  bs "OK 1112131415161718191a1b1c1d1e1f20" ++ crlf /\
  sent (kern (snd (bus_socket_write_auth slow_server))) = bs "OK 11".
Proof.
  destruct (write_auth_stream slow_server _ _ ltac:(reflexivity)
              ltac:(apply (bool_decide_unpack _); vm_compute; exact I) (surjective_pairing _)) as [H _].
  split; [exact H|]. by vm_compute.
Defined.
