(* ===== verification/Transport.v ===== *)
(** * Messages over a socket ([bus-socket.c], [sd-bus.c])

    Writing messages in pieces, with the queue of messages that wait to be
    written; cutting the incoming bytes into messages and queueing them; sealing,
    converting and sending a message. The code for Linux is modelled. *)
From S2P Require Import Prelude BusType MsgState MsgFields MsgParse MsgCopy Bus Sasl.

(** ** Writing *)

(** [bus_message_setup_iovec] with [append_iovec]; mapping a part cannot fail
    without memfds. *)
Definition message_head (m : message) : list Z :=
  header_bytes (hdr m) ++ fields m ++ zeros (Z.to_nat (ALIGN8 (fields_size m) - fields_size m)).

Definition append_iovec (iov : list (list Z)) (p : list Z) : res (list (list Z)) :=
  _ ← require (negb (bool_decide (p = []))) EASSERT;
  Ok (iov ++ [p]).

Definition bus_message_setup_iovec (m : message) : res (list (list Z)) :=
  _ ← require (sealed m) EASSERT;
  iov ← append_iovec [] (message_head m);
  foldl (fun iov p => iov ← iov; append_iovec iov (part_data p)) (Ok iov) (parts m).

Definition is_connected (s : bus_state) : bool :=
  match s with BUS_RUNNING | BUS_HELLO => true | _ => false end.

(** [idx] is how much of [m] was written before; the result is how much is now,
    when something was. *)
Definition bus_socket_write_message (m : message) (idx : Z) : stm world (option Z) :=
  b ← bget;
  sreq (is_connected (state b)) EASSERT;;
  if BUS_MESSAGE_SIZE m <=? idx then mret None
  else
    iov ← slift (bus_message_setup_iovec m);
    '(iov, _) ← slift (iovec_advance (length iov) iov 0 idx);
    k ← unless_again (sendmsg (concat iov) (if idx =? 0 then fds m else []));
    mret ((fun k => idx + k) <$> k).

Definition bus_write_message : message -> Z -> stm world (option Z) := bus_socket_write_message.

(** The loop ends when the socket takes no more; each round uses one of its answers. *)
Fixpoint wqueue_loop (fuel : nat) (ret : bool) : stm world bool :=
  b ← bget;
  match wqueue b with
  | [] => mret ret
  | m :: q =>
      match fuel with
      | O => sfail EASSERT
      | S fuel =>
          r ← bus_write_message m (windex b);
          match r with
          | None => mret ret
          | Some idx =>
              if BUS_MESSAGE_SIZE m <=? idx then
                bmod (fun b => set_windex 0 (set_wqueue q b));; wqueue_loop fuel true
              else bmod (set_windex idx);; wqueue_loop fuel ret
          end
      end
  end.

Definition dispatch_wqueue : stm world bool :=
  b ← bget;
  sreq (is_connected (state b)) EASSERT;;
  k ← kget;
  wqueue_loop (S (length (sends k))) false.

(** ** Reading *)
Definition BUS_MESSAGE_SIZE_MAX : Z := 128 * 1024 * 1024.

(** A 32-bit word of the header [h], in the byte order it announces *)
Definition header_word (h : list Z) (i : nat) : Z :=
  let v := le_val (take 4 (drop i h)) in
  if deref h =? BUS_BIG_ENDIAN then bswap 4 v else v.

(** The length a header announces; [h] has 16 bytes at least. *)
Definition announced_size (h : list Z) : res Z :=
  _ ← require (in_set (deref h) [BUS_LITTLE_ENDIAN; BUS_BIG_ENDIAN]) EBADMSG;
  let sum := BUS_HEADER_SIZE + ALIGN8 (header_word h 12) + header_word h 4 in
  _ ← require (sum <? BUS_MESSAGE_SIZE_MAX) ENOBUFS;
  Ok sum.

Definition bus_socket_read_message_need : stm world Z :=
  b ← bget;
  sreq (is_connected (state b)) EASSERT;;
  if zlen (rbuffer b) <? BUS_HEADER_SIZE then mret (BUS_HEADER_SIZE + 8)
  else slift (announced_size (rbuffer b)).

Definition bus_socket_make_message (size : Z) : stm world unit :=
  b ← bget;
  sreq (size <=? zlen (rbuffer b)) EASSERT;;
  sreq (is_connected (state b)) EASSERT;;
  on_bus bus_rqueue_make_room;;
  t ← slift (bus_message_from_malloc (take (Z.to_nat size) (rbuffer b)) (bus_fds b));
  bmod (fun b => set_rqueue (rqueue b ++ [t])
    (set_bus_fds [] (set_rbuffer (drop (Z.to_nat size) (rbuffer b)) b))).

(** Extracting all complete messages from the buffer: how many bytes are needed
    then, and whether there was a message. Each takes 16 bytes or more. *)
Fixpoint make_loop (fuel : nat) (made : bool) : stm world (Z * bool) :=
  need ← bus_socket_read_message_need;
  b ← bget;
  if need <=? zlen (rbuffer b) then
    match fuel with
    | O => sfail EASSERT
    | S fuel => bus_socket_make_message need;; make_loop fuel true
    end
  else mret (need, made).

Definition make_messages : stm world (Z * bool) :=
  b ← bget;
  make_loop (length (rbuffer b)) false.

(** Control messages: descriptors are collected. *)
Fixpoint read_control (l : list cmsg) : stm world unit :=
  match l with
  | [] => mret tt
  | ScmRights f :: l =>
      b ← bget;
      sreq (can_fds (bus b)) EIO;;
      bmod (fun b => set_bus_fds (bus_fds b ++ f) b);;
      read_control l
  | _ :: l => read_control l
  end.

Definition bus_socket_read_message : stm world bool :=
  b ← bget;
  sreq (is_connected (state b)) EASSERT;;
  '(need, made) ← make_messages;
  if made : bool then mret true
  else
    b ← bget;
    r ← unless_again (recvmsg (need - zlen (rbuffer b)));
    match r with
    | None => mret false
    | Some (data, control) =>
        sreq (negb (bool_decide (data = []))) ECONNRESET;;
        bmod (fun b => set_rbuffer (rbuffer b ++ data) b);;
        read_control control;;
        make_messages;;
        mret true
    end.

Definition bus_read_message : stm world bool := bus_socket_read_message.

(** The next message, if there is one; without one, whether anything was read. *)
Fixpoint rqueue_loop (fuel : nat) (ret : bool) : stm world (bool * option message) :=
  b ← bget;
  match rqueue b with
  | m :: q => bmod (set_rqueue q);; mret (true, Some m)
  | [] =>
      match fuel with
      | O => sfail EASSERT
      | S fuel =>
          r ← bus_read_message;
          if r : bool then rqueue_loop fuel true else mret (ret, None)
      end
  end.

Definition dispatch_rqueue : stm world (bool * option message) :=
  b ← bget;
  sreq (is_connected (state b)) EASSERT;;
  k ← kget;
  rqueue_loop (S (S (length (recvs k)))) false.

(** ** Sending

    The caller's message is the second component of the state: it is sealed in
    place. A message that has to be converted first is copied, and the copy is
    sent; what reading the original does to its read position is not modelled. *)
Definition on_world {A} (f : stm world A) : stm (world * message) A :=
  fun '(w, m) => let '(r, w) := f w in (r, (w, m)).
Definition on_message {A} (f : stm message A) : stm (world * message) A :=
  fun '(w, m) => let '(r, m) := f m in (r, (w, m)).
Definition mget : stm (world * message) message := fun '(w, m) => (Ok m, (w, m)).

Definition bus_seal_message (timeout : Z) : stm (world * message) unit :=
  b ← on_world bget;
  m ← mget;
  if sealed m then on_world (bmod (set_bus_cookie (Z.max (bus_cookie b) (BUS_MESSAGE_COOKIE m))))
  else
    t ← (if timeout =? 0 then on_world sd_bus_get_method_call_timeout else mret timeout);
    match sender m, patch_sender b with
    | None, Some s => on_message (sd_bus_message_set_sender s)
    | _, _ => mret tt
    end;;
    let c := wrap64 (bus_cookie b + 1) in
    on_world (bmod (set_bus_cookie c));;
    on_message (sd_bus_message_seal c t).

Section Sending.
(** [bus_ensure_running], which processes messages until the connection runs,
    and the duplication of file descriptors. *)
Context (ensure_running : stm world unit) (dup_fd : Z -> res Z).

Definition bus_remarshal_message (m : message) : stm world message :=
  b ← bget;
  let differs (own its : Z) := negb (own =? 0) && negb (own =? its) in
  if differs (message_version (bus b)) (h_version (hdr m)) ||
     differs (message_endian b) (h_endian (hdr m))
  then
    t ← (if (timeout m =? 0) && negb (has_flag BUS_MESSAGE_NO_REPLY_EXPECTED m)
         then sd_bus_get_method_call_timeout else mret 0);
    slift (bus_message_remarshal dup_fd (bus b) t m)
  else mret m.

Definition sd_bus_can_send (type : Z) : stm world bool :=
  b ← bget;
  sreq (negb (bool_decide (state b = BUS_UNSET))) ENOTCONN;;
  if is_monitor b then mret false
  else if type =? SD_BUS_TYPE_UNIX_FD then
    if negb (accept_fd b) then mret false
    else ensure_running;; b ← bget; mret (can_fds (bus b))
  else mret (bus_type_is_valid type).

(** The connection errors that are reported as the end of the connection. *)
Definition is_disconnect (e : errno) : bool :=
  match e with ENOTCONN | ECONNRESET | EPIPE | ESHUTDOWN => true | _ => false end.

(** Writing at once what is not queued behind something else *)
Definition send_now (m : message) : stm world unit := fun w =>
  match bus_write_message m 0 w with
  | (Err e, w) =>
      if is_disconnect e then (on_bus bus_enter_closing;; sfail ECONNRESET) w else (Err e, w)
  | (Ok r, w) =>
      let idx := default 0 r in
      (if idx <? BUS_MESSAGE_SIZE m
       then bmod (fun b => set_windex idx (set_wqueue [m] b)) else mret tt) w
  end.

Definition send_message (m : message) : stm world unit :=
  b ← bget;
  if is_connected (state b) && bool_decide (wqueue b = []) then send_now m
  else
    sreq (negb (BUS_WQUEUE_MAX <=? zlen (wqueue b))) ENOBUFS;;
    bmod (set_wqueue (wqueue b ++ [m])).

(** The cookie is returned; [want_cookie] is [cookie != NULL]. *)
Definition sd_bus_send (want_cookie : bool) : stm (world * message) Z :=
  b ← on_world bget;
  sreq (BUS_IS_OPEN (state b)) ENOTCONN;;
  m ← mget;
  (if 0 <? zlen (fds m) then
     r ← on_world (sd_bus_can_send SD_BUS_TYPE_UNIX_FD); sreq r EOPNOTSUPP
   else mret tt);;
  (if negb want_cookie && negb (sealed m)
   then on_message (smod (or_flag BUS_MESSAGE_NO_REPLY_EXPECTED)) else mret tt);;
  bus_seal_message 0;;
  m ← mget;
  m ← on_world (bus_remarshal_message m);
  (if dont_send m then mret tt else on_world (send_message m));;
  mret (BUS_MESSAGE_COOKIE m).

Definition sd_bus_send_to (dest : option cstr) (want_cookie : bool) : stm (world * message) Z :=
  b ← on_world bget;
  sreq (BUS_IS_OPEN (state b)) ENOTCONN;;
  m ← mget;
  (if bool_decide (destination m = dest) then mret tt
   else match dest with
        | None => sfail EEXIST
        | Some d => on_message (sd_bus_message_set_destination d)
        end);;
  sd_bus_send want_cookie.

End Sending.
