(* ===== verification/Call.v ===== *)
(** * Slots and method calls ([src/libsystemd/sd-bus/bus-slot.c], [sd-bus.c], [bus-convenience.c])

    A slot is the handle of a registered callback: of a pending method call or of
    a filter. A slot that is not floating belongs to whoever asked for it; a
    floating one belongs to the connection. References between slots and the
    connection itself are not counted, and destroy callbacks are not modelled.

    Starting a call that a callback will answer, the replies to a call, and the
    replies that failing callbacks make. *)
From S2P Require Import Prelude BusType HexDecOct Names BusError MsgState MsgWrite MsgFields MsgRead MsgCopy Prioq Bus Sasl Transport.

(** ** Access *)

(** Using a slot that was freed is undefined. *)
Definition slot_get (i : nat) : stm world sd_bus_slot :=
  b ← bget;
  match slots b !! i with
  | Some s => mret s
  | None => sfail EASSERT
  end.

Definition slot_put (i : nat) (s : sd_bus_slot) : stm world unit :=
  bmod (fun b => set_slots (<[i := s]> (slots b)) b).

Definition reply_callback_of (s : sd_bus_slot) : option reply_callback :=
  match slot_body s with BUS_REPLY_CALLBACK c _ => Some c | _ => None end.

Definition set_slot_body (d : slot_data) (s : sd_bus_slot) : sd_bus_slot :=
  Slot (n_ref s) (attached s) (floating s) d.

(** Changing the reply data of a slot *)
Definition upd_reply (f : reply_callback -> reply_callback) (s : sd_bus_slot) : sd_bus_slot :=
  match slot_body s with
  | BUS_REPLY_CALLBACK c h => set_slot_body (BUS_REPLY_CALLBACK (f c) h) s
  | _ => s
  end.

Definition set_cookie (v : Z) (c : reply_callback) : reply_callback := ReplyCallback v (timeout_usec c).
Definition set_timeout_usec (v : Z) (c : reply_callback) : reply_callback := ReplyCallback (cookie c) v.

Definition mod_reply (i : nat) (f : reply_callback -> reply_callback) : stm world unit :=
  bmod (fun b => set_slots (alter (upd_reply f) i (slots b)) b).

(** ** The table of the calls that wait for a reply, in the order they were made,
    and the queue of their timeouts *)
Definition reply_of (m : gmap nat sd_bus_slot) (i : nat) : reply_callback :=
  default (ReplyCallback 0 0) (m !! i ≫= reply_callback_of).

(** [timeout_compare] on the slots the queue's pointers point to *)
Definition compare_slots (m : gmap nat sd_bus_slot) (i j : nat) : Z :=
  timeout_compare (reply_of m i) (reply_of m j).

Fixpoint find_cookie (m : gmap nat sd_bus_slot) (c : Z) (l : list nat) : option nat :=
  match l with
  | [] => None
  | i :: l => if cookie (reply_of m i) =? c then Some i else find_cookie m c l
  end.

(** [ordered_hashmap_put], [ordered_hashmap_remove]: the key of an entry is the
    cookie in the slot it points to. *)
Definition reply_callbacks_put (i : nat) : stm world unit :=
  b ← bget;
  sreq (bool_decide (find_cookie (slots b) (cookie (reply_of (slots b) i)) (reply_callbacks b) = None)) EEXIST;;
  bmod (set_reply_callbacks (reply_callbacks b ++ [i])).

Definition reply_callbacks_remove (c : Z) : stm world (option nat) :=
  b ← bget;
  match find_cookie (slots b) c (reply_callbacks b) with
  | None => mret None
  | Some i => bmod (set_reply_callbacks (List.filter (fun j => negb (Nat.eqb j i)) (reply_callbacks b)));; mret (Some i)
  end.

Definition timeouts_put (i : nat) : stm world unit :=
  b ← bget;
  q ← slift (prioq_put (compare_slots (slots b)) (reply_callbacks_prioq b) i (Some i));
  bmod (set_reply_callbacks_prioq q).

Definition timeouts_remove (i : nat) : stm world unit :=
  b ← bget;
  '(_, q) ← slift (prioq_remove (compare_slots (slots b)) (reply_callbacks_prioq b) i (Some i));
  bmod (set_reply_callbacks_prioq q).

(** ** Slots *)
Definition bus_slot_allocate (float : bool) (d : slot_data) : stm world nat :=
  b ← bget;
  let i := next_slot b in
  bmod (fun b => set_next_slot (S i) (set_slots (<[i := Slot 1 true float d]> (slots b)) b));;
  mret i.

(** The part of [bus_slot_disconnect] up to the references: the callback is taken
    out of the structures of the connection. *)
Definition slot_detach (i : nat) : stm world unit :=
  s ← slot_get i;
  match slot_body s with
  | BUS_REPLY_CALLBACK c _ =>
      (if cookie c =? 0 then mret tt else reply_callbacks_remove (cookie c);; mret tt);;
      (if timeout_usec c =? 0 then mret tt else timeouts_remove i)
  | BUS_FILTER_CALLBACK _ _ =>
      bmod (fun b => set_filter_callbacks (List.filter (fun j => negb (Nat.eqb j i)) (filter_callbacks b))
        (set_filter_callbacks_modified true b))
  | BUS_SLOT_INVALID => sfail EASSERT
  end;;
  slot_put i (Slot (n_ref s) false (floating s) BUS_SLOT_INVALID).

Definition bus_slot_free (i : nat) : stm world unit :=
  s ← slot_get i;
  (if attached s then slot_detach i else mret tt);;
  bmod (fun b => set_slots (delete i (slots b)) b).

Definition sd_bus_slot_ref (i : nat) : stm world unit :=
  s ← slot_get i;
  sreq (0 <? n_ref s) EASSERT;;
  slot_put i (Slot (n_ref s + 1) (attached s) (floating s) (slot_body s)).

Definition sd_bus_slot_unref (i : nat) : stm world unit :=
  s ← slot_get i;
  sreq (0 <? n_ref s) EASSERT;;
  slot_put i (Slot (n_ref s - 1) (attached s) (floating s) (slot_body s));;
  if 0 <? n_ref s - 1 then mret tt else bus_slot_free i.

(** The reference a floating slot has from the connection goes with [unref]. *)
Definition bus_slot_disconnect (i : nat) (unref : bool) : stm world unit :=
  s ← slot_get i;
  if negb (attached s) then mret tt
  else
    slot_detach i;;
    if floating s && unref then sd_bus_slot_unref i else mret tt.

Definition sd_bus_slot_set_floating (i : nat) (f : bool) : stm world bool :=
  s ← slot_get i;
  if Bool.eqb (floating s) f then mret false
  else
    sreq (attached s) ESTALE;;
    slot_put i (Slot (n_ref s) (attached s) f (slot_body s));;
    (if f then sd_bus_slot_ref i else sd_bus_slot_unref i);;
    mret true.

(** ** Method calls *)
(** An operation on a connection and a message, as one on the connection. *)
Definition with_message {A} (f : stm (world * message) A) (m : message) : stm world (A * message) :=
  fun w => let '(r, (w, m)) := f (w, m) in (match r with Ok a => Ok (a, m) | Err e => Err e end, w).

(** [f], and [cleanup] when it fails *)
Definition or_cleanup {A} (f : stm world A) (cleanup : stm world unit) : stm world A := fun w =>
  match f w with
  | (Ok a, w) => (Ok a, w)
  | (Err EASSERT, w) => (Err EASSERT, w)
  | (Err e, w) => (cleanup;; sfail e) w
  end.

(** Whether a call failed, for the caller to decide; assertions are not caught. *)
Definition attempt {A} (f : stm world A) : stm world (res A) := fun w =>
  match f w with
  | (Err EASSERT, w) => (Err EASSERT, w)
  | (r, w) => (Ok r, w)
  end.

(** [usec] has 64 bits. *)
Definition calc_elapse (usec : Z) : stm world Z :=
  b ← bget;
  if usec =? SIZE_MAX then mret 0
  else match state b with
       | BUS_OPENING | BUS_AUTHENTICATING => mret (wrap64 usec)
       | _ => n ← now; mret (wrap64 (n + usec))
       end.

Section Calls.
Context (ensure_running : stm world unit) (dup_fd : Z -> res Z).

(** The slot of a call, from the moment it is linked; it is unreferenced when
    something fails. Sending writes the cookie to the slot. *)
Definition call_with_slot (i : nat) (m : message) : stm world unit :=
  or_cleanup
    (or_cleanup (reply_callbacks_put i) (mod_reply i (set_cookie 0));;
     t ← calc_elapse (timeout m);
     mod_reply i (set_timeout_usec t);;
     (if t =? 0 then mret tt else timeouts_put i);;
     '(c, _) ← with_message (sd_bus_send ensure_running dup_fd true) m;
     slot_get i;;
     mod_reply i (set_cookie c))
    (sd_bus_slot_unref i).

(** [want_slot]: the caller passed somewhere to put the slot, which the result is;
    otherwise the slot is floating. A cookie is unsigned; one of 0, which takes 2^64
    messages, ends the model here: the code could not take the slot out of the table again. *)
Definition sd_bus_call_async (want_slot : bool) (m : message) (callback : option handler) (usec : Z) :
    stm world (option nat) :=
  sreq (h_type (hdr m) =? SD_BUS_MESSAGE_METHOD_CALL) EINVAL;;
  sreq (negb (sealed m) || Bool.eqb (bool_decide (is_Some callback))
    (negb (has_flag BUS_MESSAGE_NO_REPLY_EXPECTED m))) EINVAL;;
  b ← bget;
  sreq (BUS_IS_OPEN (state b)) ENOTCONN;;
  let tracked := want_slot || bool_decide (is_Some callback) in
  let m := if negb tracked && negb (sealed m) then or_flag BUS_MESSAGE_NO_REPLY_EXPECTED m else m in
  '(_, m) ← with_message (bus_seal_message usec) m;
  m ← bus_remarshal_message dup_fd m;
  if tracked then
    sreq (0 <? BUS_MESSAGE_COOKIE m) EASSERT;;
    i ← bus_slot_allocate (negb want_slot)
          (BUS_REPLY_CALLBACK (ReplyCallback (BUS_MESSAGE_COOKIE m) 0) callback);
    call_with_slot i m;;
    mret (Some i)
  else
    with_message (sd_bus_send ensure_running dup_fd false) m;;
    mret None.

(** ** Replying *)
Definition send_reply (m : message) : stm world bool :=
  with_message (sd_bus_send ensure_running dup_fd false) m;; mret true.

(** The guards the replying functions share; the result says whether something was
    sent. *)
Definition replying (call : message) (f : stm world bool) : stm world bool :=
  sreq (sealed call) EPERM;;
  sreq (h_type (hdr call) =? SD_BUS_MESSAGE_METHOD_CALL) EINVAL;;
  b ← bget;
  sreq (BUS_IS_OPEN (state b)) ENOTCONN;;
  if has_flag BUS_MESSAGE_NO_REPLY_EXPECTED call then mret false else f.

Definition sd_bus_reply_method_error (call : message) (e : option sd_bus_error) : stm world bool :=
  sreq (sealed call) EPERM;;
  sreq (h_type (hdr call) =? SD_BUS_MESSAGE_METHOD_CALL) EINVAL;;
  sreq (sd_bus_error_is_set e) EINVAL;;
  b ← bget;
  sreq (BUS_IS_OPEN (state b)) ENOTCONN;;
  if has_flag BUS_MESSAGE_NO_REPLY_EXPECTED call then mret false
  else
    match e with
    | Some (BusError (Some n) text _) =>
        m ← slift (sd_bus_message_new_method_error (bus b) call n text);
        send_reply m
    | _ => sfail EINVAL
    end.

Context `{ErrnoTable} (maps : list sd_bus_error_map).

(** [text] is what the format gives. *)
Definition sd_bus_reply_method_errorf (call : message) (name : cstr) (text : cstr) : stm world bool :=
  replying call (sd_bus_reply_method_error call
    (sd_bus_error_setf maps (Some SD_BUS_ERROR_NULL) (Some name) (Some text)).2).

Definition sd_bus_reply_method_errno (call : message) (error : errno) (p : option sd_bus_error) :
    stm world bool :=
  replying call
    (if sd_bus_error_is_set p then sd_bus_reply_method_error call p
     else sd_bus_reply_method_error call (sd_bus_error_set_errno (Some SD_BUS_ERROR_NULL) (Some error)).2).

(** [bus_maybe_reply_error]: [r] is what a callback returned, [error] the error it
    left; a failing reply is ignored. *)
Definition bus_maybe_reply_error (m : message) (r : res Z) (error : option sd_bus_error) : stm world (res Z) :=
  let is_call := h_type (hdr m) =? SD_BUS_MESSAGE_METHOD_CALL in
  match r with
  | Err e =>
      (if is_call then attempt (sd_bus_reply_method_errno m e error);; mret tt else mret tt);;
      mret (Ok 1)
  | Ok n =>
      if sd_bus_error_is_set error then
        (if is_call then attempt (sd_bus_reply_method_error m error);; mret tt else mret tt);;
        mret (Ok 1)
      else mret (Ok n)
  end.

End Calls.
