(* ===== verification/Dispatch.v ===== *)
(** * The dispatcher ([src/libsystemd/sd-bus/sd-bus.c])

    What [sd_bus_process] does: timeouts, output, one message of input, and the
    callbacks on the way; closing a connection. A callback of the
    user is a program that calls the library back. The connections here have no
    objects that track peers, whose queue [process_running] and [process_closing]
    would serve too. *)
From S2P Require Import Prelude BusType HexDecOct Names BusError MsgState MsgWrite MsgFields MsgRead MsgCopy Prioq Bus Sasl Transport Call.

(** ** Programs over the library

    A call gives the program a result: of [CallAsync] and [AddFilter] the number
    of the slot, where there is one, else 0. *)
Inductive api :=
  | CallAsync (want_slot : bool) (m : message) (callback : option nat) (usec : Z)
  | Send (want_cookie : bool) (m : message)
  | AddFilter (want_slot : bool) (callback : nat)
  | SlotRef (i : nat)
  | SlotUnref (i : nat)
  | SlotSetFloating (i : nat) (b : bool)
  | Close
  | Process.

(** A program ends with what a callback returns and the error it fills in. *)
Inductive prog :=
  | Return (r : res Z) (error : option sd_bus_error)
  | Do (op : api) (k : res Z -> prog).

Definition note (h : happening) : stm world unit := fun w =>
  let k := kern w in
  (Ok tt, World (conn w) (Kernel (sends k) (sent k) (sent_fds k) (recvs k) (inbound k) (clock k) (ticks k)
     (euid k) (is_unix_socket k) (peer_uid k) (env_timeout k) (polls k) (happened k ++ [h]))).

(** The answer to a [ppoll]; when none is left it is interrupted by a signal, so a
    program that waits ends: the list is as long as the wait may take. *)
Definition EINTR : errno := EOTHER 4.
Definition ppoll : stm world bool := fun w =>
  let k := kern w in
  match polls k with
  | [] => (Err EINTR, w)
  | r :: l =>
      (r, World (conn w) (Kernel (sends k) (sent k) (sent_fds k) (recvs k) (inbound k) (clock k) (ticks k)
         (euid k) (is_unix_socket k) (peer_uid k) (env_timeout k) l (happened k)))
  end.

Definition sd_bus_add_filter (want_slot : bool) (callback : nat) : stm world nat :=
  i ← bus_slot_allocate (negb want_slot) (BUS_FILTER_CALLBACK (UserHandler callback) 0);
  bmod (fun b => set_filter_callbacks (i :: filter_callbacks b) (set_filter_callbacks_modified true b));;
  mret i.

(** [bus_ensure_running] while a message is being processed, when [sd_bus_process]
    refuses to run: [ensure_running_busy] of Blocking shows that this is what it
    does. *)
Definition busy_ensure_running : stm world unit :=
  b ← bget;
  match state b with
  | BUS_UNSET | BUS_CLOSED | BUS_CLOSING => sfail ENOTCONN
  | BUS_RUNNING => mret tt
  | _ => sfail EBUSY
  end.

(** [bus_ensure_running] outside of callbacks, as far as it is modelled here: where
    it would process messages, in the middle of sending one, the model ends. *)
Definition outside_ensure_running : stm world unit :=
  b ← bget;
  match state b with
  | BUS_UNSET | BUS_CLOSED | BUS_CLOSING => sfail ENOTCONN
  | BUS_RUNNING => mret tt
  | _ => sfail EASSERT
  end.

Section Dispatch.
Context `{ErrnoTable} (maps : list sd_bus_error_map).
Context (dup_fd : Z -> res Z).

(** The callbacks of the user; the callbacks of matches and of objects, as what
    they do to the connection; [sd_id128_get_machine]. *)
Context (handlers : nat -> message -> prog).
Context (process_match bus_process_object : message -> prog).
Context (machine_id : res (list Z)).

(** ** Running programs

    [ensure_running] differs between a callback and a program outside. *)
Definition run_api (ensure_running : stm world unit) (op : api) : stm world Z :=
  match op with
  | CallAsync want_slot m callback usec =>
      s ← sd_bus_call_async ensure_running dup_fd want_slot m (UserHandler <$> callback) usec;
      match s with
      | Some i => note (Asked i);; mret (Z.of_nat i)
      | None => mret 0
      end
  | Send want_cookie m =>
      '(c, _) ← with_message (sd_bus_send ensure_running dup_fd want_cookie) m;
      mret c
  | AddFilter want_slot callback => i ← sd_bus_add_filter want_slot callback; mret (Z.of_nat i)
  | SlotRef i => sd_bus_slot_ref i;; mret 0
  | SlotUnref i => note (Released i);; sd_bus_slot_unref i;; mret 0
  | SlotSetFloating i f => note (Released i);; sd_bus_slot_set_floating i f;; mret 0
  | Close => on_bus sd_bus_close;; mret 0
  | Process => sfail EBUSY
  end.

Definition bus_send_hello (ensure_running : stm world unit) : stm world unit :=
  b ← bget;
  if negb (bus_client b) then mret tt
  else
    m ← slift (sd_bus_message_new_method_call (bus b) (Some (bs "org.freedesktop.DBus"))
      (bs "/org/freedesktop/DBus") (Some (bs "org.freedesktop.DBus")) (bs "Hello"));
    s ← sd_bus_call_async ensure_running dup_fd false m (Some hello_callback) 0;
    match s with
    | Some i => note (Asked i)
    | None => mret tt
    end.

(** [bus_start_fd]; the flags of the descriptors are not modelled. *)
Definition bus_start_fd : stm world bool :=
  b ← bget;
  sreq ((0 <=? input_fd b) && (0 <=? output_fd b)) EASSERT;;
  bus_socket_take_fd.

(** [sd_bus_start]; connecting to an address is not modelled here. *)
Definition sd_bus_start (ensure_running : stm world unit) : stm world unit :=
  b ← bget;
  sreq (bool_decide (state b = BUS_UNSET)) EPERM;;
  bmod (set_state BUS_OPENING);;
  sreq (negb (is_server b && bus_client b)) EINVAL;;
  (if 0 <=? input_fd b then or_cleanup (bus_start_fd;; mret tt) (on_bus sd_bus_close)
   else if bool_decide (is_Some (address b)) || bool_decide (is_Some (sockaddr b)) then sfail EASSERT
   else sfail EINVAL);;
  bus_send_hello ensure_running.

Fixpoint run_prog (p : prog) : stm world (res Z * option sd_bus_error) :=
  match p with
  | Return r error => mret (r, error)
  | Do op k => r ← attempt (run_api busy_ensure_running op); run_prog (k r)
  end.

(** [hello_callback]; [sd_bus_message_read(reply, "s", &s)] *)
Definition hello (m : message) : stm world Z :=
  b ← bget;
  sreq (match state b with BUS_HELLO | BUS_CLOSING => true | _ => false end) EASSERT;;
  (if h_type (hdr m) =? SD_BUS_MESSAGE_METHOD_ERROR
   then match error_name m with
        | Some n => sfail (bus_error_name_to_errno maps (Some n))
        | None => mret tt
        end
   else mret tt);;
  v ← slift (sd_bus_message_read_basic SD_BUS_TYPE_STRING m).1;
  s ← (match v with Some (BStr s) => mret s | _ => sfail EASSERT end);
  sreq (service_name_is_valid s && (deref s =? ch ":")) EBADMSG;;
  bmod (fun b => set_bus (set_sd_unique_name (Some s) (bus b)) b);;
  b ← bget;
  (if bool_decide (state b = BUS_HELLO)
   then bmod (set_state BUS_RUNNING);; on_bus synthesize_connected_signal
   else mret tt);;
  mret 1.

Definition call_handler (h : handler) (m : message) : stm world (res Z * option sd_bus_error) :=
  match h with
  | hello_callback => r ← attempt (hello m); mret (r, None)
  | UserHandler n => run_prog (handlers n m)
  end.

Definition maybe_reply_error (m : message) (r : res Z * option sd_bus_error) : stm world Z :=
  r ← bus_maybe_reply_error busy_ensure_running dup_fd m r.1 r.2;
  slift r.

(** ** Replies *)

(** How a call is taken out of the table and the queue, by a timeout, a reply
    that was found, the end of the connection *)
Definition cut_by_timeout (b : connection) (i : nat) : stm world unit :=
  '(x, q) ← slift (prioq_pop (compare_slots (slots b)) (reply_callbacks_prioq b));
  sreq (bool_decide (x = Some i)) EASSERT;;
  bmod (set_reply_callbacks_prioq q);;
  mod_reply i (set_timeout_usec 0);;
  reply_callbacks_remove (cookie (reply_of (slots b) i));;
  mod_reply i (set_cookie 0).

Definition cut_by_reply (b : connection) (i : nat) : stm world unit :=
  if timeout_usec (reply_of (slots b) i) =? 0 then mret tt
  else timeouts_remove i;; mod_reply i (set_timeout_usec 0).

Definition cut_off (b : connection) (i : nat) : stm world unit :=
  let c := reply_of (slots b) i in
  (if timeout_usec c =? 0 then mret tt
   else timeouts_remove i;; mod_reply i (set_timeout_usec 0));;
  reply_callbacks_remove (cookie c);;
  mod_reply i (set_cookie 0).

(** Calling the callback of a slot that was taken out of the table, and dropping
    the slot if the connection owns it. *)
Definition call_and_release (i : nat) (h : handler) (m : message) : stm world (res Z * option sd_bus_error) :=
  r ← call_handler h m;
  bmod (set_current_slot None);;
  s ← slot_get i;
  (if floating s then bus_slot_disconnect i true else mret tt);;
  sd_bus_slot_unref i;;
  mret r.

Definition answer (i : nat) (m : message) : stm world (res Z * option sd_bus_error) :=
  sd_bus_slot_ref i;;
  s ← slot_get i;
  match slot_body s with
  | BUS_REPLY_CALLBACK _ (Some h) =>
      bmod (set_current_slot (Some i));;
      note (Answered i h m);;
      call_and_release i h m
  | _ => sfail EASSERT
  end.

(** A failure of Hello() is passed up. *)
Definition is_hello (b : connection) (i : nat) : bool :=
  bool_decide (state b = BUS_HELLO) &&
  match slots b !! i with
  | Some (Slot _ _ _ (BUS_REPLY_CALLBACK _ (Some hello_callback))) => true
  | _ => false
  end.

Definition finish_answer (hello : bool) (m : message) (r : res Z * option sd_bus_error) : stm world Z :=
  if hello then slift r.1 else maybe_reply_error m r.

Definition synthetic_error (c : Z) (name text : string) : stm world message :=
  b ← bget;
  m ← slift (bus_message_new_synthetic_error (bus b) c (bs name) (Some (bs text)));
  slift (build m bus_seal_synthetic_message).

Definition next_iteration : stm world unit :=
  bmod (fun b => set_iteration_counter (wrap32 (iteration_counter b + 1)) b).

(** While a message is current, and not after, however [f] ends *)
Definition with_current {A} (m : message) (f : stm world A) : stm world A := fun w =>
  let '(r, w) := f (World (set_current_message (Some m) (conn w)) (kern w)) in
  (r, World (set_current_message None (conn w)) (kern w)).

Definition process_timeout : stm world Z :=
  b ← bget;
  match prioq_peek (reply_callbacks_prioq b) with
  | None => mret 0
  | Some i =>
      n ← now;
      let c := reply_of (slots b) i in
      if n <? timeout_usec c then mret 0
      else
        m ← synthetic_error (cookie c) "org.freedesktop.DBus.Error.NoReply" "Method call timed out";
        cut_by_timeout b i;;
        next_iteration;;
        let h := is_hello b i in
        r ← with_current m (answer i m);
        finish_answer h m r
  end.

Definition process_hello (m : message) : stm world Z :=
  b ← bget;
  if negb (bool_decide (state b = BUS_HELLO)) then mret 0
  else
    sreq (in_set (h_type (hdr m)) [SD_BUS_MESSAGE_METHOD_RETURN; SD_BUS_MESSAGE_METHOD_ERROR]) EIO;;
    sreq (reply_cookie m =? 1) EIO;;
    mret 0.

Definition rewound (m : message) : stm world message :=
  slift (match sd_bus_message_rewind true m with (Ok _, m) => Ok m | (Err e, _) => Err e end).

Definition process_reply (m : message) : stm world Z :=
  if negb (in_set (h_type (hdr m)) [SD_BUS_MESSAGE_METHOD_RETURN; SD_BUS_MESSAGE_METHOD_ERROR]) then mret 0
  else
    b ← bget;
    if match destination m, unique_name (bus b) with
       | Some d, Some u => negb (streq d u)
       | _, _ => false
       end then mret 0
    else
      x ← reply_callbacks_remove (reply_cookie m);
      match x with
      | None => mret 0
      | Some i =>
          mod_reply i (set_cookie 0);;
          m ← (if (0 <? zlen (fds m)) && negb (accept_fd b)
               then synthetic_error (reply_cookie m) "org.freedesktop.DBus.Error.InconsistentMessage"
                      "Reply message contained file descriptor"
               else rewound m);
          cut_by_reply b i;;
          let h := is_hello b i in
          r ← answer i m;
          finish_answer h m r
      end.

(** ** The other receivers of a message *)

(** One pass over the filters; it ends when a callback changes the list. Reading
    the successor of a filter that freed itself is undefined. *)
Fixpoint filter_pass (m : message) (l : list nat) : stm world Z :=
  match l with
  | [] => mret 0
  | i :: l =>
      b ← bget;
      if filter_callbacks_modified b then mret 0
      else
        s ← slot_get i;
        match slot_body s with
        | BUS_FILTER_CALLBACK h last =>
            if last =? iteration_counter b then filter_pass m l
            else
              slot_put i (set_slot_body (BUS_FILTER_CALLBACK h (iteration_counter b)) s);;
              m ← rewound m;
              sd_bus_slot_ref i;;
              bmod (set_current_slot (Some i));;
              note (Filtered i m);;
              r ← call_handler h m;
              bmod (set_current_slot None);;
              sd_bus_slot_unref i;;
              r ← maybe_reply_error m r;
              if r =? 0 then slot_get i;; filter_pass m l else mret r
        | _ => sfail EASSERT
        end
  end.

(** Callbacks that keep adding filters keep the loop going; [passes] bounds it. *)
Fixpoint process_filter (passes : nat) (m : message) : stm world Z :=
  match passes with
  | O => sfail EASSERT
  | S passes =>
      bmod (set_filter_callbacks_modified false);;
      b ← bget;
      r ← filter_pass m (filter_callbacks b);
      if negb (r =? 0) then mret r
      else
        b ← bget;
        if filter_callbacks_modified b then process_filter passes m else mret 0
  end.

Definition process_builtin (m : message) : stm world Z :=
  b ← bget;
  if is_monitor b || manual_peer_interface b then mret 0
  else if negb (h_type (hdr m) =? SD_BUS_MESSAGE_METHOD_CALL) then mret 0
  else if negb (bool_decide (interface m = Some (bs "org.freedesktop.DBus.Peer"))) then mret 0
  else if has_flag BUS_MESSAGE_NO_REPLY_EXPECTED m then mret 1
  else
    reply ← slift
      (if bool_decide (member m = Some (bs "Ping")) then sd_bus_message_new_method_return (bus b) m
       else if bool_decide (member m = Some (bs "GetMachineId")) then
         id ← machine_id;
         r ← sd_bus_message_new_method_return (bus b) m;
         build r (message_append_basic no_dup SD_BUS_TYPE_STRING (Some (BStr (hexmem id))))
       else
         sd_bus_message_new_method_error (bus b) m SD_BUS_ERROR_UNKNOWN_METHOD
           (Some (bs "Unknown method '" ++ default [] (member m) ++ bs "' on interface '" ++
                  default [] (interface m) ++ bs "'.")));
    send_reply busy_ensure_running dup_fd reply;;
    mret 1.

Definition process_fd_check (m : message) : stm world Z :=
  b ← bget;
  if is_monitor b || (zlen (fds m) <=? 0) || accept_fd b then mret 0
  else if negb (h_type (hdr m) =? SD_BUS_MESSAGE_METHOD_CALL) then mret 1
  else
    r ← sd_bus_reply_method_errorf busy_ensure_running dup_fd maps m SD_BUS_ERROR_INCONSISTENT_MESSAGE
          (bs "Message contains file descriptors, which I cannot accept. Sorry.");
    mret (if r : bool then 1 else 0).

(** The callbacks that are only known by what they do *)
Definition run_receiver (p : prog) : stm world Z :=
  '(r, _) ← run_prog p; slift r.

(** The steps of [process_message], until one returns something else than 0 *)
Fixpoint first_nonzero (l : list (stm world Z)) : stm world Z :=
  match l with
  | [] => mret 0
  | f :: l => r ← f; if r =? 0 then first_nonzero l else mret r
  end.

Definition process_message (passes : nat) (m : message) : stm world Z :=
  with_current m
    (next_iteration;;
     first_nonzero [process_hello m; process_reply m; process_fd_check m; process_filter passes m;
                    run_receiver (process_match m); process_builtin m;
                    run_receiver (bus_process_object m)]).

(** ** Running and closing

    The second component is the message for the caller, if it wants one. *)
Definition process_running (passes : nat) (want : bool) : stm world (Z * option message) :=
  b ← bget;
  sreq (is_connected (state b)) EASSERT;;
  r ← process_timeout;
  if negb (r =? 0) then mret (r, None)
  else
    w ← dispatch_wqueue;
    if w : bool then mret (1, None)
    else
      '(got, m) ← dispatch_rqueue;
      match m with
      | None => mret (if got : bool then 1 else 0, None)
      | Some m =>
          r ← process_message passes m;
          if negb (r =? 0) then mret (r, None)
          else if want then m ← rewound m; mret (1, Some m)
          else
            (if h_type (hdr m) =? SD_BUS_MESSAGE_METHOD_CALL then
               sd_bus_reply_method_errorf busy_ensure_running dup_fd maps m SD_BUS_ERROR_UNKNOWN_OBJECT
                 (bs "Unknown object '" ++ default [] (path m) ++ bs "'.");; mret tt
             else mret tt);;
            mret (1, None)
      end.

(** [exit()] is not modelled further: [exited] tells that the program is gone. *)
Definition bus_exit_now : stm world unit :=
  b ← bget;
  if exited b || negb (exit_triggered b) || negb (exit_on_disconnect b) then mret tt
  else bmod (set_exited true).

Definition process_closing_reply_callback (i : nat) : stm world Z :=
  b ← bget;
  let c := reply_of (slots b) i in
  m ← synthetic_error (cookie c) "org.freedesktop.DBus.Error.NoReply" "Connection terminated";
  cut_off b i;;
  next_iteration;;
  r ← with_current m (answer i m);
  maybe_reply_error m r.

Definition process_closing (passes : nat) (want : bool) : stm world (Z * option message) :=
  b ← bget;
  sreq (bool_decide (state b = BUS_CLOSING)) EASSERT;;
  match reply_callbacks b with
  | i :: _ => r ← process_closing_reply_callback i; mret (r, None)
  | [] =>
      m ← slift (local_signal (bus b) (bs "Disconnected"));
      on_bus sd_bus_close;;
      with_current m
        (next_iteration;;
         r ← first_nonzero [process_filter passes m; run_receiver (process_match m)];
         if negb (r =? 0) then mret (r, None)
         else
           bmod (set_exit_triggered true);;
           bus_exit_now;;
           mret (1, if want then Some m else None))
  end.

(** ** [sd_bus_process]

    [opening] and [authenticating] are what [bus_socket_process_opening] and
    [bus_socket_process_authenticating] do. *)
Definition bus_process_internal (opening authenticating : stm world bool) (passes : nat) (want : bool) :
    stm world (Z * option message) :=
  b ← bget;
  sreq (bool_decide (current_message b = None)) EBUSY;;
  sreq (bool_decide (current_slot b = None)) EASSERT;;
  let or_closing (f : stm world (Z * option message)) :=
    r ← attempt f;
    match r with
    | Err e => if is_disconnect e then on_bus bus_enter_closing;; mret (1, None) else sfail e
    | Ok r => mret r
    end in
  let connecting (f : stm world bool) : stm world (Z * option message) :=
    r ← f; mret (if r : bool then 1 else 0, None) in
  match state b with
  | BUS_UNSET => sfail ENOTCONN
  | BUS_CLOSED => sfail ECONNRESET
  | BUS_OPENING => or_closing (connecting opening)
  | BUS_AUTHENTICATING => or_closing (connecting authenticating)
  | BUS_RUNNING | BUS_HELLO => or_closing (process_running passes want)
  | BUS_CLOSING => process_closing passes want
  end.

End Dispatch.
