(* ===== verification/CallState.v ===== *)
(** * The table of pending calls

    The invariant that ties the slots of a connection, the table of the calls that
    wait for a reply and the queue of their timeouts together, and what each
    change of them does to it. *)
From S2P Require Import Prelude MsgState MsgFields Prioq Bus Sasl Transport Call.

#[export] Instance compare_slots_comparison m : Comparison (compare_slots m).
Proof.
  split; intros *; unfold compare_slots; [apply cmp_total|apply cmp_trans].
Qed.

Definition body_at (sl : gmap nat sd_bus_slot) (i : nat) : option slot_data := slot_body <$> sl !! i.

Definition is_filter (sl : gmap nat sd_bus_slot) (i : nat) : Prop :=
  exists h n, body_at sl i = Some (BUS_FILTER_CALLBACK h n).

(** Slots, the next number, the table, the queue, the filters. *)
Record calls_ok (sl : gmap nat sd_bus_slot) (nx : nat) (R : list nat) (Q : Prioq nat) (F : list nat) : Prop :=
CallsOk {
  ok_fresh : forall i s, sl !! i = Some s -> (i < nx)%nat;
  ok_attached : forall i s, sl !! i = Some s -> attached s = true <-> slot_body s <> BUS_SLOT_INVALID;
  ok_R : NoDup R;
  ok_pending : forall i, i ∈ R <-> cookie (reply_of sl i) <> 0;
  ok_inj : forall i j, i ∈ R -> j ∈ R -> cookie (reply_of sl i) = cookie (reply_of sl j) -> i = j;
  ok_timed : forall i, timeout_usec (reply_of sl i) <> 0 -> i ∈ R;
  ok_range : forall i, 0 <= timeout_usec (reply_of sl i) < 2 ^ 64;
  ok_Q : NoDup (map data (items Q));
  ok_queued : forall i, i ∈ map data (items Q) <-> timeout_usec (reply_of sl i) <> 0;
  ok_cells : forall x, x ∈ items Q -> idx x = Some (data x);
  ok_wf : wf (compare_slots sl) Q;
  ok_F : NoDup F;
  ok_filters : forall i, i ∈ F <-> is_filter sl i }.

Definition none_reply : reply_callback := ReplyCallback 0 0.

(** ** Looking up *)
Lemma find_cookie_some sl c R i :
  find_cookie sl c R = Some i -> i ∈ R /\ cookie (reply_of sl i) = c.
Proof.
  induction R as [|j R IH]; cbn [find_cookie]; [done|]. destruct (Z.eqb_spec (cookie (reply_of sl j)) c) as [E|E].
  - intros [= <-]. split; [by left|done].
  - intros H. destruct (IH H). split; [by right|done].
Qed.

Lemma find_cookie_none sl c R :
  find_cookie sl c R = None -> forall i, i ∈ R -> cookie (reply_of sl i) <> c.
Proof.
  induction R as [|j R IH]; cbn [find_cookie]; [by intros _ i ?%elem_of_nil|].
  destruct (Z.eqb_spec (cookie (reply_of sl j)) c) as [E|E]; [done|].
  intros H i [->|Hi]%elem_of_cons; [done|by apply IH].
Qed.

Lemma find_cookie_here sl nx R Q F i :
  calls_ok sl nx R Q F -> i ∈ R -> find_cookie sl (cookie (reply_of sl i)) R = Some i.
Proof.
  intros H Hi. destruct (find_cookie _ _ _) as [j|] eqn:E.
  - apply find_cookie_some in E as [Hj E]. f_equal. by apply (ok_inj _ _ _ _ _ H).
  - by apply find_cookie_none with (i := i) in E.
Qed.

Lemma reply_of_insert sl i s : reply_of (<[i := s]> sl) i = default none_reply (reply_callback_of s).
Proof. unfold reply_of. by rewrite lookup_insert_eq. Qed.

Lemma reply_of_insert_ne sl i j s : i <> j -> reply_of (<[i := s]> sl) j = reply_of sl j.
Proof. intros. unfold reply_of. by rewrite lookup_insert_ne. Qed.

Lemma reply_of_delete_ne sl i j : i <> j -> reply_of (delete i sl) j = reply_of sl j.
Proof. intros. unfold reply_of. by rewrite lookup_delete_ne. Qed.

Lemma reply_of_alter_ne f sl i j : i <> j -> reply_of (alter f i sl) j = reply_of sl j.
Proof. intros. unfold reply_of. by rewrite lookup_alter_ne. Qed.

Lemma body_at_alter_ne f sl i j : i <> j -> body_at (alter f i sl) j = body_at sl j.
Proof. intros. unfold body_at. by rewrite lookup_alter_ne. Qed.

Lemma body_at_insert_ne sl i j s : i <> j -> body_at (<[i := s]> sl) j = body_at sl j.
Proof. intros. unfold body_at. by rewrite lookup_insert_ne. Qed.

Lemma body_at_insert sl i s : body_at (<[i := s]> sl) i = Some (slot_body s).
Proof. unfold body_at. by rewrite lookup_insert_eq. Qed.

(** The reply data of a slot, from its body *)
Lemma reply_of_body sl i : reply_of sl i =
  match body_at sl i with Some (BUS_REPLY_CALLBACK c _) => c | _ => none_reply end.
Proof.
  unfold reply_of, body_at, reply_callback_of. destruct (sl !! i) as [[n a f [c h|h n'|]]|]; done.
Qed.

(** Everything but the slots' references is in their bodies. *)
Lemma calls_ok_bodies sl sl' nx nx' R Q F :
  calls_ok sl nx R Q F -> (forall i, body_at sl' i = body_at sl i) ->
  (forall i s, sl' !! i = Some s -> (i < nx')%nat /\ (attached s = true <-> slot_body s <> BUS_SLOT_INVALID)) ->
  calls_ok sl' nx' R Q F.
Proof.
  intros H Hb Hs. assert (Hr : forall i, reply_of sl' i = reply_of sl i) by (intros i; by rewrite !reply_of_body, Hb).
  destruct H. constructor; try done.
  - intros i s Hi. by apply (Hs i s).
  - intros i s Hi. by apply (Hs i s).
  - intros i. by rewrite Hr.
  - intros i j. rewrite !Hr. auto.
  - intros i. rewrite Hr. auto.
  - intros i. by rewrite Hr.
  - intros i. by rewrite Hr.
  - eapply wf_cmp_ext; [|exact ok_wf0]. intros x y _ _. unfold compare_slots. by rewrite !Hr.
  - intros i. unfold is_filter. rewrite Hb. apply ok_filters0.
Qed.

(** ** What changes the table *)
Definition without (i : nat) (l : list nat) : list nat := List.filter (fun j => negb (Nat.eqb j i)) l.

Lemma elem_of_without i j l : j ∈ without i l <-> j ∈ l /\ j <> i.
Proof.
  unfold without. rewrite !list_elem_of_In, List.filter_In, negb_true_iff, Nat.eqb_neq. done.
Qed.

Lemma NoDup_without i l : NoDup l -> NoDup (without i l).
Proof. rewrite !NoDup_ListNoDup. apply List.NoDup_filter. Qed.

Lemma without_not_in i l : i ∉ l -> without i l = l.
Proof.
  induction l as [|j l IH]; intros H; [done|]. apply not_elem_of_cons in H as [H1 H2]. unfold without. cbn.
  rewrite (proj2 (Nat.eqb_neq j i)) by done. cbn. f_equal. by apply IH.
Qed.

Lemma without_length i l : i ∈ l -> (length (without i l) < length l)%nat.
Proof.
  induction l as [|j l IH]; [by intros ?%elem_of_nil|]. unfold without in *. cbn [List.filter].
  destruct (Nat.eqb_spec j i) as [->|Hj]; cbn [negb length].
  - intros _. apply Nat.lt_succ_r. apply List.filter_length_le.
  - intros [->|Hi]%elem_of_cons; [done|]. cbn [length]. specialize (IH Hi). lia.
Qed.

(** The queue without the entry of slot [i], if it has a timeout *)
Definition dequeued (sl : gmap nat sd_bus_slot) (i : nat) (Q Q' : Prioq nat) : Prop :=
  if timeout_usec (reply_of sl i) =? 0 then Q' = Q
  else wf (compare_slots sl) Q' /\ items Q ≡ₚ Item i (Some i) :: items Q'.

Lemma dequeued_elem sl nx R Q F i Q' :
  calls_ok sl nx R Q F -> dequeued sl i Q Q' ->
  NoDup (map data (items Q')) /\ (forall x, x ∈ items Q' -> x ∈ items Q) /\
  forall j, j ∈ map data (items Q') <-> j ∈ map data (items Q) /\ j <> i.
Proof.
  intros H. unfold dequeued. destruct (Z.eqb_spec (timeout_usec (reply_of sl i)) 0) as [E|E].
  - intros ->. split; [apply H|]. split; [done|]. intros j. split; [|by intros []].
    intros Hj. split; [done|]. intros ->. by apply (ok_queued _ _ _ _ _ H) in Hj.
  - intros [_ Hp]. assert (Hd : map data (items Q) ≡ₚ i :: map data (items Q')) by (by rewrite Hp).
    pose proof (ok_Q _ _ _ _ _ H) as Hnd. rewrite Hd in Hnd. apply NoDup_cons in Hnd as [Hi Hnd].
    split; [done|]. split; [intros x Hx; rewrite Hp; by right|]. intros j. rewrite Hd, elem_of_cons. split.
    + intros Hj. split; [by right|]. by intros ->.
    + by intros [[->|Hj] Hji].
Qed.

Lemma calls_ok_take sl sl' nx R Q Q' F F' i :
  calls_ok sl nx R Q F -> reply_of sl' i = none_reply ->
  (forall j, j <> i -> body_at sl' j = body_at sl j) ->
  (forall j s, sl' !! j = Some s -> (j < nx)%nat /\ (attached s = true <-> slot_body s <> BUS_SLOT_INVALID)) ->
  NoDup F' -> (forall j, j ∈ F' <-> is_filter sl' j) -> dequeued sl i Q Q' ->
  calls_ok sl' nx (without i R) Q' F'.
Proof.
  intros H Hi Hj Hs HF1 HF2 Hq. pose proof (dequeued_elem _ _ _ _ _ _ _ H Hq) as (Hq1 & Hq2 & Hq3).
  assert (Hr : forall j, j <> i -> reply_of sl' j = reply_of sl j).
  { intros j ?. by rewrite !reply_of_body, Hj. }
  assert (Hwf : wf (compare_slots sl) Q').
  { unfold dequeued in Hq. case_match; [subst Q'; apply H|apply Hq]. }
  constructor; try done.
  - intros j s E. by apply (Hs j s).
  - intros j s E. by apply (Hs j s).
  - by apply NoDup_without, H.
  - intros j. rewrite elem_of_without. destruct (decide (j = i)) as [->|Hji].
    + rewrite Hi. cbn. split; [by intros []|done].
    + rewrite Hr by done. pose proof (ok_pending _ _ _ _ _ H j). naive_solver.
  - intros j k [Hj1 Hj2]%elem_of_without [Hk1 Hk2]%elem_of_without. rewrite !Hr by done. by apply (ok_inj _ _ _ _ _ H).
  - intros j. rewrite elem_of_without. destruct (decide (j = i)) as [->|Hji]; [by rewrite Hi|].
    rewrite Hr by done. intros E. split; [by apply (ok_timed _ _ _ _ _ H)|done].
  - intros j. destruct (decide (j = i)) as [->|Hji]; [by rewrite Hi|]. rewrite Hr by done. apply H.
  - intros j. rewrite Hq3. destruct (decide (j = i)) as [->|Hji].
    + rewrite Hi. cbn. split; [by intros []|done].
    + rewrite Hr by done. pose proof (ok_queued _ _ _ _ _ H j). naive_solver.
  - intros x Hx. apply (ok_cells _ _ _ _ _ H). by apply Hq2.
  - assert (forall x, x ∈ items Q' -> data x <> i) as Hne.
    { intros x Hx. apply (Hq3 (data x)). apply list_elem_of_fmap. by exists x. }
    eapply wf_cmp_ext; [|exact Hwf]. intros x y Hx Hy. unfold compare_slots. by rewrite !Hr by auto.
Qed.

(** A new call: its slot is the next one. *)
Definition new_slot (float : bool) (d : slot_data) : sd_bus_slot := Slot 1 true float d.

Lemma calls_ok_next sl nx R Q F d f :
  calls_ok sl nx R Q F -> d <> BUS_SLOT_INVALID ->
  forall j s, <[nx := new_slot f d]> sl !! j = Some s ->
    (j < S nx)%nat /\ (attached s = true <-> slot_body s <> BUS_SLOT_INVALID).
Proof.
  intros H Hd j s Hj. apply lookup_insert_Some in Hj as [[<- <-]|[_ Hj]]; [by split; [lia|]|].
  split; [|by eapply ok_attached]. apply (ok_fresh _ _ _ _ _ H) in Hj. lia.
Qed.

Lemma next_not_in sl nx R Q F : calls_ok sl nx R Q F -> sl !! nx = None /\ nx ∉ R /\ nx ∉ map data (items Q) /\ nx ∉ F.
Proof.
  intros H. assert (sl !! nx = None) as Hn.
  { destruct (sl !! nx) as [s|] eqn:E; [|done]. apply (ok_fresh _ _ _ _ _ H) in E. lia. }
  assert (reply_of sl nx = none_reply) as Hr by (unfold reply_of; by rewrite Hn).
  split; [done|]. rewrite (ok_pending _ _ _ _ _ H), (ok_queued _ _ _ _ _ H), (ok_filters _ _ _ _ _ H), Hr.
  unfold is_filter, body_at. rewrite Hn. cbn. naive_solver.
Qed.

Lemma calls_ok_new sl nx R Q F c h f :
  calls_ok sl nx R Q F -> c <> 0 -> find_cookie sl c R = None ->
  calls_ok (<[nx := new_slot f (BUS_REPLY_CALLBACK (ReplyCallback c 0) h)]> sl) (S nx) (R ++ [nx]) Q F.
Proof.
  intros H Hc Hf. destruct (next_not_in _ _ _ _ _ H) as (Hn & HR & HQ & HF).
  pose proof (find_cookie_none _ _ _ Hf) as Hu. set (sl' := <[nx := _]> sl).
  assert (Hr1 : reply_of sl' nx = ReplyCallback c 0) by (unfold sl'; by rewrite reply_of_insert).
  assert (Hr : forall j, j <> nx -> reply_of sl' j = reply_of sl j) by (intros; by apply reply_of_insert_ne).
  assert (Hne : forall (l : list nat) j, nx ∉ l -> j ∈ l -> j <> nx) by (intros l j Hl Hj ->; by apply Hl).
  pose proof (calls_ok_next _ _ _ _ _ (BUS_REPLY_CALLBACK (ReplyCallback c 0) h) f H ltac:(done)) as Hs.
  destruct H. constructor; try done.
  - intros i s E. by apply (Hs i s).
  - intros i s E. by apply (Hs i s).
  - apply NoDup_app. split; [done|]. split; [|apply NoDup_singleton].
    intros i Hi ->%list_elem_of_singleton. done.
  - intros i. rewrite elem_of_app, list_elem_of_singleton. destruct (decide (i = nx)) as [->|Hi].
    + rewrite Hr1. cbn. naive_solver.
    + rewrite Hr by done. rewrite <- ok_pending0. naive_solver.
  - assert (Ha : forall i, i ∈ R -> cookie (reply_of sl' i) = cookie (reply_of sl i) /\ cookie (reply_of sl' i) <> c).
    { intros i Hi. rewrite Hr by eauto. split; [done|by apply Hu]. }
    intros i j [Hi| ->%list_elem_of_singleton]%elem_of_app [Hj| ->%list_elem_of_singleton]%elem_of_app;
      rewrite ?Hr1; cbn [cookie].
    + destruct (Ha i Hi) as [-> _], (Ha j Hj) as [-> _]. by apply ok_inj0.
    + intros E. by destruct (Ha i Hi).
    + intros E. by destruct (Ha j Hj).
    + done.
  - intros i. rewrite elem_of_app. destruct (decide (i = nx)) as [->|Hi]; [by rewrite Hr1|].
    rewrite Hr by done. intros E. left. by apply ok_timed0.
  - intros i. destruct (decide (i = nx)) as [->|Hi]; [by rewrite Hr1|]. by rewrite Hr.
  - intros i. destruct (decide (i = nx)) as [->|Hi]; [by rewrite Hr1|]. by rewrite Hr.
  - eapply wf_cmp_ext; [|exact ok_wf0]. intros x y Hx Hy. unfold compare_slots.
    assert (Hd : forall z, z ∈ items Q -> data z <> nx).
    { intros z Hz E. apply HQ. rewrite <- E. apply list_elem_of_fmap. by exists z. }
    by rewrite !Hr by auto.
  - intros i. rewrite ok_filters0. unfold is_filter. destruct (decide (i = nx)) as [->|Hi].
    + unfold sl'. rewrite body_at_insert. unfold body_at. rewrite Hn. naive_solver.
    + unfold sl'. by rewrite body_at_insert_ne by done.
Qed.

(** Changing the reply data of one slot *)
Definition has_reply (sl : gmap nat sd_bus_slot) (i : nat) : Prop := is_Some (sl !! i ≫= reply_callback_of).

Lemma reply_of_upd sl i f : has_reply sl i -> reply_of (alter (upd_reply f) i sl) i = f (reply_of sl i).
Proof.
  intros [c H]. unfold reply_of. rewrite lookup_alter_eq. destruct (sl !! i) as [s|]; cbn in *; [|done].
  unfold reply_callback_of, upd_reply in *. by destruct (slot_body s).
Qed.

Lemma pending_has_reply sl i : reply_of sl i <> none_reply -> has_reply sl i.
Proof. unfold reply_of, has_reply. by destruct (sl !! i ≫= reply_callback_of). Qed.

Lemma alter_slots_same sl nx R Q F i f :
  calls_ok sl nx R Q F -> forall j s, alter (upd_reply f) i sl !! j = Some s ->
  (j < nx)%nat /\ (attached s = true <-> slot_body s <> BUS_SLOT_INVALID).
Proof.
  intros H j s Hj. rewrite lookup_alter_Some in Hj. destruct Hj as [(<- & s' & Hs & ->)|[_ Hs]].
  - split; [by eapply ok_fresh|]. pose proof (ok_attached _ _ _ _ _ H _ _ Hs) as Ha. unfold upd_reply.
    destruct (slot_body s') eqn:Eb; cbn; rewrite ?Eb; naive_solver.
  - split; [by eapply ok_fresh|by eapply ok_attached].
Qed.

Lemma body_alter_filter sl i f j : is_filter (alter (upd_reply f) i sl) j <-> is_filter sl j.
Proof.
  unfold is_filter. destruct (decide (i = j)) as [->|Hj]; [|by rewrite body_at_alter_ne].
  unfold body_at. rewrite lookup_alter_eq. destruct (sl !! j) as [s|]; cbn; [|done].
  unfold upd_reply. destruct (slot_body s) eqn:E; cbn; rewrite ?E; naive_solver.
Qed.

Lemma calls_ok_timed sl nx R Q F i t Q' :
  calls_ok sl nx R Q F -> Z.of_nat nx < 2 ^ 31 -> 0 <= t < 2 ^ 64 -> i ∈ R -> timeout_usec (reply_of sl i) = 0 ->
  let sl' := alter (upd_reply (set_timeout_usec t)) i sl in
  (if t =? 0 then Q' = Q else prioq_put (compare_slots sl') Q i (Some i) = Ok Q') ->
  calls_ok sl' nx R Q' F.
Proof.
  intros H Hnx Ht64 Hi Ht sl' Hput.
  assert (Hr1 : reply_of sl' i = set_timeout_usec t (reply_of sl i)).
  { apply reply_of_upd, pending_has_reply. intros E. apply (ok_pending _ _ _ _ _ H) in Hi. by rewrite E in Hi. }
  assert (Hr : forall j, j <> i -> reply_of sl' j = reply_of sl j) by (intros; by apply reply_of_alter_ne).
  assert (Hc : forall j, cookie (reply_of sl' j) = cookie (reply_of sl j)).
  { intros j. destruct (decide (j = i)) as [->|Hj]; [by rewrite Hr1|by rewrite Hr]. }
  assert (HiQ : i ∉ map data (items Q)) by (rewrite (ok_queued _ _ _ _ _ H), Ht; intros E; by apply E).
  assert (Hd : forall x, x ∈ items Q -> data x <> i).
  { intros x Hx E. apply HiQ. rewrite <- E. apply list_elem_of_fmap. by exists x. }
  assert (Hw : wf (compare_slots sl') Q).
  { eapply wf_cmp_ext; [|apply H]. intros x y Hx Hy. unfold compare_slots. by rewrite !Hr by auto. }
  assert (HQ' : wf (compare_slots sl') Q' /\
    items Q' ≡ₚ (if t =? 0 then [] else [Item i (Some i)]) ++ items Q).
  { destruct (t =? 0); [by subst Q'|].
    destruct (put_run (compare_slots sl') Q i (Some i)) as (q & E & W & P).
    - done.
    - assert (length (i :: map data (items Q)) <= length (seq 0 nx))%nat as Hl.
      { apply submseteq_length, NoDup_submseteq.
        - apply NoDup_cons. split; [done|apply H].
        - assert (forall j, j ∈ R -> j ∈ seq 0 nx) as Hs.
          { intros j Hj. apply elem_of_seq. split; [lia|]. apply (ok_pending _ _ _ _ _ H) in Hj.
            destruct (sl !! j) as [s|] eqn:E; [apply (ok_fresh _ _ _ _ _ H) in E; lia|].
            unfold reply_of in Hj. by rewrite E in Hj. }
          intros j [->|Hj]%elem_of_cons; [by apply Hs|]. apply Hs, (ok_timed _ _ _ _ _ H).
          by apply (ok_queued _ _ _ _ _ H). }
      cbn [length] in Hl. rewrite length_map, length_seq in Hl. lia.
    - intros x Hx _ E. rewrite (ok_cells _ _ _ _ _ H x Hx) in E. injection E as E. by apply (Hd x Hx).
    - rewrite E in Hput. injection Hput as <-. by split. }
  destruct HQ' as [HW HP]. clear Hput.
  assert (HdQ : map data (items Q') ≡ₚ (if t =? 0 then [] else [i]) ++ map data (items Q)).
  { rewrite HP, map_app. by destruct (t =? 0). }
  pose proof (alter_slots_same _ _ _ _ _ i (set_timeout_usec t) H) as Hs.
  destruct H. constructor; try done.
  - intros j s E. by apply (Hs j s).
  - intros j s E. by apply (Hs j s).
  - intros j. by rewrite Hc.
  - intros j k. rewrite !Hc. auto.
  - intros j. destruct (decide (j = i)) as [->|Hj]; [done|]. rewrite Hr by done. auto.
  - intros j. destruct (decide (j = i)) as [->|Hj]; [by rewrite Hr1|]. by rewrite Hr.
  - rewrite HdQ. destruct (t =? 0); [done|]. by apply NoDup_cons.
  - intros j. rewrite HdQ, elem_of_app, ok_queued0. destruct (decide (j = i)) as [->|Hj].
    + rewrite Hr1. cbn. destruct (Z.eqb_spec t 0) as [->|E].
      * rewrite Ht. split; [intros [?%elem_of_nil|]; done|done].
      * split; [done|]. intros _. left. by apply list_elem_of_singleton.
    + rewrite Hr by done. split; [|by right]. intros [Hx|]; [|done]. exfalso.
      destruct (t =? 0); [by apply elem_of_nil in Hx|]. apply list_elem_of_singleton in Hx. done.
  - intros x. rewrite HP, elem_of_app. intros [Hx|Hx]; [|by apply ok_cells0].
    destruct (t =? 0); [by apply elem_of_nil in Hx|]. by apply list_elem_of_singleton in Hx as ->.
  - intros j. rewrite ok_filters0. symmetry. apply body_alter_filter.
Qed.

(** ** The queue's only failures are assertions *)
Lemma up_loop_err {D} (cmp : D -> D -> Z) fuel q i e : up_loop cmp fuel q i = Err e -> e = EASSERT.
Proof.
  revert q i. induction fuel as [|fuel IH]; intros q i; cbn [up_loop]; [by intros [= <-]|].
  unfold swap, item_at, require. repeat (case_match; cbn; try by intros [= <-]). apply IH.
Qed.

Lemma prioq_put_err {D} (cmp : D -> D -> Z) q d p e : prioq_put cmp q d p = Err e -> e = EASSERT.
Proof.
  unfold prioq_put, shuffle_up, require. case_bool_decide; cbn; [apply up_loop_err|by intros [= <-]].
Qed.

(** ** The start of the running phase

    [bus_start_running] makes all timeouts absolute without reordering the queue:
    adding to all of them, with saturation, keeps their order. *)
Lemma usec_add_mono n a b :
  0 <= n < 2 ^ 64 -> 0 <= a < 2 ^ 64 -> 0 <= b < 2 ^ 64 -> a <= b -> usec_add n a <= usec_add n b.
Proof.
  intros Hn Ha Hb Hab. unfold usec_add, usec_infinity, SIZE_MAX.
  assert (Hw : forall x, 0 <= x < 2 ^ 64 -> wrap64 (n + x) = if n + x <? 2 ^ 64 then n + x else n + x - 2 ^ 64).
  { intros x Hx. destruct (Z.ltb_spec (n + x) (2 ^ 64)); [by rewrite wrap_small by lia|].
    unfold wrap. symmetry. apply (Z.mod_unique _ _ 1); lia. }
  rewrite !Hw by done. repeat case_match; repeat match goal with
    | H : (_ <? _) = true |- _ => apply Z.ltb_lt in H | H : (_ <? _) = false |- _ => apply Z.ltb_ge in H
    | H : (_ || _) = true |- _ => apply orb_true_iff in H as [H|H]
    | H : (_ || _) = false |- _ => apply orb_false_iff in H as [? ?] end; lia.
Qed.

Lemma usec_add_bound n a : 0 <= n < 2 ^ 64 -> 0 < a < 2 ^ 64 -> 0 < usec_add n a < 2 ^ 64.
Proof.
  intros Hn Ha. pose proof (Z.mod_pos_bound (n + a) (2 ^ 64) ltac:(lia)) as Hm.
  unfold usec_add, usec_infinity, SIZE_MAX, wrap. destruct (orb _ _) eqn:E; [lia|].
  apply orb_false_iff in E as [_ E%Z.ltb_ge]. lia.
Qed.

Definition start_reply (n : Z) (c : reply_callback) : reply_callback :=
  if timeout_usec c =? 0 then c else ReplyCallback (cookie c) (usec_add n (timeout_usec c)).

Lemma start_timeout_upd n s : start_timeout n s = upd_reply (start_reply n) s.
Proof.
  unfold start_timeout, upd_reply, start_reply. destruct s as [r a f [c h|h l|]]; cbn; [|done|done].
  destruct c as [k t]. cbn. by destruct (t =? 0).
Qed.

Lemma foldr_alter (f : sd_bus_slot -> sd_bus_slot) (l : list nat) (sl : gmap nat sd_bus_slot) j :
  NoDup l -> foldr (fun i m => alter f i m) sl l !! j = if bool_decide (j ∈ l) then f <$> sl !! j else sl !! j.
Proof.
  induction l as [|i l IH]; intros Hnd; cbn [foldr]; [by rewrite bool_decide_eq_false_2 by apply not_elem_of_nil|].
  apply NoDup_cons in Hnd as [Hi Hnd]. specialize (IH Hnd).
  destruct (decide (i = j)) as [->|Hij].
  - rewrite lookup_alter_eq, IH, bool_decide_eq_false_2, bool_decide_eq_true_2 by (done || by left). done.
  - rewrite lookup_alter_ne, IH by done. case_bool_decide as H1; case_bool_decide as H2; try done.
    + exfalso. apply H2. by right.
    + apply elem_of_cons in H2 as [->|]; done.
Qed.

Lemma calls_ok_start sl nx R Q F n :
  calls_ok sl nx R Q F -> 0 <= n < 2 ^ 64 ->
  calls_ok (foldr (fun i m => alter (start_timeout n) i m) sl R) nx R Q F.
Proof.
  intros H Hn. set (sl' := foldr _ _ _).
  assert (Hl : forall j, sl' !! j = if bool_decide (j ∈ R) then upd_reply (start_reply n) <$> sl !! j else sl !! j).
  { intros j. unfold sl'. rewrite foldr_alter by apply H. case_bool_decide; [|done].
    destruct (sl !! j); cbn; [by rewrite start_timeout_upd|done]. }
  assert (Hr : forall j, reply_of sl' j = start_reply n (reply_of sl j)).
  { intros j. unfold reply_of at 1. rewrite Hl. case_bool_decide as Hj.
    - apply (ok_pending _ _ _ _ _ H) in Hj. unfold reply_of in *. destruct (sl !! j) as [s|]; [|done].
      cbn in *. unfold reply_callback_of, upd_reply in *. by destruct (slot_body s).
    - rewrite <- (ok_pending _ _ _ _ _ H) in Hj || idtac. unfold start_reply.
      destruct (Z.eqb_spec (timeout_usec (reply_of sl j)) 0) as [E|E]; [done|].
      exfalso. apply Hj. by apply (ok_timed _ _ _ _ _ H). }
  assert (Hc : forall j, cookie (reply_of sl' j) = cookie (reply_of sl j)).
  { intros j. rewrite Hr. unfold start_reply. by case_match. }
  assert (Ht : forall j, timeout_usec (reply_of sl' j) =
    if timeout_usec (reply_of sl j) =? 0 then 0 else usec_add n (timeout_usec (reply_of sl j))).
  { intros j. rewrite Hr. unfold start_reply. destruct (Z.eqb_spec (timeout_usec (reply_of sl j)) 0); done. }
  assert (Hp : forall j, timeout_usec (reply_of sl j) <> 0 -> 0 < timeout_usec (reply_of sl' j) < 2 ^ 64).
  { intros j Hj. rewrite Ht, (proj2 (Z.eqb_neq _ 0)) by done. apply usec_add_bound; [done|].
    pose proof (ok_range _ _ _ _ _ H j). lia. }
  assert (Hz : forall j, timeout_usec (reply_of sl' j) = 0 <-> timeout_usec (reply_of sl j) = 0).
  { intros j. destruct (Z.eq_dec (timeout_usec (reply_of sl j)) 0) as [E|E].
    - by rewrite Ht, E.
    - specialize (Hp j E). split; [lia|done]. }
  assert (Hs : forall j s, sl' !! j = Some s -> (j < nx)%nat /\ (attached s = true <-> slot_body s <> BUS_SLOT_INVALID)).
  { intros j s E. rewrite Hl in E. case_bool_decide.
    - apply fmap_Some in E as (s0 & E & ->). split; [by eapply ok_fresh|].
      pose proof (ok_attached _ _ _ _ _ H _ _ E) as Ha. unfold upd_reply.
      destruct (slot_body s0) eqn:Eb; cbn; rewrite ?Eb; naive_solver.
    - split; [by eapply ok_fresh|by eapply ok_attached]. }
  pose proof (ok_range _ _ _ _ _ H) as Hrange.
  assert (Hcmp : forall i j, i ∈ map data (items Q) -> j ∈ map data (items Q) ->
    compare_slots sl i j <= 0 -> compare_slots sl' i j <= 0).
  { intros i j Hi Hj. apply (ok_queued _ _ _ _ _ H) in Hi, Hj. unfold compare_slots, timeout_compare.
    pose proof (Hp i Hi). pose proof (Hp j Hj).
    rewrite !(proj2 (Z.eqb_neq _ 0)) by (done || lia). cbn [negb andb]. unfold CMP. intros Hle.
    assert (timeout_usec (reply_of sl i) <= timeout_usec (reply_of sl j)) as Hle'.
    { destruct (Z.ltb_spec (timeout_usec (reply_of sl i)) (timeout_usec (reply_of sl j))); [lia|].
      destruct (Z.ltb_spec (timeout_usec (reply_of sl j)) (timeout_usec (reply_of sl i))); lia. }
    pose proof (usec_add_mono n _ _ Hn (Hrange i) (Hrange j) Hle').
    rewrite !Ht, !(proj2 (Z.eqb_neq _ 0)) by done.
    destruct (Z.ltb_spec (usec_add n (timeout_usec (reply_of sl i))) (usec_add n (timeout_usec (reply_of sl j)))); [lia|].
    destruct (Z.ltb_spec (usec_add n (timeout_usec (reply_of sl j))) (usec_add n (timeout_usec (reply_of sl i)))); lia. }
  destruct H. constructor; try done.
  - intros j s E. by apply (Hs j s).
  - intros j s E. by apply (Hs j s).
  - intros j. by rewrite Hc.
  - intros i j. rewrite !Hc. auto.
  - intros j. rewrite Hz. auto.
  - intros j. rewrite Ht. case_match eqn:E; [lia|]. apply Z.eqb_neq in E. specialize (Hp j E).
    rewrite Ht, (proj2 (Z.eqb_neq _ 0)) in Hp by done. lia.
  - intros j. by rewrite Hz.
  - eapply wf_cmp_ext; [|exact ok_wf0]. intros x y Hx Hy. apply Hcmp; apply list_elem_of_fmap; eauto.
  - intros j. rewrite ok_filters0. unfold is_filter, body_at. rewrite Hl. case_bool_decide; [|done].
    destruct (sl !! j) as [s|]; cbn; [|done]. unfold upd_reply. destruct (slot_body s) eqn:E; cbn; rewrite ?E; naive_solver.
Qed.
