(* ===== verification/CallKeeps.v ===== *)
(** * Operations that leave the pending calls alone

    Sending, receiving, replying and closing do not touch the slots, the table of
    calls, the queue of timeouts or the filters, and call nobody back. *)
From S2P Require Import Prelude BusType Names BusError MsgState MsgFields MsgRead MsgParse MsgCopy MsgOrder Prioq Bus Sasl Transport Call Dispatch CallState.

(** What calls and filters are kept in *)
Definition table (b : connection) : gmap nat sd_bus_slot * nat * list nat * Prioq nat * list nat :=
  (slots b, next_slot b, reply_callbacks b, reply_callbacks_prioq b, filter_callbacks b).

(** The clock has 64 bits, and sockets are Unix sockets. *)
Definition kernel_ok (k : kernel) : Prop :=
  (0 <= clock k /\ Forall (Z.le 0) (ticks k) /\ clock k + foldr Z.add 0 (ticks k) < 2 ^ 64) /\
  forall fd, is_unix_socket k fd = true.

(** File descriptors are taken, as by default, and what was received is sealed. *)
Definition receives (b : connection) : Prop :=
  accept_fd b = true /\ Forall (fun m => sealed m = true) (rqueue b).

Record untouched (w w' : world) : Prop := Untouched {
  un_table : table (conn w') = table (conn w);
  un_happened : happened (kern w') = happened (kern w);
  un_kernel : kernel_ok (kern w) -> kernel_ok (kern w');
  un_receives : receives (conn w) -> receives (conn w') }.

#[export] Instance untouched_preorder : PreOrder untouched.
Proof.
  split; [by intros w|]. intros w1 w2 w3 [A1 A2 A3 A4] [B1 B2 B3 B4]. split; [congruence|congruence|auto|auto].
Qed.

Definition keeps {A} (f : stm world A) : Prop := forall w r w', f w = (r, w') -> untouched w w'.
Definition keeps2 {A} (f : stm (world * message) A) : Prop :=
  forall w m r w' m', f (w, m) = (r, (w', m')) -> untouched w w'.

Create HintDb keeps discriminated.

(** ** Combinators *)
Lemma kept_bind {A B} (f : stm world A) (g : A -> stm world B) :
  keeps f -> (forall a, keeps (g a)) -> keeps (f ≫= g).
Proof.
  intros Hf Hg w r w'. rewrite stm_bind_eq. destruct (f w) as [[a|e] w1] eqn:E.
  - intros H. etrans; [by eapply Hf|by eapply Hg].
  - intros [= <- <-]. by eapply Hf.
Qed.

Lemma keeps2_bind {A B} (f : stm (world * message) A) (g : A -> stm (world * message) B) :
  keeps2 f -> (forall a, keeps2 (g a)) -> keeps2 (f ≫= g).
Proof.
  intros Hf Hg w m r w' m'. rewrite stm_bind_eq. destruct (f (w, m)) as [[a|e] [w1 m1]] eqn:E.
  - intros H. etrans; [by eapply Hf|by eapply Hg].
  - intros [= <- <- <-]. by eapply Hf.
Qed.

Lemma kept_ret {A} (a : A) : keeps (mret a).
Proof. by intros w r w' [= <- <-]. Qed.
Lemma keeps_fail {A} e : keeps (sfail e : stm world A).
Proof. by intros w r w' [= <- <-]. Qed.
Lemma keeps_lift {A} (x : res A) : keeps (slift x).
Proof. by intros w r w' [= <- <-]. Qed.
Lemma keeps_req b e : keeps (sreq b e).
Proof. by intros w r w' [= <- <-]. Qed.
Lemma keeps_bget : keeps bget.
Proof. by intros w r w' [= <- <-]. Qed.
Lemma keeps_kget : keeps kget.
Proof. by intros w r w' [= <- <-]. Qed.
Definition undisturbed (f : connection -> connection) : Prop :=
  forall b, table (f b) = table b /\ (receives b -> receives (f b)).
Lemma kept_mod f : undisturbed f -> keeps (bmod f).
Proof. intros H w r w' [= <- <-]. destruct (H (conn w)). by split. Qed.
Lemma keeps_on_bus {A} (f : stm connection A) :
  (forall b r b', f b = (r, b') -> table b' = table b /\ (receives b -> receives b')) -> keeps (on_bus f).
Proof. intros H w r w'. unfold on_bus. destruct (f (conn w)) as [r1 b] eqn:E. intros [= <- <-]. apply H in E as []. by split. Qed.

Lemma keeps2_ret {A} (a : A) : keeps2 (mret a).
Proof. by intros w m r w' m' [= <- <- <-]. Qed.
Lemma keeps2_fail {A} e : keeps2 (sfail e : stm (world * message) A).
Proof. by intros w m r w' m' [= <- <- <-]. Qed.
Lemma keeps2_req b e : keeps2 (sreq b e).
Proof. by intros w m r w' m' [= <- <- <-]. Qed.
Lemma keeps2_mget : keeps2 mget.
Proof. by intros w m r w' m' [= <- <- <-]. Qed.
Lemma keeps2_message {A} (f : stm message A) : keeps2 (on_message f).
Proof. intros w m r w' m'. unfold on_message. destruct (f m). by intros [= <- <- <-]. Qed.
Lemma keeps2_world {A} (f : stm world A) : keeps f -> keeps2 (on_world f).
Proof. intros H w m r w' m'. unfold on_world. destruct (f w) eqn:E. intros [= <- <- <-]. by eapply H. Qed.

Lemma keeps_unless_again {A} (f : stm world A) : keeps f -> keeps (unless_again f).
Proof.
  intros H w r w'. unfold unless_again. destruct (f w) as [[a|e] w1] eqn:E; [|destruct e];
    intros [= <- <-]; by eapply H.
Qed.
Lemma keeps_with_message {A} (f : stm (world * message) A) m : keeps2 f -> keeps (with_message f m).
Proof. intros H w r w'. unfold with_message. destruct (f (w, m)) as [r1 [w1 m1]] eqn:E. intros [= <- <-]. by eapply H. Qed.
Lemma keeps_attempt {A} (f : stm world A) : keeps f -> keeps (attempt f).
Proof.
  intros H w r w'. unfold attempt. destruct (f w) as [[a|e] w1] eqn:E; [|destruct e];
    intros [= <- <-]; by eapply H.
Qed.
Lemma keeps_with_current {A} m (f : stm world A) : keeps f -> keeps (with_current m f).
Proof.
  intros H w r w'. unfold with_current.
  destruct (f _) as [r1 w1] eqn:E. intros [= <- <-]. apply H in E. destruct E as [E1 E2 E3 E4]. by split.
Qed.

#[export] Hint Resolve kept_ret keeps_fail keeps_lift keeps_req keeps_bget keeps_kget keeps2_ret keeps2_fail
  keeps2_req keeps2_mget keeps2_message keeps2_world keeps_unless_again keeps_with_message keeps_attempt
  keeps_with_current : keeps.

(** Down to the operations the body consists of *)
Ltac keeps_step :=
  match goal with
  | |- keeps (_ ≫= _) => apply kept_bind
  | |- keeps2 (_ ≫= _) => apply keeps2_bind
  | |- keeps (bmod _) => apply kept_mod; solve [auto with keeps | by intros ?]
  | |- forall _, _ => intros ?
  | |- keeps (let '(_, _) := ?x in _) => destruct x
  | |- keeps2 (let '(_, _) := ?x in _) => destruct x
  | |- keeps (match ?x with _ => _ end) => destruct x
  | |- keeps2 (match ?x with _ => _ end) => destruct x
  | |- _ => solve [auto with keeps]
  end.
Ltac keeps := repeat keeps_step.

(** ** The kernel *)
Lemma keeps_now : keeps now.
Proof.
  intros w r w' [= <- <-]. split; [done|done| |done]. intros [(H1 & H2 & H3) H0]. split; [|exact H0]. cbn.
  destruct (ticks (kern w)) as [|t l]; cbn in *; [split; cbn; [lia|split; [done|lia]]|].
  apply Forall_cons in H2 as [H2 H4]. split; cbn; [lia|]. split; [done|lia].
Qed.
Lemma keeps_sendmsg d f : keeps (sendmsg d f).
Proof. intros w r w'. unfold sendmsg. destruct (sends (kern w)) as [|[n|e] l]; intros [= <- <-]; by split. Qed.
Lemma keeps_recvmsg n : keeps (recvmsg n).
Proof. intros w r w'. unfold recvmsg. destruct (recvs (kern w)) as [|[e|k c] l]; intros [= <- <-]; by split. Qed.
Lemma keeps_ppoll : keeps ppoll.
Proof. intros w r w'. unfold ppoll. destruct (polls (kern w)) as [|x l]; intros [= <- <-]; by split. Qed.
#[export] Hint Resolve keeps_now keeps_sendmsg keeps_recvmsg keeps_ppoll : keeps.

(** ** Closing *)
Lemma keeps_enter_closing : keeps (on_bus bus_enter_closing).
Proof.
  apply keeps_on_bus. intros b r b'. unfold bus_enter_closing. rewrite stm_bind_eq. cbn.
  destruct (BUS_IS_OPEN (state b)); intros [= <- <-]; by split.
Qed.
Lemma keeps_close : keeps (on_bus sd_bus_close).
Proof.
  apply keeps_on_bus. intros b r b'. unfold sd_bus_close. rewrite stm_bind_eq. cbn.
  case_bool_decide; intros [= <- <-]; (split; [done|]); [done|]. intros [E _]. by split.
Qed.

Lemma local_signal_sealed b mem m : local_signal b mem = Ok m -> sealed m = true.
Proof.
  unfold local_signal. intros (m0 & _ & H)%res_bind_ok. unfold build in H.
  destruct (bus_seal_synthetic_message _) as [[[]|] m1] eqn:E; [|done]. injection H as <-. by eapply seal_sealed.
Qed.

Lemma keeps_connected : keeps (on_bus synthesize_connected_signal).
Proof.
  apply keeps_on_bus. intros b r b'. rewrite synthesize_run.
  destruct (negb _); [by intros [= <- <-]|]. destruct (local_signal _ _) as [m|e] eqn:E; [|by intros [= <- <-]].
  case_match; intros [= <- <-]; [done|]. split; [done|]. intros [H1 H2]. split; [done|].
  apply Forall_cons. split; [by eapply local_signal_sealed|done].
Qed.
Lemma keeps_make_room : keeps (on_bus bus_rqueue_make_room).
Proof. apply keeps_on_bus. intros b r b'. unfold bus_rqueue_make_room. rewrite stm_bind_eq. by intros [= <- <-]. Qed.
#[export] Hint Resolve keeps_enter_closing keeps_close keeps_connected keeps_make_room : keeps.

(** ** Sending *)
Lemma keeps_call_timeout : keeps sd_bus_get_method_call_timeout.
Proof. unfold sd_bus_get_method_call_timeout. keeps. Qed.
#[export] Hint Resolve keeps_call_timeout : keeps.

Lemma kept_write m i : keeps (bus_write_message m i).
Proof. unfold bus_write_message, bus_socket_write_message. keeps. Qed.
#[export] Hint Resolve kept_write : keeps.

Lemma keeps_send_message m : keeps (send_message m).
Proof.
  assert (Hn : keeps (send_now m)).
  { intros w r w'. unfold send_now. destruct (bus_write_message m 0 w) as [[o|e] w1] eqn:E;
      pose proof (kept_write _ _ _ _ _ E) as Hw; [|destruct (is_disconnect e)]; intros H.
    - etrans; [exact Hw|].
      assert (keeps (if default 0 o <? BUS_MESSAGE_SIZE m
        then bmod (fun b => set_windex (default 0 o) (set_wqueue [m] b)) else mret tt)) as Hk by keeps.
      by eapply Hk.
    - etrans; [exact Hw|].
      assert (keeps (on_bus bus_enter_closing;; sfail ECONNRESET : stm world unit)) as Hk by keeps.
      by eapply Hk.
    - injection H as <- <-. done. }
  unfold send_message. keeps.
Qed.
#[export] Hint Resolve keeps_send_message : keeps.

Lemma keeps2_seal t : keeps2 (bus_seal_message t).
Proof. unfold bus_seal_message. keeps. all: apply keeps2_world; keeps. Qed.
#[export] Hint Resolve keeps2_seal : keeps.

Lemma keeps_remarshal dup m : keeps (bus_remarshal_message dup m).
Proof. unfold bus_remarshal_message. keeps. Qed.
#[export] Hint Resolve keeps_remarshal : keeps.

Lemma keeps2_send er dup c : keeps er -> keeps2 (sd_bus_send er dup c).
Proof.
  intros He. unfold sd_bus_send, sd_bus_can_send. keeps; apply keeps2_world; keeps.
Qed.
#[export] Hint Resolve keeps2_send : keeps.

Lemma keeps_busy : keeps busy_ensure_running.
Proof. unfold busy_ensure_running. keeps. Qed.
#[export] Hint Resolve keeps_busy : keeps.

(** ** Reading *)
Lemma keeps_dispatch_wqueue : keeps dispatch_wqueue.
Proof.
  assert (forall fuel ret, keeps (wqueue_loop fuel ret)) as Hl.
  { induction fuel as [|fuel IH]; intros ret; cbn [wqueue_loop]; keeps. }
  unfold dispatch_wqueue. keeps.
Qed.

Lemma keeps_make_messages : keeps make_messages.
Proof.
  assert (keeps bus_socket_read_message_need) as H1 by (unfold bus_socket_read_message_need; keeps).
  assert (forall n, keeps (bus_socket_make_message n)) as H2.
  { intros n. unfold bus_socket_make_message. do 4 (apply kept_bind; [auto with keeps|intros ?]).
    intros w r w'. rewrite stm_bind_eq. unfold slift. destruct (bus_message_from_malloc _ _) as [m|e] eqn:E;
      [|by intros [= <- <-]]. intros [= <- <-]. split; try done. intros [H2 H3]. split; [done|].
    apply Forall_app. split; [done|]. apply Forall_singleton. by eapply from_malloc_sealed. }
  assert (forall fuel made, keeps (make_loop fuel made)) as Hl.
  { induction fuel as [|fuel IH]; intros made; cbn [make_loop];
      (apply kept_bind; [exact H1|intros ?]); keeps. }
  unfold make_messages. keeps.
Qed.

Lemma keeps_read_control l : keeps (read_control l).
Proof. induction l as [|c l IH]; cbn [read_control]; keeps. Qed.

Lemma keeps_read_message : keeps bus_read_message.
Proof.
  pose proof keeps_make_messages. pose proof keeps_read_control.
  unfold bus_read_message, bus_socket_read_message. keeps.
Qed.

#[export] Hint Resolve keeps_dispatch_wqueue keeps_read_message : keeps.

Lemma rqueue_loop_run fuel : forall ret w r w', rqueue_loop fuel ret w = (r, w') ->
  untouched w w' /\ (receives (conn w) -> forall x m, r = Ok (x, Some m) -> sealed m = true).
Proof.
  assert (Hc : forall (k : stm world (bool * option message)) w r w' q m, rqueue (conn w) = m :: q ->
    (bmod (set_rqueue q);; mret (true, Some m)) w = (r, w') ->
    untouched w w' /\ (receives (conn w) -> forall x m', r = Ok (x, Some m') -> sealed m' = true)).
  { intros _ w r w' q m E [= <- <-]. split; [split; try done|].
    - intros [H1 H2]. rewrite E in H2. apply Forall_cons in H2 as [_ H2]. by split.
    - intros [_ H2] x m' [= <- <-]. rewrite E in H2. by apply Forall_cons in H2 as [H2 _]. }
  induction fuel as [|fuel IH]; intros ret w r w'; cbn [rqueue_loop]; rewrite stm_bind_eq; cbn [bget];
    destruct (rqueue (conn w)) as [|m q] eqn:E; try (by apply (Hc (mret (false, None)))); [by intros [= <- <-]|].
  rewrite stm_bind_eq. destruct (bus_read_message w) as [[b|e] w1] eqn:Er; pose proof (keeps_read_message _ _ _ Er) as Hk.
  - destruct b.
    + intros H. destruct (IH _ _ _ _ H) as [H1 H2]. split; [by etrans|]. intros Hw. apply H2. by apply Hk.
    + intros [= <- <-]. by split.
  - intros [= <- <-]. by split.
Qed.

Lemma dispatch_rqueue_run w r w' : dispatch_rqueue w = (r, w') ->
  untouched w w' /\ (receives (conn w) -> forall x m, r = Ok (x, Some m) -> sealed m = true).
Proof.
  unfold dispatch_rqueue. rewrite stm_bind_eq. cbn [bget]. rewrite stm_bind_eq. unfold sreq, slift.
  destruct (require _ _); [|by intros [= <- <-]]. rewrite stm_bind_eq. apply rqueue_loop_run.
Qed.

Lemma keeps_dispatch_rqueue : keeps dispatch_rqueue.
Proof. intros w r w' E. by apply dispatch_rqueue_run in E as []. Qed.
#[export] Hint Resolve keeps_dispatch_rqueue : keeps.

(** ** Replying *)
Section Replies.
Context `{ErrnoTable} (maps : list sd_bus_error_map) (er : stm world unit) (dup : Z -> res Z).
Context (Her : keeps er).
#[local] Hint Resolve Her : keeps.

Lemma keeps_send_reply m : keeps (send_reply er dup m).
Proof. unfold send_reply. keeps. Qed.
#[local] Hint Resolve keeps_send_reply : keeps.

Lemma keeps_reply_error call e : keeps (sd_bus_reply_method_error er dup call e).
Proof. unfold sd_bus_reply_method_error. keeps. Qed.
#[local] Hint Resolve keeps_reply_error : keeps.

Lemma keeps_reply_errorf call n t : keeps (sd_bus_reply_method_errorf er dup maps call n t).
Proof. unfold sd_bus_reply_method_errorf, replying. keeps. Qed.

Lemma keeps_reply_errno call n p : keeps (sd_bus_reply_method_errno er dup call n p).
Proof. unfold sd_bus_reply_method_errno, replying. keeps. Qed.
#[local] Hint Resolve keeps_reply_errno : keeps.

Lemma keeps_maybe_reply m r e : keeps (bus_maybe_reply_error er dup m r e).
Proof. unfold bus_maybe_reply_error. keeps. Qed.
End Replies.
#[export] Hint Resolve keeps_send_reply keeps_reply_errorf keeps_maybe_reply : keeps.

Section Steps.
Context `{ErrnoTable} (maps : list sd_bus_error_map) (dup_fd : Z -> res Z) (machine_id : res (list Z)).

Lemma keeps_finish_reply m r : keeps (maybe_reply_error dup_fd m r).
Proof. unfold maybe_reply_error. keeps. Qed.

Lemma keeps_hello m : keeps (hello maps m).
Proof. unfold hello. keeps. Qed.

Lemma keeps_synthetic c n t : keeps (synthetic_error c n t).
Proof. unfold synthetic_error. keeps. Qed.

Lemma keeps_next_iteration : keeps next_iteration.
Proof. unfold next_iteration. keeps. Qed.

Lemma keeps_rewound m : keeps (rewound m).
Proof. unfold rewound. keeps. Qed.

Lemma keeps_process_hello m : keeps (process_hello m).
Proof. unfold process_hello. keeps. Qed.

Lemma keeps_process_builtin m : keeps (process_builtin dup_fd machine_id m).
Proof. unfold process_builtin. keeps. Qed.

Lemma keeps_process_fd_check m : keeps (process_fd_check maps dup_fd m).
Proof. unfold process_fd_check. keeps. Qed.

Lemma keeps_exit_now : keeps bus_exit_now.
Proof. unfold bus_exit_now. keeps. Qed.

Lemma keeps_calc_elapse t : keeps (calc_elapse t).
Proof. unfold calc_elapse. keeps. Qed.
End Steps.
#[export] Hint Resolve keeps_finish_reply keeps_hello keeps_synthetic keeps_next_iteration keeps_rewound
  keeps_process_hello keeps_process_builtin keeps_process_fd_check keeps_exit_now keeps_calc_elapse : keeps.
