(* ===== verification/CallSlots.v ===== *)
(** * What may happen to a call

    What a user observes of the pending calls, as an automaton over what passes
    between the library and its user: a call that was asked for is answered at
    most once, and stays outstanding until it is answered or its slot is given
    up. The invariant that ties the automaton to the table of calls, a program
    logic for it, and the operations on slots in this logic. *)
From S2P Require Import Prelude BusType Names BusError MsgState MsgFields MsgRead MsgParse MsgCopy Prioq Bus Sasl Transport Call Dispatch CallState CallKeeps.

(** ** The specification *)

(** [Loose]: a reference to the slot was given up, so the call may be cancelled;
    [Filter]: the slot is not one of a call. *)
Inductive status := Pending | Loose | Done | Filter.

#[export] Instance status_eq_dec : EqDecision status.
Proof. solve_decision. Defined.

Definition observe (st : gmap nat status) (h : happening) : option (gmap nat status) :=
  match h with
  | Asked i => match st !! i with None => Some (<[i := Pending]> st) | Some _ => None end
  | Answered i _ _ =>
      match st !! i with Some Pending | Some Loose => Some (<[i := Done]> st) | _ => None end
  | Released i => Some (match st !! i with Some Pending => <[i := Loose]> st | _ => st end)
  | Filtered i _ =>
      match st !! i with None | Some Filter => Some (<[i := Filter]> st) | _ => None end
  | Polled _ _ => Some st
  end.

(** [None]: the library did what it must not. *)
Definition observed (l : list happening) : option (gmap nat status) :=
  foldl (fun st h => st ≫= fun st => observe st h) (Some ∅) l.

Lemma observed_snoc l h : observed (l ++ [h]) = observed l ≫= fun st => observe st h.
Proof. unfold observed. by rewrite foldl_app. Qed.

(** What was answered, given up, or is a filter stays so. *)
Definition settled (st : gmap nat status) (i : nat) : Prop :=
  exists s, st !! i = Some s /\ s <> Pending.

Lemma observe_settled st h st' i : observe st h = Some st' -> settled st i -> settled st' i.
Proof.
  intros E (s & Hi & Hs).
  assert (Hins : forall j s', s' <> Pending -> settled (<[j := s']> st) i).
  { intros j s' Hs'. destruct (decide (j = i)) as [->|Hj]; unfold settled.
    - exists s'. by rewrite lookup_insert_eq.
    - exists s. by rewrite lookup_insert_ne. }
  assert (settled st i) as H0 by by exists s.
  destruct h as [j|j h m|j|j m|]; cbn [observe] in E; [| | | |by injection E as <-].
  - destruct (st !! j) eqn:Ej; [done|]. injection E as <-. exists s. destruct (decide (j = i)) as [->|Hj]; [by rewrite Ej in Hi|].
    by rewrite lookup_insert_ne.
  - destruct (st !! j) as [[]|]; simplify_eq; by apply Hins.
  - injection E as <-. destruct (st !! j) as [[]|]; first [by apply Hins|done].
  - destruct (st !! j) as [[]|]; simplify_eq; by apply Hins.
Qed.

Lemma observed_settled l l' st st' i :
  observed l = Some st -> observed (l ++ l') = Some st' -> settled st i -> settled st' i.
Proof.
  revert st'. induction l' as [|h l' IH] using rev_ind; intros st' E E'.
  - rewrite app_nil_r in E'. by simplify_eq.
  - rewrite app_assoc, observed_snoc in E'. destruct (observed (l ++ l')) as [st1|]; [|done].
    intros Hs. eapply observe_settled; [exact E'|]. by apply IH.
Qed.

(** ** The invariant *)

(** The table and the observer agree, except maybe on the slot [x] that is being
    asked for or answered. *)
Record agree (x : option nat) (st : gmap nat status) (b : connection) : Prop := Agree {
  ag_calls : calls_ok (slots b) (next_slot b) (reply_callbacks b) (reply_callbacks_prioq b) (filter_callbacks b);
  ag_seen : forall i, i ∈ reply_callbacks b -> x <> Some i -> st !! i = Some Pending \/ st !! i = Some Loose;
  ag_pending : forall i, st !! i = Some Pending -> i ∈ reply_callbacks b \/ x = Some i;
  ag_bound : forall i, is_Some (st !! i) -> (i < next_slot b)%nat;
  ag_filters : forall i, i ∈ filter_callbacks b -> st !! i = None \/ st !! i = Some Filter }.

(** With what the observer has to know of [x] *)
Definition inv_at (x : option nat) (K : gmap nat status -> Prop) (w : world) : Prop :=
  (kernel_ok (kern w) /\ receives (conn w)) /\
  exists st, observed (happened (kern w)) = Some st /\ agree x st (conn w) /\ K st.

Definition inv (w : world) : Prop := inv_at None (fun _ => True) w.

(** ** Reasoning about operations

    A run only goes on: slots are not numbered again, and what happened stays. A
    postcondition is claimed of runs without a failed assertion, and with fewer
    than 2^31 slots. *)
Record goes_on (w w' : world) : Prop := GoesOn {
  go_next : (next_slot (conn w) <= next_slot (conn w'))%nat;
  go_happened : exists l, happened (kern w') = happened (kern w) ++ l }.

#[export] Instance goes_on_preorder : PreOrder goes_on.
Proof.
  split; [intros w; split; [done|exists []; by rewrite app_nil_r]|].
  intros w1 w2 w3 [A1 [l1 A2]] [B1 [l2 B2]]. split; [lia|]. exists (l1 ++ l2). by rewrite B2, A2, app_assoc.
Qed.

Definition few_slots (w : world) : Prop := Z.of_nat (next_slot (conn w)) < 2 ^ 31.

Definition triple {A} (P : world -> Prop) (f : stm world A) (Q : res A -> world -> Prop) : Prop :=
  forall w r w', f w = (r, w') ->
  goes_on w w' /\ (r <> Err EASSERT -> few_slots w' -> P w -> Q r w').

Lemma triple_bind {A B} P (f : stm world A) (g : A -> stm world B) R Q :
  triple P f R -> (forall a, triple (R (Ok a)) (g a) Q) -> (forall e w, R (Err e) w -> Q (Err e) w) ->
  triple P (f ≫= g) Q.
Proof.
  intros Hf Hg He w r w'. rewrite stm_bind_eq. destruct (f w) as [[a|e] w1] eqn:E.
  - intros H. destruct (Hf _ _ _ E) as [G1 H1], (Hg _ _ _ _ H) as [G2 H2]. split; [by etrans|].
    intros Hr Hn HP. apply H2; [done|done|]. apply H1; [done| |done].
    unfold few_slots in *. destruct G2. lia.
  - intros [= <- <-]. destruct (Hf _ _ _ E) as [G1 H1]. split; [done|]. intros Hr Hn HP. apply He.
    apply H1; [|done|done]. intros [= ->]. done.
Qed.

Lemma triple_weaken {A} P P' (f : stm world A) (Q Q' : res A -> world -> Prop) :
  (forall w, P' w -> P w) -> triple P f Q -> (forall r w, Q r w -> Q' r w) -> triple P' f Q'.
Proof. intros HP H HQ w r w' E. destruct (H _ _ _ E) as [G H1]. split; [done|]. auto. Qed.

Lemma triple_pre {A} P P' (f : stm world A) (Q : res A -> world -> Prop) :
  (forall w, P' w -> P w) -> triple P f Q -> triple P' f Q.
Proof. intros HP H. by apply (triple_weaken P P' f Q Q). Qed.

(** Runs that go on, by their parts *)
Definition grows {A} (f : stm world A) : Prop := forall w r w', f w = (r, w') -> goes_on w w'.

Lemma triple_intro {A} P (f : stm world A) Q :
  grows f -> (forall w r w', f w = (r, w') -> r <> Err EASSERT -> few_slots w' -> P w -> Q r w') -> triple P f Q.
Proof. intros Hg H w r w' E. split; [by eapply Hg|by apply H]. Qed.

Lemma grows_bind {A B} (f : stm world A) (g : A -> stm world B) :
  grows f -> (forall a, grows (g a)) -> grows (f ≫= g).
Proof.
  intros Hf Hg w r w'. rewrite stm_bind_eq. destruct (f w) as [[a|e] w1] eqn:E.
  - intros H. etrans; [by eapply Hf|by eapply Hg].
  - intros [= <- <-]. by eapply Hf.
Qed.

Lemma untouched_goes_on w w' : untouched w w' -> goes_on w w'.
Proof.
  intros [H1 H2 _]. split; [|exists []; by rewrite H2, app_nil_r].
  unfold table in H1. injection H1 as _ -> _ _ _. done.
Qed.

Lemma grows_keeps {A} (f : stm world A) : keeps f -> grows f.
Proof. intros H w r w' E. by apply untouched_goes_on, (H _ _ _ E). Qed.

Lemma grows_mod f : (forall b, (next_slot b <= next_slot (f b))%nat) -> grows (bmod f).
Proof. intros H w r w' [= <- <-]. split; [apply H|]. exists []. by rewrite app_nil_r. Qed.

Lemma grows_attempt {A} (f : stm world A) : grows f -> grows (attempt f).
Proof.
  intros H w r w'. unfold attempt. destruct (f w) as [[a|e] w1] eqn:E; [|destruct e];
    intros [= <- <-]; by eapply H.
Qed.

Lemma grows_cleanup {A} (f : stm world A) c : grows f -> grows c -> grows (or_cleanup f c).
Proof.
  intros Hf Hc w r w'. unfold or_cleanup. destruct (f w) as [[a|e] w1] eqn:E; [intros [= <- <-]; by eapply Hf|].
  intros H. etrans; [by eapply Hf|].
  assert (grows (c;; sfail e : stm world A)) as Hg.
  { apply grows_bind; [done|]. intros _. apply grows_keeps, keeps_fail. }
  destruct e; try (by eapply Hg). by injection H as <- <-.
Qed.

Ltac grows :=
  repeat match goal with
  | |- grows (_ ≫= _) => apply grows_bind
  | |- grows (bmod _) => apply grows_mod; intros; cbn; lia
  | |- grows (attempt _) => apply grows_attempt
  | |- grows (or_cleanup _ _) => apply grows_cleanup
  | |- forall _, _ => intros ?
  | |- grows (let '(_, _) := ?x in _) => destruct x
  | |- grows (match ?x with _ => _ end) => destruct x
  | |- _ => solve [auto with grows | apply grows_keeps; solve [auto with keeps]]
  end.
Create HintDb grows discriminated.

Lemma grows_slot_get i : grows (slot_get i).
Proof. unfold slot_get. grows. Qed.
Lemma grows_slot_put i s : grows (slot_put i s).
Proof. unfold slot_put. grows. Qed.
#[export] Hint Resolve grows_slot_get grows_slot_put : grows.
Lemma grows_mod_reply i f : grows (mod_reply i f).
Proof. unfold mod_reply. grows. Qed.
Lemma grows_remove c : grows (reply_callbacks_remove c).
Proof. unfold reply_callbacks_remove. grows. Qed.
Lemma grows_reply_put i : grows (reply_callbacks_put i).
Proof. unfold reply_callbacks_put. grows. Qed.
Lemma grows_timeouts_remove i : grows (timeouts_remove i).
Proof. unfold timeouts_remove. grows. Qed.
Lemma grows_timeouts_put i : grows (timeouts_put i).
Proof. unfold timeouts_put. grows. Qed.
#[export] Hint Resolve grows_mod_reply grows_remove grows_reply_put grows_timeouts_remove grows_timeouts_put : grows.
Lemma grows_allocate f d : grows (bus_slot_allocate f d).
Proof.
  intros w r w' [= <- <-]. split; [cbn; lia|]. exists []. by rewrite app_nil_r.
Qed.
Lemma grows_detach i : grows (slot_detach i).
Proof. unfold slot_detach. grows. Qed.
Lemma grows_ref i : grows (sd_bus_slot_ref i).
Proof. unfold sd_bus_slot_ref. grows. Qed.
#[export] Hint Resolve grows_allocate grows_detach grows_ref : grows.
Lemma grows_unref i : grows (sd_bus_slot_unref i).
Proof. unfold sd_bus_slot_unref, bus_slot_free. grows. Qed.
#[export] Hint Resolve grows_unref : grows.
Lemma grows_disconnect i u : grows (bus_slot_disconnect i u).
Proof. unfold bus_slot_disconnect. grows. Qed.
Lemma grows_floating i f : grows (sd_bus_slot_set_floating i f).
Proof. unfold sd_bus_slot_set_floating. grows. Qed.
#[export] Hint Resolve grows_disconnect grows_floating : grows.

(** An assertion that holds of what operations outside of the calls leave alone *)
Definition stable (P : world -> Prop) : Prop := forall w w', untouched w w' -> P w -> P w'.

Lemma triple_keeps {A} P (f : stm world A) : stable P -> keeps f -> triple P f (fun _ => P).
Proof.
  intros HP Hf w r w' E. apply Hf in E. split; [by apply untouched_goes_on|]. intros _ _. by apply HP.
Qed.

Lemma stable_inv_at x K : stable (inv_at x K).
Proof.
  intros w w' [H1 H2 H3 H4] ([Hc1 Hc2] & st & Ho & [A1 A2 A3 A4 A5] & HK). split; [split; auto|].
  exists st. rewrite H2. split; [done|]. split; [|done]. unfold table in H1.
  injection H1 as E1 E2 E3 E4 E5. split; rewrite ?E1, ?E2, ?E3, ?E4, ?E5; done.
Qed.
Lemma stable_inv : stable inv.
Proof. apply stable_inv_at. Qed.
#[export] Hint Resolve stable_inv_at stable_inv : keeps.

(** ** References *)

Lemma inv_at_rereferenced x K w i s s' :
  inv_at x K w -> slots (conn w) !! i = Some s -> attached s' = attached s -> slot_body s' = slot_body s ->
  inv_at x K (World (set_slots (<[i := s']> (slots (conn w))) (conn w)) (kern w)).
Proof.
  intros (Hc & st & Ho & [A1 A2 A3 A4 A5] & HK) Hi Ha Hb. split; [done|]. exists st. split; [done|].
  split; [|done]. split; try done. cbn [conn]. change (slots (set_slots ?x _)) with x.
  eapply calls_ok_bodies; [exact A1| |].
  - intros j. destruct (decide (i = j)) as [<-|Hj]; [|by apply body_at_insert_ne].
    rewrite body_at_insert. unfold body_at. by rewrite Hi, Hb.
  - intros j t Hj. apply lookup_insert_Some in Hj as [[<- <-]|[_ Hj]].
    + rewrite Ha, Hb. split; [by eapply ok_fresh|by eapply ok_attached].
    + split; [by eapply ok_fresh|by eapply ok_attached].
Qed.

Lemma slot_get_run i w :
  slot_get i w = match slots (conn w) !! i with Some s => (Ok s, w) | None => (Err EASSERT, w) end.
Proof. unfold slot_get. rewrite stm_bind_eq. cbn. by destruct (slots (conn w) !! i). Qed.

(** The result of an operation that fails an assertion does not matter. *)
Lemma triple_ref x K i : triple (inv_at x K) (sd_bus_slot_ref i) (fun _ => inv_at x K).
Proof.
  apply triple_intro; [auto with grows|]. intros w r w'. unfold sd_bus_slot_ref. rewrite stm_bind_eq, slot_get_run.
  destruct (slots (conn w) !! i) as [s|] eqn:E; [|by intros [= <- <-]].
  rewrite stm_bind_eq. unfold sreq, slift, require. destruct (0 <? n_ref s); intros [= <- <-]; [|done].
  intros _ _ H. by apply (inv_at_rereferenced x K w i s).
Qed.

(** ** Taking a call out of the table *)
Lemma remove_run w nx Q F i :
  calls_ok (slots (conn w)) nx (reply_callbacks (conn w)) Q F -> i ∈ reply_callbacks (conn w) ->
  reply_callbacks_remove (cookie (reply_of (slots (conn w)) i)) w =
  (Ok (Some i), World (set_reply_callbacks (without i (reply_callbacks (conn w))) (conn w)) (kern w)).
Proof.
  intros H Hi. unfold reply_callbacks_remove. rewrite stm_bind_eq. cbn.
  by rewrite (find_cookie_here _ _ _ _ _ _ H Hi).
Qed.

Lemma queued_item sl nx R Q F i :
  calls_ok sl nx R Q F -> timeout_usec (reply_of sl i) <> 0 -> Item i (Some i) ∈ items Q.
Proof.
  intros H Ht. apply (ok_queued _ _ _ _ _ H) in Ht. apply list_elem_of_fmap in Ht as ([d x] & -> & Hx).
  pose proof (ok_cells _ _ _ _ _ H _ Hx) as E. cbn in *. by subst x.
Qed.

Lemma timeouts_remove_run w nx R F i :
  calls_ok (slots (conn w)) nx R (reply_callbacks_prioq (conn w)) F ->
  timeout_usec (reply_of (slots (conn w)) i) <> 0 ->
  exists Q', timeouts_remove i w = (Ok tt, World (set_reply_callbacks_prioq Q' (conn w)) (kern w)) /\
    dequeued (slots (conn w)) i (reply_callbacks_prioq (conn w)) Q'.
Proof.
  intros H Ht. destruct (remove_by_cell (compare_slots (slots (conn w))) _ i i (ok_wf _ _ _ _ _ H)
    (queued_item _ _ _ _ _ _ H Ht)) as (Q' & E & W & P).
  exists Q'. unfold timeouts_remove. rewrite stm_bind_eq. cbn. rewrite E. split; [done|].
  unfold dequeued. by rewrite (proj2 (Z.eqb_neq _ 0)).
Qed.

Lemma dequeued_none sl nx R Q F i :
  calls_ok sl nx R Q F -> i ∉ R -> dequeued sl i Q Q.
Proof.
  intros H Hi. unfold dequeued. destruct (Z.eqb_spec (timeout_usec (reply_of sl i)) 0) as [|E]; [done|].
  by apply (ok_timed _ _ _ _ _ H) in E.
Qed.

(** The first half of disconnecting the slot of a call *)
Lemma unlink_run w nx F i :
  let b := conn w in let c := reply_of (slots b) i in
  calls_ok (slots b) nx (reply_callbacks b) (reply_callbacks_prioq b) F ->
  exists Q', ((if cookie c =? 0 then mret tt else reply_callbacks_remove (cookie c);; mret tt);;
              (if timeout_usec c =? 0 then mret tt else timeouts_remove i)) w =
    (Ok tt, World (if cookie c =? 0 then b
                   else if timeout_usec c =? 0 then set_reply_callbacks (without i (reply_callbacks b)) b
                   else set_reply_callbacks_prioq Q' (set_reply_callbacks (without i (reply_callbacks b)) b)) (kern w)) /\
    dequeued (slots b) i (reply_callbacks_prioq b) Q' /\ (timeout_usec c = 0 -> Q' = reply_callbacks_prioq b).
Proof.
  intros b c H. destruct (Z.eqb_spec (cookie c) 0) as [Hc|Hc].
  { assert (i ∉ reply_callbacks b) as Hi by (rewrite (ok_pending _ _ _ _ _ H); intros E; by apply E).
    assert (timeout_usec c = 0) as Ht.
    { destruct (Z.eq_dec (timeout_usec c) 0) as [|E]; [done|]. by apply (ok_timed _ _ _ _ _ H) in E. }
    exists (reply_callbacks_prioq b). rewrite (proj2 (Z.eqb_eq _ _) Ht). split; [by destruct w|].
    split; [by eapply dequeued_none|done]. }
  assert (i ∈ reply_callbacks b) as Hi by (by rewrite (ok_pending _ _ _ _ _ H)).
  set (w1 := World (set_reply_callbacks (without i (reply_callbacks b)) b) (kern w)).
  assert (E1 : (reply_callbacks_remove (cookie c);; mret tt : stm world unit) w = (Ok tt, w1)).
  { rewrite stm_bind_eq. unfold c, b. by rewrite (remove_run w _ _ _ _ H Hi). }
  destruct (Z.eqb_spec (timeout_usec c) 0) as [Ht|Ht].
  - exists (reply_callbacks_prioq b). rewrite stm_bind_eq, E1. split; [done|].
    split; [unfold dequeued; fold c; by rewrite (proj2 (Z.eqb_eq _ _) Ht)|done].
  - destruct (timeouts_remove_run w1 nx (reply_callbacks b) F i H Ht) as (Q' & E & D). exists Q'.
    rewrite stm_bind_eq, E1, E. split; [done|]. split; [exact D|done].
Qed.

(** Taking a slot out of the structures of the connection; [i] may not be one the
    observer waits for. *)
Definition given_up (x : option nat) (i : nat) (st : gmap nat status) : Prop :=
  st !! i <> Some Pending \/ x = Some i.

Definition invalid (s : sd_bus_slot) : sd_bus_slot := Slot (n_ref s) false (floating s) BUS_SLOT_INVALID.

Lemma agree_taken x st b i Q' F' sl' :
  agree x st b -> given_up x i st ->
  calls_ok sl' (next_slot b) (without i (reply_callbacks b)) Q' F' ->
  (forall j, j ∈ F' -> j ∈ filter_callbacks b) ->
  forall b', table b' = (sl', next_slot b, without i (reply_callbacks b), Q', F') -> agree x st b'.
Proof.
  intros [A1 A2 A3 A4 A5] Hg Hok HF b' E. injection E as E1 E2 E3 E4 E5.
  split; rewrite ?E1, ?E2, ?E3, ?E4, ?E5; [done| | |done|by intros j ?%HF; apply A5].
  - intros j [Hj _]%elem_of_without. by apply A2.
  - intros j Hj. destruct (A3 j Hj) as [HR|HR]; [|by right]. destruct (decide (j = i)) as [->|Hij].
    + destruct Hg as [Hg|Hg]; [done|by right].
    + left. by apply elem_of_without.
Qed.

Lemma insert_bodies sl nx R Q F i s :
  calls_ok sl nx R Q F -> (i < nx)%nat -> (attached s = true <-> slot_body s <> BUS_SLOT_INVALID) ->
  forall j t, <[i := s]> sl !! j = Some t ->
    (j < nx)%nat /\ (attached t = true <-> slot_body t <> BUS_SLOT_INVALID).
Proof.
  intros H Hi Hs j t Hj. apply lookup_insert_Some in Hj as [[<- <-]|[_ Hj]]; [by split|].
  split; [by eapply ok_fresh|by eapply ok_attached].
Qed.

(** Only a filter is a filter. *)
Lemma not_filter sl i b : body_at sl i = Some b -> (forall h n, b <> BUS_FILTER_CALLBACK h n) -> ~ is_filter sl i.
Proof. unfold is_filter. intros -> Hb (h & n & [= ->]). by eapply Hb. Qed.

Lemma body_of sl i s : sl !! i = Some s -> body_at sl i = Some (slot_body s).
Proof. unfold body_at. by intros ->. Qed.

Lemma triple_detach x K i : (forall st, K st -> given_up x i st) ->
  triple (inv_at x K) (slot_detach i) (fun r w => r = Ok tt /\ inv_at x K w /\ i ∉ reply_callbacks (conn w) /\
    body_at (slots (conn w)) i = Some BUS_SLOT_INVALID).
Proof.
  intros HK. apply triple_intro; [auto with grows|]. intros w r w' E Hr _ (Hc & st & Ho & Ha & Hst).
  pose proof (HK st Hst) as Hg.
  pose proof (ag_calls _ _ _ Ha) as Hok.
  unfold slot_detach in E. rewrite stm_bind_eq, slot_get_run in E.
  destruct (slots (conn w) !! i) as [s|] eqn:Hs; [|by injection E as <- <-].
  assert (Hlt : (i < next_slot (conn w))%nat) by (by eapply ok_fresh).
  set (sl' := <[i := invalid s]> (slots (conn w))).
  assert (Hsl' : forall j t, sl' !! j = Some t ->
    (j < next_slot (conn w))%nat /\ (attached t = true <-> slot_body t <> BUS_SLOT_INVALID)).
  { apply (insert_bodies _ _ _ _ _ _ _ Hok Hlt). by cbn. }
  assert (Hri : reply_of sl' i = none_reply) by (unfold sl'; by rewrite reply_of_insert).
  assert (Hbo : forall j, j <> i -> body_at sl' j = body_at (slots (conn w)) j).
  { intros j Hj. unfold sl'. by rewrite body_at_insert_ne. }
  (* whatever the slot was, this is the table afterwards *)
  assert (Hend : forall Q' F', dequeued (slots (conn w)) i (reply_callbacks_prioq (conn w)) Q' -> NoDup F' ->
    (forall j, j ∈ F' <-> is_filter sl' j) -> (forall j, j ∈ F' -> j ∈ filter_callbacks (conn w)) ->
    table (conn w') = (sl', next_slot (conn w), without i (reply_callbacks (conn w)), Q', F') ->
    kern w' = kern w -> (receives (conn w) -> receives (conn w')) -> inv_at x K w' /\ i ∉ reply_callbacks (conn w') /\
      body_at (slots (conn w')) i = Some BUS_SLOT_INVALID).
  { intros Q' F' HQ HF1 HF2 HF3 Ht Hk Hrc. split.
    - split; [rewrite Hk; by split; [|apply Hrc]; apply Hc|]. exists st. rewrite Hk. split; [done|]. split; [|done].
      eapply agree_taken; [exact Ha|exact Hg| |exact HF3|exact Ht]. by eapply calls_ok_take.
    - injection Ht as -> _ -> _ _. split; [by intros [_ ?]%elem_of_without|]. unfold sl'. by rewrite body_at_insert. }
  destruct (slot_body s) as [c h|h n|] eqn:Hb; [| |by injection E as <- <-].
  - destruct (unlink_run w (next_slot (conn w)) (filter_callbacks (conn w)) i Hok) as (Q' & Er & HQ & HQ0).
    assert (reply_of (slots (conn w)) i = c) as Hrc by (by rewrite reply_of_body; unfold body_at; rewrite Hs; cbn; rewrite Hb).
    rewrite Hrc in Er, HQ0. rewrite stm_bind_eq, Er in E. injection E as <- <-. split; [done|].
    apply (Hend Q' (filter_callbacks (conn w)) HQ); [apply Hok| |done| |done|by repeat case_match].
    + intros j. rewrite (ok_filters _ _ _ _ _ Hok). destruct (decide (j = i)) as [->|Hj].
      * split; intros Hf; exfalso; revert Hf.
        -- apply (not_filter _ _ (BUS_REPLY_CALLBACK c h)); [by rewrite (body_of _ _ _ Hs), Hb|done].
        -- apply (not_filter _ _ BUS_SLOT_INVALID); [unfold sl'; by rewrite body_at_insert|done].
      * unfold is_filter. by rewrite Hbo.
    + assert (cookie c = 0 -> without i (reply_callbacks (conn w)) = reply_callbacks (conn w)) as H0.
      { intros H0. apply without_not_in. rewrite (ok_pending _ _ _ _ _ Hok), Hrc. by intros []. }
      assert (cookie c = 0 -> timeout_usec c = 0) as H1.
      { intros H1. destruct (Z.eq_dec (timeout_usec c) 0) as [|H2]; [done|]. rewrite <- Hrc in H2.
        apply (ok_timed _ _ _ _ _ Hok) in H2. rewrite (ok_pending _ _ _ _ _ Hok), Hrc in H2. done. }
      unfold table. cbn [conn]. destruct (Z.eqb_spec (cookie c) 0) as [Hc0|Hc0].
      * cbn. by rewrite H0, (HQ0 (H1 Hc0)).
      * destruct (Z.eqb_spec (timeout_usec c) 0) as [Ht0|Ht0]; cbn; [by rewrite (HQ0 Ht0)|done].
  - rewrite stm_bind_eq in E. injection E as <- <-. split; [done|].
    assert (i ∉ reply_callbacks (conn w)) as Hi.
    { rewrite (ok_pending _ _ _ _ _ Hok), reply_of_body. unfold body_at. rewrite Hs. cbn. rewrite Hb. by intros []. }
    apply (Hend (reply_callbacks_prioq (conn w)) (without i (filter_callbacks (conn w)))); [by eapply dequeued_none| | |by intros j [? _]%elem_of_without| |done|done].
    + apply NoDup_without, Hok.
    + intros j. rewrite elem_of_without, (ok_filters _ _ _ _ _ Hok). destruct (decide (j = i)) as [->|Hj].
      * split; [by intros []|]. intros Hf. exfalso. revert Hf. apply (not_filter _ _ BUS_SLOT_INVALID); [|done].
        unfold sl'. by rewrite body_at_insert.
      * unfold is_filter. rewrite Hbo by done. split; [by intros []|done].
    + unfold table. cbn. by rewrite (without_not_in i (reply_callbacks _)).
Qed.

Lemma inv_at_deleted x K w i :
  inv_at x K w -> body_at (slots (conn w)) i = Some BUS_SLOT_INVALID ->
  inv_at x K (World (set_slots (delete i (slots (conn w))) (conn w)) (kern w)).
Proof.
  intros (Hc & st & Ho & [A1 A2 A3 A4 A5] & HK) Hi. split; [done|]. exists st. split; [done|]. split; [|done].
  split; try done. change (calls_ok (delete i (slots (conn w))) (next_slot (conn w)) (reply_callbacks (conn w))
    (reply_callbacks_prioq (conn w)) (filter_callbacks (conn w))).
  assert (reply_of (slots (conn w)) i = none_reply) as Hri by (by rewrite reply_of_body, Hi).
  assert (i ∉ reply_callbacks (conn w)) as HiR by (rewrite (ok_pending _ _ _ _ _ A1), Hri; by intros []).
  rewrite <- (without_not_in i (reply_callbacks (conn w))) by done.
  assert (forall j, body_at (delete i (slots (conn w))) j = if decide (j = i) then None else body_at (slots (conn w)) j) as Hb.
  { intros j. unfold body_at. case_decide as Hj; [subst j; by rewrite lookup_delete_eq|by rewrite lookup_delete_ne]. }
  eapply calls_ok_take with (i := i); [exact A1| | | |apply A1| |by eapply dequeued_none].
  - by rewrite reply_of_body, Hb, decide_True.
  - intros j Hj. by rewrite Hb, decide_False.
  - intros j s Hj. apply lookup_delete_Some in Hj as [_ Hj]. split; [by eapply ok_fresh|by eapply ok_attached].
  - intros j. rewrite (ok_filters _ _ _ _ _ A1). unfold is_filter. rewrite Hb. case_decide as Hj; [subst j|done].
    rewrite Hi. split; by intros (h & n & ?).
Qed.

Lemma triple_free x K i : (forall st, K st -> given_up x i st) ->
  triple (inv_at x K) (bus_slot_free i) (fun r w => r = Ok tt /\ inv_at x K w /\ i ∉ reply_callbacks (conn w)).
Proof.
  intros HK. apply triple_intro; [unfold bus_slot_free; grows|]. intros w r w' E Hr Hf Hw.
  unfold bus_slot_free in E. rewrite stm_bind_eq, slot_get_run in E.
  destruct (slots (conn w) !! i) as [s|] eqn:Hs; [|by injection E as <- <-].
  rewrite stm_bind_eq in E. pose proof Hw as (Hc & st & Ho & Ha & HKst). pose proof (ag_calls _ _ _ Ha) as Hok.
  destruct (attached s) eqn:Hat.
  - destruct (slot_detach i w) as [[[]|e] w1] eqn:Ed.
    + injection E as <- <-. destruct (triple_detach x K i HK w _ _ Ed) as [_ Hd].
      destruct Hd as (_ & H1 & H2 & H3); [done|done|exact Hw|]. split; [done|]. split; [by apply inv_at_deleted|exact H2].
    + injection E as <- <-. destruct (triple_detach x K i HK w _ _ Ed) as [_ Hd]. by destruct Hd as [Hd _].
  - injection E as <- <-. split; [done|].
    assert (slot_body s = BUS_SLOT_INVALID) as Hb.
    { pose proof (proj2 (ok_attached _ _ _ _ _ Hok _ _ Hs)) as Hb. destruct (slot_body s); [..|done];
        by rewrite Hb in Hat by done. }
    split.
    + apply inv_at_deleted; [done|]. unfold body_at. rewrite Hs. cbn. by rewrite Hb.
    + change (i ∉ reply_callbacks (conn w)). rewrite (ok_pending _ _ _ _ _ Hok), reply_of_body. unfold body_at.
      rewrite Hs. cbn. rewrite Hb. by intros [].
Qed.

Lemma triple_unref x K i : (forall st, K st -> given_up x i st) ->
  triple (inv_at x K) (sd_bus_slot_unref i) (fun _ => inv_at x K).
Proof.
  intros HK. apply triple_intro; [auto with grows|]. intros w r w' E Hr Hf Hw.
  unfold sd_bus_slot_unref in E. rewrite stm_bind_eq, slot_get_run in E.
  destruct (slots (conn w) !! i) as [s|] eqn:Hs; [|by injection E as <- <-].
  rewrite stm_bind_eq in E. unfold sreq, slift, require in E. destruct (0 <? n_ref s); [|by injection E as <- <-].
  rewrite stm_bind_eq in E. unfold slot_put in E. rewrite stm_bind_eq in E || idtac. cbn in E.
  match type of E with _ ?x = _ => set (w1 := x) in E end.
  assert (inv_at x K w1) as Hw1 by (by apply (inv_at_rereferenced x K w i s)).
  destruct (0 <? n_ref s - 1); [by injection E as <- <-|].
  destruct (triple_free x K i HK w1 _ _ E) as [_ H]. by destruct H as (_ & H & _).
Qed.

Lemma triple_disconnect x K i u : (forall st, K st -> given_up x i st) ->
  triple (inv_at x K) (bus_slot_disconnect i u) (fun _ => inv_at x K).
Proof.
  intros HK. apply triple_intro; [auto with grows|]. intros w r w' E Hr Hf Hw.
  unfold bus_slot_disconnect in E. rewrite stm_bind_eq, slot_get_run in E.
  destruct (slots (conn w) !! i) as [s|] eqn:Hs; [|by injection E as <- <-].
  destruct (attached s); cbn [negb] in E; [|by injection E as <- <-].
  rewrite stm_bind_eq in E. destruct (slot_detach i w) as [[[]|e] w1] eqn:Ed.
  - assert (goes_on w1 w') as G.
    { destruct (floating s && u); [by eapply grows_unref|by injection E as <- <-]. }
    destruct (triple_detach x K i HK w _ _ Ed) as [_ Hd]. destruct Hd as (_ & Hd & _); [done| |done|].
    { unfold few_slots in *. destruct G. lia. }
    destruct (floating s && u); [|by injection E as <- <-].
    by apply (triple_unref x K i HK w1 _ _ E).
  - injection E as <- <-. destruct (triple_detach x K i HK w _ _ Ed) as [_ Hd]. by destruct Hd as [Hd _].
Qed.

(** ** Operations that keep the invariant, whatever they return *)
Definition preserves {A} (f : stm world A) : Prop := triple inv f (fun _ => inv).

Lemma preserves_keeps {A} (f : stm world A) : keeps f -> preserves f.
Proof. intros H. apply triple_keeps; [apply stable_inv|done]. Qed.

Lemma preserved_bind {A B} (f : stm world A) (g : A -> stm world B) :
  preserves f -> (forall a, preserves (g a)) -> preserves (f ≫= g).
Proof. intros Hf Hg. by eapply triple_bind. Qed.

Lemma triple_attempt {A} P Q (f : stm world A) :
  triple P f (fun _ => Q) -> triple P (attempt f) (fun _ => Q).
Proof.
  intros H w r w'. unfold attempt. destruct (f w) as [[a|e] w1] eqn:E; destruct (H _ _ _ E) as [G H1].
  - intros [= <- <-]. split; [done|]. intros _. by apply H1.
  - destruct (decide (e = EASSERT)) as [->|He]; [by intros [= <- <-]|].
    destruct e; try done; intros [= <- <-]; (split; [done|]); intros _; by apply H1.
Qed.

Lemma triple_grows {A} P (f : stm world A) Q : triple P f Q -> grows f.
Proof. intros H w r w' E. by destruct (H _ _ _ E). Qed.

Lemma inv_at_weaken x (K K' : gmap nat status -> Prop) w : (forall st, K st -> K' st) -> inv_at x K w -> inv_at x K' w.
Proof. intros H (Hc & st & Ho & Ha & HK). split; [done|]. exists st. auto. Qed.

(** What is settled stays settled. *)
Lemma triple_settled {A} (f : stm world A) i :
  preserves f -> triple (inv_at None (fun st => settled st i)) f (fun _ => inv_at None (fun st => settled st i)).
Proof.
  intros H w r w' E. destruct (H _ _ _ E) as [G H1]. split; [done|]. intros Hr Hf (Hc & st & Ho & Ha & Hs).
  destruct H1 as (Hc' & st' & Ho' & Ha' & _); [done|done|by apply (inv_at_weaken None (fun st => settled st i)); [|split; [done|exists st]]|].
  split; [done|]. exists st'. split; [done|]. split; [done|]. destruct G as [_ [l El]]. rewrite El in Ho'.
  exact (observed_settled _ _ _ _ _ Ho Ho' Hs).
Qed.

Lemma settled_given_up x i st : settled st i -> given_up x i st.
Proof. intros (s & Hs & Hp). left. rewrite Hs. by intros [= ->]. Qed.

