(* ===== verification/CallAsk.v ===== *)
(** * Asking

    Starting a call, and whatever else a user's program does to the connection,
    refines the automaton of CallSlots. *)
From S2P Require Import Prelude BusType Names BusError MsgState MsgFields MsgRead MsgParse MsgCopy MsgOrder Prioq Bus Sasl Transport Call Dispatch CallState CallKeeps CallSlots.

(** ** What the user does to slots *)
Lemma grows_note h : grows (note h).
Proof. intros w r w' [= <- <-]. split; [done|]. by exists [h]. Qed.
#[export] Hint Resolve grows_note : grows.

Definition not_waiting (i : nat) (st : gmap nat status) : Prop := st !! i <> Some Pending.

Lemma observe_released st i : exists st', observe st (Released i) = Some st' /\
  (forall j, j <> i -> st' !! j = st !! j) /\
  st' !! i = match st !! i with Some Pending => Some Loose | o => o end.
Proof.
  eexists. split; [done|]. split.
  - intros j Hj. destruct (st !! i) as [[]|]; try done. by rewrite lookup_insert_ne.
  - destruct (st !! i) as [[]|] eqn:E; try done. by rewrite lookup_insert_eq.
Qed.

Lemma triple_released i : triple inv (note (Released i)) (fun _ => inv_at None (not_waiting i)).
Proof.
  apply triple_intro; [auto with grows|]. intros w r w' [= <- <-] _ _ (Hc & st & Ho & [A1 A2 A3 A4 A5] & _).
  split; [done|]. destruct (observe_released st i) as (st' & E & Hst & Hsi). exists st'.
  split; [cbn [kern happened]; by rewrite observed_snoc, Ho|]. split.
  - split; [exact A1| | | |]; cbn [conn].
    + intros j Hj Hx. destruct (decide (j = i)) as [->|Hji].
      * rewrite Hsi. destruct (A2 i Hj Hx) as [->| ->]; naive_solver.
      * rewrite Hst by done. by apply A2.
    + intros j Hj. destruct (decide (j = i)) as [->|Hji].
      * rewrite Hsi in Hj. by destruct (st !! i) as [[]|].
      * rewrite Hst in Hj by done. by apply A3.
    + intros j Hj. apply A4. destruct (decide (j = i)) as [->|Hji]; [|by rewrite Hst in Hj].
      rewrite Hsi in Hj. destruct (st !! i) as [[]|]; [done..|by destruct Hj].
    + intros j Hj. specialize (A5 j Hj). destruct (decide (j = i)) as [->|Hji]; [|by rewrite Hst].
      rewrite Hsi. by destruct A5 as [-> | ->]; [left|right].
  - unfold not_waiting. rewrite Hsi. by destruct (st !! i) as [[]|].
Qed.

Lemma preserves_released {A} i (f : stm world A) :
  triple (inv_at None (not_waiting i)) f (fun _ => inv_at None (not_waiting i)) -> preserves (note (Released i);; f).
Proof.
  intros H. eapply triple_bind; [apply triple_released| |].
  - intros []. eapply triple_weaken; [|exact H|]; [done|]. intros ? w. by apply inv_at_weaken.
  - intros e w. by apply inv_at_weaken.
Qed.

Lemma given_up_not_pending i st : st !! i <> Some Pending -> given_up None i st.
Proof. by left. Qed.

Lemma triple_floating x K i f : (forall st, K st -> given_up x i st) ->
  triple (inv_at x K) (sd_bus_slot_set_floating i f) (fun _ => inv_at x K).
Proof.
  intros HK. apply triple_intro; [auto with grows|]. intros w r w' E Hr Hf Hw.
  unfold sd_bus_slot_set_floating in E. rewrite stm_bind_eq, slot_get_run in E.
  destruct (slots (conn w) !! i) as [s|] eqn:Hs; [|by injection E as <- <-].
  destruct (Bool.eqb (floating s) f); [by injection E as <- <-|].
  rewrite stm_bind_eq in E. unfold sreq, slift, require in E. destruct (attached s) eqn:Hat; [|by injection E as <- <-].
  rewrite stm_bind_eq in E. unfold slot_put in E. cbn in E.
  match type of E with _ ?x = _ => set (w1 := x) in E end.
  assert (inv_at x K w1) as Hw1 by (by apply (inv_at_rereferenced x K w i s)).
  assert (triple (inv_at x K) ((if f then sd_bus_slot_ref i else sd_bus_slot_unref i);; mret true) (fun _ => inv_at x K)) as T.
  { eapply triple_bind with (R := fun _ => inv_at x K); [| |done].
    - destruct f; [apply triple_ref|by apply triple_unref].
    - intros []. apply triple_keeps; auto with keeps. }
  destruct (T w1 _ _ E) as [_ H]. by apply H.
Qed.

(** ** Asking *)
Definition unasked (i : nat) (st : gmap nat status) : Prop := st !! i = None.

Lemma unasked_given_up x i st : unasked i st -> given_up x i st.
Proof. intros H. left. by rewrite H. Qed.

(** The slot of a call that is being started *)
Definition call_slot (f : bool) (h : option handler) (c t : Z) : sd_bus_slot :=
  new_slot f (BUS_REPLY_CALLBACK (ReplyCallback c t) h).

Definition linked (i : nat) (s : sd_bus_slot) (w : world) : Prop :=
  inv_at (Some i) (unasked i) w /\ slots (conn w) !! i = Some s.

Lemma stable_linked i s : stable (linked i s).
Proof.
  intros w w' H [H1 H2]. split; [by eapply stable_inv_at|]. destruct H as [H _ _]. injection H as -> _ _ _ _. done.
Qed.
#[export] Hint Resolve stable_linked : keeps.

Lemma inv_linked i w : inv_at (Some i) (unasked i) w -> i ∉ reply_callbacks (conn w) -> inv w.
Proof.
  intros (Hc & st & Ho & [A1 A2 A3 A4 A5] & HK) Hi. split; [done|]. exists st. split; [done|]. split; [|done].
  split; [done| | |done|done].
  - intros j Hj _. apply A2; [done|]. intros [= ->]. done.
  - intros j Hj. destruct (A3 j Hj) as [Hl|Hl]; [by left|injection Hl as ->]. unfold unasked in HK. by rewrite HK in Hj.
Qed.

(** Giving up a call that is being started *)
Lemma unlink_unref i f h c t :
  triple (linked i (call_slot f h c t)) (sd_bus_slot_unref i) (fun _ => inv).
Proof.
  apply triple_intro; [auto with grows|]. intros w r w' E Hr Hf [Hw Hs].
  unfold sd_bus_slot_unref in E. rewrite stm_bind_eq, slot_get_run, Hs, stm_bind_eq in E. cbn in E.
  destruct (triple_free (Some i) (unasked i) i (unasked_given_up _ i) _ _ _ E) as [_ H].
  destruct H as (_ & H1 & H2); [done|done| |by eapply inv_linked].
  apply (inv_at_rereferenced _ _ w i (call_slot f h c t)); done.
Qed.

(** After the slot is allocated, before it is in the table *)
Definition allocated (i : nat) (s : sd_bus_slot) (w : world) : Prop :=
  exists b, inv (World b (kern w)) /\ next_slot b = i /\ receives (conn w) /\
  table (conn w) = (<[i := s]> (slots b), S i, reply_callbacks b, reply_callbacks_prioq b, filter_callbacks b).

Lemma triple_allocate f d :
  triple inv (bus_slot_allocate f d)
    (fun r w => match r with Ok i => allocated i (new_slot f d) w | Err _ => inv w end).
Proof.
  apply triple_intro; [auto with grows|]. intros w r w' E _ _ Hw. injection E as <- <-.
  exists (conn w). split; [by destruct w|]. split; [done|]. split; [by destruct Hw as [[_ ?] _]|done].
Qed.

Lemma calls_ok_more sl nx R Q F : calls_ok sl nx R Q F -> calls_ok sl (S nx) R Q F.
Proof.
  intros H. eapply calls_ok_bodies; [exact H|done|]. intros i s Hi. split; [|by eapply ok_attached].
  apply (ok_fresh _ _ _ _ _ H) in Hi. lia.
Qed.

(** A new slot that is not in the table of calls *)
Lemma calls_ok_idle sl nx R Q F F' f d :
  calls_ok sl nx R Q F -> d <> BUS_SLOT_INVALID ->
  default none_reply (reply_callback_of (new_slot f d)) = none_reply ->
  NoDup F' -> (forall j, j ∈ F' <-> is_filter (<[nx := new_slot f d]> sl) j) ->
  calls_ok (<[nx := new_slot f d]> sl) (S nx) R Q F'.
Proof.
  intros H Hd Hn HF1 HF2. destruct (next_not_in _ _ _ _ _ H) as (_ & HR & _ & _).
  rewrite <- (without_not_in nx R) by done.
  eapply calls_ok_take with (i := nx); [by apply calls_ok_more| | | |done|done|by eapply dequeued_none].
  - by rewrite reply_of_insert.
  - intros j Hj. by rewrite body_at_insert_ne.
  - by eapply calls_ok_next.
Qed.

Lemma not_filter_insert sl nx c h f j : sl !! nx = None ->
  is_filter (<[nx := new_slot f (BUS_REPLY_CALLBACK c h)]> sl) j <-> is_filter sl j.
Proof.
  intros Hn. unfold is_filter. destruct (decide (j = nx)) as [->|Hj].
  - rewrite body_at_insert. unfold body_at. rewrite Hn. naive_solver.
  - by rewrite body_at_insert_ne.
Qed.

(** The new slot in a table that is in order *)
Lemma allocated_linked i s w b b' sl R Q :
  inv (World b (kern w)) -> next_slot b = i -> sl !! i = Some s ->
  (forall j, j ∈ reply_callbacks b -> j ∈ R) -> (forall j, j ∈ R -> j ∈ reply_callbacks b \/ j = i) ->
  calls_ok sl (S i) R Q (filter_callbacks b) ->
  receives b' -> table b' = (sl, S i, R, Q, filter_callbacks b) -> linked i s (World b' (kern w)).
Proof.
  intros ([Hc _] & st & Ho & [A1 A2 A3 A4 A5] & _) Hn Hs HR HR' Hok Hrc Ht.
  cbn [conn kern] in *. injection Ht as E1 E2 E3 E4 E5.
  assert (st !! i = None) as Hi.
  { destruct (st !! i) eqn:E; [|done]. specialize (A4 i). rewrite E, Hn in A4. specialize (A4 ltac:(by eexists)). lia. }
  split; [|by cbn [conn]; rewrite E1]. split; [done|]. exists st. split; [done|]. split; [|done].
  cbn [conn]. split; rewrite ?E1, ?E2, ?E3, ?E4, ?E5; [done| | | |exact A5].
  - intros j Hj Hx. destruct (HR' j Hj) as [Hl| ->]; [by apply A2|done].
  - intros j Hj. left. destruct (A3 j Hj); [by apply HR|done].
  - intros j Hj. specialize (A4 j Hj). lia.
Qed.

(** Entering the table; a cookie that is taken already leaves the slot idle. *)
Lemma triple_reply_put i f h c : 0 < c ->
  triple (allocated i (call_slot f h c 0)) (or_cleanup (reply_callbacks_put i) (mod_reply i (set_cookie 0)))
    (fun r => match r with Ok _ => linked i (call_slot f h c 0) | Err _ => linked i (call_slot f h 0 0) end).
Proof.
  intros Hc. apply triple_intro; [apply grows_cleanup; auto with grows|]. intros w r w' E Hr Hf (b & Hb & Hn & Hrc & Ht).
  pose proof Hb as (_ & st & _ & Ha & _). pose proof (ag_calls _ _ _ Ha) as Hok. cbn [conn] in Hok. rewrite Hn in Hok.
  destruct (next_not_in _ _ _ _ _ Hok) as (Hsn & HiR & _ & _).
  set (sl := <[i := call_slot f h c 0]> (slots b)) in Ht.
  assert (Hsl : sl !! i = Some (call_slot f h c 0)) by apply lookup_insert_eq.
  assert (Hri : reply_of sl i = ReplyCallback c 0) by (unfold sl; by rewrite reply_of_insert).
  assert (Hfi : forall l, i ∉ l -> find_cookie sl c l = find_cookie (slots b) c l).
  { induction l as [|j l IH]; [done|]. intros [H1 H2]%not_elem_of_cons. cbn [find_cookie].
    unfold sl at 1. rewrite reply_of_insert_ne by done. by rewrite IH. }
  unfold or_cleanup, reply_callbacks_put in E. rewrite stm_bind_eq in E. cbn in E.
  injection Ht as E1 E2 E3 E4 E5. rewrite E1, E3, Hri in E. cbn [cookie] in E. rewrite (Hfi _ HiR) in E.
  rewrite stm_bind_eq in E. unfold sreq, slift, require in E. case_bool_decide as Hfc; cbn in E.
  - injection E as <- <-. apply (allocated_linked i _ w b _ sl (reply_callbacks b ++ [i]) (reply_callbacks_prioq b)); try done.
    + intros j Hj. apply elem_of_app. by left.
    + intros j [Hj|Hj%list_elem_of_singleton]%elem_of_app; [by left|by right].
    + apply calls_ok_new; [done|lia|done].
    + unfold table. cbn. by rewrite E1, E2, E4, E5.
  - rewrite stm_bind_eq in E. unfold mod_reply, bmod in E. cbn in E. rewrite E1 in E. injection E as <- <-.
    assert (Hal : alter (upd_reply (set_cookie 0)) i sl = <[i := call_slot f h 0 0]> (slots b)).
    { unfold sl. by rewrite alter_insert_eq. }
    apply (allocated_linked i _ w b _ (<[i := call_slot f h 0 0]> (slots b)) (reply_callbacks b) (reply_callbacks_prioq b)); try done.
    + apply lookup_insert_eq.
    + intros j Hj. by left.
    + eapply calls_ok_idle; [done|done|done|apply Hok|].
      intros j. rewrite (ok_filters _ _ _ _ _ Hok). symmetry. by apply not_filter_insert.
    + unfold table. cbn. by rewrite Hal, E2, E3, E4, E5.
Qed.

(** Timing *)
Lemma agree_calls x st b b' sl Q :
  agree x st b -> calls_ok sl (next_slot b) (reply_callbacks b) Q (filter_callbacks b) ->
  table b' = (sl, next_slot b, reply_callbacks b, Q, filter_callbacks b) -> agree x st b'.
Proof.
  intros [A1 A2 A3 A4 A5] H E. injection E as E1 E2 E3 E4 E5. by split; rewrite ?E1, ?E2, ?E3, ?E4, ?E5.
Qed.

Lemma inv_at_calls x K w b' sl Q :
  let b := conn w in
  inv_at x K w -> calls_ok sl (next_slot b) (reply_callbacks b) Q (filter_callbacks b) ->
  (receives b -> receives b') ->
  table b' = (sl, next_slot b, reply_callbacks b, Q, filter_callbacks b) -> inv_at x K (World b' (kern w)).
Proof.
  intros b ([Hc Hrc] & st & Ho & Ha & HK) H Hr E. split; [by split; [|apply Hr]|]. exists st. split; [done|]. split; [|done].
  by eapply agree_calls.
Qed.

Lemma linked_calls x K w : inv_at x K w ->
  let b := conn w in
  calls_ok (slots b) (next_slot b) (reply_callbacks b) (reply_callbacks_prioq b) (filter_callbacks b).
Proof. intros (_ & st & _ & Ha & _). apply Ha. Qed.

Lemma linked_reply i f h c t w : linked i (call_slot f h c t) w -> reply_of (slots (conn w)) i = ReplyCallback c t.
Proof. intros [_ H]. unfold reply_of. by rewrite H. Qed.

Lemma linked_in i f h c t w : linked i (call_slot f h c t) w -> c <> 0 -> i ∈ reply_callbacks (conn w).
Proof.
  intros H Hc. rewrite (ok_pending _ _ _ _ _ (linked_calls _ _ _ (proj1 H))). by rewrite (linked_reply _ _ _ _ _ _ H).
Qed.

Lemma triple_timed i f h c t : 0 < c -> 0 <= t < 2 ^ 64 ->
  triple (linked i (call_slot f h c 0))
    (mod_reply i (set_timeout_usec t);; (if t =? 0 then mret tt else timeouts_put i))
    (fun r w => r = Ok tt /\ linked i (call_slot f h c t) w).
Proof.
  intros Hc Ht. apply triple_intro; [grows|]. intros w r w' E Hr Hf H.
  pose proof (linked_calls _ _ _ (proj1 H)) as Hok. pose proof (linked_reply _ _ _ _ _ _ H) as Hri.
  pose proof (linked_in _ _ _ _ _ _ H ltac:(lia)) as HiR. destruct H as [Hw Hs].
  set (sl' := alter (upd_reply (set_timeout_usec t)) i (slots (conn w))).
  assert (Hsl' : sl' !! i = Some (call_slot f h c t)) by (unfold sl'; by rewrite lookup_alter_eq, Hs).
  assert (exists Q, r = Ok tt /\ w' = World (set_reply_callbacks_prioq Q (set_slots sl' (conn w))) (kern w) /\
    (if t =? 0 then Q = reply_callbacks_prioq (conn w)
     else prioq_put (compare_slots sl') (reply_callbacks_prioq (conn w)) i (Some i) = Ok Q)) as (Q & -> & -> & HQ).
  { rewrite stm_bind_eq in E. unfold mod_reply, bmod in E. cbn in E. fold sl' in E. destruct (t =? 0).
    - injection E as <- <-. exists (reply_callbacks_prioq (conn w)). split; [done|]. split; [|done]. by destruct w as [[] ?].
    - unfold timeouts_put in E. rewrite stm_bind_eq in E. cbn in E. rewrite stm_bind_eq in E. unfold slift in E.
      change (slots _) with sl' in E. change (reply_callbacks_prioq _) with (reply_callbacks_prioq (conn w)) in E.
      destruct (prioq_put _ _ _ _) as [Q|e] eqn:Ep; injection E as <- <-.
      + by exists Q.
      + exfalso. apply Hr. f_equal. by eapply prioq_put_err. }
  split; [done|]. split; [|exact Hsl'].
  eapply (inv_at_calls _ _ w); [done| |done|done]. eapply calls_ok_timed; [exact Hok| |done|done|by rewrite Hri|exact HQ].
  exact Hf.
Qed.

(** Sending what is sealed gives its cookie. *)
Lemma send_cookie er dup m w c m' w' :
  sealed m = true -> 0 <= BUS_MESSAGE_COOKIE m ->
  with_message (sd_bus_send er dup true) m w = (Ok (c, m'), w') -> c = BUS_MESSAGE_COOKIE m.
Proof.
  intros Hs Hc E. unfold with_message in E. destruct (sd_bus_send er dup true (w, m)) as [[c1|] [w1 m1]] eqn:E1; [|done].
  injection E as <- <- <-. unfold sd_bus_send in E1.
  apply stm_bind_ok in E1 as (b & [w2 m2] & [= <- <- <-] & E1).
  apply stm_bind_ok in E1 as ([] & ? & [= _ <-] & E1).
  apply stm_bind_ok in E1 as (m0 & ? & [= <- <-] & E1).
  apply stm_bind_ok in E1 as ([] & [w3 m3] & E3 & E1).
  assert (m3 = m) as ->.
  { destruct (0 <? zlen (fds m)); [|by injection E3]. apply stm_bind_ok in E3 as (a & [w4 m4] & E3 & E4).
    unfold on_world in E3. destruct (sd_bus_can_send _ _ _) in E3. by injection E3 as _ _ <-; injection E4 as _ _ <-. }
  apply stm_bind_ok in E1 as ([] & [w4 m4] & E4 & E1). cbn [negb andb] in E4. injection E4 as <- <-.
  apply stm_bind_ok in E1 as ([] & [w5 m5] & E5 & E1).
  assert (m5 = m) as ->.
  { unfold bus_seal_message in E5. apply stm_bind_ok in E5 as (b1 & [? ?] & [= <- <- <-] & E5).
    apply stm_bind_ok in E5 as (? & [? ?] & [= <- <- <-] & E5). rewrite Hs in E5. by injection E5. }
  apply stm_bind_ok in E1 as (? & ? & [= <- <-] & E1).
  apply stm_bind_ok in E1 as (n & [w6 m6] & E6 & E1).
  apply stm_bind_ok in E1 as ([] & [w7 m7] & _ & [= <- _ _]).
  unfold on_world in E6. destruct (bus_remarshal_message dup m w5) as [r wr] eqn:Er. injection E6 as -> _ _.
  unfold bus_remarshal_message in Er. rewrite stm_bind_eq in Er. cbn in Er. destruct (orb _ _); [|by injection Er as <- _].
  apply stm_bind_ok in Er as (t & w8 & _ & Er). injection Er as Er _. by apply remarshal_cookie in Er as [-> _].
Qed.

Lemma triple_cleanup {A} P (f : stm world A) (c : stm world unit) R Qa (Qe : world -> Prop) :
  triple P f R -> (forall e, triple (R (Err e)) c (fun _ => Qe)) -> (forall a w, R (Ok a) w -> Qa a w) ->
  triple P (or_cleanup f c) (fun r => match r with Ok a => Qa a | Err _ => Qe end).
Proof.
  intros Hf Hc Ha w r w'. unfold or_cleanup. destruct (f w) as [[a|e] w1] eqn:E; destruct (Hf _ _ _ E) as [G H].
  - intros [= <- <-]. split; [done|]. intros _ Hn HP. apply Ha. by apply H.
  - destruct (decide (e = EASSERT)) as [->|He]; [by intros [= <- <-]|].
    assert (triple (R (Err e)) (c;; sfail e : stm world A) (fun r => match r with Ok _ => fun _ => False | Err _ => Qe end)) as T.
    { eapply triple_bind; [apply (Hc e)| |done]. intros [] w2 r2 w3 [= <- <-]. split; [done|]. auto. }
    intros E'. assert ((c;; sfail e : stm world A) w1 = (r, w')) as E2 by (by destruct e).
    destruct (T _ _ _ E2) as [G2 H2]. split; [by etrans|]. intros Hr Hn HP. specialize (H2 Hr Hn).
    destruct r; [destruct H2|apply H2]; (apply H; [congruence| |done]); unfold few_slots in *; destruct G2; lia.
Qed.

Lemma triple_pure {A} (F : Prop) P (f : stm world A) Q :
  grows f -> (F -> triple P f Q) -> triple (fun w => F /\ P w) f Q.
Proof.
  intros Hg H. apply triple_intro; [done|]. intros w r w' E Hr Hf [HF HP]. destruct (H HF _ _ _ E) as [_ H1]. by apply H1.
Qed.

Lemma triple_assoc {A B C} P (f : stm world A) (g : A -> stm world B) (h : B -> stm world C) Q :
  triple P ((f ≫= g) ≫= h) Q -> triple P (f ≫= fun a => g a ≫= h) Q.
Proof.
  intros H w r w' E. apply H. rewrite !stm_bind_eq in *. destruct (f w) as [[a|e] w1]; [|done].
  by rewrite stm_bind_eq in E.
Qed.

Lemma calc_elapse_range t w u w' : calc_elapse t w = (Ok u, w') -> 0 <= u < 2 ^ 64.
Proof.
  intros E. assert (forall x, 0 <= wrap64 x < 2 ^ 64) as Hw by (intros; apply Z.mod_pos_bound; lia).
  unfold calc_elapse in E. rewrite stm_bind_eq in E. cbn in E. destruct (t =? SIZE_MAX); [by injection E as <- _|].
  destruct (state (conn w)); try (by injection E as <- _);
    apply stm_bind_ok in E as (n & w1 & _ & [= <- _]); done.
Qed.

Section Asking.
Context (er : stm world unit) (dup : Z -> res Z) (Her : keeps er).
#[local] Hint Resolve Her : keeps.

Lemma grows_call_with_slot i m : grows (call_with_slot er dup i m).
Proof. unfold call_with_slot. grows. Qed.

(** Once the slot is in the table *)
Lemma triple_call_linked i f h m : 0 < BUS_MESSAGE_COOKIE m -> sealed m = true ->
  triple (linked i (call_slot f h (BUS_MESSAGE_COOKIE m) 0))
    (t ← calc_elapse (timeout m);
     mod_reply i (set_timeout_usec t);;
     (if t =? 0 then mret tt else timeouts_put i);;
     '(c, _) ← with_message (sd_bus_send er dup true) m;
     slot_get i;;
     mod_reply i (set_cookie c))
    (fun _ w => exists t, linked i (call_slot f h (BUS_MESSAGE_COOKIE m) t) w).
Proof.
  set (c := BUS_MESSAGE_COOKIE m). intros Hc Hm.
  eapply triple_bind with (R := fun r w => (forall t, r = Ok t -> 0 <= t < 2 ^ 64) /\ linked i (call_slot f h c 0) w).
  { apply triple_intro; [apply grows_keeps; auto with keeps|]. intros w r w' E _ _ H. split.
    - intros t ->. by apply calc_elapse_range in E.
    - eapply stable_linked; [|exact H]. by eapply keeps_calc_elapse. }
  2: { intros e w [_ H]. by exists 0. }
  intros t. apply triple_pure; [grows|]. intros Ht. specialize (Ht t eq_refl).
  apply triple_assoc. eapply triple_bind; [by apply triple_timed| |by intros e w [? _]].
  intros []. apply triple_pure; [grows|]. intros _.
  eapply triple_bind with (R := fun r w => (forall c1 m', r = Ok (c1, m') -> c1 = c) /\ linked i (call_slot f h c t) w).
  { apply triple_intro; [apply grows_keeps; auto with keeps|]. intros w r w' E _ _ H. split.
    - intros c1 m' ->. apply send_cookie in E; [done|done|lia].
    - eapply stable_linked; [|exact H]. by eapply keeps_with_message; [apply keeps2_send|]. }
  2: { intros e w [_ H]. by exists t. }
  intros [c1 m']. apply triple_pure; [grows|]. intros Hc1. specialize (Hc1 c1 m' eq_refl) as ->.
  apply triple_intro; [grows|]. intros w r w' E _ _ [Hw Hs]. exists t.
  rewrite stm_bind_eq, slot_get_run, Hs in E. injection E as <- <-.
  assert (alter (upd_reply (set_cookie c)) i (slots (conn w)) = slots (conn w)) as Ha.
  { apply alter_id. intros x Hx. rewrite Hs in Hx. by injection Hx as <-. }
  split; [|cbn; by rewrite Ha]. eapply (inv_at_calls _ _ w); [done|by eapply linked_calls|done|].
  unfold table. cbn. by rewrite Ha.
Qed.

Lemma triple_call_with_slot i f h m : 0 < BUS_MESSAGE_COOKIE m -> sealed m = true ->
  triple (allocated i (call_slot f h (BUS_MESSAGE_COOKIE m) 0)) (call_with_slot er dup i m)
    (fun r w => match r with Ok _ => exists t, linked i (call_slot f h (BUS_MESSAGE_COOKIE m) t) w | Err _ => inv w end).
Proof.
  set (c := BUS_MESSAGE_COOKIE m). intros Hc Hm.
  pose (R := fun (r : res unit) w => match r with
    | Ok _ => exists t, linked i (call_slot f h c t) w
    | Err _ => exists c' t, linked i (call_slot f h c' t) w end).
  assert (triple (allocated i (call_slot f h c 0)) (call_with_slot er dup i m)
    (fun r => match r with Ok _ => fun w => exists t, linked i (call_slot f h c t) w | Err _ => inv end)) as T.
  2: { eapply triple_weaken; [|exact T|]; [done|]. intros r w H. by destruct r. }
  apply triple_cleanup with (R := R) (Qa := fun _ w => exists t, linked i (call_slot f h c t) w); [| |done].
  - eapply triple_bind; [by apply triple_reply_put| |intros e w H; by exists 0, 0].
    intros []. eapply triple_weaken; [|by apply triple_call_linked|]; [done|].
    intros r w [t H]. destruct r; [by exists t|by exists c, t].
  - intros e w r w' E. split; [by eapply grows_unref|]. intros Hr Hf (c' & t & H).
    by apply (unlink_unref i f h c' t w r w' E).
Qed.

Lemma grows_call_async want m h u : grows (sd_bus_call_async er dup want m h u).
Proof. unfold sd_bus_call_async. grows. apply grows_call_with_slot. Qed.

Lemma seal_message_sealed t m w u m' w' :
  with_message (bus_seal_message t) m w = (Ok (u, m'), w') -> sealed m' = true.
Proof.
  unfold with_message. destruct (bus_seal_message t (w, m)) as [[[]|] [w1 m1]] eqn:E; [|done]. intros [= <- <- <-].
  unfold bus_seal_message in E. apply stm_bind_ok in E as (b & ? & [= <- <-] & E).
  apply stm_bind_ok in E as (m0 & ? & [= <- <-] & E). destruct (sealed m) eqn:Hs; [by injection E as _ <-|].
  apply stm_bind_ok in E as (? & [? ?] & _ & E). apply stm_bind_ok in E as (? & [? ?] & _ & E).
  apply stm_bind_ok in E as (? & [? m4] & _ & E). unfold on_message in E.
  destruct (sd_bus_message_seal _ _ m4) as [r m5] eqn:Es. injection E as -> _ ->. by eapply seal_sealed.
Qed.

Lemma remarshal_sealed m n w w' : sealed m = true -> bus_remarshal_message dup m w = (Ok n, w') -> sealed n = true.
Proof.
  intros Hs E. unfold bus_remarshal_message in E. rewrite stm_bind_eq in E. cbn in E.
  destruct (orb _ _); [|by injection E as <- _]. apply stm_bind_ok in E as (t & w1 & _ & E). injection E as E _.
  unfold bus_message_remarshal in E. destruct (remarshal_header _ m) as [n0|]; [|done]. cbn in E.
  destruct (sd_bus_message_copy dup true (n0, m)) as [[d|] [n1 m1]]; [|done]. unfold build in E.
  destruct (sd_bus_message_seal _ _ n1) as [[[]|] n2] eqn:Es; [|done]. injection E as <-. by eapply seal_sealed.
Qed.

(** A step that keeps the invariant, with a fact about its result *)
Lemma triple_fact {A B} (f : stm world A) (F : A -> Prop) (g : A -> stm world B) Q :
  keeps f -> (forall w a w', f w = (Ok a, w') -> F a) -> (forall a, grows (g a)) ->
  (forall a, F a -> triple inv (g a) Q) -> (forall e w, inv w -> Q (Err e) w) -> triple inv (f ≫= g) Q.
Proof.
  intros Hk HF Hg H He. eapply triple_bind with (R := fun r w => (forall a, r = Ok a -> F a) /\ inv w).
  - apply triple_intro; [by apply grows_keeps|]. intros w r w' E _ _ Hw. split; [|by eapply stable_inv; [eapply Hk|]].
    intros a ->. by eapply HF.
  - intros a. apply triple_pure; [done|]. intros Ha. apply H. by apply Ha.
  - intros e w [_ Hw]. by apply He.
Qed.

Definition asked (r : res (option nat)) (w : world) : Prop :=
  match r with Ok (Some i) => exists s, linked i s w /\ i ∈ reply_callbacks (conn w) | _ => inv w end.

Lemma triple_call_tracked f m h : sealed m = true ->
  triple inv
    (sreq (0 <? BUS_MESSAGE_COOKIE m) EASSERT;;
     i ← bus_slot_allocate f (BUS_REPLY_CALLBACK (ReplyCallback (BUS_MESSAGE_COOKIE m) 0) h);
     call_with_slot er dup i m;;
     mret (Some i)) asked.
Proof.
  intros Hs. eapply triple_fact with (F := fun _ => 0 < BUS_MESSAGE_COOKIE m).
  { auto with keeps. }
  { intros w [] w' [= E <-]. unfold require in E. by destruct (Z.ltb_spec 0 (BUS_MESSAGE_COOKIE m)). }
  { intros ?. grows. apply grows_call_with_slot. }
  2: done.
  intros _ Hc. eapply triple_bind; [by apply triple_allocate| |by intros].
  intros i. eapply triple_bind; [by apply triple_call_with_slot| |by intros].
  intros []. apply triple_intro; [grows|]. intros w r w' [= <- <-] _ _ [t H]. eexists. split; [exact H|].
  eapply linked_in; [exact H|lia].
Qed.

Lemma triple_call_async want m h u : triple inv (sd_bus_call_async er dup want m h u) asked.
Proof.
  unfold sd_bus_call_async.
  eapply triple_bind; [by apply preserves_keeps; auto with keeps| |by intros]. intros ?.
  eapply triple_bind; [by apply preserves_keeps; auto with keeps| |by intros]. intros ?.
  eapply triple_bind; [by apply preserves_keeps; auto with keeps| |by intros]. intros b.
  eapply triple_bind; [by apply preserves_keeps; auto with keeps| |by intros]. intros ?. cbv zeta.
  eapply triple_fact with (F := fun x => sealed x.2 = true);
    [auto with keeps|intros w [? ?] w'; apply seal_message_sealed| | |by intros].
  { intros [? ?]. grows. apply grows_call_with_slot. }
  intros [u1 m1] Hs. cbn [snd] in Hs.
  eapply triple_fact with (F := fun n => sealed n = true);
    [auto with keeps|intros w n w'; by apply remarshal_sealed| | |by intros].
  { intros ?. grows. apply grows_call_with_slot. }
  intros n Hn. destruct (orb _ _); [by apply triple_call_tracked|].
  eapply triple_bind; [by apply preserves_keeps; auto with keeps| |by intros].
  intros ?. apply triple_intro; [grows|]. by intros w r w' [= <- <-].
Qed.
End Asking.

Lemma triple_asked i s : triple (fun w => linked i s w /\ i ∈ reply_callbacks (conn w)) (note (Asked i)) (fun _ => inv).
Proof.
  apply triple_intro; [auto with grows|]. intros w r w' E _ _ [[(Hc & st & Ho & [A1 A2 A3 A4 A5] & HK) Hs] Hi].
  injection E as <- <-. split; [done|]. exists (<[i := Pending]> st). unfold unasked in HK.
  split; [cbn [kern happened]; rewrite observed_snoc, Ho; cbn; by rewrite HK|]. split; [|done].
  split; [exact A1| | | |]; cbn [conn].
  - intros j Hj _. destruct (decide (j = i)) as [->|Hji]; [left; apply lookup_insert_eq|].
    rewrite lookup_insert_ne by done. apply A2; [done|]. by intros [= ->].
  - intros j Hj. left. destruct (decide (j = i)) as [->|Hji]; [done|]. rewrite lookup_insert_ne in Hj by done.
    destruct (A3 j Hj) as [|Hx]; [done|]. injection Hx as ->. done.
  - intros j Hj. destruct (decide (j = i)) as [->|Hji]; [by eapply ok_fresh|]. rewrite lookup_insert_ne in Hj by done.
    by apply A4.
  - intros j Hj. rewrite lookup_insert_ne; [by apply A5|]. intros <-.
    apply (ok_filters _ _ _ _ _ A1) in Hj as (h & n & Hb). apply (ok_pending _ _ _ _ _ A1) in Hi.
    by rewrite reply_of_body, Hb in Hi.
Qed.

(** ** Filters *)
Lemma preserves_add_filter want callback : preserves (sd_bus_add_filter want callback).
Proof.
  apply triple_intro; [unfold sd_bus_add_filter; grows|]. intros w r w' E _ _ Hw.
  unfold sd_bus_add_filter, bus_slot_allocate in E. rewrite stm_bind_eq in E. cbn in E. injection E as <- <-.
  destruct Hw as ([Hc Hrc] & st & Ho & Ha & HK). pose proof Ha as [A1 A2 A3 A4 A5].
  destruct (next_not_in _ _ _ _ _ A1) as (Hsn & _ & _ & HF).
  split; [done|]. exists st. split; [done|]. split; [|done]. split.
  - cbn [conn]. eapply (calls_ok_idle _ _ _ _ _ _ (negb want) (BUS_FILTER_CALLBACK (UserHandler callback) 0));
      [exact A1|done|done| |].
    + apply NoDup_cons. split; [exact HF|apply A1].
    + intros j. cbn. rewrite elem_of_cons, (ok_filters _ _ _ _ _ A1). unfold is_filter.
      destruct (decide (j = next_slot (conn w))) as [->|Hj].
      * unfold new_slot. rewrite body_at_insert. unfold body_at. rewrite Hsn. naive_solver.
      * unfold new_slot. rewrite body_at_insert_ne by done. naive_solver.
  - exact A2.
  - exact A3.
  - intros j Hj. specialize (A4 j Hj). cbn. lia.
  - intros j [->|Hj]%elem_of_cons; [|by apply A5]. left. destruct (st !! next_slot (conn w)) eqn:E; [|done].
    specialize (A4 (next_slot (conn w)) ltac:(by rewrite E)). lia.
Qed.

(** Noting that a filter has seen the message *)
Lemma inv_filter_marked w i s h n n' :
  inv w -> slots (conn w) !! i = Some s -> slot_body s = BUS_FILTER_CALLBACK h n ->
  inv (World (set_slots (<[i := set_slot_body (BUS_FILTER_CALLBACK h n') s]> (slots (conn w))) (conn w)) (kern w)).
Proof.
  intros Hw Hi Hb. pose proof (linked_calls _ _ _ Hw) as Hok.
  apply (inv_at_calls _ _ w _ (<[i := set_slot_body (BUS_FILTER_CALLBACK h n') s]> (slots (conn w)))
    (reply_callbacks_prioq (conn w))); [done| |done|done].
  assert (Hr : reply_of (slots (conn w)) i = none_reply).
  { rewrite reply_of_body. unfold body_at. rewrite Hi. cbn. by rewrite Hb. }
  assert (HiR : i ∉ reply_callbacks (conn w)) by (rewrite (ok_pending _ _ _ _ _ Hok), Hr; by intros []).
  rewrite <- (without_not_in i (reply_callbacks (conn w))) by done.
  eapply calls_ok_take with (i := i); [exact Hok| | | |apply Hok| |by eapply dequeued_none].
  - by rewrite reply_of_insert.
  - intros j Hj. by rewrite body_at_insert_ne.
  - eapply insert_bodies; [exact Hok|by eapply ok_fresh|]. pose proof (ok_attached _ _ _ _ _ Hok _ _ Hi) as Ha.
    rewrite Hb in Ha. cbn. split; [done|]. intros _. by apply Ha.
  - intros j. rewrite (ok_filters _ _ _ _ _ Hok). unfold is_filter. destruct (decide (j = i)) as [->|Hj].
    + rewrite body_at_insert. unfold body_at. rewrite Hi. cbn. rewrite Hb. naive_solver.
    + by rewrite body_at_insert_ne.
Qed.

(** ** Programs *)
Section Programs.
Context (dup : Z -> res Z).

Lemma preserves_then {A B} (f : stm world A) (g : A -> stm world B) :
  preserves f -> (forall a, keeps (g a)) -> preserves (f ≫= g).
Proof. intros Hf Hg. apply preserved_bind; [done|]. intros a. by apply preserves_keeps. Qed.

Lemma preserves_api er op : keeps er -> preserves (run_api dup er op).
Proof.
  intros Her. destruct op as [want m callback u|want m|want callback|i|i|i b| |]; cbn [run_api].
  - eapply triple_bind; [by apply triple_call_async| |by intros]. intros [i|]; [|apply preserves_keeps; keeps].
    apply triple_pre with (P := fun w => exists s, linked i s w /\ i ∈ reply_callbacks (conn w)); [done|].
    eapply triple_bind with (R := fun _ => inv); [| |done].
    + apply triple_intro; [auto with grows|]. intros w r w' E Hr Hf (s & H). by apply (triple_asked i s w _ _ E).
    + intros ?. apply preserves_keeps; auto with keeps.
  - apply preserves_keeps. keeps.
  - apply preserves_then; [apply preserves_add_filter|]. auto with keeps.
  - apply preserves_then; [apply triple_ref|auto with keeps].
  - apply preserves_released. eapply triple_bind; [apply triple_unref, given_up_not_pending| |done].
    intros ?. apply triple_keeps; auto with keeps.
  - apply preserves_released. eapply triple_bind; [apply triple_floating, given_up_not_pending| |done].
    intros ?. apply triple_keeps; auto with keeps.
  - apply preserves_keeps. keeps.
  - apply preserves_keeps. keeps.
Qed.

Lemma preserves_prog p : preserves (run_prog dup p).
Proof.
  induction p as [r e|op k IH]; cbn [run_prog].
  - apply preserves_keeps; auto with keeps.
  - apply preserved_bind; [|intros r; apply IH]. apply triple_attempt, preserves_api. auto with keeps.
Qed.
End Programs.
