(* ===== verification/CallAnswer.v ===== *)
(** * Answering

    The steps that take a call out of the table and answer it, the other steps of
    the dispatcher, and a whole [sd_bus_process], refine the automaton of
    CallSlots. *)
From S2P Require Import Prelude BusType Names BusError MsgState MsgFields MsgRead MsgParse MsgCopy MsgOrder Prioq Bus Sasl Transport Call Dispatch CallState CallKeeps CallSlots CallAsk.

(** ** Answering one call *)
Definition waiting (i : nat) (st : gmap nat status) : Prop := st !! i = Some Pending \/ st !! i = Some Loose.

(** Out of the table, not answered yet *)
Definition taken (i : nat) (w : world) : Prop :=
  inv_at (Some i) (waiting i) w /\ i ∉ reply_callbacks (conn w).

Definition answered (i : nat) (w : world) : Prop := inv_at None (fun st => settled st i) w.

Lemma stable_taken i : stable (taken i).
Proof.
  intros w w' H [H1 H2]. split; [by eapply stable_inv_at|]. destruct H as [H _ _ _]. injection H as _ _ -> _ _. done.
Qed.
Lemma stable_answered i : stable (answered i).
Proof. apply stable_inv_at. Qed.
#[export] Hint Resolve stable_taken stable_answered : keeps.

Lemma answered_inv i w : answered i w -> inv w.
Proof. by apply inv_at_weaken. Qed.

Lemma triple_noted i h m : triple (taken i) (note (Answered i h m)) (fun _ => answered i).
Proof.
  apply triple_intro; [auto with grows|]. intros w r w' E _ _ [(Hc & st & Ho & [A1 A2 A3 A4 A5] & HK) Hi].
  injection E as <- <-. split; [done|]. exists (<[i := Done]> st).
  split; [cbn [kern happened]; rewrite observed_snoc, Ho; cbn; by destruct HK as [-> | ->]|]. split; [|exists Done; by rewrite lookup_insert_eq].
  split; [exact A1| | | |]; cbn [conn].
  - intros j Hj _. destruct (decide (j = i)) as [->|Hji]; [done|].
    rewrite lookup_insert_ne by done. apply A2; [done|]. by intros [= ->].
  - intros j Hj. left. destruct (decide (j = i)) as [->|Hji]; [by rewrite lookup_insert_eq in Hj|].
    rewrite lookup_insert_ne in Hj by done. destruct (A3 j Hj) as [|Hx]; [done|]. injection Hx as ->. done.
  - intros j Hj. apply A4. destruct (decide (j = i)) as [->|Hji]; [by destruct HK as [-> | ->]|].
    by rewrite lookup_insert_ne in Hj.
  - intros j Hj. specialize (A5 j Hj). rewrite lookup_insert_ne; [done|]. intros <-. destruct HK, A5; congruence.
Qed.

Lemma triple_ref_taken i : triple (taken i) (sd_bus_slot_ref i) (fun r w => r = Ok tt /\ taken i w).
Proof.
  apply triple_intro; [auto with grows|]. intros w r w' E Hr Hf [Hw Hi].
  unfold sd_bus_slot_ref in E. rewrite stm_bind_eq, slot_get_run in E.
  destruct (slots (conn w) !! i) as [s|] eqn:Hs; [|by injection E as <- <-].
  rewrite stm_bind_eq in E. unfold sreq, slift, require in E. destruct (0 <? n_ref s); injection E as <- <-; [|done].
  split; [done|]. split; [by apply (inv_at_rereferenced _ _ w i s)|done].
Qed.

Lemma triple_with_current {A} P (Q : res A -> world -> Prop) m (f : stm world A) :
  stable P -> (forall r, stable (Q r)) -> triple P f Q -> triple P (with_current m f) Q.
Proof.
  intros HP HQ H w r w'. unfold with_current. destruct (f _) as [r1 w1] eqn:E. intros [= <- <-].
  destruct (H _ _ _ E) as [G H1]. split; [by destruct G|]. intros Hr Hf Hw.
  eapply (HQ r1 w1); [by split|]. apply H1; [done|done|]. eapply HP; [|exact Hw]. by split.
Qed.

Section Dispatch.
Context `{ErrnoTable} (maps : list sd_bus_error_map) (dup_fd : Z -> res Z).
Context (handlers : nat -> message -> prog) (process_match bus_process_object : message -> prog).
Context (machine_id : res (list Z)).

Lemma preserves_handler h m : preserves (call_handler maps dup_fd handlers h m).
Proof.
  unfold call_handler. destruct h as [|n]; [|apply preserves_prog]. apply preserves_keeps. keeps.
Qed.

Lemma answered_bind {A B} i (f : stm world A) (g : A -> stm world B) :
  triple (answered i) f (fun _ => answered i) -> (forall a, triple (answered i) (g a) (fun _ => inv)) ->
  triple (answered i) (f ≫= g) (fun _ => inv).
Proof. intros Hf Hg. eapply triple_bind; [exact Hf|exact Hg|]. intros e w. apply answered_inv. Qed.

Lemma answered_keeps {A} i (f : stm world A) : keeps f -> triple (answered i) f (fun _ => answered i).
Proof. intros Hf. apply triple_keeps; auto with keeps. Qed.

Lemma triple_call_and_release i h m :
  triple (answered i) (call_and_release maps dup_fd handlers i h m) (fun _ => inv).
Proof.
  unfold call_and_release. apply answered_bind; [apply triple_settled, preserves_handler|]. intros r.
  apply answered_bind; [apply answered_keeps; keeps|]. intros ?.
  apply answered_bind; [apply answered_keeps; unfold slot_get; keeps|]. intros s.
  apply answered_bind.
  { destruct (floating s); [apply triple_disconnect; intros; by apply settled_given_up|].
    apply answered_keeps; auto with keeps. }
  intros ?. apply answered_bind; [apply triple_unref; intros; by apply settled_given_up|]. intros ?.
  eapply triple_weaken; [|apply (answered_keeps i); auto with keeps|]; [done|]. intros ? w. apply answered_inv.
Qed.

Lemma grows_call_and_release i h m : grows (call_and_release maps dup_fd handlers i h m).
Proof. by eapply triple_grows, triple_call_and_release. Qed.
#[local] Hint Resolve grows_call_and_release : grows.

(** The callback of the slot is called, if the slot is still there. *)
Lemma triple_answer i m : triple (taken i) (answer maps dup_fd handlers i m) (fun _ => inv).
Proof.
  unfold answer. eapply triple_bind; [apply triple_ref_taken| |].
  2: { intros e w [? _]. done. }
  intros []. apply triple_pure; [grows|]. intros _.
  apply triple_intro; [grows|]. intros w r w' E Hr Hf Hw.
  rewrite stm_bind_eq, slot_get_run in E. destruct (slots (conn w) !! i) as [s|]; [|by injection E as <- <-].
  destruct (slot_body s) as [c [h|]| |]; try by injection E as <- <-.
  revert E Hr Hf Hw. revert w r w'.
  assert (triple (taken i) (bmod (set_current_slot (Some i));; note (Answered i h m);;
    call_and_release maps dup_fd handlers i h m) (fun _ => inv)) as T.
  { eapply triple_bind with (R := fun r w => r = Ok tt /\ taken i w).
    - apply triple_intro; [grows|]. intros w r w' [= <- <-] _ _ Hw. split; [done|]. by eapply stable_taken; [|exact Hw].
    - intros []. apply triple_pure; [grows|]. intros _. eapply triple_bind; [apply triple_noted| |].
      + intros []. apply triple_call_and_release.
      + intros e w. apply answered_inv.
    - by intros e w [? _]. }
  intros w r w' E Hr Hf Hw. destruct (T w r w' E) as [_ H2]. by apply H2.
Qed.

(** ** Taking a call out of the table *)
Definition cleared (i : nat) (sl : gmap nat sd_bus_slot) : gmap nat sd_bus_slot :=
  alter (upd_reply (fun _ => none_reply)) i sl.

Lemma inv_taken w i b' Q' :
  let b := conn w in
  inv w -> i ∈ reply_callbacks b -> (receives b -> receives b') ->
  table b' = (cleared i (slots b), next_slot b, without i (reply_callbacks b), Q', filter_callbacks b) ->
  dequeued (slots b) i (reply_callbacks_prioq b) Q' -> taken i (World b' (kern w)).
Proof.
  intros b ([Hc Hrc] & st & Ho & [A1 A2 A3 A4 A5] & _) Hi Hr E HQ. fold b in A1, A2, A3, A4, Hrc.
  assert (Hok : calls_ok (cleared i (slots b)) (next_slot b) (without i (reply_callbacks b)) Q' (filter_callbacks b)).
  { eapply calls_ok_take with (i := i); [exact A1| | | |apply A1| |exact HQ].
    - unfold cleared. rewrite reply_of_upd; [done|]. apply pending_has_reply. intros E'.
      apply (ok_pending _ _ _ _ _ A1) in Hi. by rewrite E' in Hi.
    - intros j Hj. unfold cleared. by rewrite body_at_alter_ne.
    - eapply alter_slots_same; exact A1.
    - intros j. rewrite (ok_filters _ _ _ _ _ A1). symmetry. apply body_alter_filter. }
  injection E as E1 E2 E3 E4 E5. split; [|cbn [conn]; rewrite E3; by intros [_ ?]%elem_of_without].
  split; [split; [done|by apply Hr]|]. exists st. split; [done|]. split.
  - split; cbn [conn]; rewrite ?E1, ?E2, ?E3, ?E4, ?E5; [done| | |done|done].
    + intros j [Hj _]%elem_of_without _. by apply A2.
    + intros j Hj. destruct (decide (j = i)) as [->|Hji]; [by right|]. left. apply elem_of_without.
      split; [|done]. by destruct (A3 j Hj).
  - by apply A2.
Qed.

(** From [w] to [w'], slot [i] has left the table and the queue; nothing else has
    changed in them. *)
Definition cut (i : nat) (w w' : world) : Prop :=
  let b := conn w in
  kern w' = kern w /\ (receives b -> receives (conn w')) /\
  exists Q', dequeued (slots b) i (reply_callbacks_prioq b) Q' /\
  table (conn w') = (cleared i (slots b), next_slot b, without i (reply_callbacks b), Q', filter_callbacks b).

Lemma cut_taken i w w' : inv w -> i ∈ reply_callbacks (conn w) -> cut i w w' -> taken i w'.
Proof.
  intros Hw Hi (Hk & Hr & Q' & HQ & Ht). destruct w' as [b' k']. cbn in *. subst k'. by apply (inv_taken w i b' Q').
Qed.

Lemma cut_others i w w' : i ∈ reply_callbacks (conn w) -> inv w -> cut i w w' ->
  reply_callbacks (conn w') = without i (reply_callbacks (conn w)) /\
  reply_of (slots (conn w')) i = none_reply /\
  forall j, j <> i -> slots (conn w') !! j = slots (conn w) !! j.
Proof.
  intros Hi Hw (_ & _ & Q' & _ & Ht). injection Ht as E1 _ E3 _ _. rewrite E1, E3. split; [done|]. split.
  - unfold cleared. rewrite reply_of_upd; [done|]. apply pending_has_reply. intros E.
    apply (ok_pending _ _ _ _ _ (linked_calls _ _ _ Hw)) in Hi. by rewrite E in Hi.
  - intros j Hj. unfold cleared. by rewrite lookup_alter_ne.
Qed.

Lemma find_cookie_ext sl sl' c l :
  (forall j, cookie (reply_of sl' j) = cookie (reply_of sl j)) -> find_cookie sl' c l = find_cookie sl c l.
Proof. intros Hc. induction l as [|j l IH]; [done|]. cbn [find_cookie]. by rewrite Hc, IH. Qed.

(** Removal while the slot is being cleared: its cookie still stands. *)
Lemma remove_found w sl nx R Q F i :
  calls_ok sl nx R Q F -> i ∈ R -> reply_callbacks (conn w) = R ->
  (forall j, cookie (reply_of (slots (conn w)) j) = cookie (reply_of sl j)) ->
  reply_callbacks_remove (cookie (reply_of sl i)) w =
  (Ok (Some i), World (set_reply_callbacks (without i R) (conn w)) (kern w)).
Proof.
  intros Hok Hi HR Hc. unfold reply_callbacks_remove. rewrite stm_bind_eq. cbn. rewrite HR.
  by rewrite (find_cookie_ext sl), (find_cookie_here _ _ _ _ _ _ Hok Hi).
Qed.

Lemma dequeue_found w sl nx R Q F i :
  calls_ok sl nx R Q F -> reply_callbacks_prioq (conn w) = Q -> timeout_usec (reply_of sl i) <> 0 ->
  (forall j, timeout_usec (reply_of (slots (conn w)) j) = timeout_usec (reply_of sl j)) ->
  exists Q', timeouts_remove i w = (Ok tt, World (set_reply_callbacks_prioq Q' (conn w)) (kern w)) /\ dequeued sl i Q Q'.
Proof.
  intros Hok HQ Ht Hs. assert (Hcmp : forall x y, compare_slots (slots (conn w)) x y = compare_slots sl x y).
  { intros x y. unfold compare_slots, timeout_compare. by rewrite !Hs. }
  assert (Hwf : wf (compare_slots (slots (conn w))) Q).
  { eapply wf_cmp_ext; [|apply Hok]. intros x y _ _. by rewrite Hcmp. }
  destruct (remove_by_cell _ _ i i Hwf (queued_item _ _ _ _ _ _ Hok Ht)) as (Q' & E & W & P).
  exists Q'. unfold timeouts_remove. rewrite stm_bind_eq. cbn. rewrite HQ, E. split; [done|].
  unfold dequeued. rewrite (proj2 (Z.eqb_neq _ 0)) by done. split; [|done].
  eapply wf_cmp_ext; [|exact W]. intros x y _ _. by rewrite Hcmp.
Qed.

Lemma cleared_in_steps i sl f g :
  (forall c, f (g c) = none_reply) -> alter (upd_reply f) i (alter (upd_reply g) i sl) = cleared i sl.
Proof.
  intros Hfg. unfold cleared. rewrite alter_alter_eq. apply alter_ext. intros s _. unfold compose, upd_reply.
  destruct (slot_body s) eqn:E; cbn; rewrite ?E; [|done..]. by rewrite Hfg.
Qed.

Lemma cleared_at_once i sl f :
  f (reply_of sl i) = none_reply -> alter (upd_reply f) i sl = cleared i sl.
Proof.
  intros Hf. unfold cleared. apply alter_ext. intros s Hs. unfold upd_reply. unfold reply_of in Hf.
  rewrite Hs in Hf. cbn in Hf. unfold reply_callback_of in Hf. destruct (slot_body s); cbn in *; congruence.
Qed.

Lemma upd_cookie_timeout i j sl : timeout_usec (reply_of (alter (upd_reply (set_cookie 0)) i sl) j) = timeout_usec (reply_of sl j).
Proof.
  destruct (decide (i = j)) as [->|Hj]; [|by rewrite reply_of_alter_ne]. unfold reply_of. rewrite lookup_alter_eq.
  destruct (sl !! j) as [s|]; [|done]. cbn. unfold reply_callback_of, upd_reply. destruct (slot_body s) eqn:E; cbn; rewrite ?E; done.
Qed.

Lemma upd_timeout_cookie t i j sl : cookie (reply_of (alter (upd_reply (set_timeout_usec t)) i sl) j) = cookie (reply_of sl j).
Proof.
  destruct (decide (i = j)) as [->|Hj]; [|by rewrite reply_of_alter_ne]. unfold reply_of. rewrite lookup_alter_eq.
  destruct (sl !! j) as [s|]; [|done]. cbn. unfold reply_callback_of, upd_reply. destruct (slot_body s) eqn:E; cbn; rewrite ?E; done.
Qed.

(** ** The three ways a call ends *)
Lemma triple_runs {A} P P' (f g : stm world A) Q :
  grows f -> (forall w, P w -> exists w1, f w = g w1 /\ P' w1) -> triple P' g Q -> triple P f Q.
Proof.
  intros Hg Hrun HT. apply triple_intro; [done|]. intros w r w' E Hr Hf HP.
  destruct (Hrun w HP) as (w1 & E1 & HP1). rewrite E1 in E. destruct (HT _ _ _ E) as [_ HQ]. by apply HQ.
Qed.

Lemma grows_answer i m : grows (answer maps dup_fd handlers i m).
Proof. by eapply triple_grows, triple_answer. Qed.
#[local] Hint Resolve grows_answer : grows.

Lemma grows_finish h m r : grows (finish_answer dup_fd h m r).
Proof. unfold finish_answer. grows. Qed.
#[local] Hint Resolve grows_finish : grows.

Lemma grows_with_current {A} m (f : stm world A) : grows f -> grows (with_current m f).
Proof.
  intros Hg w r w'. unfold with_current. destruct (f _) as [r1 w1] eqn:E. intros [= <- <-]. apply Hg in E. by destruct E.
Qed.
#[local] Hint Resolve grows_with_current : grows.

(** A call cut off by the end of the connection *)
Lemma cut_off_run b w i :
  inv w -> table b = table (conn w) -> i ∈ reply_callbacks (conn w) ->
  exists w1, cut_off b i w = (Ok tt, w1) /\ cut i w w1.
Proof.
  intros Hw Hb Hi. pose proof (linked_calls _ _ _ Hw) as Hok. injection Hb as Eb _ _ _ _. unfold cut_off. rewrite Eb.
  set (c := reply_of (slots (conn w)) i). destruct (Z.eqb_spec (timeout_usec c) 0) as [Ht|Ht].
  - eexists. rewrite stm_bind_eq. cbn. rewrite stm_bind_eq. unfold c.
    rewrite (remove_found w _ _ _ _ _ i Hok Hi eq_refl) by done. split; [done|].
    split; [done|]. split; [done|]. exists (reply_callbacks_prioq (conn w)). split.
    + unfold dequeued. fold c. by rewrite (proj2 (Z.eqb_eq _ 0)).
    + unfold table. cbn. by rewrite cleared_at_once by (fold c; unfold set_cookie; by rewrite Ht).
  - destruct (dequeue_found w _ _ _ _ _ i Hok eq_refl Ht) as (Q' & E & HQ); [done|].
    eexists. rewrite !stm_bind_eq, E. cbn. rewrite stm_bind_eq. unfold c.
    rewrite (remove_found _ (slots (conn w)) _ _ _ _ i Hok Hi) by (done || intros; apply upd_timeout_cookie).
    split; [done|]. split; [done|]. split; [done|]. exists Q'. split; [exact HQ|].
    unfold table. cbn. by rewrite cleared_in_steps.
Qed.

(** A reply that arrives: the message is rewound, which cannot fail. *)
Lemma rewound_run m : sealed m = true -> exists m', forall w, rewound m w = (Ok m', w).
Proof.
  intros Hs. unfold rewound, sd_bus_message_rewind. eexists. intros w. rewrite stm_bind_eq. cbn [sget].
  rewrite stm_bind_eq. unfold sreq at 1, slift at 1. rewrite Hs. reflexivity.
Qed.

Lemma cut_by_reply_run b w i :
  inv w -> conn w = b -> i ∈ reply_callbacks b ->
  exists w1, (mod_reply i (set_cookie 0);; cut_by_reply b i)
    (World (set_reply_callbacks (without i (reply_callbacks b)) b) (kern w)) = (Ok tt, w1) /\ cut i w w1.
Proof.
  intros Hw <- Hi. pose proof (linked_calls _ _ _ Hw) as Hok. rewrite stm_bind_eq. unfold mod_reply at 1, bmod at 1. cbn.
  unfold cut_by_reply. set (c := reply_of (slots (conn w)) i). destruct (Z.eqb_spec (timeout_usec c) 0) as [Ht|Ht].
  - eexists. split; [done|]. split; [done|]. split; [done|]. exists (reply_callbacks_prioq (conn w)). split.
    + unfold dequeued. fold c. by rewrite (proj2 (Z.eqb_eq _ 0)).
    + unfold table. cbn. by rewrite cleared_at_once by (fold c; unfold set_cookie; by rewrite Ht).
  - match goal with |- context [(timeouts_remove i ≫= _) ?x] => set (w1 := x) end.
    destruct (dequeue_found w1 _ _ _ _ _ i Hok eq_refl Ht) as (Q' & E & HQ); [intros; apply upd_cookie_timeout|].
    eexists. rewrite stm_bind_eq, E. split; [done|]. split; [done|]. split; [done|]. exists Q'. split; [exact HQ|].
    unfold table. cbn. by rewrite cleared_in_steps.
Qed.

(** A call that times out *)
Lemma cut_by_timeout_run b w i :
  inv w -> table b = table (conn w) -> prioq_peek (reply_callbacks_prioq b) = Some i ->
  i ∈ reply_callbacks (conn w) /\ exists w1, cut_by_timeout b i w = (Ok tt, w1) /\ cut i w w1.
Proof.
  intros Hw Hb Hp. pose proof (linked_calls _ _ _ Hw) as Hok. injection Hb as Eb1 _ _ Eb2 _. rewrite Eb2 in Hp.
  unfold cut_by_timeout. rewrite Eb1, Eb2. clear Eb1 Eb2. pose proof (pop_run _ _ (ok_wf _ _ _ _ _ Hok)) as Hpop. unfold prioq_peek in Hp.
  destruct (items (reply_callbacks_prioq (conn w))) as [|x l] eqn:El; [done|]. injection Hp as Hx.
  destruct Hpop as (Q' & E & HW & HP & _).
  assert (x ∈ items (reply_callbacks_prioq (conn w))) as Hxin by (rewrite El; by left).
  assert (Hd : i ∈ map data (items (reply_callbacks_prioq (conn w)))) by (apply list_elem_of_fmap; by exists x).
  apply (ok_queued _ _ _ _ _ Hok) in Hd. pose proof (ok_timed _ _ _ _ _ Hok _ Hd) as Hi.
  rewrite stm_bind_eq. unfold slift. rewrite E, Hx, stm_bind_eq. unfold sreq, slift.
  rewrite bool_decide_eq_true_2 by done. cbn [require]. rewrite stm_bind_eq. unfold bmod at 1.
  rewrite stm_bind_eq. unfold mod_reply at 1, bmod at 1. rewrite stm_bind_eq.
  rewrite (remove_found _ (slots (conn w)) _ _ _ _ i Hok Hi) by (done || intros; apply upd_timeout_cookie).
  split; [done|]. eexists. split; [done|]. split; [done|]. split; [done|]. exists Q'.
  split; [|unfold table; cbn; by rewrite cleared_in_steps].
  unfold dequeued. rewrite (proj2 (Z.eqb_neq _ 0)) by done. split; [done|]. rewrite El, HP.
  pose proof (ok_cells _ _ _ _ _ Hok _ Hxin) as Hc. destruct x as [d p]. cbn in *. by subst.
Qed.

Lemma triple_bget {A} P (g : connection -> stm world A) Q :
  (forall b, triple (fun w => P w /\ conn w = b) (g b) Q) -> triple P (bget ≫= g) Q.
Proof.
  intros HT w r w' E. rewrite stm_bind_eq in E. cbn in E. destruct (HT _ _ _ _ E) as [G HQ]. split; [done|].
  intros. by apply HQ.
Qed.

Lemma preserves_at {A} b (f : stm world A) : preserves f -> triple (fun w => inv w /\ conn w = b) f (fun _ => inv).
Proof. intros Hf. eapply triple_pre; [|exact Hf]. by intros w []. Qed.

(** The table as it was when the connection was read *)
Definition since (b : connection) (w : world) : Prop := inv w /\ table b = table (conn w).

Lemma stable_since b : stable (since b).
Proof. intros w w' Hu [H1 H2]. split; [by eapply stable_inv|]. destruct Hu as [-> _ _ _]. done. Qed.
#[local] Hint Resolve stable_since : keeps.

Lemma triple_now_answer i h m : triple (taken i)
  (next_iteration;; r ← with_current m (answer maps dup_fd handlers i m); finish_answer dup_fd h m r) (fun _ => inv).
Proof.
  eapply triple_bind with (R := fun r w => r = Ok tt /\ taken i w); [| |by intros e w [? _]].
  - apply triple_intro; [apply grows_keeps; auto with keeps|]. intros w r w' E _ _ Hw. injection E as <- <-.
    split; [done|]. by eapply stable_taken; [|exact Hw].
  - intros []. apply triple_pure; [grows|]. intros _. eapply triple_bind with (R := fun _ => inv); [| |done].
    + apply triple_with_current; [apply stable_taken|intros; apply stable_inv|apply triple_answer].
    + intros r. apply preserves_keeps. unfold finish_answer. keeps.
Qed.

Lemma triple_cut {A} P i (f : stm world unit) (g : stm world A) :
  (forall w, P w -> exists w1, f w = (Ok tt, w1) /\ taken i w1) -> grows f -> triple (taken i) g (fun _ => inv) ->
  triple P (f;; g) (fun _ => inv).
Proof.
  intros Hf Hg HT. eapply triple_runs; [|intros w HP; destruct (Hf w HP) as (w1 & E & Hw1); exists w1|exact HT].
  - apply grows_bind; [done|]. intros _. by eapply triple_grows.
  - by rewrite stm_bind_eq, E.
Qed.

Lemma grows_cuts b i : grows (cut_off b i) /\ grows (cut_by_timeout b i) /\ grows (cut_by_reply b i).
Proof. split; [|split]; [unfold cut_off|unfold cut_by_timeout|unfold cut_by_reply]; grows. Qed.

Lemma since_keeps {A} b (f : stm world A) : keeps f -> triple (since b) f (fun _ => since b).
Proof. intros Hf. apply triple_keeps; auto with keeps. Qed.

Lemma preserves_timeout : preserves (process_timeout maps dup_fd handlers).
Proof.
  unfold process_timeout. apply triple_bget. intros b.
  destruct (prioq_peek _) as [i|] eqn:Hp; [|apply preserves_at, preserves_keeps; auto with keeps].
  apply triple_pre with (P := since b); [by intros w [? <-]|].
  eapply triple_bind; [apply since_keeps; auto with keeps| |by intros e w []].
  intros n. cbv zeta. destruct (n <? _); [eapply triple_weaken; [|apply (since_keeps b); auto with keeps|]; [done|by intros r w []]|].
  eapply triple_bind; [apply since_keeps; auto with keeps| |by intros e w []].
  intros m. eapply triple_cut; [|apply grows_cuts|apply triple_now_answer].
  intros w [Hw Hb]. destruct (cut_by_timeout_run b w i Hw Hb Hp) as (Hi & w1 & E & Hc). exists w1.
  split; [done|]. by eapply cut_taken.
Qed.

Lemma preserves_closing_reply i : triple (fun w => inv w /\ i ∈ reply_callbacks (conn w))
  (process_closing_reply_callback maps dup_fd handlers i) (fun _ => inv).
Proof.
  unfold process_closing_reply_callback. apply triple_bget. intros b. cbv zeta.
  apply triple_pre with (P := fun w => since b w /\ i ∈ reply_callbacks b); [by intros w [[? ?] <-]|].
  assert (Hst : stable (fun w => since b w /\ i ∈ reply_callbacks b)).
  { intros w w' Hu [H1 H2]. split; [by eapply stable_since|done]. }
  eapply triple_bind; [apply triple_keeps; [exact Hst|auto with keeps]| |by intros e w [[? _] _]].
  intros m. eapply triple_cut; [|apply grows_cuts|apply (triple_now_answer i false)].
  intros w [[Hw Hb] Hi]. assert (Hi' : i ∈ reply_callbacks (conn w)) by (by injection Hb as _ _ <- _ _).
  destruct (cut_off_run b w i Hw Hb Hi') as (w1 & E & Hc). exists w1. split; [done|]. by eapply cut_taken.
Qed.

Lemma preserves_reply m : sealed m = true -> preserves (process_reply maps dup_fd handlers m).
Proof.
  intros Hs. unfold process_reply. destruct (negb _); [apply preserves_keeps; auto with keeps|].
  apply triple_bget. intros b. match goal with |- context [if ?c then _ else _] => destruct c end;
    [apply preserves_at, preserves_keeps; auto with keeps|].
  destruct (rewound_run m Hs) as [m' Hm].
  destruct (find_cookie (slots b) (reply_cookie m) (reply_callbacks b)) as [i|] eqn:Ef.
  - eapply triple_runs with (P' := taken i)
      (g := let h := is_hello b i in r ← answer maps dup_fd handlers i m'; finish_answer dup_fd h m' r).
    + grows. apply grows_cuts.
    + intros w [Hw Hb]. pose proof (find_cookie_some _ _ _ _ Ef) as [Hi _].
      destruct (cut_by_reply_run b w i Hw Hb Hi) as (w1 & E & Hw1). exists w1.
      split; [|eapply cut_taken; [exact Hw|by rewrite Hb|done]].
      rewrite stm_bind_eq. unfold reply_callbacks_remove at 1. rewrite stm_bind_eq. cbn [bget]. rewrite Hb, Ef.
      rewrite stm_bind_eq. unfold bmod at 1. cbn [mret stm_ret]. rewrite Hb. fold (without i (reply_callbacks b)).
      rewrite stm_bind_eq. rewrite stm_bind_eq in E. destruct (mod_reply i (set_cookie 0) _) as [[[]|e] w2] in E |- *; [|done].
      destruct Hw as [[_ [Ha _]] _]. rewrite Hb in Ha. rewrite Ha, andb_false_r, stm_bind_eq, Hm, stm_bind_eq, E. done.
    + cbv zeta. eapply triple_bind with (R := fun _ => inv); [apply triple_answer| |done].
      intros r. apply preserves_keeps. unfold finish_answer. keeps.
  - apply triple_intro; [grows; apply grows_cuts|]. intros w r w' E Hr Hf [Hw Hb].
    rewrite stm_bind_eq in E. unfold reply_callbacks_remove at 1 in E. rewrite stm_bind_eq in E. cbn [bget] in E.
    rewrite Hb, Ef in E. by injection E as <- <-.
Qed.

(** ** The other receivers *)
Definition filtering (i : nat) (w : world) : Prop := inv w /\ i ∈ filter_callbacks (conn w).

Lemma stable_filtering i : stable (filtering i).
Proof.
  intros w w' Hu [H1 H2]. split; [by eapply stable_inv|]. destruct Hu as [Ht _ _ _]. injection Ht as _ _ _ _ ->. done.
Qed.
#[local] Hint Resolve stable_filtering : keeps.

Lemma triple_filtered i m : triple (filtering i) (note (Filtered i m)) (fun _ => answered i).
Proof.
  apply triple_intro; [auto with grows|]. intros w r w' E _ _ [(Hc & st & Ho & [A1 A2 A3 A4 A5] & _) Hi].
  injection E as <- <-. split; [done|]. exists (<[i := Filter]> st). pose proof (A5 i Hi) as Hst.
  assert (Hne : forall j, st !! j = Some Pending \/ st !! j = Some Loose -> j <> i).
  { intros j Hj ->. destruct Hj, Hst; congruence. }
  split; [cbn [kern happened]; rewrite observed_snoc, Ho; cbn; by destruct Hst as [-> | ->]|].
  split; [|exists Filter; by rewrite lookup_insert_eq].
  split; [exact A1| | | |]; cbn [conn].
  - intros j Hj Hx. specialize (A2 j Hj Hx). rewrite lookup_insert_ne; [done|]. apply not_eq_sym. by apply Hne.
  - intros j Hj. destruct (decide (j = i)) as [->|Hji]; [by rewrite lookup_insert_eq in Hj|].
    rewrite lookup_insert_ne in Hj by done. by apply A3.
  - intros j Hj. destruct (decide (j = i)) as [->|Hji].
    + apply (ok_filters _ _ _ _ _ A1) in Hi as (h & n & Hb). unfold body_at in Hb.
      apply fmap_Some in Hb as (s & Hs & _). by eapply ok_fresh.
    + rewrite lookup_insert_ne in Hj by done. by apply A4.
  - intros j Hj. destruct (decide (j = i)) as [->|Hji]; [right; by rewrite lookup_insert_eq|].
    rewrite lookup_insert_ne by done. by apply A5.
Qed.

Lemma triple_ref_filtering i : triple (filtering i) (sd_bus_slot_ref i) (fun r w => r = Ok tt /\ filtering i w).
Proof.
  apply triple_intro; [auto with grows|]. intros w r w' E Hr Hf [Hw Hi].
  unfold sd_bus_slot_ref in E. rewrite stm_bind_eq, slot_get_run in E.
  destruct (slots (conn w) !! i) as [s|] eqn:Hs; [|by injection E as <- <-].
  rewrite stm_bind_eq in E. unfold sreq, slift, require in E. destruct (0 <? n_ref s); injection E as <- <-; [|done].
  split; [done|]. split; [by apply (inv_at_rereferenced _ _ w i s)|done].
Qed.

Lemma grows_handler h m : grows (call_handler maps dup_fd handlers h m).
Proof. by eapply triple_grows, preserves_handler. Qed.
#[local] Hint Resolve grows_handler : grows.

(** Calling a filter *)
Lemma triple_filter_called {A} i h m (k : res Z * option sd_bus_error -> stm world A) : (forall r, preserves (k r)) ->
  triple (filtering i) (sd_bus_slot_ref i;; bmod (set_current_slot (Some i));; note (Filtered i m);;
    r ← call_handler maps dup_fd handlers h m; bmod (set_current_slot None);; sd_bus_slot_unref i;; k r) (fun _ => inv).
Proof.
  intros Hk. assert (Hgk : forall r, grows (k r)) by (intros r; by eapply triple_grows, Hk).
  eapply triple_bind; [apply triple_ref_filtering| |by intros e w [? _]]. intros [].
  apply triple_pure; [grows|]. intros ?.
  eapply triple_bind with (R := fun _ => filtering i); [apply triple_keeps; [auto with keeps|keeps]| |by intros e w [? _]].
  intros ?. eapply triple_bind; [apply triple_filtered| |intros e w; apply answered_inv]. intros ?.
  apply answered_bind; [apply triple_settled, preserves_handler|]. intros r.
  apply answered_bind; [apply answered_keeps; keeps|]. intros ?.
  apply answered_bind; [apply triple_unref; intros; by apply settled_given_up|]. intros ?.
  eapply triple_pre; [apply answered_inv|apply Hk].
Qed.

Lemma preserves_filter_pass l : forall m, preserves (filter_pass maps dup_fd handlers m l).
Proof.
  induction l as [|i l IH]; intros m; cbn [filter_pass]; [apply preserves_keeps; auto with keeps|].
  apply triple_bget. intros b. destruct (filter_callbacks_modified b); [apply preserves_at, preserves_keeps; auto with keeps|].
  assert (Hgl : forall m, grows (filter_pass maps dup_fd handlers m l)) by (intros m'; by eapply triple_grows, IH).
  assert (Hrest : forall m r, preserves (r ← maybe_reply_error dup_fd m r;
    if r =? 0 then slot_get i;; filter_pass maps dup_fd handlers m l else mret r)).
  { intros m1 r. apply preserved_bind; [apply preserves_keeps; auto with keeps|]. intros r1.
    destruct (r1 =? 0); [|apply preserves_keeps; auto with keeps].
    apply preserved_bind; [apply preserves_keeps; unfold slot_get; keeps|]. auto. }
  apply triple_intro; [grows|]. intros w r w' E Hr Hf [Hw <-]. rewrite stm_bind_eq, slot_get_run in E.
  destruct (slots (conn w) !! i) as [s|] eqn:Hs; [|by injection E as <- <-].
  destruct (slot_body s) as [|h last|] eqn:Hb; [by injection E as <- <-| |by injection E as <- <-].
  destruct (last =? _); [destruct (IH m w r w' E) as [_ HQ]; by apply HQ|].
  rewrite stm_bind_eq in E. unfold slot_put in E. unfold bmod in E at 1. cbn [conn kern] in E.
  match type of E with _ ?x = _ => set (w1 := x) in E end.
  assert (Hw1 : filtering i w1).
  { split; [by apply (inv_filter_marked w i s h last)|]. apply (ok_filters _ _ _ _ _ (linked_calls _ _ _ Hw)).
    exists h, last. unfold body_at. by rewrite Hs; cbn; rewrite Hb. }
  assert (T : triple (filtering i) (m ← rewound m; sd_bus_slot_ref i;; bmod (set_current_slot (Some i));;
    note (Filtered i m);; r ← call_handler maps dup_fd handlers h m; bmod (set_current_slot None);;
    sd_bus_slot_unref i;; r ← maybe_reply_error dup_fd m r;
    if r =? 0 then slot_get i;; filter_pass maps dup_fd handlers m l else mret r) (fun _ => inv)).
  { eapply triple_bind with (R := fun _ => filtering i); [apply triple_keeps; auto with keeps| |by intros e w2 [? _]].
    intros m1. apply triple_filter_called. auto. }
  destruct (T w1 r w' E) as [_ HQ]. by apply HQ.
Qed.

Lemma preserves_filter passes m : preserves (process_filter maps dup_fd handlers passes m).
Proof.
  induction passes as [|passes IH]; cbn [process_filter]; [apply preserves_keeps; auto with keeps|].
  apply preserved_bind; [apply preserves_keeps; keeps|]. intros ?. apply triple_bget. intros b. apply preserves_at.
  apply preserved_bind; [apply preserves_filter_pass|]. intros r.
  destruct (negb _); [apply preserves_keeps; auto with keeps|]. apply triple_bget. intros b1. apply preserves_at.
  destruct (filter_callbacks_modified b1); [done|apply preserves_keeps; auto with keeps].
Qed.

(** ** Whole messages *)
Lemma preserves_receiver p : preserves (run_receiver dup_fd p).
Proof.
  unfold run_receiver. apply preserved_bind; [apply preserves_prog|]. intros [r e]. apply preserves_keeps. auto with keeps.
Qed.

Lemma preserves_first_nonzero l : Forall (fun f => preserves f) l -> preserves (first_nonzero l).
Proof.
  induction 1 as [|f l Hf _ IH]; cbn [first_nonzero]; [apply preserves_keeps; auto with keeps|].
  apply preserved_bind; [done|]. intros r. destruct (r =? 0); [done|apply preserves_keeps; auto with keeps].
Qed.

Lemma preserves_current {A} m (f : stm world A) : preserves f -> preserves (with_current m f).
Proof. intros Hf. apply triple_with_current; [apply stable_inv|intros; apply stable_inv|done]. Qed.

Lemma grows_message passes m :
  grows (process_message maps dup_fd handlers process_match bus_process_object machine_id passes m).
Proof.
  assert (Hr : grows (process_reply maps dup_fd handlers m)) by (unfold process_reply; grows; apply grows_cuts).
  assert (Hp : forall p, grows (run_receiver dup_fd p)) by (intros p; by eapply triple_grows, preserves_receiver).
  assert (Hf : grows (process_filter maps dup_fd handlers passes m)) by (by eapply triple_grows, preserves_filter).
  unfold process_message. apply grows_with_current. cbn [first_nonzero]. grows.
Qed.
#[local] Hint Resolve grows_message : grows.

Lemma preserves_message passes m : sealed m = true ->
  preserves (process_message maps dup_fd handlers process_match bus_process_object machine_id passes m).
Proof.
  intros Hs. unfold process_message. apply preserves_current.
  apply preserved_bind; [apply preserves_keeps; auto with keeps|]. intros _. apply preserves_first_nonzero.
  repeat apply Forall_cons_2; [| | | | | | |apply Forall_nil_2].
  - apply preserves_keeps; auto with keeps.
  - by apply preserves_reply.
  - apply preserves_keeps; auto with keeps.
  - apply preserves_filter.
  - apply preserves_receiver.
  - apply preserves_keeps; auto with keeps.
  - apply preserves_receiver.
Qed.

Lemma preserves_running passes want :
  preserves (process_running maps dup_fd handlers process_match bus_process_object machine_id passes want).
Proof.
  unfold process_running. apply triple_bget. intros b. apply preserves_at.
  apply preserved_bind; [apply preserves_keeps; auto with keeps|]. intros _.
  apply preserved_bind; [apply preserves_timeout|]. intros r.
  destruct (negb _); [apply preserves_keeps; auto with keeps|].
  apply preserved_bind; [apply preserves_keeps; auto with keeps|]. intros [|]; [apply preserves_keeps; auto with keeps|].
  eapply triple_bind with (R := fun r w => (forall x m, r = Ok (x, Some m) -> sealed m = true) /\ inv w); [| |by intros e w []].
  { apply triple_intro; [apply grows_keeps; auto with keeps|]. intros w r1 w' E _ _ Hw.
    destruct (dispatch_rqueue_run _ _ _ E) as [Hu Hs]. split; [|by eapply stable_inv].
    apply Hs. by destruct Hw as [[_ ?] _]. }
  intros [got [m|]].
  2: { eapply triple_pre with (P := inv); [by intros w []|]. apply preserves_keeps; auto with keeps. }
  apply triple_pure; [grows|]. intros Hs. specialize (Hs got m eq_refl).
  apply preserved_bind; [by apply preserves_message|]. intros r2.
  destruct (negb _); [apply preserves_keeps; auto with keeps|].
  apply preserves_keeps. keeps.
Qed.

Lemma preserves_closing passes want :
  preserves (process_closing maps dup_fd handlers process_match passes want).
Proof.
  unfold process_closing. apply triple_bget. intros b.
  eapply triple_bind with (R := fun _ w => since b w); [| |by intros e w []].
  { eapply triple_pre; [|apply since_keeps; auto with keeps]. by intros w [? <-]. }
  intros _. destruct (reply_callbacks b) as [|i l] eqn:Hl.
  - apply triple_pre with (P := inv); [by intros w []|].
    apply preserved_bind; [apply preserves_keeps; auto with keeps|]. intros m.
    apply preserved_bind; [apply preserves_keeps; auto with keeps|]. intros _. apply preserves_current.
    apply preserved_bind; [apply preserves_keeps; auto with keeps|]. intros _.
    apply preserved_bind.
    { apply preserves_first_nonzero. repeat apply Forall_cons_2; [| |apply Forall_nil_2].
      - apply preserves_filter.
      - apply preserves_receiver. }
    intros r. apply preserves_keeps. keeps.
  - apply triple_pre with (P := fun w => inv w /\ i ∈ reply_callbacks (conn w)).
    { intros w [Hw Hb]. split; [done|]. injection Hb as _ _ <- _ _. rewrite Hl. by left. }
    eapply triple_bind; [apply preserves_closing_reply| |done].
    intros r. apply preserves_keeps; auto with keeps.
Qed.

(** ** One step of [sd_bus_process] *)
Lemma preserves_process opening authenticating passes want :
  preserves opening -> preserves authenticating ->
  preserves (bus_process_internal maps dup_fd handlers process_match bus_process_object machine_id
    opening authenticating passes want).
Proof.
  intros Ho Ha. unfold bus_process_internal. apply triple_bget. intros b. apply preserves_at.
  apply preserved_bind; [apply preserves_keeps; auto with keeps|]. intros _.
  apply preserved_bind; [apply preserves_keeps; auto with keeps|]. intros _. cbv zeta.
  assert (Hc : forall f : stm world (Z * option message), preserves f ->
    preserves (r ← attempt f; match r with
      | Err e => if is_disconnect e then on_bus bus_enter_closing;; mret (1, None) else sfail e
      | Ok r => mret r end)).
  { intros f Hf. apply preserved_bind; [by apply triple_attempt|]. intros r. apply preserves_keeps. keeps. }
  assert (Hw : forall f : stm world bool, preserves f -> preserves (r ← f; mret (if r : bool then 1 else 0, None : option message))).
  { intros f Hf. apply preserved_bind; [done|]. intros r. apply preserves_keeps; auto with keeps. }
  destruct (state b).
  - apply preserves_keeps; auto with keeps.
  - by apply Hc, Hw.
  - by apply Hc, Hw.
  - apply Hc, preserves_running.
  - apply Hc, preserves_running.
  - apply preserves_closing.
  - apply preserves_keeps; auto with keeps.
Qed.

End Dispatch.
