(* ===== verification/CallOnce.v ===== *)
(** * How a call ends, and that it is answered once

    Which call a timeout, a reply or the end of the connection takes out of the
    table, when, and what its callback gets. Whatever a program does with a connection over a descriptor, from its creation
    on, a call is answered at most once, and until it is answered or given up it is
    in the table. *)
From S2P Require Import Prelude BusType Names BusError MsgState MsgFields MsgRead MsgCopy Prioq Bus Sasl Transport Call Dispatch CallState CallKeeps CallSlots CallAsk CallAnswer.

Section Ends.
Context `{ErrnoTable} (maps : list sd_bus_error_map) (dup_fd : Z -> res Z).
Context (handlers : nat -> message -> prog).

(** The deadline of a call, 0 without one *)
Definition deadline (w : world) (i : nat) : Z := timeout_usec (reply_of (slots (conn w)) i).

Lemma peek_earliest w i :
  inv w -> prioq_peek (reply_callbacks_prioq (conn w)) = Some i ->
  i ∈ reply_callbacks (conn w) /\ forall j, deadline w j <> 0 -> deadline w i <= deadline w j.
Proof.
  intros Hw Hp. pose proof (linked_calls _ _ _ Hw) as Hok. pose proof (pop_run _ _ (ok_wf _ _ _ _ _ Hok)) as Hpop.
  unfold prioq_peek in Hp. destruct (items (reply_callbacks_prioq (conn w))) as [|x l] eqn:El; [done|].
  injection Hp as <-. set (i := data x) in *. destruct Hpop as (_ & _ & _ & _ & Hmin).
  assert (Hd : forall j, deadline w j <> 0 <-> j ∈ map data (x :: l)).
  { intros j. unfold deadline. rewrite <- El. symmetry. apply (ok_queued _ _ _ _ _ Hok). }
  assert (Hi : deadline w i <> 0) by (apply Hd; by left).
  split; [by apply (ok_timed _ _ _ _ _ Hok)|]. intros j Hj. pose proof Hj as Hq. apply Hd in Hq.
  apply list_elem_of_fmap in Hq as (y & -> & Hy). rewrite Forall_forall in Hmin. specialize (Hmin y Hy). fold i in Hmin.
  unfold compare_slots, timeout_compare in Hmin. fold (deadline w i) (deadline w (data y)) in Hmin.
  rewrite !(proj2 (Z.eqb_neq _ 0)) in Hmin by done. cbn [negb andb] in Hmin. unfold CMP in Hmin.
  destruct (Z.ltb_spec (deadline w i) (deadline w (data y))); [lia|].
  destruct (Z.ltb_spec (deadline w (data y)) (deadline w i)); lia.
Qed.

(** C10. [process_timeout] looks at the earliest deadline of all pending calls.
    Before it, nothing happens. From then on, that call leaves the table and the
    queue, the others stay as they are, and its callback gets the error [NoReply]. *)
Theorem process_timeout_earliest w n w1 :
  inv w -> now w = (Ok n, w1) ->
  match prioq_peek (reply_callbacks_prioq (conn w)) with
  | None => process_timeout maps dup_fd handlers w = (Ok 0, w) /\ forall i, deadline w i = 0
  | Some i =>
      i ∈ reply_callbacks (conn w) /\ (forall j, deadline w j <> 0 -> deadline w i <= deadline w j) /\
      if n <? deadline w i then process_timeout maps dup_fd handlers w = (Ok 0, w1)
      else
        let c := cookie (reply_of (slots (conn w)) i) in
        match synthetic_error c "org.freedesktop.DBus.Error.NoReply" "Method call timed out" w1 with
        | (Err e, w1) => process_timeout maps dup_fd handlers w = (Err e, w1)
        | (Ok m, w1) => exists w2, cut i w1 w2 /\
            process_timeout maps dup_fd handlers w =
            (next_iteration;; r ← with_current m (answer maps dup_fd handlers i m);
             finish_answer dup_fd (is_hello (conn w) i) m r) w2
        end
  end.
Proof.
  intros Hw Hn. destruct (prioq_peek _) as [i|] eqn:Hp.
  - destruct (peek_earliest w i Hw Hp) as [Hi Hmin]. split; [done|]. split; [done|].
    unfold process_timeout. rewrite stm_bind_eq. cbn [bget]. rewrite Hp, stm_bind_eq, Hn. fold (deadline w i).
    destruct (n <? deadline w i); [done|]. rewrite stm_bind_eq. cbv zeta.
    assert (Hs : since (conn w) w1).
    { apply (stable_since (conn w) w); [by eapply keeps_now|done]. }
    destruct (synthetic_error _ _ _ w1) as [[m|e] w2] eqn:Es; [|done].
    assert (Hs2 : since (conn w) w2) by (apply (stable_since (conn w) w1); [by eapply keeps_synthetic|done]).
    destruct Hs2 as [Hw2 Ht2]. destruct (cut_by_timeout_run _ w2 i Hw2 Ht2 Hp) as (_ & w3 & E & Hc).
    exists w3. split; [done|]. by rewrite stm_bind_eq, E.
  - split.
    + unfold process_timeout. rewrite stm_bind_eq. cbn [bget]. by rewrite Hp.
    + intros i. destruct (Z.eq_dec (deadline w i) 0) as [|Hd]; [done|]. exfalso.
      apply (ok_queued _ _ _ _ _ (linked_calls _ _ _ Hw)) in Hd. unfold prioq_peek in Hp.
      destruct (items _); [by apply elem_of_nil in Hd|done].
Qed.

(** C11. [process_reply] gives a reply that is addressed to this connection to the
    call that has its cookie, and only to that; the call leaves the table and the
    queue before its callback runs, and the others stay as they are. A reply to no
    pending call is left to the other receivers. *)
Theorem process_reply_matches w m :
  inv w -> sealed m = true ->
  in_set (h_type (hdr m)) [SD_BUS_MESSAGE_METHOD_RETURN; SD_BUS_MESSAGE_METHOD_ERROR] = true ->
  (forall d u, destination m = Some d -> unique_name (bus (conn w)) = Some u -> d = u) ->
  match find_cookie (slots (conn w)) (reply_cookie m) (reply_callbacks (conn w)) with
  | None => process_reply maps dup_fd handlers m w = (Ok 0, w) /\
      forall i, i ∈ reply_callbacks (conn w) -> cookie (reply_of (slots (conn w)) i) <> reply_cookie m
  | Some i => i ∈ reply_callbacks (conn w) /\ cookie (reply_of (slots (conn w)) i) = reply_cookie m /\
      exists m' w2, rewound m w = (Ok m', w) /\ cut i w w2 /\
      process_reply maps dup_fd handlers m w =
      (r ← answer maps dup_fd handlers i m'; finish_answer dup_fd (is_hello (conn w) i) m' r) w2
  end.
Proof.
  intros Hw Hs Ht Hd. assert (Hu : match destination m, unique_name (bus (conn w)) with
    | Some d, Some u => negb (streq d u) | _, _ => false end = false).
  { destruct (destination m) as [d|]; [|done]. destruct (unique_name _) as [u|]; [|done].
    rewrite (Hd d u) by done. by rewrite streq_refl. }
  unfold process_reply. rewrite Ht. cbn [negb]. rewrite stm_bind_eq. cbn [bget]. rewrite Hu, stm_bind_eq.
  unfold reply_callbacks_remove at 1 2. rewrite stm_bind_eq. cbn [bget].
  destruct (find_cookie _ _ _) as [i|] eqn:Ef.
  - destruct (find_cookie_some _ _ _ _ Ef) as [Hi Hc]. split; [done|]. split; [done|].
    destruct (rewound_run m Hs) as [m' Hm]. destruct (cut_by_reply_run (conn w) w i Hw eq_refl Hi) as (w1 & E & Hcut).
    exists m', w1. split; [done|]. split; [done|].
    rewrite stm_bind_eq. unfold bmod at 1. cbn [mret stm_ret]. fold (without i (reply_callbacks (conn w))).
    rewrite stm_bind_eq. rewrite stm_bind_eq in E. destruct (mod_reply i (set_cookie 0) _) as [[[]|e] w2] in E |- *; [|done].
    destruct Hw as [[_ [Ha _]] _]. by rewrite Ha, andb_false_r, stm_bind_eq, Hm, stm_bind_eq, E.
  - split; [done|]. by apply find_cookie_none.
Qed.

(** When the connection closes, each turn ends one pending call, the one that
    was made first, with the error [NoReply]. *)
Theorem process_closing_first process_match passes want w i l :
  inv w -> state (conn w) = BUS_CLOSING -> reply_callbacks (conn w) = i :: l ->
  let c := cookie (reply_of (slots (conn w)) i) in
  match synthetic_error c "org.freedesktop.DBus.Error.NoReply" "Connection terminated" w with
  | (Err e, w1) => process_closing maps dup_fd handlers process_match passes want w = (Err e, w1)
  | (Ok m, w1) => exists w2, cut i w1 w2 /\ reply_callbacks (conn w2) = l /\
      process_closing maps dup_fd handlers process_match passes want w =
      (r ← (next_iteration;; r ← with_current m (answer maps dup_fd handlers i m); maybe_reply_error dup_fd m r);
       mret (r, None)) w2
  end.
Proof.
  intros Hw Hst Hl c. unfold process_closing. rewrite stm_bind_eq. cbn [bget]. rewrite stm_bind_eq.
  unfold sreq, slift. rewrite bool_decide_eq_true_2 by done. cbn [require]. rewrite Hl, stm_bind_eq.
  unfold process_closing_reply_callback. rewrite stm_bind_eq. cbn [bget]. cbv zeta. fold c. rewrite stm_bind_eq.
  destruct (synthetic_error _ _ _ w) as [[m|e] w1] eqn:Es; [|done].
  assert (Hs : since (conn w) w1) by (apply (stable_since (conn w) w); [by eapply keeps_synthetic|done]).
  destruct Hs as [Hw1 Ht]. assert (Hi : i ∈ reply_callbacks (conn w1)).
  { injection Ht as _ _ <- _ _. rewrite Hl. by left. }
  destruct (cut_off_run _ w1 i Hw1 Ht Hi) as (w2 & E & Hc). exists w2. split; [done|]. split.
  - destruct (cut_others i w1 w2 Hi Hw1 Hc) as [-> _]. injection Ht as _ _ <- _ _. rewrite Hl.
    pose proof (ok_R _ _ _ _ _ (linked_calls _ _ _ Hw)) as Hnd. rewrite Hl in Hnd. apply NoDup_cons in Hnd as [Hni _].
    unfold without. cbn [List.filter]. rewrite Nat.eqb_refl. cbn [negb]. by apply without_not_in.
  - by rewrite stm_bind_eq, stm_bind_eq, E.
Qed.
End Ends.

(** ** Every call is answered once *)
(** ** Authentication *)
Lemma preserves_start_running : preserves bus_start_running.
Proof.
  unfold bus_start_running. apply triple_bget. intros b. apply preserves_at.
  apply preserved_bind; [apply preserves_keeps; auto with keeps|]. intros _.
  eapply triple_bind with (R := fun r w => (forall n, r = Ok n -> 0 <= n < 2 ^ 64) /\ inv w); [| |by intros e w []].
  { apply triple_intro; [apply grows_keeps; auto with keeps|]. intros w r w' E _ _ Hw.
    split; [|by eapply stable_inv; [eapply keeps_now|]].
    destruct Hw as [[[(H1 & H2 & H3) _] _] _]. injection E as <- _. intros n [= <-].
    destruct (ticks (kern w)) as [|t l]; cbn in *; [lia|]. apply Forall_cons in H2 as [H2 H4].
    assert (0 <= foldr Z.add 0 l) by (clear -H4; induction H4; cbn; lia). lia. }
  intros n. apply triple_pure; [grows|]. intros Hn. specialize (Hn n eq_refl).
  apply preserved_bind; [|intros ?; apply preserves_keeps; keeps].
  apply triple_intro; [grows|]. intros w r w' E _ _ Hw. injection E as <- <-.
  apply (inv_at_calls _ _ w _ (foldr (fun i m => alter (start_timeout n) i m) (slots (conn w)) (reply_callbacks (conn w)))
    (reply_callbacks_prioq (conn w))); [done| |done|done].
  apply calls_ok_start; [by eapply linked_calls|done].
Qed.

Ltac steps := repeat match goal with
  | |- preserves (_ ≫= _) => apply preserved_bind
  | |- forall _, _ => intros ?
  | |- preserves (let '(_, _) := ?x in _) => destruct x
  | |- preserves (match ?x with _ => _ end) => destruct x
  | |- preserves bus_start_running => apply preserves_start_running
  | |- _ => solve [auto with keeps | apply preserves_keeps; solve [auto with keeps | keeps]]
  end.

Lemma preserves_verify_client : preserves bus_socket_auth_verify_client.
Proof. unfold bus_socket_auth_verify_client. steps. Qed.

Lemma keeps_auth_write t : keeps (bus_socket_auth_write t).
Proof. unfold bus_socket_auth_write. keeps. Qed.
#[export] Hint Resolve keeps_auth_write : keeps.

Lemma keeps_auth_ok : keeps bus_socket_auth_write_ok.
Proof. unfold bus_socket_auth_write_ok. keeps. Qed.
Lemma keeps_reject t : keeps (reject t).
Proof. unfold reject. keeps. Qed.
#[export] Hint Resolve keeps_auth_ok keeps_reject : keeps.

Lemma kept_mechanism ok a : keeps (auth_mechanism ok a).
Proof. unfold auth_mechanism. keeps. Qed.
#[export] Hint Resolve kept_mechanism : keeps.

Lemma preserves_auth_line l n : preserves (auth_line l n).
Proof. unfold auth_line. steps. Qed.
#[export] Hint Resolve preserves_auth_line preserves_verify_client : keeps.

Lemma preserves_server_loop fuel : forall p, preserves (server_loop fuel p).
Proof. induction fuel as [|fuel IH]; intros p; cbn [server_loop]; steps. Qed.
#[export] Hint Resolve preserves_server_loop : keeps.

Lemma preserves_verify : preserves bus_socket_auth_verify.
Proof. unfold bus_socket_auth_verify, bus_socket_auth_verify_server. steps. Qed.
#[export] Hint Resolve preserves_verify : keeps.

Lemma keeps_auth_control l : keeps (auth_control l).
Proof. induction l as [|[]]; cbn [auth_control]; keeps. Qed.
#[export] Hint Resolve keeps_auth_control : keeps.

Lemma preserves_read_auth : preserves bus_socket_read_auth.
Proof. unfold bus_socket_read_auth. steps. Qed.

Lemma keeps_write_auth : keeps bus_socket_write_auth.
Proof. unfold bus_socket_write_auth, bus_socket_write_null_byte. keeps. Qed.
#[export] Hint Resolve preserves_read_auth keeps_write_auth : keeps.

Lemma preserves_authenticating : preserves bus_socket_process_authenticating.
Proof. unfold bus_socket_process_authenticating. steps. Qed.

(** ** Starting *)
Lemma grows_verify : grows bus_socket_read_auth.
Proof. by eapply triple_grows, preserves_read_auth. Qed.
#[local] Hint Resolve grows_verify : grows.

(** On Unix sockets, descriptors stay negotiable. *)
Lemma preserves_start_auth : preserves bus_socket_start_auth.
Proof.
  unfold bus_socket_start_auth.
  apply preserved_bind.
  { apply preserves_keeps. unfold bus_get_peercred. repeat (apply kept_bind; [auto with keeps|intros ?]).
    apply kept_mod. intros b. by case_match. }
  intros _. apply preserved_bind; [apply preserves_keeps; keeps|]. intros _.
  apply preserved_bind; [apply preserves_keeps; keeps|]. intros t.
  apply preserved_bind; [apply preserves_keeps; keeps|]. intros _.
  eapply triple_bind with (R := fun r w => (forall k, r = Ok k -> forall fd, is_unix_socket k fd = true) /\ inv w);
    [| |by intros e w []].
  { apply triple_intro; [apply grows_keeps; auto with keeps|]. intros w r w' E _ _ Hw. injection E as <- <-.
    split; [|done]. intros k [= <-]. by destruct Hw as [[[_ ?] _] _]. }
  intros k. apply triple_pure.
  { apply grows_bind; [apply grows_mod; intros b; by case_match|]. intros _.
    apply grows_bind; [apply grows_mod; intros b; by case_match|]. intros _. unfold bus_socket_start_auth_client. grows. }
  intros Hk. specialize (Hk k eq_refl).
  apply preserved_bind; [apply preserves_keeps, kept_mod; intros b; by rewrite Hk|]. intros _.
  apply preserved_bind; [apply preserves_keeps, kept_mod; intros b; by rewrite Hk, orb_true_r|]. intros _.
  unfold bus_socket_start_auth_client. steps.
Qed.

Lemma preserves_or_cleanup {A} (f : stm world A) c : preserves f -> preserves c -> preserves (or_cleanup f c).
Proof.
  intros Hf Hc. eapply triple_weaken with (Q := fun r => match r with Ok a => inv | Err _ => inv end); [done| |].
  - apply triple_cleanup with (R := fun _ => inv) (Qa := fun _ => inv); [done|done|done].
  - intros r w. by destruct r.
Qed.

Section Runs.
Context `{ErrnoTable} (maps : list sd_bus_error_map) (dup_fd : Z -> res Z).
Context (handlers : nat -> message -> prog) (process_match bus_process_object : message -> prog).
Context (machine_id : res (list Z)).

Lemma keeps_outside : keeps outside_ensure_running.
Proof. unfold outside_ensure_running. keeps. Qed.
#[local] Hint Resolve keeps_outside : keeps.

Lemma preserves_send_hello : preserves (bus_send_hello dup_fd outside_ensure_running).
Proof.
  unfold bus_send_hello. apply triple_bget. intros b. apply preserves_at.
  destruct (negb _); [apply preserves_keeps; auto with keeps|].
  apply preserved_bind; [apply preserves_keeps; auto with keeps|]. intros m.
  eapply triple_bind; [apply triple_call_async; auto with keeps| |by intros].
  intros [i|]; [|by apply preserves_keeps; auto with keeps].
  apply triple_pre with (P := fun w => exists s, linked i s w /\ i ∈ reply_callbacks (conn w)); [done|].
  apply triple_intro; [auto with grows|]. intros w r w' E Hr Hf (s & Hs). by apply (triple_asked i s w _ _ E).
Qed.

Lemma preserves_start : preserves (sd_bus_start dup_fd outside_ensure_running).
Proof.
  unfold sd_bus_start. apply triple_bget. intros b. apply preserves_at.
  do 3 (apply preserved_bind; [apply preserves_keeps; keeps|intros ?]).
  apply preserved_bind; [|intros ?; apply preserves_send_hello].
  destruct (0 <=? input_fd b); [|apply preserves_keeps; keeps].
  apply preserves_or_cleanup; [|apply preserves_keeps; auto with keeps].
  unfold bus_start_fd, bus_socket_take_fd, bus_socket_setup. steps. apply preserves_start_auth.
Qed.

(** ** What a user does with a connection, callbacks included

    Connecting to an address is not modelled: a run that does it ends. *)
Inductive action :=
  | Start
  | Use (op : api)
  | Turn (passes : nat) (want : bool).

Definition act (a : action) : stm world unit :=
  match a with
  | Start => attempt (sd_bus_start dup_fd outside_ensure_running);; mret tt
  | Use op => attempt (run_api dup_fd outside_ensure_running op);; mret tt
  | Turn passes want =>
      attempt (bus_process_internal maps dup_fd handlers process_match bus_process_object machine_id
        (sfail EASSERT) bus_socket_process_authenticating passes want);; mret tt
  end.

Fixpoint run (l : list action) : stm world unit :=
  match l with
  | [] => mret tt
  | a :: l => act a;; run l
  end.

Lemma preserves_act a : preserves (act a).
Proof.
  destruct a as [|op|p want]; cbn [act]; (apply preserved_bind; [apply triple_attempt|intros ?; apply preserves_keeps; auto with keeps]).
  - apply preserves_start.
  - apply preserves_api. auto with keeps.
  - apply preserves_process; [apply preserves_keeps; auto with keeps|apply preserves_authenticating].
Qed.

Lemma preserves_run l : preserves (run l).
Proof.
  induction l as [|a l IH]; cbn [run]; [apply preserves_keeps; auto with keeps|].
  apply preserved_bind; [apply preserves_act|by intros ?].
Qed.

(** A connection after [sd_bus_new] and its settings, but for refusing descriptors *)
Definition unstarted (b : connection) : Prop :=
  table b = table sd_bus_new /\ rqueue b = [] /\ accept_fd b = true.

Lemma calls_ok_empty nx : calls_ok ∅ nx [] (Queue [] ∅) [].
Proof.
  assert (Hr : forall i, reply_of ∅ i = none_reply) by (intros; unfold reply_of; by rewrite lookup_empty).
  assert (Hn : forall i : nat, i ∉ ([] : list nat)) by (intros; apply not_elem_of_nil).
  constructor.
  - intros i s. by rewrite lookup_empty.
  - intros i s. by rewrite lookup_empty.
  - apply NoDup_nil_2.
  - intros i. rewrite Hr. split; [by intros ?%Hn|done].
  - by intros i j ?%Hn.
  - intros i. by rewrite Hr.
  - intros i. rewrite Hr. cbn. lia.
  - apply NoDup_nil_2.
  - intros i. rewrite Hr. split; [by intros ?%Hn|done].
  - by intros x ?%elem_of_nil.
  - split; [by intros i j x y|by intros i x c|cbn; lia].
  - apply NoDup_nil_2.
  - intros i. split; [by intros ?%Hn|]. intros (h & n & E). unfold body_at in E. by rewrite lookup_empty in E.
Qed.

Lemma inv_unstarted b k : unstarted b -> kernel_ok k -> happened k = [] -> inv (World b k).
Proof.
  intros (Ht & Hq & Ha) Hk Hh. injection Ht as E1 E2 E3 E4 E5.
  split; [split; [done|split; [done|cbn; by rewrite Hq]]|]. exists ∅. cbn [kern conn]. rewrite Hh. split; [done|].
  split; [|done]. split; rewrite ?E1, ?E2, ?E3, ?E4, ?E5.
  - apply calls_ok_empty.
  - by intros i ?%elem_of_nil.
  - intros i. by rewrite lookup_empty.
  - intros i. rewrite lookup_empty. by intros [].
  - by intros i ?%elem_of_nil.
Qed.

(** C9. Whatever a program does with a connection over a Unix socket, from the
    creation of the connection on: starting it, calling with and without timeouts,
    referencing, unreferencing and floating slots, adding filters, closing, and
    turns of [sd_bus_process] in which replies arrive, calls time out or are cut
    off, and callbacks do all that again. No call is answered twice, none is
    answered that was not asked for, and a call that was neither answered nor given
    up is still in the table, in a slot that has its callback data. Runs stop at a
    failed assertion, and are taken up to 2^31 slots. *)
Theorem calls_answered_once b k l w' :
  unstarted b -> kernel_ok k -> happened k = [] ->
  run l (World b k) = (Ok tt, w') -> few_slots w' ->
  exists st, observed (happened (kern w')) = Some st /\
    forall i, st !! i = Some Pending ->
      i ∈ reply_callbacks (conn w') /\
      exists s c h, slots (conn w') !! i = Some s /\ attached s = true /\
        slot_body s = BUS_REPLY_CALLBACK c h /\ cookie c <> 0.
Proof.
  intros Hb Hk Hh E Hf. destruct (preserves_run l _ _ _ E) as [_ Hp].
  destruct Hp as (_ & st & Ho & [A1 A2 A3 A4 A5] & _); [done|done|by apply inv_unstarted|].
  exists st. split; [done|]. intros i Hi. destruct (A3 i Hi) as [HR|]; [|done]. split; [done|].
  apply (ok_pending _ _ _ _ _ A1) in HR. unfold reply_of in HR.
  destruct (slots (conn w') !! i) as [s|] eqn:Hs; [|done]. cbn in HR. unfold reply_callback_of in HR.
  destruct (slot_body s) as [c h| |] eqn:Hbd; [|done..]. exists s, c, h. split; [done|]. split; [|done].
  apply (ok_attached _ _ _ _ _ A1 _ _ Hs). by rewrite Hbd.
Qed.

End Runs.
