(* ===== verification/CallExamples.v ===== *)
(** * The theorems about calls at a concrete connection

    A client authenticates, makes three calls while that goes on, receives the
    reply to one, in whose callback it calls again, lets another time out, and is
    cut off. *)
From S2P Require Import Prelude BusType Names BusError MsgState MsgWrite MsgFields MsgRead MsgCopy MsgExamples Prioq Bus Sasl Transport Call Dispatch CallState CallKeeps CallSlots CallAsk CallAnswer CallOnce.

(** Two entries of the table of the C library *)
#[export] Instance sample_errnos : ErrnoTable := {
  errno_to_name e :=
    match e with
    | ETIMEDOUT => Some (bs "ETIMEDOUT")
    | ENOTCONN => Some (bs "ENOTCONN")
    | _ => None
    end;
  errno_from_name n :=
    if streq n (bs "ETIMEDOUT") then Some ETIMEDOUT
    else if streq n (bs "ENOTCONN") then Some ENOTCONN else None;
  strerror _ := (bs "Some error", true) }.

Definition call_bus : sd_bus := Bus BUS_RUNNING 1 true false None.
Definition sample_call : message :=
  Eval vm_compute in
    made (sd_bus_message_new_method_call call_bus (Some (bs "org.example.Peer")) (bs "/o")
      (Some (bs "org.example.I")) (bs "M")) no_message.

(** The reply of the peer to the second call, as it sends it *)
Definition sample_answer : list Z :=
  Eval vm_compute in
    let call := set_sealed true (set_hdr (set_h_serial 2 (hdr sample_call)) sample_call) in
    match sd_bus_message_new_method_return call_bus call with
    | Ok m => match sd_bus_message_seal 77 0 m with (Ok _, m) => bus_message_get_blob m | _ => [] end
    | _ => []
    end.

Definition greeting : list Z :=
  bs "OK 0123456789abcdef0123456789abcdef" ++ crlf ++ bs "AGREE_UNIX_FD" ++ crlf.

(** The second turn of reading gets the reply; later the peer is gone. *)
Definition call_kernel : kernel :=
  Kernel (replicate 12 (Ok 100000)) [] [] [Recv (zlen greeting) []; Recv 100000 []; Recv 100000 []; Recv 100000 []]
    (greeting ++ sample_answer) 1000 (replicate 5 10 ++ 500 :: replicate 30 10) 1000 (fun _ => true) None None [] [].

Definition call_connection : connection := set_output_fd 3 (set_input_fd 3 sd_bus_new).

(** The callback 7 calls again; the others return. *)
Definition call_handlers (n : nat) (m : message) : prog :=
  if Nat.eqb n 7 then Do (CallAsync true sample_call (Some 8%nat) 100000000) (fun _ => Return (Ok 1) None)
  else Return (Ok 1) None.
Definition nothing (m : message) : prog := Return (Ok 0) None.

Definition call_script : list action :=
  [Start; Use (CallAsync true sample_call (Some 5%nat) 200); Use (CallAsync false sample_call (Some 7%nat) 0);
   Use (CallAsync true sample_call (Some 6%nat) 5000000);
   Turn 1 false; Turn 1 false; Turn 1 false; Use (SlotUnref 2); Turn 1 false; Turn 1 false; Turn 1 false;
   Turn 1 false; Turn 1 false].

Definition call_turns (l : list action) : res unit * world :=
  run [] Ok call_handlers nothing nothing (Ok []) l (World call_connection call_kernel).

(** What happens, for short: the slot, and the type of the message in answer *)
Definition summary (h : happening) : nat * option Z :=
  match h with
  | Asked i => (i, None)
  | Answered i _ m => (i, Some (h_type (hdr m)))
  | Released i => (i, Some (-1))
  | Filtered i _ => (i, Some (-2))
  | Polled _ _ => (0%nat, None)
  end.

Lemma call_unstarted : unstarted call_connection.
Proof. done. Qed.

Lemma call_kernel_ok : kernel_ok call_kernel.
Proof.
  split; [|done]. split; [by vm_compute|]. split; [|by vm_compute]. cbn. repeat constructor; by vm_compute.
Qed.

Lemma call_turns_inv l w : call_turns l = (Ok tt, w) -> few_slots w -> inv w.
Proof.
  intros E Hf. destruct (preserves_run [] Ok call_handlers nothing nothing (Ok []) l _ _ _ E) as [_ H].
  apply H; [done|done|]. apply inv_unstarted; [apply call_unstarted|apply call_kernel_ok|done].
Qed.

(** ** The whole run *)
Definition call_end : world := Eval vm_compute in snd (call_turns call_script).

Lemma calls_answered_once_witness :
  map summary (happened (kern call_end)) =
    [(0%nat, None); (1%nat, None); (2%nat, None); (2%nat, Some (-1)); (0%nat, Some 3); (1%nat, Some 2);
     (3%nat, None); (3%nat, Some 3)] /\
  exists st, observed (happened (kern call_end)) = Some st /\
    forall i, st !! i = Some Pending ->
      i ∈ reply_callbacks (conn call_end) /\
      exists s c h, slots (conn call_end) !! i = Some s /\ attached s = true /\
        slot_body s = BUS_REPLY_CALLBACK c h /\ cookie c <> 0.
Proof.
  split; [by vm_compute|].
  apply (calls_answered_once [] Ok call_handlers nothing nothing (Ok []) call_connection call_kernel call_script call_end).
  - done.
  - apply call_kernel_ok.
  - done.
  - by vm_compute.
  - by vm_compute.
Defined.

(** ** A timeout, a reply, the end *)
Definition before_timeout : world := Eval vm_compute in snd (call_turns (take 8 call_script)).
Definition timeout_due : world := Eval vm_compute in snd (now before_timeout).
Definition timeout_message : message :=
  Eval vm_compute in
    made (synthetic_error 1 "org.freedesktop.DBus.Error.NoReply" "Method call timed out" timeout_due).1 no_message.

Lemma before_timeout_inv : inv before_timeout.
Proof. apply (call_turns_inv (take 8 call_script)); by vm_compute. Qed.

Lemma process_timeout_earliest_witness :
  deadline before_timeout 0 = 1240 /\ clock (kern timeout_due) = 1550 /\
  exists w2, cut 0 timeout_due w2 /\
    process_timeout [] Ok call_handlers before_timeout =
    (next_iteration;; r ← with_current timeout_message (answer [] Ok call_handlers 0 timeout_message);
     finish_answer Ok false timeout_message r) w2.
Proof.
  split; [by vm_compute|]. split; [by vm_compute|].
  pose proof (process_timeout_earliest [] Ok call_handlers before_timeout 1550 timeout_due before_timeout_inv) as T.
  specialize (T ltac:(by vm_compute)).
  assert (Ep : prioq_peek (reply_callbacks_prioq (conn before_timeout)) = Some 0%nat) by (by vm_compute).
  assert (Ec : 1550 <? deadline before_timeout 0 = false) by (by vm_compute).
  assert (Ek : cookie (reply_of (slots (conn before_timeout)) 0) = 1) by (by vm_compute).
  assert (Es : synthetic_error 1 "org.freedesktop.DBus.Error.NoReply" "Method call timed out" timeout_due =
    (Ok timeout_message, timeout_due)) by (by vm_compute).
  assert (Eh : is_hello (conn before_timeout) 0 = false) by (by vm_compute).
  rewrite Ep, Ec, Ek in T. cbv zeta in T. rewrite Es, Eh in T. exact (proj2 (proj2 T)).
Defined.

(** The next message in the queue is the reply. *)
Definition before_reply : world := Eval vm_compute in snd (call_turns (take 9 call_script)).
Definition the_reply : message :=
  Eval vm_compute in match (dispatch_rqueue before_reply).1 with Ok (_, Some m) => m | _ => no_message end.

Lemma process_reply_matches_witness :
  reply_cookie the_reply = 2 /\ reply_callbacks (conn before_reply) = [1%nat] /\
  exists m' w2, rewound the_reply before_reply = (Ok m', before_reply) /\ cut 1 before_reply w2 /\
    process_reply [] Ok call_handlers the_reply before_reply =
    (r ← answer [] Ok call_handlers 1 m'; finish_answer Ok false m' r) w2.
Proof.
  split; [by vm_compute|]. split; [by vm_compute|].
  assert (I : inv before_reply) by (apply (call_turns_inv (take 9 call_script)); by vm_compute).
  assert (Hs : sealed the_reply = true) by (by vm_compute).
  assert (Ht : in_set (h_type (hdr the_reply)) [SD_BUS_MESSAGE_METHOD_RETURN; SD_BUS_MESSAGE_METHOD_ERROR] = true) by (by vm_compute).
  assert (Hd : forall d u, destination the_reply = Some d -> unique_name (bus (conn before_reply)) = Some u -> d = u) by done.
  pose proof (process_reply_matches [] Ok call_handlers before_reply the_reply I Hs Ht Hd) as T.
  assert (Ef : find_cookie (slots (conn before_reply)) (reply_cookie the_reply) (reply_callbacks (conn before_reply)) = Some 1%nat)
    by (by vm_compute).
  assert (Eh : is_hello (conn before_reply) 1 = false) by (by vm_compute).
  rewrite Ef, Eh in T. exact (proj2 (proj2 T)).
Defined.

Definition before_closing : world := Eval vm_compute in snd (call_turns (take 11 call_script)).
Definition closing_message : message :=
  Eval vm_compute in
    made (synthetic_error 4 "org.freedesktop.DBus.Error.NoReply" "Connection terminated" before_closing).1 no_message.

Lemma process_closing_first_witness :
  state (conn before_closing) = BUS_CLOSING /\
  exists w2, cut 3 before_closing w2 /\ reply_callbacks (conn w2) = [] /\
    process_closing [] Ok call_handlers nothing 1 false before_closing =
    (r ← (next_iteration;; r ← with_current closing_message (answer [] Ok call_handlers 3 closing_message);
          maybe_reply_error Ok closing_message r);
     mret (r, None)) w2.
Proof.
  split; [by vm_compute|].
  assert (I : inv before_closing) by (apply (call_turns_inv (take 11 call_script)); by vm_compute).
  pose proof (process_closing_first [] Ok call_handlers nothing 1 false before_closing 3 [] I ltac:(by vm_compute)
    ltac:(by vm_compute)) as T.
  assert (Ek : cookie (reply_of (slots (conn before_closing)) 3) = 4) by (by vm_compute).
  assert (Es : synthetic_error 4 "org.freedesktop.DBus.Error.NoReply" "Connection terminated" before_closing =
    (Ok closing_message, before_closing)) by (by vm_compute).
  cbv zeta in T. rewrite Ek, Es in T. exact T.
Defined.

(** ** Errors *)
#[export] Instance sample_errno_laws : ErrnoTableLaws.
Proof. split. intros e n H. destruct e; try done; cbn in H; injection H as <-; by vm_compute. Qed.

Lemma errno_roundtrip_witness :
  exists e', sd_bus_error_set_errno (Some SD_BUS_ERROR_NULL) (Some ETIMEDOUT) = (Err ETIMEDOUT, Some e') /\
    sd_bus_error_is_set (Some e') = true /\
    sd_bus_error_get_errno [] (Some e') = Some (canonical ETIMEDOUT) /\
    exists c, sd_bus_error_copy [] (Some SD_BUS_ERROR_NULL) (Some e') = (Err (canonical ETIMEDOUT), Some c) /\
      e_name c = e_name e' /\ e_message c = e_message e' /\
      sd_bus_error_move [] (Some SD_BUS_ERROR_NULL) (Some e') = (Err (canonical ETIMEDOUT), Some e', Some SD_BUS_ERROR_NULL).
Proof. apply (errno_roundtrip [] SD_BUS_ERROR_NULL ETIMEDOUT); [by apply Forall_forall|done]. Defined.
