(* ===== verification/TransportWrite.v ===== *)
(** * The write queue

    What was written and what waits to be written, bytes and descriptors: every
    operation only moves the border between the two, or adds a whole message at
    the end. *)
From S2P Require Import Prelude BusType MsgState MsgFields MsgParse MsgCopy Bus Sasl Transport.

(** ** Messages that can be written *)
Record wired (m : message) : Prop := Wired {
  wr_sealed : sealed m = true;
  wr_parts : Forall (fun p => part_data p <> []) (parts m);
  wr_size : body_size m = zlen (body m);
  wr_fields : fields_size m < 2 ^ 32 }.

Lemma header_bytes_length h : length (header_bytes h) = 16%nat.
Proof. unfold header_bytes. by case_match. Qed.

Lemma blob_head m : bus_message_get_blob m = message_head m ++ body m.
Proof. unfold bus_message_get_blob, message_head. by rewrite <- !app_assoc. Qed.

Lemma head_length m : fields_size m < 2 ^ 32 -> zlen (message_head m) = BUS_HEADER_SIZE + ALIGN8 (fields_size m).
Proof.
  intros H. pose proof (zlen_nonneg (fields m)) as H0. fold (fields_size m) in H0.
  pose proof (ALIGN8_up (fields_size m) ltac:(lia)) as E. pose proof (align_up_spec (fields_size m) 8 ltac:(lia) H0).
  unfold message_head. rewrite !zlen_app. unfold zlen at 1. rewrite header_bytes_length.
  change (zlen (zeros ?n)) with (Z.of_nat (length (replicate n 0))). rewrite length_replicate.
  fold (fields_size m). unfold BUS_HEADER_SIZE. lia.
Qed.

Lemma blob_length m : wired m -> zlen (bus_message_get_blob m) = BUS_MESSAGE_SIZE m.
Proof.
  intros [_ _ H1 H2]. rewrite blob_head, zlen_app, head_length by done. unfold BUS_MESSAGE_SIZE. lia.
Qed.

Lemma wired_size m : wired m -> 16 <= BUS_MESSAGE_SIZE m.
Proof.
  intros W. rewrite <- blob_length, blob_head, zlen_app, head_length by (done || apply W).
  pose proof (zlen_nonneg (body m)). pose proof (zlen_nonneg (fields m)) as H0. fold (fields_size m) in H0.
  pose proof (wr_fields _ W).
  pose proof (ALIGN8_up (fields_size m) ltac:(lia)). pose proof (align_up_spec (fields_size m) 8 ltac:(lia) H0).
  unfold BUS_HEADER_SIZE. lia.
Qed.

Lemma append_iovec_run iov p : p <> [] -> append_iovec iov p = Ok (iov ++ [p]).
Proof. intros H. unfold append_iovec. by rewrite bool_decide_eq_false_2. Qed.

Lemma append_parts ps : Forall (fun p => part_data p <> []) ps -> forall iov,
  foldl (fun iov p => iov ← iov; append_iovec iov (part_data p)) (Ok iov) ps = Ok (iov ++ map part_data ps).
Proof.
  induction 1 as [|p ps Hp _ IH]; intros iov; cbn [foldl map]; [by rewrite app_nil_r|].
  cbn [mbind res_bind]. rewrite append_iovec_run, IH by done. by rewrite <- app_assoc.
Qed.

Lemma setup_iovec_run m :
  wired m -> exists iov, bus_message_setup_iovec m = Ok iov /\ concat iov = bus_message_get_blob m.
Proof.
  intros W. exists (message_head m :: map part_data (parts m)). unfold bus_message_setup_iovec.
  rewrite (wr_sealed _ W). cbn [require mbind res_bind]. rewrite append_iovec_run.
  2: { unfold message_head. intros E. apply (f_equal length) in E. rewrite length_app, header_bytes_length in E. done. }
  cbn [mbind res_bind app]. rewrite append_parts by apply W. split; [done|]. by rewrite blob_head.
Qed.

(** ** One write *)
Lemma write_message_step m idx w r w' :
  wired m -> is_connected (state (conn w)) = true -> 0 <= idx < BUS_MESSAGE_SIZE m ->
  bus_socket_write_message m idx w = (r, w') ->
  conn w' = conn w /\ inbound (kern w') = inbound (kern w) /\ recvs (kern w') = recvs (kern w) /\
  (exists l, sends (kern w) = l ++ sends (kern w') /\ (length l <= 1)%nat) /\
  match r with
  | Ok (Some i) =>
      idx < i <= BUS_MESSAGE_SIZE m /\
      sent (kern w') = sent (kern w) ++ take (Z.to_nat (i - idx)) (drop (Z.to_nat idx) (bus_message_get_blob m)) /\
      sent_fds (kern w') = sent_fds (kern w) ++ (if idx =? 0 then fds m else []) /\
      (length (sends (kern w')) < length (sends (kern w)))%nat
  | Ok None => sent (kern w') = sent (kern w) /\ sent_fds (kern w') = sent_fds (kern w) /\
               (sends (kern w) = [] \/ Err EAGAIN ∈ sends (kern w))
  | Err e => sent (kern w') = sent (kern w) /\ sent_fds (kern w') = sent_fds (kern w) /\ Err e ∈ sends (kern w)
  end.
Proof.
  intros W Hs Hi H. unfold bus_socket_write_message in H. rewrite (stm_bind_run bget _ w _ _ eq_refl) in H.
  rewrite Hs in H. rewrite (stm_bind_run (sreq true EASSERT) _ w tt w eq_refl) in H.
  rewrite (proj2 (Z.leb_gt (BUS_MESSAGE_SIZE m) idx)) in H by lia.
  destruct (setup_iovec_run m W) as (iov & E1 & E2). rewrite E1 in H. erewrite stm_bind_run in H by reflexivity.
  pose proof (blob_length m W) as Hl.
  destruct (iovec_advance_spec (length iov) iov 0 idx) as (iov' & idx' & E3 & E4 & E5 & _).
  { rewrite drop_0, E2. lia. }
  { lia. }
  rewrite E3 in H. erewrite stm_bind_run in H by reflexivity.
  assert (concat iov' = drop (Z.to_nat idx) (bus_message_get_blob m)) as Hc.
  { rewrite <- (take_drop idx' iov'), concat_app, E4, E5, drop_0, E2. done. }
  cbn beta iota in H. rewrite Hc in H. unfold mbind, stm_bind in H.
  destruct (unless_again _ w) as [[k|e] w1] eqn:E; apply unless_again_spec in E as (r0 & E & Hr0).
  all: pose proof (sendmsg_spec _ _ _ _ _ E) as Hsp.
  all: assert (Hne : drop (Z.to_nat idx) (bus_message_get_blob m) <> []) by
    (intros X; apply (f_equal length) in X; rewrite length_drop in X; unfold zlen in Hl; change (length []) with 0%nat in X; lia).
  all: destruct (Hsp Hne) as (H1 & H2 & H3 & H0 & H4); clear Hsp Hne.
  - destruct k as [n|]; subst r0; injection H as <- <-; cbn [fmap option_fmap option_map]; split_and!; try done.
    + destruct H4 as (H4 & _). unfold zlen in *. rewrite length_drop in H4. lia.
    + destruct H4 as (H4 & _). unfold zlen in *. rewrite length_drop in H4. lia.
    + destruct H4 as (_ & -> & _). by replace (idx + n - idx) with n by lia.
    + by destruct H4 as (_ & _ & _ & ->).
    + by destruct H4 as (_ & _ & ? & _).
    + by destruct H4.
    + by destruct H4 as (_ & ? & _).
    + destruct H4 as (_ & _ & [[_ ?]|?]); [by left|by right].
  - injection H as <- <-. destruct Hr0 as [-> Hr0]. by destruct H4 as (H4 & H5 & [[-> _]|H6]).
Qed.

(** ** The queue *)

(** What waits to be written. *)
Definition pending (b : connection) : list Z :=
  drop (Z.to_nat (windex b)) (concat (map bus_message_get_blob (wqueue b))).

(** The descriptors that go with it; those of a message go with its first byte. *)
Definition pending_fds (b : connection) : list Z :=
  match wqueue b with
  | [] => []
  | m :: q => (if windex b =? 0 then fds m else []) ++ concat (map fds q)
  end.

Record queue_ok (b : connection) : Prop := QueueOk {
  qo_wired : Forall wired (wqueue b);
  qo_empty : wqueue b = [] -> windex b = 0;
  qo_head : forall m q, wqueue b = m :: q -> 0 <= windex b < BUS_MESSAGE_SIZE m }.

Definition out_bytes (w : world) : list Z := sent (kern w) ++ pending (conn w).
Definition out_fds (w : world) : list Z := sent_fds (kern w) ++ pending_fds (conn w).

Lemma queue_next b q : queue_ok b -> Forall wired q -> queue_ok (set_windex 0 (set_wqueue q b)).
Proof.
  intros _ Hq. constructor; [done|done|]. intros m q' E. change (wqueue _) with q in E. subst q.
  inversion_clear Hq. pose proof (wired_size m ltac:(done)). change (windex (set_windex ?x _)) with x. lia.
Qed.

(** The head of the queue written up to [i]. *)
Lemma out_advance w w' m q i :
  queue_ok (conn w) -> wqueue (conn w) = m :: q -> windex (conn w) < i <= BUS_MESSAGE_SIZE m ->
  sent (kern w') = sent (kern w) ++
    take (Z.to_nat (i - windex (conn w))) (drop (Z.to_nat (windex (conn w))) (bus_message_get_blob m)) ->
  sent_fds (kern w') = sent_fds (kern w) ++ (if windex (conn w) =? 0 then fds m else []) ->
  let b' := if BUS_MESSAGE_SIZE m <=? i then set_windex 0 (set_wqueue q (conn w))
            else set_windex i (conn w) in
  queue_ok b' /\ out_bytes (World b' (kern w')) = out_bytes w /\ out_fds (World b' (kern w')) = out_fds w.
Proof.
  intros Q E Hi Hs Hf b'. pose proof (qo_wired _ Q) as Hw. rewrite E in Hw. inversion_clear Hw as [|?? Hm Hq].
  pose proof (qo_head _ Q m q E) as Hx. pose proof (blob_length m Hm) as Hl. unfold zlen in Hl.
  unfold out_bytes, out_fds, pending, pending_fds. cbn [conn kern]. rewrite Hs, Hf, E. cbn [map concat].
  rewrite (drop_app_le (bus_message_get_blob m)) by lia. subst b'.
  destruct (Z.leb_spec (BUS_MESSAGE_SIZE m) i) as [Hd|Hd].
  - split; [by apply queue_next|]. change (windex (set_windex ?x _)) with x.
    change (wqueue (set_windex _ (set_wqueue ?x _))) with x. change (Z.to_nat 0) with 0%nat. rewrite drop_0.
    rewrite (take_ge _ (Z.to_nat (i - _))) by (rewrite length_drop; lia). rewrite <- !app_assoc.
    split; [done|]. f_equal. f_equal. destruct q; [done|]. change (0 =? 0) with true. done.
  - split.
    { constructor; [apply Q|intros X; change (wqueue (conn w) = []) in X; congruence|]. change (wqueue (set_windex _ ?b)) with (wqueue b).
      change (windex (set_windex ?x _)) with x. rewrite E. intros ?? [= <- <-]. lia. }
    change (windex (set_windex ?x _)) with x. change (wqueue (set_windex _ ?b)) with (wqueue b). rewrite E.
    cbn [map concat]. rewrite (drop_app_le (bus_message_get_blob m)) by lia.
    rewrite (proj2 (Z.eqb_neq i 0)) by lia. rewrite <- !app_assoc. split; [|by rewrite app_nil_l].
    f_equal. rewrite app_assoc. f_equal.
    rewrite <- (take_drop (Z.to_nat (i - windex (conn w))) (drop (Z.to_nat (windex (conn w))) (bus_message_get_blob m))) at 2.
    f_equal. rewrite drop_drop. f_equal. lia.
Qed.

(** From [w] to [w'] only the write queue, the socket's answers and what was
    written changed, and of the output only the border moved. *)
Record flushes (w w' : world) : Prop := Flushes {
  fl_queue : queue_ok (conn w');
  fl_bytes : out_bytes w' = out_bytes w;
  fl_fds : out_fds w' = out_fds w;
  fl_input : inbound (kern w') = inbound (kern w) /\ recvs (kern w') = recvs (kern w);
  fl_sent : exists x, sent (kern w') = sent (kern w) ++ x;
  fl_conn : conn w' = set_windex (windex (conn w')) (set_wqueue (wqueue (conn w')) (conn w));
  fl_sends : exists l, sends (kern w) = l ++ sends (kern w');
  fl_progress : (forall e, Err e ∉ sends (kern w)) ->
    (length (sent (kern w)) + length (sends (kern w)) <= length (sent (kern w')) + length (sends (kern w')))%nat }.

Lemma flushes_refl w : queue_ok (conn w) -> flushes w w.
Proof. intros Q. constructor; try done; [exists []; by rewrite app_nil_r|by destruct w as [[] k]|by exists []]. Qed.

Lemma flushes_trans w1 w2 w3 : flushes w1 w2 -> flushes w2 w3 -> flushes w1 w3.
Proof.
  intros [A1 A2 A3 A4 [x1 A8] A5 [l1 A6] A7] [B1 B2 B3 B4 [x2 B8] B5 [l2 B6] B7]. constructor; try congruence.
  - destruct A4, B4. split; congruence.
  - exists (x1 ++ x2). by rewrite B8, A8, app_assoc.
  - rewrite B5, A5. done.
  - exists (l1 ++ l2). by rewrite A6, B6, app_assoc.
  - intros He. specialize (A7 He). apply (Nat.le_trans _ _ _ A7), B7. intros e Hin. apply (He e).
    rewrite A6. apply elem_of_app. by right.
Qed.

Lemma write_head_flushes w r w1 m q :
  queue_ok (conn w) -> is_connected (state (conn w)) = true -> wqueue (conn w) = m :: q ->
  bus_write_message m (windex (conn w)) w = (r, w1) ->
  match r with
  | Ok (Some i) =>
      let b' := if BUS_MESSAGE_SIZE m <=? i then set_windex 0 (set_wqueue q (conn w))
                else set_windex i (conn w) in
      conn w1 = conn w /\ flushes w (World b' (kern w1)) /\
      (length (sends (kern w1)) < length (sends (kern w)))%nat
  | Ok None => flushes w w1 /\ conn w1 = conn w /\ (sends (kern w) = [] \/ exists e, Err e ∈ sends (kern w))
  | Err e => flushes w w1 /\ conn w1 = conn w /\ Err e ∈ sends (kern w)
  end.
Proof.
  intros Q Hs E H. pose proof (qo_wired _ Q) as Hw. rewrite E in Hw. inversion_clear Hw as [|?? Hm Hq].
  apply write_message_step in H as (H1 & H2 & H3 & (l & H4 & Hll) & H5); try done; [|by apply (qo_head _ Q _ _ E)].
  assert (Hsame : sent (kern w1) = sent (kern w) /\ sent_fds (kern w1) = sent_fds (kern w) ->
    (sends (kern w) = [] \/ exists e, Err e ∈ sends (kern w)) -> flushes w w1).
  { intros [X1 X2] X3. constructor; rewrite ?H1; try done.
    - unfold out_bytes. by rewrite X1, H1.
    - unfold out_fds. by rewrite X2, H1.
    - exists []. by rewrite X1, app_nil_r.
    - by destruct (conn w).
    - by exists l.
    - intros He. destruct X3 as [X3|[e X3]]; [|by destruct (He e)]. rewrite X3, X1. simpl. lia. }
  destruct r as [[i|]|e].
  - destruct H5 as (Hi & H5 & H6 & H7). destruct (out_advance w w1 m q i Q E Hi H5 H6) as (Q1 & O1 & O2).
    cbv zeta. split; [done|]. split; [|done]. constructor; cbn [conn kern]; try done.
    + by eexists.
    + case_match; by destruct (conn w).
    + by exists l.
    + intros _. rewrite H5, H4, !length_app, length_take, length_drop. pose proof (blob_length m Hm).
      pose proof (qo_head _ Q _ _ E). unfold zlen in *. lia.
  - destruct H5 as (H5 & H6 & H7). assert (sends (kern w) = [] \/ exists e, Err e ∈ sends (kern w)) by
      (destruct H7; [by left|right; by eexists]). by auto.
  - destruct H5 as (H5 & H6 & H7). split; [|done]. apply Hsame; [done|right; by eexists].
Qed.

Lemma wqueue_loop_flushes fuel : forall ret w r w',
  (length (sends (kern w)) < fuel)%nat -> queue_ok (conn w) -> is_connected (state (conn w)) = true ->
  wqueue_loop fuel ret w = (r, w') ->
  flushes w w' /\
  (exists n, wqueue (conn w') = drop n (wqueue (conn w)) /\
     forall b, r = Ok b -> b = ret || bool_decide (0 < n)%nat) /\
  match r with
  | Ok _ => wqueue (conn w') = [] \/ sends (kern w') = [] \/ exists e, Err e ∈ sends (kern w)
  | Err e => Err e ∈ sends (kern w)
  end.
Proof.
  induction fuel as [|fuel IH]; intros ret w r w' Hf Q Hs H; [lia|]. cbn [wqueue_loop] in H.
  rewrite (stm_bind_run bget _ w _ _ eq_refl) in H. destruct (wqueue (conn w)) as [|m q] eqn:E.
  { injection H as <- <-. rewrite E. split; [by apply flushes_refl|]. split; [|by left].
    exists 0%nat. split; [done|]. intros b [= <-]. by rewrite bool_decide_eq_false_2, orb_false_r by lia. }
  unfold mbind, stm_bind in H. destruct (bus_write_message m (windex (conn w)) w) as [o w1] eqn:Ew.
  apply (write_head_flushes _ _ _ _ q) in Ew; try done. destruct o as [[i|]|e].
  - cbv zeta in Ew. destruct Ew as (H1 & F & Hl). rewrite <- H1 in F.
    assert (exists w2 n ret2, wqueue_loop fuel ret2 w2 = (r, w') /\ flushes w w2 /\
      (length (sends (kern w2)) < fuel)%nat /\ state (conn w2) = state (conn w) /\
      wqueue (conn w2) = drop n (m :: q) /\ ret2 = ret || bool_decide (0 < n)%nat) as (w2 & n & ret2 & X1 & X2 & X3 & X4 & X5 & X6).
    { destruct (BUS_MESSAGE_SIZE m <=? i); cbn beta iota in H; unfold bmod in H; cbn beta iota in H.
      - eexists _, 1%nat, true. split; [exact H|]. split; [done|]. split; [cbn [kern]; lia|].
        rewrite H1. split; [done|]. split; [done|]. by rewrite bool_decide_eq_true_2, orb_true_r by lia.
      - eexists _, 0%nat, ret. split; [exact H|]. split; [done|]. split; [cbn [kern]; lia|].
        rewrite H1. split; [done|]. split; [done|]. by rewrite bool_decide_eq_false_2, orb_false_r by lia. }
    apply IH in X1 as (Y1 & (k & Y2 & Y3) & Y4); try done; [|apply X2|by rewrite X4].
    split; [by eapply flushes_trans|]. split.
    + exists (n + k)%nat. rewrite Y2, X5, drop_drop. split; [done|]. intros b Hb. rewrite (Y3 b Hb), X6, <- orb_assoc.
      f_equal. repeat case_bool_decide; try done; lia.
    + destruct (fl_sends _ _ X2) as [l Hl2]. destruct r; [destruct Y4 as [|[|[e He]]]; [by left|by right; left|]|].
      * right; right. exists e. rewrite Hl2. apply elem_of_app. by right.
      * rewrite Hl2. apply elem_of_app. by right.
  - destruct Ew as (F & H1 & H2). injection H as <- <-. rewrite H1, E. split; [done|]. split.
    + exists 0%nat. split; [done|]. intros b [= <-]. by rewrite bool_decide_eq_false_2, orb_false_r by lia.
    + right. destruct H2 as [H2|H2]; [left|by right]. destruct (fl_sends _ _ F) as [l Hl].
      rewrite H2 in Hl. by symmetry in Hl; apply app_nil in Hl as [_ ->].
  - destruct Ew as (F & H1 & H2). injection H as <- <-. rewrite H1, E. split; [done|]. split; [|done].
    exists 0%nat. split; [done|]. by intros b [=].
Qed.

Lemma dispatch_wqueue_flushes w r w' :
  queue_ok (conn w) -> is_connected (state (conn w)) = true -> dispatch_wqueue w = (r, w') ->
  flushes w w' /\
  (exists n, wqueue (conn w') = drop n (wqueue (conn w)) /\ forall b, r = Ok b -> b = bool_decide (0 < n)%nat) /\
  match r with
  | Ok _ => wqueue (conn w') = [] \/ sends (kern w') = [] \/ exists e, Err e ∈ sends (kern w)
  | Err e => Err e ∈ sends (kern w)
  end.
Proof.
  intros Q Hs H. unfold dispatch_wqueue in H. rewrite (stm_bind_run bget _ w _ _ eq_refl), Hs in H.
  rewrite (stm_bind_run (sreq true EASSERT) _ w tt w eq_refl), (stm_bind_run kget _ w _ _ eq_refl) in H.
  apply wqueue_loop_flushes in H as (F & H1 & H2); [by split_and!|lia|done|done].
Qed.

(** C21. The write queue: one call of [dispatch_wqueue], whatever the socket accepts
    and in pieces of whatever size, loses, doubles and reorders nothing: the bytes
    written and the bytes that wait, together, stay the same, and so do the
    descriptors; messages leave the queue from the front, and one left exactly
    when the call says so; it stops only when the queue is empty or the socket
    accepts no more. No assertion fails. *)
Theorem dispatch_wqueue_stream w r w' :
  queue_ok (conn w) -> is_connected (state (conn w)) = true -> Err EASSERT ∉ sends (kern w) ->
  dispatch_wqueue w = (r, w') ->
  queue_ok (conn w') /\
  sent (kern w') ++ pending (conn w') = sent (kern w) ++ pending (conn w) /\
  sent_fds (kern w') ++ pending_fds (conn w') = sent_fds (kern w) ++ pending_fds (conn w) /\
  (exists n, wqueue (conn w') = drop n (wqueue (conn w)) /\ forall b, r = Ok b -> b = bool_decide (0 < n)%nat) /\
  (is_ok r = true -> wqueue (conn w') = [] \/ sends (kern w') = [] \/ exists e, Err e ∈ sends (kern w)) /\
  r <> Err EASSERT.
Proof.
  intros Q Hs Hna H. apply dispatch_wqueue_flushes in H as (F & H1 & H2); try done.
  split; [apply F|]. split; [apply F|]. split; [apply F|]. split; [done|].
  destruct r as [b|e]; split; try done. by intros [= ->].
Qed.
