(* ===== verification/TransportSend.v ===== *)
(** * Sending

    [sd_bus_send] seals a message with the next cookie and puts its bytes behind
    everything that was sent or queued before. *)
From S2P Require Import Prelude BusType Signature Gvariant MsgState MsgFields MsgBody Marshal MsgAppend MsgRoundtrip MsgParse MsgCopy Bus Sasl Transport TransportWrite.

(** Nothing is to be added to messages, and they go out as they are. *)
Record plain_sender (b : connection) : Prop := PlainSender {
  ps_sender : patch_sender b = None;
  ps_version : message_version (bus b) = 0 \/ message_version (bus b) = 1;
  ps_endian : message_endian b = 0 \/ message_endian b = BUS_NATIVE_ENDIAN }.

(** ** Queueing *)
Lemma send_now_out m w r w' :
  wired m -> queue_ok (conn w) -> is_connected (state (conn w)) = true -> wqueue (conn w) = [] ->
  send_now m w = (r, w') ->
  bus_cookie (conn w') = bus_cookie (conn w) /\ (exists x, sent (kern w') = sent (kern w) ++ x) /\
  (plain_sender (conn w) -> plain_sender (conn w')) /\
  match r with
  | Ok _ => queue_ok (conn w') /\ state (conn w') = state (conn w) /\
            out_bytes w' = out_bytes w ++ bus_message_get_blob m /\
            out_fds w' = out_fds w ++ fds m
  | Err e => queue_ok (conn w') /\ wqueue (conn w') = [] /\ sent (kern w') = sent (kern w) /\
             windex (conn w') = windex (conn w) /\ exists e0, Err e0 ∈ sends (kern w) /\
             (if is_disconnect e0 then e = ECONNRESET /\ state (conn w') = BUS_CLOSING
              else e = e0 /\ conn w' = conn w)
  end.
Proof.
  intros W Q Hs Hq H. unfold send_now in H. pose proof (wired_size m W) as Hsz.
  assert (Ho : out_bytes w = sent (kern w) /\ out_fds w = sent_fds (kern w)).
  { unfold out_bytes, out_fds, pending, pending_fds. rewrite Hq. cbn [map concat].
    by rewrite drop_nil, !app_nil_r. }
  destruct Ho as [-> ->]. pose proof (qo_empty _ Q Hq) as H0.
  destruct (bus_write_message m 0 w) as [[o|e] w1] eqn:E;
    apply write_message_step in E as (H1 & H2 & H3 & _ & H5); try done; try lia.
  - assert (Hd : exists i, default 0 o = i /\ 0 <= i <= BUS_MESSAGE_SIZE m /\
      sent (kern w1) = sent (kern w) ++ take (Z.to_nat i) (bus_message_get_blob m) /\
      sent_fds (kern w1) = sent_fds (kern w) ++ (if i =? 0 then [] else fds m)).
    { destruct o as [i|]; cbn [default].
      - exists i. destruct H5 as (A1 & A2 & A3 & _). rewrite Z.sub_0_r in A2. change (Z.to_nat 0) with 0%nat in A2.
        rewrite drop_0 in A2. rewrite (proj2 (Z.eqb_neq i 0)) by lia. split_and!; (done || lia).
      - exists 0. destruct H5 as (A1 & A2 & _). rewrite take_0, !app_nil_r. split_and!; (done || lia). }
    destruct Hd as (i & Hi & Hb & Hs1 & Hf1). rewrite Hi in H. pose proof (blob_length m W) as Hl. unfold zlen in Hl.
    unfold out_bytes, out_fds, pending, pending_fds. destruct (Z.ltb_spec i (BUS_MESSAGE_SIZE m)).
    + injection H as <- <-. cbn [conn kern]. rewrite H1.
      change (wqueue (set_windex _ (set_wqueue ?x _))) with x. change (windex (set_windex ?x _)) with x.
      cbn [map concat]. rewrite !app_nil_r, Hs1, Hf1. split_and!; [done|by eexists|by intros []; constructor| | | |].
      * constructor; [by constructor|done|]. intros ?? [= <- <-]. change (windex (set_windex ?x _)) with x. lia.
      * done.
      * by rewrite <- app_assoc, take_drop.
      * rewrite <- app_assoc. f_equal. case_match; by rewrite ?app_nil_r.
    + injection H as <- <-. rewrite H1, Hq, Hs1, Hf1. cbn [map concat]. rewrite drop_nil, !app_nil_r.
      rewrite take_ge, (proj2 (Z.eqb_neq i 0)) by lia. split_and!; try done. by eexists.
  - destruct H5 as (A1 & A2 & A3). destruct (is_disconnect e) eqn:Ed.
    + unfold mbind, stm_bind, on_bus, bus_enter_closing in H. cbn beta iota in H.
      assert (BUS_IS_OPEN (state (conn w1)) = true) as Hop by (rewrite H1; by destruct (state (conn w))).
      unfold mbind, stm_bind, sget in H. rewrite Hop in H. injection H as <- <-. cbn [conn kern]. rewrite H1.
      change (wqueue (set_state _ ?b)) with (wqueue b). split_and!; try done.
      * exists []. by rewrite app_nil_r.
      * by intros [].
      * constructor; [change (wqueue (set_state _ ?b)) with (wqueue b); by rewrite Hq|done|].
        change (wqueue (set_state _ ?b)) with (wqueue b). rewrite Hq. done.
      * exists e. by rewrite Ed.
    + injection H as <- <-. rewrite H1. split_and!; try done; [exists []; by rewrite app_nil_r|]. exists e. by rewrite Ed.
Qed.

Lemma queue_append m b :
  wired m -> queue_ok b ->
  let b' := set_wqueue (wqueue b ++ [m]) b in
  queue_ok b' /\ pending b' = pending b ++ bus_message_get_blob m /\ pending_fds b' = pending_fds b ++ fds m.
Proof.
  intros W Q b'. pose proof (wired_size m W). unfold pending, pending_fds, b'.
  change (wqueue (set_wqueue ?x _)) with x. change (windex (set_wqueue _ b)) with (windex b).
  assert (Hle : (Z.to_nat (windex b) <= length (concat (map bus_message_get_blob (wqueue b))))%nat).
  { destruct (wqueue b) as [|m0 q] eqn:E; [rewrite (qo_empty _ Q E); simpl; lia|].
    pose proof (qo_head _ Q _ _ E). pose proof (qo_wired _ Q) as Hw. rewrite E in Hw. inversion_clear Hw as [|?? Hm _].
    pose proof (blob_length m0 Hm). unfold zlen in *. cbn [map concat]. rewrite length_app. lia. }
  split; [|split].
  - constructor; change (wqueue (set_wqueue ?x _)) with x; change (windex (set_wqueue _ b)) with (windex b).
    + apply Forall_app. split; [apply Q|by constructor].
    + intros E. by apply app_nil in E as [_ [=]].
    + intros m0 q E. destruct (wqueue b) as [|m1 q1] eqn:Eq.
      * injection E as <- <-. rewrite (qo_empty _ Q Eq). lia.
      * injection E as <- <-. by apply (qo_head _ Q _ _ Eq).
  - rewrite map_app, concat_app, drop_app_le by done. cbn [map concat]. by rewrite app_nil_r.
  - destruct (wqueue b) as [|m0 q] eqn:E; cbn [app].
    + rewrite (qo_empty _ Q E). change (0 =? 0) with true. cbn [map concat]. by rewrite app_nil_r.
    + rewrite map_app, concat_app. cbn [map concat]. by rewrite app_nil_r, app_assoc.
Qed.

(** Why a message could not be handed over. *)
Definition send_refused (w : world) (e : errno) : Prop :=
  e = ENOBUFS /\ BUS_WQUEUE_MAX <= zlen (wqueue (conn w)) \/
  exists e0, Err e0 ∈ sends (kern w) /\ e = (if is_disconnect e0 then ECONNRESET else e0).

Lemma send_message_result m w r w' :
  wired m -> queue_ok (conn w) -> send_message m w = (r, w') ->
  bus_cookie (conn w') = bus_cookie (conn w) /\ queue_ok (conn w') /\
  (exists x, sent (kern w') = sent (kern w) ++ x) /\
  (plain_sender (conn w) -> plain_sender (conn w')) /\
  match r with
  | Ok _ => state (conn w') = state (conn w) /\
            out_bytes w' = out_bytes w ++ bus_message_get_blob m /\ out_fds w' = out_fds w ++ fds m
  | Err e => sent (kern w') = sent (kern w) /\ wqueue (conn w') = wqueue (conn w) /\
             windex (conn w') = windex (conn w) /\ send_refused w e /\
             (state (conn w') = state (conn w) \/ state (conn w') = BUS_CLOSING /\ e = ECONNRESET)
  end.
Proof.
  intros W Q H. unfold send_message in H. rewrite (stm_bind_run bget _ w _ _ eq_refl) in H.
  destruct (is_connected (state (conn w)) && bool_decide (wqueue (conn w) = [])) eqn:Hs.
  - apply andb_true_iff in Hs as [Hs Hq%bool_decide_eq_true].
    destruct (send_now_out m w r w' W Q Hs Hq H) as (H0 & Hx & Hp & H1). split; [done|].
    destruct r as [|e]; [by destruct H1|].
    destruct H1 as (H1 & H2 & H3 & H6 & e0 & H4 & H5). split_and!; try done; [by rewrite Hq| |].
    + right. exists e0. split; [done|]. by case_match; destruct H5.
    + case_match; destruct H5 as [-> H5]; [by right|left]. by rewrite H5.
  - unfold sreq, slift, require, mbind, stm_bind in H.
    destruct (negb (BUS_WQUEUE_MAX <=? zlen (wqueue (conn w)))) eqn:El; injection H as <- <-.
    + cbn [conn kern]. destruct (queue_append m (conn w) W Q) as (H1 & H2 & H3). cbv zeta in *.
      unfold out_bytes, out_fds. cbn [conn kern]. rewrite H2, H3, !app_assoc. split_and!; try done.
      * exists []. by rewrite app_nil_r.
      * by intros [].
    + apply negb_false_iff, Z.leb_le in El. split_and!; try done; [|by left|by left].
      exists []. by rewrite app_nil_r.
Qed.

(** ** Sealing *)

(** A D-Bus 1 message that is ready to be sealed, without descriptors. *)
Record sealable (m : message) : Prop := Sealable {
  sl_sealed : sealed m = false;
  sl_containers : containers m = [];
  sl_poisoned : poisoned m = false;
  sl_version : h_version (hdr m) = 1;
  sl_endian : h_endian (hdr m) = BUS_NATIVE_ENDIAN;
  sl_fds : fds m = [];
  sl_reply : reply_signature_ok m = true;
  sl_fields : fields_size m < 2 ^ 30;
  sl_signature : zlen (default [] (signature (root_container m))) <= 255;
  sl_flat : flat m }.

Lemma sealable_flag f m : sealable m -> sealable (or_flag f m).
Proof. intros []. by constructor. Qed.

Lemma sealable_gvariant m : sealable m -> BUS_MESSAGE_IS_GVARIANT m = false.
Proof. intros S. unfold BUS_MESSAGE_IS_GVARIANT. by rewrite (sl_version _ S). Qed.

Lemma wired_sealed c t m : sealable m -> wired (sealed_message c t m).
Proof.
  intros S. pose proof (sl_flat _ S) as [H1 H2].
  constructor; [done| |done|].
  - change (parts (sealed_message c t m)) with (parts m). rewrite H1. unfold mk_parts.
    case_bool_decide; [constructor|]. by repeat constructor.
  - pose proof (sl_fields _ S). pose proof (sl_signature _ S). pose proof (zlen_nonneg (fields m)) as Hnn.
    fold (fields_size m) in Hnn. unfold fields_size at 1.
    change (fields (sealed_message c t m)) with (sealed_fields (default [] (signature (root_container m))) m).
    unfold sealed_fields. case_bool_decide; [unfold fields_size in *; lia|].
    rewrite !zlen_app. pose proof (pad_bound (fields_size m) 8 ltac:(unfold is_align; lia) Hnn).
    rewrite zpad_length by (unfold is_align; lia). unfold signature_field. rewrite !zlen_app.
    change (zlen [_; _; _; _; _]) with 5. change (zlen [0]) with 1. fold (fields_size m). lia.
Qed.

(** The next cookie is one a D-Bus 1 message can carry. *)
Definition cookie_left (b : connection) : Prop := 0 <= bus_cookie b < 4294967295.

Lemma method_call_timeout_run w : exists t c,
  sd_bus_get_method_call_timeout w = (Ok t, World (set_method_call_timeout c (conn w)) (kern w)).
Proof.
  unfold sd_bus_get_method_call_timeout. rewrite (stm_bind_run bget _ w _ _ eq_refl).
  destruct (method_call_timeout (conn w) =? 0) eqn:E; cbn [negb].
  - rewrite (stm_bind_run kget _ w _ _ eq_refl). do 2 eexists. reflexivity.
  - exists (method_call_timeout (conn w)), (method_call_timeout (conn w)). unfold mret, stm_ret.
    do 2 f_equal. by destruct w as [[] ?].
Qed.

Lemma bus_seal_message_run w m timeout :
  sealable m -> plain_sender (conn w) -> cookie_left (conn w) ->
  exists t c, (timeout <> 0 -> t = timeout) /\ bus_seal_message timeout (w, m) =
    (Ok tt, (World (set_bus_cookie (bus_cookie (conn w) + 1) (set_method_call_timeout c (conn w))) (kern w),
             sealed_message (bus_cookie (conn w) + 1) t m)).
Proof.
  intros S P C. unfold bus_seal_message, cookie_left in *. erewrite stm_bind_run by reflexivity.
  rewrite (stm_bind_run mget _ (w, m) m (w, m) eq_refl), (sl_sealed _ S).
  assert (exists t c, (timeout <> 0 -> t = timeout) /\ (if timeout =? 0 then on_world sd_bus_get_method_call_timeout else mret timeout) (w, m) =
    (Ok t, (World (set_method_call_timeout c (conn w)) (kern w), m))) as (t & c & Ht & Et).
  { destruct (Z.eqb_spec timeout 0) as [->|].
    - destruct (method_call_timeout_run w) as (t & c & E). exists t, c. split; [done|]. unfold on_world. by rewrite E.
    - exists timeout, (method_call_timeout (conn w)). split; [done|]. unfold mret, stm_ret. do 3 f_equal. by destruct w as [[] ?]. }
  rewrite (stm_bind_run _ _ _ _ _ Et). rewrite (ps_sender _ P). exists t, c. split; [done|].
  assert (forall B (k : stm (world * message) B) s,
    ((match sender m, (None : option cstr) with
      | None, Some s => on_message (sd_bus_message_set_sender s)
      | _, _ => mret tt
      end) ;; k) s = k s) as -> by (intros; by destruct (sender m)).
  rewrite (wrap_small 64) by lia. cbv zeta. erewrite stm_bind_run by reflexivity.
  unfold on_message. rewrite (seal_run _ t m); try apply S; [done|by apply sealable_gvariant|lia].
Qed.

Lemma sealed_cookie ck t m : sealable m -> 0 < ck <= 4294967295 -> BUS_MESSAGE_COOKIE (sealed_message ck t m) = ck.
Proof.
  intros S C. set (m1 := sealed_message ck t m). unfold BUS_MESSAGE_COOKIE, BUS_MESSAGE_BSWAP, BUS_MESSAGE_NEED_BSWAP.
  change (hdr m1) with (set_h_serial (wrap32 ck) (set_h_fields_size (wrap32 (zlen (fields m1)))
    (set_h_body_size (wrap32 (body_size m)) (hdr m)))).
  cbn [h_version h_endian h_serial set_h_serial set_h_fields_size set_h_body_size].
  rewrite (sl_version _ S), (sl_endian _ S). change (1 =? 2) with false. rewrite Z.eqb_refl. cbn [negb].
  rewrite wrap_small; lia.
Qed.

Section Send.
Context (ensure_running : stm world unit) (dup_fd : Z -> res Z).

Lemma remarshal_same m w :
  plain_sender (conn w) -> h_version (hdr m) = 1 -> h_endian (hdr m) = BUS_NATIVE_ENDIAN ->
  bus_remarshal_message dup_fd m w = (Ok m, w).
Proof.
  intros [_ P1 P2] Hv He. unfold bus_remarshal_message. rewrite (stm_bind_run bget _ w _ _ eq_refl), Hv, He.
  destruct P1 as [-> | ->], P2 as [-> | ->]; done.
Qed.

(** The flag set when nobody asks for the cookie. *)
Definition send_flags (want_cookie : bool) (m : message) : message :=
  if want_cookie then m else or_flag BUS_MESSAGE_NO_REPLY_EXPECTED m.

Lemma sd_bus_send_run want w m :
  sealable m -> plain_sender (conn w) -> cookie_left (conn w) -> BUS_IS_OPEN (state (conn w)) = true ->
  exists t c, let ck := bus_cookie (conn w) + 1 in
    let w1 := World (set_bus_cookie ck (set_method_call_timeout c (conn w))) (kern w) in
    let m1 := sealed_message ck t (send_flags want m) in
    sd_bus_send ensure_running dup_fd want (w, m) =
    ((if dont_send m then mret tt else on_world (send_message m1));; mret ck) (w1, m1).
Proof.
  intros S P C Ho. unfold sd_bus_send. erewrite stm_bind_run by reflexivity. rewrite Ho.
  erewrite stm_bind_run by reflexivity. rewrite (stm_bind_run mget _ (w, m) m (w, m) eq_refl).
  rewrite (sl_fds _ S). change (0 <? zlen []) with false. cbn beta iota. erewrite stm_bind_run by reflexivity.
  assert (forall B (k : stm (world * message) B), ((if negb want && negb (sealed m)
    then on_message (smod (or_flag BUS_MESSAGE_NO_REPLY_EXPECTED)) else mret tt) ;; k) (w, m) =
    k (w, send_flags want m)) as -> by (intros; rewrite (sl_sealed _ S); by destruct want).
  assert (S1 : sealable (send_flags want m)) by (unfold send_flags; destruct want; [|apply sealable_flag]; done).
  destruct (bus_seal_message_run w (send_flags want m) 0 S1 P C) as (t & c & _ & E).
  rewrite (stm_bind_run _ _ _ _ _ E). exists t, c. cbv zeta.
  set (m1 := sealed_message _ _ _). set (w1 := World _ _).
  rewrite (stm_bind_run mget _ (w1, m1) m1 (w1, m1) eq_refl).
  assert (E2 : bus_remarshal_message dup_fd m1 w1 = (Ok m1, w1)).
  { apply remarshal_same; [by destruct P; constructor|apply (sl_version _ S1)|apply (sl_endian _ S1)]. }
  erewrite stm_bind_run by (unfold on_world; rewrite E2; reflexivity).
  assert (dont_send m1 = dont_send m) as -> by (unfold m1, send_flags; by destruct want).
  by assert (BUS_MESSAGE_COOKIE m1 = bus_cookie (conn w) + 1) as -> by (apply sealed_cookie; [done|unfold cookie_left in C; lia]).
Qed.

End Send.

(** What one call of [sd_bus_send] does with a message that is sent. *)
Lemma sd_bus_send_outcome ensure_running dup_fd want w m r w' m' :
  sealable m -> plain_sender (conn w) -> cookie_left (conn w) -> BUS_IS_OPEN (state (conn w)) = true ->
  queue_ok (conn w) ->
  sd_bus_send ensure_running dup_fd want (w, m) = (r, (w', m')) ->
  let ck := bus_cookie (conn w) + 1 in
  (exists t, m' = sealed_message ck t (send_flags want m)) /\
  bus_cookie (conn w') = ck /\ queue_ok (conn w') /\ plain_sender (conn w') /\
  (exists x, sent (kern w') = sent (kern w) ++ x) /\
  match r with
  | Ok c => c = ck /\ state (conn w') = state (conn w) /\
            out_bytes w' = out_bytes w ++ (if dont_send m then [] else bus_message_get_blob m')
  | Err e => dont_send m = false /\ sent (kern w') = sent (kern w) /\ wqueue (conn w') = wqueue (conn w) /\
             windex (conn w') = windex (conn w) /\ send_refused w e
  end.
Proof.
  intros S P C Ho Q H ck. destruct (sd_bus_send_run ensure_running dup_fd want w m S P C Ho) as (t & c & E).
  cbv zeta in E. fold ck in E. rewrite E in H. clear E.
  set (w1 := World _ (kern w)) in H. set (m1 := sealed_message ck t (send_flags want m)) in H.
  assert (S1 : sealable (send_flags want m)) by (unfold send_flags; destruct want; [|apply sealable_flag]; done).
  assert (W1 : wired m1) by (by apply wired_sealed).
  assert (Q1 : queue_ok (conn w1)) by (destruct Q; by constructor).
  assert (P1 : plain_sender (conn w1)) by (destruct P; by constructor).
  destruct (dont_send m) eqn:Ed.
  { erewrite stm_bind_run in H by reflexivity. injection H as <- <- <-.
    split_and!; try done; [by exists t|exists []; by rewrite app_nil_r|by rewrite app_nil_r]. }
  unfold on_world, mbind, stm_bind in H. destruct (send_message m1 w1) as [r1 w2] eqn:E.
  apply send_message_result in E as (B1 & B2 & B3 & B4 & B5); try done.
  assert (exists t', m1 = sealed_message ck t' (send_flags want m)) by (by exists t).
  destruct r1 as [[]|e]; injection H as <- <- <-; specialize (B4 P1).
  - destruct B5 as (? & B5 & _). by split_and!.
  - destruct B5 as (? & ? & ? & ? & _). by split_and!.
Qed.

(** C22. Sending: a message that can be sealed gets the cookie after the last one,
    which no message had before, and its bytes, those of the sealed message, come
    right behind all that was written or queued before; a reply nobody asked for
    is sealed but not sent. When the call fails, nothing of the message was
    written or queued, because the socket failed or the queue is full. *)
Theorem sd_bus_send_in_order ensure_running dup_fd want w m r w' m' :
  sealable m -> plain_sender (conn w) -> cookie_left (conn w) -> BUS_IS_OPEN (state (conn w)) = true ->
  queue_ok (conn w) ->
  sd_bus_send ensure_running dup_fd want (w, m) = (r, (w', m')) ->
  let ck := bus_cookie (conn w) + 1 in
  sealed m' = true /\ h_serial (hdr m') = ck /\ bus_cookie (conn w') = ck /\ body m' = body m /\
  queue_ok (conn w') /\
  match r with
  | Ok c => c = ck /\ state (conn w') = state (conn w) /\
            sent (kern w') ++ pending (conn w') = sent (kern w) ++ pending (conn w) ++
              (if dont_send m then [] else bus_message_get_blob m')
  | Err e => dont_send m = false /\ sent (kern w') = sent (kern w) /\ wqueue (conn w') = wqueue (conn w) /\
             send_refused w e
  end.
Proof.
  intros S P C Ho Q H ck.
  destruct (sd_bus_send_outcome ensure_running dup_fd want w m r w' m' S P C Ho Q H) as ([t ->] & H1 & H2 & _ & _ & H3).
  fold ck in H1, H3. split; [done|]. split.
  { change (wrap32 ck = ck). apply wrap_small. unfold cookie_left in C. unfold ck. lia. }
  split; [done|]. split; [unfold send_flags; by destruct want|]. split; [done|].
  destruct r as [c|e]; [|by destruct H3 as (? & ? & ? & _ & ?)]. destruct H3 as (-> & H3 & H4).
  split; [done|]. split; [done|]. unfold out_bytes in H4. rewrite H4. by rewrite <- app_assoc.
Qed.
