(* ===== verification/TransportRead.v ===== *)
(** * The read queue

    However the incoming bytes are cut into pieces, they become the messages whose
    lengths their headers announce, in order. *)
From S2P Require Import Prelude BusType MsgState MsgFields MsgParse Bus Sasl Transport.

(** A message, and the bytes and the descriptors it was made from. *)
Record item := Item { it_bytes : list Z; it_fds : list Z; it_message : message }.

Definition framed (i : item) : Prop :=
  16 <= zlen (it_bytes i) /\ announced_size (it_bytes i) = Ok (zlen (it_bytes i)) /\
  bus_message_from_malloc (it_bytes i) (it_fds i) = Ok (it_message i).

(** The descriptors that come with the answers of the socket. *)
Definition control_fds (l : list cmsg) : list Z :=
  concat (map (fun c => match c with ScmRights f => f | _ => [] end) l).
Definition answer_fds (l : list recv_answer) : list Z :=
  concat (map (fun a => match a with Recv _ c => control_fds c | RecvErr _ => [] end) l).

(** From [w] to [w'] bytes and descriptors were taken from the socket, and together
    with those kept before they became messages, except for those still kept;
    [out] are the messages taken from the queue. *)
Record receives (out : list message) (w w' : world) : Prop := Receives {
  rc_input : exists taken items,
    inbound (kern w) = taken ++ inbound (kern w') /\
    rbuffer (conn w) ++ taken = concat (map it_bytes items) ++ rbuffer (conn w') /\
    rqueue (conn w) ++ map it_message items = out ++ rqueue (conn w') /\
    Forall framed items /\
    exists l new, recvs (kern w) = l ++ recvs (kern w') /\ new `sublist_of` answer_fds l /\
      bus_fds (conn w) ++ new = concat (map it_fds items) ++ bus_fds (conn w');
  rc_conn : conn w' = set_bus_fds (bus_fds (conn w')) (set_rbuffer (rbuffer (conn w'))
                        (set_rqueue (rqueue (conn w')) (conn w)));
  rc_output : sends (kern w') = sends (kern w) /\ sent (kern w') = sent (kern w) /\
              sent_fds (kern w') = sent_fds (kern w) }.

Lemma receives_refl w : receives [] w w.
Proof.
  constructor; try done; [|by destruct w as [[] k]].
  exists [], []. split_and!; try done; [by rewrite !app_nil_r..|].
  exists [], []. split_and!; try done. by rewrite app_nil_r.
Qed.
Lemma receives_trans o1 o2 w1 w2 w3 :
  receives o1 w1 w2 -> receives o2 w2 w3 -> receives (o1 ++ o2) w1 w3.
Proof.
  intros [(t1 & i1 & A1 & A2 & A3 & A4 & l1 & n1 & A7 & A8 & A9) A5 A6].
  intros [(t2 & i2 & B1 & B2 & B3 & B4 & l2 & n2 & B7 & B8 & B9) B5 B6].
  constructor.
  - exists (t1 ++ t2), (i1 ++ i2). rewrite !map_app, !concat_app. split_and!.
    + by rewrite A1, B1, app_assoc.
    + by rewrite app_assoc, A2, <- app_assoc, B2, app_assoc.
    + by rewrite app_assoc, A3, <- !app_assoc, B3.
    + by apply Forall_app.
    + exists (l1 ++ l2), (n1 ++ n2). split_and!.
      * by rewrite A7, B7, app_assoc.
      * unfold answer_fds. rewrite map_app, concat_app. by apply sublist_app.
      * by rewrite app_assoc, A9, <- !app_assoc, B9.
  - rewrite B5, A5. done.
  - destruct A6 as (? & ? & ?), B6 as (? & ? & ?). split_and!; congruence.
Qed.

Lemma receives_answers o w w' : receives o w w' -> exists l, recvs (kern w) = l ++ recvs (kern w').
Proof. intros [(_ & _ & _ & _ & _ & _ & l & _ & H & _) _ _]. by exists l. Qed.

Lemma receives_idle w w' :
  conn w' = conn w -> sends (kern w') = sends (kern w) -> sent (kern w') = sent (kern w) ->
  sent_fds (kern w') = sent_fds (kern w) -> (exists l, recvs (kern w) = l ++ recvs (kern w')) ->
  inbound (kern w') = inbound (kern w) -> receives [] w w'.
Proof.
  intros H1 H2 H3 H4 [l H5] H6. constructor; try done; [|rewrite H1; by destruct (conn w)].
  exists [], []. rewrite H1, H6. split_and!; try done; [by rewrite !app_nil_r..|].
  exists l, []. split_and!; try done; [apply sublist_nil_l|by rewrite app_nil_r].
Qed.

(** ** Announced lengths *)
Lemma announced_prefix c x : 16 <= zlen c -> announced_size (c ++ x) = announced_size c.
Proof.
  intros H. unfold announced_size.
  do 16 (destruct c as [|? c]; [unfold zlen in H; simpl in H; lia|]). done.
Qed.

Lemma Forall_sub {A} (P : A -> Prop) n k l : Forall P l -> Forall P (take n (drop k l)).
Proof. intros H. by apply Forall_take, Forall_drop. Qed.

Lemma header_word_bound c i : Forall is_byte c -> 0 <= header_word c i < 2 ^ 32.
Proof.
  intros Hc. unfold header_word. case_match; [apply (bswap_bound 4)|].
  pose proof (le_val_bound (take 4 (drop i c)) (Forall_sub _ _ _ _ Hc)) as Hb.
  assert (length (take 4 (drop i c)) <= 4)%nat by (rewrite length_take; lia).
  split; [lia|]. apply (Z.lt_le_trans _ _ _ (proj2 Hb)), Z.pow_le_mono_r; lia.
Qed.

Lemma announced_bounds c n : Forall is_byte c -> announced_size c = Ok n -> 16 <= n < BUS_MESSAGE_SIZE_MAX.
Proof.
  intros Hc H. unfold announced_size in H. apply res_bind_ok in H as ([] & _ & H).
  cbv zeta in H. apply res_bind_ok in H as ([] & Hm%require_ok%Z.ltb_lt & [= <-]).
  pose proof (header_word_bound c 12 Hc) as H12. pose proof (header_word_bound c 4 Hc).
  rewrite ALIGN8_up in * by lia.
  pose proof (align_up_spec (header_word c 12) 8 ltac:(lia) ltac:(lia)). unfold BUS_HEADER_SIZE in *. lia.
Qed.

(** ** Making messages *)
Definition rx_bytes (w : world) : Prop := Forall is_byte (rbuffer (conn w)) /\ Forall is_byte (inbound (kern w)).

Lemma receives_bytes o w w' : receives o w w' -> rx_bytes w -> rx_bytes w'.
Proof.
  intros [(t & i & A1 & A2 & _) _ _] [H1 H2]. rewrite A1 in H2. apply Forall_app in H2 as [H2 H3]. split; [|done].
  assert (H : Forall is_byte (rbuffer (conn w) ++ t)) by (by apply Forall_app). rewrite A2 in H. by apply Forall_app in H as [].
Qed.

(** How long the buffer must be to hold a message, as far as it tells. *)
Definition needed (b : list Z) : res Z :=
  if zlen b <? BUS_HEADER_SIZE then Ok (BUS_HEADER_SIZE + 8) else announced_size b.

Lemma need_run w :
  is_connected (state (conn w)) = true ->
  bus_socket_read_message_need w = (needed (rbuffer (conn w)), w).
Proof.
  intros Hs. unfold bus_socket_read_message_need, needed. rewrite (stm_bind_run bget _ w _ _ eq_refl), Hs.
  erewrite stm_bind_run by reflexivity. by case_match.
Qed.

Lemma make_message_run w n r w' :
  is_connected (state (conn w)) = true -> 16 <= n <= zlen (rbuffer (conn w)) ->
  announced_size (rbuffer (conn w)) = Ok n ->
  bus_socket_make_message n w = (r, w') ->
  kern w' = kern w /\
  match r with
  | Ok _ => receives [] w w' /\ (length (rbuffer (conn w')) < length (rbuffer (conn w)))%nat
  | Err e => w' = w /\ (e = ENOBUFS /\ BUS_RQUEUE_MAX <= zlen (rqueue (conn w)) \/
                       bus_message_from_malloc (take (Z.to_nat n) (rbuffer (conn w))) (bus_fds (conn w)) = Err e)
  end.
Proof.
  intros Hs Hn Ha H. unfold bus_socket_make_message in H. rewrite (stm_bind_run bget _ w _ _ eq_refl), Hs in H.
  rewrite (proj2 (Z.leb_le _ _)) in H by lia. do 2 erewrite stm_bind_run in H by reflexivity.
  unfold on_bus, bus_rqueue_make_room, slift, sreq, mbind, stm_bind, sget, require in H.
  destruct (Z.leb_spec BUS_RQUEUE_MAX (zlen (rqueue (conn w)))); cbn beta iota delta [negb] in H.
  { injection H as <- <-. destruct w. split; [done|]. split; [done|]. by left. }
  destruct (bus_message_from_malloc (take (Z.to_nat n) (rbuffer (conn w))) (bus_fds (conn w))) as [m|e] eqn:E;
    injection H as <- <-.
  2: { destruct w. split; [done|]. split; [done|]. by right. }
  split; [done|]. split.
  - constructor; [|done|done].
    exists [], [Item (take (Z.to_nat n) (rbuffer (conn w))) (bus_fds (conn w)) m]. cbn [conn kern map concat app it_bytes it_fds it_message].
    split_and!; try done.
    + change (rbuffer (set_rqueue _ (set_bus_fds _ (set_rbuffer ?x _)))) with x.
      by rewrite !app_nil_r, take_drop.
    + constructor; [|constructor]. unfold framed, zlen in *. cbn [it_bytes it_fds it_message].
      assert (Hl : zlen (take (Z.to_nat n) (rbuffer (conn w))) = n) by (unfold zlen; rewrite length_take; lia).
      unfold zlen in Hl. rewrite Hl. split; [lia|]. split; [|done]. rewrite <- Ha. rewrite <- (take_drop (Z.to_nat n) (rbuffer (conn w))) at 2. symmetry. apply announced_prefix. unfold zlen. lia.
    + exists [], []. split_and!; try done. by rewrite !app_nil_r.
  - cbn [conn]. change (rbuffer (set_rqueue _ (set_bus_fds _ (set_rbuffer ?x _)))) with x. rewrite length_drop.
    unfold zlen in Hn. lia.
Qed.

(** Why no message can be made of what is in the buffer. *)
Definition read_refused (w : world) (e : errno) : Prop :=
  needed (rbuffer (conn w)) = Err e \/
  (exists n, needed (rbuffer (conn w)) = Ok n /\ n <= zlen (rbuffer (conn w)) /\
     bus_message_from_malloc (take (Z.to_nat n) (rbuffer (conn w))) (bus_fds (conn w)) = Err e) \/
  e = ENOBUFS /\ BUS_RQUEUE_MAX <= zlen (rqueue (conn w)).

Lemma make_loop_receives fuel : forall made w r w',
  is_connected (state (conn w)) = true -> rx_bytes w -> (length (rbuffer (conn w)) <= fuel)%nat ->
  make_loop fuel made w = (r, w') ->
  receives [] w w' /\ kern w' = kern w /\ (length (rbuffer (conn w')) <= length (rbuffer (conn w)))%nat /\
  match r with
  | Ok (n, made') => needed (rbuffer (conn w')) = Ok n /\ zlen (rbuffer (conn w')) < n /\
      (made' = false -> w' = w /\ made = false) /\
      (made' = true -> made = true \/ (length (rbuffer (conn w')) < length (rbuffer (conn w)))%nat)
  | Err e => read_refused w' e
  end.
Proof.
  induction fuel as [|fuel IH]; intros made w r w' Hs Hb Hf H; cbn [make_loop] in H.
  all: unfold mbind, stm_bind in H; rewrite (need_run w Hs) in H.
  all: destruct (needed (rbuffer (conn w))) as [n|e] eqn:En;
    [|injection H as <- <-; split; [apply receives_refl|]; split; [done|]; split; [done|]; by left].
  all: unfold bget in H; cbn beta iota in H.
  all: destruct (Z.leb_spec n (zlen (rbuffer (conn w)))) as [Hn|Hn];
    [|injection H as <- <-; split; [apply receives_refl|]; split_and!; try done; intros ->; by left].
  { unfold zlen in Hn. unfold needed in En. destruct (rbuffer (conn w)); [injection En as <-|]; simpl in *; [done|lia]. }
  assert (Ha : 16 <= n /\ announced_size (rbuffer (conn w)) = Ok n).
  { unfold needed in En. destruct (Z.ltb_spec (zlen (rbuffer (conn w))) BUS_HEADER_SIZE).
    - injection En as <-. unfold BUS_HEADER_SIZE in *. lia.
    - split; [|done]. apply announced_bounds in En; [lia|apply Hb]. }
  destruct Ha as [Hn16 Ha]. destruct (bus_socket_make_message n w) as [[[]|e] w1] eqn:E;
    apply make_message_run in E as (E1 & E2); try done.
  - destruct E2 as (E2 & E3). cbn beta iota in H. apply IH in H.
    + destruct H as (H1 & H2 & H3). split; [exact (receives_trans [] [] _ _ _ E2 H1)|]. split; [by rewrite H2|].
      destruct H3 as [Hle H3]. split; [lia|].
      destruct r as [[n' made']|]; [|done]. destruct H3 as (H3 & H4 & H5 & H6). split_and!; try done.
      * intros ->. by destruct (H5 eq_refl) as [_ [=]].
      * intros ->. right. lia.
    + rewrite (rc_conn _ _ _ E2). done.
    + by eapply receives_bytes.
    + lia.
  - destruct E2 as (-> & E2). injection H as <- <-. split; [apply receives_refl|]. split; [done|]. split; [done|].
    destruct E2 as [E2|E2]; [by right; right|]. right; left. by exists n.
Qed.

(** ** Reading from the socket *)
Lemma recvmsg_spec len w r w' :
  recvmsg len w = (r, w') ->
  conn w' = conn w /\ sends (kern w') = sends (kern w) /\ sent (kern w') = sent (kern w) /\
  sent_fds (kern w') = sent_fds (kern w) /\ (exists l, recvs (kern w) = l ++ recvs (kern w')) /\
  match r with
  | Ok (data, control) =>
      inbound (kern w) = data ++ inbound (kern w') /\ zlen data <= Z.max 1 len /\
      exists n l, recvs (kern w) = Recv n control :: l /\ l = recvs (kern w') /\
        data = take (Z.to_nat (Z.max 1 (Z.min n len))) (inbound (kern w))
  | Err e => inbound (kern w') = inbound (kern w) /\ (e = EAGAIN /\ recvs (kern w) = [] \/ RecvErr e ∈ recvs (kern w))
  end.
Proof.
  intros H. unfold recvmsg in H. destruct (recvs (kern w)) as [|[e|n control] l] eqn:E; injection H as <- <-;
    cbn [conn kern sends sent sent_fds inbound recvs]; rewrite ?E.
  - split_and!; try done; [by exists []|by left].
  - split_and!; try done; [by exists [RecvErr e]|]. right. left.
  - split_and!; try done; [by exists [Recv n control]|by rewrite take_drop| |by do 2 eexists].
    unfold zlen. rewrite length_take. lia.
Qed.

Lemma read_control_run l : forall w r w',
  read_control l w = (r, w') ->
  kern w' = kern w /\
  (exists new, new `sublist_of` control_fds l /\ conn w' = set_bus_fds (bus_fds (conn w) ++ new) (conn w)) /\
  match r with Ok _ => True | Err e => e = EIO /\ can_fds (bus (conn w)) = false /\ exists f, ScmRights f ∈ l end.
Proof.
  assert (Hskip : forall w, conn w = set_bus_fds (bus_fds (conn w) ++ []) (conn w)).
  { intros w. rewrite app_nil_r. by destruct (conn w). }
  induction l as [|[f|uid|] l IH]; intros w r w' H; cbn [read_control] in H.
  - injection H as <- <-. split_and!; try done. by exists [].
  - rewrite (stm_bind_run bget _ w _ _ eq_refl) in H. destruct (can_fds (bus (conn w))) eqn:Ec.
    + do 2 erewrite stm_bind_run in H by reflexivity. apply IH in H as (H1 & (new & H2 & H3) & H4).
      split_and!; try done.
      * exists (f ++ new). rewrite app_assoc. split; [|exact H3]. change (control_fds (ScmRights f :: l)) with (f ++ control_fds l). by apply sublist_app.
      * destruct r; [done|]. destruct H4 as (H4 & H5 & g & Hg). cbn [conn] in H5.
        change (can_fds (bus (set_bus_fds _ ?b))) with (can_fds (bus b)) in H5. congruence.
    + unfold mbind, stm_bind, sreq, slift, require in H. injection H as <- <-. split_and!; try done.
      * exists []. split; [apply sublist_nil_l|done].
      * exists f. left.
  - apply IH in H as (H1 & H2 & H3). split_and!; try done. destruct r; [done|].
    destruct H3 as (H3 & H4 & g & Hg). split_and!; try done. exists g. by right.
  - apply IH in H as (H1 & H2 & H3). split_and!; try done. destruct r; [done|].
    destruct H3 as (H3 & H4 & g & Hg). split_and!; try done. exists g. by right.
Qed.

(** Why a call fails that started at [w] and left [w']: what is in the buffer; the
    peer closed the socket in the middle or between messages; descriptors came that
    were not agreed upon; the socket failed. In the latter cases [P] holds. *)
Definition read_broken (P : Prop) (w w' : world) (e : errno) : Prop :=
  read_refused w' e \/
  P /\ (e = ECONNRESET /\ inbound (kern w') = [] /\
           (exists n, needed (rbuffer (conn w')) = Ok n /\ zlen (rbuffer (conn w')) < n) \/
         e = EIO /\ (exists n c f, Recv n c ∈ recvs (kern w) /\ ScmRights f ∈ c) \/
         RecvErr e ∈ recvs (kern w)).

(** Failures of the socket are not reported before all that came is taken. *)
Definition read_failed (w w' : world) (e : errno) : Prop :=
  read_broken (rqueue (conn w') = []) w w' e.

Lemma read_broken_impl (P Q : Prop) w w' e : (P -> Q) -> read_broken P w w' e -> read_broken Q w w' e.
Proof. unfold read_broken. naive_solver. Qed.

(** Every answer of the socket that was used up brought something. *)
Definition paid (w w' : world) : Prop :=
  (forall e, RecvErr e ∉ recvs (kern w)) ->
  (length (recvs (kern w)) + length (inbound (kern w')) <= length (recvs (kern w')) + length (inbound (kern w)))%nat.

Lemma read_message_receives w r w' :
  is_connected (state (conn w)) = true -> rx_bytes w ->
  bus_socket_read_message w = (r, w') ->
  receives [] w w' /\
  match r with
  | Ok true => paid w w' /\
      (exists n, needed (rbuffer (conn w')) = Ok n /\ zlen (rbuffer (conn w')) < n) /\
      (length (recvs (kern w')) < length (recvs (kern w)) \/
       length (rbuffer (conn w')) < length (rbuffer (conn w)) /\ kern w' = kern w)%nat
  | Ok false => paid w w' /\
      (exists n, needed (rbuffer (conn w')) = Ok n /\ zlen (rbuffer (conn w')) < n) /\
      conn w' = conn w /\ (recvs (kern w) = [] \/ exists e, RecvErr e ∈ recvs (kern w))
  | Err e => read_broken (rqueue (conn w') = rqueue (conn w)) w w' e
  end.
Proof.
  intros Hs Hb H. unfold bus_socket_read_message in H. rewrite (stm_bind_run bget _ w _ _ eq_refl), Hs in H.
  erewrite stm_bind_run in H by reflexivity. rewrite stm_bind_eq in H.
  change (make_messages w) with (make_loop (length (rbuffer (conn w))) false w) in H.
  destruct (make_loop (length (rbuffer (conn w))) false w) as [[[n made]|e] w1] eqn:E;
    apply make_loop_receives in E as (E1 & E2 & E3 & E4); try done.
  2: { injection H as <- <-. split; [done|]. by left. }
  destruct E4 as (E4 & E5 & E6 & E7). cbn beta iota in H.
  destruct made.
  { injection H as <- <-. split; [done|]. split; [intros _; by rewrite E2|]. split; [by eexists|]. right. split; [|done].
    by destruct (E7 eq_refl) as [|]. }
  destruct (E6 eq_refl) as [-> _]. clear E1 E2 E3 E6 E7.
  rewrite (stm_bind_run bget _ w _ _ eq_refl), stm_bind_eq in H.
  destruct (unless_again _ w) as [[o|e] w1] eqn:E; apply unless_again_spec in E as (r0 & E & Hr0);
    apply recvmsg_spec in E as (F1 & F2 & F3 & F4 & F5 & F6).
  2: { injection H as <- <-. destruct Hr0 as [-> Hr0]. destruct F6 as [F6 [[? _]|F7]]; [done|]. split.
       - by apply receives_idle.
       - right. split; [by rewrite F1|]. by right; right. }
  destruct o as [[data control]|]; subst r0.
  2: { injection H as <- <-. destruct F6 as [F6 F7]. split.
       - by apply receives_idle.
       - rewrite F1. split.
         { intros Hn. destruct F7 as [[_ F7]|F7]; [|by apply Hn in F7]. destruct F5 as [l F5].
           rewrite F7 in F5. symmetry in F5. apply app_nil in F5 as [_ F5]. by rewrite F5, F6, F7. }
         split; [by eexists|]. split; [done|]. destruct F7 as [[_ F7]|F7]; [by left|right; by eexists]. }
  destruct F6 as (F6 & F7 & (k & l & F8 & F9 & F10)). cbn beta iota in H. rewrite stm_bind_eq in H.
  destruct (bool_decide (data = [])) eqn:Hd; cbn [negb sreq slift require] in H.
  { injection H as <- <-. apply bool_decide_eq_true in Hd as ->. split; [by apply receives_idle|].
    right. rewrite F1. split; [done|]. left. split; [done|]. split; [|by eexists]. cbn [app] in F6. rewrite <- F6.
    destruct (inbound (kern w)); [done|]. exfalso. apply (f_equal length) in F10. revert F10.
    rewrite length_take. simpl. lia. }
  set (w2 := World (set_rbuffer (rbuffer (conn w1) ++ data) (conn w1)) (kern w1)).
  erewrite (stm_bind_run _ _ w1 tt w2) in H by (unfold w2, bmod; by rewrite F1).
  rewrite stm_bind_eq in H.
  destruct (read_control control w2) as [o w3] eqn:E; apply read_control_run in E as (G1 & (new & G2 & G3) & G4).
  assert (R3 : receives [] w w3).
  { constructor; rewrite ?G1, ?G3; unfold w2; cbn [conn kern]; rewrite ?F1; try done.
    exists data, []. split_and!; try done; [by rewrite app_nil_r|]. exists [Recv k control], new.
    rewrite F8, F9. split; [done|]. split; [|done]. unfold answer_fds. cbn [map concat]. by rewrite app_nil_r. }
  assert (Hb3 : rx_bytes w3) by (by eapply receives_bytes).
  assert (Hs3 : is_connected (state (conn w3)) = true) by (by rewrite (rc_conn _ _ _ R3)).
  destruct o as [[]|e]; [|injection H as <- <-; destruct G4 as (-> & _ & f & Hf); split; [exact R3|];
    right; split; [by rewrite G3; unfold w2; cbn [conn]; rewrite F1|]; right; left; split; [done|]; exists k, control, f; rewrite F8; split; [left|done] ].
  cbn beta iota in H. rewrite stm_bind_eq in H.
  change (make_messages w3) with (make_loop (length (rbuffer (conn w3))) false w3) in H.
  destruct (make_loop (length (rbuffer (conn w3))) false w3) as [[[n2 made]|e] w4] eqn:E;
    apply make_loop_receives in E as (K1 & K2 & K3 & K4); try done.
  all: injection H as <- <-; split; [exact (receives_trans [] [] _ _ _ R3 K1)|].
  - destruct K4 as (K4 & K5 & _). apply bool_decide_eq_false in Hd. split.
    { intros _. rewrite K2, G1. unfold w2. cbn [kern]. rewrite F8, F9, F6, length_app. destruct data; [done|simpl; lia]. }
    split; [by eexists|]. left. rewrite K2, G1. unfold w2. cbn [kern].
    rewrite F8, F9. simpl. lia.
  - by left.
Qed.

(** ** The queue *)

(** Something was made of the buffer alone, so there is a message. *)
Lemma receives_made w w' :
  receives [] w w' -> kern w' = kern w ->
  (length (rbuffer (conn w')) < length (rbuffer (conn w)))%nat -> rqueue (conn w') <> [].
Proof.
  intros [(t & items & H1 & H2 & H3 & _) _ _] Hk Hl E. rewrite Hk in H1.
  assert (t = []) as -> by (apply (f_equal length) in H1; rewrite length_app in H1; destruct t; [done|simpl in H1; lia]).
  destruct items; cbn [map concat app] in *.
  - rewrite app_nil_r in H2. rewrite H2 in Hl. lia.
  - rewrite E in H3. by apply app_nil in H3 as [_ [=]].
Qed.

Lemma read_broken_later (P : Prop) w w1 w' e :
  (exists l, recvs (kern w) = l ++ recvs (kern w1)) -> read_broken P w1 w' e -> read_broken P w w' e.
Proof.
  intros [l Hl].
  intros [H|[HP [H|[(H & n & c & f & Hi & Hf)|H]]]]; [by left| | |]; right; (split; [done|]); [by left| |]; right.
  - left. split; [done|]. exists n, c, f. split; [|done]. rewrite Hl. apply elem_of_app. by right.
  - right. rewrite Hl. apply elem_of_app. by right.
Qed.

Lemma paid_trans o w1 w2 w3 : receives o w1 w2 -> paid w1 w2 -> paid w2 w3 -> paid w1 w3.
Proof.
  intros R P1 P2 He. destruct (receives_answers _ _ _ R) as [l Hl]. specialize (P1 He).
  assert (forall e, RecvErr e ∉ recvs (kern w2)) as He2.
  { intros e Hin. apply (He e). rewrite Hl. apply elem_of_app. by right. }
  specialize (P2 He2). lia.
Qed.

Lemma rqueue_loop_receives fuel : forall ret w r w',
  is_connected (state (conn w)) = true -> rx_bytes w ->
  rqueue (conn w) <> [] \/ (length (recvs (kern w)) < fuel)%nat ->
  rqueue_loop fuel ret w = (r, w') ->
  match r with
  | Ok (b, Some m) => b = true /\ receives [m] w w'
  | Ok (b, None) => receives [] w w' /\ rqueue (conn w') = [] /\
      (exists n, needed (rbuffer (conn w')) = Ok n /\ zlen (rbuffer (conn w')) < n) /\
      (recvs (kern w') = [] \/ exists e, RecvErr e ∈ recvs (kern w)) /\ paid w w'
  | Err e => receives [] w w' /\ read_failed w w' e
  end.
Proof.
  induction fuel as [|fuel IH]; intros ret w r w' Hs Hb Hf H; cbn [rqueue_loop] in H;
    rewrite (stm_bind_run bget _ w _ _ eq_refl) in H; destruct (rqueue (conn w)) as [|m q] eqn:Eq.
  { destruct Hf as [Hf|Hf]; [by destruct Hf|lia]. }
  1, 3: injection H as <- <-; split; [done|]; constructor; [|done|done]; exists [], [];
    cbn [conn kern map concat app]; split_and!; try done; [by rewrite app_nil_r|by rewrite app_nil_r, Eq|];
    exists [], []; split_and!; try done; by rewrite app_nil_r.
  rewrite stm_bind_eq in H. destruct (bus_read_message w) as [[b|e] w1] eqn:E;
    apply read_message_receives in E as (R1 & E); try done.
  2: { injection H as <- <-. split; [done|]. eapply read_broken_impl; [|exact E]. by rewrite Eq. }
  destruct b.
  - destruct E as (Hpaid & _ & Hp). apply IH in H.
    + destruct r as [[b [m|]]|e].
      * destruct H as [-> H]. split; [done|]. exact (receives_trans [] [m] _ _ _ R1 H).
      * destruct H as (H1 & H2 & H3 & H4 & H5). split; [exact (receives_trans [] [] _ _ _ R1 H1)|].
        split; [done|]. split; [done|]. split; [|by eapply paid_trans].
        destruct (receives_answers _ _ _ R1) as [l Hl].
        destruct H4 as [H4|[e H4]]; [by left|]. right. exists e. rewrite Hl. apply elem_of_app. by right.
      * destruct H as [H1 H2]. split; [exact (receives_trans [] [] _ _ _ R1 H1)|]. eapply read_broken_later; [by eapply receives_answers|done].
    + by rewrite (rc_conn _ _ _ R1).
    + by eapply receives_bytes.
    + destruct Hp as [Hp|[Hp Hk]]; [|left; by apply (receives_made w w1)]. right. destruct Hf as [Hf|Hf]; [by destruct Hf|lia].
  - injection H as <- <-. destruct E as (E0 & E1 & E2 & E3). split; [done|]. rewrite E2 in *.
    split; [done|]. split; [done|]. split; [|done]. destruct E3 as [E3|E3]; [left|by right].
    destruct (receives_answers _ _ _ R1) as [l Hl]. rewrite E3 in Hl. by symmetry in Hl; apply app_nil in Hl as [_ ->].
Qed.

Definition delivery (r : res (bool * option message)) : list message :=
  match r with Ok (_, Some m) => [m] | _ => [] end.

Lemma dispatch_rqueue_receives w r w' :
  is_connected (state (conn w)) = true -> rx_bytes w -> dispatch_rqueue w = (r, w') ->
  receives (delivery r) w w' /\
  match r with
  | Ok (b, Some _) => b = true
  | Ok (_, None) => rqueue (conn w') = [] /\
      (exists n, needed (rbuffer (conn w')) = Ok n /\ zlen (rbuffer (conn w')) < n) /\
      (recvs (kern w') = [] \/ exists e, RecvErr e ∈ recvs (kern w)) /\ paid w w'
  | Err e => read_failed w w' e
  end.
Proof.
  intros Hs Hb H. unfold dispatch_rqueue in H. rewrite (stm_bind_run bget _ w _ _ eq_refl), Hs in H.
  erewrite stm_bind_run in H by reflexivity. rewrite (stm_bind_run kget _ w _ _ eq_refl) in H.
  apply rqueue_loop_receives in H; [|done|done|right; lia].
  destruct r as [[b [m|]]|e]; [by destruct H as [-> H]| |done].
  by destruct H as (H1 & H2 & H3 & H4 & H5).
Qed.

(** C20. Framing: one call of [dispatch_rqueue], whatever comes over the socket and
    in pieces of whatever size. The bytes taken from the socket, after those
    still in the buffer, are cut where the headers announce it, every cut-out
    piece is parsed by [bus_message_from_malloc] with the descriptors that had
    come by then, in order, and the messages pass through the queue in order,
    one at a time; nothing is lost on the way. A call that returns no message
    leaves no complete one behind and used up what the socket had to give.
    It ends, and fails only for a reason that came from outside. *)
Theorem dispatch_rqueue_frames w r w' :
  is_connected (state (conn w)) = true -> Forall is_byte (rbuffer (conn w)) -> Forall is_byte (inbound (kern w)) ->
  dispatch_rqueue w = (r, w') ->
  let out := delivery r in
  (exists taken items,
    inbound (kern w) = taken ++ inbound (kern w') /\
    rbuffer (conn w) ++ taken = concat (map it_bytes items) ++ rbuffer (conn w') /\
    rqueue (conn w) ++ map it_message items = out ++ rqueue (conn w') /\
    Forall (fun i => announced_size (it_bytes i) = Ok (zlen (it_bytes i)) /\
              bus_message_from_malloc (it_bytes i) (it_fds i) = Ok (it_message i)) items /\
    exists l new, recvs (kern w) = l ++ recvs (kern w') /\ new `sublist_of` answer_fds l /\
      bus_fds (conn w) ++ new = concat (map it_fds items) ++ bus_fds (conn w')) /\
  match r with
  | Ok (b, Some _) => b = true
  | Ok (_, None) => rqueue (conn w') = [] /\
      (exists n, needed (rbuffer (conn w')) = Ok n /\ zlen (rbuffer (conn w')) < n) /\
      (recvs (kern w') = [] \/ exists e, RecvErr e ∈ recvs (kern w))
  | Err e => read_failed w w' e
  end.
Proof.
  intros Hs Hb Hi H out. apply dispatch_rqueue_receives in H as [[(t & i & A1 & A2 & A3 & A4 & A5) _ _] H]; try done.
  split.
  - exists t, i. split_and!; try done. eapply Forall_impl; [exact A4|]. by intros x (_ & ? & ?).
  - destruct r as [[b [m|]]|e]; [done| |done]. by destruct H as (? & ? & ? & _).
Qed.
