(* ===== verification/Channel.v ===== *)
(** * Two connections and the socket between them

    A sender and a receiver, a socket that takes and gives bytes in pieces of any
    size and at any time, and applications that send, flush and receive: what is
    received is what was sent, in order. *)
From S2P Require Import Prelude BusType Signature Names Gvariant MsgState MsgWrite MsgFields MsgRead MsgBody Marshal MsgAppend MsgReadback MsgRoundtrip MsgParse MsgWire MsgCopy MsgExamples Bus Sasl Transport TransportWrite TransportSend TransportRead.

(** ** Messages on the wire are cut where they end *)
Ltac byte := first [assumption | unfold is_byte; by split; vm_compute].
Ltac bytes := repeat (apply Forall_cons_2; [byte|]); apply Forall_nil_2.

Lemma field_bytes_bytes be m f : field_ok m f -> Forall is_byte (hfield_bytes be f).
Proof.
  assert (Hz : is_byte 0) by (unfold is_byte; lia). assert (Ho : is_byte 1) by (unfold is_byte; lia).
  destruct f as [h t s|s|h x]; cbn [field_ok hfield_bytes].
  - intros (Hs & _ & Ht). apply cstr_bytes in Hs.
    assert (is_byte h /\ is_byte t) as [Hh Ht'].
    { destruct Ht as [(-> & -> & _)|(-> & Ht)]; [split; byte|split; [|byte] ].
      destruct Ht as [(-> & _)|[(-> & _)|[(-> & _)|[(-> & _)|(-> & _)]]]]; byte. }
    repeat apply Forall_app_2; try done; [bytes|apply word_bytes|bytes].
  - intros (Hs & Hl & _). apply cstr_bytes in Hs. pose proof (zlen_nonneg s).
    assert (is_byte (zlen s)) by (unfold is_byte; lia).
    repeat apply Forall_app_2; try done; bytes.
  - intros (-> & _). repeat apply Forall_app_2; [bytes|apply word_bytes].
Qed.

Lemma encode_fields_bytes be l : forall m p, fields_ok m l -> Forall is_byte (encode_fields be p l).
Proof.
  induction l as [|f l IH]; intros m p; [constructor|]. intros [H1 H2]. unfold encode_fields. cbn [seq_with].
  apply Forall_app_2; [apply Forall_app_2; [apply zeros_bytes|by eapply field_bytes_bytes]|by eapply IH].
Qed.

Lemma wire_bytes h fs b : header_ok h -> Forall is_byte fs -> Forall is_byte b -> Forall is_byte (wire h fs b).
Proof.
  intros (He & Ht & Hfl & Hv & _) Hf Hb. unfold wire.
  assert (is_byte (h_type h)) by (unfold is_byte; lia). assert (is_byte (h_flags h)) by done.
  apply Forall_app_2; [|apply Forall_app_2; [done|by apply Forall_app_2; [apply zeros_bytes|]] ].
  unfold header_bytes. rewrite Hv, He. change (1 =? 2) with false. cbn beta iota.
  apply Forall_app_2; [bytes|]. repeat (apply Forall_app_2; [apply le_bytes_is_byte|]). apply le_bytes_is_byte.
Qed.

Lemma header_words h rest :
  header_ok h ->
  deref (header_bytes h ++ rest) = BUS_LITTLE_ENDIAN /\
  header_word (header_bytes h ++ rest) 4 = h_body_size h /\
  header_word (header_bytes h ++ rest) 12 = h_fields_size h.
Proof.
  intros (He & Ht & Hfl & Hv & Hb & Hs & Hf & Hc). unfold header_word, header_bytes.
  rewrite Hv. change (1 =? 2) with false. cbn beta iota.
  assert (L : forall x, exists a b c d, le_bytes 4 x = [a; b; c; d]) by (intros x; by do 4 eexists).
  destruct (L (h_body_size h)) as (a1 & b1 & c1 & d1 & E1).
  destruct (L (h_serial h)) as (a2 & b2 & c2 & d2 & E2).
  destruct (L (h_fields_size h)) as (a3 & b3 & c3 & d3 & E3).
  rewrite E1, E2, E3. cbn [app drop take deref]. rewrite He. change (BUS_LITTLE_ENDIAN =? BUS_BIG_ENDIAN) with false.
  cbn beta iota. rewrite ?take_0, <- E1, <- E3, !le_val_word4 by lia. done.
Qed.

(** The bytes of a sealed message: a receiver that has the first 16 of them knows
    how many there are. *)
Record whole (c : list Z) : Prop := Whole {
  wh_bytes : Forall is_byte c;
  wh_long : 16 <= zlen c;
  wh_size : announced_size c = Ok (zlen c) }.

Lemma sealed_whole l vs m ck t :
  sendable l m -> values_ok vs -> 0 < ck <= 4294967295 ->
  let m2 := sealed_message ck t (appended vs m) in
  zlen (bus_message_get_blob m2) < BUS_MESSAGE_SIZE_MAX -> whole (bus_message_get_blob m2).
Proof.
  intros S V C m2 Hz. destruct (sealed_header l vs m ck t S V C) as (H1 & H2 & H3 & H4 & H5 & _ & _ & H8).
  cbv zeta in *. fold m2 in H1, H2, H3, H4, H5, H8.
  assert (E : bus_message_get_blob m2 = wire (hdr m2) (fields m2) (body m2)) by done.
  assert (Hl : zlen (bus_message_get_blob m2) = 16 + ALIGN8 (zlen (fields m2)) + zlen (body m2)).
  { rewrite blob_head, zlen_app, head_length; [done|]. unfold fields_size. lia. }
  pose proof (zlen_nonneg (fields m2)) as Hf. pose proof (zlen_nonneg (body m2)).
  pose proof (ALIGN8_up (zlen (fields m2)) ltac:(lia)). pose proof (align_up_spec (zlen (fields m2)) 8 ltac:(lia) Hf).
  constructor; [|lia|].
  - rewrite E. apply wire_bytes; [done| |].
    + rewrite H3. eapply encode_fields_bytes. by eapply (top_fields_ok l vs m (s_built _ _ S) V (blank m)).
    + rewrite H8. apply marshal_seq_bytes, top_ok_values, V.
  - unfold announced_size. rewrite Hl in *. rewrite E. unfold wire.
    destruct (header_words (hdr m2) (fields m2 ++ zeros (Z.to_nat (ALIGN8 (zlen (fields m2)) - zlen (fields m2))) ++ body m2) H1)
      as (-> & -> & ->).
    change (in_set BUS_LITTLE_ENDIAN _) with true. cbn [require mbind res_bind]. rewrite H2, H4.
    cbv zeta. unfold BUS_HEADER_SIZE. rewrite (proj2 (Z.ltb_lt _ _)) by lia. done.
Qed.

(** Whole messages one after another are cut in one way only. *)
Lemma cut_unique xs : forall ys r,
  Forall whole xs -> Forall whole ys -> concat xs ++ r = concat ys -> exists zs, ys = xs ++ zs /\ r = concat zs.
Proof.
  induction xs as [|x xs IH]; intros ys r Hx Hy E; cbn [concat app] in *; [by exists ys|].
  inversion_clear Hx as [|?? [_ X1 X2] Hxs]. destruct ys as [|y ys].
  { exfalso. destruct x; [unfold zlen in X1; simpl in X1; lia|done]. }
  inversion_clear Hy as [|?? [_ Y1 Y2] Hys]. cbn [concat] in E. rewrite <- app_assoc in E.
  assert (zlen x = zlen y) as Hl.
  { pose proof (announced_prefix x (concat xs ++ r) X1) as A. pose proof (announced_prefix y (concat ys) Y1) as B.
    rewrite E, B, X2, Y2 in A. by injection A. }
  apply app_inj_1 in E as [-> E]; [|unfold zlen in Hl; lia].
  destruct (IH _ _ Hxs Hys E) as (zs & -> & ->). by exists zs.
Qed.

(** ** The system *)

(** What the sending application handed over: the message under construction, the
    values appended to it, the cookie it was told, and the sealed message's bytes. *)
Record parcel := Parcel { pa_message : message; pa_values : list value; pa_cookie : Z; pa_bytes : list Z }.

(** [carried]: how many of the bytes the sender's socket accepted have reached the
    receiver's. *)
Record system := System {
  tx : world; rx : world; carried : nat; handed : list parcel; got : list message }.

Definition with_sends (l : list (res Z)) (w : world) : world :=
  let k := kern w in
  World (conn w) (Kernel l (sent k) (sent_fds k) (recvs k) (inbound k) (clock k) (ticks k) (euid k)
    (is_unix_socket k) (peer_uid k) (env_timeout k) (polls k) (happened k)).

Definition with_recvs (l : list recv_answer) (w : world) : world :=
  let k := kern w in
  World (conn w) (Kernel (sends k) (sent k) (sent_fds k) l (inbound k) (clock k) (ticks k) (euid k)
    (is_unix_socket k) (peer_uid k) (env_timeout k) (polls k) (happened k)).

Definition with_inbound (l : list Z) (w : world) : world :=
  let k := kern w in
  World (conn w) (Kernel (sends k) (sent k) (sent_fds k) (recvs k) l (clock k) (ticks k) (euid k)
    (is_unix_socket k) (peer_uid k) (env_timeout k) (polls k) (happened k)).

(** No descriptors are passed. *)
Definition no_fds (l : list recv_answer) : Prop := answer_fds l = [].

Section Channel.
Context (ensure_running : stm world unit) (dup_fd : Z -> res Z).

(** The sockets' answers are arbitrary in every step; a send may fail. *)
Inductive step : system -> system -> Prop :=
  | step_send l m vs want answers r w' m' s :
      sendable l m -> values_ok vs -> dont_send m = false ->
      reply_signature_ok (appended vs m) = true ->
      sd_bus_send ensure_running dup_fd want (with_sends answers (tx s), snd (append_values vs m)) = (r, (w', m')) ->
      BUS_IS_OPEN (state (conn (tx s))) = true -> bus_cookie (conn (tx s)) < 4294967295 ->
      zlen (bus_message_get_blob m') < BUS_MESSAGE_SIZE_MAX ->
      step s (System w' (rx s) (carried s)
                (handed s ++ match r with Ok c => [Parcel m vs c (bus_message_get_blob m')] | Err _ => [] end) (got s))
  | step_flush answers r w' s :
      is_connected (state (conn (tx s))) = true ->
      dispatch_wqueue (with_sends answers (tx s)) = (r, w') ->
      step s (System w' (rx s) (carried s) (handed s) (got s))
  | step_carry n s :
      let arriving := take n (drop (carried s) (sent (kern (tx s)))) in
      step s (System (tx s) (with_inbound (inbound (kern (rx s)) ++ arriving) (rx s))
                (carried s + length arriving) (handed s) (got s))
  | step_receive answers r w' s :
      no_fds answers ->
      dispatch_rqueue (with_recvs answers (rx s)) = (r, w') ->
      step s (System (tx s) w' (carried s) (handed s)
                (got s ++ delivery r)).

(** Both connections run, nothing was sent yet. *)
Record initial (s : system) : Prop := Initial {
  in_tx : BUS_IS_OPEN (state (conn (tx s))) = true /\ wqueue (conn (tx s)) = [] /\ windex (conn (tx s)) = 0 /\
          sent (kern (tx s)) = [] /\ 0 <= bus_cookie (conn (tx s)) /\ plain_sender (conn (tx s));
  in_rx : is_connected (state (conn (rx s))) = true /\ rbuffer (conn (rx s)) = [] /\ rqueue (conn (rx s)) = [] /\
          bus_fds (conn (rx s)) = [] /\ inbound (kern (rx s)) = [];
  in_rest : carried s = 0%nat /\ handed s = [] /\ got s = [] }.

Definition delivered (p : parcel) (r : message) : Prop :=
  arrived (pa_message p) (pa_values p) (pa_cookie p) r.

(** A parcel that was handed over: its bytes make exactly one message, this one. *)
Record proper (p : parcel) : Prop := Proper {
  pr_whole : whole (pa_bytes p);
  pr_parse : exists r, bus_message_from_malloc (pa_bytes p) [] = Ok r /\ delivered p r }.

Record invariant (s : system) : Prop := Invariant {
  iv_proper : Forall proper (handed s);
  iv_tx : queue_ok (conn (tx s)) /\ plain_sender (conn (tx s)) /\ 0 <= bus_cookie (conn (tx s));
  iv_cookies : NoDup (map pa_cookie (handed s)) /\
               Forall (fun p => pa_cookie p <= bus_cookie (conn (tx s))) (handed s);
  iv_out : out_bytes (tx s) = concat (map pa_bytes (handed s));
  iv_carried : (carried s <= length (sent (kern (tx s))))%nat;
  iv_rx : is_connected (state (conn (rx s))) = true /\ bus_fds (conn (rx s)) = [];
  iv_in : exists items,
    take (carried s) (sent (kern (tx s))) =
      concat (map it_bytes items) ++ rbuffer (conn (rx s)) ++ inbound (kern (rx s)) /\
    Forall framed items /\ map it_message items = got s ++ rqueue (conn (rx s)) /\
    Forall (fun i => it_fds i = []) items }.

(** ** Every step keeps the invariant *)
Lemma initial_invariant s : initial s -> invariant s.
Proof.
  intros [(A1 & A2 & A3 & A4 & A5 & A6) (B1 & B2 & B3 & B4 & B5) (C1 & C2 & C3)]. constructor.
  - by rewrite C2.
  - split; [|done]. constructor; rewrite A2; [constructor|done|done].
  - rewrite C2. split; constructor.
  - unfold out_bytes, pending. rewrite A2, A4, C2. cbn [map concat]. by rewrite drop_nil.
  - rewrite C1. lia.
  - done.
  - exists []. rewrite A4, B2, B3, B5, C3. by rewrite take_nil.
Qed.

Lemma appended_flag f vs m : appended vs (or_flag f m) = or_flag f (appended vs m).
Proof. unfold appended, upd_last_container. change (containers (grow ?b (or_flag f m))) with (containers (grow b m)). by destruct (containers _). Qed.

Lemma built_flag f l m : built l m -> built l (or_flag f m).
Proof.
  intros [B1 B2 B3 B4]. assert (E : view (blank (or_flag f m)) = view (blank m)) by done.
  constructor; [done| |by apply (fields_ok_view l (blank m))|done].
  change (members (or_flag f m)) with (members m). rewrite B2. symmetry.
  exact (f_equal fst (view_applys l _ _ E)).
Qed.

Lemma sendable_flags want l m : sendable l m -> sendable l (send_flags want m).
Proof.
  unfold send_flags. destruct want; [done|]. intros [[] B ? Hfl ? ? ? ? ?].
  assert (0 <= Z.lor (h_flags (hdr m)) 1 < 2 ^ 8) as Hor by (apply lor_bound; lia).
  apply Sendable; [by constructor|by apply built_flag|done|exact Hor|done..].
Qed.

Lemma sendable_sealable l vs m :
  sendable l m -> values_ok vs -> reply_signature_ok (appended vs m) = true -> sealable (appended vs m).
Proof.
  intros S (Hvs & _ & Hl & _) Hr. pose proof (s_fresh _ _ S) as F.
  destruct (appended_facts vs m F Hvs) as (Hb & Hfl & Hbs & Hc & Hroot & Hsig & Hh & Hf & Hfd & Hse & Hp & Hri & Hers).
  constructor; try done.
  - rewrite Hh. apply S.
  - rewrite Hh. apply F.
  - rewrite Hfd. apply F.
  - unfold fields_size. rewrite Hf. apply S.
  - rewrite Hsig. case_bool_decide; simpl; [done|]. lia.
Qed.

(** What a successful send hands over. *)
Lemma sent_proper l vs m want t ck :
  sendable l m -> values_ok vs -> 0 < ck <= 4294967295 ->
  let m' := sealed_message ck t (send_flags want (appended vs m)) in
  zlen (bus_message_get_blob m') < BUS_MESSAGE_SIZE_MAX ->
  proper (Parcel m vs ck (bus_message_get_blob m')).
Proof.
  intros S V C m' Hz. pose proof (sendable_flags want l m S) as S'.
  assert (Em : m' = sealed_message ck t (appended vs (send_flags want m))).
  { unfold m', send_flags. destruct want; [done|]. by rewrite appended_flag. }
  rewrite Em in *. constructor; cbn [pa_bytes]; [by eapply sealed_whole|].
  destruct (from_malloc_arrives l vs (send_flags want m) ck t S' V C) as (r & H1 & H2). exists r. split; [done|].
  unfold delivered, arrived in *. cbn [pa_message pa_values pa_cookie]. unfold send_flags in H2. by destruct want.
Qed.

Lemma append_values_snd l vs m : sendable l m -> values_ok vs -> snd (append_values vs m) = appended vs m.
Proof.
  intros S (Hvs & Hl & _). rewrite append_values_fresh; [done|apply S|done|].
  unfold BUS_ARRAY_MAX_SIZE, UINT32_MAX in *. lia.
Qed.

Lemma take_prefix {A} n (l x : list A) : (n <= length l)%nat -> take n (l ++ x) = take n l.
Proof. intros. by rewrite take_app_le. Qed.

Lemma invariant_rx_bytes s : invariant s -> rx_bytes (rx s).
Proof.
  intros [I1 _ _ I5 _ _ (items & J1 & _)].
  assert (Ha : Forall is_byte (sent (kern (tx s)) ++ pending (conn (tx s)))).
  { fold (out_bytes (tx s)). rewrite I5. apply Forall_concat, Forall_map. eapply Forall_impl; [exact I1|].
    intros p Hp. apply (pr_whole _ Hp). }
  apply Forall_app in Ha as [Ha _]. apply (Forall_take _ (carried s)) in Ha. rewrite J1 in Ha.
  apply Forall_app in Ha as [_ Ha]. by apply Forall_app in Ha.
Qed.

Lemma step_invariant s s' : step s s' -> invariant s -> invariant s'.
Proof.
  intros Hst [I1 (I2 & I3 & I4) [K1 K2] I5 I6 (I7 & I8) (items & J1 & J2 & J3 & J4)]. destruct Hst.
  - (* send *)
    rewrite (append_values_snd l vs m) in * by done.
    pose proof (sendable_sealable l vs m ltac:(done) ltac:(done) ltac:(done)) as Sl.
    set (w0 := with_sends answers (tx s)) in *.
    assert (Q0 : queue_ok (conn w0)) by done. assert (C0 : cookie_left (conn w0)) by (unfold cookie_left; by split).
    match goal with H : sd_bus_send _ _ _ _ = _ |- _ =>
      apply sd_bus_send_outcome in H as ([t ->] & B1 & B2 & B3 & [x B4] & B5); try done end.
    change (bus_cookie (conn w0)) with (bus_cookie (conn (tx s))) in *. change (sent (kern w0)) with (sent (kern (tx s))) in *.
    assert (Hd : dont_send (appended vs m) = false).
    { unfold appended, upd_last_container. by destruct (containers _). }
    rewrite Hd in B5. assert (Ho : out_bytes w' = concat (map pa_bytes (handed s ++
      match r with Ok c => [Parcel m vs c (bus_message_get_blob (sealed_message (bus_cookie (conn (tx s)) + 1) t
        (send_flags want (appended vs m))))] | Err _ => [] end))).
    { rewrite map_app, concat_app, <- I5. destruct r as [c|e]; cbn [map concat pa_bytes]; rewrite app_nil_r.
      - by destruct B5 as (_ & _ & ->).
      - destruct B5 as (_ & E1 & E2 & E3 & _). unfold out_bytes, pending. by rewrite E1, E2, E3. }
    constructor; cbn [tx rx carried handed got]; try done.
    + apply Forall_app. split; [done|]. destruct r as [c|e]; [|done]. destruct B5 as (-> & _).
      apply Forall_cons_2; [|apply Forall_nil_2]. apply (sent_proper l); try done. lia.
    + split_and!; try done. rewrite B1. lia.
    + rewrite map_app, B1. split.
      * apply NoDup_app. split; [done|]. split; [|destruct r; [apply NoDup_singleton|apply NoDup_nil_2] ].
        intros c Hc Hc'. apply list_elem_of_fmap in Hc as (p & -> & Hp).
        pose proof (proj1 (Forall_forall _ _) K2 p Hp). destruct r as [c|e]; [|by apply elem_of_nil in Hc'].
        apply list_elem_of_singleton in Hc'. cbn [pa_cookie] in Hc'. destruct B5 as [-> _]. cbn beta in *. lia.
      * apply Forall_app. split; [eapply Forall_impl; [exact K2|]; intros p Hp; cbn beta in *; lia|]. destruct r as [c|e]; [|constructor].
        apply Forall_cons_2; [|constructor]. cbn [pa_cookie]. destruct B5 as [-> _]. done.
    + rewrite B4, length_app. lia.
    + exists items. by rewrite B4, take_prefix.
  - (* flush *)
    match goal with H : dispatch_wqueue _ = _ |- _ => apply dispatch_wqueue_flushes in H as (F & _); try done end.
    destruct (fl_sent _ _ F) as [x Hx]. change (sent (kern (with_sends _ ?w))) with (sent (kern w)) in Hx.
    constructor; cbn [tx rx carried handed got]; try done.
    + split; [apply F|]. rewrite (fl_conn _ _ F). split; [by destruct I3|done].
    + by rewrite (fl_conn _ _ F).
    + by rewrite (fl_bytes _ _ F).
    + rewrite Hx, length_app. lia.
    + exists items. by rewrite Hx, take_prefix.
  - (* carry *)
    constructor; cbn [tx rx carried handed got]; try done.
    + unfold arriving. rewrite length_take, length_drop. lia.
    + exists items. split; [|done]. cbn [with_inbound conn kern inbound rbuffer].
      rewrite !app_assoc in *. rewrite <- J1.
      rewrite <- (take_drop (carried s) (sent (kern (tx s)))) at 1. rewrite take_app_ge by (rewrite length_take; lia).
      f_equal. rewrite length_take. replace (_ - _)%nat with (length arriving) by lia.
      assert (He : drop (carried s) (sent (kern (tx s))) = arriving ++ drop n (drop (carried s) (sent (kern (tx s)))))
        by (symmetry; apply take_drop).
      by rewrite He, take_app_length.
  - (* receive *)
    assert (Hb : rx_bytes (with_recvs answers (rx s))).
    { apply (invariant_rx_bytes s). constructor; try done. by exists items. }
    match goal with H : dispatch_rqueue _ = _ |- _ => apply dispatch_rqueue_receives in H as [R _]; try done end.
    destruct R as [(t & new & A1 & A2 & A3 & A4 & l1 & n1 & A5 & A6 & A7) A8 A9].
    change (inbound (kern (with_recvs _ ?w))) with (inbound (kern w)) in *.
    change (conn (with_recvs _ ?w)) with (conn w) in *.
    assert (n1 = []) as ->.
    { change (recvs (kern (with_recvs answers (rx s)))) with answers in A5.
      assert (Hn : answer_fds l1 = []).
      { match goal with H : no_fds _ |- _ => unfold no_fds in H; rewrite A5 in H; unfold answer_fds in H |- *;
          rewrite map_app, concat_app in H; by apply app_nil in H as [] end. }
      rewrite Hn in A6. by apply sublist_nil_r in A6. }
    rewrite I8 in A7. symmetry in A7. apply app_nil in A7 as [A7 A7'].
    constructor; cbn [tx rx carried handed got]; try done.
    + split; [|done]. by rewrite A8.
    + exists (items ++ new). rewrite !map_app, !concat_app. split_and!.
      * rewrite J1, A1, <- !app_assoc. f_equal. by rewrite app_assoc, A2, <- app_assoc.
      * by apply Forall_app.
      * by rewrite J3, <- app_assoc, A3, app_assoc.
      * apply Forall_app. split; [done|]. clear -A7. induction new as [|i new IH]; [constructor|].
        cbn [map concat] in A7. apply app_nil in A7 as [? ?]. constructor; [done|by apply IH].
Qed.

Lemma reachable_invariant s0 s : initial s0 -> rtc step s0 s -> invariant s.
Proof.
  intros H0 H. apply initial_invariant in H0. induction H as [|s1 s2 s3 H1 _ IH]; [done|].
  apply IH. by eapply step_invariant.
Qed.

Lemma items_delivered g : forall items h zs q,
  Forall proper h -> Forall framed items -> Forall (fun i => it_fds i = []) items ->
  map pa_bytes h = map it_bytes items ++ zs -> map it_message items = g ++ q ->
  Forall2 delivered (take (length g) h) g /\ (length g <= length h)%nat.
Proof.
  induction g as [|r g IH]; intros items h zs q Hp Hf Hd E Em; [split; [constructor|simpl; lia]|].
  destruct items as [|i items]; [done|]. destruct h as [|p h]; [done|].
  cbn [map app] in E, Em. injection E as E1 E. injection Em as E2 Em.
  inversion_clear Hp as [|?? [_ (r' & P1 & P2)] Hp']. inversion_clear Hf as [|?? (_ & _ & F) Hf'].
  inversion_clear Hd as [|?? D Hd']. destruct (IH items h zs q) as [H1 H2]; try done.
  cbn [length take]. split; [|lia]. constructor; [|done]. rewrite D, <- E1, P1 in F. injection F as F.
  by rewrite <- E2, <- F.
Qed.

(** The messages made so far are a prefix of those handed over. *)
Lemma invariant_items s :
  invariant s -> exists items zs,
    map pa_bytes (handed s) = map it_bytes items ++ zs /\
    map it_message items = got s ++ rqueue (conn (rx s)) /\
    rbuffer (conn (rx s)) ++ inbound (kern (rx s)) ++
      drop (carried s) (sent (kern (tx s))) ++ pending (conn (tx s)) = concat zs /\
    Forall framed items /\ Forall (fun i => it_fds i = []) items /\ Forall whole zs.
Proof.
  intros [I1 I2 _ I5 I6 I7 (items & J1 & J2 & J3 & J4)].
  assert (Hw : Forall whole (map pa_bytes (handed s))).
  { apply Forall_map. eapply Forall_impl; [exact I1|]. by intros p []. }
  assert (E : concat (map it_bytes items) ++
    (rbuffer (conn (rx s)) ++ inbound (kern (rx s)) ++ drop (carried s) (sent (kern (tx s))) ++ pending (conn (tx s))) =
    concat (map pa_bytes (handed s))).
  { rewrite <- I5. unfold out_bytes. rewrite <- (take_drop (carried s) (sent (kern (tx s)))) at 2.
    rewrite J1, <- !app_assoc. done. }
  assert (Hi : Forall whole (map it_bytes items)).
  { assert (Hb : Forall is_byte (concat (map it_bytes items))).
    { assert (Hc : Forall is_byte (concat (map pa_bytes (handed s)))).
      { apply Forall_concat. eapply Forall_impl; [exact Hw|]. by intros c []. }
      rewrite <- E in Hc. by apply Forall_app in Hc as []. }
    apply Forall_concat in Hb. rewrite Forall_map in Hb |- *. apply Forall_forall. intros i Hin.
    destruct (proj1 (Forall_forall _ _) J2 i Hin) as (H1 & H2 & _). constructor; [|done|done].
    exact (proj1 (Forall_forall _ _) Hb i Hin). }
  destruct (cut_unique _ _ _ Hi Hw E) as (zs & Ez & Er). exists items, zs. split_and!; try done.
  rewrite Ez in Hw. by apply Forall_app in Hw as [].
Qed.

Lemma invariant_delivered s :
  invariant s -> Forall2 delivered (take (length (got s)) (handed s)) (got s) /\
  (length (got s) <= length (handed s))%nat.
Proof.
  intros I. destruct (invariant_items s I) as (items & zs & E1 & E2 & _ & E3 & E4 & _).
  by eapply items_delivered; [apply I|..].
Qed.

(** ** Everything sent can arrive *)

(** A socket that takes byte after byte, as many as wait, empties the queue. *)
Lemma flush_all s :
  invariant s -> is_connected (state (conn (tx s))) = true ->
  exists s', step s s' /\ sent (kern (tx s')) = concat (map pa_bytes (handed s)) /\ handed s' = handed s /\
    got s' = got s /\ rx s' = rx s /\ carried s' = carried s /\ wqueue (conn (tx s')) = [].
Proof.
  intros I Hs. destruct I as [_ (Q & _) _ Ho _ _ _].
  set (answers := replicate (S (length (pending (conn (tx s))))) (Ok 1 : res Z)).
  destruct (dispatch_wqueue (with_sends answers (tx s))) as [r w'] eqn:E.
  exists (System w' (rx s) (carried s) (handed s) (got s)). split; [by eapply step_flush|].
  cbn [tx rx carried handed got].
  assert (Hok : forall e, Err e ∉ answers).
  { intros e [[=] _]%elem_of_replicate. }
  apply dispatch_wqueue_flushes in E as (F & _ & Hr); [|done|done].
  change (sends (kern (with_sends answers (tx s)))) with answers in Hr.
  pose proof (fl_progress _ _ F Hok) as Hp. destruct (fl_sent _ _ F) as [x Hx].
  pose proof (fl_bytes _ _ F) as Hb. unfold out_bytes in Hb.
  change (sent (kern (with_sends answers (tx s)))) with (sent (kern (tx s))) in *.
  change (sends (kern (with_sends answers (tx s)))) with answers in *.
  change (conn (with_sends answers (tx s))) with (conn (tx s)) in *. unfold out_bytes in Ho. rewrite Ho in Hb.
  assert (Hq : wqueue (conn w') = []).
  { destruct r as [b|e]; [|by apply Hok in Hr]. destruct Hr as [Hr|[Hr|[e Hr]]]; [done| |by apply Hok in Hr].
    exfalso. rewrite Hr in Hp. unfold answers in Hp. rewrite length_replicate in Hp.
    apply (f_equal length) in Hb. rewrite <- Ho, !length_app in Hb. simpl in Hp. lia. }
  split; [|done]. rewrite <- Hb. unfold pending. rewrite Hq. cbn [map concat]. by rewrite drop_nil, app_nil_r.
Qed.

Lemma carry_all s : exists s', step s s' /\ (carried s' = carried s + length (drop (carried s) (sent (kern (tx s)))))%nat /\
  tx s' = tx s /\ handed s' = handed s /\ got s' = got s.
Proof.
  eexists. split; [apply (step_carry (length (drop (carried s) (sent (kern (tx s))))))|].
  cbn [tx rx carried handed got]. rewrite take_ge by lia. done.
Qed.

(** What is left at the receiver when all bytes are there. *)
Lemma all_carried s :
  invariant s -> carried s = length (sent (kern (tx s))) -> wqueue (conn (tx s)) = [] ->
  exists zs, rbuffer (conn (rx s)) ++ inbound (kern (rx s)) = concat zs /\ Forall whole zs /\
    Forall (fun z => exists r, bus_message_from_malloc z [] = Ok r) zs /\
    (length (got s) + length (rqueue (conn (rx s))) + length zs = length (handed s))%nat.
Proof.
  intros I Hc Hq. destruct (invariant_items s I) as (items & zs & E1 & E2 & E3 & _ & _ & E4).
  exists zs. split_and!; [|done| |].
  - rewrite <- E3, Hc, drop_all. unfold pending. rewrite Hq. cbn [map concat app]. by rewrite drop_nil, app_nil_r.
  - assert (Hp : Forall (fun z => exists r, bus_message_from_malloc z [] = Ok r) (map pa_bytes (handed s))).
    { apply Forall_map. eapply Forall_impl; [apply I|]. intros p [_ (r & H & _)]. by exists r. }
    rewrite E1 in Hp. by apply Forall_app in Hp as [].
  - apply (f_equal length) in E1, E2. rewrite length_app, !length_map in *. lia.
Qed.

(** The buffer's beginning tells the first message's length, if there is enough of it. *)
Lemma needed_whole b x zs n :
  b ++ x = concat zs -> Forall whole zs -> needed b = Ok n -> n <= zlen b ->
  exists z zs', zs = z :: zs' /\ n = zlen z /\ take (Z.to_nat n) b = z.
Proof.
  intros E Hw Hn Hl. unfold needed, BUS_HEADER_SIZE in Hn. destruct (Z.ltb_spec (zlen b) 16); [injection Hn as <-; lia|].
  destruct zs as [|z zs]; [destruct b; [unfold zlen in *; simpl in *; lia|done]|].
  inversion_clear Hw as [|?? [_ W1 W2] _]. exists z, zs. split; [done|]. cbn [concat] in E.
  pose proof (announced_prefix b x ltac:(lia)) as A. rewrite E, announced_prefix, W2, Hn in A by done.
  injection A as <-. split; [done|]. apply (f_equal (take (length z))) in E. unfold zlen in *.
  rewrite take_app_length, take_app_le in E by lia. by rewrite Nat2Z.id.
Qed.

Lemma needed_ok b x zs : b ++ x = concat zs -> Forall whole zs -> exists n, needed b = Ok n.
Proof.
  intros E Hw. unfold needed, BUS_HEADER_SIZE. destruct (Z.ltb_spec (zlen b) 16); [by eexists|].
  destruct zs as [|z zs]; [destruct b; [unfold zlen in *; simpl in *; lia|done]|].
  inversion_clear Hw as [|?? [_ W1 W2] _]. cbn [concat] in E. exists (zlen z).
  pose proof (announced_prefix b x ltac:(lia)) as A. by rewrite E, announced_prefix, W2 in A by done.
Qed.

(** With all bytes there, the receiver gets another message. *)
(** With all bytes there, the receiver gets another message. *)
Lemma receive_next s :
  invariant s -> carried s = length (sent (kern (tx s))) -> wqueue (conn (tx s)) = [] ->
  zlen (handed s) - zlen (got s) < BUS_RQUEUE_MAX -> (length (got s) < length (handed s))%nat ->
  exists s' m, step s s' /\ got s' = got s ++ [m] /\ tx s' = tx s /\ carried s' = carried s /\ handed s' = handed s.
Proof.
  intros I Hc Hq Hz Hl.
  set (answers := replicate (S (length (inbound (kern (rx s))))) (Recv 1 [])).
  destruct (dispatch_rqueue (with_recvs answers (rx s))) as [r w'] eqn:E.
  assert (Hno : no_fds answers).
  { unfold no_fds, answers, answer_fds. clear. induction (S _); [done|]. cbn [replicate map concat]. by rewrite IHn. }
  assert (Hst : step s (System (tx s) w' (carried s) (handed s) (got s ++ delivery r))) by (by eapply step_receive).
  pose proof (step_invariant _ _ Hst I) as I'.
  destruct r as [[b [m|]]|e]; [by exists (System (tx s) w' (carried s) (handed s) (got s ++ [m])), m|exfalso|exfalso].
  all: assert (Hb : rx_bytes (with_recvs answers (rx s))) by (by apply invariant_rx_bytes).
  all: apply dispatch_rqueue_receives in E as [_ E]; [|apply I|done].
  all: assert (Hans : forall e, RecvErr e ∉ answers) by (intros ? [[=] _]%elem_of_replicate).
  - destruct E as (_ & _ & [E|[e E]] & Hp); [|by apply Hans in E]. specialize (Hp Hans). rewrite E in Hp.
    change (recvs (kern (with_recvs answers (rx s)))) with answers in Hp. unfold answers in Hp.
    rewrite length_replicate in Hp. change (inbound (kern (with_recvs _ ?w))) with (inbound (kern w)) in Hp.
    simpl in Hp. lia.
  - cbn [delivery] in I'. rewrite app_nil_r in I'.
    destruct (all_carried _ I') as (zs & Z1 & Z2 & Z3 & Z4); [done|done|]. cbn [tx rx handed got] in *.
    destruct E as [[E|[(n & E1 & E2 & E3)|[_ E]]]|[E2 [(_ & E1 & n & E3 & E4)|[(_ & n & c & f & E1 & E5)|E]]]].
    + destruct (needed_ok _ _ _ Z1 Z2) as [n Hn]. congruence.
    + destruct (needed_whole _ _ _ _ Z1 Z2 E1 E2) as (z & zs' & -> & -> & Et). rewrite Et in E3.
      pose proof (proj2 (iv_rx _ I')) as Hf. cbn [rx] in Hf. rewrite Hf in E3. inversion_clear Z3 as [|?? (r & Hr) _]. congruence.
    + unfold zlen in *. lia.
    + rewrite E1, app_nil_r in Z1. rewrite E2 in Z4. destruct zs as [|z zs]; [simpl in Z4; lia|].
      assert (Hn : n = zlen z /\ zlen z <= zlen (rbuffer (conn w'))).
      { inversion_clear Z2 as [|?? [_ W1 W2] _]. cbn [concat] in Z1. rewrite Z1 in E3 |- *. unfold needed, BUS_HEADER_SIZE in E3.
        rewrite zlen_app in E3 |- *. pose proof (zlen_nonneg (concat zs)). rewrite (proj2 (Z.ltb_ge _ _)) in E3 by lia.
        rewrite announced_prefix, W2 in E3 by done. injection E3 as <-. lia. }
      lia.
    + apply elem_of_replicate in E1 as [[= -> ->] _]. by apply elem_of_nil in E5.
    + by apply Hans in E.
Qed.
Lemma receive_all n : forall s,
  invariant s -> carried s = length (sent (kern (tx s))) -> wqueue (conn (tx s)) = [] ->
  zlen (handed s) - zlen (got s) < BUS_RQUEUE_MAX -> (length (handed s) <= length (got s) + n)%nat ->
  exists s', rtc step s s' /\ handed s' = handed s /\ length (got s') = length (handed s).
Proof.
  induction n as [|n IH]; intros s I Hc Hq Hz Hn.
  { exists s. split; [constructor|]. split; [done|]. destruct (invariant_delivered s I). lia. }
  destruct (decide (length (got s) < length (handed s))%nat) as [Hl|Hl].
  2: { exists s. split; [constructor|]. split; [done|]. destruct (invariant_delivered s I). lia. }
  destruct (receive_next s I Hc Hq Hz Hl) as (s1 & m & H1 & H2 & H3 & H4 & H5).
  destruct (IH s1) as (s' & R & E1 & E2).
  - by eapply step_invariant.
  - by rewrite H4, H3.
  - by rewrite H3.
  - rewrite H2, H5, zlen_app. unfold zlen in *. cbn [length]. lia.
  - rewrite H2, H5, length_app. simpl. lia.
  - exists s'. split; [by eapply rtc_l|]. by rewrite <- H5.
Qed.

(** C18. First in, first out: in whatever way the applications' calls, the sockets'
    answers and the arrival of bytes interleave, and however the bytes are cut
    into pieces, the messages the receiver was given are those handed to
    [sd_bus_send], from the first one on and in order, each with the same header
    members, type and cookie, and reading it returns the values that were appended;
    no two messages handed over have the same cookie. *)
Theorem channel_fifo s0 s :
  initial s0 -> rtc step s0 s ->
  (length (got s) <= length (handed s))%nat /\
  Forall2 (fun p r => arrived (pa_message p) (pa_values p) (pa_cookie p) r)
    (take (length (got s)) (handed s)) (got s) /\
  NoDup (map pa_cookie (handed s)).
Proof.
  intros H0 H. pose proof (reachable_invariant s0 s H0 H) as I.
  destruct (invariant_delivered s I) as [H1 H2]. split; [done|]. split; [exact H1|]. apply I.
Qed.

(** C19. Nothing gets stuck: in every state the two connections can reach, as long as
    the sender's connection is up and of the messages handed over fewer have not
    been received yet than the receiver may queue, there is a continuation without further sending after
    which everything handed over has been received. *)
Theorem channel_delivers s0 s :
  initial s0 -> rtc step s0 s -> is_connected (state (conn (tx s))) = true ->
  zlen (handed s) - zlen (got s) < BUS_RQUEUE_MAX ->
  exists s', rtc step s s' /\ handed s' = handed s /\
    Forall2 (fun p r => arrived (pa_message p) (pa_values p) (pa_cookie p) r) (handed s) (got s').
Proof.
  intros H0 H Hs Hz. pose proof (reachable_invariant s0 s H0 H) as I.
  destruct (flush_all s I Hs) as (s1 & F1 & F2 & F3 & F4 & F5 & F6 & F7).
  pose proof (step_invariant _ _ F1 I) as I1.
  destruct (carry_all s1) as (s2 & C1 & C2 & C3 & C4 & C5). pose proof (step_invariant _ _ C1 I1) as I2.
  destruct (receive_all (length (handed s2)) s2 I2) as (s3 & R & E1 & E2).
  - rewrite C2, C3, length_drop. pose proof (iv_carried _ I1). lia.
  - by rewrite C3.
  - by rewrite C4, C5, F3, F4.
  - lia.
  - exists s3. split; [eapply rtc_l; [exact F1|]; by eapply rtc_l|]. split; [by rewrite E1, C4, F3|].
    assert (I3 : invariant s3).
    { clear -R I2. induction R as [|x y z H1 _ IH]; [done|]. apply IH. by eapply step_invariant. }
    destruct (invariant_delivered s3 I3) as [D _]. rewrite E2, E1, C4, F3 in D.
    by rewrite (take_ge (handed s)) in D.
Qed.

End Channel.

(** ** A signal at a concrete pair of connections

    The socket first takes 30 bytes of it, and then the rest. *)
Definition running : world :=
  World (set_state BUS_RUNNING sd_bus_new)
    (Kernel [] [] [] [] [] 1000 [] 1000 (fun _ => true) None None [] []).

Definition sample_start : system := System running running 0 [] [].

(** [bus_ensure_running] on a running connection. *)
Definition already : stm world unit := mret tt.
Definition same_fd (fd : Z) : res Z := Ok fd.

Definition signal_with_values : message := Eval vm_compute in snd (append_values sample_values sample_signal).

Definition sample_send := sd_bus_send already same_fd true (with_sends [Ok 30] running, signal_with_values).
Definition sent_world : world := Eval vm_compute in fst (snd sample_send).
Definition sent_message : message := Eval vm_compute in snd (snd sample_send).

Definition after_send : system :=
  System sent_world running 0
    [Parcel sample_signal sample_values 1 (bus_message_get_blob sent_message)] [].

Lemma sample_initial : initial sample_start.
Proof. by repeat constructor; vm_compute. Qed.

Lemma sample_sealable : sealable signal_with_values.
Proof. constructor; by vm_compute. Qed.

Lemma sample_send_step : step already same_fd sample_start after_send.
Proof.
  assert (E : sd_bus_send already same_fd true (with_sends [Ok 30] running, snd (append_values sample_values sample_signal))
              = (Ok 1, (sent_world, sent_message))) by (by vm_compute).
  refine (step_send already same_fd sample_fields sample_signal sample_values true [Ok 30] (Ok 1) sent_world sent_message sample_start
    sample_sendable sample_values_ok _ _ E _ _ _); by vm_compute.
Qed.

(** The rest of the output, in two pieces; all bytes carried; two reads, the first
    for the fixed header, the second for the rest. *)
Definition flushed_world : world := Eval vm_compute in snd (dispatch_wqueue (with_sends [Ok 7; Ok 100000] sent_world)).
Definition after_flush : system := System flushed_world running 0 (handed after_send) [].

Definition sample_bytes : list Z := Eval vm_compute in sent (kern flushed_world).
Definition carried_world : world := with_inbound sample_bytes running.
Definition after_carry : system :=
  System flushed_world carried_world (length sample_bytes) (handed after_send) [].

Definition sample_answers : list recv_answer := [Recv 100000 []; Recv 100000 []].
Definition sample_receive := dispatch_rqueue (with_recvs sample_answers carried_world).
Definition sample_received : message :=
  Eval vm_compute in match fst sample_receive with Ok (_, Some m) => m | _ => no_message end.
Definition received_world : world := Eval vm_compute in snd sample_receive.
Definition after_receive : system :=
  System flushed_world received_world (length sample_bytes) (handed after_send) [sample_received].

Lemma sample_flush_step : step already same_fd after_send after_flush.
Proof.
  assert (R : dispatch_wqueue (with_sends [Ok 7; Ok 100000] (tx after_send)) = (Ok true, flushed_world)) by (by vm_compute).
  exact (step_flush already same_fd _ _ _ after_send eq_refl R).
Qed.

Lemma sample_carry_step : step already same_fd after_flush after_carry.
Proof.
  assert (E : take 200 (drop 0 (sent (kern flushed_world))) = sample_bytes) by (by vm_compute).
  pose proof (step_carry already same_fd 200 after_flush) as Hs. cbv zeta in Hs.
  cbn [tx rx carried handed got after_flush] in Hs. rewrite E in Hs. exact Hs.
Qed.

Lemma sample_receive_step : step already same_fd after_carry after_receive.
Proof.
  assert (R : dispatch_rqueue (with_recvs sample_answers (rx after_carry)) =
    (Ok (true, Some sample_received), received_world)) by (by vm_compute).
  assert (N : no_fds sample_answers) by done.
  exact (step_receive already same_fd sample_answers _ _ after_carry N R).
Qed.

Lemma sample_steps : rtc (step already same_fd) sample_start after_receive.
Proof.
  apply rtc_l with after_send; [exact sample_send_step|]. apply rtc_l with after_flush; [exact sample_flush_step|].
  apply rtc_l with after_carry; [exact sample_carry_step|]. apply rtc_once. exact sample_receive_step.
Qed.

Lemma channel_fifo_witness : arrived sample_signal sample_values 1 sample_received.
Proof.
  destruct (channel_fifo already same_fd sample_start after_receive sample_initial sample_steps) as (_ & H & _).
  cbn [got handed after_receive after_send length take] in H. by inversion_clear H.
Defined.

(** A state in which the signal waits in the sender's queue. *)
Lemma channel_delivers_witness :
  exists s', rtc (step already same_fd) after_send s' /\ length (got s') = 1%nat.
Proof.
  destruct (channel_delivers already same_fd sample_start after_send sample_initial
              (rtc_once _ _ sample_send_step) ltac:(by vm_compute) ltac:(by vm_compute)) as (s' & R & Hh & H).
  exists s'. split; [exact R|]. by apply Forall2_length in H.
Defined.

Lemma sample_queue_ok : queue_ok (conn sent_world).
Proof.
  constructor.
  - assert (E : wqueue (conn sent_world) = [sent_message]) by (by vm_compute). rewrite E.
    constructor; [|constructor]. constructor; [by vm_compute| |by vm_compute|by vm_compute].
    assert (P : parts sent_message = [Part (body sent_message) false false]) by (by vm_compute). rewrite P.
    constructor; [by vm_compute|constructor].
  - by vm_compute.
  - intros m q E. assert (E2 : wqueue (conn sent_world) = [sent_message]) by (by vm_compute). rewrite E2 in E.
    injection E as <- <-. by vm_compute.
Qed.

Lemma dispatch_wqueue_stream_witness :
  sent (kern flushed_world) ++ pending (conn flushed_world) =
  sent (kern sent_world) ++ pending (conn sent_world) /\ pending (conn flushed_world) = [].
Proof.
  destruct (dispatch_wqueue_stream (with_sends [Ok 7; Ok 100000] sent_world) (Ok true) flushed_world
    sample_queue_ok ltac:(by vm_compute) ltac:(apply (bool_decide_unpack _); vm_compute; exact I) ltac:(by vm_compute))
    as (_ & H & _).
  split; [exact H|by vm_compute].
Defined.

Lemma sd_bus_send_in_order_witness :
  sent (kern sent_world) ++ pending (conn sent_world) = bus_message_get_blob sent_message /\
  length (sent (kern sent_world)) = 30%nat /\ h_serial (hdr sent_message) = 1.
Proof.
  destruct (sd_bus_send_in_order already same_fd true (with_sends [Ok 30] running) signal_with_values
    (Ok 1) sent_world sent_message sample_sealable) as (_ & H1 & _ & _ & _ & _ & _ & H2).
  - constructor; [by vm_compute|by right; vm_compute|by left; vm_compute].
  - split; by vm_compute.
  - by vm_compute.
  - constructor; [by vm_compute|by vm_compute|]. intros m q E. by vm_compute in E.
  - by vm_compute.
  - split; [exact H2|]. split; [by vm_compute|exact H1].
Defined.

Lemma dispatch_rqueue_frames_witness :
  exists items, inbound (kern carried_world) = concat (map it_bytes items) /\
    map it_message items = [sample_received].
Proof.
  destruct (dispatch_rqueue_frames (with_recvs sample_answers carried_world) (Ok (true, Some sample_received))
    (received_world)) as ((t & items & H1 & H2 & H3 & _) & _).
  - by vm_compute.
  - constructor.
  - apply bytes_check. by vm_compute.
  - by vm_compute.
  - exists items.
    assert (E1 : inbound (kern (received_world)) = []) by (by vm_compute).
    assert (E2 : rbuffer (conn (received_world)) = []) by (by vm_compute).
    assert (E3 : rqueue (conn (received_world)) = []) by (by vm_compute).
    rewrite E1 in H1. rewrite E2 in H2. rewrite E3 in H3.
    split; [|exact H3]. change (inbound (kern (with_recvs _ carried_world))) with (inbound (kern carried_world)) in H1.
    rewrite app_nil_r in H1, H2. rewrite H1. exact H2.
Defined.
