(* ===== verification/Blocking.v ===== *)
(** * Calls that wait ([src/libsystemd/sd-bus/sd-bus.c])

    What to wait for and how long ([sd_bus_get_events], [sd_bus_get_timeout],
    [bus_poll]), waiting until the connection runs, until everything is written
    and, in [sd_bus_call], until a reply is there. *)
From S2P Require Import Prelude BusType Names BusError MsgState MsgWrite MsgFields MsgRead MsgCopy Prioq Bus Sasl Transport Call Dispatch.

Definition POLLIN : Z := 1.
Definition POLLOUT : Z := 4.

(** ** What to wait for *)
Definition sd_bus_get_events : stm world Z :=
  b ← bget;
  match state b with
  | BUS_UNSET | BUS_CLOSED => sfail ENOTCONN
  | BUS_OPENING => mret POLLOUT
  | BUS_AUTHENTICATING => mret (Z.lor (if bus_socket_auth_needs_write b then POLLOUT else 0) POLLIN)
  | BUS_RUNNING | BUS_HELLO =>
      mret (Z.lor (if bool_decide (rqueue b = []) then POLLIN else 0)
                  (if bool_decide (wqueue b = []) then 0 else POLLOUT))
  | BUS_CLOSING => mret 0
  end.

(** [None] is no timeout, [(uint64_t) -1]. *)
Definition sd_bus_get_timeout : stm world (option Z) :=
  b ← bget;
  sreq (BUS_IS_OPEN (state b) || bool_decide (state b = BUS_CLOSING)) ENOTCONN;;
  match state b with
  | BUS_AUTHENTICATING => mret (Some (auth_timeout b))
  | BUS_RUNNING | BUS_HELLO =>
      if negb (bool_decide (rqueue b = [])) then mret (Some 0)
      else match prioq_peek (reply_callbacks_prioq b) with
           | None => mret None
           | Some i =>
               let t := timeout_usec (reply_of (slots b) i) in
               if t =? 0 then mret None else mret (Some t)
           end
  | BUS_CLOSING => mret (Some 0)
  | BUS_OPENING => mret None
  | _ => sfail EASSERT
  end.

(** [usec_sub_unsigned], of [USEC_INFINITY] too *)
Definition usec_sub_unsigned (timestamp delta : Z) : Z :=
  if timestamp =? usec_infinity then usec_infinity
  else if timestamp <? delta then 0 else timestamp - delta.

(** [ppoll] on descriptors with the events of each, until a time: the request is
    noted. What the kernel answers, and when, is an input; nothing is assumed of
    it, so what is proved holds also if it answers something else than it was
    asked. There are finitely many answers, and after them it is interrupted. *)
Definition ppoll_for (p : list (Z * Z)) (timeout : option Z) : stm world bool :=
  note (Polled p timeout);; ppoll.

Definition bus_poll (need_more : bool) (timeout_usec : Z) : stm world bool :=
  b ← bget;
  if bool_decide (state b = BUS_CLOSING) then mret true
  else
    sreq (BUS_IS_OPEN (state b)) ENOTCONN;;
    e ← sd_bus_get_events;
    '(e, m) ←
      (if need_more then mret (Z.lor e POLLIN, usec_infinity)
       else
         until ← sd_bus_get_timeout;
         match until with
         | Some u => n ← now; mret (e, usec_sub_unsigned u n)
         | None => mret (e, usec_infinity)
         end);
    let p := if output_fd b =? input_fd b then [(input_fd b, e)]
             else [(input_fd b, Z.land e POLLIN); (output_fd b, Z.land e POLLOUT)] in
    let m := if negb (timeout_usec =? SIZE_MAX) && ((m =? usec_infinity) || (timeout_usec <? m))
             then timeout_usec else m in
    ppoll_for p (if m =? usec_infinity then None else Some m).

Definition sd_bus_wait (timeout_usec : Z) : stm world bool :=
  b ← bget;
  if bool_decide (state b = BUS_CLOSING) then mret false
  else
    sreq (BUS_IS_OPEN (state b)) ENOTCONN;;
    if negb (bool_decide (rqueue b = [])) then mret false
    else bus_poll false timeout_usec.

(** The end of the connection, noticed while something was to be read or written,
    is reported as a reset. *)
Definition reset_when_lost {A} (f : stm world A) : stm world A :=
  r ← attempt f;
  match r with
  | Ok a => mret a
  | Err e => if is_disconnect e then on_bus bus_enter_closing;; sfail ECONNRESET else sfail e
  end.

Section Blocking.
Context (process : stm world (Z * option message)) (dup_fd : Z -> res Z).

(** ** Waiting for the connection to run

    [process] is [sd_bus_process(bus, NULL)]. The loop has no bound of its own:
    the other side can keep it busy. *)
Fixpoint ensure_running_loop (rounds : nat) : stm world unit :=
  match rounds with
  | O => sfail EASSERT
  | S rounds =>
      '(r, _) ← process;
      b ← bget;
      if bool_decide (state b = BUS_RUNNING) then mret tt
      else if 0 <? r then ensure_running_loop rounds
      else sd_bus_wait SIZE_MAX;; ensure_running_loop rounds
  end.

Definition bus_ensure_running (rounds : nat) : stm world unit :=
  b ← bget;
  match state b with
  | BUS_UNSET | BUS_CLOSED | BUS_CLOSING => sfail ENOTCONN
  | BUS_RUNNING => mret tt
  | _ => ensure_running_loop rounds
  end.

(** ** Waiting for the output

    Each round uses up an answer of the kernel, to a write or to [ppoll]. *)
Fixpoint flush_loop (fuel : nat) : stm world unit :=
  match fuel with
  | O => sfail EASSERT
  | S fuel =>
      reset_when_lost dispatch_wqueue;;
      b ← bget;
      if bool_decide (wqueue b = []) then mret tt
      else bus_poll false SIZE_MAX;; flush_loop fuel
  end.

Definition sd_bus_flush (rounds : nat) : stm world unit :=
  b ← bget;
  if bool_decide (state b = BUS_CLOSING) then mret tt
  else
    sreq (BUS_IS_OPEN (state b)) ENOTCONN;;
    bus_ensure_running rounds;;
    b ← bget;
    if bool_decide (wqueue b = []) then mret tt
    else k ← kget; flush_loop (S (length (polls k))).

(** ** Waiting for a reply *)

(** Whether a message ends the call with the given cookie: a reply, or the call
    itself, which came back: [name] is the [unique_name] of the connection. *)
Definition replies (ck : Z) (m : message) : bool := reply_cookie m =? ck.
Definition comes_back (name : option cstr) (ck : Z) (m : message) : bool :=
  (BUS_MESSAGE_COOKIE m =? ck) &&
  match name, sender m with Some u, Some s => streq u s | _, _ => false end.

(** From index [i] on, the messages [l] of the queue *)
Fixpoint scan_rqueue (name : option cstr) (ck : Z) (i : nat) (l : list message) : nat * option message :=
  match l with
  | [] => (i, None)
  | incoming :: l =>
      if replies ck incoming || comes_back name ck incoming then (i, Some incoming)
      else scan_rqueue name ck (S i) l
  end.

(** What [sd_bus_call] returns: the reply for 1, nothing for 0, or an error
    number; and what is in [error] then. *)
Definition call_result : Type := res (option message) * option sd_bus_error.

(** [m->error], which parsing set; its text is the string the body begins with, if
    it begins with one. *)
Definition error_of (m : message) : sd_bus_error :=
  let text := match (sd_bus_message_read_basic SD_BUS_TYPE_STRING (sd_bus_message_rewind true m).2).1 with
              | Ok (Some (BStr s)) => Some s
              | _ => None
              end in
  BusError (error_name m) text (-1).

Definition no_reply (r : res unit * option sd_bus_error) : call_result :=
  (match r.1 with Ok _ => Ok None | Err e => Err e end, r.2).

Context `{ErrnoTable} (maps : list sd_bus_error_map).

Definition call_answer (b : connection) (ck : Z) (incoming : message) (error : option sd_bus_error) : call_result :=
  if replies ck incoming then
    if h_type (hdr incoming) =? SD_BUS_MESSAGE_METHOD_RETURN then
      if (zlen (fds incoming) <=? 0) || accept_fd b then (Ok (Some incoming), error)
      else no_reply (sd_bus_error_setf maps error (Some SD_BUS_ERROR_INCONSISTENT_MESSAGE)
             (Some (bs "Reply message contained file descriptors which I couldn't accept. Sorry.")))
    else if h_type (hdr incoming) =? SD_BUS_MESSAGE_METHOD_ERROR then
      no_reply (sd_bus_error_copy maps error (Some (error_of incoming)))
    else no_reply (sd_bus_error_set_errno error (Some EIO))
  else no_reply (sd_bus_error_set_errno error (Some ELOOP)).

(** Waiting for more, or for room to write; [timeout] is a point in time, or 0. *)
Definition call_wait (timeout : Z) : stm world unit :=
  left ← (if 0 <? timeout then
            n ← now;
            sreq (n <? timeout) ETIMEDOUT;;
            mret (timeout - n)
          else mret SIZE_MAX);
  r ← bus_poll true left;
  if r : bool then reset_when_lost dispatch_wqueue;; mret tt else mret tt.

(** The loop: look at what has come since index [i], else read, else wait. Every
    round uses up an answer of the kernel, or what was left in the buffer. *)
Fixpoint call_loop (fuel : nat) (ck timeout : Z) (error : option sd_bus_error) (i : nat) : stm world call_result :=
  match fuel with
  | O => sfail EASSERT
  | S fuel =>
      b ← bget;
      match scan_rqueue (unique_name (bus b)) ck i (drop i (rqueue b)) with
      | (j, Some incoming) =>
          bmod (set_rqueue (delete j (rqueue b)));;
          mret (call_answer b ck incoming error)
      | (i, None) =>
          r ← reset_when_lost bus_read_message;
          (if r : bool then mret tt else call_wait timeout);;
          call_loop fuel ck timeout error i
      end
  end.

Definition call_fuel (k : kernel) : nat := (length (recvs k) + length (polls k) + 3)%nat.

(** Sending the call and waiting; a failure goes to [fail]. *)
Definition send_and_wait (rounds : nat) (m : message) (usec : Z) (error : option sd_bus_error) : stm world call_result :=
  b ← bget;
  sreq (BUS_IS_OPEN (state b)) ENOTCONN;;
  bus_ensure_running rounds;;
  b ← bget;
  let i := length (rqueue b) in
  '(_, m) ← with_message (bus_seal_message usec) m;
  m ← bus_remarshal_message dup_fd m;
  '(ck, m) ← with_message (sd_bus_send (bus_ensure_running rounds) dup_fd true) m;
  timeout ← calc_elapse (timeout m);
  k ← kget;
  call_loop (call_fuel k) ck timeout error i.

Definition sd_bus_call (rounds : nat) (m : message) (usec : Z) (error : option sd_bus_error) : stm world call_result :=
  let invalid := mret (no_reply (sd_bus_error_set_errno error (Some EINVAL))) in
  if negb (h_type (hdr m) =? SD_BUS_MESSAGE_METHOD_CALL) then invalid
  else if has_flag BUS_MESSAGE_NO_REPLY_EXPECTED m then invalid
  else if bus_error_is_dirty error then invalid
  else
    r ← attempt (send_and_wait rounds m usec error);
    mret (match r with
          | Ok r => r
          | Err e => no_reply (sd_bus_error_set_errno error (Some e))
          end).

End Blocking.

(** ** Waiting in a callback

    While a message is being processed [sd_bus_process] refuses to run, so
    [bus_ensure_running] does what [Dispatch] says of it. *)
Lemma ensure_running_busy (process : stm world (Z * option message)) rounds w :
  is_Some (current_message (conn w)) ->
  (forall w, is_Some (current_message (conn w)) -> process w = (Err EBUSY, w)) ->
  bus_ensure_running process (S rounds) w = busy_ensure_running w.
Proof.
  intros Hc Hp. unfold bus_ensure_running, busy_ensure_running. rewrite !(stm_bind_run bget _ w _ _ eq_refl).
  destruct (state (conn w)); try done; cbn [ensure_running_loop]; rewrite stm_bind_eq, Hp by done; done.
Qed.
