(* ===== verification/CallWait.v ===== *)
(** * Waiting for a reply

    [sd_bus_call] sends a call and gives the caller the first of the messages that
    come in then that answers it; the others stay in the read queue, in order. *)
From S2P Require Import Prelude BusType Names BusError MsgState MsgFields MsgBody Marshal MsgRoundtrip MsgParse MsgSafety MsgCopy MsgExamples Prioq Bus Sasl Transport Call Dispatch CallExamples TransportWrite TransportSend TransportRead Blocking.

(** ** What an operation leaves alone

    [along R f]: from the world before [f] to the one after it is a step of [R]. *)
Definition along {A} (R : world -> world -> Prop) (f : stm world A) : Prop :=
  forall w r w', f w = (r, w') -> R w w'.

Section Along.
Context (R : world -> world -> Prop) `{!PreOrder R}.

Lemma along_bind {A B} (f : stm world A) (g : A -> stm world B) :
  along R f -> (forall a, along R (g a)) -> along R (f ≫= g).
Proof.
  intros Hf Hg w r w'. rewrite stm_bind_eq. destruct (f w) as [[a|e] w1] eqn:E.
  - intros H. etrans; [by eapply Hf|by eapply Hg].
  - intros [= <- <-]. by eapply Hf.
Qed.
Lemma along_ret {A} (a : A) : along R (mret a).
Proof. by intros w r w' [= <- <-]. Qed.
Lemma along_fail {A} e : along R (sfail e : stm world A).
Proof. by intros w r w' [= <- <-]. Qed.
Lemma along_lift {A} (x : res A) : along R (slift x).
Proof. by intros w r w' [= <- <-]. Qed.
Lemma along_req b e : along R (sreq b e).
Proof. by intros w r w' [= <- <-]. Qed.
Lemma along_bget : along R bget.
Proof. by intros w r w' [= <- <-]. Qed.
Lemma along_kget : along R kget.
Proof. by intros w r w' [= <- <-]. Qed.
Lemma along_mod f : (forall w, R w (World (f (conn w)) (kern w))) -> along R (bmod f).
Proof. intros H w r w' [= <- <-]. apply H. Qed.
Lemma along_unless_again {A} (f : stm world A) : along R f -> along R (unless_again f).
Proof.
  intros H w r w'. unfold unless_again. destruct (f w) as [[a|e] w1] eqn:E; [|destruct e];
    intros [= <- <-]; by eapply H.
Qed.
End Along.

Ltac along :=
  repeat match goal with
  | |- along _ (_ ≫= _) => apply along_bind; [exact _| |]
  | |- along _ (mret _) => apply along_ret, _
  | |- along _ (sfail _) => apply along_fail, _
  | |- along _ (slift _) => apply along_lift, _
  | |- along _ (sreq _ _) => apply along_req, _
  | |- along _ bget => apply along_bget, _
  | |- along _ kget => apply along_kget, _
  | |- along _ (bmod _) => apply along_mod; solve [intros [[] []]; done || (split_and!; try done; by exists [])]
  | |- along _ (unless_again _) => apply along_unless_again
  | |- forall _, _ => intros ?
  | |- along _ (let '(_, _) := ?x in _) => destruct x
  | |- along _ (match ?x with _ => _ end) => destruct x
  | H : context [along] |- along _ _ => apply H
  | |- _ => solve [auto with along]
  end.

Create HintDb along discriminated.

(** The clock and what [ppoll] will answer stay as they are. *)
Definition same_time (w w' : world) : Prop :=
  polls (kern w') = polls (kern w) /\ clock (kern w') = clock (kern w) /\ ticks (kern w') = ticks (kern w).

(** So does what was received; the answers to writing are used up in order. *)
Definition same_input (w w' : world) : Prop :=
  same_time w w' /\ (exists l, sends (kern w) = l ++ sends (kern w')) /\ recvs (kern w') = recvs (kern w) /\ inbound (kern w') = inbound (kern w) /\
  rqueue (conn w') = rqueue (conn w) /\ rbuffer (conn w') = rbuffer (conn w) /\
  accept_fd (conn w') = accept_fd (conn w) /\ unique_name (bus (conn w')) = unique_name (bus (conn w)).

#[export] Instance same_time_preorder : PreOrder same_time.
Proof. split; [by intros w; split_and!|]. intros w1 w2 w3 (A1 & A2 & A3) (B1 & B2 & B3). split_and!; congruence. Qed.
#[export] Instance same_input_preorder : PreOrder same_input.
Proof.
  split; [by intros w; split_and!; try done; exists []|].
  intros w1 w2 w3 (H & [l Hl] & A1 & A2 & A3 & A4 & A5 & A6) (H' & [k Hk] & B1 & B2 & B3 & B4 & B5 & B6).
  split; [by etrans|]. split; [exists (l ++ k); by rewrite Hl, Hk, app_assoc|]. split_and!; congruence.
Qed.

Lemma sendmsg_input d f : along same_input (sendmsg d f).
Proof.
  intros w r w'. unfold sendmsg. destruct (sends (kern w)) as [|[n|e] l] eqn:E; intros [= <- <-]; cbn; split_and!; try done; rewrite E.
  - by exists [].
  - by exists [Ok n].
  - by exists [Err e].
Qed.
Lemma recvmsg_time n : along same_time (recvmsg n).
Proof. intros w r w'. unfold recvmsg. destruct (recvs (kern w)) as [|[e|k c] l]; by intros [= <- <-]. Qed.
Lemma enter_closing_input : along same_input (on_bus bus_enter_closing).
Proof.
  intros [b k] r w'. unfold on_bus, bus_enter_closing, mbind, stm_bind, sget. cbn [conn kern].
  destruct (BUS_IS_OPEN (state b)); intros [= <- <-]; split_and!; try done; by exists [].
Qed.
#[export] Hint Resolve sendmsg_input recvmsg_time enter_closing_input : along.

Lemma write_message_input m i : along same_input (bus_write_message m i).
Proof. unfold bus_write_message, bus_socket_write_message. along. Qed.
#[export] Hint Resolve write_message_input : along.

Lemma send_message_input m : along same_input (send_message m).
Proof.
  unfold send_message. along. intros w r w'. unfold send_now.
  destruct (bus_write_message m 0 w) as [[o|e] w1] eqn:E; apply write_message_input in E; intros Hr; (etrans; [exact E|]).
  - case_match; injection Hr as <- <-; split_and!; try done; by exists [].
  - destruct (is_disconnect e); [|by injection Hr as <- <-].
    assert (along same_input ((on_bus bus_enter_closing;; sfail ECONNRESET) : stm world unit)) as Ha by along.
    by eapply Ha.
Qed.

Lemma dispatch_wqueue_input : along same_input dispatch_wqueue.
Proof.
  assert (forall fuel ret, along same_input (wqueue_loop fuel ret)) as Hl.
  { induction fuel as [|fuel IH]; intros ret; cbn [wqueue_loop]; along. }
  unfold dispatch_wqueue. along.
Qed.

Lemma read_message_time : along same_time bus_read_message.
Proof.
  assert (along same_time bus_socket_read_message_need) as H1 by (unfold bus_socket_read_message_need; along).
  assert (forall n, along same_time (bus_socket_make_message n)) as H2.
  { intros n. unfold bus_socket_make_message. along. intros w r w'. unfold on_bus.
    destruct (bus_rqueue_make_room (conn w)) as [r1 b]. by intros [= <- <-]. }
  assert (forall fuel made, along same_time (make_loop fuel made)) as Hl.
  { induction fuel as [|fuel IH]; intros made; cbn [make_loop]; along. }
  assert (forall l, along same_time (read_control l)) as Hc by (induction l; cbn [read_control]; along).
  unfold bus_read_message, bus_socket_read_message, make_messages. along.
Qed.
#[export] Hint Resolve send_message_input dispatch_wqueue_input read_message_time : along.

(** ** Scanning the queue *)
Lemma delete_middle {A} (a c : list A) x : delete (length a) (a ++ x :: c) = a ++ c.
Proof. induction a as [|y a IH]; [done|]. cbn. by rewrite <- IH. Qed.

Definition decides (name : option cstr) (ck : Z) (m : message) : Prop := replies ck m || comes_back name ck m = true.
Definition ignored (name : option cstr) (ck : Z) (m : message) : Prop := replies ck m || comes_back name ck m = false.

Lemma scan_rqueue_run name ck l : forall i,
  match scan_rqueue name ck i l with
  | (j, Some x) => exists a c, l = a ++ x :: c /\ j = (i + length a)%nat /\ Forall (ignored name ck) a /\ decides name ck x
  | (j, None) => j = (i + length l)%nat /\ Forall (ignored name ck) l
  end.
Proof.
  induction l as [|m l IH]; intros i; cbn [scan_rqueue]; [split; [simpl; lia|constructor]|].
  destruct (replies ck m || comes_back name ck m) eqn:E; [by exists [], l; split_and!; [|simpl; lia|..]|].
  specialize (IH (S i)). destruct (scan_rqueue name ck (S i) l) as [j [x|]].
  - destruct IH as (a & c & -> & -> & H1 & H2). exists (m :: a), c. split_and!; [done|simpl; lia|by constructor|done].
  - destruct IH as [-> H]. split; [simpl; lia|by constructor].
Qed.

(** ** What happens while one waits

    [items] came in, and went to the end of the queue; output that waited may have
    gone out, in order. *)
Record waited (items : list item) (w w' : world) : Prop := Waited {
  wa_input : exists taken, inbound (kern w) = taken ++ inbound (kern w') /\
    rbuffer (conn w) ++ taken = concat (map it_bytes items) ++ rbuffer (conn w');
  wa_rqueue : rqueue (conn w') = rqueue (conn w) ++ map it_message items;
  wa_framed : Forall framed items;
  wa_queue : queue_ok (conn w');
  wa_out : out_bytes w' = out_bytes w;
  wa_state : state (conn w') = state (conn w);
  wa_name : unique_name (bus (conn w')) = unique_name (bus (conn w)) /\ accept_fd (conn w') = accept_fd (conn w);
  wa_recvs : exists l, recvs (kern w) = l ++ recvs (kern w');
  wa_sends : exists l, sends (kern w) = l ++ sends (kern w');
  wa_polls : exists l, polls (kern w) = l ++ polls (kern w') }.

Lemma waited_refl w : queue_ok (conn w) -> waited [] w w.
Proof. intros Q. constructor; try done; [exists []; by rewrite app_nil_r|by rewrite app_nil_r|by exists []..]. Qed.

Lemma waited_trans i1 i2 w1 w2 w3 : waited i1 w1 w2 -> waited i2 w2 w3 -> waited (i1 ++ i2) w1 w3.
Proof.
  intros [(t1 & A1 & A2) A3 A4 A5 A6 A7 [A8 A8'] [l1 A9] [l2 A10] [l3 A11]].
  intros [(t2 & B1 & B2) B3 B4 B5 B6 B7 [B8 B8'] [k1 B9] [k2 B10] [k3 B11]].
  constructor; rewrite ?map_app, ?concat_app; try congruence.
  - exists (t1 ++ t2). split; [by rewrite A1, B1, app_assoc|]. by rewrite app_assoc, A2, <- app_assoc, B2, app_assoc.
  - by rewrite B3, A3, app_assoc.
  - by apply Forall_app.
  - split; congruence.
  - exists (l1 ++ k1). by rewrite A9, B9, app_assoc.
  - exists (l2 ++ k2). by rewrite A10, B10, app_assoc.
  - exists (l3 ++ k3). by rewrite A11, B11, app_assoc.
Qed.

Lemma waited_bytes items w w' : waited items w w' -> rx_bytes w -> rx_bytes w'.
Proof.
  intros [(t & A1 & A2) _ _ _ _ _ _ _ _ _] [H1 H2]. rewrite A1 in H2. apply Forall_app in H2 as [H2 H3]. split; [|done].
  assert (H : Forall is_byte (rbuffer (conn w) ++ t)) by (by apply Forall_app). rewrite A2 in H. by apply Forall_app in H as [].
Qed.

(** Reading, waiting and writing are such times. *)
Lemma waited_read w r w' :
  is_connected (state (conn w)) = true -> rx_bytes w -> queue_ok (conn w) ->
  bus_read_message w = (r, w') -> exists items, waited items w w'.
Proof.
  intros Hs Hb Q H. pose proof (read_message_time w r w' H) as (Hp & _).
  apply read_message_receives in H as [[(t & items & A1 & A2 & A3 & A4 & l & n & A5 & _) A6 (A7 & A8 & A9)] _]; [|done|done].
  exists items. cbn [app] in A3. constructor.
  - by exists t.
  - done.
  - done.
  - rewrite A6. by destruct Q; constructor.
  - unfold out_bytes, pending. by rewrite A6, A8.
  - by rewrite A6.
  - by rewrite A6.
  - by exists l.
  - exists []. by rewrite A7.
  - exists []. by rewrite Hp.
Qed.

Lemma waited_write w r w' :
  is_connected (state (conn w)) = true -> queue_ok (conn w) -> dispatch_wqueue w = (r, w') -> waited [] w w'.
Proof.
  intros Hs Q H. pose proof (dispatch_wqueue_input w r w' H) as ((Hp & _) & _ & H1 & H2 & H3 & H4 & H5 & H6).
  apply dispatch_wqueue_flushes in H as (F & _); [|done|done]. constructor; try done.
  - exists []. cbn. rewrite H2, H4, app_nil_r. done.
  - by rewrite H3, app_nil_r.
  - apply F.
  - apply F.
  - by rewrite (fl_conn _ _ F).
  - exists []. by rewrite H1.
  - apply F.
  - exists []. by rewrite Hp.
Qed.

Lemma waited_kernel w k :
  queue_ok (conn w) -> inbound k = inbound (kern w) -> sent k = sent (kern w) -> recvs k = recvs (kern w) ->
  sends k = sends (kern w) -> (exists l, polls (kern w) = l ++ polls k) -> waited [] w (World (conn w) k).
Proof.
  intros Q H1 H2 H3 H4 H5. constructor; cbn [conn kern]; try done.
  - exists []. by rewrite H1, app_nil_r.
  - by rewrite app_nil_r.
  - unfold out_bytes. cbn [conn kern]. by rewrite H2.
  - exists []. by rewrite H3.
  - exists []. by rewrite H4.
Qed.

(** ** The end of the loop *)

(** No whole message is left in the buffer. *)
Definition drained (w : world) : Prop :=
  exists n, needed (rbuffer (conn w)) = Ok n /\ zlen (rbuffer (conn w)) < n.

Lemma drained_silent w w' :
  drained w -> TransportRead.receives [] w w' -> kern w' = kern w ->
  ~ (length (rbuffer (conn w')) < length (rbuffer (conn w)))%nat.
Proof.
  intros (n & Hn & Hl) [(t & items & H1 & H2 & _ & H4 & _) _ _] Hk Hlt. rewrite Hk in H1.
  assert (t = []) as -> by (apply (f_equal length) in H1; rewrite length_app in H1; destruct t; [done|simpl in H1; lia]).
  rewrite app_nil_r in H2. destruct items as [|i items]; cbn [map concat app] in H2; [rewrite H2 in Hlt; lia|].
  inversion_clear H4 as [|?? (F1 & F2 & _) _]. rewrite <- app_assoc in H2.
  set (rest := concat (map it_bytes items) ++ rbuffer (conn w')) in H2. pose proof (zlen_nonneg rest).
  rewrite H2, zlen_app in Hl. unfold needed, BUS_HEADER_SIZE in Hn. rewrite H2, zlen_app in Hn.
  rewrite (proj2 (Z.ltb_ge _ _)), announced_prefix, F2 in Hn by lia. injection Hn as <-. lia.
Qed.

(** How many more rounds the loop can take *)
Definition rounds_left (w : world) : nat := (length (recvs (kern w)) + length (polls (kern w)))%nat.

Lemma read_progress w r w' :
  is_connected (state (conn w)) = true -> rx_bytes w -> bus_read_message w = (Ok r, w') ->
  drained w' /\ (rounds_left w' <= rounds_left w)%nat /\
  (r = true -> drained w -> rounds_left w' < rounds_left w)%nat.
Proof.
  intros Hs Hb H. pose proof (read_message_time w _ w' H) as (Hp & _). unfold rounds_left. rewrite Hp.
  apply read_message_receives in H as [R H]; [|done|done].
  destruct (receives_answers _ _ _ R) as [l Hl]. rewrite Hl, length_app.
  destruct r; destruct H as (_ & Hd & H); split_and!; try done; try lia. intros _ D.
  destruct H as [H|[H Hk]]; [rewrite Hl, length_app in H; lia|]. by destruct (drained_silent w w' D R Hk).
Qed.

Lemma write_progress w r w' :
  dispatch_wqueue w = (r, w') -> (drained w -> drained w') /\ rounds_left w' = rounds_left w.
Proof.
  intros H. apply dispatch_wqueue_input in H as ((H1 & _) & _ & H2 & H3 & H4 & H5 & _). unfold drained, rounds_left.
  by rewrite H1, H2, H5.
Qed.

(** Where the kernel fails, it does not fail an assertion of ours. *)
Definition answers_real (w : world) : Prop :=
  RecvErr EASSERT ∉ recvs (kern w) /\ Err EASSERT ∉ sends (kern w) /\ Err EASSERT ∉ polls (kern w).

Lemma answers_waited items w w' : waited items w w' -> answers_real w -> answers_real w'.
Proof.
  intros H (H1 & H2 & H3). destruct (wa_recvs _ _ _ H) as [l1 E1], (wa_sends _ _ _ H) as [l2 E2], (wa_polls _ _ _ H) as [l3 E3].
  rewrite E1 in H1. rewrite E2 in H2. rewrite E3 in H3.
  apply not_elem_of_app in H1 as [_ H1], H2 as [_ H2], H3 as [_ H3]. done.
Qed.

(** A message of version 2, whose parsing is not covered by [MsgSafety], is next in
    the buffer. *)
Definition gvariant_next (w : world) : Prop := char_at (rbuffer (conn w)) 3 = 2.

Lemma read_assertion P w w' :
  rx_bytes w' -> RecvErr EASSERT ∉ recvs (kern w) -> read_broken P w w' EASSERT -> gvariant_next w'.
Proof.
  intros [Hb _] Hr [[H|[(n & H1 & H2 & H3)|[H _]]]|[_ [[H _]|[[H _]|H]]]]; try done.
  - exfalso. revert H. unfold needed, announced_size. case_match; [done|].
    unfold require, mbind, res_bind. destruct (in_set _ _); [|done]. by destruct (_ <? BUS_MESSAGE_SIZE_MAX).
  - assert (16 <= n) as Hn.
    { unfold needed in H1. destruct (_ <? _); [injection H1 as <-; by unfold BUS_HEADER_SIZE|].
      apply announced_bounds in H1; [lia|done]. }
    destruct (decide (char_at (rbuffer (conn w')) 3 = 2)) as [|Hne]; [done|]. exfalso.
    pose proof (from_malloc_safe (take (Z.to_nat n) (rbuffer (conn w'))) (bus_fds (conn w'))) as Hsafe.
    rewrite H3 in Hsafe. apply Hsafe; [by apply Forall_take| |done].
    revert Hne. replace (Z.to_nat n) with (4 + (Z.to_nat n - 4))%nat by lia.
    by destruct (rbuffer (conn w')) as [|? [|? [|? [|? ?]]]].
Qed.

(** ** One round *)
Definition lost (e : errno) : errno := if is_disconnect e then ECONNRESET else e.
Definition closing (w : world) : world := World (set_state BUS_CLOSING (conn w)) (kern w).

Lemma reset_when_lost_run {A} (f : stm world A) w r w' :
  (forall e w1, f w = (Err e, w1) -> BUS_IS_OPEN (state (conn w1)) = true) ->
  reset_when_lost f w = (r, w') ->
  exists r0 w1, f w = (r0, w1) /\
  match r0 with
  | Ok a => r = Ok a /\ w' = w1
  | Err EASSERT => r = Err EASSERT /\ w' = w1
  | Err e => r = Err (lost e) /\ w' = if is_disconnect e then closing w1 else w1
  end.
Proof.
  intros Ho H. unfold reset_when_lost in H. rewrite stm_bind_eq in H. unfold attempt in H.
  destruct (f w) as [[a|e] w1]; [injection H as <- <-; by exists (Ok a), w1|].
  specialize (Ho e w1 eq_refl). exists (Err e), w1. split; [done|]. revert H. unfold lost.
  assert ((on_bus bus_enter_closing;; (sfail ECONNRESET : stm world A)) w1 = (Err ECONNRESET, closing w1)) as E.
  { unfold on_bus, bus_enter_closing, mbind, stm_bind, sget. by rewrite Ho. }
  destruct e; cbn [is_disconnect]; rewrite ?E; by intros [= <- <-].
Qed.

(** Why waiting fails *)
Inductive wait_failed (timeout : Z) (w w' : world) : errno -> Prop :=
  | failed_time : 0 < timeout <= clock (kern w') -> wait_failed timeout w w' ETIMEDOUT
  | failed_read e : read_broken True w w' e -> wait_failed timeout w w' (lost e)
  | failed_write e : Err e ∈ sends (kern w) -> wait_failed timeout w w' (lost e)
  | failed_poll e : Err e ∈ polls (kern w) \/ e = EINTR -> wait_failed timeout w w' e.

Lemma wait_failed_later timeout items w w1 w' e :
  waited items w w1 -> wait_failed timeout w1 w' e -> wait_failed timeout w w' e.
Proof.
  intros W [H|e0 H|e0 H|e0 H].
  - by apply failed_time.
  - apply failed_read. eapply read_broken_later; [apply (wa_recvs _ _ _ W)|done].
  - apply failed_write. destruct (wa_sends _ _ _ W) as [l ->]. apply elem_of_app. by right.
  - apply failed_poll. destruct H as [H|H]; [left|by right]. destruct (wa_polls _ _ _ W) as [l ->]. apply elem_of_app. by right.
Qed.

Lemma ppoll_run p u w r w' :
  ppoll_for p u w = (r, w') ->
  conn w' = conn w /\ inbound (kern w') = inbound (kern w) /\ sent (kern w') = sent (kern w) /\
  recvs (kern w') = recvs (kern w) /\ sends (kern w') = sends (kern w) /\
  (polls (kern w) = r :: polls (kern w') \/ r = Err EINTR /\ polls (kern w') = polls (kern w)).
Proof.
  unfold ppoll_for. rewrite stm_bind_eq. unfold note, ppoll. cbn [kern polls]. destruct (polls (kern w)) as [|x l] eqn:E; intros [= <- <-]; cbn; rewrite ?E; split_and!; try done; by auto.
Qed.

Lemma bus_poll_more w t r w' :
  is_connected (state (conn w)) = true -> bus_poll true t w = (r, w') -> exists p u, ppoll_for p u w = (r, w').
Proof.
  intros Hs. unfold bus_poll. rewrite (stm_bind_run bget _ w _ _ eq_refl).
  rewrite bool_decide_eq_false_2 by (by destruct (state (conn w))).
  rewrite (stm_bind_run _ _ w tt w) by (by destruct (state (conn w))).
  assert (exists e, sd_bus_get_events w = (Ok e, w)) as [e He].
  { unfold sd_bus_get_events. rewrite (stm_bind_run bget _ w _ _ eq_refl). destruct (state (conn w)); try done; by eexists. }
  rewrite (stm_bind_run _ _ _ _ _ He). intros H. do 2 eexists. exact H.
Qed.

(** What the end of one step of waiting is *)
Definition wait_step (timeout : Z) (w w' : world) (r : res unit) : Prop :=
  exists w1, waited [] w w1 /\
  match r with
  | Ok _ => w' = w1 /\ (drained w -> drained w1) /\ (rounds_left w1 < rounds_left w)%nat
  | Err e => (w' = w1 \/ w' = closing w1) /\ e <> EASSERT /\ wait_failed timeout w w1 e
  end.

Lemma poll_waited p u w r w' :
  queue_ok (conn w) -> ppoll_for p u w = (r, w') -> waited [] w w' /\ (drained w -> drained w') /\
  (r = Err EINTR \/ r ∈ polls (kern w) /\ (rounds_left w' < rounds_left w)%nat /\
     (length (polls (kern w')) < length (polls (kern w)))%nat).
Proof.
  intros Q H. apply ppoll_run in H as (P1 & P2 & P3 & P4 & P5 & P6).
  assert (exists l, polls (kern w) = l ++ polls (kern w')) as Hl.
  { destruct P6 as [P6|[_ ->]]; [by exists [r]|by exists []]. }
  split; [|split].
  - destruct w' as [b k]. cbn in P1. subst b. by apply waited_kernel.
  - unfold drained. by rewrite P1.
  - unfold rounds_left. rewrite P4. destruct P6 as [P6|[-> _]]; [right|by left]. rewrite P6. split; [left|]. simpl. lia.
Qed.

Lemma write_waited timeout w w0 r w' :
  is_connected (state (conn w)) = true -> queue_ok (conn w) -> answers_real w -> waited [] w0 w ->
  (reset_when_lost dispatch_wqueue;; mret tt) w = (r, w') ->
  exists w1, waited [] w w1 /\
  match r with
  | Ok _ => w' = w1 /\ (drained w -> drained w1) /\ rounds_left w1 = rounds_left w
  | Err e => (w' = w1 \/ w' = closing w1) /\ e <> EASSERT /\ wait_failed timeout w0 w1 e
  end.
Proof.
  intros Hs Q A W0 H. rewrite stm_bind_eq in H. destruct (reset_when_lost dispatch_wqueue w) as [o w2] eqn:E.
  apply reset_when_lost_run in E as (r0 & w1 & E & Hr).
  2: { intros e w1 E1. apply waited_write in E1 as W; [|done|done]. rewrite (wa_state _ _ _ W). by destruct (state (conn w)). }
  pose proof (waited_write _ _ _ Hs Q E) as W. pose proof (write_progress _ _ _ E) as [D N]. exists w1. split; [done|].
  destruct r0 as [b|e]; [destruct Hr as [-> ->]; by injection H as <- <-|].
  apply dispatch_wqueue_flushes in E as (_ & _ & E); [|done|done].
  assert (Hne : e <> EASSERT) by (intros ->; by apply A in E).
  assert (o = Err (lost e) /\ (w2 = w1 \/ w2 = closing w1)) as [-> Hw].
  { destruct (is_disconnect e) eqn:Ed; destruct e; try done; destruct Hr as [-> ->]; auto. }
  injection H as <- <-. split; [done|]. split; [unfold lost; by destruct (is_disconnect e)|].
  apply failed_write. destruct (wa_sends _ _ _ W0) as [l ->]. apply elem_of_app. by right.
Qed.

Lemma poll_and_write_run timeout left w r w' :
  is_connected (state (conn w)) = true -> queue_ok (conn w) -> answers_real w ->
  (r ← bus_poll true left; if r : bool then reset_when_lost dispatch_wqueue;; mret tt else mret tt) w = (r, w') ->
  wait_step timeout w w' r.
Proof.
  intros Hs Q A H. rewrite stm_bind_eq in H. destruct (bus_poll true left w) as [p w1] eqn:E.
  apply bus_poll_more in E as (pl & ut & E); [|done]. apply poll_waited in E as (W1 & D1 & P); [|done].
  destruct p as [b|e].
  2: { injection H as <- <-. exists w1. split; [done|]. split; [by left|]. split.
       - intros ->. destruct P as [[=]|[P _]]. by apply A in P.
       - apply failed_poll. destruct P as [[= ->]|[P _]]; auto. }
  destruct P as [[=]|[_ [N1 _]]]. destruct b; [|injection H as <- <-; by exists w1].
  apply (write_waited timeout w1 w) in H as (w2 & W2 & H);
    [|by rewrite (wa_state _ _ _ W1)|apply W1|by eapply answers_waited|done].
  exists w2. split; [exact (waited_trans [] [] _ _ _ W1 W2)|]. destruct r; [|done]. destruct H as (-> & D2 & N2).
  split; [done|]. split; [auto|lia].
Qed.

Lemma call_wait_run timeout w r w' :
  is_connected (state (conn w)) = true -> queue_ok (conn w) -> answers_real w ->
  call_wait timeout w = (r, w') -> wait_step timeout w w' r.
Proof.
  intros Hs Q A H. unfold call_wait in H. destruct (Z.ltb_spec 0 timeout) as [Ht|Ht].
  2: { rewrite (stm_bind_run _ _ w SIZE_MAX w eq_refl) in H. by eapply poll_and_write_run. }
  rewrite stm_bind_eq in H. set (w0 := snd (now w)).
  assert (W0 : waited [] w w0) by (apply waited_kernel; try done; by exists []).
  assert ((n ← now; sreq (n <? timeout) ETIMEDOUT;; mret (timeout - n)) w =
    (if clock (kern w0) <? timeout then Ok (timeout - clock (kern w0)) else Err ETIMEDOUT, w0)) as E.
  { rewrite (stm_bind_run now _ w (clock (kern w0)) w0 eq_refl), stm_bind_eq. by destruct (_ <? timeout). }
  rewrite E in H. destruct (Z.ltb_spec (clock (kern w0)) timeout) as [Hc|Hc].
  - apply (poll_and_write_run timeout) in H as (w1 & W1 & H); [|done|done|done].
    exists w1. split; [exact (waited_trans [] [] _ _ _ W0 W1)|]. destruct r; [done|]. destruct H as (H1 & H2 & H3).
    split; [done|]. split; [done|]. by eapply wait_failed_later.
  - injection H as <- <-. exists w0. split; [done|]. split; [by left|]. split; [done|]. by apply failed_time.
Qed.

(** Bytes in the buffer are no message, which may be found out after others were. *)
Definition refused_message (w : world) (e : errno) : Prop := exists e0, e = lost e0 /\ read_refused w e0.

Lemma call_read_run timeout w r w' :
  is_connected (state (conn w)) = true -> rx_bytes w -> queue_ok (conn w) -> answers_real w ->
  reset_when_lost bus_read_message w = (r, w') ->
  exists items w1, waited items w w1 /\
  match r with
  | Ok b => w' = w1 /\ drained w1 /\ (rounds_left w1 <= rounds_left w)%nat /\
            (b = true -> drained w -> rounds_left w1 < rounds_left w)%nat /\ (b = false -> items = [])
  | Err e => (w' = w1 \/ w' = closing w1) /\ (items = [] \/ refused_message w1 e) /\
             (e <> EASSERT /\ wait_failed timeout w w1 e \/ e = EASSERT /\ gvariant_next w1)
  end.
Proof.
  intros Hs Hb Q A H. apply reset_when_lost_run in H as (r0 & w1 & E & Hr).
  2: { intros e w1 E. apply waited_read in E as [items W]; [|done..]. rewrite (wa_state _ _ _ W). by destruct (state (conn w)). }
  destruct (waited_read _ _ _ Hs Hb Q E) as [items W]. exists items, w1. split; [done|].
  assert (Hq : rqueue (conn w1) = rqueue (conn w) -> items = []).
  { intros Hq. rewrite (wa_rqueue _ _ _ W) in Hq. apply (f_equal length) in Hq. rewrite length_app in Hq.
    destruct items; [done|simpl in Hq; lia]. }
  destruct r0 as [b|e].
  { destruct Hr as [-> ->]. destruct (read_progress _ _ _ Hs Hb E) as (? & ? & ?). split_and!; try done.
    intros ->. apply Hq. apply read_message_receives in E as (_ & _ & _ & -> & _); done. }
  apply read_message_receives in E as [_ E]; [|done..].
  assert (Hi : items = [] \/ read_refused w1 e).
  { destruct E as [E|[E _]]; [by right|left; by apply Hq]. }
  apply (read_broken_impl _ True) in E; [|done].
  assert (e <> EASSERT /\ r = Err (lost e) /\ (w' = w1 \/ w' = closing w1) \/ e = EASSERT /\ r = Err EASSERT /\ w' = w1)
    as [(Hne & -> & Hw)|(-> & -> & ->)].
  { destruct (is_disconnect e) eqn:Ed; destruct e; try done; destruct Hr as [-> ->]; auto. }
  - split; [done|]. split; [destruct Hi; [by left|right; by exists e]|]. left.
    split; [unfold lost; by destruct (is_disconnect e)|by apply failed_read].
  - split; [by left|]. split; [destruct Hi; [by left|right; by exists EASSERT]|]. right. split; [done|].
    eapply read_assertion; [by eapply waited_bytes|apply A|done].
Qed.

(** ** The loop *)
Section Loop.
Context `{ErrnoTable} (maps : list sd_bus_error_map) (ck timeout : Z) (error : option sd_bus_error).

(** [seen] are the messages that came in before the loop ended, behind [pre]: one of
    them decides, or none does and waiting failed. *)
Definition loop_found (pre seen : list message) (w1 : world) (r : res call_result) (w' : world) : Prop :=
  exists a x c, seen = a ++ x :: c /\
    Forall (ignored (unique_name (bus (conn w1))) ck) a /\ decides (unique_name (bus (conn w1))) ck x /\
    r = Ok (call_answer maps (conn w1) ck x error) /\
    w' = World (set_rqueue (pre ++ a ++ c) (conn w1)) (kern w1).

Definition loop_failed (seen : list message) (w w1 : world) (r : res call_result) (w' : world) : Prop :=
  exists looked rest e, seen = looked ++ rest /\
    Forall (ignored (unique_name (bus (conn w1))) ck) looked /\
    r = Err e /\ (w' = w1 \/ w' = closing w1) /\ (rest = [] \/ refused_message w1 e) /\
    (e <> EASSERT /\ wait_failed timeout w w1 e \/ e = EASSERT /\ gvariant_next w1).

Definition enough (fuel : nat) (w : world) : Prop :=
  (rounds_left w + 2 <= fuel)%nat \/ drained w /\ (rounds_left w + 1 <= fuel)%nat.

(** Looking at [cur], which nobody has looked at yet, and going on *)
Lemma call_loop_scan fuel pre cur w r w' :
  rqueue (conn w) = pre ++ cur -> queue_ok (conn w) ->
  call_loop maps (S fuel) ck timeout error (length pre) w = (r, w') ->
  loop_found pre cur w r w' \/
  Forall (ignored (unique_name (bus (conn w))) ck) cur /\
  (b ← reset_when_lost bus_read_message;
   (if b : bool then mret tt else call_wait timeout);;
   call_loop maps fuel ck timeout error (length (pre ++ cur))) w = (r, w').
Proof.
  intros Hq Q H0. cbn [call_loop] in H0. rewrite (stm_bind_run bget _ w _ _ eq_refl), Hq, drop_app_length in H0.
  pose proof (scan_rqueue_run (unique_name (bus (conn w))) ck cur (length pre)) as Hs.
  destruct (scan_rqueue _ _ _ _) as [j [x|]].
  - destruct Hs as (a & c & -> & -> & Ha & Hx). left. exists a, x, c. split_and!; try done.
    + by injection H0 as <- <-.
    + injection H0 as <- <-. f_equal. f_equal. by rewrite <- length_app, !app_assoc, delete_middle.
  - destruct Hs as [-> Ha]. right. split; [done|]. by rewrite length_app.
Qed.

(** How waiting ends without an answer *)
Definition wait_ended {A} (items : list item) (w w1 : world) (r : res A) (w' : world) : Prop :=
  exists e, r = Err e /\ (w' = w1 \/ w' = closing w1) /\ (items = [] \/ refused_message w1 e) /\
    (e <> EASSERT /\ wait_failed timeout w w1 e \/ e = EASSERT /\ gvariant_next w1).

(** Reading or waiting, and then [k] *)
Lemma call_round_run {A} fuel (k : stm world A) w r w' :
  is_connected (state (conn w)) = true -> rx_bytes w -> queue_ok (conn w) -> answers_real w -> enough (S fuel) w ->
  (b ← reset_when_lost bus_read_message; (if b : bool then mret tt else call_wait timeout);; k) w = (r, w') ->
  exists items w1, waited items w w1 /\
    ((drained w1 /\ enough fuel w1 /\ k w1 = (r, w')) \/ wait_ended items w w1 r w').
Proof.
  intros Hs Hb Q A0 Hf H0. rewrite stm_bind_eq in H0. destruct (reset_when_lost bus_read_message w) as [o w2] eqn:E.
  apply (call_read_run timeout) in E as (items & w1 & W & E); [|done..]. destruct o as [b|e].
  2: { injection H0 as <- <-. exists items, w1. split; [done|]. right. by exists e. }
  destruct E as (-> & D1 & N1 & N2 & Hi). destruct b.
  - exists items, w1. split; [done|]. left. split_and!; try done. right. split; [done|].
    destruct Hf as [Hf|[D Hf]]; [lia|]. specialize (N2 eq_refl D). lia.
  - rewrite (Hi eq_refl) in W. clear N2 Hi. cbn beta iota in H0. rewrite stm_bind_eq in H0.
    destruct (call_wait timeout w1) as [o w3] eqn:E.
    apply call_wait_run in E as (w2 & W2 & E); [|by rewrite (wa_state _ _ _ W)|apply W|by eapply answers_waited].
    exists [], w2. split; [exact (waited_trans [] [] _ _ _ W W2)|]. destruct o as [[]|e].
    + left. destruct E as (-> & D2 & N3). split; [auto|]. split; [|done]. right. split; [auto|]. destruct Hf as [Hf|[_ Hf]]; lia.
    + right. injection H0 as <- <-. exists e. destruct E as (E1 & E2 & E3). split_and!; try done; [by left|]. left.
      split; [done|]. by eapply wait_failed_later.
Qed.

Lemma call_loop_run fuel : forall pre cur w r w',
  is_connected (state (conn w)) = true -> rx_bytes w -> queue_ok (conn w) -> answers_real w ->
  rqueue (conn w) = pre ++ cur -> enough fuel w ->
  call_loop maps fuel ck timeout error (length pre) w = (r, w') ->
  exists items w1, waited items w w1 /\
    (loop_found pre (cur ++ map it_message items) w1 r w' \/ loop_failed (cur ++ map it_message items) w w1 r w').
Proof.
  induction fuel as [|fuel IH]; intros pre cur w r w' Hs Hb Q A Hq Hf H0; [unfold enough in Hf; lia|].
  apply (call_loop_scan fuel pre cur) in H0 as [H1|[Ha H0]]; [| |done|done].
  { exists [], w. cbn [map]. rewrite app_nil_r. split; [by apply waited_refl|by left]. }
  assert (Hign : forall w3 i3, waited i3 w w3 -> Forall (ignored (unique_name (bus (conn w3))) ck) cur).
  { intros w3 i3 W3. by destruct (wa_name _ _ _ W3) as [-> _]. }
  apply (call_round_run fuel) in H0 as (items & w2 & W2 & [(_ & Hf2 & H0)|(e & -> & E1 & E2 & E3)]); [..|done|done|done|done|done].
  - apply (IH (pre ++ cur) (map it_message items)) in H0 as (i2 & w1 & W & H0);
      [|by rewrite (wa_state _ _ _ W2)|by eapply waited_bytes|apply W2|by eapply answers_waited
       |by rewrite (wa_rqueue _ _ _ W2), Hq|done].
    exists (items ++ i2), w1. pose proof (waited_trans _ _ _ _ _ W2 W) as W1. split; [done|]. rewrite map_app.
    pose proof (Hign _ _ W1) as Hc. destruct H0 as [(a & x & c & E & H1 & H2 & H3 & H4)|(l & rest & e & E & H1 & H2 & H3 & H4 & H5)].
    + left. exists (cur ++ a), x, c. rewrite E, <- !app_assoc. rewrite <- app_assoc in H4. split_and!; try done. by apply Forall_app.
    + right. exists (cur ++ l), rest, e. rewrite E, <- !app_assoc. split_and!; try done; [by apply Forall_app|].
      destruct H5 as [[H5 H6]|H5]; [left|by right]. split; [done|]. exact (wait_failed_later _ _ _ _ _ _ W2 H6).
  - exists items, w2. split; [done|]. right. exists cur, (map it_message items), e. split_and!; try done; [by eapply Hign|].
    destruct E2 as [->|E2]; [by left|by right].
Qed.
End Loop.

(** ** Sending *)

(** A call that is sealed already and was given the last cookie *)
Lemma send_sealed er dup w m :
  sealed m = true -> fds m = [] -> h_version (hdr m) = 1 -> h_endian (hdr m) = BUS_NATIVE_ENDIAN ->
  plain_sender (conn w) -> BUS_IS_OPEN (state (conn w)) = true -> BUS_MESSAGE_COOKIE m = bus_cookie (conn w) ->
  dont_send m = false ->
  sd_bus_send er dup true (w, m) =
  (match (send_message m w).1 with Ok _ => Ok (BUS_MESSAGE_COOKIE m) | Err e => Err e end, ((send_message m w).2, m)).
Proof.
  intros Hs Hf Hv He P Ho Hc Hd. unfold sd_bus_send. erewrite stm_bind_run by reflexivity. rewrite Ho.
  erewrite stm_bind_run by reflexivity. rewrite (stm_bind_run mget _ (w, m) m (w, m) eq_refl), Hf.
  change (0 <? zlen []) with false. cbn beta iota. do 2 erewrite stm_bind_run by reflexivity.
  assert (E : bus_seal_message 0 (w, m) = (Ok tt, (w, m))).
  { unfold bus_seal_message. erewrite stm_bind_run by reflexivity. rewrite (stm_bind_run mget _ (w, m) m (w, m) eq_refl), Hs, Hc, Z.max_id.
    unfold on_world, bmod. by destruct w as [[] k]. }
  rewrite (stm_bind_run _ _ _ _ _ E), (stm_bind_run mget _ (w, m) m (w, m) eq_refl).
  erewrite stm_bind_run by (unfold on_world; rewrite remarshal_same by done; reflexivity). rewrite Hd.
  unfold on_world, mbind, stm_bind. by destruct (send_message m w) as [[[]|e] w'].
Qed.

(** ** The call *)

(** When the call is sent, and when its time is over; 0 for never *)
Definition send_time (k : kernel) : Z := clock k + default 0 (head (ticks k)).
Definition deadline (k : kernel) (usec : Z) : Z := if usec =? SIZE_MAX then 0 else wrap64 (send_time k + usec).

(** The bytes of [m] were handed over, behind everything else, and nothing was read. *)
Record handed_over (w : world) (m : message) (w0 : world) : Prop := HandedOver {
  ho_input : same_input w w0;
  ho_state : state (conn w0) = state (conn w);
  ho_queue : queue_ok (conn w0);
  ho_out : out_bytes w0 = out_bytes w ++ bus_message_get_blob m }.

Section Call.
Context (process : stm world (Z * option message)) (dup_fd : Z -> res Z).
Context `{ErrnoTable} (maps : list sd_bus_error_map).

(** How [sd_bus_call] ends that sends [m]. *)
Inductive call_outcome (w : world) (m : message) (error : option sd_bus_error) : res call_result -> world -> Prop :=
  | call_not_sent e w' :
      send_refused w e -> e <> EASSERT -> sent (kern w') = sent (kern w) -> same_input w w' ->
      wqueue (conn w') = wqueue (conn w) -> bus_cookie (conn w') = bus_cookie (conn w) + 1 ->
      state (conn w') = state (conn w) \/ state (conn w') = BUS_CLOSING /\ e = ECONNRESET ->
      call_outcome w m error (Ok (no_reply (sd_bus_error_set_errno error (Some e)))) w'
  | call_decided w0 w1 items a x c :
      handed_over w m w0 -> waited items w0 w1 -> map it_message items = a ++ x :: c ->
      let decides := decides (unique_name (bus (conn w))) (BUS_MESSAGE_COOKIE m) in
      Forall (fun y => ~ decides y) a -> decides x ->
      call_outcome w m error (Ok (call_answer maps (conn w) (BUS_MESSAGE_COOKIE m) x error))
        (World (set_rqueue (rqueue (conn w) ++ a ++ c) (conn w1)) (kern w1))
  | call_given_up w0 w1 items looked rest e w' :
      handed_over w m w0 -> waited items w0 w1 -> map it_message items = looked ++ rest ->
      Forall (fun y => ~ decides (unique_name (bus (conn w))) (BUS_MESSAGE_COOKIE m) y) looked ->
      rest = [] \/ refused_message w1 e ->
      wait_failed (deadline (kern w) (timeout m)) w0 w1 e -> e <> EASSERT -> w' = w1 \/ w' = closing w1 ->
      call_outcome w m error (Ok (no_reply (sd_bus_error_set_errno error (Some e)))) w'
  | call_unparsed w' : gvariant_next w' -> call_outcome w m error (Err EASSERT) w'.

Lemma not_ignored name ck l : Forall (ignored name ck) l -> Forall (fun y => ~ decides name ck y) l.
Proof. intros Hl. eapply Forall_impl; [exact Hl|]. unfold ignored, decides. congruence. Qed.

Lemma call_answer_same b b' ck x error : accept_fd b = accept_fd b' -> call_answer maps b ck x error = call_answer maps b' ck x error.
Proof. unfold call_answer. by intros ->. Qed.

Lemma calc_elapse_run w usec :
  is_connected (state (conn w)) = true ->
  exists k, calc_elapse usec w = (Ok (deadline (kern w) usec), World (conn w) k) /\
    (queue_ok (conn w) -> waited [] w (World (conn w) k)) /\ recvs k = recvs (kern w) /\ polls k = polls (kern w).
Proof.
  intros Hs. unfold calc_elapse, deadline. rewrite (stm_bind_run bget _ w _ _ eq_refl).
  destruct (usec =? SIZE_MAX).
  - exists (kern w). destruct w as [b k]. by split_and!; [|apply waited_refl|..].
  - exists (kern (snd (now w))). destruct (state (conn w)); try done;
      (split; [done|]; split; [|done]; intros Q; apply waited_kernel; try done; by exists []).
Qed.

(** Waiting after sending *)
Lemma call_loop_outcome w m error w0 k r w' :
  is_connected (state (conn w)) = true -> rx_bytes w -> answers_real w0 -> handed_over w m w0 ->
  waited [] w0 (World (conn w0) k) -> recvs k = recvs (kern w0) -> polls k = polls (kern w0) ->
  call_loop maps (call_fuel k) (BUS_MESSAGE_COOKIE m) (deadline (kern w) (timeout m)) error (length (rqueue (conn w)))
    (World (conn w0) k) = (r, w') ->
  match r with
  | Err e => if decide (e = EASSERT) then call_outcome w m error (Err EASSERT) w'
             else call_outcome w m error (Ok (no_reply (sd_bus_error_set_errno error (Some e)))) w'
  | Ok r => call_outcome w m error (Ok r) w'
  end.
Proof.
  intros Hs Hb A HO W0 Hr Hp H0. pose proof HO as [(_ & _ & _ & I1 & I2 & I3 & I4 & I5) S Q _].
  apply (call_loop_run _ _ _ _ _ _ []) in H0 as (items & w1 & W & H0).
  2: { cbn [conn]. by rewrite S. }
  2: { eapply waited_bytes; [exact W0|]. split; [rewrite I3|rewrite I1]; apply Hb. }
  2: { done. }
  2: { by eapply answers_waited. }
  2: { cbn [conn]. by rewrite I2, app_nil_r. }
  2: { left. unfold rounds_left, call_fuel. cbn [kern]. lia. }
  pose proof (waited_trans _ _ _ _ _ W0 W) as W1. cbn [app] in *. destruct (wa_name _ _ _ W1) as [N1 N2]. rewrite I5 in N1. rewrite I4 in N2.
  destruct H0 as [(a & x & c & E & H1 & H2 & -> & ->)|(looked & rest & e & E & H1 & -> & H2 & H3 & [[H4 H5]|[-> H4]])].
  - rewrite N1 in H1, H2. rewrite (call_answer_same _ (conn w)) by done. eapply call_decided; try done. by apply not_ignored.
  - rewrite N1 in H1. rewrite decide_False by done. eapply call_given_up; try done; [by apply not_ignored|].
    exact (wait_failed_later _ _ _ _ _ _ W0 H5).
  - rewrite decide_True by done. apply call_unparsed. by destruct H2 as [-> | ->].
Qed.

(** A connection that runs, and a method call for it *)
Record can_call (w : world) (m : message) : Prop := CanCall {
  cc_running : state (conn w) = BUS_RUNNING;
  cc_bytes : rx_bytes w;
  cc_queue : queue_ok (conn w);
  cc_plain : plain_sender (conn w);
  cc_cookie : cookie_left (conn w);
  cc_answers : answers_real w;
  cc_sealable : sealable m;
  cc_type : h_type (hdr m) = SD_BUS_MESSAGE_METHOD_CALL;
  cc_flags : has_flag BUS_MESSAGE_NO_REPLY_EXPECTED m = false;
  cc_send : dont_send m = false }.

(** What is left to do once the call is sealed *)
Lemma send_and_wait_sealed w m usec error rounds :
  can_call w m ->
  exists t c, (usec <> 0 -> t = usec) /\
  let ck := bus_cookie (conn w) + 1 in
  let w0 := World (set_bus_cookie ck (set_method_call_timeout c (conn w))) (kern w) in
  let m1 := sealed_message ck t m in
  send_and_wait process dup_fd maps rounds m usec error w =
  ('(ck, m) ← with_message (sd_bus_send (bus_ensure_running process rounds) dup_fd true) m1;
   timeout ← calc_elapse (timeout m);
   k ← kget;
   call_loop maps (call_fuel k) ck timeout error (length (rqueue (conn w)))) w0.
Proof.
  intros [Hr Hb Q P C A S Ht Hf Hd]. unfold send_and_wait. rewrite (stm_bind_run bget _ w _ _ eq_refl), Hr.
  rewrite (stm_bind_run _ _ w tt w eq_refl).
  rewrite (stm_bind_run (bus_ensure_running process rounds) _ w tt w);
    [|by unfold bus_ensure_running; rewrite (stm_bind_run bget _ w _ _ eq_refl), Hr].
  rewrite (stm_bind_run bget _ w _ _ eq_refl).
  destruct (bus_seal_message_run w m usec S P C) as (t & c & Htu & E). exists t, c. split; [done|]. cbv zeta.
  set (m1 := sealed_message _ t m) in *. set (w0 := World _ (kern w)) in *.
  rewrite (stm_bind_run _ _ w (tt, m1) w0) by (unfold with_message; by rewrite E). cbn beta iota.
  rewrite (stm_bind_run _ _ w0 m1 w0); [done|].
  apply remarshal_same; [by destruct P; constructor|apply S|apply S].
Qed.

(** The same, to its end *)
Lemma send_and_wait_run w m usec error rounds r w' :
  can_call w m -> send_and_wait process dup_fd maps rounds m usec error w = (r, w') ->
  exists t, (usec <> 0 -> t = usec) /\
  let m1 := sealed_message (bus_cookie (conn w) + 1) t m in
  match r with
  | Err e => if decide (e = EASSERT) then call_outcome w m1 error (Err EASSERT) w'
             else call_outcome w m1 error (Ok (no_reply (sd_bus_error_set_errno error (Some e)))) w'
  | Ok r => call_outcome w m1 error (Ok r) w'
  end.
Proof.
  intros Hc H0. destruct (send_and_wait_sealed w m usec error rounds Hc) as (t & c & Ht & E). cbv zeta in E.
  rewrite E in H0. clear E. exists t. split; [done|]. cbv zeta. destruct Hc as [Hr Hb Q P C A S _ Hf Hd].
  set (ck := bus_cookie (conn w) + 1) in *. set (m1 := sealed_message ck t m) in *. set (w0 := World _ (kern w)) in *.
  assert (Hck : BUS_MESSAGE_COOKIE m1 = ck) by (apply sealed_cookie; [done|unfold cookie_left in C; unfold ck; lia]).
  assert (P0 : plain_sender (conn w0)) by (by destruct P; constructor).
  assert (Q0 : queue_ok (conn w0)) by (by destruct Q; constructor).
  rewrite stm_bind_eq in H0. unfold with_message in H0.
  rewrite (send_sealed _ _ w0 m1) in H0; try done; try apply S; [|change (state (conn w0)) with (state (conn w)); by rewrite Hr].
  destruct (send_message m1 w0) as [r1 w1] eqn:Es. cbn [fst snd] in H0.
  pose proof (send_message_input _ _ _ _ Es) as Hin. apply send_message_result in Es as (Hck1 & Q1 & _ & _ & Es);
    [|by apply wired_sealed|done].
  destruct r1 as [[]|e].
  - destruct Es as (Hst & Hout & _). cbn beta iota in H0. rewrite Hck in H0.
    destruct (calc_elapse_run w1 (timeout m1)) as (k & E & Hw & Hrk & Hpk); [rewrite Hst; change (state (conn w0)) with (state (conn w)); by rewrite Hr|].
    rewrite (stm_bind_run _ _ _ _ _ E), (stm_bind_run kget _ (World (conn w1) k) k (World (conn w1) k) eq_refl) in H0.
    assert (HO : handed_over w m1 w1) by (by constructor).
    assert (Hdl : deadline (kern w1) (timeout m1) = deadline (kern w) (timeout m1)).
    { destruct Hin as ((_ & H1 & H2) & _). unfold deadline, send_time. by rewrite H1, H2. }
    rewrite Hdl, <- Hck in H0. eapply call_loop_outcome; [| | |exact HO| | | |exact H0]; try done; [by rewrite Hr| |auto].
    destruct Hin as ((H1 & _) & [l H2] & H3 & _), A as (A1 & A2 & A3).
    change (kern w0) with (kern w) in *. unfold answers_real. rewrite H1, H3. rewrite H2 in A2. by apply not_elem_of_app in A2 as [_ A2].
  - destruct Es as (Hs & Hwq & _ & Hr' & Hst). injection H0 as <- <-.
    assert (He : e <> EASSERT).
    { destruct Hr' as [[-> _]|(e0 & He0 & ->)]; [done|]. destruct (is_disconnect e0); [done|]. intros ->. by apply A in He0. }
    rewrite decide_False by done. by apply call_not_sent.
Qed.

(** C12. A blocking call on a running connection, whatever the socket accepts and
    gives, in whatever pieces, and whatever the clock and the finitely many answers
    of [ppoll] say, the last of them an interruption: it ends. If it could not be
    sent, no byte of it was, the queue is as it was and nothing was read; but its
    cookie is used up, and if the connection is lost it is closing. Otherwise its
    bytes, those of the sealed message, went behind all output; and if one of
    the messages that came in since decides the call - a reply to its cookie,
    or the call itself, come back - the first such message is taken out of the
    read queue and makes the result, all others stay there in the order in which
    they came, after those that were there before, which are not looked at. If
    none decides, the call gives up, for a reason of the kernel, the peer, or its
    time; then too what came is kept. Left open is a call to which a message of
    version 2 (GVariant) comes in that fails an assertion of the parser. *)
Theorem sd_bus_call_outcome w m usec error rounds r w' :
  can_call w m -> bus_error_is_dirty error = false ->
  sd_bus_call process dup_fd maps rounds m usec error w = (r, w') ->
  exists t, (usec <> 0 -> t = usec) /\
    call_outcome w (sealed_message (bus_cookie (conn w) + 1) t m) error r w'.
Proof.
  intros Hc He H0. unfold sd_bus_call in H0. rewrite (cc_type _ _ Hc), Z.eqb_refl, (cc_flags _ _ Hc), He in H0. cbn [negb] in H0.
  rewrite stm_bind_eq in H0. unfold attempt in H0.
  destruct (send_and_wait process dup_fd maps rounds m usec error w) as [r1 w1] eqn:E.
  apply send_and_wait_run in E as (t & Ht & E); [|done]. exists t. split; [done|]. cbv zeta in E.
  destruct r1 as [r1|e]; [by injection H0 as <- <-|].
  destruct (decide (e = EASSERT)) as [->|Hne]; [by injection H0 as <- <-|]. by destruct e; injection H0 as <- <-.
Qed.
End Call.

(** ** Waiting until all is written *)
Lemma bus_poll_idle w t r w' :
  is_connected (state (conn w)) = true -> queue_ok (conn w) -> bus_poll false t w = (r, w') ->
  exists p u w0, waited [] w w0 /\ ppoll_for p u w0 = (r, w').
Proof.
  intros Hs Q. unfold bus_poll. rewrite (stm_bind_run bget _ w _ _ eq_refl).
  rewrite bool_decide_eq_false_2 by (by destruct (state (conn w))).
  rewrite (stm_bind_run _ _ w tt w) by (by destruct (state (conn w))).
  assert (exists e, sd_bus_get_events w = (Ok e, w)) as [e He].
  { unfold sd_bus_get_events. rewrite (stm_bind_run bget _ w _ _ eq_refl). destruct (state (conn w)); try done; by eexists. }
  rewrite (stm_bind_run _ _ _ _ _ He).
  assert (exists u, sd_bus_get_timeout w = (Ok u, w)) as [u Hu].
  { unfold sd_bus_get_timeout. rewrite (stm_bind_run bget _ w _ _ eq_refl), (stm_bind_run _ _ w tt w) by (by destruct (state (conn w))).
    destruct (state (conn w)); try done; (destruct (negb _); [by eexists|]); (destruct (prioq_peek _); [|by eexists]);
      cbv zeta; destruct (_ =? 0); by eexists. }
  rewrite (stm_bind_eq _ _ w), (stm_bind_run _ _ _ _ _ Hu). destruct u as [u|].
  - rewrite (stm_bind_run now _ w (clock (kern (snd (now w)))) (snd (now w)) eq_refl).
    intros H. eexists _, _, (snd (now w)). split; [apply waited_kernel; try done; by exists []|exact H].
  - intros H. eexists _, _, w. split; [by apply waited_refl|exact H].
Qed.

Lemma flush_loop_run fuel : forall w r w',
  is_connected (state (conn w)) = true -> queue_ok (conn w) -> answers_real w -> (length (polls (kern w)) < fuel)%nat ->
  flush_loop fuel w = (r, w') ->
  exists w1, waited [] w w1 /\
  match r with
  | Ok _ => w' = w1 /\ wqueue (conn w1) = []
  | Err e => (w' = w1 \/ w' = closing w1) /\ e <> EASSERT /\ wait_failed 0 w w1 e
  end.
Proof.
  induction fuel as [|fuel IH]; intros w r w' Hs Q A Hf H0; [lia|]. cbn [flush_loop] in H0. rewrite stm_bind_eq in H0.
  destruct (reset_when_lost dispatch_wqueue w) as [o w1] eqn:E.
  apply (f_equal (fun x => (match x.1 with Ok _ => Ok tt | Err e => Err e end, x.2))) in E.
  replace ((match (reset_when_lost dispatch_wqueue w).1 with Ok _ => Ok tt | Err e => Err e end, (reset_when_lost dispatch_wqueue w).2))
    with ((reset_when_lost dispatch_wqueue;; mret tt) w) in E
    by (rewrite stm_bind_eq; by destruct (reset_when_lost dispatch_wqueue w) as [[]]).
  apply (write_waited 0 w w) in E as (w2 & W & E); [|done|done|done|by apply waited_refl].
  destruct o as [b|e]; cbn [fst snd] in E, H0; [destruct E as [-> _]|injection H0 as <- <-; by exists w2].
  rewrite (stm_bind_run bget _ w2 _ _ eq_refl) in H0. case_bool_decide as Hq; [injection H0 as <- <-; by exists w2|].
  rewrite stm_bind_eq in H0. destruct (bus_poll false SIZE_MAX w2) as [p w3] eqn:E.
  apply bus_poll_idle in E as (pl & ut & w0 & W0 & E); [|by rewrite (wa_state _ _ _ W)|apply W].
  pose proof (waited_trans [] [] _ _ _ W W0) as W1. apply poll_waited in E as (W3 & _ & Hp); [|apply W1].
  pose proof (waited_trans [] [] _ _ _ W1 W3) as W4. cbn [app] in *.
  assert (Hl : forall l x, waited l w x -> (length (polls (kern x)) <= length (polls (kern w)))%nat).
  { intros l x Wx. destruct (wa_polls _ _ _ Wx) as [k ->]. rewrite length_app. lia. }
  destruct p as [b'|e].
  - apply IH in H0 as (w4 & W5 & H0); [|by rewrite (wa_state _ _ _ W4)|apply W4|by eapply answers_waited|].
    2: { destruct Hp as [[=]|[_ [_ Hp]]]. specialize (Hl _ _ W1). lia. }
    exists w4. split; [exact (waited_trans [] [] _ _ _ W4 W5)|]. destruct r; [done|].
    destruct H0 as (H1 & H2 & H3). split_and!; try done. exact (wait_failed_later _ _ _ _ _ _ W4 H3).
  - injection H0 as <- <-. exists w3. split; [done|]. split; [by left|]. destruct Hp as [[= ->]|[Hp _]].
    + split; [done|]. apply failed_poll. by right.
    + destruct (wa_polls _ _ _ W1) as [l Hk]. assert (Err e ∈ polls (kern w)) by (rewrite Hk; apply elem_of_app; by right).
      split; [intros ->; by apply A|]. apply failed_poll. by left.
Qed.

(** [sd_bus_flush] on a running connection writes everything, or fails for a reason
    of the kernel; what was not written still waits. *)
Lemma sd_bus_flush_run process rounds w r w' :
  state (conn w) = BUS_RUNNING -> queue_ok (conn w) -> answers_real w ->
  sd_bus_flush process rounds w = (r, w') ->
  exists w1, waited [] w w1 /\
  match r with
  | Ok _ => w' = w1 /\ wqueue (conn w1) = [] /\ sent (kern w1) = out_bytes w
  | Err e => (w' = w1 \/ w' = closing w1) /\ e <> EASSERT /\ wait_failed 0 w w1 e
  end.
Proof.
  intros Hr Q A H0. unfold sd_bus_flush in H0. rewrite (stm_bind_run bget _ w _ _ eq_refl), Hr in H0. change (bool_decide (BUS_RUNNING = BUS_CLOSING)) with false in H0. cbn beta iota in H0.
  rewrite (stm_bind_run (sreq (BUS_IS_OPEN BUS_RUNNING) ENOTCONN) _ w tt w eq_refl) in H0.
  rewrite (stm_bind_run (bus_ensure_running process rounds) _ w tt w) in H0;
    [|by unfold bus_ensure_running; rewrite (stm_bind_run bget _ w _ _ eq_refl), Hr].
  rewrite (stm_bind_run bget _ w _ _ eq_refl) in H0.
  assert (Hout : forall w1, waited [] w w1 -> wqueue (conn w1) = [] -> sent (kern w1) = out_bytes w).
  { intros w1 W Hq. rewrite <- (wa_out _ _ _ W). unfold out_bytes, pending. rewrite Hq; cbn [map concat]; by rewrite drop_nil, app_nil_r. }
  case_bool_decide as Hq.
  { injection H0 as <- <-. exists w. pose proof (waited_refl w Q). by auto. }
  rewrite (stm_bind_run kget _ w (kern w) w eq_refl) in H0. apply flush_loop_run in H0 as (w1 & W & H0); [|by rewrite Hr|done|done|lia].
  exists w1. split; [done|]. destruct r; [|done]. destruct H0 as [-> H0]. by auto.
Qed.

(** ** A call at a concrete connection

    It waits while its bytes go out in two pieces and a signal, the reply and
    another signal come in; one signal was in the queue before. *)
Definition idle : stm world (Z * option message) := mret (0, None).

(** The peer's reply is to the call with the cookie 2. *)
Definition waiting_connection : connection :=
  set_rqueue [sample_sealed] (set_bus_cookie 1 (set_state BUS_RUNNING sd_bus_new)).
Definition waiting_world : world :=
  World waiting_connection
    (Kernel [Ok 30; Ok 100000] [] [] [RecvErr EAGAIN; Recv 7 []; Recv 100000 []; Recv 100000 []; Recv 100000 []; Recv 100000 [];
       Recv 100000 []; Recv 100000 []; Recv 100000 []] (sample_blob ++ sample_answer ++ sample_blob) 1000 [5; 6; 7; 8] 1000
       (fun _ => true) None None [Ok true; Ok true] []).

Definition waited_call : res call_result * world :=
  Eval vm_compute in sd_bus_call idle Ok [] 1 CallExamples.sample_call 1000 (Some SD_BUS_ERROR_NULL) waiting_world.

Lemma waiting_can_call : can_call waiting_world CallExamples.sample_call.
Proof.
  constructor; try done.
  - split; [constructor|]. apply bytes_check. by vm_compute.
  - constructor; [done|by right|by left].
  - split_and!; cbn; rewrite ?elem_of_cons, ?elem_of_nil; intuition discriminate.
Qed.

Lemma sd_bus_call_outcome_witness :
  (exists m e, waited_call.1 = Ok (Ok (Some m), e) /\ reply_cookie m = 2 /\ h_type (hdr m) = SD_BUS_MESSAGE_METHOD_RETURN) /\
  length (rqueue (conn waited_call.2)) = 2%nat /\
  exists t, (1000 <> 0 -> t = 1000) /\
    call_outcome [] waiting_world (sealed_message 2 t CallExamples.sample_call) (Some SD_BUS_ERROR_NULL)
      waited_call.1 waited_call.2.
Proof.
  split; [do 2 eexists; split; [by vm_compute|]; split; by vm_compute|]. split; [by vm_compute|].
  apply (sd_bus_call_outcome idle Ok [] waiting_world CallExamples.sample_call 1000 (Some SD_BUS_ERROR_NULL) 1).
  - apply waiting_can_call.
  - done.
  - by vm_compute.
Defined.

(** A call whose time is over: [ppoll] comes back after that. *)
Example call_times_out :
  (sd_bus_call idle Ok [] 1 CallExamples.sample_call 10 None
    (World waiting_connection (Kernel [Ok 100000] [] [] [] [] 1000 [5; 6; 7; 8] 1000 (fun _ => true) None None [Ok false; Ok false] []))).1
  = Ok (Err ETIMEDOUT, None).
Proof. by vm_compute. Qed.
