(* ===== verification/Hashmap.v ===== *)
(** * Hash tables ([src/basic/hashmap.c], [src/basic/hash-funcs.c])

    Open addressing with Robin Hood hashing and linear probing, for the three
    kinds of tables: plain and ordered hash maps and sets. Keys and values are
    pointers, so numbers here; what the hash functions find behind a key is
    part of the [hash_ops]. The theory is in [RobinHood], [HashTable],
    [HashProbe], [HashRemove],
    [HashPut], [HashResize], [HashCalls], [HashIterate] and [HashmapRun]. *)
From S2P Require Import Prelude Siphash.

(** ** Data *)

(** [struct hash_ops] *)
Record hash_ops := HashOps {
  hash : Z -> siphash -> siphash;
  compare : Z -> Z -> Z }.

(** [struct ordered_hashmap_entry], which holds every other kind of entry. A plain
    entry has no links, a set's has no value either. *)
Record entry := Entry {
  key : Z;
  value : Z;
  iterate_next : Z;
  iterate_previous : Z }.

(** What [memzero] leaves. *)
Definition zero_entry : entry := Entry 0 0 0 0.

Definition UINT_MAX : Z := 4294967295.

Definition INV_KEEP_FREE : Z := 5.

Definition IDX_SWAP_BEGIN : Z := UINT_MAX - 3.
Definition IDX_PUT : Z := IDX_SWAP_BEGIN + 0.
Definition IDX_TMP : Z := IDX_SWAP_BEGIN + 1.
Definition IDX_SWAP_END : Z := IDX_SWAP_BEGIN + 2.

Definition IDX_FIRST : Z := UINT_MAX - 1.
Definition IDX_NIL : Z := UINT_MAX.

Definition DIB_RAW_OVERFLOW : Z := 0xfd.
Definition DIB_RAW_REHASH : Z := 0xfe.
Definition DIB_RAW_FREE : Z := 0xff.

Definition DIB_FREE : Z := UINT_MAX.

Inductive HashmapType := HASHMAP_TYPE_PLAIN | HASHMAP_TYPE_ORDERED | HASHMAP_TYPE_SET.

#[export] Instance HashmapType_eq_dec : EqDecision HashmapType.
Proof. solve_decision. Defined.

(** [sizeof(struct direct_storage)] with 64 bit pointers; [hashmap_type_info] *)
Definition direct_storage_size : Z := 39.

Definition entry_size (t : HashmapType) : Z :=
  match t with HASHMAP_TYPE_PLAIN => 16 | HASHMAP_TYPE_ORDERED => 24 | HASHMAP_TYPE_SET => 8 end.

Definition n_direct_buckets (t : HashmapType) : Z := direct_storage_size `div` (entry_size t + 1).

(** The union of [struct HashmapBase]: the counters of the direct and the
    [struct indirect_storage]. The buckets and their distances are fields of the
    map, whichever storage they are in. *)
Inductive storage :=
  | Direct (n_direct_entries : Z)
  | Indirect (hash_key : list Z) (n_entries n_buckets idx_lowest_entry : Z).

(** [struct HashmapBase], with the fields of [struct OrderedHashmap] *)
Record hashmap := HashmapBase {
  ops : hash_ops;
  type : HashmapType;
  store : storage;
  buckets : list entry;
  dibs : list Z;
  iterate_list_head : Z;
  iterate_list_tail : Z;
  dirty : bool }.

(** The static variables [shared_hash_key] and [current] of [get_hash_key], and
    what [random_bytes] will give. *)
Record hash_keys := HashKeys {
  shared_hash_key : option (list Z);
  current : option (list Z);
  random_bytes : nat -> list Z;
  drawn : nat }.

(** The map, a call's [struct swap_entries] and the static variables. *)
Record state := State {
  base : hashmap;
  swap_put : entry;
  swap_tmp : entry;
  keys : hash_keys }.

(** *** Field updates *)
Definition set_key (v : Z) (e : entry) : entry := Entry v (value e) (iterate_next e) (iterate_previous e).
Definition set_value (v : Z) (e : entry) : entry := Entry (key e) v (iterate_next e) (iterate_previous e).
Definition set_next (v : Z) (e : entry) : entry := Entry (key e) (value e) v (iterate_previous e).
Definition set_previous (v : Z) (e : entry) : entry := Entry (key e) (value e) (iterate_next e) v.

Definition set_store (v : storage) (h : hashmap) : hashmap :=
  HashmapBase (ops h) (type h) v (buckets h) (dibs h) (iterate_list_head h) (iterate_list_tail h) (dirty h).
Definition set_buckets (v : list entry) (h : hashmap) : hashmap :=
  HashmapBase (ops h) (type h) (store h) v (dibs h) (iterate_list_head h) (iterate_list_tail h) (dirty h).
Definition set_dibs (v : list Z) (h : hashmap) : hashmap :=
  HashmapBase (ops h) (type h) (store h) (buckets h) v (iterate_list_head h) (iterate_list_tail h) (dirty h).
Definition set_head (v : Z) (h : hashmap) : hashmap :=
  HashmapBase (ops h) (type h) (store h) (buckets h) (dibs h) v (iterate_list_tail h) (dirty h).
Definition set_tail (v : Z) (h : hashmap) : hashmap :=
  HashmapBase (ops h) (type h) (store h) (buckets h) (dibs h) (iterate_list_head h) v (dirty h).

(** [base_set_dirty] *)
Definition base_set_dirty (h : hashmap) : hashmap :=
  HashmapBase (ops h) (type h) (store h) (buckets h) (dibs h) (iterate_list_head h) (iterate_list_tail h) true.

Definition set_base (h : hashmap) (s : state) : state := State h (swap_put s) (swap_tmp s) (keys s).
Definition set_swap_put (e : entry) (s : state) : state := State (base s) e (swap_tmp s) (keys s).
Definition set_swap_tmp (e : entry) (s : state) : state := State (base s) (swap_put s) e (keys s).
Definition set_keys (k : hash_keys) (s : state) : state := State (base s) (swap_put s) (swap_tmp s) k.

Definition hmod (f : hashmap -> hashmap) : stm state unit := smod (fun s => set_base (f (base s)) s).
Definition hgets {A} (f : state -> A) : stm state A := fun s => (Ok (f s), s).
Definition hget : stm state hashmap := hgets base.

(** ** Counters and hashing *)
Definition has_indirect (h : hashmap) : bool := match store h with Direct _ => false | Indirect _ _ _ _ => true end.

Definition n_buckets (h : hashmap) : Z :=
  match store h with Direct _ => n_direct_buckets (type h) | Indirect _ _ n _ => n end.

Definition n_entries (h : hashmap) : Z :=
  match store h with Direct n => n | Indirect _ n _ _ => n end.

(** [n_entries_inc], [n_entries_dec]; the counter of the direct storage has 3 bits. *)
Definition n_entries_add (d : Z) (h : hashmap) : hashmap :=
  set_store (match store h with
             | Direct n => Direct (wrap 3 (n + d))
             | Indirect k n m l => Indirect k (wrap32 (n + d)) m l
             end) h.
Definition n_entries_inc : hashmap -> hashmap := n_entries_add 1.
Definition n_entries_dec : hashmap -> hashmap := n_entries_add (-1).

Definition hash_key (s : state) : list Z :=
  match store (base s) with
  | Direct _ => default [] (shared_hash_key (keys s))
  | Indirect k _ _ _ => k
  end.

(** [base_bucket_hash] *)
Definition bucket_hash (s : state) (p : Z) : Z :=
  siphash24_finalize (hash (ops (base s)) p (siphash24_init (hash_key s))) `mod` n_buckets (base s).

(** [random_bytes(key, sizeof(key))] *)
Definition draw (k : hash_keys) : list Z := random_bytes k (drawn k).

Definition get_hash_key (reuse_is_ok : bool) : stm state (list Z) := fun s =>
  let k := keys s in
  match current k with
  | Some c => if reuse_is_ok then (Ok c, s)
              else (Ok (draw k), set_keys (HashKeys (shared_hash_key k) (Some (draw k)) (random_bytes k) (S (drawn k))) s)
  | None => (Ok (draw k), set_keys (HashKeys (shared_hash_key k) (Some (draw k)) (random_bytes k) (S (drawn k))) s)
  end.

(** ** Buckets

    Reading or writing outside of the storage is undefined. *)
Definition nthZ {A} (l : list A) (i : Z) : option A := if i <? 0 then None else l !! Z.to_nat i.
Definition setZ {A} (i : Z) (x : A) (l : list A) : list A := <[Z.to_nat i := x]> l.

Definition bucket_at (idx : Z) : stm state entry := fun s =>
  match nthZ (buckets (base s)) idx with Some e => (Ok e, s) | None => (Err EASSERT, s) end.

Definition bucket_put (idx : Z) (e : entry) : stm state unit :=
  bucket_at idx;; hmod (fun h => set_buckets (setZ idx e (buckets h)) h).

(** [bucket_at_virtual]: the entry there, and writing to it *)
Definition bucket_at_virtual (idx : Z) : stm state entry :=
  if idx <? IDX_SWAP_BEGIN then bucket_at idx
  else if idx =? IDX_PUT then hgets swap_put
  else if idx =? IDX_TMP then hgets swap_tmp
  else sfail EASSERT.

Definition bucket_put_virtual (idx : Z) (e : entry) : stm state unit :=
  if idx <? IDX_SWAP_BEGIN then bucket_put idx e
  else if idx =? IDX_PUT then smod (set_swap_put e)
  else if idx =? IDX_TMP then smod (set_swap_tmp e)
  else sfail EASSERT.

Definition bucket_mod_virtual (idx : Z) (f : entry -> entry) : stm state unit :=
  e ← bucket_at_virtual idx; bucket_put_virtual idx (f e).

(** [dib_raw_ptr(h)[idx]] *)
Definition dib_raw (idx : Z) : stm state Z := fun s =>
  match nthZ (dibs (base s)) idx with Some d => (Ok d, s) | None => (Err EASSERT, s) end.

Definition dib_raw_set (idx d : Z) : stm state unit :=
  dib_raw idx;; hmod (fun h => set_dibs (setZ idx d (dibs h)) h).

Definition bucket_distance (h : hashmap) (idx from : Z) : Z :=
  if from <=? idx then idx - from else wrap32 (n_buckets h + idx - from).

Definition bucket_calculate_dib (idx raw_dib : Z) : stm state Z :=
  if raw_dib =? DIB_RAW_FREE then mret DIB_FREE
  else if raw_dib <? DIB_RAW_OVERFLOW then mret raw_dib
  else e ← bucket_at idx; hgets (fun s => bucket_distance (base s) idx (bucket_hash s (key e))).

Definition bucket_set_dib (idx dib : Z) : stm state unit :=
  dib_raw_set idx (if negb (dib =? DIB_FREE) then dib `min` DIB_RAW_OVERFLOW else DIB_RAW_FREE).

(** The first index from [idx] on that is not free, among [l], the distances from [idx] on *)
Fixpoint skip_free (idx : Z) (l : list Z) : Z :=
  match l with
  | [] => IDX_NIL
  | d :: l => if negb (d =? DIB_RAW_FREE) then idx else skip_free (idx + 1) l
  end.

Definition skip_free_buckets (h : hashmap) (idx : Z) : Z :=
  skip_free idx (drop (Z.to_nat idx) (take (Z.to_nat (n_buckets h)) (dibs h))).

Definition bucket_mark_free (idx : Z) : stm state unit :=
  bucket_put idx zero_entry;; bucket_set_dib idx DIB_FREE.

Definition next_idx (h : hashmap) (idx : Z) : Z := wrap32 (idx + 1) `mod` n_buckets h.
Definition prev_idx (h : hashmap) (idx : Z) : Z := wrap32 (n_buckets h + idx - 1) `mod` n_buckets h.

Definition entry_value (h : hashmap) (e : entry) : Z :=
  match type h with HASHMAP_TYPE_SET => key e | _ => value e end.

Definition is_ordered (h : hashmap) : bool := bool_decide (type h = HASHMAP_TYPE_ORDERED).

(** After the copy, the links of the neighbours and of the map are redirected. *)
Definition bucket_move_entry (from to : Z) : stm state unit :=
  sreq (negb (from =? to)) EASSERT;;
  e ← bucket_at_virtual from;
  bucket_put_virtual to e;;
  h ← hget;
  if is_ordered h then
    le_to ← bucket_at_virtual to;
    (if negb (iterate_next le_to =? IDX_NIL) then bucket_mod_virtual (iterate_next le_to) (set_previous to) else mret tt);;
    le_to ← bucket_at_virtual to;
    (if negb (iterate_previous le_to =? IDX_NIL) then bucket_mod_virtual (iterate_previous le_to) (set_next to) else mret tt);;
    hmod (fun h => if iterate_list_head h =? from then set_head to h else h);;
    hmod (fun h => if iterate_list_tail h =? from then set_tail to h else h)
  else mret tt.

(** ** Removing *)

(** The stop bucket [right]; [fuel] bounds the rounds. *)
Fixpoint find_stop (fuel : nat) (left right : Z) : stm state Z :=
  match fuel with
  | O => sfail EASSERT
  | S fuel =>
      raw_dib ← dib_raw right;
      if (raw_dib =? 0) || (raw_dib =? DIB_RAW_FREE) then mret right
      else
        sreq (negb (left =? right)) EASSERT;;
        h ← hget;
        find_stop fuel left (next_idx h right)
  end.

(** The entries of the interval are moved one bucket back; the last bucket left is
    returned. *)
Fixpoint shift_back (fuel : nat) (prev left right : Z) : stm state Z :=
  if left =? right then mret prev
  else
    match fuel with
    | O => sfail EASSERT
    | S fuel =>
        raw ← dib_raw left;
        dib ← bucket_calculate_dib left raw;
        sreq (negb (dib =? 0)) EASSERT;;
        bucket_move_entry left prev;;
        bucket_set_dib prev (dib - 1);;
        h ← hget;
        shift_back fuel left (next_idx h left) right
    end.

(** The entry leaves the list of an ordered map. *)
Definition unlink_entry (idx : Z) : stm state unit :=
  le ← bucket_at idx;
  (if negb (iterate_next le =? IDX_NIL)
   then n ← bucket_at (iterate_next le); bucket_put (iterate_next le) (set_previous (iterate_previous le) n)
   else hmod (set_tail (iterate_previous le)));;
  le ← bucket_at idx;
  (if negb (iterate_previous le =? IDX_NIL)
   then p ← bucket_at (iterate_previous le); bucket_put (iterate_previous le) (set_next (iterate_next le) p)
   else hmod (set_head (iterate_next le))).

Definition base_remove_entry (idx : Z) : stm state unit :=
  raw ← dib_raw idx;
  sreq (negb (raw =? DIB_RAW_FREE)) EASSERT;;
  h ← hget;
  right ← find_stop (Z.to_nat (n_buckets h)) idx (next_idx h idx);
  (if is_ordered h then unlink_entry idx else mret tt);;
  prev ← shift_back (Z.to_nat (n_buckets h)) idx (next_idx h idx) right;
  bucket_mark_free prev;;
  hmod n_entries_dec;;
  hmod base_set_dirty.

(** ** Iterating *)

(** [Iterator] *)
Record Iterator := MkIterator { idx : Z; next_key : Z }.
Definition ITERATOR_FIRST : Iterator := MkIterator IDX_FIRST 0.
Definition iterator_end (i : Iterator) : Iterator := MkIterator IDX_NIL (next_key i).

(** The entry the iterator means, with a removal of the one before it accounted for:
    its bucket, or the one before if its key is not there any more *)
Definition resume (back : hashmap -> Z -> Z) (i : Iterator) : stm state Z :=
  e ← bucket_at (idx i);
  h ← hget;
  let idx := if negb (key e =? next_key i) then back h (idx i) else idx i in
  e ← bucket_at idx;
  sreq (key e =? next_key i) EASSERT;;
  mret idx.

Definition hashmap_iterate_in_insertion_order (i : Iterator) : stm state (Z * Iterator) :=
  h ← hget;
  if (idx i =? IDX_NIL) || (idx i =? IDX_FIRST) && (iterate_list_head h =? IDX_NIL)
  then mret (IDX_NIL, iterator_end i)
  else
    j ← (if idx i =? IDX_FIRST then mret (iterate_list_head h) else resume prev_idx i);
    e ← bucket_at j;
    if negb (iterate_next e =? IDX_NIL)
    then n ← bucket_at (iterate_next e); mret (j, MkIterator (iterate_next e) (key n))
    else mret (j, iterator_end i).

(** [h->indirect.idx_lowest_entry = idx] *)
Definition set_lowest (v : Z) (h : hashmap) : hashmap :=
  match store h with Direct _ => h | Indirect k n m _ => set_store (Indirect k n m v) h end.

Definition idx_lowest_entry (h : hashmap) : Z :=
  match store h with Direct _ => 0 | Indirect _ _ _ l => l end.

Definition hashmap_iterate_in_internal_order (i : Iterator) : stm state (Z * Iterator) :=
  if idx i =? IDX_NIL then mret (IDX_NIL, iterator_end i)
  else
    h ← hget;
    j ← (if idx i =? IDX_FIRST
         then
           let j := skip_free_buckets h (idx_lowest_entry h) in
           hmod (set_lowest j);; mret j
         else
           sreq (0 <? idx i) EASSERT;;
           resume (fun _ idx => idx - 1) i);
    if j =? IDX_NIL then mret (IDX_NIL, iterator_end i)
    else
      h ← hget;
      let n := skip_free_buckets h (j + 1) in
      if negb (n =? IDX_NIL)
      then e ← bucket_at n; mret (j, MkIterator n (key e))
      else mret (j, iterator_end i).

Definition hashmap_iterate_entry (i : Iterator) : stm state (Z * Iterator) :=
  h ← hget;
  if is_ordered h then hashmap_iterate_in_insertion_order i else hashmap_iterate_in_internal_order i.

(** The key and the value of the entry, or [None] at the end *)
Definition internal_hashmap_iterate (i : Iterator) : stm state (option (Z * Z) * Iterator) :=
  '(j, i) ← hashmap_iterate_entry i;
  if j =? IDX_NIL then mret (None, i)
  else
    e ← bucket_at j;
    h ← hget;
    mret (Some (key e, entry_value h e), i).

(** ** Making and clearing *)

(** [reset_direct_storage], which also ends the use of the indirect storage *)
Definition reset_direct_storage (h : hashmap) : hashmap :=
  let n := Z.to_nat (n_direct_buckets (type h)) in
  set_dibs (repeat DIB_RAW_FREE n) (set_buckets (repeat zero_entry n) h).

Definition hashmap_base_new (o : hash_ops) (t : HashmapType) (k : hash_keys) : state :=
  let h := reset_direct_storage (HashmapBase o t (Direct 0) [] [] IDX_NIL IDX_NIL false) in
  State h zero_entry zero_entry
    (match shared_hash_key k with
     | Some _ => k
     | None => HashKeys (Some (draw k)) (current k) (random_bytes k) (S (drawn k))
     end).

Definition internal_hashmap_clear (h : hashmap) : hashmap :=
  base_set_dirty (set_tail IDX_NIL (set_head IDX_NIL (reset_direct_storage (set_store (Direct 0) h)))).

(** The indices of the buckets in use, in the order of the loop over them *)
Fixpoint used_buckets (fuel : nat) (h : hashmap) (idx : Z) : list Z :=
  match fuel with
  | O => []
  | S fuel =>
      let j := skip_free_buckets h idx in
      if j =? IDX_NIL then [] else j :: used_buckets fuel h (j + 1)
  end.

Fixpoint read_all {A} (f : Z -> stm state A) (l : list Z) : stm state (list A) :=
  match l with
  | [] => mret []
  | j :: l => x ← f j; r ← read_all f l; mret (x :: r)
  end.

(** What is passed to [free] comes first. *)
Definition internal_hashmap_clear_free : stm state (list Z) :=
  h ← hget;
  freed ← read_all (fun j => e ← bucket_at j; mret (entry_value h e))
            (used_buckets (S (Z.to_nat (n_buckets h))) h 0);
  hmod internal_hashmap_clear;;
  mret freed.

Definition hashmap_clear_free_free : stm state (list (Z * Z)) :=
  h ← hget;
  freed ← read_all (fun j => e ← bucket_at j; mret (key e, value e))
            (used_buckets (S (Z.to_nat (n_buckets h))) h 0);
  hmod internal_hashmap_clear;;
  mret freed.

(** ** Putting *)

(** One round less of [fuel] for each bucket looked at *)
Fixpoint hashmap_put_robin_hood (fuel : nat) (idx distance : Z) : stm state bool :=
  match fuel with
  | O => sfail EASSERT
  | S fuel =>
      raw_dib ← dib_raw idx;
      if (raw_dib =? DIB_RAW_FREE) || (raw_dib =? DIB_RAW_REHASH) then
        (if raw_dib =? DIB_RAW_REHASH then bucket_move_entry idx IDX_TMP else mret tt);;
        hmod (fun h => if has_indirect h && (idx <? idx_lowest_entry h) then set_lowest idx h else h);;
        bucket_set_dib idx distance;;
        bucket_move_entry IDX_PUT idx;;
        (if raw_dib =? DIB_RAW_REHASH then bucket_move_entry IDX_TMP IDX_PUT;; mret true else mret false)
      else
        dib ← bucket_calculate_dib idx raw_dib;
        (if dib <? distance then
           bucket_set_dib idx distance;;
           bucket_move_entry idx IDX_TMP;;
           bucket_move_entry IDX_PUT idx;;
           bucket_move_entry IDX_TMP IDX_PUT
         else mret tt);;
        h ← hget;
        hashmap_put_robin_hood fuel (next_idx h idx) (wrap32 ((if dib <? distance then dib else distance) + 1))
  end.

(** [log2u], [log2u_round_up] of util.h *)
Definition log2u (x : Z) : Z := Z.log2 x.
Definition log2u_round_up (x : Z) : Z := if x =? 1 then 0 else log2u (x - 1) + 1.

(** The entry in [IDX_PUT] finds its bucket, and so does each one that it displaces;
    how many did is counted in [n]. *)
Fixpoint rehash_chain (fuel : nat) (optimal_idx n : Z) : stm state Z :=
  match fuel with
  | O => sfail EASSERT
  | S fuel =>
      h ← hget;
      rehash_next ← hashmap_put_robin_hood (Z.to_nat (n_buckets h)) optimal_idx 0;
      let n := wrap32 (n + 1) in
      if rehash_next : bool
      then s ← hgets (fun s => bucket_hash s (key (swap_put s))); rehash_chain fuel s n
      else mret n
  end.

(** A function's own [struct swap_entries], uninitialised, and gone when it returns *)
Definition local_swap {A} (f : stm state A) : stm state A := fun s =>
  let '(r, s') := f s in (r, State (base s') (swap_put s) (swap_tmp s) (keys s')).

(** The loop over the old buckets, [todo] of them from [idx] on *)
Fixpoint rehash_loop (todo : nat) (idx n : Z) : stm state Z :=
  match todo with
  | O => mret n
  | S todo =>
      d ← dib_raw idx;
      if negb (d =? DIB_RAW_REHASH) then rehash_loop todo (idx + 1) n
      else
        e ← bucket_at idx;
        optimal_idx ← hgets (fun s => bucket_hash s (key e));
        if optimal_idx =? idx then
          dib_raw_set idx 0;;
          rehash_loop todo (idx + 1) (wrap32 (n + 1))
        else
          dib_raw_set idx DIB_RAW_FREE;;
          bucket_move_entry idx IDX_PUT;;
          bucket_put idx zero_entry;;
          h ← hget;
          n ← rehash_chain (Z.to_nat (n_buckets h)) optimal_idx n;
          rehash_loop todo (idx + 1) n
  end.

(** The storage after the reallocation: the buckets and distances of before, moved
    and marked, and free ones behind them. *)
Definition grow_storage (new_n : Z) (h : hashmap) : hashmap :=
  let fresh := Z.to_nat (new_n - n_buckets h) in
  set_dibs (((fun d => if d =? DIB_RAW_FREE then DIB_RAW_FREE else DIB_RAW_REHASH) <$> dibs h)
              ++ repeat DIB_RAW_FREE fresh)
    (set_buckets (buckets h ++ repeat zero_entry fresh) h).

(** The new distances must not overlap the old ones in the reallocated storage,
    as the comment on the copying loop says; a shift by 32 is undefined. *)
Definition resize_buckets (entries_add : Z) : stm state bool :=
  h ← hget;
  let es := entry_size (type h) in
  let new_n_entries := wrap32 (n_entries h + entries_add) in
  sreq (negb (new_n_entries <? entries_add)) ENOMEM;;
  if negb (has_indirect h) && (new_n_entries <=? n_direct_buckets (type h)) then mret false
  else
    let new_n_buckets := wrap32 (new_n_entries + new_n_entries `div` (INV_KEEP_FREE - 1)) in
    sreq (negb (new_n_buckets <? new_n_entries)) ENOMEM;;
    sreq (negb (UINT_MAX `div` (es + 1) <? new_n_buckets)) ENOMEM;;
    if new_n_buckets <=? n_buckets h then mret false
    else
      let new_shift := log2u_round_up ((new_n_buckets * (es + 1)) `max` (2 * direct_storage_size)) in
      sreq (new_shift <? 32) EASSERT;;
      k ← get_hash_key (negb (has_indirect h));
      let new_n := 2 ^ new_shift `div` (es + 1) in
      sreq (es * n_buckets h + n_buckets h <=? es * new_n) EASSERT;;
      sreq (negb (existsb (Z.eqb DIB_RAW_REHASH) (dibs h))) EASSERT;;
      hmod (fun h => set_store (Indirect k (n_entries h) new_n (idx_lowest_entry h)) (grow_storage new_n h));;
      n_rehashed ← local_swap (rehash_loop (Z.to_nat (n_buckets h)) 0 0);
      h ← hget;
      sreq (n_rehashed =? n_entries h) EASSERT;;
      mret true.

(** The entry of an ordered map is put at the end of its list. *)
Definition link_last : stm state unit :=
  h ← hget;
  smod (fun s => set_swap_put (set_previous (iterate_list_tail h) (set_next IDX_NIL (swap_put s))) s);;
  (if negb (iterate_list_tail h =? IDX_NIL) then
     old_tail ← bucket_at (iterate_list_tail h);
     sreq (iterate_next old_tail =? IDX_NIL) EASSERT;;
     bucket_put (iterate_list_tail h) (set_next IDX_PUT old_tail)
   else mret tt);;
  hmod (set_tail IDX_PUT);;
  hmod (fun h => if iterate_list_head h =? IDX_NIL then set_head IDX_PUT h else h).

Definition hashmap_base_put_boldly (idx : Z) (may_resize : bool) : stm state Z :=
  h ← hget;
  sreq (idx <? n_buckets h) EASSERT;;
  idx ← (if may_resize
         then r ← resize_buckets 1;
              if r : bool then hgets (fun s => bucket_hash s (key (swap_put s))) else mret idx
         else mret idx);
  h ← hget;
  sreq (n_entries h <? n_buckets h) EASSERT;;
  (if is_ordered h then link_last else mret tt);;
  displaced ← hashmap_put_robin_hood (Z.to_nat (n_buckets h)) idx 0;
  sreq (negb displaced) EASSERT;;
  hmod n_entries_inc;;
  hmod base_set_dirty;;
  mret 1.

(** ** Looking up *)
Fixpoint base_bucket_scan (fuel : nat) (idx k distance : Z) : stm state Z :=
  match fuel with
  | O => sfail EASSERT
  | S fuel =>
      raw ← dib_raw idx;
      if raw =? DIB_RAW_FREE then mret IDX_NIL
      else
        dib ← bucket_calculate_dib idx raw;
        if dib <? distance then mret IDX_NIL
        else
          h ← hget;
          e ← bucket_at idx;
          if (dib =? distance) && (compare (ops h) (key e) k =? 0) then mret idx
          else base_bucket_scan fuel (next_idx h idx) k (wrap32 (distance + 1))
  end.

(** [bucket_scan(h, bucket_hash(h, key), key)]: the bucket of the hash, and what the
    scan from it finds *)
Definition bucket_scan (k : Z) : stm state (Z * Z) :=
  h ← hget;
  hash ← hgets (fun s => bucket_hash s k);
  sreq (hash <? n_buckets h) EASSERT;;
  idx ← base_bucket_scan (S (Z.to_nat (n_buckets h))) hash k 0;
  mret (hash, idx).

(** ** The calls *)
Definition hashmap_put (k v : Z) : stm state Z :=
  '(hash, idx) ← bucket_scan k;
  if negb (idx =? IDX_NIL) then
    e ← bucket_at idx;
    if value e =? v then mret 0 else sfail EEXIST
  else
    smod (fun s => set_swap_put (set_value v (set_key k (swap_put s))) s);;
    hashmap_base_put_boldly hash true.

Definition set_put (k : Z) : stm state Z :=
  '(hash, idx) ← bucket_scan k;
  if negb (idx =? IDX_NIL) then mret 0
  else
    smod (fun s => set_swap_put (set_key k (swap_put s)) s);;
    hashmap_base_put_boldly hash true.

Definition internal_hashmap_get (k : Z) : stm state Z :=
  '(_, idx) ← bucket_scan k;
  if idx =? IDX_NIL then mret 0
  else e ← bucket_at idx; h ← hget; mret (entry_value h e).

Definition internal_hashmap_contains (k : Z) : stm state bool :=
  '(_, idx) ← bucket_scan k;
  mret (negb (idx =? IDX_NIL)).

Definition internal_hashmap_remove (k : Z) : stm state Z :=
  '(_, idx) ← bucket_scan k;
  if idx =? IDX_NIL then mret 0
  else
    e ← bucket_at idx;
    h ← hget;
    base_remove_entry idx;;
    mret (entry_value h e).

Definition find_first_entry : stm state Z :=
  h ← hget;
  if n_entries h =? 0 then mret IDX_NIL
  else '(j, _) ← hashmap_iterate_entry ITERATOR_FIRST; mret j.

(** The key and the value: [None] where the code returns NULL for want of an entry. *)
Definition internal_hashmap_first_key_and_value (remove : bool) : stm state (option (Z * Z)) :=
  idx ← find_first_entry;
  if idx =? IDX_NIL then mret None
  else
    e ← bucket_at idx;
    h ← hget;
    (if remove then base_remove_entry idx else mret tt);;
    mret (Some (key e, entry_value h e)).

Definition internal_hashmap_size : stm state Z := hgets (fun s => n_entries (base s)).

(** [HASHMAP_FOREACH_IDX] with the body that collects the values *)
Fixpoint collect (fuel : nat) (i : Iterator) : stm state (list Z) :=
  match fuel with
  | O => sfail EASSERT
  | S fuel =>
      '(j, i) ← hashmap_iterate_entry i;
      if j =? IDX_NIL then mret []
      else
        e ← bucket_at j;
        h ← hget;
        r ← collect fuel i;
        mret (entry_value h e :: r)
  end.

Definition internal_hashmap_get_strv : stm state (list Z) :=
  h ← hget;
  collect (S (Z.to_nat (n_buckets h))) ITERATOR_FIRST.

(** Whether the value was freed comes second. *)
Definition set_consume (v : Z) : stm state (Z * bool) :=
  r ← set_put v;
  mret (r, r <=? 0).

(** [strdup] returned the pointer [c]. *)
Definition set_put_strdup (c p : Z) : stm state (Z * bool) :=
  b ← internal_hashmap_contains p;
  if b : bool then mret (0, false) else set_consume c.

(** [HASHMAP_FOREACH_KEY], [ORDERED_HASHMAP_FOREACH]: the entries the body was run
    for, in order *)
Fixpoint hashmap_foreach (fuel : nat) (body : Z * Z -> stm state unit) (i : Iterator) : stm state (list (Z * Z)) :=
  match fuel with
  | O => sfail EASSERT
  | S fuel =>
      '(x, i) ← internal_hashmap_iterate i;
      match x with
      | None => mret []
      | Some e => body e;; r ← hashmap_foreach fuel body i; mret (e :: r)
      end
  end.
