(* ===== verification/RobinHood.v ===== *)
(** * The order that Robin Hood hashing keeps

    A ring of [n] buckets, as the map from each bucket in use to the bucket that its
    entry hashes to, its home. An entry that is not at home follows a bucket in use
    whose entry is at most one step nearer to its own home. That is enough for
    lookups to stop early, and it is kept when an entry is placed, takes the place
    of a wealthier one, and when the entries behind a removed one move back. *)
From S2P Require Import Prelude.

Section ring.
Context (n : Z).

Definition valid (i : Z) : Prop := 0 <= i < n.
Definition next (i : Z) : Z := (i + 1) `mod` n.
Definition prev (i : Z) : Z := (i - 1) `mod` n.
(** How far [i] is behind [f]. *)
Definition dist (i f : Z) : Z := (i - f) `mod` n.

(** A bucket in use has its entry's home. *)
Abbreviation homes := (Z -> option Z) (only parsing).

Definition upd (g : homes) (i : Z) (x : option Z) : homes := fun j => if decide (j = i) then x else g j.

(** Whether an entry may be [d] steps from its home in bucket [i] *)
Definition step_ok (g : homes) (i d : Z) : Prop :=
  0 < d -> exists f, g (prev i) = Some f /\ d <= dist (prev i) f + 1.

Definition well (g : homes) (i : Z) : Prop :=
  forall f, g i = Some f -> valid f /\ step_ok g i (dist i f).

Definition robin_hood (g : homes) : Prop := forall i, valid i -> well g i.

Lemma upd_eq g i x : upd g i x i = x.
Proof. unfold upd. by rewrite decide_True. Qed.

Lemma upd_ne g i x j : j <> i -> upd g i x j = g j.
Proof. intros H. unfold upd. by rewrite decide_False. Qed.

(** ** The ring *)
Context (Hn : 0 < n).

Lemma dist_bound i f : 0 <= dist i f < n.
Proof. apply Z.mod_pos_bound, Hn. Qed.

Lemma next_valid i : valid (next i).
Proof. apply Z.mod_pos_bound, Hn. Qed.

Lemma prev_valid i : valid (prev i).
Proof. apply Z.mod_pos_bound, Hn. Qed.

Lemma next_cases i : valid i -> next i = if decide (i = n - 1) then 0 else i + 1.
Proof.
  unfold valid, next. intros Hi. case_decide as H.
  - subst i. by rewrite Z.sub_add, Z_mod_same_full.
  - apply Z.mod_small. lia.
Qed.

Lemma prev_cases i : valid i -> prev i = if decide (i = 0) then n - 1 else i - 1.
Proof.
  unfold valid, prev. intros Hi. case_decide as H.
  - subst i. rewrite <- (Z.mod_add _ 1) by lia. rewrite Z.mod_small; lia.
  - apply Z.mod_small. lia.
Qed.

Lemma dist_cases i f : valid i -> valid f -> dist i f = if decide (f <= i) then i - f else n + i - f.
Proof.
  unfold valid, dist. intros Hi Hf. case_decide.
  - apply Z.mod_small. lia.
  - rewrite <- (Z.mod_add _ 1) by lia. rewrite Z.mod_small; lia.
Qed.

(** [ring] turns distances and neighbours of valid buckets into linear arithmetic. *)
Ltac ring_facts :=
  repeat first
    [ match goal with
      | |- context [dist ?i ?f] => rewrite (dist_cases i f) by (unfold valid in *; lia)
      | |- context [next ?i] => rewrite (next_cases i) by (unfold valid in *; lia)
      | |- context [prev ?i] => rewrite (prev_cases i) by (unfold valid in *; lia)
      end
    | case_decide ];
  unfold valid in *; try lia.

Lemma prev_next i : valid i -> prev (next i) = i.
Proof. intros Hi. ring_facts. Qed.

Lemma next_prev i : valid i -> next (prev i) = i.
Proof. intros Hi. ring_facts. Qed.

Lemma dist_self i : dist i i = 0.
Proof. unfold dist. by rewrite Z.sub_diag, Z.mod_0_l by lia. Qed.

Lemma dist_zero i f : valid i -> valid f -> dist i f = 0 -> i = f.
Proof. intros Hi Hf. ring_facts. Qed.

Lemma dist_next i f : valid i -> valid f -> next i <> f -> dist (next i) f = dist i f + 1.
Proof. intros Hi Hf. ring_facts. Qed.

Lemma dist_prev i f : valid i -> valid f -> i <> f -> dist (prev i) f = dist i f - 1.
Proof. intros Hi Hf Hne. ring_facts. Qed.

Lemma dist_from_next i f : valid i -> valid f -> i <> f -> dist f (next i) = dist f i - 1.
Proof. intros Hi Hf. ring_facts. Qed.

Lemma dist_last i : valid i -> dist i (next i) = n - 1.
Proof. intros Hi. ring_facts. Qed.

Lemma dist_not_last i j : valid i -> valid j -> j <> i -> dist j (next i) < n - 1.
Proof. intros Hi Hj. ring_facts. Qed.

Lemma next_inj i j : valid i -> valid j -> next i = next j -> i = j.
Proof. intros Hi Hj E. by rewrite <- (prev_next i), <- (prev_next j), E. Qed.

Lemma next_ne i : valid i -> 1 < n -> next i <> i.
Proof. intros Hi H1. ring_facts. Qed.

(** Going forward from [h] *)
Lemma dist_forward h d : valid h -> 0 <= d < n -> dist ((h + d) `mod` n) h = d.
Proof.
  intros Hh Hd. unfold dist. rewrite Zminus_mod_idemp_l.
  replace (h + d - h) with d by lia. by apply Z.mod_small.
Qed.

Lemma forward_dist h i : valid h -> valid i -> (h + dist i h) `mod` n = i.
Proof.
  unfold valid, dist. intros Hh Hi. rewrite Zplus_mod_idemp_r.
  replace (h + (i - h)) with i by lia. by apply Z.mod_small.
Qed.

Lemma next_forward h d : next ((h + d) `mod` n) = (h + (d + 1)) `mod` n.
Proof. unfold next. rewrite Zplus_mod_idemp_l. by rewrite Z.add_assoc. Qed.

(** ** The way to an entry

    All buckets from the home [h] up to bucket [i] are in use, and none of their
    entries is nearer to its home than the bucket is to [h]. *)
Lemma way_back g i d k :
  robin_hood g -> valid i -> step_ok g i d -> (Z.of_nat k < d) ->
  exists f, g ((i - 1 - Z.of_nat k) `mod` n) = Some f /\
            d <= dist ((i - 1 - Z.of_nat k) `mod` n) f + 1 + Z.of_nat k.
Proof.
  intros Hg Hi Hs. induction k as [|k IH]; intros Hk.
  - destruct (Hs ltac:(lia)) as (f & Hf & Hd). exists f. rewrite Z.sub_0_r. split; [done|]. fold (prev i). lia.
  - destruct IH as (f & Hf & Hd); [lia|].
    set (j := (i - 1 - Z.of_nat k) `mod` n) in *.
    assert (Hj : valid j) by (apply Z.mod_pos_bound, Hn).
    destruct (Hg j Hj f Hf) as [_ Hjs]. destruct Hjs as (f' & Hf' & Hd'); [lia|].
    assert (prev j = (i - 1 - Z.of_nat (S k)) `mod` n) as <-.
    { unfold prev, j. rewrite Zminus_mod_idemp_l. f_equal. lia. }
    exists f'. split; [done|lia].
Qed.

Lemma way g i h j :
  robin_hood g -> valid i -> valid h -> valid j -> step_ok g i (dist i h) -> dist j h < dist i h ->
  exists f, g j = Some f /\ dist j h <= dist j f.
Proof.
  intros Hg Hi Hh Hj Hs Hlt. pose proof (dist_bound j h). pose proof (dist_bound i h).
  destruct (way_back g i (dist i h) (Z.to_nat (dist i h - 1 - dist j h)) Hg Hi Hs) as (f & Hf & Hd); [lia|].
  rewrite Z2Nat.id in Hf, Hd by lia.
  assert ((i - 1 - (dist i h - 1 - dist j h)) `mod` n = j) as E.
  { replace (i - 1 - (dist i h - 1 - dist j h)) with (i - dist i h + dist j h) by lia.
    unfold dist. rewrite <- Zplus_mod_idemp_l, Zminus_mod_idemp_r, Zplus_mod_idemp_l, Zplus_mod_idemp_r.
    replace (i - (i - h) + (j - h)) with j by lia. by apply Z.mod_small. }
  rewrite E in Hf, Hd. exists f. split; [done|lia].
Qed.

(** A free bucket is not on the way. *)
Lemma way_free g i h f :
  robin_hood g -> valid i -> valid h -> valid f -> step_ok g i (dist i h) -> g f = None ->
  dist i h <= dist f h.
Proof.
  intros Hg Hi Hh Hf Hs HN. destruct (Z.le_gt_cases (dist i h) (dist f h)) as [|Hlt]; [done|].
  destruct (way g i h f) as (f' & Hf' & _); [done..|]. by rewrite HN in Hf'.
Qed.

(** Beyond a bucket in use the way goes on without coming back to [h]. *)
Lemma way_on g i h f :
  robin_hood g -> valid i -> valid h -> valid f -> step_ok g i (dist i h) -> g f = None -> g i <> None ->
  dist (next i) h = dist i h + 1.
Proof.
  intros Hg Hi Hh Hf Hs HN Hu. apply dist_next; [done..|]. intros Hnx.
  pose proof (way_free g i h f Hg Hi Hh Hf Hs HN) as Hle.
  assert (dist i h = n - 1) as Hd by (subst h; ring_facts).
  assert (f = i) as ->; [|done].
  pose proof (dist_bound f h). rewrite <- (forward_dist h f), <- (forward_dist h i) by done. do 2 f_equal. lia.
Qed.

(** ** Changing buckets *)

(** An entry goes into a bucket that is free. *)
Lemma place_robin_hood g i h :
  robin_hood g -> valid i -> valid h -> step_ok g i (dist i h) -> g i = None -> robin_hood (upd g i (Some h)).
Proof.
  intros Hg Hi Hh Hs HN j Hj f Hf. destruct (decide (j = i)) as [->|Hne].
  - rewrite upd_eq in Hf. injection Hf as <-. split; [done|]. intros Hd.
    destruct (Hs Hd) as (f' & Hf' & Hd'). exists f'. split; [|done].
    destruct (decide (prev i = i)) as [E|E]; [|by rewrite upd_ne]. by rewrite E, HN in Hf'.
  - rewrite upd_ne in Hf by done. destruct (Hg j Hj f Hf) as [Hv Hsj]. split; [done|]. intros Hd.
    destruct (Hsj Hd) as (f' & Hf' & Hd'). exists f'. split; [|done].
    rewrite upd_ne; [done|]. intros E. by rewrite E, HN in Hf'.
Qed.

(** An entry takes the place of one that is nearer to its home. *)
Lemma replace_robin_hood g i h f0 :
  robin_hood g -> valid i -> valid h -> step_ok g i (dist i h) -> g i = Some f0 -> dist i f0 < dist i h ->
  robin_hood (upd g i (Some h)) /\ step_ok (upd g i (Some h)) (next i) (dist i f0 + 1).
Proof.
  intros Hg Hi Hh Hs H0 Hlt.
  assert (Hne : prev i <> i).
  { intros E. pose proof (dist_bound i f0).
    assert (1 < n) as H1 by (pose proof (dist_bound i h); lia).
    apply (next_ne i Hi H1). rewrite <- E at 1. by apply next_prev. }
  split.
  - intros j Hj f Hf. destruct (decide (j = i)) as [->|Hji].
    + rewrite upd_eq in Hf. injection Hf as <-. split; [done|]. intros Hd.
      destruct (Hs Hd) as (f' & Hf' & Hd'). exists f'. by rewrite upd_ne.
    + rewrite upd_ne in Hf by done. destruct (Hg j Hj f Hf) as [Hv Hsj]. split; [done|]. intros Hd.
      destruct (Hsj Hd) as (f' & Hf' & Hd'). destruct (decide (prev j = i)) as [E|E].
      * exists h. rewrite E in Hf', Hd' |- *. rewrite upd_eq. split; [done|].
        rewrite H0 in Hf'. injection Hf' as ->. lia.
      * exists f'. by rewrite upd_ne.
  - intros _. exists h. rewrite prev_next, upd_eq by done. split; [done|lia].
Qed.

(** Not every bucket is in use by an entry away from its home. *)
Definition slack (g : homes) : Prop := exists i, valid i /\ (g i = None \/ g i = Some i).

Lemma place_slack g i h :
  robin_hood g -> valid i -> valid h -> step_ok g i (dist i h) -> g i = None -> slack (upd g i (Some h)).
Proof.
  intros Hg Hi Hh Hs HN. destruct (decide (h = i)) as [->|Hhi].
  { exists i. split; [done|]. right. apply upd_eq. }
  assert (1 < n) as H1 by (unfold valid in *; lia).
  exists (next i). split; [apply next_valid|]. rewrite upd_ne by (by apply next_ne).
  destruct (g (next i)) as [f|] eqn:Hf; [|by left]. right. f_equal.
  destruct (Hg (next i) (next_valid i) f Hf) as [Hv Hsn].
  pose proof (dist_bound (next i) f). destruct (decide (dist (next i) f = 0)) as [E|E].
  - symmetry. apply dist_zero; [apply next_valid|done|done].
  - destruct Hsn as (f' & Hf' & _); [lia|]. rewrite prev_next, HN in Hf' by done. done.
Qed.

(** ** Moving back

    The bucket [hole] has lost its entry, which could have been [D] steps from its
    home; the entry in the next bucket may be one step further from its own. The
    entries up to [right] are to move back. *)
Record moving (g : homes) (hole D right : Z) : Prop := {
  mv_hole : valid hole;
  mv_right : valid right;
  mv_free : g hole = None;
  mv_others : forall i, valid i -> i <> next hole -> well g i;
  mv_next : forall f, g (next hole) = Some f -> valid f /\ dist (next hole) f <= D + 1;
  mv_pos : 0 <= D;
  mv_step : step_ok g hole D;
  mv_stop : g right = None \/ g right = Some right;
  mv_first : hole = right -> D = 0 }.

Lemma moving_ext g g' hole D right :
  (forall i, valid i -> g' i = g i) -> moving g hole D right -> moving g' hole D right.
Proof.
  intros He [Hh Hr HN Ho Hx Hp Hs Hst H1].
  assert (Hok : forall i d, step_ok g i d -> step_ok g' i d).
  { intros i d H Hd. destruct (H Hd) as (f & ? & ?). exists f. rewrite He; [done|apply prev_valid]. }
  split; try done.
  - by rewrite He.
  - intros i Hi Hne f Hf. rewrite He in Hf by done. destruct (Ho i Hi Hne f Hf). by auto.
  - intros f Hf. rewrite He in Hf by apply next_valid. auto.
  - auto.
  - by rewrite He.
Qed.

Lemma moving_start g i f right :
  robin_hood g -> valid i -> valid right -> g i = Some f ->
  (g right = None \/ g right = Some right) -> moving (upd g i None) i (dist i f) right.
Proof.
  intros Hg Hi Hr Hf Hst. destruct (Hg i Hi f Hf) as [Hv Hs].
  assert (Hprev : forall j f', j <> next i -> g (prev j) = Some f' -> valid j -> upd g i None (prev j) = Some f').
  { intros j f' Hj Hf' Hvj. rewrite upd_ne; [done|]. intros E. apply Hj. rewrite <- E. symmetry. by apply next_prev. }
  split; try done.
  - apply upd_eq.
  - intros j Hj Hjn f' Hf'. destruct (decide (j = i)) as [->|Hji]; [by rewrite upd_eq in Hf'|].
    rewrite upd_ne in Hf' by done. destruct (Hg j Hj f' Hf') as [Hv' Hs']. split; [done|]. intros Hd.
    destruct (Hs' Hd) as (f'' & Hf'' & Hd''). exists f''. split; [|done]. by apply Hprev.
  - intros f' Hf'. destruct (decide (next i = i)) as [E|E]; [by rewrite E, upd_eq in Hf'|].
    rewrite upd_ne in Hf' by done. destruct (Hg _ (next_valid i) f' Hf') as [Hv' Hs']. split; [done|].
    destruct (Z.le_gt_cases (dist (next i) f') 0) as [|Hd]; [pose proof (dist_bound i f); lia|].
    destruct (Hs' Hd) as (f'' & Hf'' & Hd''). rewrite prev_next in Hf'', Hd'' by done.
    rewrite Hf in Hf''. injection Hf'' as <-. done.
  - apply dist_bound.
  - intros Hd. destruct (Hs Hd) as (f' & Hf' & Hd'). exists f'. split; [|done]. apply Hprev; [|done|done].
    intros E. assert (n = 1) as H1.
    { destruct (decide (n = 1)); [done|]. exfalso. apply (next_ne i Hi); [lia|done]. }
    pose proof (dist_bound i f). lia.
  - destruct (decide (right = i)) as [->|Hri]; [left; apply upd_eq|]. by rewrite upd_ne.
  - intros <-. destruct Hst as [E|E]; rewrite Hf in E; [done|]. injection E as ->. apply dist_self.
Qed.

Lemma moving_step g hole D right f0 :
  moving g hole D right -> next hole <> right -> g (next hole) = Some f0 -> f0 <> next hole ->
  moving (upd (upd g hole (Some f0)) (next hole) None) (next hole) (dist (next hole) f0) right.
Proof.
  intros [Hh Hr HN Ho Hx Hp Hs Hst H1] Hne H0 Hf0. set (left := next hole) in *.
  destruct (Hx f0 H0) as [Hv Hd].
  assert (Hl : valid left) by apply next_valid.
  assert (Hlh : left <> hole) by (intros E; by rewrite E, HN in H0).
  assert (Hn1 : 1 < n) by (unfold valid in *; lia).
  assert (Hpl : prev left = hole) by (by apply prev_next).
  assert (Hdh : dist hole f0 = dist left f0 - 1) by (rewrite <- Hpl; by apply dist_prev).
  assert (Hnl : next left <> left) by (by apply next_ne).
  pose proof (dist_bound left f0) as Hb. pose proof (dist_bound hole f0) as Hb'.
  split; try done.
  - apply upd_eq.
  - intros i Hi Hin f Hf. destruct (decide (i = left)) as [->|Hil]; [by rewrite upd_eq in Hf|].
    rewrite upd_ne in Hf by done.
    assert (Hpi : prev i <> left).
    { intros E. apply Hin. rewrite <- E. symmetry. by apply next_prev. }
    destruct (decide (i = hole)) as [->|Hih].
    + rewrite upd_eq in Hf. injection Hf as <-. split; [done|]. intros Hpos.
      destruct (Hs ltac:(lia)) as (f' & Hf' & Hd'). exists f'. rewrite !upd_ne; [split; [done|lia]| |done].
      intros E. by rewrite E, HN in Hf'.
    + rewrite upd_ne in Hf by done. destruct (Ho i Hi Hil f Hf) as [Hv' Hs']. split; [done|]. intros Hpos.
      destruct (Hs' Hpos) as (f' & Hf' & Hd'). exists f'. rewrite !upd_ne; [done| |done].
      intros E. by rewrite E, HN in Hf'.
  - intros f Hf. rewrite upd_ne in Hf by done. destruct (decide (next left = hole)) as [E|E].
    + rewrite E, upd_eq in Hf. injection Hf as <-. rewrite E. split; [done|lia].
    + rewrite upd_ne in Hf by done. destruct (Ho (next left) (next_valid left) Hnl f Hf) as [Hv' Hs'].
      split; [done|]. destruct (Z.le_gt_cases (dist (next left) f) 0) as [|Hpos]; [lia|].
      destruct (Hs' Hpos) as (f' & Hf' & Hd'). rewrite prev_next in Hf', Hd' by done.
      rewrite H0 in Hf'. injection Hf' as <-. done.
  - apply Hb.
  - intros _. exists f0. rewrite Hpl, upd_ne, upd_eq by done. split; [done|lia].
  - rewrite upd_ne by done. destruct (decide (right = hole)) as [->|Hrh].
    + rewrite upd_eq. right. f_equal. rewrite H1 in Hd by done. symmetry. apply dist_zero; [done..|].
      assert (dist left f0 <> 0); [|lia]. intros E. apply Hf0. symmetry. by apply dist_zero.
    + by rewrite upd_ne.
Qed.

Lemma moving_end g hole D right :
  moving g hole D right -> next hole = right -> robin_hood g.
Proof.
  intros [Hh Hr HN Ho Hx Hp Hs Hst H1] E i Hi. destruct (decide (i = next hole)) as [->|Hne]; [|by apply Ho].
  intros f Hf. rewrite E in Hf |- *. destruct Hst as [Hst|Hst]; rewrite Hf in Hst; [done|].
  injection Hst as ->. split; [done|]. rewrite dist_self. intros ?. lia.
Qed.

(** A ring of entries away from their homes has no slack. *)
Lemma slack_stop g i :
  slack g -> exists k, 0 <= k < n /\ (g ((i + k) `mod` n) = None \/ g ((i + k) `mod` n) = Some ((i + k) `mod` n)).
Proof.
  intros (j & Hj & Hg). exists (dist j i). split; [apply dist_bound|].
  assert ((i + dist j i) `mod` n = j) as ->; [|done].
  unfold dist. rewrite Zplus_mod_idemp_r. replace (i + (j - i)) with j by lia. by apply Z.mod_small.
Qed.
End ring.
