(* ===== verification/HashTable.v ===== *)
(** * The buckets of a hash table ([src/basic/hashmap.c])

    The storage seen as functions of an index, the list that links the entries of
    an ordered map, and what moving an entry does to both. *)
From S2P Require Import Prelude Siphash Hashmap RobinHood.

(** ** Views of the state *)
Abbreviation nb s := (n_buckets (base s)) (only parsing).

(** The entry at a real or a swap index, the distance byte *)
Definition at_ (s : state) (i : Z) : entry :=
  if i <? IDX_SWAP_BEGIN then default zero_entry (nthZ (buckets (base s)) i)
  else if i =? IDX_PUT then swap_put s else swap_tmp s.

Definition raw (s : state) (i : Z) : Z := default DIB_RAW_FREE (nthZ (dibs (base s)) i).

Definition kv (s : state) (i : Z) : Z * Z := (key (at_ s i), value (at_ s i)).

(** A bucket or a swap entry *)
Definition place (n i : Z) : Prop := valid n i \/ i = IDX_PUT \/ i = IDX_TMP.

Record shaped (s : state) : Prop := {
  sh_pos : 0 < nb s <= 2 ^ 30;
  sh_buckets : length (buckets (base s)) = Z.to_nat (nb s);
  sh_dibs : length (dibs (base s)) = Z.to_nat (nb s) }.

(** What moving entries about does not touch *)
Record kept (s s' : state) : Prop := {
  k_ops : ops (base s') = ops (base s);
  k_type : type (base s') = type (base s);
  k_store : store (base s') = store (base s);
  k_keys : keys s' = keys s;
  k_buckets : length (buckets (base s')) = length (buckets (base s));
  k_dibs : length (dibs (base s')) = length (dibs (base s)) }.

#[export] Instance kept_refl : Reflexive kept.
Proof. by split. Qed.

#[export] Instance kept_trans : Transitive kept.
Proof. intros s1 s2 s3 [] []. split; congruence. Qed.

Lemma kept_n s s' : kept s s' -> nb s' = nb s.
Proof. intros [_ Ht Hs _ _ _]. unfold n_buckets. by rewrite Hs, Ht. Qed.

Lemma bucket_hash_same s s' k :
  ops (base s') = ops (base s) -> hash_key s' = hash_key s -> nb s' = nb s -> bucket_hash s' k = bucket_hash s k.
Proof. unfold bucket_hash. by intros -> -> ->. Qed.

Lemma bucket_hash_valid s k : 0 < nb s -> valid (nb s) (bucket_hash s k).
Proof. intros H. by apply Z.mod_pos_bound. Qed.

Lemma bucket_hash_equal s a b : (forall st, hash (ops (base s)) a st = hash (ops (base s)) b st) -> bucket_hash s a = bucket_hash s b.
Proof. intros H. unfold bucket_hash. by rewrite H. Qed.

(** What else the hash is matters nowhere. *)
#[global] Opaque bucket_hash.

Lemma kept_hash s s' k : kept s s' -> bucket_hash s' k = bucket_hash s k.
Proof.
  intros H. apply bucket_hash_same; [apply H| |by apply kept_n].
  unfold hash_key. by rewrite (k_store _ _ H), (k_keys _ _ H).
Qed.

Lemma kept_shaped s s' : kept s s' -> shaped s -> shaped s'.
Proof.
  intros H [H1 H2 H3]. split; rewrite (kept_n _ _ H); [done| |].
  - by rewrite (k_buckets _ _ H).
  - by rewrite (k_dibs _ _ H).
Qed.

Lemma kept_ordered s s' : kept s s' -> is_ordered (base s') = is_ordered (base s).
Proof. intros H. unfold is_ordered. by rewrite (k_type _ _ H). Qed.

Lemma hget_bind {A} (f : hashmap -> stm state A) s : (hget ≫= f) s = f (base s) s.
Proof. done. Qed.

Lemma hgets_bind {A B} (g : state -> B) (f : B -> stm state A) s : (hgets g ≫= f) s = f (g s) s.
Proof. done. Qed.

Lemma hmod_bind {A} g (f : stm state A) s : (hmod g;; f) s = f (set_base (g (base s)) s).
Proof. done. Qed.

Lemma smod_bind {A} g (f : stm state A) s : (smod g;; f) s = f (g s).
Proof. done. Qed.

Lemma sreq_bind {A} b e (f : stm state A) s : b = true -> (sreq b e;; f) s = f s.
Proof. by intros ->. Qed.

(** ** Lists by index *)
Lemma nthZ_setZ {A} (l : list A) i x j :
  0 <= i < Z.of_nat (length l) -> nthZ (setZ i x l) j = if decide (j = i) then Some x else nthZ l j.
Proof.
  intros Hi. unfold nthZ, setZ. case_decide as Hj.
  - subst j. rewrite (proj2 (Z.ltb_ge i 0)) by lia. apply list_lookup_insert_eq. lia.
  - destruct (Z.ltb_spec j 0); [done|]. apply list_lookup_insert_ne. lia.
Qed.

Lemma nthZ_some {A} (l : list A) i d : 0 <= i < Z.of_nat (length l) -> nthZ l i = Some (default d (nthZ l i)).
Proof.
  intros Hi. unfold nthZ. rewrite (proj2 (Z.ltb_ge i 0)) by lia.
  destruct (lookup_lt_is_Some_2 l (Z.to_nat i)) as [x ->]; [lia|done].
Qed.

Lemma length_setZ {A} (l : list A) i x : length (setZ i x l) = length l.
Proof. apply length_insert. Qed.

(** ** The accesses as functions *)
Definition put (i : Z) (e : entry) (s : state) : state :=
  if i <? IDX_SWAP_BEGIN then set_base (set_buckets (setZ i e (buckets (base s))) (base s)) s
  else if i =? IDX_PUT then set_swap_put e s else set_swap_tmp e s.

Definition put_dib (i d : Z) (s : state) : state := set_base (set_dibs (setZ i d (dibs (base s))) (base s)) s.

Lemma swap_order : IDX_SWAP_BEGIN = 4294967292 /\ IDX_PUT = 4294967292 /\ IDX_TMP = 4294967293 /\ IDX_NIL = 4294967295.
Proof. done. Qed.

Lemma valid_lt s i : shaped s -> valid (nb s) i -> (i <? IDX_SWAP_BEGIN) = true.
Proof. intros [] Hi. unfold valid in Hi. apply Z.ltb_lt. pose proof swap_order. lia. Qed.

Lemma place_ne_nil s i : shaped s -> place (nb s) i -> i <> IDX_NIL.
Proof. intros [] [Hi|[->| ->]]; [|done..]. unfold valid in Hi. pose proof swap_order. lia. Qed.

Lemma valid_ne_swap s i : shaped s -> valid (nb s) i -> i <> IDX_PUT /\ i <> IDX_TMP /\ i <> IDX_NIL /\ i <> IDX_FIRST.
Proof.
  intros [] Hi. unfold valid in Hi. pose proof swap_order as (_ & -> & -> & ->).
  change IDX_FIRST with 4294967294. lia.
Qed.

Section access.
Context (s : state) (Hs : shaped s).

Lemma bucket_at_run i : valid (nb s) i -> bucket_at i s = (Ok (at_ s i), s).
Proof.
  intros Hi. unfold bucket_at, at_. rewrite (valid_lt s i Hs Hi).
  rewrite (nthZ_some _ _ zero_entry) by (rewrite sh_buckets by done; unfold valid in Hi; lia). done.
Qed.

Lemma at_virtual_run i : place (nb s) i -> bucket_at_virtual i s = (Ok (at_ s i), s).
Proof.
  intros [Hi|Hi]; unfold bucket_at_virtual.
  - rewrite (valid_lt s i Hs Hi). by apply bucket_at_run.
  - by destruct Hi as [-> | ->].
Qed.

Lemma bucket_put_run i e : valid (nb s) i -> bucket_put i e s = (Ok tt, put i e s).
Proof.
  intros Hi. unfold bucket_put, put. rewrite (stm_bind_run _ _ _ _ _ (bucket_at_run i Hi)).
  by rewrite (valid_lt s i Hs Hi).
Qed.

Lemma put_virtual_run i e : place (nb s) i -> bucket_put_virtual i e s = (Ok tt, put i e s).
Proof.
  intros [Hi|Hi]; unfold bucket_put_virtual.
  - rewrite (valid_lt s i Hs Hi). by apply bucket_put_run.
  - by destruct Hi as [-> | ->].
Qed.

Lemma mod_virtual_run i f : place (nb s) i -> bucket_mod_virtual i f s = (Ok tt, put i (f (at_ s i)) s).
Proof.
  intros Hi. unfold bucket_mod_virtual. rewrite (stm_bind_run _ _ _ _ _ (at_virtual_run i Hi)).
  by apply put_virtual_run.
Qed.

Lemma dib_raw_run i : valid (nb s) i -> dib_raw i s = (Ok (raw s i), s).
Proof.
  intros Hi. unfold dib_raw, raw.
  rewrite (nthZ_some _ _ DIB_RAW_FREE) by (rewrite sh_dibs by done; unfold valid in Hi; lia). done.
Qed.

Lemma dib_raw_set_run i d : valid (nb s) i -> dib_raw_set i d s = (Ok tt, put_dib i d s).
Proof. intros Hi. unfold dib_raw_set. by rewrite (stm_bind_run _ _ _ _ _ (dib_raw_run i Hi)). Qed.

Lemma put_at i e j :
  place (nb s) i -> place (nb s) j -> at_ (put i e s) j = if decide (j = i) then e else at_ s j.
Proof.
  intros [Hi|Hi] Hj; unfold put, at_.
  - rewrite (valid_lt s i Hs Hi). cbn [base set_base buckets set_buckets swap_put swap_tmp].
    destruct (j <? IDX_SWAP_BEGIN) eqn:E.
    + rewrite nthZ_setZ by (rewrite sh_buckets by done; unfold valid in Hi; lia). by case_decide.
    + rewrite decide_False; [done|]. intros ->. by rewrite (valid_lt s i Hs Hi) in E.
  - destruct (decide (j = i)) as [->|Hne].
    + by destruct Hi as [-> | ->].
    + destruct Hj as [Hj|Hj].
      * rewrite (valid_lt s j Hs Hj). by destruct Hi as [-> | ->].
      * destruct Hi as [-> | ->], Hj as [-> | ->]; done.
Qed.

Lemma put_kept i e : kept s (put i e s).
Proof.
  unfold put. destruct (i <? _); [|by destruct (i =? _)]. split; try done. apply length_setZ.
Qed.

Lemma put_dibs i e : dibs (base (put i e s)) = dibs (base s).
Proof. unfold put. destruct (i <? _); [done|by destruct (i =? _)]. Qed.

Lemma put_ends i e : iterate_list_head (base (put i e s)) = iterate_list_head (base s) /\
                     iterate_list_tail (base (put i e s)) = iterate_list_tail (base s).
Proof. unfold put. destruct (i <? _); [done|by destruct (i =? _)]. Qed.

Lemma put_raw i e j : raw (put i e s) j = raw s j.
Proof. unfold put, raw. destruct (i <? _); [done|by destruct (i =? _)]. Qed.

Lemma put_dib_raw i d j : valid (nb s) i -> raw (put_dib i d s) j = if decide (j = i) then d else raw s j.
Proof.
  intros Hi. unfold put_dib, raw. cbn. rewrite nthZ_setZ by (rewrite sh_dibs by done; unfold valid in Hi; lia).
  by case_decide.
Qed.

Lemma put_dib_at i d j : at_ (put_dib i d s) j = at_ s j.
Proof. done. Qed.

Lemma put_dib_kept i d : kept s (put_dib i d s).
Proof. split; try done. apply length_setZ. Qed.
End access.

(** ** Chains

    [chain m p o e]: through [m], the entries of [o] are linked one after the other,
    between [p] and [e]. *)
Fixpoint chain (m : Z -> entry) (p : Z) (o : list Z) (e : Z) : Prop :=
  match o with
  | [] => True
  | a :: o' => iterate_previous (m a) = p /\ iterate_next (m a) = default e (head o') /\ chain m a o' e
  end.

Lemma chain_app m p o1 o2 e :
  chain m p (o1 ++ o2) e <-> chain m p o1 (default e (head o2)) /\ chain m (default p (last o1)) o2 e.
Proof.
  revert p; induction o1 as [|a o1 IH]; intros p; [by split; [|intros []]|].
  cbn [app chain]. rewrite IH. destruct o1 as [|b o1]; [cbn; tauto|].
  change (last (a :: b :: o1)) with (last (b :: o1)).
  destruct (proj2 (last_is_Some (b :: o1))) as [c ->]; [done|]. cbn. tauto.
Qed.

Lemma chain_frame m m' p o e : (forall a, a ∈ o -> m' a = m a) -> chain m p o e -> chain m' p o e.
Proof.
  revert p; induction o as [|a o IH]; intros p Hm; [done|]. cbn. rewrite Hm by left.
  intros (? & ? & ?). split; [done|]. split; [done|]. apply IH; [|done]. intros b Hb. apply Hm. by right.
Qed.

(** A new neighbour behind the last, or before the first entry *)
Lemma chain_end m m' p o e e' :
  NoDup o -> chain m p o e -> (forall a, a ∈ o -> last o <> Some a -> m' a = m a) ->
  (forall a, last o = Some a -> m' a = set_next e' (m a)) -> chain m' p o e'.
Proof.
  revert p; induction o as [|a o IH]; intros p Hnd Hc Hm Hl; [done|].
  apply NoDup_cons in Hnd as [Ha Hnd]. destruct Hc as (H1 & H2 & H3). destruct o as [|b o].
  - cbn. by rewrite (Hl a).
  - change (last (a :: b :: o)) with (last (b :: o)) in *.
    assert (last (b :: o) <> Some a) as Hne.
    { intros E. apply Ha. by apply last_Some_elem_of. }
    cbn [chain]. rewrite (Hm a) by (done || left). split; [done|]. split; [done|].
    apply IH; [done|done| |done]. intros c Hc' Hc. apply Hm; [by right|done].
Qed.

Lemma chain_start m m' p p' o e :
  NoDup o -> chain m p o e -> (forall a, a ∈ o -> head o <> Some a -> m' a = m a) ->
  (forall a, head o = Some a -> m' a = set_previous p' (m a)) -> chain m' p' o e.
Proof.
  destruct o as [|a o]; intros Hnd Hc Hm Hl; [done|].
  apply NoDup_cons in Hnd as [Ha Hnd]. destruct Hc as (H1 & H2 & H3). cbn. rewrite (Hl a) by done.
  split; [done|]. split; [done|]. apply (chain_frame m); [|done]. intros c Hc. apply Hm; [by right|].
  intros [= ->]. done.
Qed.

(** The entries in use, in the order of their list where the map has one *)
Record owned (s : state) (o : list Z) : Prop := {
  ow_nodup : NoDup o;
  ow_places : forall a, a ∈ o -> place (nb s) a;
  ow_linked : is_ordered (base s) = true ->
    chain (at_ s) IDX_NIL o IDX_NIL /\
    iterate_list_head (base s) = default IDX_NIL (head o) /\
    iterate_list_tail (base s) = default IDX_NIL (last o) }.

(** ** Moving an entry *)
Definition rn (from to a : Z) : Z := if decide (a = from) then to else a.

Lemma rn_other from to (o : list Z) : from ∉ o -> rn from to <$> o = o.
Proof.
  intros H. rewrite <- (list_fmap_id o) at 2. apply list_fmap_ext. intros i a Ha. unfold rn.
  rewrite decide_False; [done|]. intros ->. by apply H, list_elem_of_lookup_2 with i.
Qed.

Lemma rn_split from to (o1 o2 : list Z) : from ∉ o1 -> from ∉ o2 -> rn from to <$> (o1 ++ from :: o2) = o1 ++ to :: o2.
Proof.
  intros H1 H2. rewrite fmap_app, fmap_cons, (rn_other _ _ o1), (rn_other _ _ o2) by done.
  unfold rn. by rewrite decide_True.
Qed.

Lemma elem_rn from to (o : list Z) a : to ∉ o -> a ∈ rn from to <$> o <-> (a ∈ o /\ a <> from) \/ (a = to /\ from ∈ o).
Proof.
  intros Ht. rewrite list_elem_of_fmap. unfold rn. split.
  - intros (b & Hb & Hin). case_decide; subst; [by right|by left].
  - intros [[Ha Hne]|[-> Hf]]; [exists a; by rewrite decide_False|exists from; by rewrite decide_True].
Qed.

Definition relink (f : entry -> entry) (x : Z) (s : state) : state :=
  if x =? IDX_NIL then s else put x (f (at_ s x)) s.

Section relink.
Context (s : state) (Hs : shaped s) (x : Z) (Hx : x = IDX_NIL \/ place (nb s) x) (f : entry -> entry).

Lemma relink_run :
  (if negb (x =? IDX_NIL) then bucket_mod_virtual x f else mret tt) s = (Ok tt, relink f x s).
Proof.
  unfold relink. destruct (Z.eqb_spec x IDX_NIL) as [->|Hne]; [done|]. destruct Hx; [done|].
  by apply mod_virtual_run.
Qed.

Lemma relink_kept : kept s (relink f x s).
Proof. unfold relink. destruct (x =? _); [done|by apply put_kept]. Qed.

Lemma relink_at j : place (nb s) j -> at_ (relink f x s) j = if decide (j = x) then f (at_ s x) else at_ s j.
Proof.
  intros Hj. unfold relink. destruct (Z.eqb_spec x IDX_NIL) as [->|Hne].
  - rewrite decide_False; [done|]. by eapply place_ne_nil.
  - destruct Hx; [done|]. by rewrite put_at.
Qed.

Lemma relink_dibs : dibs (base (relink f x s)) = dibs (base s).
Proof. unfold relink, put. repeat case_match; done. Qed.

Lemma relink_ends : iterate_list_head (base (relink f x s)) = iterate_list_head (base s) /\
                    iterate_list_tail (base (relink f x s)) = iterate_list_tail (base s).
Proof. unfold relink, put. repeat case_match; done. Qed.
End relink.

Lemma kv_links s s' j :
  (exists a b, at_ s' j = set_next a (set_previous b (at_ s j)) \/ at_ s' j = at_ s j \/
     at_ s' j = set_next a (at_ s j) \/ at_ s' j = set_previous b (at_ s j)) -> kv s' j = kv s j.
Proof. unfold kv. by intros (a & b & [-> |[-> |[-> | ->]]]). Qed.

(** The last step: the ends of the list *)
Definition set_ends (from to : Z) (s : state) : state :=
  let h := base s in
  set_base (let h := if iterate_list_head h =? from then set_head to h else h in
            if iterate_list_tail h =? from then set_tail to h else h) s.

Lemma set_ends_kept from to s : kept s (set_ends from to s).
Proof. unfold set_ends. by repeat case_match; split. Qed.

Lemma set_ends_same from to s : dibs (base (set_ends from to s)) = dibs (base s) /\ forall j, at_ (set_ends from to s) j = at_ s j.
Proof. unfold set_ends, at_. by repeat case_match. Qed.

Lemma set_ends_ends from to s :
  iterate_list_head (base (set_ends from to s)) = rn from to (iterate_list_head (base s)) /\
  iterate_list_tail (base (set_ends from to s)) = rn from to (iterate_list_tail (base s)).
Proof.
  unfold set_ends, rn. cbn. destruct (Z.eqb_spec (iterate_list_head (base s)) from) as [E|E]; cbn;
    destruct (Z.eqb_spec (iterate_list_tail (base s)) from) as [E'|E']; cbn; repeat case_decide; done.
Qed.

Lemma move_ordered_run s from to :
  shaped s -> is_ordered (base s) = true -> place (nb s) from -> place (nb s) to -> from <> to ->
  (iterate_next (at_ s from) = IDX_NIL \/ place (nb s) (iterate_next (at_ s from))) ->
  (iterate_previous (at_ s from) = IDX_NIL \/ place (nb s) (iterate_previous (at_ s from))) ->
  iterate_next (at_ s from) <> to ->
  bucket_move_entry from to s =
  (Ok tt, set_ends from to (relink (set_next to) (iterate_previous (at_ s from))
            (relink (set_previous to) (iterate_next (at_ s from)) (put to (at_ s from) s)))).
Proof.
  intros Hs Ho Hf Ht Hne Hn Hp Hnt. unfold bucket_move_entry. rewrite (proj2 (Z.eqb_neq from to) Hne).
  rewrite sreq_bind by done. rewrite (stm_bind_run _ _ _ _ _ (at_virtual_run s Hs from Hf)).
  rewrite (stm_bind_run _ _ _ _ _ (put_virtual_run s Hs to _ Ht)).
  set (s1 := put to (at_ s from) s). pose proof (put_kept s to (at_ s from)) as K1. fold s1 in K1.
  rewrite hget_bind, (kept_ordered _ _ K1), Ho.
  pose proof (kept_shaped _ _ K1 Hs) as Hs1. pose proof (kept_n _ _ K1) as N1.
  assert (Ht1 : place (nb s1) to) by (by rewrite N1).
  assert (Hat1 : at_ s1 to = at_ s from) by (unfold s1; rewrite put_at by done; by rewrite decide_True).
  rewrite (stm_bind_run _ _ _ _ _ (at_virtual_run s1 Hs1 to Ht1)), Hat1.
  assert (Hn1 : iterate_next (at_ s from) = IDX_NIL \/ place (nb s1) (iterate_next (at_ s from))) by (by rewrite N1).
  rewrite (stm_bind_run _ _ _ _ _ (relink_run s1 Hs1 _ Hn1 (set_previous to))).
  set (s2 := relink _ _ s1). pose proof (relink_kept s1 (iterate_next (at_ s from)) (set_previous to)) as K2. fold s2 in K2.
  pose proof (kept_shaped _ _ K2 Hs1) as Hs2. pose proof (kept_n _ _ K2) as N2.
  assert (Ht2 : place (nb s2) to) by (by rewrite N2).
  assert (Hat2 : at_ s2 to = at_ s from) by (unfold s2; rewrite relink_at by done; by rewrite decide_False).
  rewrite (stm_bind_run _ _ _ _ _ (at_virtual_run s2 Hs2 to Ht2)), Hat2.
  assert (Hp2 : iterate_previous (at_ s from) = IDX_NIL \/ place (nb s2) (iterate_previous (at_ s from))) by (by rewrite N2, N1).
  rewrite (stm_bind_run _ _ _ _ _ (relink_run s2 Hs2 _ Hp2 (set_next to))).
  rewrite hmod_bind. unfold hmod, smod, set_ends. cbn [base set_base]. f_equal.
Qed.

(** What a move does, whatever the kind of the map *)
Record moved (s s' : state) (from to : Z) : Prop := {
  mo_kept : kept s s';
  mo_dibs : dibs (base s') = dibs (base s);
  mo_kv : forall j, place (nb s) j -> kv s' j = if decide (j = to) then kv s from else kv s j }.

(** The keys and values along the list stay. *)
Lemma moved_contents s s' from to (o : list Z) :
  moved s s' from to -> place (nb s) to -> to ∉ o -> (forall a, a ∈ o -> place (nb s) a) -> kv s' <$> (rn from to <$> o) = kv s <$> o.
Proof.
  intros M Hto Ht Hp. rewrite <- list_fmap_compose. apply list_fmap_ext. intros i a Ha%list_elem_of_lookup_2. cbn.
  unfold rn. case_decide as E.
  - subst a. by rewrite (mo_kv _ _ _ _ M to Hto), decide_True.
  - rewrite (mo_kv _ _ _ _ M a (Hp a Ha)). rewrite decide_False; [done|]. by intros ->.
Qed.

Lemma moved_put s from to : shaped s -> place (nb s) to -> moved s (put to (at_ s from) s) from to.
Proof.
  intros Hs Ht. split; [apply put_kept| |].
  - unfold put. by repeat case_match.
  - intros j Hj. unfold kv. rewrite put_at by done. by case_decide.
Qed.

Lemma kept_dibs_raw s s' i : dibs (base s') = dibs (base s) -> raw s' i = raw s i.
Proof. unfold raw. by intros ->. Qed.

Lemma set_next_kv s' s j v : at_ s' j = set_next v (at_ s j) -> kv s' j = kv s j.
Proof. unfold kv. by intros ->. Qed.

Lemma set_previous_kv s' s j v : at_ s' j = set_previous v (at_ s j) -> kv s' j = kv s j.
Proof. unfold kv. by intros ->. Qed.

Lemma relink_moved s0 s from to f x :
  (forall e, key (f e) = key e /\ value (f e) = value e) -> nb s = nb s0 ->
  shaped s -> (x = IDX_NIL \/ place (nb s) x) -> moved s0 s from to -> moved s0 (relink f x s) from to.
Proof.
  intros Hf Hnb Hs Hx [K D V]. split.
  - etrans; [exact K|apply relink_kept].
  - by rewrite relink_dibs.
  - intros j Hj. rewrite <- V by done. unfold kv. rewrite relink_at by (done || by rewrite Hnb).
    case_decide; [|done]. subst j. by rewrite (proj1 (Hf _)), (proj2 (Hf _)).
Qed.

Lemma neighbours s o1 i o2 :
  owned s (o1 ++ i :: o2) -> is_ordered (base s) = true ->
  iterate_previous (at_ s i) = default IDX_NIL (last o1) /\ iterate_next (at_ s i) = default IDX_NIL (head o2).
Proof.
  intros [Hnd Hp Hl] Ho. destruct (Hl Ho) as (Hc & _ & _). apply chain_app in Hc as [_ (H1 & H2 & _)]. done.
Qed.

Lemma neighbour_places s o1 i o2 :
  owned s (o1 ++ i :: o2) ->
  (default IDX_NIL (last o1) = IDX_NIL \/ place (nb s) (default IDX_NIL (last o1)) /\ default IDX_NIL (last o1) ∈ o1) /\
  (default IDX_NIL (head o2) = IDX_NIL \/ place (nb s) (default IDX_NIL (head o2)) /\ default IDX_NIL (head o2) ∈ o2).
Proof.
  intros [_ Hp _]. split.
  - destruct (last o1) as [a|] eqn:E; [|by left]. right. apply last_Some_elem_of in E. cbn.
    split; [|done]. apply Hp, elem_of_app. by left.
  - destruct o2 as [|a o2]; [by left|]. right. cbn. split; [|by left]. apply Hp, elem_of_app. right. right. left.
Qed.

Lemma not_default s (l : option Z) a : l <> Some a -> shaped s -> place (nb s) a -> a <> default IDX_NIL l.
Proof.
  intros Hl Hs Hp E. destruct l as [b|]; cbn in E; [congruence|]. subst a. by apply (place_ne_nil s IDX_NIL Hs).
Qed.

(** The chain after the links around [to] were redirected *)
Lemma chain_moved (m m' : Z -> entry) o1 from to o2 :
  NoDup (o1 ++ from :: o2) -> to ∉ o1 -> to ∉ o2 ->
  (forall a, a ∈ o1 -> last o1 <> Some a -> m' a = m a) -> (forall a, last o1 = Some a -> m' a = set_next to (m a)) ->
  (forall a, a ∈ o2 -> head o2 <> Some a -> m' a = m a) -> (forall a, head o2 = Some a -> m' a = set_previous to (m a)) ->
  m' to = m from -> chain m IDX_NIL (o1 ++ from :: o2) IDX_NIL -> chain m' IDX_NIL (o1 ++ to :: o2) IDX_NIL.
Proof.
  intros Hnd H1 H2 Ha Ha' Hb Hb' Ht Hc. apply chain_app in Hc as [Hc1 (Hp & Hn & Hc2)].
  apply NoDup_app in Hnd as (Hnd1 & _ & [_ Hnd2]%NoDup_cons).
  apply chain_app. split; [|split; [|split]].
  - cbn. by eapply chain_end.
  - by rewrite Ht.
  - by rewrite Ht.
  - by eapply chain_start.
Qed.

Lemma owned_rn_places s s' (o : list Z) from to :
  kept s s' -> place (nb s) to -> to ∉ o -> (forall a, a ∈ o -> place (nb s) a) ->
  forall a, a ∈ rn from to <$> o -> place (nb s') a.
Proof.
  intros K Ht Hno Hp a. rewrite (kept_n _ _ K), elem_rn by done. intros [[Ha _]|[-> _]]; [by apply Hp|done].
Qed.

Lemma NoDup_rn from to (o : list Z) : to ∉ o -> NoDup o -> NoDup (rn from to <$> o).
Proof.
  intros Ht Hnd. destruct (decide (from ∈ o)) as [Hf|Hf]; [|by rewrite rn_other].
  apply list_elem_of_split in Hf as (o1 & o2 & ->).
  apply NoDup_app in Hnd as (H1 & H2 & [H3 H4]%NoDup_cons).
  assert (from ∉ o1) as Hf1 by (intros H; apply (H2 from H); left).
  rewrite rn_split by done. rewrite elem_of_app, elem_of_cons in Ht.
  apply NoDup_app. split; [done|]. split.
  - intros a Ha [->|Ha2]%elem_of_cons; [tauto|]. apply (H2 a Ha). by right.
  - apply NoDup_cons. split; [tauto|done].
Qed.

Lemma chain_ends_moved s s3 o1 from to o2 :
  from ∉ o1 -> from ∉ o2 -> from <> IDX_NIL ->
  iterate_list_head (base s3) = iterate_list_head (base s) /\ iterate_list_tail (base s3) = iterate_list_tail (base s) ->
  iterate_list_head (base s) = default IDX_NIL (head (o1 ++ from :: o2)) ->
  iterate_list_tail (base s) = default IDX_NIL (last (o1 ++ from :: o2)) ->
  iterate_list_head (base (set_ends from to s3)) = default IDX_NIL (head (o1 ++ to :: o2)) /\
  iterate_list_tail (base (set_ends from to s3)) = default IDX_NIL (last (o1 ++ to :: o2)).
Proof.
  intros H1 H2 Hn [E1 E2] Hh Ht. destruct (set_ends_ends from to s3) as [-> ->].
  rewrite E1, E2, Hh, Ht, !last_app_cons. unfold rn. split.
  - destruct o1 as [|a o1]; cbn; [by rewrite decide_True|]. rewrite decide_False; [done|]. intros ->. apply H1. left.
  - destruct o2 as [|a o2]; cbn [last default]; [by rewrite decide_True|].
    destruct (proj2 (last_is_Some (a :: o2))) as [c Hc]; [done|]. change (last (from :: a :: o2)) with (last (a :: o2)).
    change (last (to :: a :: o2)) with (last (a :: o2)). rewrite Hc. cbn.
    rewrite decide_False; [done|]. intros ->. by apply H2, last_Some_elem_of.
Qed.

Lemma move_spec s o from to :
  shaped s -> owned s o -> place (nb s) to -> from ∈ o -> to ∉ o ->
  exists s', bucket_move_entry from to s = (Ok tt, s') /\ moved s s' from to /\ owned s' (rn from to <$> o).
Proof.
  intros Hs Hw Ht Hf Hno. pose proof (ow_places _ _ Hw from Hf) as Hpf.
  assert (Hne : from <> to) by (intros ->; done).
  destruct (is_ordered (base s)) eqn:Ho.
  2:{ pose proof (put_kept s to (at_ s from)) as K. exists (put to (at_ s from) s). split; [|split].
      - unfold bucket_move_entry. rewrite (proj2 (Z.eqb_neq from to) Hne), sreq_bind by done.
        rewrite (stm_bind_run _ _ _ _ _ (at_virtual_run s Hs from Hpf)), (stm_bind_run _ _ _ _ _ (put_virtual_run s Hs to _ Ht)).
        by rewrite hget_bind, (kept_ordered _ _ K), Ho.
      - by apply moved_put.
      - split; [by apply NoDup_rn, Hw|by apply (owned_rn_places s _ o); [..|apply Hw]|].
        by rewrite (kept_ordered _ _ K), Ho. }
  pose proof (ow_nodup _ _ Hw) as Hnd.
  pose proof Hf as (o1 & o2 & ->)%list_elem_of_split.
  destruct (neighbours _ _ _ _ Hw Ho) as [Hpr Hnx].
  destruct (neighbour_places _ _ _ _ Hw) as [Hpp Hnp].
  rewrite elem_of_app, elem_of_cons in Hno.
  assert (Hnt : default IDX_NIL (head o2) <> to).
  { destruct Hnp as [-> |[_ Hin]]; [intros E; by apply (place_ne_nil s to)|]. intros E. rewrite E in Hin. tauto. }
  set (y := default IDX_NIL (last o1)) in *. set (x := default IDX_NIL (head o2)) in *.
  assert (Hx : x = IDX_NIL \/ place (nb s) x) by tauto. assert (Hy : y = IDX_NIL \/ place (nb s) y) by tauto.
  eexists. split; [apply move_ordered_run; try done; by rewrite ?Hpr, ?Hnx|]. rewrite Hpr, Hnx.
  set (s1 := put to (at_ s from) s). set (s2 := relink (set_previous to) x s1). set (s3 := relink (set_next to) y s2).
  pose proof (moved_put s from to Hs Ht) as M1. fold s1 in M1. pose proof (kept_n _ _ (mo_kept _ _ _ _ M1)) as N1.
  pose proof (kept_shaped _ _ (mo_kept _ _ _ _ M1) Hs) as Hs1.
  assert (M2 : moved s s2 from to) by (apply relink_moved; try done; by rewrite N1).
  pose proof (kept_n _ _ (mo_kept _ _ _ _ M2)) as N2. pose proof (kept_shaped _ _ (mo_kept _ _ _ _ M2) Hs) as Hs2.
  assert (M3 : moved s s3 from to) by (apply relink_moved; try done; by rewrite N2).
  destruct (set_ends_same from to s3) as [Ed Ea].
  assert (Hfo : from ∉ o1 /\ from ∉ o2).
  { apply NoDup_app in Hnd as (_ & H2 & [H3 _]%NoDup_cons). split; [|done]. intros H. apply (H2 from H). left. }
  assert (Hdis : forall a, a ∈ o1 -> a ∉ o2).
  { apply NoDup_app in Hnd as (_ & H2 & _). intros a Ha Ha2. apply (H2 a Ha). by right. }
  assert (A3 : forall j, place (nb s) j -> at_ s3 j =
    (if decide (j = y) then set_next to else id) ((if decide (j = x) then set_previous to else id)
      (if decide (j = to) then at_ s from else at_ s j))).
  { intros j Hj. unfold s3. rewrite relink_at by (done || by rewrite N2).
    assert (forall j, place (nb s) j -> at_ s2 j = (if decide (j = x) then set_previous to else id)
      (if decide (j = to) then at_ s from else at_ s j)) as A2.
    { intros i Hi. unfold s2. rewrite relink_at by (done || by rewrite N1). unfold s1.
      case_decide as E; [|by rewrite put_at]. subst i. by rewrite put_at. }
    case_decide as E; [subst j|]; by rewrite A2. }
  split.
  { destruct M3 as [K D V]. split; [etrans; [exact K|apply set_ends_kept]|by rewrite Ed|].
    intros j Hj. rewrite <- V by done. unfold kv. by rewrite Ea. }
  rewrite rn_split by tauto.
  pose proof (owned_rn_places s (set_ends from to s3) (o1 ++ from :: o2) from to) as Hpl.
  rewrite rn_split in Hpl by tauto.
  split; [| |intros _].
  - rewrite <- (rn_split from) by tauto. apply NoDup_rn; [|done]. rewrite elem_of_app, elem_of_cons. tauto.
  - apply Hpl; [etrans; [apply M3|apply set_ends_kept]|done| |apply Hw]. rewrite elem_of_app, elem_of_cons. tauto.
  - destruct (ow_linked _ _ Hw Ho) as (Hc & Hh & Htl). split.
    + assert (Hin1 : forall a, a ∈ o1 -> place (nb s) a /\ a <> to /\ a <> x).
      { intros a Ha. split; [apply Hw, elem_of_app; by left|]. split; [intros ->; tauto|].
        intros E. subst a. destruct Hnp as [E|[_ Hin]]; [|by apply (Hdis x)].
        apply (place_ne_nil s x Hs); [|done]. apply Hw, elem_of_app. by left. }
      assert (Hin2 : forall a, a ∈ o2 -> place (nb s) a /\ a <> to /\ a <> y).
      { intros a Ha. split; [apply Hw, elem_of_app; right; by right|]. split; [intros ->; tauto|].
        intros E. subst a. destruct Hpp as [E|[_ Hin]]; [|by apply (Hdis y)].
        apply (place_ne_nil s y Hs); [|done]. apply Hw, elem_of_app. right. by right. }
      apply (chain_moved (at_ s) _ o1 from); [done|tauto|tauto| | | | | |done].
      * intros a Ha Hl. destruct (Hin1 a Ha) as (Hpa & H1 & H2). rewrite Ea, A3 by done.
        rewrite (decide_False (P := a = x)), (decide_False (P := a = to)), decide_False by
          first [done|by apply (not_default s (last o1))]. done.
      * intros a Hl. assert (Ha : a ∈ o1) by (by apply last_Some_elem_of). destruct (Hin1 a Ha) as (Hpa & H1 & H2).
        rewrite Ea, A3 by done. rewrite (decide_False (P := a = x)), (decide_False (P := a = to)), decide_True; try done.
        unfold y. by rewrite Hl.
      * intros a Ha Hl. destruct (Hin2 a Ha) as (Hpa & H1 & H2). rewrite Ea, A3 by done.
        rewrite (decide_False (P := a = y)), (decide_False (P := a = to)), decide_False by
          first [done|by apply (not_default s (head o2))]. done.
      * intros a Hl. assert (Ha : a ∈ o2) by (by apply head_Some_elem_of). destruct (Hin2 a Ha) as (Hpa & H1 & H2).
        rewrite Ea, A3 by done. rewrite (decide_False (P := a = y)), (decide_False (P := a = to)), decide_True; try done.
        unfold x. by rewrite Hl.
      * rewrite Ea, A3 by done. rewrite (decide_True (P := to = to)) by done.
        rewrite !decide_False; [done|by intros E; apply Hnt|].
        intros E. destruct Hpp as [E2|[_ Hin]]; [|rewrite <- E in Hin; tauto].
        apply (place_ne_nil s to Hs Ht). by rewrite E.
    + apply (chain_ends_moved s); [tauto|tauto|by apply (place_ne_nil s)| |done|done].
      unfold s3. destruct (relink_ends s2 y (set_next to)) as [-> ->]. unfold s2.
      destruct (relink_ends s1 x (set_previous to)) as [-> ->]. unfold s1, put. by repeat case_match.
Qed.
