(* ===== verification/HashProbe.v ===== *)
(** * Looking for a key ([base_bucket_scan] of [src/basic/hashmap.c])

    The invariant of a table, and that the scan finds the entry with an equal key
    where there is one, and always ends. *)
From S2P Require Import Prelude Siphash Hashmap RobinHood HashTable.

(** ** What the hash and the comparison owe to each other *)
Class HashLaws (o : hash_ops) : Prop := {
  compare_refl a : compare o a a = 0;
  compare_sym a b : compare o a b = 0 -> compare o b a = 0;
  compare_trans a b c : compare o a b = 0 -> compare o b c = 0 -> compare o a c = 0;
  hash_compare a b st : compare o a b = 0 -> hash o a st = hash o b st }.

(** ** States that hash alike

    They differ in entries and distances, and perhaps in the mark of the lowest entry. *)
Definition core (st : storage) : storage :=
  match st with Direct n => Direct n | Indirect k n m _ => Indirect k n m 0 end.

Record alike (s s' : state) : Prop := {
  al_ops : ops (base s') = ops (base s);
  al_type : type (base s') = type (base s);
  al_core : core (store (base s')) = core (store (base s));
  al_keys : keys s' = keys s;
  al_buckets : length (buckets (base s')) = length (buckets (base s));
  al_dibs : length (dibs (base s')) = length (dibs (base s)) }.

#[export] Instance alike_refl : Reflexive alike.
Proof. by split. Qed.

#[export] Instance alike_trans : Transitive alike.
Proof. intros s1 s2 s3 [] []. split; congruence. Qed.

Lemma kept_alike s s' : kept s s' -> alike s s'.
Proof. intros []. split; congruence. Qed.

Lemma alike_n s s' : alike s s' -> nb s' = nb s.
Proof.
  intros [_ Ht Hs _ _ _]. unfold n_buckets. rewrite Ht.
  destruct (store (base s')), (store (base s)); cbn in Hs; congruence.
Qed.

Lemma alike_entries s s' : alike s s' -> n_entries (base s') = n_entries (base s).
Proof.
  intros [_ Ht Hs _ _ _]. unfold n_entries. destruct (store (base s')), (store (base s)); cbn in Hs; congruence.
Qed.

Lemma alike_hash s s' k : alike s s' -> bucket_hash s' k = bucket_hash s k.
Proof.
  intros H. apply bucket_hash_same; [apply H| |by apply alike_n]. unfold hash_key.
  rewrite (al_keys _ _ H). pose proof (al_core _ _ H) as Hc.
  destruct (store (base s')), (store (base s)); cbn in Hc; congruence.
Qed.

Lemma alike_shaped s s' : alike s s' -> shaped s -> shaped s'.
Proof.
  intros H [H1 H2 H3]. split; rewrite (alike_n _ _ H); [done| |].
  - by rewrite (al_buckets _ _ H).
  - by rewrite (al_dibs _ _ H).
Qed.

Lemma alike_indirect s s' : alike s s' -> has_indirect (base s') = has_indirect (base s).
Proof.
  intros H. unfold has_indirect. pose proof (al_core _ _ H) as Hc. by destruct (store (base s')), (store (base s)).
Qed.

(** ** The homes of the entries *)
Definition stops (d : Z) : bool := (d =? DIB_RAW_FREE) || (d =? DIB_RAW_REHASH).

Definition home (s : state) (i : Z) : Z := bucket_hash s (key (at_ s i)).

Definition homes (s : state) (i : Z) : option Z := if stops (raw s i) then None else Some (home s i).

Lemma robin_hood_ext n g g' :
  0 < n -> (forall i, valid n i -> g' i = g i) -> robin_hood n g -> robin_hood n g'.
Proof.
  intros Hn He Hg i Hi f Hf. rewrite He in Hf by done. destruct (Hg i Hi f Hf) as [Hv Hs]. split; [done|].
  intros Hd. destruct (Hs Hd) as (f' & ? & ?). exists f'. rewrite He; [done|by apply prev_valid].
Qed.

(** The invariant. [carry]: an entry is in [IDX_PUT], on its way to a bucket. The
    distances of the entries that wait for being hashed again are not known. *)
Record table (s : state) (o : list Z) (carry : bool) : Prop := {
  t_shaped : shaped s;
  t_owned : owned s o;
  t_order : forall a, a ∈ o <-> valid (nb s) a /\ raw s a <> DIB_RAW_FREE \/ carry = true /\ a = IDX_PUT;
  t_dib : forall i, valid (nb s) i -> stops (raw s i) = false ->
    raw s i = dist (nb s) i (home s i) `min` DIB_RAW_OVERFLOW;
  t_robin : robin_hood (nb s) (homes s);
  t_lowest : forall i, valid (nb s) i -> raw s i <> DIB_RAW_FREE -> idx_lowest_entry (base s) <= i;
  t_zero : forall i, valid (nb s) i -> raw s i = DIB_RAW_FREE -> key (at_ s i) = 0;
  t_low0 : 0 <= idx_lowest_entry (base s) }.

(** All entries have been hashed with the key in use. *)
Definition settled (s : state) : Prop := forall i, valid (nb s) i -> raw s i <> DIB_RAW_REHASH.

Lemma stops_free s i : settled s -> valid (nb s) i -> stops (raw s i) = (raw s i =? DIB_RAW_FREE).
Proof.
  intros Hs Hi. unfold stops. rewrite (proj2 (Z.eqb_neq (raw s i) DIB_RAW_REHASH)) by (by apply Hs). apply orb_false_r.
Qed.

Lemma homes_some s i f : homes s i = Some f -> stops (raw s i) = false /\ f = home s i.
Proof. unfold homes. destruct (stops _); [done|]. by intros [= <-]. Qed.

Lemma homes_none s i : homes s i = None -> stops (raw s i) = true.
Proof. unfold homes. by destruct (stops _). Qed.

Section reading.
Context (s : state) (Hs : shaped s).

Lemma distance_dist i f : valid (nb s) i -> valid (nb s) f -> bucket_distance (base s) i f = dist (nb s) i f.
Proof.
  intros Hi Hf. pose proof (sh_pos _ Hs). rewrite dist_cases by (done || lia). unfold bucket_distance, valid in *.
  destruct (Z.leb_spec f i); case_decide; try lia. apply wrap_small. lia.
Qed.

Lemma next_idx_next i : valid (nb s) i -> next_idx (base s) i = next (nb s) i.
Proof.
  intros Hi. pose proof (sh_pos _ Hs). unfold next_idx, next, valid in *. by rewrite wrap_small by lia.
Qed.

Lemma prev_idx_prev i : valid (nb s) i -> prev_idx (base s) i = prev (nb s) i.
Proof.
  intros Hi. pose proof (sh_pos _ Hs). unfold prev_idx, prev, valid in *. rewrite wrap_small by lia.
  rewrite <- (Z.mod_add (i - 1) 1) by lia. f_equal. lia.
Qed.

Lemma calculate_dib_run i :
  valid (nb s) i -> stops (raw s i) = false -> raw s i = dist (nb s) i (home s i) `min` DIB_RAW_OVERFLOW ->
  bucket_calculate_dib i (raw s i) s = (Ok (dist (nb s) i (home s i)), s).
Proof.
  intros Hi Hst Hd. pose proof (sh_pos _ Hs) as Hp. unfold stops in Hst. apply orb_false_iff in Hst as [Hf _].
  unfold bucket_calculate_dib. rewrite Hf. unfold DIB_RAW_OVERFLOW in *.
  destruct (Z.ltb_spec (raw s i) 253) as [H|H].
  - assert (Hm : forall a b, a < 253 -> a = b `min` 253 -> b = a) by lia. by rewrite (Hm _ _ H Hd).
  - rewrite (stm_bind_run _ _ _ _ _ (bucket_at_run s Hs i Hi)). unfold hgets.
    rewrite distance_dist; [done|done|]. apply bucket_hash_valid. lia.
Qed.
End reading.

(** ** The scan *)
Section scan.
Context (s : state) (o : list Z) (c : bool) (k : Z).
Context (Ht : table s o c) (Hse : settled s) (Hlaws : HashLaws (ops (base s))).

Definition holds_key (i : Z) : Prop :=
  valid (nb s) i /\ raw s i <> DIB_RAW_FREE /\ compare (ops (base s)) (key (at_ s i)) k = 0.

Lemma holds_home i : holds_key i -> homes s i = Some (bucket_hash s k) /\ home s i = bucket_hash s k.
Proof.
  intros (Hi & Hr & Hc). assert (home s i = bucket_hash s k) as E.
  { apply bucket_hash_equal. intros st. by apply hash_compare. }
  unfold homes. rewrite stops_free by done. apply Z.eqb_neq in Hr. by rewrite Hr, E.
Qed.

(** The way from the hash leads to every entry with an equal key. *)
Lemma scan_way i p :
  holds_key p -> valid (nb s) i -> dist (nb s) i (bucket_hash s k) <= dist (nb s) p (bucket_hash s k) ->
  stops (raw s i) = false /\ dist (nb s) i (bucket_hash s k) <= dist (nb s) i (home s i) /\
  (i = p \/ dist (nb s) i (bucket_hash s k) < dist (nb s) p (bucket_hash s k)).
Proof.
  intros Hp Hi Hd. pose proof (sh_pos _ (t_shaped _ _ _ Ht)) as Hn. assert (H0 : 0 < nb s) by lia.
  pose proof (bucket_hash_valid s k H0) as Hh. pose proof Hp as (Hpv & _). destruct (holds_home p Hp) as [Hhp Eh].
  destruct (Z.eq_dec (dist (nb s) i (bucket_hash s k)) (dist (nb s) p (bucket_hash s k))) as [E|E].
  - assert (i = p) as ->.
    { rewrite <- (forward_dist (nb s) (bucket_hash s k) i), <- (forward_dist (nb s) (bucket_hash s k) p) by done.
      by rewrite E. }
    apply homes_some in Hhp as [Hst _]. rewrite Eh. split; [done|]. split; [lia|by left].
  - destruct (t_robin _ _ _ Ht p Hpv _ Hhp) as [_ Hstep].
    destruct (way (nb s) H0 (homes s) p (bucket_hash s k) i) as (f & Hf & Hle);
      [apply Ht|done|done|done|done|lia|]. apply homes_some in Hf as [Hst ->].
    split; [done|]. split; [done|]. right. lia.
Qed.

Lemma scan_loop m d :
  0 <= d <= nb s -> Z.of_nat m = nb s + 1 - d -> (forall p, holds_key p -> d <= dist (nb s) p (bucket_hash s k)) ->
  exists r, base_bucket_scan m ((bucket_hash s k + d) `mod` nb s) k d s = (Ok r, s) /\
    (r = IDX_NIL /\ (forall p, ~ holds_key p) \/ holds_key r).
Proof.
  pose proof (t_shaped _ _ _ Ht) as Hs. pose proof (sh_pos _ Hs) as Hn. assert (H0 : 0 < nb s) by lia.
  pose proof (bucket_hash_valid s k H0) as Hh.
  revert d; induction m as [|m IH]; intros d Hd Hm Hp.
  - exfalso. lia.
  - set (i := (bucket_hash s k + d) `mod` nb s). assert (Hi : valid (nb s) i) by (apply Z.mod_pos_bound; lia).
    assert (Hdi : forall p, holds_key p -> dist (nb s) i (bucket_hash s k) <= dist (nb s) p (bucket_hash s k) /\
                                           dist (nb s) i (bucket_hash s k) = d).
    { intros p Hpk. pose proof (Hp p Hpk). pose proof (dist_bound (nb s) H0 p (bucket_hash s k)).
      unfold i. rewrite dist_forward by (done || lia). lia. }
    cbn [base_bucket_scan]. rewrite (stm_bind_run _ _ _ _ _ (dib_raw_run s Hs i Hi)).
    destruct (Z.eqb_spec (raw s i) DIB_RAW_FREE) as [Hfree|Hfree].
    { exists IDX_NIL. split; [done|]. left. split; [done|]. intros p Hpk. destruct (Hdi p Hpk) as [Hle _].
      destruct (scan_way i p Hpk Hi Hle) as [Hst _]. unfold stops in Hst. by rewrite Hfree in Hst. }
    assert (Hst : stops (raw s i) = false) by (rewrite stops_free by done; by apply Z.eqb_neq).
    rewrite (stm_bind_run _ _ _ _ _ (calculate_dib_run s Hs i Hi Hst (t_dib _ _ _ Ht i Hi Hst))).
    destruct (Z.ltb_spec (dist (nb s) i (home s i)) d) as [Hlt|Hge].
    { exists IDX_NIL. split; [done|]. left. split; [done|]. intros p Hpk. destruct (Hdi p Hpk) as [Hle E].
      destruct (scan_way i p Hpk Hi Hle) as (_ & Hw & _). lia. }
    rewrite hget_bind. rewrite (stm_bind_run _ _ _ _ _ (bucket_at_run s Hs i Hi)).
    destruct ((dist (nb s) i (home s i) =? d) && (compare (ops (base s)) (key (at_ s i)) k =? 0)) eqn:Hfound.
    { exists i. split; [done|]. right. apply andb_true_iff in Hfound as [_ Hc%Z.eqb_eq]. by split. }
    pose proof (dist_bound (nb s) H0 i (home s i)) as Hb.
    rewrite (next_idx_next s Hs i Hi), wrap_small by lia. unfold i. rewrite next_forward by done.
    apply IH; [lia|lia|]. intros p Hpk. destruct (Hdi p Hpk) as [Hle E].
    destruct (scan_way i p Hpk Hi Hle) as (_ & _ & [->|]); [|lia]. exfalso.
    destruct (holds_home p Hpk) as [_ Eh]. destruct Hpk as (_ & _ & Hc). rewrite Eh, E, Z.eqb_refl, Hc in Hfound. done.
Qed.

Lemma scan_run :
  exists r, bucket_scan k s = (Ok (bucket_hash s k, r), s) /\
    (r = IDX_NIL /\ (forall p, ~ holds_key p) \/ holds_key r /\ r <> IDX_NIL).
Proof.
  pose proof (t_shaped _ _ _ Ht) as Hs. pose proof (sh_pos _ Hs) as Hn. assert (H0 : 0 < nb s) by lia.
  pose proof (bucket_hash_valid s k H0) as Hh.
  destruct (scan_loop (S (Z.to_nat (nb s))) 0) as (r & Hr & Hcase); [lia|lia|intros p _; by apply dist_bound|].
  exists r. split.
  - unfold bucket_scan. rewrite hget_bind, hgets_bind, sreq_bind by (apply Z.ltb_lt; unfold valid in Hh; lia).
    rewrite Z.add_0_r, Z.mod_small in Hr by done. by rewrite (stm_bind_run _ _ _ _ _ Hr).
  - destruct Hcase as [|Hk]; [by left|]. right. split; [done|]. destruct Hk as (Hv & _).
    by apply (valid_ne_swap s r Hs).
Qed.
End scan.
