(* ===== verification/HashRemove.v ===== *)
(** * Removing an entry ([base_remove_entry] of [src/basic/hashmap.c])

    The stop bucket is found, the entry leaves the list of an ordered map, and the
    entries up to the stop bucket move back: the table stays in order and loses
    exactly this entry. *)
From S2P Require Import Prelude Siphash Hashmap RobinHood HashTable HashProbe.

(** ** Leaving the list *)
Definition unlink_next (x y : Z) (s : state) : state :=
  if x =? IDX_NIL then set_base (set_tail y (base s)) s else put x (set_previous y (at_ s x)) s.

Definition unlink_previous (x y : Z) (s : state) : state :=
  if y =? IDX_NIL then set_base (set_head x (base s)) s else put y (set_next x (at_ s y)) s.

Section unlink.
Context (s : state) (Hs : shaped s) (x y : Z).

Lemma unlink_next_kept : kept s (unlink_next x y s).
Proof. unfold unlink_next. destruct (_ =? _); [by split|apply put_kept]. Qed.

Lemma unlink_previous_kept : kept s (unlink_previous x y s).
Proof. unfold unlink_previous. destruct (_ =? _); [by split|apply put_kept]. Qed.

Lemma unlink_next_at j :
  (x = IDX_NIL \/ place (nb s) x) -> place (nb s) j ->
  at_ (unlink_next x y s) j = if decide (j = x) then set_previous y (at_ s x) else at_ s j.
Proof.
  intros Hx Hj. unfold unlink_next. destruct (Z.eqb_spec x IDX_NIL) as [->|Hne].
  - rewrite decide_False; [done|]. by apply (place_ne_nil s).
  - destruct Hx; [done|]. by rewrite put_at.
Qed.

Lemma unlink_previous_at j :
  (y = IDX_NIL \/ place (nb s) y) -> place (nb s) j ->
  at_ (unlink_previous x y s) j = if decide (j = y) then set_next x (at_ s y) else at_ s j.
Proof.
  intros Hy Hj. unfold unlink_previous. destruct (Z.eqb_spec y IDX_NIL) as [->|Hne].
  - rewrite decide_False; [done|]. by apply (place_ne_nil s).
  - destruct Hy; [done|]. by rewrite put_at.
Qed.

Lemma unlink_next_ends :
  dibs (base (unlink_next x y s)) = dibs (base s) /\
  iterate_list_head (base (unlink_next x y s)) = iterate_list_head (base s) /\
  iterate_list_tail (base (unlink_next x y s)) = if x =? IDX_NIL then y else iterate_list_tail (base s).
Proof. unfold unlink_next, put. by repeat case_match. Qed.

Lemma unlink_previous_ends :
  dibs (base (unlink_previous x y s)) = dibs (base s) /\
  iterate_list_tail (base (unlink_previous x y s)) = iterate_list_tail (base s) /\
  iterate_list_head (base (unlink_previous x y s)) = if y =? IDX_NIL then x else iterate_list_head (base s).
Proof. unfold unlink_previous, put. by repeat case_match. Qed.
End unlink.

Lemma unlink_entry_run s idx :
  shaped s -> valid (nb s) idx ->
  (iterate_next (at_ s idx) = IDX_NIL \/ valid (nb s) (iterate_next (at_ s idx)) /\ iterate_next (at_ s idx) <> idx) ->
  (iterate_previous (at_ s idx) = IDX_NIL \/ valid (nb s) (iterate_previous (at_ s idx))) ->
  unlink_entry idx s =
  (Ok tt, let x := iterate_next (at_ s idx) in let y := iterate_previous (at_ s idx) in
          unlink_previous x y (unlink_next x y s)).
Proof.
  intros Hs Hi Hx Hy. unfold unlink_entry. rewrite (stm_bind_run _ _ _ _ _ (bucket_at_run s Hs idx Hi)).
  set (x := iterate_next (at_ s idx)) in *. set (y := iterate_previous (at_ s idx)) in *. cbv zeta.
  set (s1 := unlink_next x y s). pose proof (unlink_next_kept s x y) as K1. fold s1 in K1.
  pose proof (kept_shaped _ _ K1 Hs) as Hs1. pose proof (kept_n _ _ K1) as N1.
  erewrite stm_bind_run with (a := tt) (s1 := s1).
  2:{ unfold s1, unlink_next. destruct (Z.eqb_spec x IDX_NIL) as [E|E]; [done|]. destruct Hx as [|[Hx _]]; [done|].
      cbn [negb]. rewrite (stm_bind_run _ _ _ _ _ (bucket_at_run s Hs x Hx)). by apply bucket_put_run. }
  assert (Hi1 : valid (nb s1) idx) by (by rewrite N1).
  rewrite (stm_bind_run _ _ _ _ _ (bucket_at_run s1 Hs1 idx Hi1)).
  assert (at_ s1 idx = at_ s idx) as Hat.
  { unfold s1. rewrite unlink_next_at; [|done|by destruct Hx as [|[]]; [left|right; left]|by left].
    rewrite decide_False; [done|]. destruct Hx as [-> |[_ Hne]]; [by apply (valid_ne_swap s)|done]. }
  rewrite Hat. fold x y. unfold unlink_previous. destruct (Z.eqb_spec y IDX_NIL) as [E|E]; [done|]. cbn [negb].
  destruct Hy as [|Hy]; [done|]. assert (Hy1 : valid (nb s1) y) by (by rewrite N1).
  rewrite (stm_bind_run _ _ _ _ _ (bucket_at_run s1 Hs1 y Hy1)). by apply bucket_put_run.
Qed.

Lemma owned_shorter s o1 i o2 :
  owned s (o1 ++ i :: o2) -> NoDup (o1 ++ o2) /\ i ∉ o1 /\ i ∉ o2 /\ (forall a, a ∈ o1 -> a ∉ o2) /\
    forall a, a ∈ o1 ++ o2 -> place (nb s) a.
Proof.
  intros [Hnd Hp _]. apply NoDup_app in Hnd as (H1 & H2 & [H3 H4]%NoDup_cons). split; [|split; [|split; [|split]]].
  - apply NoDup_app. split; [done|]. split; [|done]. intros a Ha Ha2. apply (H2 a Ha). by right.
  - intros H. apply (H2 i H). left.
  - done.
  - intros a Ha Ha2. apply (H2 a Ha). by right.
  - intros a Ha. apply Hp. rewrite elem_of_app in Ha |- *. rewrite elem_of_cons. tauto.
Qed.

(** What leaving the list does, whatever the kind of the map *)
Record left_list (s s' : state) : Prop := {
  ll_kept : kept s s';
  ll_dibs : dibs (base s') = dibs (base s);
  ll_kv : forall j, place (nb s) j -> kv s' j = kv s j }.

Lemma unlinked_owned s o1 idx o2 s' :
  shaped s -> owned s (o1 ++ idx :: o2) -> is_ordered (base s) = true -> kept s s' ->
  (forall j, place (nb s) j -> at_ s' j =
     (if decide (j = default IDX_NIL (last o1)) then set_next (default IDX_NIL (head o2)) else id)
     ((if decide (j = default IDX_NIL (head o2)) then set_previous (default IDX_NIL (last o1)) else id) (at_ s j))) ->
  iterate_list_head (base s') = default (default IDX_NIL (head o2)) (head o1) ->
  iterate_list_tail (base s') = default (default IDX_NIL (last o1)) (last o2) ->
  owned s' (o1 ++ o2).
Proof.
  intros Hs Hw Ho K Hat Hh Ht. destruct (owned_shorter _ _ _ _ Hw) as (Hnd & Hi1 & Hi2 & Hdis & Hpl).
  split; [done|intros a Ha; rewrite (kept_n _ _ K); by apply Hpl|intros _].
  destruct (ow_linked _ _ Hw Ho) as (Hc & _ & _). apply chain_app in Hc as [Hc1 (_ & _ & Hc2)].
  apply NoDup_app in Hnd as (Hnd1 & _ & Hnd2).
  assert (Hp1 : forall a, a ∈ o1 -> place (nb s) a) by (intros a Ha; apply Hpl, elem_of_app; by left).
  assert (Hp2 : forall a, a ∈ o2 -> place (nb s) a) by (intros a Ha; apply Hpl, elem_of_app; by right).
  assert (Hx1 : forall a, a ∈ o1 -> a <> default IDX_NIL (head o2)).
  { intros a Ha E. destruct (head o2) as [b|] eqn:Eb; cbn in E.
    - subst b. apply (Hdis a Ha). by apply head_Some_elem_of.
    - by apply (place_ne_nil s a Hs (Hp1 a Ha)). }
  assert (Hy2 : forall a, a ∈ o2 -> a <> default IDX_NIL (last o1)).
  { intros a Ha E. destruct (last o1) as [b|] eqn:Eb; cbn in E.
    - subst b. apply (Hdis a); [by apply last_Some_elem_of|done].
    - by apply (place_ne_nil s a Hs (Hp2 a Ha)). }
  split; [|split].
  - apply chain_app. split.
    + eapply (chain_end (at_ s)); [done|exact Hc1| |].
      * intros a Ha Hl. rewrite Hat by auto. rewrite (decide_False (P := a = default _ (head o2))) by auto.
        rewrite decide_False; [done|]. apply (not_default s); auto.
      * intros a Hl. assert (Ha : a ∈ o1) by (by apply last_Some_elem_of). rewrite Hat by auto.
        rewrite (decide_False (P := a = default _ (head o2))) by auto. rewrite decide_True; [done|]. by rewrite Hl.
    + eapply (chain_start (at_ s)); [done|exact Hc2| |].
      * intros a Ha Hl. rewrite Hat by auto. rewrite (decide_False (P := a = default _ (last o1))) by auto.
        rewrite decide_False; [done|]. apply (not_default s); auto.
      * intros a Hl. assert (Ha : a ∈ o2) by (by apply head_Some_elem_of). rewrite Hat by auto.
        rewrite (decide_False (P := a = default _ (last o1))) by auto. rewrite decide_True; [done|]. by rewrite Hl.
  - rewrite Hh. by destruct o1.
  - rewrite Ht, last_app. by destruct (last o2).
Qed.

Lemma unlink_spec s o1 idx o2 :
  shaped s -> owned s (o1 ++ idx :: o2) -> (forall a, a ∈ o1 ++ idx :: o2 -> valid (nb s) a) ->
  exists s', (if is_ordered (base s) then unlink_entry idx else mret tt) s = (Ok tt, s') /\
    left_list s s' /\ owned s' (o1 ++ o2).
Proof.
  intros Hs Hw Hv. destruct (owned_shorter _ _ _ _ Hw) as (Hnd & Hi1 & Hi2 & Hdis & Hpl).
  destruct (is_ordered (base s)) eqn:Ho.
  2:{ exists s. split; [done|]. split; [by split|]. split; [done|done|by rewrite Ho]. }
  destruct (neighbours _ _ _ _ Hw Ho) as [Hpr Hnx].
  set (y := default IDX_NIL (last o1)) in *. set (x := default IDX_NIL (head o2)) in *.
  assert (Hx : x = IDX_NIL \/ valid (nb s) x /\ x <> idx).
  { unfold x. destruct o2 as [|a o2]; [by left|]. right. cbn. split; [apply Hv, elem_of_app; right; right; left|].
    intros ->. apply Hi2. left. }
  assert (Hy : y = IDX_NIL \/ valid (nb s) y).
  { unfold y. destruct (last o1) as [a|] eqn:E; [|by left]. right. cbn. apply Hv, elem_of_app. left.
    by apply last_Some_elem_of. }
  assert (Hxp : x = IDX_NIL \/ place (nb s) x) by (destruct Hx as [|[]]; [by left|by right; left]).
  assert (Hyp : y = IDX_NIL \/ place (nb s) y) by (destruct Hy; [by left|by right; left]).
  eexists. split; [apply unlink_entry_run; [done|apply Hv, elem_of_app; right; left|by rewrite Hnx|by rewrite Hpr]|].
  cbv zeta. rewrite Hnx, Hpr. set (s1 := unlink_next x y s).
  pose proof (unlink_next_kept s x y) as K1. fold s1 in K1. pose proof (kept_n _ _ K1) as N1.
  pose proof (kept_shaped _ _ K1 Hs) as Hs1.
  assert (K : kept s (unlink_previous x y s1)) by (etrans; [exact K1|apply unlink_previous_kept]).
  assert (Hat : forall j, place (nb s) j -> at_ (unlink_previous x y s1) j =
     (if decide (j = y) then set_next x else id) ((if decide (j = x) then set_previous y else id) (at_ s j))).
  { intros j Hj. rewrite unlink_previous_at by (done || by rewrite N1).
    case_decide as E; [subst j|]; unfold s1; rewrite unlink_next_at by (done || tauto); (case_decide as E'; [by rewrite E'|done]). }
  split.
  - split; [done| |].
    + destruct (unlink_previous_ends s1 x y) as [-> _]. unfold s1. by destruct (unlink_next_ends s x y) as [-> _].
    + intros j Hj. unfold kv. rewrite Hat by done. by repeat case_decide.
  - apply (unlinked_owned s _ idx); try done.
    + destruct (unlink_previous_ends s1 x y) as (_ & _ & ->). unfold s1. destruct (unlink_next_ends s x y) as (_ & -> & _).
      destruct (ow_linked _ _ Hw Ho) as (_ & -> & _). destruct o1 as [|a o1]; [done|].
      destruct (Z.eqb_spec y IDX_NIL) as [E|E]; [|done]. exfalso. revert E.
      apply (place_ne_nil s y Hs). destruct Hyp as [E|]; [|done]. exfalso. revert E. unfold y.
      destruct (proj2 (last_is_Some (a :: o1))) as [b Hb]; [done|]. rewrite Hb. cbn. apply (place_ne_nil s b Hs), Hpl.
      apply elem_of_app. left. by apply last_Some_elem_of.
    + destruct (unlink_previous_ends s1 x y) as (_ & -> & _). unfold s1. destruct (unlink_next_ends s x y) as (_ & _ & ->).
      destruct (ow_linked _ _ Hw Ho) as (_ & _ & ->). rewrite last_app_cons. destruct o2 as [|a o2]; [done|].
      destruct (Z.eqb_spec x IDX_NIL) as [E|E].
      * exfalso. revert E. apply (place_ne_nil s x Hs), Hpl. apply elem_of_app. right. left.
      * by destruct (proj2 (last_is_Some (a :: o2))) as [b Hb]; [|change (last (idx :: a :: o2)) with (last (a :: o2)); rewrite Hb].
Qed.

(** ** The stop bucket *)
Definition stop_raw (d : Z) : Prop := d = 0 \/ d = DIB_RAW_FREE.

Lemma slack_stop_raw s o c :
  table s o c -> settled s -> slack (nb s) (homes s) -> exists i, valid (nb s) i /\ stop_raw (raw s i).
Proof.
  intros Ht Hse (i & Hi & Hg). exists i. split; [done|]. pose proof (sh_pos _ (t_shaped _ _ _ Ht)).
  destruct Hg as [Hg%homes_none|Hg].
  - right. rewrite stops_free in Hg by done. by apply Z.eqb_eq.
  - apply homes_some in Hg as [Hst E]. left. rewrite (t_dib _ _ _ Ht) by done. rewrite <- E, dist_self by lia. done.
Qed.

Lemma find_stop_run s left m r :
  shaped s -> valid (nb s) left -> (exists i, valid (nb s) i /\ stop_raw (raw s i)) -> valid (nb s) r ->
  Z.of_nat m = nb s - dist (nb s) r (next (nb s) left) ->
  (forall j, valid (nb s) j -> dist (nb s) j (next (nb s) left) < dist (nb s) r (next (nb s) left) -> ~ stop_raw (raw s j)) ->
  exists right, find_stop m left r s = (Ok right, s) /\ valid (nb s) right /\ stop_raw (raw s right) /\
    forall j, valid (nb s) j -> dist (nb s) j (next (nb s) left) < dist (nb s) right (next (nb s) left) -> ~ stop_raw (raw s j).
Proof.
  intros Hs Hl Hex. pose proof (sh_pos _ Hs) as Hp. assert (H0 : 0 < nb s) by lia.
  pose proof (next_valid (nb s) H0 left) as Hnl.
  revert r; induction m as [|m IH]; intros r Hr Hm Hb.
  - pose proof (dist_bound (nb s) H0 r (next (nb s) left)). lia.
  - cbn [find_stop]. rewrite (stm_bind_run _ _ _ _ _ (dib_raw_run s Hs r Hr)).
    destruct ((raw s r =? 0) || (raw s r =? DIB_RAW_FREE)) eqn:E.
    { exists r. split; [done|]. split; [done|]. split; [|done]. apply orb_true_iff in E as [E|E]; apply Z.eqb_eq in E; [by left|by right]. }
    assert (Hns : ~ stop_raw (raw s r)).
    { apply orb_false_iff in E as [E1%Z.eqb_neq E2%Z.eqb_neq]. by intros [|]. }
    assert (Hlr : left <> r).
    { intros ->. destruct Hex as (i & Hi & Hsi). destruct (decide (i = r)) as [->|Hir]; [done|].
      apply (Hb i Hi); [|done]. rewrite dist_last by (done || lia). by apply dist_not_last. }
    rewrite sreq_bind by (by apply negb_true_iff, Z.eqb_neq). rewrite hget_bind, (next_idx_next s Hs r Hr).
    assert (Hd : dist (nb s) (next (nb s) r) (next (nb s) left) = dist (nb s) r (next (nb s) left) + 1).
    { apply dist_next; [done|done|done|]. intros Hne. apply Hlr. symmetry. by apply (next_inj (nb s)). }
    apply IH; [by apply next_valid|lia|]. intros j Hj Hjd. destruct (decide (j = r)) as [->|Hjr]; [done|].
    apply Hb; [done|]. assert (dist (nb s) j (next (nb s) left) <> dist (nb s) r (next (nb s) left)); [|lia].
    intros Hx. apply Hjr. rewrite <- (forward_dist (nb s) (next (nb s) left) j), Hx by done. by apply forward_dist.
Qed.

(** ** Moving back *)
Record shifting (s : state) (o : list Z) (hole D right : Z) : Prop := {
  sf_shaped : shaped s;
  sf_owned : owned s o;
  sf_order : forall a, a ∈ o <-> valid (nb s) a /\ raw s a <> DIB_RAW_FREE /\ a <> hole;
  sf_settled : settled s;
  sf_hole : raw s hole <> DIB_RAW_FREE;
  sf_dib : forall i, valid (nb s) i -> i <> hole -> stops (raw s i) = false ->
    raw s i = dist (nb s) i (home s i) `min` DIB_RAW_OVERFLOW;
  sf_moving : moving (nb s) (upd (homes s) hole None) hole D right;
  sf_rest : forall j, valid (nb s) j -> dist (nb s) j (next (nb s) hole) < dist (nb s) right (next (nb s) hole) ->
    raw s j <> DIB_RAW_FREE /\ home s j <> j;
  sf_zero : forall i, valid (nb s) i -> raw s i = DIB_RAW_FREE -> key (at_ s i) = 0 }.

Lemma not_free_stops s i : settled s -> valid (nb s) i -> raw s i <> DIB_RAW_FREE -> stops (raw s i) = false.
Proof. intros Hs Hi Hr. rewrite stops_free by done. by apply Z.eqb_neq. Qed.

Lemma homes_used s i : settled s -> valid (nb s) i -> raw s i <> DIB_RAW_FREE -> homes s i = Some (home s i).
Proof. intros Hs Hi Hr. unfold homes. by rewrite not_free_stops. Qed.

Lemma moved_home s s' from to j :
  moved s s' from to -> place (nb s) j -> home s' j = if decide (j = to) then home s from else home s j.
Proof.
  intros M Hj. unfold home. rewrite (kept_hash _ _ _ (mo_kept _ _ _ _ M)).
  pose proof (mo_kv _ _ _ _ M j Hj) as E. unfold kv in E. case_decide; by injection E as -> _.
Qed.

Lemma set_dib_run s i d :
  shaped s -> valid (nb s) i -> 0 <= d < nb s -> bucket_set_dib i d s = (Ok tt, put_dib i (d `min` DIB_RAW_OVERFLOW) s).
Proof.
  intros Hs Hi Hd. pose proof (sh_pos _ Hs). unfold bucket_set_dib. rewrite (proj2 (Z.eqb_neq d DIB_FREE)) by (unfold DIB_FREE, UINT_MAX; lia).
  by apply dib_raw_set_run.
Qed.

Lemma min_overflow d : 0 <= d -> stops (d `min` DIB_RAW_OVERFLOW) = false /\ d `min` DIB_RAW_OVERFLOW <> DIB_RAW_FREE /\
  d `min` DIB_RAW_OVERFLOW <> DIB_RAW_REHASH.
Proof.
  intros Hd. assert (d `min` DIB_RAW_OVERFLOW <= 253) by (unfold DIB_RAW_OVERFLOW; lia).
  unfold stops, DIB_RAW_FREE, DIB_RAW_REHASH. split; [|lia]. apply orb_false_iff. split; apply Z.eqb_neq; lia.
Qed.

(** Keys, values and lists do not depend on the distances. *)
Lemma owned_same s s' o :
  kept s s' -> (forall a, a ∈ o -> at_ s' a = at_ s a) -> iterate_list_head (base s') = iterate_list_head (base s) ->
  iterate_list_tail (base s') = iterate_list_tail (base s) -> owned s o -> owned s' o.
Proof.
  intros K Ha Hh Ht [H1 H2 H3]. split; [done|by rewrite (kept_n _ _ K)|].
  rewrite (kept_ordered _ _ K), Hh, Ht. intros Ho. destruct (H3 Ho) as (Hc & ? & ?). split; [|done].
  by apply (chain_frame (at_ s)).
Qed.

(** One step: the entry of the next bucket moves into the hole. *)
Section shift.
Context (s : state) (o : list Z) (hole D right : Z) (Hf : shifting s o hole D right).
Context (Hne : next (nb s) hole <> right).

Abbreviation left_ := (next (nb s) hole) (only parsing).

Lemma shift_facts :
  0 < nb s /\ valid (nb s) hole /\ valid (nb s) right /\ valid (nb s) left_ /\ left_ <> hole /\ 1 < nb s /\
  raw s left_ <> DIB_RAW_FREE /\ home s left_ <> left_ /\ valid (nb s) (home s left_) /\
  0 < dist (nb s) left_ (home s left_) < nb s.
Proof.
  pose proof (sh_pos _ (sf_shaped _ _ _ _ _ Hf)) as Hp. assert (H0 : 0 < nb s) by lia.
  pose proof (sf_moving _ _ _ _ _ Hf) as Hm. pose proof (mv_hole _ _ _ _ _ Hm) as Hh.
  pose proof (mv_right _ _ _ _ _ Hm) as Hr. pose proof (next_valid (nb s) H0 hole) as Hl.
  assert (Hd : dist (nb s) left_ left_ < dist (nb s) right left_).
  { rewrite dist_self by done. pose proof (dist_bound (nb s) H0 right left_).
    destruct (Z.eq_dec (dist (nb s) right left_) 0) as [E|]; [|lia]. exfalso. apply Hne. symmetry. by apply (dist_zero (nb s)). }
  destruct (sf_rest _ _ _ _ _ Hf left_ Hl Hd) as [Hraw Hhome].
  pose proof (bucket_hash_valid s (key (at_ s left_)) H0) as Hv. fold (home s left_) in Hv.
  assert (H1 : 1 < nb s) by (unfold valid in *; lia).
  repeat (split; [done|]). split; [by apply next_ne|]. repeat (split; [done|]).
  pose proof (dist_bound (nb s) H0 left_ (home s left_)).
  destruct (Z.eq_dec (dist (nb s) left_ (home s left_)) 0) as [E|]; [|lia]. exfalso. apply Hhome. symmetry. by apply (dist_zero (nb s)).
Qed.

Lemma shift_step :
  exists s1 s', bucket_calculate_dib left_ (raw s left_) s = (Ok (dist (nb s) left_ (home s left_)), s) /\
    bucket_move_entry left_ hole s = (Ok tt, s1) /\
    bucket_set_dib hole (dist (nb s) left_ (home s left_) - 1) s1 = (Ok tt, s') /\ kept s s' /\
    shifting s' (rn left_ hole <$> o) left_ (dist (nb s) left_ (home s left_)) right /\
    kv s' <$> (rn left_ hole <$> o) = kv s <$> o /\
    (forall j, valid (nb s) j -> raw s' j = DIB_RAW_FREE <-> raw s j = DIB_RAW_FREE).
Proof.
  destruct shift_facts as (H0 & Hh & Hr & Hl & Hlh & H1 & Hraw & Hhome & Hv & Hd).
  destruct Hf as [Hs Hw Ho Hse Hho Hdib Hm Hrest Hz].
  assert (Hst : stops (raw s left_) = false) by (by apply not_free_stops).
  assert (Hin : left_ ∈ o) by (by apply Ho). assert (Hout : hole ∉ o) by (intros (_ & _ & ?)%Ho; done).
  destruct (move_spec s o left_ hole Hs Hw) as (s1 & R1 & M1 & W1); [by left|done|done|].
  pose proof (mo_kept _ _ _ _ M1) as K1. pose proof (kept_n _ _ K1) as N1. pose proof (kept_shaped _ _ K1 Hs) as Hs1.
  set (d := dist (nb s) left_ (home s left_)) in *. set (s' := put_dib hole ((d - 1) `min` DIB_RAW_OVERFLOW) s1).
  assert (K : kept s s') by (etrans; [exact K1|apply put_dib_kept]).
  pose proof (kept_n _ _ K) as N.
  destruct (min_overflow (d - 1) ltac:(lia)) as (Hmo & Hmf & Hmr).
  assert (Hraw' : forall j, raw s' j = if decide (j = hole) then (d - 1) `min` DIB_RAW_OVERFLOW else raw s j).
  { intros j. unfold s'. rewrite put_dib_raw by (done || by rewrite N1). case_decide; [done|]. apply kept_dibs_raw, M1. }
  assert (Hhome' : forall j, valid (nb s) j -> home s' j = if decide (j = hole) then home s left_ else home s j).
  { intros j Hj. rewrite <- (moved_home _ _ _ _ _ M1) by (by left). unfold home.
    apply (kept_hash s1), put_dib_kept. }
  assert (Hfree : forall j, valid (nb s) j -> raw s' j = DIB_RAW_FREE <-> raw s j = DIB_RAW_FREE).
  { intros j Hj. rewrite Hraw'. case_decide; [subst j|done]. tauto. }
  assert (Hse' : settled s').
  { intros j Hj. rewrite N in Hj. rewrite Hraw'. case_decide; [done|by apply Hse]. }
  assert (Hhomes : forall j, valid (nb s) j -> homes s' j = if decide (j = hole) then Some (home s left_) else homes s j).
  { intros j Hj. unfold homes. rewrite Hraw', Hhome' by done. case_decide; [by rewrite Hmo|done]. }
  exists s1, s'. split; [by apply calculate_dib_run, Hdib|]. split; [done|]. split.
  { apply set_dib_run; [done|by rewrite N1|rewrite N1; lia]. }
  split; [done|]. split; [|split].
  - split.
    + by apply (kept_shaped s).
    + apply (owned_same s1); [apply put_dib_kept|done|done|done|done].
    + intros a. rewrite N, elem_rn, Ho by done. destruct (decide (a = hole)) as [->|Hah].
      * split; [intros [((_ & _ & ?) & _)|_]; [done|]|by right]. split; [done|]. split; [|done]. by rewrite Hraw', decide_True.
      * split.
        -- intros [((Hva & Hra & _) & Hal)|[-> _]]; [|done]. split; [done|]. split; [by rewrite Hfree|done].
        -- intros (Hva & Hra & Hal). left. rewrite Hfree in Hra by done. done.
    + done.
    + by rewrite Hfree.
    + intros i Hi Hil Hsi. rewrite N in Hi |- *. rewrite Hraw', Hhome' by done. rewrite Hraw' in Hsi.
      case_decide as E; [|by apply Hdib]. subst i. f_equal.
      rewrite <- (prev_next (nb s) H0 hole) at 1 by done. rewrite dist_prev; [done|done|done|done|by intros E].
    + rewrite N. eapply moving_ext; [done| |apply (moving_step (nb s) H0 _ hole D right (home s left_) Hm); [done| |done]].
      * intros i Hi. unfold upd. rewrite Hhomes by done. repeat case_decide; done.
      * rewrite upd_ne by done. by apply homes_used.
    + rewrite N. intros j Hj Hjd. assert (Hjl : j <> left_).
      { intros ->. rewrite (dist_last (nb s)) in Hjd by done. pose proof (dist_bound (nb s) H0 right (next (nb s) left_)). lia. }
      rewrite (dist_from_next (nb s) H0 left_ j), (dist_from_next (nb s) H0 left_ right) in Hjd by (done || by intros E).
      destruct (Hrest j Hj ltac:(lia)) as [Hj1 Hj2].
      assert (Hjh : j <> hole).
      { intros ->. rewrite (dist_last (nb s)) in Hjd by done. pose proof (dist_bound (nb s) H0 right left_). lia. }
      rewrite Hfree, Hhome', decide_False by done. done.
    + rewrite N. intros i Hi Hri. rewrite Hfree in Hri by done. rewrite <- (Hz i Hi Hri).
      pose proof (mo_kv _ _ _ _ M1 i ltac:(by left)) as E. rewrite decide_False in E by (by intros ->).
      by injection E.
  - etrans; [|apply (moved_contents _ _ _ _ _ M1); [by left|done|apply Hw]].
    by apply list_fmap_ext.
  - done.
Qed.
End shift.

(** Every entry is where it was or one bucket before, and only those between the
    hole and the stop bucket have moved. *)
Definition went_back (n hole right : Z) (o o' : list Z) : Prop :=
  exists r : Z -> Z, o' = r <$> o /\ forall a, a ∈ o ->
    r a = a \/ r a = prev n a /\ dist n a (next n hole) < dist n right (next n hole).

Lemma went_back_step n hole right o o' :
  0 < n -> valid n hole -> valid n right -> next n hole <> right -> next n hole <> hole ->
  (forall a, a ∈ o -> valid n a) -> went_back n (next n hole) right (rn (next n hole) hole <$> o) o' -> went_back n hole right o o'.
Proof.
  intros Hn Hh Hr Hne Hlh Hv (r & -> & Hr'). pose proof (next_valid n Hn hole) as Hl.
  exists (fun a => r (rn (next n hole) hole a)). rewrite <- list_fmap_compose. split; [done|]. intros a Ha.
  assert (Hin : rn (next n hole) hole a ∈ rn (next n hole) hole <$> o) by (by apply list_elem_of_fmap_2).
  pose proof (Hr' _ Hin) as Hc. pose proof (dist_bound n Hn right (next n hole)) as Hb.
  rewrite (dist_from_next n Hn (next n hole) right) in Hc by (done || by intros E).
  unfold rn in Hc |- *. case_decide as E.
  - subst a. right. rewrite (prev_next n Hn), (dist_self n Hn) by done.
    assert (dist n right (next n hole) <> 0) by (intros E; apply Hne; symmetry; by apply (dist_zero n Hn)).
    split; [|lia]. destruct Hc as [|[_ Hlt]]; [done|]. exfalso.
    rewrite (dist_from_next n Hn (next n hole) hole), (dist_last n Hn) in Hlt by done. lia.
  - destruct Hc as [|[-> Hlt]]; [by left|]. right. split; [done|].
    rewrite (dist_from_next n Hn (next n hole) a) in Hlt by (auto || by intros E'). lia.
Qed.

Lemma shift_loop m s o hole D right :
  shifting s o hole D right -> dist (nb s) right (next (nb s) hole) <= Z.of_nat m ->
  exists last s' o' D', shift_back m hole (next (nb s) hole) right s = (Ok last, s') /\ kept s s' /\
    shifting s' o' last D' right /\ next (nb s) last = right /\ kv s' <$> o' = kv s <$> o /\
    (forall j, valid (nb s) j -> raw s' j = DIB_RAW_FREE <-> raw s j = DIB_RAW_FREE) /\ went_back (nb s) hole right o o'.
Proof.
  revert s o hole D; induction m as [|m IH]; intros s o hole D Hf Hm;
    pose proof (sh_pos _ (sf_shaped _ _ _ _ _ Hf)) as Hp;
    pose proof (mv_right _ _ _ _ _ (sf_moving _ _ _ _ _ Hf)) as Hr;
    (destruct (decide (next (nb s) hole = right)) as [E|E];
      [exists hole, s, o, D; cbn [shift_back]; rewrite (proj2 (Z.eqb_eq _ _) E); do 6 (split; [done|]);
         exists id; rewrite list_fmap_id; split; [done|by left]|]).
  - exfalso. apply E. symmetry. apply (dist_zero (nb s)); [lia|done|apply next_valid; lia|].
    pose proof (dist_bound (nb s) ltac:(lia) right (next (nb s) hole)). lia.
  - destruct (shift_facts s o hole D right Hf E) as (H0 & Hh & _ & Hl & _ & _ & _ & _ & _ & Hd).
    destruct (shift_step s o hole D right Hf E) as (s1 & s2 & R1 & R2 & R3 & K & Hf' & Hkv & Hfree).
    pose proof (kept_n _ _ K) as N. pose proof (kept_shaped _ _ K (sf_shaped _ _ _ _ _ Hf)) as Hs2.
    destruct (IH s2 _ _ _ Hf') as (last & s' & o' & D' & R & K' & Hf2 & Hlast & Hkv' & Hfree' & Hwb).
    { rewrite N. rewrite (dist_from_next (nb s) H0) by (done || by intros ?). lia. }
    exists last, s', o', D'. split; [|split; [by etrans|]].
    + cbn [shift_back]. rewrite (proj2 (Z.eqb_neq _ _) E).
      rewrite (stm_bind_run _ _ _ _ _ (dib_raw_run s (sf_shaped _ _ _ _ _ Hf) _ Hl)).
      rewrite (stm_bind_run _ _ _ _ _ R1), sreq_bind by (apply negb_true_iff, Z.eqb_neq; lia).
      rewrite (stm_bind_run _ _ _ _ _ R2), (stm_bind_run _ _ _ _ _ R3), hget_bind.
      rewrite (next_idx_next s2 Hs2) by (by rewrite N). done.
    + split; [done|]. split; [by rewrite <- N|]. split; [by etrans|]. split.
      * intros j Hj. rewrite Hfree' by (by rewrite N). by apply Hfree.
      * rewrite N in Hwb. apply (went_back_step (nb s)); try done; [|by intros a [? _]%(sf_order _ _ _ _ _ Hf)].
        by destruct (shift_facts s o hole D right Hf E) as (_ & _ & _ & _ & ? & _).
Qed.

(** ** The whole removal *)
Lemma shifting_start s o1 idx o2 s1 right :
  table s (o1 ++ idx :: o2) false -> settled s -> valid (nb s) idx -> raw s idx <> DIB_RAW_FREE ->
  left_list s s1 -> owned s1 (o1 ++ o2) -> valid (nb s) right -> stop_raw (raw s right) ->
  (forall j, valid (nb s) j -> dist (nb s) j (next (nb s) idx) < dist (nb s) right (next (nb s) idx) -> ~ stop_raw (raw s j)) ->
  shifting s1 (o1 ++ o2) idx (dist (nb s) idx (home s idx)) right.
Proof.
  intros Ht Hse Hi Hri [K Hd Hkv] Hw Hr Hst Hb. pose proof (t_shaped _ _ _ Ht) as Hs.
  pose proof (sh_pos _ Hs) as Hp. assert (H0 : 0 < nb s) by lia. pose proof (kept_n _ _ K) as N.
  destruct (owned_shorter _ _ _ _ (t_owned _ _ _ Ht)) as (_ & Hi1 & Hi2 & _ & _).
  assert (Hraw : forall j, raw s1 j = raw s j) by (intros j; by apply kept_dibs_raw).
  assert (Hhome : forall j, valid (nb s) j -> home s1 j = home s j).
  { intros j Hj. unfold home. rewrite (kept_hash _ _ _ K). pose proof (Hkv j ltac:(by left)) as E. by injection E as -> _. }
  assert (Hhomes : forall j, valid (nb s) j -> homes s1 j = homes s j).
  { intros j Hj. unfold homes. by rewrite Hraw, Hhome. }
  assert (Hdib : forall i, valid (nb s) i -> stops (raw s i) = false -> raw s i = dist (nb s) i (home s i) `min` DIB_RAW_OVERFLOW)
    by apply Ht.
  split.
  - by apply (kept_shaped s).
  - done.
  - intros a. rewrite N, Hraw. pose proof (t_order _ _ _ Ht a) as Ha. rewrite elem_of_app, elem_of_cons in Ha.
    rewrite elem_of_app. destruct (decide (a = idx)) as [->|Hne]; [tauto|].
    assert (false = true /\ a = IDX_PUT <-> False) as Hc by (by split; [intros []|]). tauto.
  - intros j Hj. rewrite N in Hj. rewrite Hraw. by apply Hse.
  - by rewrite Hraw.
  - intros j Hj Hne Hsj. rewrite N in Hj |- *. rewrite Hraw in Hsj |- *. rewrite Hhome by done. by apply Hdib.
  - rewrite N. eapply (moving_ext (nb s) H0 (upd (homes s) idx None)).
    + intros j Hj. unfold upd. by rewrite Hhomes.
    + apply moving_start; try done; [apply Ht|by apply homes_used|].
      destruct Hst as [Hst|Hst]; [right|left; unfold homes; by rewrite Hst].
      rewrite homes_used by (done || by rewrite Hst). f_equal. symmetry. apply (dist_zero (nb s)); [done|done| |].
      * by apply bucket_hash_valid.
      * pose proof (Hdib right Hr) as E. rewrite Hst in E. unfold DIB_RAW_OVERFLOW in E.
        pose proof (dist_bound (nb s) H0 right (home s right)). specialize (E eq_refl). lia.
  - rewrite N. intros j Hj Hjd. rewrite Hraw, Hhome by done. specialize (Hb j Hj Hjd).
    assert (Hfr : raw s j <> DIB_RAW_FREE) by (intros E; apply Hb; by right).
    split; [done|]. intros E. apply Hb. left. rewrite Hdib, E by (done || by apply not_free_stops).
    rewrite dist_self by done. done.
  - rewrite N. intros i Hv Hr0. rewrite Hraw in Hr0. rewrite <- (t_zero _ _ _ Ht i Hv Hr0).
    pose proof (Hkv i ltac:(by left)) as E. by injection E.
Qed.

(** What a removal leaves as it was *)
Record resized (d : Z) (s s' : state) : Prop := {
  rs_ops : ops (base s') = ops (base s);
  rs_type : type (base s') = type (base s);
  rs_keys : keys s' = keys s;
  rs_store : core (store (base s')) = core (store (n_entries_add d (base s))) }.

Lemma bucket_free_run s i :
  shaped s -> valid (nb s) i -> bucket_mark_free i s = (Ok tt, put_dib i DIB_RAW_FREE (put i zero_entry s)).
Proof.
  intros Hs Hi. unfold bucket_mark_free. rewrite (stm_bind_run _ _ _ _ _ (bucket_put_run s Hs i _ Hi)).
  pose proof (put_kept s i zero_entry) as K. unfold bucket_set_dib. cbn [negb Z.eqb].
  replace (DIB_FREE =? DIB_FREE) with true by done. apply dib_raw_set_run; [by apply (kept_shaped s)|by rewrite (kept_n _ _ K)].
Qed.

Lemma shifting_end s o hole D right :
  shifting s o hole D right -> next (nb s) hole = right ->
  (forall i, valid (nb s) i -> raw s i <> DIB_RAW_FREE -> idx_lowest_entry (base s) <= i) ->
  0 <= idx_lowest_entry (base s) ->
  let s' := put_dib hole DIB_RAW_FREE (put hole zero_entry s) in
  table s' o false /\ settled s' /\ slack (nb s') (homes s') /\ kv s' <$> o = kv s <$> o /\ kept s s'.
Proof.
  intros Hf Hn Hlow Hl0 s'. pose proof (sf_shaped _ _ _ _ _ Hf) as Hs. pose proof (sh_pos _ Hs) as Hp.
  assert (H0 : 0 < nb s) by lia. pose proof (mv_hole _ _ _ _ _ (sf_moving _ _ _ _ _ Hf)) as Hh.
  assert (K : kept s s') by (etrans; [apply put_kept|apply put_dib_kept]). pose proof (kept_n _ _ K) as N.
  pose proof (put_kept s hole zero_entry) as K1.
  assert (Hat : forall j, place (nb s) j -> at_ s' j = if decide (j = hole) then zero_entry else at_ s j).
  { intros j Hj. unfold s'. rewrite put_dib_at, put_at; [done|done|by left|done]. }
  assert (Hraw : forall j, raw s' j = if decide (j = hole) then DIB_RAW_FREE else raw s j).
  { intros j. unfold s'. rewrite put_dib_raw; [|by apply (kept_shaped s)|by rewrite (kept_n _ _ K1)].
    case_decide; [done|]. apply put_raw. }
  assert (Hhome : forall j, valid (nb s) j -> j <> hole -> home s' j = home s j).
  { intros j Hj Hne. unfold home. rewrite (kept_hash _ _ _ K), Hat by (by left). by rewrite decide_False. }
  assert (Hho : hole ∉ o) by (intros (_ & _ & ?)%(sf_order _ _ _ _ _ Hf); done).
  assert (Hhomes : forall j, valid (nb s) j -> homes s' j = upd (homes s) hole None j).
  { intros j Hj. unfold homes, upd. rewrite Hraw. case_decide; [done|]. by rewrite Hhome. }
  assert (Hpl : forall a, a ∈ o -> place (nb s) a) by apply (sf_owned _ _ _ _ _ Hf).
  assert (Hato : forall a, a ∈ o -> at_ s' a = at_ s a).
  { intros a Ha. rewrite Hat by auto. rewrite decide_False; [done|]. by intros ->. }
  split; [|split; [|split; [|split; [|done]]]].
  - split.
    + by apply (kept_shaped s).
    + apply (owned_same s); [done|done| | |apply Hf]; unfold s', put_dib, put; by repeat case_match.
    + intros a. rewrite (sf_order _ _ _ _ _ Hf), N, Hraw. case_decide.
      * split; [by intros (_ & _ & ?)|by intros [[_ ?]|[]]].
      * split; [by intros (? & ? & _); left|by intros [[? ?]|[]]].
    + intros i Hi Hsi. rewrite N in Hi |- *. rewrite Hraw in Hsi |- *. case_decide; [done|].
      rewrite Hhome by done. by apply (sf_dib _ _ _ _ _ Hf).
    + rewrite N. eapply robin_hood_ext; [done|exact Hhomes|]. eapply moving_end; [done|apply Hf|done].
    + intros i Hi. rewrite N in Hi. rewrite Hraw. case_decide; [done|]. intros Hri.
      replace (idx_lowest_entry (base s')) with (idx_lowest_entry (base s)) by (unfold s', put_dib, put; by repeat case_match). auto.
    + intros i Hi Hri. rewrite N in Hi. rewrite Hat by (by left). rewrite Hraw in Hri. case_decide; [done|].
      by apply (sf_zero _ _ _ _ _ Hf).
    + unfold s', put_dib, put. by repeat case_match.
  - intros j Hj. rewrite N in Hj. rewrite Hraw. case_decide; [done|]. by apply (sf_settled _ _ _ _ _ Hf).
  - rewrite N. exists hole. split; [done|]. left. rewrite Hhomes by done. apply upd_eq.
  - apply list_fmap_ext. intros i a Ha%list_elem_of_lookup_2. unfold kv. by rewrite Hato.
Qed.

Lemma table_resized s s' o c d :
  table s o c -> base s' = base_set_dirty (n_entries_add d (base s)) -> swap_put s' = swap_put s ->
  swap_tmp s' = swap_tmp s -> keys s' = keys s -> table s' o c /\ (forall i, at_ s' i = at_ s i) /\
  (forall i, raw s' i = raw s i) /\ nb s' = nb s /\ (forall i, homes s' i = homes s i) /\ resized d s s'.
Proof.
  intros Ht Hb H1 H2 H3.
  assert (Hat : forall i, at_ s' i = at_ s i) by (intros i; unfold at_; by rewrite Hb, H1, H2).
  assert (Hraw : forall i, raw s' i = raw s i) by (intros i; unfold raw; by rewrite Hb).
  assert (N : nb s' = nb s) by (rewrite Hb; unfold n_buckets; cbn; by destruct (store (base s))).
  assert (Hh : forall k, bucket_hash s' k = bucket_hash s k).
  { intros k. apply bucket_hash_same; [by rewrite Hb| |done]. unfold hash_key. rewrite Hb, H3. cbn. by destruct (store (base s)). }
  assert (Hhomes : forall i, homes s' i = homes s i) by (intros i; unfold homes, home; by rewrite Hraw, Hh, Hat).
  split; [|do 4 (split; [done|]); split; by rewrite ?Hb].
  destruct Ht as [Hs Hw Ho Hd Hr Hl Hz Hl0]. split.
  - destruct Hs as [S1 S2 S3]. split; rewrite N; [done|by rewrite Hb..].
  - destruct Hw as [W1 W2 W3]. split; [done|by rewrite N|]. rewrite Hb. intros E. destruct (W3 E) as (Hc & Hh' & Ht').
    split; [|done]. by apply (chain_frame (at_ s)).
  - intros a. by rewrite N, Hraw.
  - intros i Hi Hsi. rewrite N in Hi |- *. rewrite Hraw in Hsi |- *. unfold home. rewrite Hh, Hat. by apply Hd.
  - rewrite N. eapply robin_hood_ext; [apply (sh_pos _ Hs)|intros i Hi; apply Hhomes|done].
  - intros i Hi. rewrite N in Hi. rewrite Hraw. intros Hri. replace (idx_lowest_entry (base s')) with (idx_lowest_entry (base s)); [auto|].
    rewrite Hb. unfold idx_lowest_entry. cbn. by destruct (store (base s)).
  - intros i Hi. rewrite N in Hi. rewrite Hraw, Hat. by apply Hz.
  - rewrite Hb. unfold idx_lowest_entry in *. cbn. by destruct (store (base s)).
Qed.

Lemma kept_resized s s' s'' d : kept s s' -> resized d s' s'' -> resized d s s''.
Proof.
  intros [K1 K2 K3 K4 _ _] [R1 R2 R3 R4]. split; [congruence..|]. rewrite R4. f_equal. unfold n_entries_add. cbn. by rewrite K3.
Qed.

Theorem remove_spec s o1 idx o2 :
  table s (o1 ++ idx :: o2) false -> settled s -> slack (nb s) (homes s) -> (forall a, a ∈ o1 ++ idx :: o2 -> valid (nb s) a) ->
  exists s' o', base_remove_entry idx s = (Ok tt, s') /\ table s' o' false /\ settled s' /\ slack (nb s') (homes s') /\
    kv s' <$> o' = kv s <$> (o1 ++ o2) /\ resized (-1) s s' /\ nb s' = nb s /\
    (exists r, o' = r <$> (o1 ++ o2) /\ forall a, a ∈ o1 ++ o2 -> r a = a \/ r a = prev (nb s) a).
Proof.
  intros Ht Hse Hsl Hv. pose proof (t_shaped _ _ _ Ht) as Hs. pose proof (sh_pos _ Hs) as Hp.
  assert (H0 : 0 < nb s) by lia.
  assert (Hin : idx ∈ o1 ++ idx :: o2) by (apply elem_of_app; right; left).
  pose proof (Hv idx Hin) as Hi. assert (Hri : raw s idx <> DIB_RAW_FREE).
  { apply (t_order _ _ _ Ht) in Hin as [[_ ?]|[]]; done. }
  destruct (find_stop_run s idx (Z.to_nat (nb s)) (next (nb s) idx)) as (right & R1 & Hr & Hst & Hb);
    [done|done|by eapply slack_stop_raw|by apply next_valid|rewrite dist_self; lia| |].
  { intros j _. rewrite dist_self by done. pose proof (dist_bound (nb s) H0 j (next (nb s) idx)). lia. }
  destruct (unlink_spec s o1 idx o2 Hs (t_owned _ _ _ Ht) Hv) as (s1 & R2 & Hll & Hw1).
  pose proof (ll_kept _ _ Hll) as K1. pose proof (kept_n _ _ K1) as N1.
  pose proof (shifting_start s o1 idx o2 s1 right Ht Hse Hi Hri Hll Hw1 Hr Hst Hb) as Hf.
  destruct (shift_loop (Z.to_nat (nb s)) s1 _ _ _ _ Hf) as (last & s2 & o2' & D' & R3 & K2 & Hf2 & Hlast & Hkv2 & Hfree & r & Hr1 & Hr2).
  { rewrite N1. pose proof (dist_bound (nb s) H0 right (next (nb s) idx)). lia. }
  pose proof (kept_n _ _ K2) as N2.
  assert (Hlow : forall i, valid (nb s2) i -> raw s2 i <> DIB_RAW_FREE -> idx_lowest_entry (base s2) <= i).
  { intros i Hi2. rewrite N2 in Hi2. rewrite Hfree by done. rewrite N1 in Hi2.
    rewrite (kept_dibs_raw s s1) by apply Hll. unfold idx_lowest_entry. rewrite (k_store _ _ K2), (k_store _ _ K1).
    by apply (t_lowest _ _ _ Ht). }
  rewrite <- N1, <- N2 in Hlast || rewrite <- N2 in Hlast.
  assert (Hl0 : 0 <= idx_lowest_entry (base s2)).
  { unfold idx_lowest_entry. rewrite (k_store _ _ K2), (k_store _ _ K1). apply (t_low0 _ _ _ Ht). }
  destruct (shifting_end s2 o2' last D' right Hf2 Hlast Hlow Hl0) as (Ht3 & Hse3 & Hsl3 & Hkv3 & K3).
  set (s3 := put_dib last DIB_RAW_FREE (put last zero_entry s2)) in *.
  set (s4 := set_base (base_set_dirty (n_entries_dec (base s3))) s3).
  destruct (table_resized s3 s4 o2' false (-1) Ht3) as (Ht4 & Hat4 & Hraw4 & N4 & Hh4 & Hrs); [done..|].
  exists s4, o2'. split; [|split; [done|split; [|split; [|split; [|split; [|split]]]]]].
  - unfold base_remove_entry. rewrite (stm_bind_run _ _ _ _ _ (dib_raw_run s Hs idx Hi)).
    rewrite sreq_bind by (by apply negb_true_iff, Z.eqb_neq). rewrite hget_bind, (next_idx_next s Hs idx Hi).
    rewrite (stm_bind_run _ _ _ _ _ R1), (stm_bind_run _ _ _ _ _ R2). rewrite <- N1 at 2. rewrite (stm_bind_run _ _ _ _ _ R3).
    rewrite (stm_bind_run _ _ _ _ _ (bucket_free_run s2 last (sf_shaped _ _ _ _ _ Hf2) (mv_hole _ _ _ _ _ (sf_moving _ _ _ _ _ Hf2)))).
    done.
  - intros j Hj. rewrite N4 in Hj. rewrite Hraw4. by apply Hse3.
  - destruct Hsl3 as (i & Hi3 & Hc). exists i. by rewrite N4, Hh4.
  - etrans; [|etrans; [exact Hkv3|etrans; [exact Hkv2|]]].
    + apply list_fmap_ext. intros i a _. unfold kv. by rewrite Hat4.
    + apply list_fmap_ext. intros i a Ha%list_elem_of_lookup_2. apply (ll_kv _ _ Hll). left. apply Hv.
      rewrite elem_of_app in Ha |- *. rewrite elem_of_cons. tauto.
  - eapply kept_resized; [|exact Hrs]. by etrans; [exact K1|etrans; [exact K2|exact K3]].
  - by rewrite N4, (kept_n _ _ K3), N2, N1.
  - exists r. split; [done|]. intros a Ha. rewrite N1 in Hr2. destruct (Hr2 a Ha) as [|[? _]]; [by left|by right].
Qed.
