(* ===== verification/HashPut.v ===== *)
(** * Placing an entry ([hashmap_put_robin_hood] of [src/basic/hashmap.c])

    The entry in [IDX_PUT] goes from its home on until it comes to a free bucket, or
    to one that waits for being hashed again, and takes the place of wealthier
    entries on its way: the loop ends and the table stays in order. *)
From S2P Require Import Prelude Siphash Hashmap RobinHood HashTable HashProbe HashRemove.

(** ** Into the list of an ordered map *)
Lemma link_spec s o :
  shaped s -> owned s o -> (forall a, a ∈ o -> valid (nb s) a) ->
  exists s', (if is_ordered (base s) then link_last else mret tt) s = (Ok tt, s') /\
    left_list s s' /\ owned s' (o ++ [IDX_PUT]).
Proof.
  intros Hs Hw Hv.
  assert (Hput : IDX_PUT ∉ o) by (intros H; by destruct (valid_ne_swap s IDX_PUT Hs (Hv _ H)) as [? _]).
  assert (Hnd : NoDup (o ++ [IDX_PUT])).
  { apply NoDup_app. split; [apply Hw|]. split; [|apply NoDup_singleton]. by intros a Ha ->%list_elem_of_singleton. }
  assert (Hpl : forall a, a ∈ o ++ [IDX_PUT] -> place (nb s) a).
  { intros a [Ha| ->%list_elem_of_singleton]%elem_of_app; [left; by apply Hv|by right; left]. }
  destruct (is_ordered (base s)) eqn:Ho.
  2:{ exists s. split; [done|]. split; [by split|]. split; [done|done|by rewrite Ho]. }
  destruct (ow_linked _ _ Hw Ho) as (Hc & Hh & Ht).
  set (t := iterate_list_tail (base s)) in *.
  set (s1 := set_swap_put (set_previous t (set_next IDX_NIL (swap_put s))) s).
  assert (K1 : kept s s1) by done. assert (Hs1 : shaped s1) by (by apply (kept_shaped s)).
  assert (Hat1 : forall j, j <> IDX_PUT -> at_ s1 j = at_ s j).
  { intros j Hj. unfold at_, s1. cbn. by rewrite (proj2 (Z.eqb_neq _ _) Hj). }
  set (s2 := if t =? IDX_NIL then s1 else put t (set_next IDX_PUT (at_ s1 t)) s1).
  assert (K2 : kept s s2) by (unfold s2; destruct (t =? _); [done|etrans; [exact K1|apply put_kept]]).
  assert (Htv : t <> IDX_NIL -> last o = Some t /\ valid (nb s) t).
  { intros Hne. unfold t in *. destruct (last o) as [a|] eqn:E; cbn in Ht; [|done]. rewrite Ht. split; [done|].
    apply Hv. by apply last_Some_elem_of. }
  assert (R2 : (if negb (t =? IDX_NIL) then old_tail ← bucket_at t; sreq (iterate_next old_tail =? IDX_NIL) EASSERT;;
                 bucket_put t (set_next IDX_PUT old_tail) else mret tt) s1 = (Ok tt, s2)).
  { unfold s2. destruct (Z.eqb_spec t IDX_NIL) as [E|E]; [done|]. cbn [negb]. destruct (Htv E) as [Hla Hvt].
    rewrite (stm_bind_run _ _ _ _ _ (bucket_at_run s1 Hs1 t Hvt)).
    rewrite sreq_bind; [by apply bucket_put_run|]. apply Z.eqb_eq. rewrite Hat1 by (by apply (valid_ne_swap s)).
    apply last_Some in Hla as [o1 ->]. apply chain_app in Hc as [_ (_ & Hn & _)]. done. }
  set (s' := set_base (if iterate_list_head (base s2) =? IDX_NIL then set_head IDX_PUT (set_tail IDX_PUT (base s2))
                       else set_tail IDX_PUT (base s2)) s2).
  assert (Hd : dibs (base s') = dibs (base s) /\ kept s2 s').
  { split; [|by unfold s'; destruct (iterate_list_head (base s2) =? IDX_NIL)].
    transitivity (dibs (base s2)); [by unfold s'; destruct (iterate_list_head (base s2) =? IDX_NIL)|]. unfold s2.
    destruct (t =? IDX_NIL); [done|apply (put_dibs s1)]. }
  assert (Hat : forall j, place (nb s) j -> at_ s' j = if decide (j = IDX_PUT) then set_previous t (set_next IDX_NIL (swap_put s))
     else if decide (j = t) then set_next IDX_PUT (at_ s j) else at_ s j).
  { intros j Hj. assert (at_ s' j = at_ s2 j) as -> by (unfold s'; by destruct (iterate_list_head (base s2) =? IDX_NIL)).
    assert (Hp1 : at_ s1 j = if decide (j = IDX_PUT) then set_previous t (set_next IDX_NIL (swap_put s)) else at_ s j).
    { case_decide as E; [by subst j|by apply Hat1]. }
    unfold s2. destruct (Z.eqb_spec t IDX_NIL) as [E|E].
    - rewrite Hp1. rewrite (decide_False (P := j = t)); [done|]. rewrite E. by apply (place_ne_nil s).
    - destruct (Htv E) as [_ Hvt]. rewrite put_at by (done || by left).
      assert (t <> IDX_PUT) as Htp by (by apply (valid_ne_swap s)).
      destruct (decide (j = t)) as [->|Ej]; [|done]. by rewrite decide_False, Hat1. }
  exists s'. split; [|split].
  - unfold link_last. rewrite hget_bind. fold t. rewrite smod_bind. fold s1.
    rewrite (stm_bind_run _ _ _ _ _ R2), hmod_bind. done.
  - split; [etrans; [exact K2|apply Hd]|apply Hd|]. intros j Hj. unfold kv. rewrite Hat by done.
    repeat case_decide; subst; done.
  - split; [done|intros a Ha; rewrite (kept_n _ _ (proj2 Hd)), (kept_n _ _ K2); by apply Hpl|intros _]. split; [|split].
    + apply chain_app. split; [|cbn; rewrite Hat by (by right; left); by rewrite decide_True].
      eapply (chain_end (at_ s)); [apply Hw|exact Hc| |].
      * intros a Ha Hl. rewrite Hat by (left; auto). rewrite decide_False by (by intros ->).
        rewrite decide_False; [done|]. rewrite Ht. apply (not_default s); [done|done|left; auto].
      * intros a Hl. assert (Ha : a ∈ o) by (by apply last_Some_elem_of). rewrite Hat by (left; auto).
        rewrite decide_False by (by intros ->). rewrite decide_True; [done|]. by rewrite Ht, Hl.
    + replace (iterate_list_head (base s')) with (if iterate_list_head (base s) =? IDX_NIL then IDX_PUT else iterate_list_head (base s)).
      2:{ assert (iterate_list_head (base s) = iterate_list_head (base s2)) as ->.
          { unfold s2. destruct (t =? IDX_NIL); [done|]. by destruct (put_ends s1 t (set_next IDX_PUT (at_ s1 t))) as [-> _]. }
          unfold s'. by destruct (iterate_list_head (base s2) =? IDX_NIL). }
      rewrite Hh. destruct o as [|a o]; [done|]. cbn. rewrite (proj2 (Z.eqb_neq _ _)); [done|].
      apply (valid_ne_swap s a Hs), Hv. left.
    + rewrite last_snoc. unfold s'. by destruct (iterate_list_head (base s2) =? IDX_NIL).
Qed.

Lemma left_list_home s s' j : left_list s s' -> place (nb s) j -> home s' j = home s j.
Proof.
  intros [K _ Hkv] Hj. unfold home. rewrite (kept_hash _ _ _ K). pose proof (Hkv j Hj) as E. by injection E as -> _.
Qed.

Lemma carry_table s s' o :
  table s o false -> left_list s s' -> owned s' (o ++ [IDX_PUT]) -> table s' (o ++ [IDX_PUT]) true.
Proof.
  intros Ht Hll Hw. pose proof (ll_kept _ _ Hll) as K. pose proof (kept_n _ _ K) as N.
  pose proof (sh_pos _ (t_shaped _ _ _ Ht)) as Hp.
  assert (Hraw : forall i, raw s' i = raw s i) by (intros i; apply kept_dibs_raw, Hll).
  assert (Hhome : forall i, valid (nb s) i -> home s' i = home s i) by (intros i Hi; apply left_list_home; [done|by left]).
  split.
  - apply (kept_shaped s); [done|apply Ht].
  - done.
  - intros a. rewrite elem_of_app, list_elem_of_singleton, (t_order _ _ _ Ht), N, Hraw. naive_solver.
  - intros i Hi Hsi. rewrite N in Hi |- *. rewrite Hraw in Hsi |- *. rewrite Hhome by done. by apply Ht.
  - rewrite N. eapply robin_hood_ext; [lia| |apply Ht]. intros i Hi. unfold homes. by rewrite Hraw, Hhome.
  - intros i Hi. rewrite N in Hi. rewrite Hraw. intros Hri. unfold idx_lowest_entry. rewrite (k_store _ _ K).
    by apply (t_lowest _ _ _ Ht).
  - intros i Hi. rewrite N in Hi. rewrite Hraw. intros Hri. rewrite <- (t_zero _ _ _ Ht i Hi Hri).
    pose proof (ll_kv _ _ Hll i ltac:(by left)) as E. by injection E.
  - unfold idx_lowest_entry. rewrite (k_store _ _ K). apply (t_low0 _ _ _ Ht).
Qed.

(** ** The mark of the lowest entry and the distance *)
Definition lower (idx : Z) (h : hashmap) : hashmap :=
  if has_indirect h && (idx <? idx_lowest_entry h) then set_lowest idx h else h.

Lemma lower_alike idx s : alike s (set_base (lower idx (base s)) s) /\
  idx_lowest_entry (lower idx (base s)) <= idx_lowest_entry (base s) /\
  (0 <= idx -> idx_lowest_entry (lower idx (base s)) <= idx) /\
  (0 <= idx -> 0 <= idx_lowest_entry (base s) -> 0 <= idx_lowest_entry (lower idx (base s))) /\
  dibs (lower idx (base s)) = dibs (base s) /\ (forall j, at_ (set_base (lower idx (base s)) s) j = at_ s j) /\
  iterate_list_head (lower idx (base s)) = iterate_list_head (base s) /\
  iterate_list_tail (lower idx (base s)) = iterate_list_tail (base s).
Proof.
  unfold lower, has_indirect, idx_lowest_entry, set_lowest, at_.
  destruct (store (base s)) as [n|k n m l] eqn:E; cbn; [rewrite E; by split|].
  destruct (Z.ltb_spec idx l); cbn; rewrite ?E; cbn.
  - split; [split; cbn; by rewrite ?E|]. repeat split; lia.
  - split; [by split|]. repeat split; lia.
Qed.

Lemma alike_owned s s' o :
  alike s s' -> (forall a, a ∈ o -> at_ s' a = at_ s a) -> iterate_list_head (base s') = iterate_list_head (base s) ->
  iterate_list_tail (base s') = iterate_list_tail (base s) -> owned s o -> owned s' o.
Proof.
  intros K Ha Hh Ht [H1 H2 H3]. split; [done|by rewrite (alike_n _ _ K)|].
  unfold is_ordered. rewrite (al_type _ _ K), Hh, Ht. intros Ho. destruct (H3 Ho) as (Hc & ? & ?). split; [|done].
  by apply (chain_frame (at_ s)).
Qed.

(** [d] is written into bucket [idx]. *)
Record marked (s s' : state) (idx d : Z) : Prop := {
  ma_alike : alike s s';
  ma_at : forall j, at_ s' j = at_ s j;
  ma_raw : forall j, raw s' j = if decide (j = idx) then d `min` DIB_RAW_OVERFLOW else raw s j;
  ma_lowest : idx_lowest_entry (base s') <= idx_lowest_entry (base s);
  ma_low0 : 0 <= idx_lowest_entry (base s) -> 0 <= idx_lowest_entry (base s');
  ma_owned : forall o, owned s o -> owned s' o }.

Lemma set_dib_marked s idx d :
  shaped s -> valid (nb s) idx -> 0 <= d < nb s ->
  exists s', bucket_set_dib idx d s = (Ok tt, s') /\ marked s s' idx d.
Proof.
  intros Hs Hi Hd. exists (put_dib idx (d `min` DIB_RAW_OVERFLOW) s). split; [by apply set_dib_run|].
  split; [apply kept_alike, put_dib_kept|done|by intros j; apply put_dib_raw|done|done|].
  intros o Ho. by apply (owned_same s); [apply put_dib_kept|..].
Qed.

Lemma lower_set_dib_marked s idx d :
  shaped s -> valid (nb s) idx -> 0 <= d < nb s ->
  exists s', (hmod (lower idx);; bucket_set_dib idx d) s = (Ok tt, s') /\ marked s s' idx d /\ idx_lowest_entry (base s') <= idx.
Proof.
  intros Hs Hi Hd. destruct (lower_alike idx s) as (A & L1 & L2 & L0 & D & Hat & Hh & Ht).
  set (s1 := set_base (lower idx (base s)) s) in *. pose proof (alike_n _ _ A) as N1.
  destruct (set_dib_marked s1 idx d) as (s' & R & M); [by apply (alike_shaped s)|by rewrite N1|by rewrite N1|].
  exists s'. rewrite hmod_bind. split; [done|]. destruct M as [A' Hat' Hraw' L' L0' Ho']. split.
  - split; [by etrans|intros j; by rewrite Hat', Hat| |etrans; [exact L'|exact L1]|intros H0; apply L0', L0; [unfold valid in Hi; lia|done]|].
    + intros j. rewrite Hraw'. case_decide; [done|]. unfold raw. change (dibs (base s1)) with (dibs (lower idx (base s))). by rewrite D.
    + intros o Ho. apply Ho', (alike_owned s); done.
  - etrans; [exact L'|]. apply L2. unfold valid in Hi. lia.
Qed.

(** ** The moves *)
Lemma elem_swapped s o idx :
  table s o true -> valid (nb s) idx -> raw s idx <> DIB_RAW_FREE ->
  idx ∈ o /\ IDX_PUT ∈ o /\ IDX_TMP ∉ o.
Proof.
  intros Ht Hi Hr. pose proof (t_order _ _ _ Ht) as Ho. split; [|split].
  - apply Ho. by left.
  - apply Ho. by right.
  - intros H%Ho. destruct H as [[Hv _]|[_ [=]]]. by destruct (valid_ne_swap s IDX_TMP (t_shaped _ _ _ Ht) Hv) as (_ & ? & _).
Qed.

(** The entry in [IDX_PUT] goes to [idx], and the one that was there comes from
    [IDX_TMP] to [IDX_PUT]. *)
Lemma swap_rest s o idx :
  shaped s -> owned s o -> valid (nb s) idx -> IDX_PUT ∈ o -> IDX_TMP ∈ o -> idx ∉ o ->
  exists s' o', (bucket_move_entry IDX_PUT idx;; bucket_move_entry IDX_TMP IDX_PUT) s = (Ok tt, s') /\
    kept s s' /\ dibs (base s') = dibs (base s) /\ owned s' o' /\ kv s' IDX_PUT = kv s IDX_TMP /\
    (forall j, valid (nb s) j -> kv s' j = if decide (j = idx) then kv s IDX_PUT else kv s j) /\
    kv s' <$> o' = kv s <$> o /\
    (forall a, a ∈ o' <-> a = idx \/ a = IDX_PUT \/ (a ∈ o /\ a <> IDX_PUT /\ a <> IDX_TMP)).
Proof.
  intros Hs Hw Hi Hp Ht Hno. destruct (valid_ne_swap s idx Hs Hi) as (Hip & Hit & _).
  destruct (move_spec s o IDX_PUT idx Hs Hw) as (s1 & R1 & M1 & W1); [by left|done|done|].
  pose proof (kept_n _ _ (mo_kept _ _ _ _ M1)) as N1. pose proof (kept_shaped _ _ (mo_kept _ _ _ _ M1) Hs) as Hs1.
  assert (Ht1 : IDX_TMP ∈ rn IDX_PUT idx <$> o) by (apply elem_rn; [done|by left]).
  assert (Hp1 : IDX_PUT ∉ rn IDX_PUT idx <$> o) by (rewrite elem_rn by done; intros [[_ ?]|[? _]]; done).
  destruct (move_spec s1 _ IDX_TMP IDX_PUT Hs1 W1) as (s2 & R2 & M2 & W2); [by right; left|done|done|].
  pose proof (ow_places _ _ W1) as Hpl1. pose proof (ow_places _ _ Hw) as Hpl.
  exists s2. eexists. split; [by rewrite (stm_bind_run _ _ _ _ _ R1)|].
  split; [etrans; [apply M1|apply M2]|]. split; [etrans; [apply M2|apply M1]|]. split; [exact W2|].
  split; [|split; [|split]].
  - rewrite (mo_kv _ _ _ _ M2) by (by right; left). rewrite decide_True by done.
    rewrite (mo_kv _ _ _ _ M1) by (by right; right). by rewrite decide_False.
  - intros j Hj. rewrite (mo_kv _ _ _ _ M2) by (left; by rewrite N1).
    rewrite decide_False by (by apply (valid_ne_swap s)). by apply (mo_kv _ _ _ _ M1); left.
  - rewrite (moved_contents _ _ _ _ _ M2); [|by right; left|done|done].
    by rewrite (moved_contents _ _ _ _ _ M1); [|by left|done|done].
  - intros a. rewrite elem_rn, elem_rn by done.
    destruct (decide (a = idx)) as [->|]; [naive_solver|]. destruct (decide (a = IDX_PUT)) as [->|]; [naive_solver|].
    naive_solver.
Qed.

(** ** One bucket gets the entry of [IDX_PUT] *)
Record filled (s s' : state) (o o' : list Z) (b : bool) (idx d : Z) : Prop := {
  fi_alike : alike s s';
  fi_owned : owned s' o';
  fi_raw : forall j, valid (nb s) j -> raw s' j = if decide (j = idx) then d `min` DIB_RAW_OVERFLOW else raw s j;
  fi_kv : forall j, valid (nb s) j -> kv s' j = if decide (j = idx) then kv s IDX_PUT else kv s j;
  fi_order : forall a, a ∈ o' <-> a = idx \/ (a ∈ o /\ a <> IDX_PUT) \/ (b = true /\ a = IDX_PUT);
  fi_contents : kv s' <$> o' = kv s <$> o;
  fi_lowest : idx_lowest_entry (base s') <= idx_lowest_entry (base s) /\ idx_lowest_entry (base s') <= idx;
  fi_low0 : 0 <= idx_lowest_entry (base s) -> 0 <= idx_lowest_entry (base s') }.

Section filled.
Context (s s' : state) (o o' : list Z) (b : bool) (idx d : Z).
Context (Ht : table s o true) (Hf : filled s s' o o' b idx d) (Hi : valid (nb s) idx).
Context (Hd : d = dist (nb s) idx (home s IDX_PUT)).

Lemma filled_homes j :
  valid (nb s) j -> homes s' j = upd (homes s) idx (Some (home s IDX_PUT)) j.
Proof.
  intros Hj. pose proof (sh_pos _ (t_shaped _ _ _ Ht)) as Hp.
  pose proof (dist_bound (nb s) ltac:(lia) idx (home s IDX_PUT)) as Hb. rewrite <- Hd in Hb.
  pose proof (fi_kv _ _ _ _ _ _ _ Hf j Hj) as E. unfold kv in E.
  unfold homes, upd, home. rewrite (fi_raw _ _ _ _ _ _ _ Hf j Hj), (alike_hash _ _ _ (fi_alike _ _ _ _ _ _ _ Hf)).
  case_decide; injection E as -> _; [|done]. by rewrite (proj1 (min_overflow d (proj1 Hb))).
Qed.

Lemma filled_table : robin_hood (nb s) (upd (homes s) idx (Some (home s IDX_PUT))) -> table s' o' b.
Proof.
  intros Hr. pose proof (fi_alike _ _ _ _ _ _ _ Hf) as A. pose proof (alike_n _ _ A) as N.
  pose proof (sh_pos _ (t_shaped _ _ _ Ht)) as Hp.
  pose proof (dist_bound (nb s) ltac:(lia) idx (home s IDX_PUT)) as Hb. rewrite <- Hd in Hb.
  destruct (min_overflow d (proj1 Hb)) as (_ & Hmf & _).
  split.
  - apply (alike_shaped s); [done|apply Ht].
  - apply Hf.
  - intros a. rewrite (fi_order _ _ _ _ _ _ _ Hf), N, (t_order _ _ _ Ht). split.
    + intros [->|[[[[Hv Hr']|[_ ?]] Hne]|]]; [|left|done|by right].
      * left. split; [done|]. by rewrite (fi_raw _ _ _ _ _ _ _ Hf), decide_True.
      * split; [done|]. rewrite (fi_raw _ _ _ _ _ _ _ Hf) by done. by case_decide.
    + intros [[Hv Hr']|]; [|by right; right]. destruct (decide (a = idx)) as [|Hne]; [by left|]. right. left.
      rewrite (fi_raw _ _ _ _ _ _ _ Hf), decide_False in Hr' by done. split; [by left|].
      by apply (valid_ne_swap s a (t_shaped _ _ _ Ht)).
  - intros i Hv Hs. rewrite N in Hv |- *. pose proof (filled_homes i Hv) as E. unfold homes in E at 1. rewrite Hs in E.
    rewrite (fi_raw _ _ _ _ _ _ _ Hf) in Hs |- * by done. unfold upd in E. case_decide as Ei.
    + injection E as ->. by subst i d.
    + unfold homes in E. rewrite Hs in E. injection E as ->. by apply Ht.
  - rewrite N. eapply robin_hood_ext; [lia|exact filled_homes|done].
  - intros i Hv Hri. rewrite N in Hv. rewrite (fi_raw _ _ _ _ _ _ _ Hf) in Hri by done.
    destruct (fi_lowest _ _ _ _ _ _ _ Hf) as [L1 L2]. case_decide as Ei; [by subst i|].
    etrans; [exact L1|]. by apply (t_lowest _ _ _ Ht).
  - intros i Hv Hri. rewrite N in Hv. rewrite (fi_raw _ _ _ _ _ _ _ Hf) in Hri by done.
    pose proof (fi_kv _ _ _ _ _ _ _ Hf i Hv) as E. case_decide as Ei; [done|].
    rewrite <- (t_zero _ _ _ Ht i Hv Hri). by injection E.
  - apply (fi_low0 _ _ _ _ _ _ _ Hf), (t_low0 _ _ _ Ht).
Qed.
End filled.

(** The bucket is free. *)
Lemma fill_free s o idx d :
  table s o true -> valid (nb s) idx -> 0 <= d < nb s -> raw s idx = DIB_RAW_FREE ->
  exists s' o', (hmod (lower idx);; bucket_set_dib idx d;; bucket_move_entry IDX_PUT idx) s = (Ok tt, s') /\
    filled s s' o o' false idx d.
Proof.
  intros Ht Hi Hd Hr. pose proof (t_shaped _ _ _ Ht) as Hs. pose proof (t_owned _ _ _ Ht) as Hw.
  destruct (lower_set_dib_marked s idx d Hs Hi Hd) as (s1 & R1 & [A1 At1 Raw1 L1 L01 O1] & L1').
  pose proof (alike_n _ _ A1) as N1. pose proof (alike_shaped _ _ A1 Hs) as Hs1.
  assert (Hp : IDX_PUT ∈ o) by (apply (t_order _ _ _ Ht); by right).
  assert (Hno : idx ∉ o).
  { intros [[_ ?]|[_ ?]]%(t_order _ _ _ Ht); [done|]. by destruct (valid_ne_swap s idx Hs Hi). }
  destruct (move_spec s1 o IDX_PUT idx Hs1 (O1 o Hw)) as (s2 & R2 & M2 & W2); [left; by rewrite N1|done|done|].
  assert (Kv1 : forall j, kv s1 j = kv s j) by (intros j; unfold kv; by rewrite At1).
  pose proof (kept_alike _ _ (mo_kept _ _ _ _ M2)) as A2.
  exists s2. eexists. split.
  { rewrite hmod_bind in R1 |- *. by rewrite (stm_bind_run _ _ _ _ _ R1). }
  split; [by etrans|exact W2| | | | | |].
  - intros j Hj. rewrite (kept_dibs_raw s1) by apply M2. apply Raw1.
  - intros j Hj. rewrite (mo_kv _ _ _ _ M2) by (left; by rewrite N1). by rewrite !Kv1.
  - intros a. rewrite elem_rn by done. naive_solver.
  - rewrite (moved_contents _ _ _ _ _ M2); [|left; by rewrite N1|done|apply (O1 o Hw)].
    by apply list_fmap_ext.
  - unfold idx_lowest_entry at 1 3. by rewrite (k_store _ _ (mo_kept _ _ _ _ M2)).
  - unfold idx_lowest_entry at 2. by rewrite (k_store _ _ (mo_kept _ _ _ _ M2)).
Qed.

Lemma order_swapped (o : list Z) idx a :
  idx ∈ o -> IDX_TMP ∉ o ->
  a = idx \/ a = IDX_PUT \/ a ∈ rn idx IDX_TMP <$> o /\ a <> IDX_PUT /\ a <> IDX_TMP <->
  a = idx \/ a ∈ o /\ a <> IDX_PUT \/ true = true /\ a = IDX_PUT.
Proof.
  intros Hi Ht. rewrite elem_rn by done. destruct (decide (a = IDX_TMP)) as [->|]; [tauto|].
  destruct (decide (a = idx)); tauto.
Qed.

(** The bucket's entry waits for being hashed again. *)
Lemma fill_rehash s o idx d :
  table s o true -> valid (nb s) idx -> 0 <= d < nb s -> raw s idx = DIB_RAW_REHASH ->
  exists s' o', (bucket_move_entry idx IDX_TMP;; hmod (lower idx);; bucket_set_dib idx d;;
                 bucket_move_entry IDX_PUT idx;; bucket_move_entry IDX_TMP IDX_PUT) s = (Ok tt, s') /\
    filled s s' o o' true idx d.
Proof.
  intros Ht Hi Hd Hr. pose proof (t_shaped _ _ _ Ht) as Hs. pose proof (t_owned _ _ _ Ht) as Hw.
  destruct (elem_swapped s o idx Ht Hi) as (Hin & Hp & Htm); [by rewrite Hr|].
  destruct (valid_ne_swap s idx Hs Hi) as (Hip & Hit & _).
  destruct (move_spec s o idx IDX_TMP Hs Hw) as (s1 & R1 & M1 & W1); [by right; right|done|done|].
  pose proof (kept_alike _ _ (mo_kept _ _ _ _ M1)) as A1. pose proof (alike_n _ _ A1) as N1.
  pose proof (alike_shaped _ _ A1 Hs) as Hs1.
  destruct (lower_set_dib_marked s1 idx d Hs1) as (s2 & R2 & [A2 At2 Raw2 L2 L02 O2] & L2'); [by rewrite N1|by rewrite N1|].
  pose proof (alike_n _ _ A2) as N2. pose proof (alike_shaped _ _ A2 Hs1) as Hs2.
  assert (Kv2 : forall j, kv s2 j = kv s1 j) by (intros j; unfold kv; by rewrite At2).
  destruct (swap_rest s2 _ idx Hs2 (O2 _ W1)) as (s3 & o' & R3 & K3 & D3 & W3 & _ & Kv3 & C3 & E3).
  { by rewrite N2, N1. } { apply elem_rn; [done|]. by left. } { apply elem_rn; [done|]. by right. }
  { rewrite elem_rn by done. by intros [[_ ?]|[? _]]. }
  pose proof (kept_alike _ _ K3) as A3.
  exists s3, o'. split.
  { rewrite (stm_bind_run _ _ _ _ _ R1). rewrite hmod_bind in R2 |- *. by rewrite (stm_bind_run _ _ _ _ _ R2). }
  split; [etrans; [exact A1|by etrans]|exact W3| | | | | |].
  - intros j Hj. rewrite (kept_dibs_raw s2) by done. rewrite Raw2. case_decide; [done|]. apply kept_dibs_raw, M1.
  - intros j Hj. rewrite Kv3 by (by rewrite N2, N1). rewrite !Kv2.
    rewrite !(mo_kv _ _ _ _ M1) by first [by left|by right; left].
    rewrite (decide_False (P := IDX_PUT = IDX_TMP)) by done. case_decide; [done|].
    rewrite decide_False; [done|]. by apply (valid_ne_swap s).
  - intros a. rewrite E3. by apply order_swapped.
  - rewrite C3. transitivity (kv s1 <$> (rn idx IDX_TMP <$> o)); [by apply list_fmap_ext|]. apply (moved_contents _ _ _ _ _ M1); [by right; right|done|apply Hw].
  - unfold idx_lowest_entry at 1 3. rewrite (k_store _ _ K3). split; [|done].
    etrans; [exact L2|]. unfold idx_lowest_entry. by rewrite (k_store _ _ (mo_kept _ _ _ _ M1)).
  - intros H0. unfold idx_lowest_entry. rewrite (k_store _ _ K3). apply L02. unfold idx_lowest_entry.
    by rewrite (k_store _ _ (mo_kept _ _ _ _ M1)).
Qed.

(** The bucket's entry is wealthier. *)
Lemma fill_swap s o idx d :
  table s o true -> valid (nb s) idx -> 0 <= d < nb s -> raw s idx <> DIB_RAW_FREE ->
  exists s' o', (bucket_set_dib idx d;; bucket_move_entry idx IDX_TMP;;
                 bucket_move_entry IDX_PUT idx;; bucket_move_entry IDX_TMP IDX_PUT) s = (Ok tt, s') /\
    filled s s' o o' true idx d /\ kv s' IDX_PUT = kv s idx.
Proof.
  intros Ht Hi Hd Hr. pose proof (t_shaped _ _ _ Ht) as Hs. pose proof (t_owned _ _ _ Ht) as Hw.
  destruct (elem_swapped s o idx Ht Hi Hr) as (Hin & Hp & Htm).
  destruct (valid_ne_swap s idx Hs Hi) as (Hip & Hit & _).
  destruct (set_dib_marked s idx d Hs Hi Hd) as (s1 & R1 & [A1 At1 Raw1 L1 L01 O1]).
  pose proof (alike_n _ _ A1) as N1. pose proof (alike_shaped _ _ A1 Hs) as Hs1.
  assert (Kv1 : forall j, kv s1 j = kv s j) by (intros j; unfold kv; by rewrite At1).
  destruct (move_spec s1 o idx IDX_TMP Hs1 (O1 o Hw)) as (s2 & R2 & M2 & W2); [by right; right|done|done|].
  pose proof (kept_alike _ _ (mo_kept _ _ _ _ M2)) as A2. pose proof (alike_n _ _ A2) as N2.
  pose proof (alike_shaped _ _ A2 Hs1) as Hs2.
  destruct (swap_rest s2 _ idx Hs2 W2) as (s3 & o' & R3 & K3 & D3 & W3 & P3 & Kv3 & C3 & E3).
  { by rewrite N2, N1. } { apply elem_rn; [done|]. by left. } { apply elem_rn; [done|]. by right. }
  { rewrite elem_rn by done. by intros [[_ ?]|[? _]]. }
  pose proof (kept_alike _ _ K3) as A3.
  exists s3, o'. split; [|split].
  { rewrite (stm_bind_run _ _ _ _ _ R1). by rewrite (stm_bind_run _ _ _ _ _ R2). }
  2:{ rewrite P3, (mo_kv _ _ _ _ M2) by (by right; right). by rewrite decide_True, Kv1. }
  split; [etrans; [exact A1|by etrans]|exact W3| | | | | |].
  - intros j Hj. rewrite (kept_dibs_raw s2) by done. rewrite (kept_dibs_raw s1) by apply M2. apply Raw1.
  - intros j Hj. rewrite Kv3 by (by rewrite N2, N1).
    rewrite !(mo_kv _ _ _ _ M2) by first [by left; rewrite N1|by right; left]. rewrite !Kv1.
    rewrite (decide_False (P := IDX_PUT = IDX_TMP)) by done. case_decide; [done|].
    rewrite decide_False; [done|]. by apply (valid_ne_swap s).
  - intros a. rewrite E3. by apply order_swapped.
  - rewrite C3. rewrite (moved_contents _ _ _ _ _ M2); [|by right; right|done|apply (O1 o Hw)]. by apply list_fmap_ext.
  - unfold idx_lowest_entry. rewrite (k_store _ _ K3), (k_store _ _ (mo_kept _ _ _ _ M2)). split; [exact L1|].
    etrans; [exact L1|]. by apply (t_lowest _ _ _ Ht).
  - intros H0. unfold idx_lowest_entry. rewrite (k_store _ _ K3), (k_store _ _ (mo_kept _ _ _ _ M2)). by apply L01.
Qed.

(** ** The loop *)
Lemma seq3 {A} (a b c : stm state unit) (k : stm state A) s s' :
  (a;; b;; c) s = (Ok tt, s') -> (a;; b;; c;; k) s = k s'.
Proof.
  unfold mbind, stm_bind. destruct (a s) as [[?|?] s1]; [|done]. destruct (b s1) as [[?|?] s2]; [|done].
  by intros ->.
Qed.

Lemma seq5 {A} (a b c d e : stm state unit) (k : stm state A) s s' :
  (a;; b;; c;; d;; e) s = (Ok tt, s') -> (a;; b;; c;; d;; e;; k) s = k s'.
Proof.
  unfold mbind, stm_bind. destruct (a s) as [[?|?] s1]; [|done]. destruct (b s1) as [[?|?] s2]; [|done].
  destruct (c s2) as [[?|?] s3]; [|done]. destruct (d s3) as [[?|?] s4]; [|done]. by intros ->.
Qed.

(** The outcome: one bucket that was free, or waited, got an entry; an entry that
    waited there is in [IDX_PUT] now. *)
Record stored (s s' : state) (o o' : list Z) (b : bool) (f : Z) : Prop := {
  st_alike : alike s s';
  st_table : table s' o' b;
  st_contents : kv s' <$> o' = kv s <$> o;
  st_valid : valid (nb s) f;
  st_stop : stops (raw s f) = true;
  st_rehash : b = (raw s f =? DIB_RAW_REHASH);
  st_used : stops (raw s' f) = false;
  st_others : forall j, valid (nb s) j -> j <> f ->
    (raw s' j = DIB_RAW_FREE <-> raw s j = DIB_RAW_FREE) /\ (raw s' j = DIB_RAW_REHASH <-> raw s j = DIB_RAW_REHASH);
  st_slack : slack (nb s) (homes s') }.

Lemma step_ok_ext n g g' i d : 0 < n -> (forall j, valid n j -> g' j = g j) -> step_ok n g i d -> step_ok n g' i d.
Proof.
  intros Hn He H Hd. destruct (H Hd) as (f & Hf & Hle). exists f. by rewrite He by (by apply prev_valid).
Qed.

Lemma slack_ext n g g' : (forall j, valid n j -> g' j = g j) -> slack n g -> slack n g'.
Proof. intros He (i & Hi & H). exists i. by rewrite He. Qed.

Lemma filled_stored s s' o o' b idx d :
  table s o true -> filled s s' o o' b idx d -> valid (nb s) idx -> d = dist (nb s) idx (home s IDX_PUT) ->
  step_ok (nb s) (homes s) idx d -> stops (raw s idx) = true -> b = (raw s idx =? DIB_RAW_REHASH) -> stored s s' o o' b idx.
Proof.
  intros Ht Hf Hi Hd Hs Hst Hb. pose proof (sh_pos _ (t_shaped _ _ _ Ht)) as Hp. assert (H0 : 0 < nb s) by lia.
  assert (HN : homes s idx = None) by (unfold homes; by rewrite Hst).
  assert (Hv : valid (nb s) (home s IDX_PUT)) by (by apply bucket_hash_valid).
  pose proof (dist_bound (nb s) H0 idx (home s IDX_PUT)) as Hbd. rewrite <- Hd in Hbd.
  destruct (min_overflow d (proj1 Hbd)) as (Hm1 & Hm2 & Hm3).
  split; try done.
  - apply Hf.
  - eapply filled_table; try done. subst d. apply place_robin_hood; try done; apply Ht.
  - apply Hf.
  - by rewrite (fi_raw _ _ _ _ _ _ _ Hf), decide_True.
  - intros j Hj Hne. by rewrite (fi_raw _ _ _ _ _ _ _ Hf), decide_False.
  - eapply slack_ext; [by eapply filled_homes|]. subst d. apply place_slack; try done; apply Ht.
Qed.

Lemma put_stop s o idx d m :
  table s o true -> valid (nb s) idx -> d = dist (nb s) idx (home s IDX_PUT) -> step_ok (nb s) (homes s) idx d ->
  stops (raw s idx) = true ->
  exists b s' o', hashmap_put_robin_hood (S m) idx d s = (Ok b, s') /\ stored s s' o o' b idx.
Proof.
  intros Ht Hi Hd Hs Hst. pose proof (t_shaped _ _ _ Ht) as Hsh. pose proof (sh_pos _ Hsh) as Hp.
  pose proof (dist_bound (nb s) ltac:(lia) idx (home s IDX_PUT)) as Hb. rewrite <- Hd in Hb.
  cbn [hashmap_put_robin_hood]. rewrite (stm_bind_run _ _ _ _ _ (dib_raw_run s Hsh idx Hi)). fold (stops (raw s idx)).
  rewrite Hst. destruct (Z.eqb_spec (raw s idx) DIB_RAW_REHASH) as [E|E].
  - destruct (fill_rehash s o idx d Ht Hi Hb E) as (s' & o' & R & Hf). exists true, s', o'. split.
    + apply (seq5 (A := bool) _ _ _ _ _ (mret true)) in R. exact R.
    + eapply filled_stored; try done. by rewrite E.
  - assert (Hfr : raw s idx = DIB_RAW_FREE).
    { unfold stops in Hst. apply orb_true_iff in Hst as [H|H]; by apply Z.eqb_eq in H. }
    destruct (fill_free s o idx d Ht Hi Hb Hfr) as (s' & o' & R & Hf). exists false, s', o'. split.
    + apply (seq3 (A := bool) _ _ _ (mret false)) in R. exact R.
    + eapply filled_stored; try done. by rewrite Hfr.
Qed.

Lemma put_loop m s o idx d :
  table s o true -> valid (nb s) idx -> d = dist (nb s) idx (home s IDX_PUT) -> step_ok (nb s) (homes s) idx d ->
  (exists f, valid (nb s) f /\ stops (raw s f) = true /\ dist (nb s) f idx < Z.of_nat m) ->
  exists b s' o' f, hashmap_put_robin_hood m idx d s = (Ok b, s') /\ stored s s' o o' b f.
Proof.
  revert s o idx d; induction m as [|m IH]; intros s o idx d Ht Hi Hd Hstep (f & Hfv & Hfs & Hfd);
    pose proof (t_shaped _ _ _ Ht) as Hs; pose proof (sh_pos _ Hs) as Hp; assert (H0 : 0 < nb s) by lia;
    pose proof (dist_bound (nb s) H0 f idx) as Hfb; [lia|].
  destruct (stops (raw s idx)) eqn:Hst.
  { destruct (put_stop s o idx d m) as (b & s' & o' & ?); [done..|]. by exists b, s', o', idx. }
  assert (Hu : homes s idx = Some (home s idx)) by (unfold homes; by rewrite Hst).
  assert (HN : homes s f = None) by (unfold homes; by rewrite Hfs).
  assert (Hv : valid (nb s) (home s IDX_PUT)) by (by apply bucket_hash_valid).
  destruct (t_robin _ _ _ Ht idx Hi _ Hu) as [Hv0 Hs0].
  assert (Hfi : f <> idx) by (intros ->; by rewrite Hfs in Hst).
  pose proof (dist_bound (nb s) H0 idx (home s IDX_PUT)) as Hb. pose proof (dist_bound (nb s) H0 idx (home s idx)) as Hb0.
  assert (Hon : dist (nb s) (next (nb s) idx) (home s IDX_PUT) = d + 1).
  { subst d. by apply (way_on (nb s) H0 (homes s) _ _ f); [apply Ht|..|rewrite Hu]. }
  assert (Hon0 : dist (nb s) (next (nb s) idx) (home s idx) = dist (nb s) idx (home s idx) + 1).
  { by apply (way_on (nb s) H0 (homes s) _ _ f); [apply Ht|..|rewrite Hu]. }
  assert (Hfn : dist (nb s) f (next (nb s) idx) < Z.of_nat m).
  { rewrite (dist_from_next (nb s) H0) by (done || by intros E). lia. }
  cbn [hashmap_put_robin_hood]. rewrite (stm_bind_run _ _ _ _ _ (dib_raw_run s Hs idx Hi)). fold (stops (raw s idx)).
  rewrite Hst, (stm_bind_run _ _ _ _ _ (calculate_dib_run s Hs idx Hi Hst (t_dib _ _ _ Ht idx Hi Hst))).
  destruct (Z.ltb_spec (dist (nb s) idx (home s idx)) d) as [Hlt|Hge].
  - destruct (fill_swap s o idx d Ht Hi) as (s1 & o1 & R1 & Hf1 & Hk1); [lia|by intros E; rewrite E in Hst|].
    pose proof (fi_alike _ _ _ _ _ _ _ Hf1) as A1. pose proof (alike_n _ _ A1) as N1.
    pose proof (alike_shaped _ _ A1 Hs) as Hs1.
    destruct (replace_robin_hood (nb s) H0 (homes s) idx (home s IDX_PUT) (home s idx)) as [Hr1 Hst1];
      [apply Ht|done|done|by subst d|done|lia|].
    assert (Ht1 : table s1 o1 true) by (by eapply filled_table).
    assert (Hh1 : home s1 IDX_PUT = home s idx).
    { unfold home. rewrite (alike_hash _ _ _ A1). unfold kv in Hk1. by injection Hk1 as -> _. }
    assert (Hraw1 : forall j, valid (nb s) j -> j <> idx -> raw s1 j = raw s j).
    { intros j Hj Hne. by rewrite (fi_raw _ _ _ _ _ _ _ Hf1), decide_False. }
    destruct (IH s1 o1 (next (nb s) idx) (dist (nb s) idx (home s idx) + 1) Ht1) as (b & s' & o' & f' & R & Hsto).
    { rewrite N1. by apply next_valid. }
    { by rewrite N1, Hh1. }
    { rewrite N1. eapply step_ok_ext; [done|by eapply filled_homes|done]. }
    { exists f. rewrite N1, Hraw1 by done. done. }
    exists b, s', o', f'. split.
    + rewrite (stm_bind_run _ _ _ _ _ R1), hget_bind, (next_idx_next s1 Hs1) by (by rewrite N1).
      rewrite wrap_small by lia. by rewrite N1.
    + destruct (min_overflow d ltac:(lia)) as (Hm1 & Hm2 & Hm3).
      assert (Hf'i : f' <> idx).
      { intros ->. pose proof (st_stop _ _ _ _ _ _ Hsto) as E. by rewrite (fi_raw _ _ _ _ _ _ _ Hf1), decide_True, Hm1 in E. }
      destruct Hsto as [B1 B2 B3 B4 B5 B6 B7 B8 B9]. rewrite N1 in *.
      split; try done; [by etrans|by rewrite B3; apply Hf1|by rewrite <- Hraw1|by rewrite <- Hraw1|].
      intros j Hj Hne. destruct (B8 j Hj Hne) as [E1 E2]. rewrite E1, E2.
      destruct (decide (j = idx)) as [->|Hji]; [|by rewrite Hraw1].
      rewrite (fi_raw _ _ _ _ _ _ _ Hf1), decide_True by done. unfold stops in Hst.
      apply orb_false_iff in Hst as [?%Z.eqb_neq ?%Z.eqb_neq]. tauto.
  - rewrite (stm_bind_run (mret tt) _ s tt s eq_refl), hget_bind, (next_idx_next s Hs) by done.
    rewrite wrap_small by lia. apply IH; [done|by apply next_valid|by rewrite Hon| |by exists f].
    intros _. exists (home s idx). rewrite (prev_next (nb s) H0) by done. split; [done|lia].
Qed.
