(* ===== verification/HashResize.v ===== *)
(** * Growing ([resize_buckets] of [src/basic/hashmap.c])

    The storage is enlarged in place, all entries are marked and hashed again with a
    new key: each that is placed may send another one on its way. The rounds end,
    and afterwards every entry is where the new hash leads. *)
From S2P Require Import Prelude Siphash Hashmap RobinHood HashTable HashProbe HashRemove HashPut.

(** ** Counting buckets *)
Definition indices (s : state) : list Z := seqZ 0 (nb s).

Lemma elem_indices s i : i ∈ indices s <-> valid (nb s) i.
Proof. unfold indices, valid. rewrite elem_of_seqZ. lia. Qed.

Lemma filter_same (P Q : Z -> bool) (l : list Z) : (forall j, j ∈ l -> Q j = P j) -> filter Q l = filter P l.
Proof.
  intros H. induction l as [|a l IH]; [done|]. rewrite !filter_cons.
  rewrite IH by (intros j Hj; apply H; by right). rewrite (H a) by left. done.
Qed.

Lemma filter_one_more (P Q : Z -> bool) (l : list Z) f :
  NoDup l -> f ∈ l -> P f = false -> Q f = true -> (forall j, j ∈ l -> j <> f -> Q j = P j) ->
  length (filter Q l) = S (length (filter P l)).
Proof.
  intros Hnd Hf HP HQ He. apply list_elem_of_split in Hf as (l1 & l2 & ->).
  apply NoDup_app in Hnd as (_ & H1 & [H2 _]%NoDup_cons).
  rewrite !filter_app, !filter_cons, !length_app. rewrite (filter_same P Q l1), (filter_same P Q l2).
  - case_decide as D1; [|by rewrite HQ in D1]. case_decide as D2; [by rewrite HP in D2|]. cbn. lia.
  - intros j Hj. apply He; [apply elem_of_app; right; by right|]. by intros ->.
  - intros j Hj. apply He; [apply elem_of_app; by left|]. intros ->. apply (H1 f Hj). left.
Qed.

Definition used (s : state) (i : Z) : bool := negb (stops (raw s i)).
Definition waits (s : state) (i : Z) : bool := raw s i =? DIB_RAW_REHASH.

Definition n_used (s : state) : Z := Z.of_nat (length (filter (used s) (indices s))).
Definition n_waiting (s : state) : nat := length (filter (waits s) (indices s)).

Lemma indices_alike s s' : nb s' = nb s -> indices s' = indices s.
Proof. unfold indices. by intros ->. Qed.

Lemma n_used_bound s : 0 < nb s <= 2 ^ 30 -> 0 <= n_used s <= 2 ^ 30.
Proof.
  intros H. unfold n_used. pose proof (length_filter (used s) (indices s)). unfold indices in *.
  rewrite length_seqZ in *. lia.
Qed.

Lemma n_used_same s s' :
  nb s' = nb s -> (forall j, valid (nb s) j -> stops (raw s' j) = stops (raw s j)) -> n_used s' = n_used s.
Proof.
  intros N H. unfold n_used. rewrite (indices_alike s s' N). do 2 f_equal. apply filter_same.
  intros j Hj%elem_indices. unfold used. by rewrite H.
Qed.

(** A bucket goes from one class to another, the others stay. *)
Lemma n_used_more s s' f :
  nb s' = nb s -> valid (nb s) f -> stops (raw s f) = true -> stops (raw s' f) = false ->
  (forall j, valid (nb s) j -> j <> f -> stops (raw s' j) = stops (raw s j)) -> n_used s' = n_used s + 1.
Proof.
  intros N Hf H1 H2 Ho. unfold n_used. rewrite (indices_alike s s' N).
  rewrite (filter_one_more (used s) (used s') (indices s) f); unfold used.
  - lia.
  - apply NoDup_seqZ.
  - by apply elem_indices.
  - by rewrite H1.
  - by rewrite H2.
  - intros j Hj%elem_indices Hne. by rewrite Ho.
Qed.

Lemma n_waiting_less s s' f :
  nb s' = nb s -> valid (nb s) f -> waits s f = true -> waits s' f = false ->
  (forall j, valid (nb s) j -> j <> f -> waits s' j = waits s j) -> n_waiting s = S (n_waiting s').
Proof.
  intros N Hf H1 H2 Ho. unfold n_waiting. rewrite (indices_alike s s' N).
  apply (filter_one_more (waits s') (waits s) (indices s) f); [apply NoDup_seqZ|by apply elem_indices|done|done|].
  intros j Hj%elem_indices Hne. symmetry. by apply Ho.
Qed.

(** Fewer entries than buckets leave a bucket to stop at, or a free one. *)
Lemma free_bucket s o :
  table s o false -> Z.of_nat (length o) < nb s -> exists f, valid (nb s) f /\ raw s f = DIB_RAW_FREE.
Proof.
  intros Ht Hl. destruct (decide (Exists (fun i => raw s i = DIB_RAW_FREE) (indices s))) as [H|H].
  - apply Exists_exists in H as (f & Hf%elem_indices & Hr). by exists f.
  - exfalso. assert (indices s ⊆+ o) as Hsub.
    { apply NoDup_submseteq; [apply NoDup_seqZ|]. intros i Hi. pose proof Hi as Hv%elem_indices.
      apply (t_order _ _ _ Ht). left. split; [done|]. intros E. apply H, Exists_exists. by exists i. }
    apply submseteq_length in Hsub. unfold indices in Hsub. rewrite length_seqZ in Hsub. lia.
Qed.

Lemma stop_bucket s o :
  table s o true -> Z.of_nat (length o) <= nb s -> exists f, valid (nb s) f /\ stops (raw s f) = true.
Proof.
  intros Ht Hl. destruct (decide (Exists (fun i => stops (raw s i) = true) (indices s))) as [H|H].
  - apply Exists_exists in H as (f & Hf%elem_indices & Hr). by exists f.
  - exfalso. assert (IDX_PUT :: indices s ⊆+ o) as Hsub.
    { apply NoDup_submseteq.
      - apply NoDup_cons. split; [|apply NoDup_seqZ]. intros Hp%elem_indices.
        by destruct (valid_ne_swap s IDX_PUT (t_shaped _ _ _ Ht) Hp).
      - intros i [->|Hi]%elem_of_cons; apply (t_order _ _ _ Ht); [by right|]. pose proof Hi as Hv%elem_indices.
        left. split; [done|]. intros E. apply H, Exists_exists. exists i. by rewrite E. }
    apply submseteq_length in Hsub. cbn in Hsub. unfold indices in Hsub. rewrite length_seqZ in Hsub. lia.
Qed.

Lemma used_all s o : table s o false -> settled s -> n_used s = Z.of_nat (length o).
Proof.
  intros Ht Hse. unfold n_used. f_equal. apply Permutation_length, NoDup_Permutation.
  - apply NoDup_filter, NoDup_seqZ.
  - apply Ht.
  - intros i. rewrite list_elem_of_filter, elem_indices, (t_order _ _ _ Ht). unfold used. split.
    + intros [Hu Hv]. left. split; [done|]. intros E. by rewrite E in Hu.
    + intros [[Hv Hr]|[[=] _]]. split; [|done]. by rewrite not_free_stops.
Qed.

(** ** One entry after the other *)
Lemma stored_used s s' o o' b f : stored s s' o o' b f -> n_used s' = n_used s + 1.
Proof.
  intros H. apply (n_used_more s s' f); [apply alike_n, H|apply H|apply H|apply H|].
  intros j Hj Hne. destruct (st_others _ _ _ _ _ _ H j Hj Hne) as [H1 H2]. unfold stops.
  apply eq_bool_prop_intro. rewrite !orb_True, !Is_true_true, !Z.eqb_eq. tauto.
Qed.

Lemma waits_iff s s' j : (raw s' j = DIB_RAW_REHASH <-> raw s j = DIB_RAW_REHASH) -> waits s' j = waits s j.
Proof. unfold waits. intros H. apply eq_bool_prop_intro. by rewrite !Is_true_true, !Z.eqb_eq. Qed.

Lemma stored_waits s s' o o' f : stored s s' o o' true f -> n_waiting s = S (n_waiting s').
Proof.
  intros H. apply (n_waiting_less s s' f); [apply alike_n, H|apply H|symmetry; apply (st_rehash _ _ _ _ _ _ H)| |].
  - pose proof (st_used _ _ _ _ _ _ H) as E. unfold stops in E. by apply orb_false_iff in E as [_ ?].
  - intros j Hj Hne. apply waits_iff. by apply (st_others _ _ _ _ _ _ H j Hj Hne).
Qed.

Lemma stored_no_new s s' o o' b f j :
  stored s s' o o' b f -> valid (nb s) j -> raw s' j = DIB_RAW_REHASH -> raw s j = DIB_RAW_REHASH.
Proof.
  intros H Hj Hr. destruct (decide (j = f)) as [->|Hne]; [|by apply (st_others _ _ _ _ _ _ H j Hj Hne)].
  pose proof (st_used _ _ _ _ _ _ H) as E. by rewrite Hr in E.
Qed.

Lemma chain_run m s o :
  table s o true -> Z.of_nat (length o) <= nb s -> (n_waiting s < m)%nat ->
  exists s' o', rehash_chain m (home s IDX_PUT) (n_used s) s = (Ok (n_used s'), s') /\ table s' o' false /\ alike s s' /\
    kv s' <$> o' = kv s <$> o /\ (forall j, valid (nb s) j -> raw s' j = DIB_RAW_REHASH -> raw s j = DIB_RAW_REHASH).
Proof.
  revert s o; induction m as [|m IH]; intros s o Ht Hl Hm; [lia|].
  pose proof (t_shaped _ _ _ Ht) as Hs. pose proof (sh_pos _ Hs) as Hp. assert (H0 : 0 < nb s) by lia.
  pose proof (bucket_hash_valid s (key (at_ s IDX_PUT)) H0) as Hh. fold (home s IDX_PUT) in Hh.
  destruct (stop_bucket s o Ht Hl) as (f & Hf & Hfs).
  destruct (put_loop (Z.to_nat (nb s)) s o (home s IDX_PUT) 0 Ht Hh) as (b & s1 & o1 & f1 & R & Hst).
  { by rewrite dist_self. }
  { intros ?. lia. }
  { exists f. split; [done|]. split; [done|]. pose proof (dist_bound (nb s) H0 f (home s IDX_PUT)). lia. }
  pose proof (stored_used _ _ _ _ _ _ Hst) as Hu. pose proof (alike_n _ _ (st_alike _ _ _ _ _ _ Hst)) as N1.
  cbn [rehash_chain]. rewrite hget_bind, (stm_bind_run _ _ _ _ _ R). pose proof (n_used_bound s Hp) as Hb.
  rewrite wrap_small, <- Hu by lia. destruct b.
  - pose proof (stored_waits _ _ _ _ _ Hst) as Hw.
    destruct (IH s1 o1) as (s' & o' & R' & Ht' & A' & C' & Hno); [apply Hst| |lia|].
    { pose proof (f_equal length (st_contents _ _ _ _ _ _ Hst)) as E.
      rewrite !length_fmap in E. by rewrite E, N1. }
    exists s', o'. split; [done|]. split; [done|]. split; [etrans; [apply Hst|done]|]. split; [rewrite C'; apply Hst|].
    intros j Hj Hr. apply (stored_no_new _ _ _ _ _ _ j Hst); [done|]. apply Hno; [by rewrite N1|done].
  - exists s1, o1. split; [done|]. split; [apply Hst|]. split; [apply Hst|]. split; [apply Hst|].
    intros j Hj Hr. by apply (stored_no_new _ _ _ _ _ _ j Hst).
Qed.

(** An entry that happens to be at home *)
Lemma settle_home s o idx :
  table s o false -> valid (nb s) idx -> raw s idx = DIB_RAW_REHASH -> home s idx = idx ->
  let s' := put_dib idx 0 s in
  table s' o false /\ alike s s' /\ kv s' <$> o = kv s <$> o /\ n_used s' = n_used s + 1 /\
  (forall j, valid (nb s) j -> raw s' j = if decide (j = idx) then 0 else raw s j).
Proof.
  intros Ht Hi Hr Hh s'. pose proof (t_shaped _ _ _ Ht) as Hs. pose proof (sh_pos _ Hs) as Hp. assert (H0 : 0 < nb s) by lia.
  assert (K : kept s s') by apply put_dib_kept. pose proof (kept_n _ _ K) as N.
  assert (Hraw : forall j, raw s' j = if decide (j = idx) then 0 else raw s j) by (intros j; by apply put_dib_raw).
  assert (Hhome : forall j, home s' j = home s j) by (intros j; unfold home; by apply (kept_hash s)).
  assert (Hhomes : forall j, valid (nb s) j -> homes s' j = upd (homes s) idx (Some idx) j).
  { intros j _. unfold homes, upd. rewrite Hraw, Hhome. case_decide; [|done]. subst j. by rewrite Hh. }
  assert (HN : homes s idx = None) by (unfold homes; by rewrite Hr).
  split; [|split; [by apply kept_alike|split; [done|split; [|done]]]].
  - split.
    + by apply (kept_shaped s).
    + apply (owned_same s); try done. apply Ht.
    + intros a. rewrite (t_order _ _ _ Ht), N, Hraw. case_decide; [|done]. subst a. rewrite Hr.
      split; (intros [[? ?]|?]; [by left|by right]).
    + intros i Hv Hst. rewrite N in Hv |- *. rewrite Hraw in Hst |- *. rewrite Hhome. case_decide as E; [|by apply Ht].
      subst i. by rewrite Hh, dist_self.
    + rewrite N. eapply robin_hood_ext; [done|exact Hhomes|]. apply place_robin_hood; try done; [apply Ht|].
      rewrite dist_self by done. intros ?. lia.
    + intros i Hv. rewrite N in Hv. rewrite Hraw. change (idx_lowest_entry (base s')) with (idx_lowest_entry (base s)).
      intros Hri. apply (t_lowest _ _ _ Ht i Hv). case_decide; [|done]. subst i. by rewrite Hr.
    + intros i Hv Hri. rewrite N in Hv. rewrite Hraw in Hri. case_decide; [done|]. by apply (t_zero _ _ _ Ht).
    + apply (t_low0 _ _ _ Ht).
  - apply (n_used_more s s' idx); [done|done|by rewrite Hr|by rewrite Hraw, decide_True|].
    intros j _ Hne. by rewrite Hraw, decide_False.
Qed.

(** An entry is taken out of its bucket. *)
Lemma take_out s o idx :
  table s o false -> valid (nb s) idx -> raw s idx = DIB_RAW_REHASH ->
  exists s' , (dib_raw_set idx DIB_RAW_FREE;; bucket_move_entry idx IDX_PUT;; bucket_put idx zero_entry) s = (Ok tt, s') /\
    table s' (rn idx IDX_PUT <$> o) true /\ alike s s' /\ kv s' <$> (rn idx IDX_PUT <$> o) = kv s <$> o /\
    home s' IDX_PUT = home s idx /\
    (forall j, valid (nb s) j -> raw s' j = if decide (j = idx) then DIB_RAW_FREE else raw s j).
Proof.
  intros Ht Hi Hr. pose proof (t_shaped _ _ _ Ht) as Hs. pose proof (sh_pos _ Hs) as Hp.
  set (s1 := put_dib idx DIB_RAW_FREE s). pose proof (put_dib_kept s idx DIB_RAW_FREE) as K1. fold s1 in K1.
  pose proof (kept_n _ _ K1) as N1. pose proof (kept_shaped _ _ K1 Hs) as Hs1.
  assert (Hin : idx ∈ o) by (apply (t_order _ _ _ Ht); left; by rewrite Hr).
  assert (Hput : IDX_PUT ∉ o).
  { intros [[Hv _]|[[=] _]]%(t_order _ _ _ Ht). by destruct (valid_ne_swap s IDX_PUT Hs Hv). }
  assert (Hw1 : owned s1 o) by (apply (owned_same s); [done..|apply Ht]).
  destruct (move_spec s1 o idx IDX_PUT Hs1 Hw1) as (s2 & R2 & M2 & W2); [by right; left|done|done|].
  pose proof (mo_kept _ _ _ _ M2) as K2. pose proof (kept_n _ _ K2) as N2. pose proof (kept_shaped _ _ K2 Hs1) as Hs2.
  assert (Hi2 : valid (nb s2) idx) by (by rewrite N2, N1).
  destruct (valid_ne_swap s idx Hs Hi) as (Hip & _).
  set (s3 := put idx zero_entry s2). pose proof (put_kept s2 idx zero_entry) as K3. fold s3 in K3.
  pose proof (kept_n _ _ K3) as N3.
  assert (K : kept s s3) by (etrans; [exact K1|by etrans]). pose proof (kept_n _ _ K) as N.
  assert (Hat : forall j, place (nb s) j -> j <> idx -> at_ s3 j = at_ s2 j).
  { intros j Hj Hne. unfold s3. rewrite put_at; [by rewrite decide_False|done|by left|by rewrite N2, N1]. }
  assert (Hraw : forall j, valid (nb s) j -> raw s3 j = if decide (j = idx) then DIB_RAW_FREE else raw s j).
  { intros j Hj. unfold s3. rewrite put_raw, (kept_dibs_raw s1) by apply M2. by apply put_dib_raw. }
  assert (Hpl1 : forall a, a ∈ o -> place (nb s1) a) by apply Hw1.
  assert (Hnot : idx ∉ rn idx IDX_PUT <$> o) by (rewrite elem_rn by done; intros [[_ ?]|[? _]]; done).
  assert (Hkv : forall j, place (nb s) j -> j <> idx -> kv s3 j = if decide (j = IDX_PUT) then kv s idx else kv s j).
  { intros j Hj Hne. unfold kv at 1. rewrite Hat by done. apply (mo_kv _ _ _ _ M2). by rewrite N1. }
  assert (Hhome : forall j, valid (nb s) j -> j <> idx -> home s3 j = home s j).
  { intros j Hj Hne. unfold home. rewrite (kept_hash _ _ _ K). pose proof (Hkv j ltac:(by left) Hne) as E.
    rewrite decide_False in E by (by apply (valid_ne_swap s)). unfold kv in E. by injection E as -> _. }
  assert (Hhomes : forall j, valid (nb s) j -> homes s3 j = homes s j).
  { intros j Hj. unfold homes. rewrite Hraw by done. case_decide as E; [subst j; by rewrite Hr|]. by rewrite Hhome. }
  exists s3. split.
  { rewrite (stm_bind_run _ _ _ _ _ (dib_raw_set_run s Hs idx DIB_RAW_FREE Hi)). fold s1.
    rewrite (stm_bind_run _ _ _ _ _ R2). by apply bucket_put_run. }
  split; [|split; [by apply kept_alike|split; [|split; [|done]]]].
  - split.
    + by apply (kept_shaped s).
    + destruct (put_ends s2 idx zero_entry). apply (owned_same s2); try done.
      intros a Ha. unfold s3. rewrite put_at; [|done|by left|by apply (ow_places _ _ W2)]. rewrite decide_False; [done|]. by intros ->.
    + intros a. rewrite elem_rn, (t_order _ _ _ Ht), N by done. split.
      * intros [[[[Hv Hr']|[[=] _]] Hne]|[-> _]]; [|by right]. left. split; [done|]. by rewrite Hraw, decide_False.
      * intros [[Hv Hr']|[_ ->]]; [|by right]. rewrite Hraw in Hr' by done. case_decide; [done|]. left. split; [by left|done].
    + intros i Hv Hst. rewrite N in Hv |- *. rewrite Hraw in Hst |- * by done. case_decide; [done|].
      rewrite Hhome by done. by apply Ht.
    + rewrite N. eapply robin_hood_ext; [lia|exact Hhomes|apply Ht].
    + intros i Hv. rewrite N in Hv. rewrite Hraw by done. case_decide; [done|]. intros Hri. unfold idx_lowest_entry.
      rewrite (k_store _ _ K). by apply (t_lowest _ _ _ Ht).
    + intros i Hv Hri. rewrite N in Hv. rewrite Hraw in Hri by done. unfold s3. rewrite put_at; [|done|by left|by left; rewrite N2, N1].
      destruct (decide (i = idx)) as [->|Hne]; [done|]. rewrite <- (t_zero _ _ _ Ht i Hv Hri).
      pose proof (mo_kv _ _ _ _ M2 i) as E. rewrite N1 in E. specialize (E ltac:(by left)).
      rewrite decide_False in E by (by apply (valid_ne_swap s)). by injection E.
    + unfold idx_lowest_entry. rewrite (k_store _ _ K). apply (t_low0 _ _ _ Ht).
  - etrans; [|apply (moved_contents s1 _ _ _ _ M2); [by right; left|done|done]].
    apply list_fmap_ext. intros i a Ha%list_elem_of_lookup_2. unfold kv. rewrite Hat; [done| |by intros ->].
    rewrite <- N1, <- N2. by apply (ow_places _ _ W2).
  - unfold home. rewrite (kept_hash _ _ _ K). pose proof (Hkv IDX_PUT ltac:(by right; left) ltac:(done)) as E.
    rewrite decide_True in E by done. unfold kv in E. by injection E as -> _.
Qed.

Lemma rehash_run todo idx s o old :
  table s o false -> Z.of_nat (length o) <= nb s -> 0 <= idx -> idx + Z.of_nat todo = old -> old <= nb s ->
  (forall j, valid (nb s) j -> raw s j = DIB_RAW_REHASH -> idx <= j < old) ->
  exists s' o', rehash_loop todo idx (n_used s) s = (Ok (n_used s'), s') /\ table s' o' false /\ settled s' /\ alike s s' /\
    kv s' <$> o' = kv s <$> o.
Proof.
  revert idx s o; induction todo as [|todo IH]; intros idx s o Ht Hl Hi0 Hsum Hold Hre.
  { exists s, o. split; [done|]. split; [done|]. split; [|done]. intros i Hi E. specialize (Hre i Hi E). lia. }
  pose proof (t_shaped _ _ _ Ht) as Hs. pose proof (sh_pos _ Hs) as Hp. assert (Hi : valid (nb s) idx) by (unfold valid; lia).
  cbn [rehash_loop]. rewrite (stm_bind_run _ _ _ _ _ (dib_raw_run s Hs idx Hi)).
  destruct (Z.eqb_spec (raw s idx) DIB_RAW_REHASH) as [Hr|Hr]; cbn [negb].
  2:{ apply IH; [done|done|lia|lia|done|]. intros j Hj E. specialize (Hre j Hj E).
      destruct (decide (j = idx)); [congruence|lia]. }
  rewrite (stm_bind_run _ _ _ _ _ (bucket_at_run s Hs idx Hi)), hgets_bind. fold (home s idx).
  destruct (Z.eqb_spec (home s idx) idx) as [Hh|Hh].
  - destruct (settle_home s o idx Ht Hi Hr Hh) as (Ht1 & A1 & C1 & U1 & Hraw1). set (s1 := put_dib idx 0 s) in *.
    pose proof (alike_n _ _ A1) as N1. rewrite (stm_bind_run _ _ _ _ _ (dib_raw_set_run s Hs idx 0 Hi)). fold s1.
    pose proof (n_used_bound s Hp). rewrite wrap_small, <- U1 by lia.
    destruct (IH (idx + 1) s1 o) as (s' & o' & R & Ht' & Hse & A & C); [done|by rewrite N1|lia|lia|by rewrite N1| |].
    { intros j Hj E. rewrite N1 in Hj. rewrite Hraw1 in E by done. case_decide; [done|]. specialize (Hre j Hj E). lia. }
    exists s', o'. split; [done|]. split; [done|]. split; [done|]. split; [by etrans|by rewrite C].
  - destruct (take_out s o idx Ht Hi Hr) as (s1 & R1 & Ht1 & A1 & C1 & Hh1 & Hraw1). pose proof (alike_n _ _ A1) as N1.
    assert (Hu1 : n_used s1 = n_used s).
    { apply n_used_same; [done|]. intros j Hj. rewrite Hraw1 by done. case_decide; [|done]. subst j. by rewrite Hr. }
    assert (Hw1 : n_waiting s = S (n_waiting s1)).
    { apply (n_waiting_less s s1 idx); [done|done|unfold waits; by rewrite Hr| |].
      - unfold waits. by rewrite Hraw1, decide_True.
      - intros j Hj Hne. unfold waits. by rewrite Hraw1, decide_False. }
    pose proof (length_filter (waits s) (indices s)) as Hwl. unfold indices in Hwl at 2. rewrite length_seqZ in Hwl.
    fold (n_waiting s) in Hwl.
    destruct (chain_run (Z.to_nat (nb s1)) s1 _ Ht1) as (s2 & o2 & R2 & Ht2 & A2 & C2 & Hno2).
    { by rewrite length_fmap, N1. } { rewrite N1. lia. }
    pose proof (alike_n _ _ A2) as N2.
    destruct (IH (idx + 1) s2 o2) as (s' & o' & R & Ht' & Hse & A & C); [done| |lia|lia|by rewrite N2, N1| |].
    { pose proof (f_equal length C2) as E2. rewrite !length_fmap in E2. by rewrite E2, N2, N1. }
    { intros j Hj E. rewrite N2, N1 in Hj. apply Hno2 in E; [|by rewrite N1]. rewrite Hraw1 in E by done.
      case_decide; [done|]. specialize (Hre j Hj E). lia. }
    exists s', o'. split; [|split; [done|split; [done|split; [etrans; [exact A1|by etrans]|by rewrite C, C2]]]].
    apply (seq3 (A := Z) _ _ _ (h ← hget; n ← rehash_chain (Z.to_nat (n_buckets h)) (home s idx) (n_used s);
             rehash_loop todo (idx + 1) n)) in R1.
    etrans; [exact R1|]. rewrite hget_bind, <- Hu1, <- Hh1. by rewrite (stm_bind_run _ _ _ _ _ R2).
Qed.

(** ** Sizes *)

(** The number of entries for which no size computed on the way overflows: with more
    than some 80 million of them, the shift that computes the size of the storage is
    by 32. *)
Definition MAX_ENTRIES : Z := 2 ^ 26.

Definition sized (h : hashmap) : Prop :=
  match store h with
  | Direct _ => True
  | Indirect _ _ m _ => exists t, 7 <= t <= 31 /\ m = 2 ^ t `div` (entry_size (type h) + 1)
  end.

Lemma entry_size_cases t : entry_size t = 16 \/ entry_size t = 24 \/ entry_size t = 8.
Proof. destruct t; cbn; tauto. Qed.

Lemma log2u_round_up_spec x : 2 <= x -> x <= 2 ^ log2u_round_up x /\ 2 ^ (log2u_round_up x - 1) < x /\ 0 < log2u_round_up x.
Proof.
  intros Hx. unfold log2u_round_up, log2u. rewrite (proj2 (Z.eqb_neq x 1)) by lia.
  pose proof (Z.log2_spec (x - 1) ltac:(lia)) as [H1 H2]. pose proof (Z.log2_nonneg (x - 1)).
  rewrite <- Z.add_1_r in H2. replace (Z.log2 (x - 1) + 1 - 1) with (Z.log2 (x - 1)) by lia. lia.
Qed.

(** The new number of buckets, for [m] entries of size [es] *)
Section sizes.
Context (es m : Z) (Hes : es = 16 \/ es = 24 \/ es = 8) (Hm : 1 <= m <= MAX_ENTRIES).

Abbreviation wanted := (m + m `div` 4) (only parsing).
Abbreviation shift := (log2u_round_up ((wanted * (es + 1)) `max` 78)) (only parsing).

Lemma wanted_bound : m <= wanted <= 83886080.
Proof. unfold MAX_ENTRIES in Hm. change (2 ^ 26) with 67108864 in Hm. Z.to_euclidean_division_equations. lia. Qed.

Lemma shift_spec : 7 <= shift <= 31 /\ wanted * (es + 1) <= 2 ^ shift.
Proof.
  pose proof wanted_bound as Hw. set (w := wanted) in *. clearbody w.
  pose proof (log2u_round_up_spec ((w * (es + 1)) `max` 78) ltac:(lia)) as (H1 & H2 & H3).
  set (s := log2u_round_up _) in *. clearbody s. split; [split|lia].
  - destruct (Z.le_gt_cases 7 s) as [|Hlt]; [done|]. exfalso.
    assert (2 ^ s <= 2 ^ 6) by (apply Z.pow_le_mono_r; lia). change (2 ^ 6) with 64 in *. lia.
  - destruct (Z.le_gt_cases s 31) as [|Hlt]; [done|]. exfalso.
    assert (2 ^ 31 <= 2 ^ (s - 1)) by (apply Z.pow_le_mono_r; lia). change (2 ^ 31) with 2147483648 in *. nia.
Qed.

Lemma new_buckets_spec : wanted <= 2 ^ shift `div` (es + 1) <= 2 ^ 30.
Proof.
  destruct shift_spec as [Hs Hle]. split; [apply Z.div_le_lower_bound; lia|].
  assert (2 ^ shift <= 2 ^ 31) as H by (apply Z.pow_le_mono_r; lia).
  apply Z.div_le_upper_bound; [lia|]. change (2 ^ 31) with 2147483648 in H. change (2 ^ 30) with 1073741824. lia.
Qed.

(** An indirect storage at least doubles. *)
Lemma doubled t : 0 <= t -> 2 ^ t `div` (es + 1) < wanted -> 2 * (2 ^ t `div` (es + 1)) <= 2 ^ shift `div` (es + 1).
Proof.
  intros Ht Hlt. destruct shift_spec as [Hs Hle]. set (w := wanted) in *. set (s := log2u_round_up _) in *. clearbody s w.
  pose proof (Z.mul_succ_div_gt (2 ^ t) (es + 1) ltac:(lia)) as Hgt.
  assert (2 ^ t < 2 ^ s) as Hp by nia.
  apply Z.pow_lt_mono_r_iff in Hp; [|lia|lia].
  assert (2 * 2 ^ t <= 2 ^ s) as H2.
  { replace (2 * 2 ^ t) with (2 ^ (t + 1)) by (rewrite Z.pow_add_r; lia). apply Z.pow_le_mono_r; lia. }
  apply Z.div_le_lower_bound; [lia|]. pose proof (Z.mul_div_le (2 ^ t) (es + 1) ltac:(lia)). nia.
Qed.
End sizes.

(** ** The storage after the reallocation *)
Section grown.
Context (s s' : state) (o : list Z) (k : list Z) (new_n : Z).
Context (Ht : table s o false) (Hn : nb s <= new_n <= 2 ^ 30).
Context (Hb : base s' = set_store (Indirect k (n_entries (base s)) new_n (idx_lowest_entry (base s))) (grow_storage new_n (base s))).

Lemma grown_n : nb s' = new_n.
Proof. by rewrite Hb. Qed.

Lemma grown_at i : valid (nb s) i -> at_ s' i = at_ s i.
Proof.
  intros Hi. pose proof (t_shaped _ _ _ Ht) as Hs. unfold at_. rewrite (valid_lt s i Hs Hi), Hb. cbn.
  unfold nthZ. destruct (i <? 0); [done|]. rewrite lookup_app_l; [done|].
  rewrite (sh_buckets _ Hs). unfold valid in Hi. lia.
Qed.

Lemma grown_raw i : valid new_n i ->
  raw s' i = if decide (valid (nb s) i /\ raw s i <> DIB_RAW_FREE) then DIB_RAW_REHASH else DIB_RAW_FREE.
Proof.
  intros Hi. pose proof (t_shaped _ _ _ Ht) as Hs. unfold raw. rewrite Hb. cbn. unfold nthZ.
  unfold valid in Hi. rewrite (proj2 (Z.ltb_ge i 0)) by lia.
  destruct (Z.lt_ge_cases i (nb s)) as [Hlt|Hge].
  - rewrite lookup_app_l by (rewrite length_fmap, (sh_dibs _ Hs); lia). rewrite list_lookup_fmap.
    destruct (lookup_lt_is_Some_2 (dibs (base s)) (Z.to_nat i)) as [d Hd]; [rewrite (sh_dibs _ Hs); lia|].
    rewrite Hd. cbn. destruct (Z.eqb_spec d DIB_RAW_FREE) as [->|Hne].
    + rewrite decide_False; [done|]. by intros [_ ?].
    + rewrite decide_True; [done|]. split; [|done]. unfold valid. lia.
  - rewrite lookup_app_r by (rewrite length_fmap, (sh_dibs _ Hs); lia).
    rewrite decide_False by (unfold valid; lia). destruct (repeat _ _ !! _) as [d|] eqn:E; [|done].
    apply list_elem_of_lookup_2, list_elem_of_In, repeat_spec in E. by subst d.
Qed.

Lemma grown_fresh i : valid new_n i -> ~ valid (nb s) i -> at_ s' i = zero_entry.
Proof.
  intros Hi Hni. pose proof (t_shaped _ _ _ Ht) as Hs. unfold at_, valid in *. pose proof swap_order.
  rewrite (proj2 (Z.ltb_lt i IDX_SWAP_BEGIN)) by lia. rewrite Hb. cbn. unfold nthZ. destruct (i <? 0); [done|].
  rewrite lookup_app_r by (rewrite (sh_buckets _ Hs); lia). destruct (repeat _ _ !! _) as [e|] eqn:E; [|done].
  apply list_elem_of_lookup_2, list_elem_of_In, repeat_spec in E. by subst e.
Qed.

Lemma grown_table : is_ordered (base s') = is_ordered (base s) -> table s' o false /\ n_used s' = 0 /\ kv s' <$> o = kv s <$> o /\
  (forall j, valid new_n j -> raw s' j = DIB_RAW_REHASH -> 0 <= j < nb s).
Proof.
  intros Hord. pose proof (t_shaped _ _ _ Ht) as Hs. pose proof (sh_pos _ Hs) as Hp. pose proof grown_n as N.
  assert (Hv : forall a, a ∈ o -> valid (nb s) a) by (intros a [[? _]|[[=] _]]%(t_order _ _ _ Ht); done).
  assert (Hst : forall i, valid new_n i -> stops (raw s' i) = true) by (intros i Hi; rewrite grown_raw by done; by case_decide).
  assert (Hat : forall a, a ∈ o -> at_ s' a = at_ s a) by (intros a Ha; apply grown_at; auto).
  split; [split|split; [|split]].
  - split; rewrite N; [lia| |]; rewrite Hb; cbn; rewrite length_app, repeat_length.
    + rewrite (sh_buckets _ Hs). lia.
    + rewrite length_fmap, (sh_dibs _ Hs). lia.
  - pose proof (t_owned _ _ _ Ht) as [W1 W2 W3]. split; [done| |].
    + intros a Ha. left. rewrite N. pose proof (Hv a Ha). unfold valid in *. lia.
    + rewrite Hord. intros E. destruct (W3 E) as (Hc & Hh & Htl). split; [by apply (chain_frame (at_ s))|]. by rewrite Hb.
  - intros a. rewrite (t_order _ _ _ Ht), N. split; (intros [[Hva Hra]|[[=] _]]); left.
    + assert (valid new_n a) as Hvn by (unfold valid in *; lia). split; [done|]. rewrite grown_raw by done.
      by rewrite decide_True.
    + rewrite grown_raw in Hra by done. by case_decide.
  - intros i Hi Hsi. rewrite N in Hi. by rewrite Hst in Hsi.
  - intros i Hi f Hf. rewrite N in Hi. unfold homes in Hf. by rewrite Hst in Hf.
  - intros i Hi Hri. rewrite N in Hi. rewrite grown_raw in Hri by done. case_decide as E; [|done]. destruct E as [E1 E2].
    rewrite Hb. cbn. by apply (t_lowest _ _ _ Ht).
  - intros i Hi Hri. rewrite N in Hi. rewrite grown_raw in Hri by done. case_decide as E; [done|].
    destruct (decide (valid (nb s) i)) as [Hvi|Hvi].
    + rewrite grown_at by done. apply (t_zero _ _ _ Ht i Hvi). destruct (Z.eq_dec (raw s i) DIB_RAW_FREE); tauto.
    + by rewrite grown_fresh.
  - rewrite Hb. apply (t_low0 _ _ _ Ht).
  - unfold n_used. rewrite (filter_same (fun _ => false)).
    + induction (indices s') as [|a l IH]; [done|]. rewrite filter_cons. case_decide; [done|exact IH].
    + intros j Hj%elem_indices. rewrite N in Hj. unfold used. by rewrite Hst.
  - apply list_fmap_ext. intros i a Ha%list_elem_of_lookup_2. unfold kv. by rewrite Hat.
  - intros j Hj Hr. rewrite grown_raw in Hr by done. case_decide as E; [|done]. apply E.
Qed.
End grown.

(** ** The whole call *)

(** The invariant between calls; [o] are the buckets in use, in the order of insertion
    where the map is ordered. *)
Record hashmap_ok (s : state) (o : list Z) : Prop := {
  hk_table : table s o false;
  hk_settled : settled s;
  hk_slack : slack (nb s) (homes s);
  hk_count : n_entries (base s) = Z.of_nat (length o);
  hk_sized : sized (base s) }.

Lemma ok_valid s o a : hashmap_ok s o -> a ∈ o -> valid (nb s) a.
Proof. intros H. by intros [[? _]|[[=] _]]%(t_order _ _ _ (hk_table _ _ H)). Qed.

Lemma get_hash_key_run b s : exists k ks, get_hash_key b s = (Ok k, set_keys ks s).
Proof.
  unfold get_hash_key. destruct (current (keys s)) as [c|]; [destruct b|].
  - exists c, (keys s). by destruct s.
  - by eexists _, _.
  - by eexists _, _.
Qed.

(** A call's own swap entries do not matter once it has returned. *)
Lemma table_swaps s o e e' :
  table s o false -> table (State (base s) e e' (keys s)) o false /\
  (forall i, valid (nb s) i -> at_ (State (base s) e e' (keys s)) i = at_ s i).
Proof.
  intros Ht. pose proof (t_shaped _ _ _ Ht) as Hs. pose proof (sh_pos _ Hs) as Hp. set (s' := State _ _ _ _).
  assert (Hat : forall i, valid (nb s) i -> at_ s' i = at_ s i) by (intros i Hi; unfold at_; by rewrite (valid_lt s i Hs Hi)).
  assert (Hv : forall a, a ∈ o -> valid (nb s) a) by (intros a [[? _]|[[=] _]]%(t_order _ _ _ Ht); done).
  assert (K : kept s s') by done.
  assert (Hhome : forall i, valid (nb s) i -> home s' i = home s i).
  { intros i Hi. unfold home. by rewrite (kept_hash _ _ _ K), Hat. }
  split; [|done]. split.
  - by apply (kept_shaped s).
  - apply (owned_same s); try done; [|apply Ht]. intros a Ha. apply Hat. auto.
  - apply (t_order _ _ _ Ht).
  - intros i Hi Hst. rewrite Hhome by done. by apply (t_dib _ _ _ Ht).
  - apply (robin_hood_ext (nb s) (homes s)); [lia| |apply Ht]. intros i Hi. unfold homes.
    change (raw s' i) with (raw s i). by rewrite Hhome.
  - apply (t_lowest _ _ _ Ht).
  - intros i Hi Hri. rewrite Hat by done. by apply (t_zero _ _ _ Ht).
  - apply (t_low0 _ _ _ Ht).
Qed.

Lemma settled_slack s o : table s o false -> settled s -> Z.of_nat (length o) < nb s -> slack (nb s) (homes s).
Proof.
  intros Ht Hse Hl. destruct (free_bucket s o Ht Hl) as (f & Hf & Hr). exists f. split; [done|]. left.
  unfold homes. by rewrite Hr.
Qed.

(** What the caller of [resize_buckets] gets *)
Record resize_result (s s' : state) (o o' : list Z) : Prop := {
  rr_ok : hashmap_ok s' o';
  rr_contents : kv s' <$> o' = kv s <$> o;
  rr_ops : ops (base s') = ops (base s);
  rr_type : type (base s') = type (base s);
  rr_put : swap_put s' = swap_put s;
  rr_count : n_entries (base s') = n_entries (base s);
  rr_room : n_entries (base s') < nb s' }.

Lemma not_rehash s o : hashmap_ok s o -> existsb (Z.eqb DIB_RAW_REHASH) (dibs (base s)) = false.
Proof.
  intros H. apply not_true_is_false. intros (d & Hd & E%Z.eqb_eq)%existsb_exists. subst d.
  apply list_elem_of_In, list_elem_of_lookup in Hd as [i Hi]. pose proof (lookup_lt_Some _ _ _ Hi) as Hlt.
  rewrite (sh_dibs _ (t_shaped _ _ _ (hk_table _ _ H))) in Hlt.
  pose proof (sh_pos _ (t_shaped _ _ _ (hk_table _ _ H))).
  apply (hk_settled _ _ H (Z.of_nat i)); [unfold valid; lia|].
  unfold raw, nthZ. rewrite (proj2 (Z.ltb_ge (Z.of_nat i) 0)) by lia. by rewrite Nat2Z.id, Hi.
Qed.

(** The storage grows, and everything is hashed again. *)
Lemma regrow s o k ks new_n :
  hashmap_ok s o -> nb s <= new_n <= 2 ^ 30 -> n_entries (base s) < new_n ->
  (exists t, 7 <= t <= 31 /\ new_n = 2 ^ t `div` (entry_size (type (base s)) + 1)) ->
  exists s' o', (hmod (fun h => set_store (Indirect k (n_entries h) new_n (idx_lowest_entry h)) (grow_storage new_n h));;
    n_rehashed ← local_swap (rehash_loop (Z.to_nat (nb s)) 0 0);
    h ← hget; sreq (n_rehashed =? n_entries h) EASSERT;; mret true) (set_keys ks s) = (Ok true, s') /\ resize_result s s' o o'.
Proof.
  intros H Hn Hroom Ht. pose proof (sh_pos _ (t_shaped _ _ _ (hk_table _ _ H))) as Hp.
  set (s1 := set_base (set_store (Indirect k (n_entries (base s)) new_n (idx_lowest_entry (base s))) (grow_storage new_n (base s))) (set_keys ks s)).
  destruct (grown_table s s1 o k new_n (hk_table _ _ H) Hn eq_refl eq_refl) as (T1 & U1 & C1 & R1).
  assert (N1 : nb s1 = new_n) by done. pose proof (hk_count _ _ H) as Hc.
  destruct (rehash_run (Z.to_nat (nb s)) 0 s1 o (nb s)) as (s2 & o2 & R & T2 & Se2 & A2 & C2);
    [done|rewrite N1, <- Hc; lia|lia|lia|lia|exact R1|].
  rewrite U1 in R. destruct (table_swaps s2 o2 (swap_put s1) (swap_tmp s1) T2) as [T3 At3].
  set (s3 := State (base s2) (swap_put s1) (swap_tmp s1) (keys s2)) in *.
  assert (Hlen : length o2 = length o).
  { pose proof (f_equal length C2) as E2. by rewrite !length_fmap in E2. }
  assert (He : n_entries (base s3) = n_entries (base s)) by apply (alike_entries _ _ A2).
  assert (N3 : nb s3 = new_n) by (rewrite <- N1; apply (alike_n _ _ A2)).
  assert (Hv2 : forall a, a ∈ o2 -> valid (nb s2) a) by (intros a [[? _]|[[=] _]]%(t_order _ _ _ T2); done).
  exists s3, o2. split.
  - rewrite hmod_bind. change (set_base _ (set_keys ks s)) with s1. unfold local_swap at 1.
    erewrite stm_bind_run; [|by rewrite R]. rewrite hget_bind. fold s3. rewrite sreq_bind; [done|].
    apply Z.eqb_eq. rewrite He, Hc, (used_all s2 o2 T2 Se2). by rewrite Hlen.
  - split; [split; [done|exact Se2| | |]| | | | | |].
    + apply (settled_slack s3 o2); [done|exact Se2|]. rewrite N3, Hlen, <- Hc. done.
    + by rewrite He, Hlen.
    + unfold sized. pose proof (al_core _ _ A2) as E. change (store (base s3)) with (store (base s2)).
      destruct (store (base s2)); [done|]. cbn in E. injection E as _ _ ->.
      change (type (base s3)) with (type (base s2)). by rewrite (al_type _ _ A2).
    + etrans; [|etrans; [exact C2|exact C1]]. apply list_fmap_ext. intros i a Ha%list_elem_of_lookup_2. unfold kv.
      by rewrite At3 by auto.
    + apply (al_ops _ _ A2).
    + apply (al_type _ _ A2).
    + done.
    + done.
    + by rewrite He, N3.
Qed.

Lemma direct_buckets_cases h :
  has_indirect h = false -> n_buckets h = 2 /\ entry_size (type h) = 16 \/ n_buckets h = 1 /\ entry_size (type h) = 24 \/
    n_buckets h = 4 /\ entry_size (type h) = 8.
Proof. unfold has_indirect, n_buckets. destruct (store h); [|done]. intros _. destruct (type h); tauto. Qed.

Lemma enough_buckets s o m :
  hashmap_ok s o -> 1 <= m <= MAX_ENTRIES -> nb s < m + m `div` 4 ->
  let es := entry_size (type (base s)) in
  let new_n := 2 ^ log2u_round_up (((m + m `div` 4) * (es + 1)) `max` 78) `div` (es + 1) in
  nb s <= new_n <= 2 ^ 30 /\ m <= new_n /\ es * nb s + nb s <= es * new_n.
Proof.
  intros H Hm Hlt es. pose proof (entry_size_cases (type (base s))) as Hes. fold es in Hes.
  destruct (new_buckets_spec es m Hes Hm) as [H1 H2]. pose proof (wanted_bound m Hm) as [H3 _]. cbv zeta.
  split; [lia|]. split; [lia|]. pose proof (hk_sized _ _ H) as Hz. unfold sized in Hz.
  destruct (has_indirect (base s)) eqn:Hi.
  - destruct (store (base s)) as [|k n n' l] eqn:Est; [by unfold has_indirect in Hi; rewrite Est in Hi|].
    destruct Hz as (t & Ht & E). fold es in E. assert (N : nb s = 2 ^ t `div` (es + 1)) by (unfold n_buckets; by rewrite Est).
    rewrite N in Hlt |- *. pose proof (doubled es m Hes Hm t ltac:(lia) Hlt).
    set (a := 2 ^ t `div` (es + 1)) in *. set (c := 2 ^ log2u_round_up _ `div` _) in *.
    pose proof (sh_pos _ (t_shaped _ _ _ (hk_table _ _ H))). nia.
  - destruct (shift_spec es m Hes Hm) as [[Hsh _] _].
    set (sh := log2u_round_up _) in *.
    assert (2 ^ 7 <= 2 ^ sh) as Hp by (apply Z.pow_le_mono_r; lia). change (2 ^ 7) with 128 in Hp.
    assert (128 `div` (es + 1) <= 2 ^ sh `div` (es + 1)) as Hd by (apply Z.div_le_mono; lia).
    set (c := 2 ^ sh `div` (es + 1)) in *.
    destruct (direct_buckets_cases _ Hi) as [[-> E]|[[-> E]|[-> E]]]; fold es in E; rewrite E in Hd |- *.
    + change (128 `div` (16 + 1)) with 7 in Hd. lia.
    + change (128 `div` (24 + 1)) with 5 in Hd. lia.
    + change (128 `div` (8 + 1)) with 14 in Hd. lia.
Qed.

Theorem resize_spec s o :
  hashmap_ok s o -> n_entries (base s) + 1 <= MAX_ENTRIES ->
  exists b s' o', resize_buckets 1 s = (Ok b, s') /\ resize_result s s' o o' /\ (b = false -> s' = s /\ o' = o).
Proof.
  intros H Hmax. pose proof (hk_count _ _ H) as Hc. set (n := n_entries (base s)) in *.
  set (m := n + 1). assert (Hm : 1 <= m <= MAX_ENTRIES) by lia. pose proof Hm as Hm2. unfold MAX_ENTRIES in Hm2.
  change (2 ^ 26) with 67108864 in Hm2. pose proof (wanted_bound m Hm) as Hw.
  pose proof (entry_size_cases (type (base s))) as Hes. set (es := entry_size (type (base s))) in *.
  assert (Hstay : n < nb s -> exists b s' o', (mret false : stm state bool) s = (Ok b, s') /\ resize_result s s' o o' /\ (b = false -> s' = s /\ o' = o)).
  { intros Hr. exists false, s, o. split; [done|]. split; [|done]. by split. }
  unfold resize_buckets. rewrite hget_bind. fold es n. rewrite (wrap_small 32 (n + 1)) by lia. fold m.
  rewrite sreq_bind by (apply negb_true_iff, Z.ltb_ge; lia).
  destruct (negb (has_indirect (base s)) && (m <=? n_direct_buckets (type (base s)))) eqn:Ed.
  { apply Hstay. apply andb_true_iff in Ed as [E1 E2%Z.leb_le]. unfold n_buckets, has_indirect in *.
    destruct (store (base s)); [lia|done]. }
  change (INV_KEEP_FREE - 1) with 4. rewrite (wrap_small 32 (m + m `div` 4)) by lia.
  rewrite sreq_bind by (apply negb_true_iff, Z.ltb_ge; lia).
  rewrite sreq_bind.
  2:{ apply negb_true_iff, Z.ltb_ge. apply Z.div_le_lower_bound; [lia|]. unfold UINT_MAX. nia. }
  destruct (Z.leb_spec (m + m `div` 4) (nb s)) as [Hle|Hgt]; [apply Hstay; lia|].
  change (2 * direct_storage_size) with 78.
  destruct (shift_spec es m Hes Hm) as [[Hs1 Hs2] Hfit].
  destruct (enough_buckets s o m H Hm Hgt) as (Hn & Hmn & Hover). fold es in Hn, Hmn, Hover.
  set (sh := log2u_round_up (((m + m `div` 4) * (es + 1)) `max` 78)) in *.
  rewrite sreq_bind by (apply Z.ltb_lt; lia).
  destruct (get_hash_key_run (negb (has_indirect (base s))) s) as (k & ks & Rk). rewrite (stm_bind_run _ _ _ _ _ Rk).
  rewrite sreq_bind by (by apply Z.leb_le).
  rewrite sreq_bind by (by rewrite (not_rehash s o)).
  destruct (regrow s o k ks (2 ^ sh `div` (es + 1)) H Hn) as (s' & o' & R & Hres); [fold n; lia|by exists sh|].
  by exists true, s', o'.
Qed.
