(* ===== verification/HashCalls.v ===== *)
(** * The calls on hash maps and sets ([src/basic/hashmap.c])

    What each call does to the list of the entries. *)
From S2P Require Import Prelude Siphash Hashmap RobinHood HashTable HashProbe HashRemove HashPut HashResize.

(** ** Removing and putting keep the invariant *)
Lemma resized_entries d s s' : resized d s s' -> n_entries (base s') = n_entries (n_entries_add d (base s)).
Proof.
  intros [_ Ht _ Hc]. unfold n_entries. destruct (store (base s')), (store (n_entries_add d (base s))); cbn in Hc; congruence.
Qed.

Lemma core_sized h h' : core (store h') = core (store h) -> type h' = type h -> sized h -> sized h'.
Proof.
  unfold sized. intros Hc -> Hz. destruct (store h') as [|k n m l]; [done|]. destruct (store h); [done|].
  cbn in Hc. by injection Hc as _ _ ->.
Qed.

Lemma resized_sized d s s' : resized d s s' -> sized (base s) -> sized (base s').
Proof.
  intros [_ Ht _ Hc] Hz. apply (core_sized (n_entries_add d (base s))); [done|done|].
  unfold sized, n_entries_add in *. cbn. by destruct (store (base s)).
Qed.

Lemma order_length s o : table s o false -> Z.of_nat (length o) <= nb s.
Proof.
  intros Ht. assert (o ⊆+ indices s) as Hsub.
  { apply NoDup_submseteq; [apply Ht|]. intros i Hi. apply elem_indices.
    by apply (t_order _ _ _ Ht) in Hi as [[? _]|[[=] _]]. }
  apply submseteq_length in Hsub. unfold indices in Hsub. rewrite length_seqZ in Hsub.
  pose proof (sh_pos _ (t_shaped _ _ _ Ht)). lia.
Qed.

Lemma entries_added d h :
  n_buckets h <= 2 ^ 30 -> 0 <= n_entries h + d <= n_buckets h -> n_entries (n_entries_add d h) = n_entries h + d.
Proof.
  intros Hp Hb. unfold n_entries, n_entries_add, n_buckets in *. destruct (store h) as [n|k n m l]; cbn.
  - apply wrap_small. assert (n_direct_buckets (type h) <= 4) by (by destruct (type h)). lia.
  - apply wrap_small. lia.
Qed.

Record entry_calls (s s' : state) : Prop := {
  ec_ops : ops (base s') = ops (base s);
  ec_type : type (base s') = type (base s) }.

#[export] Instance entry_calls_refl : Reflexive entry_calls.
Proof. by split. Qed.

#[export] Instance entry_calls_trans : Transitive entry_calls.
Proof. intros s1 s2 s3 [] []. split; congruence. Qed.

Lemma base_remove_ok s o1 idx o2 :
  hashmap_ok s (o1 ++ idx :: o2) ->
  exists s' r, base_remove_entry idx s = (Ok tt, s') /\ hashmap_ok s' (r <$> (o1 ++ o2)) /\
    kv s' <$> (r <$> (o1 ++ o2)) = kv s <$> (o1 ++ o2) /\ entry_calls s s' /\ nb s' = nb s /\
    (forall a, a ∈ o1 ++ o2 -> r a = a \/ r a = prev (nb s) a).
Proof.
  intros H. destruct (remove_spec s o1 idx o2) as (s' & o' & R & Ht & Hse & Hsl & Hkv & Hrs & N & r & -> & Hr);
    [apply H|apply H|apply H|intros a Ha; by apply (ok_valid s _ a H)|].
  exists s', r. split; [done|]. split; [|split; [done|split; [|done]]].
  - split; try done.
    + pose proof (hk_count _ _ H) as Hc. pose proof (order_length _ _ (hk_table _ _ H)) as Hl.
      pose proof (sh_pos _ (t_shaped _ _ _ (hk_table _ _ H))).
      rewrite (resized_entries _ _ _ Hrs), entries_added, length_fmap; rewrite ?Hc, ?length_app in *; cbn in *; lia.
    + eapply resized_sized; [done|apply H].
  - split; apply Hrs.
Qed.

Lemma put_boldly_ok s o :
  hashmap_ok s o -> n_entries (base s) + 1 <= MAX_ENTRIES ->
  exists s' o', hashmap_base_put_boldly (bucket_hash s (key (swap_put s))) true s = (Ok 1, s') /\ hashmap_ok s' o' /\
    kv s' <$> o' = (kv s <$> o) ++ [(key (swap_put s), value (swap_put s))] /\ entry_calls s s'.
Proof.
  intros H Hmax. pose proof (sh_pos _ (t_shaped _ _ _ (hk_table _ _ H))) as Hp.
  pose proof (bucket_hash_valid s (key (swap_put s)) ltac:(lia)) as Hh.
  destruct (resize_spec s o H Hmax) as (b & s1 & o1 & R1 & Hres & Hsame).
  pose proof (rr_ok _ _ _ _ Hres) as H1. pose proof (hk_table _ _ H1) as T1.
  destruct (link_spec s1 o1 (t_shaped _ _ _ T1) (t_owned _ _ _ T1)) as (s2 & R2 & Hll & W2);
    [intros a Ha; by apply (ok_valid s1 o1)|].
  pose proof (ll_kept _ _ Hll) as K2. pose proof (kept_n _ _ K2) as N2.
  pose proof (carry_table s1 s2 o1 T1 Hll W2) as T2. pose proof (sh_pos _ (t_shaped _ _ _ T2)) as Hp2.
  assert (Hput : kv s2 IDX_PUT = (key (swap_put s), value (swap_put s))).
  { rewrite (ll_kv _ _ Hll) by (by right; left). unfold kv. change (at_ s1 IDX_PUT) with (swap_put s1). by rewrite (rr_put _ _ _ _ Hres). }
  assert (Hhome : home s2 IDX_PUT = bucket_hash s1 (key (swap_put s))).
  { unfold home. rewrite (kept_hash _ _ _ K2). by injection Hput as -> _. }
  destruct (stop_bucket s2 _ T2) as (f & Hf & Hfs).
  { rewrite length_app. cbn. pose proof (rr_room _ _ _ _ Hres). rewrite (hk_count _ _ H1) in *. rewrite N2. lia. }
  destruct (put_loop (Z.to_nat (nb s2)) s2 _ (home s2 IDX_PUT) 0 T2) as (b3 & s3 & o3 & f3 & R3 & Hst).
  { rewrite Hhome, N2. apply bucket_hash_valid. rewrite <- N2. lia. }
  { rewrite dist_self; lia. } { intros ?. lia. }
  { exists f. split; [done|]. split; [done|]. pose proof (dist_bound (nb s2) ltac:(lia) f (home s2 IDX_PUT)). lia. }
  assert (Hraw2 : forall i, raw s2 i = raw s1 i) by (intros i; apply kept_dibs_raw, Hll).
  assert (b3 = false) as ->.
  { rewrite (st_rehash _ _ _ _ _ _ Hst). apply Z.eqb_neq. rewrite Hraw2. apply (hk_settled _ _ H1).
    rewrite <- N2. apply Hst. }
  pose proof (st_alike _ _ _ _ _ _ Hst) as A3. pose proof (alike_n _ _ A3) as N3.
  set (s4 := set_base (base_set_dirty (n_entries_inc (base s3))) s3).
  destruct (table_resized s3 s4 o3 false 1 (st_table _ _ _ _ _ _ Hst)) as (T4 & At4 & Raw4 & N4 & Hh4 & Hrs); [done..|].
  assert (He3 : n_entries (base s3) = n_entries (base s1)).
  { rewrite (alike_entries _ _ A3). unfold n_entries. by rewrite (k_store _ _ K2). }
  assert (Hlen : length o3 = S (length o1)).
  { pose proof (f_equal length (st_contents _ _ _ _ _ _ Hst)) as E. rewrite !length_fmap, length_app in E. cbn in E. lia. }
  exists s4, o3. split; [|split; [split|split]].
  - unfold hashmap_base_put_boldly. rewrite hget_bind, sreq_bind by (apply Z.ltb_lt; unfold valid in Hh; lia).
    rewrite stm_bind_eq, stm_bind_eq, R1.
    assert ((if b then hgets (fun s => bucket_hash s (key (swap_put s))) else mret (bucket_hash s (key (swap_put s)))) s1 =
            (Ok (home s2 IDX_PUT), s1)) as ->.
    { rewrite Hhome. destruct b; [unfold hgets; by rewrite (rr_put _ _ _ _ Hres)|]. by destruct (Hsame eq_refl) as [-> _]. }
    rewrite hget_bind, sreq_bind by (apply Z.ltb_lt, Hres). rewrite (stm_bind_run _ _ _ _ _ R2).
    rewrite <- N2, (stm_bind_run _ _ _ _ _ R3). done.
  - done.
  - intros i Hi. rewrite N4, N3 in Hi. rewrite Raw4. intros E. apply (stored_no_new _ _ _ _ _ _ i Hst Hi) in E.
    rewrite Hraw2 in E. rewrite N2 in Hi. by apply (hk_settled _ _ H1 i).
  - rewrite N4, N3. eapply slack_ext; [|apply Hst]. intros i _. apply Hh4.
  - rewrite (resized_entries _ _ _ Hrs).
    pose proof (rr_room _ _ _ _ Hres) as Hroom. rewrite (hk_count _ _ H1) in He3, Hroom.
    rewrite entries_added, He3, Hlen; rewrite ?He3, ?N3, ?N2; lia.
  - eapply resized_sized; [done|]. apply (core_sized (base s1)); [|by rewrite (al_type _ _ A3), (k_type _ _ K2)|apply H1].
    by rewrite (al_core _ _ A3), (k_store _ _ K2).
  - transitivity (kv s3 <$> o3); [by apply list_fmap_ext; intros i a _; unfold kv; rewrite At4|]. rewrite (st_contents _ _ _ _ _ _ Hst), fmap_app.
    f_equal; [|cbn; by rewrite Hput]. rewrite <- (rr_contents _ _ _ _ Hres). apply list_fmap_ext.
    intros i a Ha%list_elem_of_lookup_2. apply (ll_kv _ _ Hll). left. by apply (ok_valid s1 o1).
  - split.
    + rewrite (rs_ops _ _ _ Hrs), (al_ops _ _ A3), (k_ops _ _ K2). apply Hres.
    + rewrite (rs_type _ _ _ Hrs), (al_type _ _ A3), (k_type _ _ K2). apply Hres.
Qed.

(** ** The list of the entries *)

(** Key and value as the calls give them; the value of a set's entry is its key. *)
Definition shown (t : HashmapType) (e : Z * Z) : Z * Z :=
  match t with HASHMAP_TYPE_SET => (e.1, e.1) | _ => e end.

Definition contents (s : state) (o : list Z) : list (Z * Z) := shown (type (base s)) <$> (kv s <$> o).

Fixpoint lookup_key (cmp : Z -> Z -> Z) (k : Z) (l : list (Z * Z)) : option (Z * Z) :=
  match l with
  | [] => None
  | e :: l => if cmp e.1 k =? 0 then Some e else lookup_key cmp k l
  end.

Fixpoint remove_key (cmp : Z -> Z -> Z) (k : Z) (l : list (Z * Z)) : list (Z * Z) :=
  match l with
  | [] => []
  | e :: l => if cmp e.1 k =? 0 then l else e :: remove_key cmp k l
  end.

(** No two keys are equal. *)
Fixpoint distinct (cmp : Z -> Z -> Z) (l : list (Z * Z)) : Prop :=
  match l with
  | [] => True
  | e :: l => Forall (fun e' => cmp e.1 e'.1 <> 0) l /\ distinct cmp l
  end.

Section lists.
Context (o : hash_ops) (Hlaws : HashLaws o).

Lemma lookup_none k l : lookup_key (compare o) k l = None <-> Forall (fun e => compare o e.1 k <> 0) l.
Proof.
  induction l as [|e l IH]; cbn; [done|]. rewrite Forall_cons. destruct (Z.eqb_spec (compare o e.1 k) 0); [|tauto].
  split; [done|]. by intros [? _].
Qed.

Lemma lookup_split k l1 e l2 :
  distinct (compare o) (l1 ++ e :: l2) -> compare o e.1 k = 0 ->
  lookup_key (compare o) k (l1 ++ e :: l2) = Some e /\ remove_key (compare o) k (l1 ++ e :: l2) = l1 ++ l2.
Proof.
  intros Hd Hk. induction l1 as [|a l1 IH]; cbn.
  - by rewrite (proj2 (Z.eqb_eq _ _) Hk).
  - destruct Hd as [Ha Hd]. apply Forall_app in Ha as [_ [Ha _]%Forall_cons].
    rewrite (proj2 (Z.eqb_neq _ _)).
    + destruct (IH Hd) as [H1 H2]. by rewrite H1, H2.
    + intros E. apply Ha. eapply compare_trans; [exact E|]. by apply compare_sym.
Qed.

Lemma distinct_snoc l e :
  distinct (compare o) l -> lookup_key (compare o) e.1 l = None -> distinct (compare o) (l ++ [e]).
Proof.
  intros Hd Hn%lookup_none. induction l as [|a l IH]; cbn; [done|]. destruct Hd as [Ha Hd].
  apply Forall_cons in Hn as [Hn1 Hn2]. split; [|by apply IH]. apply Forall_app. split; [done|].
  apply Forall_cons. by split.
Qed.

Lemma distinct_remove l1 e l2 : distinct (compare o) (l1 ++ e :: l2) -> distinct (compare o) (l1 ++ l2).
Proof.
  induction l1 as [|a l1 IH]; cbn; [by intros [_ ?]|]. intros [Ha Hd]. split; [|by apply IH].
  apply Forall_app in Ha as [H1 [_ H2]%Forall_cons]. apply Forall_app. by split.
Qed.
End lists.

(** ** The calls *)

(** The invariant with the list it stands for *)
Record stands_for (s : state) (o : list Z) (l : list (Z * Z)) : Prop := {
  sd_ok : hashmap_ok s o;
  sd_laws : HashLaws (ops (base s));
  sd_contents : contents s o = l;
  sd_distinct : distinct (compare (ops (base s))) l }.

Abbreviation cmp s := (compare (ops (base s))) (only parsing).

Lemma contents_app s o1 o2 : contents s (o1 ++ o2) = contents s o1 ++ contents s o2.
Proof. unfold contents. by rewrite !fmap_app. Qed.

Lemma shown_key t e : (shown t e).1 = e.1.
Proof. by destruct t. Qed.

Lemma shown_value s i : shown (type (base s)) (kv s i) = (key (at_ s i), entry_value (base s) (at_ s i)).
Proof. unfold shown, entry_value. by destruct (type (base s)). Qed.

Lemma contents_cons s i o : contents s (i :: o) = (key (at_ s i), entry_value (base s) (at_ s i)) :: contents s o.
Proof. unfold contents. rewrite !fmap_cons. by rewrite shown_value. Qed.

(** What the scan finds, in terms of the list *)
Lemma find_run s o l k :
  stands_for s o l ->
  exists r, bucket_scan k s = (Ok (bucket_hash s k, r), s) /\
    (r = IDX_NIL /\ lookup_key (cmp s) k l = None \/
     r <> IDX_NIL /\ valid (nb s) r /\ exists o1 o2, o = o1 ++ r :: o2 /\
       lookup_key (cmp s) k l = Some (key (at_ s r), entry_value (base s) (at_ s r)) /\
       remove_key (cmp s) k l = contents s (o1 ++ o2)).
Proof.
  intros [H Hlaws Hc Hd]. destruct (scan_run s o false k (hk_table _ _ H) (hk_settled _ _ H) Hlaws) as (r & R & Hcase).
  exists r. split; [done|]. destruct Hcase as [[-> Hno]|[(Hv & Hr & Hk) Hne]].
  - left. split; [done|]. apply lookup_none. subst l. apply Forall_fmap, Forall_fmap, Forall_forall.
    intros i Hi. cbn. rewrite shown_key. intros E. apply (Hno i). split; [by apply (ok_valid s o)|]. split; [|done].
    by apply (t_order _ _ _ (hk_table _ _ H)) in Hi as [[_ ?]|[[=] _]].
  - right. split; [done|]. split; [done|]. assert (Hin : r ∈ o) by (apply (t_order _ _ _ (hk_table _ _ H)); by left).
    apply list_elem_of_split in Hin as (o1 & o2 & ->). exists o1, o2. split; [done|].
    subst l. rewrite contents_app, contents_cons in Hd |- *. destruct (lookup_split _ Hlaws k _ _ _ Hd Hk) as [-> ->]. by rewrite contents_app.
Qed.

Theorem get_spec s o l k :
  stands_for s o l -> internal_hashmap_get k s = (Ok (default 0 (snd <$> lookup_key (cmp s) k l)), s).
Proof.
  intros H. destruct (find_run s o l k H) as (r & R & Hc). unfold internal_hashmap_get.
  rewrite (stm_bind_run _ _ _ _ _ R). destruct Hc as [[-> ->]|(Hne & Hv & o1 & o2 & _ & -> & _)]; [done|].
  rewrite (proj2 (Z.eqb_neq _ _) Hne). by rewrite (stm_bind_run _ _ _ _ _ (bucket_at_run s (t_shaped _ _ _ (hk_table _ _ (sd_ok _ _ _ H))) r Hv)).
Qed.

Theorem contains_spec s o l k :
  stands_for s o l ->
  internal_hashmap_contains k s = (Ok (bool_decide (is_Some (lookup_key (cmp s) k l))), s).
Proof.
  intros H. destruct (find_run s o l k H) as (r & R & Hc). unfold internal_hashmap_contains.
  rewrite (stm_bind_run _ _ _ _ _ R). destruct Hc as [[-> ->]|(Hne & Hv & o1 & o2 & _ & -> & _)]; [done|].
  by rewrite (proj2 (Z.eqb_neq _ _) Hne).
Qed.

Lemma contents_same s s' (o o' : list Z) :
  entry_calls s s' -> kv s' <$> o' = kv s <$> o -> contents s' o' = contents s o.
Proof. unfold contents. intros [_ ->]. by intros ->. Qed.

Theorem internal_remove_spec s o l k :
  stands_for s o l ->
  exists s' o', internal_hashmap_remove k s = (Ok (default 0 (snd <$> lookup_key (cmp s) k l)), s') /\
    stands_for s' o' (remove_key (cmp s) k l) /\ entry_calls s s'.
Proof.
  intros H. destruct (find_run s o l k H) as (r & R & Hc). unfold internal_hashmap_remove.
  rewrite (stm_bind_run _ _ _ _ _ R). destruct H as [H Hlaws Hco Hd].
  destruct Hc as [[-> Hn]|(Hne & Hv & o1 & o2 & -> & Hl & Hrem)].
  - exists s, o. rewrite Hn. split; [done|]. split; [|done].
    assert (remove_key (cmp s) k l = l) as ->; [|by split].
    apply lookup_none in Hn. clear -Hn. induction Hn as [|e l He _ IH]; [done|]. cbn.
    by rewrite (proj2 (Z.eqb_neq _ _) He), IH.
  - rewrite (proj2 (Z.eqb_neq _ _) Hne).
    rewrite (stm_bind_run _ _ _ _ _ (bucket_at_run s (t_shaped _ _ _ (hk_table _ _ H)) r Hv)), hget_bind.
    destruct (base_remove_ok s o1 r o2 H) as (s' & f & R' & Hok & Hkv & Hec & _ & _). rewrite (stm_bind_run _ _ _ _ _ R').
    exists s'. eexists. rewrite Hl. split; [done|]. split; [|done]. split; [exact Hok|by rewrite (ec_ops _ _ Hec)| |].
    + rewrite Hrem. by apply contents_same.
    + rewrite Hrem, (ec_ops _ _ Hec). rewrite <- Hco, contents_app, contents_cons in Hd. rewrite contents_app. by apply distinct_remove in Hd.
Qed.

(** A new entry in [IDX_PUT] changes nothing yet. *)
Lemma swap_put_ok s o x :
  hashmap_ok s o -> hashmap_ok (set_swap_put x s) o /\ kv (set_swap_put x s) <$> o = kv s <$> o /\
    forall k, bucket_hash (set_swap_put x s) k = bucket_hash s k.
Proof.
  intros H. destruct (table_swaps s o x (swap_tmp s) (hk_table _ _ H)) as [Ht Hat].
  change (State (base s) x (swap_tmp s) (keys s)) with (set_swap_put x s) in *.
  pose proof (sh_pos _ (t_shaped _ _ _ (hk_table _ _ H))) as Hp.
  assert (Hh : forall k, bucket_hash (set_swap_put x s) k = bucket_hash s k) by (intros k; by apply kept_hash).
  split; [|split; [|done]].
  - split; [done|apply H| |apply H|apply H]. eapply slack_ext; [|apply H]. intros i Hi. unfold homes, home.
    change (raw (set_swap_put x s) i) with (raw s i). by rewrite Hh, Hat.
  - apply list_fmap_ext. intros i a Ha%list_elem_of_lookup_2. unfold kv. by rewrite Hat by (by apply (ok_valid s o)).
Qed.

(** Adding an entry with a new key *)
Lemma added s o l x :
  stands_for s o l -> lookup_key (cmp s) (key x) l = None -> Z.of_nat (length l) + 1 <= MAX_ENTRIES ->
  exists s' o', hashmap_base_put_boldly (bucket_hash s (key x)) true (set_swap_put x s) = (Ok 1, s') /\
    stands_for s' o' (l ++ [shown (type (base s)) (key x, value x)]) /\ entry_calls s s'.
Proof.
  intros [H Hlaws Hc Hd] Hn Hlen. destruct (swap_put_ok s o x H) as (H1 & Hkv & Hh).
  set (s1 := set_swap_put x s) in *.
  assert (Hlo : length l = length o) by (rewrite <- Hc; unfold contents; by rewrite !length_fmap).
  destruct (put_boldly_ok s1 o H1) as (s' & o' & R & Hok & Hkv' & Hec).
  { rewrite (hk_count _ _ H1), <- Hlo. done. }
  exists s', o'. split; [by rewrite <- Hh|]. split; [|by destruct Hec; split].
  split; [done|by rewrite (ec_ops _ _ Hec)| |].
  - unfold contents. rewrite Hkv', (ec_type _ _ Hec), fmap_app, Hkv, <- Hc. done.
  - rewrite (ec_ops _ _ Hec). apply distinct_snoc; [done|]. by rewrite shown_key.
Qed.

Theorem put_spec s o l k v :
  stands_for s o l -> type (base s) <> HASHMAP_TYPE_SET -> Z.of_nat (length l) + 1 <= MAX_ENTRIES ->
  match lookup_key (cmp s) k l with
  | Some (_, v') => hashmap_put k v s = (if v' =? v then Ok 0 else Err EEXIST, s)
  | None => exists s' o', hashmap_put k v s = (Ok 1, s') /\ stands_for s' o' (l ++ [(k, v)]) /\ entry_calls s s'
  end.
Proof.
  intros H Ht Hlen. destruct (find_run s o l k H) as (r & R & Hc). unfold hashmap_put.
  rewrite (stm_bind_run _ _ _ _ _ R). destruct Hc as [[-> Hn]|(Hne & Hv & o1 & o2 & _ & Hl & _)].
  - rewrite Hn. cbn [negb Z.eqb]. replace (negb (IDX_NIL =? IDX_NIL)) with false by done. rewrite smod_bind.
    set (x := set_value v (set_key k (swap_put s))).
    destruct (added s o l x H Hn Hlen) as (s' & o' & R' & H' & Hec). exists s', o'. split; [done|]. split; [|done].
    by destruct (type (base s)).
  - rewrite Hl, (proj2 (Z.eqb_neq _ _) Hne). cbn [negb].
    rewrite (stm_bind_run _ _ _ _ _ (bucket_at_run s (t_shaped _ _ _ (hk_table _ _ (sd_ok _ _ _ H))) r Hv)).
    unfold entry_value. destruct (type (base s)); [| |done]; by destruct (value (at_ s r) =? v).
Qed.

Theorem set_put_spec s o l k :
  stands_for s o l -> type (base s) = HASHMAP_TYPE_SET -> Z.of_nat (length l) + 1 <= MAX_ENTRIES ->
  match lookup_key (cmp s) k l with
  | Some _ => set_put k s = (Ok 0, s)
  | None => exists s' o', set_put k s = (Ok 1, s') /\ stands_for s' o' (l ++ [(k, k)]) /\ entry_calls s s'
  end.
Proof.
  intros H Ht Hlen. destruct (find_run s o l k H) as (r & R & Hc). unfold set_put.
  rewrite (stm_bind_run _ _ _ _ _ R). destruct Hc as [[-> Hn]|(Hne & Hv & o1 & o2 & _ & Hl & _)].
  - rewrite Hn. replace (negb (IDX_NIL =? IDX_NIL)) with false by done. rewrite smod_bind.
    destruct (added s o l (set_key k (swap_put s)) H Hn Hlen) as (s' & o' & R' & H' & Hec). exists s', o'.
    split; [done|]. split; [|done]. by rewrite Ht in H'.
  - by rewrite Hl, (proj2 (Z.eqb_neq _ _) Hne).
Qed.

Theorem size_spec s o l : stands_for s o l -> internal_hashmap_size s = (Ok (Z.of_nat (length l)), s).
Proof.
  intros H. unfold internal_hashmap_size, hgets. rewrite (hk_count _ _ (sd_ok _ _ _ H)), <- (sd_contents _ _ _ H).
  unfold contents. by rewrite !length_fmap.
Qed.

(** ** Making and clearing *)
Lemma free_table s :
  has_indirect (base s) = false -> n_entries (base s) = 0 ->
  buckets (base s) = repeat zero_entry (Z.to_nat (n_direct_buckets (type (base s)))) ->
  dibs (base s) = repeat DIB_RAW_FREE (Z.to_nat (n_direct_buckets (type (base s)))) ->
  iterate_list_head (base s) = IDX_NIL -> iterate_list_tail (base s) = IDX_NIL -> hashmap_ok s [].
Proof.
  intros Hi Hn Hb Hd Hh Ht.
  assert (N : nb s = n_direct_buckets (type (base s))) by (unfold n_buckets, has_indirect in *; by destruct (store (base s))).
  assert (Hp : 0 < nb s <= 2 ^ 30) by (rewrite N; by destruct (type (base s))).
  assert (Hraw : forall i, valid (nb s) i -> raw s i = DIB_RAW_FREE).
  { intros i Hv. unfold raw. rewrite Hd. unfold nthZ. destruct (i <? 0); [done|].
    destruct (repeat _ _ !! _) as [d|] eqn:E; [|done]. apply list_elem_of_lookup_2, list_elem_of_In, repeat_spec in E. by subst d. }
  assert (Hho : forall i, valid (nb s) i -> homes s i = None) by (intros i Hv; unfold homes; by rewrite Hraw).
  split.
  - split.
    + split; [done|rewrite Hb|rewrite Hd]; by rewrite repeat_length, N.
    + split; [apply NoDup_nil_2|by intros a ?%elem_of_nil|by rewrite Hh, Ht].
    + intros a. split; [by intros ?%elem_of_nil|]. intros [[Hv Hr]|[[=] _]]. by rewrite Hraw in Hr.
    + intros i Hv Hs. by rewrite Hraw in Hs.
    + intros i Hv f Hf. by rewrite Hho in Hf.
    + intros i Hv Hr. by rewrite Hraw in Hr.
    + intros i Hv _. unfold at_. destruct (i <? _) eqn:E; [|exfalso; apply Z.ltb_ge in E; pose proof swap_order; unfold valid in Hv; lia].
      rewrite Hb. unfold nthZ. destruct (i <? 0); [done|]. destruct (repeat _ _ !! _) as [e|] eqn:E2; [|done].
      apply list_elem_of_lookup_2, list_elem_of_In, repeat_spec in E2. by subst e.
    + unfold idx_lowest_entry, has_indirect in *. by destruct (store (base s)).
  - intros i Hv. by rewrite Hraw.
  - exists 0. split; [unfold valid; lia|]. left. apply Hho. unfold valid. lia.
  - by rewrite Hn.
  - unfold sized, has_indirect in *. by destruct (store (base s)).
Qed.

Theorem new_spec o t k : HashLaws o -> stands_for (hashmap_base_new o t k) [] [] /\
  type (base (hashmap_base_new o t k)) = t /\ ops (base (hashmap_base_new o t k)) = o.
Proof. intros H. split; [|done]. split; [by apply free_table|done|done|done]. Qed.

Theorem clear_spec s o l :
  stands_for s o l -> let s' := set_base (internal_hashmap_clear (base s)) s in stands_for s' [] [] /\ entry_calls s s'.
Proof. intros [H Hlaws _ _] s'. split; [|by split]. split; [by apply free_table|done|done|done]. Qed.
