(* ===== verification/HashIterate.v ===== *)
(** * Iterating over hash maps ([src/basic/hashmap.c])

    An ordered map is iterated in the order of insertion, also when the entry at
    hand is removed, which may move the next one. The other maps are iterated in
    the order of their buckets. *)
From S2P Require Import Prelude Siphash Hashmap RobinHood HashTable HashProbe HashRemove HashPut HashResize HashCalls.

(** ** Free buckets are skipped *)
Lemma skip_free_spec idx (l : list Z) :
  skip_free idx l = IDX_NIL /\ Forall (fun d => d = DIB_RAW_FREE) l \/
  exists l1 d l2, l = l1 ++ d :: l2 /\ skip_free idx l = idx + Z.of_nat (length l1) /\ d <> DIB_RAW_FREE /\
    Forall (fun d => d = DIB_RAW_FREE) l1.
Proof.
  revert idx; induction l as [|d l IH]; intros idx; [by left|]. cbn [skip_free].
  destruct (Z.eqb_spec d DIB_RAW_FREE) as [->|Hd]; cbn [negb].
  - destruct (IH (idx + 1)) as [[E H]|(l1 & d & l2 & -> & E & Hd & H)].
    + left. split; [done|]. by constructor.
    + right. exists (DIB_RAW_FREE :: l1), d, l2. split; [done|]. split; [rewrite E; cbn; lia|]. split; [done|by constructor].
  - right. exists [], d, l. split; [done|]. split; [cbn; lia|done].
Qed.

Lemma skip_free_buckets_spec s idx :
  shaped s -> 0 <= idx ->
  skip_free_buckets (base s) idx = IDX_NIL /\ (forall i, valid (nb s) i -> idx <= i -> raw s i = DIB_RAW_FREE) \/
  valid (nb s) (skip_free_buckets (base s) idx) /\ idx <= skip_free_buckets (base s) idx /\
    raw s (skip_free_buckets (base s) idx) <> DIB_RAW_FREE /\
    (forall i, idx <= i < skip_free_buckets (base s) idx -> raw s i = DIB_RAW_FREE).
Proof.
  intros Hs Hidx. pose proof (sh_pos _ Hs) as Hp. unfold skip_free_buckets.
  rewrite firstn_all2 by (rewrite (sh_dibs _ Hs); lia).
  assert (Hraw : forall i, idx <= i -> raw s i = default DIB_RAW_FREE (drop (Z.to_nat idx) (dibs (base s)) !! Z.to_nat (i - idx))).
  { intros i Hi. rewrite lookup_drop. unfold raw, nthZ. rewrite (proj2 (Z.ltb_ge i 0)) by lia.
    replace (Z.to_nat idx + Z.to_nat (i - idx))%nat with (Z.to_nat i) by lia. done. }
  assert (Hfree : forall l, Forall (fun d => d = DIB_RAW_FREE) l -> forall j : nat, default DIB_RAW_FREE (l !! j) = DIB_RAW_FREE).
  { intros l Hl j. destruct (l !! j) as [d|] eqn:E; [|done]. cbn. exact (Forall_lookup_1 _ _ _ _ Hl E). }
  destruct (skip_free_spec idx (drop (Z.to_nat idx) (dibs (base s)))) as [[E H]|(l1 & d & l2 & El & E & Hd & H)].
  - left. split; [done|]. intros i Hi Hle. rewrite Hraw by done. by apply Hfree.
  - right. rewrite E. pose proof (f_equal length El) as Hlen. rewrite length_drop, length_app, (sh_dibs _ Hs) in Hlen. cbn in Hlen.
    split; [unfold valid; lia|]. split; [lia|]. split.
    + rewrite Hraw by lia. rewrite El, lookup_app_r by lia.
      replace (Z.to_nat (idx + Z.of_nat (length l1) - idx) - length l1)%nat with O by lia. done.
    + intros i Hi. rewrite Hraw by lia. rewrite El, lookup_app_l by lia. by apply Hfree.
Qed.

(** ** In the order of insertion *)

(** Where the iterator stands before the entries of the list: at its first entry, or
    one bucket behind it after a removal. *)
Inductive points (s : state) (o : list Z) : list Z -> Iterator -> Prop :=
  | points_first : points s o o ITERATOR_FIRST
  | points_end i : idx i = IDX_NIL -> points s o [] i
  | points_at b ob i :
      valid (nb s) (idx i) -> b = idx i \/ b = prev (nb s) (idx i) /\ key (at_ s b) <> 0 -> next_key i = key (at_ s b) ->
      points s o (b :: ob) i.

Lemma distinct_index s o l a b :
  stands_for s o l -> a ∈ o -> b ∈ o -> cmp s (key (at_ s a)) (key (at_ s b)) = 0 -> a = b.
Proof.
  intros [H Hlaws Hc Hd] Ha Hb E. destruct (decide (a = b)) as [|Hne]; [done|]. exfalso.
  assert (Hsplit : forall x y, x ∈ o -> y ∈ o -> x <> y -> cmp s (key (at_ s x)) (key (at_ s y)) = 0 ->
    (exists o1 o2, o = o1 ++ x :: o2 /\ y ∈ o2) -> False).
  { intros x y _ _ _ Exy (o1 & o2 & -> & Hy). subst l. rewrite contents_app, contents_cons in Hd. clear -Hd Exy Hy.
    induction (contents s o1) as [|e l1 IH]; cbn in Hd; [|by apply IH, Hd].
    destruct Hd as [Hf _]. rewrite Forall_forall in Hf. unfold contents in Hf.
    apply (Hf (shown (type (base s)) (kv s y))); [|by rewrite shown_key]. by do 2 apply list_elem_of_fmap_2. }
  pose proof Ha as (o1 & o2 & ->)%list_elem_of_split. apply elem_of_app in Hb as Hb'. rewrite elem_of_cons in Hb'.
  destruct Hb' as [Hb1|[->|Hb2]]; [|done|].
  - apply list_elem_of_split in Hb1 as (o11 & o12 & ->). apply (Hsplit b a); try done; [by apply compare_sym|].
    exists o11, (o12 ++ a :: o2). split; [by rewrite <- app_assoc|]. apply elem_of_app. right. left.
  - apply (Hsplit a b); try done. by exists o1, o2.
Qed.

Lemma resume_run s o l b i :
  stands_for s o l -> valid (nb s) (idx i) -> b = idx i \/ b = prev (nb s) (idx i) /\ key (at_ s b) <> 0 -> b ∈ o ->
  next_key i = key (at_ s b) -> resume prev_idx i s = (Ok b, s).
Proof.
  intros H Hi Hb Hin Hk. pose proof (hk_table _ _ (sd_ok _ _ _ H)) as Ht. pose proof (t_shaped _ _ _ Ht) as Hs.
  pose proof (sd_laws _ _ _ H) as Hlaws. pose proof (ok_valid _ _ _ (sd_ok _ _ _ H) Hin) as Hbv.
  unfold resume. rewrite (stm_bind_run _ _ _ _ _ (bucket_at_run s Hs _ Hi)), hget_bind.
  assert ((if negb (key (at_ s (idx i)) =? next_key i) then prev_idx (base s) (idx i) else idx i) = b) as ->.
  { destruct (Z.eqb_spec (key (at_ s (idx i))) (next_key i)) as [E|E]; cbn [negb].
    - destruct (Z.eq_dec (raw s (idx i)) DIB_RAW_FREE) as [Hf|Hf].
      + destruct Hb as [|[_ Hb]]; [done|]. rewrite (t_zero _ _ _ Ht _ Hi Hf) in E. congruence.
      + assert (Hio : idx i ∈ o) by (apply (t_order _ _ _ Ht); by left).
        apply (distinct_index s o l); [done|done|done|]. rewrite E, Hk. apply compare_refl.
    - destruct Hb as [->|[-> _]]; [congruence|]. by apply prev_idx_prev. }
  rewrite (stm_bind_run _ _ _ _ _ (bucket_at_run s Hs _ Hbv)), sreq_bind; [done|]. by apply Z.eqb_eq.
Qed.

(** The iterator after the entries before [ob] *)
Definition iterator_at (s : state) (i : Iterator) (ob : list Z) : Iterator :=
  match ob with [] => iterator_end i | c :: _ => MkIterator c (key (at_ s c)) end.

Lemma iterator_at_points s o l i ob : stands_for s o l -> (forall a, a ∈ ob -> a ∈ o) -> points s o ob (iterator_at s i ob).
Proof.
  intros H Ho. destruct ob as [|c ob]; [by apply points_end|]. apply points_at; [|by left|done].
  apply (ok_valid _ _ _ (sd_ok _ _ _ H)), Ho. left.
Qed.

Lemma ordered_links s oa b ob l :
  stands_for s (oa ++ b :: ob) l -> is_ordered (base s) = true -> iterate_next (at_ s b) = default IDX_NIL (head ob).
Proof.
  intros H Hord. by destruct (neighbours s oa b ob (t_owned _ _ _ (hk_table _ _ (sd_ok _ _ _ H))) Hord) as [_ ->].
Qed.

(** The iterator remembers the key of the entry to come next. If that entry moves
    one bucket back, the bucket it leaves is cleared, and its key reads as NULL:
    a NULL key must not come right after an entry that is removed. *)
Fixpoint null_safe (sel : Z -> bool) (l : list (Z * Z)) : Prop :=
  match l with
  | e :: l => match l with f :: _ => sel e.1 = true -> f.1 <> 0 | [] => True end /\ null_safe sel l
  | [] => True
  end.

Lemma iterate_ordered_run s oa ob l i :
  stands_for s (oa ++ ob) l -> is_ordered (base s) = true -> points s (oa ++ ob) ob i ->
  hashmap_iterate_entry i s =
  match ob with [] => (Ok (IDX_NIL, iterator_end i), s) | b :: ob' => (Ok (b, iterator_at s i ob'), s) end.
Proof.
  intros H Hord Hp. pose proof (hk_table _ _ (sd_ok _ _ _ H)) as Ht. pose proof (t_shaped _ _ _ Ht) as Hs.
  unfold hashmap_iterate_entry. rewrite hget_bind, Hord. unfold hashmap_iterate_in_insertion_order. rewrite hget_bind.
  destruct (ow_linked _ _ (t_owned _ _ _ Ht) Hord) as (_ & Hhead & _).
  assert (Hrest : forall b ob', ob = b :: ob' ->
    (e ← bucket_at b; if negb (iterate_next e =? IDX_NIL)
       then n ← bucket_at (iterate_next e); mret (b, MkIterator (iterate_next e) (key n))
       else mret (b, iterator_end i)) s = (Ok (b, iterator_at s i ob'), s)).
  { intros b ob' ->. assert (Hbv : valid (nb s) b) by (apply (ok_valid _ _ _ (sd_ok _ _ _ H)), elem_of_app; right; left).
    rewrite (stm_bind_run _ _ _ _ _ (bucket_at_run s Hs b Hbv)). rewrite (ordered_links s oa b ob' l H Hord).
    destruct ob' as [|c ob']; [done|]. change (default IDX_NIL (head (c :: ob'))) with c.
    assert (Hcv : valid (nb s) c) by (apply (ok_valid _ _ _ (sd_ok _ _ _ H)), elem_of_app; right; right; left).
    rewrite (proj2 (Z.eqb_neq c IDX_NIL)) by (by apply (valid_ne_swap s c)). cbn [negb].
    by rewrite (stm_bind_run _ _ _ _ _ (bucket_at_run s Hs c Hcv)). }
  inversion Hp as [Ho Hi|i' Hi Ho Hii|b ob' i' Hv Hb Hk Ho Hii]; subst.
  - assert (oa = []) as -> by (apply (f_equal length) in Ho; rewrite length_app in Ho; by destruct oa; [|cbn in Ho; lia]).
    cbn [app] in *. change (idx ITERATOR_FIRST) with IDX_FIRST. replace (IDX_FIRST =? IDX_NIL) with false by done.
    replace (IDX_FIRST =? IDX_FIRST) with true by done. cbn [orb andb]. rewrite Hhead.
    destruct ob as [|b ob']; [done|]. change (default IDX_NIL (head (b :: ob'))) with b.
    rewrite (proj2 (Z.eqb_neq b IDX_NIL)) by (apply (valid_ne_swap s b Hs), (ok_valid _ _ _ (sd_ok _ _ _ H)); left).
    cbn [orb andb]. rewrite (stm_bind_run (mret b) _ s b s eq_refl). by apply Hrest.
  - rewrite Hi. replace (IDX_NIL =? IDX_NIL) with true by done. done.
  - assert (Hin : b ∈ oa ++ b :: ob') by (apply elem_of_app; right; left).
    destruct (valid_ne_swap s (idx i) Hs Hv) as (_ & _ & E1 & E2).
    rewrite (proj2 (Z.eqb_neq _ _) E1), (proj2 (Z.eqb_neq _ _) E2). cbn [orb andb].
    rewrite (stm_bind_run _ _ s b s); [by apply Hrest|]. by apply (resume_run s _ l b i H Hv Hb Hin Hk).
Qed.

(** Removing the entry at hand: where the others go *)
Lemma remove_at s oa b ob l :
  stands_for s (oa ++ b :: ob) l ->
  exists s' r, internal_hashmap_remove (key (at_ s b)) s = (Ok (entry_value (base s) (at_ s b)), s') /\
    stands_for s' ((r <$> oa) ++ (r <$> ob)) (contents s (oa ++ ob)) /\ entry_calls s s' /\ nb s' = nb s /\
    (forall a, a ∈ oa ++ ob -> (r a = a \/ r a = prev (nb s) a) /\ kv s' (r a) = kv s a).
Proof.
  intros Hst. pose proof Hst as [H Hlaws Hc Hd]. pose proof (hk_table _ _ H) as Ht.
  assert (Hin : b ∈ oa ++ b :: ob) by (apply elem_of_app; right; left).
  assert (Hbk : holds_key s (key (at_ s b)) b).
  { split; [by apply (ok_valid s _ b H)|]. split; [|apply compare_refl].
    by apply (t_order _ _ _ Ht) in Hin as [[_ ?]|[[=] _]]. }
  destruct (scan_run s _ false (key (at_ s b)) Ht (hk_settled _ _ H) Hlaws) as (x & R & [[_ Hno]|[Hx Hne]]); [by destruct (Hno b)|].
  assert (x = b) as ->.
  { destruct Hx as (Hv & Hr & Hk). apply (distinct_index s _ l _ _ Hst); [|done|done]. apply (t_order _ _ _ Ht). by left. }
  destruct (base_remove_ok s oa b ob H) as (s' & r & R' & Hok & Hkv & Hec & N & Hr).
  exists s', r. split; [|split; [|split; [done|split; [done|]]]].
  - unfold internal_hashmap_remove. rewrite (stm_bind_run _ _ _ _ _ R), (proj2 (Z.eqb_neq _ _) Hne).
    rewrite (stm_bind_run _ _ _ _ _ (bucket_at_run s (t_shaped _ _ _ Ht) b ltac:(apply Hbk))), hget_bind.
    by rewrite (stm_bind_run _ _ _ _ _ R').
  - rewrite <- fmap_app. split; [done|by rewrite (ec_ops _ _ Hec)|by apply contents_same|].
    rewrite (ec_ops _ _ Hec). rewrite <- Hc, contents_app, contents_cons in Hd. rewrite contents_app. by apply distinct_remove in Hd.
  - intros a Ha. split; [by apply Hr|]. apply list_elem_of_lookup in Ha as [j Hj].
    pose proof (f_equal (fun l => l !! j) Hkv) as E. cbn in E. rewrite !list_lookup_fmap, Hj in E. by apply (inj Some) in E.
Qed.

Lemma contents_moved s s' (r : Z -> Z) ob :
  entry_calls s s' -> (forall a, a ∈ ob -> kv s' (r a) = kv s a) -> contents s' (r <$> ob) = contents s ob.
Proof.
  intros Hec Hkv. apply contents_same; [done|]. rewrite <- list_fmap_compose. apply list_fmap_ext.
  intros i a Ha%list_elem_of_lookup_2. cbn. auto.
Qed.

(** The body that removes the entries it selects *)
Definition remove_some (sel : Z -> bool) (e : Z * Z) : stm state unit :=
  if sel e.1 then internal_hashmap_remove e.1;; mret tt else mret tt.

Definition kept_entries (sel : Z -> bool) (l : list (Z * Z)) : list (Z * Z) := filter (fun e => sel e.1 = false) l.

Lemma foreach_loop sel m s oa ob l i :
  stands_for s (oa ++ ob) l -> is_ordered (base s) = true -> null_safe sel (contents s ob) -> points s (oa ++ ob) ob i -> (length ob < m)%nat ->
  exists s' o', hashmap_foreach m (remove_some sel) i s = (Ok (contents s ob), s') /\
    stands_for s' o' (contents s oa ++ kept_entries sel (contents s ob)) /\ entry_calls s s'.
Proof.
  revert s oa ob l i; induction m as [|m IH]; intros s oa ob l i H Hord Hnn Hp Hm; [lia|].
  pose proof (t_shaped _ _ _ (hk_table _ _ (sd_ok _ _ _ H))) as Hs.
  pose proof (iterate_ordered_run s oa ob l i H Hord Hp) as R.
  cbn [hashmap_foreach]. unfold internal_hashmap_iterate at 1. destruct ob as [|b ob].
  { exists s, (oa ++ []). split; [|split; [|done]].
    - rewrite stm_bind_eq, stm_bind_eq, R. done.
    - rewrite app_nil_r. destruct H as [H1 H2 H3 H4]. rewrite app_nil_r in H1, H3 |- *. split; try done. by rewrite H3. }
  assert (Hbv : valid (nb s) b) by (apply (ok_valid _ _ _ (sd_ok _ _ _ H)), elem_of_app; right; left).
  assert (R1 : ('(j, i0) ← hashmap_iterate_entry i; if j =? IDX_NIL then mret (None, i0) else
      e ← bucket_at j; h ← hget; mret (Some (key e, entry_value h e), i0)) s =
      (Ok (Some (key (at_ s b), entry_value (base s) (at_ s b)), iterator_at s i ob), s)).
  { rewrite (stm_bind_run _ _ _ _ _ R). rewrite (proj2 (Z.eqb_neq b IDX_NIL)) by (by apply (valid_ne_swap s b)).
    by rewrite (stm_bind_run _ _ _ _ _ (bucket_at_run s Hs b Hbv)). }
  rewrite (stm_bind_run _ _ _ _ _ R1). rewrite contents_cons.
  unfold kept_entries.
  rewrite contents_cons in Hnn. destruct Hnn as [Hnb Hn2].
  destruct (sel (key (at_ s b))) eqn:Esel.
  - destruct (remove_at s oa b ob l H) as (s1 & r & R2 & H1 & Hec & N & Hr).
    assert (Hca : contents s1 (r <$> oa) = contents s oa).
    { apply contents_moved; [done|]. intros a Ha. apply Hr, elem_of_app. by left. }
    assert (Hcb : contents s1 (r <$> ob) = contents s ob).
    { apply contents_moved; [done|]. intros a Ha. apply Hr, elem_of_app. by right. }
    destruct (IH s1 (r <$> oa) (r <$> ob) _ (iterator_at s i ob) H1) as (s' & o' & R' & H' & Hec').
    { unfold is_ordered. by rewrite (ec_type _ _ Hec). }
    { by rewrite Hcb. }
    { destruct ob as [|c ob]; [by apply points_end|]. rewrite fmap_cons.
      assert (Hcin : c ∈ oa ++ c :: ob) by (apply elem_of_app; right; left). destruct (Hr c Hcin) as [Hrc Hkc].
      apply points_at; cbn.
      - rewrite N. apply (ok_valid _ _ _ (sd_ok _ _ _ H)). apply elem_of_app. right. right. left.
      - rewrite N. unfold kv in Hkc. injection Hkc as -> _. destruct Hrc as [|Hrc]; [by left|right]. split; [done|].
        rewrite contents_cons in Hnb. by apply Hnb.
      - unfold kv in Hkc. by injection Hkc as -> _. }
    { rewrite length_fmap. cbn in Hm. lia. }
    exists s', o'. split; [|split; [|by etrans]].
    + rewrite (stm_bind_run _ _ _ tt s1); [rewrite (stm_bind_run _ _ _ _ _ R'); by rewrite Hcb|].
      unfold remove_some. cbn [fst]. rewrite Esel. by rewrite (stm_bind_run _ _ _ _ _ R2).
    + rewrite Hca, Hcb in H'. rewrite filter_cons_False by (cbn; by rewrite Esel). done.
  - assert (H2 : stands_for s ((oa ++ [b]) ++ ob) l) by (by rewrite <- app_assoc).
    destruct (IH s (oa ++ [b]) ob l (iterator_at s i ob) H2 Hord Hn2) as (s' & o' & R' & H' & Hec').
    { eapply iterator_at_points; [done|]. intros a Ha. apply elem_of_app. by right. }
    { cbn in Hm. lia. }
    exists s', o'. split; [|split; [|done]].
    + rewrite (stm_bind_run _ _ _ tt s); [by rewrite (stm_bind_run _ _ _ _ _ R')|].
      unfold remove_some. cbn [fst]. by rewrite Esel.
    + rewrite contents_app, contents_cons, <- app_assoc in H'. rewrite filter_cons_True by done. done.
Qed.

(** C35. HASHMAP_FOREACH over an ordered map with a body that removes any of the
    entries it is given, provided that no entry with the key NULL comes right
    after one that is removed: the body runs once for each entry, in the order of
    insertion, and what is left are the entries it did not remove. *)
Theorem ordered_foreach_removes sel s o l :
  stands_for s o l -> type (base s) = HASHMAP_TYPE_ORDERED -> null_safe sel l ->
  exists s' o', hashmap_foreach (S (length l)) (remove_some sel) ITERATOR_FIRST s = (Ok l, s') /\
    stands_for s' o' (kept_entries sel l).
Proof.
  intros H Hord Hnn. assert (length o = length l) as Hl by (rewrite <- (sd_contents _ _ _ H); unfold contents; by rewrite !length_fmap).
  destruct (foreach_loop sel (S (length l)) s [] o l ITERATOR_FIRST H) as (s' & o' & R & H' & _).
  - unfold is_ordered. by rewrite Hord.
  - by rewrite (sd_contents _ _ _ H).
  - apply points_first.
  - lia.
  - exists s', o'. rewrite (sd_contents _ _ _ H) in *. done.
Qed.

(** ** In the order of the buckets *)

(** The buckets in use from [j] on *)
Definition used_from (s : state) (j : Z) : list Z := filter (fun i => raw s i <> DIB_RAW_FREE) (seqZ j (nb s - j)).

Lemma used_from_skip s j :
  shaped s -> 0 <= j ->
  skip_free_buckets (base s) j = default IDX_NIL (head (used_from s j)) /\
  match used_from s j with
  | [] => True
  | c :: u => valid (nb s) c /\ j <= c /\ raw s c <> DIB_RAW_FREE /\ u = used_from s (c + 1)
  end.
Proof.
  intros Hs Hj. unfold used_from at 1 2.
  destruct (skip_free_buckets_spec s j Hs Hj) as [[E H]|(Hv & Hle & Hr & H)].
  - assert (filter (fun i => raw s i <> DIB_RAW_FREE) (seqZ j (nb s - j)) = []) as ->; [|done].
    apply filter_nil_iff || idtac. destruct (filter _ _) as [|a u] eqn:Ef; [done|]. exfalso.
    assert (Ha : a ∈ a :: u) by left. rewrite <- Ef in Ha. apply list_elem_of_filter in Ha as [Ha1 Ha2%elem_of_seqZ].
    apply Ha1, H; [unfold valid; lia|lia].
  - set (c := skip_free_buckets (base s) j) in *. unfold valid in Hv.
    assert (filter (fun i => raw s i <> DIB_RAW_FREE) (seqZ j (nb s - j)) = c :: used_from s (c + 1)) as ->; [|by split].
    replace (nb s - j) with ((c - j) + (1 + (nb s - (c + 1)))) by lia.
    rewrite seqZ_app by lia. replace (j + (c - j)) with c by lia. rewrite seqZ_app by lia.
    rewrite !filter_app. replace (filter _ (seqZ j (c - j))) with (@nil Z).
    + rewrite (seqZ_cons c 1), (seqZ_nil (Z.succ c)) by lia. rewrite filter_cons_True by done. done.
    + destruct (filter _ (seqZ j _)) as [|a u] eqn:Ef; [done|]. exfalso.
      assert (Ha : a ∈ a :: u) by left. rewrite <- Ef in Ha. apply list_elem_of_filter in Ha as [Ha1 Ha2%elem_of_seqZ].
      apply Ha1, H. lia.
Qed.

Lemma used_from_same s w :
  shaped s -> 0 <= w -> (forall i, 0 <= i < w -> raw s i = DIB_RAW_FREE) -> used_from s w = used_from s 0.
Proof.
  intros Hs Hw Hf. unfold used_from. pose proof (sh_pos _ Hs) as Hp.
  assert (Hempty : forall n, n <= w -> filter (fun i => raw s i <> DIB_RAW_FREE) (seqZ 0 n) = []).
  { intros n Hn. destruct (filter _ (seqZ 0 n)) as [|a u] eqn:E; [done|]. exfalso.
    assert (Ha : a ∈ a :: u) by left. rewrite <- E in Ha. apply list_elem_of_filter in Ha as [Ha1 Ha2%elem_of_seqZ].
    apply Ha1, Hf. lia. }
  destruct (Z.le_gt_cases w (nb s)) as [Hle|Hgt].
  - replace (nb s - 0) with (w + (nb s - w)) by lia. rewrite seqZ_app by lia. by rewrite filter_app, Hempty by lia.
  - rewrite (seqZ_nil w) by lia. by rewrite Hempty by lia.
Qed.

Lemma used_all_from s o : hashmap_ok s o -> used_from s 0 ≡ₚ o.
Proof.
  intros H. apply NoDup_Permutation; [apply NoDup_filter, NoDup_seqZ|apply (t_owned _ _ _ (hk_table _ _ H))|].
  intros i. unfold used_from. rewrite list_elem_of_filter, elem_of_seqZ, (t_order _ _ _ (hk_table _ _ H)). unfold valid.
  split; [intros [Hr Hi]; left; split; [lia|done]|]. intros [[Hi Hr]|[[=] _]]. split; [done|lia].
Qed.

(** Iterating from [i] gives these buckets one after the other. *)
Fixpoint yields (s : state) (i : Iterator) (ul : list Z) : Prop :=
  match ul with
  | [] => exists i', hashmap_iterate_entry i s = (Ok (IDX_NIL, i'), s)
  | b :: ul => exists i', hashmap_iterate_entry i s = (Ok (b, i'), s) /\ yields s i' ul
  end.

Lemma ordered_yields s oa ob l i :
  stands_for s (oa ++ ob) l -> is_ordered (base s) = true -> points s (oa ++ ob) ob i -> yields s i ob.
Proof.
  revert oa i; induction ob as [|b ob IH]; intros oa i H Hord Hp;
    pose proof (iterate_ordered_run s oa _ l i H Hord Hp) as R; cbn; [eexists; exact R|].
  eexists. split; [exact R|]. apply (IH (oa ++ [b])); [by rewrite <- app_assoc|done|].
  rewrite <- app_assoc. eapply iterator_at_points; [done|]. intros a Ha. apply elem_of_app. right. by right.
Qed.

(** After a bucket, [hashmap_iterate_in_internal_order] looks for the next one. *)
Lemma internal_tail s i j :
  shaped s -> valid (nb s) j ->
  (if j =? IDX_NIL then mret (IDX_NIL, iterator_end i)
   else h ← hget;
        let n := skip_free_buckets h (j + 1) in
        if negb (n =? IDX_NIL) then e ← bucket_at n; mret (j, MkIterator n (key e)) else mret (j, iterator_end i)) s =
  (Ok (j, iterator_at s i (used_from s (j + 1))), s).
Proof.
  intros Hs Hj. rewrite (proj2 (Z.eqb_neq j IDX_NIL)) by (by apply (valid_ne_swap s j)). rewrite hget_bind. cbv zeta.
  unfold valid in Hj. destruct (used_from_skip s (j + 1) Hs ltac:(lia)) as [-> Hu].
  destruct (used_from s (j + 1)) as [|c u]; [done|]. change (default IDX_NIL (head (c :: u))) with c.
  destruct Hu as (Hc & _). rewrite (proj2 (Z.eqb_neq c IDX_NIL)) by (by apply (valid_ne_swap s c)). cbn [negb].
  by rewrite (stm_bind_run _ _ _ _ _ (bucket_at_run s Hs c Hc)).
Qed.

Lemma internal_yields m s j i :
  shaped s -> is_ordered (base s) = false -> 0 < j -> (length (used_from s j) <= m)%nat ->
  yields s (iterator_at s i (used_from s j)) (used_from s j).
Proof.
  intros Hs Hord. revert j i; induction m as [|m IH]; intros j i Hj Hm.
  - destruct (used_from s j); [|cbn in Hm; lia]. eexists. unfold hashmap_iterate_entry. by rewrite hget_bind, Hord.
  - destruct (used_from_skip s j Hs ltac:(lia)) as [_ Hu]. destruct (used_from s j) as [|c u] eqn:E; cbn [length] in Hm.
    { eexists. unfold hashmap_iterate_entry. by rewrite hget_bind, Hord. }
    destruct Hu as (Hc & Hjc & Hr & ->). cbn [yields iterator_at]. exists (iterator_at s (MkIterator c (key (at_ s c))) (used_from s (c + 1))).
    split; [|apply IH; [lia|lia]].
    unfold hashmap_iterate_entry. rewrite hget_bind, Hord. unfold hashmap_iterate_in_internal_order. cbn [idx next_key].
    destruct (valid_ne_swap s c Hs Hc) as (_ & _ & E1 & E2). rewrite (proj2 (Z.eqb_neq _ _) E1), hget_bind.
    rewrite (proj2 (Z.eqb_neq _ _) E2). rewrite (stm_bind_run _ _ s c s); [by apply internal_tail|].
    rewrite sreq_bind by (apply Z.ltb_lt; lia). unfold resume. cbn [idx next_key].
    rewrite (stm_bind_run _ _ _ _ _ (bucket_at_run s Hs c Hc)), hget_bind, Z.eqb_refl. cbn [negb].
    rewrite (stm_bind_run _ _ _ _ _ (bucket_at_run s Hs c Hc)), sreq_bind; [done|]. apply Z.eqb_refl.
Qed.

(** The mark of the lowest entry moves up to it. *)
Lemma set_lowest_ok s o l v :
  stands_for s o l -> (forall i, valid (nb s) i -> raw s i <> DIB_RAW_FREE -> v <= i) -> 0 <= v ->
  let s' := set_base (set_lowest v (base s)) s in
  stands_for s' o l /\ entry_calls s s' /\ nb s' = nb s /\ (forall i, at_ s' i = at_ s i) /\ (forall i, raw s' i = raw s i).
Proof.
  intros [H Hlaws Hc Hd] Hv Hv0 s'. pose proof (hk_table _ _ H) as Ht.
  assert (A : alike s s') by (unfold s', set_lowest; destruct (store (base s)) eqn:E; [done|]; split; cbn; by rewrite ?E).
  pose proof (alike_n _ _ A) as N.
  assert (Hat : forall i, at_ s' i = at_ s i) by (intros i; unfold s', set_lowest, at_; by destruct (store (base s))).
  assert (Hraw : forall i, raw s' i = raw s i) by (intros i; unfold s', set_lowest, raw; by destruct (store (base s))).
  assert (Hends : iterate_list_head (base s') = iterate_list_head (base s) /\ iterate_list_tail (base s') = iterate_list_tail (base s))
    by (unfold s', set_lowest; by destruct (store (base s))).
  assert (Hho : forall i, homes s' i = homes s i) by (intros i; unfold homes, home; by rewrite Hraw, (alike_hash _ _ _ A), Hat).
  assert (Hec : entry_calls s s') by (split; apply A).
  split; [|done]. split; [|by rewrite (ec_ops _ _ Hec)| |by rewrite (ec_ops _ _ Hec)].
  - split.
    + split.
      * apply (alike_shaped s); [done|apply Ht].
      * apply (alike_owned s); [done..|apply Hends|apply Hends|apply Ht].
      * intros a. rewrite N, Hraw. apply Ht.
      * intros i. rewrite N, Hraw. unfold home. rewrite (alike_hash _ _ _ A), Hat. apply Ht.
      * rewrite N. eapply robin_hood_ext; [apply (sh_pos _ (t_shaped _ _ _ Ht))|intros i Hi; apply Hho|apply Ht].
      * intros i Hi. rewrite N in Hi. rewrite Hraw. intros Hr. unfold s', set_lowest, idx_lowest_entry. cbn.
        destruct (store (base s)) eqn:E; cbn; [rewrite E; unfold valid in Hi; lia|auto].
      * intros i. rewrite N, Hraw, Hat. apply Ht.
      * unfold s', set_lowest, idx_lowest_entry. cbn. destruct (store (base s)) eqn:E; cbn; by rewrite ?E.
    + intros i. rewrite N, Hraw. apply H.
    + rewrite N. eapply slack_ext; [intros i Hi; apply Hho|apply H].
    + rewrite (alike_entries _ _ A). apply H.
    + apply (core_sized (base s)); [apply A|apply A|apply H].
  - rewrite <- Hc. apply contents_same; [done|]. apply list_fmap_ext. intros i a _. unfold kv. by rewrite Hat.
Qed.

(** The first round, on any kind of map *)
Lemma iterate_first s o l :
  stands_for s o l ->
  exists s1 ul, stands_for s1 o l /\ entry_calls s s1 /\ nb s1 = nb s /\ (forall i, at_ s1 i = at_ s i) /\
    ul ≡ₚ o /\ (is_ordered (base s) = true -> ul = o) /\
    match ul with
    | [] => exists i', hashmap_iterate_entry ITERATOR_FIRST s = (Ok (IDX_NIL, i'), s1)
    | b :: ul' => exists i', hashmap_iterate_entry ITERATOR_FIRST s = (Ok (b, i'), s1) /\ yields s1 i' ul'
    end.
Proof.
  intros H. pose proof (hk_table _ _ (sd_ok _ _ _ H)) as Ht. pose proof (t_shaped _ _ _ Ht) as Hs.
  destruct (is_ordered (base s)) eqn:Hord.
  { exists s, o. do 6 (split; [done|]).
    pose proof (ordered_yields s [] o l ITERATOR_FIRST H Hord (points_first s o)) as Hy. by destruct o. }
  pose proof (t_low0 _ _ _ Ht) as Hl0. set (w := idx_lowest_entry (base s)) in *.
  assert (Hlow : used_from s w = used_from s 0).
  { apply used_from_same; [done|done|]. intros i Hi. destruct (Z.eq_dec (raw s i) DIB_RAW_FREE) as [|Hne]; [done|].
    destruct (decide (valid (nb s) i)) as [Hv|Hv]; [pose proof (t_lowest _ _ _ Ht i Hv Hne); unfold w in *; lia|].
    unfold raw, nthZ. rewrite (proj2 (Z.ltb_ge i 0)) by lia. rewrite lookup_ge_None_2; [done|].
    rewrite (sh_dibs _ Hs). unfold valid in Hv. lia. }
  destruct (used_from_skip s w Hs Hl0) as [Esk Hu]. rewrite Hlow in Esk, Hu.
  set (j := skip_free_buckets (base s) w) in *. set (s1 := set_base (set_lowest j (base s)) s).
  assert (Hj : forall i, valid (nb s) i -> raw s i <> DIB_RAW_FREE -> j <= i).
  { intros i Hi Hr. destruct (skip_free_buckets_spec s w Hs Hl0) as [[_ Hf]|(_ & _ & _ & Hf)].
    - exfalso. apply Hr, Hf; [done|]. by apply (t_lowest _ _ _ Ht).
    - fold j in Hf. destruct (Z.le_gt_cases j i) as [|Hlt]; [done|]. exfalso. apply Hr, Hf. split; [|done].
      by apply (t_lowest _ _ _ Ht). }
  assert (Hj0 : 0 <= j).
  { rewrite Esk. destruct (used_from s 0) as [|c u]; [done|]. destruct Hu as ([? _] & _). done. }
  destruct (set_lowest_ok s o l j H Hj Hj0) as (H1 & Hec & N & Hat & Hraw). fold s1 in H1, Hec, N, Hat, Hraw.
  pose proof (t_shaped _ _ _ (hk_table _ _ (sd_ok _ _ _ H1))) as Hs1.
  exists s1, (used_from s 0). split; [done|]. split; [done|]. split; [done|]. split; [done|].
  split; [by apply used_all_from, (sd_ok _ _ _ H)|]. split; [done|].
  unfold hashmap_iterate_entry. rewrite hget_bind, Hord. unfold hashmap_iterate_in_internal_order.
  replace (idx ITERATOR_FIRST =? IDX_NIL) with false by done. replace (idx ITERATOR_FIRST =? IDX_FIRST) with true by done.
  rewrite hget_bind. fold w. cbv zeta. fold j. rewrite (stm_bind_run _ _ s j s1) by done. rewrite Esk.
  assert (Hord1 : is_ordered (base s1) = false) by (unfold is_ordered; by rewrite (ec_type _ _ Hec)).
  destruct (used_from s 0) as [|c u]; [by eexists|]. change (default IDX_NIL (head (c :: u))) with c.
  destruct Hu as (Hc & Hc0 & _ & ->).
  assert (Hsame : used_from s (c + 1) = used_from s1 (c + 1)).
  { unfold used_from. rewrite N. apply list_filter_iff. intros i. by rewrite Hraw. }
  rewrite Hsame. eexists. split; [apply internal_tail; [done|by rewrite N]|].
  by eapply internal_yields; [| |lia|].
Qed.

(** ** All entries, and the first *)
Lemma collect_run m s i ul :
  shaped s -> yields s i ul -> (forall a, a ∈ ul -> valid (nb s) a) -> (length ul < m)%nat ->
  collect m i s = (Ok (snd <$> contents s ul), s).
Proof.
  intros Hs. revert i ul; induction m as [|m IH]; intros i ul Hy Hv Hm; [lia|]. cbn [collect].
  destruct ul as [|b ul]; destruct Hy as (i' & R); [by rewrite (stm_bind_run _ _ _ _ _ R)|]. destruct R as [R Hy].
  rewrite (stm_bind_run _ _ _ _ _ R). assert (Hb : valid (nb s) b) by (apply Hv; left).
  rewrite (proj2 (Z.eqb_neq b IDX_NIL)) by (by apply (valid_ne_swap s b)).
  rewrite (stm_bind_run _ _ _ _ _ (bucket_at_run s Hs b Hb)), hget_bind.
  rewrite (stm_bind_run _ _ _ _ _ (IH i' ul Hy ltac:(intros a Ha; apply Hv; by right) ltac:(cbn in Hm; lia))).
  by rewrite contents_cons.
Qed.

Lemma contents_at s s1 o : entry_calls s s1 -> (forall i, at_ s1 i = at_ s i) -> contents s1 o = contents s o.
Proof. intros Hec Hat. apply contents_same; [done|]. apply list_fmap_ext. intros i a _. unfold kv. by rewrite Hat. Qed.

Theorem strv_spec s o l :
  stands_for s o l ->
  exists s1 vs, internal_hashmap_get_strv s = (Ok vs, s1) /\ Permutation vs (snd <$> l) /\ (type (base s) = HASHMAP_TYPE_ORDERED -> vs = snd <$> l) /\
    stands_for s1 o l /\ entry_calls s s1.
Proof.
  intros H. destruct (iterate_first s o l H) as (s1 & ul & H1 & Hec & N & Hat & Hperm & Hord & Hy).
  pose proof (t_shaped _ _ _ (hk_table _ _ (sd_ok _ _ _ H1))) as Hs1.
  assert (Hv : forall a, a ∈ ul -> valid (nb s1) a) by (intros a Ha; apply (ok_valid _ _ _ (sd_ok _ _ _ H1)); by rewrite <- Hperm).
  pose proof (order_length _ _ (hk_table _ _ (sd_ok _ _ _ H1))) as Hlen. rewrite <- (Permutation_length Hperm), N in Hlen.
  exists s1, (snd <$> contents s1 ul). split; [|split; [|split; [|done]]].
  - unfold internal_hashmap_get_strv. rewrite hget_bind. destruct ul as [|b ul]; destruct Hy as (i' & R).
    + cbn [collect]. by rewrite (stm_bind_run _ _ _ _ _ R).
    + destruct R as [R Hy]. cbn [collect]. rewrite (stm_bind_run _ _ _ _ _ R). assert (Hb : valid (nb s1) b) by (apply Hv; left).
      rewrite (proj2 (Z.eqb_neq b IDX_NIL)) by (by apply (valid_ne_swap s1 b)).
      rewrite (stm_bind_run _ _ _ _ _ (bucket_at_run s1 Hs1 b Hb)), hget_bind.
      rewrite (stm_bind_run _ _ _ _ _ (collect_run (Z.to_nat (nb s)) s1 i' ul Hs1 Hy ltac:(intros a Ha; apply Hv; by right) ltac:(cbn [length] in Hlen; lia))).
      by rewrite contents_cons.
  - rewrite (contents_at s s1), <- (sd_contents _ _ _ H) by done. unfold contents. by rewrite Hperm.
  - intros Ht. rewrite (contents_at s s1), <- (sd_contents _ _ _ H) by done. rewrite Hord; [done|]. unfold is_ordered. by rewrite Ht.
Qed.

Theorem first_spec rm s o l :
  stands_for s o l ->
  match l with
  | [] => internal_hashmap_first_key_and_value rm s = (Ok None, s)
  | e0 :: _ => exists e s' o', internal_hashmap_first_key_and_value rm s = (Ok (Some e), s') /\ e ∈ l /\
      (type (base s) = HASHMAP_TYPE_ORDERED -> e = e0) /\
      stands_for s' o' (if rm then remove_key (cmp s) e.1 l else l) /\ entry_calls s s'
  end.
Proof.
  intros H. pose proof (hk_count _ _ (sd_ok _ _ _ H)) as Hcnt. pose proof (sd_contents _ _ _ H) as Hc.
  unfold internal_hashmap_first_key_and_value, find_first_entry. destruct l as [|e0 l].
  { assert (o = []) as -> by (destruct o; [done|by unfold contents in Hc]).
    rewrite stm_bind_eq, hget_bind, Hcnt. done. }
  destruct o as [|a0 o]; [done|]. destruct (iterate_first s _ _ H) as (s1 & ul & H1 & Hec & N & Hat & Hperm & Hord & Hy).
  destruct ul as [|b ul]; [by apply Permutation_nil_cons in Hperm|]. destruct Hy as (i' & R & _).
  assert (Hin : b ∈ a0 :: o) by (rewrite <- Hperm; left).
  pose proof (ok_valid _ _ _ (sd_ok _ _ _ H1) Hin) as Hb.
  pose proof (t_shaped _ _ _ (hk_table _ _ (sd_ok _ _ _ H1))) as Hs1.
  set (e := (key (at_ s1 b), entry_value (base s1) (at_ s1 b))).
  assert (Hel : e ∈ e0 :: l).
  { rewrite <- (sd_contents _ _ _ H1). unfold contents, e. rewrite <- shown_value. by do 2 apply list_elem_of_fmap_2. }
  assert (Hfirst : type (base s) = HASHMAP_TYPE_ORDERED -> e = e0).
  { intros Ht. assert (b :: ul = a0 :: o) as [= -> ->] by (apply Hord; unfold is_ordered; by rewrite Ht).
    pose proof (sd_contents _ _ _ H1) as Hc1. rewrite contents_cons in Hc1. by injection Hc1 as <- _. }
  assert (Hrun : forall (k : Z -> stm state (option (Z * Z))), ((h ← hget; if n_entries h =? 0 then mret IDX_NIL
      else '(j, _) ← hashmap_iterate_entry ITERATOR_FIRST; mret j) ≫= k) s = k b s1).
  { intros k. rewrite stm_bind_eq, hget_bind, Hcnt. cbn [length]. rewrite (proj2 (Z.eqb_neq _ 0)) by lia.
    by rewrite (stm_bind_run _ _ _ _ _ R). }
  rewrite Hrun, (proj2 (Z.eqb_neq b IDX_NIL)) by (by apply (valid_ne_swap s1 b)).
  rewrite (stm_bind_run _ _ _ _ _ (bucket_at_run s1 Hs1 b Hb)), hget_bind. fold e. destruct rm.
  2:{ exists e, s1, (a0 :: o). by rewrite (stm_bind_run (mret tt) _ s1 tt s1 eq_refl). }
  pose proof Hin as (o1 & o2 & Eo)%list_elem_of_split. rewrite Eo in H1.
  destruct (base_remove_ok s1 o1 b o2 (sd_ok _ _ _ H1)) as (s' & r & R' & Hok & Hkv & Hec' & _ & _).
  exists e, s', (r <$> (o1 ++ o2)). rewrite (stm_bind_run _ _ _ _ _ R'). split; [done|]. split; [done|]. split; [done|].
  pose proof (sd_distinct _ _ _ H1) as Hd1. pose proof (sd_contents _ _ _ H1) as Hc1. pose proof (sd_laws _ _ _ H1) as Hlaws.
  rewrite <- Hc1, contents_app, contents_cons in Hd1.
  destruct (lookup_split _ Hlaws e.1 _ _ _ Hd1 (compare_refl _)) as [_ Hrem].
  split; [|by etrans].
  rewrite <- (ec_ops _ _ Hec), <- Hc1, contents_app, contents_cons, Hrem.
  split; [done|by rewrite (ec_ops _ _ Hec')|rewrite <- contents_app; by apply contents_same|].
  rewrite (ec_ops _ _ Hec'). by apply distinct_remove in Hd1.
Qed.
