(* ===== verification/HashFuncs.v ===== *)
(** * Hash functions ([src/basic/hash-funcs.c], [path_compare] of [src/basic/path-util.c])

    The keys are pointers: what is behind them, a string or a number, is an
    argument of the [hash_ops]. Each comparison is an equivalence that the hash
    function respects. *)
From S2P Require Import Prelude Siphash Hashmap HashProbe.

(** ** Comparing *)
(** [memcmp] over the bytes both have; only the sign counts. *)
Fixpoint memcmp (a b : list Z) : Z :=
  match a, b with
  | x :: a, y :: b => if x =? y then memcmp a b else CMP x y
  | _, _ => 0
  end.

(** [strcmp] on the bytes before the NUL *)
Fixpoint strcmp (a b : list Z) : Z :=
  match a, b with
  | [], [] => 0
  | [], _ :: _ => -1
  | _ :: _, [] => 1
  | x :: a, y :: b => if x =? y then strcmp a b else CMP x y
  end.

Definition SLASH : Z := 47.

(** [p + strspn(p, "/")]; the first [strcspn(p, "/")] bytes of [p], and the rest *)
Fixpoint skip_slashes (p : list Z) : list Z :=
  match p with
  | [] => []
  | c :: p' => if c =? SLASH then skip_slashes p' else p
  end.

Fixpoint component (p : list Z) : list Z :=
  match p with
  | [] => []
  | c :: p' => if c =? SLASH then [] else c :: component p'
  end.

Definition after_component (p : list Z) : list Z := drop (length (component p)) p.

Definition is_absolute (p : list Z) : bool := match p with c :: _ => c =? SLASH | [] => false end.

(** One round of [fuel] for each component *)
Fixpoint path_compare_loop (fuel : nat) (a b : list Z) : Z :=
  match fuel with
  | O => 0
  | S fuel =>
      let a := skip_slashes a in
      let b := skip_slashes b in
      match a, b with
      | [], [] => 0
      | [], _ => -1
      | _, [] => 1
      | _, _ =>
          let ca := component a in
          let cb := component b in
          let d := memcmp ca cb in
          if negb (d =? 0) then Z.b2z (0 <? d) - Z.b2z (d <? 0)
          else
            let d := Z.b2z (zlen cb <? zlen ca) - Z.b2z (zlen ca <? zlen cb) in
            if negb (d =? 0) then d
            else path_compare_loop fuel (after_component a) (after_component b)
      end
  end.

Definition path_compare (a b : list Z) : Z :=
  let d := Z.b2z (is_absolute a) - Z.b2z (is_absolute b) in
  if negb (d =? 0) then d
  else path_compare_loop (S (length a + length b)) a b.

(** ** Hashing *)
Fixpoint path_hash_loop (fuel : nat) (q : list Z) (st : siphash) : siphash :=
  match fuel with
  | O => st
  | S fuel =>
      let c := component q in
      match c with
      | [] => st
      | _ =>
          let st := siphash24_compress c st in
          let q := after_component q in
          match skip_slashes q with
          | [] => st
          | q' => path_hash_loop fuel q' (siphash24_compress [SLASH] st)
          end
      end
  end.

Definition path_hash_func (p : list Z) (st : siphash) : siphash :=
  if is_absolute p
  then path_hash_loop (S (length p)) (skip_slashes p) (siphash24_compress [SLASH] st)
  else path_hash_loop (S (length p)) p st.

Definition string_hash_func (p : list Z) (st : siphash) : siphash := siphash24_compress (p ++ [0]) st.

Definition trivial_hash_func (p : Z) (st : siphash) : siphash := siphash24_compress (le_bytes 8 p) st.

Definition uint64_hash_func (v : Z) (st : siphash) : siphash := siphash24_compress (le_bytes 8 v) st.

(** [str] gives the string a pointer means, [mem] the number. *)
Definition string_hash_ops (str : Z -> list Z) : hash_ops :=
  HashOps (fun p => string_hash_func (str p)) (fun a b => strcmp (str a) (str b)).

Definition path_hash_ops (str : Z -> list Z) : hash_ops :=
  HashOps (fun p => path_hash_func (str p)) (fun a b => path_compare (str a) (str b)).

Definition trivial_hash_ops : hash_ops := HashOps trivial_hash_func CMP.

Definition uint64_hash_ops (mem : Z -> Z) : hash_ops :=
  HashOps (fun p => uint64_hash_func (mem p)) (fun a b => CMP (mem a) (mem b)).

(** ** Equal keys are equal *)
Lemma strcmp_eq a b : strcmp a b = 0 <-> a = b.
Proof.
  revert b; induction a as [|x a IH]; intros [|y b]; cbn; try done. destruct (Z.eqb_spec x y) as [->|Hne].
  - rewrite IH. split; [by intros ->|by intros [= ->]].
  - rewrite CMP_eq. split; [done|by intros [= ->]].
Qed.

(** A comparison that is equality of what the keys stand for, and a hash function
    of that *)
Lemma kernel_laws {A} (f : Z -> A) o :
  (forall a b, compare o a b = 0 <-> f a = f b) ->
  (forall a b st, f a = f b -> hash o a st = hash o b st) -> HashLaws o.
Proof.
  intros Hc Hh. split.
  - intros a. by apply Hc.
  - intros a b H%Hc. by apply Hc.
  - intros a b c H1%Hc H2%Hc. apply Hc. congruence.
  - intros a b st H%Hc. by apply Hh.
Qed.

#[export] Instance trivial_laws : HashLaws trivial_hash_ops.
Proof. apply (kernel_laws (fun p => p)); [apply CMP_eq|]. by intros a b st ->. Qed.

#[export] Instance uint64_laws mem : HashLaws (uint64_hash_ops mem).
Proof. apply (kernel_laws mem); [intros; apply CMP_eq|]. intros a b st H. cbn. by rewrite H. Qed.

#[export] Instance string_laws str : HashLaws (string_hash_ops str).
Proof. apply (kernel_laws str); [intros; apply strcmp_eq|]. intros a b st H. cbn. by rewrite H. Qed.

(** ** The elements of a path *)
Fixpoint split_slash (p : list Z) : list (list Z) :=
  match p with
  | [] => [[]]
  | c :: p' =>
      if c =? SLASH then [] :: split_slash p'
      else match split_slash p' with x :: r => (c :: x) :: r | [] => [[c]] end
  end.

(** What is between the slashes, without the empty pieces *)
Definition path_elements (p : list Z) : list (list Z) := filter (fun x => x <> []) (split_slash p).

Lemma split_head p : exists r, split_slash p = component p :: r.
Proof.
  induction p as [|c p [r IH]]; [by exists []|]. cbn. destruct (c =? SLASH); [by eexists|]. rewrite IH. by eexists.
Qed.

Lemma skip_elements p : path_elements (skip_slashes p) = path_elements p.
Proof. induction p as [|c p IH]; [done|]. cbn [skip_slashes]. destruct (c =? SLASH) eqn:E; [|done]. rewrite IH. unfold path_elements. cbn. by rewrite E. Qed.

Lemma skip_length p : (length (skip_slashes p) <= length p)%nat.
Proof. induction p as [|c p IH]; [done|]. cbn. destruct (c =? SLASH); cbn; lia. Qed.

Lemma skip_head c p p' : skip_slashes p = c :: p' -> c <> SLASH.
Proof.
  induction p as [|d p IH]; [done|]. cbn. destruct (Z.eqb_spec d SLASH) as [|Hne]; [done|]. by intros [= -> ->].
Qed.

Lemma component_elements c p :
  c <> SLASH -> path_elements (c :: p) = component (c :: p) :: path_elements (after_component (c :: p)).
Proof.
  intros Hc. unfold path_elements, after_component.
  assert (H : forall q, exists r, split_slash q = component q :: r /\
    filter (fun x => x <> []) r = filter (fun x => x <> []) (split_slash (drop (length (component q)) q))).
  { induction q as [|d q (r & IH & E)]; [by exists []|]. cbn. destruct (d =? SLASH) eqn:Ed; cbn.
    - exists (split_slash q). split; [done|]. by rewrite Ed.
    - rewrite IH. exists r. by split. }
  destruct (H (c :: p)) as (r & -> & <-). cbn [component]. rewrite (proj2 (Z.eqb_neq _ _) Hc). done.
Qed.

Lemma after_length c p : c <> SLASH -> (length (after_component (c :: p)) < length (c :: p))%nat.
Proof. intros Hc. unfold after_component. cbn. rewrite (proj2 (Z.eqb_neq _ _) Hc). rewrite length_drop. cbn. lia. Qed.

Lemma memcmp_eq a b : length a = length b -> memcmp a b = 0 -> a = b.
Proof.
  revert b; induction a as [|x a IH]; intros [|y b] Hl; cbn; try done. destruct (Z.eqb_spec x y) as [->|Hne].
  - intros H. f_equal. apply IH; [cbn in Hl; lia|done].
  - intros ->%CMP_eq. done.
Qed.

Lemma memcmp_refl a : memcmp a a = 0.
Proof. induction a as [|x a IH]; [done|]. cbn. by rewrite Z.eqb_refl. Qed.

Lemma path_compare_loop_eq fuel a b :
  (length a + length b < fuel)%nat -> path_compare_loop fuel a b = 0 <-> path_elements a = path_elements b.
Proof.
  revert a b; induction fuel as [|fuel IH]; intros a b Hf; [lia|]. cbn [path_compare_loop].
  rewrite <- (skip_elements a), <- (skip_elements b).
  pose proof (skip_length a) as Ha. pose proof (skip_length b) as Hb.
  destruct (skip_slashes a) as [|x a'] eqn:Ea, (skip_slashes b) as [|y b'] eqn:Eb.
  - done.
  - apply skip_head in Eb. by rewrite component_elements.
  - apply skip_head in Ea. by rewrite component_elements.
  - apply skip_head in Ea, Eb. rewrite !component_elements by done. cbv zeta.
    pose proof (after_length x a' Ea). pose proof (after_length y b' Eb).
    generalize dependent (component (x :: a')). intros ca. generalize dependent (component (y :: b')). intros cb.
    assert (Hd : zlen cb <> zlen ca -> Z.b2z (zlen cb <? zlen ca) - Z.b2z (zlen ca <? zlen cb) <> 0).
    { destruct (Z.ltb_spec (zlen cb) (zlen ca)), (Z.ltb_spec (zlen ca) (zlen cb)); cbn [Z.b2z]; lia. }
    assert (Hm : memcmp ca cb <> 0 -> Z.b2z (0 <? memcmp ca cb) - Z.b2z (memcmp ca cb <? 0) <> 0).
    { destruct (Z.ltb_spec 0 (memcmp ca cb)), (Z.ltb_spec (memcmp ca cb) 0); cbn [Z.b2z]; lia. }
    destruct (Z.eqb_spec (memcmp ca cb) 0) as [E|E]; cbn [negb].
    + destruct (Z.eq_dec (zlen cb) (zlen ca)) as [El|El].
      * rewrite El, Z.sub_diag. cbn [negb Z.eqb]. rewrite IH by lia. split; [|by intros [= _ ->]]. intros ->. f_equal.
        apply memcmp_eq; [unfold zlen in *; lia|done].
      * rewrite (proj2 (Z.eqb_neq _ 0)) by auto. cbn [negb]. split; [intros; by destruct (Hd El)|]. by intros [= Ec _]; rewrite Ec in El.
    + split; [intros; by destruct (Hm E)|]. intros [= Ec _]. destruct E. rewrite Ec. apply memcmp_refl.
Qed.

(** What is hashed: the elements, with one slash between two of them *)
Fixpoint hash_elements (l : list (list Z)) (st : siphash) : siphash :=
  match l with
  | [] => st
  | [x] => siphash24_compress x st
  | x :: l => hash_elements l (siphash24_compress [SLASH] (siphash24_compress x st))
  end.

Lemma path_hash_loop_elements fuel q st :
  (length q < fuel)%nat -> is_absolute q = false -> path_hash_loop fuel q st = hash_elements (path_elements q) st.
Proof.
  revert q st; induction fuel as [|fuel IH]; intros q st Hf Ha; [lia|]. cbn [path_hash_loop]. cbv zeta.
  destruct q as [|c q]; [done|]. cbn in Ha. apply Z.eqb_neq in Ha as Hc. rewrite component_elements by done.
  assert (Hcomp : component (c :: q) = c :: component q) by (cbn; by rewrite Ha). rewrite Hcomp at 1.
  pose proof (after_length c q Hc) as Hl. rewrite <- (skip_elements (after_component _)).
  pose proof (skip_length (after_component (c :: q))).
  destruct (skip_slashes (after_component (c :: q))) as [|d q'] eqn:E; [done|].
  apply skip_head in E. rewrite IH; [|lia|by apply Z.eqb_neq]. rewrite component_elements by done. done.
Qed.

Lemma path_hash_elements p st :
  path_hash_func p st =
  hash_elements (path_elements p) (if is_absolute p then siphash24_compress [SLASH] st else st).
Proof.
  unfold path_hash_func. destruct (is_absolute p) eqn:E; [|apply path_hash_loop_elements; [lia|done]].
  pose proof (skip_length p). rewrite path_hash_loop_elements; [by rewrite skip_elements|lia|].
  destruct (skip_slashes p) as [|c p'] eqn:Es; [done|]. apply skip_head in Es. by apply Z.eqb_neq.
Qed.

Lemma path_compare_eq a b :
  path_compare a b = 0 <-> is_absolute a = is_absolute b /\ path_elements a = path_elements b.
Proof.
  unfold path_compare. destruct (is_absolute a), (is_absolute b); cbn [negb Z.eqb Z.b2z Z.sub Z.add Z.opp Z.pos_sub]; cbn.
  all: try (rewrite <- (path_compare_loop_eq (S (length a + length b))) by lia; cbn; naive_solver).
  all: naive_solver.
Qed.

#[export] Instance path_laws str : HashLaws (path_hash_ops str).
Proof.
  apply (kernel_laws (fun p => (is_absolute (str p), path_elements (str p)))).
  - intros a b. cbn. rewrite path_compare_eq. split; [by intros [-> ->]|by intros [= -> ->]].
  - intros a b st [= H1 H2]. cbn. by rewrite !path_hash_elements, H1, H2.
Qed.
