(* ===== verification/HashmapRun.v ===== *)
(** * Hash tables as lists ([src/basic/hashmap.c], [src/basic/hash-funcs.c])

    A map is its list of entries, in the order of insertion: any program of calls
    on a new map gets the answers that it would get of the list. At the end there
    are small maps, and what iterating over a plain map can do that iterating over
    an ordered one cannot. *)
From S2P Require Import Prelude Siphash Hashmap RobinHood HashTable HashProbe HashRemove HashPut HashResize HashCalls HashIterate HashFuncs.

(** ** Programs of calls *)
Inductive call :=
  | Put (k v : Z) | SetPut (k : Z) | Get (k : Z) | Contains (k : Z) | Remove (k : Z)
  | First | StealFirst | Size | Clear | ClearFree | GetStrv.

Inductive reply :=
  | Int (n : Z) | Bool (b : bool) | Entry (e : option (Z * Z)) | Values (vs : list Z).

Definition run_call (c : call) : stm state reply :=
  match c with
  | Put k v => n ← hashmap_put k v; mret (Int n)
  | SetPut k => n ← set_put k; mret (Int n)
  | Get k => v ← internal_hashmap_get k; mret (Int v)
  | Contains k => b ← internal_hashmap_contains k; mret (Bool b)
  | Remove k => v ← internal_hashmap_remove k; mret (Int v)
  | First => e ← internal_hashmap_first_key_and_value false; mret (Entry e)
  | StealFirst => e ← internal_hashmap_first_key_and_value true; mret (Entry e)
  | Size => n ← internal_hashmap_size; mret (Int n)
  | Clear => hmod internal_hashmap_clear;; mret (Int 0)
  | ClearFree => vs ← internal_hashmap_clear_free; mret (Values vs)
  | GetStrv => vs ← internal_hashmap_get_strv; mret (Values vs)
  end.

Fixpoint run_calls (cs : list call) (s : state) : list (res reply) * state :=
  match cs with
  | [] => ([], s)
  | c :: cs => let '(r, s1) := run_call c s in let '(rs, s2) := run_calls cs s1 in (r :: rs, s2)
  end.

(** [hashmap_put] is for maps, [set_put] for sets. *)
Definition fits (t : HashmapType) (c : call) : bool :=
  match c with
  | Put _ _ => negb (bool_decide (t = HASHMAP_TYPE_SET))
  | SetPut _ => bool_decide (t = HASHMAP_TYPE_SET)
  | _ => true
  end.

(** ** The list *)

(** What a call may answer, and the list after it. A plain map or a set may give its
    entries in any order, an ordered map gives them in the order of insertion. *)
Section list_of_entries.
Context (t : HashmapType) (cmp : Z -> Z -> Z).

Definition answers (c : call) (l : list (Z * Z)) (r : res reply) (l' : list (Z * Z)) : Prop :=
  match c with
  | Put k v =>
      match lookup_key cmp k l with
      | Some (_, v') => r = (if v' =? v then Ok (Int 0) else Err EEXIST) /\ l' = l
      | None => r = Ok (Int 1) /\ l' = l ++ [(k, v)]
      end
  | SetPut k =>
      match lookup_key cmp k l with
      | Some _ => r = Ok (Int 0) /\ l' = l
      | None => r = Ok (Int 1) /\ l' = l ++ [(k, k)]
      end
  | Get k => r = Ok (Int (default 0 (snd <$> lookup_key cmp k l))) /\ l' = l
  | Contains k => r = Ok (Bool (bool_decide (is_Some (lookup_key cmp k l)))) /\ l' = l
  | Remove k => r = Ok (Int (default 0 (snd <$> lookup_key cmp k l))) /\ l' = remove_key cmp k l
  | First | StealFirst =>
      match l with
      | [] => r = Ok (Entry None) /\ l' = l
      | e0 :: _ => exists e, r = Ok (Entry (Some e)) /\ e ∈ l /\ (t = HASHMAP_TYPE_ORDERED -> e = e0) /\
          l' = if c is StealFirst then remove_key cmp e.1 l else l
      end
  | Size => r = Ok (Int (Z.of_nat (length l))) /\ l' = l
  | Clear => r = Ok (Int 0) /\ l' = []
  | ClearFree => exists vs, r = Ok (Values vs) /\ Permutation vs (snd <$> l) /\ l' = []
  | GetStrv => exists vs, r = Ok (Values vs) /\ Permutation vs (snd <$> l) /\
      (t = HASHMAP_TYPE_ORDERED -> vs = snd <$> l) /\ l' = l
  end.

Inductive answers_all : list call -> list (Z * Z) -> list (res reply) -> list (Z * Z) -> Prop :=
  | answers_nil l : answers_all [] l [] l
  | answers_cons c cs l r l1 rs l2 :
      answers c l r l1 -> answers_all cs l1 rs l2 -> answers_all (c :: cs) l (r :: rs) l2.
End list_of_entries.

(** ** Everything is freed once *)
Lemma read_all_run {A} (f : Z -> stm state A) (g : Z -> A) s l :
  (forall j, j ∈ l -> f j s = (Ok (g j), s)) -> read_all f l s = (Ok (g <$> l), s).
Proof.
  induction l as [|j l IH]; intros H; [done|]. cbn [read_all]. rewrite (stm_bind_run _ _ _ _ _ (H j ltac:(left))).
  rewrite (stm_bind_run _ _ _ _ _ (IH ltac:(intros i Hi; apply H; by right))). done.
Qed.

Lemma used_buckets_from s fuel j :
  shaped s -> 0 <= j -> (length (used_from s j) < fuel)%nat -> used_buckets fuel (base s) j = used_from s j.
Proof.
  intros Hs. revert j; induction fuel as [|fuel IH]; intros j Hj Hf; [lia|]. cbn [used_buckets]. cbv zeta.
  destruct (used_from_skip s j Hs Hj) as [-> Hu]. destruct (used_from s j) as [|c u]; [done|].
  change (default IDX_NIL (head (c :: u))) with c. destruct Hu as (Hc & _ & _ & ->).
  rewrite (proj2 (Z.eqb_neq c IDX_NIL)) by (by apply (valid_ne_swap s c)). f_equal. apply IH; [unfold valid in Hc; lia|].
  cbn [length] in Hf. lia.
Qed.

Theorem clear_free_spec s o l :
  stands_for s o l ->
  exists vs, internal_hashmap_clear_free s = (Ok vs, set_base (internal_hashmap_clear (base s)) s) /\ Permutation vs (snd <$> l).
Proof.
  intros H. pose proof (t_shaped _ _ _ (hk_table _ _ (sd_ok _ _ _ H))) as Hs.
  pose proof (used_all_from s o (sd_ok _ _ _ H)) as Hp.
  pose proof (order_length _ _ (hk_table _ _ (sd_ok _ _ _ H))) as Hlen. rewrite <- (Permutation_length Hp) in Hlen.
  exists (snd <$> contents s (used_from s 0)). split.
  - unfold internal_hashmap_clear_free. rewrite hget_bind, used_buckets_from by (done || lia).
    rewrite (stm_bind_run _ _ s (snd <$> contents s (used_from s 0)) s); [done|].
    rewrite (read_all_run _ (fun j => (shown (type (base s)) (kv s j)).2)).
    + unfold contents. by rewrite <- !list_fmap_compose.
    + intros j Hj. assert (Hv : valid (nb s) j) by (apply (ok_valid _ _ _ (sd_ok _ _ _ H)); by rewrite <- Hp).
      by rewrite (stm_bind_run _ _ _ _ _ (bucket_at_run s Hs j Hv)), shown_value.
  - rewrite <- (sd_contents _ _ _ H). unfold contents. by rewrite Hp.
Qed.

(** ** Refinement *)
Lemma bind_ret {A} (f : stm state A) (g : A -> reply) s r s' :
  f s = (r, s') -> (x ← f; mret (g x)) s = (match r with Ok x => Ok (g x) | Err e => Err e end, s').
Proof. intros H. rewrite stm_bind_eq, H. by destruct r. Qed.

Lemma remove_length c k l : (length (remove_key c k l) <= length l)%nat.
Proof. induction l as [|e l IH]; cbn; [done|]. destruct (c e.1 k =? 0); cbn; lia. Qed.

Lemma answers_length t c cl l r l' : answers t c cl l r l' -> (length l' <= S (length l))%nat.
Proof.
  destruct cl; cbn.
  1: destruct (lookup_key c k l) as [[? ?]|]; intros [_ ->]; [|rewrite length_app; cbn]; lia.
  1: destruct (lookup_key c k l) as [?|]; intros [_ ->]; [|rewrite length_app; cbn]; lia.
  1,2: intros [_ ->]; lia.
  1: intros [_ ->]; pose proof (remove_length c k l); lia.
  1: destruct l; [intros [_ ->]|intros (? & _ & _ & _ & ->)]; lia.
  1: destruct l as [|e0 l]; [intros [_ ->]; lia|intros (e & _ & _ & _ & ->); pose proof (remove_length c e.1 (e0 :: l)); lia].
  1,2: intros [_ ->]; cbn; lia.
  1: intros (? & _ & _ & ->); cbn; lia.
  1: intros (? & _ & _ & _ & ->); lia.
Qed.

Definition stands s l := exists o, stands_for s o l.

Lemma run_call_spec c s l :
  stands s l -> fits (type (base s)) c = true -> Z.of_nat (length l) + 1 <= MAX_ENTRIES ->
  exists r s' l', run_call c s = (r, s') /\ answers (type (base s)) (cmp s) c l r l' /\ stands s' l' /\ entry_calls s s'.
Proof.
  intros [o H] Hf Hlen. destruct c as [k v|k|k|k|k| | | | | |]; cbn in Hf |- *.
  - apply negb_true_iff, bool_decide_eq_false in Hf. pose proof (put_spec s o l k v H Hf Hlen) as R.
    destruct (lookup_key (cmp s) k l) as [[? v']|].
    + eexists _, s, l. split; [by apply bind_ret|]. split; [by destruct (v' =? v)|]. by split; [exists o|].
    + destruct R as (s' & o' & R & H' & Hec). eexists _, s', _. split; [by apply (bind_ret _ _ _ _ _ R)|].
      split; [done|]. by split; [exists o'|].
  - apply bool_decide_eq_true in Hf. pose proof (set_put_spec s o l k H Hf Hlen) as R.
    destruct (lookup_key (cmp s) k l) as [e|].
    + eexists _, s, l. split; [by apply (bind_ret _ _ _ _ _ R)|]. split; [done|]. by split; [exists o|].
    + destruct R as (s' & o' & R & H' & Hec). eexists _, s', _. split; [by apply (bind_ret _ _ _ _ _ R)|].
      split; [done|]. by split; [exists o'|].
  - eexists _, s, l. split; [by apply (bind_ret _ _ _ _ _ (get_spec s o l k H))|]. split; [done|]. by split; [exists o|].
  - eexists _, s, l. split; [by apply (bind_ret _ _ _ _ _ (contains_spec s o l k H))|]. split; [done|]. by split; [exists o|].
  - destruct (internal_remove_spec s o l k H) as (s' & o' & R & H' & Hec). eexists _, s', _.
    split; [by apply (bind_ret _ _ _ _ _ R)|]. split; [done|]. by split; [exists o'|].
  - pose proof (first_spec false s o l H) as R. destruct l as [|e0 l].
    + eexists _, s, []. split; [by apply (bind_ret _ _ _ _ _ R)|]. split; [done|]. by split; [exists o|].
    + destruct R as (e & s' & o' & R & Hin & Hfst & H' & Hec). eexists _, s', _. split; [by apply (bind_ret _ _ _ _ _ R)|].
      split; [by exists e|]. by split; [exists o'|].
  - pose proof (first_spec true s o l H) as R. destruct l as [|e0 l].
    + eexists _, s, []. split; [by apply (bind_ret _ _ _ _ _ R)|]. split; [done|]. by split; [exists o|].
    + destruct R as (e & s' & o' & R & Hin & Hfst & H' & Hec). eexists _, s', _. split; [by apply (bind_ret _ _ _ _ _ R)|].
      split; [by exists e|]. by split; [exists o'|].
  - eexists _, s, l. split; [by apply (bind_ret _ _ _ _ _ (size_spec s o l H))|]. split; [done|]. by split; [exists o|].
  - destruct (clear_spec s o l H) as [H' Hec]. eexists _, _, []. split; [done|]. split; [done|]. by split; [exists []|].
  - destruct (clear_free_spec s o l H) as (vs & R & Hp). destruct (clear_spec s o l H) as [H' Hec]. eexists _, _, [].
    split; [by apply (bind_ret _ _ _ _ _ R)|]. split; [by exists vs|]. by split; [exists []|].
  - destruct (strv_spec s o l H) as (s' & vs & R & Hp & Hord & H' & Hec). eexists _, s', l.
    split; [by apply (bind_ret _ _ _ _ _ R)|]. split; [by exists vs|]. by split; [exists o|].
Qed.

Lemma run_calls_spec cs s l :
  stands s l -> Forall (fun c => fits (type (base s)) c = true) cs -> Z.of_nat (length l + length cs) <= MAX_ENTRIES ->
  exists l', answers_all (type (base s)) (cmp s) cs l (run_calls cs s).1 l' /\ stands (run_calls cs s).2 l'.
Proof.
  revert s l; induction cs as [|c cs IH]; intros s l H Hf Hlen; [exists l; split; [constructor|done]|].
  apply Forall_cons in Hf as [Hc Hf]. cbn [length] in Hlen.
  destruct (run_call_spec c s l H Hc ltac:(lia)) as (r & s1 & l1 & R & Ha & H1 & Hec).
  pose proof (answers_length _ _ _ _ _ _ Ha) as Hl1.
  destruct (IH s1 l1 H1) as (l' & Hall & H'); [by rewrite (ec_type _ _ Hec)|lia|].
  rewrite (ec_type _ _ Hec), (ec_ops _ _ Hec) in Hall.
  cbn [run_calls]. rewrite R. destruct (run_calls cs s1) as [rs s2]. exists l'. split; [by econstructor|done].
Qed.

(** C34. A hash table is the list of its entries: the answers to any program of calls
    on a new map or set, of any of the three types and with any hash functions
    that agree with the comparison and any random keys, are answers of the list
    without entries. So no assertion fails, no bucket outside of the storage is
    touched and every search ends, through growing, displacing and shifting
    back; an ordered map gives its entries in the order of insertion. *)
Theorem hashmap_is_list o t k cs :
  HashLaws o -> Forall (fun c => fits t c = true) cs -> Z.of_nat (length cs) <= MAX_ENTRIES ->
  let '(rs, s) := run_calls cs (hashmap_base_new o t k) in
  exists l, answers_all t (compare o) cs [] rs l /\ stands s l.
Proof.
  intros Ho Hf Hlen. destruct (new_spec o t k Ho) as (H & Ht & Hops).
  destruct (run_calls_spec cs (hashmap_base_new o t k) []) as (l & Ha & H'); [by exists []|by rewrite Ht|done|].
  rewrite Ht, Hops in Ha. destruct (run_calls _ _) as [rs s]. by exists l.
Qed.

(** ** Concrete runs *)
Definition sample_keys : hash_keys := HashKeys None None (fun n => (fun i => (Z.of_nat n + i) `mod` 256) <$> seqZ 1 16) 0.

(** Growing from one bucket, with a key put twice, removing, and looking up *)
Definition sample_calls : list call :=
  (Put 8 80 :: ((fun k => Put k (10 * k)) <$> seqZ 1 20)) ++
  [Put 3 31; Remove 8; Put 8 81; Get 8; Get 21; Contains 5; Size; First; StealFirst; GetStrv; ClearFree; Size].

Example sample_replies :
  drop 21 (run_calls sample_calls (hashmap_base_new trivial_hash_ops HASHMAP_TYPE_ORDERED sample_keys)).1 =
  [Err EEXIST; Ok (Int 80); Ok (Int 1); Ok (Int 81); Ok (Int 0); Ok (Bool true); Ok (Int 20);
   Ok (Entry (Some (1, 10))); Ok (Entry (Some (1, 10)));
   Ok (Values [20; 30; 40; 50; 60; 70; 90; 100; 110; 120; 130; 140; 150; 160; 170; 180; 190; 200; 81]);
   Ok (Values [120; 190; 30; 20; 100; 130; 170; 50; 70; 60; 110; 81; 150; 160; 180; 40; 90; 200; 140]); Ok (Int 0)].
Proof. vm_compute. reflexivity. Qed.

Lemma hashmap_is_list_witness :
  let '(rs, s) := run_calls sample_calls (hashmap_base_new trivial_hash_ops HASHMAP_TYPE_ORDERED sample_keys) in
  exists l, answers_all HASHMAP_TYPE_ORDERED CMP sample_calls [] rs l /\ stands s l.
Proof.
  apply (hashmap_is_list trivial_hash_ops HASHMAP_TYPE_ORDERED sample_keys sample_calls trivial_laws).
  - apply Forall_forall. intros c Hc. destruct (fits HASHMAP_TYPE_ORDERED c) eqn:E; [done|]. exfalso.
    assert (H : forallb (fits HASHMAP_TYPE_ORDERED) sample_calls = true) by (vm_compute; reflexivity).
    rewrite forallb_forall in H. apply list_elem_of_In, H in Hc. congruence.
  - vm_compute. discriminate.
Defined.

(** ** Iterating and removing *)
Definition three_calls : list call := [Put 1 10; Put 2 20; Put 3 30].

Definition three (t : HashmapType) : state :=
  (run_calls three_calls (hashmap_base_new trivial_hash_ops t (HashKeys None None (fun n => seqZ (4 + Z.of_nat n) 16) 0))).2.

Lemma three_listed t c rs l :
  (forall a b, c a b = 0 <-> a = b) -> answers_all t c three_calls [] rs l -> l = [(1, 10); (2, 20); (3, 30)].
Proof.
  intros Hc H. unfold three_calls in H.
  assert (Hn : forall a b, a <> b -> (c a b =? 0) = false) by (intros a b Hne; apply Z.eqb_neq; by rewrite Hc).
  repeat match goal with H : answers_all _ _ _ _ _ _ |- _ =>
    inversion H; clear H; subst; cbn in *; rewrite ?Hn in * by done; destruct_and?; subst end.
  done.
Qed.

Lemma three_stands t : t <> HASHMAP_TYPE_SET -> stands (three t) [(1, 10); (2, 20); (3, 30)].
Proof.
  intros Ht. unfold three. set (k := HashKeys _ _ _ _).
  destruct (new_spec trivial_hash_ops t k trivial_laws) as (H0 & E & Eo).
  destruct (run_calls_spec three_calls _ [] (ex_intro _ [] H0)) as (l & Ha & H').
  - rewrite E. unfold three_calls. by destruct t; [| |done]; repeat constructor.
  - done.
  - rewrite Eo in Ha. apply three_listed in Ha; [by subst l|]. apply CMP_eq.
Qed.

(** The keys 1 and 3 are removed while they are at hand. *)
Lemma ordered_foreach_removes_witness :
  exists s' o', hashmap_foreach 4 (remove_some Z.odd) ITERATOR_FIRST (three HASHMAP_TYPE_ORDERED) = (Ok [(1, 10); (2, 20); (3, 30)], s') /\
    stands_for s' o' [(2, 20)].
Proof.
  destruct (three_stands HASHMAP_TYPE_ORDERED ltac:(done)) as [o H].
  destruct (ordered_foreach_removes Z.odd (three HASHMAP_TYPE_ORDERED) o _ H) as (s' & o' & R & H').
  - reflexivity.
  - cbn. repeat split; discriminate.
  - exists s', o'. split; [exact R|exact H'].
Defined.

(** A plain map is iterated in the order of its buckets. When the body removes the
    entry with the key 2, the one in the first bucket, which has already been at
    hand, is moved to the last one, behind the iterator: it is at hand again. *)
Example plain_foreach_visits_twice :
  (hashmap_foreach 5 (remove_some (Z.eqb 2)) ITERATOR_FIRST (three HASHMAP_TYPE_PLAIN)).1 =
  Ok [(3, 30); (2, 20); (1, 10); (3, 30)].
Proof. vm_compute. reflexivity. Qed.

(** An ordered map with a NULL key: the entry with the key 1 is removed, the one
    with the key 0 after it moves into its bucket and leaves one whose cleared key
    is taken for its own. The iterator believes that nothing has moved, and the
    check that its entry is in use fails. *)
Example ordered_null_key_lost :
  let s := (run_calls [Put 1 10; Put 0 20; Put 3 30]
    (hashmap_base_new trivial_hash_ops HASHMAP_TYPE_ORDERED (HashKeys None None (fun n => seqZ (4 + Z.of_nat n) 16) 0))).2 in
  (hashmap_foreach 5 (remove_some (Z.eqb 1)) ITERATOR_FIRST s).1 = Err EASSERT.
Proof. vm_compute. reflexivity. Qed.
