(* ===== verification/MatchRule.v ===== *)
(** * Match rules ([src/libsystemd/sd-bus/bus-match.c], the rule language)

    The kinds of comparison a rule makes and their names, the parser of rules,
    their scope, and the rules that [sd_bus_match_signal()] writes
    ([bus-convenience.c]). *)
From Stdlib Require Import Sorted.
From S2P Require Import Prelude HexDecOct Names.

(** ** Kinds of comparison *)

(** [enum bus_match_node_type]; the four ranges of 64 argument matches carry
    the number of the argument. *)
Inductive bus_match_node_type :=
  | BUS_MATCH_ROOT | BUS_MATCH_VALUE | BUS_MATCH_LEAF
  | BUS_MATCH_SENDER | BUS_MATCH_MESSAGE_TYPE | BUS_MATCH_DESTINATION
  | BUS_MATCH_INTERFACE | BUS_MATCH_MEMBER | BUS_MATCH_PATH | BUS_MATCH_PATH_NAMESPACE
  | BUS_MATCH_ARG (i : Z) | BUS_MATCH_ARG_PATH (i : Z)
  | BUS_MATCH_ARG_NAMESPACE (i : Z) | BUS_MATCH_ARG_HAS (i : Z).

#[export] Instance bus_match_node_type_eq_dec : EqDecision bus_match_node_type.
Proof. solve_decision. Defined.

(** The number the enumeration gives a kind. *)
Definition type_number (t : bus_match_node_type) : Z :=
  match t with
  | BUS_MATCH_ROOT => 0 | BUS_MATCH_VALUE => 1 | BUS_MATCH_LEAF => 2
  | BUS_MATCH_SENDER => 3 | BUS_MATCH_MESSAGE_TYPE => 4 | BUS_MATCH_DESTINATION => 5
  | BUS_MATCH_INTERFACE => 6 | BUS_MATCH_MEMBER => 7 | BUS_MATCH_PATH => 8
  | BUS_MATCH_PATH_NAMESPACE => 9
  | BUS_MATCH_ARG i => 10 + i
  | BUS_MATCH_ARG_PATH i => 74 + i
  | BUS_MATCH_ARG_NAMESPACE i => 138 + i
  | BUS_MATCH_ARG_HAS i => 202 + i
  end.

(** The argument number lies in its range of the enumeration. *)
Definition in_range (t : bus_match_node_type) : bool :=
  match t with
  | BUS_MATCH_ARG i | BUS_MATCH_ARG_PATH i | BUS_MATCH_ARG_NAMESPACE i | BUS_MATCH_ARG_HAS i =>
      (0 <=? i) && (i <=? 63)
  | _ => true
  end.

Definition BUS_MATCH_IS_COMPARE (t : bus_match_node_type) : bool :=
  (type_number BUS_MATCH_SENDER <=? type_number t) && (type_number t <=? type_number (BUS_MATCH_ARG_HAS 63)).

Definition BUS_MATCH_CAN_HASH (t : bus_match_node_type) : bool :=
  let n := type_number t in
  ((type_number BUS_MATCH_MESSAGE_TYPE <=? n) && (n <=? type_number BUS_MATCH_PATH)) ||
  ((type_number (BUS_MATCH_ARG 0) <=? n) && (n <=? type_number (BUS_MATCH_ARG 63))) ||
  ((type_number (BUS_MATCH_ARG_HAS 0) <=? n) && (n <=? type_number (BUS_MATCH_ARG_HAS 63))).

(** ** Names of the kinds *)

(** [arg%i] without the number of digits the range allows *)
Definition one_digit (k : cstr) (mk : Z -> bus_match_node_type) : res bus_match_node_type :=
  match undecchar (char_at k 3) with Ok j => Ok (mk j) | Err _ => Err EINVAL end.

Definition two_digits (k : cstr) (mk : Z -> bus_match_node_type) : res bus_match_node_type :=
  match undecchar (char_at k 3), undecchar (char_at k 4) with
  | Ok a, Ok b =>
      if a <=? 0 then Err EINVAL
      else if 63 <? a * 10 + b then Err EINVAL
      else Ok (mk (a * 10 + b))
  | _, _ => Err EINVAL
  end.

Definition has_prefix (s prefix : cstr) : bool :=
  match startswith s prefix with Some _ => true | None => false end.

Definition bus_match_node_type_from_string (k : cstr) (n : nat) : res bus_match_node_type :=
  let arg := has_prefix k (bs "arg") in
  if Nat.eqb n 4 && has_prefix k (bs "type") then Ok BUS_MATCH_MESSAGE_TYPE
  else if Nat.eqb n 6 && has_prefix k (bs "sender") then Ok BUS_MATCH_SENDER
  else if Nat.eqb n 11 && has_prefix k (bs "destination") then Ok BUS_MATCH_DESTINATION
  else if Nat.eqb n 9 && has_prefix k (bs "interface") then Ok BUS_MATCH_INTERFACE
  else if Nat.eqb n 6 && has_prefix k (bs "member") then Ok BUS_MATCH_MEMBER
  else if Nat.eqb n 4 && has_prefix k (bs "path") then Ok BUS_MATCH_PATH
  else if Nat.eqb n 14 && has_prefix k (bs "path_namespace") then Ok BUS_MATCH_PATH_NAMESPACE
  else if Nat.eqb n 4 && arg then one_digit k BUS_MATCH_ARG
  else if Nat.eqb n 5 && arg then two_digits k BUS_MATCH_ARG
  else if Nat.eqb n 8 && arg && has_prefix (drop 4 k) (bs "path") then one_digit k BUS_MATCH_ARG_PATH
  else if Nat.eqb n 9 && arg && has_prefix (drop 5 k) (bs "path") then two_digits k BUS_MATCH_ARG_PATH
  else if Nat.eqb n 13 && arg && has_prefix (drop 4 k) (bs "namespace") then one_digit k BUS_MATCH_ARG_NAMESPACE
  else if Nat.eqb n 14 && arg && has_prefix (drop 5 k) (bs "namespace") then two_digits k BUS_MATCH_ARG_NAMESPACE
  else if Nat.eqb n 7 && arg && has_prefix (drop 4 k) (bs "has") then one_digit k BUS_MATCH_ARG_HAS
  else if Nat.eqb n 8 && arg && has_prefix (drop 5 k) (bs "has") then two_digits k BUS_MATCH_ARG_HAS
  else Err EINVAL.

(** [%i] of a number below 100 *)
Definition print_int (i : Z) : cstr :=
  if i <? 10 then [ch "0" + i] else [ch "0" + i / 10; ch "0" + i mod 10].

(** The buffer the callers pass has room for every name. *)
Definition bus_match_node_type_to_string (t : bus_match_node_type) : cstr :=
  match t with
  | BUS_MATCH_ROOT => bs "root" | BUS_MATCH_VALUE => bs "value" | BUS_MATCH_LEAF => bs "leaf"
  | BUS_MATCH_MESSAGE_TYPE => bs "type" | BUS_MATCH_SENDER => bs "sender"
  | BUS_MATCH_DESTINATION => bs "destination" | BUS_MATCH_INTERFACE => bs "interface"
  | BUS_MATCH_MEMBER => bs "member" | BUS_MATCH_PATH => bs "path"
  | BUS_MATCH_PATH_NAMESPACE => bs "path_namespace"
  | BUS_MATCH_ARG i => bs "arg" ++ print_int i
  | BUS_MATCH_ARG_PATH i => bs "arg" ++ print_int i ++ bs "path"
  | BUS_MATCH_ARG_NAMESPACE i => bs "arg" ++ print_int i ++ bs "namespace"
  | BUS_MATCH_ARG_HAS i => bs "arg" ++ print_int i ++ bs "has"
  end.

(** ** The parser *)
Record bus_match_component := Component {
  c_type : bus_match_node_type;
  value_u8 : Z;
  value_str : option cstr }.

#[export] Instance bus_match_component_eq_dec : EqDecision bus_match_component.
Proof. solve_decision. Defined.

(** [p += strspn(p, " ")] *)
Fixpoint skip_spaces (p : cstr) : cstr :=
  match p with
  | c :: p' => if c =? ch " " then skip_spaces p' else p
  | [] => []
  end.

(** [strchr(p, c) - p] *)
Fixpoint strchr (p : cstr) (c : Z) : option nat :=
  match p with
  | [] => None
  | x :: p => if x =? c then Some O else S <$> strchr p c
  end.

(** The loop over the characters of a value: the value and where [q] stops. *)
Fixpoint value_loop (quoted escaped : bool) (q : cstr) : res (cstr * cstr) :=
  match q with
  | [] => if quoted then Err EINVAL else Ok ([], [])
  | c :: q' =>
      let append := '(v, e) ← value_loop quoted false q'; Ok (c :: v, e) in
      if escaped then append
      else if c =? ch "\" then value_loop quoted true q'
      else if quoted then (if c =? ch "'" then Ok ([], q) else append)
      else if c =? ch "," then Ok ([], q) else append
  end.

(** One [key=value]: the component, and [q[quoted]] onwards. *)
Definition parse_component (p : cstr) : res (bus_match_component * cstr) :=
  match strchr p (ch "=") with
  | None => Err EINVAL
  | Some n =>
      t ← bus_match_node_type_from_string p n;
      let eq := drop n p in
      let quoted := char_at eq 1 =? ch "'" in
      '(value, q) ← value_loop quoted false (drop (if quoted then 2 else 1) eq);
      let q := if quoted then drop 1 q else q in
      if bool_decide (t = BUS_MATCH_MESSAGE_TYPE) then
        u ← bus_message_type_from_string value; Ok (Component t u None, q)
      else Ok (Component t 0 (Some value), q)
  end.

(** The loop over the components. Each takes at least a character, so that the
    length of the rule is enough fuel. *)
Fixpoint parse_loop (fuel : nat) (p : cstr) : res (list bus_match_component) :=
  match fuel with
  | O => Err EASSERT
  | S fuel =>
      if deref p =? 0 then Ok []
      else
        '(c, q) ← parse_component (skip_spaces p);
        if deref q =? 0 then Ok [c]
        else if negb (deref q =? ch ",") then Err EINVAL
        else cs ← parse_loop fuel (drop 1 q); Ok (c :: cs)
  end.

(** [typesafe_qsort(components, n_components, match_component_compare)] *)
Definition match_component_compare (a b : bus_match_component) : Z :=
  let x := type_number (c_type a) in let y := type_number (c_type b) in
  if x <? y then -1 else if y <? x then 1 else 0.

Fixpoint insert_component (c : bus_match_component) (l : list bus_match_component) : list bus_match_component :=
  match l with
  | [] => [c]
  | d :: l' => if match_component_compare c d <=? 0 then c :: l else d :: insert_component c l'
  end.

Definition sort_components (l : list bus_match_component) : list bus_match_component :=
  fold_right insert_component [] l.

(** [components[i].type == components[i+1].type] for some [i] *)
Fixpoint duplicates (l : list bus_match_component) : bool :=
  match l with
  | a :: ((b :: _) as l') => bool_decide (c_type a = c_type b) || duplicates l'
  | _ => false
  end.

Definition bus_match_parse (rule : cstr) : res (list bus_match_component) :=
  cs ← parse_loop (length rule + 1) rule;
  let cs := sort_components cs in
  if duplicates cs then Err EINVAL else Ok cs.

(** ** Scope *)
Inductive bus_match_scope := BUS_MATCH_GENERIC | BUS_MATCH_LOCAL | BUS_MATCH_DRIVER.

(** [streq_ptr(c->value_str, s)] *)
Definition value_is (c : bus_match_component) (s : cstr) : bool :=
  match value_str c with Some v => streq v s | None => false end.

Definition bus_match_get_scope (components : list bus_match_component) : bus_match_scope :=
  (fix loop (found_driver : bool) (cs : list bus_match_component) :=
     match cs with
     | [] => if found_driver then BUS_MATCH_DRIVER else BUS_MATCH_GENERIC
     | c :: cs =>
         let sender := bool_decide (c_type c = BUS_MATCH_SENDER) in
         if sender && value_is c (bs "org.freedesktop.DBus.Local") then BUS_MATCH_LOCAL
         else
           let found_driver := found_driver || (sender && value_is c (bs "org.freedesktop.DBus")) in
           if bool_decide (c_type c = BUS_MATCH_INTERFACE) && value_is c (bs "org.freedesktop.DBus.Local")
           then BUS_MATCH_LOCAL
           else if bool_decide (c_type c = BUS_MATCH_PATH) && value_is c (bs "/org/freedesktop/DBus/Local")
           then BUS_MATCH_LOCAL
           else loop found_driver cs
     end) false components.

(** The expression of [sd_bus_match_signal()]: [x ? key x "'" : ""] *)
Definition expression_part (key : string) (v : option cstr) : cstr :=
  match v with Some v => bs key ++ v ++ bs "'" | None => [] end.

Definition make_expression (sender path interface member : option cstr) : cstr :=
  bs "type='signal'" ++ expression_part ",sender='" sender ++ expression_part ",path='" path ++
  expression_part ",interface='" interface ++ expression_part ",member='" member.

Example parse_ex : bus_match_parse (bs "type='signal', sender=foo\,bar,arg0namespace='a\'b',")
  = Ok [Component BUS_MATCH_SENDER 0 (Some (bs "foo,bar")); Component BUS_MATCH_MESSAGE_TYPE 4 None;
        Component (BUS_MATCH_ARG_NAMESPACE 0) 0 (Some (bs "a'b"))].
Proof. vm_compute. reflexivity. Qed.

(** ** Names of kinds and kinds are in bijection *)
Lemma has_prefix_spec s p : has_prefix s p = true <-> exists r, s = p ++ r.
Proof.
  unfold has_prefix. destruct (startswith s p) as [r|] eqn:E.
  - apply startswith_spec in E. split; [by exists r|done].
  - split; [done|]. intros [r H%startswith_spec]. congruence.
Qed.

Lemma undecchar_ok c j : undecchar c = Ok j <-> 0 <= j <= 9 /\ c = ch "0" + j.
Proof.
  unfold undecchar, is_digit. norm_ch. destruct (48 <=? c) eqn:E1, (c <=? 57) eqn:E2; cbn; ztests;
    (split; [intros H|intros [??]]); try discriminate H; try lia.
  - injection H as <-. lia.
  - f_equal. lia.
Qed.

Lemma undecchar_err c e : undecchar c = Err e -> e = EINVAL.
Proof. unfold undecchar. destruct (is_digit c); [done|]. by intros [= <-]. Qed.

Lemma char_at_cons c s i : char_at (c :: s) (S i) = char_at s i.
Proof. done. Qed.

(** Reading the digits back. *)
Lemma one_digit_ok k mk t :
  one_digit k mk = Ok t <-> exists j, 0 <= j <= 9 /\ char_at k 3 = ch "0" + j /\ t = mk j.
Proof.
  unfold one_digit. destruct (undecchar (char_at k 3)) as [j|e] eqn:E.
  - apply undecchar_ok in E as [??]. split; [intros [= <-]; by exists j|].
    intros (j' & ? & ? & ->). do 2 f_equal. lia.
  - split; [done|]. intros (j & ? & Hc & ?).
    assert (undecchar (char_at k 3) = Ok j) by (by apply undecchar_ok). congruence.
Qed.

Lemma two_digits_ok k mk t :
  two_digits k mk = Ok t <-> exists a b, 1 <= a <= 9 /\ 0 <= b <= 9 /\ a * 10 + b <= 63 /\
    char_at k 3 = ch "0" + a /\ char_at k 4 = ch "0" + b /\ t = mk (a * 10 + b).
Proof.
  unfold two_digits. destruct (undecchar (char_at k 3)) as [a|e] eqn:Ea.
  2: { split; [done|]. intros (a & b & ? & ? & ? & Hc & ?).
       assert (undecchar (char_at k 3) = Ok a) by (apply undecchar_ok; lia). congruence. }
  destruct (undecchar (char_at k 4)) as [b|e] eqn:Eb.
  2: { split; [done|]. intros (a' & b & ? & ? & ? & ? & Hc & ?).
       assert (undecchar (char_at k 4) = Ok b) by (apply undecchar_ok; lia). congruence. }
  apply undecchar_ok in Ea, Eb. destruct (Z.leb_spec a 0), (Z.ltb_spec 63 (a * 10 + b));
    (split; [intros H'; first [discriminate H'|injection H' as <-; exists a, b; repeat split; lia]|
      intros (a' & b' & ? & ? & ? & ? & ? & ->)]).
  all: assert (a' = a) as -> by lia; assert (b' = b) as -> by lia; try lia; done.
Qed.

Lemma print_int_one j : 0 <= j <= 9 -> print_int j = [ch "0" + j].
Proof. intros. unfold print_int. by assert (j <? 10 = true) as -> by (apply Z.ltb_lt; lia). Qed.

Lemma print_int_two a b : 1 <= a <= 9 -> 0 <= b <= 9 -> print_int (a * 10 + b) = [ch "0" + a; ch "0" + b].
Proof.
  intros. unfold print_int. assert (a * 10 + b <? 10 = false) as -> by (apply Z.ltb_ge; lia).
  assert ((a * 10 + b) / 10 = a) as -> by (symmetry; apply (Z.div_unique _ _ _ b); lia).
  by assert ((a * 10 + b) mod 10 = b) as -> by (symmetry; apply (Z.mod_unique _ _ a); lia).
Qed.

Lemma digit_cases b : 0 <= b <= 9 -> In b [0; 1; 2; 3; 4; 5; 6; 7; 8; 9].
Proof. intros. assert (exists n, b = Z.of_nat n /\ (n < 10)%nat) as (n & -> & Hn) by (exists (Z.to_nat b); lia).
  do 10 (destruct n as [|n]; [simpl; lia|]). lia. Qed.

Lemma number_cases i : 0 <= i <= 63 ->
  (0 <= i <= 9 /\ print_int i = [ch "0" + i]) \/
  exists a b, 1 <= a <= 9 /\ 0 <= b <= 9 /\ i = a * 10 + b /\ print_int i = [ch "0" + a; ch "0" + b].
Proof.
  intros Hi. destruct (decide (i <= 9)).
  - left. split; [lia|]. apply print_int_one. lia.
  - right. exists (i / 10), (i mod 10). pose proof (Z.div_mod i 10 ltac:(lia)).
    pose proof (Z.mod_pos_bound i 10 ltac:(lia)). assert (1 <= i / 10 <= 9) by lia.
    repeat split; try lia. replace i with (i / 10 * 10 + i mod 10) at 1 by lia.
    apply print_int_two; lia.
Qed.

Definition is_kind (t : bus_match_node_type) : Prop := in_range t = true /\ BUS_MATCH_IS_COMPARE t = true.

(** The one- or two-digit reader behind the name of a numbered kind. *)
Ltac numbered_kind :=
  first
  [ apply one_digit_ok; eexists; split; [|split; [reflexivity|reflexivity]]; lia
  | apply two_digits_ok; do 2 eexists; split_and!; [..|reflexivity|reflexivity|reflexivity]; lia ].

Lemma from_string_to_string t rest : is_kind t ->
  bus_match_node_type_from_string (bus_match_node_type_to_string t ++ rest)
    (length (bus_match_node_type_to_string t)) = Ok t.
Proof.
  intros [Hr Hc]. destruct t as [| | | | | | | | | |i|i|i|i]; try done; try reflexivity;
    cbn [bus_match_node_type_to_string]; cbn [in_range] in Hr; ztests;
    destruct (number_cases i) as [[? ->]|(a & b & ? & Hb & -> & ->)]; try lia; try numbered_kind.
  all: apply digit_cases in Hb; cbn [In] in Hb; destruct_or! Hb; subst; try done; numbered_kind.
Qed.

Lemma deref_some r c : deref r = c -> c <> 0 -> exists r', r = c :: r'.
Proof. destruct r as [|x r]; simpl; intros <- ?; [done|eauto]. Qed.

(** What a key with one or two digits and [suffix] after them looks like. *)
Lemma arg_one k mk t suffix :
  has_prefix k (bs "arg") = true -> one_digit k mk = Ok t -> has_prefix (drop 4 k) suffix = true ->
  exists j, 0 <= j <= 9 /\ t = mk j /\
    take (4 + length suffix) k = bs "arg" ++ print_int j ++ suffix /\ (4 + length suffix <= length k)%nat.
Proof.
  intros [r ->]%has_prefix_spec (j & Hj & H3 & ->)%one_digit_ok Hs.
  apply (deref_some r) in H3 as [r' ->]; [|norm_ch; lia].
  apply has_prefix_spec in Hs as [q Hs]. change (r' = suffix ++ q) in Hs. subst r'.
  exists j. rewrite print_int_one by done. split_and!; try lia; try done.
  - change (bs "arg" ++ (ch "0" + j) :: take (length suffix) (suffix ++ q) = bs "arg" ++ [ch "0" + j] ++ suffix).
    by rewrite take_app_length.
  - rewrite length_app. cbn [length]. rewrite length_app. change (length (bs "arg")) with 3%nat. lia.
Qed.

Lemma arg_two k mk t suffix :
  has_prefix k (bs "arg") = true -> two_digits k mk = Ok t -> has_prefix (drop 5 k) suffix = true ->
  exists i, 0 <= i <= 63 /\ t = mk i /\
    take (5 + length suffix) k = bs "arg" ++ print_int i ++ suffix /\ (5 + length suffix <= length k)%nat.
Proof.
  intros [r ->]%has_prefix_spec (a & b & Ha & Hb & Hm & H3 & H4 & ->)%two_digits_ok Hs.
  apply (deref_some r) in H3 as [r1 ->]; [|norm_ch; lia].
  apply (deref_some r1) in H4 as [r2 ->]; [|norm_ch; lia].
  apply has_prefix_spec in Hs as [q Hs]. change (r2 = suffix ++ q) in Hs. subst r2.
  exists (a * 10 + b). rewrite print_int_two by done. split_and!; try done; try lia.
  - change (bs "arg" ++ (ch "0" + a) :: (ch "0" + b) :: take (length suffix) (suffix ++ q)
      = bs "arg" ++ [ch "0" + a; ch "0" + b] ++ suffix). by rewrite take_app_length.
  - rewrite length_app. cbn [length]. rewrite length_app. change (length (bs "arg")) with 3%nat. lia.
Qed.

Lemma has_prefix_nil k : has_prefix k [] = true.
Proof. done. Qed.

Lemma is_kind_number i : 0 <= i <= 63 ->
  is_kind (BUS_MATCH_ARG i) /\ is_kind (BUS_MATCH_ARG_PATH i) /\
  is_kind (BUS_MATCH_ARG_NAMESPACE i) /\ is_kind (BUS_MATCH_ARG_HAS i).
Proof.
  intros. unfold is_kind, in_range, BUS_MATCH_IS_COMPARE, type_number.
  split_and!; apply andb_true_iff; split; apply Z.leb_le; lia.
Qed.

Lemma from_string_ok k n t : bus_match_node_type_from_string k n = Ok t ->
  is_kind t /\ take n k = bus_match_node_type_to_string t /\ (n <= length k)%nat.
Proof.
  unfold bus_match_node_type_from_string. intros H.
  assert (forall s, n = length s -> has_prefix k s = true -> take n k = s /\ (n <= length k)%nat) as Hfix.
  { intros s -> [r ->]%has_prefix_spec. rewrite take_app_length, length_app. split; [done|lia]. }
  repeat match type of H with (if ?b then _ else _) = Ok _ => destruct b eqn:?; ztests end; try discriminate H.
  all: repeat match goal with E : Nat.eqb _ _ = true |- _ => apply Nat.eqb_eq in E end.
  all: try (injection H as <-; split; [by split|]; apply Hfix; done).
  all: first
    [ eapply arg_one in H; [|eassumption|eassumption]
    | eapply (arg_one _ _ _ []) in H; [|eassumption|done]
    | eapply arg_two in H; [|eassumption|eassumption]
    | eapply (arg_two _ _ _ []) in H; [|eassumption|done] ].
  all: destruct H as (i & Hi & -> & Ht & Hl); pose proof (is_kind_number i ltac:(lia)) as (? & ? & ? & ?).
  all: subst n; split; [done|]; split; [|exact Hl]; refine (eq_trans Ht _); try done; by rewrite app_nil_r.
Qed.

Lemma from_string_err k n e : bus_match_node_type_from_string k n = Err e -> e = EINVAL.
Proof.
  unfold bus_match_node_type_from_string, one_digit, two_digits. intros H.
  repeat case_match; congruence.
Qed.

(** ** Writing rules *)

(** How a component is written: with quotes or without, after some spaces. *)
Record style := Style { quotes : bool; spaces : nat }.

(** Characters that need a backslash. *)
Definition special (quoted : bool) (c : Z) : bool :=
  (c =? ch "\") || (c =? ch "'") || (negb quoted && (c =? ch ",")).

Definition escape_value (quoted : bool) (v : cstr) : cstr :=
  concat (map (fun c => if special quoted c then [ch "\"; c] else [c]) v).

(** The text of the value of a component. *)
Definition value_text (c : bus_match_component) : cstr :=
  if bool_decide (c_type c = BUS_MATCH_MESSAGE_TYPE)
  then default [] (bus_message_type_to_string (value_u8 c))
  else default [] (value_str c).

Definition format_component (sc : style * bus_match_component) : cstr :=
  let '(s, c) := sc in
  let v := escape_value (quotes s) (value_text c) in
  replicate (spaces s) (ch " ") ++ bus_match_node_type_to_string (c_type c) ++ bs "=" ++
  (if quotes s then bs "'" ++ v ++ bs "'" else v).

Definition format_rule (l : list (style * bus_match_component)) : cstr :=
  join_with (ch ",") (map format_component l).

(** Components the parser produces: a message type is a number, anything else a
    C string. *)
Definition component_ok (c : bus_match_component) : Prop :=
  is_kind (c_type c) /\
  if bool_decide (c_type c = BUS_MATCH_MESSAGE_TYPE)
  then value_str c = None /\ is_Some (bus_message_type_to_string (value_u8 c))
  else value_u8 c = 0 /\ exists v, value_str c = Some v /\ is_cstr v.

(** Strictly ascending kinds: the order the tree is built in. *)
Definition kind_lt (a b : bus_match_component) : Prop := type_number (c_type a) < type_number (c_type b).
Definition rule_ok (cs : list bus_match_component) : Prop :=
  Forall component_ok cs /\ StronglySorted kind_lt cs.

Lemma value_loop_escaped (quoted : bool) v stop :
  (if quoted then exists r, stop = ch "'" :: r else stop = [] \/ exists r, stop = ch "," :: r) ->
  value_loop quoted false (escape_value quoted v ++ stop) = Ok (v, stop).
Proof.
  intros Hs. unfold escape_value. induction v as [|c v IH].
  - cbn [map concat app]. destruct quoted.
    + destruct Hs as [r ->]. done.
    + by destruct Hs as [->|[r ->]].
  - cbn [map concat]. rewrite <- app_assoc. destruct (special quoted c) eqn:E; cbn [app].
    + cbn [value_loop]. change (ch "\" =? ch "\") with true. cbn iota. cbn [value_loop]. by rewrite IH.
    + cbn [value_loop]. unfold special in E. rewrite !orb_false_iff in E. destruct E as [[E1 E2] E3].
      rewrite IH, E1, E2. destruct quoted; [done|]. cbn [negb andb] in E3. by rewrite E3.
Qed.

Lemma strchr_app name c r : c ∉ name -> strchr (name ++ c :: r) c = Some (length name).
Proof.
  induction name as [|x name IH]; intros H; cbn [app strchr length].
  - by rewrite Z.eqb_refl.
  - apply not_elem_of_cons in H as [Hx H]. destruct (Z.eqb_spec x c); [done|]. by rewrite IH.
Qed.

(** The name of a kind: not empty, no space in front, no equals sign. *)
Lemma kind_name t : is_kind t ->
  exists c r, bus_match_node_type_to_string t = c :: r /\ c <> ch " " /\ c <> 0 /\ ch "=" ∉ c :: r.
Proof.
  intros [Hr Hc]. destruct t as [| | | | | | | | | |i|i|i|i]; try done; cbn [bus_match_node_type_to_string];
    cbn [in_range] in Hr; ztests;
    try destruct (number_cases i) as [[? ->]|(a & b & ? & ? & -> & ->)]; try lia;
    cbn [bs app]; do 2 eexists; (split; [reflexivity|]); (split; [done|]); (split; [done|]);
    apply not_elem_of_cons; (split; [done|]);
    repeat (apply not_elem_of_cons; split; [norm_ch; lia|]); apply not_elem_of_nil.
Qed.

Lemma skip_spaces_replicate n c r : c <> ch " " -> skip_spaces (replicate n (ch " ") ++ c :: r) = c :: r.
Proof.
  intros H. induction n as [|n IH]; cbn [replicate app skip_spaces].
  - by destruct (Z.eqb_spec c (ch " ")).
  - by rewrite Z.eqb_refl.
Qed.

(** Where a component may end: the string's end or a comma. *)
Definition at_stop (stop : cstr) : Prop := stop = [] \/ exists r, stop = ch "," :: r.

Lemma value_text_ok c : component_ok c ->
  (if bool_decide (c_type c = BUS_MATCH_MESSAGE_TYPE) then
     u ← bus_message_type_from_string (value_text c); Ok (Component (c_type c) u None)
   else Ok (Component (c_type c) 0 (Some (value_text c)))) = Ok c.
Proof.
  intros [_ H]. unfold value_text. destruct c as [t u8 str]. cbn in *.
  destruct (bool_decide (t = BUS_MATCH_MESSAGE_TYPE)).
  - destruct H as [-> [s Hs]]. rewrite Hs. cbn. apply message_type_roundtrip in Hs. by rewrite Hs.
  - by destruct H as [-> (v & -> & _)].
Qed.

Lemma char_at_app_head name c r i : i = length name -> char_at (name ++ c :: r) i = c.
Proof. intros ->. unfold char_at. by rewrite drop_app_length. Qed.

(** The first character of an escaped value is not a quote. *)
Lemma escape_no_quote v stop : at_stop stop -> char_at (escape_value false v ++ stop) 0 <> ch "'".
Proof.
  intros Hs. destruct v as [|c v].
  - cbn [escape_value map concat app]. by destruct Hs as [->|[r ->]].
  - unfold escape_value. cbn [map concat]. destruct (special false c) eqn:E; cbn [app]; [done|].
    unfold special in E. rewrite !orb_false_iff in E. destruct E as [[_ E] _]. by apply Z.eqb_neq in E.
Qed.

Lemma parse_component_at t V : is_kind t ->
  parse_component (bus_match_node_type_to_string t ++ ch "=" :: V) =
  (let quoted := deref V =? ch "'" in
   '(value, q) ← value_loop quoted false (if quoted then drop 1 V else V);
   let q := if quoted then drop 1 q else q in
   if bool_decide (t = BUS_MATCH_MESSAGE_TYPE) then
     u ← bus_message_type_from_string value; Ok (Component t u None, q)
   else Ok (Component t 0 (Some value), q)).
Proof.
  intros Ht. unfold parse_component. destruct (kind_name t Ht) as (x & name & En & _ & _ & Hn).
  rewrite strchr_app by (by rewrite En). cbv iota beta.
  rewrite from_string_to_string by done. cbn [mbind res_bind]. rewrite drop_app_length.
  change (char_at (ch "=" :: V) 1) with (deref V). by destruct (deref V =? ch "'").
Qed.

Lemma skip_spaces_kind n t V : is_kind t ->
  skip_spaces (replicate n (ch " ") ++ bus_match_node_type_to_string t ++ V) = bus_match_node_type_to_string t ++ V.
Proof.
  intros Ht. destruct (kind_name t Ht) as (x & name & -> & Hx & _). by apply skip_spaces_replicate.
Qed.

Lemma parse_component_format s c stop : component_ok c -> at_stop stop ->
  parse_component (skip_spaces (format_component (s, c) ++ stop)) = Ok (c, stop).
Proof.
  intros Hc Hs. cbn [format_component]. rewrite <- !app_assoc. rewrite skip_spaces_kind by apply Hc.
  change (bs "=") with [ch "="]. cbn [app]. rewrite parse_component_at by apply Hc.
  destruct s as [quoted n]. cbn [quotes]. pose proof (value_text_ok c Hc) as Hv. destruct quoted.
  - change (deref ((bs "'" ++ _ ++ _) ++ stop) =? ch "'") with true. cbv zeta iota.
    change (drop 1 ((bs "'" ++ ?v ++ ?w) ++ stop)) with ((v ++ w) ++ stop). rewrite <- app_assoc.
    rewrite (value_loop_escaped true) by (by eexists). cbn [mbind res_bind].
    change (drop 1 (bs "'" ++ stop)) with stop.
    destruct (bool_decide (c_type c = BUS_MATCH_MESSAGE_TYPE)).
    + destruct (bus_message_type_from_string (value_text c)); [|done]. cbn [mbind res_bind] in *. by injection Hv as ->.
    + by injection Hv as ->.
  - pose proof (escape_no_quote (value_text c) stop Hs) as Hq. unfold char_at in Hq. rewrite drop_0 in Hq.
    apply Z.eqb_neq in Hq. rewrite Hq. cbv zeta iota.
    rewrite (value_loop_escaped false) by done. cbn [mbind res_bind].
    destruct (bool_decide (c_type c = BUS_MATCH_MESSAGE_TYPE)).
    + destruct (bus_message_type_from_string (value_text c)); [|done]. cbn [mbind res_bind] in *. by injection Hv as ->.
    + by injection Hv as ->.
Qed.

Lemma format_component_head s c stop : component_ok c ->
  deref (format_component (s, c) ++ stop) <> 0 /\ (0 < length (format_component (s, c)))%nat.
Proof.
  intros Hc. destruct (kind_name (c_type c)) as (x & name & En & Hx & Hx0 & Heq); [apply Hc|].
  cbn [format_component]. rewrite En. destruct (spaces s); cbn; split; try done; lia.
Qed.

Lemma parse_loop_format l : forall fuel, Forall (fun sc => component_ok sc.2) l ->
  (length (format_rule l) < fuel)%nat -> parse_loop fuel (format_rule l) = Ok (map snd l).
Proof.
  unfold format_rule.
  induction l as [|[s c] l IH]; intros fuel Hl Hf; (destruct fuel as [|fuel]; [lia|]); cbn [parse_loop].
  { done. }
  inversion_clear Hl as [|?? Hc Hl']. cbn [snd] in Hc. destruct l as [|sc l].
  - cbn [map join_with]. rewrite <- (app_nil_r (format_component (s, c))).
    destruct (format_component_head s c [] Hc) as [H0 _]. apply Z.eqb_neq in H0. rewrite H0.
    rewrite parse_component_format by (done || by left). done.
  - change (join_with (ch ",") (map format_component ((s, c) :: sc :: l)))
      with (format_component (s, c) ++ ch "," :: join_with (ch ",") (map format_component (sc :: l))) in *.
    set (rest := join_with (ch ",") (map format_component (sc :: l))) in *.
    destruct (format_component_head s c (ch "," :: rest) Hc) as [H0 Hlen]. apply Z.eqb_neq in H0. rewrite H0.
    rewrite parse_component_format; [|done|right; by eexists]. cbn [mbind res_bind deref].
    change (ch "," =? 0) with false. change (negb (ch "," =? ch ",")) with false. cbv iota.
    cbn [drop]. rewrite drop_0. unfold rest in *. rewrite IH; [done|done|].
    rewrite length_app in Hf. cbn [length] in Hf. lia.
Qed.

(** ** Sorting *)
Lemma insert_component_perm c l : insert_component c l ≡ₚ c :: l.
Proof.
  induction l as [|d l IH]; cbn [insert_component]; [done|].
  destruct (match_component_compare c d <=? 0); [done|]. rewrite IH. apply Permutation_swap.
Qed.

Lemma sort_components_perm l : sort_components l ≡ₚ l.
Proof.
  induction l as [|c l IH]; [done|]. unfold sort_components in *. cbn [fold_right].
  by rewrite insert_component_perm, IH.
Qed.

Definition kind_le (a b : bus_match_component) : Prop := type_number (c_type a) <= type_number (c_type b).

Lemma compare_le a b : (match_component_compare a b <=? 0) = true <-> kind_le a b.
Proof.
  unfold match_component_compare, kind_le.
  destruct (Z.ltb_spec (type_number (c_type a)) (type_number (c_type b))),
    (Z.ltb_spec (type_number (c_type b)) (type_number (c_type a))); cbn; split; intros; lia || done.
Qed.

Lemma insert_component_sorted c l :
  StronglySorted kind_le l -> StronglySorted kind_le (insert_component c l).
Proof.
  induction 1 as [|d l Hl IH Hd]; cbn [insert_component]; [by repeat constructor|].
  destruct (match_component_compare c d <=? 0) eqn:E.
  - apply compare_le in E. constructor; [by constructor|]. constructor; [done|].
    eapply Forall_impl; [done|]. unfold kind_le in *. cbn. lia.
  - constructor; [done|]. rewrite insert_component_perm. constructor; [|done].
    assert (~ kind_le c d) by (rewrite <- compare_le; congruence). unfold kind_le in *. lia.
Qed.

Lemma sort_components_sorted l : StronglySorted kind_le (sort_components l).
Proof. induction l; [constructor|]. by apply insert_component_sorted. Qed.

(** The numbers tell the kinds apart. *)
Lemma type_number_inj s t : is_kind s -> is_kind t -> type_number s = type_number t -> s = t.
Proof.
  intros [Hs _] [Ht _]. destruct s, t; cbn in *; intros H; try done; try lia; ztests; try lia;
    f_equal; lia.
Qed.

Lemma duplicates_spec l : Forall component_ok l -> StronglySorted kind_le l ->
  if duplicates l then ~ NoDup (c_type <$> l) else StronglySorted kind_lt l.
Proof.
  intros Hk. induction 1 as [|a l Hl IH Ha]; [constructor|]. inversion_clear Hk as [|?? Hka Hkl].
  specialize (IH Hkl). cbn [duplicates]. destruct l as [|b l]; [by repeat constructor|].
  destruct (bool_decide_reflect (c_type a = c_type b)) as [E|E]; cbn [orb].
  { rewrite !fmap_cons, E. intros [Hn _]%NoDup_cons. apply Hn. left. }
  destruct (duplicates (b :: l)).
  - rewrite fmap_cons. intros [_ Hn]%NoDup_cons. by apply IH.
  - constructor; [done|]. inversion_clear Ha as [|?? Hab Hal]. inversion_clear Hkl as [|?? Hkb _].
    inversion_clear IH as [|?? _ Hb].
    assert (kind_lt a b) as Hlt.
    { unfold kind_le, kind_lt in *. destruct (decide (type_number (c_type a) = type_number (c_type b))) as [En|]; [|lia].
      destruct E. by apply type_number_inj; [apply Hka|apply Hkb|]. }
    constructor; [done|]. eapply Forall_impl; [exact Hb|]. unfold kind_lt in *. cbn. lia.
Qed.

Lemma kind_lt_nodup l : StronglySorted kind_lt l -> NoDup (c_type <$> l).
Proof.
  induction 1 as [|a l Hl IH Ha]; [constructor|]. rewrite fmap_cons. constructor; [|done].
  intros (b & E & Hb)%list_elem_of_fmap. rewrite Forall_forall in Ha. specialize (Ha b Hb).
  unfold kind_lt in Ha. rewrite E in Ha. lia.
Qed.

(** ** Every rule *)

(** A result satisfying [P], or [-EINVAL]. *)
Definition ok_or_einval {A} (P : A -> Prop) (r : res A) : Prop :=
  match r with Ok a => P a | Err e => e = EINVAL end.

Lemma ok_or_einval_bind {A B} (Q : A -> Prop) (P : B -> Prop) (r : res A) (f : A -> res B) :
  ok_or_einval Q r -> (forall a, Q a -> ok_or_einval P (f a)) -> ok_or_einval P (r ≫= f).
Proof. destruct r; simpl; auto. Qed.

Lemma ok_or_einval_mono {A} (Q P : A -> Prop) (r : res A) :
  ok_or_einval Q r -> (forall a, Q a -> P a) -> ok_or_einval P r.
Proof. destruct r; simpl; auto. Qed.

Lemma value_loop_any (quoted : bool) q : is_cstr q -> forall escaped,
  ok_or_einval (fun '(v, e) => is_cstr v /\ is_cstr e /\ (length e <= length q)%nat) (value_loop quoted escaped q).
Proof.
  induction 1 as [|c q Hc Hq IH]; intros escaped; cbn [value_loop].
  { destruct quoted; cbn; [done|]. split_and!; [constructor|constructor|done]. }
  assert (ok_or_einval (fun '(v, e) => is_cstr v /\ is_cstr e /\ (length e <= length (c :: q))%nat)
    ('(v, e) ← value_loop quoted false q; Ok (c :: v, e))) as Happ.
  { eapply ok_or_einval_bind; [apply IH|]. intros [v e] (Hv & He & Hl). cbn. split_and!; [by constructor|done|lia]. }
  destruct escaped; [done|]. destruct (c =? ch "\").
  { eapply ok_or_einval_mono; [apply IH|]. intros [v e] (Hv & He & Hl). cbn. split_and!; [done|done|lia]. }
  destruct quoted, (c =? ch "'"), (c =? ch ","); try done; cbn; (split_and!; [constructor|by constructor|done]).
Qed.

Lemma skip_spaces_any p : is_cstr p -> is_cstr (skip_spaces p) /\ (length (skip_spaces p) <= length p)%nat.
Proof.
  induction 1 as [|c p Hc Hp IH]; cbn [skip_spaces]; [split; [constructor|done]|].
  destruct (c =? ch " ").
  - split; [apply IH|]. cbn [length]. destruct IH. lia.
  - split; [by constructor|done].
Qed.

Lemma is_cstr_drop n p : is_cstr p -> is_cstr (drop n p).
Proof. apply Forall_drop. Qed.

Lemma strchr_some p c n : strchr p c = Some n -> (n < length p)%nat.
Proof.
  revert n; induction p as [|x p IH]; intros n H; cbn [strchr] in H; [done|]. destruct (x =? c).
  - injection H as <-. cbn. lia.
  - destruct (strchr p c); [|done]. injection H as <-. cbn. specialize (IH _ eq_refl). lia.
Qed.

Lemma parse_component_any p : is_cstr p ->
  ok_or_einval (fun '(c, q) => component_ok c /\ is_cstr q /\ (length q < length p)%nat) (parse_component p).
Proof.
  intros Hp. unfold parse_component. destruct (strchr p (ch "=")) as [n|] eqn:En; [|done].
  apply strchr_some in En.
  eapply (ok_or_einval_bind is_kind).
  { destruct (bus_match_node_type_from_string p n) as [t|e] eqn:Et; cbn.
    - by apply from_string_ok in Et as [? _].
    - by apply from_string_err in Et. }
  intros t Ht. cbv zeta. set (quoted := char_at (drop n p) 1 =? ch "'").
  eapply ok_or_einval_bind; [by apply value_loop_any, is_cstr_drop, is_cstr_drop|].
  intros [v q] (Hv & Hq & Hl). rewrite !length_drop in Hl.
  assert (is_cstr (if quoted then drop 1 q else q) /\ (length (if quoted then drop 1 q else q) < length p)%nat) as [??].
  { destruct quoted; [|split; [done|lia]]. split; [by apply is_cstr_drop|]. rewrite length_drop. lia. }
  destruct (bool_decide_reflect (t = BUS_MATCH_MESSAGE_TYPE)) as [->|Hne].
  - destruct (bus_message_type_from_string v) as [u|e] eqn:Eu; cbn.
    + apply message_type_roundtrip in Eu. split; [|done]. split; [done|]. cbn. by eauto.
    + unfold bus_message_type_from_string in Eu. repeat case_match; congruence.
  - cbn. split; [|done]. split; [done|]. cbn. rewrite bool_decide_false by done. by eauto.
Qed.

Lemma parse_loop_any fuel : forall p, is_cstr p -> (length p < fuel)%nat ->
  ok_or_einval (Forall component_ok) (parse_loop fuel p).
Proof.
  induction fuel as [|fuel IH]; intros p Hp Hf; [lia|]. cbn [parse_loop].
  destruct (deref p =? 0); [constructor|]. destruct (skip_spaces_any p Hp) as [Hs Hl].
  eapply ok_or_einval_bind; [by apply parse_component_any|]. intros [c q] (Hc & Hq & Hlq).
  destruct (deref q =? 0); [by apply Forall_singleton|]. destruct (negb _); [done|].
  eapply ok_or_einval_bind; [apply IH; [by apply is_cstr_drop|rewrite length_drop; lia]|].
  intros cs Hcs. cbn. by constructor.
Qed.

Lemma forallb_Forall_cstr s : forallb (fun c => (0 <? c) && (c <? 256)) s = true -> is_cstr s.
Proof. rewrite forallb_Forall. intros Hs. eapply Forall_impl; [exact Hs|]. cbn. intros c Hc. ztests. lia. Qed.

Lemma sort_components_ok cs : Forall component_ok cs ->
  if duplicates (sort_components cs) then ~ NoDup (c_type <$> cs) else rule_ok (sort_components cs).
Proof.
  intros Hc. assert (Forall component_ok (sort_components cs)) as Hs by (by rewrite sort_components_perm).
  pose proof (duplicates_spec _ Hs (sort_components_sorted cs)) as Hd.
  destruct (duplicates (sort_components cs)).
  - by rewrite sort_components_perm in Hd.
  - by split.
Qed.

(** C37. Every string is a rule or refused: [bus_match_parse] terminates without
    running past the string, answers [-EINVAL] and nothing else when it refuses,
    and otherwise returns components of valid kinds, at most one of a kind, in
    the order in which the match tree is built; the keys it takes are exactly
    the names of the kinds. *)
Theorem bus_match_parse_total rule k n t :
  is_cstr rule ->
  ok_or_einval rule_ok (bus_match_parse rule) /\
  (bus_match_node_type_from_string k n = Ok t <->
   is_kind t /\ n = length (bus_match_node_type_to_string t) /\
   exists r, k = bus_match_node_type_to_string t ++ r).
Proof.
  intros Hr. split.
  - unfold bus_match_parse. eapply ok_or_einval_bind; [by apply parse_loop_any; [|lia]|].
    intros cs Hcs. cbv zeta. pose proof (sort_components_ok cs Hcs). by destruct (duplicates _).
  - split.
    + intros (Hk & Ht & Hl)%from_string_ok. split; [done|]. split.
      * rewrite <- Ht, length_take. lia.
      * exists (drop n k). by rewrite <- Ht, take_drop.
    + intros (Hk & -> & r & ->). by apply from_string_to_string.
Qed.

Lemma bus_match_parse_total_witness :
  ok_or_einval rule_ok (bus_match_parse (bs "type='signal', sender=foo\,bar,arg63namespace='a\'b',")) /\
  bus_match_node_type_from_string (bs "arg63path='") 9 = Ok (BUS_MATCH_ARG_PATH 63).
Proof.
  assert (is_cstr (bs "type='signal', sender=foo\,bar,arg63namespace='a\'b',")) as Hc.
  { apply forallb_Forall_cstr. vm_compute. reflexivity. }
  destruct (bus_match_parse_total _ (bs "arg63path='") 9%nat (BUS_MATCH_ARG_PATH 63) Hc) as [H1 [_ H2]].
  split; [exact H1|]. apply H2. split; [split; reflexivity|]. split; [reflexivity|].
  exists (bs "='"). reflexivity.
Defined.

(** C38. Writing a rule and parsing it: whatever the order of the components,
    the quotes and the spaces, with the special characters escaped, the parser
    returns the components, sorted; it refuses the rule exactly when a kind
    occurs twice. *)
Theorem bus_match_parse_format l :
  Forall (fun sc => component_ok sc.2) l ->
  bus_match_parse (format_rule l) =
  (if bool_decide (NoDup (c_type <$> map snd l)) then Ok (sort_components (map snd l)) else Err EINVAL).
Proof.
  intros Hl. unfold bus_match_parse. rewrite parse_loop_format by (done || lia). cbn [mbind res_bind].
  assert (Forall component_ok (map snd l)) as Hc by (by apply Forall_map).
  pose proof (sort_components_ok _ Hc) as Hs. destruct (duplicates _).
  - by rewrite bool_decide_false.
  - rewrite bool_decide_true; [done|]. destruct Hs as [_ Hs%kind_lt_nodup].
    by rewrite sort_components_perm in Hs.
Qed.

Definition sample_rule : list (style * bus_match_component) :=
  [ (Style true 0, Component (BUS_MATCH_ARG_PATH 12) 0 (Some (bs "/a,'b\")));
    (Style false 2, Component BUS_MATCH_MESSAGE_TYPE 4 None);
    (Style false 0, Component BUS_MATCH_MEMBER 0 (Some (bs "'x',")));
    (Style true 1, Component BUS_MATCH_SENDER 0 (Some [])) ].

Lemma bus_match_parse_format_witness :
  format_rule sample_rule = bs "arg12path='/a,\'b\\',  type=signal,member=\'x\'\,, sender=''" /\
  bus_match_parse (format_rule sample_rule) = Ok
    [ Component BUS_MATCH_SENDER 0 (Some []); Component BUS_MATCH_MESSAGE_TYPE 4 None;
      Component BUS_MATCH_MEMBER 0 (Some (bs "'x',"));
      Component (BUS_MATCH_ARG_PATH 12) 0 (Some (bs "/a,'b\")) ].
Proof.
  split; [vm_compute; reflexivity|]. rewrite (bus_match_parse_format sample_rule).
  - vm_compute. reflexivity.
  - repeat constructor; cbn; eauto; eexists; (split; [reflexivity|]); apply forallb_Forall_cstr; reflexivity.
Defined.

(** ** The rules [sd_bus_match_signal()] writes *)
Lemma escape_plain quoted v : Forall (fun c => special quoted c = false) v -> escape_value quoted v = v.
Proof. induction 1 as [|c v Hc Hv IH]; [done|]. unfold escape_value in *. cbn. by rewrite Hc, IH. Qed.

(** No character of a valid name needs escaping. *)
Definition plain (v : cstr) : Prop := Forall (fun c => special true c = false) v.

Lemma sep_loop_chars sep good q : forall start found r,
  sep_loop sep good start found q = Some r -> Forall (fun c => c = sep \/ exists b, good b c = true) q.
Proof.
  induction q as [|c q IH]; intros start found r H; [constructor|]. cbn [sep_loop] in H.
  destruct (Z.eqb_spec c sep) as [->|Hc].
  - destruct start; [done|]. constructor; [by left|by eapply IH].
  - destruct (good start c) eqn:E; [|done]. constructor; [right; by exists start|exact (IH _ _ _ H)].
Qed.

Lemma plain_sep_loop sep good start found q r :
  sep_loop sep good start found q = Some r -> special true sep = false ->
  (forall b c, good b c = true -> special true c = false) -> plain q.
Proof.
  intros H Hs Hg. eapply Forall_impl; [by eapply sep_loop_chars|]. cbn. intros c [->|[b Hb]]; [done|by eapply Hg].
Qed.

Lemma good_special b c :
  (path_good b c = true \/ interface_good b c = true \/ (exists u, service_good u b c = true) \/ member_good c = true) ->
  special true c = false.
Proof.
  intros H. unfold special. cbn [negb andb]. rewrite orb_false_r.
  destruct (Z.eqb_spec c (ch "\")) as [->|].
  { destruct H as [H|[H|[[[] H]|H]]]; destruct b; discriminate H. }
  destruct (Z.eqb_spec c (ch "'")) as [->|]; [|done].
  destruct H as [H|[H|[[[] H]|H]]]; destruct b; discriminate H.
Qed.

Lemma valid_names_plain v : is_cstr v ->
  (service_name_is_valid v = true -> plain v) /\ (object_path_is_valid v = true -> plain v) /\
  (interface_name_is_valid v = true -> plain v) /\ (member_name_is_valid v = true -> plain v).
Proof.
  intros Hv. split_and!.
  - unfold service_name_is_valid. destruct (deref v =? 0); [done|].
    destruct (Z.eqb_spec (deref v) (ch ":")) as [Hd|Hd]; destruct (sep_loop _ _ _ _ _) as [r|] eqn:E; try done; intros _.
    + destruct v as [|c v]; [done|]. cbn in Hd, E. subst c. constructor; [done|].
      eapply plain_sep_loop; [exact E|done|]. intros b c H. apply (good_special b). eauto.
    + eapply plain_sep_loop; [exact E|done|]. intros b c H. apply (good_special b). eauto.
  - unfold object_path_is_valid. destruct (Z.eqb_spec (deref v) (ch "/")) as [Hd|Hd]; [|done]. cbn [negb].
    destruct v as [|c v]; [done|]. cbn in Hd. subst c. intros H. constructor; [done|].
    destruct v as [|d v]; [constructor|]. change (char_at (ch "/" :: d :: v) 1) with d in H.
    assert (d =? 0 = false) as Hd.
    { inversion Hv as [|? ? ? H2]; subst. inversion H2; subst. apply Z.eqb_neq. lia. }
    rewrite Hd in H. cbn [tail] in H. destruct (sep_loop _ _ _ _ _) as [r|] eqn:E; [|done].
    eapply plain_sep_loop; [exact E|done|]. intros b c Hc. apply (good_special b). eauto.
  - unfold interface_name_is_valid. destruct (deref v =? 0); [done|].
    destruct (sep_loop _ _ _ _ _) as [r|] eqn:E; [|done]. intros _.
    eapply plain_sep_loop; [exact E|done|]. intros b c H. apply (good_special b). eauto.
  - unfold member_name_is_valid. destruct (deref v =? 0); [done|].
    destruct (forallb member_good v) eqn:E; [|done]. intros _. apply forallb_Forall in E.
    eapply Forall_impl; [exact E|]. cbn. intros c H. apply (good_special false). eauto.
Qed.

(** The name is absent, or a string that passes its check. *)
Definition valid_or_absent (valid : cstr -> bool) (v : option cstr) : Prop :=
  match v with Some v => is_cstr v /\ valid v = true | None => True end.

Definition component_of (t : bus_match_node_type) (v : option cstr) : list bus_match_component :=
  match v with Some v => [Component t 0 (Some v)] | None => [] end.

Lemma expression_part_format key t (v : option cstr) :
  bs key = ch "," :: bus_match_node_type_to_string t ++ bs "='" -> t <> BUS_MATCH_MESSAGE_TYPE ->
  (forall w, v = Some w -> plain w) ->
  expression_part key v =
  concat (map (fun c => ch "," :: format_component (Style true 0, c)) (component_of t v)).
Proof.
  intros Hk Ht Hv. destruct v as [v|]; [|done]. cbn [expression_part component_of map concat]. rewrite Hk.
  cbn [format_component quotes spaces c_type]. unfold value_text. cbn [c_type value_str].
  rewrite bool_decide_false by done. cbn [default]. rewrite escape_plain by by apply Hv.
  rewrite app_nil_r. cbn [replicate app]. rewrite <- !app_assoc. done.
Qed.

Lemma join_with_cons sep e es : join_with sep (e :: es) = e ++ concat (map (cons sep) es).
Proof.
  revert e; induction es as [|e' es IH]; intros e; [by rewrite app_nil_r|].
  cbn [join_with map concat] in *. rewrite IH. done.
Qed.

Lemma make_expression_format sender path interface member :
  valid_or_absent service_name_is_valid sender -> valid_or_absent object_path_is_valid path ->
  valid_or_absent interface_name_is_valid interface -> valid_or_absent member_name_is_valid member ->
  make_expression sender path interface member =
  format_rule (map (pair (Style true 0))
    (Component BUS_MATCH_MESSAGE_TYPE SD_BUS_MESSAGE_SIGNAL None ::
     component_of BUS_MATCH_SENDER sender ++ component_of BUS_MATCH_PATH path ++
     component_of BUS_MATCH_INTERFACE interface ++ component_of BUS_MATCH_MEMBER member)).
Proof.
  intros Hs Hp Hi Hm. unfold make_expression, format_rule.
  rewrite (expression_part_format ",sender='" BUS_MATCH_SENDER), (expression_part_format ",path='" BUS_MATCH_PATH),
    (expression_part_format ",interface='" BUS_MATCH_INTERFACE), (expression_part_format ",member='" BUS_MATCH_MEMBER).
  - rewrite !map_cons, join_with_cons, !map_map, !map_app, !concat_app. done.
  - done.
  - done.
  - intros w ->. destruct Hm as [Hc Hm]. destruct (valid_names_plain w Hc) as (?&?&?&?). auto.
  - done.
  - done.
  - intros w ->. destruct Hi as [Hc Hi]. destruct (valid_names_plain w Hc) as (?&?&?&?). auto.
  - done.
  - done.
  - intros w ->. destruct Hp as [Hc Hp]. destruct (valid_names_plain w Hc) as (?&?&?&?). auto.
  - done.
  - done.
  - intros w ->. destruct Hs as [Hc Hs]. destruct (valid_names_plain w Hc) as (?&?&?&?). auto.
Qed.

Lemma component_of_ok valid t v : is_kind t -> t <> BUS_MATCH_MESSAGE_TYPE -> valid_or_absent valid v ->
  Forall component_ok (component_of t v).
Proof.
  intros Hk Ht Hv. destruct v as [v|]; [|constructor]. apply Forall_singleton. split; [done|]. cbn.
  rewrite bool_decide_false by done. split; [done|]. exists v. split; [done|]. apply Hv.
Qed.

(** The rule [sd_bus_match_signal()] writes for names that pass their checks
    is parsed as exactly these constraints: a signal, from this sender, path,
    interface and member, each where given. *)
Theorem make_expression_parses sender path interface member :
  valid_or_absent service_name_is_valid sender -> valid_or_absent object_path_is_valid path ->
  valid_or_absent interface_name_is_valid interface -> valid_or_absent member_name_is_valid member ->
  bus_match_parse (make_expression sender path interface member) =
  Ok (component_of BUS_MATCH_SENDER sender ++
      [Component BUS_MATCH_MESSAGE_TYPE SD_BUS_MESSAGE_SIGNAL None] ++
      component_of BUS_MATCH_INTERFACE interface ++ component_of BUS_MATCH_MEMBER member ++
      component_of BUS_MATCH_PATH path).
Proof.
  intros Hs Hp Hi Hm. rewrite make_expression_format by done.
  unfold bus_match_parse. rewrite parse_loop_format.
  - rewrite map_map, map_id. cbn [mbind res_bind].
    by destruct sender, path, interface, member.
  - apply Forall_map. apply Forall_cons_2; [split; [by split|by split; [|eexists]]|].
    rewrite !Forall_app. split_and!; by eapply component_of_ok.
  - lia.
Qed.

Lemma make_expression_parses_witness :
  bus_match_parse (make_expression (Some (bs "org.freedesktop.DBus")) (Some (bs "/a/b")) None (Some (bs "Ping"))) =
  Ok [ Component BUS_MATCH_SENDER 0 (Some (bs "org.freedesktop.DBus"));
       Component BUS_MATCH_MESSAGE_TYPE 4 None; Component BUS_MATCH_MEMBER 0 (Some (bs "Ping"));
       Component BUS_MATCH_PATH 0 (Some (bs "/a/b")) ].
Proof.
  apply (make_expression_parses (Some (bs "org.freedesktop.DBus")) (Some (bs "/a/b")) None (Some (bs "Ping")));
    first [exact I|split; [apply forallb_Forall_cstr|]; vm_compute; reflexivity].
Defined.
