(* ===== verification/MatchTree.v ===== *)
(** * The match tree ([src/libsystemd/sd-bus/bus-match.c], the tree)

    Rules are kept in a tree: below the root and below every value node a list of
    leaves (callbacks) and compare nodes, below a compare node its value nodes,
    in a hash table for the kinds that compare whole strings and in a list for
    the others. [bus_match_run] dispatches a message along the tree;
    [process_match] of [sd-bus.c] repeats it while callbacks change the tree.

    A pointer to a node is the node; lists linked by [next] are lists. The hash
    table of a compare node is the list of its value nodes, looked up by their
    own value, which is the key. A callback is its number. *)
From S2P Require Import Prelude HexDecOct Names MatchRule.

(** ** Messages, as the tree sees them

    What the dispatcher needs of a message; [bus-message.c] provides it. *)
Class MatchMessage (M : Type) := {
  header_type : M -> Z;
  m_sender : M -> option cstr;
  m_destination : M -> option cstr;
  m_interface : M -> option cstr;
  m_member : M -> option cstr;
  m_path : M -> option cstr;
  (** [creds.well_known_names], where the credentials have them *)
  well_known_names : M -> option (list cstr);
  (** [(void) bus_message_get_arg(m, i, &str)], [bus_message_get_arg_strv] *)
  get_arg : Z -> M -> option cstr * M;
  get_arg_strv : Z -> M -> option (list cstr) * M;
  (** [sd_bus_message_rewind(m, true)] *)
  rewind : M -> res unit * M }.

(** Reading a message moves its read position only: [same] relates the states of
    one message, and nothing the dispatcher asks for depends on the state. *)
Class MatchMessageLaws (M : Type) `{MatchMessage M} (same : relation M) : Prop := {
  #[global] same_equiv :: Equivalence same;
  same_fields m1 m2 : same m1 m2 ->
    header_type m1 = header_type m2 /\ m_sender m1 = m_sender m2 /\
    m_destination m1 = m_destination m2 /\ m_interface m1 = m_interface m2 /\
    m_member m1 = m_member m2 /\ m_path m1 = m_path m2 /\
    well_known_names m1 = well_known_names m2;
  get_arg_same i m1 m2 : same m1 m2 -> (get_arg i m1).1 = (get_arg i m2).1;
  get_arg_state i m : same m (get_arg i m).2;
  get_arg_strv_same i m1 m2 : same m1 m2 -> (get_arg_strv i m1).1 = (get_arg_strv i m2).1;
  get_arg_strv_state i m : same m (get_arg_strv i m).2;
  rewind_ok m : (rewind m).1 = Ok tt;
  rewind_state m : same m (rewind m).2;
  (** where a rewound message is read does not depend on where it was *)
  rewind_same m1 m2 : same m1 m2 -> (rewind m1).2 = (rewind m2).2 }.

(** ** Nodes *)
Inductive bus_match_node :=
  | Leaf (callback : nat)
  | Compare (type : bus_match_node_type) (children : list value_node)
with value_node :=
  | Value (u8 : Z) (str : option cstr) (child : list bus_match_node).

Definition value_child (v : value_node) : list bus_match_node :=
  let 'Value _ _ child := v in child.

Section NodeInd.
Context (P : bus_match_node -> Prop) (Q : value_node -> Prop).
Context (HLeaf : forall cb, P (Leaf cb)).
Context (HCompare : forall t vs, Forall Q vs -> P (Compare t vs)).
Context (HValue : forall u str child, Forall P child -> Q (Value u str child)).

(** Induction over a tree, through its lists. *)
Fixpoint node_ind (n : bus_match_node) : P n :=
  match n with
  | Leaf cb => HLeaf cb
  | Compare t vs =>
      HCompare t vs ((fix go vs : Forall Q vs :=
        match vs with
        | [] => List.Forall_nil _
        | v :: vs => List.Forall_cons _ _ _ (value_ind v) (go vs)
        end) vs)
  end
with value_ind (v : value_node) : Q v :=
  match v with
  | Value u str child =>
      HValue u str child ((fix go l : Forall P l :=
        match l with
        | [] => List.Forall_nil _
        | n :: l => List.Forall_cons _ _ _ (node_ind n) (go l)
        end) child)
  end.

End NodeInd.

(** ** Tests on values *)

(** [streq_ptr] *)
Definition streq_ptr (a b : option cstr) : bool :=
  match a, b with
  | Some a, Some b => streq a b
  | None, None => true
  | _, _ => false
  end.

(** [value_node_test], on the value of the node and what the message has. *)
Definition value_node_test (parent_type : bus_match_node_type) (node_u8 : Z) (node_str : option cstr)
    (value_u8 : Z) (value_str : option cstr) (value_strv : list cstr)
    (wkn : option (list cstr)) : res bool :=
  match parent_type with
  | BUS_MATCH_MESSAGE_TYPE => Ok (node_u8 =? value_u8)
  | BUS_MATCH_SENDER =>
      if streq_ptr node_str value_str then Ok true
      else match wkn with
           | Some names => Ok (existsb (fun i => streq_ptr node_str (Some i)) names)
           | None =>
               Ok (negb (deref (default [] node_str) =? ch ":") &&
                   match value_str with Some s => deref s =? ch ":" | None => false end)
           end
  | BUS_MATCH_DESTINATION | BUS_MATCH_INTERFACE | BUS_MATCH_MEMBER | BUS_MATCH_PATH
  | BUS_MATCH_ARG _ =>
      Ok (if value_str then streq_ptr node_str value_str else false)
  | BUS_MATCH_ARG_HAS _ => Ok (existsb (fun i => streq_ptr node_str (Some i)) value_strv)
  | BUS_MATCH_ARG_NAMESPACE _ =>
      Ok (if value_str then namespace_simple_pattern node_str value_str else false)
  | BUS_MATCH_PATH_NAMESPACE => Ok (path_simple_pattern node_str value_str)
  | BUS_MATCH_ARG_PATH _ =>
      Ok (if value_str then path_complex_pattern node_str value_str else false)
  | BUS_MATCH_ROOT | BUS_MATCH_VALUE | BUS_MATCH_LEAF => Err EASSERT
  end.

(** [value_node_same], and a hash table's comparison of keys *)
Definition value_node_same (parent_type : bus_match_node_type) (value_u8 : Z) (value_str : option cstr)
    (v : value_node) : bool :=
  let 'Value node_u8 node_str _ := v in
  if bool_decide (parent_type = BUS_MATCH_MESSAGE_TYPE) then node_u8 =? value_u8
  else streq_ptr node_str value_str.

(** ** Adding and removing *)

(** The first element [f] takes is replaced by what [f] makes of it. *)
Fixpoint replace_first {A} (f : A -> option (option A)) (l : list A) : option (list A) :=
  match l with
  | [] => None
  | x :: l =>
      match f x with
      | Some (Some y) => Some (y :: l)
      | Some None => Some l
      | None => cons x <$> replace_first f l
      end
  end.

(** The value node for [u8], [str] among [vs], changed by [k]; a new one goes in
    front. *)
Definition add_value (t : bus_match_node_type) (u8 : Z) (str : option cstr)
    (k : list bus_match_node -> list bus_match_node) (vs : list value_node) : list value_node :=
  let update v :=
    if value_node_same t u8 str v then
      let 'Value u s child := v in Some (Some (Value u s (k child)))
    else None in
  match replace_first update vs with
  | Some vs' => vs'
  | None => Value u8 str (k []) :: vs
  end.

(** [bus_match_add_compare_value] and what is done to the value node it returns. *)
Definition bus_match_add_compare_value (where_child : list bus_match_node) (t : bus_match_node_type)
    (u8 : Z) (str : option cstr) (k : list bus_match_node -> list bus_match_node) : list bus_match_node :=
  let update n :=
    match n with
    | Compare t' vs =>
        if bool_decide (t' = t) then Some (Some (Compare t' (add_value t u8 str k vs))) else None
    | Leaf _ => None
    end in
  match replace_first update where_child with
  | Some l => l
  | None => Compare t [Value u8 str (k [])] :: where_child
  end.

Definition bus_match_add_leaf (where_child : list bus_match_node) (callback : nat) : list bus_match_node :=
  Leaf callback :: where_child.

(** The loop over the components, from the root down; the leaf comes last. *)
Fixpoint bus_match_add (root : list bus_match_node) (components : list bus_match_component)
    (callback : nat) : list bus_match_node :=
  match components with
  | [] => bus_match_add_leaf root callback
  | c :: cs =>
      bus_match_add_compare_value root (c_type c) (value_u8 c) (value_str c)
        (fun child => bus_match_add child cs callback)
  end.

(** [bus_match_remove]: the leaf is unlinked, and so are the nodes above that
    have become empty ([bus_match_node_maybe_free]). [None]: there is no leaf
    for the callback. *)
Definition unlink {A B} (rebuild : list A -> B) (r : option (list A)) : option (option B) :=
  match r with
  | Some [] => Some None
  | Some l => Some (Some (rebuild l))
  | None => None
  end.

Fixpoint remove_node (callback : nat) (n : bus_match_node) : option (option bus_match_node) :=
  match n with
  | Leaf cb => if Nat.eqb cb callback then Some None else None
  | Compare t vs => unlink (Compare t) (replace_first (remove_value callback) vs)
  end
with remove_value (callback : nat) (v : value_node) : option (option value_node) :=
  match v with
  | Value u s child => unlink (Value u s) (replace_first (remove_node callback) child)
  end.

Definition bus_match_remove (root : list bus_match_node) (callback : nat) : option (list bus_match_node) :=
  replace_first (remove_node callback) root.

(** ** Dispatching *)
Inductive tree_op :=
  | AddMatch (components : list bus_match_component) (callback : nat)
  | RemoveMatch (callback : nat).

(** What a callback did: the value it returned, whether it filled the error, and
    the matches it added and removed. *)
Record outcome := Outcome { ret : Z; error_is_set : bool; ops : list tree_op }.

(** What happens during a dispatch: calls of callbacks, error replies. *)
Inductive event := Called (callback : nat) | ReplyErrno (r : Z) | ReplyError.

Section Dispatch.
Context {M U : Type} {mm : MatchMessage M}.
(** The functions behind the callbacks; [None] is a callback without function. *)
Context (handler : nat -> option (M -> U -> outcome * M * U)).

Record dispatch := Dispatch {
  msg : M;
  userdata : U;
  match_callbacks : list bus_match_node;
  match_callbacks_modified : bool;
  iteration_counter : Z;
  last_iteration : gmap nat Z;
  events : list event;
  (** set when a node is read after a callback changed the tree *)
  stale : bool }.

Definition set_msg (m : M) (s : dispatch) : dispatch :=
  Dispatch m (userdata s) (match_callbacks s) (match_callbacks_modified s) (iteration_counter s)
    (last_iteration s) (events s) (stale s).
Definition set_modified (b : bool) (s : dispatch) : dispatch :=
  Dispatch (msg s) (userdata s) (match_callbacks s) b (iteration_counter s)
    (last_iteration s) (events s) (stale s).
Definition mark (cb : nat) (s : dispatch) : dispatch :=
  Dispatch (msg s) (userdata s) (match_callbacks s) (match_callbacks_modified s) (iteration_counter s)
    (<[cb := iteration_counter s]> (last_iteration s)) (events s) (stale s).
Definition emit (e : event) (s : dispatch) : dispatch :=
  Dispatch (msg s) (userdata s) (match_callbacks s) (match_callbacks_modified s) (iteration_counter s)
    (last_iteration s) (events s ++ [e]) (stale s).
(** A node is read. *)
Definition touch (s : dispatch) : dispatch :=
  Dispatch (msg s) (userdata s) (match_callbacks s) (match_callbacks_modified s) (iteration_counter s)
    (last_iteration s) (events s) (stale s || match_callbacks_modified s).

(** [sd_bus_add_match()] and the removal of its slot set [match_callbacks_modified]
    and change the tree. *)
Definition apply_op (s : dispatch) (o : tree_op) : dispatch :=
  let tree := match o with
    | AddMatch cs cb => bus_match_add (match_callbacks s) cs cb
    | RemoveMatch cb => default (match_callbacks s) (bus_match_remove (match_callbacks s) cb)
    end in
  Dispatch (msg s) (userdata s) tree true (iteration_counter s) (last_iteration s) (events s) (stale s).

(** [bus_maybe_reply_error], [bus-internal.c] *)
Definition bus_maybe_reply_error (r : Z) (error_set : bool) : stm dispatch Z :=
  s ← sget;
  let is_call := header_type (msg s) =? SD_BUS_MESSAGE_METHOD_CALL in
  if r <? 0 then _ ← smod (if is_call then emit (ReplyErrno r) else id); mret 1
  else if error_set then _ ← smod (if is_call then emit ReplyError else id); mret 1
  else mret r.

(** The call of the callback's function. *)
Definition call_handler (cb : nat) (f : M -> U -> outcome * M * U) : stm dispatch outcome := fun s =>
  let '(o, m, u) := f (msg s) (userdata s) in
  let s := Dispatch m u (match_callbacks s) (match_callbacks_modified s) (iteration_counter s)
    (last_iteration s) (events s ++ [Called cb]) (stale s) in
  (Ok o, fold_left apply_op (ops o) s).

Definition rewind_message : stm dispatch unit := fun s =>
  let '(r, m) := rewind (msg s) in (r, set_msg m s).

(** A leaf. [Some r]: the code returns [r]; [None]: it goes on with the siblings. *)
Definition run_leaf (cb : nat) : stm dispatch (option Z) :=
  s ← sget;
  if bool_decide (last_iteration s !! cb = Some (iteration_counter s)) then mret (Some 0)
  else
    _ ← smod (mark cb);
    _ ← rewind_message;
    match handler cb with
    | None => mret None
    | Some f =>
        o ← call_handler cb f;
        r ← bus_maybe_reply_error (ret o) (error_is_set o);
        if negb (r =? 0) then mret (Some r)
        else s ← sget; if match_callbacks_modified s then mret (Some 0) else mret None
    end.

(** [test_u8], [test_str], [test_strv] for a compare node *)
Definition get_test (t : bus_match_node_type) : stm dispatch (Z * option cstr * option (list cstr)) := fun s =>
  let m := msg s in
  let str v := (Ok (0, v, None), s) in
  match t with
  | BUS_MATCH_MESSAGE_TYPE => (Ok (header_type m, None, None), s)
  | BUS_MATCH_SENDER => str (m_sender m)
  | BUS_MATCH_DESTINATION => str (m_destination m)
  | BUS_MATCH_INTERFACE => str (m_interface m)
  | BUS_MATCH_MEMBER => str (m_member m)
  | BUS_MATCH_PATH | BUS_MATCH_PATH_NAMESPACE => str (m_path m)
  | BUS_MATCH_ARG i | BUS_MATCH_ARG_PATH i | BUS_MATCH_ARG_NAMESPACE i =>
      let '(v, m) := get_arg i m in (Ok (0, v, None), set_msg m s)
  | BUS_MATCH_ARG_HAS i =>
      let '(v, m) := get_arg_strv i m in (Ok (0, None, v), set_msg m s)
  | BUS_MATCH_ROOT | BUS_MATCH_VALUE | BUS_MATCH_LEAF => (Err EASSERT, s)
  end.

(** [bus_match_run] on a node and its siblings, given how a node runs. *)
Definition run_siblings (run : bus_match_node -> stm dispatch (option Z)) :
    list bus_match_node -> stm dispatch Z :=
  fix go l :=
    match l with
    | [] => mret 0
    | n :: l =>
        s ← sget;
        if match_callbacks_modified s then mret 0
        else r ← run n; match r with Some r => mret r | None => go l end
    end.

(** [hashmap_get(node->compare.children, key)] and [bus_match_run] on the node
    found: 0 when there is none. *)
Definition run_found (run : value_node -> stm dispatch Z) (key : value_node -> bool) :
    list value_node -> stm dispatch Z :=
  fix go vs :=
    match vs with
    | [] => mret 0
    | v :: vs => if key v then run v else go vs
    end.

Definition run_hashed (run : value_node -> stm dispatch Z) (key : value_node -> bool)
    (vs : list value_node) : stm dispatch Z :=
  _ ← smod touch; run_found run key vs.

(** [STRV_FOREACH(i, test_strv)] *)
Definition run_strv (run : value_node -> stm dispatch Z) (t : bus_match_node_type) (vs : list value_node) :
    list cstr -> stm dispatch Z :=
  fix go strv :=
    match strv with
    | [] => mret 0
    | i :: strv =>
        r ← run_hashed run (value_node_same t 0 (Some i)) vs;
        if negb (r =? 0) then mret r else go strv
    end.

(** The loop over the value nodes of a kind that is not hashed. [Some r]: the
    code returns [r]. *)
Definition run_values (run : value_node -> stm dispatch Z) (test : value_node -> M -> res bool) :
    list value_node -> stm dispatch (option Z) :=
  fix go vs :=
    match vs with
    | [] => mret None
    | v :: vs =>
        s ← sget;
        b ← slift (test v (msg s));
        if (b : bool) then
          r ← run v;
          if negb (r =? 0) then mret (Some r)
          else s ← sget; if match_callbacks_modified s then mret (Some 0) else go vs
        else go vs
    end.

(** The test of a value node of the list. *)
Definition test_value (t : bus_match_node_type) (u8 : Z) (str : option cstr) (strv : option (list cstr))
    (v : value_node) (m : M) : res bool :=
  let 'Value nu ns _ := v in
  value_node_test t nu ns u8 str (default [] strv) (well_known_names m).

(** A compare node, given how a value node runs. *)
Definition run_compare (run : value_node -> stm dispatch Z) (t : bus_match_node_type)
    (vs : list value_node) : stm dispatch (option Z) :=
  '(u8, str, strv) ← get_test t;
  r ← (if BUS_MATCH_CAN_HASH t then
         r ← match str, strv with
             | Some str, _ => run_hashed run (value_node_same t 0 (Some str)) vs
             | None, Some strv => run_strv run t vs strv
             | None, None =>
                 if bool_decide (t = BUS_MATCH_MESSAGE_TYPE)
                 then run_hashed run (value_node_same t u8 None) vs else mret 0
             end;
         mret (if negb (r =? 0) then Some r else None)
       else run_values run (test_value t u8 str strv) vs);
  match r with
  | Some r => mret (Some r)
  | None => s ← sget; mret (if match_callbacks_modified s then Some 0 else None)
  end.

Fixpoint run_node (n : bus_match_node) : stm dispatch (option Z) :=
  match n with
  | Leaf cb => run_leaf cb
  | Compare t vs => run_compare run_value t vs
  end
with run_value (v : value_node) : stm dispatch Z :=
  match v with
  | Value _ _ child =>
      s ← sget;
      if match_callbacks_modified s then mret 0
      else _ ← sreq (negb (bool_decide (child = []))) EASSERT; run_siblings run_node child
  end.

(** [bus_match_run(bus, &bus->match_callbacks, m)] *)
Definition bus_match_run : stm dispatch Z :=
  s ← sget;
  if match_callbacks_modified s then mret 0 else run_siblings run_node (match_callbacks s).

(** [process_match], [sd-bus.c]: again while a callback changed the tree. *)
Fixpoint process_match (fuel : nat) : stm dispatch Z :=
  match fuel with
  | O => sfail EASSERT
  | S fuel =>
      _ ← smod (set_modified false);
      r ← bus_match_run;
      if negb (r =? 0) then mret r
      else s ← sget; if match_callbacks_modified s then process_match fuel else mret 0
  end.

End Dispatch.

(** ** What a tree stands for

    The rules in a tree: a leaf with the components on its path. *)
Definition rule : Type := list bus_match_component * nat.

Definition under (c : bus_match_component) (r : rule) : rule := (c :: r.1, r.2).

Fixpoint node_rules (n : bus_match_node) : list rule :=
  match n with
  | Leaf cb => [([], cb)]
  | Compare t vs => concat (map (value_rules t) vs)
  end
with value_rules (t : bus_match_node_type) (v : value_node) : list rule :=
  match v with
  | Value u s child => map (under (Component t u s)) (concat (map node_rules child))
  end.

Definition rules (l : list bus_match_node) : list rule := concat (map node_rules l).
Definition values_rules (t : bus_match_node_type) (vs : list value_node) : list rule :=
  concat (map (value_rules t) vs).

Definition callbacks (l : list bus_match_node) : list nat := map snd (rules l).

(** Well-formed trees: below a node every kind occurs once, below a compare node
    every value, compare and value nodes are not empty. *)
Definition all {A} (P : A -> Prop) (l : list A) : Prop := fold_right (fun x p => P x /\ p) True l.

Definition kinds (l : list bus_match_node) : list bus_match_node_type :=
  omap (fun n => match n with Compare t _ => Some t | Leaf _ => None end) l.

Definition value_key (v : value_node) : Z * option cstr := let 'Value u s _ := v in (u, s).

Fixpoint wf_node (n : bus_match_node) : Prop :=
  match n with
  | Leaf _ => True
  | Compare t vs => vs <> [] /\ NoDup (map value_key vs) /\ all (wf_value t) vs
  end
with wf_value (t : bus_match_node_type) (v : value_node) : Prop :=
  match v with
  | Value u s child =>
      component_ok (Component t u s) /\ child <> [] /\ NoDup (kinds child) /\ all wf_node child
  end.

Definition wf_nodes (l : list bus_match_node) : Prop := NoDup (kinds l) /\ Forall wf_node l.

(** The invariant of the tree: no callback has two leaves. *)
Definition tree_ok (root : list bus_match_node) : Prop := wf_nodes root /\ NoDup (callbacks root).

Lemma all_Forall {A} (P : A -> Prop) l : all P l <-> Forall P l.
Proof.
  induction l as [|x l IH]; cbn.
  - split; [constructor|done].
  - rewrite IH, Forall_cons. done.
Qed.

Lemma rules_cons n l : rules (n :: l) = node_rules n ++ rules l.
Proof. done. Qed.

Lemma rules_app l1 l2 : rules (l1 ++ l2) = rules l1 ++ rules l2.
Proof. unfold rules. by rewrite map_app, concat_app. Qed.

Lemma values_rules_cons t v vs : values_rules t (v :: vs) = value_rules t v ++ values_rules t vs.
Proof. done. Qed.

Lemma values_rules_app t l1 l2 : values_rules t (l1 ++ l2) = values_rules t l1 ++ values_rules t l2.
Proof. unfold values_rules. by rewrite map_app, concat_app. Qed.

Lemma wf_compare t vs :
  wf_node (Compare t vs) <-> vs <> [] /\ NoDup (map value_key vs) /\ Forall (wf_value t) vs.
Proof. cbn [wf_node]. by rewrite all_Forall. Qed.

Lemma wf_value_nodes t u s child :
  wf_value t (Value u s child) <-> component_ok (Component t u s) /\ child <> [] /\ wf_nodes child.
Proof. cbn [wf_value]. rewrite all_Forall. unfold wf_nodes. done. Qed.

(** ** [replace_first] *)
Lemma replace_first_spec {A} (f : A -> option (option A)) l :
  match replace_first f l with
  | Some l' => exists l1 x l2, l = l1 ++ x :: l2 /\ Forall (fun x => f x = None) l1 /\
      ((exists y, f x = Some (Some y) /\ l' = l1 ++ y :: l2) \/ (f x = Some None /\ l' = l1 ++ l2))
  | None => Forall (fun x => f x = None) l
  end.
Proof.
  induction l as [|x l IH]; cbn [replace_first]; [constructor|].
  destruct (f x) as [[y|]|] eqn:E.
  - exists [], x, l. split; [done|]. split; [constructor|]. left. by exists y.
  - exists [], x, l. split; [done|]. split; [constructor|]. by right.
  - destruct (replace_first f l) as [l'|]; cbn.
    + destruct IH as (l1 & z & l2 & -> & H1 & H2). exists (x :: l1), z, l2. split; [done|].
      split; [by constructor|]. destruct H2 as [(y & Hy & ->)|[Hz ->]]; [left; by exists y|by right].
    + by constructor.
Qed.

(** ** Adding *)

(** [k] adds the rule [cs] for [cb] to a list of nodes. *)
Definition adds (k : list bus_match_node -> list bus_match_node) (r : rule) : Prop :=
  forall child, wf_nodes child ->
    wf_nodes (k child) /\ k child <> [] /\ rules (k child) ≡ₚ r :: rules child.

(** Nodes of one kind with the same value have the same key. *)
Lemma value_node_same_key t u s v : component_ok (Component t u s) -> wf_value t v ->
  value_node_same t u s v = true <-> value_key v = (u, s).
Proof.
  destruct v as [nu ns child]. intros [_ Hc] [[_ Hv] _]. cbn in *.
  destruct (bool_decide (t = BUS_MATCH_MESSAGE_TYPE)).
  - destruct Hc as [-> _], Hv as [-> _]. rewrite Z.eqb_eq. split; [by intros ->|by intros [= ->]].
  - destruct Hc as [-> (w & -> & _)], Hv as [-> (w' & -> & _)]. cbn. rewrite streq_spec.
    split; [by intros ->|by intros [= ->]].
Qed.

Lemma new_value t u s k cs cb : component_ok (Component t u s) -> adds k (cs, cb) ->
  wf_value t (Value u s (k [])) /\ value_rules t (Value u s (k [])) = [(Component t u s :: cs, cb)].
Proof.
  intros Hc Hk. destruct (Hk []) as (Hw & Hne & Hr); [split; constructor|].
  split; [by apply wf_value_nodes|]. cbn [value_rules]. fold (rules (k [])).
  apply Permutation_singleton_r in Hr. by rewrite Hr.
Qed.

Lemma add_value_spec t u s k cs cb vs : component_ok (Component t u s) -> adds k (cs, cb) ->
  NoDup (map value_key vs) -> Forall (wf_value t) vs ->
  let vs' := add_value t u s k vs in
  vs' <> [] /\ NoDup (map value_key vs') /\ Forall (wf_value t) vs' /\
  values_rules t vs' ≡ₚ (Component t u s :: cs, cb) :: values_rules t vs.
Proof.
  intros Hc Hk Hd Hw. unfold add_value. cbn zeta. set (update := fun v => _).
  pose proof (replace_first_spec update vs) as Hr. destruct (replace_first update vs) as [vs'|].
  - destruct Hr as (l1 & v & l2 & -> & _ & Hr). rewrite map_app in Hd. cbn [map] in Hd.
    apply Forall_app in Hw as [Hw1 Hw2]. inversion_clear Hw2 as [|?? Hwv Hw2'].
    unfold update in Hr. destruct (value_node_same t u s v) eqn:Es.
    2: { by destruct Hr as [(y & Hy & _)|[Hy _]]. }
    apply value_node_same_key in Es; [|done|done]. destruct v as [nu ns child]. cbn in Es. injection Es as -> ->.
    destruct Hr as [(y & [= <-] & ->)|[[=] _]]. apply wf_value_nodes in Hwv as (_ & Hne & Hch).
    destruct (Hk child Hch) as (Hkw & Hkne & Hkr). split_and!.
    + by destruct l1.
    + by rewrite map_app.
    + apply Forall_app. split; [done|]. constructor; [|done]. by apply wf_value_nodes.
    + rewrite !values_rules_app, !values_rules_cons. cbn [value_rules]. fold (rules (k child)) (rules child).
      rewrite Hkr. cbn [map app]. by rewrite <- Permutation_middle.
  - destruct (new_value t u s k cs cb Hc Hk) as [Hnw Hnr]. split_and!; [done| |by constructor|].
    + cbn [map]. constructor; [|done]. intros (v & Ev & Hv)%list_elem_of_fmap.
      rewrite Forall_forall in Hr, Hw. specialize (Hr v Hv). unfold update in Hr.
      assert (value_node_same t u s v = true) as E by (apply value_node_same_key; auto).
      rewrite E in Hr. by destruct v.
    + by rewrite values_rules_cons, Hnr.
Qed.

Lemma kinds_app l1 l2 : kinds (l1 ++ l2) = kinds l1 ++ kinds l2.
Proof. unfold kinds. apply omap_app. Qed.

Lemma add_compare_value_spec c k cs cb : component_ok c -> adds k (cs, cb) ->
  adds (fun child => bus_match_add_compare_value child (c_type c) (value_u8 c) (value_str c) k) (c :: cs, cb).
Proof.
  intros Hc Hk child [Hd Hw]. destruct c as [t u s]. cbn [c_type value_u8 value_str].
  unfold bus_match_add_compare_value. set (update := fun n => _).
  pose proof (replace_first_spec update child) as Hr. destruct (replace_first update child) as [child'|].
  - destruct Hr as (l1 & n & l2 & -> & _ & Hr). apply Forall_app in Hw as [Hw1 Hw2].
    inversion_clear Hw2 as [|?? Hwn Hw2']. unfold update in Hr. destruct n as [|t' vs].
    { by destruct Hr as [(y & Hy & _)|[Hy _]]. }
    destruct (bool_decide_reflect (t' = t)) as [->|]; [|by destruct Hr as [(y & Hy & _)|[Hy _]]].
    destruct Hr as [(y & [= <-] & ->)|[[=] _]]. apply wf_compare in Hwn as (Hne & Hdv & Hwv).
    destruct (add_value_spec t u s k cs cb vs Hc Hk Hdv Hwv) as (Hne' & Hdv' & Hwv' & Hrv).
    split; [split|split].
    + rewrite kinds_app in *. exact Hd.
    + apply Forall_app. split; [done|]. constructor; [|done]. by apply wf_compare.
    + by destruct l1.
    + rewrite !rules_app, !rules_cons. cbn [node_rules]. fold (values_rules t vs).
      fold (values_rules t (add_value t u s k vs)). rewrite Hrv. cbn [app].
      by rewrite <- Permutation_middle.
  - destruct (new_value t u s k cs cb Hc Hk) as [Hnw Hnr]. split; [split|split; [done|]].
    + cbn [kinds omap list_omap]. constructor; [|done].
      intros (n & Hn & En)%list_elem_of_omap. destruct n as [|t' vs]; [done|]. injection En as ->.
      rewrite Forall_forall in Hr. specialize (Hr _ Hn). unfold update in Hr. by rewrite bool_decide_true in Hr.
    + constructor; [|done]. apply wf_compare. split; [done|]. split.
      * apply NoDup_singleton.
      * by apply Forall_singleton.
    + rewrite rules_cons. cbn [node_rules map concat]. by rewrite Hnr, app_nil_r.
Qed.

Lemma add_spec cs cb : Forall component_ok cs -> adds (fun l => bus_match_add l cs cb) (cs, cb).
Proof.
  induction 1 as [|c cs Hc Hcs IH]; cbn [bus_match_add].
  - intros child [Hd Hw]. split; [split|split]; [done|by constructor|done|done].
  - by apply add_compare_value_spec.
Qed.

Lemma elem_of_concat {A} (x : A) ls : x ∈ concat ls <-> exists l, x ∈ l /\ l ∈ ls.
Proof.
  rewrite list_elem_of_In, in_concat. split; intros (l & H1 & H2); exists l.
  - by rewrite !list_elem_of_In.
  - by rewrite <- !list_elem_of_In.
Qed.

(** ** Removing *)

(** [x'] is what is left of [x] without the leaf of [cb]; [None]: nothing. *)
Definition removes_node (cb : nat) (n : bus_match_node) : Prop :=
  wf_node n ->
  match remove_node cb n with
  | None => cb ∉ map snd (node_rules n)
  | Some None => exists cs, node_rules n = [(cs, cb)]
  | Some (Some n') => wf_node n' /\ kinds [n'] = kinds [n] /\
      exists cs, node_rules n ≡ₚ (cs, cb) :: node_rules n'
  end.

Definition removes_value (cb : nat) (v : value_node) : Prop :=
  forall t, wf_value t v ->
  match remove_value cb v with
  | None => cb ∉ map snd (value_rules t v)
  | Some None => exists cs, value_rules t v = [(cs, cb)]
  | Some (Some v') => wf_value t v' /\ value_key v' = value_key v /\
      exists cs, value_rules t v ≡ₚ (cs, cb) :: value_rules t v'
  end.

Lemma remove_nodes_spec cb l : Forall (removes_node cb) l -> wf_nodes l ->
  match replace_first (remove_node cb) l with
  | None => cb ∉ callbacks l
  | Some l' => wf_nodes l' /\ exists cs, rules l ≡ₚ (cs, cb) :: rules l'
  end.
Proof.
  intros Hl [Hd Hw]. pose proof (replace_first_spec (remove_node cb) l) as Hr.
  destruct (replace_first (remove_node cb) l) as [l'|].
  - destruct Hr as (l1 & n & l2 & -> & _ & Hr). apply Forall_app in Hl as [_ Hl]. inversion_clear Hl as [|?? Hn _].
    apply Forall_app in Hw as [Hw1 Hw2]. inversion_clear Hw2 as [|?? Hwn Hw2']. specialize (Hn Hwn).
    destruct Hr as [(n' & E & ->)|[E ->]]; rewrite E in Hn.
    + destruct Hn as (Hwn' & Hk & cs & Hp). split.
      * split; [|apply Forall_app; split; [done|by constructor]].
        change (n :: l2) with ([n] ++ l2) in Hd. change (n' :: l2) with ([n'] ++ l2).
        rewrite !kinds_app in *. by rewrite Hk.
      * exists cs. rewrite !rules_app, !rules_cons, Hp. cbn [app]. by rewrite <- Permutation_middle.
    + destruct Hn as [cs Hp]. split.
      * split; [|by apply Forall_app]. change (n :: l2) with ([n] ++ l2) in Hd.
        rewrite !kinds_app in *. destruct n; cbn in Hd; [done|].
        by rewrite <- Permutation_middle, NoDup_cons in Hd; destruct Hd.
      * exists cs. rewrite !rules_app, !rules_cons, Hp. cbn [app]. by rewrite <- Permutation_middle.
  - unfold callbacks, rules. rewrite concat_map, map_map. intros (x & Hx & Hin)%elem_of_concat.
    apply list_elem_of_fmap in Hin as (n & -> & Hn). rewrite Forall_forall in Hl, Hw, Hr.
    specialize (Hl n Hn (Hw n Hn)). rewrite (Hr n Hn) in Hl. done.
Qed.

Lemma remove_values_spec cb t vs : Forall (removes_value cb) vs ->
  NoDup (map value_key vs) -> Forall (wf_value t) vs ->
  match replace_first (remove_value cb) vs with
  | None => cb ∉ map snd (values_rules t vs)
  | Some vs' => NoDup (map value_key vs') /\ Forall (wf_value t) vs' /\
      exists cs, values_rules t vs ≡ₚ (cs, cb) :: values_rules t vs'
  end.
Proof.
  intros Hl Hd Hw. pose proof (replace_first_spec (remove_value cb) vs) as Hr.
  destruct (replace_first (remove_value cb) vs) as [vs'|].
  - destruct Hr as (l1 & v & l2 & -> & _ & Hr). apply Forall_app in Hl as [_ Hl]. inversion_clear Hl as [|?? Hv _].
    apply Forall_app in Hw as [Hw1 Hw2]. inversion_clear Hw2 as [|?? Hwv Hw2']. specialize (Hv t Hwv).
    rewrite map_app in Hd. cbn [map] in Hd.
    destruct Hr as [(v' & E & ->)|[E ->]]; rewrite E in Hv.
    + destruct Hv as (Hwv' & Hk & cs & Hp). split_and!.
      * rewrite map_app. cbn [map]. by rewrite Hk.
      * apply Forall_app; split; [done|by constructor].
      * exists cs. rewrite !values_rules_app, !values_rules_cons, Hp. cbn [app]. by rewrite <- Permutation_middle.
    + destruct Hv as [cs Hp]. split_and!.
      * rewrite map_app. by rewrite <- Permutation_middle, NoDup_cons in Hd; destruct Hd.
      * by apply Forall_app.
      * exists cs. rewrite !values_rules_app, !values_rules_cons, Hp. cbn [app]. by rewrite <- Permutation_middle.
  - unfold values_rules. rewrite concat_map, map_map. intros (x & Hx & Hin)%elem_of_concat.
    apply list_elem_of_fmap in Hin as (v & -> & Hv). rewrite Forall_forall in Hl, Hw, Hr.
    specialize (Hl v Hv t (Hw v Hv)). rewrite (Hr v Hv) in Hl. done.
Qed.

Lemma remove_node_ok cb n : removes_node cb n.
Proof.
  apply (node_ind (removes_node cb) (removes_value cb)).
  - intros c _. cbn [remove_node]. destruct (Nat.eqb_spec c cb) as [->|Hne]; [by exists []|].
    cbn. by intros ->%list_elem_of_singleton.
  - intros t vs Hvs (Hne & Hd & Hw)%wf_compare. cbn [remove_node node_rules]. fold (values_rules t vs).
    pose proof (remove_values_spec cb t vs Hvs Hd Hw) as Hr.
    destruct (replace_first (remove_value cb) vs) as [[|v vs']|]; cbn [unlink].
    + destruct Hr as (_ & _ & cs & Hp). exists cs. by apply Permutation_singleton_r in Hp.
    + destruct Hr as (Hd' & Hw' & cs & Hp). split; [|split; [done|by exists cs]].
      by apply wf_compare.
    + done.
  - intros u s child Hch t (Hc & Hne & Hw)%wf_value_nodes. cbn [remove_value value_rules]. fold (rules child).
    pose proof (remove_nodes_spec cb child Hch Hw) as Hr.
    destruct (replace_first (remove_node cb) child) as [[|n0 child']|]; cbn [unlink].
    + destruct Hr as (_ & cs & Hp). apply Permutation_singleton_r in Hp. exists (Component t u s :: cs). by rewrite Hp.
    + destruct Hr as (Hw' & cs & Hp). split; [|split; [done|]].
      * by apply wf_value_nodes.
      * exists (Component t u s :: cs). cbn [value_rules]. fold (rules (n0 :: child')). by rewrite Hp.
    + unfold callbacks in Hr. by rewrite map_map.
Qed.

Lemma remove_ok root cb : wf_nodes root ->
  match bus_match_remove root cb with
  | None => cb ∉ callbacks root
  | Some root' => wf_nodes root' /\ exists cs, rules root ≡ₚ (cs, cb) :: rules root'
  end.
Proof. apply remove_nodes_spec. apply Forall_forall. intros n _. apply remove_node_ok. Qed.

Lemma add_ok root cs cb : Forall component_ok cs -> wf_nodes root ->
  wf_nodes (bus_match_add root cs cb) /\ rules (bus_match_add root cs cb) ≡ₚ (cs, cb) :: rules root.
Proof. intros Hc Hw. destruct (add_spec cs cb Hc root Hw) as (? & _ & ?). done. Qed.

(** C39. The match tree is a set of rules: adding a rule for a new callback keeps
    the tree well formed and adds exactly that rule; removing a callback finds
    its leaf if it has one, prunes the branch, and removes exactly its rule; and
    the empty tree has no rule. *)
Theorem match_tree_rules root cs cb :
  tree_ok root -> Forall component_ok cs ->
  rules [] = [] /\ tree_ok [] /\
  (cb ∉ callbacks root ->
   tree_ok (bus_match_add root cs cb) /\ rules (bus_match_add root cs cb) ≡ₚ (cs, cb) :: rules root) /\
  match bus_match_remove root cb with
  | None => cb ∉ callbacks root
  | Some root' => tree_ok root' /\ cb ∉ callbacks root' /\
      exists cs', rules root ≡ₚ (cs', cb) :: rules root'
  end.
Proof.
  intros [Hw Hn] Hc. split; [done|]. split; [repeat constructor|]. split.
  - intros Hcb. destruct (add_ok root cs cb Hc Hw) as [Hw' Hr]. split; [|done]. split; [done|].
    unfold callbacks. rewrite Hr. by constructor.
  - pose proof (remove_ok root cb Hw) as Hr. destruct (bus_match_remove root cb) as [root'|]; [|done].
    destruct Hr as [Hw' [cs' Hp]]. unfold callbacks in Hn. rewrite Hp in Hn. cbn [map snd] in Hn.
    apply NoDup_cons in Hn as [Hcb Hn]. split; [by split|]. split; [done|by exists cs'].
Qed.
