(* ===== verification/MatchRun.v ===== *)
(** * Dispatch along the match tree

    [bus_match_run] against the plain reading of the rules: the callbacks of the
    rules that the message satisfies, one after the other, each on the message
    from its beginning. *)
From S2P Require Import Prelude HexDecOct Names MatchRule MatchTree.

Section Run.
Context {M U : Type} {mm : MatchMessage M} {same : relation M} {laws : MatchMessageLaws M same}.
Context (handler : nat -> option (M -> U -> outcome * M * U)).

(** Callbacks read the message they are given and change nothing else of it. What
    they do may depend on where its reading stands. *)
Context (handler_reads : forall cb f m u, handler cb = Some f -> let '(_, m', _) := f m u in same m m').

Abbreviation st := (@dispatch M U).

(** ** Rules that match

    By the tests of the code; that they are those of the specification is shown
    below ([component_satisfied]). *)

(** What a message has for a kind. *)
Definition test_of (t : bus_match_node_type) (m : M) : Z * option cstr * option (list cstr) :=
  match t with
  | BUS_MATCH_MESSAGE_TYPE => (header_type m, None, None)
  | BUS_MATCH_SENDER => (0, m_sender m, None)
  | BUS_MATCH_DESTINATION => (0, m_destination m, None)
  | BUS_MATCH_INTERFACE => (0, m_interface m, None)
  | BUS_MATCH_MEMBER => (0, m_member m, None)
  | BUS_MATCH_PATH | BUS_MATCH_PATH_NAMESPACE => (0, m_path m, None)
  | BUS_MATCH_ARG i | BUS_MATCH_ARG_PATH i | BUS_MATCH_ARG_NAMESPACE i => (0, (get_arg i m).1, None)
  | BUS_MATCH_ARG_HAS i => (0, None, (get_arg_strv i m).1)
  | _ => (0, None, None)
  end.

Definition component_matches (m : M) (c : bus_match_component) : bool :=
  let '(u8, str, strv) := test_of (c_type c) m in
  match value_node_test (c_type c) (value_u8 c) (value_str c) u8 str (default [] strv) (well_known_names m) with
  | Ok b => b
  | Err _ => false
  end.

Definition rule_matches (m : M) (r : rule) : bool := forallb (component_matches m) r.1.

(** The callbacks of the matching rules. *)
Definition matching (m : M) (rs : list rule) : list nat := map snd (List.filter (rule_matches m) rs).

(** ** Calling a list of callbacks *)

(** One after the other, until one returns something else than 0 or changes the
    tree. [None]: all were called. *)
Fixpoint call_seq (l : list nat) : stm st (option Z) :=
  match l with
  | [] => mret None
  | cb :: l => r ← run_leaf handler cb; match r with Some r => mret (Some r) | None => call_seq l end
  end.

Definition call_all (l : list nat) : stm st Z := r ← call_seq l; mret (default 0 r).

(** ** States that differ in the read position of the message

    [stale] is left out; where it may be set is shown apart ([tracked]). *)
Record st_eq (s1 s2 : st) : Prop := StEq {
  eq_msg : same (msg s1) (msg s2);
  eq_user : userdata s1 = userdata s2;
  eq_tree : match_callbacks s1 = match_callbacks s2;
  eq_modified : match_callbacks_modified s1 = match_callbacks_modified s2;
  eq_iteration : iteration_counter s1 = iteration_counter s2;
  eq_last : last_iteration s1 = last_iteration s2;
  eq_events : events s1 = events s2 }.

#[local] Instance st_eq_equiv : Equivalence st_eq.
Proof.
  split.
  - intros s. split; reflexivity.
  - intros s1 s2 []. split; by symmetry.
  - intros s1 s2 s3 [] []. split; by etrans.
Qed.

(** Equal results and states. *)
Definition run_eq {A} (x y : res A * st) : Prop := x.1 = y.1 /\ st_eq x.2 y.2.

#[local] Instance run_eq_equiv {A} : Equivalence (@run_eq A).
Proof.
  split.
  - intros x. by split.
  - intros x y [? ?]. by split; symmetry.
  - intros x y z [? ?] [? ?]. split; by etrans.
Qed.

Lemma run_eq_bind {A B} (f g : stm st A) (h k : A -> stm st B) s1 s2 :
  run_eq (f s1) (g s2) -> (forall a s1' s2', st_eq s1' s2' -> run_eq (h a s1') (k a s2')) ->
  run_eq ((f ≫= h) s1) ((g ≫= k) s2).
Proof.
  unfold mbind, stm_bind. intros [E1 E2] Hk. destruct (f s1) as [r1 s1'], (g s2) as [r2 s2']. cbn in *. subst r2.
  destruct r1 as [a|e]; [by apply Hk|]. by split.
Qed.

#[local] Instance test_of_same t : Proper (same ==> eq) (test_of t).
Proof.
  intros m1 m2 Hm. pose proof (same_fields m1 m2 Hm) as (H1 & H2 & H3 & H4 & H5 & H6 & _).
  destruct t; cbn [test_of]; rewrite ?H1, ?H2, ?H3, ?H4, ?H5, ?H6,
    ?(get_arg_same _ m1 m2 Hm), ?(get_arg_strv_same _ m1 m2 Hm); done.
Qed.

#[local] Instance component_matches_same : Proper (same ==> eq ==> eq) component_matches.
Proof.
  intros m1 m2 Hm c _ <-. pose proof (same_fields m1 m2 Hm) as (_ & _ & _ & _ & _ & _ & H7).
  unfold component_matches. by rewrite Hm, H7.
Qed.

#[local] Instance matching_same : Proper (same ==> eq ==> eq) matching.
Proof.
  intros m1 m2 Hm rs _ <-. unfold matching. f_equal. apply List.filter_ext. intros r.
  unfold rule_matches. induction r.1 as [|c cs IH]; cbn; [done|]. by rewrite IH, Hm.
Qed.

(** The state of a dispatch in progress: the message is [m0], nothing has
    changed the tree. *)
Definition going (m0 : M) (s : st) : Prop := same m0 (msg s) /\ match_callbacks_modified s = false.

Definition visited (s : st) (cb : nat) : Prop := last_iteration s !! cb = Some (iteration_counter s).

Lemma going_eq m0 s1 s2 : st_eq s1 s2 -> going m0 s1 -> going m0 s2.
Proof. intros [] [? ?]. split; [by etrans|congruence]. Qed.

Lemma visited_eq s1 s2 cb : st_eq s1 s2 -> visited s1 cb <-> visited s2 cb.
Proof. intros []. unfold visited. by rewrite eq_last0, eq_iteration0. Qed.

(** ** One leaf *)
Lemma fold_apply_op_eq os s1 s2 : st_eq s1 s2 -> st_eq (fold_left apply_op os s1) (fold_left apply_op os s2).
Proof.
  revert s1 s2; induction os as [|o os IH]; intros s1 s2 H; [done|]. cbn [fold_left]. apply IH.
  destruct H. split; cbn; try done. by rewrite eq_tree0.
Qed.

Lemma reply_error_eq r e s1 s2 : st_eq s1 s2 ->
  run_eq (bus_maybe_reply_error r e s1) (bus_maybe_reply_error r e s2).
Proof.
  intros H. pose proof (same_fields _ _ (eq_msg _ _ H)) as (Ht & _).
  unfold bus_maybe_reply_error, mbind, stm_bind, sget, smod, mret, stm_ret. rewrite Ht.
  destruct (r <? 0), e, (header_type (msg s2) =? SD_BUS_MESSAGE_METHOD_CALL); cbn; (split; [done|]); try done.
  all: destruct H; split; cbn; congruence || done.
Qed.

Lemma mark_eq cb s1 s2 : st_eq s1 s2 -> st_eq (mark cb s1) (mark cb s2).
Proof. intros []. split; cbn; try done. by rewrite eq_last0, eq_iteration0. Qed.

Lemma rewind_message_eq s1 s2 : st_eq s1 s2 -> run_eq (rewind_message s1) (rewind_message s2).
Proof.
  intros H. unfold rewind_message. pose proof (rewind_ok (msg s1)) as R1. pose proof (rewind_ok (msg s2)) as R2.
  pose proof (rewind_state (msg s1)) as S1. pose proof (rewind_state (msg s2)) as S2.
  destruct (rewind (msg s1)) as [r1 m1], (rewind (msg s2)) as [r2 m2]. cbn in *. subst. split; [done|].
  destruct H. split; cbn; try done. by rewrite <- S1, eq_msg0.
Qed.

(** A rewound message is the same message wherever its reading stood. *)
Lemma rewound_msg s1 s2 : st_eq s1 s2 -> msg (rewind_message s1).2 = msg (rewind_message s2).2.
Proof.
  intros H. unfold rewind_message. pose proof (rewind_same _ _ (eq_msg _ _ H)) as E.
  by destruct (rewind (msg s1)) as [r1 m1], (rewind (msg s2)) as [r2 m2].
Qed.

Lemma call_handler_eq cb f s1 s2 : st_eq s1 s2 -> msg s1 = msg s2 ->
  run_eq (call_handler cb f s1) (call_handler cb f s2).
Proof.
  intros H E. unfold call_handler. rewrite <- (eq_user _ _ H), <- E. destruct (f (msg s1) (userdata s1)) as [[o m] u].
  split; [done|]. cbn. apply fold_apply_op_eq. destruct H. split; cbn; try done. by rewrite eq_events0.
Qed.

Lemma rewound_call_eq {B} cb f (k : outcome -> stm st B) s1 s2 : st_eq s1 s2 ->
  (forall o s1 s2, st_eq s1 s2 -> run_eq (k o s1) (k o s2)) ->
  run_eq ((_ ← rewind_message; o ← call_handler cb f; k o) s1) ((_ ← rewind_message; o ← call_handler cb f; k o) s2).
Proof.
  intros H Hk. pose proof (rewind_message_eq s1 s2 H) as [E1 E2]. pose proof (rewound_msg s1 s2 H) as Em.
  unfold mbind at 1 3, stm_bind at 1 3. destruct (rewind_message s1) as [r1 s1'], (rewind_message s2) as [r2 s2'].
  cbn in *. subst r2. destruct r1 as [[]|e]; [|by split]. apply run_eq_bind; [by apply call_handler_eq|exact Hk].
Qed.

Lemma run_eq_get {B} (h k : st -> stm st B) s1 s2 :
  run_eq (h s1 s1) (k s2 s2) -> run_eq ((sget ≫= h) s1) ((sget ≫= k) s2).
Proof. done. Qed.

Lemma run_eq_mod {B} (f g : st -> st) (h k : unit -> stm st B) s1 s2 :
  st_eq (f s1) (g s2) -> (forall s1 s2, st_eq s1 s2 -> run_eq (h tt s1) (k tt s2)) ->
  run_eq ((smod f ≫= h) s1) ((smod g ≫= k) s2).
Proof. intros H Hk. by apply Hk. Qed.

Lemma run_leaf_eq cb s1 s2 : st_eq s1 s2 -> run_eq (run_leaf handler cb s1) (run_leaf handler cb s2).
Proof.
  intros H. unfold run_leaf. apply run_eq_get. rewrite (eq_last _ _ H), (eq_iteration _ _ H).
  destruct (bool_decide _); [by split|]. apply run_eq_mod; [by apply mark_eq|]. clear s1 s2 H. intros s1 s2 H.
  destruct (handler cb) as [f|]; [|apply run_eq_bind; [by apply rewind_message_eq|]; by split].
  apply rewound_call_eq; [done|]. clear s1 s2 H. intros o s1 s2 H.
  apply run_eq_bind; [by apply reply_error_eq|]. clear s1 s2 H. intros r s1 s2 H.
  destruct (negb (r =? 0)); [by split|]. apply run_eq_get. rewrite (eq_modified _ _ H).
  by destruct (match_callbacks_modified s2).
Qed.

Lemma call_seq_eq l s1 s2 : st_eq s1 s2 -> run_eq (call_seq l s1) (call_seq l s2).
Proof.
  revert s1 s2; induction l as [|cb l IH]; intros s1 s2 H; [by split|]. cbn [call_seq].
  apply run_eq_bind; [by apply run_leaf_eq|]. intros [r|] s1' s2' H'; [by split|by apply IH].
Qed.

(** What a leaf does to the state of a dispatch: it is visited; if the code goes
    on afterwards, nothing has changed the tree, and if it stops with 0,
    something has. *)
Definition leaf_effect (cb : nat) (m0 : M) (s : st) (r : option Z) (s' : st) : Prop :=
  same m0 (msg s') /\ iteration_counter s' = iteration_counter s /\
  last_iteration s' = <[cb := iteration_counter s]> (last_iteration s) /\
  match r with
  | None => match_callbacks_modified s' = false
  | Some r => r = 0 -> match_callbacks_modified s' = true
  end.

Lemma fold_apply_op_state os (s : st) :
  let s' := fold_left apply_op os s in
  msg s' = msg s /\ iteration_counter s' = iteration_counter s /\ last_iteration s' = last_iteration s.
Proof.
  revert s; induction os as [|o os IH]; intros s; [done|]. cbn [fold_left].
  destruct (IH (apply_op s o)) as (-> & -> & ->). done.
Qed.

Lemma reply_error_state r e (s : st) : exists r' s', bus_maybe_reply_error r e s = (Ok r', s') /\
  msg s' = msg s /\ iteration_counter s' = iteration_counter s /\ last_iteration s' = last_iteration s /\
  match_callbacks_modified s' = match_callbacks_modified s /\
  (r' = if (r <? 0) || e then 1 else r) /\ (r' = 0 -> s' = s).
Proof.
  unfold bus_maybe_reply_error, mbind, stm_bind, sget, smod, mret, stm_ret.
  destruct (r <? 0), e, (header_type (msg s) =? SD_BUS_MESSAGE_METHOD_CALL); cbn;
    do 2 eexists; split_and!; try reflexivity; done.
Qed.

Lemma run_leaf_effect cb m0 s : going m0 s -> ~ visited s cb ->
  exists r s', run_leaf handler cb s = (Ok r, s') /\ leaf_effect cb m0 s r s'.
Proof.
  intros [Hm Hmod] Hv. unfold run_leaf, mbind, stm_bind, sget. unfold visited in Hv.
  rewrite bool_decide_false by done. unfold smod, rewind_message. cbn [msg mark].
  pose proof (rewind_ok (msg s)) as R. pose proof (rewind_state (msg s)) as S.
  destruct (rewind (msg s)) as [r m]. cbn in R, S. subst r.
  destruct (handler cb) as [f|] eqn:Hf.
  2: { do 2 eexists. split; [done|]. split_and!; cbn; try done. by rewrite <- S. }
  unfold call_handler. cbn [msg set_msg userdata mark].
  pose proof (handler_reads cb f m (userdata s) Hf) as Hmm.
  destruct (f m (userdata s)) as [[o m'] u'].
  match goal with |- context [fold_left apply_op (ops o) ?x] => set (s1 := x) end.
  destruct (fold_apply_op_state (ops o) s1) as (Em & Ei & El). set (s2 := fold_left apply_op (ops o) s1) in *.
  destruct (reply_error_state (ret o) (error_is_set o) s2) as (r' & s3 & -> & Em3 & Ei3 & El3 & Emod & _ & _).
  assert (same m0 (msg s3)) as Hs3.
  { rewrite Em3, Em. cbn. etrans; [exact Hm|]. by etrans. }
  destruct (Z.eqb_spec r' 0) as [->|Hr]; cbn [negb].
  - destruct (match_callbacks_modified s3) eqn:Ed; do 2 eexists; (split; [done|]);
      (split_and!; [done|by rewrite Ei3, Ei|by rewrite El3, El|done]).
  - do 2 eexists. split; [done|]. split_and!; [done|by rewrite Ei3, Ei|by rewrite El3, El|done].
Qed.

(** Callbacks that occur once and have not run in this iteration. *)
Definition fresh (s : st) (l : list nat) : Prop := NoDup l /\ Forall (fun cb => ~ visited s cb) l.

Lemma fresh_eq s1 s2 l : st_eq s1 s2 -> fresh s1 l -> fresh s2 l.
Proof.
  intros H [Hn Hl]. split; [done|]. eapply Forall_impl; [exact Hl|]. intros cb Hcb. by rewrite <- (visited_eq s1 s2).
Qed.

Lemma call_seq_effect l : forall m0 s, going m0 s -> fresh s l ->
  exists r s', call_seq l s = (Ok r, s') /\ same m0 (msg s') /\ iteration_counter s' = iteration_counter s /\
    (forall cb, cb ∉ l -> last_iteration s' !! cb = last_iteration s !! cb) /\
    match r with
    | None => match_callbacks_modified s' = false /\ Forall (visited s') l
    | Some r => r = 0 -> match_callbacks_modified s' = true
    end.
Proof.
  induction l as [|cb l IH]; intros m0 s Hg [Hn Hl].
  { do 2 eexists. split; [done|]. destruct Hg. by split_and!. }
  apply NoDup_cons in Hn as [Hcb Hn]. inversion_clear Hl as [|?? Hv Hl'].
  destruct (run_leaf_effect cb m0 s Hg Hv) as (r & s1 & E & Hm & Hi & Hla & Hr).
  cbn [call_seq]. rewrite (stm_bind_run _ _ _ _ _ E). destruct r as [r|].
  { do 2 eexists. split; [done|]. split_and!; [done|done| |done]. intros c Hc. rewrite Hla.
    apply lookup_insert_ne. intros ->. apply Hc. left. }
  destruct (IH m0 s1) as (r' & s2 & E2 & Hm2 & Hi2 & Hl2 & Hr2).
  { by split. }
  { split; [done|]. rewrite Forall_forall in *. intros c Hc. unfold visited. rewrite Hla, Hi.
    rewrite lookup_insert_ne by (by intros ->). by apply Hl'. }
  exists r', s2. split; [done|]. split_and!; [done|by rewrite Hi2| |].
  - intros c Hc. apply not_elem_of_cons in Hc as [Hc1 Hc2]. rewrite Hl2 by done. rewrite Hla.
    by apply lookup_insert_ne.
  - destruct r'; [done|]. destruct Hr2 as [? Hv2]. split; [done|]. constructor; [|done].
    unfold visited. rewrite Hl2, Hi2, Hi, Hla by done. apply lookup_insert_eq.
Qed.

Lemma call_seq_app l1 l2 s :
  call_seq (l1 ++ l2) s =
  (r ← call_seq l1; match r with Some r => mret (Some r) | None => call_seq l2 end) s.
Proof.
  revert s; induction l1 as [|cb l1 IH]; intros s; [done|]. cbn [app call_seq].
  unfold mbind, stm_bind. destruct (run_leaf handler cb s) as [[[r|]|e] s1]; try done.
Qed.

(** ** Runs that call exactly some callbacks *)
Definition dispatches (m0 : M) (run : stm st (option Z)) (cbs : list nat) : Prop :=
  exists l, l ≡ₚ cbs /\ forall s, going m0 s -> fresh s l -> run_eq (run s) (call_seq l s).

Definition dispatches_all (m0 : M) (run : stm st Z) (cbs : list nat) : Prop :=
  exists l, l ≡ₚ cbs /\ forall s, going m0 s -> fresh s l -> run_eq (run s) (call_all l s).

(** Runs that do nothing, because every callback they reach has run. *)
Definition idle (m0 : M) (run : stm st (option Z)) (cbs : list nat) : Prop :=
  forall s, going m0 s -> Forall (visited s) cbs ->
  exists r s', run s = (Ok r, s') /\ st_eq s s' /\ (r = None \/ r = Some 0).

Definition idle_all (m0 : M) (run : stm st Z) (cbs : list nat) : Prop :=
  forall s, going m0 s -> Forall (visited s) cbs -> exists s', run s = (Ok 0, s') /\ st_eq s s'.

(** One run after the other. *)
Definition and_then (run1 run2 : stm st (option Z)) : stm st (option Z) :=
  r ← run1; match r with Some r => mret (Some r) | None => run2 end.

Lemma fresh_app s l1 l2 : fresh s (l1 ++ l2) ->
  fresh s l1 /\ fresh s l2 /\ forall cb, cb ∈ l2 -> cb ∉ l1.
Proof.
  intros [Hn Hl]. apply NoDup_app in Hn as (H1 & H12 & H2). apply Forall_app in Hl as [Hl1 Hl2].
  split; [by split|]. split; [by split|]. intros cb Hcb Hcb1. by apply (H12 cb Hcb1).
Qed.

(** After [l1] has run through, [l2] is still fresh. *)
Lemma fresh_after l1 l2 s s1 : fresh s (l1 ++ l2) -> iteration_counter s1 = iteration_counter s ->
  (forall cb, cb ∉ l1 -> last_iteration s1 !! cb = last_iteration s !! cb) -> fresh s1 l2.
Proof.
  intros Hf Hi Hla. destruct (fresh_app s l1 l2 Hf) as (_ & [Hn Hl] & Hd). split; [done|].
  rewrite Forall_forall in *. intros cb Hcb. unfold visited. rewrite Hi, Hla by by apply Hd. by apply Hl.
Qed.

Lemma run_eq_ok {A} (x : res A * st) r s : run_eq x (Ok r, s) -> exists s', x = (Ok r, s') /\ st_eq s' s.
Proof. destruct x as [? s']. intros [E H]. cbn in *. subst. by exists s'. Qed.

Lemma dispatches_and_then m0 run1 run2 c1 c2 :
  dispatches m0 run1 c1 -> dispatches m0 run2 c2 -> dispatches m0 (and_then run1 run2) (c1 ++ c2).
Proof.
  intros (l1 & P1 & H1) (l2 & P2 & H2). exists (l1 ++ l2). split; [by rewrite P1, P2|].
  intros s Hg Hf. destruct (fresh_app s l1 l2 Hf) as (Hf1 & _ & _). rewrite call_seq_app.
  destruct (call_seq_effect l1 m0 s Hg Hf1) as (r & s1 & E1 & Hm & Hi & Hla & Hr).
  specialize (H1 s Hg Hf1). rewrite E1 in H1. apply run_eq_ok in H1 as (s1' & E1' & Heq).
  unfold and_then. rewrite (stm_bind_run _ _ _ _ _ E1), (stm_bind_run _ _ _ _ _ E1').
  destruct r as [r|]; [by split|]. destruct Hr as [Hmod _].
  assert (going m0 s1') as Hg1 by (eapply going_eq; [by symmetry|by split]).
  assert (fresh s1' l2) as Hf2 by (eapply fresh_eq; [by symmetry|by eapply fresh_after]).
  etrans; [by apply H2|]. by apply call_seq_eq.
Qed.

(** A run that returns a number, followed by the code's checks. *)
Definition checked (run : stm st Z) : stm st (option Z) :=
  r ← run;
  if negb (r =? 0) then mret (Some r)
  else s ← sget; if match_callbacks_modified s then mret (Some 0) else mret None.

Lemma dispatches_checked m0 run cbs : dispatches_all m0 run cbs -> dispatches m0 (checked run) cbs.
Proof.
  intros (l & Hp & H). exists l. split; [done|]. intros s Hg Hf. specialize (H s Hg Hf).
  destruct (call_seq_effect l m0 s Hg Hf) as (r & s1 & E1 & Hm & Hi & Hla & Hr). rewrite E1.
  unfold call_all in H. rewrite (stm_bind_run _ _ _ _ _ E1) in H.
  apply run_eq_ok in H as (s1' & E1' & Heq). unfold checked. rewrite (stm_bind_run _ _ _ _ _ E1').
  pose proof (eq_modified _ _ Heq) as Em. unfold mbind, stm_bind, sget. destruct r as [r|]; cbn [default id].
  - destruct (Z.eqb_spec r 0) as [->|Hne]; cbn [negb]; [|by split]. rewrite Em, Hr by done. by split.
  - destruct Hr as [Hr _]. cbn. rewrite Em, Hr. by split.
Qed.

Lemma idle_checked m0 run cbs : idle_all m0 run cbs -> idle m0 (checked run) cbs.
Proof.
  intros H s Hg Hv. destruct (H s Hg Hv) as (s' & E & Heq). unfold checked.
  rewrite (stm_bind_run _ _ _ _ _ E). destruct (going_eq m0 s s' Heq Hg) as [_ Hmod].
  unfold mbind, stm_bind, sget. cbn. rewrite Hmod. do 2 eexists. split; [done|]. auto.
Qed.

Lemma idle_and_then m0 run1 run2 c1 c2 :
  idle m0 run1 c1 -> idle m0 run2 c2 -> idle m0 (and_then run1 run2) (c1 ++ c2).
Proof.
  intros H1 H2 s Hg Hv. apply Forall_app in Hv as [Hv1 Hv2]. destruct (H1 s Hg Hv1) as (r & s1 & E & Heq & Hr).
  unfold and_then. rewrite (stm_bind_run _ _ _ _ _ E). destruct Hr as [->| ->].
  - destruct (H2 s1) as (r2 & s2 & E2 & Heq2 & Hr2).
    + by eapply going_eq.
    + eapply Forall_impl; [exact Hv2|]. intros cb. by apply visited_eq.
    + exists r2, s2. split; [done|]. split; [by etrans|done].
  - do 2 eexists. split; [done|]. auto.
Qed.

(** ** Matching, along the tree *)
Lemma matching_app m l1 l2 : matching m (l1 ++ l2) = matching m l1 ++ matching m l2.
Proof. unfold matching. by rewrite List.filter_app, map_app. Qed.

Lemma matching_under m c rs :
  matching m (map (under c) rs) = if component_matches m c then matching m rs else [].
Proof.
  unfold matching. induction rs as [|r rs IH]; [by destruct (component_matches m c)|].
  cbn [map List.filter]. unfold rule_matches in *. cbn [under fst forallb].
  destruct (component_matches m c); cbn [andb]; [|by rewrite IH].
  destruct (forallb (component_matches m) r.1); cbn [map]; by rewrite IH.
Qed.

Lemma matching_value m t u s child :
  matching m (value_rules t (Value u s child)) =
  if component_matches m (Component t u s) then matching m (rules child) else [].
Proof. cbn [value_rules]. by rewrite matching_under. Qed.

(** What is proved of a node, and of a value node. *)
Definition node_ok (n : bus_match_node) : Prop := wf_node n -> forall m0,
  dispatches m0 (run_node handler n) (matching m0 (node_rules n)) /\
  idle m0 (run_node handler n) (matching m0 (node_rules n)).

Definition value_ok (v : value_node) : Prop := forall t, wf_value t v -> forall m0,
  dispatches_all m0 (run_value handler v) (matching m0 (rules (value_child v))) /\
  idle_all m0 (run_value handler v) (matching m0 (rules (value_child v))).

Lemma siblings_cons n l m0 s : going m0 s ->
  run_siblings (run_node handler) (n :: l) s =
  (r ← run_node handler n; match r with Some r => mret r | None => run_siblings (run_node handler) l end) s.
Proof. intros [_ Hm]. cbn [run_siblings]. unfold mbind, stm_bind, sget. by rewrite Hm. Qed.

(** Siblings: [run_siblings] is [run_node] on each, with 0 at the end. *)
Lemma siblings_ok l : Forall node_ok l -> Forall wf_node l -> forall m0,
  dispatches_all m0 (run_siblings (run_node handler) l) (matching m0 (rules l)) /\
  idle_all m0 (run_siblings (run_node handler) l) (matching m0 (rules l)).
Proof.
  intros Hl Hw m0. induction Hl as [|n l Hn Hl IH].
  { split.
    - exists []. split; [done|]. intros s _ _. by split.
    - intros s _ _. by exists s. }
  inversion_clear Hw as [|?? Hwn Hwl]. destruct (IH Hwl) as [(l2 & P2 & H2) I2].
  destruct (Hn Hwn m0) as [(l1 & P1 & H1) I1]. rewrite rules_cons, matching_app. split.
  - exists (l1 ++ l2). split; [by rewrite P1, P2|]. intros s Hg Hf. rewrite (siblings_cons n l m0 s Hg).
    destruct (fresh_app s l1 l2 Hf) as (Hf1 & _ & _).
    destruct (call_seq_effect l1 m0 s Hg Hf1) as (r & s1 & E1 & Hm & Hi & Hla & Hr).
    specialize (H1 s Hg Hf1). rewrite E1 in H1. apply run_eq_ok in H1 as (s1' & E1' & Heq).
    unfold call_all. rewrite (stm_bind_run _ _ _ _ _ E1').
    assert (call_seq (l1 ++ l2) s = match r with Some r => (Ok (Some r), s1) | None => call_seq l2 s1 end) as Ec.
    { rewrite call_seq_app, (stm_bind_run _ _ _ _ _ E1). by destruct r. }
    unfold mbind at 1, stm_bind at 1. rewrite Ec. destruct r as [r|]; [by split|]. destruct Hr as [Hmod _].
    assert (going m0 s1') as Hg1 by (eapply going_eq; [by symmetry|by split]).
    assert (fresh s1' l2) as Hf2 by (eapply fresh_eq; [by symmetry|by eapply fresh_after]).
    etrans; [by apply H2|]. unfold call_all. apply run_eq_bind; [by apply call_seq_eq|]. intros a ? ? ?. by split.
  - intros s Hg [Hv1 Hv2]%Forall_app. rewrite (siblings_cons n l m0 s Hg).
    destruct (I1 s Hg Hv1) as (r & s1 & E & Heq & Hr). rewrite (stm_bind_run _ _ _ _ _ E).
    destruct Hr as [->| ->]; [|by exists s1].
    destruct (I2 s1) as (s2 & E2 & Heq2).
    + by eapply going_eq.
    + eapply Forall_impl; [exact Hv2|]. intros cb. by apply visited_eq.
    + exists s2. split; [done|]. by etrans.
Qed.

Lemma value_node_ok v : Forall node_ok (value_child v) -> value_ok v.
Proof.
  destruct v as [u str child]. cbn [value_child]. intros Hch t (Hc & Hne & _ & Hw)%wf_value_nodes m0. cbn [value_child].
  destruct (siblings_ok child Hch Hw m0) as [(l & P & H) I].
  assert (forall s, going m0 s -> run_value handler (Value u str child) s = run_siblings (run_node handler) child s) as E.
  { intros s [_ Hm]. cbn [run_value]. unfold mbind, stm_bind, sget, sreq, slift. rewrite Hm.
    by rewrite bool_decide_false. }
  split.
  - exists l. split; [done|]. intros s Hg Hf. rewrite E by done. by apply H.
  - intros s Hg Hv. rewrite E by done. by apply I.
Qed.

(** ** Compare nodes *)
Lemma get_test_spec t (s : st) : is_kind t ->
  exists s', get_test t s = (Ok (test_of t (msg s)), s') /\ st_eq s s'.
Proof.
  intros Hk. assert (forall m, same (msg s) m -> st_eq s (set_msg m s)) as Hset by (by split).
  destruct t as [| | | | | | | | | |i|i|i|i]; cbn [get_test test_of]; try (exists s; by split);
    try (by destruct Hk as [_ Hk]).
  all: try pose proof (get_arg_state i (msg s)) as Ha; try pose proof (get_arg_strv_state i (msg s)) as Hs.
  all: try (destruct (get_arg i (msg s)) as [v m]; eexists; split; [done|]; by apply Hset).
  destruct (get_arg_strv i (msg s)) as [v m]. eexists. split; [done|]. by apply Hset.
Qed.

(** The test of the loop is the component's. *)
Lemma test_value_spec t v m0 (s : st) : is_kind t -> same m0 (msg s) ->
  let '(u8, str, strv) := test_of t m0 in
  test_value t u8 str strv v (msg s) =
  Ok (let 'Value u ns _ := v in component_matches m0 (Component t u ns)).
Proof.
  intros Hk Hm. pose proof (same_fields _ _ Hm) as (_ & _ & _ & _ & _ & _ & Hw).
  destruct v as [u ns child]. unfold component_matches. cbn [c_type value_u8 value_str].
  destruct (test_of t m0) as [[u8 str] strv]. unfold test_value. rewrite Hw.
  assert (forall a b c d e f, exists x, value_node_test t a b c d e f = Ok x) as Hx.
  { intros. destruct t; cbn; try (by eexists); try (by destruct Hk as [_ Hk]).
    repeat case_match; by eexists. }
  destruct (Hx u ns u8 str (default [] strv) (well_known_names (msg s))) as [x ->]. done.
Qed.

(** What is proved of a run: it calls these callbacks, and if they have all run
    it does nothing. *)
Definition covers (m0 : M) (run : stm st (option Z)) (cbs : list nat) : Prop :=
  dispatches m0 run cbs /\ idle m0 run cbs.

Definition covers_all (m0 : M) (run : stm st Z) (cbs : list nat) : Prop :=
  dispatches_all m0 run cbs /\ idle_all m0 run cbs.

Lemma covers_ext m0 run run' cbs : (forall s, going m0 s -> run s = run' s) -> covers m0 run' cbs -> covers m0 run cbs.
Proof.
  intros E [(l & P & H) I]. split.
  - exists l. split; [done|]. intros s Hg Hf. rewrite E by done. by apply H.
  - intros s Hg Hv. rewrite E by done. by apply I.
Qed.

Lemma covers_all_ext m0 run run' cbs :
  (forall s, going m0 s -> run s = run' s) -> covers_all m0 run' cbs -> covers_all m0 run cbs.
Proof.
  intros E [(l & P & H) I]. split.
  - exists l. split; [done|]. intros s Hg Hf. rewrite E by done. by apply H.
  - intros s Hg Hv. rewrite E by done. by apply I.
Qed.

Lemma covers_and_then m0 run1 run2 c1 c2 :
  covers_all m0 run1 c1 -> covers m0 run2 c2 -> covers m0 (and_then (checked run1) run2) (c1 ++ c2).
Proof.
  intros [D1 I1] [D2 I2]. split.
  - apply dispatches_and_then; [by apply dispatches_checked|done].
  - apply idle_and_then; [by apply idle_checked|done].
Qed.

Lemma call_all_eq l s1 s2 : st_eq s1 s2 -> run_eq (call_all l s1) (call_all l s2).
Proof. intros H. apply run_eq_bind; [by apply call_seq_eq|]. intros a s1' s2' H'. by split. Qed.

Lemma visited_all_eq s1 s2 l : st_eq s1 s2 -> Forall (visited s1) l -> Forall (visited s2) l.
Proof. intros H Hl. eapply Forall_impl; [exact Hl|]. intros cb. by apply visited_eq. Qed.

(** A step that leaves the state equivalent, first. *)
Lemma covers_all_pre m0 (pre : st -> st) run cbs :
  (forall s, st_eq s (pre s)) -> covers_all m0 run cbs -> covers_all m0 (fun s => run (pre s)) cbs.
Proof.
  intros E [(l & P & H) I]. split.
  - exists l. split; [done|]. intros s Hg Hf. etrans.
    + apply H; [by apply (going_eq m0 s)|by apply (fresh_eq s)].
    + apply call_all_eq. by symmetry.
  - intros s Hg Hv. destruct (I (pre s)) as (s' & E' & Heq).
    + by apply (going_eq m0 s).
    + by apply (visited_all_eq s).
    + exists s'. split; [done|]. etrans; [apply E|done].
Qed.

Lemma values_cons t v vs m0 s : is_kind t -> going m0 s ->
  let '(u8, str, strv) := test_of t m0 in
  let go := run_values (run_value handler) (test_value t u8 str strv) in
  go (v :: vs) s =
  (if (let 'Value u ns _ := v in component_matches m0 (Component t u ns))
   then and_then (checked (run_value handler v)) (go vs) s else go vs s).
Proof.
  intros Hk [Hm Hmod]. pose proof (test_value_spec t v m0 s Hk Hm) as Ht.
  destruct (test_of t m0) as [[u8 str] strv]. cbn zeta. cbn [run_values].
  unfold mbind at 1 2, stm_bind at 1 2, sget, slift. rewrite Ht.
  destruct v as [u ns child]. destruct (component_matches m0 _); [|done].
  unfold and_then, checked, mbind, stm_bind, sget.
  destruct (run_value handler _ s) as [[r|e] s1]; [|done]. destruct (negb (r =? 0)); [done|].
  by destruct (match_callbacks_modified s1).
Qed.

Lemma values_ok t vs m0 : is_kind t -> Forall value_ok vs -> Forall (wf_value t) vs ->
  let '(u8, str, strv) := test_of t m0 in
  covers m0 (run_values (run_value handler) (test_value t u8 str strv) vs) (matching m0 (values_rules t vs)).
Proof.
  intros Hk Hvs Hw. pose proof (fun v vs s => values_cons t v vs m0 s Hk) as Hcons.
  destruct (test_of t m0) as [[u8 str] strv]. cbn zeta in Hcons.
  induction Hvs as [|v vs Hv Hvs IH].
  { split.
    - exists []. split; [done|]. intros s _ _. by split.
    - intros s _ _. exists None, s. split_and!; [done|reflexivity|by left]. }
  inversion_clear Hw as [|?? Hwv Hwvs]. specialize (IH Hwvs). pose proof (Hv t Hwv m0) as Hc.
  destruct v as [u ns child]. rewrite values_rules_cons, matching_app, matching_value.
  destruct (component_matches m0 (Component t u ns)) eqn:Ec.
  - eapply covers_ext; [|by apply covers_and_then].
    intros s Hg. rewrite Hcons by done. by rewrite Ec.
  - eapply covers_ext; [|exact IH]. intros s Hg. rewrite Hcons by done. by rewrite Ec.
Qed.

(** ** Hash tables *)

(** The callbacks behind the value node a lookup finds. *)
Fixpoint found (m0 : M) (key : value_node -> bool) (vs : list value_node) : list nat :=
  match vs with
  | [] => []
  | v :: vs => if key v then matching m0 (rules (value_child v)) else found m0 key vs
  end.

Lemma touch_eq (s : st) : st_eq s (touch s).
Proof. split; reflexivity. Qed.

Lemma covers_none m0 : covers_all m0 (mret 0) [].
Proof.
  split.
  - exists []. split; [done|]. intros s _ _. by split.
  - intros s _ _. exists s. by split.
Qed.

Lemma run_hashed_ok m0 t key vs : Forall value_ok vs -> Forall (wf_value t) vs ->
  covers_all m0 (run_hashed (run_value handler) key vs) (found m0 key vs).
Proof.
  intros Hvs Hw. apply (covers_all_pre m0 touch (run_found (run_value handler) key vs)); [apply touch_eq|].
  induction Hvs as [|v vs Hv Hvs IH]; [apply covers_none|]. inversion_clear Hw as [|?? Hwv Hwvs].
  cbn [run_found found]. destruct (key v); [by eapply Hv|by apply IH].
Qed.

(** A lookup after the tree has changed comes to nothing. *)
Lemma run_hashed_stopped key vs (s : st) : match_callbacks_modified s = true ->
  exists s', run_hashed (run_value handler) key vs s = (Ok 0, s') /\ st_eq s s'.
Proof.
  intros Hm. exists (touch s). split; [|apply touch_eq].
  change (run_hashed (run_value handler) key vs s) with (run_found (run_value handler) key vs (touch s)).
  induction vs as [|v vs IH]; [done|]. cbn [run_found]. destruct (key v); [|exact IH].
  destruct v as [u ns child]. cbn [run_value]. unfold mbind, stm_bind, sget. cbn [match_callbacks_modified touch].
  by rewrite Hm.
Qed.

Lemma run_strv_stopped t vs strv : forall s : st, match_callbacks_modified s = true ->
  exists s', run_strv (run_value handler) t vs strv s = (Ok 0, s') /\ st_eq s s'.
Proof.
  induction strv as [|i strv IH]; intros s Hm; [by exists s|]. cbn [run_strv].
  destruct (run_hashed_stopped (value_node_same t 0 (Some i)) vs s Hm) as (s1 & E & Heq).
  rewrite (stm_bind_run _ _ _ _ _ E). cbn [Z.eqb negb].
  destruct (IH s1) as (s2 & E2 & Heq2); [by rewrite <- (eq_modified _ _ Heq)|].
  exists s2. split; [done|]. by etrans.
Qed.

(** The strings not looked up yet, each once. *)
Fixpoint todo (seen strv : list cstr) : list cstr :=
  match strv with
  | [] => []
  | i :: strv => if decide (i ∈ seen) then todo seen strv else i :: todo (i :: seen) strv
  end.

Definition found_all (m0 : M) (t : bus_match_node_type) (vs : list value_node) (strs : list cstr) : list nat :=
  concat (map (fun i => found m0 (value_node_same t 0 (Some i)) vs) strs).

(** A run that returns a number, and another if the first returned 0; the second
    does nothing once the tree has changed. *)
Lemma call_all_then m0 (run1 run2 : stm st Z) l1 l2 s : going m0 s -> fresh s (l1 ++ l2) ->
  run_eq (run1 s) (call_all l1 s) ->
  (forall s1 : st, match_callbacks_modified s1 = true -> exists s', run2 s1 = (Ok 0, s') /\ st_eq s1 s') ->
  (forall s1, going m0 s1 -> fresh s1 l2 -> Forall (visited s1) l1 ->
     (forall cb, visited s cb -> visited s1 cb) -> run_eq (run2 s1) (call_all l2 s1)) ->
  run_eq ((r ← run1; if negb (r =? 0) then mret r else run2) s) (call_all (l1 ++ l2) s).
Proof.
  intros Hg Hf H1 Hstop H2. destruct (fresh_app s l1 l2 Hf) as (Hf1 & _ & _).
  destruct (call_seq_effect l1 m0 s Hg Hf1) as (r & s1 & E1 & Hm & Hit & Hla & Hr).
  unfold call_all in H1. rewrite (stm_bind_run _ _ _ _ _ E1) in H1.
  apply run_eq_ok in H1 as (s1' & E1' & Heq). rewrite (stm_bind_run _ _ _ _ _ E1').
  assert (call_all (l1 ++ l2) s = match r with Some r => (Ok r, s1) | None => call_all l2 s1 end) as ->.
  { unfold call_all, mbind, stm_bind. rewrite call_seq_app. unfold mbind, stm_bind. rewrite E1. by destruct r. }
  destruct r as [r|]; cbn [default id].
  - destruct (Z.eqb_spec r 0) as [->|Hne]; cbn [negb]; [|by split].
    destruct (Hstop s1') as (s2 & E2 & Heq2); [by rewrite (eq_modified _ _ Heq), Hr|]. rewrite E2.
    split; [done|]. cbn. etrans; [by symmetry|done].
  - destruct Hr as [Hmod Hv1]. cbn [Z.eqb negb]. symmetry in Heq. etrans.
    + apply H2.
      * by apply (going_eq m0 s1); [|split].
      * apply (fresh_eq s1); [done|]. by eapply fresh_after.
      * by apply (visited_all_eq s1).
      * intros cb Hcb. apply (visited_eq s1 s1' cb Heq). unfold visited. destruct (decide (cb ∈ l1)) as [Hin|Hin].
        -- rewrite Forall_forall in Hv1. by apply Hv1.
        -- by rewrite Hit, Hla.
    + apply call_all_eq. by symmetry.
Qed.

Lemma found_all_cons m0 t vs i strs :
  found_all m0 t vs (i :: strs) = found m0 (value_node_same t 0 (Some i)) vs ++ found_all m0 t vs strs.
Proof. done. Qed.

Lemma elem_of_found_all m0 t vs i strs cb : i ∈ strs -> cb ∈ found m0 (value_node_same t 0 (Some i)) vs ->
  cb ∈ found_all m0 t vs strs.
Proof.
  intros Hi Hcb. apply elem_of_concat. eexists. split; [exact Hcb|]. apply list_elem_of_fmap. by exists i.
Qed.

(** Strings that were looked up before, and those that come later. *)
Lemma run_strv_idle m0 t vs : Forall value_ok vs -> Forall (wf_value t) vs -> forall strv s,
  going m0 s -> (forall i, i ∈ strv -> Forall (visited s) (found m0 (value_node_same t 0 (Some i)) vs)) ->
  exists s', run_strv (run_value handler) t vs strv s = (Ok 0, s') /\ st_eq s s'.
Proof.
  intros Hvs Hw. induction strv as [|i strv IH]; intros s Hg Hv; [by exists s|].
  destruct (run_hashed_ok m0 t (value_node_same t 0 (Some i)) vs Hvs Hw) as [_ I].
  destruct (I s Hg) as (s1 & E & Heq); [apply Hv; left|]. cbn [run_strv].
  rewrite (stm_bind_run _ _ _ _ _ E). cbn [Z.eqb negb]. destruct (IH s1) as (s2 & E2 & Heq2).
  - by eapply going_eq.
  - intros j Hj. eapply visited_all_eq; [done|]. apply Hv. by right.
  - exists s2. split; [done|]. by etrans.
Qed.

Lemma run_strv_ok m0 t vs : Forall value_ok vs -> Forall (wf_value t) vs -> forall strv seen,
  exists l, l ≡ₚ found_all m0 t vs (todo seen strv) /\
  (forall s, going m0 s -> fresh s l -> Forall (visited s) (found_all m0 t vs seen) ->
    run_eq (run_strv (run_value handler) t vs strv s) (call_all l s)).
Proof.
  intros Hvs Hw. induction strv as [|i strv IH]; intros seen.
  { exists []. split; [done|]. intros s Hg **. by split. }
  cbn [todo run_strv]. set (key := value_node_same t 0 (Some i)).
  destruct (run_hashed_ok m0 t key vs Hvs Hw) as [(li & Pi & Hi) Ii]. destruct (decide (i ∈ seen)) as [Hin|Hin].
  - destruct (IH seen) as (l & P & H). exists l. split; [done|]. intros s Hg Hf Hv.
    destruct (Ii s Hg) as (s1 & E & Heq).
    { rewrite Forall_forall in *. intros cb Hcb. apply Hv. by eapply elem_of_found_all. }
    rewrite (stm_bind_run _ _ _ _ _ E). cbn [Z.eqb negb]. etrans.
    + apply H; [by eapply going_eq|by eapply fresh_eq|by eapply visited_all_eq].
    + apply call_all_eq. by symmetry.
  - destruct (IH (i :: seen)) as (l & P & H). exists (li ++ l). split.
    + rewrite found_all_cons. by rewrite Pi, P.
    + intros s Hg Hf Hv. destruct (fresh_app s li l Hf) as (Hf1 & _ & _).
      eapply call_all_then; [done|done|by apply Hi|by apply run_strv_stopped|].
      intros s1 Hg1 Hf2 Hv1 Hkeep. apply H; [done|done|]. rewrite found_all_cons. fold key. apply Forall_app. split.
      * by rewrite <- Pi.
      * eapply Forall_impl; [exact Hv|]. cbn. apply Hkeep.
Qed.

(** ** What a lookup finds is what matches *)
Definition value_matches (m : M) (t : bus_match_node_type) (v : value_node) : bool :=
  let 'Value u ns _ := v in component_matches m (Component t u ns).

Lemma matching_value_cons m t v vs :
  matching m (values_rules t (v :: vs)) =
  (if value_matches m t v then matching m (rules (value_child v)) else []) ++ matching m (values_rules t vs).
Proof. destruct v as [u ns child]. by rewrite values_rules_cons, matching_app, matching_value. Qed.

Lemma no_match m t vs : (forall v, v ∈ vs -> value_matches m t v = false) -> matching m (values_rules t vs) = [].
Proof.
  induction vs as [|v vs IH]; intros H; [done|]. rewrite matching_value_cons, H by left. apply IH.
  intros w Hw. apply H. by right.
Qed.

Lemma found_matching m0 t key vs :
  NoDup (map value_key vs) -> (forall v, v ∈ vs -> key v = value_matches m0 t v) ->
  (forall v w, v ∈ vs -> w ∈ vs -> key v = true -> key w = true -> value_key v = value_key w) ->
  found m0 key vs = matching m0 (values_rules t vs).
Proof.
  induction vs as [|v vs IH]; intros Hd Hk Hu; [done|]. cbn [map] in Hd. apply NoDup_cons in Hd as [Hv Hd].
  rewrite matching_value_cons. cbn [found]. rewrite <- Hk by left. destruct (key v) eqn:E.
  - rewrite no_match; [by rewrite app_nil_r|]. intros w Hw. rewrite <- Hk by by right.
    destruct (key w) eqn:Ew; [|done]. exfalso. apply Hv. rewrite (Hu v w); [|left|by right|done|done].
    by apply list_elem_of_fmap_2.
  - apply IH; [done| |].
    + intros w Hw. apply Hk. by right.
    + intros x y Hx Hy. apply Hu; by right.
Qed.

Lemma todo_spec strv : forall seen,
  NoDup (todo seen strv) /\ forall i, i ∈ todo seen strv <-> i ∈ strv /\ i ∉ seen.
Proof.
  induction strv as [|x strv IH]; intros seen; cbn [todo].
  { split; [constructor|]. intros i. split; [by intros ?%elem_of_nil|by intros [?%elem_of_nil _]]. }
  destruct (decide (x ∈ seen)) as [Hx|Hx].
  - destruct (IH seen) as [Hn Hi]. split; [done|]. intros i. rewrite Hi, elem_of_cons. naive_solver.
  - destruct (IH (x :: seen)) as [Hn Hi]. split.
    + constructor; [|done]. rewrite Hi, elem_of_cons. naive_solver.
    + intros i. rewrite !elem_of_cons, Hi, elem_of_cons. destruct (decide (i = x)); naive_solver.
Qed.

(** A value node with string [w] and no other with it. *)
Lemma found_all_value m0 t v vs w strs : NoDup strs ->
  (forall i, value_node_same t 0 (Some i) v = bool_decide (i = w)) ->
  found m0 (value_node_same t 0 (Some w)) vs = [] ->
  found_all m0 t (v :: vs) strs ≡ₚ
  (if bool_decide (w ∈ strs) then matching m0 (rules (value_child v)) else []) ++ found_all m0 t vs strs.
Proof.
  intros Hn Hv Hw. induction Hn as [|i strs Hi Hn IH]; [done|]. rewrite !found_all_cons. cbn [found].
  rewrite Hv, IH. destruct (bool_decide_reflect (i = w)) as [->|Hne].
  - rewrite (bool_decide_true (w ∈ w :: strs)) by left. rewrite (bool_decide_false (w ∈ strs)) by done.
    by rewrite Hw.
  - assert (bool_decide (w ∈ i :: strs) = bool_decide (w ∈ strs)) as ->.
    { apply bool_decide_ext. rewrite elem_of_cons. naive_solver. }
    by rewrite Permutation_app_swap_app.
Qed.

Lemma found_none m0 key vs : (forall v, v ∈ vs -> key v = false) -> found m0 key vs = [].
Proof.
  induction vs as [|v vs IH]; intros H; [done|]. cbn [found]. rewrite H by left. apply IH.
  intros w Hw. apply H. by right.
Qed.

(** The value nodes of a kind of strings. *)
Lemma string_value t v : wf_value t v -> t <> BUS_MATCH_MESSAGE_TYPE ->
  exists w, value_key v = (0, Some w) /\ forall i, value_node_same t 0 (Some i) v = bool_decide (i = w).
Proof.
  destruct v as [u ns child]. intros [[_ Hv] _] Ht. cbn in Hv. rewrite bool_decide_false in Hv by done.
  destruct Hv as [-> (w & -> & _)]. exists w. split; [done|]. intros i. cbn [value_node_same].
  rewrite bool_decide_false by done. cbn [streq_ptr]. destruct (bool_decide_reflect (i = w)) as [->|Hne].
  - apply streq_refl.
  - destruct (streq w i) eqn:E; [|done]. apply streq_spec in E. congruence.
Qed.

Lemma found_all_matching m0 t vs strs : t <> BUS_MATCH_MESSAGE_TYPE -> NoDup strs ->
  NoDup (map value_key vs) -> Forall (wf_value t) vs ->
  (forall v w, v ∈ vs -> value_key v = (0, Some w) -> value_matches m0 t v = bool_decide (w ∈ strs)) ->
  found_all m0 t vs strs ≡ₚ matching m0 (values_rules t vs).
Proof.
  intros Ht Hn Hd Hw Hm. induction vs as [|v vs IH].
  { unfold found_all. cbn [found]. clear. induction strs; [done|]. done. }
  cbn [map] in Hd. apply NoDup_cons in Hd as [Hv Hd]. inversion_clear Hw as [|?? Hwv Hwvs].
  destruct (string_value t v Hwv Ht) as (w & Ek & Es).
  rewrite (found_all_value m0 t v vs w strs Hn Es).
  - rewrite matching_value_cons, (Hm v w) by (done || left). rewrite IH; [done|done|done|].
    intros x y Hx Hy. apply Hm; [by right|done].
  - apply found_none. intros x Hx. rewrite Forall_forall in Hwvs. destruct (string_value t x (Hwvs x Hx) Ht) as (y & Ey & Esy).
    rewrite Esy. apply bool_decide_false. intros ->. apply Hv. rewrite Ek, <- Ey. by apply list_elem_of_fmap_2.
Qed.

(** ** Compare nodes, and all nodes *)
Definition is_hashed (t : bus_match_node_type) : bool :=
  match t with
  | BUS_MATCH_MESSAGE_TYPE | BUS_MATCH_DESTINATION | BUS_MATCH_INTERFACE | BUS_MATCH_MEMBER
  | BUS_MATCH_PATH | BUS_MATCH_ARG _ | BUS_MATCH_ARG_HAS _ => true
  | _ => false
  end.

Lemma can_hash_spec t : is_kind t -> BUS_MATCH_CAN_HASH t = is_hashed t.
Proof.
  intros [Hr Hc]. unfold BUS_MATCH_CAN_HASH. destruct t as [| | | | | | | | | |i|i|i|i]; try done;
    cbn [in_range] in Hr; ztests; cbn [type_number is_hashed];
    repeat match goal with |- context [?x <=? ?y] => destruct (Z.leb_spec x y); try lia end; done.
Qed.

Lemma covers_checked m0 run cbs : covers_all m0 run cbs -> covers m0 (checked run) cbs.
Proof. intros [D I]. split; [by apply dispatches_checked|by apply idle_checked]. Qed.

(** The lookups of a hashed kind. *)
Definition run_lookups (t : bus_match_node_type) (vs : list value_node) (m0 : M) : stm st Z :=
  let '(u8, str, strv) := test_of t m0 in
  match str, strv with
  | Some str, _ => run_hashed (run_value handler) (value_node_same t 0 (Some str)) vs
  | None, Some strv => run_strv (run_value handler) t vs strv
  | None, None =>
      if bool_decide (t = BUS_MATCH_MESSAGE_TYPE)
      then run_hashed (run_value handler) (value_node_same t u8 None) vs else mret 0
  end.

(** One string to look up. *)
Lemma lookup_string_ok m0 t vs (str : option cstr) :
  t <> BUS_MATCH_MESSAGE_TYPE ->
  (forall v w, v ∈ vs -> value_key v = (0, Some w) ->
     value_matches m0 t v = match str with Some s => streq w s | None => false end) ->
  Forall value_ok vs -> Forall (wf_value t) vs -> NoDup (map value_key vs) ->
  covers_all m0 (match str with
    | Some str => run_hashed (run_value handler) (value_node_same t 0 (Some str)) vs
    | None => mret 0 end) (matching m0 (values_rules t vs)).
Proof.
  intros Ht Hm Hvs Hw Hd. rewrite Forall_forall in Hw. destruct str as [str|].
  - rewrite <- (found_matching m0 t (value_node_same t 0 (Some str))); [apply (run_hashed_ok m0 t); [done|by apply Forall_forall]|done| |].
    + intros v Hv. destruct (string_value t v (Hw v Hv) Ht) as (w & Ek & Es). rewrite Es, (Hm v w Hv Ek).
      destruct (bool_decide_reflect (str = w)) as [->|Hne]; [by rewrite streq_refl|].
      destruct (streq w str) eqn:E; [|done]. apply streq_spec in E. congruence.
    + intros v x Hv Hx. destruct (string_value t v (Hw v Hv) Ht) as (w & -> & ->).
      destruct (string_value t x (Hw x Hx) Ht) as (y & -> & ->).
      intros ->%bool_decide_eq_true ->%bool_decide_eq_true. done.
  - rewrite no_match; [apply covers_none|]. intros v Hv.
    destruct (string_value t v (Hw v Hv) Ht) as (w & Ek & _). by rewrite (Hm v w Hv Ek).
Qed.

Lemma existsb_streq w strv : existsb (fun i => streq_ptr (Some w) (Some i)) strv = bool_decide (w ∈ strv).
Proof.
  induction strv as [|i strv IH]; [done|]. cbn [existsb]. rewrite IH. cbn [streq_ptr].
  destruct (streq w i) eqn:E; cbn [orb].
  - apply streq_spec in E as ->. symmetry. apply bool_decide_true. left.
  - apply bool_decide_ext. rewrite elem_of_cons. split; [by right|]. intros [->|?]; [|done].
    by rewrite streq_refl in E.
Qed.

Lemma run_strv_covers m0 i vs strv : Forall value_ok vs -> Forall (wf_value (BUS_MATCH_ARG_HAS i)) vs ->
  NoDup (map value_key vs) -> (get_arg_strv i m0).1 = Some strv ->
  covers_all m0 (run_strv (run_value handler) (BUS_MATCH_ARG_HAS i) vs strv)
    (matching m0 (values_rules (BUS_MATCH_ARG_HAS i) vs)).
Proof.
  intros Hvs Hw Hd Es. set (t := BUS_MATCH_ARG_HAS i) in *. destruct (todo_spec strv []) as [Hn Hi].
  assert (found_all m0 t vs (todo [] strv) ≡ₚ matching m0 (values_rules t vs)) as Hp.
  { apply found_all_matching; try done. intros v w Hv Ek. destruct v as [u ns child]. cbn in Ek. injection Ek as -> ->.
    unfold value_matches, component_matches. cbn [c_type value_u8 value_str t test_of]. rewrite Es.
    unfold t. cbn [value_node_test default id]. rewrite existsb_streq. apply bool_decide_ext. rewrite Hi.
    split; [|by intros [? _]]. intros Hin. split; [done|]. by intros ?%elem_of_nil. }
  split.
  - destruct (run_strv_ok m0 t vs Hvs Hw strv []) as (l & Pl & H). exists l. split; [by rewrite Pl|].
    intros s Hg Hf. apply H; [done|done|constructor].
  - intros s Hg Hv. apply (run_strv_idle m0 t vs Hvs Hw strv s Hg). intros j Hj.
    rewrite <- Hp in Hv. rewrite Forall_forall in *. intros cb Hcb. apply Hv.
    eapply elem_of_found_all; [|exact Hcb]. apply Hi. split; [done|]. by intros ?%elem_of_nil.
Qed.

Lemma lookups_ok m0 t vs : is_kind t -> is_hashed t = true -> Forall value_ok vs -> Forall (wf_value t) vs ->
  NoDup (map value_key vs) -> covers_all m0 (run_lookups t vs m0) (matching m0 (values_rules t vs)).
Proof.
  intros Hk Hh Hvs Hw Hd. unfold run_lookups.
  destruct t as [| | | | | | | | | |i|i|i|i]; try done; cbn [test_of].
  - rewrite bool_decide_true by done. rewrite Forall_forall in Hw.
    rewrite <- (found_matching m0 BUS_MATCH_MESSAGE_TYPE (value_node_same BUS_MATCH_MESSAGE_TYPE (header_type m0) None)).
    + apply (run_hashed_ok m0 BUS_MATCH_MESSAGE_TYPE); [done|by apply Forall_forall].
    + done.
    + intros [u ns child] _. cbn. by rewrite bool_decide_true.
    + intros [u ns child] [u' ns' child'] Hv Hv'. cbn [value_node_same value_key]. rewrite !bool_decide_true by done.
      intros ->%Z.eqb_eq ->%Z.eqb_eq. destruct (Hw _ Hv) as [[_ [H _]] _], (Hw _ Hv') as [[_ [H' _]] _].
      cbn in H, H'. by rewrite H, H'.
  - eapply covers_all_ext; [|apply (lookup_string_ok m0 _ vs (m_destination m0)); try done].
    + intros s _. by destruct (m_destination m0).
    + intros [u ns child] w _ [= -> ->]. cbn. by destruct (m_destination m0).
  - eapply covers_all_ext; [|apply (lookup_string_ok m0 _ vs (m_interface m0)); try done].
    + intros s _. by destruct (m_interface m0).
    + intros [u ns child] w _ [= -> ->]. cbn. by destruct (m_interface m0).
  - eapply covers_all_ext; [|apply (lookup_string_ok m0 _ vs (m_member m0)); try done].
    + intros s _. by destruct (m_member m0).
    + intros [u ns child] w _ [= -> ->]. cbn. by destruct (m_member m0).
  - eapply covers_all_ext; [|apply (lookup_string_ok m0 _ vs (m_path m0)); try done].
    + intros s _. by destruct (m_path m0).
    + intros [u ns child] w _ [= -> ->]. cbn. by destruct (m_path m0).
  - eapply covers_all_ext; [|apply (lookup_string_ok m0 _ vs (get_arg i m0).1); try done].
    + intros s _. by destruct ((get_arg i m0).1).
    + intros [u ns child] w _ [= -> ->]. unfold value_matches, component_matches. cbn. by destruct ((get_arg i m0).1).
  - destruct ((get_arg_strv i m0).1) as [strv|] eqn:Es; [by apply run_strv_covers|].
    rewrite no_match; [rewrite bool_decide_false by done; apply covers_none|].
    intros [u ns child] _. unfold value_matches, component_matches. cbn. by rewrite Es.
Qed.

(** After the values of a compare node the code looks at the flag once more. *)
Definition finish (run : stm st (option Z)) : stm st (option Z) :=
  r ← run;
  match r with
  | Some r => mret (Some r)
  | None => s ← sget; mret (if match_callbacks_modified s then Some 0 else None)
  end.

Lemma finish_covers m0 run cbs : covers m0 run cbs -> covers m0 (finish run) cbs.
Proof.
  intros [(l & P & H) I]. split.
  - exists l. split; [done|]. intros s Hg Hf. specialize (H s Hg Hf).
    destruct (call_seq_effect l m0 s Hg Hf) as (r & s1 & E1 & Hm & Hi & Hla & Hr). rewrite E1 in *.
    apply run_eq_ok in H as (s1' & E1' & Heq). unfold finish. rewrite (stm_bind_run _ _ _ _ _ E1').
    destruct r as [r|]; [by split|]. unfold mbind, stm_bind, sget. rewrite (eq_modified _ _ Heq).
    destruct Hr as [-> _]. by split.
  - intros s Hg Hv. destruct (I s Hg Hv) as (r & s1 & E & Heq & Hr). unfold finish. rewrite (stm_bind_run _ _ _ _ _ E).
    destruct Hr as [->| ->].
    + unfold mbind, stm_bind, sget. destruct (going_eq m0 s s1 Heq Hg) as [_ ->].
      exists None, s1. split; [done|]. split; [done|by left].
    + exists (Some 0), s1. split; [done|]. split; [done|by right].
Qed.

Lemma covers_pre m0 (pre : st -> st) run cbs :
  (forall s, st_eq s (pre s)) -> covers m0 run cbs -> covers m0 (fun s => run (pre s)) cbs.
Proof.
  intros E [(l & P & H) I]. split.
  - exists l. split; [done|]. intros s Hg Hf. etrans.
    + apply H; [by apply (going_eq m0 s)|by apply (fresh_eq s)].
    + apply call_seq_eq. by symmetry.
  - intros s Hg Hv. destruct (I (pre s)) as (r & s' & E' & Heq & Hr).
    + by apply (going_eq m0 s).
    + by apply (visited_all_eq s).
    + exists r, s'. split; [done|]. split; [|done]. etrans; [apply E|done].
Qed.

(** The state after the message was asked for the values of a kind. *)
Definition after_test (t : bus_match_node_type) (s : st) : st := (get_test t s).2.

Lemma run_compare_eq m0 t vs s : is_kind t -> going m0 s ->
  run_compare (run_value handler) t vs s =
  (if is_hashed t then checked (run_lookups t vs m0)
   else let '(u8, str, strv) := test_of t m0 in
        finish (run_values (run_value handler) (test_value t u8 str strv) vs)) (after_test t s).
Proof.
  intros Hk [Hm _]. unfold run_compare, after_test. destruct (get_test_spec t s Hk) as (s' & E & _). rewrite E.
  rewrite (stm_bind_run _ _ _ _ _ E). cbn [snd]. rewrite can_hash_spec by done.
  assert (test_of t (msg s) = test_of t m0) as -> by (by rewrite Hm).
  unfold run_lookups, finish, checked. destruct (test_of t m0) as [[u8 str] strv].
  destruct (is_hashed t); [|done].
  match goal with |- context [mbind _ (mbind _ ?x)] => generalize x end. intros run.
  unfold mbind, stm_bind, sget. destruct (run s') as [[r|e] s1]; [|done]. cbn.
  destruct (r =? 0); cbn; [|done]. by destruct (match_callbacks_modified s1).
Qed.

Lemma compare_node_ok t vs : Forall value_ok vs -> node_ok (Compare t vs).
Proof.
  intros Hvs (Hne & Hd & Hw)%wf_compare m0.
  assert (is_kind t) as Hk.
  { destruct vs as [|[u ns child] vs]; [done|]. inversion_clear Hw as [|?? Hv _]. apply Hv. }
  change (node_rules (Compare t vs)) with (values_rules t vs).
  change (run_node handler (Compare t vs)) with (run_compare (run_value handler) t vs).
  apply (covers_ext m0 _ (fun s => (if is_hashed t then checked (run_lookups t vs m0)
   else let '(u8, str, strv) := test_of t m0 in
        finish (run_values (run_value handler) (test_value t u8 str strv) vs)) (after_test t s))).
  { intros s Hg. by apply run_compare_eq. }
  apply covers_pre.
  { intros s. unfold after_test. destruct (get_test_spec t s Hk) as (s' & -> & ?). done. }
  destruct (is_hashed t) eqn:Eh.
  - apply covers_checked. by apply lookups_ok.
  - pose proof (values_ok t vs m0 Hk Hvs Hw) as Hv. destruct (test_of t m0) as [[u8 str] strv].
    by apply finish_covers.
Qed.

Lemma leaf_node_ok cb : node_ok (Leaf cb).
Proof.
  intros _ m0. cbn [node_rules run_node]. change (matching m0 [([], cb)]) with [cb]. split.
  - exists [cb]. split; [done|]. intros s _ _. cbn [call_seq]. unfold mbind, stm_bind.
    destruct (run_leaf handler cb s) as [[[r|]|e] s1]; by split.
  - intros s Hg Hv. inversion_clear Hv as [|?? Hcb _]. unfold run_leaf, mbind, stm_bind, sget.
    unfold visited in Hcb. rewrite bool_decide_true by done. exists (Some 0), s.
    split; [done|]. split; [reflexivity|by right].
Qed.

Lemma run_node_ok n : node_ok n.
Proof.
  apply (node_ind node_ok value_ok).
  - apply leaf_node_ok.
  - intros t vs Hvs. by apply compare_node_ok.
  - intros u str child Hch. by apply value_node_ok.
Qed.

Lemma bus_match_run_covers root m0 : wf_nodes root ->
  covers_all m0 (run_siblings (run_node handler) root) (matching m0 (rules root)).
Proof.
  intros [_ Hw]. apply siblings_ok; [|done]. apply Forall_forall. intros n _. apply run_node_ok.
Qed.

(** ** Results *)
Lemma matching_incl m rs cb : cb ∈ matching m rs -> cb ∈ map snd rs.
Proof.
  unfold matching. intros (r & -> & Hr)%list_elem_of_fmap. apply list_elem_of_In, filter_In in Hr as [Hr _].
  apply list_elem_of_fmap_2. by apply list_elem_of_In.
Qed.

Lemma matching_nodup m rs : NoDup (map snd rs) -> NoDup (matching m rs).
Proof.
  unfold matching. induction rs as [|r rs IH]; [done|]. cbn [map List.filter]. intros [Hr Hn]%NoDup_cons.
  destruct (rule_matches m r); [|by apply IH]. cbn [map]. constructor; [|by apply IH].
  intros Hin. apply Hr. by apply (matching_incl m).
Qed.

(** A dispatch about to start: a well-formed tree, none of whose callbacks has
    run in this iteration. *)
Definition ready (s : st) : Prop :=
  tree_ok (match_callbacks s) /\ match_callbacks_modified s = false /\
  forall cb, cb ∈ callbacks (match_callbacks s) -> ~ visited s cb.

Lemma ready_fresh s l : ready s -> l ≡ₚ matching (msg s) (rules (match_callbacks s)) -> fresh s l.
Proof.
  intros ([_ Hn] & _ & Hv) Hp. split.
  - rewrite Hp. by apply matching_nodup.
  - rewrite Hp. apply Forall_forall. intros cb Hcb. apply Hv. by apply matching_incl in Hcb.
Qed.

Lemma ready_going s : ready s -> going (msg s) s.
Proof. intros (_ & Hm & _). by split. Qed.

Lemma bus_match_run_calls s : ready s ->
  exists l, l ≡ₚ matching (msg s) (rules (match_callbacks s)) /\
  run_eq (bus_match_run handler s) (call_all l s).
Proof.
  intros H. pose proof H as ([Hw Hn] & Hmod & Hv).
  destruct (bus_match_run_covers (match_callbacks s) (msg s) Hw) as [(l & P & D) _].
  exists l. split; [done|]. assert (bus_match_run handler s = run_siblings (run_node handler) (match_callbacks s) s) as ->.
  { unfold bus_match_run, mbind, stm_bind, sget. by rewrite Hmod. }
  apply D; [by apply ready_going|by apply ready_fresh].
Qed.

(** ** The specification

    Written apart from the dispatcher: what a rule says of a message, and what it
    is to call callbacks one after the other. *)

(** [v] is [s], or is below it: a separator follows [s], or ends it. *)
Definition is_below (sep : Z) (s v : cstr) : Prop :=
  v = s \/ (exists r, v = s ++ sep :: r) \/ (exists r, v = s ++ r /\ last s = Some sep).

Definition starts_with_colon (s : option cstr) : Prop := exists r, s = Some (ch ":" :: r).

Definition satisfies (m : M) (c : bus_match_component) : Prop :=
  match c_type c, value_str c with
  | BUS_MATCH_MESSAGE_TYPE, _ => header_type m = value_u8 c
  | BUS_MATCH_SENDER, Some s =>
      m_sender m = Some s \/
      match well_known_names m with
      | Some names => s ∈ names
      | None => starts_with_colon (m_sender m) /\ ~ starts_with_colon (Some s)
      end
  | BUS_MATCH_DESTINATION, Some s => m_destination m = Some s
  | BUS_MATCH_INTERFACE, Some s => m_interface m = Some s
  | BUS_MATCH_MEMBER, Some s => m_member m = Some s
  | BUS_MATCH_PATH, Some s => m_path m = Some s
  | BUS_MATCH_PATH_NAMESPACE, Some s => exists v, m_path m = Some v /\ is_below (ch "/") s v
  | BUS_MATCH_ARG i, Some s => (get_arg i m).1 = Some s
  | BUS_MATCH_ARG_PATH i, Some s => exists v, (get_arg i m).1 = Some v /\
      (v = s \/ (exists r, v = s ++ r /\ last s = Some (ch "/")) \/ (exists r, s = v ++ r /\ last v = Some (ch "/")))
  | BUS_MATCH_ARG_NAMESPACE i, Some s => exists v, (get_arg i m).1 = Some v /\ is_below (ch ".") s v
  | BUS_MATCH_ARG_HAS i, Some s => exists vs, (get_arg_strv i m).1 = Some vs /\ s ∈ vs
  | _, _ => False
  end.

Definition rule_satisfied (m : M) (r : rule) : Prop := Forall (satisfies m) r.1.

(** What is returned for a callback, and the reply: an error number or a filled
    error is replied to when the message is a call, and ends the dispatch. *)
Definition verdict (m : M) (o : outcome) : Z * list event :=
  let reply e := if decide (header_type m = SD_BUS_MESSAGE_METHOD_CALL) then [e] else [] in
  if decide (ret o < 0) then (1, reply (ReplyErrno (ret o)))
  else if error_is_set o then (1, reply ReplyError)
  else (ret o, []).

Definition tree_after (tree : list bus_match_node) (o : tree_op) : list bus_match_node :=
  match o with
  | AddMatch cs cb => bus_match_add tree cs cb
  | RemoveMatch cb => default tree (bus_match_remove tree cb)
  end.

Record delivery := Delivery {
  d_ret : Z; d_user : U; d_tree : list bus_match_node; d_changed : bool;
  d_events : list event; d_reached : list nat }.

(** One after the other, each on the message [m]: until one returns something else
    than 0 or adds or removes a match. *)
Fixpoint deliver (m : M) (l : list nat) (u : U) (tree : list bus_match_node) : delivery :=
  match l with
  | [] => Delivery 0 u tree false [] []
  | cb :: l =>
      let before evs d := Delivery (d_ret d) (d_user d) (d_tree d) (d_changed d) (evs ++ d_events d) (cb :: d_reached d) in
      match handler cb with
      | None => before [] (deliver m l u tree)
      | Some f =>
          let '(o, _, u) := f m u in
          let '(r, replies) := verdict m o in
          match ops o with
          | [] => if decide (r = 0) then before [Called cb] (deliver m l u tree)
                  else Delivery r u tree false (Called cb :: replies) [cb]
          | changes => Delivery r u (fold_left tree_after changes tree) true (Called cb :: replies) [cb]
          end
      end
  end.

(** The dispatcher did what was to be delivered. *)
Record delivered (s : st) (d : delivery) (r : res Z) (s' : st) : Prop := Delivered {
  dl_ret : r = Ok (d_ret d);
  dl_user : userdata s' = d_user d;
  dl_tree : match_callbacks s' = d_tree d;
  dl_changed : match_callbacks_modified s' = d_changed d;
  dl_events : events s' = events s ++ d_events d;
  dl_message : same (msg s) (msg s');
  dl_iteration : iteration_counter s' = iteration_counter s;
  dl_reached : last_iteration s' = fold_left (fun li cb => <[cb := iteration_counter s]> li) (d_reached d) (last_iteration s) }.

(** *** The rules *)

(** The strings a message hands out end with their first zero. *)
Definition strings_end (m : M) : Prop :=
  (forall s, m_path m = Some s -> is_cstr s) /\ forall i s, (get_arg i m).1 = Some s -> is_cstr s.

Lemma streq_ptr_some a b : streq_ptr (Some a) b = true <-> b = Some a.
Proof. destruct b as [b|]; [|done]. cbn. rewrite streq_spec. naive_solver. Qed.

Lemma streq_iff a b : streq a b = true <-> b = a.
Proof. rewrite streq_spec. naive_solver. Qed.

Lemma colon_head s : deref s = ch ":" <-> starts_with_colon (Some s).
Proof.
  unfold starts_with_colon. destruct s as [|c s]; cbn.
  - split; [done|]. by intros (r & [=]).
  - split; [intros ->; by eexists|]. by intros (r & [= -> _]).
Qed.

Lemma path_complex c a b : is_cstr a -> is_cstr b -> 0 < c < 256 ->
  complex_pattern_check c (Some a) (Some b) = true <->
  b = a \/ (exists r, b = a ++ r /\ last a = Some c) \/ (exists r, a = b ++ r /\ last b = Some c).
Proof. intros Ha Hb Hc. rewrite (proj1 (pattern_checks_spec c a b Ha Hb Hc)). naive_solver. Qed.

Lemma simple_below c a b : is_cstr a -> is_cstr b -> 0 < c < 256 ->
  simple_pattern_check c (Some a) (Some b) = true <-> is_below c a b.
Proof. intros Ha Hb Hc. rewrite (proj1 (proj2 (pattern_checks_spec c a b Ha Hb Hc))). unfold is_below. naive_solver. Qed.

Lemma component_satisfied m c : component_ok c -> strings_end m -> component_matches m c = true <-> satisfies m c.
Proof.
  destruct c as [t u ns]. intros [Hk Hv] [Hp Ha]. unfold component_matches, satisfies. cbn [c_type value_u8 value_str] in *.
  destruct (decide (t = BUS_MATCH_MESSAGE_TYPE)) as [->|Hne].
  { rewrite bool_decide_true in Hv by done. destruct Hv as [-> _]. cbn. rewrite Z.eqb_eq. naive_solver. }
  rewrite bool_decide_false in Hv by done. destruct Hv as [-> (s & -> & Hs)].
  destruct t as [| | | | | | | | | |i|i|i|i]; try done; cbn [test_of value_node_test].
  all: try (match goal with |- (if ?x then _ else _) = true <-> _ => destruct x as [v|] eqn:E end;
    [|split; [done|try done; by intros (? & [=] & _)]]).
  - rewrite <- streq_ptr_some. destruct (streq_ptr (Some s) (m_sender m)); [naive_solver|].
    destruct (well_known_names m) as [names|]; [rewrite existsb_streq, bool_decide_eq_true; naive_solver|].
    rewrite andb_true_iff, negb_true_iff, Z.eqb_neq. cbn [default id]. rewrite colon_head.
    destruct (m_sender m) as [v|].
    + rewrite Z.eqb_eq, colon_head. naive_solver.
    + split; [by intros [_ ?]|]. intros [?|[(r & [=]) _]]; done.
  - by rewrite streq_ptr_some.
  - by rewrite streq_ptr_some.
  - by rewrite streq_ptr_some.
  - by rewrite streq_ptr_some.
  - destruct (m_path m) as [v|] eqn:E; [|split; [done|by intros (? & [=] & _)]].
    unfold path_simple_pattern. rewrite simple_below by (first [done|by apply Hp|by split]). naive_solver.
  - by rewrite streq_ptr_some.
  - unfold path_complex_pattern. rewrite path_complex by (first [done|by eapply Ha|by split]). naive_solver.
  - unfold namespace_simple_pattern. rewrite simple_below by (first [done|by eapply Ha|by split]). naive_solver.
  - rewrite existsb_streq, bool_decide_eq_true. destruct ((get_arg_strv i m).1) as [vs|]; cbn [default id]; [naive_solver|].
    split; [by intros ?%elem_of_nil|by intros (? & [=] & _)].
Qed.

Lemma rules_components root : Forall wf_node root -> Forall (fun r => Forall component_ok r.1) (rules root).
Proof.
  assert (forall n, wf_node n -> Forall (fun r => Forall component_ok r.1) (node_rules n)) as Hn.
  { apply (node_ind (fun n => wf_node n -> Forall (fun r => Forall component_ok r.1) (node_rules n))
      (fun v => forall t, wf_value t v -> Forall (fun r => Forall component_ok r.1) (value_rules t v))).
    - intros cb _. by repeat constructor.
    - intros t vs Hvs (_ & _ & Hw)%wf_compare. cbn [node_rules]. apply Forall_concat, Forall_fmap.
      rewrite Forall_forall in *. intros v Hv. by apply Hvs; [|apply Hw].
    - intros u str child Hch t (Hc & _ & _ & Hw)%wf_value_nodes. cbn [value_rules]. apply Forall_fmap.
      assert (Forall (fun r : rule => Forall component_ok r.1) (concat (map node_rules child))) as H.
      { apply Forall_concat, Forall_fmap. rewrite Forall_forall in *. intros n Hin. by apply Hch; [|apply Hw]. }
      eapply Forall_impl; [exact H|]. intros r Hr. by constructor. }
  intros Hw. apply Forall_concat, Forall_fmap. eapply Forall_impl; [exact Hw|]. intros n. apply Hn.
Qed.

(** *** The calls *)
Lemma fold_apply_op_tree os (s : st) :
  let s' := fold_left apply_op os s in
  userdata s' = userdata s /\ match_callbacks s' = fold_left tree_after os (match_callbacks s) /\
  match_callbacks_modified s' = (if os then match_callbacks_modified s else true) /\ events s' = events s.
Proof.
  revert s; induction os as [|o os IH]; intros s; [done|]. cbn [fold_left].
  destruct (IH (apply_op s o)) as (-> & -> & -> & ->). split_and!; try done. by destruct os.
Qed.

Lemma deliver_cons m cb l u tree :
  deliver m (cb :: l) u tree =
  (let d := deliver m [cb] u tree in
   if decide (d_ret d = 0 /\ d_changed d = false) then
     let d2 := deliver m l (d_user d) (d_tree d) in
     Delivery (d_ret d2) (d_user d2) (d_tree d2) (d_changed d2) (d_events d ++ d_events d2) (d_reached d ++ d_reached d2)
   else d).
Proof.
  cbn [deliver]. destruct (handler cb) as [f|]; [|done]. destruct (f m u) as [[o m'] u'].
  destruct (verdict m o) as [r replies]. destruct (ops o); [|by rewrite decide_False by (by intros [_ [=]])].
  destruct (decide (r = 0)) as [->|Hr]; [done|]. by rewrite decide_False by (by intros [? _]).
Qed.

Definition emits (es : list event) (s : st) : st :=
  Dispatch (msg s) (userdata s) (match_callbacks s) (match_callbacks_modified s) (iteration_counter s)
    (last_iteration s) (events s ++ es) (stale s).

Lemma reply_verdict m o (s : st) : header_type (msg s) = header_type m ->
  bus_maybe_reply_error (ret o) (error_is_set o) s = (Ok (verdict m o).1, emits (verdict m o).2 s) /\
  ((verdict m o).1 = 0 -> (verdict m o).2 = []).
Proof.
  intros E. assert (emits [] s = s) as E0 by (destruct s; unfold emits; cbn; by rewrite app_nil_r).
  unfold bus_maybe_reply_error, verdict, mbind, stm_bind, sget, smod, mret, stm_ret. rewrite E.
  destruct (Z.ltb_spec (ret o) 0), (error_is_set o), (Z.eqb_spec (header_type m) SD_BUS_MESSAGE_METHOD_CALL);
    repeat first [rewrite decide_True by done|rewrite decide_False by lia]; cbn; by rewrite ?E0.
Qed.

Lemma run_leaf_delivers cb m0 s d : going m0 s -> ~ visited s cb ->
  d = deliver (rewind m0).2 [cb] (userdata s) (match_callbacks s) ->
  exists s', run_leaf handler cb s =
    (Ok (if decide (d_ret d = 0 /\ d_changed d = false) then None else Some (d_ret d)), s') /\
    delivered s d (Ok (d_ret d)) s'.
Proof.
  intros [Hm Hmod] Hv ->. unfold run_leaf, mbind, stm_bind, sget. unfold visited in Hv.
  rewrite bool_decide_false by done. unfold smod, rewind_message. cbn [msg mark].
  pose proof (rewind_ok (msg s)) as R. pose proof (rewind_state (msg s)) as S. pose proof (rewind_same _ _ Hm) as E.
  destruct (rewind (msg s)) as [r m]. cbn in R, S, E. subst r. rewrite E. cbn [deliver].
  destruct (handler cb) as [f|] eqn:Hf.
  2: { eexists. split; [done|]. by split; cbn; rewrite ?app_nil_r. }
  unfold call_handler. cbn [msg set_msg userdata mark]. pose proof (handler_reads cb f m (userdata s) Hf) as Hmm.
  destruct (f m (userdata s)) as [[o m'] u'].
  match goal with |- context [fold_left apply_op (ops o) ?x] => set (s1 := x) end.
  destruct (fold_apply_op_state (ops o) s1) as (Em & Ei & El).
  destruct (fold_apply_op_tree (ops o) s1) as (Eu & Et & Ed & Ee). set (s2 := fold_left apply_op (ops o) s1) in *.
  clearbody s2. destruct (reply_verdict m o s2) as [-> Hr].
  { rewrite Em. cbn. symmetry. by apply (same_fields m m'). }
  destruct (verdict m o) as [r replies]. cbn [fst snd] in *. cbn [match_callbacks_modified emits] in *.
  assert (forall d, d_user d = u' -> d_tree d = fold_left tree_after (ops o) (match_callbacks s) ->
    d_changed d = (if ops o then false else true) -> d_events d = Called cb :: replies -> d_reached d = [cb] ->
    delivered s d (Ok (d_ret d)) (emits replies s2)) as Hd.
  { intros d E1 E2 E3 E4 E5. split; cbn; try done; rewrite ?E1, ?E2, ?E3, ?E4, ?E5; cbn.
    - by rewrite Eu.
    - by rewrite Et.
    - rewrite Ed. by destruct (ops o); [|].
    - rewrite Ee. cbn. by rewrite <- app_assoc.
    - rewrite Em. cbn. by etrans.
    - by rewrite El. }
  exists (emits replies s2). destruct (ops o) as [|op os] eqn:Eo.
  - destruct (decide (r = 0)) as [->|Hne].
    + rewrite Hr in Hd |- * by done. cbn. rewrite Ed. cbn. rewrite Hmod. split; [done|]. by apply Hd.
    + rewrite (proj2 (Z.eqb_neq r 0)) by done. cbn [negb d_ret d_changed]. rewrite decide_False by (by intros [? _]).
      split; [done|]. by apply Hd.
  - cbn [d_ret d_changed]. rewrite decide_False by (by intros [_ [=]]). split; [|by apply Hd].
    destruct (Z.eqb_spec r 0) as [->|Hne]; cbn [negb]; [|done]. cbn. by rewrite Ed.
Qed.

Lemma delivered_trans s s1 s2 d d2 :
  d_ret d = 0 -> delivered s d (Ok (d_ret d)) s1 -> delivered s1 d2 (Ok (d_ret d2)) s2 ->
  delivered s (Delivery (d_ret d2) (d_user d2) (d_tree d2) (d_changed d2) (d_events d ++ d_events d2)
    (d_reached d ++ d_reached d2)) (Ok (d_ret d2)) s2.
Proof.
  intros _ [] []. split; cbn; try done.
  - by rewrite dl_events1, dl_events0, app_assoc.
  - by etrans.
  - congruence.
  - by rewrite dl_reached1, dl_reached0, dl_iteration0, fold_left_app.
Qed.

Lemma call_seq_delivers l : forall m0 s, going m0 s -> fresh s l ->
  let d := deliver (rewind m0).2 l (userdata s) (match_callbacks s) in
  exists r s', call_seq l s = (Ok r, s') /\ default 0 r = d_ret d /\ delivered s d (Ok (d_ret d)) s'.
Proof.
  induction l as [|cb l IH]; intros m0 s Hg [Hn Hl] d.
  { exists None, s. split; [done|]. split; [done|]. destruct Hg as [_ Hm]. by split; cbn; rewrite ?app_nil_r. }
  apply NoDup_cons in Hn as [Hcb Hn]. inversion_clear Hl as [|?? Hv Hl']. subst d. rewrite deliver_cons. cbv zeta.
  remember (deliver (rewind m0).2 [cb] (userdata s) (match_callbacks s)) as d eqn:Ed.
  destruct (run_leaf_delivers cb m0 s d Hg Hv Ed) as (s1 & E & Hd).
  destruct (run_leaf_effect cb m0 s Hg Hv) as (r & s1' & E' & Hm & Hi & Hla & Hr). rewrite E in E'. injection E' as <- <-.
  cbn [call_seq]. rewrite (stm_bind_run _ _ _ _ _ E).
  destruct (decide (d_ret d = 0 /\ d_changed d = false)) as [[E0 E1]|Hne]; [|by do 2 eexists].
  destruct (IH m0 s1) as (r2 & s2 & E2 & Er & Hd2).
  { split; [done|]. by rewrite (dl_changed _ _ _ _ Hd). }
  { split; [done|]. rewrite Forall_forall in *. intros c Hc. unfold visited. rewrite Hla, Hi.
    rewrite lookup_insert_ne by (by intros ->). by apply Hl'. }
  rewrite (dl_user _ _ _ _ Hd), (dl_tree _ _ _ _ Hd) in *.
  exists r2, s2. split; [done|]. split; [done|]. exact (delivered_trans _ _ _ _ _ E0 Hd Hd2).
Qed.

(** *** Freed nodes *)

(** There are rules on the elements of an argument. *)
Inductive looks_into_strings : bus_match_node -> Prop :=
  | looks_here i vs : looks_into_strings (Compare (BUS_MATCH_ARG_HAS i) vs)
  | looks_below t vs u str child n :
      Value u str child ∈ vs -> n ∈ child -> looks_into_strings n -> looks_into_strings (Compare t vs).

(** Nothing is read that may have been freed, unless [P]. *)
Definition tracked (P : Prop) (s s' : st) : Prop :=
  (match_callbacks_modified s = true -> match_callbacks_modified s' = true) /\
  (stale s' = true -> stale s = true \/ match_callbacks_modified s' = true /\ P).

#[local] Instance tracked_refl P : Reflexive (tracked P).
Proof. by split; [|left]. Qed.

#[local] Instance tracked_trans P : Transitive (tracked P).
Proof. intros s1 s2 s3 [] []. unfold tracked. naive_solver. Qed.

Lemma tracked_bind {A B} P (f : stm st A) (k : A -> stm st B) s :
  tracked P s (f s).2 -> (forall a s', f s = (Ok a, s') -> tracked P s' (k a s').2) -> tracked P s ((f ≫= k) s).2.
Proof.
  unfold mbind, stm_bind. intros H Hk. destruct (f s) as [[a|e] s'] eqn:E; [|done]. etrans; [exact H|by apply Hk].
Qed.

Lemma fold_apply_op_tracked P os (s : st) : tracked P s (fold_left apply_op os s).
Proof. revert s; induction os as [|o os IH]; intros s; [done|]. cbn. etrans; [|apply IH]. by split; [|left]. Qed.

Lemma run_leaf_tracked P cb (s : st) : tracked P s (run_leaf handler cb s).2.
Proof.
  unfold run_leaf. apply tracked_bind; [done|]. intros a s' [= -> ->]. destruct (bool_decide _); [done|].
  apply tracked_bind; [by split; [|left]|]. intros [] s1 _. apply tracked_bind.
  { unfold rewind_message. destruct (rewind (msg s1)). by split; [|left]. }
  intros [] s2 _. destruct (handler cb) as [f|]; [|done]. apply tracked_bind.
  { unfold call_handler. destruct (f (msg s2) (userdata s2)) as [[o m] u]. cbn.
    etrans; [|apply fold_apply_op_tracked]. by split; [|left]. }
  intros o s3 _. apply tracked_bind.
  { unfold bus_maybe_reply_error, mbind, stm_bind, sget, smod, mret, stm_ret.
    destruct (ret o <? 0), (error_is_set o), (header_type (msg s3) =? SD_BUS_MESSAGE_METHOD_CALL); by split; [|left]. }
  intros r s4 _. destruct (negb (r =? 0)); [done|]. apply tracked_bind; [done|]. intros a5 s5 [= -> ->].
  by destruct (match_callbacks_modified s5).
Qed.

Lemma get_test_tracked P t (s : st) : tracked P s (get_test t s).2 /\
  match_callbacks_modified (get_test t s).2 = match_callbacks_modified s /\
  forall a, (get_test t s).1 = Ok a -> is_Some a.2 -> exists i, t = BUS_MATCH_ARG_HAS i.
Proof.
  destruct t as [| | | | | | | | | |i|i|i|i]; cbn [get_test];
    try (destruct (get_arg i (msg s))); try (destruct (get_arg_strv i (msg s))); cbn;
    (split_and!; [by split; [|left]|done|]); intros a [= <-] [x Hx]; try done; by eexists.
Qed.

Section Tracked.
Context (P : Prop).

Lemma run_found_tracked key vs s : (forall v s, v ∈ vs -> tracked P s (run_value handler v s).2) ->
  tracked P s (run_found (run_value handler) key vs s).2.
Proof.
  induction vs as [|v vs IH]; intros H; [done|]. cbn [run_found]. destruct (key v); [apply H; left|].
  apply IH. intros w s' Hw. apply H. by right.
Qed.

Lemma run_hashed_tracked key vs s : (forall v s, v ∈ vs -> tracked P s (run_value handler v s).2) ->
  match_callbacks_modified s = false \/ P -> tracked P s (run_hashed (run_value handler) key vs s).2.
Proof.
  intros H Hs. unfold run_hashed. apply tracked_bind; [|intros; by apply run_found_tracked].
  split; [done|]. cbn. destruct (stale s); [by left|]. intros Hm. destruct Hs as [Hs|HP]; [by rewrite Hs in Hm|by right].
Qed.

Lemma run_strv_tracked t vs strv : (forall v s, v ∈ vs -> tracked P s (run_value handler v s).2) -> P ->
  forall s, tracked P s (run_strv (run_value handler) t vs strv s).2.
Proof.
  intros H HP. induction strv as [|i strv IH]; intros s; [done|]. cbn [run_strv].
  apply tracked_bind; [apply run_hashed_tracked; auto|]. intros r s' _. by destruct (negb (r =? 0)).
Qed.

Lemma run_values_tracked test vs : (forall v s, v ∈ vs -> tracked P s (run_value handler v s).2) ->
  forall s, tracked P s (run_values (run_value handler) test vs s).2.
Proof.
  induction vs as [|v vs IH]; intros H s; [done|]. cbn [run_values].
  assert (forall s, tracked P s (run_values (run_value handler) test vs s).2) as IH'.
  { apply IH. intros w s2 Hw. apply H. by right. }
  apply tracked_bind; [done|]. intros a s1 [= -> ->]. apply tracked_bind; [by destruct (test v _)|].
  intros b s2 _. destruct b; [|apply IH']. apply tracked_bind; [apply H; left|]. intros r s3 _.
  destruct (negb (r =? 0)); [done|]. apply tracked_bind; [done|]. intros a5 s5 [= -> ->].
  by destruct (match_callbacks_modified s5).
Qed.

Lemma run_compare_tracked t vs s : (forall v s, v ∈ vs -> tracked P s (run_value handler v s).2) ->
  (forall i, t = BUS_MATCH_ARG_HAS i -> P) -> match_callbacks_modified s = false ->
  tracked P s (run_compare (run_value handler) t vs s).2.
Proof.
  intros H Ht Hs. unfold run_compare. destruct (get_test_tracked P t s) as (Hg & Hm & Ha).
  apply tracked_bind; [done|]. intros [[u8 str] strv] s1 E. rewrite E in Hm, Ha. cbn in Hm.
  specialize (Ha _ eq_refl). cbn in Ha. rewrite Hs in Hm. apply tracked_bind.
  - destruct (BUS_MATCH_CAN_HASH t); [|by apply run_values_tracked]. apply tracked_bind; [|done].
    destruct str as [str|]; [apply run_hashed_tracked; auto|]. destruct strv as [strv|].
    + destruct Ha as [i Hi]; [by eexists|]. apply run_strv_tracked; [done|by eapply Ht].
    + destruct (bool_decide _); [apply run_hashed_tracked; auto|done].
  - intros r s2 _. destruct r; [done|]. by apply tracked_bind.
Qed.

Lemma run_siblings_tracked l : (forall n s, n ∈ l -> match_callbacks_modified s = false -> tracked P s (run_node handler n s).2) ->
  forall s, tracked P s (run_siblings (run_node handler) l s).2.
Proof.
  induction l as [|n l IH]; intros H s; [done|]. cbn [run_siblings]. apply tracked_bind; [done|]. intros a s1 [= -> ->].
  destruct (match_callbacks_modified s1) eqn:Em; [done|]. apply tracked_bind; [by apply H; [left|]|].
  intros r s2 _. destruct r; [done|]. apply IH. intros x s3 Hx. apply H. by right.
Qed.

Lemma run_node_tracked n : (looks_into_strings n -> P) -> forall s, match_callbacks_modified s = false ->
  tracked P s (run_node handler n s).2.
Proof.
  apply (node_ind (fun n => (looks_into_strings n -> P) -> forall s, match_callbacks_modified s = false ->
      tracked P s (run_node handler n s).2)
    (fun v => (forall n, n ∈ value_child v -> looks_into_strings n -> P) -> forall s, tracked P s (run_value handler v s).2)).
  - intros cb _ s _. apply run_leaf_tracked.
  - intros t vs Hvs HP s Hs. apply run_compare_tracked; [|intros i ->; apply HP; constructor|done].
    intros v s' Hv. rewrite Forall_forall in Hvs. apply Hvs; [done|]. intros n' Hn Hl. apply HP.
    destruct v as [u str child]. by eapply looks_below.
  - intros u str child Hch HP s. cbn [run_value]. apply tracked_bind; [done|]. intros a s1 [= -> ->].
    destruct (match_callbacks_modified s1); [done|]. apply tracked_bind; [by destruct (negb _)|].
    intros _ s2 _. apply run_siblings_tracked. intros n' s' Hn Hs'. rewrite Forall_forall in Hch. apply Hch; [done| |done].
    by apply HP.
Qed.

End Tracked.

Lemma bus_match_run_tracked s :
  tracked (exists n, n ∈ match_callbacks s /\ looks_into_strings n) s (bus_match_run handler s).2.
Proof.
  unfold bus_match_run. apply tracked_bind; [done|]. intros a s1 [= -> ->]. destruct (match_callbacks_modified s1); [done|].
  apply run_siblings_tracked. intros n s2 Hn. apply run_node_tracked. intros Hl. by exists n.
Qed.

(** *** Put together *)
Lemma matching_satisfied m root cb : tree_ok root -> strings_end m ->
  cb ∈ matching m (rules root) <-> exists cs, (cs, cb) ∈ rules root /\ Forall (satisfies m) cs.
Proof.
  intros [[_ Hw] _] Hs. pose proof (rules_components root Hw) as Hc. rewrite Forall_forall in Hc.
  assert (forall cs, Forall component_ok cs -> forallb (component_matches m) cs = true <-> Forall (satisfies m) cs) as Hiff.
  { intros cs Hcs. rewrite forallb_Forall. rewrite Forall_forall in Hcs. rewrite !Forall_forall.
    split; intros Hm c Hin; apply (component_satisfied m c); auto. }
  unfold matching. rewrite list_elem_of_fmap. split.
  - intros ([cs cb'] & -> & Hr). apply list_elem_of_In, filter_In in Hr as [Hin Hr]. exists cs.
    apply list_elem_of_In in Hin. split; [done|]. by apply Hiff; [apply (Hc _ Hin)|].
  - intros (cs & Hin & Hm). exists (cs, cb). split; [done|]. apply list_elem_of_In, filter_In.
    split; [by apply list_elem_of_In|]. by apply Hiff; [apply (Hc _ Hin)|].
Qed.

Lemma delivered_eq s d r s1 s' : st_eq s' s1 -> delivered s d r s1 -> delivered s d r s'.
Proof. intros [] []. split; try congruence. etrans; [done|by symmetry]. Qed.

(** C40. A dispatch that begins, in an iteration in which none of its callbacks has
    run: it is calling, in some order, the callbacks of exactly the rules that the
    message satisfies, each once and each on the message from its beginning, until
    one returns something else than 0 or adds or removes a match. The callbacks
    may do anything but change the message; what is returned, the calls, the
    replies and the state are the specification's, and no assertion fails. The
    exception: a callback changed the tree and there are rules on the elements of
    an argument, where the code may go on to read a node that was freed. *)
Theorem bus_match_run_spec s : ready s -> strings_end (msg s) -> stale s = false ->
  exists l, NoDup l /\
    (forall cb, cb ∈ l <-> exists cs, (cs, cb) ∈ rules (match_callbacks s) /\ Forall (satisfies (msg s)) cs) /\
    let '(r, s') := bus_match_run handler s in
    (stale s' = false -> delivered s (deliver (rewind (msg s)).2 l (userdata s) (match_callbacks s)) r s') /\
    (stale s' = true ->
       match_callbacks_modified s' = true /\ exists n, n ∈ match_callbacks s /\ looks_into_strings n).
Proof.
  intros H Hstr Hs. destruct (bus_match_run_calls s H) as (l & P & E). pose proof (ready_fresh s l H P) as Hf.
  exists l. split; [apply Hf|]. split.
  { intros cb. rewrite P. apply matching_satisfied; [by apply H|done]. }
  destruct (call_seq_delivers l (msg s) s (ready_going s H) Hf) as (r & s1 & Ec & Er & Hd).
  assert (call_all l s = (Ok (default 0 r), s1)) as Ea by (unfold call_all; by rewrite (stm_bind_run _ _ _ _ _ Ec)).
  rewrite Ea, Er in E. apply run_eq_ok in E as (s' & E & Heq). pose proof (bus_match_run_tracked s) as [_ Ht].
  rewrite E in Ht |- *. split; [intros _; by eapply delivered_eq|].
  intros Hst. destruct (Ht Hst) as [Hst'|?]; [congruence|done].
Qed.

(** Callbacks that leave the message to the others. *)
Definition quiet : Prop := forall cb f m u, handler cb = Some f ->
  let '(o, _, _) := f m u in ret o = 0 /\ error_is_set o = false /\ ops o = [].

Definition has_function (cb : nat) : bool := bool_decide (is_Some (handler cb)).

Lemma run_leaf_quiet cb m0 s : quiet -> going m0 s -> ~ visited s cb ->
  exists s', run_leaf handler cb s = (Ok None, s') /\
    events s' = events s ++ (if has_function cb then [Called cb] else []).
Proof.
  intros Hq [Hm Hmod] Hv. unfold run_leaf, mbind, stm_bind, sget, has_function. unfold visited in Hv.
  rewrite bool_decide_false by done. unfold smod, rewind_message. cbn [msg mark].
  pose proof (rewind_ok (msg s)) as R. destruct (rewind (msg s)) as [r m]. cbn in R. subst r.
  destruct (handler cb) as [f|] eqn:Hf.
  2: { eexists. split; [done|]. cbn. by rewrite app_nil_r. }
  rewrite bool_decide_true by done. unfold call_handler. cbn [msg set_msg userdata mark].
  pose proof (Hq cb f m (userdata s) Hf) as Hh. destruct (f m (userdata s)) as [[o m'] u'].
  destruct Hh as (Hr & He & Ho). rewrite Hr, He, Ho. cbn [fold_left]. unfold bus_maybe_reply_error, mbind, stm_bind, sget.
  cbn. rewrite Hmod. eexists. split; [done|]. done.
Qed.

Lemma call_seq_quiet l : forall m0 s, quiet -> going m0 s -> fresh s l ->
  exists s', call_seq l s = (Ok None, s') /\ events s' = events s ++ map Called (List.filter has_function l).
Proof.
  induction l as [|cb l IH]; intros m0 s Hq Hg [Hn Hl].
  { exists s. split; [done|]. cbn. by rewrite app_nil_r. }
  apply NoDup_cons in Hn as [Hcb Hn]. inversion_clear Hl as [|?? Hv Hl'].
  destruct (run_leaf_quiet cb m0 s Hq Hg Hv) as (s1 & E & Ee).
  destruct (run_leaf_effect cb m0 s Hg Hv) as (r & s1' & E' & Hm & Hi & Hla & Hr). rewrite E in E'. injection E' as <- <-.
  destruct (IH m0 s1 Hq) as (s2 & E2 & Ee2).
  { by split. }
  { split; [done|]. rewrite Forall_forall in *. intros c Hc. unfold visited. rewrite Hla, Hi.
    rewrite lookup_insert_ne by (by intros ->). by apply Hl'. }
  exists s2. split; [by cbn [call_seq]; rewrite (stm_bind_run _ _ _ _ _ E)|].
  rewrite Ee2, Ee. cbn [List.filter]. destruct (has_function cb); cbn [map app]; by rewrite <- app_assoc.
Qed.

(** When no callback takes the message or changes the matches,
    [process_match] ends after one pass, returns 0, and has called exactly the
    callbacks whose rules match the message, each once. *)
Theorem process_match_quiet fuel s : ready s -> quiet -> (0 < fuel)%nat ->
  exists l s', process_match handler fuel s = (Ok 0, s') /\
    l ≡ₚ List.filter has_function (matching (msg s) (rules (match_callbacks s))) /\
    events s' = events s ++ map Called l.
Proof.
  intros H Hq Hf. destruct fuel as [|fuel]; [lia|]. destruct (bus_match_run_calls s H) as (l & P & E).
  destruct (call_seq_quiet l (msg s) s Hq (ready_going s H) (ready_fresh s l H P)) as (s1 & E1 & Ee).
  destruct (call_seq_effect l (msg s) s (ready_going s H) (ready_fresh s l H P)) as (r & s1' & Ec & _ & _ & _ & Hr).
  rewrite E1 in Ec. injection Ec as <- <-. destruct Hr as [Hmod _].
  assert (call_all l s = (Ok 0, s1)) as Ea by (unfold call_all; by rewrite (stm_bind_run _ _ _ _ _ E1)).
  rewrite Ea in E. apply run_eq_ok in E as (s2 & E & Heq).
  exists (List.filter has_function l), s2. split; [|split].
  - cbn [process_match]. assert (set_modified false s = s) as Es.
    { destruct H as (_ & Hm & _). destruct s. cbn in *. by rewrite Hm. }
    unfold smod, mbind, stm_bind. rewrite Es, E. cbn. rewrite (eq_modified _ _ Heq), Hmod. done.
  - clear - P. induction P as [|x l1 l2 P IH|x y l|l1 l2 l3 _ IH1 _ IH2]; cbn [List.filter]; [done| | |by etrans].
    + destruct (has_function x); by rewrite IH.
    + destruct (has_function x), (has_function y); try done. by rewrite Permutation_swap.
  - by rewrite (eq_events _ _ Heq).
Qed.

End Run.
