(* ===== verification/MatchExamples.v ===== *)
(** * Match trees at work

    Messages given by their members and arguments, instances of the theorems on
    them, and what happens when a callback changes the tree. *)
From S2P Require Import Prelude HexDecOct Names MatchRule MatchTree MatchRun.

(** A message that is its header members, its leading string arguments and the
    argument that is read next. Asking for an argument moves the reading. *)
Inductive argument := ArgString (s : cstr) | ArgStrings (l : list cstr).

Record flat_message := Flat {
  f_type : Z; f_sender : option cstr; f_destination : option cstr; f_interface : option cstr;
  f_member : option cstr; f_path : option cstr; f_args : list argument; f_next : Z }.

Definition read_at (i : Z) (m : flat_message) : flat_message :=
  Flat (f_type m) (f_sender m) (f_destination m) (f_interface m) (f_member m) (f_path m) (f_args m) i.

#[export] Instance flat_match_message : MatchMessage flat_message := {|
  header_type := f_type; m_sender := f_sender; m_destination := f_destination;
  m_interface := f_interface; m_member := f_member; m_path := f_path;
  well_known_names _ := None;
  get_arg i m := (match f_args m !! Z.to_nat i with Some (ArgString s) => Some s | _ => None end, read_at (i + 1) m);
  get_arg_strv i m := (match f_args m !! Z.to_nat i with Some (ArgStrings l) => Some l | _ => None end, read_at (i + 1) m);
  rewind m := (Ok tt, read_at 0 m) |}.

(** The same message, read up to any argument *)
Definition flat_same : relation flat_message := fun m1 m2 => read_at 0 m1 = read_at 0 m2.

#[export] Instance flat_laws : MatchMessageLaws flat_message flat_same.
Proof.
  split; unfold flat_same; try done.
  - split; [by intros m|by intros m1 m2 ->|by intros m1 m2 m3 -> ->].
  - intros [] [] [=]. by subst.
  - intros i [] [] [=]. by subst.
  - intros i [] [] [=]. by subst.
Qed.

Definition component (t : bus_match_node_type) (s : string) : bus_match_component := Component t 0 (Some (bs s)).
Definition signal_type : bus_match_component := Component BUS_MATCH_MESSAGE_TYPE 4 None.

(** The rules of the comment in the source, and three on arguments. *)
Definition source_rules : list rule :=
  [ ([component BUS_MATCH_SENDER "foo"; signal_type; component BUS_MATCH_INTERFACE "bar"], 1%nat);
    ([component BUS_MATCH_SENDER "quux"; signal_type; component BUS_MATCH_INTERFACE "fips"], 2%nat);
    ([component BUS_MATCH_SENDER "quux"; signal_type; component BUS_MATCH_INTERFACE "waldo"], 3%nat);
    ([signal_type; component BUS_MATCH_MEMBER "test"], 4%nat);
    ([component BUS_MATCH_SENDER "miau"], 5%nat);
    ([signal_type], 6%nat); ([signal_type], 7%nat);
    ([component (BUS_MATCH_ARG_HAS 1) "b"], 8%nat);
    ([component (BUS_MATCH_ARG_HAS 1) "a"; component (BUS_MATCH_ARG_HAS 2) "c"], 9%nat);
    ([component (BUS_MATCH_ARG_NAMESPACE 0) "org.x"], 10%nat) ].

Definition tree_of (rs : list rule) : list bus_match_node :=
  fold_left (fun t r => bus_match_add t r.1 r.2) rs [].

Definition source_tree : list bus_match_node := tree_of source_rules.

Lemma adds_ok rs : forall root, tree_ok root -> Forall (fun r => Forall component_ok r.1) rs ->
  NoDup (map snd rs ++ callbacks root) ->
  tree_ok (fold_left (fun t r => bus_match_add t r.1 r.2) rs root) /\
  rules (fold_left (fun t r => bus_match_add t r.1 r.2) rs root) ≡ₚ rs ++ rules root.
Proof.
  induction rs as [|[cs cb] rs IH]; intros root Hr Hc Hn; [by split|]. inversion_clear Hc as [|?? Hcs Hc'].
  cbn [map app fst snd fold_left] in *. apply NoDup_cons in Hn as [Hcb Hn].
  destruct (add_ok root cs cb Hcs (proj1 Hr)) as [Hw Hp]. destruct (IH (bus_match_add root cs cb)) as [H1 H2].
  - split; [done|]. unfold callbacks. rewrite Hp. constructor; [|apply Hr]. intros H. apply Hcb. apply elem_of_app. by right.
  - done.
  - unfold callbacks. rewrite Hp. cbn [map snd]. rewrite <- Permutation_middle. by constructor.
  - split; [done|]. by rewrite H2, Hp, <- Permutation_middle.
Qed.

Lemma component_string_ok t s : is_kind t -> t <> BUS_MATCH_MESSAGE_TYPE ->
  forallb (fun c => (0 <? c) && (c <? 256)) (bs s) = true -> component_ok (component t s).
Proof.
  intros Hk Ht Hs. split; [done|]. cbn. rewrite bool_decide_false by done. split; [done|].
  exists (bs s). split; [done|]. by apply forallb_Forall_cstr.
Qed.

Lemma signal_type_ok : component_ok signal_type.
Proof. split; [by split|]. cbn. split; [done|]. by eexists. Qed.

Ltac components_ok :=
  repeat first
    [ apply signal_type_ok
    | apply component_string_ok; [by split|done|vm_compute; reflexivity]
    | apply Forall_nil_2 | apply Forall_cons_2 ].

Lemma source_tree_ok : tree_ok source_tree /\ rules source_tree ≡ₚ source_rules.
Proof.
  destruct (adds_ok source_rules []) as [H1 H2].
  - split; [repeat constructor|constructor].
  - unfold source_rules. components_ok.
  - vm_compute. repeat (constructor; [rewrite list_elem_of_In; vm_compute; intuition lia|]). constructor.
  - split; [done|]. by rewrite app_nil_r in H2.
Qed.

Definition sample_signal : flat_message :=
  Flat 4 (Some (bs "quux")) None (Some (bs "waldo")) (Some (bs "test")) (Some (bs "/"))
    [ArgString (bs "org.x.y"); ArgStrings [bs "a"; bs "b"; bs "a"; bs "b"]] 2.

Definition quiet_handler (cb : nat) : option (flat_message -> unit -> outcome * flat_message * unit) :=
  Some (fun m u => (Outcome 0 false [], m, u)).

Definition start {U} (u : U) (tree : list bus_match_node) (m : flat_message) : dispatch :=
  Dispatch m u tree false 7 ∅ [] false.

Example source_tree_run :
  let '(r, s) := process_match quiet_handler 1 (start tt source_tree sample_signal) in
  r = Ok 0 /\ events s = map Called [10; 8; 7; 6; 4; 3]%nat.
Proof. vm_compute. split; reflexivity. Qed.

(** ** The theorems on the sample tree *)
Lemma match_tree_rules_witness :
  tree_ok (bus_match_add source_tree [signal_type] 11) /\
  (exists root', bus_match_remove source_tree 9 = Some root' /\ 9%nat ∉ callbacks root') /\
  bus_match_remove source_tree 12 = None.
Proof.
  destruct source_tree_ok as [Hok Hr].
  assert (Forall component_ok [signal_type]) as Hc by components_ok.
  destruct (match_tree_rules source_tree [signal_type] 11 Hok Hc) as (_ & _ & Hadd & _).
  destruct (match_tree_rules source_tree [signal_type] 9 Hok Hc) as (_ & _ & _ & Hrem).
  split; [|split].
  - apply Hadd. unfold callbacks. rewrite Hr. rewrite list_elem_of_In. vm_compute. intuition lia.
  - destruct (bus_match_remove source_tree 9) as [root'|] eqn:E; [|vm_compute in E; discriminate].
    exists root'. split; [reflexivity|]. apply Hrem.
  - vm_compute. reflexivity.
Defined.

Lemma start_ready {U} (u : U) m : @ready flat_message U (start u source_tree m).
Proof.
  split; [apply source_tree_ok|]. split; [reflexivity|]. intros cb _. unfold visited. cbn.
  by rewrite lookup_empty.
Qed.

(** A callback that takes the message unless it is read from the first argument
    on, and reads it to the end. *)
Definition reading_handler (cb : nat) : option (flat_message -> unit -> outcome * flat_message * unit) :=
  Some (fun m u => (Outcome (f_next m) false [], read_at 2 m, u)).

Lemma reading_handler_reads cb f m u : reading_handler cb = Some f -> let '(_, m', _) := f m u in flat_same m m'.
Proof. by intros [= <-]. Qed.

Lemma quiet_handler_reads cb f m u : quiet_handler cb = Some f -> let '(_, m', _) := f m u in flat_same m m'.
Proof. by intros [= <-]. Qed.

Lemma sample_strings_end : strings_end sample_signal.
Proof.
  split; [intros s [= <-]; by apply (forallb_Forall_cstr (bs "/"))|]. intros i s. cbn.
  destruct (Z.to_nat i) as [|[|n]]; cbn; intros [=]. subst s. by apply (forallb_Forall_cstr (bs "org.x.y")).
Qed.

Lemma bus_match_run_spec_witness :
  exists l s', NoDup l /\ 3%nat ∈ l /\
  bus_match_run reading_handler (start tt source_tree sample_signal) = (Ok 0, s') /\
  delivered (same := flat_same) (start tt source_tree sample_signal) (deliver reading_handler (read_at 0 sample_signal) l tt source_tree) (Ok 0) s' /\
  events s' = map Called [10; 8; 7; 6; 4; 3]%nat.
Proof.
  destruct (bus_match_run_spec reading_handler reading_handler_reads _ (start_ready tt sample_signal) sample_strings_end eq_refl)
    as (l & Hn & Hl & Hd).
  destruct (bus_match_run reading_handler (start tt source_tree sample_signal)) as [r s'] eqn:E.
  exists l, s'. split; [exact Hn|]. split.
  - apply Hl. exists [component BUS_MATCH_SENDER "quux"; signal_type; component BUS_MATCH_INTERFACE "waldo"]. split.
    + apply list_elem_of_In. vm_compute. tauto.
    + repeat constructor.
  - vm_compute in E. injection E as <- <-. split; [reflexivity|]. split; [|reflexivity]. apply Hd. reflexivity.
Defined.

Lemma quiet_handler_quiet : quiet quiet_handler.
Proof. by intros cb f m u [= <-]. Qed.

Lemma process_match_quiet_witness :
  exists l s', process_match quiet_handler 1 (start tt source_tree sample_signal) = (Ok 0, s') /\
    events s' = map Called l /\ length l = 6%nat.
Proof.
  destruct (process_match_quiet quiet_handler quiet_handler_reads 1 _ (start_ready tt sample_signal) quiet_handler_quiet)
    as (l & s' & E & P & Ev); [lia|].
  exists l, s'. split; [exact E|]. split; [exact Ev|]. rewrite P. vm_compute. reflexivity.
Defined.

(** ** Callbacks that change the tree *)

(** Callback 1 was added first, 2 after it, for the same rule; 2 adds another
    match when it is called. *)
Definition adding_handler (cb : nat) : option (flat_message -> unit -> outcome * flat_message * unit) :=
  if Nat.eqb cb 2 then Some (fun m u => (Outcome 0 false [AddMatch [component BUS_MATCH_MEMBER "other"] 3], m, u))
  else quiet_handler cb.

(** The dispatch begins again because the tree changed; there the leaf of 2, which
    has run, returns 0 before its siblings are looked at, and 1 is never called,
    although its rule matches and nothing took the message. ([process_filter]
    goes on with the next filter in the same situation.) *)
Lemma added_match_hides_siblings :
  let tree := tree_of [([signal_type], 1%nat); ([signal_type], 2%nat)] in
  let '(r, s) := process_match adding_handler 10 (start tt tree sample_signal) in
  r = Ok 0 /\ events s = [Called 2] /\ 1%nat ∈ matching sample_signal (rules tree).
Proof. vm_compute. split; [reflexivity|]. split; [reflexivity|]. apply list_elem_of_In. cbn. tauto. Qed.

(** Callback 1 removes its own match, the only one with [arg1has]: the loop over
    the strings of the argument goes on looking into the compare node, which
    was freed with the leaf. *)
Definition removing_handler (cb : nat) : option (flat_message -> unit -> outcome * flat_message * unit) :=
  Some (fun m u => (Outcome 0 false [RemoveMatch cb], m, u)).

Lemma arg_has_reads_freed_node :
  let '(r, s) := bus_match_run removing_handler
    (start tt (tree_of [([component (BUS_MATCH_ARG_HAS 1) "a"], 1%nat)]) sample_signal) in
  r = Ok 0 /\ match_callbacks s = [] /\ stale s = true.
Proof. vm_compute. split; [reflexivity|]. split; reflexivity. Qed.
