(* ===== verification/ObjTree.v ===== *)
(** * Objects: the tree of nodes ([src/libsystemd/sd-bus/bus-objects.c], [bus-slot.c])

    What a connection keeps of the objects its user registered: a node for each
    path, with the callbacks, vtables, enumerators and object managers at it, and
    the two tables of the members of all vtables. A slot is the handle of one
    registration. A node is known by its path, a slot by its number; the tables
    are hash maps, whose keys are compared as strings. The theory is in
    [ObjTreeWf], the use of the tree in [Objects]. *)
From S2P Require Import Prelude BusType Signature Names.

Abbreviation obj_path := (list Z) (only parsing).

(** ** Vtables *)

(** [struct sd_bus_vtable], without the entry that ends a vtable *)
Inductive sd_bus_vtable :=
  | VtableStart (flags element_size : Z)
  | VtableMethod (flags : Z) (member : cstr) (signature result : option cstr) (handler : option nat) (offset : Z)
  | VtableProperty (writable : bool) (flags : Z) (member signature : cstr) (get set : option nat) (offset : Z)
  | VtableSignal (flags : Z) (member : cstr) (signature : option cstr)
  | VtableOther (type flags : Z).

(** A [const sd_bus_vtable*]: its address and the entries there *)
Record vtable_pointer := Vtable { vt_address : Z; vt_entries : list sd_bus_vtable }.

Definition SD_BUS_VTABLE_DEPRECATED : Z := 1.
Definition SD_BUS_VTABLE_HIDDEN : Z := 2.
Definition SD_BUS_VTABLE_UNPRIVILEGED : Z := 4.
Definition SD_BUS_VTABLE_METHOD_NO_REPLY : Z := 8.
Definition SD_BUS_VTABLE_PROPERTY_CONST : Z := 16.
Definition SD_BUS_VTABLE_PROPERTY_EMITS_CHANGE : Z := 32.
Definition SD_BUS_VTABLE_PROPERTY_EMITS_INVALIDATION : Z := 64.
Definition SD_BUS_VTABLE_PROPERTY_EXPLICIT : Z := 128.

Definition sizeof_vtable : Z := 48.

(** [flags & f] *)
Definition has (flags f : Z) : bool := negb (Z.land flags f =? 0).

Definition vtable_flags (v : sd_bus_vtable) : Z :=
  match v with
  | VtableStart f _ | VtableMethod f _ _ _ _ _ | VtableProperty _ f _ _ _ _ _ | VtableSignal f _ _ | VtableOther _ f => f
  end.

(** ** Nodes, slots, members *)

(** [struct node]; the lists hold the numbers of slots. *)
Record node := Node {
  n_parent : option obj_path;
  n_child : list obj_path;
  n_callbacks : list nat;
  n_vtables : list nat;
  n_enumerators : list nat;
  n_object_managers : list nat }.

(** What a slot of an object is for: [struct node_callback], [node_vtable],
    [node_enumerator], [node_object_manager]. The node of a vtable is set last. *)
Inductive node_slot :=
  | BUS_NODE_CALLBACK (node : obj_path) (is_fallback : bool) (callback : nat) (last_iteration : Z)
  | BUS_NODE_VTABLE (node : option obj_path) (interface : cstr) (is_fallback : bool) (vtable : vtable_pointer) (find : option nat)
  | BUS_NODE_ENUMERATOR (node : obj_path) (callback : nat)
  | BUS_NODE_OBJECT_MANAGER (node : obj_path).

(** [sd_bus_slot] of an object *)
Record object_slot := ObjectSlot {
  os_ref : Z;
  os_floating : bool;
  os_userdata : Z;
  os_data : node_slot }.

(** The strings by which members are looked up: obj_path, interface and member *)
Abbreviation member_key := (list Z * list Z * list Z)%type (only parsing).

(** [struct vtable_member]: the slot of its vtable, and the place of its entry there *)
Record vtable_member := VtableMember {
  m_parent : nat;
  m_last_iteration : Z;
  m_vtable : nat }.

Record registry := Registry {
  nodes : gmap obj_path node;
  vtable_methods : gmap member_key vtable_member;
  vtable_properties : gmap member_key vtable_member;
  object_slots : gmap nat object_slot;
  next_object_slot : nat;
  nodes_modified : bool }.

Definition empty_registry : registry := Registry ∅ ∅ ∅ ∅ 0 false.

(** *** Assignments *)
Definition set_nodes (v : gmap obj_path node) (g : registry) : registry :=
  Registry v (vtable_methods g) (vtable_properties g) (object_slots g) (next_object_slot g) (nodes_modified g).
Definition set_methods (v : gmap member_key vtable_member) (g : registry) : registry :=
  Registry (nodes g) v (vtable_properties g) (object_slots g) (next_object_slot g) (nodes_modified g).
Definition set_properties (v : gmap member_key vtable_member) (g : registry) : registry :=
  Registry (nodes g) (vtable_methods g) v (object_slots g) (next_object_slot g) (nodes_modified g).
Definition set_object_slots (v : gmap nat object_slot) (g : registry) : registry :=
  Registry (nodes g) (vtable_methods g) (vtable_properties g) v (next_object_slot g) (nodes_modified g).
Definition set_nodes_modified (v : bool) (g : registry) : registry :=
  Registry (nodes g) (vtable_methods g) (vtable_properties g) (object_slots g) (next_object_slot g) v.

Definition set_child (v : list obj_path) (n : node) : node :=
  Node (n_parent n) v (n_callbacks n) (n_vtables n) (n_enumerators n) (n_object_managers n).

(** The list of a node that a slot is in *)
Inductive slot_list := InCallbacks | InVtables | InEnumerators | InObjectManagers.

Definition get_list (k : slot_list) (n : node) : list nat :=
  match k with
  | InCallbacks => n_callbacks n | InVtables => n_vtables n
  | InEnumerators => n_enumerators n | InObjectManagers => n_object_managers n
  end.

Definition set_list (k : slot_list) (v : list nat) (n : node) : node :=
  match k with
  | InCallbacks => Node (n_parent n) (n_child n) v (n_vtables n) (n_enumerators n) (n_object_managers n)
  | InVtables => Node (n_parent n) (n_child n) (n_callbacks n) v (n_enumerators n) (n_object_managers n)
  | InEnumerators => Node (n_parent n) (n_child n) (n_callbacks n) (n_vtables n) v (n_object_managers n)
  | InObjectManagers => Node (n_parent n) (n_child n) (n_callbacks n) (n_vtables n) (n_enumerators n) v
  end.

Definition upd_list (k : slot_list) (f : list nat -> list nat) (n : node) : node := set_list k (f (get_list k n)) n.

(** ** Paths *)

(** [strrchr]: where the last [c] is *)
Fixpoint strrchr (p : list Z) (c : Z) : option nat :=
  match p with
  | [] => None
  | x :: p =>
      match strrchr p c with
      | Some i => Some (S i)
      | None => if x =? c then Some O else None
      end
  end.

(** The path above: [strndupa(path, MAX(1, e - path))] for the last slash [e] *)
Definition parent_path (p : obj_path) : option obj_path :=
  match strrchr p (ch "/") with Some e => Some (take (Nat.max 1 e) p) | None => None end.

(** [OBJECT_PATH_FOREACH_PREFIX]: the prefixes it runs the body for, one round of
    [fuel] for each *)
Fixpoint prefixes_loop (fuel : nat) (p : obj_path) : list obj_path :=
  match fuel with
  | O => []
  | S fuel =>
      if streq p (bs "/") then []
      else match parent_path p with Some q => q :: prefixes_loop fuel q | None => [] end
  end.

Definition path_prefixes (p : obj_path) : list obj_path := prefixes_loop (length p) p.

(** ** The tree *)

(** Following a pointer to a node that is gone is undefined. *)
Definition node_at (p : obj_path) : stm registry node := fun g =>
  match nodes g !! p with Some n => (Ok n, g) | None => (Err EASSERT, g) end.

Definition mod_node (p : obj_path) (f : node -> node) : stm registry unit :=
  node_at p;; smod (fun g => set_nodes (alter f p (nodes g)) g).

(** [fuel] bounds the recursion to the paths above. *)
Fixpoint node_allocate (fuel : nat) (p : obj_path) : stm registry unit :=
  match fuel with
  | O => sfail EASSERT
  | S fuel =>
      g ← sget;
      match nodes g !! p with
      | Some _ => mret tt
      | None =>
          parent ← (if streq p (bs "/") then mret None
                    else match parent_path p with
                         | None => sfail EASSERT
                         | Some q => node_allocate fuel q;; mret (Some q)
                         end);
          smod (fun g => set_nodes (<[p := Node parent [] [] [] [] []]> (nodes g)) g);;
          match parent with
          | Some q => mod_node q (fun n => set_child (p :: n_child n) n)
          | None => mret tt
          end
      end
  end.

Definition bus_node_allocate (p : obj_path) : stm registry unit :=
  sreq (deref p =? ch "/") EASSERT;; node_allocate (S (length p)) p.

(** A node that nothing needs *)
Definition idle (n : node) : bool :=
  bool_decide (n_child n = []) && bool_decide (n_callbacks n = []) && bool_decide (n_vtables n = []) &&
  bool_decide (n_enumerators n = []) && bool_decide (n_object_managers n = []).

Fixpoint node_gc (fuel : nat) (p : obj_path) : stm registry unit :=
  match fuel with
  | O => sfail EASSERT
  | S fuel =>
      n ← node_at p;
      if negb (idle n) then mret tt
      else
        smod (fun g => set_nodes (delete p (nodes g)) g);;
        match n_parent n with
        | None => mret tt
        | Some q =>
            mod_node q (fun m => set_child (List.filter (fun c => negb (streq c p)) (n_child m)) m);;
            node_gc fuel q
        end
  end.

Definition bus_node_gc (p : obj_path) : stm registry unit := node_gc (S (length p)) p.

(** ** Slots *)
Definition object_slot_at (i : nat) : stm registry object_slot := fun g =>
  match object_slots g !! i with Some s => (Ok s, g) | None => (Err EASSERT, g) end.

Definition object_slot_allocate (floating : bool) (userdata : Z) (d : node_slot) : stm registry nat := fun g =>
  let i := next_object_slot g in
  (Ok i, Registry (nodes g) (vtable_methods g) (vtable_properties g)
           (<[i := ObjectSlot 1 floating userdata d]> (object_slots g)) (S i) (nodes_modified g)).

(** The slot leaves its node. *)
Definition unlink_slot (k : slot_list) (i : nat) (p : obj_path) : stm registry unit :=
  mod_node p (upd_list k (List.filter (fun j => negb (Nat.eqb j i))));;
  smod (set_nodes_modified true);;
  bus_node_gc p.

(** [hashmap_remove] of one member *)
Definition remove_member (p : obj_path) (interface : cstr) (v : sd_bus_vtable) : stm registry unit :=
  match v with
  | VtableMethod _ member _ _ _ _ => smod (fun g => set_methods (delete (p, interface, member) (vtable_methods g)) g)
  | VtableProperty _ _ member _ _ _ _ => smod (fun g => set_properties (delete (p, interface, member) (vtable_properties g)) g)
  | _ => mret tt
  end.

Fixpoint remove_members (p : obj_path) (interface : cstr) (l : list sd_bus_vtable) : stm registry unit :=
  match l with
  | [] => mret tt
  | v :: l => remove_member p interface v;; remove_members p interface l
  end.

(** [bus_slot_disconnect] *)
Definition object_slot_disconnect (i : nat) : stm registry unit :=
  s ← object_slot_at i;
  match os_data s with
  | BUS_NODE_CALLBACK p _ _ _ => unlink_slot InCallbacks i p
  | BUS_NODE_ENUMERATOR p _ => unlink_slot InEnumerators i p
  | BUS_NODE_OBJECT_MANAGER p => unlink_slot InObjectManagers i p
  | BUS_NODE_VTABLE None _ _ _ _ => mret tt
  | BUS_NODE_VTABLE (Some p) interface _ vtable _ =>
      remove_members p interface (vt_entries vtable);;
      unlink_slot InVtables i p
  end.

Definition object_slot_free (i : nat) : stm registry unit :=
  object_slot_disconnect i;;
  smod (fun g => set_object_slots (delete i (object_slots g)) g).

Definition set_os_ref (v : Z) (s : object_slot) : object_slot := ObjectSlot v (os_floating s) (os_userdata s) (os_data s).
Definition set_os_data (v : node_slot) (s : object_slot) : object_slot := ObjectSlot (os_ref s) (os_floating s) (os_userdata s) v.

(** [sd_bus_slot_ref], [sd_bus_slot_unref] *)
Definition object_slot_ref (i : nat) : stm registry unit :=
  s ← object_slot_at i;
  smod (fun g => set_object_slots (<[i := set_os_ref (os_ref s + 1) s]> (object_slots g)) g).

Definition object_slot_unref (i : nat) : stm registry unit :=
  s ← object_slot_at i;
  smod (fun g => set_object_slots (<[i := set_os_ref (os_ref s - 1) s]> (object_slots g)) g);;
  if os_ref s - 1 =? 0 then object_slot_free i else mret tt.

(** ** Registering *)

(** The slot is put first in its list. *)
Definition link_slot (k : slot_list) (i : nat) (p : obj_path) : stm registry unit :=
  mod_node p (upd_list k (cons i));;
  smod (set_nodes_modified true).

Definition bus_add_object (floating fallback : bool) (p : obj_path) (callback : nat) (userdata : Z) : stm registry nat :=
  sreq (object_path_is_valid p) EINVAL;;
  bus_node_allocate p;;
  i ← object_slot_allocate floating userdata (BUS_NODE_CALLBACK p fallback callback 0);
  link_slot InCallbacks i p;;
  mret i.

Definition sd_bus_add_object (floating : bool) := bus_add_object floating false.
Definition sd_bus_add_fallback (floating : bool) := bus_add_object floating true.

Definition sd_bus_add_node_enumerator (floating : bool) (p : obj_path) (callback : nat) (userdata : Z) : stm registry nat :=
  sreq (object_path_is_valid p) EINVAL;;
  bus_node_allocate p;;
  i ← object_slot_allocate floating userdata (BUS_NODE_ENUMERATOR p callback);
  link_slot InEnumerators i p;;
  mret i.

Definition sd_bus_add_object_manager (floating : bool) (p : obj_path) : stm registry nat :=
  sreq (object_path_is_valid p) EINVAL;;
  bus_node_allocate p;;
  i ← object_slot_allocate floating 0 (BUS_NODE_OBJECT_MANAGER p);
  link_slot InObjectManagers i p;;
  mret i.

(** *** Vtables *)
Definition builtin_interface (i : cstr) : bool :=
  existsb (streq i) [bs "org.freedesktop.DBus.Properties"; bs "org.freedesktop.DBus.Introspectable";
                     bs "org.freedesktop.DBus.Peer"; bs "org.freedesktop.DBus.ObjectManager"].

(** [vtable[0].type == _SD_BUS_VTABLE_START] and its size *)
Definition vtable_starts (v : vtable_pointer) : bool :=
  match vt_entries v with VtableStart _ size :: _ => size =? sizeof_vtable | _ => false end.

Definition strempty (s : option cstr) : cstr := default [] s.
Definition is_none {A} (o : option A) : bool := match o with None => true | Some _ => false end.

Definition method_valid (flags : Z) (member : cstr) (signature result : option cstr) (handler : option nat) : bool :=
  member_name_is_valid member &&
  signature_is_valid (strempty signature) false &&
  signature_is_valid (strempty result) false &&
  (negb (is_none handler) || bool_decide (strempty signature = []) && bool_decide (strempty result = [])) &&
  negb (has flags (Z.lor SD_BUS_VTABLE_PROPERTY_CONST
    (Z.lor SD_BUS_VTABLE_PROPERTY_EMITS_CHANGE SD_BUS_VTABLE_PROPERTY_EMITS_INVALIDATION))).

Definition writable_valid (flags : Z) (signature : cstr) (set : option nat) : bool :=
  (negb (is_none set) || bus_type_is_basic (deref signature)) && negb (has flags SD_BUS_VTABLE_PROPERTY_CONST).

Definition property_valid (writable : bool) (flags : Z) (member signature : cstr) (get : option nat) : bool :=
  member_name_is_valid member &&
  signature_is_single signature false &&
  (negb (is_none get) || bus_type_is_basic (deref signature) || streq signature (bs "as")) &&
  negb (has flags SD_BUS_VTABLE_METHOD_NO_REPLY) &&
  negb (1 <? Z.b2z (has flags SD_BUS_VTABLE_PROPERTY_CONST) + Z.b2z (has flags SD_BUS_VTABLE_PROPERTY_EMITS_CHANGE) +
             Z.b2z (has flags SD_BUS_VTABLE_PROPERTY_EMITS_INVALIDATION)) &&
  negb (has flags SD_BUS_VTABLE_PROPERTY_EMITS_CHANGE && has flags SD_BUS_VTABLE_PROPERTY_EXPLICIT) &&
  negb (has flags SD_BUS_VTABLE_UNPRIVILEGED && negb writable).

Definition signal_valid (flags : Z) (member : cstr) (signature : option cstr) : bool :=
  member_name_is_valid member && signature_is_valid (strempty signature) false &&
  negb (has flags SD_BUS_VTABLE_UNPRIVILEGED).

Definition entry_valid (v : sd_bus_vtable) : bool :=
  match v with
  | VtableMethod flags member signature result handler _ => method_valid flags member signature result handler
  | VtableProperty writable flags member signature get set _ =>
      (if writable then writable_valid flags signature set else true) && property_valid writable flags member signature get
  | VtableSignal flags member signature => signal_valid flags member signature
  | VtableStart _ _ | VtableOther _ _ => false
  end.

(** [hashmap_put] of the member of the entry [k], a new object: -EEXIST where the key
    is in use *)
Definition put_member (p : obj_path) (interface : cstr) (i k : nat) (v : sd_bus_vtable) : stm registry unit :=
  g ← sget;
  match v with
  | VtableMethod _ member _ _ _ _ =>
      sreq (is_none (vtable_methods g !! (p, interface, member))) EEXIST;;
      smod (fun g => set_methods (<[(p, interface, member) := VtableMember i 0 k]> (vtable_methods g)) g)
  | VtableProperty _ _ member _ _ _ _ =>
      sreq (is_none (vtable_properties g !! (p, interface, member))) EEXIST;;
      smod (fun g => set_properties (<[(p, interface, member) := VtableMember i 0 k]> (vtable_properties g)) g)
  | _ => mret tt
  end.

(** The loop over the entries from the [k]-th on *)
Fixpoint put_members (p : obj_path) (interface : cstr) (i k : nat) (l : list sd_bus_vtable) : stm registry unit :=
  match l with
  | [] => mret tt
  | v :: l =>
      sreq (entry_valid v) EINVAL;;
      put_member p interface i k v;;
      put_members p interface i (S k) l
  end.

Definition EPROTOTYPE : errno := EOTHER 91.

(** The loop over the vtables at the node; the result is the last one of the same
    interface. *)
Fixpoint find_existing (interface : cstr) (fallback : bool) (address : Z) (existing : option nat) (l : list nat) :
    stm registry (option nat) :=
  match l with
  | [] => mret existing
  | j :: l =>
      s ← object_slot_at j;
      match os_data s with
      | BUS_NODE_VTABLE _ interface' fallback' vtable' _ =>
          sreq (Bool.eqb fallback' fallback) EPROTOTYPE;;
          if streq interface' interface then
            sreq (negb (vt_address vtable' =? address)) EEXIST;;
            find_existing interface fallback address (Some j) l
          else find_existing interface fallback address existing l
      | _ => sfail EASSERT
      end
  end.

(** [LIST_INSERT_AFTER] *)
Fixpoint insert_after (existing : option nat) (i : nat) (l : list nat) : list nat :=
  match existing with
  | None => i :: l
  | Some j => match l with [] => [] | x :: l => if Nat.eqb x j then x :: i :: l else x :: insert_after existing i l end
  end.

(** [f]; when it fails, [cleanup] before the error is returned. *)
Definition or_fail {S A} (f : stm S A) (cleanup : stm S unit) : stm S A := fun g =>
  match f g with
  | (Ok a, g) => (Ok a, g)
  | (Err EASSERT, g) => (Err EASSERT, g)
  | (Err e, g) => (cleanup;; sfail e) g
  end.

Definition add_object_vtable_internal (floating : bool) (p : obj_path) (interface : cstr) (vtable : vtable_pointer)
    (fallback : bool) (find : option nat) (userdata : Z) : stm registry nat :=
  sreq (object_path_is_valid p) EINVAL;;
  sreq (interface_name_is_valid interface) EINVAL;;
  sreq (vtable_starts vtable) EINVAL;;
  sreq (negb (builtin_interface interface)) EINVAL;;
  bus_node_allocate p;;
  n ← node_at p;
  existing ← or_fail (find_existing interface fallback (vt_address vtable) None (n_vtables n)) (bus_node_gc p);
  i ← object_slot_allocate floating userdata (BUS_NODE_VTABLE None interface fallback vtable find);
  or_fail (put_members p interface i 1 (tail (vt_entries vtable))) (object_slot_unref i;; bus_node_gc p);;
  smod (fun g => set_object_slots (alter (set_os_data (BUS_NODE_VTABLE (Some p) interface fallback vtable find)) i (object_slots g)) g);;
  mod_node p (upd_list InVtables (insert_after existing i));;
  smod (set_nodes_modified true);;
  mret i.

Definition sd_bus_add_object_vtable (floating : bool) (p : obj_path) (interface : cstr) (vtable : vtable_pointer) (userdata : Z) :=
  add_object_vtable_internal floating p interface vtable false None userdata.

Definition sd_bus_add_fallback_vtable (floating : bool) (p : obj_path) (interface : cstr) (vtable : vtable_pointer)
    (find : option nat) (userdata : Z) :=
  add_object_vtable_internal floating p interface vtable true find userdata.

(** [bus_find_parent_object_manager]: the nearest node above that has an object
    manager; [fuel] bounds the nodes followed. *)
Fixpoint first_node (l : list obj_path) (g : registry) : option obj_path :=
  match l with
  | [] => None
  | p :: l => match nodes g !! p with Some _ => Some p | None => first_node l g end
  end.

Fixpoint manager_above (fuel : nat) (p : option obj_path) : stm registry (option obj_path) :=
  match fuel, p with
  | _, None => mret None
  | O, _ => sfail EASSERT
  | S fuel, Some p =>
      n ← node_at p;
      if bool_decide (n_object_managers n = []) then manager_above fuel (n_parent n) else mret (Some p)
  end.

Definition bus_find_parent_object_manager (p : obj_path) : stm registry (option obj_path) :=
  g ← sget;
  manager_above (S (S (length p))) (first_node (p :: path_prefixes p) g).
