(* ===== verification/ObjTreeWf.v ===== *)
(** * Objects: the tree stays well formed

    The paths above a path are shorter and valid, allocating a node makes the nodes
    above it, and collecting one takes the idle nodes above it along. *)
From S2P Require Import Prelude BusType Signature Names ObjTree.

(** ** Paths *)
Lemma strrchr_split p c e : strrchr p c = Some e -> exists l, p = take e p ++ c :: l /\ (e < length p)%nat.
Proof.
  revert e; induction p as [|x p IH]; intros e; [done|]. cbn. destruct (strrchr p c) as [i|] eqn:E.
  - intros [= <-]. destruct (IH i eq_refl) as (l & Hl & Hlt). exists l. cbn. split; [by f_equal|lia].
  - destruct (Z.eqb_spec x c) as [->|]; [|done]. intros [= <-]. exists p. split; [done|cbn; lia].
Qed.

Lemma strrchr_some p c : c ∈ p -> is_Some (strrchr p c).
Proof.
  induction p as [|x p IH]; [by intros ?%elem_of_nil|]. cbn. destruct (strrchr p c); [done|].
  intros [->|H]%elem_of_cons; [by rewrite Z.eqb_refl|]. by destruct (IH H).
Qed.

Lemma sep_loop_app sep good a : forall start found b,
  sep_loop sep good start found (a ++ b) =
  match sep_loop sep good start found a with Some (s, f) => sep_loop sep good s f b | None => None end.
Proof.
  induction a as [|c a IH]; intros start found b; [done|]. cbn.
  destruct (c =? sep); [destruct start; [done|apply IH]|]. destruct (good start c); [apply IH|done].
Qed.

Lemma path_slash p : object_path_is_valid p = true -> exists r, p = ch "/" :: r.
Proof.
  unfold object_path_is_valid. destruct p as [|c r]; [done|]. cbn [deref]. destruct (Z.eqb_spec c (ch "/")) as [->|]; [|done].
  by exists r.
Qed.

Lemma parent_path_exists p : object_path_is_valid p = true -> p <> bs "/" -> exists q, parent_path p = Some q.
Proof.
  intros [r ->]%path_slash _. unfold parent_path. destruct (strrchr_some (ch "/" :: r) (ch "/")) as [e ->]; [left|]. by eexists.
Qed.

Lemma parent_path_shorter p q :
  object_path_is_valid p = true -> p <> bs "/" -> parent_path p = Some q -> (length q < length p)%nat /\ q <> [].
Proof.
  intros [r ->]%path_slash Hne. unfold parent_path. destruct (strrchr _ _) as [e|] eqn:E; [|done]. intros [= <-].
  apply strrchr_split in E as (l & _ & Hlt). destruct r as [|c r]; [done|]. rewrite length_take. cbn [length] in *.
  split; [lia|]. intros H. apply (f_equal length) in H. rewrite length_take in H. cbn [length] in H. lia.
Qed.

Lemma parent_path_valid p q :
  object_path_is_valid p = true -> parent_path p = Some q -> object_path_is_valid q = true.
Proof.
  intros Hv. pose proof (path_slash p Hv) as [r ->]. unfold parent_path. destruct (strrchr _ _) as [e|] eqn:E; [|done].
  intros [= <-]. apply strrchr_split in E as (l & Hl & _). destruct e as [|[|e]]; [done|done|].
  cbn [Nat.max take] in Hl |- *. injection Hl as Hl. set (a := take (S e) r) in *.
  assert (Ha : a <> []) by (unfold a; destruct r; [by cbn in Hl|done]).
  unfold object_path_is_valid in *. cbn [deref tail] in *. rewrite Z.eqb_refl in *. cbn [negb] in *.
  destruct a as [|c a']; [done|]. rewrite Hl in Hv. change (char_at (ch "/" :: (c :: a') ++ ch "/" :: l) 1) with c in Hv.
  change (char_at (ch "/" :: c :: a') 1) with c. destruct (c =? 0); [done|]. rewrite sep_loop_app in Hv.
  destruct (sep_loop (ch "/") path_good true false (c :: a')) as [[[|] f]|]; [|done..].
  cbn in Hv. by rewrite Z.eqb_refl in Hv.
Qed.

(** ** Trees *)
Record tree_ok (N : gmap obj_path node) : Prop := {
  tr_valid : forall p n, N !! p = Some n -> object_path_is_valid p = true;
  tr_parent : forall p n, N !! p = Some n -> n_parent n = if streq p (bs "/") then None else parent_path p;
  tr_up : forall p n q, N !! p = Some n -> n_parent n = Some q -> exists m, N !! q = Some m /\ p ∈ n_child m;
  tr_down : forall p n c, N !! p = Some n -> c ∈ n_child n -> exists m, N !! c = Some m /\ n_parent m = Some p;
  tr_nodup : forall p n, N !! p = Some n -> NoDup (n_child n) }.

(** [N'] has the nodes of [N], with the same slots, and the ones [p] needs. *)
Record grown (p : obj_path) (N N' : gmap obj_path node) : Prop := {
  gr_old : forall q n, N !! q = Some n -> exists n', N' !! q = Some n' /\ n_parent n' = n_parent n /\
    (forall k, get_list k n' = get_list k n) /\ (n_child n <> [] -> n_child n' <> []);
  gr_new : forall q n', N' !! q = Some n' -> N !! q = None ->
    (forall k, get_list k n' = []) /\ (q = p \/ n_child n' <> []) /\ (length q <= length p)%nat;
  gr_in : is_Some (N' !! p) }.

Definition new_node (q : option obj_path) : node := Node q [] [] [] [] [].

Lemma new_lists q k : get_list k (new_node q) = [].
Proof. by destruct k. Qed.

(** A new leaf below [q] *)
Definition add_leaf (p q : obj_path) (N : gmap obj_path node) : gmap obj_path node :=
  alter (fun n => set_child (p :: n_child n) n) q (<[p := new_node (Some q)]> N).

Lemma add_leaf_lookup p q N r :
  p <> q -> add_leaf p q N !! r =
    if decide (r = p) then Some (new_node (Some q))
    else if decide (r = q) then (fun n => set_child (p :: n_child n) n) <$> N !! q else N !! r.
Proof.
  intros Hne. unfold add_leaf. destruct (decide (r = p)) as [->|H1]; [by simplify_map_eq|].
  destruct (decide (r = q)) as [->|H2]; by simplify_map_eq.
Qed.

Lemma set_child_list k l n : get_list k (set_child l n) = get_list k n.
Proof. by destruct k. Qed.

Lemma add_leaf_tree p q N :
  tree_ok N -> N !! p = None -> object_path_is_valid p = true -> p <> bs "/" -> parent_path p = Some q -> is_Some (N !! q) ->
  tree_ok (add_leaf p q N).
Proof.
  intros H Hp Hv Hroot Hq [m Hm]. assert (Hne : p <> q) by congruence.
  assert (L : forall r, add_leaf p q N !! r =
    if decide (r = p) then Some (new_node (Some q))
    else if decide (r = q) then Some (set_child (p :: n_child m) m) else N !! r).
  { intros r. rewrite add_leaf_lookup by done. rewrite Hm. done. }
  assert (Hnew : forall r n c, N !! r = Some n -> c ∈ n_child n -> c <> p).
  { intros r n c Hr Hc ->. destruct (tr_down _ H _ _ _ Hr Hc) as (? & E & _). congruence. }
  split.
  - intros r n. rewrite L. repeat case_decide; [by intros _; subst|intros _; subst; by apply (tr_valid _ H _ _ Hm)|apply (tr_valid _ H)].
  - intros r n. rewrite L. repeat case_decide; [|intros [= <-]; subst; apply (tr_parent _ H _ _ Hm)|apply (tr_parent _ H)].
    intros [= <-]. subst r. cbn [n_parent new_node]. destruct (streq p (bs "/")) eqn:E; [|done]. by apply streq_spec in E.
  - intros r n s. rewrite L. destruct (decide (r = p)) as [->|Hrp].
    { intros [= <-] [= <-]. rewrite L. rewrite decide_False by done. rewrite decide_True by done. eexists. split; [done|]. left. }
    intros Hr Hs. assert (exists n0, N !! r = Some n0 /\ n_parent n0 = Some s) as (n0 & Hr0 & Hs0).
    { destruct (decide (r = q)) as [->|]; [injection Hr as <-; by exists m|by exists n]. }
    destruct (tr_up _ H _ _ _ Hr0 Hs0) as (n1 & Hn1 & Hin). rewrite L. rewrite decide_False by congruence.
    destruct (decide (s = q)) as [->|]; [|by exists n1]. rewrite Hm in Hn1. injection Hn1 as <-. eexists. split; [done|]. by right.
  - intros r n c. rewrite L. destruct (decide (r = p)) as [->|Hrp]; [intros [= <-]; by intros ?%elem_of_nil|].
    intros Hr Hc. rewrite L. destruct (decide (c = p)) as [->|Hcp].
    { destruct (decide (r = q)) as [->|]; [by exists (new_node (Some q))|]. by destruct (Hnew _ _ _ Hr Hc). }
    assert (exists n0, N !! r = Some n0 /\ c ∈ n_child n0) as (n0 & Hr0 & Hc0).
    { destruct (decide (r = q)) as [->|]; [injection Hr as <-|by exists n]. cbn in Hc. apply elem_of_cons in Hc as [?|Hc]; [done|]. by exists m. }
    destruct (tr_down _ H _ _ _ Hr0 Hc0) as (m1 & Hm1 & Hp1). destruct (decide (c = q)) as [->|]; [|by exists m1].
    rewrite Hm in Hm1. injection Hm1 as <-. by eexists.
  - intros r n. rewrite L. destruct (decide (r = p)); [intros [= <-]; constructor|]. destruct (decide (r = q)) as [->|]; [|apply (tr_nodup _ H)].
    intros [= <-]. cbn. constructor; [|by apply (tr_nodup _ H _ _ Hm)]. intros Hin. by destruct (Hnew _ _ _ Hm Hin).
Qed.

Lemma add_leaf_grown p q N N1 :
  grown q N N1 -> N1 !! p = None -> N !! p = None -> (length q < length p)%nat -> grown p N (add_leaf p q N1).
Proof.
  intros [Hold Hnew [m Hm]] Hp1 Hp Hlen. assert (Hne : p <> q) by congruence. split.
  - intros r n Hr. destruct (Hold r n Hr) as (n' & Hr' & Hpar & Hl & Hc). rewrite add_leaf_lookup by done.
    rewrite decide_False by congruence. destruct (decide (r = q)) as [->|]; [|by exists n']. rewrite Hr'. eexists. split; [done|].
    split; [done|]. split; [|done]. intros k. by rewrite set_child_list.
  - intros r n'. rewrite add_leaf_lookup by done. destruct (decide (r = p)) as [->|Hrp].
    { intros [= <-] _. split; [apply new_lists|]. split; [by left|done]. }
    destruct (decide (r = q)) as [->|Hrq].
    + rewrite Hm. intros [= <-] Hr. destruct (Hnew q m Hm Hr) as (Hl & _ & Hlen'). split; [|split; [by right|lia]].
      intros k. by rewrite set_child_list.
    + intros Hr Hn. destruct (Hnew r n' Hr Hn) as (Hl & [->|Hc] & Hlen'); [done|]. split; [done|]. split; [by right|lia].
  - rewrite add_leaf_lookup by done. by rewrite decide_True.
Qed.

Lemma grown_refl p N : is_Some (N !! p) -> grown p N N.
Proof. intros Hp. split; [|by intros q n' -> |done]. intros q n Hq. by exists n. Qed.

Lemma node_allocate_run fuel p g :
  tree_ok (nodes g) -> object_path_is_valid p = true -> (length p < fuel)%nat ->
  exists N, node_allocate fuel p g = (Ok tt, set_nodes N g) /\ tree_ok N /\ grown p (nodes g) N.
Proof.
  revert p g; induction fuel as [|fuel IH]; intros p g H Hv Hf; [lia|]. cbn [node_allocate].
  rewrite (stm_bind_run sget _ g g g eq_refl). destruct (nodes g !! p) as [n|] eqn:Ep.
  { exists (nodes g). split; [by destruct g|]. split; [done|]. apply grown_refl. by rewrite Ep. }
  destruct (streq p (bs "/")) eqn:Eroot.
  - apply streq_spec in Eroot. subst p. exists (<[bs "/" := new_node None]> (nodes g)). split; [done|]. split.
    + assert (Hnc : forall r n, nodes g !! r = Some n -> forall c, c ∈ n_child n -> c <> bs "/").
      { intros r n Hr c Hc ->. destruct (tr_down _ H _ _ _ Hr Hc) as (? & E & _). congruence. }
      split.
      * intros r n [[<- _]|[_ Hr]]%lookup_insert_Some; [done|by apply (tr_valid _ H _ _ Hr)].
      * intros r n [[<- <-]|[_ Hr]]%lookup_insert_Some; [done|by apply (tr_parent _ H _ _ Hr)].
      * intros r n q [[<- <-]|[_ Hr]]%lookup_insert_Some Hq; [done|]. destruct (tr_up _ H _ _ _ Hr Hq) as (m & Hm & Hin).
        exists m. rewrite lookup_insert_ne by congruence. done.
      * intros r n c [[<- <-]|[_ Hr]]%lookup_insert_Some Hc; [by apply elem_of_nil in Hc|].
        destruct (tr_down _ H _ _ _ Hr Hc) as (m & Hm & Hin). exists m. rewrite lookup_insert_ne; [done|].
        intros <-. by apply (Hnc _ _ Hr _ Hc).
      * intros r n [[<- <-]|[_ Hr]]%lookup_insert_Some; [constructor|by apply (tr_nodup _ H _ _ Hr)].
    + split.
      * intros r n Hr. exists n. rewrite lookup_insert_ne by congruence. done.
      * intros r n [[<- <-]|[_ Hr]]%lookup_insert_Some Hn; [|congruence]. split; [apply new_lists|]. split; [by left|done].
      * by simplify_map_eq.
  - assert (Hroot : p <> bs "/") by (intros ->; done).
    destruct (parent_path_exists p Hv Hroot) as [q Hq]. rewrite Hq. destruct (parent_path_shorter p q Hv Hroot Hq) as [Hlt _].
    destruct (IH q g H (parent_path_valid p q Hv Hq) ltac:(lia)) as (N1 & R & T1 & G1).
    rewrite (stm_bind_run _ _ g (Some q) (set_nodes N1 g)) by (by rewrite (stm_bind_run _ _ _ _ _ R)).
    assert (Hp1 : N1 !! p = None).
    { destruct (N1 !! p) as [n|] eqn:E; [|done]. destruct (gr_new _ _ _ G1 p n E Ep) as (_ & _ & ?). lia. }
    exists (add_leaf p q N1). destruct (gr_in _ _ _ G1) as [m Hm]. split; [|split; [by apply add_leaf_tree|by apply add_leaf_grown]].
    rewrite (stm_bind_run (smod _) _ _ tt (set_nodes (<[p:=new_node (Some q)]> N1) g)) by done.
    unfold mod_node. rewrite (stm_bind_run (node_at q) _ _ m (set_nodes (<[p:=new_node (Some q)]> N1) g)); [done|].
    unfold node_at. cbn [nodes set_nodes]. rewrite lookup_insert_ne by congruence. by rewrite Hm.
Qed.

(** ** Collecting *)

(** [N'] has nodes of [N] only, and all that are in use. *)
Record shrunk (N N' : gmap obj_path node) : Prop := {
  sk_new : forall q n', N' !! q = Some n' -> exists n, N !! q = Some n /\ n_parent n' = n_parent n /\ forall k, get_list k n' = get_list k n;
  sk_old : forall q n, N !! q = Some n -> N' !! q = None -> forall k, get_list k n = [] }.

#[export] Instance shrunk_refl : Reflexive shrunk.
Proof. intros N. split; [|congruence]. intros q n Hq. by exists n. Qed.

#[export] Instance shrunk_trans : Transitive shrunk.
Proof.
  intros N1 N2 N3 [A1 B1] [A2 B2]. split.
  - intros q n3 H3. destruct (A2 q n3 H3) as (n2 & H2 & E2 & L2). destruct (A1 q n2 H2) as (n1 & H1 & E1 & L1).
    exists n1. split; [done|]. split; [congruence|]. intros k. by rewrite L2.
  - intros q n1 H1 H3 k. destruct (N2 !! q) as [n2|] eqn:H2; [|by apply (B1 q)].
    destruct (A1 q n2 H2) as (n & Hn & _ & L). rewrite H1 in Hn. injection Hn as <-. rewrite <- L. by apply (B2 q).
Qed.

Definition idle_only (P : obj_path -> Prop) (N : gmap obj_path node) : Prop := forall p n, N !! p = Some n -> idle n = true -> P p.

Definition without (p : obj_path) (l : list obj_path) : list obj_path := List.filter (fun c => negb (streq c p)) l.

Lemma elem_without c p l : c ∈ without p l <-> c ∈ l /\ c <> p.
Proof.
  unfold without. rewrite !list_elem_of_In, filter_In, negb_true_iff, <- not_true_iff_false, streq_spec. done.
Qed.

Lemma idle_spec n : idle n = true <-> n_child n = [] /\ forall k, get_list k n = [].
Proof.
  unfold idle. rewrite !andb_true_iff, !bool_decide_eq_true. split.
  - intros ((((H1 & H2) & H3) & H4) & H5). split; [done|]. by intros [].
  - intros [H1 H]. split; [split; [split; [split; [done|]|]|]|]; [apply (H InCallbacks)|apply (H InVtables)|apply (H InEnumerators)|apply (H InObjectManagers)].
Qed.

Definition drop_leaf (p q : obj_path) (N : gmap obj_path node) : gmap obj_path node :=
  alter (fun n => set_child (without p (n_child n)) n) q (delete p N).

Lemma drop_leaf_lookup p q N r :
  p <> q -> drop_leaf p q N !! r =
    if decide (r = p) then None
    else if decide (r = q) then (fun n => set_child (without p (n_child n)) n) <$> N !! q else N !! r.
Proof.
  intros Hne. unfold drop_leaf. destruct (decide (r = p)) as [->|H1]; [by simplify_map_eq|].
  destruct (decide (r = q)) as [->|H2]; by simplify_map_eq.
Qed.

Lemma delete_root_tree p n N : tree_ok N -> N !! p = Some n -> n_child n = [] -> n_parent n = None -> tree_ok (delete p N).
Proof.
  intros H Hp Hc Hn. assert (Hnp : forall r m, N !! r = Some m -> n_parent m <> Some p).
  { intros r m Hr Hm. destruct (tr_up _ H _ _ _ Hr Hm) as (n' & Hn' & Hin). rewrite Hp in Hn'. injection Hn' as <-.
    rewrite Hc in Hin. by apply elem_of_nil in Hin. }
  split.
  - intros r m [_ Hr]%lookup_delete_Some. by apply (tr_valid _ H _ _ Hr).
  - intros r m [_ Hr]%lookup_delete_Some. by apply (tr_parent _ H _ _ Hr).
  - intros r m q [_ Hr]%lookup_delete_Some Hq. destruct (tr_up _ H _ _ _ Hr Hq) as (m' & Hm' & Hin). exists m'.
    rewrite lookup_delete_ne; [done|]. intros <-. by apply (Hnp r m).
  - intros r m c [_ Hr]%lookup_delete_Some Hcc. destruct (tr_down _ H _ _ _ Hr Hcc) as (m' & Hm' & Hin). exists m'.
    rewrite lookup_delete_ne; [done|]. intros <-. congruence.
  - intros r m [_ Hr]%lookup_delete_Some. by apply (tr_nodup _ H _ _ Hr).
Qed.

Lemma drop_leaf_tree p n q N :
  tree_ok N -> N !! p = Some n -> n_child n = [] -> n_parent n = Some q -> p <> q -> tree_ok (drop_leaf p q N).
Proof.
  intros H Hp Hc Hn Hne. destruct (tr_up _ H _ _ _ Hp Hn) as (m & Hm & Hin).
  assert (L : forall r, drop_leaf p q N !! r =
    if decide (r = p) then None
    else if decide (r = q) then Some (set_child (without p (n_child m)) m) else N !! r).
  { intros r. rewrite drop_leaf_lookup by done. by rewrite Hm. }
  assert (Lold : forall r n', drop_leaf p q N !! r = Some n' -> r <> p /\ exists n0, N !! r = Some n0 /\ n_parent n' = n_parent n0 /\
    n_child n' = if decide (r = q) then without p (n_child n0) else n_child n0).
  { intros r n'. rewrite L. destruct (decide (r = p)); [done|]. destruct (decide (r = q)) as [->|].
    - intros [= <-]. split; [done|]. by exists m.
    - intros Hr. split; [done|]. by exists n'. }
  assert (Lnew : forall r n0, r <> p -> N !! r = Some n0 -> exists n', drop_leaf p q N !! r = Some n' /\ n_parent n' = n_parent n0 /\
    n_child n' = if decide (r = q) then without p (n_child n0) else n_child n0).
  { intros r n0 Hr Hn0. rewrite L, decide_False by done. destruct (decide (r = q)) as [->|]; [|by exists n0].
    rewrite Hm in Hn0. injection Hn0 as <-. by eexists. }
  split.
  - intros r n' Hr. apply Lold in Hr as (_ & n0 & Hr & _). by apply (tr_valid _ H _ _ Hr).
  - intros r n' Hr. apply Lold in Hr as (_ & n0 & Hr & -> & _). by apply (tr_parent _ H _ _ Hr).
  - intros r n' s Hr Hs. apply Lold in Hr as (Hrp & n0 & Hr & E & _). rewrite E in Hs.
    destruct (tr_up _ H _ _ _ Hr Hs) as (n1 & Hn1 & Hin1). assert (s <> p) as Hsp.
    { intros ->. rewrite Hp in Hn1. injection Hn1 as <-. rewrite Hc in Hin1. by apply elem_of_nil in Hin1. }
    destruct (Lnew s n1 Hsp Hn1) as (n2 & Hn2 & _ & Hch). exists n2. split; [done|]. rewrite Hch.
    case_decide; [|done]. by apply elem_without.
  - intros r n' c Hr Hcc. apply Lold in Hr as (Hrp & n0 & Hr & _ & Hch).
    assert (c ∈ n_child n0 /\ c <> p) as [Hc0 Hcp].
    { rewrite Hch in Hcc. destruct (decide (r = q)) as [->|Hrq]; [by apply elem_without in Hcc|]. split; [done|]. intros ->.
      destruct (tr_down _ H _ _ _ Hr Hcc) as (n1 & Hn1 & Hp1). congruence. }
    destruct (tr_down _ H _ _ _ Hr Hc0) as (n1 & Hn1 & Hp1). destruct (Lnew c n1 Hcp Hn1) as (n2 & Hn2 & E & _).
    exists n2. split; [done|]. congruence.
  - intros r n' Hr. apply Lold in Hr as (_ & n0 & Hr & _ & ->). pose proof (tr_nodup _ H _ _ Hr) as Hnd.
    case_decide; [|done]. unfold without. apply NoDup_ListNoDup, List.NoDup_filter. by apply NoDup_ListNoDup.
Qed.

Lemma drop_leaf_shrunk p n q N : N !! p = Some n -> idle n = true -> p <> q -> shrunk N (drop_leaf p q N).
Proof.
  intros Hp [_ Hl]%idle_spec Hne. split.
  - intros r n'. rewrite drop_leaf_lookup by done. destruct (decide (r = p)); [done|]. destruct (decide (r = q)) as [->|]; [|by exists n'].
    destruct (N !! q) as [m|]; [|done]. intros [= <-]. exists m. split; [done|]. split; [done|]. intros k. apply set_child_list.
  - intros r m Hr. rewrite drop_leaf_lookup by done. destruct (decide (r = p)) as [->|]; [congruence|].
    destruct (decide (r = q)) as [->|]; [by rewrite Hr|congruence].
Qed.

Lemma node_gc_run fuel p g :
  tree_ok (nodes g) -> is_Some (nodes g !! p) -> idle_only (eq p) (nodes g) -> (length p < fuel)%nat ->
  exists N, node_gc fuel p g = (Ok tt, set_nodes N g) /\ tree_ok N /\ idle_only (fun _ => False) N /\ shrunk (nodes g) N.
Proof.
  revert p g; induction fuel as [|fuel IH]; intros p g H [n Hp] Hidle Hf; [lia|]. cbn [node_gc].
  rewrite (stm_bind_run (node_at p) _ g n g) by (unfold node_at; by rewrite Hp).
  destruct (idle n) eqn:Ei; cbn [negb].
  2:{ exists (nodes g). split; [by destruct g|]. split; [done|]. split; [|done]. intros r m Hr Hm.
      pose proof (Hidle r m Hr Hm) as <-. congruence. }
  apply idle_spec in Ei as Hi. destruct Hi as [Hc Hl]. rewrite (stm_bind_run (smod _) _ g tt (set_nodes (delete p (nodes g)) g)) by done.
  pose proof (tr_parent _ H _ _ Hp) as Hpar. destruct (n_parent n) as [q|] eqn:Eq.
  - assert (Hroot : p <> bs "/") by (intros ->; done). destruct (streq p (bs "/")) eqn:Es; [by apply streq_spec in Es|].
    pose proof (tr_valid _ H _ _ Hp) as Hv. destruct (parent_path_shorter p q Hv Hroot (eq_sym Hpar)) as [Hlt _].
    assert (Hne : p <> q) by (intros ->; lia). destruct (tr_up _ H _ _ _ Hp Eq) as (m & Hm & Hin).
    rewrite (stm_bind_run (mod_node q _) _ _ tt (set_nodes (drop_leaf p q (nodes g)) g)).
    2:{ unfold mod_node. rewrite (stm_bind_run (node_at q) _ _ m (set_nodes (delete p (nodes g)) g)); [done|].
        unfold node_at. cbn [nodes set_nodes]. rewrite lookup_delete_ne by done. by rewrite Hm. }
    destruct (IH q (set_nodes (drop_leaf p q (nodes g)) g)) as (N & R & T & I & S); cbn [nodes set_nodes].
    + by eapply drop_leaf_tree.
    + rewrite drop_leaf_lookup, decide_False, decide_True by done. by rewrite Hm.
    + intros r n'. rewrite drop_leaf_lookup by done. destruct (decide (r = p)); [done|]. destruct (decide (r = q)) as [->|]; [done|].
      intros Hr Hin'. pose proof (Hidle r n' Hr Hin'). congruence.
    + lia.
    + exists N. split; [done|]. split; [done|]. split; [done|]. etrans; [|exact S]. by eapply drop_leaf_shrunk.
  - exists (delete p (nodes g)). split; [done|]. split; [by eapply delete_root_tree|]. split.
    + intros r m [Hne Hr]%lookup_delete_Some Hm. pose proof (Hidle r m Hr Hm). congruence.
    + split; [intros q m [_ Hq]%lookup_delete_Some; by exists m|]. intros q m Hq [<-|?]%lookup_delete_None k; [|congruence].
      rewrite Hp in Hq. injection Hq as <-. apply Hl.
Qed.
