(* ===== verification/ObjSlots.v ===== *)
(** * Objects: slots and tables stay in step with the tree

    The invariant of what a connection keeps of its objects, and that every call
    keeps it, but for a vtable that is refused half-way. *)
From S2P Require Import Prelude BusType Signature Names ObjTree ObjTreeWf.

(** ** The invariant *)

(** The list a slot belongs in *)
Definition slot_home (d : node_slot) : option (slot_list * obj_path) :=
  match d with
  | BUS_NODE_CALLBACK p _ _ _ => Some (InCallbacks, p)
  | BUS_NODE_VTABLE p _ _ _ _ => (fun p => (InVtables, p)) <$> p
  | BUS_NODE_ENUMERATOR p _ => Some (InEnumerators, p)
  | BUS_NODE_OBJECT_MANAGER p => Some (InObjectManagers, p)
  end.

Definition home_of (g : registry) (i : nat) : option (slot_list * obj_path) := s ← object_slots g !! i; slot_home (os_data s).

Definition lists_of (N : gmap obj_path node) (k : slot_list) (p : obj_path) : list nat :=
  match N !! p with Some n => get_list k n | None => [] end.

(** The table of methods, the one of properties; the members that belong there *)
Definition table (b : bool) (g : registry) : gmap member_key vtable_member :=
  if b then vtable_methods g else vtable_properties g.

Definition entry_member (b : bool) (v : sd_bus_vtable) : option cstr :=
  match v, b with
  | VtableMethod _ m _ _ _ _, true | VtableProperty _ _ m _ _ _ _, false => Some m
  | _, _ => None
  end.

(** The vtable of a slot that is linked, and its members: all entries after the first *)
Definition vtable_slot (g : registry) (i : nat) : option (obj_path * cstr * bool * vtable_pointer) :=
  s ← object_slots g !! i;
  match os_data s with BUS_NODE_VTABLE (Some p) iface fb vt _ => Some (p, iface, fb, vt) | _ => None end.

Definition vtable_entry (vt : vtable_pointer) (k : nat) : option sd_bus_vtable :=
  match k with O => None | S k => tail (vt_entries vt) !! k end.

Record slots_ok (g : registry) : Prop := {
  so_list : forall k p i, i ∈ lists_of (nodes g) k p <-> home_of g i = Some (k, p);
  so_nodup : forall k p, NoDup (lists_of (nodes g) k p);
  so_fresh : forall i, (next_object_slot g <= i)%nat -> object_slots g !! i = None;
  so_live : forall i s, object_slots g !! i = Some s -> is_Some (slot_home (os_data s)) }.

Record members_ok (g : registry) : Prop := {
  mo_entry : forall b p iface m x, table b g !! (p, iface, m) = Some x ->
    exists fb vt v, vtable_slot g (m_parent x) = Some (p, iface, fb, vt) /\ vtable_entry vt (m_vtable x) = Some v /\
      entry_member b v = Some m;
  mo_listed : forall b i p iface fb vt k v m, vtable_slot g i = Some (p, iface, fb, vt) -> vtable_entry vt k = Some v ->
    entry_member b v = Some m -> exists last, table b g !! (p, iface, m) = Some (VtableMember i last k);
  mo_fallback : forall i j p iface fb vt iface' fb' vt', vtable_slot g i = Some (p, iface, fb, vt) ->
    vtable_slot g j = Some (p, iface', fb', vt') -> fb' = fb;
  mo_start : forall i p iface fb vt, vtable_slot g i = Some (p, iface, fb, vt) -> vtable_starts vt = true }.

Record registry_wf (g : registry) : Prop := {
  ro_tree : tree_ok (nodes g);
  ro_busy : idle_only (fun _ => False) (nodes g);
  ro_slots : slots_ok g;
  ro_members : members_ok g }.

Record registry_ok (g : registry) : Prop := {
  ro_wf : registry_wf g;
  ro_refs : forall i s, object_slots g !! i = Some s -> 0 < os_ref s }.

Lemma empty_registry_ok : registry_ok empty_registry.
Proof.
  split; [|intros i s; cbn; by rewrite lookup_empty]. split.
  - split; intros *; cbn; by rewrite lookup_empty.
  - intros p n. cbn. by rewrite lookup_empty.
  - split.
    + intros k p i. unfold lists_of, home_of. cbn. rewrite !lookup_empty. split; [by intros ?%elem_of_nil|done].
    + intros k p. unfold lists_of. cbn. rewrite lookup_empty. constructor.
    + done.
    + intros i s. cbn. by rewrite lookup_empty.
  - split.
    + intros [] p iface m x; cbn; by rewrite lookup_empty.
    + intros b i p iface fb vt k v m. unfold vtable_slot. cbn. by rewrite lookup_empty.
    + intros i j p iface fb vt iface' fb' vt'. unfold vtable_slot. cbn. by rewrite lookup_empty.
    + intros i p iface fb vt. unfold vtable_slot. cbn. by rewrite lookup_empty.
Qed.

(** ** Lists *)
Lemma grown_lists p N N' k q : grown p N N' -> lists_of N' k q = lists_of N k q.
Proof.
  intros H. unfold lists_of. destruct (N !! q) as [n|] eqn:E.
  - destruct (gr_old _ _ _ H q n E) as (n' & -> & _ & Hl & _). apply Hl.
  - destruct (N' !! q) as [n'|] eqn:E'; [|done]. by destruct (gr_new _ _ _ H q n' E' E) as [Hl _].
Qed.

Lemma shrunk_lists N N' k q : shrunk N N' -> lists_of N' k q = lists_of N k q.
Proof.
  intros H. unfold lists_of. destruct (N' !! q) as [n'|] eqn:E.
  - destruct (sk_new _ _ H q n' E) as (n & -> & _ & Hl). apply Hl.
  - destruct (N !! q) as [n|] eqn:E'; [|done]. by rewrite (sk_old _ _ H q n E' E).
Qed.

Lemma grown_idle p N N' : grown p N N' -> idle_only (fun _ => False) N -> idle_only (eq p) N'.
Proof.
  intros H Hi q n' Hq [Hc Hl]%idle_spec. destruct (N !! q) as [n|] eqn:E.
  - destruct (gr_old _ _ _ H q n E) as (n1 & Hn1 & _ & Hl1 & Hc1). rewrite Hq in Hn1. injection Hn1 as <-.
    exfalso. apply (Hi q n E). apply idle_spec. split; [|intros k; by rewrite <- Hl1].
    destruct (n_child n); [done|]. by destruct Hc1.
  - by destruct (gr_new _ _ _ H q n' Hq E) as (_ & [->|?] & _).
Qed.

Definition slot_list_eq_dec : EqDecision slot_list := ltac:(solve_decision).
#[export] Existing Instance slot_list_eq_dec.

(** Changing one list of a node *)
Lemma get_upd_list k k' f n : get_list k' (upd_list k f n) = if decide (k' = k) then f (get_list k n) else get_list k' n.
Proof. destruct k, k'; done. Qed.

Lemma upd_list_child k f n : n_child (upd_list k f n) = n_child n.
Proof. by destruct k. Qed.

Lemma upd_list_parent k f n : n_parent (upd_list k f n) = n_parent n.
Proof. by destruct k. Qed.

Lemma upd_lists k f p N k' q :
  is_Some (N !! p) ->
  lists_of (alter (upd_list k f) p N) k' q = if decide ((k', q) = (k, p)) then f (lists_of N k p) else lists_of N k' q.
Proof.
  intros [n Hn]. unfold lists_of. destruct (decide (q = p)) as [->|Hq].
  - rewrite lookup_alter_eq, Hn. cbn. rewrite get_upd_list. repeat case_decide; naive_solver.
  - rewrite lookup_alter_ne by done. rewrite decide_False by naive_solver. done.
Qed.

Lemma upd_list_tree k f p N : tree_ok N -> tree_ok (alter (upd_list k f) p N).
Proof.
  intros H.
  assert (L : forall q n', alter (upd_list k f) p N !! q = Some n' -> exists n, N !! q = Some n /\ n_parent n' = n_parent n /\ n_child n' = n_child n).
  { intros q n' Hq. apply lookup_alter_Some in Hq as [(-> & n & Hn & ->)|[_ Hn]]; [|by exists n'].
    exists n. by rewrite upd_list_child, upd_list_parent. }
  assert (L' : forall q n, N !! q = Some n -> exists n', alter (upd_list k f) p N !! q = Some n' /\ n_parent n' = n_parent n /\ n_child n' = n_child n).
  { intros q n Hq. destruct (decide (p = q)) as [->|Hne].
    - rewrite lookup_alter_eq, Hq. eexists. split; [done|]. by rewrite upd_list_child, upd_list_parent.
    - rewrite lookup_alter_ne by done. by exists n. }
  split.
  - intros q n' (n & Hn & _)%L. by apply (tr_valid _ H _ _ Hn).
  - intros q n' (n & Hn & -> & _)%L. by apply (tr_parent _ H _ _ Hn).
  - intros q n' r (n & Hn & -> & _)%L Hr. destruct (tr_up _ H _ _ _ Hn Hr) as (m & (m' & Hm' & _ & E)%L' & Hin).
    exists m'. by rewrite E.
  - intros q n' c (n & Hn & _ & ->)%L Hc. destruct (tr_down _ H _ _ _ Hn Hc) as (m & (m' & Hm' & E & _)%L' & Hp).
    exists m'. by rewrite E.
  - intros q n' (n & Hn & _ & ->)%L. by apply (tr_nodup _ H _ _ Hn).
Qed.

Lemma upd_list_idle k f p N P :
  idle_only P N -> (forall n, N !! p = Some n -> P p \/ f (get_list k n) <> []) -> idle_only P (alter (upd_list k f) p N).
Proof.
  intros Hi Hf q n' Hq Hn'. apply lookup_alter_Some in Hq as [(-> & n & Hn & ->)|[_ Hn]]; [|by eapply Hi].
  destruct (Hf n Hn) as [|Hne]; [done|]. apply idle_spec in Hn' as [_ Hl]. specialize (Hl k).
  by rewrite get_upd_list, decide_True in Hl.
Qed.

Lemma mod_node_run p f g : is_Some (nodes g !! p) -> mod_node p f g = (Ok tt, set_nodes (alter f p (nodes g)) g).
Proof. intros [n Hn]. unfold mod_node. rewrite (stm_bind_run (node_at p) _ g n g); [done|]. unfold node_at. by rewrite Hn. Qed.

Lemma bus_node_allocate_run p g :
  tree_ok (nodes g) -> object_path_is_valid p = true ->
  exists N, bus_node_allocate p g = (Ok tt, set_nodes N g) /\ tree_ok N /\ grown p (nodes g) N.
Proof.
  intros H Hv. destruct (node_allocate_run (S (length p)) p g H Hv ltac:(lia)) as (N & R & HN). exists N. split; [|done].
  unfold bus_node_allocate. destruct (path_slash p Hv) as [r ->]. cbn [deref]. by rewrite Z.eqb_refl, (stm_bind_run (sreq true EASSERT) _ g tt g eq_refl).
Qed.

Lemma bus_node_gc_run p g :
  tree_ok (nodes g) -> is_Some (nodes g !! p) -> idle_only (eq p) (nodes g) ->
  exists N, bus_node_gc p g = (Ok tt, set_nodes N g) /\ tree_ok N /\ idle_only (fun _ => False) N /\ shrunk (nodes g) N.
Proof. intros H Hp Hi. apply node_gc_run; [done..|lia]. Qed.

(** ** Slots come and go *)
Lemma slots_inserted g g' i s k p L :
  slots_ok g -> i = next_object_slot g -> object_slots g' = <[i := s]> (object_slots g) -> next_object_slot g' = S i ->
  slot_home (os_data s) = Some (k, p) ->
  (forall k' q, lists_of (nodes g') k' q = if decide ((k', q) = (k, p)) then L else lists_of (nodes g) k' q) ->
  (forall j, j ∈ L <-> j = i \/ j ∈ lists_of (nodes g) k p) -> NoDup L -> slots_ok g'.
Proof.
  intros H Hi Hs Hn Hh Hl HL Hnd.
  assert (Hfresh : object_slots g !! i = None) by (apply (so_fresh _ H); lia).
  assert (Hhome : forall j, home_of g' j = if decide (j = i) then Some (k, p) else home_of g j).
  { intros j. unfold home_of. rewrite Hs. destruct (decide (j = i)) as [->|]; simplify_map_eq; done. }
  assert (Hno : forall k' q, i ∉ lists_of (nodes g) k' q).
  { intros k' q Hin%(so_list _ H). unfold home_of in Hin. by rewrite Hfresh in Hin. }
  split.
  - intros k' q j. rewrite Hl, Hhome. destruct (decide (j = i)) as [->|Hj], (decide ((k', q) = (k, p))) as [[= -> ->]|Hne].
    + rewrite HL. naive_solver.
    + split; [by intros ?%Hno|]. intros [= -> ->]. done.
    + rewrite HL, (so_list _ H). naive_solver.
    + apply (so_list _ H).
  - intros k' q. rewrite Hl. case_decide; [done|apply (so_nodup _ H)].
  - intros j Hj. rewrite Hs, lookup_insert_ne by lia. apply (so_fresh _ H). lia.
  - intros j t. rewrite Hs. intros [[<- <-]|[_ Ht]]%lookup_insert_Some; [by rewrite Hh|by apply (so_live _ H j)].
Qed.

Lemma slots_deleted g g' i k p :
  slots_ok g -> home_of g i = Some (k, p) -> object_slots g' = delete i (object_slots g) -> next_object_slot g' = next_object_slot g ->
  (forall k' q, lists_of (nodes g') k' q =
    if decide ((k', q) = (k, p)) then List.filter (fun j => negb (Nat.eqb j i)) (lists_of (nodes g) k p) else lists_of (nodes g) k' q) ->
  slots_ok g'.
Proof.
  intros H Hh Hs Hn Hl.
  assert (Hhome : forall j, home_of g' j = if decide (j = i) then None else home_of g j).
  { intros j. unfold home_of. rewrite Hs. destruct (decide (j = i)) as [->|]; simplify_map_eq; done. }
  assert (Hf : forall j l, j ∈ List.filter (fun j => negb (Nat.eqb j i)) l <-> j ∈ l /\ j <> i).
  { intros j l. rewrite !list_elem_of_In, filter_In, negb_true_iff, Nat.eqb_neq. done. }
  split.
  - intros k' q j. rewrite Hl, Hhome. destruct (decide ((k', q) = (k, p))) as [[= -> ->]|Hne].
    + rewrite Hf, (so_list _ H). case_decide; naive_solver.
    + rewrite (so_list _ H). case_decide; [subst; rewrite Hh; naive_solver|done].
  - intros k' q. rewrite Hl. case_decide; [|apply (so_nodup _ H)].
    apply NoDup_ListNoDup, List.NoDup_filter. apply NoDup_ListNoDup, (so_nodup _ H).
  - intros j Hj. rewrite Hs, Hn in *. rewrite lookup_delete_None. right. by apply (so_fresh _ H).
  - intros j t. rewrite Hs. intros [_ Ht]%lookup_delete_Some. by apply (so_live _ H j).
Qed.

Lemma members_same g g' :
  members_ok g -> (forall b, table b g' = table b g) -> (forall i, vtable_slot g' i = vtable_slot g i) -> members_ok g'.
Proof.
  intros [H1 H2 H3 H4] Ht Hv. split.
  - intros b p iface m x. rewrite Ht. setoid_rewrite Hv. apply H1.
  - intros b i p iface fb vt k v m. rewrite Ht, Hv. apply H2.
  - intros i j p iface fb vt iface' fb' vt'. rewrite !Hv. apply H3.
  - intros i p iface fb vt. rewrite Hv. apply H4.
Qed.

Lemma vtable_slot_home g i p iface fb vt : vtable_slot g i = Some (p, iface, fb, vt) -> home_of g i = Some (InVtables, p).
Proof.
  unfold vtable_slot, home_of. destruct (object_slots g !! i) as [s|]; [|done]. cbn.
  destruct (os_data s) as [| [q|] ? ? ? ?| |]; naive_solver.
Qed.

Lemma home_vtable g i p : home_of g i = Some (InVtables, p) -> exists iface fb vt, vtable_slot g i = Some (p, iface, fb, vt).
Proof.
  unfold vtable_slot, home_of. destruct (object_slots g !! i) as [s|]; [|done]. cbn.
  destruct (os_data s) as [| [q|] ? ? ? ?| |]; cbn; naive_solver.
Qed.

(** *** A callback, an enumerator, an object manager *)
Definition simple_slot (d : node_slot) : bool := match d with BUS_NODE_VTABLE _ _ _ _ _ => false | _ => true end.

Definition register (floating : bool) (p : obj_path) (k : slot_list) (userdata : Z) (d : node_slot) : stm registry nat :=
  bus_node_allocate p;; i ← object_slot_allocate floating userdata d; link_slot k i p;; mret i.

Lemma register_ok floating p k userdata d g :
  registry_wf g -> object_path_is_valid p = true -> simple_slot d = true -> slot_home d = Some (k, p) ->
  exists g', register floating p k userdata d g = (Ok (next_object_slot g), g') /\ registry_wf g' /\
    object_slots g' = <[next_object_slot g := ObjectSlot 1 floating userdata d]> (object_slots g).
Proof.
  intros [Ht Hb Hs Hm] Hv Hd Hh. destruct (bus_node_allocate_run p g Ht Hv) as (N & R & T & G).
  unfold register. rewrite (stm_bind_run _ _ _ _ _ R). set (i := next_object_slot g).
  set (s := ObjectSlot 1 floating userdata d).
  set (g1 := Registry N (vtable_methods g) (vtable_properties g) (<[i := s]> (object_slots g)) (S i) (nodes_modified g)).
  rewrite (stm_bind_run (object_slot_allocate _ _ _) _ _ i g1) by done. unfold link_slot.
  rewrite stm_bind_eq, (stm_bind_run _ _ _ tt _ (mod_node_run p _ g1 (gr_in _ _ _ G))).
  set (g2 := set_nodes_modified true (set_nodes (alter (upd_list k (cons i)) p (nodes g1)) g1)).
  exists g2. split; [done|]. split; [|done]. split.
  - by apply upd_list_tree.
  - pose proof (upd_list_idle k (cons i) p N (eq p) (grown_idle _ _ _ G Hb) ltac:(naive_solver)) as Hi.
    intros q n Hq Hidle. pose proof (Hi q n Hq Hidle) as <-. apply idle_spec in Hidle as [_ Hl]. specialize (Hl k).
    cbn in Hq. destruct (gr_in _ _ _ G) as [m Hm']. rewrite lookup_alter_eq, Hm' in Hq. injection Hq as <-.
    by rewrite get_upd_list, decide_True in Hl.
  - apply (slots_inserted g g2 i s k p (i :: lists_of (nodes g) k p)); try done.
    + intros k' q. cbn. rewrite upd_lists by apply G. by rewrite !(grown_lists _ _ _ _ _ G).
    + intros j. by rewrite elem_of_cons.
    + constructor; [|apply Hs]. rewrite (so_list _ Hs). unfold home_of. by rewrite (so_fresh _ Hs i).
  - apply (members_same g); [done|by intros []|]. intros j. unfold vtable_slot. cbn.
    destruct (decide (j = i)) as [->|]; simplify_map_eq; [|done]. rewrite (so_fresh _ Hs i) by done. cbn. by destruct d.
Qed.

(** *** Removing *)
Lemma unlink_slot_run k i p g :
  registry_wf g -> home_of g i = Some (k, p) ->
  exists N, unlink_slot k i p g = (Ok tt, set_nodes N (set_nodes_modified true g)) /\ tree_ok N /\ idle_only (fun _ => False) N /\
    forall k' q, lists_of N k' q = if decide ((k', q) = (k, p)) then List.filter (fun j => negb (Nat.eqb j i)) (lists_of (nodes g) k p)
                                   else lists_of (nodes g) k' q.
Proof.
  intros [Ht Hb Hs Hm] Hh. assert (Hp : is_Some (nodes g !! p)).
  { pose proof (proj2 (so_list _ Hs k p i) Hh) as Hin. unfold lists_of in Hin. destruct (nodes g !! p); [done|by apply elem_of_nil in Hin]. }
  unfold unlink_slot. rewrite (stm_bind_run _ _ _ _ _ (mod_node_run p _ g Hp)).
  set (f := List.filter (fun j => negb (Nat.eqb j i))). set (N1 := alter (upd_list k f) p (nodes g)).
  rewrite (stm_bind_run (smod _) _ _ tt (set_nodes_modified true (set_nodes N1 g))) by done.
  destruct (bus_node_gc_run p (set_nodes_modified true (set_nodes N1 g))) as (N & R & T & I & S).
  - by apply upd_list_tree.
  - cbn. unfold N1. destruct Hp as [n Hn]. by rewrite lookup_alter_eq, Hn.
  - apply upd_list_idle; [|by left]. intros q n Hq Hi. by destruct (Hb q n Hq Hi).
  - exists N. split; [by rewrite R|]. split; [done|]. split; [done|]. intros k' q. rewrite (shrunk_lists _ _ _ _ S).
    by apply (upd_lists k f p).
Qed.

Lemma remove_member_run p iface v g :
  exists g', remove_member p iface v g = (Ok tt, g') /\ nodes g' = nodes g /\ object_slots g' = object_slots g /\
    next_object_slot g' = next_object_slot g /\ nodes_modified g' = nodes_modified g /\
    forall b, table b g' = match entry_member b v with Some m => delete (p, iface, m) (table b g) | None => table b g end.
Proof.
  destruct v; (eexists; split; [done|]; do 4 (split; [done|]); by intros []).
Qed.

Definition is_member_of (b : bool) (p : obj_path) (iface : cstr) (l : list sd_bus_vtable) (key : member_key) : Prop :=
  exists v m, v ∈ l /\ entry_member b v = Some m /\ key = (p, iface, m).

Lemma remove_members_run p iface l g :
  exists g', remove_members p iface l g = (Ok tt, g') /\ nodes g' = nodes g /\ object_slots g' = object_slots g /\
    next_object_slot g' = next_object_slot g /\ nodes_modified g' = nodes_modified g /\
    forall b key, is_member_of b p iface l key /\ table b g' !! key = None \/
      ~ is_member_of b p iface l key /\ table b g' !! key = table b g !! key.
Proof.
  revert g; induction l as [|v l IH]; intros g.
  { exists g. do 5 (split; [done|]). intros b key. right. split; [|done]. by intros (v & m & ?%elem_of_nil & _). }
  destruct (remove_member_run p iface v g) as (g1 & R1 & N1 & S1 & X1 & M1 & T1).
  destruct (IH g1) as (g2 & R2 & N2 & S2 & X2 & M2 & T2). exists g2. cbn [remove_members]. rewrite (stm_bind_run _ _ _ _ _ R1).
  split; [done|]. split; [congruence|]. split; [congruence|]. split; [congruence|]. split; [congruence|].
  intros b key. destruct (T2 b key) as [[(w & m & Hw & Hm & E) H]|[Hn E]].
  { left. split; [|done]. exists w, m. split; [by right|done]. }
  rewrite T1 in E. destruct (entry_member b v) as [m|] eqn:Em.
  - destruct (decide (key = (p, iface, m))) as [->|Hne].
    + left. rewrite lookup_delete_eq in E. split; [|done]. exists v, m. split; [left|done].
    + right. rewrite lookup_delete_ne in E by done. split; [|done].
      intros (w & m' & [->|Hw]%elem_of_cons & Hm & ->); [congruence|]. apply Hn. by exists w, m'.
  - right. split; [|done]. intros (w & m' & [->|Hw]%elem_of_cons & Hm & ->); [congruence|]. apply Hn. by exists w, m'.
Qed.

(** Where a member is in its vtable *)
Lemma member_entry vt b v m :
  vtable_starts vt = true -> v ∈ vt_entries vt -> entry_member b v = Some m -> exists k, vtable_entry vt k = Some v.
Proof.
  unfold vtable_starts, vtable_entry. destruct (vt_entries vt) as [|[] l] eqn:E; try done. intros _ [->|Hv]%elem_of_cons Hm; [by destruct b|].
  apply list_elem_of_lookup in Hv as [k Hk]. by exists (S k).
Qed.

Lemma entry_member_in vt k v : vtable_entry vt k = Some v -> v ∈ vt_entries vt.
Proof.
  unfold vtable_entry. destruct k; [done|]. intros Hk%list_elem_of_lookup_2. destruct (vt_entries vt); [by apply elem_of_nil in Hk|by right].
Qed.

(** The members of a vtable are gone, and no others. *)
Lemma members_removed g g' i p iface fb vt :
  members_ok g -> vtable_slot g i = Some (p, iface, fb, vt) ->
  (forall j, vtable_slot g' j = if decide (j = i) then None else vtable_slot g j) ->
  (forall b key, is_member_of b p iface (vt_entries vt) key /\ table b g' !! key = None \/
     ~ is_member_of b p iface (vt_entries vt) key /\ table b g' !! key = table b g !! key) ->
  members_ok g'.
Proof.
  intros [H1 H2 H3 H4] Hi Hv Ht. split.
  - intros b q iface' m x Hx. destruct (Ht b (q, iface', m)) as [[_ E]|[Hn E]]; rewrite E in Hx; [done|].
    destruct (H1 _ _ _ _ _ Hx) as (fb' & vt' & v & Hs & He & Hm). rewrite Hv. destruct (decide (m_parent x = i)) as [Ei|]; [|by eauto].
    exfalso. rewrite Ei, Hi in Hs. injection Hs as -> -> -> ->. apply Hn. exists v, m. split; [by eapply entry_member_in|done].
  - intros b j q iface' fb' vt' k v m. rewrite Hv. destruct (decide (j = i)) as [|Hne]; [done|]. intros Hs He Hm.
    destruct (H2 _ _ _ _ _ _ _ _ _ Hs He Hm) as [last Hl]. exists last.
    destruct (Ht b (q, iface', m)) as [[(w & m' & Hw & Hm' & [= -> -> ->]) _]|[_ E]]; [|by rewrite E].
    exfalso. apply Hne. destruct (member_entry _ _ _ _ (H4 _ _ _ _ _ Hi) Hw Hm') as [k' Hk'].
    destruct (H2 _ _ _ _ _ _ _ _ _ Hi Hk' Hm') as [last' Hl']. congruence.
  - intros j j' q iface1 fb1 vt1 iface2 fb2 vt2. rewrite !Hv. repeat case_decide; [done..|]. apply H3.
  - intros j q iface1 fb1 vt1. rewrite Hv. case_decide; [done|]. apply H4.
Qed.

Lemma vtable_slot_deleted g g' i :
  object_slots g' = delete i (object_slots g) -> forall j, vtable_slot g' j = if decide (j = i) then None else vtable_slot g j.
Proof. intros E j. unfold vtable_slot. rewrite E. case_decide as Hj; [subst; by rewrite lookup_delete_eq|by rewrite lookup_delete_ne by congruence]. Qed.

Lemma free_ok g i :
  registry_wf g -> is_Some (object_slots g !! i) ->
  exists g', object_slot_free i g = (Ok tt, g') /\ registry_wf g' /\ object_slots g' = delete i (object_slots g) /\
    next_object_slot g' = next_object_slot g.
Proof.
  intros H [s Hs]. pose proof H as [Ht Hb Hso Hm]. destruct (so_live _ Hso _ _ Hs) as [[k p] Hh].
  assert (Hhome : home_of g i = Some (k, p)) by (unfold home_of; by rewrite Hs).
  assert (Hmain : exists g1 N, object_slot_disconnect i g = (Ok tt, set_nodes N (set_nodes_modified true g1)) /\ tree_ok N /\
    idle_only (fun _ => False) N /\ object_slots g1 = object_slots g /\ next_object_slot g1 = next_object_slot g /\
    (forall k' q, lists_of N k' q = if decide ((k', q) = (k, p)) then List.filter (fun j => negb (Nat.eqb j i)) (lists_of (nodes g) k p)
                                   else lists_of (nodes g) k' q) /\
    members_ok (set_object_slots (delete i (object_slots g)) g1)).
  { unfold object_slot_disconnect. rewrite (stm_bind_run (object_slot_at i) _ g s g) by (unfold object_slot_at; by rewrite Hs).
    destruct (unlink_slot_run k i p g H Hhome) as (N & R & T & I & L).
    assert (Hsimple : simple_slot (os_data s) = true -> members_ok (set_object_slots (delete i (object_slots g)) g)).
    { intros Hsim. apply (members_same g); [done|by intros []|]. intros j. rewrite (vtable_slot_deleted g) with (i := i) by done.
      case_decide as Hj; [|done]. subst j. unfold vtable_slot. rewrite Hs. cbn. by destruct (os_data s). }
    destruct (os_data s) as [q fb cb li|q iface fb vt find|q cb|q] eqn:Ed.
    1,3,4: cbn in Hh; injection Hh as <- <-; exists g, N; split_and!; by auto.
    destruct q as [q|]; [|done]. cbn in Hh. injection Hh as <- <-.
    destruct (remove_members_run q iface (vt_entries vt) g) as (g1 & R1 & N1 & S1 & X1 & M1 & T1).
    rewrite (stm_bind_run _ _ _ _ _ R1). clear R N T I L.
    assert (Hv : vtable_slot g i = Some (q, iface, fb, vt)) by (unfold vtable_slot; rewrite Hs; cbn; by rewrite Ed).
    assert (Hp : is_Some (nodes g !! q)).
    { pose proof (proj2 (so_list _ Hso _ q i) Hhome) as Hin. unfold lists_of in Hin. destruct (nodes g !! q); [done|by apply elem_of_nil in Hin]. }
    set (f := List.filter (fun j => negb (Nat.eqb j i))).
    unfold unlink_slot. rewrite (stm_bind_run _ _ _ _ _ (mod_node_run q (upd_list InVtables f) g1 ltac:(by rewrite N1))).
    set (N0 := alter (upd_list InVtables f) q (nodes g1)).
    rewrite (stm_bind_run (smod _) _ _ tt (set_nodes_modified true (set_nodes N0 g1))) by done.
    destruct (bus_node_gc_run q (set_nodes_modified true (set_nodes N0 g1))) as (N & R & T & I & S).
    - cbn. unfold N0. rewrite N1. by apply upd_list_tree.
    - cbn. unfold N0. rewrite N1. destruct Hp as [n Hn]. by rewrite lookup_alter_eq, Hn.
    - cbn. unfold N0. rewrite N1. apply upd_list_idle; [|by left]. intros r n Hr Hi. by destruct (Hb r n Hr Hi).
    - exists g1, N. split; [by rewrite R|]. do 4 (split; [done|]). split.
      + intros k' r. rewrite (shrunk_lists _ _ _ _ S). cbn. unfold N0. rewrite N1. by apply upd_lists.
      + eapply (members_removed g _ i); [done|exact Hv|by apply vtable_slot_deleted|]. intros b key.
        destruct (T1 b key) as [[? E]|[? E]]; [left|right]; (split; [done|]); by destruct b. }
  destruct Hmain as (g1 & N & R & T & I & S1 & X1 & L & M). unfold object_slot_free. rewrite (stm_bind_run _ _ _ _ _ R).
  eexists. split; [done|]. cbn. rewrite S1. split; [|done]. split; [done|done| |].
  - eapply (slots_deleted g _ i k p); cbn; done.
  - eapply members_same; [exact M|by intros []|]. intros j. unfold vtable_slot. cbn. done.
Qed.

Lemma set_ref_wf g i s r :
  registry_wf g -> object_slots g !! i = Some s ->
  registry_wf (set_object_slots (<[i := set_os_ref r s]> (object_slots g)) g).
Proof.
  intros [Ht Hb Hs Hm] Hi. set (g' := set_object_slots _ g).
  assert (Hh : forall j, home_of g' j = home_of g j).
  { intros j. unfold home_of. cbn. destruct (decide (j = i)) as [->|]; [by rewrite lookup_insert_eq, Hi|by rewrite lookup_insert_ne by congruence]. }
  assert (Hv : forall j, vtable_slot g' j = vtable_slot g j).
  { intros j. unfold vtable_slot. cbn. destruct (decide (j = i)) as [->|]; [by rewrite lookup_insert_eq, Hi|by rewrite lookup_insert_ne by congruence]. }
  split; [done|done| |apply (members_same g); [done|by intros []|done]]. split.
  - intros k p j. rewrite Hh. apply (so_list _ Hs).
  - apply (so_nodup _ Hs).
  - intros j Hj. cbn in *. rewrite lookup_insert_ne; [by apply (so_fresh _ Hs)|]. intros <-. by rewrite (so_fresh _ Hs i) in Hi.
  - intros j t. cbn. intros [[<- <-]|[_ Hj]]%lookup_insert_Some; [|by apply (so_live _ Hs j)]. by apply (so_live _ Hs _ _ Hi).
Qed.

Lemma ref_ok g i s :
  registry_ok g -> object_slots g !! i = Some s ->
  exists g', object_slot_ref i g = (Ok tt, g') /\ registry_ok g' /\ next_object_slot g' = next_object_slot g.
Proof.
  intros [H Hr] Hi. unfold object_slot_ref. rewrite (stm_bind_run (object_slot_at i) _ g s g) by (unfold object_slot_at; by rewrite Hi).
  eexists. split; [done|]. split; [|done]. split; [by apply set_ref_wf|]. intros j t. cbn. intros [[<- <-]|[_ Hj]]%lookup_insert_Some; [|by apply (Hr j)].
  cbn. specialize (Hr i s Hi). lia.
Qed.

Lemma unref_ok g i s :
  registry_ok g -> object_slots g !! i = Some s ->
  exists g', object_slot_unref i g = (Ok tt, g') /\ registry_ok g' /\ next_object_slot g' = next_object_slot g.
Proof.
  intros [H Hr] Hi. unfold object_slot_unref. rewrite (stm_bind_run (object_slot_at i) _ g s g) by (unfold object_slot_at; by rewrite Hi).
  set (g1 := set_object_slots (<[i := set_os_ref (os_ref s - 1) s]> (object_slots g)) g).
  rewrite (stm_bind_run (smod _) _ _ tt g1) by done. pose proof (Hr _ _ Hi).
  pose proof (set_ref_wf g i s (os_ref s - 1) H Hi) as H1. fold g1 in H1. destruct (Z.eqb_spec (os_ref s - 1) 0) as [E|E].
  - destruct (free_ok g1 i H1) as (g2 & R & H2 & S2 & X2); [cbn; by rewrite lookup_insert_eq|].
    exists g2. split; [done|]. split; [|done]. split; [done|]. intros j t. rewrite S2. cbn.
    intros [Hj Ht]%lookup_delete_Some. rewrite lookup_insert_ne in Ht by congruence. by apply (Hr j).
  - exists g1. split; [done|]. split; [|done]. split; [done|]. intros j t. cbn. intros [[<- <-]|[_ Hj]]%lookup_insert_Some; [cbn; lia|by apply (Hr j)].
Qed.
