(* ===== verification/ObjRegistry.v ===== *)
(** * Objects: vtables, and any program of registrations

    Adding a vtable keeps the invariant, or fails; when it fails after it has put
    members into the tables, they stay there, though their slot and their strings
    are freed ([half_refused_vtable]). What holds after any sequence of calls that
    register and drop objects, up to a vtable that is refused in this way, and who
    is told about an object: the nearest object manager above it. *)
From S2P Require Import Prelude BusType Signature Names ObjTree ObjTreeWf ObjSlots.

Lemma find_existing_run p iface fallback address existing l g :
  (forall j, j ∈ l -> exists iface' fb' vt', vtable_slot g j = Some (p, iface', fb', vt')) ->
  exists r, find_existing iface fallback address existing l g = (r, g) /\
    match r with
    | Ok e => (forall j iface' fb' vt', j ∈ l -> vtable_slot g j = Some (p, iface', fb', vt') -> fb' = fallback) /\
              (e = existing \/ exists j, e = Some j /\ j ∈ l)
    | Err x => x = EPROTOTYPE \/ x = EEXIST
    end.
Proof.
  revert existing; induction l as [|j l IH]; intros existing Hl.
  { exists (Ok existing). split; [done|]. split; [by intros ? ? ? ? ?%elem_of_nil|by left]. }
  destruct (Hl j ltac:(left)) as (iface' & fb' & vt' & Hj).
  assert (Hs : exists s find, object_slots g !! j = Some s /\ os_data s = BUS_NODE_VTABLE (Some p) iface' fb' vt' find).
  { unfold vtable_slot in Hj. destruct (object_slots g !! j) as [s|]; [|done]. exists s. cbn in Hj.
    destruct (os_data s) as [| [q|] i0 f0 v0 find| |]; try done. injection Hj as -> -> -> ->. by exists find. }
  destruct Hs as (s & find & Hs & Ed). cbn [find_existing].
  rewrite (stm_bind_run (object_slot_at j) _ g s g) by (unfold object_slot_at; by rewrite Hs). rewrite Ed.
  destruct (Bool.eqb fb' fallback) eqn:Ef; [|exists (Err EPROTOTYPE); by auto]. apply eqb_prop in Ef. subst fb'.
  rewrite (stm_bind_run (sreq true EPROTOTYPE) _ g tt g eq_refl).
  assert (Hrec : forall e, exists r, find_existing iface fallback address e l g = (r, g) /\
    match r with
    | Ok e' => (forall j' iface' fb' vt', j' ∈ j :: l -> vtable_slot g j' = Some (p, iface', fb', vt') -> fb' = fallback) /\
              (e' = e \/ exists j', e' = Some j' /\ j' ∈ l)
    | Err x => x = EPROTOTYPE \/ x = EEXIST
    end).
  { intros e. destruct (IH e ltac:(intros j' ?; apply Hl; by right)) as (r & R & Hr). exists r. split; [done|].
    destruct r as [e'|]; [|done]. destruct Hr as [H1 H2]. split; [|done]. intros j' i1 f1 v1 [->|Hin]%elem_of_cons Hv; [congruence|by eapply H1]. }
  destruct (streq iface' iface).
  - destruct (vt_address vt' =? address); [exists (Err EEXIST); by auto|]. rewrite (stm_bind_run (sreq (negb false) EEXIST) _ g tt g eq_refl).
    destruct (Hrec (Some j)) as (r & R & Hr). exists r. split; [done|]. destruct r as [e'|]; [|done]. destruct Hr as [H1 H2]. split; [done|].
    right. destruct H2 as [->|(j' & -> & Hin)]; [exists j; split; [done|left]|exists j'; split; [done|by right]].
  - destruct (Hrec existing) as (r & R & Hr). exists r. split; [done|]. destruct r as [e'|]; [|done]. destruct Hr as [H1 H2]. split; [done|].
    destruct H2 as [->|(j' & -> & Hin)]; [by left|right; exists j'; split; [done|by right]].
Qed.

Lemma elem_insert_after e i l x :
  (e = None \/ exists j, e = Some j /\ j ∈ l) -> x ∈ insert_after e i l <-> x = i \/ x ∈ l.
Proof.
  intros [->|(j & -> & Hj)].
  - destruct l; cbn; by rewrite !elem_of_cons.
  - induction l as [|y l IH]; [by apply elem_of_nil in Hj|]. cbn. destruct (Nat.eqb_spec y j) as [->|Hne].
    + rewrite !elem_of_cons. tauto.
    + apply elem_of_cons in Hj as [->|Hj]; [done|]. rewrite !elem_of_cons, IH by done. tauto.
Qed.

Lemma insert_after_nodup e i l :
  (e = None \/ exists j, e = Some j /\ j ∈ l) -> i ∉ l -> NoDup l -> NoDup (insert_after e i l).
Proof.
  intros [->|(j & -> & Hj)] Hi Hn; [destruct l; by constructor|].
  induction l as [|y l IH]; [by apply elem_of_nil in Hj|]. apply not_elem_of_cons in Hi as [Hiy Hil]. apply NoDup_cons in Hn as [Hy Hn].
  cbn. destruct (Nat.eqb_spec y j) as [->|Hne].
  - apply NoDup_cons. split; [by apply not_elem_of_cons|]. by apply NoDup_cons.
  - apply elem_of_cons in Hj as [->|Hj]; [done|]. apply NoDup_cons. split; [|by apply IH].
    rewrite elem_insert_after by (right; by exists j). intros [->|]; done.
Qed.

(** ** The members go into the tables *)
Lemma put_member_run p iface i k v g :
  exists r g', put_member p iface i k v g = (r, g') /\ nodes g' = nodes g /\ object_slots g' = object_slots g /\
    next_object_slot g' = next_object_slot g /\ nodes_modified g' = nodes_modified g /\
    match r with
    | Ok _ => forall b, match entry_member b v with
                        | Some m => table b g !! (p, iface, m) = None /\ table b g' = <[(p, iface, m) := VtableMember i 0 k]> (table b g)
                        | None => table b g' = table b g
                        end
    | Err e => e = EEXIST /\ g' = g
    end.
Proof.
  unfold put_member. rewrite (stm_bind_run sget _ g g g eq_refl).
  destruct v as [| f m s r h o| w f m s gt st o| |]; cbn.
  1,4,5: exists (Ok tt), g; do 5 (split; [done|]); by intros [].
  - destruct (vtable_methods g !! (p, iface, m)) eqn:E; cbn.
    + exists (Err EEXIST), g. by do 6 (split; [done|]).
    + eexists (Ok tt), _. do 5 (split; [done|]). by intros [].
  - destruct (vtable_properties g !! (p, iface, m)) eqn:E; cbn.
    + exists (Err EEXIST), g. by do 6 (split; [done|]).
    + eexists (Ok tt), _. do 5 (split; [done|]). by intros [].
Qed.

Definition put_at (b : bool) (p : obj_path) (iface : cstr) (i k : nat) (l : list sd_bus_vtable) (key : list Z * list Z * list Z) (x : vtable_member) : Prop :=
  exists j v m, l !! j = Some v /\ entry_member b v = Some m /\ key = (p, iface, m) /\ x = VtableMember i 0 (k + j).

Lemma put_members_run p iface i k l g :
  exists r g', put_members p iface i k l g = (r, g') /\ nodes g' = nodes g /\ object_slots g' = object_slots g /\
    next_object_slot g' = next_object_slot g /\ nodes_modified g' = nodes_modified g /\
    (r = Ok tt /\ (forall v, v ∈ l -> entry_valid v = true) /\
       (forall b key x, table b g' !! key = Some x <-> table b g !! key = Some x \/ put_at b p iface i k l key x) \/
     r = Err EINVAL \/ r = Err EEXIST).
Proof.
  revert k g; induction l as [|v l IH]; intros k g.
  { exists (Ok tt), g. do 5 (split; [done|]). left. split; [done|]. split; [by intros v ?%elem_of_nil|].
    intros b key x. split; [by left|]. intros [H|(j & v & m & H & _)]; [done|by destruct j]. }
  cbn [put_members]. destruct (entry_valid v) eqn:Ev.
  2:{ exists (Err EINVAL), g. do 5 (split; [done|]). by right; left. }
  rewrite (stm_bind_run (sreq true EINVAL) _ g tt g eq_refl).
  destruct (put_member_run p iface i k v g) as (r1 & g1 & R1 & N1 & S1 & X1 & M1 & T1). destruct r1 as [[]|e].
  2:{ destruct T1 as [-> ->]. exists (Err EEXIST), g. split; [by rewrite (stm_bind_err _ _ _ _ _ R1)|]. do 4 (split; [done|]). by right; right. }
  rewrite (stm_bind_run _ _ _ _ _ R1). destruct (IH (S k) g1) as (r & g2 & R2 & N2 & S2 & X2 & M2 & H2). exists r, g2.
  split; [done|]. split; [congruence|]. split; [congruence|]. split; [congruence|]. split; [congruence|].
  destruct H2 as [(-> & Hv & Ht)|He]; [left|by right]. split; [done|]. split.
  { intros w [->|Hw]%elem_of_cons; [done|by apply Hv]. }
  intros b key x. rewrite Ht. specialize (T1 b). unfold put_at. split.
  - intros [H|(j & w & m & Hj & Hm & -> & ->)].
    + destruct (entry_member b v) as [m|] eqn:Em; [|rewrite T1 in H; by left]. destruct T1 as [Hn T1]. rewrite T1 in H.
      apply lookup_insert_Some in H as [[<- <-]|[_ H]]; [|by left]. right. exists O, v, m. by rewrite Nat.add_0_r.
    + right. exists (S j), w, m. split; [done|]. split; [done|]. split; [done|]. f_equal. lia.
  - intros [H|(j & w & m & Hj & Hm & -> & ->)].
    + left. destruct (entry_member b v) as [m|] eqn:Em; [|by rewrite T1]. destruct T1 as [Hn T1]. rewrite T1.
      rewrite lookup_insert_ne; [done|]. intros <-. by rewrite Hn in H.
    + destruct j as [|j].
      * cbn in Hj. injection Hj as ->. rewrite Hm in T1. destruct T1 as [_ ->]. left. rewrite lookup_insert_eq. by rewrite Nat.add_0_r.
      * right. exists j, w, m. split; [done|]. split; [done|]. split; [done|]. f_equal. lia.
Qed.

(** Entries that cannot be refused: valid ones, whose members are not registered at
    the path and interface yet, each once. *)
Record sound_entries (p : obj_path) (iface : cstr) (l : list sd_bus_vtable) (g : registry) : Prop := SoundEntries {
  sn_valid : forall v, v ∈ l -> entry_valid v = true;
  sn_once : forall b, NoDup (omap (entry_member b) l);
  sn_new : forall b m, m ∈ omap (entry_member b) l -> table b g !! (p, iface, m) = None }.

Lemma put_members_sound p iface i k l g : sound_entries p iface l g -> (put_members p iface i k l g).1 = Ok tt.
Proof.
  revert k g; induction l as [|v l IH]; intros k g [H1 H2 H3]; [done|]. cbn [put_members]. rewrite (H1 v) by left.
  rewrite (stm_bind_run (sreq true EINVAL) _ g tt g eq_refl).
  assert (Hm : forall b m, entry_member b v = Some m -> omap (entry_member b) (v :: l) = m :: omap (entry_member b) l).
  { intros b m E. cbn. by rewrite E. }
  assert (Hn : forall b, entry_member b v = None -> omap (entry_member b) (v :: l) = omap (entry_member b) l).
  { intros b E. cbn. by rewrite E. }
  destruct (put_member_run p iface i k v g) as (r1 & g1 & R1 & _ & _ & _ & _ & T1). destruct r1 as [[]|e].
  2:{ exfalso. destruct T1 as [-> ->]. revert R1. unfold put_member. rewrite (stm_bind_run sget _ g g g eq_refl).
    destruct v as [| f m s r h o| w f m s gt st o| |]; cbn; try (intros [=]; done).
    - specialize (H3 true m). rewrite (Hm true m eq_refl) in H3. cbn [table] in H3. rewrite H3 by left. done.
    - specialize (H3 false m). rewrite (Hm false m eq_refl) in H3. cbn [table] in H3. rewrite H3 by left. done. }
  rewrite (stm_bind_run _ _ _ _ _ R1). apply IH. split.
  - intros w Hw. apply H1. by right.
  - intros b. specialize (H2 b). destruct (entry_member b v) as [m|] eqn:E; [rewrite (Hm b m E) in H2; by apply NoDup_cons in H2 as [_ ?]|by rewrite (Hn b E) in H2].
  - intros b m Hin. specialize (T1 b). specialize (H2 b). specialize (H3 b m). destruct (entry_member b v) as [m'|] eqn:E.
    + rewrite (Hm b m' E) in H2, H3. destruct T1 as [_ ->]. apply NoDup_cons in H2 as [H2 _].
      rewrite lookup_insert_ne by (by intros [= ->]). apply H3. by right.
    + rewrite (Hn b E) in H3. rewrite T1. by apply H3.
Qed.

(** ** Adding a vtable *)
Lemma or_fail_err {S A} (f : stm S A) c e s s1 :
  f s = (Err e, s1) -> e <> EASSERT -> or_fail f c s = (c;; sfail e) s1.
Proof. intros R He. unfold or_fail. rewrite R. by destruct e. Qed.

Lemma members_added g g' i p iface fb vt :
  members_ok g -> object_slots g !! i = None -> vtable_starts vt = true ->
  (forall j, vtable_slot g' j = if decide (j = i) then Some (p, iface, fb, vt) else vtable_slot g j) ->
  (forall b key x, table b g' !! key = Some x <-> table b g !! key = Some x \/ put_at b p iface i 1 (tail (vt_entries vt)) key x) ->
  (forall j iface' fb' vt', vtable_slot g j = Some (p, iface', fb', vt') -> fb' = fb) ->
  members_ok g'.
Proof.
  intros [H1 H2 H3 H4] Hi Hst Hv Ht Hfb. assert (Hgi : vtable_slot g i = None) by (unfold vtable_slot; by rewrite Hi).
  split.
  - intros b q iface' m x [Hx|(j & v & m' & Hj & Hm & [= -> -> ->] & ->)]%Ht.
    + destruct (H1 _ _ _ _ _ Hx) as (fb' & vt' & v & Hs & He & Hm). rewrite Hv, decide_False by congruence. by eauto.
    + exists fb, vt, v. rewrite Hv. cbn. by rewrite decide_True.
  - intros b j q iface' fb' vt' k v m. rewrite Hv. case_decide as Hj.
    + subst j. intros [= -> -> -> ->]. unfold vtable_entry. destruct k as [|k]; [done|]. intros Hk Hm. exists 0.
      apply Ht. right. by exists k, v, m.
    + intros Hs He Hm. destruct (H2 _ _ _ _ _ _ _ _ _ Hs He Hm) as [last Hl]. exists last. apply Ht. by left.
  - intros j j' q iface1 fb1 vt1 iface2 fb2 vt2. rewrite !Hv. repeat case_decide; intros E1 E2.
    + by simplify_eq.
    + simplify_eq. by eapply Hfb.
    + simplify_eq. symmetry. by eapply Hfb.
    + by eapply H3.
  - intros j q iface1 fb1 vt1. rewrite Hv. case_decide; [by intros [= -> -> -> ->]|apply H4].
Qed.

Definition tables_same (g g' : registry) : Prop := forall b, table b g' = table b g.

(** The vtables at a node, from its list *)
Lemma node_vtables g p N n :
  slots_ok g -> grown p (nodes g) N -> N !! p = Some n ->
  n_vtables n = lists_of (nodes g) InVtables p /\
  forall j, j ∈ n_vtables n -> exists iface' fb' vt', vtable_slot g j = Some (p, iface', fb', vt').
Proof.
  intros Hs G Hn. assert (E : n_vtables n = lists_of (nodes g) InVtables p).
  { rewrite <- (grown_lists _ _ _ InVtables p G). unfold lists_of. by rewrite Hn. }
  split; [done|]. intros j. rewrite E, (so_list _ Hs). apply home_vtable.
Qed.

(** What is left when a vtable was refused *)
Lemma refused_ok g p N g1 :
  registry_ok g -> tree_ok N -> grown p (nodes g) N -> nodes g1 = N -> tables_same g g1 ->
  object_slots g1 = object_slots g -> (next_object_slot g <= next_object_slot g1)%nat ->
  exists g2, bus_node_gc p g1 = (Ok tt, g2) /\ registry_ok g2 /\ tables_same g g2.
Proof.
  intros [[Ht Hb Hs Hm] Hr] T G <- Htab Hsl Hnx.
  destruct (bus_node_gc_run p g1 T (gr_in _ _ _ G) (grown_idle _ _ _ G Hb)) as (N & R & T' & I & S).
  exists (set_nodes N g1). split; [done|]. split; [|intros b; rewrite <- Htab; by destruct b].
  assert (L : forall k q, lists_of N k q = lists_of (nodes g) k q).
  { intros k q. by rewrite (shrunk_lists _ _ _ _ S), (grown_lists _ _ _ _ _ G). }
  split; [split; [done|done| |]|by cbn; rewrite Hsl].
  - split.
    + intros k q i. cbn. rewrite L. unfold home_of. cbn. rewrite Hsl. apply (so_list _ Hs).
    + intros k q. cbn. rewrite L. apply (so_nodup _ Hs).
    + intros i Hi. cbn in *. rewrite Hsl. apply (so_fresh _ Hs). lia.
    + intros i s. cbn. rewrite Hsl. apply (so_live _ Hs).
  - apply (members_same g); [done|intros b; rewrite <- Htab; by destruct b|]. intros i. unfold vtable_slot. cbn. by rewrite Hsl.
Qed.

Lemma unref_unlinked i s iface fb vt find g :
  object_slots g !! i = Some s -> os_ref s = 1 -> os_data s = BUS_NODE_VTABLE None iface fb vt find ->
  exists g', object_slot_unref i g = (Ok tt, g') /\ nodes g' = nodes g /\ tables_same g g' /\
    object_slots g' = delete i (object_slots g) /\ next_object_slot g' = next_object_slot g.
Proof.
  intros Hs Hr Hd. unfold object_slot_unref. rewrite (stm_bind_run (object_slot_at i) _ g s g) by (unfold object_slot_at; by rewrite Hs).
  set (g1 := set_object_slots (<[i := set_os_ref (os_ref s - 1) s]> (object_slots g)) g).
  rewrite (stm_bind_run (smod _) _ _ tt g1) by done. rewrite Hr. change (1 - 1 =? 0) with true. cbn [negb].
  eexists. split.
  - unfold object_slot_free, object_slot_disconnect. rewrite stm_bind_eq.
    rewrite (stm_bind_run (object_slot_at i) _ g1 (set_os_ref (os_ref s - 1) s) g1) by (unfold object_slot_at; cbn; by rewrite lookup_insert_eq).
    cbn [os_data set_os_ref]. rewrite Hd. done.
  - cbn. split; [done|]. split; [by intros []|]. split; [by rewrite delete_insert_eq|done].
Qed.

Lemma add_vtable_ok floating p iface vt fallback find userdata g :
  registry_ok g ->
  exists r g', add_object_vtable_internal floating p iface vt fallback find userdata g = (r, g') /\ r <> Err EASSERT /\
    (is_ok r = true \/ tables_same g g' -> registry_ok g') /\
    (sound_entries p iface (tail (vt_entries vt)) g -> is_ok r = true \/ tables_same g g').
Proof.
  intros H. unfold add_object_vtable_internal.
  assert (Hsame : tables_same g g) by by intros b.
  destruct (object_path_is_valid p) eqn:Hp; [|exists (Err EINVAL), g; by auto].
  destruct (interface_name_is_valid iface); [|exists (Err EINVAL), g; by auto].
  destruct (vtable_starts vt) eqn:Hst; [|exists (Err EINVAL), g; by auto].
  destruct (builtin_interface iface); [exists (Err EINVAL), g; by auto|].
  cbn [negb]. do 4 rewrite (stm_bind_run (sreq true EINVAL) _ g tt g eq_refl).
  pose proof H as [[Ht Hb Hs Hm] Hr]. destruct (bus_node_allocate_run p g Ht Hp) as (N & R & T & G). rewrite (stm_bind_run _ _ _ _ _ R).
  destruct (gr_in _ _ _ G) as [n Hn]. rewrite (stm_bind_run (node_at p) _ _ n (set_nodes N g)) by (unfold node_at; cbn; by rewrite Hn).
  destruct (node_vtables g p N n Hs G Hn) as [En Hvt]. set (i := next_object_slot g).
  assert (Hfresh : object_slots g !! i = None) by (by apply (so_fresh _ Hs)).
  destruct (find_existing_run p iface fallback (vt_address vt) None (n_vtables n) (set_nodes N g) Hvt) as (r & Rf & Hf).
  destruct r as [e|x].
  2:{ destruct (refused_ok g p N (set_nodes N g) H T G eq_refl) as (g2 & Rg & H2 & T2); [by intros []|done|done|].
      exists (Err x), g2. split; [|split; [by destruct Hf as [->| ->]|by auto]]. rewrite stm_bind_eq. unfold or_fail. rewrite Rf.
      rewrite (stm_bind_run _ _ _ _ _ Rg). by destruct Hf as [->| ->]. }
  rewrite (stm_bind_run (or_fail _ _) _ _ e (set_nodes N g)) by (unfold or_fail; by rewrite Rf).
  set (s := ObjectSlot 1 floating userdata (BUS_NODE_VTABLE None iface fallback vt find)).
  set (g1 := Registry N (vtable_methods g) (vtable_properties g) (<[i := s]> (object_slots g)) (S i) (nodes_modified g)).
  rewrite (stm_bind_run (object_slot_allocate _ _ _) _ _ i g1) by done.
  destruct (put_members_run p iface i 1 (tail (vt_entries vt)) g1) as (r & g2 & R2 & N2 & S2 & X2 & M2 & H2).
  destruct H2 as [(-> & Hval & Htab)|Herr].
  - rewrite (stm_bind_run (or_fail _ _) _ _ tt g2) by (unfold or_fail; by rewrite R2).
    set (d := BUS_NODE_VTABLE (Some p) iface fallback vt find).
    set (gd := set_object_slots (alter (set_os_data d) i (object_slots g2)) g2).
    rewrite (stm_bind_run (smod _) _ _ tt gd) by done.
    assert (Hgd : is_Some (nodes gd !! p)) by (cbn; rewrite N2; cbn; by rewrite Hn).
    rewrite (stm_bind_run _ _ _ _ _ (mod_node_run p (upd_list InVtables (insert_after e i)) gd Hgd)).
    rewrite (stm_bind_run (smod _) _ _ tt (set_nodes_modified true (set_nodes (alter (upd_list InVtables (insert_after e i)) p N) gd)))
      by (unfold gd; cbn; by rewrite N2).
    eexists (Ok i), _. split; [done|]. split; [done|]. split; [intros _|by left]. set (g3 := set_nodes_modified true _).
    assert (Hslots : object_slots g3 = <[i := ObjectSlot 1 floating userdata d]> (object_slots g)).
    { cbn. rewrite S2. cbn. apply map_eq. intros j. destruct (decide (j = i)) as [->|]; [by rewrite lookup_alter_eq, !lookup_insert_eq|].
      by rewrite lookup_alter_ne, !lookup_insert_ne by congruence. }
    assert (Hin : e = None \/ exists j, e = Some j /\ j ∈ lists_of (nodes g) InVtables p) by (rewrite <- En; apply Hf).
    assert (Hnotin : i ∉ lists_of (nodes g) InVtables p) by (rewrite (so_list _ Hs); unfold home_of; by rewrite Hfresh).
    assert (Hlists : forall k q, lists_of (nodes g3) k q =
      if decide ((k, q) = (InVtables, p)) then insert_after e i (lists_of (nodes g) InVtables p) else lists_of (nodes g) k q).
    { intros k q. cbn. rewrite (upd_lists InVtables) by apply G. by rewrite !(grown_lists _ _ _ _ _ G). }
    split; [split|].
    + by apply upd_list_tree.
    + intros q m Hq Hidle.
      pose proof (upd_list_idle InVtables (insert_after e i) p N (eq p) (grown_idle _ _ _ G Hb) ltac:(naive_solver) q m Hq Hidle) as <-.
      apply idle_spec in Hidle as [_ Hl]. specialize (Hl InVtables). cbn in Hq. rewrite lookup_alter_eq, Hn in Hq. apply (inj Some) in Hq. subst m.
      rewrite (get_upd_list InVtables InVtables), decide_True in Hl by done. change (get_list InVtables n) with (n_vtables n) in Hl. rewrite En in Hl.
      assert (i ∈ insert_after e i (lists_of (nodes g) InVtables p)) as Hi by (apply elem_insert_after; [done|by left]).
      rewrite Hl in Hi. by apply elem_of_nil in Hi.
    + eapply (slots_inserted g g3 i _ InVtables p); try done.
      * intros j. by apply elem_insert_after.
      * apply insert_after_nodup; [done|done|apply Hs].
    + eapply (members_added g g3 i p iface fallback vt); try done.
      * intros j. unfold vtable_slot. rewrite Hslots. case_decide as Hj; [subst; by rewrite lookup_insert_eq|by rewrite lookup_insert_ne by congruence].
      * intros j iface' fb' vt' Hj. destruct Hf as [Hf _]. eapply Hf; [|exact Hj]. rewrite En. apply (so_list _ Hs). by eapply vtable_slot_home.
    + intros j t. rewrite Hslots. intros [[<- <-]|[_ Hj]]%lookup_insert_Some; [done|by apply (Hr j)].
  - assert (Hs2 : object_slots g2 !! i = Some s) by (rewrite S2; cbn; by rewrite lookup_insert_eq).
    destruct (unref_unlinked i s iface fallback vt find g2 Hs2) as (g3 & R3 & N3 & T3 & S3 & X3); [done..|].
    assert (exists e0, r = Err e0 /\ e0 <> EASSERT) as (e0 & -> & He0) by (destruct Herr as [->| ->]; by eexists).
    assert (Hg3 : nodes g3 = N) by (by rewrite N3, N2).
    destruct (bus_node_gc_run p g3 ltac:(by rewrite Hg3) ltac:(rewrite Hg3; apply G) ltac:(rewrite Hg3; by eapply grown_idle)) as (N4 & R4 & T4 & I4 & S4).
    exists (Err e0), (set_nodes N4 g3). split; [|split; [congruence|split]].
    3:{ intros [V1 V2 V3]. assert (Hx : (put_members p iface i 1 (tail (vt_entries vt)) g1).1 = Ok tt).
        { apply put_members_sound. split; [done|done|]. intros b m Hin. rewrite <- (V3 b m Hin). by destruct b. }
        by rewrite R2 in Hx. }
    + rewrite stm_bind_eq, (or_fail_err _ _ _ _ _ R2 He0), stm_bind_eq, (stm_bind_run _ _ _ _ _ R3), R4. done.
    + intros [E|Hsame']; [done|].
      destruct (refused_ok g p N g3 H T G Hg3) as (g5 & R5 & H5 & _).
      * intros b. rewrite <- Hsame'. by destruct b.
      * rewrite S3, S2. cbn. by rewrite delete_insert_id.
      * rewrite X3, X2. cbn. lia.
      * rewrite R4 in R5. by injection R5 as <-.
Qed.

(** ** Any program of registrations *)
(** ** Programs *)
Inductive registration :=
  | AddObject (floating fallback : bool) (p : obj_path) (callback : nat) (userdata : Z)
  | AddEnumerator (floating : bool) (p : obj_path) (callback : nat) (userdata : Z)
  | AddObjectManager (floating : bool) (p : obj_path)
  | AddVtable (floating : bool) (p : obj_path) (interface : cstr) (vtable : vtable_pointer) (fallback : bool)
      (find : option nat) (userdata : Z)
  | RefSlot (i : nat)
  | UnrefSlot (i : nat).

Definition run_registration (c : registration) : stm registry nat :=
  match c with
  | AddObject floating fallback p callback userdata => bus_add_object floating fallback p callback userdata
  | AddEnumerator floating p callback userdata => sd_bus_add_node_enumerator floating p callback userdata
  | AddObjectManager floating p => sd_bus_add_object_manager floating p
  | AddVtable floating p interface vtable fallback find userdata =>
      add_object_vtable_internal floating p interface vtable fallback find userdata
  | RefSlot i => object_slot_ref i;; mret i
  | UnrefSlot i => object_slot_unref i;; mret i
  end.

(** Nobody uses a slot that is gone. *)
Definition legal (c : registration) (g : registry) : Prop :=
  match c with RefSlot i | UnrefSlot i => is_Some (object_slots g !! i) | _ => True end.

(** A call that fails has put no members into the tables: a vtable is not refused
    half way. *)
Definition all_or_nothing (c : registration) (g : registry) : Prop :=
  is_ok (run_registration c g).1 = true \/ tables_same g (run_registration c g).2.

(** It is not unless it has an entry that is not valid, a member that is registered
    at the path and interface, or a member twice. *)
Definition sound_vtable (c : registration) (g : registry) : Prop :=
  match c with
  | AddVtable _ p interface vtable _ _ _ => sound_entries p interface (tail (vt_entries vtable)) g
  | _ => True
  end.

(** Calls one after the other, none of them a vtable that is refused half way: after
    that the tables point to freed memory, see [half_refused_vtable]. *)
Inductive registrations : registry -> registry -> Prop :=
  | registrations_nil g : registrations g g
  | registrations_cons c g r g1 g2 :
      legal c g -> all_or_nothing c g -> run_registration c g = (r, g1) ->
      registrations g1 g2 -> registrations g g2.

Lemma register_refs floating p k userdata d g :
  registry_ok g -> object_path_is_valid p = true -> simple_slot d = true -> slot_home d = Some (k, p) ->
  exists r g', register floating p k userdata d g = (r, g') /\ r <> Err EASSERT /\ registry_ok g' /\ is_ok r = true.
Proof.
  intros [H Hr] Hv Hd Hh. destruct (register_ok floating p k userdata d g H Hv Hd Hh) as (g' & R & H' & S').
  eexists _, g'. split; [exact R|]. split; [done|]. split; [|done]. split; [done|]. intros i s. rewrite S'.
  intros [[<- <-]|[_ Hs]]%lookup_insert_Some; [done|by apply (Hr i)].
Qed.

Lemma run_registration_ok c g :
  registry_ok g -> legal c g ->
  exists r g', run_registration c g = (r, g') /\ r <> Err EASSERT /\ (is_ok r = true \/ tables_same g g' -> registry_ok g') /\
    (sound_vtable c g -> is_ok r = true \/ tables_same g g').
Proof.
  intros H Hl. assert (Hsame : tables_same g g) by by intros b.
  destruct c as [fl fb p cb u|fl p cb u|fl p|fl p iface vt fb find u|i|i]; cbn in *.
  1-3: unfold bus_add_object, sd_bus_add_node_enumerator, sd_bus_add_object_manager;
    destruct (object_path_is_valid p) eqn:Hv; [|exists (Err EINVAL), g; by auto].
  - destruct (register_refs fl p InCallbacks u (BUS_NODE_CALLBACK p fb cb 0) g H Hv eq_refl eq_refl) as (r & g' & R & Hr & H' & E).
    exists r, g'. by auto.
  - destruct (register_refs fl p InEnumerators u (BUS_NODE_ENUMERATOR p cb) g H Hv eq_refl eq_refl) as (r & g' & R & Hr & H' & E).
    exists r, g'. by auto.
  - destruct (register_refs fl p InObjectManagers 0 (BUS_NODE_OBJECT_MANAGER p) g H Hv eq_refl eq_refl) as (r & g' & R & Hr & H' & E).
    exists r, g'. by auto.
  - by apply add_vtable_ok.
  - destruct Hl as [s Hs]. destruct (ref_ok g i s H Hs) as (g' & R & H' & _). exists (Ok i), g'.
    rewrite (stm_bind_run _ _ _ _ _ R). by auto.
  - destruct Hl as [s Hs]. destruct (unref_ok g i s H Hs) as (g' & R & H' & _). exists (Ok i), g'.
    rewrite (stm_bind_run _ _ _ _ _ R). by auto.
Qed.

Lemma registrations_ok g g' : registrations g g' -> registry_ok g -> registry_ok g'.
Proof.
  induction 1 as [|c g r g1 g2 Hl Hc R _ IH]; [done|]. intros H. unfold all_or_nothing in Hc.
  destruct (run_registration_ok c g H Hl) as (r' & g1' & R' & _ & H' & _). rewrite R in R', Hc. injection R' as <- <-. auto.
Qed.

(** C15. Whatever is registered and dropped, in any order, as long as no vtable was
    refused half way: the nodes are the paths in use and the paths above them, linked
    as the paths are; each slot is in the list of its node, and no list holds a slot
    that is gone; the tables hold the members of the registered vtables, each once,
    and nothing else; the vtables of a node are all fallbacks or none is. No further
    call follows a pointer to something that is gone, not even a vtable that is then
    refused half way, and none is whose entries are valid and its members new. *)
Theorem registry_invariant g :
  registrations empty_registry g ->
  registry_ok g /\ forall c, legal c g ->
    (run_registration c g).1 <> Err EASSERT /\ (sound_vtable c g -> all_or_nothing c g).
Proof.
  intros H%registrations_ok; [|apply empty_registry_ok]. split; [done|]. intros c Hl. unfold all_or_nothing.
  destruct (run_registration_ok c g H Hl) as (r & g' & -> & Hr & _ & Hs). done.
Qed.

(** ** The nearest object manager *)
Lemma prefixes_enough n m p :
  object_path_is_valid p = true -> (length p <= n)%nat -> (length p <= m)%nat -> prefixes_loop n p = prefixes_loop m p.
Proof.
  revert m p; induction n as [|n IH]; intros m p Hv Hn Hm; [destruct p; [done|cbn in Hn; lia]|].
  destruct m as [|m]; [destruct p; [done|cbn in Hm; lia]|]. cbn [prefixes_loop].
  destruct (streq p (bs "/")) eqn:Es; [done|]. assert (Hroot : p <> bs "/") by (intros ->; done).
  destruct (parent_path p) as [q|] eqn:Eq; [|done]. f_equal. destruct (parent_path_shorter p q Hv Hroot Eq).
  apply IH; [by eapply parent_path_valid|lia|lia].
Qed.

Lemma path_prefixes_step p :
  object_path_is_valid p = true ->
  path_prefixes p = if streq p (bs "/") then [] else match parent_path p with Some q => q :: path_prefixes q | None => [] end.
Proof.
  intros Hv. unfold path_prefixes at 1. destruct (path_slash p Hv) as [r ->]. cbn [length prefixes_loop].
  destruct (streq (ch "/" :: r) (bs "/")) eqn:Es; [done|]. assert (Hroot : ch "/" :: r <> bs "/") by (intros E; by rewrite E in Es).
  destruct (parent_path _) as [q|] eqn:Eq; [|done]. f_equal. destruct (parent_path_shorter _ q Hv Hroot Eq) as [Hlt _].
  apply prefixes_enough; [by eapply parent_path_valid|cbn in Hlt; lia|lia].
Qed.

Definition has_manager (g : registry) (p : obj_path) : bool :=
  match nodes g !! p with Some n => negb (bool_decide (n_object_managers n = [])) | None => false end.

Definition nearest_manager (g : registry) (p : obj_path) : option obj_path := List.find (has_manager g) (p :: path_prefixes p).

Lemma manager_above_run fuel g q :
  tree_ok (nodes g) -> is_Some (nodes g !! q) -> (length q < fuel)%nat ->
  manager_above fuel (Some q) g = (Ok (nearest_manager g q), g).
Proof.
  intros H. revert q; induction fuel as [|fuel IH]; intros q [n Hq] Hf; [lia|]. cbn [manager_above].
  rewrite (stm_bind_run (node_at q) _ g n g) by (unfold node_at; by rewrite Hq).
  pose proof (tr_valid _ H _ _ Hq) as Hv. unfold nearest_manager. cbn [List.find]. unfold has_manager at 1. rewrite Hq.
  destruct (bool_decide (n_object_managers n = [])); [cbn [negb]|done].
  rewrite (tr_parent _ H _ _ Hq), (path_prefixes_step q Hv). destruct (streq q (bs "/")) eqn:Es; [by destruct fuel|].
  assert (Hroot : q <> bs "/") by (intros ->; done). destruct (parent_path_exists q Hv Hroot) as [r Hr]. rewrite Hr.
  destruct (parent_path_shorter q r Hv Hroot Hr) as [Hlt _].
  assert (Hp : n_parent n = Some r) by (rewrite (tr_parent _ H _ _ Hq), Es; done).
  destruct (tr_up _ H _ _ _ Hq Hp) as (m & Hm & _). by apply IH; [eexists|lia].
Qed.

Lemma first_node_spec g l :
  match first_node l g with
  | Some q => exists l1 l2, l = l1 ++ q :: l2 /\ is_Some (nodes g !! q) /\ forall r, r ∈ l1 -> nodes g !! r = None
  | None => forall r, r ∈ l -> nodes g !! r = None
  end.
Proof.
  induction l as [|p l IH]; cbn; [by intros r ?%elem_of_nil|]. destruct (nodes g !! p) as [n|] eqn:E.
  - exists [], l. split; [done|]. split; [by eexists|]. by intros r ?%elem_of_nil.
  - destruct (first_node l g) as [q|].
    + destruct IH as (l1 & l2 & -> & Hq & H). exists (p :: l1), l2. split; [done|]. split; [done|]. by intros r [->|?%H]%elem_of_cons.
    + by intros r [->|?%IH]%elem_of_cons.
Qed.

Lemma find_none g l : (forall r, r ∈ l -> nodes g !! r = None) -> forall l', List.find (has_manager g) (l ++ l') = List.find (has_manager g) l'.
Proof.
  induction l as [|p l IH]; intros H l'; [done|]. cbn. unfold has_manager at 1. rewrite (H p) by left. apply IH.
  intros r Hr. apply H. by right.
Qed.

(** The prefixes behind a prefix are its own. *)
Lemma prefixes_suffix p l1 q l2 :
  object_path_is_valid p = true -> p :: path_prefixes p = l1 ++ q :: l2 -> l2 = path_prefixes q /\ object_path_is_valid q = true /\ (length q <= length p)%nat.
Proof.
  revert p; induction l1 as [|x l1 IH]; intros p Hv; [by intros [= -> <-]|]. intros [= <- E].
  rewrite (path_prefixes_step p Hv) in E. destruct (streq p (bs "/")) eqn:Es; [by destruct l1|].
  assert (Hroot : p <> bs "/") by (intros ->; done). destruct (parent_path p) as [r|] eqn:Er; [|by destruct l1].
  destruct (parent_path_shorter p r Hv Hroot Er). destruct (IH r (parent_path_valid p r Hv Er) E) as (? & ? & ?). split; [done|]. split; [done|lia].
Qed.

(** C16. [bus_find_parent_object_manager] finds the longest of the path itself and its
    prefixes that an object manager is registered at, whether or not there are nodes
    for the paths between. *)
Theorem find_parent_object_manager_spec g p :
  registrations empty_registry g -> object_path_is_valid p = true ->
  bus_find_parent_object_manager p g = (Ok (nearest_manager g p), g).
Proof.
  intros H%registrations_ok Hv; [|apply empty_registry_ok]. pose proof (ro_tree _ (ro_wf _ H)) as Ht.
  unfold bus_find_parent_object_manager. rewrite (stm_bind_run sget _ g g g eq_refl).
  pose proof (first_node_spec g (p :: path_prefixes p)) as Hf. unfold nearest_manager. destruct (first_node _ g) as [q|].
  - destruct Hf as (l1 & l2 & E & Hq & Hnone). destruct (prefixes_suffix p l1 q l2 Hv E) as (-> & Hqv & Hlen).
    rewrite (manager_above_run _ g q Ht Hq) by lia. rewrite E, (find_none g l1 Hnone). done.
  - rewrite <- (app_nil_r (p :: path_prefixes p)), (find_none g _ Hf). done.
Qed.

(** ** A vtable that is refused half-way *)
Definition refused_vtable : vtable_pointer :=
  Vtable 1 [VtableStart 0 sizeof_vtable; VtableMethod 0 (bs "Ping") None None None 0; VtableMethod 0 (bs "not-a-name") None None None 0].

(** The second entry is refused, but the first one stays in the table of methods: its
    slot, its interface and, with no other use of the path, its node are gone. *)
Example half_refused_vtable :
  let '(r, g) := sd_bus_add_object_vtable true (bs "/a") (bs "org.example") refused_vtable 0 empty_registry in
  r = Err EINVAL /\ vtable_methods g !! (bs "/a", bs "org.example", bs "Ping") = Some (VtableMember 0 0 1) /\
  object_slots g !! 0%nat = None /\ nodes g !! bs "/a" = None.
Proof. vm_compute. repeat split. Qed.
