(* ===== verification/Introspect.v ===== *)
(** * Introspection data ([src/libsystemd/sd-bus/bus-introspect.c])

    The XML text that describes an object. The memory stream is the list of the
    bytes written so far; writing to it does not fail. *)
From S2P Require Import Prelude BusType Signature Names ObjTree.

(** A string in which every [`] stands for a quotation mark and every [|] for a new line *)
Definition lines (s : string) : list Z :=
  (fun c => if c =? ch "`" then 34 else if c =? ch "|" then 10 else c) <$> bs s.

Definition BUS_INTROSPECT_DOCTYPE : list Z := lines
"<!DOCTYPE node PUBLIC `-//freedesktop//DTD D-BUS Object Introspection 1.0//EN`|`http://www.freedesktop.org/standards/dbus/1.0/introspect.dtd`>|".

Definition BUS_INTROSPECT_INTERFACE_PEER : list Z := lines
" <interface name=`org.freedesktop.DBus.Peer`>|  <method name=`Ping`/>|  <method name=`GetMachineId`>|   <arg type=`s` name=`machine_uuid` direction=`out`/>|  </method>| </interface>|".

Definition BUS_INTROSPECT_INTERFACE_INTROSPECTABLE : list Z := lines
" <interface name=`org.freedesktop.DBus.Introspectable`>|  <method name=`Introspect`>|   <arg name=`data` type=`s` direction=`out`/>|  </method>| </interface>|".

Definition BUS_INTROSPECT_INTERFACE_PROPERTIES : list Z :=
  lines " <interface name=`org.freedesktop.DBus.Properties`>|  <method name=`Get`>|   <arg name=`interface` direction=`in` type=`s`/>|   <arg name=`property` direction=`in` type=`s`/>|   <arg name=`value` direction=`out` type=`v`/>|  </method>|" ++
  lines "  <method name=`GetAll`>|   <arg name=`interface` direction=`in` type=`s`/>|   <arg name=`properties` direction=`out` type=`a{sv}`/>|  </method>|" ++
  lines "  <method name=`Set`>|   <arg name=`interface` direction=`in` type=`s`/>|   <arg name=`property` direction=`in` type=`s`/>|   <arg name=`value` direction=`in` type=`v`/>|  </method>|" ++
  lines "  <signal name=`PropertiesChanged`>|   <arg type=`s` name=`interface`/>|   <arg type=`a{sv}` name=`changed_properties`/>|   <arg type=`as` name=`invalidated_properties`/>|  </signal>| </interface>|".

Definition BUS_INTROSPECT_INTERFACE_OBJECT_MANAGER : list Z :=
  lines " <interface name=`org.freedesktop.DBus.ObjectManager`>|  <method name=`GetManagedObjects`>|   <arg type=`a{oa{sa{sv}}}` name=`object_paths_interfaces_and_properties` direction=`out`/>|  </method>|" ++
  lines "  <signal name=`InterfacesAdded`>|   <arg type=`o` name=`object_path`/>|   <arg type=`a{sa{sv}}` name=`interfaces_and_properties`/>|  </signal>|" ++
  lines "  <signal name=`InterfacesRemoved`>|   <arg type=`o` name=`object_path`/>|   <arg type=`as` name=`interfaces`/>|  </signal>| </interface>|".

Definition introspect_begin : list Z := BUS_INTROSPECT_DOCTYPE ++ lines "<node>|".

Definition introspect_write_default_interfaces (object_manager : bool) : list Z :=
  BUS_INTROSPECT_INTERFACE_PEER ++ BUS_INTROSPECT_INTERFACE_INTROSPECTABLE ++ BUS_INTROSPECT_INTERFACE_PROPERTIES ++
  (if object_manager then BUS_INTROSPECT_INTERFACE_OBJECT_MANAGER else []).

(** The paths are in the order [set_steal_first] gives them. *)
Definition introspect_write_child_nodes (s : list obj_path) (prefix : obj_path) : list Z :=
  concat ((fun node =>
    match object_path_startswith node prefix with
    | Some (c :: e) => lines " <node name=`" ++ (c :: e) ++ lines "`/>|"
    | _ => []
    end) <$> s).

Definition annotation (name value : string) : list Z :=
  lines "   <annotation name=`" ++ bs name ++ lines "` value=`" ++ bs value ++ lines "`/>|".

Definition vtable_type_method (v : sd_bus_vtable) : bool := match v with VtableMethod _ _ _ _ _ _ => true | _ => false end.
Definition vtable_type_property (v : sd_bus_vtable) : bool := match v with VtableProperty _ _ _ _ _ _ _ => true | _ => false end.
Definition vtable_type_writable (v : sd_bus_vtable) : bool := match v with VtableProperty w _ _ _ _ _ _ => w | _ => false end.

Definition introspect_write_flags (trusted : bool) (v : sd_bus_vtable) : list Z :=
  let flags := vtable_flags v in
  (if has flags SD_BUS_VTABLE_DEPRECATED then annotation "org.freedesktop.DBus.Deprecated" "true" else []) ++
  (if vtable_type_method v && has flags SD_BUS_VTABLE_METHOD_NO_REPLY then annotation "org.freedesktop.DBus.Method.NoReply" "true" else []) ++
  (if vtable_type_property v then
     (if has flags SD_BUS_VTABLE_PROPERTY_EXPLICIT then annotation "org.freedesktop.systemd1.Explicit" "true" else []) ++
     (if has flags SD_BUS_VTABLE_PROPERTY_CONST
      then annotation "org.freedesktop.DBus.Property.EmitsChangedSignal" "const"
      else if has flags SD_BUS_VTABLE_PROPERTY_EMITS_INVALIDATION
      then annotation "org.freedesktop.DBus.Property.EmitsChangedSignal" "invalidates"
      else if negb (has flags SD_BUS_VTABLE_PROPERTY_EMITS_CHANGE)
      then annotation "org.freedesktop.DBus.Property.EmitsChangedSignal" "false"
      else [])
   else []) ++
  (if negb trusted && (vtable_type_method v || vtable_type_writable v) && negb (has flags SD_BUS_VTABLE_UNPRIVILEGED)
   then annotation "org.freedesktop.systemd1.Privileged" "true" else []).

(** What was written when the scan of the signature failed stays; the caller does not
    look. [fuel] bounds the elements. *)
Fixpoint introspect_write_arguments (fuel : nat) (signature : cstr) (direction : option string) : list Z :=
  match fuel with
  | O => []
  | S fuel =>
      match signature with
      | [] => []
      | _ =>
          match signature_element_length signature with
          | Err _ => []
          | Ok l =>
              lines "   <arg type=`" ++ take l signature ++ lines "`" ++
              (match direction with Some d => lines " direction=`" ++ bs d ++ lines "`/>|" | None => lines "/>|" end) ++
              introspect_write_arguments fuel (drop l signature) direction
          end
      end
  end.

Definition write_arguments (s : cstr) (direction : option string) : list Z := introspect_write_arguments (length s) s direction.

Definition introspect_write_entry (trusted : bool) (v : sd_bus_vtable) : list Z :=
  let hidden := has (vtable_flags v) SD_BUS_VTABLE_HIDDEN in
  match v with
  | VtableStart flags _ =>
      if has flags SD_BUS_VTABLE_DEPRECATED then lines "  <annotation name=`org.freedesktop.DBus.Deprecated` value=`true`/>|" else []
  | VtableMethod _ member signature result _ _ =>
      if hidden then [] else
      lines "  <method name=`" ++ member ++ lines "`>|" ++
      write_arguments (strempty signature) (Some "in"%string) ++ write_arguments (strempty result) (Some "out"%string) ++
      introspect_write_flags trusted v ++ lines "  </method>|"
  | VtableProperty writable _ member signature _ _ _ =>
      if hidden then [] else
      lines "  <property name=`" ++ member ++ lines "` type=`" ++ signature ++ lines "` access=`" ++
      bs (if writable then "readwrite" else "read")%string ++ lines "`>|" ++
      introspect_write_flags trusted v ++ lines "  </property>|"
  | VtableSignal _ member signature =>
      if hidden then [] else
      lines "  <signal name=`" ++ member ++ lines "`>|" ++ write_arguments (strempty signature) None ++
      introspect_write_flags trusted v ++ lines "  </signal>|"
  | VtableOther _ _ => []
  end.

Definition introspect_write_interface (trusted : bool) (v : vtable_pointer) : list Z :=
  concat (introspect_write_entry trusted <$> vt_entries v).
