(* ===== verification/Objects.v ===== *)
(** * Objects: method calls and properties ([src/libsystemd/sd-bus/bus-objects.c])

    How a method call that came in finds its receiver: the callbacks, vtables and
    built-in interfaces at the path, then those that are fallbacks at the paths above.
    What belongs to the user - callbacks, the memory behind userdata, the privileges
    the kernel reports of a sender - are arguments. *)
From S2P Require Import Prelude BusType Signature HexDecOct Names BusError MsgState MsgWrite MsgFields MsgRead MsgCopy Bus Sasl Transport Call ObjTree Introspect.

(** ** The state *)

(** [current_slot], [current_handler], [current_userdata] *)
Record current := Current { cur_slot : nat; cur_handler : option nat; cur_userdata : Z }.

(** The connection, its objects, the message at hand *)
Record obj_world := ObjWorld {
  ow_world : world;
  ow_registry : registry;
  ow_message : message;
  ow_current : option current }.

Definition in_world {A} (f : stm world A) : stm obj_world A := fun o =>
  let '(r, w) := f (ow_world o) in (r, ObjWorld w (ow_registry o) (ow_message o) (ow_current o)).
Definition in_registry {A} (f : stm registry A) : stm obj_world A := fun o =>
  let '(r, g) := f (ow_registry o) in (r, ObjWorld (ow_world o) g (ow_message o) (ow_current o)).
Definition in_message {A} (f : stm message A) : stm obj_world A := fun o =>
  let '(r, m) := f (ow_message o) in (r, ObjWorld (ow_world o) (ow_registry o) m (ow_current o)).
Definition set_current (c : option current) : stm obj_world unit := fun o =>
  (Ok tt, ObjWorld (ow_world o) (ow_registry o) (ow_message o) c).
Definition ogets {A} (f : obj_world -> A) : stm obj_world A := fun o => (Ok (f o), o).

Definition modified : stm obj_world bool := ogets (fun o => nodes_modified (ow_registry o)).
Definition iteration : stm obj_world Z := ogets (fun o => iteration_counter (conn (ow_world o))).

(** Whether a function failed, for the caller to decide; assertions are not caught. *)
Definition caught {S A} (f : stm S A) : stm S (res A) := fun s =>
  match f s with
  | (Err EASSERT, s) => (Err EASSERT, s)
  | (r, s) => (Ok r, s)
  end.

(** A message that is being written, besides *)
Definition in_reply {A} (f : stm message A) : stm (obj_world * message) A := fun '(o, m) =>
  let '(r, m) := f m in (r, (o, m)).
Definition beside {A} (f : stm obj_world A) : stm (obj_world * message) A := fun '(o, m) =>
  let '(r, o) := f o in (r, (o, m)).

(** [f] on a message that was just made; the message it leaves *)
Definition writing {A} (m : message) (f : stm (obj_world * message) A) : stm obj_world (A * message) := fun o =>
  match f (o, m) with
  | (Ok a, (o, m)) => (Ok (a, m), o)
  | (Err e, (o, _)) => (Err e, o)
  end.

Definition slot_userdata (i : nat) : stm obj_world Z := s ← in_registry (object_slot_at i); mret (os_userdata s).

(** The vtable of a slot: interface, fallback, entries, find function *)
Definition vtable_of (i : nat) : stm obj_world (cstr * bool * vtable_pointer * option nat) :=
  s ← in_registry (object_slot_at i);
  match os_data s with
  | BUS_NODE_VTABLE _ interface fallback vtable find => mret (interface, fallback, vtable, find)
  | _ => sfail EASSERT
  end.

(** The entry of a member *)
Definition entry_of (x : vtable_member) : stm obj_world sd_bus_vtable :=
  '(_, _, vtable, _) ← vtable_of (m_parent x);
  slift (match vt_entries vtable !! m_vtable x with Some v => Ok v | None => Err EASSERT end).

(** The tables of members: [true] the methods *)
Definition members (methods : bool) (g : registry) : gmap member_key vtable_member :=
  if methods then vtable_methods g else vtable_properties g.

Definition set_last_iteration (methods : bool) (key : member_key) (n : Z) : stm registry unit :=
  let f x := VtableMember (m_parent x) n (m_vtable x) in
  smod (fun g => if methods then set_methods (alter f key (vtable_methods g)) g
                 else set_properties (alter f key (vtable_properties g)) g).

Definition SD_BUS_ERROR_UNKNOWN_INTERFACE : cstr := bs "org.freedesktop.DBus.Error.UnknownInterface".
Definition SD_BUS_ERROR_UNKNOWN_PROPERTY : cstr := bs "org.freedesktop.DBus.Error.UnknownProperty".
Definition SD_BUS_ERROR_PROPERTY_READ_ONLY : cstr := bs "org.freedesktop.DBus.Error.PropertyReadOnly".

Definition CAP_SYS_ADMIN : Z := 21.
Definition CAPABILITY_SHIFT (x : Z) : Z := Z.land (Z.shiftr x 40) 65535.

Section Objects.
Context `{ErrnoTable} (maps : list sd_bus_error_map) (dup_fd : Z -> res Z).
(** [bus_ensure_running] where the calls are made *)
Context (ensure_running : stm world unit).

(** The functions of the user, by number: handlers of nodes and of methods; find
    functions, with what they found; functions that append or read the value of a
    property, which is in the message at hand; enumerators of paths *)
Context (run_callback : nat -> Z -> stm obj_world (res Z * option sd_bus_error)).
Context (run_find : nat -> obj_path -> cstr -> Z -> stm obj_world (res Z * Z * option sd_bus_error)).
Context (run_get : nat -> obj_path -> cstr -> cstr -> Z -> stm (obj_world * message) (res Z * option sd_bus_error)).
Context (run_set : nat -> obj_path -> cstr -> cstr -> Z -> stm obj_world (res Z * option sd_bus_error)).
Context (run_enumerator : nat -> obj_path -> Z -> stm obj_world (res Z * list obj_path * option sd_bus_error)).

(** The memory of the user: the value of a basic type at an address, [None] a NULL
    string; a list of strings *)
Context (load : Z -> Z -> stm obj_world (option basic_value)) (load_strv : Z -> stm obj_world (list cstr)).
Context (store : Z -> Z -> basic_value -> stm obj_world unit).

(** [sd_bus_query_sender_privilege] *)
Context (sd_bus_query_sender_privilege : message -> Z -> res bool).

(** What a function of the user returned and the error it filled in, as a result *)
Definition user_result (r : res Z) (error : option sd_bus_error) : res Z :=
  match r with
  | Err e => Err e
  | Ok n => match sd_bus_error_get_errno maps error with
            | Some e => if sd_bus_error_is_set error then Err e else Ok n
            | None => Ok n
            end
  end.

(** ** Replies *)
Definition send (m : message) : stm obj_world Z :=
  '(c, _) ← in_world (with_message (sd_bus_send ensure_running dup_fd false) m); mret c.

Definition maybe_reply (r : res Z) (error : option sd_bus_error) : stm obj_world Z :=
  m ← ogets ow_message;
  r ← in_world (bus_maybe_reply_error ensure_running dup_fd m r error);
  slift r.

Definition reply_errorf (name text : cstr) : stm obj_world bool :=
  m ← ogets ow_message; in_world (sd_bus_reply_method_errorf ensure_running dup_fd maps m name text).

(** Whether something was sent, as the code's result *)
Definition sent_result (b : bool) : Z := Z.b2z b.

Definition new_method_return : stm obj_world message :=
  m ← ogets ow_message; b ← in_world bget; slift (sd_bus_message_new_method_return (bus b) m).

(** [sd_bus_reply_method_return(call, NULL)] *)
Definition sd_bus_reply_method_return : stm obj_world bool :=
  m ← ogets ow_message;
  sreq (sealed m) EPERM;;
  sreq (h_type (hdr m) =? SD_BUS_MESSAGE_METHOD_CALL) EINVAL;;
  b ← in_world bget;
  sreq (BUS_IS_OPEN (state b)) ENOTCONN;;
  if has_flag BUS_MESSAGE_NO_REPLY_EXPECTED m then mret false
  else r ← new_method_return; send r;; mret true.

(** ** Calling the user *)

(** A slot that is in use is kept for the time of a call. *)
Definition with_slot {A} (i : nat) (handler : option nat) (u : Z) (f : stm obj_world A) : stm obj_world A :=
  in_registry (object_slot_ref i);;
  set_current (Some (Current i handler u));;
  r ← f;
  set_current None;;
  in_registry (object_slot_unref i);;
  mret r.

(** [node_vtable_get_userdata]: [None] where there is no such object *)
Definition node_vtable_get_userdata (p : obj_path) (i : nat) : stm obj_world (res (option Z) * option sd_bus_error) :=
  u ← slot_userdata i;
  '(interface, _, _, find) ← vtable_of i;
  match find with
  | None => mret (Ok (Some u), None)
  | Some f =>
      '(r, found_u, error) ← with_slot i None u (run_find f p interface u);
      mret (match user_result r error with
            | Err e => Err e
            | Ok n => if n =? 0 then Ok None else Ok (Some found_u)
            end, error)
  end.

Definition vtable_offset (v : sd_bus_vtable) : Z :=
  match v with VtableMethod _ _ _ _ _ o => o | VtableProperty _ _ _ _ _ _ o => o | _ => 0 end.

(** [vtable_method_convert_userdata], [vtable_property_convert_userdata] *)
Definition convert_userdata (v : sd_bus_vtable) (u : Z) : Z := u + vtable_offset v.

(** ** The callbacks of a node *)
Definition set_callback_iteration (i : nat) (n : Z) : stm registry unit :=
  smod (fun g => set_object_slots (alter (fun s =>
    set_os_data (match os_data s with BUS_NODE_CALLBACK p fb c _ => BUS_NODE_CALLBACK p fb c n | d => d end) s) i (object_slots g)) g).

(** [found] is [*found_object], passed on. *)
Fixpoint node_callbacks_run (l : list nat) (require_fallback found : bool) : stm obj_world (Z * bool) :=
  match l with
  | [] => mret (0, found)
  | i :: l =>
      md ← modified;
      if md : bool then mret (0, found)
      else
        s ← in_registry (object_slot_at i);
        match os_data s with
        | BUS_NODE_CALLBACK _ fallback callback last =>
            if require_fallback && negb fallback then node_callbacks_run l require_fallback found
            else
              n ← iteration;
              if last =? n then node_callbacks_run l require_fallback true
              else
                in_registry (set_callback_iteration i n);;
                in_message (sd_bus_message_rewind true);;
                '(r, error) ← with_slot i (Some callback) (os_userdata s) (run_callback callback (os_userdata s));
                r ← maybe_reply r error;
                if r =? 0 then node_callbacks_run l require_fallback true else mret (r, true)
        | _ => sfail EASSERT
        end
  end.

(** ** Methods *)

(** [check_access]: the error is filled in where access is denied. *)
Definition check_access (x : vtable_member) (key : member_key) : stm obj_world (res Z * option sd_bus_error) :=
  b ← in_world bget;
  if trusted b then mret (Ok 0, None)
  else
    v ← entry_of x;
    if has (vtable_flags v) SD_BUS_VTABLE_UNPRIVILEGED then mret (Ok 0, None)
    else
      '(_, _, vtable, _) ← vtable_of (m_parent x);
      let cap0 := CAPABILITY_SHIFT (vtable_flags v) in
      let cap1 := if cap0 =? 0 then CAPABILITY_SHIFT (default 0 (vtable_flags <$> head (vt_entries vtable))) else cap0 in
      let cap := if cap1 =? 0 then CAP_SYS_ADMIN else cap1 - 1 in
      m ← ogets ow_message;
      match sd_bus_query_sender_privilege m cap with
      | Err e => mret (Err e, None)
      | Ok true => mret (Ok 0, None)
      | Ok false =>
          let '(_, interface, member) := key in
          let '(r, error) := sd_bus_error_setf maps (Some SD_BUS_ERROR_NULL) (Some SD_BUS_ERROR_ACCESS_DENIED)
             (Some (bs "Access to " ++ interface ++ bs "." ++ member ++ bs "() not permitted.")) in
          mret (match r with Ok _ => Ok 0 | Err e => Err e end, error)
      end.

(** The fallback test that the callbacks of members begin with *)
Definition skipped (require_fallback : bool) (i : nat) : stm obj_world bool :=
  '(_, fallback, _, _) ← vtable_of i; mret (require_fallback && negb fallback).

Definition message_path : stm obj_world obj_path :=
  m ← ogets ow_message; slift (match path m with Some p => Ok p | None => Err EASSERT end).

Definition method_strings (v : sd_bus_vtable) : res (cstr * cstr * option nat) :=
  match v with
  | VtableMethod _ _ signature result handler _ => Ok (strempty signature, strempty result, handler)
  | _ => Err EASSERT
  end.

Definition method_callbacks_run (key : member_key) (x : vtable_member) (require_fallback found : bool) :
    stm obj_world (Z * bool) :=
  let '(_, interface, member) := key in
  skip ← skipped require_fallback (m_parent x);
  if skip : bool then mret (0, found)
  else
    '(r, error) ← check_access x key;
    match r with
    | Err e => n ← maybe_reply (Err e) error; mret (n, found)
    | Ok _ =>
        p ← message_path;
        '(r, error) ← node_vtable_get_userdata p (m_parent x);
        match r with
        | Err e => n ← maybe_reply (Err e) error; mret (n, found)
        | Ok None => n ← maybe_reply (Ok 0) error; mret (n, found)
        | Ok (Some u) =>
            md ← modified;
            if md : bool then mret (0, found)
            else
              v ← entry_of x;
              let u := convert_userdata v u in
              n ← iteration;
              if m_last_iteration x =? n then mret (0, true)
              else
                in_registry (set_last_iteration true key n);;
                in_message (sd_bus_message_rewind true);;
                m ← ogets ow_message;
                let signature := sd_bus_message_get_signature m true in
                '(expected, result, handler) ← slift (method_strings v);
                if negb (streq expected signature) then
                  b ← reply_errorf SD_BUS_ERROR_INVALID_ARGS
                        (bs "Invalid arguments '" ++ signature ++ bs "' to call " ++ interface ++ bs "." ++ member ++
                         bs "(), expecting '" ++ expected ++ bs "'.");
                  mret (sent_result b, true)
                else
                  in_message (smod (set_enforced_reply_signature (Some result)));;
                  match handler with
                  | Some h =>
                      '(r, error) ← with_slot (m_parent x) (Some h) u (run_callback h u);
                      n ← maybe_reply r error;
                      mret (n, true)
                  | None => sd_bus_reply_method_return;; mret (1, true)
                  end
        end
    end.

(** ** Properties *)

(** The value behind the userdata, as the type says, is appended. *)
Definition append_loaded (type u : Z) : stm (obj_world * message) Z :=
  v ← beside (load type u);
  p ← (if in_set type [SD_BUS_TYPE_STRING; SD_BUS_TYPE_SIGNATURE]
       then mret (match v with None => Some (BStr []) | _ => v end)
       else if type =? SD_BUS_TYPE_OBJECT_PATH then sreq (negb (is_none v)) EASSERT;; mret v
       else mret v);
  in_reply (sd_bus_message_append_basic dup_fd type p);;
  mret 1.

(** [invoke_property_get] on a property's signature, get function and userdata *)
Definition invoke_property_get (i : nat) (v : sd_bus_vtable) (p : obj_path) (interface : cstr) (u : Z) :
    stm (obj_world * message) (res Z * option sd_bus_error) :=
  match v with
  | VtableProperty _ _ member signature get _ _ =>
      match get with
      | Some f =>
          beside (in_registry (object_slot_ref i));;
          beside (set_current (Some (Current i None u)));;
          '(r, error) ← run_get f p interface member u;
          beside (set_current None);;
          beside (in_registry (object_slot_unref i));;
          mret (user_result r error, error)
      | None =>
          r ← caught
            (if streq signature (bs "as") then
               l ← beside (load_strv u); in_reply (sd_bus_message_append_strv dup_fd l);; mret 1
             else
               sreq (signature_is_single signature false) EASSERT;;
               sreq (bus_type_is_basic (deref signature)) EASSERT;;
               append_loaded (deref signature) u);
          mret (r, None)
      end
  | _ => sfail EASSERT
  end.

(** [invoke_property_set]; the value is read from the message at hand. *)
Definition invoke_property_set (i : nat) (v : sd_bus_vtable) (p : obj_path) (interface : cstr) (u : Z) :
    stm obj_world (res Z * option sd_bus_error) :=
  match v with
  | VtableProperty _ _ member signature _ set _ =>
      match set with
      | Some f =>
          '(r, error) ← with_slot i None u (run_set f p interface member u);
          mret (user_result r error, error)
      | None =>
          sreq (signature_is_single signature false) EASSERT;;
          sreq (bus_type_is_basic (deref signature)) EASSERT;;
          r ← caught (in_message (sd_bus_message_read_basic (deref signature)));
          match r with
          | Err e => mret (Err e, None)
          | Ok None => sfail EASSERT
          | Ok (Some x) => store (deref signature) u x;; mret (Ok 1, None)
          end
      end
  | _ => sfail EASSERT
  end.

(** A step that may fail with an error filled in; [plain] for one that fills none in *)
Definition on_ok {S A B} (f : stm S (res A * option sd_bus_error)) (k : A -> stm S (res B * option sd_bus_error)) :
    stm S (res B * option sd_bus_error) :=
  '(r, error) ← f;
  match r with Ok a => k a | Err e => mret (Err e, error) end.

Definition plain {S A} (f : stm S A) : stm S (res A * option sd_bus_error) := r ← caught f; mret (r, None).

Definition done_with {S A} (a : A) : stm S (res A * option sd_bus_error) := mret (Ok a, None).

(** The end of a handler: an error is answered. *)
Definition answered {A} (f : stm obj_world (res A * option sd_bus_error)) (found : bool)
    (k : A -> stm obj_world (Z * bool)) : stm obj_world (Z * bool) :=
  '(r, error) ← f;
  match r with Ok a => k a | Err e => n ← maybe_reply (Err e) error; mret (n, found) end.

(** [vtable_property_get_userdata] *)
Definition vtable_property_get_userdata (p : obj_path) (x : vtable_member) : stm obj_world (res (option Z) * option sd_bus_error) :=
  on_ok (node_vtable_get_userdata p (m_parent x)) (fun u =>
    match u with
    | None => done_with None
    | Some u => md ← modified; if md : bool then done_with None else v ← entry_of x; done_with (Some (convert_userdata v u))
    end).

Definition property_strings (v : sd_bus_vtable) : res (bool * cstr) :=
  match v with VtableProperty writable _ _ signature _ _ _ => Ok (writable, signature) | _ => Err EASSERT end.

Definition property_get (x : vtable_member) (key : member_key) (v : sd_bus_vtable) (signature : cstr) (p : obj_path) (u : Z)
    (reply : message) : stm obj_world (Z * bool) :=
  let '(_, interface, _) := key in
  '(r, error, reply) ← writing reply
    (in_reply (sd_bus_message_open_container SD_BUS_TYPE_VARIANT signature);;
     invoke_property_get (m_parent x) v p interface u);
  answered (mret (r, error)) true (fun _ : Z =>
    md ← modified;
    if md : bool then mret (0, true)
    else
      '(_, reply) ← writing reply (in_reply sd_bus_message_close_container);
      send reply;;
      mret (1, true)).

Definition property_set (x : vtable_member) (key : member_key) (v : sd_bus_vtable) (writable : bool) (signature : cstr) (p : obj_path)
    (u : Z) (reply : message) : stm obj_world (Z * bool) :=
  let '(_, interface, member) := key in
  if negb writable then
    b ← reply_errorf SD_BUS_ERROR_PROPERTY_READ_ONLY (bs "Property '" ++ member ++ bs "' is not writable.");
    mret (sent_result b, true)
  else
    n ← iteration;
    if m_last_iteration x =? n then mret (0, true)
    else
      in_registry (set_last_iteration false key n);;
      m ← ogets ow_message;
      t ← slift (sd_bus_message_peek_type m);
      let '(type, contents) := default (0, None) t in
      if negb (type =? SD_BUS_TYPE_VARIANT) || negb (streq (strempty contents) signature) then
        b ← reply_errorf SD_BUS_ERROR_INVALID_ARGS
              (bs "Incorrect parameters for property '" ++ member ++ bs "', expected '" ++ signature ++ bs "', got '" ++ strempty contents ++ bs "'.");
        mret (sent_result b, true)
      else
        in_message (sd_bus_message_enter_container SD_BUS_TYPE_VARIANT (Some signature));;
        answered (check_access x key) true (fun _ : Z =>
          answered (invoke_property_set (m_parent x) v p interface u) true (fun _ : Z =>
            md ← modified;
            if md : bool then mret (0, true)
            else
              in_message sd_bus_message_exit_container;;
              send reply;;
              mret (1, true))).

Definition property_get_set_callbacks_run (key : member_key) (x : vtable_member) (require_fallback is_get found : bool) :
    stm obj_world (Z * bool) :=
  skip ← skipped require_fallback (m_parent x);
  if skip : bool then mret (0, found)
  else
    p ← message_path;
    answered (vtable_property_get_userdata p x) found (fun u =>
      match u with
      | None => n ← maybe_reply (Ok 0) None; mret (n, found)
      | Some u =>
          md ← modified;
          if md : bool then mret (0, found)
          else
            v ← entry_of x;
            '(writable, signature) ← slift (property_strings v);
            reply ← new_method_return;
            if is_get then property_get x key v signature p u reply
            else property_set x key v writable signature p u reply
      end).

Definition vtable_append_one_property (i : nat) (v : sd_bus_vtable) (p : obj_path) (interface : cstr) (u : Z) :
    stm (obj_world * message) (res Z * option sd_bus_error) :=
  match v with
  | VtableProperty _ _ member signature _ _ _ =>
      on_ok (plain (in_reply (sd_bus_message_open_container SD_BUS_TYPE_DICT_ENTRY (bs "sv");;
                              sd_bus_message_append_basic dup_fd SD_BUS_TYPE_STRING (Some (BStr member));;
                              sd_bus_message_open_container SD_BUS_TYPE_VARIANT signature))) (fun _ =>
      on_ok (invoke_property_get i v p interface (convert_userdata v u)) (fun _ =>
        md ← beside modified;
        if md : bool then done_with 0
        else on_ok (plain (in_reply (sd_bus_message_close_container;; sd_bus_message_close_container))) (fun _ => done_with 0)))
  | _ => sfail EASSERT
  end.

Fixpoint append_properties_loop (i : nat) (l : list sd_bus_vtable) (p : obj_path) (interface : cstr) (u : Z) :
    stm (obj_world * message) (res Z * option sd_bus_error) :=
  match l with
  | [] => done_with 1
  | v :: l =>
      if negb (vtable_type_property v) || has (vtable_flags v) SD_BUS_VTABLE_HIDDEN || has (vtable_flags v) SD_BUS_VTABLE_PROPERTY_EXPLICIT
      then append_properties_loop i l p interface u
      else
        on_ok (vtable_append_one_property i v p interface u) (fun _ =>
          md ← beside modified;
          if md : bool then done_with 0 else append_properties_loop i l p interface u)
  end.

Definition first_flags (vtable : vtable_pointer) : Z := default 0 (vtable_flags <$> head (vt_entries vtable)).

Definition vtable_append_all_properties (i : nat) (p : obj_path) (u : Z) : stm (obj_world * message) (res Z * option sd_bus_error) :=
  '(interface, _, vtable, _) ← beside (vtable_of i);
  if has (first_flags vtable) SD_BUS_VTABLE_HIDDEN then done_with 1
  else append_properties_loop i (tail (vt_entries vtable)) p interface u.

(** The loop over the vtables: [inl] the result it returns with, [inr] [found_object]
    and [found_interface] at its end *)
Fixpoint get_all_loop (l : list nat) (require_fallback : bool) (iface : option cstr) (found found_interface : bool) :
    stm (obj_world * message) (Z * bool + bool * bool) :=
  match l with
  | [] => mret (inr (found, found_interface))
  | i :: l =>
      '(interface, fallback, _, _) ← beside (vtable_of i);
      if require_fallback && negb fallback then get_all_loop l require_fallback iface found found_interface
      else
        p ← beside message_path;
        '(r, error) ← beside (node_vtable_get_userdata p i);
        match r with
        | Err e => n ← beside (maybe_reply (Err e) error); mret (inl (n, found))
        | Ok u =>
            md ← beside modified;
            if md : bool then mret (inl (0, found))
            else
              match u with
              | None => get_all_loop l require_fallback iface found found_interface
              | Some u =>
                  if match iface with Some s => negb (streq interface s) | None => false end
                  then get_all_loop l require_fallback iface true found_interface
                  else
                    '(r, error) ← vtable_append_all_properties i p u;
                    match r with
                    | Err e => n ← beside (maybe_reply (Err e) error); mret (inl (n, true))
                    | Ok _ =>
                        md ← beside modified;
                        if md : bool then mret (inl (0, true)) else get_all_loop l require_fallback iface true true
                    end
              end
        end
  end.

Definition standard_interface (iface : option cstr) : bool :=
  match iface with
  | None => true
  | Some s => existsb (streq s) [bs "org.freedesktop.DBus.Properties"; bs "org.freedesktop.DBus.Peer"; bs "org.freedesktop.DBus.Introspectable"]
  end.


Definition property_get_all_callbacks_run (l : list nat) (require_fallback : bool) (iface : option cstr) (found : bool) :
    stm obj_world (Z * bool) :=
  reply ← new_method_return;
  '(e, reply) ← writing reply
    (in_reply (sd_bus_message_open_container SD_BUS_TYPE_ARRAY (bs "{sv}"));;
     get_all_loop l require_fallback iface found (standard_interface iface));
  match e with
  | inl r => mret r
  | inr (found, found_interface) =>
      if negb found then mret (0, found)
      else if negb found_interface then
        reply_errorf SD_BUS_ERROR_UNKNOWN_INTERFACE (bs "Unknown interface '" ++ strempty iface ++ bs "'.");;
        mret (1, found)
      else
        '(_, reply) ← writing reply (in_reply sd_bus_message_close_container);
        send reply;;
        mret (1, found)
  end.

(** ** Children

    A set of paths is the list of its elements as they came; [set_order] gives them in
    the order in which the hash table does. *)
Context (set_order : list obj_path -> list obj_path).

Definition set_add (k : obj_path) (s : list obj_path) : list obj_path := if existsb (streq k) s then s else s ++ [k].

(** The children that an enumerator gave: an invalid one fails the whole, the ones
    before it have been added. *)
Fixpoint add_children (prefix : obj_path) (l s : list obj_path) : res (list obj_path) :=
  match l with
  | [] => Ok s
  | k :: l =>
      if negb (object_path_is_valid k) then Err EINVAL
      else match object_path_startswith k prefix with
           | None => add_children prefix l s
           | Some _ => add_children prefix l (set_add k s)
           end
  end.

Fixpoint add_enumerated_to_set (prefix : obj_path) (l : list nat) (s : list obj_path) :
    stm obj_world (res (list obj_path) * option sd_bus_error) :=
  match l with
  | [] => done_with s
  | i :: l =>
      md ← modified;
      if md : bool then done_with s
      else
        t ← in_registry (object_slot_at i);
        match os_data t with
        | BUS_NODE_ENUMERATOR _ callback =>
            '(r, children, error) ← with_slot i None (os_userdata t) (run_enumerator callback prefix (os_userdata t));
            match user_result r error with
            | Err e => mret (Err e, error)
            | Ok _ =>
                match add_children prefix children s with
                | Err e => mret (Err e, error)
                | Ok s => add_enumerated_to_set prefix l s
                end
            end
        | _ => sfail EASSERT
        end
  end.

(** [CHILDREN_RECURSIVE]; nobody asks for [CHILDREN_SUBHIERARCHIES]. [fuel] bounds the
    depth. *)
Fixpoint add_subtree_to_set (fuel : nat) (prefix : obj_path) (n : node) (recursive : bool) (s : list obj_path) :
    stm obj_world (res (list obj_path) * option sd_bus_error) :=
  match fuel with
  | O => sfail EASSERT
  | S fuel =>
      on_ok (add_enumerated_to_set prefix (n_enumerators n) s) (fun s =>
        md ← modified;
        if md : bool then done_with s
        else
          (fix children (l : list obj_path) (s : list obj_path) : stm obj_world (res (list obj_path) * option sd_bus_error) :=
             match l with
             | [] => done_with s
             | c :: l =>
                 match object_path_startswith c prefix with
                 | None => children l s
                 | Some _ =>
                     let s := set_add c s in
                     m ← in_registry (node_at c);
                     if recursive && bool_decide (n_object_managers m = []) then
                       on_ok (add_subtree_to_set fuel prefix m recursive s) (fun s =>
                         md ← modified;
                         if md : bool then done_with s else children l s)
                     else children l s
                 end
             end) (n_child n) s)
  end.

Definition get_child_nodes (prefix : obj_path) (n : node) (recursive : bool) :
    stm obj_world (res (list obj_path) * option sd_bus_error) :=
  g ← ogets ow_registry;
  add_subtree_to_set (S (size (nodes g))) prefix n recursive [].

(** Whether anything is at the node itself *)
Fixpoint vtables_exist (l : list nat) (p : obj_path) (require_fallback : bool) : stm obj_world (res bool) :=
  match l with
  | [] => mret (Ok false)
  | i :: l =>
      '(_, fallback, _, _) ← vtable_of i;
      if require_fallback && negb fallback then vtables_exist l p require_fallback
      else
        '(r, _) ← node_vtable_get_userdata p i;
        match r with
        | Err e => mret (Err e)
        | Ok (Some _) => mret (Ok true)
        | Ok None => md ← modified; if md : bool then mret (Ok false) else vtables_exist l p require_fallback
        end
  end.

Fixpoint callbacks_exist (l : list nat) (require_fallback : bool) : stm obj_world bool :=
  match l with
  | [] => mret false
  | i :: l =>
      s ← in_registry (object_slot_at i);
      match os_data s with
      | BUS_NODE_CALLBACK _ fallback _ _ => if require_fallback && negb fallback then callbacks_exist l require_fallback else mret true
      | _ => sfail EASSERT
      end
  end.

Definition bus_node_exists (n : node) (p : obj_path) (require_fallback : bool) : stm obj_world (res bool) :=
  if negb require_fallback && (negb (bool_decide (n_enumerators n = [])) || negb (bool_decide (n_object_managers n = [])))
  then mret (Ok true)
  else
    b ← callbacks_exist (n_callbacks n) require_fallback;
    if b : bool then mret (Ok true) else vtables_exist (n_vtables n) p require_fallback.

(** The loop over the vtables: [inl] the result it returns with, [inr] whether nothing
    was found, the interface that is open and the text *)
Fixpoint introspect_loop (l : list nat) (p : obj_path) (trusted require_fallback empty : bool) (previous : option cstr) (text : list Z) :
    stm obj_world (Z + bool * option cstr * list Z) :=
  match l with
  | [] => mret (inr (empty, previous, text))
  | i :: l =>
      '(interface, fallback, vtable, _) ← vtable_of i;
      if require_fallback && negb fallback then introspect_loop l p trusted require_fallback empty previous text
      else
        '(r, error) ← node_vtable_get_userdata p i;
        match r with
        | Err e => n ← maybe_reply (Err e) error; mret (inl n)
        | Ok u =>
            md ← modified;
            if md : bool then mret (inl 0)
            else
              match u with
              | None => introspect_loop l p trusted require_fallback empty previous text
              | Some _ =>
                  if has (first_flags vtable) SD_BUS_VTABLE_HIDDEN then introspect_loop l p trusted require_fallback false previous text
                  else
                    let text :=
                      if match previous with Some s => streq s interface | None => false end then text
                      else text ++ (if is_none previous then [] else lines " </interface>|") ++
                           lines " <interface name=`" ++ interface ++ lines "`>|" in
                    introspect_loop l p trusted require_fallback false (Some interface)
                      (text ++ introspect_write_interface trusted vtable)
              end
        end
  end.

(** [introspect_write_child_nodes] and [introspect_finish], and sending *)
Definition introspect_reply (text : list Z) (s : list obj_path) (p : obj_path) : stm obj_world (Z * bool) :=
  reply ← new_method_return;
  '(_, reply) ← writing reply (in_reply (sd_bus_message_append_basic dup_fd SD_BUS_TYPE_STRING
    (Some (BStr (text ++ introspect_write_child_nodes (set_order s) p ++ lines "</node>|")))));
  send reply;;
  mret (1, true).

Definition process_introspect (n : node) (require_fallback found : bool) : stm obj_world (Z * bool) :=
  p ← message_path;
  answered (get_child_nodes p n false) found (fun s =>
    md ← modified;
    if md : bool then mret (0, found)
    else
      b ← in_world bget;
      let text := introspect_begin ++
        introspect_write_default_interfaces (negb require_fallback && negb (bool_decide (n_object_managers n = []))) in
      e ← introspect_loop (n_vtables n) p (trusted b) require_fallback (bool_decide (s = [])) None text;
      match e with
      | inl r => mret (r, found)
      | inr (empty, previous, text) =>
          let text := text ++ (if is_none previous then [] else lines " </interface>|") in
          if empty : bool then
            r ← bus_node_exists n p require_fallback;
            match r with
            | Ok true => md ← modified; if md : bool then mret (0, found) else introspect_reply text s p
            | Ok false => r ← maybe_reply (Ok 0) None; mret (r, found)
            | Err e => r ← maybe_reply (Err e) None; mret (r, found)
            end
          else introspect_reply text s p
      end).

(** ** Managed objects *)

(** [sd_bus_message_append(m, "{sa{sv}}", interface, 0)] *)
Definition append_empty_interface (interface : cstr) : stm message unit :=
  sd_bus_message_open_container SD_BUS_TYPE_DICT_ENTRY (bs "sa{sv}");;
  sd_bus_message_append_basic dup_fd SD_BUS_TYPE_STRING (Some (BStr interface));;
  sd_bus_message_open_container SD_BUS_TYPE_ARRAY (bs "{sv}");;
  sd_bus_message_close_container;;
  sd_bus_message_close_container.

Definition builtin_interfaces : list cstr :=
  [bs "org.freedesktop.DBus.Peer"; bs "org.freedesktop.DBus.Introspectable"; bs "org.freedesktop.DBus.Properties";
   bs "org.freedesktop.DBus.ObjectManager"].

Fixpoint append_empty_interfaces (l : list cstr) : stm message unit :=
  match l with [] => mret tt | s :: l => append_empty_interface s;; append_empty_interfaces l end.

Definition open_object (p : obj_path) : stm message unit :=
  sd_bus_message_open_container SD_BUS_TYPE_DICT_ENTRY (bs "oa{sa{sv}}");;
  sd_bus_message_append_basic dup_fd SD_BUS_TYPE_OBJECT_PATH (Some (BStr p));;
  sd_bus_message_open_container SD_BUS_TYPE_ARRAY (bs "{sa{sv}}");;
  append_empty_interfaces builtin_interfaces.

Definition close_two : stm message unit := sd_bus_message_close_container;; sd_bus_message_close_container.

Definition open_interface (interface : cstr) : stm message unit :=
  sd_bus_message_open_container SD_BUS_TYPE_DICT_ENTRY (bs "sa{sv}");;
  sd_bus_message_append_basic dup_fd SD_BUS_TYPE_STRING (Some (BStr interface));;
  sd_bus_message_open_container SD_BUS_TYPE_ARRAY (bs "{sv}").

(** [inl] the result it returns with, [inr] the open interface and [found_something] *)
Fixpoint serialize_loop (l : list nat) (p : obj_path) (require_fallback : bool) (previous : option cstr) (found_something : bool) :
    stm (obj_world * message) (res (unit + option cstr * bool) * option sd_bus_error) :=
  match l with
  | [] => done_with (inr (previous, found_something))
  | i :: l =>
      '(interface, fallback, _, _) ← beside (vtable_of i);
      if require_fallback && negb fallback then serialize_loop l p require_fallback previous found_something
      else
        on_ok (beside (node_vtable_get_userdata p i)) (fun u =>
          md ← beside modified;
          if md : bool then done_with (inl tt)
          else
            match u with
            | None => serialize_loop l p require_fallback previous found_something
            | Some u =>
                on_ok (plain (in_reply
                  ((if found_something then mret tt else open_object p);;
                   (if match previous with Some s => streq s interface | None => false end then mret tt
                    else (if is_none previous then mret tt else close_two);; open_interface interface)))) (fun _ =>
                on_ok (vtable_append_all_properties i p u) (fun _ =>
                  md ← beside modified;
                  if md : bool then done_with (inl tt)
                  else serialize_loop l p require_fallback (Some interface) true))
            end)
  end.

Definition object_manager_serialize_path (prefix p : obj_path) (require_fallback : bool) :
    stm (obj_world * message) (res unit * option sd_bus_error) :=
  g ← beside (ogets ow_registry);
  match nodes g !! prefix with
  | None => done_with tt
  | Some n =>
      on_ok (serialize_loop (n_vtables n) p require_fallback None false) (fun e =>
        match e with
        | inl _ => done_with tt
        | inr (previous, found_something) =>
            on_ok (plain (in_reply ((if is_none previous then mret tt else close_two);; if found_something : bool then close_two else mret tt)))
              (fun _ => done_with tt)
        end)
  end.

Fixpoint serialize_prefixes (l : list obj_path) (p : obj_path) : stm (obj_world * message) (res unit * option sd_bus_error) :=
  match l with
  | [] => done_with tt
  | prefix :: l =>
      on_ok (object_manager_serialize_path prefix p true) (fun _ =>
        md ← beside modified;
        if md : bool then done_with tt else serialize_prefixes l p)
  end.

Definition object_manager_serialize_path_and_fallbacks (p : obj_path) : stm (obj_world * message) (res unit * option sd_bus_error) :=
  on_ok (object_manager_serialize_path p p false) (fun _ =>
    md ← beside modified;
    if md : bool then done_with tt else serialize_prefixes (path_prefixes p) p).

(** [SET_FOREACH]; the result is [false] when the nodes were modified. *)
Fixpoint serialize_all (l : list obj_path) : stm (obj_world * message) (res bool * option sd_bus_error) :=
  match l with
  | [] => done_with true
  | p :: l =>
      on_ok (object_manager_serialize_path_and_fallbacks p) (fun _ =>
        md ← beside modified;
        if md : bool then done_with false else serialize_all l)
  end.

Definition process_get_managed_objects (n : node) (require_fallback found : bool) : stm obj_world (Z * bool) :=
  if require_fallback || bool_decide (n_object_managers n = []) then mret (0, found)
  else
    p ← message_path;
    answered (get_child_nodes p n true) found (fun s =>
      md ← modified;
      if md : bool then mret (0, found)
      else
        reply ← new_method_return;
        '(r, error, reply) ← writing reply
          (in_reply (sd_bus_message_open_container SD_BUS_TYPE_ARRAY (bs "{oa{sa{sv}}}"));;
           serialize_all (set_order s));
        answered (mret (r, error)) found (fun complete : bool =>
          if negb complete then mret (0, found)
          else
            '(_, reply) ← writing reply (in_reply sd_bus_message_close_container);
            send reply;;
            mret (1, found))).

(** ** Dispatch *)

(** [sd_bus_message_read] of a string at the top of the body *)
Definition read_string : stm message cstr :=
  v ← sd_bus_message_read_basic SD_BUS_TYPE_STRING;
  match v with Some (BStr s) => mret s | _ => sfail EASSERT end.

(** A part of the dispatch; [next] is what follows when it answered nothing. *)
Definition try_next (f : stm obj_world (Z * bool)) (next : bool -> stm obj_world (Z * bool)) : stm obj_world (Z * bool) :=
  '(r, found) ← f;
  if negb (r =? 0) then mret (r, found) else next found.

Definition unless_modified (found : bool) (f : stm obj_world (Z * bool)) : stm obj_world (Z * bool) :=
  md ← modified; if md : bool then mret (0, found) else f.

Definition invalid_args (text : string) (found : bool) : stm obj_world (Z * bool) :=
  b ← reply_errorf SD_BUS_ERROR_INVALID_ARGS (bs text); mret (sent_result b, found).

(** The built-in interfaces *)
Definition run_builtin (n : node) (p : obj_path) (interface member : cstr) (require_fallback found : bool) : stm obj_world (Z * bool) :=
  m ← ogets ow_message;
  if streq interface (bs "org.freedesktop.DBus.Properties") then
    let get := streq member (bs "Get") in
    if get || streq member (bs "Set") then
      in_message (sd_bus_message_rewind true);;
      r ← caught (in_message (i ← read_string; j ← read_string; mret (i, j)));
      match r with
      | Err _ => invalid_args "Expected interface and member parameters" found
      | Ok (i, j) =>
          g ← ogets ow_registry;
          match vtable_properties g !! (p, i, j) with
          | None => mret (0, found)
          | Some x => property_get_set_callbacks_run (p, i, j) x require_fallback get found
          end
      end
    else if streq member (bs "GetAll") then
      in_message (sd_bus_message_rewind true);;
      r ← caught (in_message read_string);
      match r with
      | Err _ => invalid_args "Expected interface parameter" found
      | Ok i => property_get_all_callbacks_run (n_vtables n) require_fallback (if bool_decide (i = []) then None else Some i) found
      end
    else mret (0, found)
  else if sd_bus_message_is_method_call m (Some (bs "org.freedesktop.DBus.Introspectable")) (Some (bs "Introspect")) then
    if negb (bool_decide (sd_bus_message_get_signature m true = [])) then invalid_args "Expected no parameters" found
    else process_introspect n require_fallback found
  else if sd_bus_message_is_method_call m (Some (bs "org.freedesktop.DBus.ObjectManager")) (Some (bs "GetManagedObjects")) then
    if negb (bool_decide (sd_bus_message_get_signature m true = [])) then invalid_args "Expected no parameters" found
    else process_get_managed_objects n require_fallback found
  else mret (0, found).

Definition object_exists (n : node) (require_fallback found : bool) : stm obj_world (Z * bool) :=
  if found then mret (0, found)
  else
    p ← message_path;
    r ← bus_node_exists n p require_fallback;
    match r with
    | Err e => r ← maybe_reply (Err e) None; mret (r, found)
    | Ok b => md ← modified; mret (0, if md : bool then found else b)
    end.

Definition object_find_and_run (p : obj_path) (require_fallback found : bool) : stm obj_world (Z * bool) :=
  g ← ogets ow_registry;
  match nodes g !! p with
  | None => mret (0, found)
  | Some n =>
      try_next (node_callbacks_run (n_callbacks n) require_fallback found) (fun found =>
      unless_modified found
        (m ← ogets ow_message;
         match interface m, member m with
         | Some i, Some mem =>
             try_next
               (g ← ogets ow_registry;
                match vtable_methods g !! (p, i, mem) with
                | None => mret (0, found)
                | Some x => method_callbacks_run (p, i, mem) x require_fallback found
                end) (fun found =>
             unless_modified found
               (try_next (run_builtin n p i mem require_fallback found) (fun found =>
                unless_modified found (object_exists n require_fallback found))))
         | _, _ => mret (0, found)
         end))
  end.

(** The path itself, then the fallbacks at its prefixes *)
Fixpoint run_prefixes (l : list obj_path) (found : bool) : stm obj_world (Z * bool) :=
  match l with
  | [] => mret (0, found)
  | p :: l => unless_modified found (try_next (object_find_and_run p true found) (run_prefixes l))
  end.

(** The nodes may be modified by a callback again and again: [rounds] bounds that. *)
Fixpoint process_object_loop (rounds : nat) (p : obj_path) (found : bool) : stm obj_world (Z * bool) :=
  match rounds with
  | O => sfail EASSERT
  | S rounds =>
      in_registry (smod (set_nodes_modified false));;
      try_next (object_find_and_run p false found) (fun found =>
      try_next (run_prefixes (path_prefixes p) found) (fun found =>
      md ← modified;
      if md : bool then process_object_loop rounds p found else mret (0, found)))
  end.

Definition bus_process_object (rounds : nat) : stm obj_world Z :=
  b ← in_world bget;
  m ← ogets ow_message;
  g ← ogets ow_registry;
  if is_monitor b then mret 0
  else if negb (h_type (hdr m) =? SD_BUS_MESSAGE_METHOD_CALL) then mret 0
  else if bool_decide (nodes g = ∅) then mret 0
  else if bus_client b && is_none (destination m) then mret 0
  else
    p ← message_path;
    sreq (negb (is_none (member m))) EASSERT;;
    '(r, found) ← process_object_loop rounds p false;
    if negb (r =? 0) then mret r
    else if negb found then mret 0
    else
      m ← ogets ow_message;
      (if sd_bus_message_is_method_call m (Some (bs "org.freedesktop.DBus.Properties")) (Some (bs "Get")) ||
          sd_bus_message_is_method_call m (Some (bs "org.freedesktop.DBus.Properties")) (Some (bs "Set"))
       then reply_errorf SD_BUS_ERROR_UNKNOWN_PROPERTY (bs "Unknown property or interface.")
       else reply_errorf SD_BUS_ERROR_UNKNOWN_METHOD
              (bs "Unknown method '" ++ strempty (member m) ++ bs "' or interface '" ++ strempty (interface m) ++ bs "'."));;
      mret 1.
End Objects.
