(* ===== verification/ObjDispatch.v ===== *)
(** * Objects: who receives a method call

    The order in which the code looks for a receiver, as a list computed from what is
    registered, and that the dispatch with its marks, its search for fallbacks and its
    rounds calls them in that order until one answers. *)
From S2P Require Import Prelude BusType Signature HexDecOct Names BusError MsgState MsgWrite MsgFields MsgRead Bus Sasl Transport Call ObjTree ObjTreeWf ObjSlots ObjRegistry Introspect Objects.

(** ** Marks

    [last_iteration] of callbacks and members tells who was called for this message. *)
Definition unmark (x : vtable_member) : vtable_member := VtableMember (m_parent x) 0 (m_vtable x).

Definition unmark_data (d : node_slot) : node_slot :=
  match d with BUS_NODE_CALLBACK p fb c _ => BUS_NODE_CALLBACK p fb c 0 | d => d end.

Definition unmark_slot (s : object_slot) : object_slot := set_os_data (unmark_data (os_data s)) s.

Definition unmarked (g : registry) : registry :=
  Registry (nodes g) (unmark <$> vtable_methods g) (unmark <$> vtable_properties g) (unmark_slot <$> object_slots g)
    (next_object_slot g) (nodes_modified g).

Lemma fmap_alter_same `{Countable K} {A B} (f : A -> B) (h : A -> A) (k : K) (m : gmap K A) :
  (forall a, f (h a) = f a) -> f <$> alter h k m = f <$> m.
Proof.
  intros Hf. apply map_eq. intros j. rewrite !lookup_fmap. destruct (decide (k = j)) as [->|Hne].
  - rewrite lookup_alter_eq. destruct (m !! j); cbn; [by rewrite Hf|done].
  - by rewrite lookup_alter_ne.
Qed.

Lemma mark_slot_unmarked i n g g' : set_callback_iteration i n g = (Ok tt, g') -> unmarked g' = unmarked g.
Proof.
  intros [= <-]. unfold unmarked. cbn. f_equal. apply fmap_alter_same. intros [ref fl u d]. by destruct d.
Qed.

Lemma mark_method_unmarked key n g g' : set_last_iteration true key n g = (Ok tt, g') -> unmarked g' = unmarked g.
Proof. intros [= <-]. unfold unmarked. cbn. f_equal. by apply fmap_alter_same. Qed.

Lemma unmarked_slot g g' i s :
  unmarked g = unmarked g' -> object_slots g !! i = Some s ->
  exists s', object_slots g' !! i = Some s' /\ os_userdata s' = os_userdata s /\ os_ref s' = os_ref s /\
    unmark_data (os_data s') = unmark_data (os_data s).
Proof.
  intros E Hi. pose proof (f_equal (fun g => object_slots g !! i) E) as H; cbn in H.
  rewrite !lookup_fmap, Hi in H. destruct (object_slots g' !! i) as [s'|]; [|done]. exists s'. split; [done|].
  injection H as H1 _ H2 H3. by rewrite H1, H2, H3.
Qed.

Lemma unmarked_no_slot g g' i : unmarked g = unmarked g' -> object_slots g !! i = None -> object_slots g' !! i = None.
Proof.
  intros E Hi. destruct (object_slots g' !! i) as [s|] eqn:Hs; [|done].
  destruct (unmarked_slot g' g i s (eq_sym E) Hs) as (? & ? & _). congruence.
Qed.

Lemma unmarked_method g g' key x :
  unmarked g = unmarked g' -> vtable_methods g !! key = Some x ->
  exists x', vtable_methods g' !! key = Some x' /\ m_parent x' = m_parent x /\ m_vtable x' = m_vtable x.
Proof.
  intros E Hx. pose proof (f_equal (fun g => vtable_methods g !! key) E) as H; cbn in H.
  rewrite !lookup_fmap, Hx in H. destruct (vtable_methods g' !! key) as [x'|]; [|done]. exists x'. split; [done|].
  by injection H as -> ->.
Qed.

Lemma unmarked_no_method g g' key : unmarked g = unmarked g' -> vtable_methods g !! key = None -> vtable_methods g' !! key = None.
Proof.
  intros E Hx. destruct (vtable_methods g' !! key) as [x|] eqn:Hs; [|done].
  destruct (unmarked_method g' g key x (eq_sym E) Hs) as (? & ? & _). congruence.
Qed.

(** ** Receivers *)
Inductive receiver :=
  | ObjectCallback (i : nat)
  | ObjectMethod (key : member_key).

(** Whether a registration at a node counts for the path asked for: those of a node
    above do when they are fallbacks. *)
Definition applicable (g : registry) (above : bool) (i : nat) : bool :=
  match os_data <$> object_slots g !! i with
  | Some (BUS_NODE_CALLBACK _ fallback _ _) | Some (BUS_NODE_VTABLE _ _ fallback _ _) => negb (above && negb fallback)
  | _ => false
  end.

Definition receivers_at (g : registry) (i mem : cstr) (above : bool) (q : obj_path) : list receiver :=
  match nodes g !! q with
  | None => []
  | Some n =>
      (ObjectCallback <$> List.filter (applicable g above) (n_callbacks n)) ++
      match vtable_methods g !! (q, i, mem) with
      | Some x => if applicable g above (m_parent x) then [ObjectMethod (q, i, mem)] else []
      | None => []
      end
  end.

(** At the path itself, then at the prefixes, the longest first *)
Definition receivers (g : registry) (p : obj_path) (i mem : cstr) : list receiver :=
  receivers_at g i mem false p ++ concat (map (receivers_at g i mem true) (path_prefixes p)).

Definition marked (g : registry) (r : receiver) : option Z :=
  match r with
  | ObjectCallback i =>
      match os_data <$> object_slots g !! i with Some (BUS_NODE_CALLBACK _ _ _ last) => Some last | _ => None end
  | ObjectMethod key => m_last_iteration <$> vtable_methods g !! key
  end.

Section Dispatch.
Context `{ErrnoTable} (maps : list sd_bus_error_map) (dup_fd : Z -> res Z) (ensure_running : stm world unit).
Context (run_callback : nat -> Z -> stm obj_world (res Z * option sd_bus_error)).
Context (run_find : nat -> obj_path -> cstr -> Z -> stm obj_world (res Z * Z * option sd_bus_error)).
Context (run_get : nat -> obj_path -> cstr -> cstr -> Z -> stm (obj_world * message) (res Z * option sd_bus_error)).
Context (run_set : nat -> obj_path -> cstr -> cstr -> Z -> stm obj_world (res Z * option sd_bus_error)).
Context (run_enumerator : nat -> obj_path -> Z -> stm obj_world (res Z * list obj_path * option sd_bus_error)).
Context (load : Z -> Z -> stm obj_world (option basic_value)) (load_strv : Z -> stm obj_world (list cstr)).
Context (store : Z -> Z -> basic_value -> stm obj_world unit).
Context (sd_bus_query_sender_privilege : message -> Z -> res bool).
Context (set_order : list obj_path -> list obj_path).

(** What the find functions find *)
Context (finds : nat -> obj_path -> cstr -> Z -> option Z).

Local Abbreviation maybe_reply := (maybe_reply dup_fd ensure_running).
Local Abbreviation reply_errorf := (reply_errorf maps dup_fd ensure_running).
Local Abbreviation check_access := (check_access maps sd_bus_query_sender_privilege).
Local Abbreviation get_userdata := (node_vtable_get_userdata maps run_find).

(** The object at [p] behind a vtable, where there is one *)
Definition object_at (g : registry) (p : obj_path) (i : nat) : option Z :=
  s ← object_slots g !! i;
  match os_data s with
  | BUS_NODE_VTABLE _ interface _ _ None => Some (os_userdata s)
  | BUS_NODE_VTABLE _ interface _ _ (Some f) => finds f p interface (os_userdata s)
  | _ => None
  end.

(** Whether a node knows the path that is asked for *)
Definition known_at (g : registry) (p : obj_path) (above : bool) (q : obj_path) : bool :=
  match nodes g !! q with
  | None => false
  | Some n =>
      negb above && (negb (bool_decide (n_enumerators n = [])) || negb (bool_decide (n_object_managers n = []))) ||
      existsb (applicable g above) (n_callbacks n) ||
      existsb (fun i => applicable g above i && negb (is_none (object_at g p i))) (n_vtables n)
  end.

Definition object_known (g : registry) (p : obj_path) : bool :=
  known_at g p false p || existsb (known_at g p true) (path_prefixes p).

Definition call_object_callback (i : nat) : stm obj_world Z :=
  s ← in_registry (object_slot_at i);
  match os_data s with
  | BUS_NODE_CALLBACK _ _ callback _ =>
      n ← iteration;
      in_registry (set_callback_iteration i n);;
      in_message (sd_bus_message_rewind true);;
      '(r, error) ← with_slot i (Some callback) (os_userdata s) (run_callback callback (os_userdata s));
      maybe_reply r error
  | _ => sfail EASSERT
  end.

(** The method of the entry, on its object *)
Definition call_method (key : member_key) (x : vtable_member) (u : Z) : stm obj_world Z :=
  let '(_, interface, member) := key in
  v ← entry_of x;
  n ← iteration;
  in_registry (set_last_iteration true key n);;
  in_message (sd_bus_message_rewind true);;
  m ← ogets ow_message;
  let signature := sd_bus_message_get_signature m true in
  '(expected, result, handler) ← slift (method_strings v);
  if negb (streq expected signature) then
    b ← reply_errorf SD_BUS_ERROR_INVALID_ARGS
          (bs "Invalid arguments '" ++ signature ++ bs "' to call " ++ interface ++ bs "." ++ member ++
           bs "(), expecting '" ++ expected ++ bs "'.");
    mret (sent_result b)
  else
    in_message (smod (set_enforced_reply_signature (Some result)));;
    match handler with
    | Some h =>
        '(r, error) ← with_slot (m_parent x) (Some h) (convert_userdata v u) (run_callback h (convert_userdata v u));
        maybe_reply r error
    | None => sd_bus_reply_method_return dup_fd ensure_running;; mret 1
    end.

Definition call_object_method (key : member_key) : stm obj_world Z :=
  g ← ogets ow_registry;
  match vtable_methods g !! key with
  | None => sfail EASSERT
  | Some x =>
      '(r, error) ← check_access x key;
      match r with
      | Err e => maybe_reply (Err e) error
      | Ok _ =>
          p ← message_path;
          match object_at g p (m_parent x) with
          | None => mret 0
          | Some u => call_method key x u
          end
      end
  end.

Definition call_receiver (r : receiver) : stm obj_world Z :=
  match r with ObjectCallback i => call_object_callback i | ObjectMethod key => call_object_method key end.

(** One after the other, until one answers *)
Fixpoint call_receivers (l : list receiver) : stm obj_world Z :=
  match l with
  | [] => mret 0
  | x :: l => r ← call_receiver x; if r =? 0 then call_receivers l else mret r
  end.

(** The dispatch, as a whole *)
Definition dispatch_to_receivers (p : obj_path) (i mem : cstr) : stm obj_world Z :=
  g ← ogets ow_registry;
  r ← call_receivers (receivers g p i mem);
  if negb (r =? 0) then mret r
  else if object_known g p then
    reply_errorf SD_BUS_ERROR_UNKNOWN_METHOD (bs "Unknown method '" ++ mem ++ bs "' or interface '" ++ i ++ bs "'.");;
    mret 1
  else mret 0.
End Dispatch.
