(* ===== verification/ObjReceivers.v ===== *)
(** * Objects: the dispatch calls the receivers in their order

    That [bus_process_object] is [dispatch_to_receivers], for callbacks that leave what
    is registered alone. *)
From S2P Require Import Prelude BusType Signature HexDecOct Names BusError MsgState MsgWrite MsgFields MsgRead Bus Sasl Transport Call ObjTree ObjTreeWf ObjSlots ObjRegistry Introspect Objects ObjDispatch.

(** ** What the calls leave alone *)

(** What the dispatch looks a receiver up by *)
Definition call_key (m : message) : option (list Z) * option cstr * option cstr := (path m, interface m, member m).

Definition now (o : obj_world) : Z := iteration_counter (conn (ow_world o)).

(** A function of the user that changes nothing the dispatch goes by *)
Definition quiet {A} (f : stm obj_world A) : Prop :=
  forall o a o', f o = (Ok a, o') -> ow_registry o' = ow_registry o /\ now o' = now o /\ call_key (ow_message o') = call_key (ow_message o).

Lemma rewind_key b m r m' : sd_bus_message_rewind b m = (r, m') -> call_key m' = call_key m.
Proof.
  assert (U : forall f m, call_key (upd_last_container f m) = call_key m) by (intros f m0; unfold upd_last_container; by destruct (containers m0) as [|c l]).
  unfold sd_bus_message_rewind, sreq, slift, mbind, stm_bind, sget, smod, mret, stm_ret. intros E. cbn in E. destruct (sealed m); cbn in E; [|by injection E as <- <-].
  destruct b; injection E as <- <-; rewrite U; [done|]. exact (U (set_c_index 0) m).
Qed.

Lemma slots_same g : set_object_slots (object_slots g) g = g.
Proof. by destruct g. Qed.

(** The reference taken for the call is dropped again. *)
Lemma ref_unref i s g :
  object_slots g !! i = Some s -> 0 < os_ref s ->
  exists g', object_slot_ref i g = (Ok tt, g') /\ object_slot_unref i g' = (Ok tt, g).
Proof.
  intros Hi Hs. unfold object_slot_ref. rewrite (stm_bind_run (object_slot_at i) _ g s g) by (unfold object_slot_at; by rewrite Hi).
  eexists. split; [done|]. unfold object_slot_unref.
  rewrite (stm_bind_run (object_slot_at i) _ _ (set_os_ref (os_ref s + 1) s) (set_object_slots (<[i := set_os_ref (os_ref s + 1) s]> (object_slots g)) g)).
  2: { unfold object_slot_at. cbn. by rewrite lookup_insert_eq. }
  cbn. replace (os_ref s + 1 - 1) with (os_ref s) by lia. rewrite (proj2 (Z.eqb_neq (os_ref s) 0)) by lia.
  rewrite (stm_bind_run (smod _) _ _ tt _ eq_refl). unfold mret, stm_ret, set_object_slots. cbn.
  rewrite insert_insert_eq, insert_id; [by destruct g|]. rewrite Hi. by destruct s.
Qed.

Lemma in_registry_run {A} (f : stm registry A) o r g : f (ow_registry o) = (r, g) -> in_registry f o = (r, ObjWorld (ow_world o) g (ow_message o) (ow_current o)).
Proof. unfold in_registry. by intros ->. Qed.

Lemma with_slot_quiet {A} i s h u (f : stm obj_world A) o a o' :
  quiet f -> object_slots (ow_registry o) !! i = Some s -> 0 < os_ref s -> with_slot i h u f o = (Ok a, o') ->
  ow_registry o' = ow_registry o /\ now o' = now o /\ call_key (ow_message o') = call_key (ow_message o) /\ ow_current o' = None.
Proof.
  intros Hq Hi Hs. destruct (ref_unref i s _ Hi Hs) as (g1 & R & U). unfold with_slot.
  rewrite (stm_bind_run _ _ _ _ _ (in_registry_run _ _ _ _ R)). rewrite (stm_bind_run (set_current _) _ _ tt _ eq_refl).
  rewrite stm_bind_eq. destruct (f _) as [[b|e] o1] eqn:E; [|done]. destruct (Hq _ _ _ E) as (G & N & K). cbn in G, N, K.
  rewrite (stm_bind_run (set_current _) _ _ tt _ eq_refl).
  rewrite (stm_bind_run _ _ _ _ _ (in_registry_run (object_slot_unref i) (ObjWorld (ow_world o1) (ow_registry o1) (ow_message o1) None) (Ok tt) (ow_registry o) ltac:(cbn; by rewrite G))).
  by intros [= <- <-].
Qed.

Section Receivers.
Context `{ErrnoTable} (maps : list sd_bus_error_map) (dup_fd : Z -> res Z) (ensure_running : stm world unit).
Context (run_callback : nat -> Z -> stm obj_world (res Z * option sd_bus_error)).
Context (run_find : nat -> obj_path -> cstr -> Z -> stm obj_world (res Z * Z * option sd_bus_error)).
Context (run_get : nat -> obj_path -> cstr -> cstr -> Z -> stm (obj_world * message) (res Z * option sd_bus_error)).
Context (run_set : nat -> obj_path -> cstr -> cstr -> Z -> stm obj_world (res Z * option sd_bus_error)).
Context (run_enumerator : nat -> obj_path -> Z -> stm obj_world (res Z * list obj_path * option sd_bus_error)).
Context (load : Z -> Z -> stm obj_world (option basic_value)) (load_strv : Z -> stm obj_world (list cstr)).
Context (store : Z -> Z -> basic_value -> stm obj_world unit).
Context (sd_bus_query_sender_privilege : message -> Z -> res bool).
Context (set_order : list obj_path -> list obj_path).
Context (finds : nat -> obj_path -> cstr -> Z -> option Z).

Local Abbreviation maybe_reply := (maybe_reply dup_fd ensure_running).
Local Abbreviation reply_errorf := (reply_errorf maps dup_fd ensure_running).
Local Abbreviation check_access := (check_access maps sd_bus_query_sender_privilege).
Local Abbreviation get_userdata := (node_vtable_get_userdata maps run_find).
Local Abbreviation call_object_callback := (call_object_callback dup_fd ensure_running run_callback).
Local Abbreviation call_method := (call_method maps dup_fd ensure_running run_callback).
Local Abbreviation call_object_method := (call_object_method maps dup_fd ensure_running run_callback sd_bus_query_sender_privilege finds).
Local Abbreviation call_receiver := (call_receiver maps dup_fd ensure_running run_callback sd_bus_query_sender_privilege finds).
Local Abbreviation call_receivers := (call_receivers maps dup_fd ensure_running run_callback sd_bus_query_sender_privilege finds).
Local Abbreviation object_at := (object_at finds).
Local Abbreviation known_at := (known_at finds).

(** The user: callbacks that change nothing the dispatch goes by, find functions that
    only look *)
Record calm_user : Prop := {
  cu_callback : forall h u, quiet (run_callback h u);
  cu_find : forall f p interface u o, run_find f p interface u o =
    (Ok (Ok (Z.b2z (negb (is_none (finds f p interface u)))), default 0 (finds f p interface u), None), o) }.

Context (user : calm_user).

(** *** Replies that are not sent *)
Lemma maybe_reply_zero r error o o' : maybe_reply r error o = (Ok 0, o') -> o' = o.
Proof.
  unfold Objects.maybe_reply. rewrite (stm_bind_run (ogets _) _ o _ o eq_refl). rewrite stm_bind_eq. unfold in_world.
  unfold bus_maybe_reply_error. destruct r as [n|e].
  - destruct (sd_bus_error_is_set error).
    + rewrite stm_bind_eq. by destruct (_ (ow_world o)) as [[|] ].
    + intros [= _ <-]. by destruct o.
  - rewrite stm_bind_eq. by destruct (_ (ow_world o)) as [[|] ].
Qed.

Lemma replying_false call f w w' :
  (forall w w', f w = (Ok false, w') -> w' = w) -> replying call f w = (Ok false, w') -> w' = w.
Proof.
  intros Hf. unfold replying. rewrite stm_bind_eq. unfold sreq, slift. destruct (require _ _) as [[]|]; [|done].
  rewrite stm_bind_eq. destruct (require _ _) as [[]|]; [|done]. rewrite stm_bind_eq. destruct (bget w) as [[b|] w1] eqn:E; [|done].
  injection E as <- <-. rewrite stm_bind_eq. destruct (require _ _) as [[]|]; [|done].
  destruct (has_flag _ _); [by intros [= <-]|apply Hf].
Qed.

Lemma send_reply_true m w w' : send_reply ensure_running dup_fd m w <> (Ok false, w').
Proof. unfold send_reply. rewrite stm_bind_eq. by destruct (with_message _ _ _) as [[|] ]. Qed.

Lemma method_error_false call e w w' : sd_bus_reply_method_error ensure_running dup_fd call e w = (Ok false, w') -> w' = w.
Proof.
  unfold sd_bus_reply_method_error. rewrite stm_bind_eq. unfold sreq, slift. destruct (require _ _) as [[]|]; [|done].
  rewrite stm_bind_eq. destruct (require _ _) as [[]|]; [|done]. rewrite stm_bind_eq. destruct (require _ _) as [[]|]; [|done].
  rewrite stm_bind_eq. destruct (bget w) as [[b|] w1] eqn:E; [|done]. injection E as <- <-.
  rewrite stm_bind_eq. destruct (require _ _) as [[]|]; [|done]. destruct (has_flag _ _); [by intros [= <-]|].
  destruct e as [[[n|] text ?]|]; [|done|done]. rewrite stm_bind_eq. destruct (sd_bus_message_new_method_error _ _ _ _); [|done].
  by intros ?%send_reply_true.
Qed.

Lemma reply_errorf_false name text o o' : reply_errorf name text o = (Ok false, o') -> o' = o.
Proof.
  unfold Objects.reply_errorf. rewrite (stm_bind_run (ogets _) _ o _ o eq_refl). unfold in_world.
  destruct (sd_bus_reply_method_errorf _ _ _ _ _ _ _) as [r w] eqn:E. intros [= -> <-].
  apply replying_false in E as ->; [by destruct o|apply method_error_false].
Qed.

(** *** Finding the object *)
Lemma get_userdata_run p i s o :
  object_slots (ow_registry o) !! i = Some s -> 0 < os_ref s -> ow_current o = None ->
  match os_data s with BUS_NODE_VTABLE _ _ _ _ _ => True | _ => False end ->
  get_userdata p i o = (Ok (Ok (object_at (ow_registry o) p i), None), o).
Proof.
  intros Hi Hs Hc Hd. unfold node_vtable_get_userdata, slot_userdata, vtable_of.
  assert (R : in_registry (object_slot_at i) o = (Ok s, o)).
  { unfold in_registry, object_slot_at. rewrite Hi. by destruct o. }
  rewrite stm_bind_eq, (stm_bind_run _ _ _ _ _ R). cbn. rewrite stm_bind_eq, (stm_bind_run _ _ _ _ _ R).
  unfold ObjDispatch.object_at. rewrite Hi. cbn. destruct (os_data s) as [|q iface fb vt find| |]; try done. cbn.
  destruct find as [f|]; [|done]. destruct (ref_unref i s _ Hi Hs) as (g1 & R1 & U1). unfold with_slot.
  rewrite stm_bind_eq, (stm_bind_run _ _ _ _ _ (in_registry_run _ _ _ _ R1)), (stm_bind_run (set_current _) _ _ tt _ eq_refl).
  rewrite (stm_bind_run _ _ _ _ _ (cu_find user f p iface (os_userdata s) _)), (stm_bind_run (set_current _) _ _ tt _ eq_refl).
  rewrite (stm_bind_run _ _ _ _ _ (in_registry_run (object_slot_unref i) (ObjWorld (ow_world o) g1 (ow_message o) None) (Ok tt) _ U1)). cbn.
  destruct o as [w g m c]; cbn in *. subst c. by destruct (finds f p iface (os_userdata s)).
Qed.

(** ** A dispatch under way *)
Context (g0 : registry) (p : obj_path) (i mem : cstr) (n : Z).
Context (Hok : registry_ok g0) (Hmod : nodes_modified g0 = false).

Record going (o : obj_world) : Prop := {
  go_registry : unmarked (ow_registry o) = unmarked g0;
  go_now : now o = n;
  go_key : call_key (ow_message o) = (Some p, Some i, Some mem);
  go_current : ow_current o = None }.

(** These were not called yet. *)
Definition fresh (l : list receiver) (o : obj_world) : Prop := Forall (fun r => marked (ow_registry o) r <> Some n) l.

Lemma going_nodes o : going o -> nodes (ow_registry o) = nodes g0.
Proof. intros G. exact (f_equal nodes (go_registry _ G)). Qed.

Lemma going_modified o : going o -> modified o = (Ok false, o).
Proof.
  intros G. pose proof (f_equal nodes_modified (go_registry _ G)) as E. cbn in E. unfold modified, ogets. by rewrite E, Hmod.
Qed.

Lemma going_slot o j s :
  going o -> object_slots g0 !! j = Some s ->
  exists s', object_slots (ow_registry o) !! j = Some s' /\ os_userdata s' = os_userdata s /\ 0 < os_ref s' /\
    unmark_data (os_data s') = unmark_data (os_data s) /\ in_registry (object_slot_at j) o = (Ok s', o).
Proof.
  intros G Hj. destruct (unmarked_slot g0 (ow_registry o) j s (eq_sym (go_registry _ G)) Hj) as (s' & Hs & U & R & D).
  exists s'. split; [done|]. split; [done|]. split; [rewrite R; by eapply (ro_refs _ Hok)|]. split; [done|].
  unfold in_registry, object_slot_at. rewrite Hs. by destruct o.
Qed.

Lemma going_object o j : going o -> object_at (ow_registry o) p j = object_at g0 p j.
Proof.
  intros G. unfold ObjDispatch.object_at. destruct (object_slots g0 !! j) as [s|] eqn:Hj.
  - destruct (going_slot o j s G Hj) as (s' & -> & U & _ & D & _). cbn. rewrite U.
    by destruct (os_data s') as [| ? ? ? ? [] | |], (os_data s) as [| ? ? ? ? [] | |]; cbn in D; inversion D.
  - by rewrite (unmarked_no_slot g0 _ j (eq_sym (go_registry _ G)) Hj).
Qed.

(** What a receiver leaves when it does not answer *)
Lemma going_on o o' rest :
  going o -> fresh rest o -> ow_registry o' = ow_registry o -> now o' = now o -> call_key (ow_message o') = call_key (ow_message o) ->
  ow_current o' = None -> going o' /\ fresh rest o'.
Proof. intros [G1 G2 G3 G4] F R N K C. split; [split; congruence|]. unfold fresh. by rewrite R. Qed.

Lemma going_rewound o o' rest b r :
  going o -> fresh rest o -> in_message (sd_bus_message_rewind b) o = (r, o') -> going o' /\ fresh rest o'.
Proof.
  intros G F. unfold in_message. destruct (sd_bus_message_rewind b (ow_message o)) as [x m] eqn:E. intros [= _ <-].
  apply (going_on o); try done; [by apply rewind_key in E|apply G].
Qed.

Lemma going_marked o r rest g' (f : stm registry unit) :
  going o -> fresh rest o -> f (ow_registry o) = (Ok tt, g') -> unmarked g' = unmarked (ow_registry o) ->
  (forall r', r' <> r -> marked g' r' = marked (ow_registry o) r') -> r ∉ rest ->
  exists o', in_registry f o = (Ok tt, o') /\ going o' /\ fresh rest o' /\ ow_registry o' = g' /\ ow_message o' = ow_message o /\ ow_world o' = ow_world o.
Proof.
  intros [G1 G2 G3 G4] F E U M Hr. eexists. split; [by apply in_registry_run|]. split; [by split; cbn; try congruence|].
  split; [|done]. unfold fresh in *. cbn. rewrite Forall_forall in F |- *. intros r' Hr'.
  rewrite M by congruence. by apply F.
Qed.

Lemma mark_slot_others j g r :
  r <> ObjectCallback j -> marked (set_callback_iteration j n g).2 r = marked g r.
Proof.
  intros Hr. destruct r as [k|key]; [|done]. cbn. by rewrite lookup_alter_ne by congruence.
Qed.

Lemma mark_method_others key g r :
  r <> ObjectMethod key -> marked (set_last_iteration true key n g).2 r = marked g r.
Proof.
  intros Hr. destruct r as [k|key']; [done|]. cbn. by rewrite lookup_alter_ne by congruence.
Qed.

(** The result [y] of the code is the result [x] of calling receivers; when none answered,
    it found an object if [k]. *)
Definition agreed (k : bool) (rest : list receiver) (x : res Z * obj_world) (y : res (Z * bool) * obj_world) : Prop :=
  match x with
  | (Err e, o) => y = (Err e, o)
  | (Ok r, o) => if r =? 0 then y = (Ok (0, k), o) /\ going o /\ fresh rest o else exists b, y = (Ok (r, b), o)
  end.

Definition agrees (f : stm obj_world (Z * bool)) (R : list receiver) (k : bool) (rest : list receiver) (o : obj_world) : Prop :=
  agreed k rest (call_receivers R o) (f o).

Lemma agrees_nothing f k rest o : f o = (Ok (0, k), o) -> going o -> fresh rest o -> agrees f [] k rest o.
Proof. by intros. Qed.

Lemma call_receivers_app R R' o :
  call_receivers (R ++ R') o = match call_receivers R o with (Ok r, o') => if r =? 0 then call_receivers R' o' else (Ok r, o') | x => x end.
Proof.
  revert o; induction R as [|r R IH]; intros o; [done|]. cbn. rewrite !stm_bind_eq. destruct (call_receiver r o) as [[a|e] o']; [|done].
  destruct (a =? 0) eqn:E; [apply IH|]. cbn. by rewrite E.
Qed.

Lemma agrees_seq f g R R' k k' rest o :
  agrees f R k (R' ++ rest) o -> (forall o', going o' -> fresh (R' ++ rest) o' -> agrees (g k) R' k' rest o') ->
  agrees (try_next f (fun found => unless_modified found (g found))) (R ++ R') k' rest o.
Proof.
  unfold agrees, agreed. intros Hf Hg. rewrite call_receivers_app. unfold try_next. rewrite stm_bind_eq.
  destruct (call_receivers R o) as [[r|e] o1]; [|by rewrite Hf]. destruct (r =? 0) eqn:E.
  - destruct Hf as (-> & G & F). cbn. unfold unless_modified. rewrite (stm_bind_run _ _ _ _ _ (going_modified o1 G)). by apply Hg.
  - destruct Hf as [b ->]. cbn. rewrite E. cbn. by exists b.
Qed.

(** *** The callbacks of a node *)
Lemma callback_data o j s q fb cb last :
  going o -> object_slots g0 !! j = Some s -> os_data s = BUS_NODE_CALLBACK q fb cb last ->
  exists s' last', in_registry (object_slot_at j) o = (Ok s', o) /\ object_slots (ow_registry o) !! j = Some s' /\ 0 < os_ref s' /\
    os_data s' = BUS_NODE_CALLBACK q fb cb last' /\ marked (ow_registry o) (ObjectCallback j) = Some last'.
Proof.
  intros G Hj Hd. destruct (going_slot o j s G Hj) as (s' & Hs & _ & R & D & E). rewrite Hd in D. destruct (os_data s') as [q' fb' cb' l'| | |] eqn:Hd'; try done.
  injection D as -> -> ->. exists s', l'. split; [done|]. split; [done|]. split; [done|]. split; [done|]. cbn. by rewrite Hs; cbn; rewrite Hd'.
Qed.

Lemma callback_step o j s q fb cb last rest o' :
  going o -> object_slots g0 !! j = Some s -> os_data s = BUS_NODE_CALLBACK q fb cb last ->
  fresh rest o -> ObjectCallback j ∉ rest -> call_object_callback j o = (Ok 0, o') -> going o' /\ fresh rest o'.
Proof.
  intros G Hj Hd F Hr. destruct (callback_data o j s q fb cb last G Hj Hd) as (s' & l' & E & Hs & R & Hd' & _).
  unfold ObjDispatch.call_object_callback. rewrite (stm_bind_run _ _ _ _ _ E), Hd'. rewrite (stm_bind_run iteration _ o n o) by (unfold iteration, ogets; by rewrite <- (go_now _ G)).
  destruct (going_marked o (ObjectCallback j) rest (set_callback_iteration j n (ow_registry o)).2 (set_callback_iteration j n) G F) as (o1 & E1 & G1 & F1 & R1 & _);
    [done|by apply (mark_slot_unmarked j n)|intros; by apply mark_slot_others|done|].
  rewrite (stm_bind_run _ _ _ _ _ E1). rewrite stm_bind_eq. destruct (in_message _ o1) as [[b|] o2] eqn:E2; [|done].
  destruct (going_rewound o1 o2 rest true (Ok b) G1 F1 E2) as [G2 F2]. rewrite stm_bind_eq.
  destruct (with_slot _ _ _ _ o2) as [[[r err]|] o3] eqn:E3; [|done]. intros ->%maybe_reply_zero.
  destruct (going_slot o2 j s G2 Hj) as (s2 & Hs2 & _ & R2 & _).
  destruct (with_slot_quiet j s2 _ _ _ _ _ _ (cu_callback user _ _) Hs2 R2 E3) as (A & B & C & D).
  by apply (going_on o2).
Qed.

Lemma callbacks_cons o j l above found s q fb cb last :
  going o -> object_slots g0 !! j = Some s -> os_data s = BUS_NODE_CALLBACK q fb cb last ->
  applicable g0 above j = true -> marked (ow_registry o) (ObjectCallback j) <> Some n ->
  node_callbacks_run dup_fd ensure_running run_callback (j :: l) above found o =
  match call_object_callback j o with
  | (Ok r, o') => if r =? 0 then node_callbacks_run dup_fd ensure_running run_callback l above true o' else (Ok (r, true), o')
  | (Err e, o') => (Err e, o')
  end.
Proof.
  intros G Hj Hd Ha Hm. destruct (callback_data o j s q fb cb last G Hj Hd) as (s' & l' & E & _ & _ & Hd' & M).
  unfold applicable in Ha. rewrite Hj in Ha. cbn in Ha. rewrite Hd in Ha.
  unfold ObjDispatch.call_object_callback. cbn [node_callbacks_run]. rewrite (stm_bind_run _ _ _ _ _ (going_modified o G)), !(stm_bind_run _ _ _ _ _ E), Hd'.
  rewrite (proj1 (negb_true_iff _) Ha). rewrite !(stm_bind_run iteration _ o n o) by (unfold iteration, ogets; by rewrite <- (go_now _ G)).
  rewrite (proj2 (Z.eqb_neq l' n)) by congruence.
  rewrite !stm_bind_eq. destruct (in_registry (set_callback_iteration j n) o) as [[[]|] o1]; [|done]. cbv beta iota.
  rewrite !stm_bind_eq. destruct (in_message _ o1) as [[b|] o2]; [|done]. cbv beta iota.
  rewrite !stm_bind_eq. destruct (with_slot _ _ _ _ o2) as [[[r err]|] o3]; [|done]. cbv beta iota. rewrite !stm_bind_eq.
  destruct (maybe_reply r err o3) as [[x|] o4]; [|done]. by destruct (x =? 0).
Qed.

Lemma callbacks_agree l above found rest o :
  (forall j, j ∈ l -> exists s q fb cb last, object_slots g0 !! j = Some s /\ os_data s = BUS_NODE_CALLBACK q fb cb last) ->
  let R := ObjectCallback <$> List.filter (applicable g0 above) l in
  going o -> NoDup (R ++ rest) -> fresh (R ++ rest) o ->
  agrees (node_callbacks_run dup_fd ensure_running run_callback l above found) R (found || existsb (applicable g0 above) l) rest o.
Proof.
  cbn zeta. revert found o; induction l as [|j l IH]; intros found o Hl G ND F.
  { apply agrees_nothing; [by rewrite orb_false_r|done|done]. }
  destruct (Hl j) as (s & q & fb & cb & last & Hj & Hd); [by left|]. assert (Hl' : forall k, k ∈ l -> exists s q fb cb last, object_slots g0 !! k = Some s /\ os_data s = BUS_NODE_CALLBACK q fb cb last) by (intros; apply Hl; by right).
  cbn [List.filter existsb]. destruct (applicable g0 above j) eqn:Ha.
  - cbn [List.filter] in ND, F. rewrite Ha in ND, F. cbn in ND, F. apply NoDup_cons in ND as [Hnot ND]. apply Forall_cons in F as [Fj F].
    unfold agrees, agreed. rewrite (callbacks_cons o j l above found s q fb cb last G Hj Hd Ha Fj).
    cbn [fmap list_fmap ObjDispatch.call_receivers ObjDispatch.call_receiver]. rewrite stm_bind_eq.
    destruct (call_object_callback j o) as [[r|e] o'] eqn:E; [|done]. destruct (r =? 0) eqn:Er.
    + apply Z.eqb_eq in Er as ->. destruct (callback_step o j s q fb cb last _ o' G Hj Hd F Hnot E) as [G' F'].
      rewrite orb_true_r. by apply (IH true o' Hl' G' ND F').
    + cbn. rewrite Er. by exists true.
  - cbn [List.filter] in ND, F. rewrite Ha in ND, F. cbn [orb]. specialize (IH found o Hl' G ND F). unfold agrees, agreed in *.
    destruct (callback_data o j s q fb cb last G Hj Hd) as (s' & l' & E & _ & _ & Hd' & _).
    unfold applicable in Ha. rewrite Hj in Ha. cbn in Ha. rewrite Hd in Ha. cbn [node_callbacks_run].
    rewrite (stm_bind_run _ _ _ _ _ (going_modified o G)), (stm_bind_run _ _ _ _ _ E), Hd', (proj1 (negb_false_iff _) Ha). done.
Qed.

(** *** A method *)
Lemma maybe_reply_nothing o : maybe_reply (Ok 0) None o = (Ok 0, o).
Proof. by destruct o. Qed.

Lemma maybe_reply_err e error o r o' : maybe_reply (Err e) error o = (Ok r, o') -> r = 1.
Proof.
  unfold Objects.maybe_reply. rewrite (stm_bind_run (ogets _) _ o _ o eq_refl). rewrite stm_bind_eq. unfold in_world, bus_maybe_reply_error.
  rewrite stm_bind_eq. destruct (_ (ow_world o)) as [[|] ]; [|done]. by intros [= <-].
Qed.

Lemma vtable_of_state j o r o' : vtable_of j o = (r, o') -> o' = o.
Proof.
  unfold vtable_of. rewrite stm_bind_eq. unfold in_registry, object_slot_at.
  destruct (object_slots _ !! j) as [s|]; cbn; [|intros [= _ <-]; by destruct o]. destruct (os_data s); intros [= _ <-]; by destruct o.
Qed.

Lemma entry_of_state x o r o' : entry_of x o = (r, o') -> o' = o.
Proof.
  unfold entry_of. rewrite stm_bind_eq. destruct (vtable_of _ o) as [[[[[a b] c] d]|] o2] eqn:E; apply vtable_of_state in E as ->; by intros [= _ <-].
Qed.

Lemma check_access_state x key o r o' : check_access x key o = (r, o') -> o' = o.
Proof.
  unfold Objects.check_access. rewrite stm_bind_eq. assert (B : in_world bget o = (Ok (conn (ow_world o)), o)) by (by destruct o).
  rewrite B. cbv beta iota. destruct (trusted _); [by intros [= _ <-]|].
  rewrite stm_bind_eq. destruct (entry_of x o) as [[v|] o1] eqn:E; apply entry_of_state in E as ->; [|by intros [= _ <-]]. cbv beta iota.
  destruct (has _ _); [by intros [= _ <-]|]. rewrite stm_bind_eq.
  destruct (vtable_of _ o) as [[[[[a b] c] d]|] o2] eqn:E; apply vtable_of_state in E as ->; [|by intros [= _ <-]]. cbv beta iota zeta.
  rewrite stm_bind_eq. unfold ogets. cbv beta iota. destruct (sd_bus_query_sender_privilege _ _) as [[]|]; try by intros [= _ <-].
  destruct key as [[k1 k2] k3]. destruct (sd_bus_error_setf _ _ _ _) as [r1 e1]. by intros [= _ <-].
Qed.

Lemma vtable_data o j q iface fb vt :
  going o -> vtable_slot g0 j = Some (q, iface, fb, vt) ->
  exists s find, object_slots (ow_registry o) !! j = Some s /\ 0 < os_ref s /\
    os_data s = BUS_NODE_VTABLE (Some q) iface fb vt find /\ vtable_of j o = (Ok (iface, fb, vt, find), o).
Proof.
  intros G. unfold vtable_slot. destruct (object_slots g0 !! j) as [s|] eqn:Hj; [|done]. cbn.
  destruct (os_data s) as [|[q'|] iface' fb' vt' find| |] eqn:Hd; try done. intros [= -> -> -> ->].
  destruct (going_slot o j s G Hj) as (s' & Hs & _ & R & D & E). rewrite Hd in D. exists s', find. split; [done|]. split; [done|].
  assert (Hd' : os_data s' = BUS_NODE_VTABLE (Some q) iface fb vt find) by (by destruct (os_data s'); cbn in D; inversion D).
  split; [done|]. unfold vtable_of. by rewrite (stm_bind_run _ _ _ _ _ E), Hd'.
Qed.

Lemma enforce_still o v : in_message (smod (set_enforced_reply_signature v)) o = (Ok tt, ObjWorld (ow_world o) (ow_registry o) (set_enforced_reply_signature v (ow_message o)) (ow_current o)).
Proof. done. Qed.

Lemma method_step key x u s rest o o' :
  going o -> object_slots g0 !! m_parent x = Some s -> fresh rest o -> ObjectMethod key ∉ rest ->
  call_method key x u o = (Ok 0, o') -> going o' /\ fresh rest o'.
Proof.
  intros G Hs F Hr. unfold ObjDispatch.call_method. destruct key as [[k1 k2] k3] eqn:Ek. rewrite stm_bind_eq.
  destruct (entry_of x o) as [[v|] o0] eqn:E0; apply entry_of_state in E0 as ->; [|done]. cbv beta iota.
  rewrite (stm_bind_run iteration _ o n o) by (unfold iteration, ogets; by rewrite <- (go_now _ G)).
  destruct (going_marked o (ObjectMethod key) rest (set_last_iteration true key n (ow_registry o)).2 (set_last_iteration true key n) G F) as (o1 & E1 & G1 & F1 & _);
    [done|by apply (mark_method_unmarked key n)|intros; by apply mark_method_others|by rewrite Ek|].
  rewrite Ek in E1. rewrite (stm_bind_run _ _ _ _ _ E1). rewrite stm_bind_eq. destruct (in_message _ o1) as [[b|] o2] eqn:E2; [|done]. cbv beta iota.
  destruct (going_rewound o1 o2 rest true (Ok b) G1 F1 E2) as [G2 F2]. rewrite (stm_bind_run (ogets _) _ o2 _ o2 eq_refl). cbv zeta.
  rewrite stm_bind_eq. unfold slift. destruct (method_strings v) as [[[expected result] handler]|]; [|done]. cbv beta iota.
  destruct (negb _).
  - rewrite stm_bind_eq. destruct (reply_errorf _ _ o2) as [[[]|] o3] eqn:E3; [done| |done]. apply reply_errorf_false in E3 as ->. by intros [= <-].
  - rewrite (stm_bind_run _ _ _ _ _ (enforce_still o2 _)). set (o3 := ObjWorld _ _ _ _).
    destruct (going_on o2 o3 rest G2 F2) as [G3 F3]; [done|done|done|apply G2|]. destruct handler as [h|].
    + rewrite stm_bind_eq. destruct (with_slot _ _ _ _ o3) as [[[r err]|] o4] eqn:E4; [|done]. intros ->%maybe_reply_zero.
      destruct (going_slot o3 _ s G3 Hs) as (s2 & Hs2 & _ & R2 & _).
      destruct (with_slot_quiet _ s2 _ _ _ _ _ _ (cu_callback user _ _) Hs2 R2 E4) as (A & B & C & D). by apply (going_on o3).
    + rewrite stm_bind_eq. by destruct (sd_bus_reply_method_return _ _ o3) as [[]].
Qed.

Local Abbreviation method_callbacks_run :=
  (method_callbacks_run maps dup_fd ensure_running run_callback run_find sd_bus_query_sender_privilege).

(** The code, once it has the object, does what [call_method] does. *)
Lemma method_tail found key x u o :
  going o -> m_last_iteration x <> n ->
  (let '(_, interface, member) := key in
   md ← modified;
   if md : bool then mret (0, found)
   else
     v ← entry_of x;
     let u := convert_userdata v u in
     n ← iteration;
     if m_last_iteration x =? n then mret (0, true)
     else
       in_registry (set_last_iteration true key n);;
       in_message (sd_bus_message_rewind true);;
       m ← ogets ow_message;
       let signature := sd_bus_message_get_signature m true in
       '(expected, result, handler) ← slift (method_strings v);
       if negb (streq expected signature) then
         b ← reply_errorf SD_BUS_ERROR_INVALID_ARGS
               (bs "Invalid arguments '" ++ signature ++ bs "' to call " ++ interface ++ bs "." ++ member ++
                bs "(), expecting '" ++ expected ++ bs "'.");
         mret (sent_result b, true)
       else
         in_message (smod (set_enforced_reply_signature (Some result)));;
         match handler with
         | Some h =>
             '(r, error) ← with_slot (m_parent x) (Some h) u (run_callback h u);
             n ← maybe_reply r error;
             mret (n, true)
         | None => sd_bus_reply_method_return dup_fd ensure_running;; mret (1, true)
         end) o =
  match call_method key x u o with (Ok r, o') => (Ok (r, true), o') | (Err e, o') => (Err e, o') end.
Proof.
  intros G Hm. destruct key as [[k1 k2] k3]. unfold ObjDispatch.call_method. rewrite (stm_bind_run _ _ _ _ _ (going_modified o G)). cbv beta iota.
  rewrite !stm_bind_eq. destruct (entry_of x o) as [[v|] o0] eqn:E0; apply entry_of_state in E0 as ->; [|done]. cbv beta iota zeta.
  rewrite !(stm_bind_run iteration _ o n o) by (unfold iteration, ogets; by rewrite <- (go_now _ G)).
  rewrite (proj2 (Z.eqb_neq _ n)) by done. rewrite !stm_bind_eq. destruct (in_registry (set_last_iteration true (k1, k2, k3) n) o) as [[[]|] o1]; [|done]. cbv beta iota.
  rewrite !stm_bind_eq. destruct (in_message (sd_bus_message_rewind true) o1) as [[b|] o2]; [|done]. cbv beta iota.
  rewrite !(stm_bind_run (ogets _) _ o2 _ o2 eq_refl). cbv zeta. rewrite !stm_bind_eq. unfold slift.
  destruct (method_strings v) as [[[expected result] handler]|]; [|done]. cbv beta iota. destruct (negb _).
  - rewrite !stm_bind_eq. by destruct (reply_errorf _ _ o2) as [[[]|] o3].
  - rewrite !(stm_bind_run _ _ _ _ _ (enforce_still o2 _)). destruct handler as [h|].
    + rewrite !stm_bind_eq. destruct (with_slot (m_parent x) (Some h) _ _ _) as [[[r err]|] o3]; [|done]. cbv beta iota.
      rewrite !stm_bind_eq. by destruct (maybe_reply r err o3) as [[]].
    + rewrite !stm_bind_eq. by destruct (sd_bus_reply_method_return _ _ _) as [[]].
Qed.

Definition method_part (above found : bool) (q : obj_path) : stm obj_world (Z * bool) :=
  g ← ogets ow_registry;
  match vtable_methods g !! (q, i, mem) with
  | None => mret (0, found)
  | Some x => method_callbacks_run (q, i, mem) x above found
  end.

Definition method_receivers (above : bool) (q : obj_path) : list receiver :=
  match vtable_methods g0 !! (q, i, mem) with
  | Some x => if applicable g0 above (m_parent x) then [ObjectMethod (q, i, mem)] else []
  | None => []
  end.

Definition method_known (above : bool) (q : obj_path) : bool :=
  match vtable_methods g0 !! (q, i, mem) with
  | Some x => applicable g0 above (m_parent x) && negb (is_none (object_at g0 p (m_parent x)))
  | None => false
  end.

Lemma message_path_run o : going o -> message_path o = (Ok p, o).
Proof.
  intros G. pose proof (go_key _ G) as K. unfold message_path, ogets. rewrite stm_bind_eq. cbv beta iota. injection K as K _ _. by rewrite K.
Qed.

Lemma method_agrees above found q rest o :
  going o -> NoDup (method_receivers above q ++ rest) -> fresh (method_receivers above q ++ rest) o ->
  agrees (method_part above found q) (method_receivers above q) (found || method_known above q) rest o.
Proof.
  intros G ND F. unfold method_part, method_receivers, method_known in *. unfold agrees. rewrite (stm_bind_run (ogets _) _ o _ o eq_refl).
  destruct (vtable_methods g0 !! (q, i, mem)) as [x0|] eqn:Hx0.
  2: { rewrite (unmarked_no_method g0 _ _ (eq_sym (go_registry _ G)) Hx0). apply agrees_nothing; [by rewrite orb_false_r|done|done]. }
  destruct (unmarked_method g0 _ _ x0 (eq_sym (go_registry _ G)) Hx0) as (x & Hx & Hp & _). rewrite Hx.
  destruct (mo_entry _ (ro_members _ (ro_wf _ Hok)) true q i mem x0 Hx0) as (fb & vt & v0 & Hv & _).
  destruct (vtable_data o _ q i fb vt G Hv) as (s & find & Hs & Rs & Hd & V).
  assert (Ha : applicable g0 above (m_parent x0) = negb (above && negb fb)).
  { unfold applicable. unfold vtable_slot in Hv. destruct (object_slots g0 !! m_parent x0) as [s0|]; [|done]. cbn in Hv |- *.
    destruct (os_data s0) as [|[] | |]; try done. by injection Hv as -> -> -> ->. }
  unfold Objects.method_callbacks_run. rewrite stm_bind_eq. unfold skipped. rewrite Hp, (stm_bind_run _ _ _ _ _ V). cbn [fst snd]. unfold mret at 1, stm_ret at 1. cbv beta iota.
  rewrite Ha in *. destruct (above && negb fb); cbn [negb andb] in *.
  { apply agrees_nothing; [by rewrite orb_false_r|done|done]. }
  apply NoDup_cons in ND as [Hnot ND]. apply Forall_cons in F as [Fx F].
  cbn [ObjDispatch.call_receivers ObjDispatch.call_receiver]. rewrite (stm_bind_eq (ObjDispatch.call_object_method _ _ _ _ _ _ _)).
  unfold ObjDispatch.call_object_method. rewrite (stm_bind_run (ogets _) _ o _ o eq_refl), Hx, !stm_bind_eq.
  destruct (check_access x (q, i, mem) o) as [[[r err]|] o1] eqn:Ec.
  2: done.
  pose proof (check_access_state _ _ _ _ _ Ec) as ->. cbv beta iota.
  destruct r as [c|e].
  2: { rewrite !stm_bind_eq. destruct (maybe_reply (Err e) err o) as [[r|] o1] eqn:Er; [|done]. apply maybe_reply_err in Er as ->. by exists found. }
  rewrite !(stm_bind_run _ _ _ _ _ (message_path_run o G)). rewrite Hp.
  rewrite (stm_bind_run _ _ _ _ _ (get_userdata_run p _ s o Hs Rs (go_current _ G) ltac:(by rewrite Hd))). cbv beta iota.
  rewrite (going_object o _ G). destruct (object_at g0 p (m_parent x0)) as [u|].
  - rewrite <- Hp in *. pose proof (method_tail found (q, i, mem) x u o G) as T. cbv beta iota zeta in T |- *. rewrite T by (intros E; apply Fx; cbn; by rewrite Hx, <- E).
    destruct (call_method _ x u o) as [[r|e] o1] eqn:E; [|done]. cbv beta iota. destruct (r =? 0) eqn:Er; [|unfold agreed; cbn; rewrite Er; by exists true].
    apply Z.eqb_eq in Er as ->. rewrite orb_true_r. split; [done|]. assert (exists s0, object_slots g0 !! m_parent x = Some s0) as [s0 Hs0].
    { unfold vtable_slot in Hv. destruct (object_slots g0 !! m_parent x) as [s0|]; [by exists s0|done]. }
    by apply (method_step (q, i, mem) x u s0 rest o).
  - rewrite orb_false_r, (stm_bind_run _ _ _ _ _ (maybe_reply_nothing o)). by apply agrees_nothing.
Qed.

(** *** Whether the node knows the object *)
Lemma existsb_member (l : list nat) j f : j ∈ l -> f j = true -> existsb f l = true.
Proof. intros Hj Hf. apply existsb_exists. exists j. by rewrite <- list_elem_of_In. Qed.

Lemma vtables_exist_run l above o :
  going o -> (forall j, j ∈ l -> is_Some (vtable_slot g0 j)) ->
  vtables_exist maps run_find l p above o =
  (Ok (Ok (existsb (fun j => applicable g0 above j && negb (is_none (object_at g0 p j))) l)), o).
Proof.
  intros G. induction l as [|j l IH]; intros Hl; [done|]. cbn [vtables_exist existsb]. specialize (IH ltac:(intros; apply Hl; by right)).
  destruct (Hl j) as [[[[q iface] fb] vt] Hv]; [by left|]. destruct (vtable_data o j q iface fb vt G Hv) as (s & find & Hs & Rs & Hd & V).
  rewrite (stm_bind_run _ _ _ _ _ V). cbv beta iota.
  assert (Ha : applicable g0 above j = negb (above && negb fb)).
  { unfold applicable. unfold vtable_slot in Hv. destruct (object_slots g0 !! j) as [s0|]; [|done]. cbn in Hv |- *.
    destruct (os_data s0) as [|[] | |]; try done. by injection Hv as -> -> -> ->. }
  rewrite Ha. destruct (above && negb fb); cbn [negb andb orb]; [done|].
  rewrite (stm_bind_run _ _ _ _ _ (get_userdata_run p j s o Hs Rs (go_current _ G) ltac:(by rewrite Hd))), (going_object o j G). cbv beta iota.
  destruct (object_at g0 p j); [done|]. by rewrite (stm_bind_run _ _ _ _ _ (going_modified o G)).
Qed.

Lemma callbacks_exist_run l above o :
  going o -> (forall j, j ∈ l -> exists s q fb cb last, object_slots g0 !! j = Some s /\ os_data s = BUS_NODE_CALLBACK q fb cb last) ->
  callbacks_exist l above o = (Ok (existsb (applicable g0 above) l), o).
Proof.
  intros G. induction l as [|j l IH]; intros Hl; [done|]. cbn [callbacks_exist existsb]. specialize (IH ltac:(intros; apply Hl; by right)).
  destruct (Hl j) as (s & q & fb & cb & last & Hj & Hd); [by left|].
  destruct (callback_data o j s q fb cb last G Hj Hd) as (s' & l' & E & _ & _ & Hd' & _).
  rewrite (stm_bind_run _ _ _ _ _ E), Hd'. unfold applicable at 1. rewrite Hj. cbn. rewrite Hd. by destruct (above && negb fb).
Qed.

(** What is in the lists of a node *)
Lemma node_callback q m j :
  nodes g0 !! q = Some m -> j ∈ n_callbacks m ->
  exists s fb cb last, object_slots g0 !! j = Some s /\ os_data s = BUS_NODE_CALLBACK q fb cb last.
Proof.
  intros Hq Hj. assert (Hh : home_of g0 j = Some (InCallbacks, q)).
  { apply (so_list _ (ro_slots _ (ro_wf _ Hok))). unfold lists_of. by rewrite Hq. }
  unfold home_of in Hh. destruct (object_slots g0 !! j) as [s|]; [|done]. cbn in Hh. exists s.
  destruct (os_data s) as [q' fb cb last|[]| |]; try done. injection Hh as ->. by eexists _, _, _.
Qed.

Lemma node_vtable q m j :
  nodes g0 !! q = Some m -> j ∈ n_vtables m <-> exists iface fb vt, vtable_slot g0 j = Some (q, iface, fb, vt).
Proof.
  intros Hq. transitivity (home_of g0 j = Some (InVtables, q)).
  { rewrite <- (so_list _ (ro_slots _ (ro_wf _ Hok))). unfold lists_of. by rewrite Hq. }
  unfold home_of, vtable_slot. destruct (object_slots g0 !! j) as [s|]; cbn; [|split; [done|by intros (? & ? & ? & ?)]].
  destruct (os_data s) as [|[q'|] iface fb vt find| |]; cbn; split; try done; try (by intros (? & ? & ? & ?)).
  - intros [= ->]. by eexists _, _, _.
  - intros (? & ? & ? & [= -> -> -> ->]). done.
Qed.

Lemma method_known_vtable above q m : nodes g0 !! q = Some m -> method_known above q = true ->
  existsb (fun j => applicable g0 above j && negb (is_none (object_at g0 p j))) (n_vtables m) = true.
Proof.
  intros Hq. unfold method_known. destruct (vtable_methods g0 !! (q, i, mem)) as [x|] eqn:Hx; [|done].
  destruct (mo_entry _ (ro_members _ (ro_wf _ Hok)) true q i mem x Hx) as (fb & vt & v & Hv & _).
  intros Hk. apply (existsb_member _ (m_parent x)); [|done]. apply (node_vtable q m); [done|]. by eexists _, _, _.
Qed.

Context (Hi : builtin_interface i = false).

Local Abbreviation run_builtin :=
  (run_builtin maps dup_fd ensure_running run_find run_get run_set run_enumerator load load_strv store sd_bus_query_sender_privilege set_order).
Local Abbreviation object_exists := (object_exists maps dup_fd ensure_running run_find).
Local Abbreviation object_find_and_run :=
  (object_find_and_run maps dup_fd ensure_running run_callback run_find run_get run_set run_enumerator load load_strv store
     sd_bus_query_sender_privilege set_order).
Local Abbreviation run_prefixes :=
  (run_prefixes maps dup_fd ensure_running run_callback run_find run_get run_set run_enumerator load load_strv store
     sd_bus_query_sender_privilege set_order).
Local Abbreviation process_object_loop :=
  (process_object_loop maps dup_fd ensure_running run_callback run_find run_get run_set run_enumerator load load_strv store
     sd_bus_query_sender_privilege set_order).

Lemma not_builtin : i <> bs "org.freedesktop.DBus.Properties" /\ i <> bs "org.freedesktop.DBus.Introspectable" /\
  i <> bs "org.freedesktop.DBus.ObjectManager".
Proof. split_and!; intros ->; by vm_compute in Hi. Qed.

Lemma not_method_call m w k : interface m = Some i -> i <> w -> sd_bus_message_is_method_call m (Some w) k = false.
Proof.
  intros Hm Hw. unfold sd_bus_message_is_method_call, matches. rewrite bool_decide_false by congruence. by rewrite andb_false_r.
Qed.

Lemma builtin_nothing m q above found o : going o -> run_builtin m q i mem above found o = (Ok (0, found), o).
Proof.
  intros G. destruct not_builtin as (H1 & H2 & H3). unfold Objects.run_builtin. rewrite (stm_bind_run (ogets _) _ o _ o eq_refl).
  destruct (streq i (bs "org.freedesktop.DBus.Properties")) eqn:E; [by apply streq_spec in E|].
  assert (Hif : interface (ow_message o) = Some i) by (pose proof (go_key _ G) as K; by injection K).
  by rewrite !not_method_call.
Qed.

Lemma exists_agrees q m above found rest o :
  nodes g0 !! q = Some m -> going o -> fresh rest o ->
  found = found || existsb (applicable g0 above) (n_callbacks m) ->
  agrees (object_exists m above found) [] (found || known_at g0 p above q) rest o.
Proof.
  intros Hq G F Hf. apply agrees_nothing; [|done|done]. unfold Objects.object_exists. destruct found; [done|].
  rewrite (stm_bind_run _ _ _ _ _ (message_path_run o G)). unfold ObjDispatch.known_at. rewrite Hq. unfold bus_node_exists.
  destruct (negb above && _); cbn [orb].
  { rewrite (stm_bind_run (mret (Ok true)) _ o _ o eq_refl). by rewrite (stm_bind_run _ _ _ _ _ (going_modified o G)). }
  rewrite stm_bind_eq, (stm_bind_run _ _ _ _ _ (callbacks_exist_run (n_callbacks m) above o G ltac:(intros j Hj; destruct (node_callback q m j Hq Hj) as (s & ? & ? & ? & ? & ?); by eexists _, _, _, _, _))).
  cbn in Hf. rewrite <- Hf. rewrite (vtables_exist_run (n_vtables m) above o G).
  2: { intros j Hj. apply (node_vtable q m j Hq) in Hj as (? & ? & ? & ->). by eexists. }
  cbn [orb]. by rewrite (stm_bind_run _ _ _ _ _ (going_modified o G)).
Qed.

Lemma receivers_at_node q m above : nodes g0 !! q = Some m ->
  receivers_at g0 i mem above q = (ObjectCallback <$> List.filter (applicable g0 above) (n_callbacks m)) ++ (method_receivers above q ++ []).
Proof. intros Hq. unfold receivers_at, method_receivers. by rewrite Hq, app_nil_r. Qed.

(** *** A node *)
Lemma find_and_run_agrees q above found rest o :
  going o -> NoDup (receivers_at g0 i mem above q ++ rest) -> fresh (receivers_at g0 i mem above q ++ rest) o ->
  agrees (object_find_and_run q above found) (receivers_at g0 i mem above q) (found || known_at g0 p above q) rest o.
Proof.
  intros G ND F. unfold Objects.object_find_and_run. unfold agrees. rewrite (stm_bind_run (ogets _) _ o _ o eq_refl), (going_nodes o G).
  destruct (nodes g0 !! q) as [m|] eqn:Hq.
  2: { unfold receivers_at in *. unfold ObjDispatch.known_at. rewrite Hq in *. rewrite orb_false_r. by apply agrees_nothing. }
  rewrite (receivers_at_node q m above Hq) in *. rewrite <- !app_assoc in ND, F. cbn [app] in ND, F.
  set (k1 := found || existsb (applicable g0 above) (n_callbacks m)).
  apply (agrees_seq _ _ _ _ k1).
  { apply callbacks_agree; [|done|by rewrite app_nil_r|by rewrite app_nil_r].
    intros j Hj. destruct (node_callback q m j Hq Hj) as (s & fb & cb & last & ? & ?). by exists s, q, fb, cb, last. }
  intros o1 G1 F1. apply NoDup_app in ND as (_ & _ & ND). pose proof (go_key _ G1) as K. injection K as _ Ki Km.
  unfold agrees. rewrite (stm_bind_run (ogets _) _ o1 _ o1 eq_refl), Ki, Km.
  apply (agrees_seq _ _ _ _ (k1 || method_known above q)).
  { apply method_agrees; [done|done|by rewrite <- app_assoc in F1]. }
  intros o2 G2 F2. replace (found || known_at g0 p above q) with ((k1 || method_known above q) || known_at g0 p above q).
  2: { subst k1. unfold ObjDispatch.known_at. rewrite Hq. pose proof (method_known_vtable above q m Hq) as Hmv.
       destruct found, (method_known above q); cbn [orb]; rewrite ?orb_true_r, ?orb_false_r; try done.
       - rewrite Hmv by done. by rewrite !orb_true_r.
       - by destruct (negb above && _), (existsb _ (n_callbacks m)). }
  apply (agrees_seq _ _ [] [] (k1 || method_known above q)).
  { apply agrees_nothing; [by apply builtin_nothing|done|done]. }
  intros o3 G3 F3. apply exists_agrees; try done. subst k1. by destruct found, (existsb _ _), (method_known above q).
Qed.

(** *** The prefixes *)
Lemma prefixes_agree l found rest o :
  let R := concat (map (receivers_at g0 i mem true) l) in
  going o -> NoDup (R ++ rest) -> fresh (R ++ rest) o ->
  agrees (run_prefixes l found) R (found || existsb (known_at g0 p true) l) rest o.
Proof.
  cbn zeta. revert found o; induction l as [|q l IH]; intros found o G ND F; [apply agrees_nothing; [by rewrite orb_false_r|done|done]|].
  cbn [map concat existsb Objects.run_prefixes] in *. rewrite <- app_assoc in ND, F.
  unfold agrees, unless_modified. rewrite (stm_bind_run _ _ _ _ _ (going_modified o G)). cbv beta iota.
  pose proof (find_and_run_agrees q true found _ o G ND F) as A. unfold agrees, agreed in A. rewrite call_receivers_app. unfold try_next. rewrite stm_bind_eq.
  apply NoDup_app in ND as (_ & _ & ND).
  destruct (call_receivers (receivers_at g0 i mem true q) o) as [[r|e] o1]; [|by rewrite A]. destruct (r =? 0) eqn:E.
  - destruct A as (-> & G1 & F1). cbn [negb]. rewrite orb_assoc. by apply IH.
  - destruct A as [b ->]. cbv beta iota. rewrite E. cbn [negb]. unfold agreed. rewrite E. by exists b.
Qed.

(** One round is enough. *)
Lemma loop_agrees rounds o :
  going o -> NoDup (receivers g0 p i mem) -> fresh (receivers g0 p i mem) o ->
  agrees (process_object_loop (S rounds) p false) (receivers g0 p i mem) (object_known finds g0 p) [] o.
Proof.
  intros G ND F. unfold receivers in *. cbn [Objects.process_object_loop]. unfold agrees.
  assert (S0 : in_registry (smod (set_nodes_modified false)) o = (Ok tt, o)).
  { pose proof (f_equal nodes_modified (go_registry _ G)) as E. cbn in E. rewrite Hmod in E. destruct o as [w g m c]. unfold in_registry. cbn in *.
    destruct g; cbn in *. by subst. }
  rewrite (stm_bind_run _ _ _ _ _ S0). pose proof (find_and_run_agrees p false false _ o G ND F) as A. unfold agrees, agreed in A.
  rewrite call_receivers_app. unfold try_next. rewrite stm_bind_eq. apply NoDup_app in ND as (_ & _ & ND).
  destruct (call_receivers (receivers_at g0 i mem false p) o) as [[r|e] o1]; [|by rewrite A]. destruct (r =? 0) eqn:E.
  2: { destruct A as [b ->]. cbv beta iota. rewrite E. cbn [negb]. unfold agreed. rewrite E. by exists b. }
  destruct A as (-> & G1 & F1). cbv beta iota. cbn [negb orb Z.eqb]. rewrite stm_bind_eq.
  pose proof (prefixes_agree (path_prefixes p) (known_at g0 p false p) [] o1 G1) as B. cbn zeta in B. rewrite app_nil_r in B. specialize (B ND F1).
  unfold agrees, agreed in B. unfold object_known. destruct (call_receivers (concat _) o1) as [[r1|e] o2]; [|by rewrite B]. destruct (r1 =? 0) eqn:E1.
  - destruct B as (-> & G2 & F2). cbv beta iota. cbn [negb Z.eqb]. rewrite (stm_bind_run _ _ _ _ _ (going_modified o2 G2)). unfold agreed. by rewrite E1.
  - destruct B as [b ->]. cbv beta iota. rewrite E1. cbn [negb]. unfold agreed. rewrite E1. by exists b.
Qed.

End Receivers.

(** ** Each receiver once *)
Lemma prefixes_shorter p : object_path_is_valid p = true -> Forall (fun q => (length q < length p)%nat) (path_prefixes p) /\ NoDup (path_prefixes p).
Proof.
  remember (length p) as k eqn:Ek. revert p Ek. induction k as [k IH] using lt_wf_ind. intros p -> Hv. rewrite (path_prefixes_step p Hv).
  destruct (streq p (bs "/")) eqn:Es; [by split; constructor|]. assert (Hroot : p <> bs "/") by (intros ->; done).
  destruct (parent_path p) as [q|] eqn:Eq; [|by split; constructor]. destruct (parent_path_shorter p q Hv Hroot Eq) as [Hlt _].
  destruct (IH (length q) Hlt q eq_refl (parent_path_valid p q Hv Eq)) as [Hs Hn]. split.
  - constructor; [done|]. eapply Forall_impl; [exact Hs|]. cbn. lia.
  - constructor; [|done]. intros Hq. rewrite Forall_forall in Hs. specialize (Hs q Hq). lia.
Qed.

Definition receiver_node (g : registry) (r : receiver) : option obj_path :=
  match r with
  | ObjectCallback j => snd <$> home_of g j
  | ObjectMethod (q, _, _) => Some q
  end.

Lemma receivers_at_home g i mem above q r : registry_ok g -> r ∈ receivers_at g i mem above q -> receiver_node g r = Some q.
Proof.
  intros H. unfold receivers_at. destruct (nodes g !! q) as [m|] eqn:Hq; [|by intros ?%elem_of_nil]. intros [Hr|Hr]%elem_of_app.
  - apply list_elem_of_fmap in Hr as (j & -> & Hj). apply list_elem_of_In, filter_In in Hj as [Hj%list_elem_of_In _]. cbn.
    assert (Hh : home_of g j = Some (InCallbacks, q)) by (apply (so_list _ (ro_slots _ (ro_wf _ H))); unfold lists_of; by rewrite Hq).
    by rewrite Hh.
  - destruct (vtable_methods g !! (q, i, mem)) as [x|]; [|by apply elem_of_nil in Hr]. destruct (applicable g above (m_parent x)); [|by apply elem_of_nil in Hr].
    by apply list_elem_of_singleton in Hr as ->.
Qed.

Lemma receivers_at_nodup g i mem above q : registry_ok g -> NoDup (receivers_at g i mem above q).
Proof.
  intros H. unfold receivers_at. destruct (nodes g !! q) as [m|] eqn:Hq; [|constructor]. apply NoDup_app. split_and!.
  - apply NoDup_fmap_2; [by intros ? ? [= ->]|]. apply NoDup_ListNoDup, List.NoDup_filter, NoDup_ListNoDup.
    pose proof (so_nodup _ (ro_slots _ (ro_wf _ H)) InCallbacks q) as N. unfold lists_of in N. by rewrite Hq in N.
  - intros r (j & -> & _)%list_elem_of_fmap. destruct (vtable_methods g !! (q, i, mem)) as [x|]; [|by intros ?%elem_of_nil].
    destruct (applicable _ _ _); [by intros ?%list_elem_of_singleton|by intros ?%elem_of_nil].
  - destruct (vtable_methods g !! (q, i, mem)) as [x|]; [|constructor]. destruct (applicable _ _ _); [apply NoDup_singleton|constructor].
Qed.

Lemma receivers_nodup_above g i mem l : registry_ok g -> NoDup l -> NoDup (concat (map (receivers_at g i mem true) l)).
Proof.
  intros H. induction 1 as [|q l Hq Hl IH]; [constructor|]. cbn. apply NoDup_app. split_and!; [by apply receivers_at_nodup| |done].
  intros r Hr Hr'. apply (receivers_at_home g i mem true q r H) in Hr. apply list_elem_of_In, in_concat in Hr' as (rs & Hrs & Hr').
  apply in_map_iff in Hrs as (q' & <- & Hq'). apply list_elem_of_In in Hr', Hq'. apply (receivers_at_home g i mem true q' r H) in Hr'. congruence.
Qed.

Lemma receivers_nodup g p i mem : registry_ok g -> object_path_is_valid p = true -> NoDup (receivers g p i mem).
Proof.
  intros H Hv. destruct (prefixes_shorter p Hv) as [Hs Hn]. unfold receivers. apply NoDup_app. split_and!; [by apply receivers_at_nodup| |by apply receivers_nodup_above].
  intros r Hr Hr'. apply (receivers_at_home g i mem false p r H) in Hr. apply list_elem_of_In, in_concat in Hr' as (rs & Hrs & Hr').
  apply in_map_iff in Hrs as (q' & <- & Hq'). apply list_elem_of_In in Hr', Hq'. apply (receivers_at_home g i mem true q' r H) in Hr'.
  rewrite Forall_forall in Hs. specialize (Hs q' Hq'). assert (q' = p) as -> by congruence. lia.
Qed.

(** ** The dispatch *)
Section Dispatch.
Context `{ErrnoTable} (maps : list sd_bus_error_map) (dup_fd : Z -> res Z) (ensure_running : stm world unit).
Context (run_callback : nat -> Z -> stm obj_world (res Z * option sd_bus_error)).
Context (run_find : nat -> obj_path -> cstr -> Z -> stm obj_world (res Z * Z * option sd_bus_error)).
Context (run_get : nat -> obj_path -> cstr -> cstr -> Z -> stm (obj_world * message) (res Z * option sd_bus_error)).
Context (run_set : nat -> obj_path -> cstr -> cstr -> Z -> stm obj_world (res Z * option sd_bus_error)).
Context (run_enumerator : nat -> obj_path -> Z -> stm obj_world (res Z * list obj_path * option sd_bus_error)).
Context (load : Z -> Z -> stm obj_world (option basic_value)) (load_strv : Z -> stm obj_world (list cstr)).
Context (store : Z -> Z -> basic_value -> stm obj_world unit).
Context (sd_bus_query_sender_privilege : message -> Z -> res bool).
Context (set_order : list obj_path -> list obj_path).
Context (finds : nat -> obj_path -> cstr -> Z -> option Z).

(** [nodes_modified] is reset. *)
Definition settled (o : obj_world) : obj_world :=
  ObjWorld (ow_world o) (set_nodes_modified false (ow_registry o)) (ow_message o) (ow_current o).

(** A call of a method of a user's interface that comes in for this connection *)
Record call_arrives (o : obj_world) (p : obj_path) (i mem : cstr) : Prop := {
  ca_objects : registry_ok (ow_registry o);
  ca_fresh : forall r, marked (ow_registry o) r <> Some (now o);
  ca_idle : ow_current o = None;
  ca_monitor : is_monitor (conn (ow_world o)) = false;
  ca_call : h_type (hdr (ow_message o)) = SD_BUS_MESSAGE_METHOD_CALL;
  ca_destination : bus_client (conn (ow_world o)) = true -> destination (ow_message o) <> None;
  ca_key : call_key (ow_message o) = (Some p, Some i, Some mem);
  ca_path : object_path_is_valid p = true;
  ca_interface : builtin_interface i = false }.

Lemma settled_ok g : registry_ok g -> registry_ok (set_nodes_modified false g).
Proof. intros [[T B [] []] R]. split; [split|exact R]; [exact T|exact B|by split|by split]. Qed.

Local Abbreviation bus_process_object :=
  (bus_process_object maps dup_fd ensure_running run_callback run_find run_get run_set run_enumerator load load_strv store
     sd_bus_query_sender_privilege set_order).
Local Abbreviation dispatch_to_receivers :=
  (dispatch_to_receivers maps dup_fd ensure_running run_callback sd_bus_query_sender_privilege finds).

(** C14. A method call is given to the callbacks and the method at its path, then to
    the fallbacks at each prefix, the longest first, until one of them answers; each
    is called once and in one round, and nobody else is. When nobody answers, the
    caller is told that the method is unknown if the object is known, and the call
    is left to others if not. That holds for callbacks that leave what is registered
    alone. *)
Theorem bus_process_object_receivers o p i mem rounds :
  calm_user run_callback run_find finds -> call_arrives o p i mem ->
  NoDup (receivers (ow_registry o) p i mem) /\
  bus_process_object (S rounds) o =
  if bool_decide (nodes (ow_registry o) = ∅) then (Ok 0, o) else dispatch_to_receivers p i mem (settled o).
Proof.
  intros U [Ho Hf Hc Hm Ht Hd Hk Hp Hi]. pose proof (receivers_nodup _ p i mem Ho Hp) as ND. split; [done|].
  assert (G : going (set_nodes_modified false (ow_registry o)) p i mem (now o) (settled o)) by (by split).
  pose proof (loop_agrees maps dup_fd ensure_running run_callback run_find run_get run_set run_enumerator load load_strv store
    sd_bus_query_sender_privilege set_order finds U _ p i mem (now o) (settled_ok _ Ho) eq_refl Hi rounds (settled o) G ND) as A.
  specialize (A ltac:(apply Forall_forall; intros r _; apply Hf)). unfold Objects.bus_process_object.
  assert (B : in_world bget o = (Ok (conn (ow_world o)), o)) by (by destruct o). rewrite (stm_bind_run _ _ _ _ _ B).
  rewrite !(stm_bind_run (ogets _) _ o _ o eq_refl), Hm, Ht. cbn [negb]. rewrite Z.eqb_refl. cbn [negb].
  destruct (bool_decide (nodes _ = ∅)); [done|]. injection Hk as Kp Ki Km.
  replace (bus_client (conn (ow_world o)) && is_none (destination (ow_message o))) with false.
  2: { destruct (bus_client _); [|done]. specialize (Hd eq_refl). by destruct (destination _). }
  rewrite (stm_bind_run message_path _ o p o) by (unfold message_path, ogets, slift; cbn; by rewrite stm_bind_eq, Kp). rewrite Km. cbn [is_none negb].
  rewrite (stm_bind_run (sreq true EASSERT) _ o tt o eq_refl). rewrite stm_bind_eq.
  unfold ObjDispatch.dispatch_to_receivers. rewrite (stm_bind_run (ogets _) _ (settled o) _ _ eq_refl), stm_bind_eq.
  unfold agrees, agreed in A. cbn [Objects.process_object_loop] in A |- *.
  assert (R : forall A (f : stm obj_world A), (in_registry (smod (set_nodes_modified false));; f) (settled o) = (in_registry (smod (set_nodes_modified false));; f) o).
  { intros A' f. by destruct o as [w [] m c]. }
  rewrite R in A. change (receivers (ow_registry (settled o)) p i mem) with (receivers (set_nodes_modified false (ow_registry o)) p i mem).
  destruct (call_receivers _ _ _ _ _ _ _ (settled o)) as [[r|e] o1]; [|by rewrite A]. destruct (r =? 0) eqn:E.
  - destruct A as (-> & G1 & _). cbv beta iota. cbn [negb Z.eqb].
    change (object_known finds (ow_registry (settled o)) p) with (object_known finds (set_nodes_modified false (ow_registry o)) p).
    destruct (object_known _ _ _); [|done]. cbn [negb]. rewrite (stm_bind_run (ogets _) _ o1 _ o1 eq_refl).
    pose proof (go_key _ _ _ _ _ _ G1) as K. injection K as _ K2 K3. destruct (not_builtin i Hi) as (Hi1 & _).
    rewrite !(not_method_call i _ _ _ K2 Hi1). cbn [orb]. rewrite K2, K3. cbn [strempty default from_option id].
    rewrite !stm_bind_eq. by destruct (reply_errorf _ _ _ _ _ o1) as [[] ].
  - destruct A as [b ->]. cbv beta iota. by rewrite ?E.
Qed.
End Dispatch.
