(* ===== verification/ObjEmit.v ===== *)
(** * Objects: the signals of properties and interfaces ([src/libsystemd/sd-bus/bus-objects.c])

    [PropertiesChanged] for properties that changed, [InterfacesAdded] and
    [InterfacesRemoved] for objects below an object manager. *)
From S2P Require Import Prelude BusType Signature Names BusError MsgState MsgWrite MsgFields MsgRead Bus Sasl Transport Call ObjTree Introspect Objects.

(** What a step came to: a value, or that the nodes were modified meanwhile *)
Abbreviation unless_changed A := (option A) (only parsing).

(** An error of a user's function goes up without the text it filled in. *)
Definition raised {S A} (f : stm S (res A * option sd_bus_error)) : stm S A := '(r, _) ← f; slift r.

Section Emit.
Context `{ErrnoTable} (maps : list sd_bus_error_map) (dup_fd : Z -> res Z).
Context (ensure_running : stm world unit).
Context (run_find : nat -> obj_path -> cstr -> Z -> stm obj_world (res Z * Z * option sd_bus_error)).
Context (run_get : nat -> obj_path -> cstr -> cstr -> Z -> stm (obj_world * message) (res Z * option sd_bus_error)).
Context (load : Z -> Z -> stm obj_world (option basic_value)) (load_strv : Z -> stm obj_world (list cstr)).

Local Abbreviation append_string := (fun s : cstr => in_reply (sd_bus_message_append_basic dup_fd SD_BUS_TYPE_STRING (Some (BStr s)))).
Local Abbreviation open_container := (fun t (c : cstr) => in_reply (sd_bus_message_open_container t c)).
Local Abbreviation close_container := (in_reply sd_bus_message_close_container).
Local Abbreviation append_property := (vtable_append_one_property maps dup_fd run_get load load_strv).
Local Abbreviation append_properties := (vtable_append_all_properties maps dup_fd run_get load load_strv).

(** [node_vtable_get_userdata] in a loop over the vtables: [inl] when the nodes were
    modified *)
Definition object_behind (p : obj_path) (i : nat) : stm obj_world (unit + option Z) :=
  u ← raised (node_vtable_get_userdata maps run_find p i);
  md ← modified;
  mret (if md : bool then inl tt else inr u).

(** ** PropertiesChanged *)

(** The first pass: whether there are invalidated and changed properties *)
Fixpoint named_changes (i : nat) (prefix p : obj_path) (interface : cstr) (u : Z) (names : list cstr) (inv chg : bool) :
    stm (obj_world * message) (unless_changed (bool * bool)) :=
  match names with
  | [] => mret (Some (inv, chg))
  | name :: names =>
      sreq (member_name_is_valid name) EINVAL;;
      g ← beside (ogets ow_registry);
      match vtable_properties g !! (prefix, interface, name) with
      | None => sfail ENOENT
      | Some x =>
          if negb (Nat.eqb i (m_parent x)) then named_changes i prefix p interface u names inv chg
          else
            v ← beside (entry_of x);
            sreq (has (vtable_flags v) SD_BUS_VTABLE_PROPERTY_EMITS_CHANGE || has (vtable_flags v) SD_BUS_VTABLE_PROPERTY_EMITS_INVALIDATION) EDOM;;
            sreq (negb (has (vtable_flags v) SD_BUS_VTABLE_HIDDEN)) EDOM;;
            if has (vtable_flags v) SD_BUS_VTABLE_PROPERTY_EMITS_INVALIDATION then named_changes i prefix p interface u names true chg
            else
              raised (append_property i v p interface u);;
              md ← beside modified;
              if md : bool then mret None else named_changes i prefix p interface u names inv true
      end
  end.

Definition is_hidden (v : sd_bus_vtable) : bool := has (vtable_flags v) SD_BUS_VTABLE_HIDDEN.

Fixpoint all_changes (i : nat) (p : obj_path) (interface : cstr) (u : Z) (l : list sd_bus_vtable) (inv chg : bool) :
    stm (obj_world * message) (unless_changed (bool * bool)) :=
  match l with
  | [] => mret (Some (inv, chg))
  | v :: l =>
      if negb (vtable_type_property v) || is_hidden v then all_changes i p interface u l inv chg
      else if has (vtable_flags v) SD_BUS_VTABLE_PROPERTY_EMITS_INVALIDATION then all_changes i p interface u l true chg
      else if negb (has (vtable_flags v) SD_BUS_VTABLE_PROPERTY_EMITS_CHANGE) then all_changes i p interface u l inv chg
      else
        raised (append_property i v p interface u);;
        md ← beside modified;
        if md : bool then mret None else all_changes i p interface u l inv true
  end.

(** [found] is [*found_interface]; it is kept when the nodes were modified. *)
Fixpoint changes_loop (l : list nat) (prefix p : obj_path) (interface : cstr) (fallback_only : bool) (names : option (list cstr))
    (found inv chg : bool) : stm (obj_world * message) (bool * unless_changed (bool * bool)) :=
  match l with
  | [] => mret (found, Some (inv, chg))
  | i :: l =>
      '(interface', fallback, vtable, _) ← beside (vtable_of i);
      if fallback_only && negb fallback || negb (streq interface' interface)
      then changes_loop l prefix p interface fallback_only names found inv chg
      else
        u ← beside (object_behind p i);
        match u with
        | inl _ => mret (found, None)
        | inr None => changes_loop l prefix p interface fallback_only names found inv chg
        | inr (Some u) =>
            e ← match names with
                | Some names => named_changes i prefix p interface u names inv chg
                | None => all_changes i p interface u (tail (vt_entries vtable)) inv chg
                end;
            match e with
            | None => mret (true, None)
            | Some (inv, chg) => changes_loop l prefix p interface fallback_only names true inv chg
            end
        end
  end.

(** The second pass: the names of what is invalidated *)
Fixpoint named_invalidations (i : nat) (prefix : obj_path) (interface : cstr) (names : list cstr) : stm (obj_world * message) unit :=
  match names with
  | [] => mret tt
  | name :: names =>
      g ← beside (ogets ow_registry);
      match vtable_properties g !! (prefix, interface, name) with
      | None => sfail EASSERT
      | Some x =>
          sreq (Nat.eqb i (m_parent x)) EASSERT;;
          v ← beside (entry_of x);
          (if has (vtable_flags v) SD_BUS_VTABLE_PROPERTY_EMITS_INVALIDATION then append_string name else mret tt);;
          named_invalidations i prefix interface names
      end
  end.

Fixpoint all_invalidations (l : list sd_bus_vtable) : stm (obj_world * message) unit :=
  match l with
  | [] => mret tt
  | v :: l =>
      match v with
      | VtableProperty _ flags member _ _ _ _ =>
          if negb (is_hidden v) && has flags SD_BUS_VTABLE_PROPERTY_EMITS_INVALIDATION then append_string member else mret tt
      | _ => mret tt
      end;;
      all_invalidations l
  end.

Fixpoint invalidations_loop (l : list nat) (prefix p : obj_path) (interface : cstr) (fallback_only : bool) (names : option (list cstr)) :
    stm (obj_world * message) (unless_changed unit) :=
  match l with
  | [] => mret (Some tt)
  | i :: l =>
      '(interface', fallback, vtable, _) ← beside (vtable_of i);
      if fallback_only && negb fallback || negb (streq interface' interface)
      then invalidations_loop l prefix p interface fallback_only names
      else
        u ← beside (object_behind p i);
        match u with
        | inl _ => mret None
        | inr None => invalidations_loop l prefix p interface fallback_only names
        | inr (Some _) =>
            match names with
            | Some names => named_invalidations i prefix interface names
            | None => all_invalidations (tail (vt_entries vtable))
            end;;
            invalidations_loop l prefix p interface fallback_only names
        end
  end.

(** The text of the signal: [inl] when there is nothing to send *)
Definition properties_changed (n : node) (prefix p : obj_path) (interface : cstr) (fallback_only : bool) (names : option (list cstr))
    (found : bool) : stm (obj_world * message) (bool * bool) :=
  append_string interface;;
  open_container SD_BUS_TYPE_ARRAY (bs "{sv}");;
  '(found, e) ← changes_loop (n_vtables n) prefix p interface fallback_only names found false false;
  match e with
  | None => mret (false, found)
  | Some (inv, chg) =>
      if negb inv && negb chg then mret (false, found)
      else
        close_container;;
        open_container SD_BUS_TYPE_ARRAY (bs "s");;
        e ← (if inv then invalidations_loop (n_vtables n) prefix p interface fallback_only names else mret (Some tt));
        match e with
        | None => mret (false, found)
        | Some _ => close_container;; mret (true, found)
        end
  end.

Local Abbreviation send := (send dup_fd ensure_running).

(** The result, and [*found_interface] *)
Definition emit_properties_changed_on_interface (prefix p : obj_path) (interface : cstr) (fallback_only found : bool)
    (names : option (list cstr)) : stm obj_world (Z * bool) :=
  g ← ogets ow_registry;
  match nodes g !! prefix with
  | None => mret (0, found)
  | Some n =>
      b ← in_world bget;
      m ← slift (sd_bus_message_new_signal (bus b) p (bs "org.freedesktop.DBus.Properties") (bs "PropertiesChanged"));
      '(ready, found, m) ← writing m (properties_changed n prefix p interface fallback_only names found);
      if ready : bool then send m;; mret (1, found) else mret (0, found)
  end.

Fixpoint emit_on_prefixes (l : list obj_path) (p : obj_path) (interface : cstr) (found : bool) (names : option (list cstr)) :
    stm obj_world (Z * bool) :=
  match l with
  | [] => mret (0, found)
  | prefix :: l =>
      try_next (emit_properties_changed_on_interface prefix p interface true found names) (fun found =>
      md ← modified;
      if md : bool then mret (0, found) else emit_on_prefixes l p interface found names)
  end.

(** [rounds] bounds how often a user's function modifies the nodes. *)
Fixpoint emit_properties_loop (rounds : nat) (p : obj_path) (interface : cstr) (found : bool) (names : option (list cstr)) :
    stm obj_world (Z * bool) :=
  match rounds with
  | O => sfail EASSERT
  | S rounds =>
      in_registry (smod (set_nodes_modified false));;
      try_next (emit_properties_changed_on_interface p p interface false found names) (fun found =>
      md ← modified;
      if md : bool then emit_properties_loop rounds p interface found names
      else
        try_next (emit_on_prefixes (path_prefixes p) p interface found names) (fun found =>
        md ← modified;
        if md : bool then emit_properties_loop rounds p interface found names else mret (0, found)))
  end.

Definition sd_bus_emit_properties_changed_strv (rounds : nat) (p : obj_path) (interface : cstr) (names : option (list cstr)) : stm obj_world Z :=
  sreq (object_path_is_valid p) EINVAL;;
  sreq (interface_name_is_valid interface) EINVAL;;
  b ← in_world bget;
  sreq (BUS_IS_OPEN (state b)) ENOTCONN;;
  if bool_decide (names = Some []) then mret 0
  else
    '(r, found) ← emit_properties_loop rounds p interface false names;
    if negb (r =? 0) then mret r else if found : bool then mret 0 else sfail ENOENT.

Definition sd_bus_emit_properties_changed (rounds : nat) (p : obj_path) (interface : cstr) (names : list cstr) : stm obj_world Z :=
  sreq (object_path_is_valid p) EINVAL;;
  sreq (interface_name_is_valid interface) EINVAL;;
  b ← in_world bget;
  sreq (BUS_IS_OPEN (state b)) ENOTCONN;;
  if bool_decide (names = []) then mret 0 else sd_bus_emit_properties_changed_strv rounds p interface (Some names).

(** ** InterfacesAdded, InterfacesRemoved *)
Definition same_interface (previous : option cstr) (interface : cstr) : bool :=
  match previous with Some s => streq interface s | None => false end.

Local Abbreviation close_two := (close_container;; close_container).

(** [s] is the set of interfaces that were handled; [None] when the nodes were modified. *)
Fixpoint object_added_loop (l : list nat) (s : list cstr) (p : obj_path) (fallback_only : bool) (previous : option cstr) :
    stm (obj_world * message) (unless_changed (list cstr * option cstr)) :=
  match l with
  | [] => mret (Some (s, previous))
  | i :: l =>
      '(interface, fallback, _, _) ← beside (vtable_of i);
      if fallback_only && negb fallback then object_added_loop l s p fallback_only previous
      else
        u ← beside (object_behind p i);
        match u with
        | inl _ => mret None
        | inr None => object_added_loop l s p fallback_only previous
        | inr (Some u) =>
            if negb (same_interface previous interface) && existsb (streq interface) s
            then object_added_loop l s p fallback_only previous
            else
              (if same_interface previous interface then mret tt
               else
                 (if is_none previous then mret tt else close_two);;
                 open_container SD_BUS_TYPE_DICT_ENTRY (bs "sa{sv}");;
                 append_string interface;;
                 open_container SD_BUS_TYPE_ARRAY (bs "{sv}"));;
              let s := if same_interface previous interface then s else s ++ [interface] in
              raised (append_properties i p u);;
              md ← beside modified;
              if md : bool then mret None else object_added_loop l s p fallback_only (Some interface)
        end
  end.

Definition object_added_append_all_prefix (s : list cstr) (prefix p : obj_path) (fallback_only : bool) :
    stm (obj_world * message) (unless_changed (list cstr)) :=
  g ← beside (ogets ow_registry);
  match nodes g !! prefix with
  | None => mret (Some s)
  | Some n =>
      e ← object_added_loop (n_vtables n) s p fallback_only None;
      match e with
      | None => mret None
      | Some (s, previous) => (if is_none previous then mret tt else close_two);; mret (Some s)
      end
  end.

(** The node itself and the fallbacks above it, for the part [f] of one node *)
Fixpoint on_prefixes (f : list cstr -> obj_path -> obj_path -> bool -> stm (obj_world * message) (unless_changed (list cstr)))
    (l : list obj_path) (s : list cstr) (p : obj_path) : stm (obj_world * message) (unless_changed unit) :=
  match l with
  | [] => mret (Some tt)
  | prefix :: l =>
      e ← f s prefix p true;
      match e with None => mret None | Some s => on_prefixes f l s p end
  end.

Definition object_added_append_all (p : obj_path) : stm (obj_world * message) (unless_changed unit) :=
  in_reply (append_empty_interfaces dup_fd builtin_interfaces);;
  e ← object_added_append_all_prefix [] p p false;
  match e with None => mret None | Some s => on_prefixes object_added_append_all_prefix (path_prefixes p) s p end.

Fixpoint object_removed_loop (l : list nat) (s : list cstr) (p : obj_path) (fallback_only : bool) (previous : option cstr) :
    stm (obj_world * message) (unless_changed (list cstr)) :=
  match l with
  | [] => mret (Some s)
  | i :: l =>
      '(interface, fallback, _, _) ← beside (vtable_of i);
      if fallback_only && negb fallback || same_interface previous interface || existsb (streq interface) s
      then object_removed_loop l s p fallback_only previous
      else
        u ← beside (object_behind p i);
        match u with
        | inl _ => mret None
        | inr None => object_removed_loop l s p fallback_only previous
        | inr (Some _) => append_string interface;; object_removed_loop l (s ++ [interface]) p fallback_only (Some interface)
        end
  end.

Definition object_removed_append_all_prefix (s : list cstr) (prefix p : obj_path) (fallback_only : bool) :
    stm (obj_world * message) (unless_changed (list cstr)) :=
  g ← beside (ogets ow_registry);
  match nodes g !! prefix with None => mret (Some s) | Some n => object_removed_loop (n_vtables n) s p fallback_only None end.

Fixpoint append_interface_names (l : list cstr) : stm (obj_world * message) unit :=
  match l with [] => mret tt | s :: l => append_string s;; append_interface_names l end.

Definition object_removed_append_all (p : obj_path) : stm (obj_world * message) (unless_changed unit) :=
  append_interface_names builtin_interfaces;;
  e ← object_removed_append_all_prefix [] p p false;
  match e with None => mret None | Some s => on_prefixes object_removed_append_all_prefix (path_prefixes p) s p end.

(** *** One interface *)
Fixpoint added_one_loop (l : list nat) (p : obj_path) (interface : cstr) (fallback_only found : bool) :
    stm (obj_world * message) (unless_changed bool) :=
  match l with
  | [] => mret (Some found)
  | i :: l =>
      '(interface', fallback, _, _) ← beside (vtable_of i);
      if fallback_only && negb fallback || negb (streq interface' interface) then added_one_loop l p interface fallback_only found
      else
        u ← beside (object_behind p i);
        match u with
        | inl _ => mret None
        | inr None => added_one_loop l p interface fallback_only found
        | inr (Some u) =>
            (if found then mret tt else append_string interface;; open_container SD_BUS_TYPE_ARRAY (bs "{sv}"));;
            raised (append_properties i p u);;
            md ← beside modified;
            if md : bool then mret None else added_one_loop l p interface fallback_only true
        end
  end.

Definition interfaces_added_append_one_prefix (prefix p : obj_path) (interface : cstr) (fallback_only : bool) :
    stm (obj_world * message) (unless_changed bool) :=
  g ← beside (ogets ow_registry);
  match nodes g !! prefix with
  | None => mret (Some false)
  | Some n =>
      e ← added_one_loop (n_vtables n) p interface fallback_only false;
      (if bool_decide (e = Some true) then close_container else mret tt);;
      mret e
  end.

Fixpoint added_one_prefixes (l : list obj_path) (p : obj_path) (interface : cstr) : stm (obj_world * message) (unless_changed unit) :=
  match l with
  | [] => sfail ENOENT
  | prefix :: l =>
      e ← interfaces_added_append_one_prefix prefix p interface true;
      match e with
      | None => mret None
      | Some true => mret (Some tt)
      | Some false => added_one_prefixes l p interface
      end
  end.

Definition interfaces_added_append_one (p : obj_path) (interface : cstr) : stm (obj_world * message) (unless_changed unit) :=
  e ← interfaces_added_append_one_prefix p p interface false;
  match e with
  | None => mret None
  | Some true => mret (Some tt)
  | Some false => added_one_prefixes (path_prefixes p) p interface
  end.

Fixpoint append_interfaces (l : list cstr) (p : obj_path) : stm (obj_world * message) (unless_changed unit) :=
  match l with
  | [] => mret (Some tt)
  | interface :: l =>
      sreq (interface_name_is_valid interface) EINVAL;;
      open_container SD_BUS_TYPE_DICT_ENTRY (bs "sa{sv}");;
      e ← interfaces_added_append_one p interface;
      match e with None => mret None | Some _ => close_container;; append_interfaces l p end
  end.

(** *** The signals *)

(** The loop the emitting functions share: the path of the object manager is read from
    its node each time. *)
Fixpoint emit_loop (rounds : nat) (manager p : obj_path) (member : string) (contents : string)
    (f : stm (obj_world * message) (unless_changed unit)) : stm obj_world Z :=
  match rounds with
  | O => sfail EASSERT
  | S rounds =>
      in_registry (smod (set_nodes_modified false));;
      in_registry (node_at manager);;
      b ← in_world bget;
      m ← slift (sd_bus_message_new_signal (bus b) manager (bs "org.freedesktop.DBus.ObjectManager") (bs member));
      '(e, m) ← writing m
        (in_reply (sd_bus_message_append_basic dup_fd SD_BUS_TYPE_OBJECT_PATH (Some (BStr p)));;
         open_container SD_BUS_TYPE_ARRAY (bs contents);;
         e ← f;
         (if is_none e then mret tt else close_container);;
         mret e);
      match e with
      | None => emit_loop rounds manager p member contents f
      | Some _ => send m;; mret 1
      end
  end.

(** The guards, and the object manager *)
Definition with_manager (p : obj_path) (k : obj_path -> stm obj_world Z) : stm obj_world Z :=
  r ← in_registry (bus_find_parent_object_manager p);
  match r with None => sfail ESRCH | Some manager => k manager end.

Definition emitting (p : obj_path) : stm obj_world unit :=
  sreq (object_path_is_valid p) EINVAL;;
  b ← in_world bget;
  sreq (BUS_IS_OPEN (state b)) ENOTCONN.

Definition sd_bus_emit_object_added (rounds : nat) (p : obj_path) : stm obj_world Z :=
  emitting p;;
  with_manager p (fun manager => emit_loop rounds manager p "InterfacesAdded" "{sa{sv}}" (object_added_append_all p)).

Definition sd_bus_emit_object_removed (rounds : nat) (p : obj_path) : stm obj_world Z :=
  emitting p;;
  with_manager p (fun manager => emit_loop rounds manager p "InterfacesRemoved" "s" (object_removed_append_all p)).

Definition sd_bus_emit_interfaces_added_strv (rounds : nat) (p : obj_path) (interfaces : list cstr) : stm obj_world Z :=
  emitting p;;
  if bool_decide (interfaces = []) then mret 0
  else with_manager p (fun manager => emit_loop rounds manager p "InterfacesAdded" "{sa{sv}}" (append_interfaces interfaces p)).

Definition sd_bus_emit_interfaces_removed_strv (p : obj_path) (interfaces : list cstr) : stm obj_world Z :=
  emitting p;;
  if bool_decide (interfaces = []) then mret 0
  else with_manager p (fun manager =>
    b ← in_world bget;
    m ← slift (sd_bus_message_new_signal (bus b) manager (bs "org.freedesktop.DBus.ObjectManager") (bs "InterfacesRemoved"));
    '(_, m) ← writing m (in_reply (sd_bus_message_append_basic dup_fd SD_BUS_TYPE_OBJECT_PATH (Some (BStr p));; sd_bus_message_append_strv dup_fd interfaces));
    send m;; mret 1).

(** [sd_bus_emit_interfaces_added], [sd_bus_emit_interfaces_removed], with the names
    given one by one *)
Definition sd_bus_emit_interfaces_added (rounds : nat) (p : obj_path) (interfaces : list cstr) : stm obj_world Z :=
  emitting p;; sd_bus_emit_interfaces_added_strv rounds p interfaces.

Definition sd_bus_emit_interfaces_removed (p : obj_path) (interfaces : list cstr) : stm obj_world Z :=
  emitting p;; sd_bus_emit_interfaces_removed_strv p interfaces.
End Emit.
