(* ===== verification/ObjExamples.v ===== *)
(** * The theorems about objects at a concrete connection

    A service with a vtable, a fallback and an object manager, and a call to an object
    below them. *)
From S2P Require Import Prelude BusType Signature Names BusError MsgState MsgWrite MsgFields MsgRead MsgCopy MsgExamples Prioq Bus Sasl Transport Call CallExamples ObjTree ObjTreeWf ObjSlots ObjRegistry Introspect Objects ObjDispatch ObjReceivers.

(** ** What is registered *)
Definition the_interface : cstr := bs "org.example.I".

(** [M] takes nothing, [Frob] two strings; [Level] is an integer behind the userdata. *)
Definition sample_vtable : vtable_pointer :=
  Vtable 4096 [VtableStart 0 sizeof_vtable;
    VtableMethod SD_BUS_VTABLE_UNPRIVILEGED (bs "M") None None (Some 5%nat) 8;
    VtableMethod SD_BUS_VTABLE_UNPRIVILEGED (bs "Frob") (Some (bs "ss")) (Some (bs "s")) (Some 6%nat) 0;
    VtableProperty false 0 (bs "Level") (bs "u") None None 16;
    VtableSignal 0 (bs "Changed") (Some (bs "u"))].

Definition registrations_made : list registration :=
  [AddObject true true (bs "/") 9 7;
   AddVtable true (bs "/a") the_interface sample_vtable true None 1000;
   AddObjectManager false (bs "/a");
   AddEnumerator false (bs "/a/b/c") 3 0;
   UnrefSlot 3].

Fixpoint register_all (l : list registration) (g : registry) : registry :=
  match l with [] => g | c :: l => register_all l (run_registration c g).2 end.

(** Whether all of them are allowed and succeed *)
Definition allowed (c : registration) (g : registry) : bool :=
  match c with RefSlot i | UnrefSlot i => negb (is_none (object_slots g !! i)) | _ => true end.

Fixpoint all_succeed (l : list registration) (g : registry) : bool :=
  match l with
  | [] => true
  | c :: l => let r := run_registration c g in allowed c g && is_ok r.1 && all_succeed l r.2
  end.

Lemma registrations_all l g : all_succeed l g = true -> registrations g (register_all l g).
Proof.
  revert g; induction l as [|c l IH]; intros g; [constructor|]. cbn. destruct (run_registration c g) as [r g1] eqn:R.
  intros [[Ha Hr]%andb_true_iff Hl]%andb_true_iff. eapply registrations_cons; [|left; by rewrite R|exact R|by apply IH].
  destruct c; cbn in *; try done; by destruct (object_slots g !! i).
Qed.

Definition sample_registry : registry := register_all registrations_made empty_registry.

Lemma sample_registrations : registrations empty_registry sample_registry.
Proof. apply registrations_all. by vm_compute. Qed.

Lemma registry_invariant_witness :
  (nodes sample_registry !! bs "/a/b", size (vtable_methods sample_registry)) = (None, 2%nat) /\
  registry_ok sample_registry /\ (run_registration (UnrefSlot 1) sample_registry).1 <> Err EASSERT.
Proof.
  split; [by vm_compute|]. destruct (registry_invariant sample_registry sample_registrations) as [H1 H2].
  split; [exact H1|]. apply H2. cbn [legal]. apply not_eq_None_Some. by vm_compute.
Defined.

Lemma find_parent_object_manager_spec_witness :
  bus_find_parent_object_manager (bs "/a/b/c") sample_registry = (Ok (Some (bs "/a")), sample_registry).
Proof.
  rewrite (find_parent_object_manager_spec sample_registry (bs "/a/b/c") sample_registrations ltac:(by vm_compute)).
  by f_equal.
Defined.

(** ** A call *)

(** The callback at the root leaves the call to others; the method answers. *)
Definition sample_callback (h : nat) (u : Z) : stm obj_world (res Z * option sd_bus_error) :=
  mret (Ok (if Nat.eqb h 9 then 0 else 1), None).

Definition no_find (f : nat) (p : obj_path) (i : cstr) (u : Z) : stm obj_world (res Z * Z * option sd_bus_error) := mret (Ok 0, 0, None).
Definition sample_get (f : nat) (p : obj_path) (i m : cstr) (u : Z) : stm (obj_world * message) (res Z * option sd_bus_error) := mret (Ok 1, None).
Definition sample_set (f : nat) (p : obj_path) (i m : cstr) (u : Z) : stm obj_world (res Z * option sd_bus_error) := mret (Ok 1, None).
Definition sample_enumerator (f : nat) (p : obj_path) (u : Z) : stm obj_world (res Z * list obj_path * option sd_bus_error) :=
  mret (Ok 0, [bs "/a/x"], None).
Definition sample_load (t u : Z) : stm obj_world (option basic_value) := mret (Some (BInt u)).
Definition sample_store (t u : Z) (v : basic_value) : stm obj_world unit := mret tt.

Definition object_call (p m : string) : message :=
  match sd_bus_message_new_method_call call_bus (Some (bs "org.example.Peer")) (bs p) (Some the_interface) (bs m) with
  | Ok c => (sd_bus_message_seal 5 0 c).2
  | Err _ => no_message
  end.

Definition object_state (p m : string) : obj_world :=
  ObjWorld (World (set_iteration_counter 3 (set_bus call_bus (set_bus_client true call_connection))) call_kernel) sample_registry (object_call p m) None.

Definition run_object (o : obj_world) : res Z * obj_world :=
  bus_process_object [] Ok (mret tt) sample_callback no_find sample_get sample_set sample_enumerator sample_load (fun _ => mret []) sample_store
    (fun _ _ => Ok false) (fun l => l) 4 o.

Lemma sample_user : calm_user sample_callback no_find (fun _ _ _ _ => None).
Proof. split; [|done]. by intros h u o a o' [= <- <-]. Qed.

(** Nobody was called in this iteration. *)
Definition unmarked_by (n : Z) (g : registry) : bool :=
  forallb (fun x => negb (m_last_iteration x.2 =? n)) (map_to_list (vtable_methods g)) &&
  forallb (fun x => negb (match os_data x.2 with BUS_NODE_CALLBACK _ _ _ last => last =? n | _ => false end)) (map_to_list (object_slots g)).

Lemma unmarked_by_fresh n g : unmarked_by n g = true -> forall r, marked g r <> Some n.
Proof.
  intros [Hm Hs]%andb_true_iff. rewrite forallb_forall in Hm, Hs. intros [i|key]; cbn.
  - destruct (object_slots g !! i) as [s|] eqn:E; [|done]. cbn. specialize (Hs (i, s) ltac:(by apply list_elem_of_In, elem_of_map_to_list)). cbn in Hs.
    destruct (os_data s); try done. intros [= ->]. by rewrite Z.eqb_refl in Hs.
  - destruct (vtable_methods g !! key) as [x|] eqn:E; [|done]. cbn. specialize (Hm (key, x) ltac:(by apply list_elem_of_In, elem_of_map_to_list)). cbn in Hm.
    intros [= E1]. by rewrite E1, Z.eqb_refl in Hm.
Qed.

Lemma sample_call_arrives p m :
  call_key (object_call p m) = (Some (bs p), Some the_interface, Some (bs m)) -> h_type (hdr (object_call p m)) = SD_BUS_MESSAGE_METHOD_CALL ->
  destination (object_call p m) <> None -> object_path_is_valid (bs p) = true ->
  call_arrives (object_state p m) (bs p) the_interface (bs m).
Proof.
  intros Hk Ht Hd Hp. constructor; cbn [object_state ow_registry ow_message ow_current ow_world conn].
  - apply (registrations_ok _ _ sample_registrations), empty_registry_ok.
  - apply unmarked_by_fresh. by vm_compute.
  - reflexivity.
  - reflexivity.
  - exact Ht.
  - intros _. exact Hd.
  - exact Hk.
  - exact Hp.
  - by vm_compute.
Qed.

(** The method at the fallback answers, so the callback at the root is not called;
    a method that does not exist is left by that one, and refused. *)
Lemma bus_process_object_receivers_witness :
  receivers sample_registry (bs "/a/b/c") the_interface (bs "M") = [ObjectMethod (bs "/a", the_interface, bs "M"); ObjectCallback 0] /\
  (let '(r, o) := run_object (object_state "/a/b/c" "M") in
   r = Ok 1 /\ marked (ow_registry o) (ObjectMethod (bs "/a", the_interface, bs "M")) = Some 3 /\ marked (ow_registry o) (ObjectCallback 0) = Some 0) /\
  (let '(r, o) := run_object (object_state "/a/b/c" "Nope") in r = Ok 1 /\ marked (ow_registry o) (ObjectCallback 0) = Some 3) /\
  run_object (object_state "/a/b/c" "M") =
    dispatch_to_receivers [] Ok (mret tt) sample_callback (fun _ _ => Ok false) (fun _ _ _ _ => None) (bs "/a/b/c") the_interface (bs "M")
      (settled (object_state "/a/b/c" "M")).
Proof.
  split; [by vm_compute|]. split; [by vm_compute|]. split; [by vm_compute|].
  assert (C : call_arrives (object_state "/a/b/c" "M") (bs "/a/b/c") the_interface (bs "M")).
  { apply sample_call_arrives; [by vm_compute|by vm_compute|by vm_compute|by vm_compute]. }
  destruct (bus_process_object_receivers [] Ok (mret tt) sample_callback no_find sample_get sample_set sample_enumerator sample_load (fun _ => mret []) sample_store
    (fun _ _ => Ok false) (fun l => l) (fun _ _ _ _ => None) _ _ _ _ 3 sample_user C) as [_ E].
  unfold run_object. rewrite E. replace (bool_decide _) with false by (by vm_compute). reflexivity.
Defined.
