(* ===== verification/Address.v ===== *)
(** * Bus addresses ([src/libsystemd/sd-bus/sd-bus.c], [bus-internal.c], [sd-id128.c])

    The list of addresses a connection is to be made to: its parts and how they are
    escaped, and trying them one after the other. *)
From S2P Require Import Prelude BusType HexDecOct Names MsgState MsgFields MsgCopy Prioq Bus Sasl Transport Call MatchRule.

(** ** Characters *)

(** [char] is signed where it is shifted. *)
Definition address_plain (c : Z) : bool := is_digit c || is_lower c || is_upper c || in_set c (bs "_-/.").

Definition percent (c : Z) : cstr := [ch "%"; hexchar (Z.shiftr (schar c) 4); hexchar (Z.land (schar c) 15)].

Fixpoint bus_address_escape (v : cstr) : cstr :=
  match v with
  | [] => []
  | c :: v => (if address_plain c then [c] else percent c) ++ bus_address_escape v
  end.

(** ** Keys *)
Definition ends_value (c : Z) : bool := in_set c [ch ";"; ch ","].

(** The loop over the characters of a value: the bytes, and where it stops *)
Fixpoint address_value (a : cstr) : res (list Z * cstr) :=
  match a with
  | [] => Ok ([], [])
  | c :: a' =>
      if ends_value c then Ok ([], a)
      else if c =? ch "%" then
        match a' with
        | d :: e :: a'' =>
            x ← unhexchar d; y ← unhexchar e;
            '(r, rest) ← address_value a'';
            Ok (wrap8 (Z.lor (Z.shiftl x 4) y) :: r, rest)
        | d :: [] => x ← unhexchar d; unhexchar 0;; Err EASSERT
        | [] => unhexchar 0;; Err EASSERT
        end
      else '(r, rest) ← address_value a'; Ok (c :: r, rest)
  end.

(** Bytes read as a C string *)
Fixpoint c_string (l : list Z) : cstr :=
  match l with [] => [] | c :: l => if c =? 0 then [] else c :: c_string l end.

(** [None] when the key is not there; else the value and what follows *)
Definition parse_address_key (p : cstr) (key : option cstr) (value : option cstr) : res (option (cstr * cstr)) :=
  start ← match key with
          | None => Ok (Some p)
          | Some k =>
              match startswith p k with
              | Some (c :: a) => if c =? ch "=" then _ ← require (bool_decide (value = None)) EINVAL; Ok (Some a) else Ok None
              | _ => Ok None
              end
          end;
  match start with
  | None => Ok None
  | Some a =>
      '(r, a) ← address_value a;
      Ok (Some (c_string r, match a with c :: a' => if c =? ch "," then a' else a | [] => [] end))
  end.

Fixpoint skip_address_key (p : cstr) : cstr :=
  match p with [] => [] | c :: p => if c =? ch "," then p else skip_address_key p end.

(** The keys a kind of address knows, and the values found so far; the first that is
    there is taken. *)
Fixpoint take_key (p : cstr) (keys : list (cstr * option cstr)) : res (option (list (cstr * option cstr) * cstr)) :=
  match keys with
  | [] => Ok None
  | (k, v) :: keys =>
      r ← parse_address_key p (Some k) v;
      match r with
      | Some (v, p) => Ok (Some ((k, Some v) :: keys, p))
      | None =>
          r ← take_key p keys;
          Ok match r with Some (keys, p) => Some ((k, v) :: keys, p) | None => None end
      end
  end.

Definition at_end (p : cstr) : bool := match p with [] => true | c :: _ => c =? ch ";" end.

(** The loop over the keys; each round takes at least a character. *)
Fixpoint address_keys (fuel : nat) (p : cstr) (keys : list (cstr * option cstr)) : res (list (cstr * option cstr) * cstr) :=
  if at_end p then Ok (keys, p)
  else
    match fuel with
    | O => Err EASSERT
    | S fuel =>
        r ← take_key p keys;
        match r with
        | Some (keys, p) => address_keys fuel p keys
        | None => address_keys fuel (skip_address_key p) keys
        end
    end.

Definition sizeof_sun_path : Z := 108.

(** The address of the socket, what follows, and the value of [guid] *)
Definition parse_unix_address (p : cstr) (guid : option cstr) : res (sockaddr_union * cstr * option cstr) :=
  '(keys, p) ← address_keys (length p) p [(bs "guid", guid); (bs "path", None); (bs "abstract", None)];
  match keys with
  | [(_, guid); (_, path); (_, abstract)] =>
      match path, abstract with
      | None, None | Some _, Some _ => Err EINVAL
      | Some path, None => _ ← require (negb (sizeof_sun_path <=? zlen path)) E2BIG; Ok (SockUnix (path ++ [0]), p, guid)
      | None, Some abstract => _ ← require (negb (sizeof_sun_path - 1 <=? zlen abstract)) E2BIG; Ok (SockUnix (0 :: abstract), p, guid)
      end
  | _ => Err EASSERT
  end.

(** *** [sd_id128_from_string] *)

(** [n] bytes are missing, [i] characters were read. *)
Fixpoint id128_loop (fuel n i : nat) (guid : bool) (s : cstr) : res (list Z * nat * bool * cstr) :=
  match n, fuel with
  | O, _ => Ok ([], i, guid, s)
  | _, O => Err EASSERT
  | S n', S fuel =>
      match s with
      | [] => Err EINVAL
      | c :: s' =>
          if c =? ch "-" then
            guid ← (if Nat.eqb i 8 then Ok true
                    else if Nat.eqb i 13 || Nat.eqb i 18 || Nat.eqb i 23 then _ ← require guid EINVAL; Ok guid
                    else Err EINVAL);
            id128_loop fuel n (S i) guid s'
          else
            match unhexchar c, s' with
            | Ok a, d :: s'' =>
                match unhexchar d with
                | Ok b =>
                    '(l, i, guid, s) ← id128_loop fuel n' (S (S i)) guid s'';
                    Ok (wrap8 (Z.lor (Z.shiftl a 4) b) :: l, i, guid, s)
                | Err _ => Err EINVAL
                end
            | _, _ => Err EINVAL
            end
      end
  end.

Definition sd_id128_from_string (s : cstr) : res (list Z) :=
  '(l, i, guid, s) ← id128_loop (S (length s)) 16 0 false s;
  _ ← require (Nat.eqb i (if guid : bool then 36 else 32)%nat) EINVAL;
  _ ← require (bool_decide (s = [])) EINVAL;
  Ok l.

(** ** The next address *)
Inductive gai_result := GaiAddress (addr : list Z) | GaiSystem (e : errno) | GaiFailed.

Section Addresses.

(** [getaddrinfo], for the family ([true] IPv6) if one is given *)
Context (getaddrinfo : cstr -> cstr -> option bool -> gai_result).

Definition address_family (family : option cstr) : res (option bool) :=
  match family with
  | None => Ok None
  | Some f => if streq f (bs "ipv4") then Ok (Some false) else if streq f (bs "ipv6") then Ok (Some true) else Err EINVAL
  end.

Definition parse_tcp_address (p : cstr) (guid : option cstr) : res (sockaddr_union * cstr * option cstr) :=
  '(keys, p) ← address_keys (length p) p [(bs "guid", guid); (bs "host", None); (bs "port", None); (bs "family", None)];
  match keys with
  | [(_, guid); (_, Some host); (_, Some port); (_, family)] =>
      family ← address_family family;
      match getaddrinfo host port family with
      | GaiAddress addr => Ok (SockInet addr, p, guid)
      | GaiSystem e => Err e
      | GaiFailed => Err EADDRNOTAVAIL
      end
  | _ => Err EINVAL
  end.

(** One address of the list, from [a] on: [None] when there is none of a kind that is
    known; [inr] the end of the list *)
Fixpoint next_address (fuel : nat) (a : cstr) : res (option ((option (sockaddr_union * bool) * cstr * option cstr))) :=
  match a with
  | [] => Ok (Some (None, [], None))
  | c :: a' =>
      match fuel with
      | O => Err EASSERT
      | S fuel =>
          if c =? ch ";" then next_address fuel a'
          else
            match startswith a (bs "unix:"), startswith a (bs "tcp:") with
            | Some a, _ => '(s, a, guid) ← parse_unix_address a None; Ok (Some (Some (s, true), a, guid))
            | None, Some a => '(s, a, guid) ← parse_tcp_address a None; Ok (Some (Some (s, false), a, guid))
            | None, None =>
                match strchr a (ch ";") with
                | Some i => next_address fuel (drop i a)
                | None => Ok None
                end
            end
      end
  end.

Definition bus_reset_parsed_address : stm connection unit :=
  smod (fun b => set_server_id SD_ID128_NULL (set_sockaddr None b)).

Definition bus_parse_next_address : stm connection bool :=
  b ← sget;
  match address b with
  | None => mret false
  | Some l =>
      let a := drop (address_index b) l in
      if bool_decide (a = []) then mret false
      else
        bus_reset_parsed_address;;
        r ← slift (next_address (length a) a);
        match r with
        | None => mret false
        | Some (found, rest, guid) =>
            match found with
            | Some (s, local) => smod (fun b => set_is_local local (set_sockaddr (Some s) b))
            | None => mret tt
            end;;
            match guid with
            | Some g => id ← slift (sd_id128_from_string g); smod (set_server_id id)
            | None => mret tt
            end;;
            smod (set_address_index (length l - length rest)%nat);;
            mret true
        end
  end.

(** ** Connecting *)

(** [socket] with [fd_move_above_stdio], and [connect] *)
Context (sys_socket : sockaddr_union -> stm world Z) (sys_connect : Z -> sockaddr_union -> stm world unit).

(** A socket in the file system, not an abstract one *)
Definition in_file_system (s : sockaddr_union) : bool :=
  match s with SockUnix p => negb (deref p =? 0) | SockInet _ => false end.

Definition bus_socket_connect : stm world bool :=
  b ← bget;
  sreq (input_fd b <? 0) EASSERT;;
  sreq (output_fd b <? 0) EASSERT;;
  match sockaddr b with
  | None => sfail EASSERT
  | Some s =>
      fd ← sys_socket s;
      bmod (fun b => set_output_fd fd (set_input_fd fd b));;
      bus_socket_setup;;
      r ← attempt (sys_connect fd s);
      match r with
      | Ok _ => bus_socket_start_auth
      | Err EINPROGRESS => on_bus (bus_set_state BUS_OPENING);; mret true
      | Err e =>
          (if (bool_decide (e = ENOENT) || bool_decide (e = ECONNREFUSED)) && watch_bind b && in_file_system s
           then on_bus bus_close_io_fds else mret tt);;
          sfail e
      end
  end.

(** An address is tried once; [rounds] bounds their number. *)
Fixpoint bus_start_address (rounds : nat) : stm world bool :=
  match rounds with
  | O => sfail EASSERT
  | S rounds =>
      let next : stm world bool :=
        r ← on_bus bus_parse_next_address;
        if r : bool then bus_start_address rounds
        else b ← bget; sfail (default ECONNREFUSED (last_connect_error b)) in
      on_bus bus_close_io_fds;;
      b ← bget;
      if bool_decide (is_Some (sockaddr b)) then
        r ← attempt bus_socket_connect;
        match r with
        | Ok r => mret r
        | Err e => bmod (set_last_connect_error (Some e));; next
        end
      else next
  end.

Definition bus_next_address (rounds : nat) : stm world bool :=
  on_bus bus_reset_parsed_address;; bus_start_address rounds.
End Addresses.
