(* ===== verification/AddressList.v ===== *)
(** * Bus addresses: lists of addresses are read back

    Addresses written with [bus_address_escape], their keys in any order, are what
    [bus_parse_next_address] finds, one after the other. *)
From S2P Require Import Prelude BusType HexDecOct Names MsgState MsgFields MsgCopy Prioq Bus Sasl Transport Call MatchRule Address.

(** ** Values *)
Definition value_end (tail : cstr) : bool := match tail with [] => true | c :: _ => ends_value c end.


Lemma address_value_plain c a : address_plain c = true -> address_value (c :: a) = ('(r, rest) ← address_value a; Ok (c :: r, rest)).
Proof.
  intros Hc. cbn [address_value].
  assert (ends_value c = false /\ c =? ch "%" = false) as [-> ->]; [|done].
  unfold address_plain, is_digit, is_lower, is_upper, ends_value, in_set in *. cbn in *. norm_ch. lia.
Qed.

Lemma address_value_percent c a : is_byte c -> address_value (percent c ++ a) = ('(r, rest) ← address_value a; Ok (c :: r, rest)).
Proof.
  intros Hc. transitivity ('(r, rest) ← address_value a;
    Ok (wrap8 (Z.lor (Z.shiftl (Z.shiftr (schar c) 4 mod 16) 4) (Z.land (schar c) 15 mod 16)) :: r, rest)).
  { unfold percent. cbn [app address_value]. change (ends_value (ch "%")) with false. change (ch "%" =? ch "%") with true. cbv iota.
    by rewrite !unhexchar_hexchar. }
  assert (E : wrap8 (Z.lor (Z.shiftl (Z.shiftr (schar c) 4 mod 16) 4) (Z.land (schar c) 15 mod 16)) = c).
  { apply (below_ind 256 (fun c => wrap8 (Z.lor (Z.shiftl (Z.shiftr (schar c) 4 mod 16) 4) (Z.land (schar c) 15 mod 16)) = c)); [|done].
    vm_compute. reflexivity. }
  by rewrite E.
Qed.

Lemma address_value_escape v tail :
  Forall is_byte v -> value_end tail = true -> address_value (bus_address_escape v ++ tail) = Ok (v, tail).
Proof.
  intros Hv Ht. induction Hv as [|c v Hc Hv IH]; cbn [bus_address_escape].
  - destruct tail as [|c tail]; [done|]. cbn in Ht |- *. by rewrite Ht.
  - rewrite <- app_assoc. destruct (address_plain c) eqn:E.
    + cbn [app]. by rewrite address_value_plain, IH.
    + by rewrite address_value_percent, IH.
Qed.

Lemma c_string_id v : is_cstr v -> c_string v = v.
Proof.
  induction 1 as [|c v Hc Hv IH]; [done|]. cbn. rewrite IH. rewrite (proj2 (Z.eqb_neq c 0)) by lia. done.
Qed.

Lemma is_cstr_bytes v : is_cstr v -> Forall is_byte v.
Proof. intros H. eapply Forall_impl; [exact H|]. unfold is_byte. lia. Qed.

(** ** Keys *)
Definition format_key (kv : cstr * cstr) : cstr := kv.1 ++ ch "=" :: bus_address_escape kv.2.

Fixpoint format_keys (l : list (cstr * cstr)) : cstr :=
  match l with
  | [] => []
  | [kv] => format_key kv
  | kv :: l => format_key kv ++ ch "," :: format_keys l
  end.

Definition key_name (k : cstr) : Prop := Forall (fun c => is_lower c = true) k /\ k <> [].

Definition list_end (tail : cstr) : bool := at_end tail.

Definition after_comma (a : cstr) : cstr := match a with c :: a' => if c =? ch "," then a' else a | [] => [] end.

Lemma parse_key_hit k v tail :
  is_cstr v -> value_end tail = true ->
  parse_address_key (format_key (k, v) ++ tail) (Some k) None = Ok (Some (v, after_comma tail)).
Proof.
  intros Hv Ht. unfold parse_address_key, format_key. cbn [fst snd]. rewrite <- app_assoc, startswith_app. cbn [app]. rewrite Z.eqb_refl. cbn.
  rewrite address_value_escape by (done || by apply is_cstr_bytes). cbn. by rewrite c_string_id.
Qed.

Lemma key_prefix k k' s c a :
  key_name k -> key_name k' -> startswith (k ++ ch "=" :: s) k' = Some (c :: a) -> c = ch "=" -> k' = k.
Proof.
  intros [Hk _] [Hk' _] E ->. apply startswith_spec in E. revert k' Hk' E. induction Hk as [|x k Hx Hk IH]; intros k' Hk' E.
  - destruct Hk' as [|y k' Hy Hk']; [done|]. injection E as <- _. by vm_compute in Hy.
  - destruct Hk' as [|y k' Hy Hk']; [injection E as -> _; by vm_compute in Hx|]. injection E as -> E. f_equal. by apply IH.
Qed.

Lemma parse_key_miss k k' v s x : key_name k -> key_name k' -> k' <> k -> parse_address_key (format_key (k, v) ++ s) (Some k') x = Ok None.
Proof.
  intros Hk Hk' Hne. unfold parse_address_key, format_key. cbn [fst snd]. rewrite <- app_assoc. cbn [app].
  destruct (startswith _ k') as [[|c a]|] eqn:E; [done| |done]. destruct (c =? ch "=") eqn:Ec; [|done].
  apply Z.eqb_eq in Ec. by apply key_prefix in E.
Qed.

(** The table of keys with one more value *)
Definition set_key (k v : cstr) (t : list (cstr * option cstr)) : list (cstr * option cstr) :=
  map (fun kx => if streq kx.1 k then (kx.1, Some v) else kx) t.

Lemma set_key_absent k v t : k ∉ t.*1 -> set_key k v t = t.
Proof.
  unfold set_key. induction t as [|[k' x] t IH]; [done|]. cbn. intros [Hne Hk]%not_elem_of_cons. rewrite IH by done.
  destruct (streq k' k) eqn:E; [|done]. by apply streq_spec in E as ->.
Qed.

Lemma take_key_hit k v tail t :
  key_name k -> Forall key_name t.*1 -> NoDup t.*1 -> (k, None) ∈ t -> is_cstr v -> value_end tail = true ->
  take_key (format_key (k, v) ++ tail) t = Ok (Some (set_key k v t, after_comma tail)).
Proof.
  intros Hk Ht ND Hin Hv Hend. induction t as [|[k' x] t IH]; [by apply elem_of_nil in Hin|]. cbn in Ht, ND.
  apply Forall_cons in Ht as [Hk' Ht]. apply NoDup_cons in ND as [Hnot ND]. cbn [take_key set_key map fst].
  destruct (decide (k' = k)) as [->|Hne].
  - assert (x = None) as ->.
    { apply elem_of_cons in Hin as [[= <-]|Hin]; [done|]. destruct Hnot. apply list_elem_of_fmap. by exists (k, None). }
    rewrite parse_key_hit by done. cbn. rewrite streq_refl. fold (set_key k v t). by rewrite (set_key_absent k v t).
  - rewrite parse_key_miss by done. rewrite IH; try done.
    + cbn. destruct (streq k' k) eqn:E; [by apply streq_spec in E|]. done.
    + apply elem_of_cons in Hin as [[= -> _]|Hin]; [done|done].
Qed.

Fixpoint set_keys (l : list (cstr * cstr)) (t : list (cstr * option cstr)) : list (cstr * option cstr) :=
  match l with [] => t | (k, v) :: l => set_keys l (set_key k v t) end.

Lemma set_key_names k v t : (set_key k v t).*1 = t.*1.
Proof. unfold set_key. induction t as [|[k' x] t IH]; [done|]. cbn. rewrite IH. by destruct (streq k' k). Qed.

Lemma set_key_others k k' v t : k' <> k -> (k', None) ∈ t -> (k', None) ∈ set_key k v t.
Proof.
  intros Hne H. apply list_elem_of_fmap. exists (k', None). split; [|done]. cbn. destruct (streq k' k) eqn:E; [|done]. by apply streq_spec in E.
Qed.

(** The characters of a key are neither separators. *)
Lemma format_not_end kv s : key_name kv.1 -> at_end (format_key kv ++ s) = false.
Proof.
  intros [Hk Hne]. destruct kv as [[|c k] v]; [done|]. cbn in *. apply Forall_cons in Hk as [Hc _].
  unfold is_lower in Hc. norm_ch. lia.
Qed.

Lemma format_key_length kv : key_name kv.1 -> (1 <= length (format_key kv))%nat.
Proof. intros _. unfold format_key. rewrite length_app. cbn. lia. Qed.

Lemma address_keys_format l tail t fuel :
  Forall (fun kv => key_name kv.1 /\ is_cstr kv.2) l -> NoDup l.*1 -> Forall key_name t.*1 -> NoDup t.*1 ->
  (forall k, k ∈ l.*1 -> (k, None) ∈ t) -> at_end tail = true -> (length (format_keys l) <= fuel)%nat ->
  address_keys fuel (format_keys l ++ tail) t = Ok (set_keys l t, tail).
Proof.
  revert t fuel; induction l as [|[k v] l IH]; intros t fuel Hl ND Ht NDt Hin Hend Hf.
  - cbn. destruct fuel; cbn; by rewrite Hend.
  - apply Forall_cons in Hl as [[Hk Hv] Hl]. cbn in Hk, Hv. cbn in ND. apply NoDup_cons in ND as [Hnot ND].
    assert (E : exists tail', format_keys ((k, v) :: l) ++ tail = format_key (k, v) ++ tail' /\ value_end tail' = true /\
      after_comma tail' = format_keys l ++ tail /\ (length (format_keys l) < length (format_keys ((k, v) :: l)))%nat).
    { destruct l as [|kv l].
      - exists tail. split; [done|]. split; [|split].
        + destruct tail as [|c tail]; [done|]. cbn in Hend |- *. unfold ends_value, in_set. cbn. by rewrite Hend.
        + destruct tail as [|c tail]; [done|]. cbn in Hend |- *. apply Z.eqb_eq in Hend as ->. done.
        + pose proof (format_key_length (k, v) Hk). cbn [format_keys length]. lia.
      - exists (ch "," :: format_keys (kv :: l) ++ tail). cbn [format_keys]. rewrite <- app_assoc. cbn [app]. split; [done|]. split; [done|]. split; [done|].
        rewrite length_app. cbn [length]. lia. }
    destruct E as (tail' & -> & Hv' & Ha & Hlen). destruct fuel as [|fuel]; [lia|]. cbn [address_keys set_keys].
    rewrite (format_not_end (k, v)) by done. rewrite take_key_hit; [|done|done|done|apply Hin; by left|done|done]. cbn.
    rewrite Ha. apply IH; [done|done|by rewrite set_key_names|by rewrite set_key_names| |done|lia].
    intros k' Hk'. apply set_key_others; [by intros ->|]. apply Hin. by right.
Qed.

(** *** Their order does not matter *)
Lemma set_key_comm k v k' v' t : k <> k' -> set_key k v (set_key k' v' t) = set_key k' v' (set_key k v t).
Proof.
  intros Hne. unfold set_key. rewrite !map_map. apply map_ext. intros [x y]. cbn.
  destruct (streq x k) eqn:E, (streq x k') eqn:E'; cbn; rewrite ?E, ?E'; try done.
  apply streq_spec in E, E'. congruence.
Qed.

Lemma set_keys_perm l l' t : l ≡ₚ l' -> NoDup l.*1 -> set_keys l t = set_keys l' t.
Proof.
  intros H. revert t. induction H as [|[k v] l l' H IH|[k v] [k' v'] l|l1 l2 l3 H1 IH1 H2 IH2]; intros t ND; cbn in *.
  - done.
  - apply NoDup_cons in ND as [_ ND]. by apply IH.
  - apply NoDup_cons in ND as [Hk _]. rewrite set_key_comm; [done|]. intros ->. apply Hk. by left.
  - rewrite IH1 by done. apply IH2. by rewrite <- H1.
Qed.

(** ** Identifiers *)
Lemma hexchar_cstr x : 0 < hexchar x < 256.
Proof.
  unfold hexchar. change 15 with (Z.ones 4). rewrite Z.land_ones by lia. change (2 ^ 4) with 16.
  pose proof (Z.mod_pos_bound x 16 ltac:(lia)) as Hb. generalize dependent (x mod 16). clear x. intros x Hx.
  assert (H : (0 <? char_at (bs "0123456789abcdef") (Z.to_nat x)) && (char_at (bs "0123456789abcdef") (Z.to_nat x) <? 256) = true); [|lia].
  apply (below_ind 16 (fun x => (0 <? char_at (bs "0123456789abcdef") (Z.to_nat x)) && (char_at (bs "0123456789abcdef") (Z.to_nat x) <? 256) = true)); [by vm_compute|done].
Qed.

Lemma hexmem_cstr l : is_cstr (hexmem l).
Proof. induction l as [|x l IH]; cbn; [constructor|]. repeat constructor; try apply hexchar_cstr. done. Qed.

Lemma hexchar_not_dash x : hexchar x =? ch "-" = false.
Proof.
  unfold hexchar. change 15 with (Z.ones 4). rewrite Z.land_ones by lia. change (2 ^ 4) with 16.
  pose proof (Z.mod_pos_bound x 16 ltac:(lia)) as Hb. generalize dependent (x mod 16). clear x. intros x Hx.
  apply (below_ind 16 (fun x => char_at (bs "0123456789abcdef") (Z.to_nat x) =? ch "-" = false)); [by vm_compute|done].
Qed.

Lemma id128_loop_hexmem l i guid fuel :
  Forall is_byte l -> (length l < fuel)%nat -> id128_loop fuel (length l) i guid (hexmem l) = Ok (l, (i + 2 * length l)%nat, guid, []).
Proof.
  intros H. revert i fuel; induction H as [|x l Hx H IH]; intros i fuel Hf.
  - destruct fuel; cbn; by rewrite Nat.add_0_r.
  - destruct fuel as [|fuel]; [cbn in Hf; lia|]. cbn [length hexmem id128_loop]. rewrite hexchar_not_dash, !unhexchar_hexchar.
    rewrite IH by (cbn in Hf; lia). cbn [mbind res_bind].
    assert (E : wrap8 (Z.lor (Z.shiftl (Z.shiftr x 4 mod 16) 4) (Z.land x 15 mod 16)) = x).
    { apply (below_ind 256 (fun x => wrap8 (Z.lor (Z.shiftl (Z.shiftr x 4 mod 16) 4) (Z.land x 15 mod 16)) = x)); [by vm_compute|done]. }
    cbv beta iota. rewrite E. do 3 f_equal. f_equal. lia.
Qed.

Lemma id128_hexmem id : length id = 16%nat -> Forall is_byte id -> sd_id128_from_string (hexmem id) = Ok id.
Proof.
  intros Hl H. unfold sd_id128_from_string. replace 16%nat with (length id). rewrite id128_loop_hexmem; [|done|].
  - cbn. by rewrite Hl.
  - assert (L : length (hexmem id) = (2 * length id)%nat) by (clear; induction id; cbn; lia). lia.
Qed.

(** ** Addresses *)
Inductive bus_address :=
  | UnixPath (path : cstr)
  | UnixAbstract (name : cstr)
  | TcpAddress (host port : cstr) (family : option bool).

(** An address, with the identifier of its server if that is told *)
Record address_entry := AddressEntry { ae_address : bus_address; ae_guid : option (list Z) }.

Definition scheme (a : bus_address) : cstr := match a with TcpAddress _ _ _ => bs "tcp:" | _ => bs "unix:" end.

Definition family_pairs (family : option bool) : list (cstr * cstr) :=
  match family with None => [] | Some v6 => [(bs "family", if v6 : bool then bs "ipv6" else bs "ipv4")] end.

Definition entry_pairs (e : address_entry) : list (cstr * cstr) :=
  match ae_address e with
  | UnixPath p => [(bs "path", p)]
  | UnixAbstract p => [(bs "abstract", p)]
  | TcpAddress h p f => (bs "host", h) :: (bs "port", p) :: family_pairs f
  end ++ match ae_guid e with None => [] | Some id => [(bs "guid", hexmem id)] end.

Definition address_valid (e : address_entry) : Prop :=
  match ae_address e with
  | UnixPath p => is_cstr p /\ zlen p < sizeof_sun_path
  | UnixAbstract p => is_cstr p /\ zlen p < sizeof_sun_path - 1
  | TcpAddress h p _ => is_cstr h /\ is_cstr p
  end /\
  match ae_guid e with None => True | Some id => length id = 16%nat /\ Forall is_byte id end.

(** The text of an address, its keys in any order *)
Definition spelled (e : address_entry) (s : cstr) : Prop :=
  exists l, l ≡ₚ entry_pairs e /\ s = scheme (ae_address e) ++ format_keys l.

(** The text of a list: separators may be repeated. *)
Inductive written : list address_entry -> cstr -> Prop :=
  | written_last e s : spelled e s -> written [e] s
  | written_cons e s es t : spelled e s -> written es t -> written (e :: es) (s ++ ch ";" :: t)
  | written_again es t : written es t -> written es (ch ";" :: t).

(** What is left of the list *)
Definition remaining (es : list address_entry) (t : cstr) : Prop :=
  (es = [] /\ t = []) \/ (exists t', t = ch ";" :: t' /\ written es t') \/ written es t.

Section Lists.
Context (getaddrinfo : cstr -> cstr -> option bool -> gai_result).

(** The address of the socket, and whether it is local *)
Definition resolves (a : bus_address) (s : sockaddr_union) (local : bool) : Prop :=
  match a with
  | UnixPath p => s = SockUnix (p ++ [0]) /\ local = true
  | UnixAbstract p => s = SockUnix (0 :: p) /\ local = true
  | TcpAddress h p f => exists addr, getaddrinfo h p f = GaiAddress addr /\ s = SockInet addr /\ local = false
  end.

Lemma entry_pairs_ok e : address_valid e ->
  Forall (fun kv => key_name kv.1 /\ is_cstr kv.2) (entry_pairs e) /\ NoDup (entry_pairs e).*1.
Proof.
  assert (K : forall k, forallb is_lower k = true -> k <> [] -> key_name k).
  { intros k Hk Hne. split; [|done]. apply Forall_forall. intros c Hc. rewrite forallb_forall in Hk. by apply Hk, list_elem_of_In. }
  intros [Ha Hg]. unfold entry_pairs. split.
  - apply Forall_app. split.
    + destruct (ae_address e) as [p|p|h p [[]|]]; cbn; repeat constructor; cbn; try (by apply K); try apply Ha; try by repeat constructor.
    + destruct (ae_guid e) as [id|]; cbn; repeat constructor; cbn; try (by apply K). apply hexmem_cstr.
  - destruct (ae_address e) as [p|p|h p [[]|]], (ae_guid e); apply (bool_decide_unpack _); by vm_compute.
Qed.

Lemma spelled_keys e l t tail :
  l ≡ₚ entry_pairs e -> address_valid e -> Forall key_name t.*1 -> NoDup t.*1 ->
  (forall k, k ∈ (entry_pairs e).*1 -> (k, None) ∈ t) -> at_end tail = true ->
  address_keys (length (format_keys l ++ tail)) (format_keys l ++ tail) t = Ok (set_keys (entry_pairs e) t, tail).
Proof.
  intros Hp Hv Ht NDt Hin Hend. destruct (entry_pairs_ok e Hv) as [Hl ND]. rewrite (address_keys_format l tail t).
  - rewrite (set_keys_perm l (entry_pairs e)) by (done || by rewrite Hp). done.
  - by rewrite Hp.
  - by rewrite Hp.
  - done.
  - done.
  - intros k Hk. apply Hin. by rewrite <- Hp.
  - done.
  - rewrite length_app. lia.
Qed.

Definition guid_value (e : address_entry) : option cstr := hexmem <$> ae_guid e.

Lemma key_table_ok (t : list (cstr * option cstr)) : forallb (fun k => forallb is_lower k.1 && negb (bool_decide (k.1 = []))) t = true ->
  Forall key_name t.*1.
Proof.
  intros H. apply Forall_forall. intros k (kv & -> & Hk)%list_elem_of_fmap. rewrite forallb_forall in H.
  apply list_elem_of_In in Hk. specialize (H kv Hk). apply andb_true_iff in H as [H1 H2]. split.
  - apply Forall_forall. intros c Hc. rewrite forallb_forall in H1. by apply H1, list_elem_of_In.
  - intros E. by rewrite bool_decide_true in H2.
Qed.

Lemma parse_unix_spelled e l tail s :
  l ≡ₚ entry_pairs e -> address_valid e -> scheme (ae_address e) = bs "unix:" -> resolves (ae_address e) s true -> at_end tail = true ->
  parse_unix_address (format_keys l ++ tail) None = Ok (s, tail, guid_value e).
Proof.
  intros Hp Hv Hs Hr Hend. unfold parse_unix_address. rewrite (spelled_keys e l _ tail Hp Hv); [|by apply key_table_ok| | |done].
  - destruct e as [[p|p|h p f] g]; [| |done]; destruct Hv as [[_ Hlen] _]; destruct Hr as [-> _]; apply Z.leb_gt in Hlen.
    + assert (K : set_keys (entry_pairs (AddressEntry (UnixPath p) g)) [(bs "guid", None); (bs "path", None); (bs "abstract", None)] =
        [(bs "guid", hexmem <$> g); (bs "path", Some p); (bs "abstract", None)]) by (by destruct g).
      rewrite K. cbv beta iota delta [mbind res_bind]. by rewrite Hlen.
    + assert (K : set_keys (entry_pairs (AddressEntry (UnixAbstract p) g)) [(bs "guid", None); (bs "path", None); (bs "abstract", None)] =
        [(bs "guid", hexmem <$> g); (bs "path", None); (bs "abstract", Some p)]) by (by destruct g).
      rewrite K. cbv beta iota delta [mbind res_bind]. by rewrite Hlen.
  - apply (bool_decide_unpack _). by vm_compute.
  - apply Forall_forall. destruct e as [[p|p|h p f] g]; [| |done]; destruct g; apply (bool_decide_unpack _); by vm_compute.
Qed.

Lemma parse_tcp_spelled e l tail s :
  l ≡ₚ entry_pairs e -> address_valid e -> scheme (ae_address e) = bs "tcp:" -> resolves (ae_address e) s false -> at_end tail = true ->
  parse_tcp_address getaddrinfo (format_keys l ++ tail) None = Ok (s, tail, guid_value e).
Proof.
  intros Hp Hv Hs Hr Hend. unfold parse_tcp_address. rewrite (spelled_keys e l _ tail Hp Hv); [|by apply key_table_ok| | |done].
  - destruct e as [[p|p|h p f] g]; [done|done|]. destruct Hr as (addr & Hr & -> & _).
    assert (K : set_keys (entry_pairs (AddressEntry (TcpAddress h p f) g)) [(bs "guid", None); (bs "host", None); (bs "port", None); (bs "family", None)] =
      [(bs "guid", hexmem <$> g); (bs "host", Some h); (bs "port", Some p); (bs "family", match f with None => None | Some v6 => Some (if v6 : bool then bs "ipv6" else bs "ipv4") end)])
      by (by destruct f as [[]|], g).
    rewrite K. cbv beta iota delta [mbind res_bind].
    assert (F : address_family (match f with None => None | Some v6 => Some (if v6 : bool then bs "ipv6" else bs "ipv4") end) = Ok f) by (by destruct f as [[]|]).
    rewrite F. by rewrite Hr.
  - apply (bool_decide_unpack _). by vm_compute.
  - apply Forall_forall. destruct e as [[p|p|h p f] g]; [done|done|]; destruct f as [[]|], g; apply (bool_decide_unpack _); by vm_compute.
Qed.

Lemma next_unix fuel a : next_address getaddrinfo (S fuel) (bs "unix:" ++ a) =
  '(s, a, guid) ← parse_unix_address a None; Ok (Some (Some (s, true), a, guid)).
Proof. reflexivity. Qed.

Lemma next_tcp fuel a : next_address getaddrinfo (S fuel) (bs "tcp:" ++ a) =
  '(s, a, guid) ← parse_tcp_address getaddrinfo a None; Ok (Some (Some (s, false), a, guid)).
Proof. reflexivity. Qed.

(** An address that is found, with the rest of the list *)
Lemma next_address_entry e s' s local tail fuel :
  spelled e s' -> address_valid e -> resolves (ae_address e) s local -> at_end tail = true -> fuel <> O ->
  next_address getaddrinfo fuel (s' ++ tail) = Ok (Some (Some (s, local), tail, guid_value e)).
Proof.
  intros (l & Hp & ->) Hv Hr Hend Hf. rewrite <- app_assoc. destruct fuel as [|fuel]; [done|].
  destruct (ae_address e) as [p|p|h p f] eqn:Ea; cbn [scheme].
  - assert (local = true) as -> by apply Hr. pose proof (parse_unix_spelled e l tail s Hp Hv) as P. rewrite Ea in P. specialize (P eq_refl Hr Hend). by rewrite next_unix, P.
  - assert (local = true) as -> by apply Hr. pose proof (parse_unix_spelled e l tail s Hp Hv) as P. rewrite Ea in P. specialize (P eq_refl Hr Hend). by rewrite next_unix, P.
  - assert (local = false) as -> by (by destruct Hr as (? & _ & _ & ?)).
    pose proof (parse_tcp_spelled e l tail s Hp Hv) as P. rewrite Ea in P. specialize (P eq_refl Hr Hend). by rewrite next_tcp, P.
Qed.

Lemma spelled_nonempty e s : spelled e s -> s <> [].
Proof. intros (l & _ & ->). by destruct (ae_address e). Qed.

Lemma next_address_written es t e es' s local fuel :
  written es t -> es = e :: es' -> address_valid e -> resolves (ae_address e) s local -> (length t <= fuel)%nat ->
  exists pre rest, t = pre ++ rest /\ remaining es' rest /\ next_address getaddrinfo fuel t = Ok (Some (Some (s, local), rest, guid_value e)).
Proof.
  intros H. revert fuel. induction H as [e1 s1 Hs|e1 s1 es1 t1 Hs Hw _|es1 t1 Hw IH]; intros fuel E Hv Hr Hf.
  - injection E as -> <-. exists s1, []. rewrite app_nil_r. split; [done|]. split; [by left|].
    pose proof (spelled_nonempty e s1 Hs). rewrite <- (app_nil_r s1) at 1. apply (next_address_entry e s1 s local []); try done. destruct s1; [done|cbn in Hf; lia].
  - injection E as -> ->. exists s1, (ch ";" :: t1). split; [done|]. split; [by right; left; exists t1|].
    apply (next_address_entry e s1 s local (ch ";" :: t1)); try done. rewrite length_app in Hf. cbn in Hf. lia.
  - destruct fuel as [|fuel]; [cbn in Hf; lia|]. destruct (IH fuel E Hv Hr) as (pre & rest & -> & Hrem & N); [cbn in Hf; lia|].
    exists (ch ";" :: pre), rest. split; [done|]. split; [done|]. exact N.
Qed.

(** The addresses that [bus_parse_next_address] finds, one after the other *)
Fixpoint all_addresses (rounds : nat) : stm connection (list (option sockaddr_union * bool * list Z)) :=
  match rounds with
  | O => sfail EASSERT
  | S rounds =>
      r ← bus_parse_next_address getaddrinfo;
      if r : bool then
        b ← sget;
        l ← all_addresses rounds;
        mret ((sockaddr b, is_local b, server_id b) :: l)
      else mret []
  end.

Definition found_as (e : address_entry) (x : option sockaddr_union * bool * list Z) : Prop :=
  let '(s, local, id) := x in
  exists a, s = Some a /\ resolves (ae_address e) a local /\ id = default SD_ID128_NULL (ae_guid e).

(** One step *)
Lemma parse_next_written b l e es t a local :
  address b = Some l -> drop (address_index b) l = t -> t <> [] -> (written (e :: es) t \/ exists t', t = ch ";" :: t' /\ written (e :: es) t') ->
  address_valid e -> resolves (ae_address e) a local ->
  exists b', bus_parse_next_address getaddrinfo b = (Ok true, b') /\ address b' = Some l /\ remaining es (drop (address_index b') l) /\
    sockaddr b' = Some a /\ is_local b' = local /\ server_id b' = default SD_ID128_NULL (ae_guid e).
Proof.
  intros Ha Ht Hne Hw Hv Hr.
  assert (Hw' : written (e :: es) t) by (destruct Hw as [?|(t' & -> & ?)]; [done|by apply written_again]).
  destruct (next_address_written _ t e es a local (length t) Hw' eq_refl Hv Hr) as (pre & rest & Et & Hrem & N); [done|].
  unfold bus_parse_next_address. rewrite (stm_bind_run sget _ b b b eq_refl), Ha, Ht, bool_decide_false by done.
  rewrite (stm_bind_run bus_reset_parsed_address _ b tt _ eq_refl). rewrite (stm_bind_run (slift _) _ _ (Some (Some (a, local), rest, guid_value e)) _) by (unfold slift; by rewrite N).
  rewrite (stm_bind_run (smod _) _ _ tt _ eq_refl).
  assert (El : l = (take (address_index b) l ++ pre) ++ rest) by (rewrite <- app_assoc, <- Et, <- Ht; by rewrite take_drop).
  assert (D : drop (length l - length rest) l = rest).
  { rewrite El at 2. rewrite drop_app_length'; [done|]. rewrite El at 1. rewrite (length_app _ rest). lia. }
  unfold guid_value. destruct Hv as [_ Hg]. destruct (ae_guid e) as [id|]; cbn [fmap option_fmap option_map].
  - destruct Hg as [Hlen Hb]. rewrite stm_bind_eq. rewrite (stm_bind_run (slift _) _ _ id _) by (unfold slift; by rewrite id128_hexmem).
    eexists. split; [reflexivity|]. cbn. rewrite Ha. by rewrite D.
  - eexists. split; [reflexivity|]. cbn. rewrite Ha. by rewrite D.
Qed.

Lemma written_nonempty es t : written es t -> es <> [] /\ t <> [].
Proof.
  induction 1 as [e s Hs|e s es t Hs _ _|es t _ [IH _]]; split; try done; [by eapply spelled_nonempty|].
  intros [-> _]%app_eq_nil. by apply spelled_nonempty in Hs.
Qed.

(** C27. A list of addresses written with [bus_address_escape] - paths and names of
    any characters, the keys in any order, separators repeated or not - is what
    [bus_parse_next_address] finds, one address after the other, each with the
    identifier of its server; then it says that there are no more. *)
Theorem address_list_found es t b xs rounds :
  written es t -> address b = Some t -> address_index b = 0%nat -> Forall address_valid es ->
  Forall2 found_as es xs -> (length es < rounds)%nat ->
  exists b', all_addresses rounds b = (Ok xs, b') /\ drop (address_index b') t = [].
Proof.
  intros Hw Ha Hi Hv Hx Hr.
  assert (Hrem : remaining es (drop (address_index b) t)) by (rewrite Hi, drop_0; by right; right).
  clear Hw Hi. revert b Ha Hrem rounds Hr. induction Hx as [|e [[s local] id] es xs Hf Hx IH]; intros b Ha Hrem rounds Hr.
  - destruct rounds as [|rounds]; [lia|]. exists b. destruct Hrem as [[_ E]|[(t' & _ & Hw)|Hw]]; [|by apply written_nonempty in Hw as []..].
    split; [|done]. cbn [all_addresses]. rewrite stm_bind_eq. unfold bus_parse_next_address. rewrite (stm_bind_run sget _ b b b eq_refl), Ha, E. done.
  - destruct rounds as [|rounds]; [cbn in Hr; lia|]. apply Forall_cons in Hv as [Hv Hvs]. destruct Hf as (a & -> & Hres & ->).
    assert (Hne : drop (address_index b) t <> [] /\ (written (e :: es) (drop (address_index b) t) \/ exists t', drop (address_index b) t = ch ";" :: t' /\ written (e :: es) t')).
    { destruct Hrem as [[? _]|[(t' & E & Hw)|Hw]]; [done| |].
      - rewrite E. split; [done|]. right. by exists t'.
      - split; [by apply written_nonempty in Hw as []|by left]. }
    destruct Hne as [Hne Hw]. destruct (parse_next_written b t e es _ a local Ha eq_refl Hne Hw Hv Hres) as (b1 & P & Ha1 & Hrem1 & S1 & L1 & I1).
    destruct (IH Hvs b1 Ha1 Hrem1 rounds) as (b' & R & D); [cbn in Hr; lia|]. exists b'. split; [|done].
    cbn [all_addresses]. rewrite (stm_bind_run _ _ _ _ _ P). rewrite (stm_bind_run sget _ b1 b1 b1 eq_refl), (stm_bind_run _ _ _ _ _ R). by rewrite S1, L1, I1.
Qed.
End Lists.

(** ** Examples *)
Definition sample_entries : list address_entry :=
  [AddressEntry (UnixPath (bs "/run/a b;c")) (Some (map Z.of_nat (seq 0 16)));
   AddressEntry (TcpAddress (bs "::1") (bs "4711") (Some true)) None;
   AddressEntry (UnixAbstract (bs "x=%,")) None].

Definition sample_addresses : cstr :=
  bs "unix:guid=000102030405060708090a0b0c0d0e0f,path=/run/a%20b%3bc;;tcp:host=%3a%3a1,port=4711,family=ipv6;unix:abstract=x%3d%25%2c".

Lemma sample_written : written sample_entries sample_addresses.
Proof.
  change sample_addresses with ((scheme (UnixPath []) ++ format_keys [(bs "guid", hexmem (map Z.of_nat (seq 0 16))); (bs "path", bs "/run/a b;c")]) ++ ch ";" :: ch ";" ::
    (scheme (TcpAddress [] [] None) ++ format_keys [(bs "host", bs "::1"); (bs "port", bs "4711"); (bs "family", bs "ipv6")]) ++ ch ";" ::
    (scheme (UnixAbstract []) ++ format_keys [(bs "abstract", bs "x=%,")])).
  apply written_cons; [|apply written_again, written_cons; [|apply written_last]]; eexists; (split; [|reflexivity]); cbn; [apply perm_swap|done|done].
Qed.

Lemma address_list_found_witness :
  (all_addresses (fun _ _ _ => GaiAddress [1; 2]) 4 (set_address_index 0 (set_address (Some sample_addresses) sd_bus_new))).1 =
    Ok [(Some (SockUnix (bs "/run/a b;c" ++ [0])), true, map Z.of_nat (seq 0 16));
        (Some (SockInet [1; 2]), false, SD_ID128_NULL); (Some (SockUnix (0 :: bs "x=%,")), true, SD_ID128_NULL)].
Proof.
  edestruct (address_list_found (fun _ _ _ => GaiAddress [1; 2]) sample_entries sample_addresses
    (set_address_index 0 (set_address (Some sample_addresses) sd_bus_new))) as (b' & R & _);
    [apply sample_written|reflexivity|reflexivity| | | |rewrite R; reflexivity].
  - repeat constructor; try done; by vm_compute.
  - repeat constructor; (eexists; split; [reflexivity|]; split; [|reflexivity]); cbn; try done. by eexists.
  - cbn. lia.
Defined.

(** A key that is not known is skipped up to the next comma, past the end of its
    address: the second address is not tried. *)
Example unknown_key_hides_addresses :
  (all_addresses (fun _ _ _ => GaiFailed) 3 (set_address_index 0 (set_address (Some (bs "unix:path=/a,x=1;unix:path=/b")) sd_bus_new))).1 =
    Ok [(Some (SockUnix (bs "/a" ++ [0])), true, SD_ID128_NULL)] /\
  (all_addresses (fun _ _ _ => GaiFailed) 3 (set_address_index 0 (set_address (Some (bs "unix:x=1;unix:path=/b")) sd_bus_new))).1 = Err EINVAL.
Proof. split; by vm_compute. Qed.
