(* ===== verification/PathCode.v ===== *)
(** * Object paths from strings ([src/libsystemd/sd-bus/sd-bus.c])

    [sd_bus_path_encode] and its relatives put arbitrary strings into object paths,
    as labels, and get them out again. *)
From S2P Require Import Prelude BusType HexDecOct Names MatchRule.

Definition bus_label_unescape (f : cstr) : cstr := bus_label_unescape_n f.

Definition sd_bus_path_encode (prefix external_id : cstr) : res cstr :=
  _ ← require (object_path_is_valid prefix) EINVAL;
  Ok (prefix ++ ch "/" :: bus_label_escape external_id).

(** [None]: the path is not below the prefix. *)
Definition sd_bus_path_decode (path prefix : cstr) : res (option cstr) :=
  _ ← require (object_path_is_valid path) EINVAL;
  _ ← require (object_path_is_valid prefix) EINVAL;
  Ok (bus_label_unescape <$> object_path_startswith path prefix).

(** ** Templates *)

(** The loop over the format characters: a label for each; [None] is a NULL argument.
    Arguments that are not there are undefined. *)
Fixpoint encode_labels (t : cstr) (args : list (option cstr)) : res (list cstr) :=
  match t with
  | [] => Ok []
  | c :: t =>
      if c =? ch "%" then
        match args with
        | [] => Err EASSERT
        | None :: _ => Err EINVAL
        | Some a :: args => l ← encode_labels t args; Ok (bus_label_escape a :: l)
        end
      else encode_labels t args
  end.

(** [path_length] *)
Definition encoded_length (t : cstr) (labels : list cstr) : Z := zlen t + foldr (fun l n => zlen l - 1 + n) 0 labels.

(** [strchrnul(p, c) - p] *)
Definition strchrnul (p : cstr) (c : Z) : nat := default (length p) (strchr p c).

Fixpoint encode_loop (fuel : nat) (t : cstr) (labels : list cstr) : res cstr :=
  match t, fuel with
  | [], _ => Ok []
  | _, O => Err EASSERT
  | _, S fuel =>
      let n := strchrnul t (ch "%") in
      match drop n t with
      | [] => Ok (take n t)
      | _ :: t' =>
          match labels with
          | [] => Err EASSERT
          | l :: labels => r ← encode_loop fuel t' labels; Ok (take n t ++ l ++ r)
          end
      end
  end.

Definition sd_bus_path_encode_many (t : cstr) (args : list (option cstr)) : res cstr :=
  labels ← encode_labels t args;
  encode_loop (length t) t labels.

(** [None]: the path does not match. *)
Fixpoint decode_loop (fuel : nat) (p t : cstr) : res (option (list cstr)) :=
  match t, fuel with
  | [], _ => Ok (if bool_decide (p = []) then Some [] else None)
  | _, O => Err EASSERT
  | _, S fuel =>
      let n := strchrnul t (ch "%") in
      if negb (streq (take n p) (take n t)) then Ok None
      else
        let p := drop n p in
        match drop n t with
        | [] => Ok (if bool_decide (p = []) then Some [] else None)
        | _ :: t =>
            let l := strchrnul t (ch "/") in
            let s := strchrnul p (ch "/") in
            if (s <? l)%nat || negb (streq (take l (drop (s - l) p)) (take l t)) then Ok None
            else
              r ← decode_loop fuel (drop s p) (drop l t);
              Ok match r with Some ls => Some (bus_label_unescape_n (take (s - l) p) :: ls) | None => None end
        end
  end.

Definition sd_bus_path_decode_many (p t : cstr) : res (option (list cstr)) := decode_loop (length t) p t.

(** ** Encoding and decoding *)
Lemma label_no_slash s : is_cstr s -> ch "/" ∉ bus_label_escape s.
Proof.
  intros Hs. destruct (label_roundtrip s Hs) as (_ & _ & H & _). intros Hin. rewrite forallb_forall in H.
  apply list_elem_of_In, H in Hin. by vm_compute in Hin.
Qed.

Lemma strchrnul_app name c r : c ∉ name -> strchrnul (name ++ c :: r) c = length name.
Proof. intros H. unfold strchrnul. by rewrite strchr_app. Qed.

Lemma strchr_none name c : c ∉ name -> strchr name c = None.
Proof.
  induction name as [|x name IH]; intros H; [done|]. cbn. apply not_elem_of_cons in H as [Hx H]. destruct (Z.eqb_spec x c); [by subst|].
  by rewrite IH.
Qed.

Lemma strchrnul_none name c : c ∉ name -> strchrnul name c = length name.
Proof. intros H. unfold strchrnul. by rewrite strchr_none. Qed.

(** A string up to a character, or to its end *)
Lemma strchrnul_split t c : exists a r, t = a ++ r /\ c ∉ a /\ (r = [] \/ exists r', r = c :: r') /\ strchrnul t c = length a.
Proof.
  unfold strchrnul. induction t as [|x t IH].
  - exists [], []. split; [done|]. split; [by intros ?%elem_of_nil|]. split; [by left|done].
  - cbn. destruct (Z.eqb_spec x c) as [->|Hne].
    + exists [], (c :: t). split; [done|]. split; [by intros ?%elem_of_nil|]. split; [right; by exists t|done].
    + destruct IH as (a & r & -> & Ha & Hr & Hl). exists (x :: a), r. split; [done|]. split; [by apply not_elem_of_cons|]. split; [done|].
      destruct (strchr (a ++ r) c) as [k|]; cbn in *; lia.
Qed.

Lemma strchrnul_part a r c : c ∉ a -> (r = [] \/ exists r', r = c :: r') -> strchrnul (a ++ r) c = length a.
Proof. intros Ha [->|[r' ->]]; [rewrite app_nil_r; by apply strchrnul_none|by apply strchrnul_app]. Qed.

(** What encoding gives: the labels in the place of the format characters *)
Fixpoint filled (t : cstr) (labels : list cstr) : cstr :=
  match t with
  | [] => []
  | c :: t =>
      if c =? ch "%" then match labels with l :: labels => l ++ filled t labels | [] => [] end
      else c :: filled t labels
  end.

Definition count_format (t : cstr) : nat := length (List.filter (Z.eqb (ch "%")) t).

Lemma filled_app a t labels : ch "%" ∉ a -> filled (a ++ t) labels = a ++ filled t labels.
Proof.
  induction a as [|x a IH]; intros H; [done|]. apply not_elem_of_cons in H as [Hx H]. cbn. destruct (Z.eqb_spec x (ch "%")); [by subst|]. by rewrite IH.
Qed.

Lemma count_app a t : ch "%" ∉ a -> count_format (a ++ t) = count_format t.
Proof.
  unfold count_format. induction a as [|x a IH]; intros H; [done|]. apply not_elem_of_cons in H as [Hx H]. cbn. destruct (Z.eqb_spec (ch "%") x); [by subst|]. by apply IH.
Qed.

Lemma encode_loop_filled fuel t labels :
  (length t <= fuel)%nat -> length labels = count_format t -> encode_loop fuel t labels = Ok (filled t labels).
Proof.
  revert t labels; induction fuel as [|fuel IH]; intros t labels Hf Hl; [by destruct t; [|cbn in Hf; lia]|].
  destruct t as [|x t0]; [done|]. cbn [encode_loop]. set (t := x :: t0) in *. destruct (strchrnul_split t (ch "%")) as (a & r & E & Ha & Hr & ->).
  rewrite E in *. clearbody t. rewrite take_app_length, drop_app_length, filled_app, count_app in * by done. destruct Hr as [->|[r' ->]].
  - by rewrite app_nil_r.
  - cbn [filled]. rewrite Z.eqb_refl. unfold count_format in Hl. cbn in Hl. destruct labels as [|l labels]; [done|].
    rewrite IH; [done| |by injection Hl]. rewrite length_app in Hf. cbn in Hf. lia.
Qed.

Lemma encode_labels_all t args :
  length args = count_format t -> encode_labels t (Some <$> args) = Ok (bus_label_escape <$> args).
Proof.
  unfold count_format. revert args; induction t as [|c t IH]; intros args Hl; cbn in *; [by destruct args|].
  rewrite (Z.eqb_sym c). destruct (ch "%" =? c); [|by apply IH]. destruct args as [|a args]; [done|]. cbn. cbn in Hl. by rewrite IH by lia.
Qed.

(** The path has the length that was computed for it. *)
Lemma filled_length t labels : length labels = count_format t -> zlen (filled t labels) = encoded_length t labels.
Proof.
  unfold encoded_length, count_format. revert labels; induction t as [|c t IH]; intros labels Hl; cbn in *; [by destruct labels|].
  rewrite (Z.eqb_sym c). destruct (ch "%" =? c).
  - destruct labels as [|l labels]; [done|]. cbn in Hl. rewrite zlen_app, IH by lia. unfold zlen. cbn. lia.
  - unfold zlen in *. cbn [length]. rewrite !Nat2Z.inj_succ, IH by done. lia.
Qed.

(** A template with at most one format character in each label *)
Fixpoint one_per_label (seen : bool) (t : cstr) : bool :=
  match t with
  | [] => true
  | c :: t =>
      if c =? ch "%" then negb seen && one_per_label true t
      else one_per_label (if c =? ch "/" then false else seen) t
  end.

Lemma one_per_label_literal seen a t : ch "%" ∉ a -> one_per_label seen (a ++ t) = true -> exists seen', one_per_label seen' t = true.
Proof.
  revert seen; induction a as [|x a IH]; intros seen Ha H; [by exists seen|]. apply not_elem_of_cons in Ha as [Hx Ha]. cbn in H.
  destruct (Z.eqb_spec x (ch "%")); [by subst|]. by eapply IH.
Qed.

(** After a format character: no other one up to the next slash *)
Lemma one_per_label_suffix t :
  one_per_label true t = true -> exists s r, t = s ++ r /\ ch "%" ∉ s /\ ch "/" ∉ s /\ (r = [] \/ exists r', r = ch "/" :: r') /\ one_per_label false r = true.
Proof.
  induction t as [|c t IH]; intros H.
  - exists [], []. split_and!; [done|by intros ?%elem_of_nil|by intros ?%elem_of_nil|by left|done].
  - cbn in H. destruct (Z.eqb_spec c (ch "%")) as [|Hne]; [done|]. destruct (Z.eqb_spec c (ch "/")) as [->|Hs].
    + exists [], (ch "/" :: t). split_and!; [done|by intros ?%elem_of_nil|by intros ?%elem_of_nil|right; by exists t|done].
    + destruct (IH H) as (s & r & -> & H1 & H2 & Hr & Ho). exists (c :: s), r. split; [done|]. split; [by apply not_elem_of_cons|]. split; [by apply not_elem_of_cons|]. done.
Qed.

Lemma decode_filled fuel t args seen :
  one_per_label seen t = true -> length args = count_format t -> Forall is_cstr args -> (length t <= fuel)%nat ->
  decode_loop fuel (filled t (bus_label_escape <$> args)) t = Ok (Some args).
Proof.
  revert t args seen; induction fuel as [|fuel IH]; intros t args seen Ho Hl Ha Hf.
  { destruct t; [|cbn in Hf; lia]. by destruct args. }
  destruct t as [|x t0]; [by destruct args|]. cbn [decode_loop]. set (t := x :: t0) in *. destruct (strchrnul_split t (ch "%")) as (a & r & E & Hna & Hr & ->).
  rewrite E in *. clearbody t. rewrite filled_app, take_app_length, drop_app_length, count_app in * by done. rewrite take_app_length, streq_refl, drop_app_length. cbn [negb].
  destruct Hr as [->|[r' ->]]; [by destruct args|].
  destruct (one_per_label_literal seen a _ Hna Ho) as [seen' Ho']. cbn in Ho'. rewrite Z.eqb_refl in Ho'. apply andb_true_iff in Ho' as [_ Ho'].
  destruct (one_per_label_suffix r' Ho') as (s & r & -> & Hs1 & Hs2 & Hr & Hor). unfold count_format in Hl. cbn in Hl. rewrite Z.eqb_refl in Hl.
  destruct args as [|v args]; [done|]. cbn in Hl. apply Forall_cons in Ha as [Hv Ha]. cbn [filled fmap list_fmap]. rewrite Z.eqb_refl. change (ch "%" =? ch "%") with true. cbv iota.
  rewrite filled_app by done.
  set (F := filled r _). assert (HF : F = [] \/ exists F', F = ch "/" :: F').
  { unfold F. destruct Hr as [->|[r1 ->]]; [by left|]. right. cbn [filled]. change (ch "/" =? ch "%") with false. by eexists. }
  rewrite (strchrnul_part s r) by done. rewrite app_assoc.
  assert (Hns : ch "/" ∉ bus_label_escape v ++ s) by (rewrite elem_of_app; intros [?|?]; [by eapply label_no_slash|done]).
  rewrite (strchrnul_part (bus_label_escape v ++ s) F) by done. rewrite length_app.
  rewrite (proj2 (Nat.ltb_ge _ _)) by lia. replace (length (bus_label_escape v) + length s - length s)%nat with (length (bus_label_escape v)) by lia.
  rewrite <- app_assoc, drop_app_length, !take_app_length, streq_refl. cbn [negb orb].
  rewrite drop_app_length. replace (drop (length (bus_label_escape v) + length s) (bus_label_escape v ++ s ++ F)) with F by (rewrite app_assoc, <- length_app; by rewrite drop_app_length).
  assert (Hl' : length args = count_format r).
  { assert (K : count_format (s ++ r) = count_format r) by (by apply count_app). unfold count_format in *. lia. }
  unfold F. rewrite (IH r args false Hor Hl' Ha) by (rewrite !length_app in Hf; cbn in Hf; rewrite length_app in Hf; lia). cbn.
  do 3 f_equal. by apply label_roundtrip.
Qed.

(** C28. What [sd_bus_path_encode_many] puts into a template with at most one format
    character in each label is what [sd_bus_path_decode_many] gets out of the path
    with the same template: arbitrary strings, empty ones included. The path has the
    length that was allocated for it. *)
Theorem path_many_roundtrip t args :
  one_per_label false t = true -> length args = count_format t -> Forall is_cstr args ->
  exists p, sd_bus_path_encode_many t (Some <$> args) = Ok p /\ zlen p = encoded_length t (bus_label_escape <$> args) /\
    sd_bus_path_decode_many p t = Ok (Some args).
Proof.
  intros Ho Hl Ha. exists (filled t (bus_label_escape <$> args)). unfold sd_bus_path_encode_many. rewrite encode_labels_all by done. cbn.
  rewrite encode_loop_filled by (rewrite ?length_fmap; done). split; [done|]. split; [apply filled_length; by rewrite length_fmap|].
  unfold sd_bus_path_decode_many. by eapply decode_filled.
Qed.

Lemma path_many_roundtrip_witness :
  sd_bus_path_encode_many (bs "/org/x%y/%") [Some (bs "a/b"); Some []] = Ok (bs "/org/xa_2fby/_") /\
  sd_bus_path_decode_many (bs "/org/xa_2fby/_") (bs "/org/x%y/%") = Ok (Some [bs "a/b"; []]).
Proof.
  destruct (path_many_roundtrip (bs "/org/x%y/%") [bs "a/b"; []]) as (p & E & _ & D); [by vm_compute|by vm_compute|repeat constructor; by vm_compute|].
  assert (p = bs "/org/xa_2fby/_") as -> by (vm_compute in E; by injection E as <-). split; [by vm_compute|exact D].
Defined.

(** The path made for one string below the root is not valid, and cannot be decoded. *)
Example root_prefix_encodes_invalid :
  sd_bus_path_encode (bs "/") (bs "x") = Ok (bs "//x") /\ object_path_is_valid (bs "//x") = false /\ sd_bus_path_decode (bs "//x") (bs "/") = Err EINVAL.
Proof. by vm_compute. Qed.

(** Below any other prefix it is, and decodes to the string. *)
Lemma path_roundtrip prefix s :
  is_cstr prefix -> is_cstr s -> object_path_is_valid prefix = true -> prefix <> bs "/" ->
  exists p, sd_bus_path_encode prefix s = Ok p /\ object_path_is_valid p = true /\ sd_bus_path_decode p prefix = Ok (Some s).
Proof.
  intros Hp Hs Hv Hne. unfold sd_bus_path_encode. rewrite Hv. cbn. eexists. split; [reflexivity|].
  destruct (label_roundtrip s Hs) as (Hu & Hl & Hc & _). set (e := bus_label_escape s) in *.
  assert (Hcs : is_cstr (prefix ++ ch "/" :: e)).
  { apply Forall_app. split; [done|]. constructor; [by vm_compute|]. rewrite Forall_forall. intros c Hin. rewrite forallb_forall in Hc.
    apply list_elem_of_In, Hc in Hin. unfold is_label_char, is_digit, is_lower, is_upper in Hin. norm_ch. lia. }
  assert (Hvp : object_path_is_valid (prefix ++ ch "/" :: e) = true).
  { apply object_path_is_valid_ref; [done|]. apply object_path_is_valid_ref in Hv as [?|(es & Hes & Hg & ->)]; [done| |done]. right.
    exists (es ++ [e]). split; [by destruct es|]. split.
    - apply Forall_app. split; [done|]. constructor; [|constructor]. split; [done|]. rewrite forallb_forall in Hc |- *. intros c Hin. apply Hc in Hin.
      unfold is_label_char, member_good, is_digit, is_lower, is_upper in *. norm_ch. lia.
    - rewrite map_app, concat_app. cbn. by rewrite app_nil_r. }
  split; [done|]. unfold sd_bus_path_decode. rewrite Hvp, Hv. cbn [require mbind res_bind]. unfold object_path_startswith. rewrite Hvp, Hv. cbn [negb orb].
  destruct (streq prefix (bs "/")) eqn:Es; [by apply streq_spec in Es|]. rewrite startswith_app. cbn. rewrite Z.eqb_refl. change (ch "/" =? 0) with false. cbn. unfold bus_label_unescape. by rewrite Hu.
Qed.
