(* ===== verification/Track.v ===== *)
(** * Peers that are tracked ([src/libsystemd/sd-bus/bus-track.c])

    A track object watches names on the bus and has its handler called when none is
    left. The objects, the list and the queue of the connection that they are in,
    and the matches that tell when a name goes; handlers are programs over the
    library that call it back. *)
From S2P Require Import Prelude BusType Names MsgState MsgWrite MsgFields MsgRead.

Record track_item := TrackItem { ti_n_ref : Z; ti_slot : nat }.

(** [iterator] has the names that [sd_bus_track_next] has yet to give. *)
Record sd_bus_track := SdBusTrack {
  t_n_ref : Z;
  n_adding : Z;
  t_handler : option nat;
  names : gmap (list Z) track_item;
  iterator : list (list Z);
  in_list : bool;
  in_queue : bool;
  modified : bool;
  recursive : bool }.

Definition set_t_n_ref v t := SdBusTrack v (n_adding t) (t_handler t) (names t) (iterator t) (in_list t) (in_queue t) (modified t) (recursive t).
Definition set_n_adding v t := SdBusTrack (t_n_ref t) v (t_handler t) (names t) (iterator t) (in_list t) (in_queue t) (modified t) (recursive t).
Definition set_names v t := SdBusTrack (t_n_ref t) (n_adding t) (t_handler t) v (iterator t) (in_list t) (in_queue t) (modified t) (recursive t).
Definition set_iterator v t := SdBusTrack (t_n_ref t) (n_adding t) (t_handler t) (names t) v (in_list t) (in_queue t) (modified t) (recursive t).
Definition set_in_list v t := SdBusTrack (t_n_ref t) (n_adding t) (t_handler t) (names t) (iterator t) v (in_queue t) (modified t) (recursive t).
Definition set_in_queue v t := SdBusTrack (t_n_ref t) (n_adding t) (t_handler t) (names t) (iterator t) (in_list t) v (modified t) (recursive t).
Definition set_modified v t := SdBusTrack (t_n_ref t) (n_adding t) (t_handler t) (names t) (iterator t) (in_list t) (in_queue t) v (recursive t).
Definition set_recursive v t := SdBusTrack (t_n_ref t) (n_adding t) (t_handler t) (names t) (iterator t) (in_list t) (in_queue t) (modified t) v.

(** What happened, for the statements: an object lost its last name; a handler was
    called. *)
Inductive track_event := Emptied (t : nat) | Called (t : nat).

(** The objects there are, [bus->tracks], [bus->track_queue], the matches that are
    installed with the object they are for, and the references users hold. *)
Record tracking := Tracking {
  objects : gmap nat sd_bus_track;
  tracks : list nat;
  track_queue : list nat;
  track_matches : gmap nat (nat * list Z);
  next_id : nat;
  held : gmap nat Z;
  track_events : list track_event }.

Definition no_tracking : tracking := Tracking empty [] [] empty 0 empty [].

Definition set_objects v s := Tracking v (tracks s) (track_queue s) (track_matches s) (next_id s) (held s) (track_events s).
Definition set_tracks v s := Tracking (objects s) v (track_queue s) (track_matches s) (next_id s) (held s) (track_events s).
Definition set_track_queue v s := Tracking (objects s) (tracks s) v (track_matches s) (next_id s) (held s) (track_events s).
Definition set_track_matches v s := Tracking (objects s) (tracks s) (track_queue s) v (next_id s) (held s) (track_events s).
Definition set_held v s := Tracking (objects s) (tracks s) (track_queue s) (track_matches s) (next_id s) v (track_events s).
Definition track_note e s := Tracking (objects s) (tracks s) (track_queue s) (track_matches s) (next_id s) (held s) (track_events s ++ [e]).

(** An object that is gone must not be looked at. *)
Definition track_get (t : nat) : stm tracking sd_bus_track :=
  s ← sget;
  match objects s !! t with Some x => mret x | None => sfail EASSERT end.

Definition mod_track (t : nat) (f : sd_bus_track -> sd_bus_track) : stm tracking unit :=
  track_get t;; smod (fun s => set_objects (alter f t (objects s)) s).

Definition remove_from (t : nat) (l : list nat) : list nat := List.filter (fun u => negb (Nat.eqb u t)) l.

(** [MATCH_FOR_NAME] *)
Definition match_for_name (name : cstr) : list Z :=
  bs "type='signal',sender='org.freedesktop.DBus',path='/org/freedesktop/DBus',interface='org.freedesktop.DBus',member='NameOwnerChanged',arg0='"
    ++ name ++ bs "'".

(** ** Queueing *)
Definition bus_track_add_to_queue (t : nat) : stm tracking unit :=
  x ← track_get t;
  if in_queue x then mret tt
  else if 0 <? n_adding x then mret tt
  else if (0 <? size (names x))%nat then mret tt
  else if bool_decide (t_handler x = None) then mret tt
  else if negb (in_list x) then mret tt
  else
    smod (fun s => set_track_queue (t :: track_queue s) s);;
    mod_track t (set_in_queue true).

Definition bus_track_remove_from_queue (t : nat) : stm tracking unit :=
  x ← track_get t;
  if negb (in_queue x) then mret tt
  else
    smod (fun s => set_track_queue (remove_from t (track_queue s)) s);;
    mod_track t (set_in_queue false).

(** [track_item_free]: the slot of the match goes. *)
Definition track_item_free (i : track_item) : stm tracking unit :=
  smod (fun s => set_track_matches (delete (ti_slot i) (track_matches s)) s).

Definition free_items (l : gmap (list Z) track_item) : stm tracking unit :=
  smod (fun s => set_track_matches (foldr (fun i m => delete (ti_slot i) m) (track_matches s) (map_to_list l).*2) s).

Definition bus_track_remove_name_fully (t : nat) (name : cstr) : stm tracking Z :=
  x ← track_get t;
  match names x !! name with
  | None => mret 0
  | Some i =>
      mod_track t (set_names (delete name (names x)));;
      track_item_free i;;
      (if bool_decide (delete name (names x) = ∅) then smod (track_note (Emptied t)) else mret tt);;
      bus_track_add_to_queue t;;
      mod_track t (set_modified true);;
      mret 1
  end.

(** ** Objects *)
Definition EOVERFLOW : errno := EOTHER 75.

(** The new object, to which the caller has a reference *)
Definition sd_bus_track_new (bus_client : bool) (handler : option nat) : stm tracking nat :=
  sreq bus_client EINVAL;;
  s ← sget;
  let t := next_id s in
  smod (fun s => Tracking (<[t := SdBusTrack 1 0 handler ∅ [] true false false false]> (objects s)) (t :: tracks s) (track_queue s)
    (track_matches s) (S t) (<[t := 1]> (held s)) (track_events s));;
  bus_track_add_to_queue t;;
  mret t.

Definition track_free (t : nat) : stm tracking unit :=
  x ← track_get t;
  (if in_list x then smod (fun s => set_tracks (remove_from t (tracks s)) s) else mret tt);;
  bus_track_remove_from_queue t;;
  free_items (names x);;
  smod (fun s => set_objects (delete t (objects s)) s).

(** The counter is an unsigned int that the source lets wrap around. Here a run ends
    at the reference that would be the 2^32nd, with an error the source does not
    have: what is shown of a run holds up to there. *)
Definition sd_bus_track_ref (t : nat) : stm tracking unit :=
  x ← track_get t;
  sreq (0 <? t_n_ref x) EASSERT;;
  sreq (t_n_ref x + 1 <? 2 ^ 32) EOVERFLOW;;
  mod_track t (set_t_n_ref (t_n_ref x + 1)).

Definition sd_bus_track_unref (t : nat) : stm tracking unit :=
  x ← track_get t;
  sreq (0 <? t_n_ref x) EASSERT;;
  let n := t_n_ref x - 1 in
  mod_track t (set_t_n_ref n);;
  if 0 <? n then mret tt else track_free t.

(** ** Names

    The slot of the match and the answer of the bus are arguments: what
    [sd_bus_add_match_async] and [sd_bus_get_name_creds] return. Neither calls
    anybody back. *)
(** [n->n_ref] is 0 until the end. *)
Definition add_new_name (t : nat) (name : cstr) (added known : res unit) : stm tracking Z :=
  bus_track_remove_from_queue t;;
  match added with
  | Err e => bus_track_add_to_queue t;; sfail e
  | Ok _ =>
      s ← sget;
      let slot := next_id s in
      let n := TrackItem 0 slot in
      smod (fun s => Tracking (objects s) (tracks s) (track_queue s) (<[slot := (t, match_for_name name)]> (track_matches s))
        (S slot) (held s) (track_events s));;
      x ← track_get t;
      mod_track t (set_names (<[name := n]> (names x)));;
      mod_track t (set_n_adding (n_adding x + 1));;
      mod_track t (set_n_adding (n_adding x));;
      match known with
      | Err e =>
          x ← track_get t;
          mod_track t (set_names (delete name (names x)));;
          bus_track_add_to_queue t;;
          track_item_free n;;
          sfail e
      | Ok _ =>
          x ← track_get t;
          mod_track t (set_names (<[name := TrackItem 1 slot]> (names x)));;
          bus_track_remove_from_queue t;;
          mod_track t (set_modified true);;
          mret 1
      end
  end.

(** For a name that is tracked already, [track->n_ref] is counted up, not
    [i->n_ref]. *)
Definition sd_bus_track_add_name (t : nat) (name : cstr) (added known : res unit) : stm tracking Z :=
  sreq (service_name_is_valid name) EINVAL;;
  x ← track_get t;
  match names x !! name with
  | Some i =>
      (if recursive x then
         let k := wrap32 (t_n_ref x + 1) in
         sreq (negb (k <? t_n_ref x)) EOVERFLOW;;
         mod_track t (set_t_n_ref k)
       else mret tt);;
      bus_track_remove_from_queue t;;
      mret 0
  | None => add_new_name t name added known
  end.

Definition sd_bus_track_remove_name (t : nat) (name : cstr) : stm tracking Z :=
  x ← track_get t;
  if negb (recursive x) then bus_track_remove_name_fully t name
  else
    match names x !! name with
    | None => sfail EUNATCH
    | Some i =>
        sreq (0 <? ti_n_ref i) EUNATCH;;
        let n := ti_n_ref i - 1 in
        mod_track t (set_names (<[name := TrackItem n (ti_slot i)]> (names x)));;
        if n <=? 0 then bus_track_remove_name_fully t name else mret 1
    end.

(** The sender of a message of the same connection *)
Definition with_sender {A} (m : message) (f : cstr -> stm tracking A) : stm tracking A :=
  match sender m with Some n => f n | None => sfail EINVAL end.
Definition sd_bus_track_add_sender (t : nat) (m : message) (added known : res unit) : stm tracking Z :=
  with_sender m (fun n => sd_bus_track_add_name t n added known).
Definition sd_bus_track_remove_sender (t : nat) (m : message) : stm tracking Z :=
  with_sender m (sd_bus_track_remove_name t).

Definition sd_bus_track_count (t : nat) : stm tracking Z := x ← track_get t; mret (Z.of_nat (size (names x))).
Definition sd_bus_track_contains (t : nat) (name : cstr) : stm tracking bool :=
  x ← track_get t; mret (bool_decide (is_Some (names x !! name))).
Definition sd_bus_track_count_name (t : nat) (name : cstr) : stm tracking Z :=
  sreq (service_name_is_valid name) EINVAL;;
  x ← track_get t; mret (match names x !! name with Some i => ti_n_ref i | None => 0 end).
Definition sd_bus_track_count_sender (t : nat) (m : message) : stm tracking Z := with_sender m (sd_bus_track_count_name t).

Definition sd_bus_track_set_recursive (t : nat) (b : bool) : stm tracking unit :=
  x ← track_get t;
  if Bool.eqb (recursive x) b then mret tt
  else
    sreq (bool_decide (names x = ∅)) EBUSY;;
    mod_track t (set_recursive b).
Definition sd_bus_track_get_recursive (t : nat) : stm tracking bool := x ← track_get t; mret (recursive x).

(** ** Programs over the library

    [order] is how the hash map lists its keys. *)
Section Programs.
Context (order : gmap (list Z) track_item -> list (list Z)).

(** The first of the keys that remain which is still there *)
Definition iterate (x : sd_bus_track) (l : list (list Z)) : option (list Z) * list (list Z) :=
  match List.filter (fun n => bool_decide (is_Some (names x !! n))) l with
  | [] => (None, [])
  | n :: l => (Some n, l)
  end.

Definition sd_bus_track_first (t : nat) : stm tracking (option (list Z)) :=
  x ← track_get t;
  mod_track t (set_modified false);;
  let '(n, l) := iterate x (order (names x)) in
  mod_track t (set_iterator l);;
  mret n.

Definition sd_bus_track_next (t : nat) : stm tracking (option (list Z)) :=
  x ← track_get t;
  if modified x then mret None
  else
    let '(n, l) := iterate x (iterator x) in
    mod_track t (set_iterator l);;
    mret n.

Inductive track_op :=
  | TrackNew (bus_client : bool) (handler : option nat)
  | TrackRef (t : nat)
  | TrackUnref (t : nat)
  | AddName (t : nat) (name : cstr) (added known : res unit)
  | RemoveName (t : nat) (name : cstr)
  | AddSender (t : nat) (m : message) (added known : res unit)
  | RemoveSender (t : nat) (m : message)
  | CountNames (t : nat)
  | CountName (t : nat) (name : cstr)
  | FirstName (t : nat)
  | NextName (t : nat)
  | SetRecursive (t : nat) (b : bool).

Definition op_object (op : track_op) : option nat :=
  match op with
  | TrackNew _ _ => None
  | TrackRef t | TrackUnref t | AddName t _ _ _ | RemoveName t _ | AddSender t _ _ _ | RemoveSender t _ | CountNames t
  | CountName t _ | FirstName t | NextName t | SetRecursive t _ => Some t
  end.

(** A user uses objects that exist, and drops the references they have; the bus
    answers with error numbers. *)
Definition is_real (r : res unit) : bool := negb (bool_decide (r = Err EASSERT)).
Definition entitled (s : tracking) (op : track_op) : bool :=
  match op_object op with
  | None => true
  | Some t =>
      bool_decide (is_Some (objects s !! t)) &&
      match op with
      | TrackUnref _ => 0 <? default 0 (held s !! t)
      | AddName _ _ a k | AddSender _ _ a k => is_real a && is_real k
      | _ => true
      end
  end.

Definition hold (t : nat) (n : Z) : stm tracking unit :=
  smod (fun s => set_held (<[t := default 0 (held s !! t) + n]> (held s)) s).

Definition perform (op : track_op) : stm tracking Z :=
  match op with
  | TrackNew client h => t ← sd_bus_track_new client h; mret (Z.of_nat t)
  | TrackRef t => sd_bus_track_ref t;; hold t 1;; mret 0
  | TrackUnref t => hold t (-1);; sd_bus_track_unref t;; mret 0
  | AddName t n a k => sd_bus_track_add_name t n a k
  | RemoveName t n => sd_bus_track_remove_name t n
  | AddSender t m a k => sd_bus_track_add_sender t m a k
  | RemoveSender t m => sd_bus_track_remove_sender t m
  | CountNames t => sd_bus_track_count t
  | CountName t n => sd_bus_track_count_name t n
  | FirstName t => n ← sd_bus_track_first t; mret (if bool_decide (is_Some n) then 1 else 0)
  | NextName t => n ← sd_bus_track_next t; mret (if bool_decide (is_Some n) then 1 else 0)
  | SetRecursive t b => sd_bus_track_set_recursive t b;; mret 0
  end.

(** A user that is not entitled ends the run, with [EFAULT]. *)
Definition EFAULT : errno := EOTHER 14.
Definition attempted {A} (f : stm tracking A) : stm tracking (res A) := fun s =>
  match f s with
  | (Err EASSERT, s) => (Err EASSERT, s)
  | (r, s) => (Ok r, s)
  end.
Definition run_op (op : track_op) : stm tracking (res Z) :=
  s ← sget;
  if entitled s op then attempted (perform op) else sfail EFAULT.

Inductive track_prog :=
  | TrackReturn (r : res Z)
  | TrackDo (op : track_op) (k : res Z -> track_prog).

Fixpoint run_track_prog (p : track_prog) : stm tracking (res Z) :=
  match p with
  | TrackReturn r => mret r
  | TrackDo op k => r ← run_op op; run_track_prog (k r)
  end.

(** ** What the connection does *)
Context (handlers : nat -> nat -> track_prog).

Definition bus_track_dispatch (t : nat) : stm tracking unit :=
  x ← track_get t;
  match t_handler x with
  | None => sfail EASSERT
  | Some h =>
      bus_track_remove_from_queue t;;
      sd_bus_track_ref t;;
      smod (track_note (Called t));;
      r ← run_track_prog (handlers h t);
      match r with
      | Ok 0 => bus_track_add_to_queue t
      | _ => mret tt
      end;;
      sd_bus_track_unref t
  end.

Definition bus_track_close (t : nat) : stm tracking unit :=
  x ← track_get t;
  if negb (in_list x) then mret tt
  else
    smod (fun s => set_tracks (remove_from t (tracks s)) s);;
    mod_track t (set_in_list false);;
    if bool_decide (names x = ∅) then mret tt
    else
      free_items (names x);;
      mod_track t (set_names ∅);;
      if bool_decide (is_Some (t_handler x)) then bus_track_dispatch t else mret tt.

(** [dispatch_track]; the step of [process_closing] that is about these objects *)
Definition dispatch_track : stm tracking bool :=
  s ← sget;
  match track_queue s with
  | [] => mret false
  | t :: _ => bus_track_dispatch t;; mret true
  end.

Definition close_first : stm tracking bool :=
  s ← sget;
  match tracks s with
  | [] => mret false
  | t :: _ => bus_track_close t;; mret true
  end.

(** The callback of a match; [sd_bus_message_read(message, "sss", ...)] *)
Definition read_name (m : message) : option (list Z) * message :=
  match sd_bus_message_read_basic SD_BUS_TYPE_STRING m with
  | (Ok (Some (BStr s)), m) => (Some s, m)
  | (_, m) => (None, m)
  end.

Definition on_name_owner_changed (t : nat) (m : message) : stm tracking unit :=
  let '(name, m) := read_name m in
  let '(old, m) := read_name m in
  let '(new, m) := read_name m in
  match name, old, new with
  | Some name, Some _, Some _ => bus_track_remove_name_fully t name;; mret tt
  | _, _, _ => mret tt
  end.

(** A signal for the match with this slot *)
Definition deliver (slot : nat) (m : message) : stm tracking unit :=
  s ← sget;
  match track_matches s !! slot with
  | Some (t, _) => on_name_owner_changed t m
  | None => mret tt
  end.

Inductive track_action :=
  | UserRuns (p : track_prog)
  | SignalArrives (slot : nat) (m : message)
  | DispatchTurn
  | ClosingTurn.

Definition act (a : track_action) : stm tracking unit :=
  match a with
  | UserRuns p => run_track_prog p;; mret tt
  | SignalArrives slot m => deliver slot m
  | DispatchTurn => dispatch_track;; mret tt
  | ClosingTurn => close_first;; mret tt
  end.

Fixpoint run_tracking (l : list track_action) : stm tracking unit :=
  match l with
  | [] => mret tt
  | a :: l => act a;; run_tracking l
  end.

End Programs.
