(* ===== verification/TrackWf.v ===== *)
(** * What is tracked stays consistent

    Whatever users, handlers and peers do, the objects, the lists they are in and
    the matches that are installed agree, no match calls an object that is gone, and
    every object that lost its last name is queued until its handler was called. *)
From S2P Require Import Prelude BusType Names MsgState MsgWrite MsgFields MsgRead MatchRule Track.

(** ** The invariant *)
Definition event_of (e : track_event) : nat := match e with Emptied t | Called t => t end.

(** The last thing that happened to an object *)
Definition last_event (t : nat) (l : list track_event) : option track_event :=
  foldl (fun o e => if Nat.eqb (event_of e) t then Some e else o) None l.

(** [D] is the object whose handler is running, [O] one that is about to be put into
    the queue if it has to be there. *)
Record object_ok (D O : option nat) (s : tracking) (t : nat) (x : sd_bus_track) : Prop := {
  ok_list : in_list x = true <-> t ∈ tracks s;
  ok_queue : in_queue x = true <-> t ∈ track_queue s;
  ok_queued : in_queue x = true -> names x = ∅ /\ is_Some (t_handler x);
  ok_refs : 0 < t_n_ref x < 2 ^ 32 /\ 0 <= default 0 (held s !! t) /\ default 0 (held s !! t) + (if decide (D = Some t) then 1 else 0) <= t_n_ref x;
  ok_adding : n_adding x = 0;
  ok_items : forall n i, names x !! n = Some i -> ti_n_ref i = 1 /\ track_matches s !! ti_slot i = Some (t, match_for_name n);
  ok_matches : forall slot r, track_matches s !! slot = Some (t, r) -> exists n i, names x !! n = Some i /\ ti_slot i = slot;
  ok_called : O <> Some t -> in_list x = true -> is_Some (t_handler x) -> names x = ∅ ->
    in_queue x = true \/ last_event t (track_events s) = Some (Called t) }.

Record track_wf (D O : option nat) (s : tracking) : Prop := {
  tw_tracks : NoDup (tracks s);
  tw_queue : NoDup (track_queue s);
  tw_objects : forall t x, objects s !! t = Some x -> (t < next_id s)%nat /\ object_ok D O s t x;
  tw_gone : forall t, objects s !! t = None -> t ∉ tracks s /\ t ∉ track_queue s /\ forall slot r, track_matches s !! slot <> Some (t, r);
  tw_slots : forall slot v, track_matches s !! slot = Some v -> (slot < next_id s)%nat;
  tw_running : forall t, D = Some t -> is_Some (objects s !! t) }.

Lemma no_tracking_wf : track_wf None None no_tracking.
Proof.
  split; cbn.
  - apply NoDup_nil_2.
  - apply NoDup_nil_2.
  - intros *. by rewrite lookup_empty.
  - intros t _. split_and!; [by apply not_elem_of_nil..|]. intros *. by rewrite lookup_empty.
  - intros *. by rewrite lookup_empty.
  - done.
Qed.

(** ** Changing one object *)

(** Nothing changed for [t]. *)
Record same_for (t : nat) (s s' : tracking) : Prop := {
  sf_object : objects s' !! t = objects s !! t;
  sf_tracks : t ∈ tracks s' <-> t ∈ tracks s;
  sf_queue : t ∈ track_queue s' <-> t ∈ track_queue s;
  sf_matches : forall slot r, track_matches s' !! slot = Some (t, r) <-> track_matches s !! slot = Some (t, r);
  sf_held : held s' !! t = held s !! t;
  sf_event : last_event t (track_events s') = last_event t (track_events s) }.

Definition only_at (t : nat) (s s' : tracking) : Prop := forall u, u <> t -> same_for u s s'.

#[export] Instance only_at_preorder t : PreOrder (only_at t).
Proof.
  split; [by intros s u _|]. intros s1 s2 s3 H1 H2 u Hu. destruct (H1 u Hu), (H2 u Hu).
  split; try congruence; [by etrans..|]. intros slot r. by rewrite <- sf_matches0.
Qed.

Lemma same_for_ok D O t x s s' : same_for t s s' -> object_ok D O s t x -> object_ok D O s' t x.
Proof.
  intros [H1 H2 H3 H4 H5 H6] []. split; rewrite ?H2, ?H3, ?H5, ?H6; try done.
  - intros n i Hn. rewrite H4. by apply ok_items0.
  - intros slot r. rewrite H4. apply ok_matches0.
Qed.

Lemma wf_at D O O' t s s' x x' :
  track_wf D O s -> (O = O' \/ O = Some t \/ O = None) -> only_at t s s' -> objects s !! t = Some x -> objects s' !! t = Some x' ->
  object_ok D O' s' t x' -> NoDup (tracks s') -> NoDup (track_queue s') -> (next_id s <= next_id s')%nat ->
  (forall slot v, track_matches s' !! slot = Some v -> (slot < next_id s')%nat) ->
  track_wf D O' s'.
Proof.
  intros W HO F Hx Hx' Hok Ht Hq Hn Hs. split; try done.
  - intros u y Hy. destruct (decide (u = t)) as [->|Hne].
    + rewrite Hx' in Hy. injection Hy as <-. destruct (tw_objects _ _ _ W t x Hx). split; [lia|done].
    + pose proof (F u Hne) as Fu. rewrite (sf_object _ _ _ Fu) in Hy. destruct (tw_objects _ _ _ W u y Hy) as [H1 H2].
      split; [lia|]. eapply same_for_ok; [done|]. destruct H2. split; try done. intros HO'. apply ok_called0. naive_solver.
  - intros u Hu. assert (u <> t) as Hne by congruence. pose proof (F u Hne) as [F1 F2 F3 F4 _ _]. rewrite F1 in Hu.
    destruct (tw_gone _ _ _ W u Hu) as (H1 & H2 & H3). rewrite F2, F3. split_and!; try done. intros slot r. by rewrite F4.
  - intros u Hu. destruct (decide (u = t)) as [->|Hne]; [by eexists|]. rewrite (sf_object _ _ _ (F u Hne)). by apply W.
Qed.

Definition put (t : nat) (x : sd_bus_track) (s : tracking) : tracking := set_objects (<[t := x]> (objects s)) s.

Lemma put_only t x s : only_at t s (put t x s).
Proof. intros u Hu. split; try done. cbn. by rewrite lookup_insert_ne. Qed.

Lemma mod_track_run t f s x : objects s !! t = Some x -> mod_track t f s = (Ok tt, put t (f x) s).
Proof.
  intros Hx. unfold mod_track, track_get. rewrite !stm_bind_eq. cbn. rewrite Hx. unfold smod. do 2 f_equal.
  unfold put. f_equal. apply map_eq. intros u. destruct (decide (u = t)) as [->|Hne].
  - by rewrite lookup_alter_eq, lookup_insert_eq, Hx.
  - by rewrite lookup_alter_ne, lookup_insert_ne.
Qed.

Lemma track_get_run t s x : objects s !! t = Some x -> track_get t s = (Ok x, s).
Proof. intros Hx. unfold track_get. rewrite stm_bind_eq. cbn. by rewrite Hx. Qed.

Lemma elem_of_remove_from u t l : u ∈ remove_from t l <-> u ∈ l /\ u <> t.
Proof.
  unfold remove_from. rewrite !list_elem_of_In, filter_In, negb_true_iff, Nat.eqb_neq. done.
Qed.
Lemma NoDup_remove_from t l : NoDup l -> NoDup (remove_from t l).
Proof. unfold remove_from. rewrite !NoDup_ListNoDup. apply List.NoDup_filter. Qed.

(** ** Queueing *)
Definition queues (x : sd_bus_track) : bool :=
  negb (in_queue x) && negb (0 <? n_adding x) && negb (0 <? size (names x))%nat && negb (bool_decide (t_handler x = None)) && in_list x.

Definition queued (t : nat) (x : sd_bus_track) (s : tracking) : tracking :=
  if queues x then put t (set_in_queue true x) (set_track_queue (t :: track_queue s) s) else s.

Lemma add_to_queue_run t s x : objects s !! t = Some x -> bus_track_add_to_queue t s = (Ok tt, queued t x s).
Proof.
  intros Hx. unfold bus_track_add_to_queue, queued, queues. rewrite (stm_bind_run _ _ _ _ _ (track_get_run _ _ _ Hx)).
  destruct (in_queue x), (0 <? n_adding x), (0 <? size (names x))%nat, (bool_decide (t_handler x = None)), (in_list x); try done.
  cbn. rewrite stm_bind_eq. cbn. by apply mod_track_run.
Qed.

Lemma remove_from_queue_run t s x : objects s !! t = Some x ->
  bus_track_remove_from_queue t s =
  (Ok tt, if in_queue x then put t (set_in_queue false x) (set_track_queue (remove_from t (track_queue s)) s) else s).
Proof.
  intros Hx. unfold bus_track_remove_from_queue. rewrite (stm_bind_run _ _ _ _ _ (track_get_run _ _ _ Hx)).
  destruct (in_queue x); [|done]. cbn. rewrite stm_bind_eq. cbn. by apply mod_track_run.
Qed.

Lemma add_to_queue_wf D t s x :
  track_wf D (Some t) s -> objects s !! t = Some x ->
  track_wf D None (queued t x s) /\ objects (queued t x s) !! t = Some (if queues x then set_in_queue true x else x).
Proof.
  intros W Hx. destruct (tw_objects _ _ _ W t x Hx) as [Hn K]. destruct K as [K1 K2 K3 K4 K5 K6 K7 _].
  assert (Hsz : (0 <? size (names x))%nat = negb (bool_decide (names x = ∅))).
  { destruct (decide (names x = ∅)) as [E|E]; [by rewrite E|]. rewrite bool_decide_false by done. apply Nat.ltb_lt.
    apply Nat.neq_0_lt_0. by intros ?%map_size_empty_inv. }
  unfold queued. destruct (queues x) eqn:Q.
  - split; [|by apply lookup_insert_eq]. unfold queues in Q. rewrite Hsz in Q.
    destruct (in_queue x) eqn:Ei; [done|]. destruct (in_list x) eqn:El; [|by rewrite andb_false_r in Q].
    apply andb_true_iff in Q as [Q _]. apply andb_true_iff in Q as [Q Qh%negb_true_iff]. apply andb_true_iff in Q as [_ Qn].
    apply bool_decide_eq_false in Qh. rewrite negb_involutive in Qn. apply bool_decide_eq_true in Qn.
    assert (Hnot : t ∉ track_queue s) by (intros Hin%K2; done).
    eapply (wf_at D (Some t) None t s); try done; [by right; left|..].
    + intros u Hu. split; try done; cbn; [by rewrite lookup_insert_ne|]. rewrite elem_of_cons. naive_solver.
    + by apply lookup_insert_eq.
    + split; try done; cbn; rewrite ?El; try done.
      * rewrite elem_of_cons. naive_solver.
      * intros _. split; [done|]. by apply not_eq_None_Some.
      * intros _ _ _ _. by left.
    + apply W.
    + cbn. constructor; [done|apply W].
    + apply W.
  - split; [|done]. eapply (wf_at D (Some t) None t s); try done; [by right; left|..|apply W|apply W|apply W]. split; try done.
    intros _ H1 H2 H3. left. unfold queues in Q. rewrite K5, Hsz, H1, H3, bool_decide_eq_true_2 in Q by done.
    rewrite bool_decide_false in Q by (by apply not_eq_None_Some). by destruct (in_queue x).
Qed.

Lemma put_put t x y s : put t x (put t y s) = put t x s.
Proof. unfold put, set_objects. cbn. by rewrite insert_insert_eq. Qed.

Lemma set_in_queue_same x : set_in_queue (in_queue x) x = x.
Proof. by destruct x. Qed.

Definition dequeued (t : nat) (x : sd_bus_track) (s : tracking) : tracking :=
  if in_queue x then put t (set_in_queue false x) (set_track_queue (remove_from t (track_queue s)) s) else s.

Lemma remove_from_queue_wf D O t s x :
  track_wf D O s -> O = None \/ O = Some t -> objects s !! t = Some x ->
  track_wf D (Some t) (dequeued t x s) /\ objects (dequeued t x s) !! t = Some (set_in_queue false x).
Proof.
  intros W HO Hx. destruct (tw_objects _ _ _ W t x Hx) as [Hn K]. destruct K as [K1 K2 K3 K4 K5 K6 K7 _].
  unfold dequeued. destruct (in_queue x) eqn:Ei.
  - split; [|by apply lookup_insert_eq]. eapply (wf_at D O (Some t) t s); try done; [naive_solver| | | | | |].
    + intros u Hu. split; try done; cbn; [by rewrite lookup_insert_ne|]. rewrite elem_of_remove_from. naive_solver.
    + by apply lookup_insert_eq.
    + split; try done; cbn. rewrite elem_of_remove_from. naive_solver.
    + apply W.
    + cbn. apply NoDup_remove_from, W.
    + apply W.
  - split; [|by rewrite Hx, <- Ei, set_in_queue_same]. eapply (wf_at D O (Some t) t s); try done; [naive_solver| |apply W..].
    split; try done; by rewrite Ei.
Qed.

(** A change of fields that the invariant does not speak about *)
Lemma put_wf D t s x y :
  track_wf D None s -> objects s !! t = Some x -> names y = names x -> t_handler y = t_handler x -> in_list y = in_list x ->
  in_queue y = in_queue x -> n_adding y = n_adding x ->
  0 < t_n_ref y < 2 ^ 32 -> default 0 (held s !! t) + (if decide (D = Some t) then 1 else 0) <= t_n_ref y ->
  track_wf D None (put t y s).
Proof.
  intros W Hx H1 H2 H3 H4 H5 H6 H7. destruct (tw_objects _ _ _ W t x Hx) as [Hn K]. destruct K.
  apply (wf_at D None None t s _ x y); [done|by left|apply put_only|done|apply lookup_insert_eq| |apply W|apply W|done|apply W].
  split; rewrite ?H1, ?H2, ?H3, ?H4, ?H5; try done. split; [done|]. split; [apply ok_refs0|done].
Qed.

(** ** Losing a name *)
Definition emptied_note (t : nat) (N : gmap (list Z) track_item) (s : tracking) : tracking :=
  if bool_decide (N = ∅) then track_note (Emptied t) s else s.

Definition dropped (t : nat) (N : gmap (list Z) track_item) (slot : nat) (x : sd_bus_track) (s : tracking) : tracking :=
  emptied_note t N (set_track_matches (delete slot (track_matches s)) (put t (set_names N x) s)).

Definition removed (t : nat) (N : gmap (list Z) track_item) (slot : nat) (x : sd_bus_track) (s : tracking) : tracking :=
  let s1 := queued t (set_names N x) (dropped t N slot x s) in
  put t (set_modified true (if queues (set_names N x) then set_in_queue true (set_names N x) else set_names N x)) s1.

Lemma dropped_object t N slot x s : objects (dropped t N slot x s) !! t = Some (set_names N x).
Proof. unfold dropped, emptied_note. case_bool_decide; by apply lookup_insert_eq. Qed.

Lemma queued_object t x s : objects s !! t = Some x ->
  objects (queued t x s) !! t = Some (if queues x then set_in_queue true x else x).
Proof. intros Hx. unfold queued. destruct (queues x); [by apply lookup_insert_eq|done]. Qed.

Lemma remove_name_fully_run t name s x i :
  objects s !! t = Some x -> names x !! name = Some i ->
  bus_track_remove_name_fully t name s = (Ok 1, removed t (delete name (names x)) (ti_slot i) x s).
Proof.
  intros Hx Hi. unfold bus_track_remove_name_fully. rewrite (stm_bind_run _ _ _ _ _ (track_get_run _ _ _ Hx)), Hi.
  set (N := delete name (names x)). rewrite (stm_bind_run _ _ _ _ _ (mod_track_run _ _ _ _ Hx)). unfold track_item_free.
  rewrite stm_bind_eq. cbn [smod]. unfold smod at 1. cbn beta iota.
  rewrite (stm_bind_run _ _ _ tt (dropped t N (ti_slot i) x s))
    by (unfold dropped, emptied_note; by case_bool_decide).
  rewrite (stm_bind_run _ _ _ _ _ (add_to_queue_run _ _ _ (dropped_object _ _ _ _ _))).
  by rewrite (stm_bind_run _ _ _ _ _ (mod_track_run _ _ _ _ (queued_object _ _ _ (dropped_object _ _ _ _ _)))).
Qed.

Lemma last_event_app t l e : last_event t (l ++ [e]) = if Nat.eqb (event_of e) t then Some e else last_event t l.
Proof. unfold last_event. by rewrite foldl_app. Qed.

Lemma dropped_wf D t name s x i :
  track_wf D None s -> objects s !! t = Some x -> names x !! name = Some i ->
  track_wf D (Some t) (dropped t (delete name (names x)) (ti_slot i) x s).
Proof.
  intros W Hx Hi. destruct (tw_objects _ _ _ W t x Hx) as [Hn K]. destruct K as [K1 K2 K3 K4 K5 K6 K7 K8].
  assert (Hq : in_queue x = false).
  { destruct (in_queue x) eqn:E; [|done]. destruct (K3 eq_refl) as [E' _]. by rewrite E', lookup_empty in Hi. }
  destruct (K6 _ _ Hi) as [_ Hm].
  eapply (wf_at D None (Some t) t s); [done|by right; right| |done|apply dropped_object| | | | |].
  - intros u Hu. unfold dropped, emptied_note. split; try (case_bool_decide; done).
    + case_bool_decide; cbn; by rewrite lookup_insert_ne.
    + intros slot r. assert (delete (ti_slot i) (track_matches s) !! slot = Some (u, r) <-> track_matches s !! slot = Some (u, r)) as E.
      { destruct (decide (slot = ti_slot i)) as [->|Hne]; [|by rewrite lookup_delete_ne]. rewrite lookup_delete_eq, Hm. naive_solver. }
      case_bool_decide; exact E.
    + case_bool_decide; [|done]. change (track_events (track_note ?e ?s)) with (track_events s ++ [e]).
      rewrite last_event_app. cbn. destruct (Nat.eqb_spec t u); [by subst|done].
  - assert (forall s', s' = dropped t (delete name (names x)) (ti_slot i) x s -> tracks s' = tracks s /\ track_queue s' = track_queue s /\
      held s' = held s /\ track_matches s' = delete (ti_slot i) (track_matches s)) as Hs.
    { intros s' ->. unfold dropped, emptied_note. by case_bool_decide. }
    destruct (Hs _ eq_refl) as (S1 & S2 & S3 & S4). split; rewrite ?S1, ?S2, ?S3, ?S4; cbn; try done.
    + by rewrite Hq.
    + intros n j Hj. apply lookup_delete_Some in Hj as [Hne Hj]. destruct (K6 _ _ Hj) as [H1 H2]. split; [done|].
      rewrite lookup_delete_ne; [done|]. intros E. rewrite E, H2 in Hm. injection Hm as Hm. apply Hne. symmetry.
      by apply app_inv_tail in Hm.
    + intros slot r Hr. apply lookup_delete_Some in Hr as [Hne Hr]. destruct (K7 _ _ Hr) as (n & j & Hj & Hjs).
      exists n, j. split; [|done]. apply lookup_delete_Some. split; [|done]. intros ->. congruence.
  - unfold dropped, emptied_note. case_bool_decide; apply W.
  - unfold dropped, emptied_note. case_bool_decide; apply W.
  - unfold dropped, emptied_note. by case_bool_decide.
  - intros slot v Hv. assert (delete (ti_slot i) (track_matches s) !! slot = Some v) as Hv' by
      (revert Hv; unfold dropped, emptied_note; by case_bool_decide).
    assert (next_id (dropped t (delete name (names x)) (ti_slot i) x s) = next_id s) as -> by (unfold dropped, emptied_note; by case_bool_decide).
    apply lookup_delete_Some in Hv' as [_ Hv']. by eapply tw_slots.
Qed.

Lemma removed_wf D t name s x i :
  track_wf D None s -> objects s !! t = Some x -> names x !! name = Some i ->
  track_wf D None (removed t (delete name (names x)) (ti_slot i) x s).
Proof.
  intros W Hx Hi. pose proof (dropped_wf D t name s x i W Hx Hi) as W1.
  destruct (add_to_queue_wf _ _ _ _ W1 (dropped_object _ _ _ _ _)) as [W2 Hx2].
  destruct (tw_objects _ _ _ W2 t _ Hx2) as [_ K]. unfold removed.
  set (y := if queues _ then _ else _) in *. eapply put_wf; [done|exact Hx2|done..|apply K|apply K].
Qed.

(** ** Gaining a name *)
Definition bump (s : tracking) : tracking :=
  Tracking (objects s) (tracks s) (track_queue s) (track_matches s) (S (next_id s)) (held s) (track_events s).

Lemma bump_wf D O s : track_wf D O s -> track_wf D O (bump s).
Proof.
  intros [W1 W2 W3 W4 W5 W6]. split; try done.
  - intros t x Hx. destruct (W3 t x Hx) as [H1 []]. split; [cbn; lia|done].
  - intros slot v Hv. specialize (W5 slot v Hv). cbn. lia.
Qed.

(** The match for a name is installed with a new slot. *)
Definition watched (t : nat) (name : cstr) (s : tracking) : tracking :=
  set_track_matches (<[next_id s := (t, match_for_name name)]> (track_matches s)) (bump s).

Definition named (name : cstr) (n : Z) (slot : nat) (x : sd_bus_track) : sd_bus_track :=
  set_names (<[name := TrackItem n slot]> (names x)) x.

Lemma set_n_adding_same x k : set_n_adding (n_adding x) (set_n_adding k x) = x.
Proof. by destruct x. Qed.

Lemma add_new_name_run t name s x known :
  objects s !! t = Some x -> names x !! name = None ->
  let s1 := dequeued t x s in
  let x1 := set_in_queue false x in
  add_new_name t name (Ok tt) known s =
  match known with
  | Err e => (Err e, set_track_matches (delete (next_id s1) (track_matches (watched t name s1))) (queued t x1 (put t x1 (watched t name s1))))
  | Ok _ => (Ok 1, put t (set_modified true (named name 1 (next_id s1) x1)) (watched t name s1))
  end.
Proof.
  intros Hx Hn s1 x1. unfold add_new_name. rewrite (stm_bind_run _ _ _ _ _ (remove_from_queue_run _ _ _ Hx)).
  fold (dequeued t x s). fold s1.
  assert (Hx1 : objects s1 !! t = Some x1).
  { unfold s1, dequeued. destruct (in_queue x) eqn:E; [by apply lookup_insert_eq|]. unfold x1. by rewrite Hx, <- E, set_in_queue_same. }
  rewrite (stm_bind_run sget _ s1 s1 s1 eq_refl). cbv zeta. set (s2 := watched t name s1).
  rewrite (stm_bind_run _ _ s1 tt s2 eq_refl).
  assert (Hx2 : objects s2 !! t = Some x1) by done.
  rewrite (stm_bind_run _ _ _ _ _ (track_get_run _ _ _ Hx2)), (stm_bind_run _ _ _ _ _ (mod_track_run _ _ _ _ Hx2)).
  fold (named name 0 (next_id s1) x1). set (x2 := named name 0 (next_id s1) x1). change (n_adding x1) with (n_adding x2).
  rewrite (stm_bind_run _ _ _ _ _ (mod_track_run t _ (put t x2 s2) x2 (lookup_insert_eq _ _ _))), put_put.
  rewrite (stm_bind_run _ _ _ _ _ (mod_track_run t _ (put t _ s2) _ (lookup_insert_eq _ _ _))), put_put, set_n_adding_same.
  destruct known as [[]|e]; rewrite (stm_bind_run _ _ _ _ _ (track_get_run t (put t x2 s2) x2 (lookup_insert_eq _ _ _)));
    rewrite (stm_bind_run _ _ _ _ _ (mod_track_run t _ (put t x2 s2) x2 (lookup_insert_eq _ _ _))), put_put.
  - set (x3 := set_names _ x2). assert (x3 = named name 1 (next_id s1) x1) as ->.
    { unfold x3, x2, named. cbn. by rewrite insert_insert_eq. }
    set (x4 := named _ _ _ _). rewrite (stm_bind_run _ _ _ _ _ (remove_from_queue_run t (put t x4 s2) x4 (lookup_insert_eq _ _ _))).
    change (in_queue x4) with false. cbn beta iota.
    rewrite (stm_bind_run _ _ _ _ _ (mod_track_run t _ (put t x4 s2) x4 (lookup_insert_eq _ _ _))), put_put. done.
  - assert (set_names (delete name (names x2)) x2 = x1) as ->.
    { unfold x2, named. cbn. rewrite delete_insert_eq, delete_id by done. reflexivity. }
    rewrite (stm_bind_run _ _ _ _ _ (add_to_queue_run t (put t x1 s2) x1 (lookup_insert_eq _ _ _))).
    unfold track_item_free. rewrite stm_bind_eq. unfold smod. cbn [ti_slot]. unfold queued. by destruct (queues x1).
Qed.

(** Two states that differ only in matches that were there for a moment *)
Lemma same_matches_wf D O s s' :
  objects s' = objects s -> tracks s' = tracks s -> track_queue s' = track_queue s -> held s' = held s ->
  track_events s' = track_events s -> next_id s' = next_id s -> track_matches s' = track_matches s -> track_wf D O s -> track_wf D O s'.
Proof. destruct s, s'; cbn. by intros -> -> -> -> -> -> ->. Qed.

Lemma put_same t x s : objects s !! t = Some x -> put t x s = s.
Proof. intros Hx. unfold put. rewrite insert_id by done. by destruct s. Qed.

Lemma add_new_refused D t name s x :
  track_wf D None s -> objects s !! t = Some x ->
  let s1 := dequeued t x s in let x1 := set_in_queue false x in
  track_wf D None (set_track_matches (delete (next_id s1) (track_matches (watched t name s1))) (queued t x1 (put t x1 (watched t name s1)))).
Proof.
  intros W Hx s1 x1. destruct (remove_from_queue_wf D None t s x W ltac:(by left) Hx) as [W1 Hx1]. fold s1 in W1, Hx1. fold x1 in Hx1.
  destruct (add_to_queue_wf D t (bump s1) x1 (bump_wf _ _ _ W1) Hx1) as [W2 _].
  assert (E : delete (next_id s1) (track_matches (watched t name s1)) = track_matches s1).
  { cbn. rewrite delete_insert_eq, delete_id; [done|]. destruct (track_matches s1 !! next_id s1) eqn:E; [|done].
    apply (tw_slots _ _ _ W1) in E. lia. }
  rewrite E, (put_same t x1 (watched t name s1) Hx1). eapply same_matches_wf; [..|exact W2]; unfold queued; by destruct (queues x1).
Qed.

Lemma add_new_known D t name s x :
  track_wf D None s -> objects s !! t = Some x -> names x !! name = None ->
  let s1 := dequeued t x s in let x1 := set_in_queue false x in
  track_wf D None (put t (set_modified true (named name 1 (next_id s1) x1)) (watched t name s1)).
Proof.
  intros W Hx Hn s1 x1. destruct (remove_from_queue_wf D None t s x W ltac:(by left) Hx) as [W1 Hx1]. fold s1 in W1, Hx1. fold x1 in Hx1.
  destruct (tw_objects _ _ _ W1 t x1 Hx1) as [Hlt K]. destruct K as [K1 K2 K3 K4 K5 K6 K7 _].
  assert (Hfresh : track_matches s1 !! next_id s1 = None).
  { destruct (track_matches s1 !! next_id s1) eqn:E; [|done]. apply (tw_slots _ _ _ W1) in E. lia. }
  eapply (wf_at D (Some t) None t s1); [done|by right; left| |done|by apply lookup_insert_eq| |apply W1|apply W1|cbn; lia|].
  - intros u Hu. split; try done; cbn; [by rewrite lookup_insert_ne|]. intros slot r.
    destruct (decide (slot = next_id s1)) as [->|Hne]; [|by rewrite lookup_insert_ne]. rewrite lookup_insert_eq, Hfresh. naive_solver.
  - split; cbn; try done.
    + intros n i Hi. apply lookup_insert_Some in Hi as [[<- <-]|[Hne Hi]]; [split; [done|by apply lookup_insert_eq]|].
      destruct (K6 n i Hi) as [H1 H2]. split; [done|]. rewrite lookup_insert_ne; [done|]. intros E. rewrite <- E in H2. congruence.
    + intros slot r Hs. apply lookup_insert_Some in Hs as [[<- [= <-]]|[Hne Hs]].
      * exists name, (TrackItem 1 (next_id s1)). split; [by apply lookup_insert_eq|done].
      * destruct (K7 slot r Hs) as (n & i & Hi & Hsl). exists n, i. split; [|done]. rewrite lookup_insert_ne; [done|].
        intros E. rewrite <- E in Hi. change (names x1) with (names x) in Hi. congruence.
    + intros _ _ _ E. by apply insert_non_empty in E.
  - intros slot v Hs. cbn in *. apply lookup_insert_Some in Hs as [[<- _]|[_ Hs]]; [lia|]. apply (tw_slots _ _ _ W1) in Hs. lia.
Qed.

Definition real (r : res unit) : Prop := r <> Err EASSERT.

Lemma is_real_real r : is_real r = true -> real r.
Proof. unfold is_real. intros H%negb_true_iff. by apply bool_decide_eq_false in H. Qed.

Lemma add_name_wf D t name added known s x :
  track_wf D None s -> objects s !! t = Some x -> real added -> real known ->
  ssafe (fun _ => track_wf D None) (track_wf D None) (sd_bus_track_add_name t name added known s).
Proof.
  intros W Hx Ha Hk. unfold sd_bus_track_add_name. apply ssafe_req; [done|done|]. intros _.
  rewrite (stm_bind_run _ _ _ _ _ (track_get_run _ _ _ Hx)). destruct (tw_objects _ _ _ W t x Hx) as [_ K].
  destruct (names x !! name) as [i|] eqn:Hi.
  - assert (Hq : in_queue x = false).
    { destruct (in_queue x) eqn:E; [|done]. destruct (ok_queued _ _ _ _ _ K E) as [E' _]. by rewrite E', lookup_empty in Hi. }
    assert (Hend : forall y s', track_wf D None s' -> objects s' !! t = Some y -> in_queue y = false ->
      ssafe (fun _ => track_wf D None) (track_wf D None) ((bus_track_remove_from_queue t;; mret 0) s')).
    { intros y s' Ws Hy Hqy. rewrite (stm_bind_run _ _ _ _ _ (remove_from_queue_run _ _ _ Hy)), Hqy. done. }
    destruct (recursive x); [|by eapply (Hend x)]. destruct (ok_refs _ _ _ _ _ K) as (R1 & R0 & R2). cbv zeta.
    rewrite stm_bind_eq, stm_bind_eq. destruct (Z.ltb_spec (wrap32 (t_n_ref x + 1)) (t_n_ref x)) as [Hov|Hov]; [by split|].
    cbn [sreq negb slift require]. unfold sreq, slift, require. cbn [negb]. rewrite (mod_track_run _ _ _ _ Hx).
    destruct (decide (t_n_ref x + 1 < 2 ^ 32)).
    + rewrite (wrap_small 32) in * by lia. eapply Hend; [|by apply lookup_insert_eq|done]. eapply put_wf; try done; cbn; lia.
    + assert (t_n_ref x + 1 = 2 ^ 32) as E by lia. rewrite E in Hov. change (wrap32 (2 ^ 32)) with 0 in Hov. lia.
  - destruct added as [[]|e].
    + rewrite (add_new_name_run t name s x) by done. cbv zeta. destruct known as [[]|e].
      * by apply (add_new_known D t name s x).
      * split; [congruence|]. by apply (add_new_refused D t name s x).
    + unfold add_new_name. rewrite (stm_bind_run _ _ _ _ _ (remove_from_queue_run _ _ _ Hx)). fold (dequeued t x s).
      destruct (remove_from_queue_wf D None t s x W ltac:(by left) Hx) as [W1 Hx1].
      rewrite (stm_bind_run _ _ _ _ _ (add_to_queue_run _ _ _ Hx1)). split; [congruence|]. by apply add_to_queue_wf.
Qed.

Lemma remove_name_fully_wf D t name s x :
  track_wf D None s -> objects s !! t = Some x ->
  ssafe (fun _ => track_wf D None) (track_wf D None) (bus_track_remove_name_fully t name s).
Proof.
  intros W Hx. destruct (names x !! name) as [i|] eqn:Hi.
  - rewrite (remove_name_fully_run _ _ _ _ _ Hx Hi). by apply (removed_wf D t name s x i).
  - unfold bus_track_remove_name_fully. by rewrite (stm_bind_run _ _ _ _ _ (track_get_run _ _ _ Hx)), Hi.
Qed.

(** Every name is counted once, so the first removal removes it. *)
Lemma remove_name_wf D t name s x :
  track_wf D None s -> objects s !! t = Some x ->
  ssafe (fun _ => track_wf D None) (track_wf D None) (sd_bus_track_remove_name t name s).
Proof.
  intros W Hx. unfold sd_bus_track_remove_name. rewrite (stm_bind_run _ _ _ _ _ (track_get_run _ _ _ Hx)).
  destruct (recursive x); cbn [negb]; [|by eapply remove_name_fully_wf].
  destruct (names x !! name) as [i|] eqn:Hi; [|by split].
  destruct (tw_objects _ _ _ W t x Hx) as [_ K]. destruct (ok_items _ _ _ _ _ K name i Hi) as [Hn _]. rewrite Hn. cbn.
  rewrite stm_bind_eq. cbn. rewrite (stm_bind_run _ _ _ _ _ (mod_track_run _ _ _ _ Hx)).
  set (y := set_names _ x). assert (Hy : names y !! name = Some (TrackItem 0 (ti_slot i))) by (by apply lookup_insert_eq).
  change (1 - 1 <=? 0) with true. cbn beta iota.
  rewrite (remove_name_fully_run t name (put t y s) y _ (lookup_insert_eq _ _ _) Hy).
  assert (delete name (names y) = delete name (names x)) as -> by (apply delete_insert_eq).
  assert (forall N, removed t N (ti_slot i) y (put t y s) = removed t N (ti_slot i) x s) as ->; [|by apply (removed_wf D t name s x i)].
  intros N. unfold removed, dropped, emptied_note, queued. rewrite put_put. done.
Qed.

(** ** Objects come and go *)
Lemma held_wf D t n s x :
  track_wf D None s -> objects s !! t = Some x ->
  0 <= n -> n + (if decide (D = Some t) then 1 else 0) <= t_n_ref x -> track_wf D None (set_held (<[t := n]> (held s)) s).
Proof.
  intros W Hx H0 Hn. destruct (tw_objects _ _ _ W t x Hx) as [_ []].
  apply (wf_at D None None t s _ x x); try done; [by left| | |apply W..].
  - intros u Hu. split; try done. cbn. by rewrite lookup_insert_ne.
  - split; try done. cbn. rewrite lookup_insert_eq. cbn. split; [apply ok_refs0|]. by split.
Qed.

Lemma track_new_wf D client h s :
  track_wf D None s -> ssafe (fun _ => track_wf D None) (track_wf D None) (sd_bus_track_new client h s).
Proof.
  intros W. unfold sd_bus_track_new. apply ssafe_req; [done|done|]. intros _.
  rewrite (stm_bind_run sget _ s s s eq_refl). cbv zeta. set (t := next_id s).
  set (x := SdBusTrack 1 0 h ∅ [] true false false false).
  set (s1 := Tracking (<[t := x]> (objects s)) (t :: tracks s) (track_queue s) (track_matches s) (S t) (<[t := 1]> (held s)) (track_events s)).
  match goal with |- context [(smod ?f ≫= ?g) s] => rewrite (stm_bind_run (smod f) g s tt s1 eq_refl) end.
  assert (Hnone : objects s !! t = None).
  { destruct (objects s !! t) as [y|] eqn:E; [|done]. destruct (tw_objects _ _ _ W t y E). unfold t in *. lia. }
  destruct (tw_gone _ _ _ W t Hnone) as (G1 & G2 & G3).
  assert (Hx : objects s1 !! t = Some x) by apply lookup_insert_eq.
  assert (HD : D <> Some t) by (intros E; destruct (tw_running _ _ _ W t E); congruence).
  assert (W1 : track_wf D (Some t) s1).
  { split; cbn.
    - constructor; [done|apply W].
    - apply W.
    - intros u y Hy. apply lookup_insert_Some in Hy as [[<- <-]|[Hne Hy]].
      + split; [lia|]. split.
        * split; [intros _; left|done].
        * done.
        * done.
        * cbn. rewrite lookup_insert_eq, decide_False by done. done.
        * done.
        * intros n i. cbn. by rewrite lookup_empty.
        * intros slot r Hs. by apply G3 in Hs.
        * done.
      + destruct (tw_objects _ _ _ W u y Hy) as [H1 []]. split; [unfold t; lia|]. split; cbn; try done.
        * rewrite elem_of_cons. naive_solver.
        * by rewrite lookup_insert_ne.
        * intros _. apply ok_called0. done.
    - intros u Hu. apply lookup_insert_None in Hu as [Hu Hne]. destruct (tw_gone _ _ _ W u Hu) as (H1 & H2 & H3).
      rewrite elem_of_cons. naive_solver.
    - intros slot v Hv. apply (tw_slots _ _ _ W) in Hv. unfold t. lia.
    - intros u Hu. destruct (decide (t = u)) as [->|Hne]; [by rewrite lookup_insert_eq|]. rewrite lookup_insert_ne by done. by apply W. }
  rewrite (stm_bind_run _ _ _ _ _ (add_to_queue_run t s1 x Hx)). by apply add_to_queue_wf.
Qed.

(** Freeing an object that nobody refers to: [x] is what is left of it. *)
Definition freed (t : nat) (x : sd_bus_track) (s : tracking) : tracking :=
  let s1 := if in_list x then set_tracks (remove_from t (tracks s)) s else s in
  let s2 := dequeued t x s1 in
  let s3 := set_track_matches (foldr (fun i m => delete (ti_slot i) m) (track_matches s2) (map_to_list (names x)).*2) s2 in
  set_objects (delete t (objects s3)) s3.

Lemma track_free_run t s x : objects s !! t = Some x -> track_free t s = (Ok tt, freed t x s).
Proof.
  intros Hx. unfold track_free, freed. rewrite (stm_bind_run _ _ _ _ _ (track_get_run _ _ _ Hx)).
  set (s1 := if in_list x then _ else s).
  rewrite (stm_bind_run _ _ s tt s1) by (unfold s1; by destruct (in_list x)).
  assert (Hx1 : objects s1 !! t = Some x) by (unfold s1; by destruct (in_list x)).
  rewrite (stm_bind_run _ _ _ _ _ (remove_from_queue_run _ _ _ Hx1)). done.
Qed.

Lemma lookup_delete_slots (l : list track_item) (m : gmap nat (nat * list Z)) slot v :
  foldr (fun i m => delete (ti_slot i) m) m l !! slot = Some v <-> m !! slot = Some v /\ slot ∉ map ti_slot l.
Proof.
  induction l as [|i l IH]; cbn; [split; [intros H; split; [done|apply not_elem_of_nil]|by intros []]|].
  rewrite lookup_delete_Some, IH, not_elem_of_cons. naive_solver.
Qed.

(** What is gone with it *)
Record without_object (t : nat) (s s' : tracking) : Prop := {
  wo_objects : objects s' = delete t (objects s);
  wo_tracks : NoDup (tracks s') /\ forall u, u ∈ tracks s' <-> u ∈ tracks s /\ u <> t;
  wo_queue : NoDup (track_queue s') /\ forall u, u ∈ track_queue s' <-> u ∈ track_queue s /\ u <> t;
  wo_matches : forall slot v, track_matches s' !! slot = Some v <-> track_matches s !! slot = Some v /\ v.1 <> t;
  wo_rest : held s' = held s /\ track_events s' = track_events s /\ next_id s' = next_id s }.

Lemma freed_without D t s x0 x :
  track_wf D None s -> objects s !! t = Some x0 -> in_list x = in_list x0 -> in_queue x = in_queue x0 -> names x = names x0 ->
  without_object t s (freed t x (put t x s)).
Proof.
  intros W Hx El Eq En. destruct (tw_objects _ _ _ W t x0 Hx) as [_ []].
  set (T := if in_list x then remove_from t (tracks s) else tracks s).
  set (Q := if in_queue x then remove_from t (track_queue s) else track_queue s).
  set (M := foldr (fun i m => delete (ti_slot i) m) (track_matches s) (map_to_list (names x)).*2).
  assert (freed t x (put t x s) = Tracking (delete t (objects s)) T Q M (next_id s) (held s) (track_events s)) as ->.
  { unfold freed, dequeued, T, Q. destruct (in_list x), (in_queue x); unfold put, set_objects, set_tracks, set_track_queue, set_track_matches; cbn;
      f_equal; apply map_eq; intros u; (destruct (decide (u = t)) as [->|]; [by rewrite !lookup_delete_eq|]);
      rewrite !lookup_delete_ne by done; rewrite ?lookup_insert_ne by done; done. }
  split; cbn.
  - done.
  - unfold T. destruct (in_list x) eqn:E; [split; [apply NoDup_remove_from, W|intros u; apply elem_of_remove_from]|].
    split; [apply W|]. intros u. split; [|by intros []]. intros Hu. split; [done|]. intros ->. apply ok_list0 in Hu. congruence.
  - unfold Q. destruct (in_queue x) eqn:E; [split; [apply NoDup_remove_from, W|intros u; apply elem_of_remove_from]|].
    split; [apply W|]. intros u. split; [|by intros []]. intros Hu. split; [done|]. intros ->. apply ok_queue0 in Hu. congruence.
  - intros slot [u r]. unfold M. rewrite lookup_delete_slots. cbn. split; intros [H1 H2]; (split; [done|]).
    + intros ->. destruct (ok_matches0 _ _ H1) as (n & i & Hi & <-). apply H2. apply list_elem_of_fmap. exists i. split; [done|].
      apply list_elem_of_fmap. exists (n, i). split; [done|]. apply elem_of_map_to_list. by rewrite En.
    + intros Hin. apply list_elem_of_fmap in Hin as (i & -> & Hin). apply list_elem_of_fmap in Hin as ([n j] & -> & Hin).
      apply elem_of_map_to_list in Hin. rewrite En in Hin. destruct (ok_items0 _ _ Hin) as [_ Hs]. cbn in *. congruence.
  - done.
Qed.

Lemma without_object_wf D t s s' : track_wf D None s -> without_object t s s' -> D <> Some t -> track_wf D None s'.
Proof.
  intros W [O1 [T1 T2] [Q1 Q2] M (R1 & R2 & R3)] HD. split; try done.
  - intros u y Hy. rewrite O1 in Hy. apply lookup_delete_Some in Hy as [Hne Hy]. destruct (tw_objects _ _ _ W u y Hy) as [H1 []].
    rewrite R3. split; [done|]. split; rewrite ?R1, ?R2; try done.
    + rewrite T2. naive_solver.
    + rewrite Q2. naive_solver.
    + intros n i Hi. destruct (ok_items0 n i Hi). split; [done|]. rewrite M. cbn. auto.
    + intros slot r Hs. apply M in Hs as [Hs _]. by eapply ok_matches0.
  - intros u Hu. rewrite O1 in Hu. rewrite T2, Q2. apply lookup_delete_None in Hu as [<-|Hu].
    + split_and!; [by intros []..|]. intros slot r Hs. by apply M in Hs as [_ Hs].
    + destruct (tw_gone _ _ _ W u Hu) as (H1 & H2 & H3). split_and!; [by intros []..|]. intros slot r Hs. apply M in Hs as [Hs _]. by apply H3 in Hs.
  - intros slot v Hs. apply M in Hs as [Hs _]. rewrite R3. by eapply tw_slots.
  - intros u Hu. rewrite O1. assert (u <> t) by congruence. rewrite lookup_delete_ne by done. by apply W.
Qed.

(** Dropping a reference that somebody has: [n] references are left to users. *)
Lemma track_unref_wf D t s x :
  track_wf D None s -> objects s !! t = Some x ->
  default 0 (held s !! t) + (if decide (D = Some t) then 1 else 0) < t_n_ref x ->
  ssafe (fun _ => track_wf D None) (track_wf D None) (sd_bus_track_unref t s).
Proof.
  intros W Hx Hlt. destruct (tw_objects _ _ _ W t x Hx) as [_ K]. destruct (ok_refs _ _ _ _ _ K) as (R1 & R0 & R2).
  unfold sd_bus_track_unref. rewrite (stm_bind_run _ _ _ _ _ (track_get_run _ _ _ Hx)), (proj2 (Z.ltb_lt 0 (t_n_ref x))) by lia.
  rewrite (stm_bind_run (sreq true EASSERT) _ s tt s eq_refl). cbv zeta. rewrite (stm_bind_run _ _ _ _ _ (mod_track_run _ _ _ _ Hx)).
  destruct (Z.ltb_spec 0 (t_n_ref x - 1)).
  - eapply put_wf; try done; cbn; lia.
  - set (y := set_t_n_ref _ x). rewrite (track_free_run t (put t y s) y (lookup_insert_eq _ _ _)).
    eapply without_object_wf; [done|by eapply freed_without|]. intros ->. rewrite decide_True in Hlt by done. lia.
Qed.

(** ** Programs *)
Section Programs.
Context (order : gmap (list Z) track_item -> list (list Z)).

Lemma set_field_wf D t f s x :
  track_wf D None s -> objects s !! t = Some x ->
  (forall x, names (f x) = names x /\ t_handler (f x) = t_handler x /\ in_list (f x) = in_list x /\ in_queue (f x) = in_queue x /\
     n_adding (f x) = n_adding x /\ t_n_ref (f x) = t_n_ref x) ->
  track_wf D None (put t (f x) s).
Proof.
  intros W Hx Hf. destruct (Hf x) as (F1 & F2 & F3 & F4 & F5 & F6). destruct (tw_objects _ _ _ W t x Hx) as [_ K].
  eapply put_wf; try done; rewrite F6; apply K.
Qed.

Lemma perform_first D t s x :
  track_wf D None s -> objects s !! t = Some x ->
  ssafe (fun _ => track_wf D None) (track_wf D None) (sd_bus_track_first order t s).
Proof.
  intros W Hx. unfold sd_bus_track_first. rewrite (stm_bind_run _ _ _ _ _ (track_get_run _ _ _ Hx)).
  rewrite (stm_bind_run _ _ _ _ _ (mod_track_run _ _ _ _ Hx)). destruct (iterate x (order (names x))) as [n l].
  rewrite (stm_bind_run _ _ _ _ _ (mod_track_run t _ (put t _ s) _ (lookup_insert_eq _ _ _))), put_put.
  by apply (set_field_wf D t (fun x => set_iterator l (set_modified false x))).
Qed.

Lemma perform_next D t s x :
  track_wf D None s -> objects s !! t = Some x ->
  ssafe (fun _ => track_wf D None) (track_wf D None) (sd_bus_track_next t s).
Proof.
  intros W Hx. unfold sd_bus_track_next. rewrite (stm_bind_run _ _ _ _ _ (track_get_run _ _ _ Hx)).
  destruct (modified x); [done|]. destruct (iterate x (iterator x)) as [n l].
  rewrite (stm_bind_run _ _ _ _ _ (mod_track_run _ _ _ _ Hx)). by apply (set_field_wf D t (set_iterator l)).
Qed.

Lemma perform_recursive D t b s x :
  track_wf D None s -> objects s !! t = Some x ->
  ssafe (fun _ => track_wf D None) (track_wf D None) (sd_bus_track_set_recursive t b s).
Proof.
  intros W Hx. unfold sd_bus_track_set_recursive. rewrite (stm_bind_run _ _ _ _ _ (track_get_run _ _ _ Hx)).
  destruct (Bool.eqb (recursive x) b); [done|]. apply ssafe_req; [done|done|]. intros _.
  rewrite (mod_track_run _ _ _ _ Hx). by apply (set_field_wf D t (set_recursive b)).
Qed.

Lemma perform_refs D t s x :
  track_wf D None s -> objects s !! t = Some x ->
  ssafe (fun _ => track_wf D None) (track_wf D None) ((sd_bus_track_ref t;; hold t 1;; mret 0) s) /\
  (0 < default 0 (held s !! t) ->
   ssafe (fun _ => track_wf D None) (track_wf D None) ((hold t (-1);; sd_bus_track_unref t;; mret 0) s)).
Proof.
  intros W Hx. destruct (tw_objects _ _ _ W t x Hx) as [_ K]. destruct (ok_refs _ _ _ _ _ K) as (R1 & R0 & R2). split.
  - unfold sd_bus_track_ref. rewrite stm_bind_eq, (stm_bind_run _ _ _ _ _ (track_get_run _ _ _ Hx)), (proj2 (Z.ltb_lt 0 _)) by lia.
    rewrite (stm_bind_run (sreq true EASSERT) _ s tt s eq_refl), stm_bind_eq.
    destruct (Z.ltb_spec (t_n_ref x + 1) (2 ^ 32)); [|by split]. cbn [sreq require slift]. unfold sreq, slift, require.
    rewrite (mod_track_run _ _ _ _ Hx). unfold hold. rewrite stm_bind_eq. unfold smod. cbn [held].
    eapply held_wf; [eapply put_wf; try done; cbn; lia|by apply lookup_insert_eq|cbn; lia|cbn; lia].
  - intros Hh. unfold hold at 1. rewrite stm_bind_eq. unfold smod. cbn beta iota.
    set (s1 := set_held _ s). assert (W1 : track_wf D None s1) by (eapply held_wf; try done; lia).
    apply (ssafe_bind (fun _ => track_wf D None)); [|done]. eapply track_unref_wf; [done|done|].
    cbn. rewrite lookup_insert_eq. cbn. lia.
Qed.

Lemma perform_wf D op s :
  track_wf D None s -> entitled s op = true ->
  ssafe (fun _ => track_wf D None) (track_wf D None) (perform order op s).
Proof.
  intros W He. unfold entitled in He. destruct op as [client h|t|t|t n a k|t n|t m a k|t m|t|t n|t|t|t b]; cbn [op_object] in He;
    [|apply andb_true_iff in He as [Hx He]; apply bool_decide_eq_true in Hx as [x Hx]..]; cbn [perform].
  - apply (ssafe_bind (fun _ => track_wf D None)); [by apply track_new_wf|done].
  - by apply (perform_refs D t s x).
  - apply (perform_refs D t s x); [done|done|]. by apply Z.ltb_lt.
  - apply andb_true_iff in He as [Ha%is_real_real Hk%is_real_real]. by eapply add_name_wf.
  - by eapply remove_name_wf.
  - apply andb_true_iff in He as [Ha%is_real_real Hk%is_real_real]. unfold sd_bus_track_add_sender, with_sender.
    destruct (sender m); [by eapply add_name_wf|by split].
  - unfold sd_bus_track_remove_sender, with_sender. destruct (sender m); [by eapply remove_name_wf|by split].
  - unfold sd_bus_track_count. by rewrite (stm_bind_run _ _ _ _ _ (track_get_run _ _ _ Hx)).
  - unfold sd_bus_track_count_name. apply ssafe_req; [done|done|]. intros _.
    by rewrite (stm_bind_run _ _ _ _ _ (track_get_run _ _ _ Hx)).
  - eapply ssafe_bind; [by eapply perform_first|done].
  - eapply ssafe_bind; [by eapply perform_next|done].
  - eapply ssafe_bind; [by eapply perform_recursive|done].
Qed.

(** Well-formed wherever a run stops *)
Definition stopped (s : tracking) : Prop := exists D O, track_wf D O s.

Lemma run_track_prog_wf D p : forall s, track_wf D None s -> ssafe (fun _ => track_wf D None) stopped (run_track_prog order p s).
Proof.
  induction p as [r|op k IH]; intros s W; cbn [run_track_prog]; [done|].
  apply (ssafe_bind (fun _ => track_wf D None)); [|by intros r s' W'; apply IH].
  unfold run_op. rewrite (stm_bind_run sget _ s s s eq_refl). destruct (entitled s op) eqn:He.
  - pose proof (perform_wf D op s W He) as H. unfold attempted. destruct (perform order op s) as [[n|e] s']; [done|].
    destruct H as [Hne H]. by destruct e.
  - split; [done|]. by exists D, None.
Qed.

Context (handlers : nat -> nat -> track_prog).

Lemma weaken_wf D O t s : track_wf D O s -> O = None -> track_wf D (Some t) s.
Proof.
  intros [W1 W2 W3 W4 W5 W6] ->. split; try done. intros u y Hy. destruct (W3 u y Hy) as [H1 []]. split; [done|].
  split; try done. intros _. by apply ok_called0.
Qed.

(** The references of the dispatcher are given to nobody in particular. *)
Lemma released_wf t O s : track_wf (Some t) O s -> track_wf None O s.
Proof.
  intros [W1 W2 W3 W4 W5 W6]. split; try done. intros u y Hy. destruct (W3 u y Hy) as [H1 []]. split; [done|].
  split; try done. rewrite decide_False by done. destruct ok_refs0 as (R1 & R2 & R3). split_and!; try lia. case_decide; lia.
Qed.

(** The handler is about to be called. *)
Lemma called_wf t s x :
  track_wf None (Some t) s -> objects s !! t = Some x -> t_n_ref x + 1 < 2 ^ 32 ->
  track_wf (Some t) None (track_note (Called t) (put t (set_t_n_ref (t_n_ref x + 1) x) s)).
Proof.
  intros W Hx Hlt. destruct (tw_objects _ _ _ W t x Hx) as [Hn K]. destruct K as [K1 K2 K3 K4 K5 K6 K7 _].
  assert (W' : track_wf None None (track_note (Called t) (put t (set_t_n_ref (t_n_ref x + 1) x) s))).
  { apply (wf_at None (Some t) None t s _ x (set_t_n_ref (t_n_ref x + 1) x)); try done; [by right; left| | | |apply W..].
    - intros u Hu. split; try done; [cbn; by rewrite lookup_insert_ne|].
      change (track_events (track_note ?e ?s)) with (track_events s ++ [e]). rewrite last_event_app. cbn.
      destruct (Nat.eqb_spec t u); [by subst|done].
    - apply lookup_insert_eq.
    - split; try done; [destruct K4 as (? & ? & K4); rewrite decide_False in K4 by done; split_and!; cbn; rewrite ?decide_False by done; lia|].
      intros _ _ _ _. right.
      change (track_events (track_note ?e ?s)) with (track_events s ++ [e]). rewrite last_event_app. cbn. by rewrite Nat.eqb_refl. }
  destruct W' as [W1 W2 W3 W4 W5 _]. split; try done.
  - intros u y Hy. destruct (W3 u y Hy) as [H1 []]. split; [done|]. split; try done. destruct ok_refs0 as (R1 & R2 & R3).
    split; [done|]. split; [done|]. rewrite decide_False in R3 by done.
    destruct (decide (Some t = Some u)) as [E|]; [|exact R3]. injection E as <-.
    cbn in Hy. rewrite lookup_insert_eq in Hy. injection Hy as <-. cbn in *. destruct K4 as (_ & _ & K4). rewrite decide_False in K4 by done. lia.
  - intros u [= <-]. cbn. rewrite lookup_insert_eq. by eexists.
Qed.

Lemma dispatch_wf t s x :
  track_wf None None s -> objects s !! t = Some x -> is_Some (t_handler x) ->
  ssafe (fun _ => track_wf None None) stopped (bus_track_dispatch order handlers t s).
Proof.
  intros W Hx [h Hh]. unfold bus_track_dispatch. rewrite (stm_bind_run _ _ _ _ _ (track_get_run _ _ _ Hx)), Hh.
  rewrite (stm_bind_run _ _ _ _ _ (remove_from_queue_run _ _ _ Hx)). fold (dequeued t x s).
  destruct (remove_from_queue_wf None None t s x W ltac:(by left) Hx) as [W1 Hx1]. set (s1 := dequeued t x s) in *.
  set (x1 := set_in_queue false x) in *. destruct (tw_objects _ _ _ W1 t x1 Hx1) as [_ K].
  destruct (ok_refs _ _ _ _ _ K) as (R1 & R0 & R2).
  unfold sd_bus_track_ref. rewrite stm_bind_eq, (stm_bind_run _ _ _ _ _ (track_get_run _ _ _ Hx1)), (proj2 (Z.ltb_lt 0 (t_n_ref x1))) by lia.
  rewrite (stm_bind_run (sreq true EASSERT) _ s1 tt s1 eq_refl), stm_bind_eq.
  destruct (Z.ltb_spec (t_n_ref x1 + 1) (2 ^ 32)) as [Hlt|]; [|by split; [|exists None, (Some t)]]. unfold sreq at 1, slift, require.
  rewrite (mod_track_run _ _ _ _ Hx1). pose proof (called_wf t s1 x1 W1 Hx1 Hlt) as W2. rewrite stm_bind_eq. unfold smod at 1.
  eapply (ssafe_bind (fun _ => track_wf (Some t) None)); [by apply run_track_prog_wf|]. intros r s3 W3.
  apply (ssafe_bind (fun _ => track_wf (Some t) None)).
  { assert (ssafe (fun _ => track_wf (Some t) None) stopped (bus_track_add_to_queue t s3)) as Hq.
    { destruct (tw_running _ _ _ W3 t eq_refl) as [y Hy]. rewrite (add_to_queue_run _ _ _ Hy).
      by apply add_to_queue_wf; [apply (weaken_wf _ None)|]. }
    destruct r as [[|p|p]|e]; done. }
  intros _ s4 W4. destruct (tw_running _ _ _ W4 t eq_refl) as [y Hy]. destruct (tw_objects _ _ _ W4 t y Hy) as [_ K4].
  pose proof (released_wf _ _ _ W4) as W5. destruct (ok_refs _ _ _ _ _ K4) as (_ & _ & R4). rewrite decide_True in R4 by done.
  assert (H : ssafe (fun _ => track_wf None None) (track_wf None None) (sd_bus_track_unref t s4)).
  { eapply track_unref_wf; [done|done|]. rewrite decide_False by done. lia. }
  destruct (sd_bus_track_unref t s4) as [[]]; [done|]. destruct H as [H1 H2]. split; [done|]. by exists None, None.
Qed.

(** ** Closing *)

(** An object that is taken off the list, and then loses its names *)
Definition unlisted (t : nat) (x : sd_bus_track) (s : tracking) : tracking :=
  put t (set_in_list false x) (set_tracks (remove_from t (tracks s)) s).

Lemma unlisted_wf t s x : track_wf None None s -> objects s !! t = Some x -> track_wf None None (unlisted t x s).
Proof.
  intros W Hx. destruct (tw_objects _ _ _ W t x Hx) as [_ []].
  apply (wf_at None None None t s _ x (set_in_list false x)); try done; [by left| | | | |apply W..].
  - intros u Hu. split; try done; cbn; [by rewrite lookup_insert_ne|]. rewrite elem_of_remove_from. naive_solver.
  - apply lookup_insert_eq.
  - split; try done. cbn. rewrite elem_of_remove_from. naive_solver.
  - cbn. apply NoDup_remove_from, W.
Qed.

Definition flushed (t : nat) (x : sd_bus_track) (s : tracking) : tracking :=
  put t (set_names ∅ x) (set_track_matches (foldr (fun i m => delete (ti_slot i) m) (track_matches s) (map_to_list (names x)).*2) s).

Lemma flushed_wf t s x :
  track_wf None None s -> objects s !! t = Some x -> in_list x = false -> track_wf None None (flushed t x s).
Proof.
  intros W Hx Hl. destruct (tw_objects _ _ _ W t x Hx) as [_ []].
  apply (wf_at None None None t s _ x (set_names ∅ x)); try done; [by left| | | |apply W..|].
  - intros u Hu. split; try done; cbn; [by rewrite lookup_insert_ne|]. intros slot r. rewrite lookup_delete_slots. split; [by intros []|].
    intros Hs. split; [done|]. intros Hin. apply list_elem_of_fmap in Hin as (i & -> & Hin).
    apply list_elem_of_fmap in Hin as ([n j] & -> & Hin). apply elem_of_map_to_list in Hin. destruct (ok_items0 _ _ Hin) as [_ Hs'].
    cbn in *. congruence.
  - apply lookup_insert_eq.
  - split; try done.
    + cbn. naive_solver.
    + intros slot r Hs. apply lookup_delete_slots in Hs as [Hs Hnot]. destruct (ok_matches0 _ _ Hs) as (n & i & Hi & <-). destruct Hnot.
      apply list_elem_of_fmap. exists i. split; [done|]. apply list_elem_of_fmap. exists (n, i). split; [done|]. by apply elem_of_map_to_list.
    + cbn. by rewrite Hl.
  - intros slot v Hs. cbn in Hs. destruct v. apply lookup_delete_slots in Hs as [Hs _]. exact (tw_slots _ _ _ W _ _ Hs).
Qed.

Lemma close_wf t s x :
  track_wf None None s -> objects s !! t = Some x -> ssafe (fun _ => track_wf None None) stopped (bus_track_close order handlers t s).
Proof.
  intros W Hx. unfold bus_track_close. rewrite (stm_bind_run _ _ _ _ _ (track_get_run _ _ _ Hx)).
  destruct (in_list x); [|done]. cbn [negb].
  match goal with |- context [(smod ?f ≫= ?g) s] => rewrite (stm_bind_run (smod f) g s tt (set_tracks (remove_from t (tracks s)) s) eq_refl) end.
  rewrite (stm_bind_run _ _ _ _ _ (mod_track_run t _ (set_tracks _ s) x Hx)). fold (unlisted t x s).
  pose proof (unlisted_wf t s x W Hx) as W1. set (x1 := set_in_list false x).
  assert (Hx1 : objects (unlisted t x s) !! t = Some x1) by apply lookup_insert_eq.
  case_bool_decide; [done|]. unfold free_items.
  match goal with |- context [(smod ?f ≫= ?g) ?s1] => rewrite (stm_bind_run (smod f) g s1 tt (f s1) eq_refl) end.
  match goal with |- context [(mod_track t ?f ≫= ?g) ?s2] => rewrite (stm_bind_run _ g s2 _ _ (mod_track_run t f s2 x1 Hx1)) end.
  pose proof (flushed_wf t (unlisted t x s) x1 W1 Hx1 eq_refl) as W2. case_bool_decide; [|done].
  eapply dispatch_wf; [exact W2|apply lookup_insert_eq|done].
Qed.

(** ** Whole runs *)
Lemma alive D O s t : track_wf D O s -> (t ∈ tracks s \/ t ∈ track_queue s \/ exists slot r, track_matches s !! slot = Some (t, r)) ->
  is_Some (objects s !! t).
Proof.
  intros W H. destruct (objects s !! t) eqn:E; [by eexists|]. destruct (tw_gone _ _ _ W t E) as (H1 & H2 & H3). naive_solver.
Qed.

Lemma act_wf a s : track_wf None None s -> ssafe (fun _ => track_wf None None) stopped (act order handlers a s).
Proof.
  intros W. destruct a as [p|slot m| |]; cbn [act].
  - eapply ssafe_bind; [by apply run_track_prog_wf|done].
  - unfold deliver. rewrite (stm_bind_run sget _ s s s eq_refl). destruct (track_matches s !! slot) as [[t r]|] eqn:E; [|done].
    destruct (alive None None s t W ltac:(eauto)) as [x Hx]. unfold on_name_owner_changed.
    destruct (read_name m) as [[name|] m1], (read_name m1) as [[old|] m2], (read_name m2) as [[new|] m3]; try done.
    apply (ssafe_bind (fun _ => track_wf None None)); [|done]. pose proof (remove_name_fully_wf None t name s x W Hx) as H.
    destruct (bus_track_remove_name_fully t name s) as [[]]; [done|]. destruct H. split; [done|]. by exists None, None.
  - apply (ssafe_bind (fun _ => track_wf None None)); [|done]. unfold dispatch_track. rewrite (stm_bind_run sget _ s s s eq_refl).
    destruct (track_queue s) as [|t q] eqn:E; [done|].
    destruct (alive None None s t W) as [x Hx]; [right; left; rewrite E; left|]. destruct (tw_objects _ _ _ W t x Hx) as [_ K].
    apply (ssafe_bind (fun _ => track_wf None None)); [|done]. eapply dispatch_wf; [done|done|]. apply K, K. rewrite E. left.
  - apply (ssafe_bind (fun _ => track_wf None None)); [|done]. unfold close_first. rewrite (stm_bind_run sget _ s s s eq_refl).
    destruct (tracks s) as [|t q] eqn:E; [done|]. destruct (alive None None s t W) as [x Hx]; [left; rewrite E; left|].
    apply (ssafe_bind (fun _ => track_wf None None)); [|done]. by eapply close_wf.
Qed.

Lemma run_tracking_wf l : forall s, track_wf None None s -> ssafe (fun _ => track_wf None None) stopped (run_tracking order handlers l s).
Proof.
  induction l as [|a l IH]; intros s W; cbn [run_tracking]; [done|].
  eapply ssafe_bind; [by apply act_wf|]. intros [] s' W'. by apply IH.
Qed.

(** C17. Whatever users and handlers do with objects that track peers - handlers that
    call the library back included -, whatever names leave the bus, and when the
    connection closes: no assertion fails and nobody touches an object that is gone;
    every match that is installed belongs to an object that still is and to one of
    its names; what waits for its handler has no names and is still there; and an
    object without names either waits, or its handler was called after it had lost
    the last one. *)
Theorem tracking_invariant l r s :
  run_tracking order handlers l no_tracking = (r, s) ->
  r <> Err EASSERT /\
  (r = Ok tt -> NoDup (track_queue s) /\ NoDup (tracks s) /\
    (forall t, t ∈ track_queue s -> exists x, objects s !! t = Some x /\ names x = ∅ /\ is_Some (t_handler x)) /\
    (forall slot t rule, track_matches s !! slot = Some (t, rule) ->
       exists x n i, objects s !! t = Some x /\ names x !! n = Some i /\ ti_slot i = slot /\ rule = match_for_name n) /\
    (forall t x, objects s !! t = Some x -> t ∈ tracks s -> is_Some (t_handler x) -> names x = ∅ ->
       t ∈ track_queue s \/ last_event t (track_events s) = Some (Called t)) /\
    (forall t x, objects s !! t = Some x -> default 0 (held s !! t) <= t_n_ref x)).
Proof.
  intros E. pose proof (run_tracking_wf l no_tracking no_tracking_wf) as H. rewrite E in H.
  destruct r as [[]|e]; [|destruct H as [H _]; split; [congruence|done]]. rename H into W. cbn in W. split; [done|]. intros _.
  split; [apply W|]. split; [apply W|]. split_and!.
  - intros t Ht. destruct (alive None None s t W ltac:(auto)) as [x Hx]. exists x. split; [done|].
    destruct (tw_objects _ _ _ W t x Hx) as [_ K]. apply K, K, Ht.
  - intros slot t rule Hs. destruct (alive None None s t W ltac:(eauto)) as [x Hx]. destruct (tw_objects _ _ _ W t x Hx) as [_ K].
    destruct (ok_matches _ _ _ _ _ K slot rule Hs) as (n & i & Hi & Hsl). exists x, n, i. split_and!; try done.
    destruct (ok_items _ _ _ _ _ K n i Hi) as [_ Hm]. rewrite Hsl in Hm. congruence.
  - intros t x Hx Ht Hh Hn. destruct (tw_objects _ _ _ W t x Hx) as [_ K].
    destruct (ok_called _ _ _ _ _ K ltac:(done)) as [H|H]; [by apply K|done|done|left; by apply K|by right].
  - intros t x Hx. destruct (tw_objects _ _ _ W t x Hx) as [_ K]. destruct (ok_refs _ _ _ _ _ K) as (_ & _ & R).
    rewrite decide_False in R by done. lia.
Qed.
End Programs.

(** ** Concrete inputs, and the rule of the matches *)
(** ** The rule *)
Definition name_components (name : cstr) : list bus_match_component :=
  [Component BUS_MATCH_MESSAGE_TYPE SD_BUS_MESSAGE_SIGNAL None; Component BUS_MATCH_SENDER 0 (Some (bs "org.freedesktop.DBus"));
   Component BUS_MATCH_PATH 0 (Some (bs "/org/freedesktop/DBus")); Component BUS_MATCH_INTERFACE 0 (Some (bs "org.freedesktop.DBus"));
   Component BUS_MATCH_MEMBER 0 (Some (bs "NameOwnerChanged")); Component (BUS_MATCH_ARG 0) 0 (Some name)].

Lemma match_for_name_format name :
  plain name -> match_for_name name = format_rule (map (pair (Style true 0)) (name_components name)).
Proof.
  intros Hn. unfold format_rule, name_components. cbn [map join_with]. unfold format_component at 6.
  cbn [quotes spaces c_type value_text value_str]. unfold value_text. cbn [c_type value_str].
  rewrite bool_decide_false by done. cbn [default]. rewrite escape_plain by done. by vm_compute.
Qed.

(** The rule a track object installs for a name is parsed as it is meant: the signal
    of the bus that says that this name changed its owner. *)
Lemma match_for_name_parses name :
  is_cstr name -> service_name_is_valid name = true ->
  bus_match_parse (match_for_name name) =
  Ok [Component BUS_MATCH_SENDER 0 (Some (bs "org.freedesktop.DBus")); Component BUS_MATCH_MESSAGE_TYPE SD_BUS_MESSAGE_SIGNAL None;
      Component BUS_MATCH_INTERFACE 0 (Some (bs "org.freedesktop.DBus")); Component BUS_MATCH_MEMBER 0 (Some (bs "NameOwnerChanged"));
      Component BUS_MATCH_PATH 0 (Some (bs "/org/freedesktop/DBus")); Component (BUS_MATCH_ARG 0) 0 (Some name)].
Proof.
  intros Hc Hv. destruct (valid_names_plain name Hc) as (Hp & _). rewrite match_for_name_format by auto.
  unfold bus_match_parse. rewrite parse_loop_format.
  - rewrite map_map, map_id. cbn [mbind res_bind]. done.
  - apply Forall_map. unfold name_components.
    repeat constructor; cbn; try done; eexists; (split; [done|]); try done; apply forallb_Forall_cstr; by vm_compute.
  - lia.
Qed.

(** ** A run

    Handler 0 returns 1; handler 1 tracks another name and drops its reference. *)
Definition peer : cstr := bs ":1.42".
Definition sample_handlers (h t : nat) : track_prog :=
  match h with
  | O => TrackReturn (Ok 1)
  | _ => TrackDo (AddName t (bs "org.example.A") (Ok tt) (Ok tt)) (fun _ => TrackDo (TrackUnref t) (fun _ => TrackReturn (Ok 0)))
  end.

Definition ignore (op : track_op) (p : track_prog) : track_prog := TrackDo op (fun _ => p).
Definition keys (g : gmap (list Z) track_item) : list (list Z) := (map_to_list g).*1.

Definition sample_tracking : list track_action :=
  [UserRuns (ignore (TrackNew true (Some 0%nat)) (ignore (AddName 0 peer (Ok tt) (Ok tt))
     (ignore (TrackNew true (Some 1%nat)) (TrackReturn (Ok 0)))));
   DispatchTurn;
   UserRuns (ignore (AddName 0 (bs "org.example.B") (Ok tt) (Err EPERM)) (ignore (FirstName 0) (ignore (RemoveName 0 peer) (TrackReturn (Ok 0)))))].

Definition sample_tracked : res unit * tracking := Eval vm_compute in run_tracking keys sample_handlers sample_tracking no_tracking.

Lemma tracking_invariant_witness :
  sample_tracked.1 = Ok tt /\ track_queue sample_tracked.2 = [0%nat] /\ track_events sample_tracked.2 = [Called 2%nat; Emptied 0%nat] /\
  (sample_tracked.1 <> Err EASSERT /\
  (sample_tracked.1 = Ok tt -> NoDup (track_queue sample_tracked.2) /\ NoDup (tracks sample_tracked.2) /\
  (forall t, t ∈ track_queue sample_tracked.2 ->
       exists x, objects sample_tracked.2 !! t = Some x /\ names x = ∅ /\ is_Some (t_handler x)) /\
  (forall slot t rule, track_matches sample_tracked.2 !! slot = Some (t, rule) ->
       exists x n i, objects sample_tracked.2 !! t = Some x /\ names x !! n = Some i /\ ti_slot i = slot /\ rule = match_for_name n) /\
  (forall t x, objects sample_tracked.2 !! t = Some x -> t ∈ tracks sample_tracked.2 -> is_Some (t_handler x) -> names x = ∅ ->
       t ∈ track_queue sample_tracked.2 \/ last_event t (track_events sample_tracked.2) = Some (Called t)) /\
  (forall t x, objects sample_tracked.2 !! t = Some x -> default 0 (held sample_tracked.2 !! t) <= t_n_ref x))).
Proof.
  split; [done|]. split; [done|]. split; [done|].
  apply (tracking_invariant keys sample_handlers sample_tracking sample_tracked.1 sample_tracked.2). by vm_compute.
Defined.

(** In a recursive object the second reference to a name is counted for the object,
    which is never freed, and not for the name, which goes with its first removal. *)
Example recursive_add_counts_object :
  let run op s := (perform keys op s).2 in
  let s := run (AddName 0 peer (Ok tt) (Ok tt)) (run (AddName 0 peer (Ok tt) (Ok tt)) (run (SetRecursive 0 true)
             (run (TrackNew true None) no_tracking))) in
  (perform keys (CountName 0 peer) s).1 = Ok 1 /\ (t_n_ref <$> objects s !! 0%nat) = Some 2 /\
  (perform keys (CountName 0 peer) (run (RemoveName 0 peer) s)).1 = Ok 0 /\
  (t_n_ref <$> objects (run (TrackUnref 0) s) !! 0%nat) = Some 1.
Proof. by vm_compute. Qed.
